(* ===== verification/_CoqProject ===== *)
-Q . S2P
Prelude.v
Text.v
PlanTypes.v
PlanDefinition.v
PlanLifecycle.v
PlanProgress.v
PlanMachine.v
PlanTheorems.v
GoalTypes.v
GoalTheorems.v
Json.v
JsonDecode.v
CanonicalTheorems.v
LedgerTypes.v
FactsTurn.v
FactsPlan.v
FactsMemory.v
RuntimeFacts.v
FactShapes.v
ProjectionTypes.v
Projection.v
LedgerState.v
LedgerTheorems.v
ProjectionInvariant.v
ProjectionSteps.v
Governance.v
ScheduleFacts.v
DelegationFacts.v
LedgerSamples.v
SessionTheorems.v
RuntimeFactTheorems.v
Scheduler.v
SchedulerTheorems.v
ModelTypes.v
ContextSurface.v
ContextTheorems.v
Float64.v
ToolSchema.v
SchemaTheorems.v
Order.v
ToolAccess.v
ToolPrepared.v
ToolTheorems.v
ToolPatch.v
BuiltinTools.v
AutomationTools.v
ToolBatch.v
GovernedEffect.v
Checks.v
Skill.v
Kernel.v
KernelTheorems.v
KernelRuns.v
Delegation.v
Collaboration.v
Knowledge.v
MemoryTypes.v
MemoryStore.v
MemoryTheorems.v
MemoryRecall.v
MemoryReview.v
MemoryDocument.v
DocumentTheorems.v
MemoryImport.v
MemorySnapshot.v
Config.v
ConfigTheorems.v
MemoryContext.v
ProcessProtocol.v
ProcessTheorems.v
Evaluation.v
Observability.v
Sse.v
Responses.v
Messages.v
Compatible.v
CompatibleTheorems.v
SqliteLedger.v
SqliteTheorems.v
