(* ===== verification/Prelude.v ===== *)
(** * Garive: the portable engine, verified

    Garive is an agent platform written in Rust.  Its engine ([src/engine]) keeps
    the pure core of the program: every decision an agent run makes is written as
    facts to a durable ledger, and every state the runtime acts on is projected
    from those facts.  This library models that core and proves it correct.

    ** The parts and how they interact

    - The ledger ([src/engine/ledger]) stores the facts of each session.
      [LedgerState::commit] checks a batch of fact drafts, detects retries, and
      appends the batch atomically at an expected version.  Each draft is first
      validated ([types.rs]), then checked against the payload schema of its kind
      ([runtime_facts]), then applied to the session projection
      ([projection.rs]), whose handlers are the state machines of turns,
      executions, model requests, effects, interactions, knowledge requests,
      schedules and delegations.  Payloads are canonical JSON bound to a SHA-256
      ([canonical.rs]).
    - Plans ([src/engine/plan]) are dependency graphs of steps with attempt and
      parallelism bounds, driven by transitions.
    - Goals ([src/engine/goal]) are objectives with criteria, closed by evidence;
      child Goals may only narrow what their parent was given.
    - The scheduler ([src/engine/scheduler]) reduces a schedule intent and the last
      handled ordinal against an observed clock; the ledger records the outcome as
      schedule facts.
    - The kernel ([src/engine/core]) runs one turn: it derives the context of the
      model from ledger facts, sends the model request ([src/engine/llm]) through a
      port, accounts the usage, and hands every tool intent of the answer to the
      governed effect port, until it proposes an outcome.
    - Tools ([src/engine/tools]) turn a model's untrusted intent into a prepared
      call: schema validation, exact resource accesses under a policy, sandbox
      requirements and a digest; batches of calls are planned around their
      conflicts, and one invocation goes through authorization, interaction and
      execution in the governed effect reducer.
    - Skills ([src/engine/skill]) select the instructions of an iteration and
      narrow the tools it may use.
    - Configuration ([src/engine/config]) resolves the definition of an agent
      against a registry and a product policy into the snapshot a turn is bound to.
    - Memory ([src/engine/memory]) keeps revisions of records, retrieves and
      recalls them, audits and erases them, and exports and imports them as
      documents a person can edit; recalled memory enters the context of the kernel
      ([core/src/memory_context.rs]).  Knowledge ([src/engine/knowledge]) and
      delegation ([src/engine/multiagent]) are the other capabilities of a turn.
    - The process protocol ([src/engine/proto]) binds what the runtime sends to the
      service that runs a workload in a virtual machine and what comes back.
      Signals ([src/engine/observability]) and evaluation evidence
      ([src/engine/eval]) are values the runtime and the benchmarks publish.
    - The adapters ([src/adapters]) of the two model protocols build and validate
      requests and decode answers and event streams; the compatible providers
      ([src/providers/compatible]) map the neutral model contract of the kernel to
      either of them and back.
    - The durable ledger ([src/runtime/replica/src/sqlite_ledger]) keeps the ledger
      in a database, rebuilds its state from the rows for every operation, and
      grants the leases under which workers execute turns and schedules.

    ** Files

    - [Prelude]: Rust's [Result] and [Option] idioms, machine integers, byte
      strings, ordered maps, record update, shared tactics and lemmas.
    - [PlanTypes], [PlanDefinition]: [plan/src/lib.rs],
      [topology.rs], [decode.rs].  [PlanLifecycle]: [lifecycle.rs].
      [PlanProgress]: the invariant of reachable snapshots.  [PlanMachine]: the
      abstract Plan machine and its implementation.  [PlanTheorems]: the theorems.
    - [GoalTypes], [GoalTheorems]: [goal/src/lib.rs], [lifecycle.rs].
    - [Json], [JsonDecode], [CanonicalTheorems]: JSON values, the canonical
      encoder and payloads ([ledger/src/canonical.rs]), a reference reader.
    - [LedgerTypes]: [ledger/src/types.rs] and the field checks of
      [runtime_facts].  [FactsTurn] (with effects), [FactsPlan] (with goals and the other capabilities),
      [FactsMemory], [RuntimeFacts]: [ledger/src/runtime_facts].  [FactShapes]: the flat
      table of what each kind carries, [RuntimeFactTheorems]: that it is enforced.
    - [ProjectionTypes], [Projection]: [ledger/src/projection.rs], one definition
      per handler.  [ProjectionInvariant] (lifecycles), [ProjectionSteps]
      (abstract machines, closing), [Governance] (safety decisions, sandbox
      proofs and the order of batches), [ScheduleFacts] (schedules),
      [DelegationFacts] (delegations): what every handler preserves.
    - [LedgerState]: [ledger/src/state.rs].  [LedgerTheorems]: histories, versions, retries, reads.  [LedgerSamples],
      [SessionTheorems]: concrete histories, and what holds of the projection of
      every session of every reachable ledger.
    - [Scheduler]: [scheduler/src/values.rs], [recurrence.rs].
      [SchedulerTheorems]: decisions against a timetable, bindings.
    - [Text], [Order], [Float64]: the string, line, UTF-8, base64,
      sorting and [f64] operations that the crates use.
    - [ModelTypes]: [llm/src/outcome.rs], [request.rs], [stream.rs].
      [ContextSurface], [ContextTheorems]: [core/src/context.rs].
    - [ToolSchema], [SchemaTheorems]: [tools/src/schema.rs],
      [schema_validate.rs], [unique_json.rs].  [ToolAccess]: [access.rs].
      [ToolPrepared], [ToolTheorems]: [prepared.rs], [sandbox.rs].  [ToolPatch]:
      [t1_patch.rs].  [BuiltinTools]: [basic_tools.rs].  [AutomationTools]:
      [browser_tools.rs], [computer_tools.rs].  [ToolBatch]: [batch.rs].
      [GovernedEffect]: [governed_types.rs],
      [governed_reducer.rs], [governed_outcome.rs].
    - [Skill]: [skill/src/definition.rs], [reducer.rs].
    - [Kernel]: [core/src/turn.rs], [model_only_types.rs],
      [model_only_support.rs], [model_only.rs], [governed_execution.rs].
      [KernelTheorems]: runs against an environment, the protocol of port calls.
      [KernelRuns]: whole executions.
    - [Checks]: the input checks, bounded prefixes and content bindings
      that the capability crates repeat.
    - [Delegation]: [multiagent/src/values.rs], [budget.rs],
      [grant.rs], [intent.rs], [result.rs].  [Collaboration]:
      [collaboration.rs], [tools.rs].
    - [Knowledge]: [knowledge/src].
    - [MemoryTypes]: [memory/src/values.rs], [hypothesis.rs], [lifecycle.rs].
      [MemoryStore], [MemoryTheorems]: [write.rs], [query.rs], and the theorems on
      the lifecycle.  [MemoryRecall]: [recall.rs],
      [recall_quality.rs], [feedback_quality.rs].  [MemoryReview]:
      [observation.rs], [maintenance.rs], [promotion.rs], [audit.rs],
      [erasure.rs].
    - [MemoryDocument], [DocumentTheorems]: [memory/src/control_plane.rs].
      [MemoryImport]: [control_plan.rs],
      [control_plan_values.rs].  [MemorySnapshot]:
      [control_snapshot.rs], [control_snapshot_values.rs].
    - [MemoryContext]: [core/src/memory_context.rs].
    - [Config], [ConfigTheorems]: [config/src/definition.rs],
      [intent.rs], [snapshot.rs], [resolve.rs].
    - [ProcessProtocol], [ProcessTheorems]: [proto/src/process_digest.rs],
      [process_state.rs], [process_frame.rs], and the messages of [process.proto].
    - [Evaluation]: [eval/src].  [Observability]: [observability/src].
    - [Sse], [Responses]: [adapters/openai-responses/src].  [Messages]:
      [adapters/anthropic-messages/src].  [Compatible], [CompatibleTheorems]:
      [providers/compatible/src].
    - [SqliteLedger], [SqliteTheorems]: [sqlite_ledger/mod.rs], [storage.rs],
      [lease.rs], [schedule_lease.rs], [monotonic_clock.rs] and the tables of
      [migrations.rs].

    ** How the model reads the code

    A [Result] is [result E A]; [?] is [let? x := m in k] or [m ?; k], an early
    [return Err] is [reject e when c; k].  A method on [&mut self] takes the state
    and returns the next one; a failed method returns no state, because every
    caller works on a clone.  A [BTreeMap] keyed by an identity is a [gmap] keyed
    by its text, iterated in key order by [entries] and [values].  Integers are
    [Z] with the checked and wrapping operations of their width written out.  A
    string is the list of its UTF-8 bytes.  An indexing expression that panics is
    the value [Panicked] of [Abort].  The ports of the kernel are effects: the loop
    is a [Program], a tree of port calls with a branch for every answer, and [play]
    runs it against an [Environment] that answers from the calls so far.

    Code outside the repository is a parameter: SHA-256, [serde_json::from_str]
    and chrono are the class [Externals]; its law [ExternalsLaws] says that the
    reader reads back what the canonical encoder writes.  [model_externals] is an
    instance that computes, with the law proved, so no theorem is vacuous.  The
    serde derives and the JCS writer of Plans and Goals are arguments of the
    decoders, with the law that a written document reads back as its fields.
    The scheduler adds chrono's range of instants ([Instants], [InstantLaws]) and
    the codec of intents ([IntentCodec], [IntentCodecLaws]), both instantiated in
    [ScheduleSample].

    The tools and the kernel add the JSON tokenizer of arguments
    ([ArgumentReader]), the writer of RFC 8785 text ([Jcs]), [serde_json::to_vec]
    ([JsonWriter]) and the parser of URLs ([UrlReader]); their theorems need no law
    of them, and [ToolSample], [SkillSample] and [KernelSample] instantiate them.
    The memory control plane adds base64 ([Base64], [Base64Laws], instantiated by
    [UrlSafe]), the derived reader of a manifest ([ManifestReader]) and the Unicode
    lowercase mapping ([Lowercase]).  The process protocol adds the binary digest
    ([Sha256]) and the codec prost generates ([ProstMessage], [ProstLaws]),
    instantiated in [ProcessSample].  The adapters add the syntax of headers and
    URIs ([HttpCrate]) and the parser of a byte slice ([ResponsesSlices],
    [MessagesSlices]), instantiated in [CompatibleSample].  The durable ledger
    needs of SHA-256 only that its text has 64 characters ([DigestLength]); SQLite
    is the finite maps of [Database] with the constraints of its tables.

    Five recursions use fuel.  The topology loop gets one round more than there are
    steps, and [acyclic_loop_total] shows this is always enough.  The reference
    reader gets the length of the text, enough by [text_size].  The schema
    recursions get the depth of the schema, enough by [schema_validation_exact].
    The kernel loop gets one round more than the iterations left, enough by
    [kernel_follows_protocol].  The expansion of instructions gets two rounds more
    than the registry has resources, enough by [config_instructions_exact].

    ** What the theorems show

    Ledger: a session's history replays to its projection; commits append
    exactly, once per version; retries are idempotent; reads and turn snapshots
    are exact.  Sessions: lifecycles are consistent and refine abstract machines;
    final states and closed sessions stay as they are; contract-v3 effects run
    only under an Allow decision and a sandbox proof that the facts that started
    them name, dispatch attempt included; batched effects
    start in plan order; schedule occurrences are handled once and in order;
    delegations follow their machine, one open per parent turn.  Scheduler:
    decisions agree with the timetable and are always reached before 2262, a
    skipped range is exactly the misfired one, bindings are exact.
    Facts: an applied fact has the identities, the fields and the types of fields
    that one flat table gives for its kind.  Payloads: the encoding is injective and total off floats,
    and storage round trips.  Plans: the check for cycles is exact; transitions are
    those of the Plan machine; dependencies complete first; attempts are accounted and bounded; no deadlock; documents
    round trip.  Goals: success has complete evidence; revisions are contiguous;
    descendants narrow; documents round trip.  Kernel: whatever the ports answer, a
    run follows the protocol of port calls to its one proposed outcome, within the
    iteration and token limits, with every effect prepared from an intent of the
    last answer; the context keeps every required candidate and the newest optional
    ones that fit.  Tools: validation has the declarative meaning of the schema,
    prepared calls carry exactly the accesses of their arguments within the policy,
    patches apply where their context matches once, batch plans partition the
    intents without conflicts, and an invocation is dispatched only under a grant
    bound to it and resumed only by the interaction it was suspended for.  Skills: the activated ones are the leading candidates within the
    bounds.  Delegation: allowance, reservation and charge are conserved, and a
    result satisfies the schema of its intent.  Knowledge: an answer is the longest
    bounded prefix of admitted evidence.  Memory: the revisions of a record form a
    chain with at most one active end, retrieval returns only what the query may
    see, the lifecycle refines its machine, recall and audit stay within their
    bounds; documents and packages round trip, an import plan holds exactly the
    admitted changes, and recalled memory enters a context only as bound.
    Configuration: instructions resolve in dependency order or are refused for a
    reason that is there, and a snapshot never grants more than the definition, the
    governance policy and the product all grant.  Processes: an attempt is started
    at most once, equal receipt digests mean the same run unless SHA-256 collides,
    and the strict decoders accept exactly the frames of admitted messages.
    Evaluation: summaries count exactly, the classes of an experiment add up.
    Signals: what a signal carries is in the catalogue.  Adapters: frames are read
    whatever the division into chunks, the Responses decoder accepts exactly the
    lifecycles of its protocol, and what the Messages decoder accepts is one.  Compatible providers: a mapped request carries
    the whole input in order, a streamed answer gives the outcome of the buffered
    one, tool names are restored.  Durable ledger: over any commands the database
    answers as the state in memory and loads to it; a lost lease stays lost; the
    persistent clock never goes back.

    Twelve theorems exhibit behaviour that differs from the documentation or from
    what the code means to do: [plan_resume_step_exceeds_parallel_bound],
    [plan_start_leaves_suspension], [goal_decode_admits_oversized_identity],
    [opaque_fact_changes_projection], [patch_cannot_empty_a_file],
    [patch_refuses_removed_dashes], [skill_activation_may_be_empty],
    [preparation_port_escapes_narrowing],
    [partial_completion_accepts_observations], [memory_document_roundtrip],
    [draft_token_admits_dots] and [repeated_memory_is_invalid_binding].

    ** Not modelled

    The host and the bridges of the runtime, the memory tables of its database and
    the migrations between schema versions, the browser adapters, the HTTP calls of
    the providers, the clients and the user interfaces are I/O around the engine.
    Digest methods that only hash a canonical text
    are left out, and so are chrono's leap-second instants. *)

From Stdlib Require Export ZArith Lia String Ascii.
From stdpp Require Export base gmap strings sorting numbers.
From stdpp Require Export list.
#[global] Open Scope Z_scope.

(** ** Rust [Result] *)

Inductive result (E A : Type) : Type :=
  | Ok (a : A)
  | Err (e : E).
Arguments Ok {E A} a.
Arguments Err {E A} & e.

#[export] Instance result_eq_dec {E A} `{EqDecision E, EqDecision A} : EqDecision (result E A).
Proof. solve_decision. Defined.

Declare Scope garive_scope.
Delimit Scope garive_scope with garive.
#[global] Open Scope garive_scope.

(** [let? x := m in k] is Rust's [let x = m?; k]. *)
Notation "'let?' x ':=' m 'in' k" :=
  (match m with Ok x => k | Err e => Err e end)
  (at level 10, x pattern, m at level 100, k at level 200) : garive_scope.

(** [m ?; k] is Rust's [m?; k] for a unit result. *)
Notation "m '?;' k" :=
  (match m with Ok _ => k | Err e => Err e end)
  (at level 199, right associativity) : garive_scope.

(** [reject e when c; k] is Rust's [if c { return Err(e); } k]. *)
Notation "'reject' e 'when' c ; k" :=
  (if c then Err e else k)
  (at level 10, e at level 9, c at level 100, k at level 200) : garive_scope.

(** [Option::ok_or]. *)
Definition ok_or {E A} (o : option A) (e : E) : result E A :=
  match o with Some a => Ok a | None => Err e end.

(** [Result::is_ok]. *)
Definition is_ok {E A} (r : result E A) : bool :=
  match r with Ok _ => true | Err _ => false end.

(** [Option::is_some_and] and [Option::is_none_or]. *)
Definition is_some_and {A} (f : A -> bool) (o : option A) : bool :=
  match o with Some a => f a | None => false end.
Definition is_none_or {A} (f : A -> bool) (o : option A) : bool :=
  match o with Some a => f a | None => true end.
Definition is_some {A} (o : option A) : bool :=
  match o with Some _ => true | None => false end.
Definition is_none {A} (o : option A) : bool := negb (is_some o).

(** [Iterator::try_for_each] over a slice. *)
Fixpoint try_for_each {E A} (f : A -> result E unit) (l : list A) : result E unit :=
  match l with
  | [] => Ok tt
  | x :: l => f x ?; try_for_each f l
  end.

(** [iter().map(f).collect::<Result<Vec<_>, _>>()]. *)
Fixpoint try_map {E A B} (f : A -> result E B) (l : list A) : result E (list B) :=
  match l with
  | [] => Ok []
  | x :: l => let? y := f x in let? ys := try_map f l in Ok (y :: ys)
  end.

(** A [for] loop over a slice whose body updates a state and may return early. *)
Fixpoint try_fold {E A S} (f : S -> A -> result E S) (s : S) (l : list A) : result E S :=
  match l with
  | [] => Ok s
  | x :: l => let? s' := f s x in try_fold f s' l
  end.

Lemma try_fold_app {E A S} (f : S -> A -> result E S) s l1 l2 :
  try_fold f s (l1 ++ l2) = let? s' := try_fold f s l1 in try_fold f s' l2.
Proof. revert s. induction l1 as [|x l1 IH]; intros s; simpl; [done|]. by destruct (f s x). Qed.

(** ** Machine integers *)

Definition u32_max : Z := 4294967295.
Definition u64_max : Z := 18446744073709551615.
Definition i64_max : Z := 9223372036854775807.
Definition i64_min : Z := -9223372036854775808.

Definition is_u32 (x : Z) : Prop := 0 <= x <= u32_max.
Definition is_u64 (x : Z) : Prop := 0 <= x <= u64_max.

Definition wrap_u32 (x : Z) : Z := x mod 4294967296.
Definition checked_u64 (x : Z) : option Z :=
  if (0 <=? x) && (x <=? u64_max) then Some x else None.
Definition checked_add (a b : Z) : option Z := checked_u64 (a + b).
Definition checked_sub (a b : Z) : option Z := checked_u64 (a - b).
Definition checked_mul (a b : Z) : option Z := checked_u64 (a * b).
Definition i64_try_from (x : Z) : option Z :=
  if (i64_min <=? x) && (x <=? i64_max) then Some x else None.
Definition u64_try_from (x : Z) : option Z := checked_u64 x.
Definition u32_try_from (n : Z) : option Z := if (0 <=? n) && (n <=? u32_max) then Some n else None.

(** ** Strings as UTF-8 byte strings *)

(** Rust's [str::len] counts bytes; a [string] is the list of its bytes. *)
Definition str_len (s : string) : Z := Z.of_nat (String.length s).
Definition str_is_empty (s : string) : bool := (s =? "")%string.
Definition byte_code (c : ascii) : Z := Z.of_N (N_of_ascii c).

Fixpoint all_bytes (f : ascii -> bool) (s : string) : bool :=
  match s with
  | EmptyString => true
  | String c s => f c && all_bytes f s
  end.

(** [u8::is_ascii_hexdigit] and [u8::is_ascii_uppercase]. *)
Definition is_ascii_digit (c : ascii) : bool :=
  (48 <=? byte_code c) && (byte_code c <=? 57).
Definition is_ascii_uppercase (c : ascii) : bool :=
  (65 <=? byte_code c) && (byte_code c <=? 90).
Definition is_ascii_hexdigit (c : ascii) : bool :=
  is_ascii_digit c
  || ((97 <=? byte_code c) && (byte_code c <=? 102))
  || ((65 <=? byte_code c) && (byte_code c <=? 70)).

(** A lowercase SHA-256 in hexadecimal; the crates repeat this helper. *)
Definition valid_digest (value : string) : bool :=
  (str_len value =? 64)
  && all_bytes (fun b => is_ascii_hexdigit b && negb (is_ascii_uppercase b)) value.

(** [str::starts_with]. *)
Fixpoint starts_with (prefix s : string) : bool :=
  match prefix, s with
  | EmptyString, _ => true
  | String a prefix, String b s => Ascii.eqb a b && starts_with prefix s
  | String _ _, EmptyString => false
  end.

(** ** Association tables *)

(** First entry of a key, as a [match] on string literals takes its first arm. *)
Fixpoint assoc {A} (k : string) (l : list (string * A)) : option A :=
  match l with
  | [] => None
  | (k', a) :: l => if (k =? k')%string then Some a else assoc k l
  end.

(** ** Ordered maps ([BTreeMap]) *)

Definition key_le {A} (p q : string * A) : Prop := (p.1 <=? q.1)%string = true.
#[export] Instance key_le_dec {A} (p q : string * A) : Decision (key_le p q).
Proof. unfold key_le. apply _. Defined.

(** Entries in key order, the iteration order of a [BTreeMap<String, A>]. *)
Definition entries {A} (m : gmap string A) : list (string * A) :=
  merge_sort key_le (map_to_list m).
Definition values {A} (m : gmap string A) : list A := (entries m).*2.
Definition any_value {A} (f : A -> bool) (m : gmap string A) : bool := existsb f (values m).
Definition all_values {A} (f : A -> bool) (m : gmap string A) : bool := forallb f (values m).

(** ** Record update

    [r <| f := v |>] is the record [r] with the field [f] replaced by [v].  A
    record opts in by an [Eta] instance that rebuilds a value from its fields. *)

Class Eta (R : Type) := eta_rebuild : R -> R.
Class Setter {R T : Type} (field : R -> T) := set_field : (T -> T) -> R -> R.
Arguments set_field {R T} field {Setter} f r /.

Ltac build_setter p :=
  lazymatch type of p with
  | ?R -> _ =>
      let inst := constr:(_ : Eta R) in
      let body := eval hnf in inst in
      lazymatch (eval pattern p in body) with
      | ?g _ => let t := eval cbv beta in (fun f => g (fun r => f (p r))) in exact t
      end
  end.

#[export] Hint Extern 1 (Setter ?p) => build_setter p : typeclass_instances.

#[local] Set Warnings "-postfix-notation-not-level-1".
Notation "r <| f := v |>" := (set_field f (fun _ => v) r)
  (at level 12, left associativity, v at level 200) : garive_scope.
Notation "r <| f ::= g |>" := (set_field f g r)
  (at level 12, left associativity, g at level 200) : garive_scope.

(** ** Automation *)

(** Splits the first [match] of a hypothesis or of the goal and clears the
    branches that return the other constructor. *)
Ltac split_match_in H :=
  match type of H with
  | context [match ?x with _ => _ end] =>
      lazymatch x with
      | context [match _ with _ => _ end] => fail
      | _ => let E := fresh "E" in destruct x eqn:E; try discriminate H
      end
  end.

(** [inv_ok H] opens a successful computation [H : m = Ok v] into the facts its
    branches checked. *)
Ltac inv_ok H := repeat (split_match_in H; simplify_eq H || idtac); simplify_eq H || idtac.

Ltac bool_hyps :=
  repeat match goal with
  | H : _ && _ = true |- _ => apply andb_true_iff in H as [? ?]
  | H : _ || _ = false |- _ => apply orb_false_iff in H as [? ?]
  | H : negb _ = true |- _ => apply negb_true_iff in H
  | H : negb _ = false |- _ => apply negb_false_iff in H
  | H : (_ =? _)%string = true |- _ => apply String.eqb_eq in H
  | H : (_ =? _)%string = false |- _ => apply String.eqb_neq in H
  | H : bool_decide _ = true |- _ => apply bool_decide_eq_true in H
  | H : bool_decide _ = false |- _ => apply bool_decide_eq_false in H
  | H : (_ =? _) = true |- _ => apply Z.eqb_eq in H
  | H : (_ =? _) = false |- _ => apply Z.eqb_neq in H
  | H : (_ <=? _) = true |- _ => apply Z.leb_le in H
  | H : (_ <=? _) = false |- _ => apply Z.leb_gt in H
  | H : (_ <? _) = true |- _ => apply Z.ltb_lt in H
  | H : (_ <? _) = false |- _ => apply Z.ltb_ge in H
  end.

Create HintDb garive.

(** ** Shared lemmas *)

Lemma ok_or_ok {E A} (o : option A) (e : E) a : ok_or o e = Ok a <-> o = Some a.
Proof. destruct o; simpl; naive_solver. Qed.

Lemma is_some_false {A} (o : option A) : is_some o = false <-> o = None.
Proof. by destruct o. Qed.

Lemma checked_u64_some x y : checked_u64 x = Some y <-> x = y /\ is_u64 x.
Proof.
  unfold checked_u64, is_u64.
  destruct (0 <=? x) eqn:E1, (x <=? u64_max) eqn:E2; simpl; bool_hyps; naive_solver lia.
Qed.

Lemma assoc_elem {A} k (l : list (string * A)) a : assoc k l = Some a -> (k, a) ∈ l.
Proof.
  induction l as [|[k' a'] l IH]; simpl; [done|].
  case_match; bool_hyps; intros; simplify_eq; [left|right; auto].
Qed.

#[export] Instance key_le_total {A} : Total (@key_le A).
Proof.
  intros p q. unfold key_le. destruct (String.leb_total p.1 q.1) as [H|H]; rewrite H; auto.
Qed.

Lemma entries_perm {A} (m : gmap string A) : entries m ≡ₚ map_to_list m.
Proof. apply merge_sort_Permutation. Qed.

Lemma elem_of_entries {A} (m : gmap string A) k a : (k, a) ∈ entries m <-> m !! k = Some a.
Proof. by rewrite entries_perm, elem_of_map_to_list. Qed.

Lemma elem_of_values {A} (m : gmap string A) a : a ∈ values m <-> exists k, m !! k = Some a.
Proof.
  unfold values. rewrite list_elem_of_fmap. split.
  - intros ([k b] & -> & H). exists k. by apply elem_of_entries.
  - intros [k H]. exists (k, a). split; [done|]. by apply elem_of_entries.
Qed.

Lemma any_value_true {A} f (m : gmap string A) :
  any_value f m = true <-> exists k a, m !! k = Some a /\ f a = true.
Proof.
  unfold any_value. rewrite existsb_exists. split.
  - intros (a & Hin & Hf). apply list_elem_of_In, elem_of_values in Hin as [k Hk]. eauto.
  - intros (k & a & Hk & Hf). exists a. split; [|done].
    apply list_elem_of_In, elem_of_values. eauto.
Qed.

Lemma any_value_false {A} f (m : gmap string A) :
  any_value f m = false <-> forall k a, m !! k = Some a -> f a = false.
Proof.
  rewrite <-not_true_iff_false, any_value_true. split.
  - intros H k a Hk. apply not_true_iff_false. intros Hf. apply H. eauto.
  - intros H (k & a & Hk & Hf). specialize (H _ _ Hk). congruence.
Qed.

Lemma all_values_true {A} f (m : gmap string A) :
  all_values f m = true <-> forall k a, m !! k = Some a -> f a = true.
Proof.
  unfold all_values. rewrite forallb_forall. split.
  - intros H k a Hk. apply H, list_elem_of_In, elem_of_values. eauto.
  - intros H a Hin. apply list_elem_of_In, elem_of_values in Hin as [k Hk]. eauto.
Qed.

Lemma length_values {A} (m : gmap string A) : length (values m) = size m.
Proof. unfold values. rewrite length_fmap, entries_perm. apply length_map_to_list. Qed.

Lemma size_list_to_set_le `{Countable T} (l : list T) :
  (size (list_to_set l : gset T) <= length l)%nat.
Proof.
  induction l as [|x l IH]; simpl; [done|].
  rewrite size_union_alt, size_singleton.
  pose proof (subseteq_size (list_to_set l ∖ {[x]} : gset T) (list_to_set l) ltac:(set_solver)). lia.
Qed.

Lemma size_list_to_set_nodup `{Countable T} (l : list T) :
  size (list_to_set l : gset T) = length l <-> NoDup l.
Proof.
  split; [|apply size_list_to_set].
  induction l as [|x l IH]; simpl; intros Hs; [constructor|].
  pose proof (size_list_to_set_le l) as Hle.
  destruct (decide (x ∈ l)) as [Hin|Hin].
  - rewrite (subseteq_union_1_L {[x]}) in Hs by set_solver. lia.
  - constructor; [done|]. apply IH. rewrite size_union, size_singleton in Hs by set_solver. lia.
Qed.

(** Elements of a list without duplicate keys are determined by their key. *)
Lemma nodup_key_inj {A B} (f : A -> B) (l : list A) x y :
  NoDup (f <$> l) -> x ∈ l -> y ∈ l -> f x = f y -> x = y.
Proof.
  induction l as [|z l IH]; simpl; intros Hnd Hx Hy Heq; [set_solver|].
  apply list.NoDup_cons in Hnd as [Hz Hnd].
  apply elem_of_cons in Hx as [->|Hx], Hy as [->|Hy]; [done|..|by apply IH];
    exfalso; apply Hz; apply list_elem_of_fmap; eauto.
Qed.

(** The step of a cycle: a first edge and a path back. *)
Lemma tc_first {A} (R : relation A) a b : tc R a b -> exists c, R a c /\ rtc R c b.
Proof. inversion 1; subst; eauto using rtc_refl, tc_rtc. Qed.

Lemma existsb_negb_false {A} (P : A -> Prop) `{forall x, Decision (P x)} (l : list A) :
  existsb (fun x => negb (bool_decide (P x))) l = false <-> forall x, x ∈ l -> P x.
Proof.
  rewrite <-not_true_iff_false, existsb_exists. split.
  - intros Hn x Hx. apply dec_stable. intros HP. apply Hn. exists x.
    rewrite <-list_elem_of_In. by rewrite bool_decide_eq_false_2.
  - intros HP (x & Hx & Hb). apply list_elem_of_In in Hx. bool_hyps. auto.
Qed.

Lemma existsb_false {A} (f : A -> bool) (l : list A) :
  existsb f l = false <-> forall x, x ∈ l -> f x = false.
Proof.
  rewrite <-not_true_iff_false, existsb_exists. split.
  - intros Hn x Hx. apply not_true_iff_false. intros Hf. apply Hn. exists x. by rewrite <-list_elem_of_In.
  - intros Hf (x & Hx & Hb). apply list_elem_of_In in Hx. rewrite Hf in Hb by done. done.
Qed.

Lemma str_is_empty_false s : str_is_empty s = false <-> s ≠ "".
Proof. unfold str_is_empty. apply String.eqb_neq. Qed.

Lemma try_for_each_forall {E A} (f : A -> result E unit) l : try_for_each f l = Ok tt <-> Forall (fun a => f a = Ok tt) l.
Proof.
  induction l as [|a l IH]; cbn; [by split; [constructor|]|]. rewrite Forall_cons, <-IH.
  destruct (f a) as [[]|e]; split; [done|by intros []|done|by intros []].
Qed.

Lemma try_map_ok {E A B} (f : A -> result E B) l ys :
  try_map f l = Ok ys <-> Forall2 (fun x y => f x = Ok y) l ys.
Proof.
  revert ys. induction l as [|x l IH]; intros ys; simpl.
  - split; [intros; simplify_eq; constructor|by inversion 1].
  - split.
    + intros H. destruct (f x) eqn:Ex; [|done]. destruct (try_map f l); [|done].
      simplify_eq. constructor; [done|]. by apply IH.
    + inversion 1; subst. rewrite H2. by rewrite (proj2 (IH _) H4).
Qed.

(** The arrays of a document list the elements of the sets they were written
    from, each once. *)
Definition lists_set `{Countable T} (l : list T) (s : gset T) : Prop :=
  NoDup l /\ list_to_set l = s.

Lemma lists_set_elem `{Countable T} (l : list T) s x : lists_set l s -> x ∈ l -> x ∈ s.
Proof. intros [_ <-]. by rewrite elem_of_list_to_set. Qed.

Lemma alter_some {A} (f : A -> A) (m : gmap string A) k a :
  m !! k = Some a -> alter f k m = <[k := f a]> m.
Proof.
  intros Hk. apply map_eq. intros i. destruct (decide (k = i)) as [<-|Hn].
  - by rewrite lookup_alter_eq, Hk, lookup_insert_eq.
  - by rewrite lookup_alter_ne, lookup_insert_ne.
Qed.
