(* ===== verification/Text.v ===== *)
(** * Text operations of the standard library

    [str::split], [join], [lines], [strip_prefix], [strip_suffix], [contains] and
    the like on byte strings, UTF-8, line ends and base64, with the lemmas that
    relate them. *)

From S2P Require Import Prelude.

Definition slash : ascii := ascii_of_N 47.
Definition newline : ascii := ascii_of_N 10.
Definition return_ : ascii := ascii_of_N 13.
Definition colon : ascii := ascii_of_N 58.
Definition dot : ascii := ascii_of_N 46.
Definition tab : ascii := ascii_of_N 9.

Fixpoint contains_byte (c : ascii) (s : string) : bool :=
  match s with EmptyString => false | String d s => Ascii.eqb c d || contains_byte c s end.

(** [split(c)]: the parts between the separators, at least one. *)
Fixpoint split_byte (c : ascii) (s : string) : list string :=
  match s with
  | EmptyString => [""]
  | String d s =>
      if Ascii.eqb c d then "" :: split_byte c s
      else match split_byte c s with
           | part :: parts => String d part :: parts
           | [] => [String d ""]
           end
  end.

(** [join] of the parts with one byte between them. *)
Fixpoint join_byte (c : ascii) (parts : list string) : string :=
  match parts with
  | [] => ""
  | [part] => part
  | part :: parts => part +:+ String c (join_byte c parts)
  end.

Fixpoint strip_prefix (prefix s : string) : option string :=
  match prefix, s with
  | EmptyString, _ => Some s
  | String a prefix, String b s => if Ascii.eqb a b then strip_prefix prefix s else None
  | String _ _, EmptyString => None
  end.

Fixpoint strip_suffix (suffix s : string) : option string :=
  if (s =? suffix)%string then Some ""
  else match s with EmptyString => None | String c s => String c <$> strip_suffix suffix s end.

Definition ends_with_byte (c : ascii) (s : string) : bool := is_some (strip_suffix (String c "") s).

(** [contains] of a text. *)
Fixpoint contains_text (needle s : string) : bool :=
  starts_with needle s || match s with EmptyString => false | String _ s => contains_text needle s end.

(** [split_once] and [rsplit_once]. *)
Fixpoint split_once (c : ascii) (s : string) : option (string * string) :=
  match s with
  | EmptyString => None
  | String d s =>
      if Ascii.eqb c d then Some ("", s)
      else match split_once c s with Some (a, b) => Some (String d a, b) | None => None end
  end.
Fixpoint rsplit_once (c : ascii) (s : string) : option (string * string) :=
  match s with
  | EmptyString => None
  | String d s =>
      match rsplit_once c s with
      | Some (a, b) => Some (String d a, b)
      | None => if Ascii.eqb c d then Some ("", s) else None
      end
  end.

(** [lines]: the parts that end in a line feed, without it and without a carriage
    return before it, and the rest when it is not empty. *)
Fixpoint lines_of (parts : list string) : list string :=
  match parts with
  | [] => []
  | [part] => if str_is_empty part then [] else [part]
  | part :: parts => default part (strip_suffix (String return_ "") part) :: lines_of parts
  end.
Definition lines (s : string) : list string := lines_of (split_byte newline s).

(** The UTF-8 texts of the characters with the Unicode property White_Space, the
    ones [str::trim] removes. *)
Definition utf8 (codes : list Z) : string :=
  foldr (fun code s => String (ascii_of_N (Z.to_N code)) s) "" codes.
Definition white_space : list string :=
  utf8 <$> [[9]; [10]; [11]; [12]; [13]; [32]; [194; 133]; [194; 160]; [225; 154; 128];
    [226; 128; 128]; [226; 128; 129]; [226; 128; 130]; [226; 128; 131]; [226; 128; 132];
    [226; 128; 133]; [226; 128; 134]; [226; 128; 135]; [226; 128; 136]; [226; 128; 137];
    [226; 128; 138]; [226; 128; 168]; [226; 128; 169]; [226; 128; 175]; [226; 129; 159];
    [227; 128; 128]].

Fixpoint ends_with (suffix s : string) : bool :=
  (s =? suffix)%string || match s with EmptyString => false | String _ s => ends_with suffix s end.

(** [value.trim() == value]: no white space at either end. *)
Definition is_trimmed (value : string) : bool :=
  forallb (fun space => negb (starts_with space value) && negb (ends_with space value)) white_space.

(** [str::to_ascii_lowercase]. *)
Definition ascii_lowercase (c : ascii) : ascii := if is_ascii_uppercase c then ascii_of_N (N_of_ascii c + 32) else c.
Fixpoint to_ascii_lowercase (s : string) : string :=
  match s with "" => "" | String c s => String (ascii_lowercase c) (to_ascii_lowercase s) end.

(** ** Lemmas *)

Lemma split_byte_cons c s : exists part parts, split_byte c s = part :: parts.
Proof. destruct s as [|d s]; simpl; [eauto|]. repeat case_match; eauto. Qed.

Lemma join_byte_cons c part p parts : join_byte c (part :: p :: parts) = part +:+ String c (join_byte c (p :: parts)).
Proof. done. Qed.

Lemma join_byte_head c d part parts : join_byte c (String d part :: parts) = String d (join_byte c (part :: parts)).
Proof. by destruct parts. Qed.

Lemma join_split c s : join_byte c (split_byte c s) = s.
Proof.
  induction s as [|d s IH]; [done|]. simpl. destruct (split_byte_cons c s) as (part & parts & E).
  rewrite E in *. destruct (Ascii.eqb c d) eqn:Ed.
  - apply Ascii.eqb_eq in Ed as ->. by rewrite join_byte_cons, IH.
  - by rewrite join_byte_head, IH.
Qed.

Lemma split_byte_app c s t : contains_byte c s = false ->
  split_byte c (s +:+ String c t) = s :: split_byte c t.
Proof.
  induction s as [|d s IH]; simpl; intros H; [by rewrite Ascii.eqb_refl|].
  apply orb_false_iff in H as [Hd Hs]. rewrite Hd. by rewrite IH.
Qed.

Lemma split_byte_single c s : contains_byte c s = false -> split_byte c s = [s].
Proof.
  induction s as [|d s IH]; simpl; intros H; [done|]. apply orb_false_iff in H as [Hd Hs]. rewrite Hd. by rewrite IH.
Qed.

Lemma split_join c parts : parts <> [] -> Forall (fun p => contains_byte c p = false) parts ->
  split_byte c (join_byte c parts) = parts.
Proof.
  intros Hne H. induction H as [|p parts Hp H IH]; [done|]. destruct parts as [|q parts].
  - simpl. by apply split_byte_single.
  - rewrite join_byte_cons, split_byte_app by done. by rewrite IH.
Qed.

Lemma split_byte_parts c s : Forall (fun p => contains_byte c p = false) (split_byte c s).
Proof.
  induction s as [|d s IH]; simpl; [by repeat constructor|]. destruct (Ascii.eqb c d) eqn:Ed; [by constructor|].
  destruct (split_byte c s); [by repeat constructor; simpl; rewrite Ed|].
  inversion IH; subst. constructor; [|done]. simpl. by rewrite Ed.
Qed.

Lemma strip_prefix_some p s t : strip_prefix p s = Some t <-> s = p +:+ t.
Proof.
  revert s. induction p as [|a p IH]; intros s; simpl; [split; [by intros [= ->]|by intros ->]|].
  destruct s as [|b s]; [split; discriminate|]. destruct (Ascii.eqb a b) eqn:E.
  - apply Ascii.eqb_eq in E as ->. rewrite IH. split; [by intros -> | by intros [= ->]].
  - apply Ascii.eqb_neq in E. split; [discriminate|]. intros [= -> ->]. done.
Qed.

Lemma starts_with_strip p s : starts_with p s = is_some (strip_prefix p s).
Proof.
  revert s. induction p as [|a p IH]; intros [|b s]; simpl; try done. destruct (Ascii.eqb a b); simpl; [apply IH|done].
Qed.

Lemma starts_with_app p s : starts_with p s = true <-> exists t, s = p +:+ t.
Proof.
  rewrite starts_with_strip. destruct (strip_prefix p s) as [t|] eqn:E.
  - apply strip_prefix_some in E. simpl. naive_solver.
  - simpl. split; [done|]. intros [t Ht%strip_prefix_some]. congruence.
Qed.

Lemma str_app_nil (s : string) : s +:+ "" = s.
Proof. induction s as [|c s IH]; [done|]. change (String c (s +:+ "") = String c s). by rewrite IH. Qed.
Lemma str_app_assoc (a b c : string) : (a +:+ b) +:+ c = a +:+ b +:+ c.
Proof. induction a as [|x a IH]; [done|]. change (String x ((a +:+ b) +:+ c) = String x (a +:+ b +:+ c)). by rewrite IH. Qed.
Lemma str_length_app (a b : string) : String.length (a +:+ b) = (String.length a + String.length b)%nat.
Proof. induction a as [|x a IH]; [done|]. change (S (String.length (a +:+ b)) = S (String.length a + String.length b)). by rewrite IH. Qed.

Lemma strip_suffix_cons t c s :
  strip_suffix t (String c s) = if (String c s =? t)%string then Some "" else String c <$> strip_suffix t s.
Proof. done. Qed.

Lemma strip_suffix_app s t : strip_suffix t (s +:+ t) = Some s.
Proof.
  induction s as [|c s IH].
  - change ("" +:+ t) with t. destruct t; simpl; by rewrite ?String.eqb_refl, ?Ascii.eqb_refl.
  - change (String c s +:+ t) with (String c (s +:+ t)). rewrite strip_suffix_cons.
    assert (Hne : (String c (s +:+ t) =? t)%string = false).
    { apply String.eqb_neq. intros E. apply (f_equal String.length) in E. simpl in E.
      rewrite str_length_app in E. lia. }
    rewrite Hne, IH. done.
Qed.

Lemma strip_suffix_some s t u : strip_suffix t s = Some u -> s = u +:+ t.
Proof.
  revert u. induction s as [|c s IH]; intros u; [|rewrite strip_suffix_cons].
  - change (strip_suffix t "") with (if ("" =? t)%string then Some "" else None).
    destruct ("" =? t)%string eqn:E; [|done]. apply String.eqb_eq in E. intros [= <-]. exact E.
  - destruct (String c s =? t)%string eqn:E; [apply String.eqb_eq in E; intros [= <-]; exact E|].
    destruct (strip_suffix t s) as [v|]; [|done]. intros [= <-].
    change (String c s = String c (v +:+ t)). by rewrite (IH v).
Qed.

Lemma contains_byte_app c s t : contains_byte c (s +:+ t) = contains_byte c s || contains_byte c t.
Proof.
  induction s as [|d s IH]; [done|].
  change (Ascii.eqb c d || contains_byte c (s +:+ t) = (Ascii.eqb c d || contains_byte c s) || contains_byte c t).
  by rewrite IH, orb_assoc.
Qed.

Lemma split_byte_cat c s t : split_byte c (s +:+ String c t) = split_byte c s ++ split_byte c t.
Proof.
  induction s as [|d s IH].
  - simpl. by rewrite Ascii.eqb_refl.
  - change (String d s +:+ String c t) with (String d (s +:+ String c t)). simpl. rewrite IH.
    destruct (Ascii.eqb c d); [done|]. by destruct (split_byte_cons c s) as (part & parts & ->).
Qed.

Lemma join_byte_cat c l l' : l <> [] -> l' <> [] ->
  join_byte c (l ++ l') = join_byte c l +:+ String c (join_byte c l').
Proof.
  intros Hl Hl'. induction l as [|p l IH]; [done|]. destruct l as [|q l].
  - destruct l' as [|q l']; [done|]. apply join_byte_cons.
  - change ((p :: q :: l) ++ l') with (p :: (q :: l) ++ l').
    change (join_byte c (p :: (q :: l) ++ l')) with (p +:+ String c (join_byte c ((q :: l) ++ l'))).
    rewrite IH by done. by rewrite join_byte_cons, str_app_assoc.
Qed.

(** The parts of a text lead the parts of another exactly when the texts are
    equal or the other continues after a separator. *)
Lemma split_byte_prefix c s t :
  split_byte c s `prefix_of` split_byte c t <-> t = s \/ starts_with (s +:+ String c "") t = true.
Proof.
  rewrite starts_with_app. split.
  - intros [l Hl]. rewrite <-(join_split c t), Hl. destruct l as [|p l].
    + left. by rewrite app_nil_r, join_split.
    + right. destruct (split_byte_cons c s) as (q & qs & Hq).
      exists (join_byte c (p :: l)). rewrite join_byte_cat; [|by rewrite Hq|done].
      by rewrite join_split, str_app_assoc.
  - intros [->|[u ->]]; [done|]. rewrite str_app_assoc. change (String c "" +:+ u) with (String c u).
    rewrite split_byte_cat. by apply prefix_app_r.
Qed.

(** ** Further text operations, UTF-8 and base64

    [std::str::from_utf8], [replace] of carriage returns, [trim_end_matches],
    [split_once] at a text, and the codec of the [base64] crate as an interface
    with an instance. *)

(** ** UTF-8 ([std::str::from_utf8]) *)

Definition between (low high : Z) (c : ascii) : bool := (low <=? byte_code c) && (byte_code c <=? high).
Definition continuation (c : ascii) : bool := between 128 191 c.

(** The well-formed byte sequences of one character: shortest forms only, no
    surrogates, nothing above U+10FFFF. *)
Fixpoint utf8_valid (s : string) : bool :=
  match s with
  | EmptyString => true
  | String a s =>
      if between 0 127 a then utf8_valid s
      else match s with
      | String b s =>
          if between 194 223 a then continuation b && utf8_valid s
          else match s with
          | String c s =>
              if between 224 239 a then
                (if byte_code a =? 224 then between 160 191 b
                 else if byte_code a =? 237 then between 128 159 b else continuation b)
                && continuation c && utf8_valid s
              else match s with
              | String d s =>
                  between 240 244 a
                  && (if byte_code a =? 240 then between 144 191 b
                      else if byte_code a =? 244 then between 128 143 b else continuation b)
                  && continuation c && continuation d && utf8_valid s
              | EmptyString => false
              end
          | EmptyString => false
          end
      | EmptyString => false
      end
  end.

Definition from_utf8 (bytes : string) : option string := if utf8_valid bytes then Some bytes else None.

(** ** Line ends and separators *)

(** [replace("\r\n", "\n")]. *)
Fixpoint crlf_to_lf (s : string) : string :=
  match s with
  | EmptyString => EmptyString
  | String a s' =>
      match s' with
      | String b s'' => if Ascii.eqb a return_ && Ascii.eqb b newline then String b (crlf_to_lf s'') else String a (crlf_to_lf s')
      | EmptyString => s
      end
  end.

(** [trim_end_matches(c)]. *)
Fixpoint trim_end_byte (c : ascii) (s : string) : string :=
  match s with
  | EmptyString => EmptyString
  | String d s =>
      match trim_end_byte c s with
      | EmptyString => if Ascii.eqb c d then EmptyString else String d EmptyString
      | t => String d t
      end
  end.

(** [split_once(separator)] at a text. *)
Fixpoint split_once_text (separator s : string) : option (string * string) :=
  match strip_prefix separator s with
  | Some rest => Some ("", rest)
  | None =>
      match s with
      | EmptyString => None
      | String d s => match split_once_text separator s with Some (a, b) => Some (String d a, b) | None => None end
      end
  end.

(** The number of non-overlapping occurrences of one byte. *)
Fixpoint count_byte (c : ascii) (s : string) : Z :=
  match s with EmptyString => 0 | String d s => (if Ascii.eqb c d then 1 else 0) + count_byte c s end.

(** The lowercase mapping of the standard library's Unicode tables
    ([str::to_lowercase]). *)
Class Lowercase := to_lowercase : string -> string.

(** ** Lemmas *)

Lemma all_bytes_app f s t : all_bytes f (s +:+ t) = all_bytes f s && all_bytes f t.
Proof.
  induction s as [|c s IH]; [done|]. change (f c && all_bytes f (s +:+ t) = f c && all_bytes f s && all_bytes f t).
  by rewrite IH, andb_assoc.
Qed.

Lemma all_bytes_impl (f g : ascii -> bool) s :
  (forall c, f c = true -> g c = true) -> all_bytes f s = true -> all_bytes g s = true.
Proof. intros Hfg. induction s as [|c s IH]; [done|]. simpl. rewrite !andb_true_iff. naive_solver. Qed.

Lemma all_bytes_excludes (f : ascii -> bool) c s : f c = false -> all_bytes f s = true -> contains_byte c s = false.
Proof.
  intros Hc. induction s as [|d s IH]; [done|]. simpl. rewrite andb_true_iff, orb_false_iff. intros [Hd Hs].
  split; [|by apply IH]. apply Ascii.eqb_neq. intros ->. congruence.
Qed.

Lemma str_len_app a b : str_len (a +:+ b) = str_len a + str_len b.
Proof. unfold str_len. rewrite str_length_app. lia. Qed.
Lemma str_len_nonneg s : 0 <= str_len s.
Proof. unfold str_len. lia. Qed.

Lemma str_app_cons a s t : String a s +:+ t = String a (s +:+ t).
Proof. done. Qed.
Lemma str_app_empty t : "" +:+ t = t.
Proof. done. Qed.

(** One character at the front of a valid text: one byte below 128 or only bytes
    above, and the rest decides the validity. *)
Definition above_ascii (c : ascii) : bool := negb (between 0 127 c).

Lemma range_above low high c : between low high c = true -> 128 <= low -> above_ascii c = true.
Proof. unfold above_ascii, between. intros [H _]%andb_true_iff Hl. apply negb_true_iff, andb_false_iff. right. lia. Qed.

Lemma utf8_valid_step a s : utf8_valid (String a s) = true ->
  exists front rest, String a s = String a front +:+ rest /\ utf8_valid rest = true
    /\ (front = "" /\ between 0 127 a = true \/ all_bytes above_ascii (String a front) = true)
    /\ forall t, utf8_valid (String a front +:+ t) = utf8_valid t.
Proof.
  cbn [utf8_valid]. destruct (between 0 127 a) eqn:Ea.
  { intros Hs. exists "", s. split_and!; [done|done|by left|]. intros t. rewrite str_app_cons, str_app_empty.
    cbn [utf8_valid]. by rewrite Ea. }
  assert (Ha : above_ascii a = true) by (unfold above_ascii; by rewrite Ea).
  destruct s as [|b s]; [done|]. destruct (between 194 223 a) eqn:Ea2.
  { rewrite andb_true_iff. intros [Hb Hs]. exists (String b ""), s. split_and!; [done|done| |].
    - right. cbn [all_bytes]. by rewrite Ha, (range_above 128 191 b).
    - intros t. rewrite ?str_app_cons, str_app_empty. cbn [utf8_valid]. by rewrite Ea, Ea2, Hb. }
  destruct s as [|c s]; [done|]. destruct (between 224 239 a) eqn:Ea3.
  { rewrite !andb_true_iff. intros [[Hb Hc] Hs]. exists (String b (String c "")), s. split_and!; [done|done| |].
    - right. cbn [all_bytes]. rewrite Ha, (range_above 128 191 c) by done.
      destruct (byte_code a =? 224), (byte_code a =? 237); by rewrite (range_above _ _ b Hb ltac:(done)).
    - intros t. rewrite ?str_app_cons, str_app_empty. cbn [utf8_valid]. by rewrite Ea, Ea2, Ea3, Hb, Hc. }
  destruct s as [|d s]; [done|]. rewrite !andb_true_iff. intros [[[[Ha4 Hb] Hc] Hd] Hs].
  exists (String b (String c (String d ""))), s. split_and!; [done|done| |].
  - right. cbn [all_bytes]. rewrite Ha, (range_above 128 191 c), (range_above 128 191 d) by done.
    destruct (byte_code a =? 240), (byte_code a =? 244); by rewrite (range_above _ _ b Hb ltac:(done)).
  - intros t. rewrite ?str_app_cons, str_app_empty. cbn [utf8_valid]. by rewrite Ea, Ea2, Ea3, Ha4, Hb, Hc, Hd.
Qed.

(** Induction on the characters of a valid text. *)
Lemma utf8_char_ind (P : string -> Prop) : P "" ->
  (forall a s front rest, String a s = String a front +:+ rest -> utf8_valid rest = true ->
     (front = "" /\ between 0 127 a = true \/ all_bytes above_ascii (String a front) = true) ->
     (forall t, utf8_valid (String a front +:+ t) = utf8_valid t) -> P rest -> P (String a s)) ->
  forall s, utf8_valid s = true -> P s.
Proof.
  intros H0 Hstep s. remember (String.length s) as n eqn:Hn. revert s Hn.
  induction (lt_wf n) as [n _ IH]. intros s Hn Hs. destruct s as [|a s]; [done|].
  destruct (utf8_valid_step a s Hs) as (front & rest & Heq & Hrest & Hkind & Hall).
  apply (Hstep a s front rest); [done..|]. apply (IH (String.length rest)); [|done|done].
  rewrite Hn, Heq, str_length_app. simpl. lia.
Qed.

Lemma utf8_valid_app s t : utf8_valid s = true -> utf8_valid t = true -> utf8_valid (s +:+ t) = true.
Proof.
  intros Hs Ht. revert s Hs. apply utf8_char_ind; [done|]. intros a s front rest Heq _ _ Hall IH.
  by rewrite Heq, str_app_assoc, Hall.
Qed.

Lemma app_before front rest s c t : front +:+ rest = s +:+ String c t -> contains_byte c front = false ->
  exists s', s = front +:+ s' /\ rest = s' +:+ String c t.
Proof.
  revert s. induction front as [|d front IH]; intros s Heq Hc; [by exists s|].
  cbn [contains_byte] in Hc. apply orb_false_iff in Hc as [Hd Hc]. destruct s as [|e s].
  - rewrite str_app_cons, str_app_empty in Heq. injection Heq as -> _. by rewrite Ascii.eqb_refl in Hd.
  - rewrite !str_app_cons in Heq. injection Heq as -> Heq. destruct (IH s Heq Hc) as (s' & -> & ->). by exists s'.
Qed.

(** A valid text cut before a byte below 128 leaves two valid texts. *)
Lemma utf8_valid_cut s c t : between 0 127 c = true -> utf8_valid (s +:+ String c t) = true ->
  utf8_valid s = true /\ utf8_valid t = true.
Proof.
  intros Hc Hs. remember (s +:+ String c t) as u eqn:Hu. revert s Hu. revert u Hs. apply (utf8_char_ind (fun u => forall s, u = s +:+ String c t -> _)).
  - intros s Hs. by destruct s.
  - intros a u front rest Heq Hrest Hkind Hall IH s Hs. destruct s as [|e s].
    { rewrite str_app_empty in Hs. injection Hs as -> ->. split; [done|].
      destruct Hkind as [[-> _]|Hab]; [|cbn [all_bytes] in Hab; unfold above_ascii in Hab; by rewrite Hc in Hab].
      rewrite str_app_cons, str_app_empty in Heq. by injection Heq as ->. }
    rewrite Heq in Hs. destruct Hkind as [[-> Ha]|Hab].
    + rewrite !str_app_cons, str_app_empty in Hs. injection Hs as -> Hs. destruct (IH s Hs) as [Hs1 Ht]. split; [|done].
      specialize (Hall s). rewrite str_app_cons, str_app_empty in Hall. congruence.
    + destruct (app_before _ _ _ _ _ Hs) as (s' & Hs' & Hr).
      { eapply all_bytes_excludes; [|exact Hab]. unfold above_ascii. by rewrite Hc. }
      rewrite Hs'. destruct (IH s' Hr) as [Hs1 Ht]. by rewrite Hall.
Qed.

Lemma ascii_utf8 s : all_bytes (between 0 127) s = true -> utf8_valid s = true.
Proof. induction s as [|a s IH]; [done|]. cbn [all_bytes utf8_valid]. rewrite andb_true_iff. intros [-> Hs]. auto. Qed.

(** A text without a carriage return is its own normal form. *)
Lemma crlf_to_lf_id s : contains_byte return_ s = false -> crlf_to_lf s = s.
Proof.
  induction s as [|a s IH]; [done|]. cbn [contains_byte crlf_to_lf]. rewrite orb_false_iff. intros [Ha Hs].
  destruct s as [|b s]; [done|]. rewrite Ascii.eqb_sym in Ha. rewrite Ha. cbn [andb]. by rewrite IH.
Qed.

Lemma crlf_to_lf_app front rest : contains_byte return_ front = false -> crlf_to_lf (front +:+ rest) = front +:+ crlf_to_lf rest.
Proof.
  induction front as [|a front IH]; [done|]. cbn [contains_byte]. rewrite orb_false_iff. intros [Ha Hf].
  rewrite !str_app_cons. rewrite Ascii.eqb_sym in Ha. specialize (IH Hf). cbn [crlf_to_lf].
  destruct (front +:+ rest) as [|b u] eqn:E; [|by rewrite Ha; cbn [andb]; rewrite IH].
  rewrite <-IH. done.
Qed.

Lemma utf8_valid_crlf s : utf8_valid s = true -> utf8_valid (crlf_to_lf s) = true.
Proof.
  remember (String.length s) as n eqn:Hn. revert s Hn. induction (lt_wf n) as [n _ IH]. intros s Hn Hs.
  destruct s as [|a s]; [done|]. destruct (Ascii.eqb return_ a) eqn:Ea.
  - apply Ascii.eqb_eq in Ea as <-. cbn [utf8_valid] in Hs. change (between 0 127 return_) with true in Hs. cbn in Hs.
    destruct s as [|b s]; [done|].
    change (crlf_to_lf (String return_ (String b s))) with
      (if Ascii.eqb b newline then String b (crlf_to_lf s) else String return_ (crlf_to_lf (String b s))).
    destruct (Ascii.eqb b newline) eqn:Eb.
    + apply Ascii.eqb_eq in Eb as ->. cbn [utf8_valid] in Hs |- *. change (between 0 127 newline) with true in *.
      apply (IH (String.length s)); [simpl in Hn; lia|done|done].
    + cbn [utf8_valid]. change (between 0 127 return_) with true. cbn iota.
      apply (IH (String.length (String b s))); [simpl in *; lia|done|done].
  - destruct (utf8_valid_step a s Hs) as (front & rest & Heq & Hrest & Hkind & Hall). rewrite Heq, crlf_to_lf_app.
    + rewrite Hall. apply (IH (String.length rest)); [|done|done]. rewrite Hn, Heq, str_length_app. simpl. lia.
    + destruct Hkind as [[-> _]|Hab]; [cbn [contains_byte]; by rewrite Ea|].
      by eapply all_bytes_excludes; [|exact Hab].
Qed.

Lemma trim_end_byte_length c s : (String.length (trim_end_byte c s) <= String.length s)%nat.
Proof.
  induction s as [|d s IH]; [done|]. cbn [trim_end_byte]. destruct (trim_end_byte c s) eqn:E; [|simpl in *; lia].
  destruct (Ascii.eqb c d); simpl; lia.
Qed.

(** Trimming leaves a text that does not end in the byte, followed by copies of it. *)
Lemma trim_end_byte_split c s : exists tail,
  s = trim_end_byte c s +:+ tail /\ all_bytes (Ascii.eqb c) tail = true /\ ends_with_byte c (trim_end_byte c s) = false.
Proof.
  induction s as [|d s (tail & Hs & Htail & Hend)]; [by exists ""|]. cbn [trim_end_byte].
  destruct (trim_end_byte c s) as [|e t] eqn:E.
  - change ("" +:+ tail) with tail in Hs. subst s. destruct (Ascii.eqb c d) eqn:Ed.
    + exists (String d tail). split_and!; [done| |done]. cbn [all_bytes]. by rewrite Ed.
    + exists tail. split_and!; [done|done|]. unfold ends_with_byte. rewrite strip_suffix_cons.
      simpl. rewrite Ascii.eqb_sym, Ed. done.
  - exists tail. split_and!; [by rewrite Hs at 1|done|]. unfold ends_with_byte in *. rewrite strip_suffix_cons.
    destruct (String d (String e t) =? String c "")%string eqn:Eq; [apply String.eqb_eq in Eq; discriminate|].
    by destruct (strip_suffix (String c "") (String e t)).
Qed.

Lemma trim_end_byte_id c s : ends_with_byte c s = false -> trim_end_byte c s = s.
Proof.
  induction s as [|d s IH]; [done|]. intros Hend. cbn [trim_end_byte]. unfold ends_with_byte in *.
  rewrite strip_suffix_cons in Hend. destruct (String d s =? String c "")%string eqn:Eq; [done|].
  rewrite IH by (by destruct (strip_suffix (String c "") s)). destruct s as [|e s]; [|done].
  destruct (Ascii.eqb c d) eqn:Ed; [|done]. apply Ascii.eqb_eq in Ed as ->. by rewrite String.eqb_refl in Eq.
Qed.

Lemma trim_end_byte_app c s tail : all_bytes (Ascii.eqb c) tail = true ->
  trim_end_byte c (s +:+ tail) = trim_end_byte c s.
Proof.
  intros Htail. induction s as [|d s IH].
  - change ("" +:+ tail) with tail. induction tail as [|e tail IHt]; [done|]. cbn [all_bytes] in Htail.
    apply andb_true_iff in Htail as [He Ht]. cbn [trim_end_byte]. rewrite (IHt Ht). cbn [trim_end_byte]. by rewrite He.
  - change (String d s +:+ tail) with (String d (s +:+ tail)). cbn [trim_end_byte]. by rewrite IH.
Qed.

Lemma trim_end_byte_idem c s : trim_end_byte c (trim_end_byte c s) = trim_end_byte c s.
Proof. apply trim_end_byte_id. by destruct (trim_end_byte_split c s) as (tail & _ & _ & H). Qed.

(** The first occurrence of a separator after a part that holds no byte it starts with. *)
Lemma split_once_text_skip (c : ascii) separator line rest : contains_byte c line = false ->
  split_once_text (String c separator) (line +:+ rest)
  = match split_once_text (String c separator) rest with Some (a, b) => Some (line +:+ a, b) | None => None end.
Proof.
  induction line as [|d line IH]; intros Hline.
  { change ("" +:+ rest) with rest. by destruct (split_once_text _ rest) as [[]|]. }
  cbn [contains_byte] in Hline. apply orb_false_iff in Hline as [Hd Hline].
  change (String d line +:+ rest) with (String d (line +:+ rest)).
  cbn [split_once_text strip_prefix]. rewrite Hd, (IH Hline).
  by destruct (split_once_text _ rest) as [[]|].
Qed.

Lemma split_once_text_here separator rest : split_once_text separator (separator +:+ rest) = Some ("", rest).
Proof. destruct (separator +:+ rest) eqn:E; cbn [split_once_text]; by rewrite (proj2 (strip_prefix_some _ _ rest)). Qed.

Lemma split_once_text_some separator s a b :
  split_once_text separator s = Some (a, b) -> s = a +:+ separator +:+ b.
Proof.
  revert a b. induction s as [|d s IH]; intros a b; cbn [split_once_text].
  - destruct (strip_prefix separator "") eqn:E; [|done]. apply strip_prefix_some in E. by intros [= <- <-].
  - destruct (strip_prefix separator (String d s)) eqn:E; [apply strip_prefix_some in E; by intros [= <- <-]|].
    destruct (split_once_text separator s) as [[x y]|]; [|done]. intros [= <- <-].
    by rewrite (IH x y eq_refl) at 1.
Qed.

Lemma split_once_some c s a b : split_once c s = Some (a, b) -> s = a +:+ String c b.
Proof.
  revert a b. induction s as [|d s IH]; intros a b; cbn [split_once]; [done|].
  destruct (Ascii.eqb c d) eqn:Ed; [intros [= <- <-]; by apply Ascii.eqb_eq in Ed as ->|].
  destruct (split_once c s) as [[x y]|] eqn:Es; [|done]. intros [= <- <-]. by rewrite (IH x y eq_refl) at 1.
Qed.

Lemma split_once_skip c s t : contains_byte c s = false -> split_once c (s +:+ String c t) = Some (s, t).
Proof.
  induction s as [|d s IH]; intros Hs.
  - rewrite str_app_empty. cbn [split_once]. by rewrite Ascii.eqb_refl.
  - cbn [contains_byte] in Hs. apply orb_false_iff in Hs as [Hd Hs]. rewrite str_app_cons. cbn [split_once].
    by rewrite Hd, IH.
Qed.

(** ** Lines *)

(** A text that is one line: no line feed inside, no carriage return at its end. *)
Definition one_line (s : string) : Prop := contains_byte newline s = false /\ ends_with_byte return_ s = false.

Lemma ends_with_byte_cons c d s : ends_with_byte c (String d s) =
  (if str_is_empty s then Ascii.eqb d c else ends_with_byte c s).
Proof.
  unfold ends_with_byte. rewrite strip_suffix_cons. destruct s as [|e s].
  - simpl. by destruct (Ascii.eqb d c).
  - assert ((String d (String e s) =? String c "")%string = false) as ->.
    { apply String.eqb_neq. by intros [= _ ?]. }
    by destruct (strip_suffix (String c "") (String e s)).
Qed.

Lemma one_line_cons c s : Ascii.eqb c newline = false -> Ascii.eqb c return_ = false -> one_line s -> one_line (String c s).
Proof.
  intros H1 H2 [H3 H4]. split.
  - change (Ascii.eqb newline c || contains_byte newline s = false). by rewrite Ascii.eqb_sym, H1.
  - rewrite ends_with_byte_cons. by destruct (str_is_empty s).
Qed.

Lemma lines_of_one ls : Forall one_line ls -> is_some_and (fun s => negb (str_is_empty s)) (last ls) = true ->
  lines_of ls = ls.
Proof.
  induction 1 as [|s ls [_ Hr] H IH]; [done|]. destruct ls as [|t ls].
  - simpl. by destruct (str_is_empty s).
  - intros Hl. change (lines_of (s :: t :: ls)) with
      (default s (strip_suffix (String return_ "") s) :: lines_of (t :: ls)).
    rewrite IH by done. unfold ends_with_byte in Hr. by destruct (strip_suffix _ s).
Qed.

Lemma lines_join ls : ls <> [] -> Forall one_line ls ->
  is_some_and (fun s => negb (str_is_empty s)) (last ls) = true -> lines (join_byte newline ls) = ls.
Proof.
  intros Hne H Hl. unfold lines. rewrite split_join; [by apply lines_of_one|done|].
  eapply Forall_impl; [exact H|]. by intros s [? _].
Qed.

(** ** Base64 *)

(** The [URL_SAFE_NO_PAD] engine of the [base64] crate: the codec and what its
    documentation promises of it. *)
Class Base64 := {
  b64_encode : string -> string;
  b64_decode : string -> option string;
}.

(** The URL-safe alphabet. *)
Definition b64_byte (c : ascii) : bool :=
  between 65 90 c || between 97 122 c || between 48 57 c || (byte_code c =? 45) || (byte_code c =? 95).

Class Base64Laws `{Base64} : Prop := {
  b64_decode_encode : forall s, b64_decode (b64_encode s) = Some s;
  b64_alphabet : forall s, all_bytes b64_byte (b64_encode s) = true;
  b64_length : forall s, str_len (b64_encode s) = (4 * str_len s + 2) / 3;
}.

(** An instance: the encoding of RFC 4648 without padding. *)
Module UrlSafe.
Definition digit (i : Z) : ascii :=
  ascii_of_N (Z.to_N (if i <? 26 then 65 + i else if i <? 52 then 71 + i else if i <? 62 then i - 4 else if i =? 62 then 45 else 95)).
Definition undigit (c : ascii) : option Z :=
  if between 65 90 c then Some (byte_code c - 65)
  else if between 97 122 c then Some (byte_code c - 71)
  else if between 48 57 c then Some (byte_code c + 4)
  else if byte_code c =? 45 then Some 62 else if byte_code c =? 95 then Some 63 else None.
Definition byte (n : Z) : ascii := ascii_of_N (Z.to_N n).

Fixpoint url_encode (s : string) : string :=
  match s with
  | EmptyString => EmptyString
  | String a EmptyString =>
      String (digit (byte_code a / 4)) (String (digit (byte_code a mod 4 * 16)) "")
  | String a (String b EmptyString) =>
      String (digit (byte_code a / 4)) (String (digit (byte_code a mod 4 * 16 + byte_code b / 16))
        (String (digit (byte_code b mod 16 * 4)) ""))
  | String a (String b (String c s)) =>
      String (digit (byte_code a / 4)) (String (digit (byte_code a mod 4 * 16 + byte_code b / 16))
        (String (digit (byte_code b mod 16 * 4 + byte_code c / 64)) (String (digit (byte_code c mod 64)) (url_encode s))))
  end.

Fixpoint url_decode (s : string) : option string :=
  match s with
  | EmptyString => Some EmptyString
  | String p (String q EmptyString) =>
      p ← undigit p; q ← undigit q;
      if q mod 16 =? 0 then Some (String (byte (p * 4 + q / 16)) "") else None
  | String p (String q (String r EmptyString)) =>
      p ← undigit p; q ← undigit q; r ← undigit r;
      if r mod 4 =? 0 then Some (String (byte (p * 4 + q / 16)) (String (byte (q mod 16 * 16 + r / 4)) "")) else None
  | String p (String q (String r (String t s))) =>
      p ← undigit p; q ← undigit q; r ← undigit r; t ← undigit t; s ← url_decode s;
      Some (String (byte (p * 4 + q / 16)) (String (byte (q mod 16 * 16 + r / 4)) (String (byte (r mod 4 * 64 + t)) s)))
  | String _ EmptyString => None
  end.

#[export] Instance url_safe_no_pad : Base64 := { b64_encode := url_encode; b64_decode := url_decode }.

Lemma digit_ok i : 0 <= i < 64 -> undigit (digit i) = Some i /\ b64_byte (digit i) = true.
Proof.
  intros Hi. assert (Hall : forallb (fun n => bool_decide (undigit (digit (Z.of_nat n)) = Some (Z.of_nat n))
    && b64_byte (digit (Z.of_nat n))) (seq 0 64) = true) by (vm_compute; reflexivity).
  rewrite forallb_forall in Hall. specialize (Hall (Z.to_nat i)). rewrite Z2Nat.id in Hall by lia.
  rewrite andb_true_iff, bool_decide_eq_true in Hall. apply Hall, in_seq. lia.
Qed.

Lemma byte_range a : 0 <= byte_code a < 256.
Proof. unfold byte_code. pose proof (N_ascii_bounded a). lia. Qed.
Lemma byte_of a n : n = byte_code a -> byte n = a.
Proof. intros ->. unfold byte, byte_code. by rewrite N2Z.id, ascii_N_embedding. Qed.

(** Three bytes at a time. *)
Lemma chunk_ind (P : string -> Prop) :
  P "" -> (forall a, P (String a "")) -> (forall a b, P (String a (String b ""))) ->
  (forall a b c s, P s -> P (String a (String b (String c s)))) -> forall s, P s.
Proof.
  intros H0 H1 H2 H3. fix IH 1. intros [|a [|b [|c s]]]; [apply H0|apply H1|apply H2|apply H3, IH].
Qed.

Ltac sextets :=
  repeat match goal with
  | |- context [undigit (digit ?i)] => rewrite (proj1 (digit_ok i ltac:(Z.div_mod_to_equations; lia))); cbn [mbind option_bind]
  | |- context [b64_byte (digit ?i)] => rewrite (proj2 (digit_ok i ltac:(Z.div_mod_to_equations; lia))); cbn [andb]
  end.

#[export] Instance url_safe_no_pad_laws : Base64Laws.
Proof.
  split.
  - intros s. cbn [b64_encode b64_decode url_safe_no_pad]. induction s as [|a|a b|a b c s IH] using chunk_ind; [done|..];
      cbn [url_encode url_decode]; pose proof (byte_range a); try pose proof (byte_range b); try pose proof (byte_range c); sextets.
    + rewrite (byte_of a) by (Z.div_mod_to_equations; lia).
      rewrite (proj2 (Z.eqb_eq _ 0)) by (Z.div_mod_to_equations; lia). done.
    + rewrite (byte_of a), (byte_of b) by (Z.div_mod_to_equations; lia).
      rewrite (proj2 (Z.eqb_eq _ 0)) by (Z.div_mod_to_equations; lia). done.
    + rewrite IH. cbn [mbind option_bind].
      by rewrite (byte_of a), (byte_of b), (byte_of c) by (Z.div_mod_to_equations; lia).
  - intros s. cbn [b64_encode url_safe_no_pad]. induction s as [|a|a b|a b c s IH] using chunk_ind; [done|..];
      cbn [url_encode all_bytes]; pose proof (byte_range a); try pose proof (byte_range b); try pose proof (byte_range c);
      sextets; done.
  - intros s. cbn [b64_encode url_safe_no_pad]. induction s as [|a|a b|a b c s IH] using chunk_ind; [done..|].
    unfold str_len in *. cbn [url_encode String.length]. Z.div_mod_to_equations. lia.
Qed.
End UrlSafe.
