(* ===== verification/PlanTypes.v ===== *)
(** * Plan data model and topology ([engine/plan/src/lib.rs], [topology.rs])

    The immutable values of a Plan revision: capability references, bounds,
    steps and the definition record, with the validating constructors of the
    crate.  Set-valued fields are [BTreeSet]s in the source and [gset]s here;
    [u32]/[u64] fields are integers whose range is recorded by [step_typed] and
    [bounds_typed]. *)

From S2P Require Import Prelude.

Inductive PlanErrorCode :=
  | PlanInvalid
  | PlanCycle
  | PlanTransitionInvalid
  | StepNotReady
  | PlanBoundExceeded.

#[export] Instance PlanErrorCode_eq_dec : EqDecision PlanErrorCode.
Proof. solve_decision. Defined.

(** [PlanError] wraps its code and nothing else. *)
Abbreviation PlanError := PlanErrorCode.

(** The [identity!] newtypes [PlanId] and [PlanStepId]. *)
Abbreviation PlanId := string (only parsing).
Abbreviation PlanStepId := string (only parsing).

Definition plan_identity_new (value : string) : result PlanError string :=
  if str_is_empty value then Err PlanInvalid else Ok value.

Record PlanCapabilityReference := mkPlanCapability {
  capability_name : string;
  exact_revision : string;
}.

#[export] Instance PlanCapabilityReference_eq_dec : EqDecision PlanCapabilityReference.
Proof. solve_decision. Defined.
#[export] Instance PlanCapabilityReference_countable : Countable PlanCapabilityReference.
Proof.
  apply (inj_countable' (fun c => (capability_name c, exact_revision c))
                        (fun p => mkPlanCapability p.1 p.2)).
  by intros [].
Defined.

Definition PlanCapabilityReference_new (name exact_revision : string)
    : result PlanError PlanCapabilityReference :=
  if str_is_empty name || str_is_empty exact_revision then Err PlanInvalid
  else Ok (mkPlanCapability name exact_revision).

Record PlanBoundsV1 := mkPlanBounds {
  max_steps : Z;
  max_parallel_ready : Z;
  max_total_attempts : Z;
  token_budget : option Z;
  duration_budget_ms : option Z;
}.

Definition PlanBoundsV1_new (max_steps max_parallel_ready max_total_attempts : Z)
    (token_budget duration_budget_ms : option Z) : result PlanError PlanBoundsV1 :=
  if (max_steps =? 0)
     || (max_parallel_ready =? 0)
     || (max_steps <? max_parallel_ready)
     || (max_total_attempts =? 0)
     || bool_decide (token_budget = Some 0)
     || bool_decide (duration_budget_ms = Some 0)
  then Err PlanInvalid
  else Ok (mkPlanBounds max_steps max_parallel_ready max_total_attempts
             token_budget duration_budget_ms).

(** The three collectors that reject duplicate input. *)
Definition unique `{Countable T} (values : list T) : result PlanError (gset T) :=
  let unique : gset T := list_to_set values in
  if (size unique =? length values)%nat then Ok unique else Err PlanInvalid.

Definition unique_non_empty (values : list string) : result PlanError (gset string) :=
  let unique : gset string := list_to_set values in
  if existsb str_is_empty values || negb (length values =? size unique)%nat
  then Err PlanInvalid else Ok unique.

Definition unique_digests (values : list string) : result PlanError (gset string) :=
  let unique : gset string := list_to_set values in
  if existsb (fun value => negb (valid_digest value)) values
     || negb (length values =? size unique)%nat
  then Err PlanInvalid else Ok unique.

Record PlanStepV1 := mkPlanStep {
  step_id : PlanStepId;
  step_objective : string;
  depends_on : gset PlanStepId;
  completion_criteria : gset string;
  required_capabilities : gset PlanCapabilityReference;
  input_bindings : gset string;
  max_attempts : Z;
}.

Definition PlanStepV1_new (step_id : PlanStepId) (objective : string)
    (depends_on : list PlanStepId) (completion_criteria : list string)
    (required_capabilities : list PlanCapabilityReference)
    (input_bindings : list string) (max_attempts : Z) : result PlanError PlanStepV1 :=
  let? depends_on := unique depends_on in
  let? completion_criteria := unique_non_empty completion_criteria in
  let? required_capabilities := unique required_capabilities in
  let? input_bindings := unique_digests input_bindings in
  if str_is_empty objective
     || bool_decide (completion_criteria = ∅)
     || (max_attempts =? 0)
     || bool_decide (step_id ∈ depends_on)
  then Err PlanInvalid
  else Ok (mkPlanStep step_id objective depends_on completion_criteria
             required_capabilities input_bindings max_attempts).

Definition DEFINITION_CONTRACT : string := "garive.plan-definition".
Definition CONTRACT_VERSION : Z := 1.

Record PlanDefinitionV1 := mkPlanDefinition {
  contract : string;
  version : Z;
  plan_id : PlanId;
  plan_revision : Z;
  goal_id : string;
  goal_revision : Z;
  goal_definition_digest : string;
  agent_snapshot_digest : string;
  tool_catalogue_digest : string;
  safety_policy_revision : string;
  steps : list PlanStepV1;
  bounds : PlanBoundsV1;
}.

#[export] Instance PlanBoundsV1_eq_dec : EqDecision PlanBoundsV1.
Proof. solve_decision. Defined.
#[export] Instance PlanStepV1_eq_dec : EqDecision PlanStepV1.
Proof. solve_decision. Defined.
#[export] Instance PlanDefinitionV1_eq_dec : EqDecision PlanDefinitionV1.
Proof. solve_decision. Defined.

(** ** Ranges of the machine-width fields *)

Definition step_typed (s : PlanStepV1) : Prop := is_u32 (max_attempts s).
Definition bounds_typed (b : PlanBoundsV1) : Prop :=
  is_u32 (max_steps b) /\ is_u32 (max_parallel_ready b) /\ is_u32 (max_total_attempts b).
Definition definition_typed (d : PlanDefinitionV1) : Prop :=
  bounds_typed (bounds d) /\ Forall step_typed (steps d).

(** ** Constructor lemmas *)

Lemma unique_ok `{Countable T} (l : list T) s :
  unique l = Ok s <-> s = list_to_set l /\ NoDup l.
Proof.
  unfold unique. rewrite <-size_list_to_set_nodup.
  case_match eqn:E; [apply Nat.eqb_eq in E|apply Nat.eqb_neq in E]; naive_solver.
Qed.

Lemma unique_non_empty_ok l s :
  unique_non_empty l = Ok s <-> s = list_to_set l /\ NoDup l /\ "" ∉ l.
Proof.
  unfold unique_non_empty. rewrite <-size_list_to_set_nodup.
  assert (He : existsb str_is_empty l = false <-> "" ∉ l).
  { rewrite <-not_true_iff_false, existsb_exists, list_elem_of_In. unfold str_is_empty.
    setoid_rewrite String.eqb_eq. naive_solver. }
  destruct (existsb _ _) eqn:E1; simpl.
  - split; [done|]. intros (_ & _ & Hn). apply He in Hn. congruence.
  - destruct (Nat.eqb_spec (length l) (size (list_to_set l : gset string))); naive_solver.
Qed.

Lemma unique_digests_ok l s :
  unique_digests l = Ok s <->
  s = list_to_set l /\ NoDup l /\ forall x, x ∈ l -> valid_digest x = true.
Proof.
  unfold unique_digests. rewrite <-size_list_to_set_nodup.
  assert (He : existsb (fun value => negb (valid_digest value)) l = false <->
               forall x, x ∈ l -> valid_digest x = true).
  { rewrite <-not_true_iff_false, existsb_exists. setoid_rewrite <-list_elem_of_In. split.
    - intros Hn x Hx. apply not_false_iff_true. intros Hf. apply Hn. exists x. by rewrite Hf.
    - intros Ha (x & Hx & Hf). by rewrite Ha in Hf. }
  destruct (existsb _ _) eqn:E1; simpl.
  - split; [done|]. intros (_ & _ & Hn). apply He in Hn. congruence.
  - destruct (Nat.eqb_spec (length l) (size (list_to_set l : gset string))); naive_solver.
Qed.

Lemma plan_identity_new_ok v i : plan_identity_new v = Ok i <-> v = i /\ v ≠ "".
Proof.
  unfold plan_identity_new, str_is_empty. destruct (String.eqb_spec v ""); naive_solver.
Qed.

(** ** Plan topology ([engine/plan/src/topology.rs])

    Kahn-style rounds over the declared steps.  [acyclic_loop] is the source's
    [loop]; it takes fuel, and [acyclic_loop_total] shows that one round more
    than the number of steps always suffices.  The main theorem relates the
    verdict to the absence of a dependency cycle. *)

(** The ids whose remaining dependencies are all completed, in declared order. *)
Definition acyclic_ready (steps : list PlanStepV1)
    (remaining : gmap PlanStepId (gset PlanStepId)) (completed : gset PlanStepId)
    : list PlanStepId :=
  step_id <$> filter (fun step =>
    is_true (is_some_and (fun dependencies => bool_decide (dependencies ⊆ completed))
               (remaining !! step_id step))) steps.

(** The inner [for] loop: every ready id leaves [remaining] and enters [completed]. *)
Definition acyclic_round (ready : list PlanStepId)
    (st : gmap PlanStepId (gset PlanStepId) * gset PlanStepId)
    : gmap PlanStepId (gset PlanStepId) * gset PlanStepId :=
  foldl (fun '(remaining, completed) id => (delete id remaining, {[id]} ∪ completed)) st ready.

Fixpoint acyclic_loop (fuel : nat) (steps : list PlanStepV1)
    (remaining : gmap PlanStepId (gset PlanStepId)) (completed : gset PlanStepId)
    : option (gmap PlanStepId (gset PlanStepId)) :=
  match fuel with
  | O => None
  | S fuel =>
      match acyclic_ready steps remaining completed with
      | [] => Some remaining
      | ready =>
          let '(remaining, completed) := acyclic_round ready (remaining, completed) in
          acyclic_loop fuel steps remaining completed
      end
  end.

Definition remaining_init (steps : list PlanStepV1) : gmap PlanStepId (gset PlanStepId) :=
  foldl (fun m step => <[step_id step := depends_on step]> m) ∅ steps.

Definition validate_acyclic (steps : list PlanStepV1) : result PlanError unit :=
  match acyclic_loop (S (length steps)) steps (remaining_init steps) ∅ with
  | Some remaining => if bool_decide (remaining = ∅) then Ok tt else Err PlanCycle
  | None => Err PlanCycle
  end.

(** ** Specification *)

(** [dep steps a b]: the step [a] is declared and depends directly on [b]. *)
Definition dep (steps : list PlanStepV1) (a b : PlanStepId) : Prop :=
  exists s, s ∈ steps /\ step_id s = a /\ b ∈ depends_on s.

Definition acyclic (steps : list PlanStepV1) : Prop := forall a, ~ tc (dep steps) a a.

Definition step_ids (steps : list PlanStepV1) : gset PlanStepId :=
  list_to_set (step_id <$> steps).

(** What the definition's earlier checks establish about its steps. *)
Definition closed_steps (steps : list PlanStepV1) : Prop :=
  NoDup (step_id <$> steps) /\ forall s, s ∈ steps -> depends_on s ⊆ step_ids steps.

(** ** Graph lemma: a finite set without sinks carries a cycle *)

Lemma finite_no_sink_cycle {A} `{Countable A} (X : gset A) (R : relation A) :
  X ≠ ∅ -> (forall x, x ∈ X -> exists y, y ∈ X /\ R x y) -> exists x, tc R x x.
Proof.
  revert R. induction X as [|x X Hx IH] using set_ind_L; intros R Hne Hs; [done|].
  destruct (Hs x) as (w & Hw & Hxw); [set_solver|].
  destruct (decide (w = x)) as [->|Hwx]; [exists x; by apply tc_once|].
  set (R' a b := R a b \/ (R a x /\ R x b)).
  assert (Hsub : forall a b, tc R' a b -> tc R a b).
  { intros a b Htc. induction Htc as [a b [|[]]|a b c [|[]] _ IHt];
      eauto using tc_once, tc_l. }
  destruct (IH R') as (c & Hc).
  - set_solver.
  - intros y Hy. destruct (Hs y) as (z & Hz & Hyz); [set_solver|].
    destruct (decide (z = x)) as [->|Hzx].
    + exists w. split; [set_solver|]. right. eauto.
    + exists z. split; [set_solver|]. by left.
  - exists c. by apply Hsub.
Qed.

(** ** The rounds *)

Lemma elem_of_acyclic_ready steps remaining completed id :
  id ∈ acyclic_ready steps remaining completed <->
  id ∈ (step_id <$> steps) /\
  exists deps, remaining !! id = Some deps /\ deps ⊆ completed.
Proof.
  unfold acyclic_ready. rewrite !list_elem_of_fmap. setoid_rewrite list_elem_of_filter.
  unfold is_true. split.
  - intros (s & -> & Hr & Hin). split; [eauto|].
    destruct (remaining !! step_id s) as [deps|]; simpl in Hr; [|done]. bool_hyps. eauto.
  - intros ((s & -> & Hin) & deps & Hd & Hsub). exists s. split; [done|]. split; [|done].
    rewrite Hd. simpl. by apply bool_decide_eq_true.
Qed.

Lemma acyclic_round_spec ready remaining completed :
  acyclic_round ready (remaining, completed) =
  (filter (fun p => p.1 ∉ ready) remaining, list_to_set ready ∪ completed).
Proof.
  unfold acyclic_round. revert remaining completed.
  induction ready as [|id ready IH]; intros remaining completed; simpl.
  - f_equal; [|set_solver]. symmetry. apply map_filter_id. set_solver.
  - rewrite IH. f_equal; [|set_solver].
    apply map_eq. intros k. apply option_eq. intros v.
    rewrite !map_lookup_filter_Some, lookup_delete_Some. set_solver.
Qed.

Lemma remaining_init_lookup steps id deps :
  NoDup (step_id <$> steps) ->
  remaining_init steps !! id = Some deps <->
  exists s, s ∈ steps /\ step_id s = id /\ depends_on s = deps.
Proof.
  unfold remaining_init. induction steps as [|s steps IH] using rev_ind; intros Hnd.
  - simpl. rewrite lookup_empty. set_solver.
  - rewrite foldl_snoc. rewrite fmap_app, list.NoDup_app in Hnd. simpl in Hnd.
    destruct Hnd as (Hnd & Hdis & _).
    assert (Hfresh : forall s', s' ∈ steps -> step_id s' ≠ step_id s).
    { intros s' Hin Heq. apply (Hdis (step_id s')); [apply list_elem_of_fmap; eauto|set_solver]. }
    destruct (decide (id = step_id s)) as [->|Hne].
    + rewrite lookup_insert_eq. split.
      * intros [= <-]. exists s. set_solver.
      * intros (s' & Hin & Heq & <-). apply elem_of_app in Hin as [Hin|Hin]; [|set_solver].
        by destruct (Hfresh s' Hin).
    + rewrite lookup_insert_ne, IH by done. set_solver.
Qed.

(** ** Loop invariant *)

Section rounds.
Context (steps : list PlanStepV1) (Hclosed : closed_steps steps).

(** Remaining entries are declared steps with their declared dependencies; the
    declared ids are split between [remaining] and [completed]. *)
Definition rounds_inv (remaining : gmap PlanStepId (gset PlanStepId))
    (completed : gset PlanStepId) : Prop :=
  (forall id deps, remaining !! id = Some deps ->
     exists s, s ∈ steps /\ step_id s = id /\ depends_on s = deps) /\
  step_ids steps = dom remaining ∪ completed /\
  dom remaining ## completed /\
  (forall a, a ∈ completed -> Acc (flip (dep steps)) a).

Lemma rounds_inv_init : rounds_inv (remaining_init steps) ∅.
Proof.
  destruct Hclosed as [Hnd _]. split_and!.
  - intros id deps H. by apply remaining_init_lookup in H.
  - apply set_eq. intros id. rewrite union_empty_r_L, elem_of_dom. unfold step_ids, is_Some.
    setoid_rewrite (remaining_init_lookup _ _ _ Hnd).
    rewrite elem_of_list_to_set, list_elem_of_fmap. naive_solver.
  - set_solver.
  - set_solver.
Qed.

Lemma rounds_inv_step remaining completed ready :
  rounds_inv remaining completed -> acyclic_ready steps remaining completed = ready ->
  rounds_inv (filter (fun p => p.1 ∉ ready) remaining) (list_to_set ready ∪ completed).
Proof.
  intros (Hlk & Hids & Hdis & Hacc) <-.
  set (ready := acyclic_ready steps remaining completed).
  assert (Hr : forall id, id ∈ ready -> id ∈ dom remaining).
  { intros id (_ & deps & Hd & _)%elem_of_acyclic_ready. apply elem_of_dom. eauto. }
  assert (Hdom : forall id, id ∈ dom (filter (fun p => p.1 ∉ ready) remaining) <->
                            id ∈ dom remaining /\ id ∉ ready).
  { intros id. rewrite !elem_of_dom. unfold is_Some.
    setoid_rewrite map_lookup_filter_Some. naive_solver. }
  split_and!.
  - intros id deps [H _]%map_lookup_filter_Some. eauto.
  - apply set_eq. intros id. rewrite Hids, !elem_of_union, Hdom, elem_of_list_to_set.
    destruct (decide (id ∈ ready)); naive_solver.
  - intros id Hd%Hdom Hc. apply elem_of_union in Hc as [Hc%elem_of_list_to_set|Hc]; [naive_solver|].
    destruct Hd. by apply (Hdis id).
  - intros a [Ha|Ha]%elem_of_union; [|by apply Hacc].
    apply elem_of_list_to_set, elem_of_acyclic_ready in Ha as (_ & deps & Hd & Hsub).
    constructor. intros b (s & Hin & Hs & Hb). apply Hacc.
    apply Hlk in Hd as (s' & Hin' & Hs' & <-). apply Hsub.
    destruct Hclosed as [Hnd _].
    rewrite <-(nodup_key_inj step_id steps s s') by (done || congruence). done.
Qed.

Lemma ready_shrinks remaining completed id ready :
  acyclic_ready steps remaining completed = id :: ready ->
  (size (filter (fun p => p.1 ∉ id :: ready) remaining) < size remaining)%nat.
Proof.
  intros E.
  assert (Hid : id ∈ acyclic_ready steps remaining completed) by (rewrite E; left).
  apply elem_of_acyclic_ready in Hid as (_ & deps & Hd & _).
  rewrite <-!size_dom. apply subset_size. split.
  - intros x. rewrite !elem_of_dom. unfold is_Some.
    setoid_rewrite map_lookup_filter_Some. naive_solver.
  - intros Hsub. specialize (Hsub id). rewrite !elem_of_dom in Hsub.
    destruct Hsub as [v Hv]; [eauto|]. apply map_lookup_filter_Some in Hv as [_ Hv].
    apply Hv. left.
Qed.

(** With more fuel than remaining steps the loop returns, in a state where no
    remaining step is ready. *)
Lemma acyclic_loop_spec fuel remaining completed :
  (size remaining < fuel)%nat -> rounds_inv remaining completed ->
  exists remaining' completed',
    acyclic_loop fuel steps remaining completed = Some remaining' /\
    rounds_inv remaining' completed' /\
    acyclic_ready steps remaining' completed' = [].
Proof.
  revert remaining completed. induction fuel as [|fuel IH]; intros remaining completed Hf Hinv;
    [lia|]. cbn [acyclic_loop].
  destruct (acyclic_ready steps remaining completed) as [|id ready] eqn:E; [eauto|].
  rewrite acyclic_round_spec. apply IH.
  - apply ready_shrinks in E. lia.
  - by eapply rounds_inv_step.
Qed.
End rounds.

Lemma remaining_init_size steps : (size (remaining_init steps) <= length steps)%nat.
Proof.
  unfold remaining_init. induction steps as [|s steps IH] using rev_ind; [simpl; done|].
  rewrite foldl_snoc, length_app, map_size_insert. simpl. case_match; unfold id; lia.
Qed.

(** The fuel chosen by [validate_acyclic] is enough: the loop returns. *)
Lemma acyclic_loop_total steps :
  closed_steps steps ->
  exists remaining completed,
    acyclic_loop (S (length steps)) steps (remaining_init steps) ∅ = Some remaining /\
    rounds_inv steps remaining completed /\ acyclic_ready steps remaining completed = [].
Proof.
  intros Hc. apply acyclic_loop_spec; [done| |by apply rounds_inv_init].
  pose proof (remaining_init_size steps). lia.
Qed.

Lemma acc_no_cycle {A} (R : relation A) a : Acc (flip R) a -> ~ tc R a a.
Proof.
  intros Hacc. induction Hacc as [a _ IH]. intros (b & Hab & Hba)%tc_first.
  apply (IH b Hab). eapply tc_rtc_l; [exact Hba|]. by apply tc_once.
Qed.

(** The check decides acyclicity: it accepts, or there is a cycle to show. *)
Lemma validate_acyclic_decides steps :
  closed_steps steps ->
  (validate_acyclic steps = Ok tt /\ acyclic steps) \/
  (validate_acyclic steps = Err PlanCycle /\ exists a, tc (dep steps) a a).
Proof.
  intros Hc. destruct (acyclic_loop_total steps Hc) as (remaining & completed & Hl & Hinv & Hr).
  destruct Hinv as (Hlk & Hids & Hdis & Hacc).
  unfold validate_acyclic. rewrite Hl. case_bool_decide as Hempty.
  - left. split; [done|]. intros a Hcyc. subst. rewrite dom_empty_L in Hids.
    apply (acc_no_cycle (dep steps) a); [|done]. apply Hacc.
    apply tc_first in Hcyc as (b & (s & Hs & <- & _) & _).
    assert (step_id s ∈ step_ids steps); [|set_solver].
    apply elem_of_list_to_set, list_elem_of_fmap. eauto.
  - right. split; [done|]. apply (finite_no_sink_cycle (dom remaining) (dep steps)).
    + by rewrite dom_empty_iff_L.
    + intros a [deps Ha]%elem_of_dom.
      pose proof (Hlk _ _ Ha) as (s & Hs & Hid & Hd).
      destruct (decide (deps ⊆ completed)) as [Hsub|Hsub].
      * assert (Hin : a ∈ acyclic_ready steps remaining completed); [|rewrite Hr in Hin; set_solver].
        apply elem_of_acyclic_ready. split; [|eauto]. apply list_elem_of_fmap. eauto.
      * destruct (set_choose_L (deps ∖ completed)) as [b Hb];
          [intros He; by apply Hsub, empty_difference_subseteq_L|].
        apply elem_of_difference in Hb as [Hb Hnc]. subst deps.
        exists b. split; [|by exists s].
        destruct Hc as [_ Hdeps]. specialize (Hdeps s Hs b Hb). rewrite Hids in Hdeps.
        by apply elem_of_union in Hdeps as [|].
Qed.

Lemma validate_acyclic_ok steps :
  closed_steps steps -> validate_acyclic steps = Ok tt <-> acyclic steps.
Proof.
  intros Hc. destruct (validate_acyclic_decides steps Hc) as [[-> ?]|[-> [a Ha]]]; [done|].
  split; [done|]. intros Hac. destruct (Hac a Ha).
Qed.
