(* ===== verification/PlanDefinition.v ===== *)
(** * Plan definition validation and decoding
    ([engine/plan/src/lib.rs], [engine/plan/src/decode.rs])

    [PlanDefinitionV1_new] checks every frozen binding, criterion coverage,
    capability availability and the dependency topology; [from_canonical_json]
    rebuilds a definition from its canonical document through the same
    constructors.  [serde_json] and [serde_jcs] are parameters of the decoder. *)

From S2P Require Import Prelude PlanTypes.

Definition PlanDefinitionV1_validate (self : PlanDefinitionV1)
    (required satisfied : gset string) (available : gset PlanCapabilityReference)
    : result PlanError unit :=
  let ids : gset string := list_to_set (step_id <$> steps self) in
  let covered : gset string := ⋃ (completion_criteria <$> steps self) ∪ satisfied in
  reject PlanInvalid when
    (plan_revision self =? 0)
    || str_is_empty (goal_id self)
    || (goal_revision self =? 0)
    || negb (valid_digest (goal_definition_digest self))
    || negb (valid_digest (agent_snapshot_digest self))
    || negb (valid_digest (tool_catalogue_digest self))
    || str_is_empty (safety_policy_revision self)
    || bool_decide (steps self = [])
    || (max_steps (bounds self) <? Z.of_nat (length (steps self)))
    || negb (size ids =? length (steps self))%nat
    || existsb (fun step => negb (bool_decide (depends_on step ⊆ ids))) (steps self)
    || existsb (fun step => negb (bool_decide (completion_criteria step ⊆ required))) (steps self)
    || existsb (fun step => negb (bool_decide (required_capabilities step ⊆ available))) (steps self)
    || bool_decide (required = ∅)
    || negb (bool_decide (satisfied ⊆ required))
    || negb (bool_decide (required ⊆ covered));
  validate_acyclic (steps self).

Definition PlanDefinitionV1_new (plan_id : PlanId) (plan_revision : Z) (goal_id : string)
    (goal_revision : Z)
    (goal_definition_digest agent_snapshot_digest tool_catalogue_digest
       safety_policy_revision : string)
    (steps : list PlanStepV1) (bounds : PlanBoundsV1)
    (required_goal_criteria already_satisfied_criteria : gset string)
    (available_capabilities : gset PlanCapabilityReference)
    : result PlanError PlanDefinitionV1 :=
  let value := mkPlanDefinition DEFINITION_CONTRACT CONTRACT_VERSION plan_id plan_revision
    goal_id goal_revision goal_definition_digest agent_snapshot_digest tool_catalogue_digest
    safety_policy_revision steps bounds in
  PlanDefinitionV1_validate value required_goal_criteria already_satisfied_criteria
    available_capabilities ?;
  Ok value.

(** ** Raw documents *)

Record RawPlanBounds := mkRawPlanBounds {
  raw_max_steps : Z;
  raw_max_parallel_ready : Z;
  raw_max_total_attempts : Z;
  raw_token_budget : option Z;
  raw_duration_budget_ms : option Z;
}.

Record RawCapability := mkRawCapability {
  raw_name : string;
  raw_exact_revision : string;
}.

Definition RawCapability_build (self : RawCapability) : result PlanError PlanCapabilityReference :=
  PlanCapabilityReference_new (raw_name self) (raw_exact_revision self).

Record RawPlanStep := mkRawPlanStep {
  raw_step_id : string;
  raw_objective : string;
  raw_depends_on : list string;
  raw_completion_criteria : list string;
  raw_required_capabilities : list RawCapability;
  raw_input_bindings : list string;
  raw_max_attempts : Z;
}.

Definition RawPlanStep_build (self : RawPlanStep) : result PlanError PlanStepV1 :=
  let? step_id := plan_identity_new (raw_step_id self) in
  let? depends_on := try_map plan_identity_new (raw_depends_on self) in
  let? required_capabilities := try_map RawCapability_build (raw_required_capabilities self) in
  PlanStepV1_new step_id (raw_objective self) depends_on (raw_completion_criteria self)
    required_capabilities (raw_input_bindings self) (raw_max_attempts self).

Record RawPlanDefinition := mkRawPlanDefinition {
  raw_contract : string;
  raw_version : Z;
  raw_plan_id : string;
  raw_plan_revision : Z;
  raw_goal_id : string;
  raw_goal_revision : Z;
  raw_goal_definition_digest : string;
  raw_agent_snapshot_digest : string;
  raw_tool_catalogue_digest : string;
  raw_safety_policy_revision : string;
  raw_steps : list RawPlanStep;
  raw_bounds : RawPlanBounds;
}.

Section decode.
(** [serde_json::from_str::<RawPlanDefinition>] and [serde_jcs::to_string]. *)
Variable raw_from_str : string -> option RawPlanDefinition.
Variable jcs_to_string : PlanDefinitionV1 -> option string.

Definition canonical_json (self : PlanDefinitionV1) : result PlanError string :=
  ok_or (jcs_to_string self) PlanInvalid.

Definition from_canonical_json (json : string) (required satisfied : gset string)
    (available : gset PlanCapabilityReference) : result PlanError PlanDefinitionV1 :=
  let? raw := ok_or (raw_from_str json) PlanInvalid in
  reject PlanInvalid when
    negb (raw_contract raw =? DEFINITION_CONTRACT)%string
    || negb (raw_version raw =? CONTRACT_VERSION);
  let? bounds := PlanBoundsV1_new (raw_max_steps (raw_bounds raw))
    (raw_max_parallel_ready (raw_bounds raw)) (raw_max_total_attempts (raw_bounds raw))
    (raw_token_budget (raw_bounds raw)) (raw_duration_budget_ms (raw_bounds raw)) in
  let? steps := try_map RawPlanStep_build (raw_steps raw) in
  let? plan_id := plan_identity_new (raw_plan_id raw) in
  let? value := PlanDefinitionV1_new plan_id (raw_plan_revision raw) (raw_goal_id raw)
    (raw_goal_revision raw) (raw_goal_definition_digest raw) (raw_agent_snapshot_digest raw)
    (raw_tool_catalogue_digest raw) (raw_safety_policy_revision raw) steps bounds
    required satisfied available in
  let? canonical := canonical_json value in
  reject PlanInvalid when negb (canonical =? json)%string;
  Ok value.
End decode.

(** ** What an admitted definition guarantees *)

Record admitted_definition (d : PlanDefinitionV1) (required satisfied : gset string)
    (available : gset PlanCapabilityReference) : Prop := {
  adm_revisions : plan_revision d ≠ 0 /\ goal_revision d ≠ 0;
  adm_bindings : goal_id d ≠ "" /\ safety_policy_revision d ≠ "" /\
    valid_digest (goal_definition_digest d) = true /\
    valid_digest (agent_snapshot_digest d) = true /\
    valid_digest (tool_catalogue_digest d) = true;
  adm_count : (0 < length (steps d))%nat /\ Z.of_nat (length (steps d)) <= max_steps (bounds d);
  adm_closed : closed_steps (steps d);
  adm_acyclic : acyclic (steps d);
  adm_criteria : required ≠ ∅ /\ satisfied ⊆ required /\
    (forall s, s ∈ steps d -> completion_criteria s ⊆ required) /\
    (forall c, c ∈ required -> c ∈ satisfied \/ exists s, s ∈ steps d /\ c ∈ completion_criteria s);
  adm_capabilities : forall s, s ∈ steps d -> required_capabilities s ⊆ available;
}.

Lemma definition_validate_ok d required satisfied available :
  PlanDefinitionV1_validate d required satisfied available = Ok tt <->
  admitted_definition d required satisfied available.
Proof.
  unfold PlanDefinitionV1_validate.
  match goal with |- (if ?b then _ else _) = _ <-> _ => destruct b eqn:Eb end.
  - split; [done|]. intros [[] (? & ? & ? & ? & ?) [] [Hnd Hcl] _ (? & ? & ? & Hcov) ?]. exfalso.
    rewrite <-not_false_iff_true in Eb. apply Eb. clear Eb.
    rewrite !orb_false_iff, !negb_false_iff, !str_is_empty_false, !existsb_negb_false,
      !bool_decide_eq_true, !bool_decide_eq_false, !Z.eqb_neq, Z.ltb_ge, Nat.eqb_eq,
      <-(length_fmap step_id), size_list_to_set_nodup.
    split_and!; auto; [by destruct (steps d); simpl in *; [lia|]|by rewrite length_fmap|].
    intros c Hc. apply Hcov in Hc as [|(s & ? & ?)]; [set_solver|].
    apply elem_of_union_l, elem_of_union_list. exists (completion_criteria s).
    split; [|done]. apply list_elem_of_fmap. eauto.
  - rewrite !orb_false_iff, !negb_false_iff, !str_is_empty_false, !existsb_negb_false,
      !bool_decide_eq_true, !bool_decide_eq_false, !Z.eqb_neq, Z.ltb_ge, Nat.eqb_eq,
      <-(length_fmap step_id), size_list_to_set_nodup in Eb.
    destruct_and! Eb.
    assert (Hc : closed_steps (steps d)) by done.
    rewrite validate_acyclic_ok by done. split; [|by intros []].
    intros Hac. constructor; auto.
    + split; [|by rewrite length_fmap in *]. destruct (steps d); simpl; [done|lia].
    + split_and!; auto. intros c Hc'. destruct (decide (c ∈ satisfied)) as [|Hns]; [by left|right].
      assert (Hin : c ∈ ⋃ (completion_criteria <$> steps d)) by set_solver.
      apply elem_of_union_list in Hin as (X & HX & HcX).
      apply list_elem_of_fmap in HX as (s & -> & Hs). eauto.
Qed.

Lemma plan_definition_new_ok plan_id plan_revision goal_id goal_revision gd ad td sp
    steps bounds required satisfied available d :
  PlanDefinitionV1_new plan_id plan_revision goal_id goal_revision gd ad td sp steps bounds
    required satisfied available = Ok d <->
  d = mkPlanDefinition DEFINITION_CONTRACT CONTRACT_VERSION plan_id plan_revision goal_id
        goal_revision gd ad td sp steps bounds /\
  admitted_definition d required satisfied available.
Proof.
  unfold PlanDefinitionV1_new. rewrite <-definition_validate_ok. split.
  - intros H. destruct (PlanDefinitionV1_validate _ _ _ _) as [[]|] eqn:E; by simplify_eq.
  - by intros [-> ->].
Qed.

(** ** Values built by the crate's constructors *)

Definition step_built (s : PlanStepV1) : Prop :=
  step_id s ≠ "" /\ (forall i, i ∈ depends_on s -> i ≠ "") /\
  (forall c, c ∈ required_capabilities s -> capability_name c ≠ "" /\ exact_revision c ≠ "") /\
  exists deps crit caps ins,
    PlanStepV1_new (step_id s) (step_objective s) deps crit caps ins (max_attempts s) = Ok s.

Definition bounds_built (b : PlanBoundsV1) : Prop :=
  PlanBoundsV1_new (max_steps b) (max_parallel_ready b) (max_total_attempts b)
    (token_budget b) (duration_budget_ms b) = Ok b.

(** A definition as callers can obtain it: every part from its constructor, and
    admitted against some Goal context. *)
Record plan_built (d : PlanDefinitionV1) (required satisfied : gset string)
    (available : gset PlanCapabilityReference) : Prop := {
  built_contract : contract d = DEFINITION_CONTRACT /\ version d = CONTRACT_VERSION;
  built_id : plan_id d ≠ "";
  built_steps : Forall step_built (steps d);
  built_bounds : bounds_built (bounds d);
  built_admitted : admitted_definition d required satisfied available;
}.

Lemma step_built_facts s :
  step_built s ->
  max_attempts s ≠ 0 /\ step_id s ∉ depends_on s /\ step_objective s ≠ "" /\
  completion_criteria s ≠ ∅ /\ "" ∉ completion_criteria s /\
  (forall b, b ∈ input_bindings s -> valid_digest b = true).
Proof.
  intros (_ & _ & _ & deps & crit & caps & ins & H). unfold PlanStepV1_new in H.
  destruct (unique deps) as [deps'|] eqn:E1; [|done].
  destruct (unique_non_empty crit) as [crit'|] eqn:E2; [|done].
  destruct (unique caps) as [caps'|] eqn:E3; [|done].
  destruct (unique_digests ins) as [ins'|] eqn:E4; [|done].
  destruct (_ || _) eqn:E; [done|]. injection H as H. rewrite <-H in *. simpl in *.
  rewrite !orb_false_iff, str_is_empty_false, !bool_decide_eq_false, Z.eqb_neq in E.
  destruct_and! E. apply unique_non_empty_ok in E2 as (-> & _ & Hne).
  split_and!; auto; [set_solver|].
  apply unique_digests_ok in E4 as (-> & _ & Hd). intros b Hb. apply Hd. set_solver.
Qed.

Definition raw_step_of (r : RawPlanStep) (s : PlanStepV1) : Prop :=
  raw_step_id r = step_id s /\ raw_objective r = step_objective s /\
  lists_set (raw_depends_on r) (depends_on s) /\
  lists_set (raw_completion_criteria r) (completion_criteria s) /\
  lists_set ((fun c => mkPlanCapability (raw_name c) (raw_exact_revision c))
               <$> raw_required_capabilities r) (required_capabilities s) /\
  lists_set (raw_input_bindings r) (input_bindings s) /\
  raw_max_attempts r = max_attempts s.

Definition raw_bounds_of (r : RawPlanBounds) (b : PlanBoundsV1) : Prop :=
  b = mkPlanBounds (raw_max_steps r) (raw_max_parallel_ready r) (raw_max_total_attempts r)
        (raw_token_budget r) (raw_duration_budget_ms r).

(** [raw_of r d]: [r] carries the serialized fields of [d]. *)
Definition raw_of (r : RawPlanDefinition) (d : PlanDefinitionV1) : Prop :=
  raw_contract r = contract d /\ raw_version r = version d /\ raw_plan_id r = plan_id d /\
  raw_plan_revision r = plan_revision d /\ raw_goal_id r = goal_id d /\
  raw_goal_revision r = goal_revision d /\
  raw_goal_definition_digest r = goal_definition_digest d /\
  raw_agent_snapshot_digest r = agent_snapshot_digest d /\
  raw_tool_catalogue_digest r = tool_catalogue_digest d /\
  raw_safety_policy_revision r = safety_policy_revision d /\
  Forall2 raw_step_of (raw_steps r) (steps d) /\ raw_bounds_of (raw_bounds r) (bounds d).

Lemma raw_step_build r s : raw_step_of r s -> step_built s -> RawPlanStep_build r = Ok s.
Proof.
  intros (Hid & Hobj & H1 & H2 & H3 & H4 & Hmax) Hb.
  pose proof (step_built_facts s Hb) as (Hm & Hself & Ho & Hcr & Hcr' & Hin).
  destruct Hb as (Hne & Hdeps & Hcaps & _). unfold RawPlanStep_build.
  rewrite (proj2 (plan_identity_new_ok _ (step_id s))) by (split; congruence).
  rewrite (proj2 (try_map_ok plan_identity_new _ (raw_depends_on r))).
  2:{ apply Forall_Forall2_diag, Forall_forall. intros x Hx. apply plan_identity_new_ok.
      split; [done|]. apply Hdeps. by apply (lists_set_elem _ _ _ H1). }
  rewrite (proj2 (try_map_ok RawCapability_build _
    ((fun c => mkPlanCapability (raw_name c) (raw_exact_revision c)) <$> raw_required_capabilities r))).
  2:{ apply Forall2_fmap_r, Forall_Forall2_diag, Forall_forall. intros c Hc.
      destruct (Hcaps (mkPlanCapability (raw_name c) (raw_exact_revision c))) as [N1 N2].
      { eapply lists_set_elem; [exact H3|]. apply list_elem_of_fmap. eauto. }
      apply str_is_empty_false in N1, N2. unfold RawCapability_build, PlanCapabilityReference_new.
      simpl in *. by rewrite N1, N2. }
  assert (Hcr2 : "" ∉ raw_completion_criteria r) by (intros Hx; by apply Hcr', (lists_set_elem _ _ _ H2)).
  assert (Hin2 : forall x, x ∈ raw_input_bindings r -> valid_digest x = true)
    by (intros x Hx; by apply Hin, (lists_set_elem _ _ _ H4)).
  destruct H1 as [H1 S1], H2 as [H2 S2], H3 as [H3 S3], H4 as [H4 S4].
  unfold PlanStepV1_new.
  rewrite (proj2 (unique_ok _ (depends_on s))) by done.
  rewrite (proj2 (unique_non_empty_ok _ (completion_criteria s))) by done.
  rewrite (proj2 (unique_ok _ (required_capabilities s))) by done.
  rewrite (proj2 (unique_digests_ok _ (input_bindings s))) by done.
  rewrite Hobj, Hmax, (proj2 (str_is_empty_false _)), !bool_decide_eq_false_2,
    (proj2 (Z.eqb_neq _ _)) by done.
  by destruct s.
Qed.

Lemma raw_step_build_built r s : RawPlanStep_build r = Ok s -> step_built s.
Proof.
  unfold RawPlanStep_build. intros H.
  destruct (plan_identity_new _) as [id|] eqn:E1; [|done].
  apply plan_identity_new_ok in E1 as [-> Hid].
  destruct (try_map plan_identity_new _) as [deps|] eqn:E2; [|done].
  destruct (try_map RawCapability_build _) as [caps|] eqn:E3; [|done].
  apply try_map_ok in E2, E3.
  assert (H' := H). unfold PlanStepV1_new in H'.
  destruct (unique deps) as [deps'|] eqn:U1; [|done].
  destruct (unique_non_empty _) as [crit'|]; [|done].
  destruct (unique caps) as [caps'|] eqn:U2; [|done].
  destruct (unique_digests _); [|done]. destruct (_ || _); [done|]. injection H' as <-.
  apply unique_ok in U1 as [-> _], U2 as [-> _].
  split_and!; simpl; [done|..].
  - intros i Hi. apply elem_of_list_to_set, list_elem_of_lookup in Hi as [n Hn].
    destruct (Forall2_lookup_r _ _ _ _ _ E2 Hn) as (x & _ & Hx).
    by apply plan_identity_new_ok in Hx as [<- ?].
  - intros c Hc. apply elem_of_list_to_set, list_elem_of_lookup in Hc as [n Hn].
    destruct (Forall2_lookup_r _ _ _ _ _ E3 Hn) as (x & _ & Hx).
    unfold RawCapability_build, PlanCapabilityReference_new in Hx. case_match eqn:E; [done|].
    apply orb_false_iff in E as [?%str_is_empty_false ?%str_is_empty_false]. by simplify_eq.
  - eauto.
Qed.

Lemma from_canonical_json_sound raw_from_str jcs_to_string json required satisfied available d :
  from_canonical_json raw_from_str jcs_to_string json required satisfied available = Ok d ->
  canonical_json jcs_to_string d = Ok json /\ plan_built d required satisfied available.
Proof.
  unfold from_canonical_json. intros H.
  destruct (ok_or _ _) as [raw|]; [|done]. destruct (_ || _); [done|].
  destruct (PlanBoundsV1_new _ _ _ _ _) as [b|] eqn:Eb; [|done].
  destruct (try_map _ _) as [sts|] eqn:Es; [|done]. apply try_map_ok in Es.
  destruct (plan_identity_new _) as [id|] eqn:Ei; [|done]. apply plan_identity_new_ok in Ei as [<- Hid].
  destruct (PlanDefinitionV1_new _ _ _ _ _ _ _ _ _ _ _ _ _) as [v|] eqn:Ed; [|done].
  destruct (canonical_json _ _) as [j|] eqn:Ej; [|done].
  destruct (negb _) eqn:En; [done|]. bool_hyps. simplify_eq.
  apply plan_definition_new_ok in Ed as [-> Hadm]. split; [done|]. constructor; simpl; auto.
  - clear -Es. induction Es; constructor; eauto using raw_step_build_built.
  - unfold bounds_built. assert (Eb' := Eb). unfold PlanBoundsV1_new in Eb'.
    case_match; simplify_eq. done.
Qed.

Lemma from_canonical_json_roundtrip raw_from_str jcs_to_string d json required satisfied available
    (Hserde : forall d json, jcs_to_string d = Some json ->
       exists raw, raw_from_str json = Some raw /\ raw_of raw d) :
  plan_built d required satisfied available ->
  canonical_json jcs_to_string d = Ok json ->
  from_canonical_json raw_from_str jcs_to_string json required satisfied available = Ok d.
Proof.
  intros [[Hc Hv] Hid Hsteps Hb Hadm] Hj. unfold from_canonical_json.
  pose proof Hj as Hj'. apply ok_or_ok in Hj'.
  destruct (Hserde _ _ Hj') as (raw & Hraw & Hof). rewrite Hraw. simpl.
  destruct Hof as (-> & -> & -> & -> & -> & -> & -> & -> & -> & -> & Hst & Hbo).
  rewrite Hc, Hv, String.eqb_refl, Z.eqb_refl. simpl.
  assert (Hbo' := Hb). rewrite Hbo in Hb. unfold bounds_built in Hb. simpl in Hb. rewrite Hb, <-Hbo.
  rewrite (proj2 (try_map_ok RawPlanStep_build _ (steps d))).
  2:{ clear -Hst Hsteps. induction Hst; inversion Hsteps; subst; constructor; eauto using raw_step_build. }
  rewrite (proj2 (plan_identity_new_ok _ (plan_id d))) by done.
  rewrite (proj2 (plan_definition_new_ok _ _ _ _ _ _ _ _ _ _ _ _ _ d)).
  - rewrite Hj, String.eqb_refl. done.
  - split; [|done]. destruct d; simpl in *; congruence.
Qed.

(** The Plan decoder accepts a text exactly when it is the canonical text of a definition
    that passes every construction check, and then returns that definition. *)
Theorem plan_document_exact raw_from_str jcs_to_string json required satisfied available d
    (Hserde : forall d json, jcs_to_string d = Some json ->
       exists raw, raw_from_str json = Some raw /\ raw_of raw d) :
  from_canonical_json raw_from_str jcs_to_string json required satisfied available = Ok d <->
  canonical_json jcs_to_string d = Ok json /\ plan_built d required satisfied available.
Proof.
  split; [apply from_canonical_json_sound|]. intros []. by apply from_canonical_json_roundtrip.
Qed.
