(* ===== verification/PlanLifecycle.v ===== *)
(** * Plan lifecycle ([engine/plan/src/lifecycle.rs])

    The pure progress reducer of one Plan revision.  [apply] takes the whole
    snapshot and returns the next one or a typed error; in the source [next] is
    a clone, so an error leaves [self] as it was.  Steps are a [BTreeMap] in the
    source and a [gmap] here.  The [expect] of [refresh_ready] and the indexing
    of [ready_steps] read keys that [snapshot_wf] (in [PlanProgress]) shows to be
    present; an absent key, which panics in the source, is left alone here. *)

From S2P Require Import Prelude PlanTypes PlanDefinition.

Inductive PlanState :=
  | PlanProposed | PlanAdopted | PlanRunning | PlanSuspended
  | PlanCompleted | PlanFailed | PlanSuperseded | PlanRejected.

Inductive StepState :=
  | StepPending | StepReady | StepClaimed | StepRunning
  | StepSuspended | StepCompleted | StepFailed.

#[export] Instance PlanState_eq_dec : EqDecision PlanState.
Proof. solve_decision. Defined.
#[export] Instance StepState_eq_dec : EqDecision StepState.
Proof. solve_decision. Defined.

Definition PlanState_is_terminal (self : PlanState) : bool :=
  match self with
  | PlanCompleted | PlanFailed | PlanSuperseded | PlanRejected => true
  | _ => false
  end.

Record StepProgress := mkStepProgress {
  sp_state : StepState;
  sp_attempts : Z;
}.
#[export] Instance eta_StepProgress : Eta StepProgress :=
  fun r => mkStepProgress (sp_state r) (sp_attempts r).

Inductive PlanTransition :=
  | Adopt
  | AdoptWithCarryForward (carried : gset PlanStepId)
  | Reject
  | Suspend
  | Resume
  | Supersede
  | Fail_
  | Complete (criteria_complete : bool)
  | Claim (step_id : PlanStepId)
  | ExpireClaim (step_id : PlanStepId)
  | Start (step_id : PlanStepId)
  | CompleteStep (step_id : PlanStepId)
  | SuspendStep (step_id : PlanStepId)
  | ResumeStep (step_id : PlanStepId)
  | FailStep (step_id : PlanStepId)
  | RetryStep (step_id : PlanStepId).

Record PlanSnapshot := mkPlanSnapshot {
  definition : PlanDefinitionV1;
  plan_state : PlanState;
  progress : gmap PlanStepId StepProgress;
  total_attempts : Z;
}.
#[export] Instance eta_PlanSnapshot : Eta PlanSnapshot :=
  fun r => mkPlanSnapshot (definition r) (plan_state r) (progress r) (total_attempts r).

Definition PlanSnapshot_new (definition : PlanDefinitionV1) : PlanSnapshot :=
  mkPlanSnapshot definition PlanProposed
    (list_to_map ((fun step => (step_id step, mkStepProgress StepPending 0)) <$> steps definition))
    0.

Definition ready_steps (self : PlanSnapshot) : list PlanStepId :=
  step_id <$> filter (fun step =>
    is_true (is_some_and (fun p => bool_decide (sp_state p = StepReady))
               (progress self !! step_id step))) (steps (definition self)).

(** [self.definition.steps().iter().find(|step| step.step_id() == step_id)]. *)
Definition find_step (d : PlanDefinitionV1) (id : PlanStepId) : option PlanStepV1 :=
  snd <$> list_find (fun step => step_id step = id) (steps d).

Definition is_active (p : StepProgress) : bool :=
  match sp_state p with StepClaimed | StepRunning => true | _ => false end.

(** [... .count() as u32]. *)
Definition active_count (self : PlanSnapshot) : Z :=
  wrap_u32 (Z.of_nat (length (filter (fun p => is_true (is_active p)) (values (progress self))))).

Definition admits_dispatch (s : PlanState) : bool :=
  match s with PlanAdopted | PlanRunning => true | _ => false end.

Definition completed_ids (m : gmap PlanStepId StepProgress) : gset PlanStepId :=
  dom (filter (fun kv => sp_state kv.2 = StepCompleted) m).

(** The body of the loop of [refresh_ready] for one declared step. *)
Definition refresh_step (completed : gset PlanStepId) (m : gmap PlanStepId StepProgress)
    (step : PlanStepV1) : gmap PlanStepId StepProgress :=
  match m !! step_id step with
  | Some p =>
      if bool_decide (sp_state p = StepPending)
         && (sp_attempts p <? max_attempts step)
         && bool_decide (depends_on step ⊆ completed)
      then <[step_id step := p <| sp_state := StepReady |>]> m
      else m
  | None => m
  end.

Definition refresh_ready (self : PlanSnapshot) : PlanSnapshot :=
  if negb (admits_dispatch (plan_state self))
     || (max_total_attempts (bounds (definition self)) <=? total_attempts self)
  then self
  else self <| progress := foldl (refresh_step (completed_ids (progress self)))
                             (progress self) (steps (definition self)) |>.

(** [require_state(id, state)?.state = next]. *)
Definition move_step (self : PlanSnapshot) (id : PlanStepId) (state next : StepState)
    : result PlanError PlanSnapshot :=
  match progress self !! id with
  | Some p =>
      if bool_decide (sp_state p = state)
      then Ok (self <| progress := <[id := p <| sp_state := next |>]> (progress self) |>)
      else Err PlanTransitionInvalid
  | None => Err PlanTransitionInvalid
  end.

Definition claim (self : PlanSnapshot) (id : PlanStepId) : result PlanError PlanSnapshot :=
  reject StepNotReady when
    negb (admits_dispatch (plan_state self))
    || (max_parallel_ready (bounds (definition self)) <=? active_count self);
  move_step self id StepReady StepClaimed.

(** The common prefix of [start] and [retry]: the step's limit, its attempts in
    the required state, and the two attempt bounds. *)
Definition attempt_check (self : PlanSnapshot) (id : PlanStepId) (state : StepState)
    : result PlanError StepProgress :=
  let? step := ok_or (find_step (definition self) id) PlanInvalid in
  let? p := ok_or (match progress self !! id with
                   | Some p => if bool_decide (sp_state p = state) then Some p else None
                   | None => None
                   end) PlanTransitionInvalid in
  reject PlanBoundExceeded when
    (max_attempts step <=? sp_attempts p)
    || (max_total_attempts (bounds (definition self)) <=? total_attempts self);
  Ok p.

Definition start (self : PlanSnapshot) (id : PlanStepId) : result PlanError PlanSnapshot :=
  let? p := attempt_check self id StepClaimed in
  let p' := mkStepProgress StepRunning (wrap_u32 (sp_attempts p + 1)) in
  Ok (self <| progress := <[id := p']> (progress self) |>
           <| total_attempts := wrap_u32 (total_attempts self + 1) |>
           <| plan_state := PlanRunning |>).

Definition retry (self : PlanSnapshot) (id : PlanStepId) : result PlanError PlanSnapshot :=
  attempt_check self id StepFailed ?;
  let? self := move_step self id StepFailed StepPending in
  Ok (refresh_ready self).

(** The carry-forward admission test and its update loop. *)
Definition carry_rejected (self : PlanSnapshot) (carried : gset PlanStepId) : bool :=
  existsb (fun id =>
    is_none_or (fun step => negb (bool_decide (depends_on step ⊆ carried)))
      (find_step (definition self) id)) (elements carried).

Definition carry_step (m : gmap PlanStepId StepProgress) (id : PlanStepId)
    : result PlanError (gmap PlanStepId StepProgress) :=
  match m !! id with
  | Some p => Ok (<[id := p <| sp_state := StepCompleted |>]> m)
  | None => Err PlanTransitionInvalid
  end.

Definition adopt_with_carry_forward (self : PlanSnapshot) (carried : gset PlanStepId)
    : result PlanError PlanSnapshot :=
  reject PlanTransitionInvalid when carry_rejected self carried;
  let? m := try_fold carry_step (progress self) (elements carried) in
  let state := if any_value (fun p => bool_decide (sp_state p = StepCompleted)) m
               then PlanRunning else PlanAdopted in
  Ok (refresh_ready (self <| progress := m |> <| plan_state := state |>)).

Definition apply (self : PlanSnapshot) (transition : PlanTransition)
    : result PlanError PlanSnapshot :=
  reject PlanTransitionInvalid when PlanState_is_terminal (plan_state self);
  let invalid := Err PlanTransitionInvalid in
  match transition, plan_state self with
  | Adopt, PlanProposed => Ok (refresh_ready (self <| plan_state := PlanAdopted |>))
  | AdoptWithCarryForward carried, PlanProposed => adopt_with_carry_forward self carried
  | Reject, PlanProposed => Ok (self <| plan_state := PlanRejected |>)
  | Suspend, PlanRunning => Ok (self <| plan_state := PlanSuspended |>)
  | Resume, PlanSuspended => Ok (refresh_ready (self <| plan_state := PlanRunning |>))
  | Supersede, (PlanAdopted | PlanRunning | PlanSuspended) =>
      Ok (self <| plan_state := PlanSuperseded |>)
  | Fail_, (PlanRunning | PlanSuspended) => Ok (self <| plan_state := PlanFailed |>)
  | Complete criteria_complete, PlanRunning =>
      if criteria_complete
         && all_values (fun p => bool_decide (sp_state p = StepCompleted)) (progress self)
      then Ok (self <| plan_state := PlanCompleted |>)
      else invalid
  | Claim id, _ => claim self id
  | ExpireClaim id, _ => move_step self id StepClaimed StepReady
  | Start id, _ => start self id
  | CompleteStep id, _ =>
      let? next := move_step self id StepRunning StepCompleted in Ok (refresh_ready next)
  | SuspendStep id, _ => move_step self id StepRunning StepSuspended
  | ResumeStep id, _ => move_step self id StepSuspended StepRunning
  | FailStep id, _ => move_step self id StepRunning StepFailed
  | RetryStep id, _ => retry self id
  | _, _ => invalid
  end.

(** Snapshots reachable from a proposal. *)
Inductive plan_reachable (d : PlanDefinitionV1) : PlanSnapshot -> Prop :=
  | reachable_new : plan_reachable d (PlanSnapshot_new d)
  | reachable_apply s t s' :
      plan_reachable d s -> apply s t = Ok s' -> plan_reachable d s'.
