(* ===== verification/PlanProgress.v ===== *)
(** * Plan progress: invariants, safety and progress of the reducer

    Everything here is about snapshots reachable from
    [PlanSnapshot_new d] by [apply], for a definition [d] whose steps are closed
    and acyclic (as [PlanDefinitionV1_new] guarantees). *)

From S2P Require Import Prelude PlanTypes PlanDefinition PlanLifecycle.

(** ** Sums over the progress map *)

Definition zsum (m : gmap string Z) : Z := map_fold (fun _ a acc => a + acc) 0 m.

Lemma zsum_insert_None m k a : m !! k = None -> zsum (<[k:=a]> m) = a + zsum m.
Proof. intros H. unfold zsum. apply (map_fold_insert_L _ 0 k a m); [lia|done]. Qed.

Lemma zsum_insert m k a b : m !! k = Some a -> zsum (<[k:=b]> m) = zsum m - a + b.
Proof.
  intros H. rewrite <-(insert_delete_id m k a H) at 2.
  rewrite <-insert_delete_eq, !zsum_insert_None by apply lookup_delete_eq. lia.
Qed.

Definition attempts_sum (m : gmap string StepProgress) : Z := zsum (sp_attempts <$> m).

Lemma attempts_sum_insert m k p q :
  m !! k = Some p -> attempts_sum (<[k:=q]> m) = attempts_sum m - sp_attempts p + sp_attempts q.
Proof.
  intros H. unfold attempts_sum. rewrite fmap_insert. apply zsum_insert.
  by rewrite lookup_fmap, H.
Qed.

(** ** The snapshot invariant *)

Definition completed (m : gmap string StepProgress) (i : string) : Prop :=
  exists p, m !! i = Some p /\ sp_state p = StepCompleted.

Definition started (st : StepState) : Prop :=
  st = StepRunning \/ st = StepSuspended \/ st = StepFailed.

(** Conditions on one step's progress, given the whole map. *)
Record step_ok (m : gmap string StepProgress) (st : PlanStepV1) (p : StepProgress) : Prop := {
  ok_attempts : 0 <= sp_attempts p <= max_attempts st;
  ok_pending : sp_state p = StepPending -> sp_attempts p < max_attempts st;
  ok_deps : sp_state p ≠ StepPending -> forall i, i ∈ depends_on st -> completed m i;
  ok_started : started (sp_state p) -> 1 <= sp_attempts p;
}.

Definition map_ok (d : PlanDefinitionV1) (m : gmap string StepProgress) : Prop :=
  dom m = step_ids (steps d) /\
  forall st p, st ∈ steps d -> m !! step_id st = Some p -> step_ok m st p.

(** No Pending step has all its dependencies completed. *)
Definition saturated (d : PlanDefinitionV1) (m : gmap string StepProgress) : Prop :=
  forall st p, st ∈ steps d -> m !! step_id st = Some p -> sp_state p = StepPending ->
    ~ forall i, i ∈ depends_on st -> completed m i.

Record snapshot_wf (d : PlanDefinitionV1) (s : PlanSnapshot) : Prop := {
  wf_definition : definition s = d;
  wf_map : map_ok d (progress s);
  wf_total : total_attempts s = attempts_sum (progress s);
  wf_bound : 0 <= total_attempts s <= max_total_attempts (bounds d);
  wf_proposed : plan_state s = PlanProposed ->
    forall i p, progress s !! i = Some p -> p = mkStepProgress StepPending 0;
  wf_saturated : admits_dispatch (plan_state s) = true ->
    total_attempts s < max_total_attempts (bounds d) ->
    (forall i p, progress s !! i = Some p -> ~ started (sp_state p)) ->
    saturated d (progress s);
}.

(** What the lifecycle needs from an admitted definition. *)
Record definition_sound (d : PlanDefinitionV1) : Prop := {
  sound_closed : closed_steps (steps d);
  sound_acyclic : acyclic (steps d);
  sound_nonempty : steps d ≠ [];
  sound_attempts : forall st, st ∈ steps d -> 0 < max_attempts st <= u32_max;
  sound_total : 0 < max_total_attempts (bounds d) <= u32_max;
  sound_parallel : 0 < max_parallel_ready (bounds d) <= max_steps (bounds d);
  sound_count : Z.of_nat (length (steps d)) <= max_steps (bounds d) <= u32_max;
}.

Lemma plan_built_sound d required satisfied available :
  plan_built d required satisfied available -> definition_typed d -> definition_sound d.
Proof.
  intros [_ _ Hst Hb Hadm] [[Ht1 [Ht2 Ht3]] Ht4]. destruct Hadm as [_ _ [Hc0 Hc] Hcl Hac _ _].
  unfold bounds_built, PlanBoundsV1_new in Hb. case_match eqn:E; [done|].
  rewrite !orb_false_iff, !Z.eqb_neq, Z.ltb_ge in E. destruct_and! E.
  unfold is_u32 in *. constructor; auto; try lia.
  - intros Hn. rewrite Hn in Hc0. simpl in Hc0. lia.
  - intros st Hin. rewrite Forall_forall in Hst, Ht4.
    destruct (step_built_facts st (Hst st Hin)) as (Hm & _).
    specialize (Ht4 st Hin). unfold step_typed, is_u32 in Ht4. lia.
Qed.

(** ** Declared steps and their progress entries *)

Lemma find_step_some d st :
  closed_steps (steps d) -> st ∈ steps d -> find_step d (step_id st) = Some st.
Proof.
  intros [Hnd _] Hin. unfold find_step.
  destruct (list_find _ _) as [[i x]|] eqn:E; simpl.
  - apply list_find_Some in E as (Hi & Heq & _). f_equal.
    apply (nodup_key_inj step_id (steps d)); eauto using list_elem_of_lookup_2.
  - apply list_find_None in E. rewrite Forall_forall in E. by destruct (E st Hin).
Qed.

Lemma find_step_inv d id st : find_step d id = Some st -> st ∈ steps d /\ step_id st = id.
Proof.
  unfold find_step. intros H. destruct (list_find _ _) as [[i x]|] eqn:E; simplify_eq/=.
  apply list_find_Some in E as (Hi & Heq & _). split; [|done].
  eauto using list_elem_of_lookup_2.
Qed.

Lemma elem_of_step_ids l id : id ∈ step_ids l <-> exists st, st ∈ l /\ step_id st = id.
Proof.
  unfold step_ids. rewrite elem_of_list_to_set, list_elem_of_fmap. naive_solver.
Qed.

Lemma map_ok_declared d m id p :
  map_ok d m -> m !! id = Some p -> exists st, st ∈ steps d /\ step_id st = id /\ step_ok m st p.
Proof.
  intros [Hdom Hok] Hl. assert (Hid : id ∈ step_ids (steps d)).
  { rewrite <-Hdom. apply elem_of_dom. eauto. }
  apply elem_of_step_ids in Hid as (st & Hin & <-). eauto 6.
Qed.

Lemma completed_insert m id p q i :
  m !! id = Some p -> (sp_state p = StepCompleted -> sp_state q = StepCompleted) ->
  completed m i -> completed (<[id:=q]> m) i.
Proof.
  intros Hp Himp (r & Hr & Hc). destruct (decide (i = id)) as [->|Hne].
  - exists q. rewrite lookup_insert_eq. simplify_eq. auto.
  - exists r. by rewrite lookup_insert_ne.
Qed.

Lemma step_ok_mono m m' st p :
  (forall i, completed m i -> completed m' i) -> step_ok m st p -> step_ok m' st p.
Proof. intros Hm [? ? Hd ?]. constructor; auto. Qed.

(** Replacing one entry by one that keeps completion and meets its own
    conditions preserves the map invariant. *)
Lemma map_ok_insert d m id p q :
  closed_steps (steps d) -> map_ok d m -> m !! id = Some p ->
  (sp_state p = StepCompleted -> sp_state q = StepCompleted) ->
  (forall st, st ∈ steps d -> step_id st = id -> step_ok m st p -> step_ok m st q) ->
  map_ok d (<[id:=q]> m).
Proof.
  intros Hcl Hmok Hp Himp Hq. pose proof Hmok as [Hdom Hok]. split.
  - rewrite dom_insert_lookup_L; [done|eauto].
  - intros st r Hin Hr. apply (step_ok_mono m); [intros i; by apply (completed_insert m id p)|].
    apply lookup_insert_Some in Hr as [[Hid <-]|[Hne Hr]]; [|eauto].
    apply (Hq st Hin (eq_sym Hid)), Hok; [done|congruence].
Qed.

(** ** [refresh_ready], pointwise *)

Definition refresh_entry (done : gset string) (st : PlanStepV1) (p : StepProgress) : StepProgress :=
  if bool_decide (sp_state p = StepPending)
     && (sp_attempts p <? max_attempts st)
     && bool_decide (depends_on st ⊆ done)
  then p <| sp_state := StepReady |> else p.

Lemma refresh_step_lookup done m st i :
  refresh_step done m st !! i =
  if decide (i = step_id st) then refresh_entry done st <$> m !! i else m !! i.
Proof.
  unfold refresh_step, refresh_entry. case_decide as Hi; subst.
  - destruct (m !! step_id st) as [p|] eqn:E; simpl; [|done].
    case_match; [by rewrite lookup_insert_eq|done].
  - destruct (m !! step_id st) as [p|] eqn:E; simpl; [|done].
    case_match; [by rewrite lookup_insert_ne|done].
Qed.

Lemma refresh_fold_other done l m i :
  i ∉ step_id <$> l -> foldl (refresh_step done) m l !! i = m !! i.
Proof.
  revert m. induction l as [|st l IH]; intros m Hi; simpl; [done|].
  rewrite IH by set_solver. rewrite refresh_step_lookup. case_decide; set_solver.
Qed.

Lemma refresh_fold_lookup done l m st :
  NoDup (step_id <$> l) -> st ∈ l ->
  foldl (refresh_step done) m l !! step_id st = refresh_entry done st <$> m !! step_id st.
Proof.
  revert m. induction l as [|st' l IH]; intros m Hnd Hin; simpl; [set_solver|].
  simpl in Hnd. apply NoDup_cons in Hnd as [Hnin Hnd].
  apply elem_of_cons in Hin as [->|Hin].
  - rewrite refresh_fold_other by done. rewrite refresh_step_lookup. by case_decide.
  - rewrite IH by done. rewrite refresh_step_lookup. case_decide as He; [|done].
    destruct Hnin. rewrite <-He. apply list_elem_of_fmap. eauto.
Qed.

Lemma refresh_entry_state done st p :
  refresh_entry done st p = p \/
  (sp_state p = StepPending /\ depends_on st ⊆ done /\
   refresh_entry done st p = p <| sp_state := StepReady |>).
Proof. unfold refresh_entry. case_match eqn:E; bool_hyps; auto. Qed.

Lemma refresh_entry_attempts done st p : sp_attempts (refresh_entry done st p) = sp_attempts p.
Proof. by destruct (refresh_entry_state done st p) as [->|(_ & _ & ->)]. Qed.

Lemma elem_of_completed_ids m i : i ∈ completed_ids m <-> completed m i.
Proof.
  unfold completed_ids, completed. rewrite elem_of_dom. unfold is_Some.
  setoid_rewrite map_lookup_filter_Some. simpl. done.
Qed.

Section refresh.
Context (d : PlanDefinitionV1) (Hcl : closed_steps (steps d)).
Context (m : gmap string StepProgress) (Hok : map_ok d m).

Let m' := foldl (refresh_step (completed_ids m)) m (steps d).

Lemma refresh_lookup st :
  st ∈ steps d -> m' !! step_id st = refresh_entry (completed_ids m) st <$> m !! step_id st.
Proof. intros Hin. apply refresh_fold_lookup; [apply Hcl|done]. Qed.

Lemma refresh_inv i q :
  m' !! i = Some q ->
  exists st p, st ∈ steps d /\ step_id st = i /\ m !! i = Some p /\
    q = refresh_entry (completed_ids m) st p.
Proof.
  intros Hq. destruct (decide (i ∈ step_id <$> steps d)) as [Hin|Hin].
  - apply list_elem_of_fmap in Hin as (st & -> & Hst). rewrite refresh_lookup in Hq by done.
    destruct (m !! step_id st) as [p|] eqn:E; simplify_eq/=. eauto 6.
  - unfold m' in Hq. rewrite refresh_fold_other in Hq by done.
    apply (map_ok_declared d m) in Hq as (st & Hst & <- & _); [|done].
    destruct Hin. apply list_elem_of_fmap. eauto.
Qed.

Lemma refresh_dom i : is_Some (m' !! i) <-> is_Some (m !! i).
Proof.
  destruct (decide (i ∈ step_id <$> steps d)) as [Hin|Hin].
  - apply list_elem_of_fmap in Hin as (st & -> & Hst). rewrite refresh_lookup by done.
    by rewrite fmap_is_Some.
  - unfold m'. by rewrite refresh_fold_other.
Qed.

Lemma refresh_completed i : completed m' i <-> completed m i.
Proof.
  unfold completed. split.
  - intros (q & Hq & Hc). apply refresh_inv in Hq as (st & p & Hst & <- & Hp & ->).
    exists p. split; [done|].
    by destruct (refresh_entry_state (completed_ids m) st p) as [Hr|(_ & _ & Hr)];
      rewrite Hr in Hc.
  - intros (p & Hp & Hc).
    destruct (map_ok_declared d m i p Hok Hp) as (st & Hst & <- & _).
    exists p. rewrite refresh_lookup, Hp by done. simpl. split; [|done]. f_equal.
    destruct (refresh_entry_state (completed_ids m) st p) as [|(Hpend & _)]; congruence.
Qed.

Lemma refresh_map_ok : map_ok d m'.
Proof.
  destruct Hok as [Hdom Hsteps]. split.
  - rewrite <-Hdom. apply set_eq. intros i. rewrite !elem_of_dom. apply refresh_dom.
  - intros st q Hst Hq. rewrite refresh_lookup in Hq by done.
    destruct (m !! step_id st) as [p|] eqn:E; simplify_eq/=.
    apply (step_ok_mono m); [intros i; apply refresh_completed|].
    pose proof (Hsteps st p Hst E) as Hp.
    destruct (refresh_entry_state (completed_ids m) st p) as [->|(Hpend & Hdeps & ->)]; [done|].
    destruct Hp as [H1 H2 H3 H4]. constructor; simpl; [done|done| |].
    + intros _ i Hi. apply elem_of_completed_ids. by apply Hdeps.
    + intros [|[|]]; done.
Qed.

Lemma refresh_saturated : saturated d m'.
Proof.
  intros st q Hst Hq Hpend Hdeps. rewrite refresh_lookup in Hq by done.
  destruct (m !! step_id st) as [p|] eqn:E; simplify_eq/=.
  pose proof (proj2 Hok st p Hst E) as [_ Hlt _ _].
  destruct (refresh_entry_state (completed_ids m) st p) as [Hr|(_ & _ & Hr)];
    [|by rewrite Hr in Hpend].
  rewrite Hr in Hpend. unfold refresh_entry in Hr. case_match eqn:Eb.
  - apply (f_equal sp_state) in Hr. simpl in Hr. congruence.
  - apply not_true_iff_false in Eb. apply Eb.
    rewrite !andb_true_iff, !bool_decide_eq_true, Z.ltb_lt. split_and!; [done|auto|].
    intros i Hi. apply elem_of_completed_ids, refresh_completed. by apply Hdeps.
Qed.

Lemma refresh_sum : attempts_sum m' = attempts_sum m.
Proof.
  unfold attempts_sum. f_equal. apply map_eq. intros i. rewrite !lookup_fmap.
  destruct (m' !! i) as [q|] eqn:Eq.
  - apply refresh_inv in Eq as (st & p & _ & _ & Hp & ->). rewrite Hp. simpl.
    by rewrite refresh_entry_attempts.
  - destruct (m !! i) eqn:E; [|done].
    assert (Hs : is_Some (m' !! i)) by (apply refresh_dom; eauto). destruct Hs. congruence.
Qed.
End refresh.

(** ** Preservation *)

(** The invariant without its saturation clause; [refresh_ready] restores that. *)
Record snapshot_pre (d : PlanDefinitionV1) (s : PlanSnapshot) : Prop := {
  pre_definition : definition s = d;
  pre_map : map_ok d (progress s);
  pre_total : total_attempts s = attempts_sum (progress s);
  pre_bound : 0 <= total_attempts s <= max_total_attempts (bounds d);
}.

Lemma wrap_u32_small x : 0 <= x <= u32_max -> wrap_u32 x = x.
Proof. unfold wrap_u32, u32_max. intros. apply Z.mod_small. lia. Qed.

Lemma move_step_ok s id a b s' :
  move_step s id a b = Ok s' <->
  exists p, progress s !! id = Some p /\ sp_state p = a /\
    s' = s <| progress := <[id := p <| sp_state := b |>]> (progress s) |>.
Proof.
  unfold move_step. split.
  - intros H. destruct (progress s !! id) as [p|]; [|done].
    case_match; [|done]. bool_hyps. simplify_eq. eauto.
  - intros (p & -> & Ha & ->). by rewrite bool_decide_eq_true_2.
Qed.

Lemma attempt_check_ok s id a p :
  attempt_check s id a = Ok p <->
  exists st, find_step (definition s) id = Some st /\ progress s !! id = Some p /\
    sp_state p = a /\ sp_attempts p < max_attempts st /\
    total_attempts s < max_total_attempts (bounds (definition s)).
Proof.
  unfold attempt_check. split.
  - intros H. destruct (find_step _ _) as [st|]; [|done]. simpl in H.
    destruct (progress s !! id) as [q|]; [|done]. case_bool_decide; [|done]. simpl in H.
    case_match eqn:E; [done|]. simplify_eq. apply orb_false_iff in E as [??]. bool_hyps. eauto 8.
  - intros (st & -> & -> & Ha & H1 & H2). simpl. rewrite bool_decide_eq_true_2 by done. simpl.
    apply Z.leb_gt in H1, H2. by rewrite H1, H2.
Qed.

Section preservation.
Context (d : PlanDefinitionV1) (Hs : definition_sound d).

Lemma refresh_ready_wf s :
  snapshot_pre d s -> plan_state s ≠ PlanProposed -> snapshot_wf d (refresh_ready s).
Proof using Hs.
  intros [Hd Hm Ht Hb] Hp. unfold refresh_ready. destruct (_ || _) eqn:E.
  - constructor; auto; [done|]. intros Hdisp Hlt _. rewrite Hdisp in E. simpl in E. bool_hyps.
    rewrite Hd in E. lia.
  - rewrite Hd. pose proof (sound_closed d Hs) as Hcl. constructor; simpl; auto; [|by rewrite refresh_sum| |].
    + by apply refresh_map_ok.
    + done.
    + intros _ _ _. by apply refresh_saturated.
Qed.

Lemma move_map_ok m id p q :
  map_ok d m -> m !! id = Some p -> sp_state p ≠ StepPending -> sp_state p ≠ StepCompleted ->
  sp_attempts q = sp_attempts p -> sp_state q ≠ StepPending ->
  (started (sp_state q) -> 1 <= sp_attempts p) ->
  map_ok d (<[id := q]> m).
Proof using Hs.
  intros Hm Hp Ha Ha' Hq Hb Hst. eapply map_ok_insert; [apply Hs|done|done|done|].
  intros st _ _ [H1 H2 H3 H4]. constructor; rewrite ?Hq; auto. done.
Qed.

Lemma move_sum m id p q :
  m !! id = Some p -> sp_attempts q = sp_attempts p ->
  attempts_sum (<[id := q]> m) = attempts_sum m.
Proof. intros Hp Hq. rewrite (attempts_sum_insert _ _ _ _ Hp). lia. Qed.

(** A state move that neither completes a step nor makes one pending. *)
Lemma move_wf s id a b s' :
  snapshot_wf d s -> move_step s id a b = Ok s' ->
  a ≠ StepPending -> a ≠ StepCompleted -> b ≠ StepPending -> b ≠ StepCompleted ->
  (started b -> started a) -> (started a -> started b) ->
  snapshot_wf d s'.
Proof using Hs.
  intros [Hd Hm Ht Hbd Hpr Hsat] (p & Hp & <- & ->)%move_step_ok Ha Ha' Hb Hb' Hba Hab.
  destruct (map_ok_declared d _ _ _ Hm Hp) as (st0 & _ & _ & Hok).
  assert (Hm' : map_ok d (<[id := p <| sp_state := b |>]> (progress s))).
  { eapply move_map_ok; eauto. intros Hst. by apply (ok_started _ _ _ Hok), Hba. }
  constructor; simpl; auto.
  - by rewrite (move_sum _ _ p).
  - intros Hprop. specialize (Hpr Hprop id p Hp). by subst.
  - intros Hdisp Hlt Hns st q Hst Hq Hpend Hdeps.
    assert (Hc : forall i, completed (<[id:=p <| sp_state := b |>]> (progress s)) i ->
                      completed (progress s) i).
    { intros i (r & Hr & Hc). apply lookup_insert_Some in Hr as [[_ <-]|[_ Hr]]; [done|].
      by exists r. }
    apply lookup_insert_Some in Hq as [[_ <-]|[Hne Hq]]; [done|].
    apply (Hsat Hdisp Hlt) with st q; auto.
    intros i r Hr Hst'. destruct (decide (i = id)) as [->|Hi].
    + simplify_eq. apply (Hns id (p <| sp_state := b |>)); [apply lookup_insert_eq|]. auto.
    + apply (Hns i r); [by rewrite lookup_insert_ne|done].
Qed.

Lemma complete_step_wf s id s' :
  snapshot_wf d s -> move_step s id StepRunning StepCompleted = Ok s' ->
  snapshot_wf d (refresh_ready s').
Proof using Hs.
  intros [Hd Hm Ht Hbd Hpr Hsat] (p & Hp & Ha & ->)%move_step_ok.
  apply refresh_ready_wf.
  - constructor; simpl; auto; [|by rewrite (move_sum _ _ p)].
    eapply move_map_ok; eauto; simpl; rewrite ?Ha; try done. intros [|[|]]; done.
  - simpl. intros Hprop. specialize (Hpr Hprop id p Hp). by subst.
Qed.

Lemma retry_wf s id s' : snapshot_wf d s -> retry s id = Ok s' -> snapshot_wf d s'.
Proof using Hs.
  intros [Hd Hm Ht Hbd Hpr Hsat] H. unfold retry in H.
  destruct (attempt_check _ _ _) as [p|] eqn:Ec; [|done].
  apply attempt_check_ok in Ec as (st & Hst & Hp & Ha & Hlt & _). rewrite Hd in Hst.
  apply find_step_inv in Hst as [Hst Hid].
  destruct (move_step _ _ _ _) as [s1|] eqn:Em; [|done]. injection H as <-.
  apply move_step_ok in Em as (p' & Hp' & _ & ->).
  assert (p' = p) as -> by congruence. subst id.
  apply refresh_ready_wf.
  - constructor; simpl; auto; [|by rewrite (move_sum _ _ p)].
    eapply map_ok_insert; [apply Hs|done|done|congruence|].
    intros st' Hst' Hid' [H1 H2 H3 H4]. constructor; simpl; [done| |done|].
    + intros _. by rewrite (nodup_key_inj step_id (steps d) st' st) by (apply Hs || done).
    + intros [|[|]]; done.
  - simpl. intros Hprop. specialize (Hpr Hprop _ _ Hp). by subst.
Qed.

Lemma start_wf s id s' : snapshot_wf d s -> start s id = Ok s' -> snapshot_wf d s'.
Proof using Hs.
  intros [Hd Hm Ht Hbd Hpr Hsat] H. unfold start in H.
  destruct (attempt_check _ _ _) as [p|] eqn:Ec; [|done]. injection H as <-.
  apply attempt_check_ok in Ec as (st & Hst & Hp & Ha & Hlt & Htot). rewrite Hd in Hst, Htot.
  apply find_step_inv in Hst as [Hst Hid].
  pose proof (sound_attempts d Hs st Hst) as Hmax. pose proof (sound_total d Hs) as Hmaxt.
  subst id. pose proof (proj2 Hm st p Hst Hp) as [Hat _ _ _].
  rewrite !wrap_u32_small by lia.
  constructor; simpl; auto; [| |lia|done|].
  - eapply map_ok_insert; [apply Hs|done|done|congruence|].
    intros st' Hst' Hid' [H1 H2 H3 H4].
    rewrite (nodup_key_inj step_id (steps d) st' st) in * by (apply Hs || done).
    constructor; simpl; [lia|done| |lia]. intros _. apply H3. congruence.
  - rewrite (attempts_sum_insert _ _ _ _ Hp). simpl. lia.
  - intros _ _ Hns. exfalso.
    apply (Hns (step_id st) (mkStepProgress StepRunning (sp_attempts p + 1)));
      [apply lookup_insert_eq|by left].
Qed.
End preservation.

(** ** Proposal and carry-forward adoption *)

Lemma new_lookup d i p :
  progress (PlanSnapshot_new d) !! i = Some p <->
  i ∈ step_ids (steps d) /\ p = mkStepProgress StepPending 0.
Proof.
  rewrite elem_of_step_ids. simpl. induction (steps d) as [|st l IH]; simpl.
  - rewrite lookup_empty. set_solver.
  - rewrite lookup_insert_Some, IH. split.
    + intros [[<- <-]|[_ [(st' & Hin & Hid) ->]]]; (split; [|done]); [exists st|exists st']; set_solver.
    + intros [(st' & Hin & Hid) ->]. destruct (decide (step_id st = i)); [by left|right].
      split; [done|]. split; [|done]. apply elem_of_cons in Hin as [->|Hin]; [done|eauto].
Qed.

Lemma zsum_zero m : (forall k a, m !! k = Some a -> a = 0) -> zsum m = 0.
Proof.
  induction m as [|k a m Hk IH] using map_ind; intros Hz; [done|].
  rewrite zsum_insert_None by done. rewrite (Hz k a) by apply lookup_insert_eq.
  rewrite IH; [done|]. intros k' a' H'. apply (Hz k'). rewrite lookup_insert_ne; congruence.
Qed.

Lemma new_wf d : definition_sound d -> snapshot_wf d (PlanSnapshot_new d).
Proof.
  intros Hs. constructor; try done.
  - split.
    + apply set_eq. intros i. rewrite elem_of_dom. unfold is_Some.
      setoid_rewrite new_lookup. naive_solver.
    + intros st p Hst [_ ->]%new_lookup. pose proof (sound_attempts d Hs st Hst).
      constructor; simpl; [lia|lia|done|intros [|[|]]; done].
  - symmetry. apply zsum_zero. intros k a. rewrite lookup_fmap.
    destruct (progress _ !! k) as [p|] eqn:E; simpl; [|done]. intros [= <-].
    by apply new_lookup in E as [_ ->].
  - simpl. pose proof (sound_total d Hs). lia.
  - intros _ i p. rewrite new_lookup. by intros [_ ->].
Qed.

Lemma carry_fold_lookup l m m' i :
  try_fold carry_step m l = Ok m' ->
  m' !! i = if decide (i ∈ l) then (set_field sp_state (fun _ => StepCompleted)) <$> m !! i else m !! i.
Proof.
  revert m. induction l as [|x l IH]; intros m H; simpl in H.
  - simplify_eq. by case_decide; [set_solver|].
  - unfold carry_step in H at 1. destruct (m !! x) as [p|] eqn:E; [|done].
    rewrite (IH _ H). destruct (decide (i = x)) as [->|Hne].
    + rewrite lookup_insert_eq, E. rewrite (decide_True (P := x ∈ x :: l)) by set_solver.
      by case_decide.
    + rewrite lookup_insert_ne by done. do 2 case_decide; set_solver.
Qed.

Lemma carry_rejected_false s carried :
  carry_rejected s carried = false <->
  forall id, id ∈ carried ->
    exists st, find_step (definition s) id = Some st /\ depends_on st ⊆ carried.
Proof.
  unfold carry_rejected. rewrite <-not_true_iff_false, existsb_exists.
  setoid_rewrite <-list_elem_of_In. setoid_rewrite elem_of_elements. split.
  - intros Hn id Hid. destruct (find_step _ id) as [st|] eqn:E.
    + exists st. split; [done|]. apply dec_stable. intros Hns. apply Hn. exists id.
      split; [done|]. rewrite E. simpl. by rewrite bool_decide_eq_false_2.
    + exfalso. apply Hn. exists id. by rewrite E.
  - intros Ha (id & Hid & Hf). destruct (Ha id Hid) as (st & E & Hsub). rewrite E in Hf.
    simpl in Hf. by rewrite bool_decide_eq_true_2 in Hf.
Qed.

Lemma carry_wf d s carried s' :
  definition_sound d -> snapshot_wf d s -> plan_state s = PlanProposed ->
  adopt_with_carry_forward s carried = Ok s' -> snapshot_wf d s'.
Proof.
  intros Hs [Hd Hm Ht Hbd Hpr Hsat] Hprop H. unfold adopt_with_carry_forward in H.
  destruct (carry_rejected _ _) eqn:Ec; [done|]. rewrite carry_rejected_false in Ec.
  destruct (try_fold _ _ _) as [m|] eqn:Ef; [|done]. injection H as <-.
  assert (Hlk : forall i, m !! i = if decide (i ∈ carried)
     then (set_field sp_state (fun _ => StepCompleted)) <$> progress s !! i else progress s !! i).
  { intros i. rewrite (carry_fold_lookup _ _ _ i Ef). by repeat case_decide; set_solver. }
  specialize (Hpr Hprop). destruct Hm as [Hdom Hok].
  apply refresh_ready_wf; [done| |by simpl; case_match].
  constructor; simpl; [done| | |done].
  - split.
    + rewrite <-Hdom. apply set_eq. intros i. rewrite !elem_of_dom, Hlk.
      case_decide; by rewrite ?fmap_is_Some.
    + intros st p Hst Hp. rewrite Hlk in Hp. pose proof (sound_attempts d Hs st Hst).
      destruct (progress s !! step_id st) as [p0|] eqn:E0; [|by case_decide].
      rewrite (Hpr _ _ E0) in *. case_decide as Hin; simplify_eq/=.
      * constructor; simpl; [lia|done| |intros [|[|]]; done]. intros _ i Hi.
        destruct (Ec _ Hin) as (st' & Hst' & Hsub). rewrite find_step_some in Hst' by (done || apply Hs).
        simplify_eq. assert (Hci : i ∈ carried) by set_solver.
        destruct (Ec i Hci) as (sti & Hsti & _). apply find_step_inv in Hsti as [Hsti <-].
        unfold completed. setoid_rewrite Hlk. rewrite decide_True by done.
        assert (His : step_id sti ∈ dom (progress s)).
        { rewrite Hdom. apply elem_of_step_ids. eauto. }
        apply elem_of_dom in His as [q Hq]. rewrite Hq. simpl. eauto.
      * constructor; simpl; [lia|lia|done|intros [|[|]]; done].
  - rewrite Ht. unfold attempts_sum. f_equal. apply map_eq. intros i. rewrite !lookup_fmap, Hlk.
    case_decide; [|done]. by destruct (progress s !! i).
Qed.

(** ** Every transition preserves the invariant *)

Lemma state_change_wf d s st :
  snapshot_wf d s -> st ≠ PlanProposed -> admits_dispatch st = false ->
  snapshot_wf d (s <| plan_state := st |>).
Proof.
  intros [Hd Hm Ht Hbd Hpr Hsat] Hst Hdisp. constructor; simpl; auto; [done|].
  by rewrite Hdisp.
Qed.

Lemma dispatch_change_wf d s st :
  definition_sound d -> snapshot_wf d s -> st ≠ PlanProposed ->
  snapshot_wf d (refresh_ready (s <| plan_state := st |>)).
Proof. intros Hs [Hd Hm Ht Hbd Hpr Hsat] Hst. by apply refresh_ready_wf. Qed.

(** The branches of [apply], one constructor each, for inversion. *)
Inductive status_edge : PlanTransition -> PlanState -> PlanState -> Prop :=
  | edge_reject : status_edge Reject PlanProposed PlanRejected
  | edge_suspend : status_edge Suspend PlanRunning PlanSuspended
  | edge_supersede_adopted : status_edge Supersede PlanAdopted PlanSuperseded
  | edge_supersede_running : status_edge Supersede PlanRunning PlanSuperseded
  | edge_supersede_suspended : status_edge Supersede PlanSuspended PlanSuperseded
  | edge_fail_running : status_edge Fail_ PlanRunning PlanFailed
  | edge_fail_suspended : status_edge Fail_ PlanSuspended PlanFailed.

Inductive move_edge : PlanTransition -> PlanStepId -> StepState -> StepState -> Prop :=
  | edge_expire id : move_edge (ExpireClaim id) id StepClaimed StepReady
  | edge_suspend_step id : move_edge (SuspendStep id) id StepRunning StepSuspended
  | edge_resume_step id : move_edge (ResumeStep id) id StepSuspended StepRunning
  | edge_fail_step id : move_edge (FailStep id) id StepRunning StepFailed.

Definition all_completed (s : PlanSnapshot) : Prop :=
  forall i p, progress s !! i = Some p -> sp_state p = StepCompleted.

Inductive plan_step (s : PlanSnapshot) : PlanTransition -> PlanSnapshot -> Prop :=
  | step_adopt :
      plan_state s = PlanProposed ->
      plan_step s Adopt (refresh_ready (s <| plan_state := PlanAdopted |>))
  | step_carry carried s' :
      plan_state s = PlanProposed -> adopt_with_carry_forward s carried = Ok s' ->
      plan_step s (AdoptWithCarryForward carried) s'
  | step_resume :
      plan_state s = PlanSuspended ->
      plan_step s Resume (refresh_ready (s <| plan_state := PlanRunning |>))
  | step_status t st :
      status_edge t (plan_state s) st -> plan_step s t (s <| plan_state := st |>)
  | step_complete_plan :
      plan_state s = PlanRunning -> all_completed s ->
      plan_step s (Complete true) (s <| plan_state := PlanCompleted |>)
  | step_claim id s' :
      admits_dispatch (plan_state s) = true ->
      active_count s < max_parallel_ready (bounds (definition s)) ->
      move_step s id StepReady StepClaimed = Ok s' -> plan_step s (Claim id) s'
  | step_move t id a b s' :
      PlanState_is_terminal (plan_state s) = false ->
      move_edge t id a b -> move_step s id a b = Ok s' -> plan_step s t s'
  | step_complete id s' :
      PlanState_is_terminal (plan_state s) = false ->
      move_step s id StepRunning StepCompleted = Ok s' ->
      plan_step s (CompleteStep id) (refresh_ready s')
  | step_start id s' :
      PlanState_is_terminal (plan_state s) = false ->
      start s id = Ok s' -> plan_step s (Start id) s'
  | step_retry id s' :
      PlanState_is_terminal (plan_state s) = false ->
      retry s id = Ok s' -> plan_step s (RetryStep id) s'.

Lemma apply_is_plan_step s t s' : apply s t = Ok s' <-> plan_step s t s'.
Proof.
  split.
  - unfold apply. destruct (PlanState_is_terminal _) eqn:Et; [done|]. intros H.
    destruct t.
    9: { unfold claim in H. case_match eqn:E; [done|]. apply orb_false_iff in E as [E1 E2].
         bool_hyps. by constructor. }
    9: by apply (step_move _ _ _ _ _ _ Et (edge_expire step_id)).
    9: by constructor.
    9: { destruct (move_step _ _ _ _) as [s1|] eqn:Em; [|done]. injection H as <-. by constructor. }
    9: by apply (step_move _ _ _ _ _ _ Et (edge_suspend_step step_id)).
    9: by apply (step_move _ _ _ _ _ _ Et (edge_resume_step step_id)).
    9: by apply (step_move _ _ _ _ _ _ Et (edge_fail_step step_id)).
    9: by constructor.
    all: destruct (plan_state s) eqn:Est; try done; try (injection H as <-); try by constructor.
    all: try (apply step_status; rewrite Est; constructor).
    case_match eqn:E; [|done]. injection H as <-. apply andb_true_iff in E as [-> E].
    rewrite all_values_true in E. apply step_complete_plan; [done|].
    intros i p Hp. specialize (E i p Hp). by bool_hyps.
  - unfold apply. destruct 1 as [H|c s' H Hc|H|t st H|H Ha|id s' H1 H2 H3|t id a b s' Ht H Hm
      |id s' Ht H|id s' Ht H|id s' Ht H]; rewrite ?H, ?Ht; try done.
    + inversion H; done.
    + simpl. rewrite (proj2 (all_values_true _ _)); [done|].
      intros i p Hp. by apply bool_decide_eq_true, (Ha i).
    + unfold claim. rewrite H1. apply Z.leb_gt in H2. rewrite H2. simpl.
      by destruct (plan_state s).
    + by inversion H; subst.
Qed.

Lemma plan_step_wf d s t s' :
  definition_sound d -> snapshot_wf d s -> plan_step s t s' -> snapshot_wf d s'.
Proof.
  intros Hs Hwf. destruct 1 as [H|c s' H Hc|H|t st H|H Ha|id s' H1 H2 H3|t id a b s' Ht H Hm
      |id s' Ht H|id s' Ht H|id s' Ht H].
  - by apply dispatch_change_wf.
  - by eapply carry_wf.
  - by apply dispatch_change_wf.
  - by apply state_change_wf; inversion H.
  - by apply state_change_wf.
  - eapply move_wf in H3; eauto; by intros [|[|]].
  - eapply move_wf in Hm; eauto; inversion H; subst; try done; unfold started; auto; by intros [|[|]].
  - by eapply complete_step_wf.
  - by eapply start_wf.
  - by eapply retry_wf.
Qed.

Lemma reachable_wf d s : definition_sound d -> plan_reachable d s -> snapshot_wf d s.
Proof.
  intros Hs. induction 1 as [|s t s' _ IH H]; [by apply new_wf|].
  apply (proj1 (apply_is_plan_step _ _ _)) in H. by eapply plan_step_wf.
Qed.

(** ** The active set *)

Definition active_set (m : gmap string StepProgress) : gset string :=
  dom (filter (fun kv => is_true (is_active kv.2)) m).

Lemma elem_of_active_set m i :
  i ∈ active_set m <-> exists p, m !! i = Some p /\ is_active p = true.
Proof.
  unfold active_set. rewrite elem_of_dom. unfold is_Some.
  setoid_rewrite map_lookup_filter_Some. done.
Qed.

Lemma length_filter_values {A} (P : A -> Prop) `{forall x, Decision (P x)} (m : gmap string A) :
  length (filter P (values m)) = size (filter (fun kv => P kv.2) m).
Proof.
  unfold values. rewrite entries_perm. induction m as [|k a m Hk IH] using map_ind; [done|].
  rewrite map_to_list_insert by done. rewrite fmap_cons. simpl.
  destruct (decide (P a)) as [Ha|Ha].
  - rewrite filter_cons_True by done. simpl. rewrite IH, map_filter_insert_True by done.
    rewrite map_size_insert_None; [done|]. apply map_lookup_filter_None. auto.
  - rewrite filter_cons_False by done. rewrite IH, map_filter_insert_False by done.
    by rewrite delete_id.
Qed.

Lemma active_count_size d s :
  definition_sound d -> snapshot_wf d s -> active_count s = Z.of_nat (size (active_set (progress s))).
Proof.
  intros Hs Hwf. unfold active_count, active_set. rewrite length_filter_values, size_dom.
  apply wrap_u32_small. split; [lia|].
  pose proof (map_size_filter (fun kv : string * StepProgress => is_true (is_active kv.2)) (progress s)).
  pose proof (sound_count d Hs). rewrite <-(size_dom (progress s)), (proj1 (wf_map d s Hwf)) in *.
  pose proof (size_list_to_set_le (step_id <$> steps d)). rewrite length_fmap in *.
  unfold step_ids in *. lia.
Qed.

Lemma active_set_insert m i p q :
  m !! i = Some p -> (is_active q = true -> is_active p = true) ->
  active_set (<[i:=q]> m) ⊆ active_set m.
Proof.
  intros Hp Himp j. rewrite !elem_of_active_set. intros (r & Hr & Hact).
  apply lookup_insert_Some in Hr as [[<- <-]|[_ Hr]]; eauto.
Qed.

Lemma active_set_insert_any m i q : active_set (<[i:=q]> m) ⊆ {[i]} ∪ active_set m.
Proof.
  intros j. rewrite elem_of_union, elem_of_singleton, !elem_of_active_set.
  intros (r & Hr & Hact). apply lookup_insert_Some in Hr as [[<- _]|[_ Hr]]; eauto.
Qed.

Lemma move_active s id a b s' :
  move_step s id a b = Ok s' ->
  (is_active (mkStepProgress b 0) = true -> is_active (mkStepProgress a 0) = true) ->
  active_set (progress s') ⊆ active_set (progress s).
Proof.
  intros (p & Hp & <- & ->)%move_step_ok Himp. simpl. by eapply active_set_insert.
Qed.

Lemma wf_pre d s : snapshot_wf d s -> snapshot_pre d s.
Proof. by intros []. Qed.

Definition is_resume_step (t : PlanTransition) : bool :=
  match t with ResumeStep _ => true | _ => false end.
Definition is_claim (t : PlanTransition) : bool := match t with Claim _ => true | _ => false end.

Lemma start_inv d s id s' :
  definition_sound d -> snapshot_wf d s -> start s id = Ok s' ->
  exists p, progress s !! id = Some p /\ sp_state p = StepClaimed /\
    total_attempts s' = total_attempts s + 1 /\ definition s' = definition s /\
    progress s' = <[id := mkStepProgress StepRunning (sp_attempts p + 1)]> (progress s).
Proof.
  intros Hs [Hd Hm Ht Hbd Hpr _] H. unfold start in H.
  destruct (attempt_check _ _ _) as [p|] eqn:Ec; [|done]. injection H as <-.
  apply attempt_check_ok in Ec as (st & Hst & Hp & Ha & Hlt & Htot). rewrite Hd in Hst, Htot.
  apply find_step_inv in Hst as [Hst <-].
  pose proof (sound_attempts d Hs st Hst). pose proof (sound_total d Hs).
  pose proof (proj2 Hm st p Hst Hp) as [Hat _ _ _].
  exists p. simpl. rewrite !wrap_u32_small by lia. done.
Qed.

Lemma retry_inv s id s' :
  retry s id = Ok s' ->
  exists s1, move_step s id StepFailed StepPending = Ok s1 /\ s' = refresh_ready s1.
Proof.
  unfold retry. intros H. destruct (attempt_check _ _ _); [|done].
  destruct (move_step _ _ _ _) as [s1|] eqn:E; [|done]. simplify_eq. eauto.
Qed.

Lemma carry_inv s c s' :
  adopt_with_carry_forward s c = Ok s' ->
  exists m st, try_fold carry_step (progress s) (elements c) = Ok m /\ admits_dispatch st = true /\
    s' = refresh_ready (s <| progress := m |> <| plan_state := st |>).
Proof.
  unfold adopt_with_carry_forward. intros H. destruct (carry_rejected _ _); [done|].
  destruct (try_fold _ _ _) as [m|]; [|done]. injection H as <-.
  eexists m, _. split_and!; [done| |done]. by case_match.
Qed.

Lemma refresh_progress s :
  progress (refresh_ready s) = progress s \/
  progress (refresh_ready s) =
    foldl (refresh_step (completed_ids (progress s))) (progress s) (steps (definition s)).
Proof. unfold refresh_ready. case_match; auto. Qed.

Lemma refresh_step_shape done st m i q :
  refresh_step done m st !! i = Some q ->
  exists p, m !! i = Some p /\ (q = p \/ (sp_state p = StepPending /\ q = p <| sp_state := StepReady |>)).
Proof.
  rewrite refresh_step_lookup. case_decide as Hi; [|eauto].
  destruct (m !! i) as [p|]; simpl; [|done]. intros [= <-]. exists p. split; [done|].
  destruct (refresh_entry_state done st p) as [|(? & _ & ?)]; auto.
Qed.

(** Whatever the map, a refresh only turns Pending entries into Ready ones. *)
Lemma refresh_shape s i q :
  progress (refresh_ready s) !! i = Some q ->
  exists p, progress s !! i = Some p /\
    (q = p \/ (sp_state p = StepPending /\ q = p <| sp_state := StepReady |>)).
Proof.
  destruct (refresh_progress s) as [-> | ->]; [eauto|].
  generalize (completed_ids (progress s)). intros done. revert q.
  induction (steps (definition s)) as [|st l IH] using rev_ind; intros q; simpl; [eauto|].
  rewrite foldl_snoc. intros (r & Hr & Hq)%refresh_step_shape.
  destruct (IH _ Hr) as (p & Hp & [->|[Hs ->]]); exists p; (split; [done|]);
    destruct Hq as [->|[Hs' ->]]; auto; done.
Qed.

Lemma refresh_active s : active_set (progress (refresh_ready s)) ⊆ active_set (progress s).
Proof.
  intros i (q & Hq & Hact)%elem_of_active_set. apply elem_of_active_set.
  apply refresh_shape in Hq as (p & Hp & [->|[_ ->]]); [eauto|done].
Qed.

Lemma carry_active m l m' : try_fold carry_step m l = Ok m' -> active_set m' ⊆ active_set m.
Proof.
  intros H i (q & Hq & Hact)%elem_of_active_set. apply elem_of_active_set.
  rewrite (carry_fold_lookup _ _ _ _ H) in Hq. case_decide; [|eauto].
  by destruct (m !! i); simplify_eq/=.
Qed.

(** Only [Claim] and [ResumeStep] can add a step to the active set. *)
Lemma plan_step_active d s t s' :
  definition_sound d -> snapshot_wf d s -> plan_step s t s' ->
  is_resume_step t = false -> is_claim t = false ->
  active_set (progress s') ⊆ active_set (progress s).
Proof.
  intros Hs Hwf. destruct 1 as [H|c s' H Hc|H|t st H|H Ha|id s' H1 H2 H3|t id a b s' Ht H Hm
      |id s' Ht H|id s' Ht H|id s' Ht H]; intros Hr Hcl; try done.
  - etransitivity; [apply refresh_active|done].
  - apply carry_inv in Hc as (m & st & Hm & _ & ->).
    etransitivity; [apply refresh_active|]. by eapply carry_active.
  - etransitivity; [apply refresh_active|done].
  - inversion H; subst; try done; by eapply move_active in Hm.
  - etransitivity; [apply refresh_active|]. by eapply move_active in H.
  - apply (start_inv d) in H as (p & Hp & Hst & _ & _ & ->); [|done..].
    eapply active_set_insert; [done|]. unfold is_active. by rewrite Hst.
  - apply retry_inv in H as (s1 & H & ->).
    etransitivity; [apply refresh_active|]. by eapply move_active in H.
Qed.

Lemma move_definition s id a b s' : move_step s id a b = Ok s' -> definition s' = definition s.
Proof. by intros (p & _ & _ & ->)%move_step_ok. Qed.
