(* ===== verification/PlanMachine.v ===== *)
(** * The Plan machine

    What a transition of a Plan asks of a snapshot and what it leaves of every step, written
    without the operations of [lifecycle.rs]: the guards as propositions over the declared steps,
    the change of the step a transition names, and the Pending steps it makes Ready.
    [apply] is shown to implement it on every reachable snapshot. *)

From S2P Require Import Prelude PlanTypes PlanDefinition PlanLifecycle PlanProgress.

Definition open_plan (s : PlanState) : Prop :=
  s = PlanProposed \/ s = PlanAdopted \/ s = PlanRunning \/ s = PlanSuspended.
Definition dispatching (s : PlanState) : Prop := s = PlanAdopted \/ s = PlanRunning.

(** The steps that hold a place of the parallel bound. *)
Definition busy (m : gmap string StepProgress) : gset string :=
  dom (filter (fun kv => sp_state kv.2 = StepClaimed \/ sp_state kv.2 = StepRunning) m).

(** The step a transition names, the state it must be in and the state it goes to. *)
Definition moves (t : PlanTransition) : option (PlanStepId * StepState * StepState) :=
  match t with
  | Claim id => Some (id, StepReady, StepClaimed)
  | ExpireClaim id => Some (id, StepClaimed, StepReady)
  | Start id => Some (id, StepClaimed, StepRunning)
  | CompleteStep id => Some (id, StepRunning, StepCompleted)
  | SuspendStep id => Some (id, StepRunning, StepSuspended)
  | ResumeStep id => Some (id, StepSuspended, StepRunning)
  | FailStep id => Some (id, StepRunning, StepFailed)
  | RetryStep id => Some (id, StepFailed, StepPending)
  | _ => None
  end.

(** Attempts are left for a step and for the whole Plan. *)
Definition attempts_left (d : PlanDefinitionV1) (s : PlanSnapshot) (id : PlanStepId) : Prop :=
  exists st p, st ∈ steps d /\ step_id st = id /\ progress s !! id = Some p /\
    sp_attempts p < max_attempts st /\ total_attempts s < max_total_attempts (bounds d).

Definition asks (d : PlanDefinitionV1) (s : PlanSnapshot) (t : PlanTransition) : Prop :=
  match t with
  | Adopt | Reject => plan_state s = PlanProposed
  | AdoptWithCarryForward carried => plan_state s = PlanProposed /\
      forall id, id ∈ carried -> exists st, st ∈ steps d /\ step_id st = id /\ forall i, i ∈ depends_on st -> i ∈ carried
  | Suspend => plan_state s = PlanRunning
  | Resume => plan_state s = PlanSuspended
  | Supersede => plan_state s = PlanAdopted \/ plan_state s = PlanRunning \/ plan_state s = PlanSuspended
  | Fail_ => plan_state s = PlanRunning \/ plan_state s = PlanSuspended
  | Complete criteria_complete => plan_state s = PlanRunning /\ criteria_complete = true /\
      forall st, st ∈ steps d -> exists p, progress s !! step_id st = Some p /\ sp_state p = StepCompleted
  | Claim _ => dispatching (plan_state s) /\ Z.of_nat (size (busy (progress s))) < max_parallel_ready (bounds d)
  | Start id | RetryStep id => open_plan (plan_state s) /\ attempts_left d s id
  | _ => open_plan (plan_state s)
  end /\
  forall id from to, moves t = Some (id, from, to) -> exists p, progress s !! id = Some p /\ sp_state p = from.

Definition status_after (s : PlanSnapshot) (t : PlanTransition) : PlanState :=
  match t with
  | Adopt => PlanAdopted
  | AdoptWithCarryForward carried => if decide (carried = ∅) then PlanAdopted else PlanRunning
  | Reject => PlanRejected
  | Suspend => PlanSuspended
  | Resume | Start _ => PlanRunning
  | Supersede => PlanSuperseded
  | Fail_ => PlanFailed
  | Complete _ => PlanCompleted
  | _ => plan_state s
  end.
Definition attempt_made (t : PlanTransition) : Z := match t with Start _ => 1 | _ => 0 end.

(** The change of a step before any Pending step becomes Ready. *)
Definition own_change (t : PlanTransition) (i : PlanStepId) (p : StepProgress) : StepProgress :=
  match t, moves t with
  | AdoptWithCarryForward carried, _ =>
      if decide (i ∈ carried) then mkStepProgress StepCompleted (sp_attempts p) else p
  | _, Some (id, _, to) => if decide (i = id) then mkStepProgress to (sp_attempts p + attempt_made t) else p
  | _, None => p
  end.

Definition promotes (t : PlanTransition) : Prop :=
  match t with Adopt | AdoptWithCarryForward _ | Resume | CompleteStep _ | RetryStep _ => True | _ => False end.

Definition becomes_ready (d : PlanDefinitionV1) (s : PlanSnapshot) (t : PlanTransition) (st : PlanStepV1)
    (p : StepProgress) : Prop :=
  promotes t /\ dispatching (status_after s t) /\ total_attempts s < max_total_attempts (bounds d) /\
  sp_state (own_change t (step_id st) p) = StepPending /\ sp_attempts p < max_attempts st /\
  forall i, i ∈ depends_on st -> exists q, progress s !! i = Some q /\ sp_state (own_change t i q) = StepCompleted.

Record plan_move (d : PlanDefinitionV1) (s : PlanSnapshot) (t : PlanTransition) (s' : PlanSnapshot) : Prop := {
  pm_asks : asks d s t;
  pm_definition : definition s' = d;
  pm_status : plan_state s' = status_after s t;
  pm_total : total_attempts s' = total_attempts s + attempt_made t;
  pm_declared : dom (progress s') = step_ids (steps d);
  pm_steps st : st ∈ steps d -> exists p p', progress s !! step_id st = Some p /\ progress s' !! step_id st = Some p' /\
    (becomes_ready d s t st p /\ p' = mkStepProgress StepReady (sp_attempts p) \/
     ~ becomes_ready d s t st p /\ p' = own_change t (step_id st) p);
}.

(** The machine is deterministic. *)
Lemma plan_move_functional d s t s1 s2 : plan_move d s t s1 -> plan_move d s t s2 -> s1 = s2.
Proof.
  intros [_ D1 S1 T1 K1 P1] [_ D2 S2 T2 K2 P2]. destruct s1 as [d1 st1 m1 t1], s2 as [d2 st2 m2 t2]. simpl in *. subst.
  f_equal. apply map_eq. intros i. destruct (decide (i ∈ step_ids (steps d))) as [Hi|Hi].
  - apply elem_of_step_ids in Hi as (st & Hst & <-).
    destruct (P1 st Hst) as (p & p1 & Hp & -> & H1), (P2 st Hst) as (q & p2 & Hq & -> & H2). simplify_eq.
    f_equal. destruct H1 as [[? ->]|[? ->]], H2 as [[? ->]|[? ->]]; done.
  - rewrite (not_elem_of_dom_1 m1 i), (not_elem_of_dom_1 m2 i); congruence || done.
Qed.

(** ** Implementation *)

Section machine.
Context (d : PlanDefinitionV1) (Hs : definition_sound d).

Lemma busy_active m : busy m = active_set m.
Proof.
  apply set_eq. intros i. rewrite elem_of_active_set. unfold busy. rewrite elem_of_dom. unfold is_Some.
  setoid_rewrite map_lookup_filter_Some. simpl. unfold is_active.
  split; intros (p & Hp & H); exists p; (split; [done|]).
  - by destruct H as [-> | ->].
  - destruct (sp_state p); auto; done.
Qed.

Lemma admits_dispatching st : admits_dispatch st = true <-> dispatching st.
Proof. unfold dispatching. destruct st; naive_solver. Qed.
Lemma not_terminal_open st : PlanState_is_terminal st = false <-> open_plan st.
Proof. unfold open_plan. destruct st; naive_solver. Qed.

(** A snapshot whose steps went through their own change, refreshed or not. *)
Record changed (s : PlanSnapshot) (t : PlanTransition) (s1 : PlanSnapshot) : Prop := {
  ch_definition : definition s1 = d;
  ch_status : plan_state s1 = status_after s t;
  ch_total : total_attempts s1 = total_attempts s + attempt_made t;
  ch_steps i : progress s1 !! i = own_change t i <$> progress s !! i;
}.

Lemma changed_declared s t s1 : snapshot_wf d s -> changed s t s1 -> dom (progress s1) = step_ids (steps d).
Proof.
  intros Hwf Hc. rewrite <-(proj1 (wf_map d s Hwf)). apply set_eq. intros i.
  by rewrite !elem_of_dom, (ch_steps _ _ _ Hc), fmap_is_Some.
Qed.

Lemma declared_lookup s st : snapshot_wf d s -> st ∈ steps d -> exists p, progress s !! step_id st = Some p.
Proof.
  intros Hwf Hst. apply elem_of_dom. rewrite (proj1 (wf_map d s Hwf)). apply elem_of_step_ids. eauto.
Qed.

Lemma changed_move s t s1 : snapshot_wf d s -> asks d s t -> changed s t s1 -> ~ promotes t -> plan_move d s t s1.
Proof.
  intros Hwf Ha Hc Hn. split; try apply Hc; [done|by eapply changed_declared|].
  intros st Hst. destruct (declared_lookup s st Hwf Hst) as [p Hp]. exists p, (own_change t (step_id st) p).
  rewrite (ch_steps _ _ _ Hc), Hp. split; [done|]. split; [done|]. right. split; [|done]. by intros [? _].
Qed.

Lemma refresh_declared s1 : closed_steps (steps (definition s1)) -> dom (progress (refresh_ready s1)) = dom (progress s1).
Proof.
  intros Hcl. apply set_eq. intros i. rewrite !elem_of_dom. destruct (refresh_progress s1) as [-> | ->]; [done|].
  destruct (decide (i ∈ step_id <$> steps (definition s1))) as [Hin|Hin].
  - apply list_elem_of_fmap in Hin as (st & -> & Hst). rewrite refresh_fold_lookup by (done || apply Hcl). by rewrite fmap_is_Some.
  - by rewrite refresh_fold_other.
Qed.

(** The steps completed after the change. *)
Lemma changed_completed s t s1 i : changed s t s1 -> i ∈ completed_ids (progress s1) <->
  exists q, progress s !! i = Some q /\ sp_state (own_change t i q) = StepCompleted.
Proof.
  intros Hc. rewrite elem_of_completed_ids. unfold completed. setoid_rewrite (ch_steps _ _ _ Hc).
  destruct (progress s !! i); simpl; naive_solver.
Qed.

Lemma changed_refresh s t s1 : snapshot_wf d s -> asks d s t -> changed s t s1 -> promotes t ->
  plan_move d s t (refresh_ready s1).
Proof using Hs.
  intros Hwf Ha Hc Hpr. pose proof (sound_closed d Hs) as Hcl.
  assert (Htot : attempt_made t = 0) by by destruct t.
  assert (Hown : forall i p, sp_attempts (own_change t i p) = sp_attempts p).
  { intros i p. unfold own_change. rewrite Htot. destruct t; simpl; try done; case_decide; simpl; try done; lia. }
  split.
  - done.
  - unfold refresh_ready. case_match; apply Hc.
  - unfold refresh_ready. case_match; apply Hc.
  - unfold refresh_ready. case_match; apply Hc.
  - rewrite refresh_declared by (rewrite (ch_definition _ _ _ Hc); apply Hcl). by eapply changed_declared.
  - intros st Hst. destruct (declared_lookup s st Hwf Hst) as [p Hp].
    assert (Hp1 : progress s1 !! step_id st = Some (own_change t (step_id st) p)) by by rewrite (ch_steps _ _ _ Hc), Hp.
    assert (Hdeps : depends_on st ⊆ completed_ids (progress s1) <-> forall i, i ∈ depends_on st ->
      exists q, progress s !! i = Some q /\ sp_state (own_change t i q) = StepCompleted).
    { split; intros Hx i Hi; apply (changed_completed s t s1 i Hc); by apply Hx. }
    assert (Ht1 : total_attempts s1 = total_attempts s) by (rewrite (ch_total _ _ _ Hc); lia).
    assert (Hb : becomes_ready d s t st p <-> admits_dispatch (plan_state s1) = true /\
      total_attempts s1 < max_total_attempts (bounds d) /\ sp_state (own_change t (step_id st) p) = StepPending /\
      sp_attempts (own_change t (step_id st) p) < max_attempts st /\ depends_on st ⊆ completed_ids (progress s1)).
    { unfold becomes_ready. rewrite Hdeps, Hown, Ht1, admits_dispatching, (ch_status _ _ _ Hc). tauto. }
    assert (Hr : exists p', progress (refresh_ready s1) !! step_id st = Some p' /\
      (becomes_ready d s t st p /\ p' = mkStepProgress StepReady (sp_attempts p) \/
       ~ becomes_ready d s t st p /\ p' = own_change t (step_id st) p)); [|by destruct Hr as [p' Hr]; exists p, p'].
    unfold refresh_ready. rewrite (ch_definition _ _ _ Hc). destruct (admits_dispatch (plan_state s1)); simpl.
    2: { eexists. split; [done|]. right. split; [|done]. by intros (? & _)%Hb. }
    destruct (Z.leb_spec (max_total_attempts (bounds d)) (total_attempts s1)) as [Hle|Hlt]; simpl.
    { eexists. split; [done|]. right. split; [|done]. intros (_ & ? & _)%Hb. lia. }
    eexists. rewrite refresh_fold_lookup by (apply Hcl || done). rewrite Hp1. split; [done|].
    unfold refresh_entry. destruct (_ && _) eqn:E.
    + left. apply andb_true_iff in E as [[E1 E2]%andb_true_iff E3]. bool_hyps.
      split; [apply Hb; by split_and!|]. by rewrite <-(Hown (step_id st) p).
    + right. split; [|done]. intros (_ & _ & E1 & E2 & E3)%Hb. apply not_true_iff_false in E. apply E.
      rewrite !andb_true_iff, !bool_decide_eq_true, Z.ltb_lt. by split_and!.
Qed.

Lemma own_change_moves t id from to i p : moves t = Some (id, from, to) ->
  own_change t i p = if decide (i = id) then mkStepProgress to (sp_attempts p + attempt_made t) else p.
Proof. intros Hm. destruct t; simpl in Hm; simplify_eq; done. Qed.
Lemma own_change_none t i p : moves t = None -> (forall carried, t <> AdoptWithCarryForward carried) -> own_change t i p = p.
Proof. intros Hm Hc. destruct t; simpl in Hm; try done. by edestruct Hc. Qed.

(** A step written over is a move of that step. *)
Lemma written_changed s t id from to p s1 : snapshot_wf d s -> moves t = Some (id, from, to) ->
  progress s !! id = Some p -> definition s1 = definition s -> plan_state s1 = status_after s t ->
  total_attempts s1 = total_attempts s + attempt_made t ->
  progress s1 = <[id := mkStepProgress to (sp_attempts p + attempt_made t)]> (progress s) -> changed s t s1.
Proof.
  intros Hwf Hm Hp Ed Es Et Ep. split; [rewrite Ed; apply Hwf|done|done|]. intros i. rewrite Ep.
  destruct (decide (i = id)) as [->|Hne].
  - rewrite lookup_insert_eq, Hp. simpl. by rewrite (own_change_moves t id from to), decide_True.
  - rewrite lookup_insert_ne by done. destruct (progress s !! i) as [q|]; [|done]. simpl.
    by rewrite (own_change_moves t id from to), decide_False.
Qed.

Lemma moved_changed s t id from to s1 : snapshot_wf d s -> moves t = Some (id, from, to) ->
  status_after s t = plan_state s -> attempt_made t = 0 ->
  move_step s id from to = Ok s1 -> changed s t s1.
Proof.
  intros Hwf Hm Hst Ha (p & Hp & Hfrom & ->)%move_step_ok.
  eapply written_changed; try done; rewrite ?Ha, ?Z.add_0_r; done.
Qed.

(** A transition that only changes the status of the Plan. *)
Lemma status_changed s t : snapshot_wf d s -> moves t = None -> (forall carried, t <> AdoptWithCarryForward carried) ->
  changed s t (s <| plan_state := status_after s t |>).
Proof.
  intros Hwf Hm Hc. split; simpl; [apply Hwf|done|destruct t; simpl; try done; lia|].
  intros i. destruct (progress s !! i) as [p|]; [|done]. simpl. by rewrite own_change_none.
Qed.

Lemma carry_changed s carried s1 : snapshot_wf d s -> plan_state s = PlanProposed ->
  adopt_with_carry_forward s carried = Ok s1 ->
  asks d s (AdoptWithCarryForward carried) /\
  exists s0, changed s (AdoptWithCarryForward carried) s0 /\ s1 = refresh_ready s0.
Proof.
  intros Hwf Hp H. unfold adopt_with_carry_forward in H.
  destruct (carry_rejected _ _) eqn:Ec; [done|]. rewrite carry_rejected_false, (wf_definition d s Hwf) in Ec.
  destruct (try_fold _ _ _) as [m|] eqn:Ef; [|done]. injection H as <-.
  assert (Hlk : forall i, m !! i = own_change (AdoptWithCarryForward carried) i <$> progress s !! i).
  { intros i. rewrite (carry_fold_lookup _ _ _ i Ef). simpl. destruct (progress s !! i) as [p|]; simpl.
    - repeat case_decide; set_solver.
    - by case_decide. }
  assert (Ha : asks d s (AdoptWithCarryForward carried)).
  { split; [|done]. split; [done|]. intros id Hid. destruct (Ec id Hid) as (st & Hst & Hsub).
    apply find_step_inv in Hst as [? ?]. exists st. set_solver. }
  split; [done|]. eexists. split; [|done]. split; simpl; [apply Hwf| |lia|done].
  destruct (any_value _ m) eqn:Ea.
  - apply any_value_true in Ea as (i & p & Hi & Hst). rewrite Hlk in Hi. destruct (progress s !! i) as [q|] eqn:Eq; [|done].
    simpl in Hi. rewrite (wf_proposed d s Hwf Hp i q Eq) in Hi. case_decide as Hin; [|by simplify_eq/=].
    rewrite decide_False; [done|]. set_solver.
  - destruct (decide (carried = ∅)) as [|Hne]; [done|]. exfalso. apply set_choose_L in Hne as [i Hi].
    destruct (Ec i Hi) as (st & Hst & _). apply find_step_inv in Hst as [Hst <-].
    destruct (declared_lookup s st Hwf Hst) as [p Hp0].
    apply not_true_iff_false in Ea. apply Ea, any_value_true. exists (step_id st). rewrite Hlk, Hp0. simpl.
    rewrite decide_True by done. eexists. split; [done|]. done.
Qed.

Lemma asks_move s t id from to : moves t = Some (id, from, to) ->
  match t with
  | Claim _ => dispatching (plan_state s) /\ Z.of_nat (size (busy (progress s))) < max_parallel_ready (bounds d)
  | Start id | RetryStep id => open_plan (plan_state s) /\ attempts_left d s id
  | _ => open_plan (plan_state s)
  end ->
  (exists p, progress s !! id = Some p /\ sp_state p = from) -> asks d s t.
Proof. intros Hm Hg Hp. split; [by destruct t|]. intros id' from' to' Hm'. rewrite Hm in Hm'. by simplify_eq. Qed.

Lemma attempt_left s id from p : snapshot_wf d s -> attempt_check s id from = Ok p ->
  attempts_left d s id /\ progress s !! id = Some p /\ sp_state p = from.
Proof.
  intros Hwf (st & Hst & Hp & Hf & H1 & H2)%attempt_check_ok. rewrite (wf_definition d s Hwf) in *.
  apply find_step_inv in Hst as [Hst <-]. split; [by exists st, p|done].
Qed.

Lemma plan_step_moves s t s' : snapshot_wf d s -> plan_step s t s' -> plan_move d s t s'.
Proof using Hs.
  intros Hwf. destruct 1 as [H|c s' H Hc|H|t st H|H Ha|id s' H1 H2 H3|t id a b s' Ht H Hm
      |id s' Ht H|id s' Ht H|id s' Ht H].
  - apply changed_refresh; [done|done| |done]. by apply (status_changed s Adopt).
  - destruct (carry_changed s c s' Hwf H Hc) as (Ha & s0 & Hch & ->). by apply changed_refresh.
  - apply changed_refresh; [done|done| |done]. by apply (status_changed s Resume).
  - assert (st = status_after s t /\ asks d s t /\ moves t = None /\ (forall c, t <> AdoptWithCarryForward c) /\ ~ promotes t)
      as (-> & Ha & Hm & Hc & Hp) by (unfold asks; inversion H; subst; simpl; intuition congruence).
    apply changed_move; try done. by apply status_changed.
  - apply changed_move; [done| |by apply (status_changed s (Complete true))|by intros []]. split; [|done].
    split; [done|]. split; [done|]. intros st Hst. destruct (declared_lookup s st Hwf Hst) as [p Hp]. eauto.
  - pose proof H3 as (p & Hp & Hr & _)%move_step_ok. apply changed_move; [done| |by eapply (moved_changed s (Claim id))|by intros []].
    eapply (asks_move s (Claim id)); [done| |eauto]. simpl. rewrite <-admits_dispatching, busy_active.
    rewrite <-(active_count_size d), <-(wf_definition d s Hwf) at 1 by done. done.
  - pose proof Hm as (p & Hp & Hr & _)%move_step_ok. apply not_terminal_open in Ht.
    destruct H; (apply changed_move; [done|eapply asks_move; [done|done|eauto]|eapply moved_changed; [done|reflexivity|done|done|eassumption]|by intros []]).
  - pose proof H as (p & Hp & Hr & _)%move_step_ok. apply not_terminal_open in Ht.
    apply changed_refresh; [done|eapply asks_move; [done|done|eauto]|by eapply moved_changed|done].
  - apply not_terminal_open in Ht. pose proof H as Hst. unfold start in Hst.
    destruct (attempt_check _ _ _) as [p0|] eqn:Ec; [|done]. apply (attempt_left s) in Ec as (Hl & _ & _); [|done].
    pose proof H as (p & Hp & Hr & Htot & Hd & Hpr)%(start_inv d); [|done..].
    apply changed_move; [done|eapply (asks_move s (Start id)); [done|done|eauto]| |by intros []].
    eapply (written_changed s (Start id)); try done. unfold start in H. simpl. injection Hst as <-. done.
  - apply not_terminal_open in Ht. unfold retry in H. destruct (attempt_check _ _ _) as [p0|] eqn:Ec; [|done].
    apply (attempt_left s) in Ec as (Hl & Hp & Hf); [|done].
    destruct (move_step _ _ _ _) as [s1|] eqn:Em; [|done]. injection H as <-.
    apply changed_refresh; [done|eapply (asks_move s (RetryStep id)); [done|done|eauto]|by eapply moved_changed|done].
Qed.

Lemma move_accepted s id from to p : progress s !! id = Some p -> sp_state p = from ->
  exists s1, move_step s id from to = Ok s1.
Proof. intros Hp Hf. eexists. apply move_step_ok. eauto. Qed.

Lemma attempt_accepted s id from p : snapshot_wf d s -> attempts_left d s id -> progress s !! id = Some p ->
  sp_state p = from -> attempt_check s id from = Ok p.
Proof using Hs.
  intros Hwf (st & p' & Hst & <- & Hp' & H1 & H2) Hp Hf. simplify_eq. apply attempt_check_ok. exists st.
  rewrite (wf_definition d s Hwf). split_and!; try done. apply find_step_some; [apply Hs|done].
Qed.

Lemma carry_accepted s carried : snapshot_wf d s -> asks d s (AdoptWithCarryForward carried) ->
  exists s', adopt_with_carry_forward s carried = Ok s'.
Proof using Hs.
  intros Hwf [[Hp Hc] _]. unfold adopt_with_carry_forward.
  rewrite (proj2 (carry_rejected_false s carried)).
  2: { intros id Hid. destruct (Hc id Hid) as (st & Hst & <- & Hd). exists st. rewrite (wf_definition d s Hwf).
       split; [apply find_step_some; [apply Hs|done]|]. intros i. apply Hd. }
  assert (Hf : forall l m, (forall i, i ∈ l -> is_Some (m !! i)) -> exists m', try_fold carry_step m l = Ok m').
  { induction l as [|x l IH]; intros m Hin; simpl; [eauto|]. destruct (Hin x) as [q Hq]; [by left|].
    unfold carry_step. rewrite Hq. apply IH. intros i Hi. rewrite lookup_insert_is_Some. destruct (decide (x = i)); [by left|].
    right. split; [done|]. apply Hin. by right. }
  destruct (Hf (elements carried) (progress s)) as [m ->]; [|simpl; eauto].
  intros i Hi%elem_of_elements. destruct (Hc i Hi) as (st & Hst & <- & _). destruct (declared_lookup s st Hwf Hst). eauto.
Qed.

Lemma asks_accepted s t : snapshot_wf d s -> asks d s t -> exists s', plan_step s t s'.
Proof using Hs.
  intros Hwf Ha. pose proof Ha as [Hg Hm]. pose proof (wf_definition d s Hwf) as Hd.
  destruct t; simpl in Hg, Hm; try (destruct (Hm _ _ _ eq_refl) as (p & Hp & Hf); clear Hm);
    try apply not_terminal_open in Hg.
  - eexists. by constructor.
  - destruct (carry_accepted s carried Hwf Ha) as [s' Hs']. exists s'. constructor; [apply Hg|done].
  - eexists. apply step_status. rewrite Hg. constructor.
  - eexists. apply step_status. rewrite Hg. constructor.
  - eexists. by constructor.
  - eexists. apply step_status. destruct Hg as [-> |[-> | ->]]; constructor.
  - eexists. apply step_status. destruct Hg as [-> | ->]; constructor.
  - destruct Hg as (Hst & -> & Hall). eexists. apply step_complete_plan; [done|]. intros i p Hp.
    destruct (map_ok_declared d _ i p (wf_map d s Hwf) Hp) as (st & Hin & <- & _).
    destruct (Hall st Hin) as (q & Hq & Hc). by simplify_eq.
  - destruct Hg as [Hdisp Hbusy]. destruct (move_accepted s step_id StepReady StepClaimed p Hp Hf) as [s1 H1].
    exists s1. constructor; [by apply admits_dispatching| |done].
    by rewrite (active_count_size d), <-busy_active, Hd.
  - destruct (move_accepted s step_id StepClaimed StepReady p Hp Hf) as [s1 H1]. exists s1. eapply step_move; [done|constructor|done].
  - destruct Hg as [Hop%not_terminal_open Hl]. eexists. apply step_start; [done|]. unfold start.
    by rewrite (attempt_accepted s step_id StepClaimed p).
  - destruct (move_accepted s step_id StepRunning StepCompleted p Hp Hf) as [s1 H1]. exists (refresh_ready s1). by constructor.
  - destruct (move_accepted s step_id StepRunning StepSuspended p Hp Hf) as [s1 H1]. exists s1. eapply step_move; [done|constructor|done].
  - destruct (move_accepted s step_id StepSuspended StepRunning p Hp Hf) as [s1 H1]. exists s1. eapply step_move; [done|constructor|done].
  - destruct (move_accepted s step_id StepRunning StepFailed p Hp Hf) as [s1 H1]. exists s1. eapply step_move; [done|constructor|done].
  - destruct Hg as [Hop%not_terminal_open Hl]. destruct (move_accepted s step_id StepFailed StepPending p Hp Hf) as [s1 H1].
    exists (refresh_ready s1). apply step_retry; [done|]. unfold retry.
    by rewrite (attempt_accepted s step_id StepFailed p), H1.
Qed.

(** [apply] implements the machine. *)
Lemma apply_moves s t s' : snapshot_wf d s -> apply s t = Ok s' <-> plan_move d s t s'.
Proof using Hs.
  intros Hwf. rewrite apply_is_plan_step. split; [by apply plan_step_moves|]. intros Hm.
  destruct (asks_accepted s t Hwf (pm_asks _ _ _ _ Hm)) as [s1 H1].
  rewrite (plan_move_functional d s t s' s1); [done|done|]. by apply plan_step_moves.
Qed.
End machine.
