(* ===== verification/PlanTheorems.v ===== *)
(** * Plan lifecycle: the properties callers rely on

    Safety, bounds and progress of every execution of [apply] from a proposal,
    with a small concrete plan on which the statements are instantiated. *)

From S2P Require Import Prelude PlanTypes PlanDefinition PlanLifecycle PlanProgress PlanMachine.

(** A sequence of transitions, each accepted. *)
Definition run (s : PlanSnapshot) (ts : list PlanTransition) : result PlanError PlanSnapshot :=
  try_fold apply s ts.

Definition is_start (t : PlanTransition) : bool := match t with Start _ => true | _ => false end.
Definition count_starts (ts : list PlanTransition) : Z := Z.of_nat (length (List.filter is_start ts)).

Lemma run_reachable d ts s s' : plan_reachable d s -> run s ts = Ok s' -> plan_reachable d s'.
Proof.
  unfold run. revert s. induction ts as [|t ts IH]; intros s Hr H; simpl in H; [by simplify_eq|].
  destruct (apply s t) as [s1|] eqn:E; [|done]. apply (IH s1); [|done]. by eapply reachable_apply.
Qed.

(** ** Completion is never undone *)

Lemma refresh_keeps_completed s i :
  completed (progress s) i -> completed (progress (refresh_ready s)) i.
Proof.
  destruct (refresh_progress s) as [-> | ->]; [done|].
  generalize (completed_ids (progress s)). intros done (p & Hp & Hc). exists p. split; [|done].
  induction (steps (definition s)) as [|st l IH] using rev_ind; [done|].
  rewrite foldl_snoc, refresh_step_lookup, IH. case_decide; [|done]. simpl.
  destruct (refresh_entry_state done st p) as [->|(? & _)]; congruence.
Qed.

Lemma move_keeps_completed s id a b s' i :
  move_step s id a b = Ok s' -> a ≠ StepCompleted ->
  completed (progress s) i -> completed (progress s') i.
Proof.
  intros (p & Hp & <- & ->)%move_step_ok Ha. simpl. by apply (completed_insert _ _ p).
Qed.

Lemma plan_step_keeps_completed d s t s' i :
  definition_sound d -> snapshot_wf d s -> plan_step s t s' ->
  completed (progress s) i -> completed (progress s') i.
Proof.
  intros Hs Hwf. destruct 1 as [H|c s' H Hc|H|t st H|H Ha|id s' H1 H2 H3|t id a b s' Ht H Hm
      |id s' Ht H|id s' Ht H|id s' Ht H]; intros Hi; try done.
  - by apply refresh_keeps_completed.
  - apply carry_inv in Hc as (m & st & Hm & _ & ->). apply refresh_keeps_completed. simpl.
    destruct Hi as (p & Hp & Hpc). unfold completed. rewrite (carry_fold_lookup _ _ _ _ Hm), Hp.
    case_decide; simpl; eauto.
  - by apply refresh_keeps_completed.
  - by eapply move_keeps_completed in H3.
  - by eapply move_keeps_completed in Hm; [|inversion H|].
  - apply refresh_keeps_completed. by eapply move_keeps_completed in H.
  - apply (start_inv d) in H as (p & Hp & Hst & _ & _ & Heq); [|done..]. rewrite Heq.
    apply (completed_insert _ _ p); [done|congruence|done].
  - apply retry_inv in H as (s1 & H & ->). apply refresh_keeps_completed.
    by eapply move_keeps_completed in H.
Qed.

(** ** How a plan becomes Completed *)

Lemma refresh_plan_state s : plan_state (refresh_ready s) = plan_state s.
Proof. unfold refresh_ready. by case_match. Qed.

Lemma move_plan_state s id a b s' : move_step s id a b = Ok s' -> plan_state s' = plan_state s.
Proof. by intros (p & _ & _ & ->)%move_step_ok. Qed.

Lemma plan_step_to_completed s t s' :
  plan_step s t s' -> plan_state s' = PlanCompleted ->
  all_completed s /\ s' = s <| plan_state := PlanCompleted |>.
Proof.
  destruct 1 as [H|c s' H Hcf|H|t st H|H Ha|id s' H1 H2 H3|t id a b s' Hnt H Hm
      |id s' Hnt H|id s' Hnt H|id s' Hnt H]; rewrite ?refresh_plan_state; simpl; intros Hc; try done.
  - apply carry_inv in Hcf as (m & st & _ & Hst & ->). rewrite refresh_plan_state in Hc.
    simpl in Hc. by subst.
  - by inversion H; subst.
  - apply move_plan_state in H3. rewrite H3 in Hc. by rewrite Hc in H1.
  - apply move_plan_state in Hm. rewrite Hm in Hc. by rewrite Hc in Hnt.
  - apply move_plan_state in H. rewrite H in Hc. by rewrite Hc in Hnt.
  - unfold start in H. by destruct (attempt_check _ _ _); simplify_eq.
  - apply retry_inv in H as (s1 & H & ->). apply move_plan_state in H.
    rewrite refresh_plan_state, H in Hc. by rewrite Hc in Hnt.
Qed.

(** ** Started attempts are counted exactly *)

Lemma refresh_total s : total_attempts (refresh_ready s) = total_attempts s.
Proof. unfold refresh_ready. by case_match. Qed.

Lemma plan_step_total d s t s' :
  definition_sound d -> snapshot_wf d s -> plan_step s t s' ->
  total_attempts s' = total_attempts s + (if is_start t then 1 else 0).
Proof.
  intros Hs Hwf. destruct 1 as [H|c s' H Hc|H|t st H|H Ha|id s' H1 H2 H3|t id a b s' Ht H Hm
      |id s' Ht H|id s' Ht H|id s' Ht H]; simpl; rewrite ?refresh_total; simpl; try lia.
  - apply carry_inv in Hc as (m & st & Hm & _ & ->). rewrite refresh_total. simpl. lia.
  - inversion H; subst; simpl; lia.
  - apply move_step_ok in H3 as (p & _ & _ & ->). simpl. lia.
  - apply move_step_ok in Hm as (p & _ & _ & ->). inversion H; simpl; lia.
  - apply move_step_ok in H as (p & _ & _ & ->). simpl. lia.
  - by apply (start_inv d) in H as (p & _ & _ & -> & _).
  - apply retry_inv in H as (s1 & (p & _ & _ & ->)%move_step_ok & ->). rewrite refresh_total. simpl. lia.
Qed.

Lemma run_total d ts s s' :
  definition_sound d -> snapshot_wf d s -> run s ts = Ok s' ->
  total_attempts s' = total_attempts s + count_starts ts /\ snapshot_wf d s'.
Proof.
  intros Hs. unfold run. revert s. induction ts as [|t ts IH]; intros s Hwf H; simpl in H.
  - simplify_eq. unfold count_starts. simpl. split; [lia|done].
  - destruct (apply s t) as [s1|] eqn:E; [|done]. apply apply_is_plan_step in E.
    pose proof (plan_step_total _ _ _ _ Hs Hwf E) as Ht.
    destruct (IH s1) as [IHt Hwf']; [by eapply plan_step_wf|done|].
    split; [|done]. unfold count_starts in *. simpl. destruct (is_start t); simpl in *; lia.
Qed.

Lemma run_parallel d ts s s' :
  definition_sound d -> snapshot_wf d s -> run s ts = Ok s' ->
  forallb (fun t => negb (is_resume_step t)) ts = true ->
  active_count s <= max_parallel_ready (bounds d) ->
  active_count s' <= max_parallel_ready (bounds d).
Proof.
  intros Hs. unfold run. revert s. induction ts as [|t ts IH]; intros s Hwf H Hnr Hle; simpl in H;
    [by simplify_eq|]. simpl in Hnr. apply andb_true_iff in Hnr as [Hnt%negb_true_iff Hnr].
  destruct (apply s t) as [s1|] eqn:E; [|done]. apply apply_is_plan_step in E.
  assert (Hwf1 : snapshot_wf d s1) by by eapply plan_step_wf.
  apply (IH s1); auto. rewrite (active_count_size d) in * by done.
  destruct (is_claim t) eqn:Ec.
  - destruct E as [He|c s1 He Hc|He|t st He|He Ha|id s1 _ Hlt Hm|t id a b s1 _ He _
      |id s1 _ He|id s1 _ He|id s1 _ He]; try done; try (by inversion He; subst).
    apply move_step_ok in Hm as (p & _ & _ & ->). simpl.
    rewrite (active_count_size d), (wf_definition d s Hwf) in Hlt by done.
    pose proof (subseteq_size _ _ (active_set_insert_any (progress s) id (p <| sp_state := StepClaimed |>))) as Hsz.
    pose proof (size_union_alt {[id]} (active_set (progress s))) as Hu.
    rewrite size_singleton in Hu.
    pose proof (subseteq_size (active_set (progress s) ∖ {[id]}) (active_set (progress s)) ltac:(set_solver)).
    simpl in Hsz. lia.
  - pose proof (subseteq_size _ _ (plan_step_active d s t s1 Hs Hwf E Hnt Ec)). lia.
Qed.

(** ** A concrete plan: "b" depends on "a", "c" is independent *)

Module Sample.
Definition digest : string :=
  "00000000000000000000000000000000000000000000000000000000000000aa".
Definition step (id : string) (deps : list string) : PlanStepV1 :=
  mkPlanStep id "objective" (list_to_set deps) {["k"]} ∅ ∅ 2.
Definition plan_limits (parallel total : Z) : PlanBoundsV1 := mkPlanBounds 3 parallel total None None.
Definition plan (parallel total : Z) : PlanDefinitionV1 :=
  mkPlanDefinition DEFINITION_CONTRACT CONTRACT_VERSION "p" 1 "g" 1 digest digest digest "safety"
    [step "a" []; step "b" ["a"]; step "c" []] (plan_limits parallel total).

Lemma step_is_built id deps :
  id ≠ "" -> id ∉ deps -> NoDup deps -> "" ∉ deps -> step_built (step id deps).
Proof.
  intros Hid Hnin Hnd Hne. split_and!; [done| |simpl; set_solver|].
  - simpl. intros i Hi ->. set_solver.
  - exists deps, ["k"], [], []. unfold PlanStepV1_new.
    rewrite (proj2 (unique_ok deps (list_to_set deps))) by done.
    change (unique_non_empty ["k"]) with (@Ok PlanErrorCode _ ({["k"]} ∪ ∅ : gset string)).
    rewrite (union_empty_r_L {["k"]}).
    change (unique (T := PlanCapabilityReference) []) with
      (@Ok PlanErrorCode _ (∅ : gset PlanCapabilityReference)).
    change (unique_digests []) with (@Ok PlanErrorCode _ (∅ : gset string)).
    cbn -[list_to_set]. rewrite bool_decide_eq_false_2 by set_solver.
    rewrite bool_decide_eq_false_2 by set_solver. done.
Qed.

Lemma plan_is_built parallel total :
  1 <= parallel <= 3 -> 1 <= total -> plan_built (plan parallel total) {["k"]} ∅ ∅.
Proof.
  intros Hp Ht. constructor; [done|done|..].
  - repeat apply Forall_cons_2; [apply step_is_built..|by apply Forall_nil_2];
      try done; try set_solver; try (apply NoDup_singleton); apply NoDup_nil_2.
  - unfold bounds_built, PlanBoundsV1_new. simpl.
    rewrite (proj2 (Z.eqb_neq parallel 0)), (proj2 (Z.eqb_neq total 0)),
      (proj2 (Z.ltb_ge 3 parallel)) by lia. done.
  - apply definition_validate_ok.
    transitivity (PlanDefinitionV1_validate (plan 1 1) {["k"]} ∅ ∅); [done|]. by vm_compute.
Qed.

Lemma plan_is_typed parallel total :
  1 <= parallel <= 3 -> 1 <= total <= 3 -> definition_typed (plan parallel total).
Proof.
  intros Hp Ht. unfold definition_typed, bounds_typed, is_u32, u32_max. simpl.
  split; [lia|]. repeat constructor; unfold step_typed, is_u32, u32_max; simpl; lia.
Qed.

Definition after (parallel total : Z) (ts : list PlanTransition) : PlanSnapshot :=
  match run (PlanSnapshot_new (plan parallel total)) ts with
  | Ok s => s
  | Err _ => PlanSnapshot_new (plan parallel total)
  end.

Lemma sample_after_reachable parallel total ts :
  is_ok (run (PlanSnapshot_new (plan parallel total)) ts) = true ->
  plan_reachable (plan parallel total) (after parallel total ts).
Proof.
  intros H. unfold after. destruct (run _ ts) eqn:E; [|done].
  eapply run_reachable; [constructor|exact E].
Qed.
End Sample.

(** ** Properties *)

(** On steps with distinct ids and declared dependencies the topology check succeeds exactly
    when the dependency relation has no cycle and reports a cycle exactly when there is one. *)
Theorem validate_acyclic_correct steps :
  closed_steps steps ->
  (validate_acyclic steps = Ok tt <-> acyclic steps) /\
  (validate_acyclic steps = Err PlanCycle <-> exists a, tc (dep steps) a a).
Proof.
  intros Hc. split; [by apply validate_acyclic_ok|].
  destruct (validate_acyclic_decides steps Hc) as [[-> Hac]|[-> ?]]; [|done].
  split; [done|]. intros [a Ha]. destruct (Hac a Ha).
Qed.

(** The constructor of a Plan definition succeeds exactly on the admitted definitions and
    then returns the fields it was given. *)
Theorem plan_definition_new_correct plan_id plan_revision goal_id goal_revision gd ad td sp
    steps bounds required satisfied available :
  let d := mkPlanDefinition DEFINITION_CONTRACT CONTRACT_VERSION plan_id plan_revision goal_id
             goal_revision gd ad td sp steps bounds in
  let r := PlanDefinitionV1_new plan_id plan_revision goal_id goal_revision gd ad td sp steps bounds
             required satisfied available in
  (r = Ok d <-> admitted_definition d required satisfied available) /\
  (r = Ok d \/ exists e, r = Err e).
Proof.
  intros d r. split.
  - pose proof (plan_definition_new_ok plan_id plan_revision goal_id goal_revision gd ad td sp
      steps bounds required satisfied available d). naive_solver.
  - destruct r as [d'|e] eqn:E; [left|eauto]. by apply plan_definition_new_ok in E as [-> _].
Qed.


(** In every reachable snapshot the steps are the declared ones, the attempts of a step stay
    within its limit, and the total is the sum of the attempts and within the Plan's bound. *)
Theorem plan_attempts_accounted d required satisfied available s :
  plan_built d required satisfied available -> definition_typed d -> plan_reachable d s ->
  dom (progress s) = step_ids (steps d) /\
  (forall st p, st ∈ steps d -> progress s !! step_id st = Some p ->
     0 <= sp_attempts p <= max_attempts st) /\
  total_attempts s = attempts_sum (progress s) /\
  total_attempts s <= max_total_attempts (bounds d).
Proof.
  intros Hb Ht Hr. pose proof (plan_built_sound _ _ _ _ Hb Ht) as Hs.
  destruct (reachable_wf d s Hs Hr) as [_ [Hdom Hok] Htot Hbd _ _]. split_and!; auto; [|lia].
  intros st p Hst Hp. by destruct (Hok st p Hst Hp).
Qed.

(** In every reachable snapshot of a built Plan a step that has left Pending has all its
    dependencies completed. *)
Theorem plan_dependencies_first d required satisfied available s st p :
  plan_built d required satisfied available -> definition_typed d -> plan_reachable d s ->
  st ∈ steps d -> progress s !! step_id st = Some p -> sp_state p ≠ StepPending ->
  forall i, i ∈ depends_on st -> completed (progress s) i.
Proof.
  intros Hb Ht Hr Hst Hp Hne. pose proof (plan_built_sound _ _ _ _ Hb Ht) as Hs.
  destruct (reachable_wf d s Hs Hr) as [_ [_ Hok] _ _ _ _]. by apply (ok_deps _ st p (Hok st p Hst Hp)).
Qed.

(** A completed step stays completed, a terminal Plan accepts nothing, and a completed Plan
    has only completed steps. *)
Theorem plan_completion_final d required satisfied available s :
  plan_built d required satisfied available -> definition_typed d -> plan_reachable d s ->
  (forall t s' i, apply s t = Ok s' -> completed (progress s) i -> completed (progress s') i) /\
  (PlanState_is_terminal (plan_state s) = true -> forall t, apply s t = Err PlanTransitionInvalid) /\
  (plan_state s = PlanCompleted -> all_completed s).
Proof.
  intros Hb Ht Hr. pose proof (plan_built_sound _ _ _ _ Hb Ht) as Hs. split_and!.
  - intros t s' i E%apply_is_plan_step. eapply plan_step_keeps_completed; eauto using reachable_wf.
  - intros Hterm t. unfold apply. by rewrite Hterm.
  - induction Hr as [|s t s' Hr IH E%apply_is_plan_step]; [done|]. intros Hc.
    by destruct (plan_step_to_completed s t s' E Hc) as [Ha ->].
Qed.

(** C37: A reachable Plan that admits dispatch, has attempts left, and whose steps are all
    pending, ready or completed is either complete or offers a ready step. *)
Theorem plan_no_deadlock d required satisfied available s :
  plan_built d required satisfied available -> definition_typed d -> plan_reachable d s ->
  admits_dispatch (plan_state s) = true ->
  total_attempts s < max_total_attempts (bounds d) ->
  (forall i p, progress s !! i = Some p ->
     sp_state p = StepPending \/ sp_state p = StepReady \/ sp_state p = StepCompleted) ->
  all_completed s \/ ready_steps s ≠ [].
Proof.
  intros Hb Ht Hr Hdisp Hlt Hq. pose proof (plan_built_sound _ _ _ _ Hb Ht) as Hs.
  destruct (reachable_wf d s Hs Hr) as [Hd Hm _ _ _ Hsat].
  specialize (Hsat Hdisp Hlt).
  assert (Hns : saturated d (progress s)).
  { apply Hsat. intros i p Hp. by destruct (Hq i p Hp) as [->|[->| ->]]; intros [|[|]]. }
  destruct (decide (ready_steps s = [])) as [Hnr|]; [left|by right].
  set (X := dom (filter (fun kv => sp_state kv.2 = StepPending) (progress s))).
  assert (HX : forall i, i ∈ X <-> exists p, progress s !! i = Some p /\ sp_state p = StepPending).
  { intros i. unfold X. rewrite elem_of_dom. unfold is_Some.
    setoid_rewrite map_lookup_filter_Some. done. }
  assert (Hready : forall i p, progress s !! i = Some p -> sp_state p ≠ StepReady).
  { intros i p Hp Hre. destruct (map_ok_declared d _ _ _ Hm Hp) as (st & Hst & <- & _).
    assert (Hin : step_id st ∈ ready_steps s); [|rewrite Hnr in Hin; set_solver].
    unfold ready_steps. apply list_elem_of_fmap. exists st. split; [done|].
    apply list_elem_of_filter. rewrite Hd, Hp. simpl. rewrite bool_decide_eq_true_2 by done. done. }
  destruct (decide (X = ∅)) as [Hemp|Hne].
  - intros i p Hp. destruct (Hq i p Hp) as [Hpe|[Hre|]]; [|by destruct (Hready i p)|done].
    assert (Hin : i ∈ X) by (apply HX; eauto). rewrite Hemp in Hin. set_solver.
  - exfalso. destruct (finite_no_sink_cycle X (dep (steps d))) as [x Hx]; [done| |].
    + intros a (p & Hp & Hpe)%HX. destruct (map_ok_declared d _ _ _ Hm Hp) as (st & Hst & <- & _).
      specialize (Hns st p Hst Hp Hpe).
      destruct (decide (depends_on st ⊆ completed_ids (progress s))) as [Hsub|Hsub].
      { destruct Hns. intros i Hi. by apply elem_of_completed_ids, Hsub. }
      destruct (set_choose_L (depends_on st ∖ completed_ids (progress s))) as [b Hbb].
      { intros He. by apply Hsub, empty_difference_subseteq_L. }
      apply elem_of_difference in Hbb as [Hbd Hbc]. exists b. split; [|by exists st].
      pose proof (proj2 (sound_closed d Hs) st Hst b Hbd) as Hids.
      rewrite <-(proj1 Hm) in Hids. apply elem_of_dom in Hids as [q Hqq].
      apply HX. exists q. split; [done|]. destruct (Hq b q Hqq) as [|[Hre|Hco]]; [done|..].
      * by destruct (Hready b q).
      * destruct Hbc. apply elem_of_completed_ids. by exists q.
    + by apply (sound_acyclic d Hs x).
Qed.

(** In every accepted run the number of Start transitions equals the total attempts and is at
    most the Plan's bound, so every run dispatches finitely often. *)
Theorem plan_starts_bounded d required satisfied available ts s :
  plan_built d required satisfied available -> definition_typed d ->
  run (PlanSnapshot_new d) ts = Ok s ->
  count_starts ts = total_attempts s /\ count_starts ts <= max_total_attempts (bounds d).
Proof.
  intros Hb Ht Hr. pose proof (plan_built_sound _ _ _ _ Hb Ht) as Hs.
  destruct (run_total d ts _ _ Hs (new_wf d Hs) Hr) as [Heq Hwf]. simpl in Heq.
  pose proof (wf_bound d s Hwf). lia.
Qed.

(** In every accepted run without a ResumeStep at most max_parallel_ready steps are claimed
    or running. *)
Theorem plan_parallel_bound d required satisfied available ts s :
  plan_built d required satisfied available -> definition_typed d ->
  run (PlanSnapshot_new d) ts = Ok s ->
  forallb (fun t => negb (is_resume_step t)) ts = true ->
  active_count s <= max_parallel_ready (bounds d).
Proof.
  intros Hb Ht Hr Hn. pose proof (plan_built_sound _ _ _ _ Hb Ht) as Hs.
  apply (run_parallel d ts _ _ Hs (new_wf d Hs) Hr Hn).
  rewrite (active_count_size d) by eauto using new_wf.
  replace (active_set (progress (PlanSnapshot_new d))) with (∅ : gset string).
  - rewrite size_empty. pose proof (sound_parallel d Hs). lia.
  - symmetry. apply set_eq. intros i. rewrite elem_of_active_set. split; [|set_solver].
    intros (p & [_ ->]%new_lookup & Hact). done.
Qed.

(** A reachable snapshot of a built Plan can have more claimed or running steps than
    max_parallel_ready, because ResumeStep does not check the bound. *)
Theorem plan_resume_step_exceeds_parallel_bound :
  exists d s, plan_built d {["k"]} ∅ ∅ /\ definition_typed d /\ plan_reachable d s /\
    max_parallel_ready (bounds d) < active_count s.
Proof.
  set (ts := [Adopt; Claim "a"; Start "a"; SuspendStep "a"; Claim "c"; ResumeStep "a"]).
  exists (Sample.plan 1 3), (Sample.after 1 3 ts). split_and!.
  - by apply Sample.plan_is_built.
  - by apply Sample.plan_is_typed.
  - apply Sample.sample_after_reachable. by vm_compute.
  - by vm_compute.
Qed.

(** Start on a claimed step of a suspended Plan is accepted and sets the Plan running without
    a Resume. *)
Theorem plan_start_leaves_suspension :
  exists d s s' id, plan_built d {["k"]} ∅ ∅ /\ definition_typed d /\ plan_reachable d s /\
    plan_state s = PlanSuspended /\ apply s (Start id) = Ok s' /\ plan_state s' = PlanRunning.
Proof.
  set (ts := [Adopt; Claim "a"; Claim "c"; Start "a"; Suspend]).
  exists (Sample.plan 2 3), (Sample.after 2 3 ts), (Sample.after 2 3 (ts ++ [Start "c"])), "c".
  split_and!.
  - by apply Sample.plan_is_built.
  - by apply Sample.plan_is_typed.
  - apply Sample.sample_after_reachable. by vm_compute.
  - by vm_compute.
  - by vm_compute.
  - by vm_compute.
Qed.

(** ** The properties on the sample plan *)

Lemma plan_attempts_accounted_witness :
  total_attempts (Sample.after 2 3 [Adopt; Claim "a"; Start "a"]) <= 3.
Proof.
  destruct (plan_attempts_accounted (Sample.plan 2 3) {["k"]} ∅ ∅
    (Sample.after 2 3 [Adopt; Claim "a"; Start "a"])) as (_ & _ & _ & H).
  - by apply Sample.plan_is_built.
  - by apply Sample.plan_is_typed.
  - apply Sample.sample_after_reachable. by vm_compute.
  - exact H.
Defined.


Lemma plan_dependencies_first_witness :
  completed (progress (Sample.after 2 3 [Adopt; Claim "a"; Start "a"; CompleteStep "a"; Claim "b"])) "a".
Proof.
  apply (plan_dependencies_first (Sample.plan 2 3) {["k"]} ∅ ∅
    (Sample.after 2 3 [Adopt; Claim "a"; Start "a"; CompleteStep "a"; Claim "b"])
    (Sample.step "b" ["a"]) (mkStepProgress StepClaimed 0)).
  - by apply Sample.plan_is_built.
  - by apply Sample.plan_is_typed.
  - apply Sample.sample_after_reachable. by vm_compute.
  - right. left.
  - by vm_compute.
  - done.
  - set_solver.
Defined.

Lemma plan_completion_final_witness :
  apply (Sample.after 2 3 [Adopt; Supersede]) Resume = Err PlanTransitionInvalid.
Proof.
  destruct (plan_completion_final (Sample.plan 2 3) {["k"]} ∅ ∅
    (Sample.after 2 3 [Adopt; Supersede])) as (_ & H & _).
  - by apply Sample.plan_is_built.
  - by apply Sample.plan_is_typed.
  - apply Sample.sample_after_reachable. by vm_compute.
  - apply H. by vm_compute.
Defined.

Lemma plan_no_deadlock_witness :
  all_completed (Sample.after 2 3 [Adopt]) \/ ready_steps (Sample.after 2 3 [Adopt]) ≠ [].
Proof.
  apply (plan_no_deadlock (Sample.plan 2 3) {["k"]} ∅ ∅).
  - by apply Sample.plan_is_built.
  - by apply Sample.plan_is_typed.
  - apply Sample.sample_after_reachable. by vm_compute.
  - by vm_compute.
  - by vm_compute.
  - apply (map_Forall_to_list (fun _ p => sp_state p = StepPending \/ sp_state p = StepReady \/
      sp_state p = StepCompleted)).
    vm_compute. repeat first [apply Forall_nil_2 | apply Forall_cons_2; [naive_solver|]].
Defined.

Lemma plan_starts_bounded_witness :
  count_starts [Adopt; Claim "a"; Start "a"; FailStep "a"; RetryStep "a"; Claim "a"; Start "a"] <= 3.
Proof.
  apply (plan_starts_bounded (Sample.plan 2 3) {["k"]} ∅ ∅ _
    (Sample.after 2 3 [Adopt; Claim "a"; Start "a"; FailStep "a"; RetryStep "a"; Claim "a"; Start "a"])).
  - by apply Sample.plan_is_built.
  - by apply Sample.plan_is_typed.
  - by vm_compute.
Defined.

Lemma plan_parallel_bound_witness :
  active_count (Sample.after 2 3 [Adopt; Claim "a"; Claim "c"]) <= 2.
Proof.
  apply (plan_parallel_bound (Sample.plan 2 3) {["k"]} ∅ ∅ [Adopt; Claim "a"; Claim "c"]).
  - by apply Sample.plan_is_built.
  - by apply Sample.plan_is_typed.
  - by vm_compute.
  - done.
Defined.

Lemma validate_acyclic_correct_witness :
  acyclic [Sample.step "a" []; Sample.step "b" ["a"]].
Proof.
  apply (validate_acyclic_correct [Sample.step "a" []; Sample.step "b" ["a"]]).
  - split.
    + apply (bool_decide_unpack (NoDup _)). by vm_compute.
    + apply Forall_forall. apply (bool_decide_unpack (Forall _ _)). by vm_compute.
  - by vm_compute.
Defined.

(** A document store with one document, for the decoder's parameters. *)
Module SampleDocument.
Definition raw_step (id : string) (deps : list string) : RawPlanStep :=
  mkRawPlanStep id "objective" deps ["k"] [] [] 2.
Definition raw : RawPlanDefinition :=
  mkRawPlanDefinition DEFINITION_CONTRACT CONTRACT_VERSION "p" 1 "g" 1 Sample.digest Sample.digest
    Sample.digest "safety" [raw_step "a" []; raw_step "b" ["a"]; raw_step "c" []]
    (mkRawPlanBounds 3 2 3 None None).
Definition jcs (d : PlanDefinitionV1) : option string :=
  if decide (d = Sample.plan 2 3) then Some "doc" else None.
Definition parse (s : string) : option RawPlanDefinition :=
  if (s =? "doc")%string then Some raw else None.

Lemma raw_of_sample : raw_of raw (Sample.plan 2 3).
Proof.
  split_and!; try done. repeat first [apply Forall2_nil_2 | apply Forall2_cons_2].
  all: split_and!; try done; split; first [apply (bool_decide_unpack (NoDup _)); by vm_compute | by vm_compute].
Qed.

Lemma serde_law d json :
  jcs d = Some json -> exists r, parse json = Some r /\ raw_of r d.
Proof.
  unfold jcs. case_decide; [|done]. intros [= <-]. subst. exists raw.
  split; [done|apply raw_of_sample].
Qed.
End SampleDocument.

Lemma plan_document_exact_witness :
  from_canonical_json SampleDocument.parse SampleDocument.jcs "doc" {["k"]} ∅ ∅ = Ok (Sample.plan 2 3).
Proof.
  apply plan_document_exact; [apply SampleDocument.serde_law|]. split.
  - unfold canonical_json, SampleDocument.jcs. by rewrite decide_True.
  - by apply Sample.plan_is_built.
Defined.
