(* ===== verification/GoalTypes.v ===== *)
(** * Goal data model ([engine/goal/src/lib.rs])

    The immutable Goal definition: scope, bounds, success criteria and
    capability references, with their validating constructors, the narrowing
    test between a child and its parent, and the canonical document decoder.
    The serde and JCS entry points are parameters of the decoder. *)

From S2P Require Import Prelude.

Inductive GoalErrorCode :=
  | GoalInvalid
  | GoalRevisionConflict
  | GoalTransitionInvalid
  | GoalEvidenceInsufficient
  | GoalScopeExceeded.

#[export] Instance GoalErrorCode_eq_dec : EqDecision GoalErrorCode.
Proof. solve_decision. Defined.

(** [GoalError] wraps its code and nothing else. *)
Abbreviation GoalError := GoalErrorCode.

(** The [identity!] newtypes [GoalId], [GoalCriterionId] and [GoalEvidenceId]. *)
Abbreviation GoalId := string (only parsing).
Abbreviation GoalCriterionId := string (only parsing).
Abbreviation GoalEvidenceId := string (only parsing).

Definition GOAL_DEFINITION_CONTRACT : string := "garive.goal-definition".
Definition GOAL_CONTRACT_VERSION : Z := 1.
Definition MAX_ID_BYTES : Z := 256.
Definition MAX_REFERENCE_BYTES : Z := 512.
Definition MAX_OBJECTIVE_BYTES : Z := 16 * 1024.
Definition MAX_COLLECTION_ITEMS : Z := 256.

Definition goal_identity_new (value : string) : result GoalError string :=
  if str_is_empty value || (MAX_ID_BYTES <? str_len value) then Err GoalInvalid else Ok value.

Definition valid_reference (value : string) : bool :=
  negb (str_is_empty value) && (str_len value <=? MAX_REFERENCE_BYTES).

Definition optional_bound_within (child parent : option Z) : bool :=
  match child, parent with
  | _, None => true
  | Some child, Some parent => child <=? parent
  | None, Some _ => false
  end.

Record GoalCapabilityReference := mkGoalCapability {
  gc_name : string;
  gc_exact_revision : string;
}.

#[export] Instance GoalCapabilityReference_eq_dec : EqDecision GoalCapabilityReference.
Proof. solve_decision. Defined.
#[export] Instance GoalCapabilityReference_countable : Countable GoalCapabilityReference.
Proof.
  apply (inj_countable' (fun c => (gc_name c, gc_exact_revision c))
                        (fun p => mkGoalCapability p.1 p.2)).
  by intros [].
Defined.

Definition GoalCapabilityReference_new (name exact_revision : string)
    : result GoalError GoalCapabilityReference :=
  if negb (valid_reference name) || negb (valid_reference exact_revision) then Err GoalInvalid
  else Ok (mkGoalCapability name exact_revision).

(** ** Scope *)

Record GoalScopeV1 := mkGoalScope {
  scope_session_id : option string;
  workspace_capability_ids : gset string;
}.

#[export] Instance GoalScopeV1_eq_dec : EqDecision GoalScopeV1.
Proof. solve_decision. Defined.

Definition GoalScopeV1_new (session_id : option string) (values : list string)
    : result GoalError GoalScopeV1 :=
  let unique : gset string := list_to_set values in
  reject GoalInvalid when
    is_some_and (fun value => negb (valid_reference value)) session_id
    || (MAX_COLLECTION_ITEMS <? Z.of_nat (length values))
    || existsb (fun value => negb (valid_reference value)) values
    || negb (length values =? size unique)%nat
    || (is_none session_id && bool_decide (unique = ∅));
  Ok (mkGoalScope session_id unique).

Definition GoalScopeV1_is_within (self parent : GoalScopeV1) : bool :=
  (is_none (scope_session_id self)
   || bool_decide (scope_session_id self = scope_session_id parent))
  && bool_decide (workspace_capability_ids self ⊆ workspace_capability_ids parent).

(** ** Bounds *)

Record GoalBoundsV1 := mkGoalBounds {
  goal_max_attempts : Z;
  max_plan_revisions : Z;
  max_child_goals : Z;
  goal_token_budget : option Z;
  goal_duration_budget_ms : option Z;
}.

#[export] Instance GoalBoundsV1_eq_dec : EqDecision GoalBoundsV1.
Proof. solve_decision. Defined.

Definition GoalBoundsV1_new (max_attempts max_plan_revisions max_child_goals : Z)
    (token_budget duration_budget_ms : option Z) : result GoalError GoalBoundsV1 :=
  reject GoalInvalid when
    (max_attempts =? 0)
    || (max_plan_revisions =? 0)
    || (max_child_goals =? 0)
    || bool_decide (token_budget = Some 0)
    || bool_decide (duration_budget_ms = Some 0);
  Ok (mkGoalBounds max_attempts max_plan_revisions max_child_goals token_budget duration_budget_ms).

Definition GoalBoundsV1_is_within (self parent : GoalBoundsV1) : bool :=
  (goal_max_attempts self <=? goal_max_attempts parent)
  && (max_plan_revisions self <=? max_plan_revisions parent)
  && (max_child_goals self <=? max_child_goals parent)
  && optional_bound_within (goal_token_budget self) (goal_token_budget parent)
  && optional_bound_within (goal_duration_budget_ms self) (goal_duration_budget_ms parent).

(** ** Success criteria *)

Inductive GoalCriterion :=
  | UserAcceptance (criterion_id : GoalCriterionId) (response_schema_digest : string)
  | Artifact (criterion_id : GoalCriterionId) (artifact_kind : string)
      (required_digest : option string)
  | DurableFactCriterion (criterion_id : GoalCriterionId) (fact_kind subject_digest : string)
  | ChildGoals (criterion_id : GoalCriterionId) (child_goal_ids : gset GoalId).

#[export] Instance GoalCriterion_eq_dec : EqDecision GoalCriterion.
Proof. solve_decision. Defined.

Definition criterion_id (self : GoalCriterion) : GoalCriterionId :=
  match self with
  | UserAcceptance criterion_id _
  | Artifact criterion_id _ _
  | DurableFactCriterion criterion_id _ _
  | ChildGoals criterion_id _ => criterion_id
  end.

Definition GoalCriterion_validate (self : GoalCriterion) : bool :=
  if str_is_empty (criterion_id self) then false
  else match self with
  | UserAcceptance _ response_schema_digest => valid_digest response_schema_digest
  | Artifact _ artifact_kind required_digest =>
      valid_reference artifact_kind && is_none_or valid_digest required_digest
  | DurableFactCriterion _ fact_kind subject_digest =>
      valid_reference fact_kind && valid_digest subject_digest
  | ChildGoals _ child_goal_ids =>
      negb (bool_decide (child_goal_ids = ∅))
      && forallb (fun value => negb (str_is_empty value)) (elements child_goal_ids)
  end.

(** ** Definition *)

Record GoalDefinitionV1 := mkGoalDefinition {
  goal_contract : string;
  goal_version : Z;
  def_goal_id : GoalId;
  goal_objective : string;
  criteria : list GoalCriterion;
  goal_scope : GoalScopeV1;
  goal_bounds : GoalBoundsV1;
  parent_goal_id : option GoalId;
  capability_references : gset GoalCapabilityReference;
}.

#[export] Instance GoalDefinitionV1_eq_dec : EqDecision GoalDefinitionV1.
Proof. solve_decision. Defined.

Definition GoalDefinitionV1_new (goal_id : GoalId) (objective : string)
    (criteria : list GoalCriterion) (scope : GoalScopeV1) (bounds : GoalBoundsV1)
    (parent_goal_id : option GoalId) (capability_values : list GoalCapabilityReference)
    : result GoalError GoalDefinitionV1 :=
  let ids : gset string := list_to_set (criterion_id <$> criteria) in
  let capabilities : gset GoalCapabilityReference := list_to_set capability_values in
  reject GoalInvalid when
    str_is_empty goal_id
    || str_is_empty objective
    || (MAX_OBJECTIVE_BYTES <? str_len objective)
    || bool_decide (criteria = [])
    || (MAX_COLLECTION_ITEMS <? Z.of_nat (length criteria))
    || negb (size ids =? length criteria)%nat
    || existsb (fun criterion => negb (GoalCriterion_validate criterion)) criteria
    || negb (length capability_values =? size capabilities)%nat
    || (MAX_COLLECTION_ITEMS <? Z.of_nat (length capability_values))
    || existsb (fun value => str_is_empty (gc_name value) || str_is_empty (gc_exact_revision value))
         capability_values
    || is_some_and str_is_empty parent_goal_id
    || bool_decide (parent_goal_id = Some goal_id);
  Ok (mkGoalDefinition GOAL_DEFINITION_CONTRACT GOAL_CONTRACT_VERSION goal_id objective criteria
        scope bounds parent_goal_id capabilities).

Definition validate_child_of (self parent : GoalDefinitionV1) : result GoalError unit :=
  if negb (bool_decide (parent_goal_id self = Some (def_goal_id parent)))
     || negb (GoalScopeV1_is_within (goal_scope self) (goal_scope parent))
     || negb (GoalBoundsV1_is_within (goal_bounds self) (goal_bounds parent))
     || negb (bool_decide (capability_references self ⊆ capability_references parent))
  then Err GoalScopeExceeded
  else Ok tt.

(** ** Canonical document *)

Record RawGoalDefinitionV1 := mkRawGoalDefinition {
  raw_goal_contract : string;
  raw_goal_version : Z;
  raw_def_goal_id : GoalId;
  raw_goal_objective : string;
  raw_criteria : list GoalCriterion;
  raw_goal_scope : GoalScopeV1;
  raw_goal_bounds : GoalBoundsV1;
  raw_parent_goal_id : option GoalId;
  raw_capability_references : list GoalCapabilityReference;
}.

Section goal_document.
(** [serde_json::from_str::<RawGoalDefinitionV1>] and [serde_jcs::to_string]. *)
Variable raw_from_str : string -> option RawGoalDefinitionV1.
Variable jcs_to_string : GoalDefinitionV1 -> option string.

Definition goal_canonical_json (self : GoalDefinitionV1) : result GoalError string :=
  ok_or (jcs_to_string self) GoalInvalid.

Definition goal_from_canonical_json (json : string) : result GoalError GoalDefinitionV1 :=
  let? raw := ok_or (raw_from_str json) GoalInvalid in
  reject GoalInvalid when
    negb (raw_goal_contract raw =? GOAL_DEFINITION_CONTRACT)%string
    || negb (raw_goal_version raw =? GOAL_CONTRACT_VERSION);
  let? scope := GoalScopeV1_new (scope_session_id (raw_goal_scope raw))
    (elements (workspace_capability_ids (raw_goal_scope raw))) in
  let? bounds := GoalBoundsV1_new (goal_max_attempts (raw_goal_bounds raw))
    (max_plan_revisions (raw_goal_bounds raw)) (max_child_goals (raw_goal_bounds raw))
    (goal_token_budget (raw_goal_bounds raw)) (goal_duration_budget_ms (raw_goal_bounds raw)) in
  let? value := GoalDefinitionV1_new (raw_def_goal_id raw) (raw_goal_objective raw)
    (raw_criteria raw) scope bounds (raw_parent_goal_id raw) (raw_capability_references raw) in
  let? canonical := goal_canonical_json value in
  reject GoalInvalid when negb (canonical =? json)%string;
  Ok value.
End goal_document.

(** ** Goal lifecycle and evidence ([engine/goal/src/lifecycle.rs])

    The revisioned Goal reducer: evidence values and their canonical list
    document, the lifecycle states and transitions, [goal_apply] and the
    success-evidence check it runs. *)

Inductive GoalEvidenceKind :=
  | EvUserAcceptance
  | EvArtifact
  | EvDurableFact
  | EvChildGoals.

#[export] Instance GoalEvidenceKind_eq_dec : EqDecision GoalEvidenceKind.
Proof. solve_decision. Defined.

Record GoalEvidenceV1 := mkGoalEvidence {
  evidence_id : GoalEvidenceId;
  evidence_criterion_id : GoalCriterionId;
  evidence_kind : GoalEvidenceKind;
  durable_reference : string;
  evidence_digest : string;
  observed_at_commit_version : Z;
}.

#[export] Instance GoalEvidenceV1_eq_dec : EqDecision GoalEvidenceV1.
Proof. solve_decision. Defined.

Definition GoalEvidenceV1_new (evidence_id criterion_id : string) (kind : GoalEvidenceKind)
    (durable_reference evidence_digest : string) (observed_at_commit_version : Z)
    : result GoalError GoalEvidenceV1 :=
  let value := mkGoalEvidence evidence_id criterion_id kind durable_reference evidence_digest
    observed_at_commit_version in
  reject GoalInvalid when
    negb (valid_reference durable_reference)
    || negb (valid_digest evidence_digest)
    || (observed_at_commit_version =? 0);
  Ok value.

Section evidence_document.
(** [serde_json::from_str::<Vec<GoalEvidenceV1>>] and [serde_jcs::to_string]. *)
Variable evidence_from_str : string -> option (list GoalEvidenceV1).
Variable jcs_to_string : list GoalEvidenceV1 -> option string.

Definition evidence_canonical_json (values : list GoalEvidenceV1) : result GoalError string :=
  reject GoalInvalid when MAX_COLLECTION_ITEMS <? Z.of_nat (length values);
  ok_or (jcs_to_string values) GoalInvalid.

Definition list_from_canonical_json (json : string)
    : result GoalError (list GoalEvidenceV1) :=
  let? raw := ok_or (evidence_from_str json) GoalInvalid in
  let? values := try_map (fun value =>
    GoalEvidenceV1_new (evidence_id value) (evidence_criterion_id value) (evidence_kind value)
      (durable_reference value) (evidence_digest value) (observed_at_commit_version value)) raw in
  let? canonical := evidence_canonical_json values in
  reject GoalInvalid when negb (canonical =? json)%string;
  Ok values.
End evidence_document.

Inductive GoalState :=
  | GoalDraft | GoalActive | GoalSuspended | GoalSucceeded | GoalFailed | GoalCancelled.

#[export] Instance GoalState_eq_dec : EqDecision GoalState.
Proof. solve_decision. Defined.

Definition GoalState_is_terminal (self : GoalState) : bool :=
  match self with GoalSucceeded | GoalFailed | GoalCancelled => true | _ => false end.

Inductive GoalTransition :=
  | GoalActivate
  | GoalSuspend (reason : string)
  | GoalSucceed (evidence : list GoalEvidenceV1)
  | GoalFail (reason : string)
  | GoalCancel (reason : string)
  | GoalRevise (definition : GoalDefinitionV1).

Record GoalSnapshot := mkGoalSnapshot {
  goal_definition : GoalDefinitionV1;
  goal_snapshot_revision : Z;
  goal_state : GoalState;
  terminal_evidence : list GoalEvidenceV1;
}.

#[export] Instance eta_GoalSnapshot : Eta GoalSnapshot := fun r =>
  mkGoalSnapshot (goal_definition r) (goal_snapshot_revision r) (goal_state r) (terminal_evidence r).

Definition GoalSnapshot_new (definition : GoalDefinitionV1) : GoalSnapshot :=
  mkGoalSnapshot definition 1 GoalDraft [].

Definition criterion_kind (criterion : GoalCriterion) : GoalEvidenceKind :=
  match criterion with
  | UserAcceptance _ _ => EvUserAcceptance
  | Artifact _ _ _ => EvArtifact
  | DurableFactCriterion _ _ _ => EvDurableFact
  | ChildGoals _ _ => EvChildGoals
  end.

(** [iter().map(|value| (key(value), value)).collect::<BTreeMap<_, _>>()]: a
    later entry replaces an earlier one. *)
Definition collect_by {A} (key : A -> string) (l : list A) : gmap string A :=
  foldl (fun m value => <[key value := value]> m) ∅ l.

Definition validate_evidence (criteria : list GoalCriterion) (evidence : list GoalEvidenceV1)
    : result GoalError unit :=
  let by_criterion := collect_by evidence_criterion_id evidence in
  let evidence_ids := collect_by evidence_id evidence in
  reject GoalEvidenceInsufficient when
    negb (size by_criterion =? length evidence)%nat
    || negb (size evidence_ids =? length evidence)%nat
    || negb (length criteria =? length evidence)%nat
    || existsb (fun criterion =>
         is_none_or (fun value => negb (bool_decide (evidence_kind value = criterion_kind criterion)))
           (by_criterion !! criterion_id criterion)) criteria;
  Ok tt.

Definition goal_apply (self : GoalSnapshot) (expected_revision : Z) (transition : GoalTransition)
    : result GoalError GoalSnapshot :=
  reject GoalRevisionConflict when negb (expected_revision =? goal_snapshot_revision self);
  reject GoalTransitionInvalid when GoalState_is_terminal (goal_state self);
  let? revision := ok_or (checked_add (goal_snapshot_revision self) 1) GoalInvalid in
  let next := self <| goal_snapshot_revision := revision |> in
  let invalid := Err GoalTransitionInvalid in
  match transition with
  | GoalActivate =>
      match goal_state self with
      | GoalDraft | GoalSuspended => Ok (next <| goal_state := GoalActive |>)
      | _ => invalid
      end
  | GoalSuspend reason =>
      if bool_decide (goal_state self = GoalActive) && valid_reference reason
      then Ok (next <| goal_state := GoalSuspended |>) else invalid
  | GoalSucceed evidence =>
      if bool_decide (goal_state self = GoalActive)
      then validate_evidence (criteria (goal_definition self)) evidence ?;
           Ok (next <| goal_state := GoalSucceeded |> <| terminal_evidence := evidence |>)
      else invalid
  | GoalFail reason =>
      if match goal_state self with GoalActive | GoalSuspended => true | _ => false end
         && valid_reference reason
      then Ok (next <| goal_state := GoalFailed |>) else invalid
  | GoalCancel reason =>
      if valid_reference reason then Ok (next <| goal_state := GoalCancelled |>) else invalid
  | GoalRevise definition =>
      if (def_goal_id definition =? def_goal_id (goal_definition self))%string
      then Ok (next <| goal_definition := definition |> <| goal_state := GoalDraft |>
                    <| terminal_evidence := [] |>)
      else invalid
  end.
