(* ===== verification/GoalTheorems.v ===== *)
(** * Theorems about Goals

    Definition admission and decoding, the narrowing order between parent and
    child definitions, and the lifecycle: refinement of a transition relation,
    contiguous revisions, evidence-backed success. *)

From S2P Require Import Prelude GoalTypes.

(** ** What the constructors admit *)

Definition scope_valid (s : GoalScopeV1) : Prop :=
  (forall v, scope_session_id s = Some v -> valid_reference v = true) /\
  Z.of_nat (size (workspace_capability_ids s)) <= MAX_COLLECTION_ITEMS /\
  (forall v, v ∈ workspace_capability_ids s -> valid_reference v = true) /\
  (scope_session_id s ≠ None \/ workspace_capability_ids s ≠ ∅).

Definition bounds_valid (b : GoalBoundsV1) : Prop :=
  goal_max_attempts b ≠ 0 /\ max_plan_revisions b ≠ 0 /\ max_child_goals b ≠ 0 /\
  goal_token_budget b ≠ Some 0 /\ goal_duration_budget_ms b ≠ Some 0.

Record goal_valid (d : GoalDefinitionV1) : Prop := {
  gv_contract : goal_contract d = GOAL_DEFINITION_CONTRACT /\ goal_version d = GOAL_CONTRACT_VERSION;
  gv_text : def_goal_id d ≠ "" /\ goal_objective d ≠ "" /\ str_len (goal_objective d) <= MAX_OBJECTIVE_BYTES;
  gv_criteria : criteria d ≠ [] /\ Z.of_nat (length (criteria d)) <= MAX_COLLECTION_ITEMS /\
    NoDup (criterion_id <$> criteria d) /\
    forall c, c ∈ criteria d -> GoalCriterion_validate c = true;
  gv_capabilities : Z.of_nat (size (capability_references d)) <= MAX_COLLECTION_ITEMS /\
    forall c, c ∈ capability_references d -> gc_name c ≠ "" /\ gc_exact_revision c ≠ "";
  gv_parent : parent_goal_id d ≠ Some "" /\ parent_goal_id d ≠ Some (def_goal_id d);
  gv_scope : scope_valid (goal_scope d);
  gv_bounds : bounds_valid (goal_bounds d);
}.

Lemma scope_new_ok session values s :
  GoalScopeV1_new session values = Ok s <->
  s = mkGoalScope session (list_to_set values) /\ NoDup values /\ scope_valid s.
Proof.
  unfold GoalScopeV1_new, scope_valid. split.
  - intros H. split_match_in H. simplify_eq. simpl. bool_hyps.
    rewrite Nat.eqb_eq in *.
    assert (Hnd : NoDup values) by by apply size_list_to_set_nodup.
    split_and!; auto; [by intros v ->; simpl in *; bool_hyps|rewrite size_list_to_set by done; lia|..].
    + intros v Hv%elem_of_list_to_set.
      match goal with H : existsb _ _ = false |- _ => rewrite existsb_false in H; specialize (H v Hv) end.
      by bool_hyps.
    + destruct session; [by left|right]. simpl in *. by bool_hyps.
  - intros (-> & Hnd & Hs & Hsz & Hv & Hne). simpl in *.
    match goal with |- (if ?b then _ else _) = _ => destruct b eqn:E end; [exfalso|done].
    apply not_false_iff_true in E. apply E. rewrite !orb_false_iff.
    rewrite size_list_to_set in * by done. split_and!.
    + destruct session; simpl; [|done]. by rewrite Hs.
    + by apply Z.ltb_ge.
    + apply existsb_false. intros v Hin. rewrite Hv; [done|]. by apply elem_of_list_to_set.
    + by rewrite Nat.eqb_refl.
    + destruct session; simpl; [done|]. destruct Hne as [|Hne]; [done|]. by case_bool_decide.
Qed.

Lemma bounds_new_ok a p c t du b :
  GoalBoundsV1_new a p c t du = Ok b <-> b = mkGoalBounds a p c t du /\ bounds_valid b.
Proof.
  unfold GoalBoundsV1_new, bounds_valid. split.
  - intros H. split_match_in H. simplify_eq. simpl. by bool_hyps.
  - intros (-> & ? & ? & ? & ? & ?). simpl in *. rewrite !(proj2 (Z.eqb_neq _ _)) by done.
    by rewrite !bool_decide_eq_false_2.
Qed.

Lemma goal_definition_new_ok id objective crit scope bounds parent caps d :
  GoalDefinitionV1_new id objective crit scope bounds parent caps = Ok d ->
  scope_valid scope -> bounds_valid bounds ->
  d = mkGoalDefinition GOAL_DEFINITION_CONTRACT GOAL_CONTRACT_VERSION id objective crit scope bounds
        parent (list_to_set caps) /\ NoDup caps /\ goal_valid d.
Proof.
  unfold GoalDefinitionV1_new. intros H Hs Hb. split_match_in H. simplify_eq. bool_hyps.
  rewrite Nat.eqb_eq in *.
  assert (Hnd : NoDup caps) by by apply size_list_to_set_nodup.
  split_and!; [done..|]. constructor; simpl; auto.
  - rewrite !str_is_empty_false in *. auto.
  - split_and!; auto.
    + apply size_list_to_set_nodup. by rewrite length_fmap.
    + intros c Hc. match goal with H : existsb _ crit = false |- _ => rewrite existsb_false in H; specialize (H c Hc) end.
      by bool_hyps.
  - rewrite size_list_to_set by done. split; [lia|]. intros c Hc%elem_of_list_to_set.
    match goal with H : existsb _ caps = false |- _ => rewrite existsb_false in H; specialize (H c Hc) end.
    by rewrite orb_false_iff, !str_is_empty_false in *.
  - split; [|done]. intros ->. done.
Qed.

Lemma goal_definition_new_valid d caps :
  goal_valid d -> lists_set caps (capability_references d) ->
  GoalDefinitionV1_new (def_goal_id d) (goal_objective d) (criteria d) (goal_scope d) (goal_bounds d)
    (parent_goal_id d) caps = Ok d.
Proof.
  intros [[Hc Hv] (Hid & Hob & Hlen) (Hne & Hcl & Hnd & Hcv) (Hcs & Hce) [Hp Hself] _ _] [Hndc Hset].
  unfold GoalDefinitionV1_new.
  match goal with |- (if ?b then _ else _) = _ => destruct b eqn:E end.
  - exfalso. apply not_false_iff_true in E. apply E. rewrite !orb_false_iff, !str_is_empty_false, !existsb_false.
    rewrite (proj2 (size_list_to_set_nodup _) Hnd), length_fmap, (proj2 (size_list_to_set_nodup _) Hndc).
    rewrite <-Hset, size_list_to_set in Hcs by done.
    rewrite !Nat.eqb_refl, !bool_decide_eq_false, !Z.ltb_ge. split_and!; auto.
    + intros c Hin. by rewrite Hcv.
    + intros c Hin. rewrite orb_false_iff, !str_is_empty_false. apply Hce. set_solver.
    + destruct (parent_goal_id d); [|done]. apply str_is_empty_false. congruence.
  - rewrite Hset, <-Hc, <-Hv. by destruct d.
Qed.

(** ** Canonical documents *)

(** [goal_raw_of r d]: [r] carries the serialized fields of [d]. *)
Definition goal_raw_of (r : RawGoalDefinitionV1) (d : GoalDefinitionV1) : Prop :=
  raw_goal_contract r = goal_contract d /\ raw_goal_version r = goal_version d /\
  raw_def_goal_id r = def_goal_id d /\ raw_goal_objective r = goal_objective d /\
  raw_criteria r = criteria d /\ raw_goal_scope r = goal_scope d /\
  raw_goal_bounds r = goal_bounds d /\ raw_parent_goal_id r = parent_goal_id d /\
  lists_set (raw_capability_references r) (capability_references d).

(** Documented behaviour of serde: reading a written document gives its fields. *)
Definition goal_serde_law (raw_from_str : string -> option RawGoalDefinitionV1)
    (jcs_to_string : GoalDefinitionV1 -> option string) : Prop :=
  forall d json, jcs_to_string d = Some json ->
    exists raw, raw_from_str json = Some raw /\ goal_raw_of raw d.

Lemma scope_new_elements s : scope_valid s ->
  GoalScopeV1_new (scope_session_id s) (elements (workspace_capability_ids s)) = Ok s.
Proof.
  intros Hs. apply scope_new_ok. split_and!; [|apply NoDup_elements|done].
  rewrite list_to_set_elements_L. by destruct s.
Qed.

Lemma bounds_new_fields b : bounds_valid b ->
  GoalBoundsV1_new (goal_max_attempts b) (max_plan_revisions b) (max_child_goals b)
    (goal_token_budget b) (goal_duration_budget_ms b) = Ok b.
Proof. intros Hb. apply bounds_new_ok. split; [by destruct b|done]. Qed.

Lemma goal_decode_valid raw_from_str jcs json d :
  goal_from_canonical_json raw_from_str jcs json = Ok d ->
  goal_canonical_json jcs d = Ok json /\ goal_valid d.
Proof.
  unfold goal_from_canonical_json. intros H.
  destruct (ok_or _ _) as [raw|]; [|done]. destruct (_ || _); [done|].
  destruct (GoalScopeV1_new _ _) as [sc|] eqn:Es; [|done].
  destruct (GoalBoundsV1_new _ _ _ _ _) as [bo|] eqn:Eb; [|done].
  destruct (GoalDefinitionV1_new _ _ _ _ _ _ _) as [v|] eqn:Ed; [|done].
  destruct (goal_canonical_json _ _) as [j|] eqn:Ej; [|done].
  destruct (negb _) eqn:En; [done|]. bool_hyps. simplify_eq. split; [done|].
  apply scope_new_ok in Es as (_ & _ & Hs). apply bounds_new_ok in Eb as [_ Hb].
  by apply (goal_definition_new_ok _ _ _ _ _ _ _ _ Ed Hs Hb).
Qed.

Lemma goal_decode_encoded raw_from_str jcs d json :
  goal_serde_law raw_from_str jcs -> goal_valid d -> goal_canonical_json jcs d = Ok json ->
  goal_from_canonical_json raw_from_str jcs json = Ok d.
Proof.
  intros Hlaw Hv Hj. unfold goal_from_canonical_json. pose proof Hj as Hj'. apply ok_or_ok in Hj'.
  destruct (Hlaw _ _ Hj') as (raw & Hraw & Hof). rewrite Hraw. simpl.
  destruct Hof as (-> & -> & -> & -> & -> & -> & -> & -> & Hcaps). pose proof (gv_contract d Hv) as [-> ->].
  rewrite (scope_new_elements _ (gv_scope d Hv)), (bounds_new_fields _ (gv_bounds d Hv)),
    (goal_definition_new_valid d _ Hv Hcaps), Hj, !String.eqb_refl. done.
Qed.

(** ** Narrowing *)

Definition narrows (child parent : GoalDefinitionV1) : Prop :=
  GoalScopeV1_is_within (goal_scope child) (goal_scope parent) = true /\
  GoalBoundsV1_is_within (goal_bounds child) (goal_bounds parent) = true /\
  capability_references child ⊆ capability_references parent.

Lemma validate_child_of_ok child parent :
  validate_child_of child parent = Ok tt <->
  parent_goal_id child = Some (def_goal_id parent) /\ narrows child parent.
Proof.
  unfold validate_child_of, narrows. split.
  - intros H. split_match_in H. by bool_hyps.
  - intros (Hp & -> & -> & Hc). by rewrite !bool_decide_eq_true_2.
Qed.

Lemma optional_bound_within_trans a b c :
  optional_bound_within a b = true -> optional_bound_within b c = true ->
  optional_bound_within a c = true.
Proof. destruct a, b, c; simpl; try done; rewrite ?Z.leb_le; lia. Qed.

#[export] Instance narrows_preorder : PreOrder narrows.
Proof.
  unfold narrows, GoalScopeV1_is_within, GoalBoundsV1_is_within. split.
  - intros d. rewrite !Z.leb_refl, !bool_decide_eq_true_2, orb_true_r by done. simpl.
    split_and!; auto. destruct (goal_token_budget _), (goal_duration_budget_ms _); simpl; by rewrite ?Z.leb_refl.
  - intros a b c. rewrite !andb_true_iff, !orb_true_iff, !Z.leb_le, !bool_decide_eq_true.
    intros ([Hs1 Hw1] & [[[[]]] Hd1] & Hc1) ([Hs2 Hw2] & [[[[]]] Hd2] & Hc2).
    split_and!; try lia; eauto using optional_bound_within_trans; [|by etrans|by etrans].
    destruct Hs1 as [Hs1|Hs1]; [by left|]. rewrite Hs1. destruct Hs2 as [Hs2|Hs2]; auto.
Qed.

(** ** Evidence *)

Definition criterion_key (c : GoalCriterion) := (criterion_id c, criterion_kind c).
Definition evidence_key (e : GoalEvidenceV1) := (evidence_criterion_id e, evidence_kind e).

(** Exactly one evidence of the right family per criterion, under distinct
    evidence identities. *)
Definition evidence_complete (crit : list GoalCriterion) (ev : list GoalEvidenceV1) : Prop :=
  evidence_key <$> ev ≡ₚ criterion_key <$> crit /\ NoDup (evidence_id <$> ev).

Lemma collect_by_app {A} (key : A -> string) l x :
  collect_by key (l ++ [x]) = <[key x := x]> (collect_by key l).
Proof. unfold collect_by. by rewrite foldl_app. Qed.

Lemma collect_by_lookup {A} (key : A -> string) l k x :
  collect_by key l !! k = Some x -> x ∈ l /\ key x = k.
Proof.
  induction l as [|y l IH] using rev_ind; [done|]. rewrite collect_by_app.
  intros [[<- <-]|[_ H]]%lookup_insert_Some; [set_solver|]. apply IH in H as [? <-]. set_solver.
Qed.

Lemma collect_by_nodup {A} (key : A -> string) l x :
  NoDup (key <$> l) -> x ∈ l -> collect_by key l !! key x = Some x.
Proof.
  induction l as [|y l IH] using rev_ind; [set_solver|]. rewrite fmap_app, NoDup_app, collect_by_app.
  intros (Hnd & Hdis & _) [Hin|Hin%list_elem_of_singleton]%elem_of_app; [|by rewrite Hin, lookup_insert_eq].
  rewrite lookup_insert_ne; [by apply IH|]. intros Heq. apply (Hdis (key x)).
  - apply list_elem_of_fmap. eauto.
  - rewrite <-Heq. set_solver.
Qed.

Lemma collect_by_dom {A} (key : A -> string) l : dom (collect_by key l) = list_to_set (key <$> l).
Proof.
  induction l as [|y l IH] using rev_ind; [done|].
  rewrite collect_by_app, dom_insert_L, IH, fmap_app, list_to_set_app_L. set_solver.
Qed.

Lemma collect_by_size {A} (key : A -> string) l :
  size (collect_by key l) = length l <-> NoDup (key <$> l).
Proof. by rewrite <-size_dom, collect_by_dom, <-size_list_to_set_nodup, length_fmap. Qed.

Lemma key_nodup crit : NoDup (criterion_id <$> crit) -> NoDup (criterion_key <$> crit).
Proof.
  intros Hnd. apply (NoDup_fmap_1 fst). by rewrite <-list_fmap_compose.
Qed.

Lemma validate_evidence_ok crit ev :
  NoDup (criterion_id <$> crit) ->
  validate_evidence crit ev = Ok tt <-> evidence_complete crit ev.
Proof.
  intros Hnd. unfold validate_evidence, evidence_complete.
  match goal with |- (if ?b then _ else _) = _ <-> _ => destruct b eqn:Eb end.
  - split; [done|]. intros [Hp Hids]. exfalso. apply not_false_iff_true in Eb. apply Eb.
    assert (Hc : NoDup (evidence_criterion_id <$> ev)).
    { apply (fmap_Permutation fst) in Hp. rewrite <-!list_fmap_compose in Hp. by rewrite Hp. }
    pose proof (Permutation_length Hp) as Hlen. rewrite !length_fmap in Hlen.
    rewrite !orb_false_iff, !negb_false_iff, !Nat.eqb_eq, !collect_by_size, existsb_false.
    split_and!; auto. intros c Hin.
    assert (Hk : criterion_key c ∈ evidence_key <$> ev) by (rewrite Hp; apply list_elem_of_fmap; eauto).
    apply list_elem_of_fmap in Hk as (e & He & Hin'). injection He as -> Hkind.
    rewrite collect_by_nodup by done. simpl. by rewrite bool_decide_eq_true_2.
  - split; [intros _|done].
    rewrite !orb_false_iff, !negb_false_iff, !Nat.eqb_eq, !collect_by_size, existsb_false in Eb.
    destruct Eb as [[[_ Hids] Hlen] Hk]. split; [|done]. symmetry.
    apply submseteq_length_Permutation; [|rewrite !length_fmap; lia].
    apply NoDup_submseteq; [by apply key_nodup|].
    intros k (c & -> & Hin)%list_elem_of_fmap.
    specialize (Hk c Hin). destruct (_ !! criterion_id c) as [e|] eqn:El; [|done]. simpl in *. bool_hyps.
    apply collect_by_lookup in El as [He Hid]. apply list_elem_of_fmap. exists e.
    split; [|done]. unfold evidence_key, criterion_key. congruence.
Qed.

(** ** Lifecycle *)

(** The admitted edges, with the definition, state and evidence they lead to. *)
Inductive goal_edge (s : GoalSnapshot) :
    GoalTransition -> GoalDefinitionV1 -> GoalState -> list GoalEvidenceV1 -> Prop :=
  | edge_activate :
      goal_state s = GoalDraft \/ goal_state s = GoalSuspended ->
      goal_edge s GoalActivate (goal_definition s) GoalActive (terminal_evidence s)
  | edge_suspend reason :
      goal_state s = GoalActive -> valid_reference reason = true ->
      goal_edge s (GoalSuspend reason) (goal_definition s) GoalSuspended (terminal_evidence s)
  | edge_succeed ev :
      goal_state s = GoalActive -> evidence_complete (criteria (goal_definition s)) ev ->
      goal_edge s (GoalSucceed ev) (goal_definition s) GoalSucceeded ev
  | edge_fail reason :
      goal_state s = GoalActive \/ goal_state s = GoalSuspended -> valid_reference reason = true ->
      goal_edge s (GoalFail reason) (goal_definition s) GoalFailed (terminal_evidence s)
  | edge_cancel reason :
      valid_reference reason = true ->
      goal_edge s (GoalCancel reason) (goal_definition s) GoalCancelled (terminal_evidence s)
  | edge_revise d :
      def_goal_id d = def_goal_id (goal_definition s) ->
      goal_edge s (GoalRevise d) d GoalDraft [].

Definition goal_step (s : GoalSnapshot) (expected : Z) (t : GoalTransition) (s' : GoalSnapshot) : Prop :=
  expected = goal_snapshot_revision s /\ GoalState_is_terminal (goal_state s) = false /\
  goal_snapshot_revision s' = goal_snapshot_revision s + 1 /\
  is_u64 (goal_snapshot_revision s') /\
  goal_edge s t (goal_definition s') (goal_state s') (terminal_evidence s').

Lemma goal_apply_is_step s expected t s' :
  NoDup (criterion_id <$> criteria (goal_definition s)) ->
  goal_apply s expected t = Ok s' <-> goal_step s expected t s'.
Proof.
  intros Hnd. unfold goal_apply, goal_step, checked_add. split.
  - intros H. destruct (negb _) eqn:E1; [done|]. destruct (GoalState_is_terminal _) eqn:E2; [done|].
    destruct (checked_u64 _) as [r|] eqn:E3; [|done]. simpl in H.
    apply checked_u64_some in E3 as [<- Hr]. bool_hyps.
    destruct t; repeat (split_match_in H || idtac); simplify_eq; simpl; bool_hyps;
      split_and!; auto; constructor; auto; try (repeat case_match; naive_solver).
    apply validate_evidence_ok; [done|]. by destruct a.
  - intros (-> & Hterm & Hrev & Hu & He). rewrite Z.eqb_refl, Hterm. simpl.
    rewrite Hrev in Hu. rewrite (proj2 (checked_u64_some _ _) (conj eq_refl Hu)). simpl.
    destruct s' as [d' r' st' ev']. simpl in *. subst r'.
    inversion He; subst; simpl;
      repeat match goal with
      | H : valid_reference _ = true |- _ => rewrite H
      | H : goal_state s = _ |- _ => rewrite H
      | H : _ \/ _ |- _ => destruct H
      | H : evidence_complete _ _ |- _ => apply validate_evidence_ok in H; [rewrite H|done]
      | H : def_goal_id _ = _ |- _ => rewrite H, String.eqb_refl
      end; done.
Qed.

(** A revision carries a definition its constructor admitted. *)
Definition transition_ok (t : GoalTransition) : Prop :=
  match t with GoalRevise d => goal_valid d | _ => True end.

Inductive goal_reachable : GoalSnapshot -> Prop :=
  | reach_new d : goal_valid d -> goal_reachable (GoalSnapshot_new d)
  | reach_apply s r t s' :
      goal_reachable s -> transition_ok t -> goal_apply s r t = Ok s' -> goal_reachable s'.

Record goal_inv (s : GoalSnapshot) : Prop := {
  gi_valid : goal_valid (goal_definition s);
  gi_revision : 1 <= goal_snapshot_revision s <= u64_max;
  gi_succeeded : goal_state s = GoalSucceeded ->
    evidence_complete (criteria (goal_definition s)) (terminal_evidence s);
  gi_open : goal_state s ≠ GoalSucceeded -> terminal_evidence s = [];
}.

Lemma goal_inv_step s r t s' :
  goal_inv s -> transition_ok t -> goal_apply s r t = Ok s' -> goal_inv s'.
Proof.
  intros [Hv Hr Hs Ho] Ht H. apply goal_apply_is_step in H; [|apply (gv_criteria _ Hv)].
  destruct H as (-> & Hterm & Hrev & [? ?] & He).
  destruct s' as [d' r' st' ev']; simpl in *; inversion He; subst; constructor; simpl in *; try done; try lia;
    intros; apply Ho; intros Heq; by rewrite Heq in Hterm.
Qed.

Lemma goal_reachable_inv s : goal_reachable s -> goal_inv s.
Proof.
  induction 1 as [d Hd|s r t s' _ IH Ht Ha]; [|eauto using goal_inv_step].
  by constructor; simpl.
Qed.

(** Commands in order, each with the revision its author had read. *)
Fixpoint goal_run (s : GoalSnapshot) (commands : list (Z * GoalTransition))
    : result GoalError GoalSnapshot :=
  match commands with
  | [] => Ok s
  | (r, t) :: commands => let? s' := goal_apply s r t in goal_run s' commands
  end.

Lemma goal_apply_revision s r t s' :
  goal_apply s r t = Ok s' ->
  r = goal_snapshot_revision s /\ goal_snapshot_revision s' = goal_snapshot_revision s + 1.
Proof.
  unfold goal_apply, checked_add. intros H. destruct (negb _) eqn:E1; [done|].
  destruct (GoalState_is_terminal _); [done|]. destruct (checked_u64 _) as [n|] eqn:E3; [|done].
  apply checked_u64_some in E3 as [<- _]. bool_hyps. simpl in H.
  destruct t; repeat (split_match_in H || idtac); by simplify_eq.
Qed.

Lemma goal_run_revisions s commands s' :
  goal_run s commands = Ok s' ->
  commands.*1 = (fun i => goal_snapshot_revision s + Z.of_nat i) <$> seq 0 (length commands) /\
  goal_snapshot_revision s' = goal_snapshot_revision s + Z.of_nat (length commands).
Proof.
  revert s. induction commands as [|[r t] commands IH]; intros s; csimpl; [intros; simplify_eq; split; [done|lia]|].
  destruct (goal_apply s r t) as [s1|] eqn:E; [|done]. apply goal_apply_revision in E as [-> Hr].
  intros [Hc Hs]%IH. rewrite Hc, Hs, Hr. split; [|lia]. f_equal; [lia|].
  rewrite <-fmap_S_seq, <-list_fmap_compose. apply list_fmap_ext. intros i x _. simpl. lia.
Qed.

(** ** The theorems *)

(** From a reachable Goal a transition is accepted exactly when the abstract Goal machine has
    that step. *)
Theorem goal_apply_refines_lifecycle s expected t s' :
  goal_reachable s -> goal_apply s expected t = Ok s' <-> goal_step s expected t s'.
Proof.
  intros Hr%goal_reachable_inv. apply goal_apply_is_step, (gv_criteria _ (gi_valid s Hr)).
Qed.

(** C38: A succeeded Goal holds evidence that covers each criterion once with the right kind, no
    other Goal holds evidence, and a terminal Goal refuses every transition. *)
Theorem goal_success_is_evidenced s :
  goal_reachable s ->
  (goal_state s = GoalSucceeded ->
     evidence_complete (criteria (goal_definition s)) (terminal_evidence s)) /\
  (goal_state s ≠ GoalSucceeded -> terminal_evidence s = []) /\
  (GoalState_is_terminal (goal_state s) = true -> forall r t, exists e, goal_apply s r t = Err e).
Proof.
  intros [Hv Hr Hs Ho]%goal_reachable_inv. split_and!; [done..|].
  intros Hterm r t. unfold goal_apply. rewrite Hterm. destruct (negb _); eauto.
Qed.

(** An accepted run used the expected revisions 1, 2, 3, ...; the snapshot is at the next
    one, and any command that reuses an earlier revision conflicts. *)
Theorem goal_revisions_contiguous d commands s :
  goal_run (GoalSnapshot_new d) commands = Ok s ->
  commands.*1 = (fun i => 1 + Z.of_nat i) <$> seq 0 (length commands) /\
  goal_snapshot_revision s = 1 + Z.of_nat (length commands) /\
  (forall r t, r ∈ commands.*1 -> goal_apply s r t = Err GoalRevisionConflict).
Proof.
  intros [Hc Hs]%goal_run_revisions. simpl in *. split_and!; [done..|].
  intros r t. rewrite Hc. intros (i & -> & Hi%elem_of_seq)%list_elem_of_fmap.
  unfold goal_apply. rewrite Hs. rewrite (proj2 (Z.eqb_neq _ _)) by lia. done.
Qed.

(** Along any chain of accepted parent links capabilities, workspace scope, session, token
    budget and attempts only narrow. *)
Theorem goal_descendants_narrow child ancestor :
  rtc (fun c p => validate_child_of c p = Ok tt) child ancestor ->
  capability_references child ⊆ capability_references ancestor /\
  workspace_capability_ids (goal_scope child) ⊆ workspace_capability_ids (goal_scope ancestor) /\
  (forall session, scope_session_id (goal_scope child) = Some session ->
     scope_session_id (goal_scope ancestor) = Some session) /\
  (forall budget, goal_token_budget (goal_bounds ancestor) = Some budget ->
     exists b, goal_token_budget (goal_bounds child) = Some b /\ b <= budget) /\
  goal_max_attempts (goal_bounds child) <= goal_max_attempts (goal_bounds ancestor).
Proof.
  intros Hr. assert (Hn : narrows child ancestor).
  { induction Hr as [d|c p a Hcp _ IH]; [done|]. apply validate_child_of_ok in Hcp as [_ Hn]. by etrans. }
  destruct Hn as (Hs & Hb & Hc). unfold GoalScopeV1_is_within, GoalBoundsV1_is_within in *. bool_hyps.
  split_and!; auto.
  - intros session Hcs. rewrite Hcs in *. simpl in *. by bool_hyps.
  - intros budget Hbud. rewrite Hbud in *.
    destruct (goal_token_budget (goal_bounds child)) as [b|]; simpl in *; [|done]. bool_hyps. eauto.
Qed.

(** The Goal decoder accepts a text exactly when it is the canonical text of a valid
    definition, and then returns that definition. *)
Theorem goal_document_exact raw_from_str jcs_to_string json d :
  goal_serde_law raw_from_str jcs_to_string ->
  goal_from_canonical_json raw_from_str jcs_to_string json = Ok d <->
  goal_canonical_json jcs_to_string d = Ok json /\ goal_valid d.
Proof. intros Hlaw. split; [apply goal_decode_valid|intros []; by apply goal_decode_encoded]. Qed.

(** The Goal decoder returns definitions whose goal id is longer than the constructor of ids
    accepts. *)
Theorem goal_decode_admits_oversized_identity raw_from_str jcs_to_string json d :
  goal_serde_law raw_from_str jcs_to_string ->
  goal_valid d -> goal_canonical_json jcs_to_string d = Ok json ->
  MAX_ID_BYTES < str_len (def_goal_id d) ->
  goal_from_canonical_json raw_from_str jcs_to_string json = Ok d /\
  goal_identity_new (def_goal_id d) = Err GoalInvalid.
Proof.
  intros Hlaw Hv Hj Hlen. split; [by apply goal_decode_encoded|].
  unfold goal_identity_new. rewrite (proj2 (Z.ltb_lt _ _) Hlen). by rewrite orb_true_r.
Qed.

Definition evidence_valid (e : GoalEvidenceV1) : Prop :=
  valid_reference (durable_reference e) = true /\ valid_digest (evidence_digest e) = true /\
  observed_at_commit_version e ≠ 0.

Lemma evidence_new_ok e e' :
  GoalEvidenceV1_new (evidence_id e) (evidence_criterion_id e) (evidence_kind e)
    (durable_reference e) (evidence_digest e) (observed_at_commit_version e) = Ok e' <->
  e = e' /\ evidence_valid e'.
Proof.
  unfold GoalEvidenceV1_new, evidence_valid. destruct e as [i c k r g o]. simpl. split.
  - intros H. split_match_in H. simplify_eq. by bool_hyps.
  - intros (<- & Hr & Hd & Hn). simpl in *. by rewrite Hr, Hd, (proj2 (Z.eqb_neq _ _) Hn).
Qed.

(** The evidence decoder accepts a text exactly when it is the canonical text of a list of
    valid evidence, and then returns that list. *)
Lemma goal_evidence_document_exact from_str jcs_to_string json l :
  (forall values json, jcs_to_string values = Some json -> from_str json = Some values) ->
  list_from_canonical_json from_str jcs_to_string json = Ok l <->
  evidence_canonical_json jcs_to_string l = Ok json /\ Forall evidence_valid l.
Proof.
  intros Hlaw. unfold list_from_canonical_json. split.
  - intros H. destruct (ok_or _ _) as [raw|]; [|done]. destruct (try_map _ _) as [vs|] eqn:Em; [|done].
    destruct (evidence_canonical_json _ vs) eqn:Ej; [|done].
    destruct (negb _) eqn:En; [done|]. bool_hyps. simplify_eq. split; [done|].
    apply try_map_ok in Em. clear -Em. induction Em as [|e e' raw l He _ IH]; constructor; [|done].
    by apply evidence_new_ok in He as [_ ?].
  - intros [Hj Hv]. pose proof Hj as Hj'. unfold evidence_canonical_json in Hj'.
    destruct (_ <? _); [done|]. apply ok_or_ok in Hj'. rewrite (Hlaw _ _ Hj'). simpl.
    erewrite (proj2 (try_map_ok _ l l)); [by rewrite Hj, String.eqb_refl|].
    apply Forall_Forall2_diag. eapply Forall_impl; [exact Hv|]. intros e He. by apply evidence_new_ok.
Qed.

(** ** Witnesses *)

Module GoalSample.
Definition digest : string := "0123456789abcdef0123456789abcdef0123456789abcdef0123456789abcdef".
Definition long_id : string :=
  digest +:+ digest +:+ digest +:+ digest +:+ "x".
Definition goal (id : string) (parent : option string) (tokens : Z) : GoalDefinitionV1 :=
  mkGoalDefinition GOAL_DEFINITION_CONTRACT GOAL_CONTRACT_VERSION id "objective"
    [Artifact "c1" "report" None; UserAcceptance "c2" digest]
    (mkGoalScope (Some "s") {["w"]}) (mkGoalBounds 2 2 2 (Some tokens) None) parent
    {[mkGoalCapability "tool" "1"]}.
Definition ev (id c : string) (k : GoalEvidenceKind) : GoalEvidenceV1 :=
  mkGoalEvidence id c k "ref" digest 7.
Definition evidence : list GoalEvidenceV1 :=
  [ev "e2" "c2" EvUserAcceptance; ev "e1" "c1" EvArtifact].

Lemma goal_is_valid id parent tokens :
  id ≠ "" -> parent ≠ Some "" -> parent ≠ Some id -> tokens ≠ 0 -> goal_valid (goal id parent tokens).
Proof.
  intros Hid Hp1 Hp2 Ht. constructor; simpl; [done|done| | |done| |].
  - split_and!; [done|done| |].
    + apply (bool_decide_unpack (NoDup _)). by vm_compute.
    + by intros c [->|[->|?]%elem_of_cons]%elem_of_cons; [..|set_solver].
  - split; [by vm_compute|]. by intros c ->%elem_of_singleton.
  - split_and!; simpl; [by intros v [= <-]|by vm_compute| |by left].
    by intros v ->%elem_of_singleton.
  - split_and!; simpl; congruence.
Qed.

Definition run_of (commands : list (Z * GoalTransition)) : GoalSnapshot :=
  match goal_run (GoalSnapshot_new (goal "g" None 5)) commands with
  | Ok s => s | Err _ => GoalSnapshot_new (goal "g" None 5)
  end.

Lemma goal_sample_run_reachable s commands s' :
  goal_reachable s -> Forall (fun c => transition_ok c.2) commands ->
  goal_run s commands = Ok s' -> goal_reachable s'.
Proof.
  intros Hr Hf. revert s Hr. induction Hf as [|[r t] l Ht _ IH]; simpl; intros s Hr H; [by simplify_eq|].
  destruct (goal_apply s r t) eqn:E; [|done]. eauto using reach_apply.
Qed.

Definition commands : list (Z * GoalTransition) := [(1, GoalActivate); (2, GoalSucceed evidence)].
Lemma sample_reachable : goal_reachable (run_of commands).
Proof.
  apply (goal_sample_run_reachable (GoalSnapshot_new (goal "g" None 5)) commands).
  - apply reach_new. by apply goal_is_valid.
  - by repeat constructor.
  - by vm_compute.
Qed.

(** A one-document serde for the decoder's parameters. *)
Definition jcs (d0 d : GoalDefinitionV1) : option string :=
  if decide (d = d0) then Some "doc" else None.
Definition raw_fields (d : GoalDefinitionV1) : RawGoalDefinitionV1 :=
  mkRawGoalDefinition (goal_contract d) (goal_version d) (def_goal_id d) (goal_objective d)
    (criteria d) (goal_scope d) (goal_bounds d) (parent_goal_id d)
    (elements (capability_references d)).
Definition parse (d : GoalDefinitionV1) (s : string) : option RawGoalDefinitionV1 :=
  if (s =? "doc")%string then Some (raw_fields d) else None.
Lemma serde_holds d : goal_serde_law (parse d) (jcs d).
Proof.
  intros d' json. unfold jcs. case_decide; [|done]. intros [= <-]. subst. exists (raw_fields d).
  split; [done|]. split_and!; try done. unfold raw_fields. simpl.
  split; [apply NoDup_elements|apply list_to_set_elements_L].
Qed.
End GoalSample.

Lemma goal_apply_refines_lifecycle_witness :
  goal_step (GoalSnapshot_new (GoalSample.goal "g" None 5)) 1 GoalActivate
    (GoalSample.run_of [(1, GoalActivate)]).
Proof.
  apply (goal_apply_refines_lifecycle (GoalSnapshot_new (GoalSample.goal "g" None 5))).
  - apply reach_new. by apply GoalSample.goal_is_valid.
  - by vm_compute.
Defined.

Lemma goal_success_is_evidenced_witness :
  evidence_complete (criteria (GoalSample.goal "g" None 5)) GoalSample.evidence.
Proof.
  apply (goal_success_is_evidenced (GoalSample.run_of GoalSample.commands)).
  - apply GoalSample.sample_reachable.
  - by vm_compute.
Defined.

Lemma goal_revisions_contiguous_witness :
  goal_snapshot_revision (GoalSample.run_of GoalSample.commands) = 3.
Proof.
  apply (goal_revisions_contiguous (GoalSample.goal "g" None 5) GoalSample.commands).
  by vm_compute.
Defined.

Lemma goal_descendants_narrow_witness :
  exists b, goal_token_budget (goal_bounds (GoalSample.goal "c" (Some "g") 3)) = Some b /\ b <= 5.
Proof.
  apply (goal_descendants_narrow (GoalSample.goal "c" (Some "g") 3) (GoalSample.goal "g" None 5)).
  - apply rtc_once. by vm_compute.
  - done.
Defined.

Lemma goal_document_exact_witness :
  goal_from_canonical_json (GoalSample.parse (GoalSample.goal "g" None 5))
    (GoalSample.jcs (GoalSample.goal "g" None 5)) "doc" = Ok (GoalSample.goal "g" None 5).
Proof.
  apply goal_document_exact; [apply GoalSample.serde_holds|]. split.
  - unfold goal_canonical_json, GoalSample.jcs. by rewrite decide_True.
  - by apply GoalSample.goal_is_valid.
Defined.

Lemma goal_decode_admits_oversized_identity_witness :
  let d := GoalSample.goal GoalSample.long_id None 5 in
  goal_from_canonical_json (GoalSample.parse d) (GoalSample.jcs d) "doc" = Ok d /\
  goal_identity_new (def_goal_id d) = Err GoalInvalid.
Proof.
  apply goal_decode_admits_oversized_identity.
  - apply GoalSample.serde_holds.
  - by apply GoalSample.goal_is_valid.
  - unfold goal_canonical_json, GoalSample.jcs. by rewrite decide_True.
  - by vm_compute.
Defined.

(** The hypothesis holds for a reader and writer of one document. *)
Example goal_evidence_document_sample :
  list_from_canonical_json (fun s => if (s =? "doc")%string then Some GoalSample.evidence else None)
    (fun l => if decide (l = GoalSample.evidence) then Some "doc" else None) "doc"
  = Ok GoalSample.evidence.
Proof.
  apply goal_evidence_document_exact.
  - intros values json. case_decide; [|done]. intros [= <-]. by subst.
  - split; [unfold evidence_canonical_json; by rewrite decide_True|].
    by repeat constructor.
Qed.
