(* ===== verification/Json.v ===== *)
(** * JSON values and canonical payloads ([engine/ledger/src/canonical.rs])

    [serde_json::Value] with its accessors, the canonical encoder of the ledger,
    and [CanonicalPayload].  An object is the key-sorted entry list of the
    [BTreeMap] that backs [serde_json::Map]; a string is the list of its UTF-8
    bytes, which is enough for the encoder because every escaped character is a
    single byte.  SHA-256 and [serde_json::from_str] are the operations of the
    class [Externals]. *)

From Stdlib Require Import DecimalString DecimalN DecimalFacts.
From S2P Require Import Prelude.

(** [serde_json::Number]: non-negative, negative, or an opaque float. *)
Inductive Number :=
  | PosInt (n : Z)
  | NegInt (n : Z)
  | Float (bits : Z).

Inductive Value :=
  | Null
  | Bool (value : bool)
  | Num (value : Number)
  | Str (value : string)
  | Arr (values : list Value)
  | Obj (values : list (string * Value)).

(** [serde_json::Map<String, Value>], by its entries in key order. *)
Abbreviation Map := (list (string * Value)) (only parsing).

(** ** Accessors *)

Definition map_get (key : string) (m : Map) : option Value := assoc key m.
Definition contains_key (m : Map) (key : string) : bool := is_some (map_get key m).

Definition as_object (v : Value) : option Map := match v with Obj m => Some m | _ => None end.
Definition as_array (v : Value) : option (list Value) := match v with Arr l => Some l | _ => None end.
Definition as_str (v : Value) : option string := match v with Str s => Some s | _ => None end.
Definition as_bool (v : Value) : option bool := match v with Bool b => Some b | _ => None end.
Definition as_u64 (v : Value) : option Z := match v with Num (PosInt n) => Some n | _ => None end.
Definition is_null (v : Value) : bool := match v with Null => true | _ => false end.

(** [Value::get] on an arbitrary value. *)
Definition value_get (key : string) (v : Value) : option Value :=
  match v with Obj m => map_get key m | _ => None end.

(** ** Canonical encoding *)

Inductive CanonicalPayloadError :=
  | InvalidJson | UnsupportedNumber | NonCanonical | DigestMismatch.

#[export] Instance CanonicalPayloadError_eq_dec : EqDecision CanonicalPayloadError.
Proof. solve_decision. Defined.

Definition hex_digit (n : Z) : ascii :=
  ascii_of_N (Z.to_N (if n <? 10 then 48 + n else 87 + n)).

(** The escape of one byte; [\uXXXX] for the control characters without a name. *)
Definition encode_char (c : ascii) : string :=
  let code := byte_code c in
  if code =? 34 then "\" +:+ String c ""
  else if code =? 92 then "\\"
  else if code =? 8 then "\b"
  else if code =? 12 then "\f"
  else if code =? 10 then "\n"
  else if code =? 13 then "\r"
  else if code =? 9 then "\t"
  else if code <=? 31 then
    "\u00" +:+ String (hex_digit (code / 16)) (String (hex_digit (code mod 16)) "")
  else String c "".

Definition quote : ascii := ascii_of_N 34.

Fixpoint encode_chars (s : string) : string :=
  match s with
  | EmptyString => ""
  | String c s => encode_char c +:+ encode_chars s
  end.
Definition encode_string (value : string) : string :=
  String quote (encode_chars value +:+ String quote "").

(** [Number::to_string] for the integer variants. *)
Definition nat_to_string (n : Z) : string := NilZero.string_of_uint (N.to_uint (Z.to_N n)).
Definition number_to_string (n : Number) : option string :=
  match n with
  | PosInt n => Some (nat_to_string n)
  | NegInt n => Some ("-" +:+ nat_to_string (- n))
  | Float _ => None
  end.

(** The separator pushed before every element but the first. *)
Definition separator (index : nat) : string := if (index =? 0)%nat then "" else ",".

Fixpoint encode (value : Value) : result CanonicalPayloadError string :=
  match value with
  | Null => Ok "null"
  | Bool value => Ok (if value then "true" else "false")
  | Num value => ok_or (number_to_string value) UnsupportedNumber
  | Str value => Ok (encode_string value)
  | Arr values =>
      let fix elements (index : nat) (values : list Value) : result CanonicalPayloadError string :=
        match values with
        | [] => Ok "]"
        | value :: values =>
            let? head := encode value in
            let? tail := elements (S index) values in
            Ok (separator index +:+ head +:+ tail)
        end in
      let? body := elements 0%nat values in Ok ("[" +:+ body)
  | Obj values =>
      let fix members (index : nat) (values : list (string * Value))
          : result CanonicalPayloadError string :=
        match values with
        | [] => Ok "}"
        | (key, value) :: values =>
            let? head := encode value in
            let? tail := members (S index) values in
            Ok (separator index +:+ encode_string key +:+ ":" +:+ head +:+ tail)
        end in
      let? body := members 0%nat values in Ok ("{" +:+ body)
  end.

(** ** Externals and payloads *)

(** SHA-256 in lowercase hexadecimal, the JSON reader, and chrono's reading of an
    RFC 3339 timestamp as a UTC instant and its writing of one
    ([DateTime::parse_from_rfc3339] with [with_timezone(&Utc)], and
    [to_rfc3339_opts(SecondsFormat::AutoSi, true)]). *)
Class Externals := {
  sha256_hex : string -> string;
  json_from_str : string -> option Value;
  parse_rfc3339 : string -> option Z;
  to_rfc3339 : Z -> string;
}.

Definition is_rfc3339 `{Externals} (s : string) : bool := is_some (parse_rfc3339 s).

(** The crates repeat this check: an RFC 3339 text in the exact form chrono
    prints its UTC instant in. *)
Definition canonical_utc `{Externals} (value : string) : option Z :=
  match parse_rfc3339 value with
  | Some utc => if (to_rfc3339 utc =? value)%string then Some utc else None
  | None => None
  end.

Record CanonicalPayload := mkPayload {
  payload_json : string;
  payload_sha256 : string;
}.

#[export] Instance CanonicalPayload_eq_dec : EqDecision CanonicalPayload.
Proof. solve_decision. Defined.

Section payload.
Context `{Externals}.

Definition payload_from_value (value : Value) : result CanonicalPayloadError CanonicalPayload :=
  let? json := encode value in
  Ok (mkPayload json (sha256_hex json)).

Definition from_canonical_parts (json sha256 : string)
    : result CanonicalPayloadError CanonicalPayload :=
  let? value := ok_or (json_from_str json) InvalidJson in
  let? canonical := payload_from_value value in
  reject NonCanonical when negb (payload_json canonical =? json)%string;
  reject DigestMismatch when negb (payload_sha256 canonical =? sha256)%string;
  Ok canonical.

Definition payload_verify (self : CanonicalPayload) : result CanonicalPayloadError unit :=
  if (sha256_hex (payload_json self) =? payload_sha256 self)%string then Ok tt
  else Err DigestMismatch.
End payload.

(** ** Well-formed values *)

(** Strictly increasing keys, the order of a [BTreeMap]. *)
Fixpoint keys_sorted (keys : list string) : bool :=
  match keys with
  | k1 :: (k2 :: _) as rest => (k1 <? k2)%string && keys_sorted rest
  | _ => true
  end.

Definition number_wf (n : Number) : bool :=
  match n with
  | PosInt n => (0 <=? n) && (n <=? u64_max)
  | NegInt n => (i64_min <=? n) && (n <? 0)
  | Float _ => true
  end.

Fixpoint value_wf (v : Value) : bool :=
  match v with
  | Num n => number_wf n
  | Arr l => (fix all (l : list Value) := match l with [] => true | v :: l => value_wf v && all l end) l
  | Obj m =>
      keys_sorted m.*1
      && (fix all (m : list (string * Value)) :=
            match m with [] => true | (_, v) :: m => value_wf v && all m end) m
  | _ => true
  end.

(** Nesting depth; [serde_json::from_str] stops at 128 nested containers. *)
Fixpoint value_depth (v : Value) : nat :=
  match v with
  | Arr l => S ((fix deepest (l : list Value) :=
      match l with [] => O | v :: l => Nat.max (value_depth v) (deepest l) end) l)
  | Obj m => S ((fix deepest (m : list (string * Value)) :=
      match m with [] => O | (_, v) :: m => Nat.max (value_depth v) (deepest m) end) m)
  | _ => O
  end.

(** Documented behaviour of [serde_json::from_str]: it reads back the value
    that a canonical text was written from. *)
Class ExternalsLaws `{Externals} : Prop := {
  json_reads_canonical : forall v s,
    value_wf v = true -> (value_depth v < 128)%nat -> encode v = Ok s -> json_from_str s = Some v;
}.

(** [PartialEq] of values.  Floats of a [Value] are finite, so they are equal as
    [f64] when their bits agree or both are a zero of some sign. *)
Definition float_is_zero (bits : Z) : bool := (bits =? 0) || (bits =? 9223372036854775808).
Definition number_eqb (n m : Number) : bool :=
  match n, m with
  | PosInt a, PosInt b | NegInt a, NegInt b => a =? b
  | Float a, Float b => (a =? b) || (float_is_zero a && float_is_zero b)
  | _, _ => false
  end.
Fixpoint value_eqb (v w : Value) : bool :=
  match v, w with
  | Null, Null => true
  | Bool a, Bool b => Bool.eqb a b
  | Num a, Num b => number_eqb a b
  | Str a, Str b => (a =? b)%string
  | Arr l, Arr l' =>
      (fix all (l l' : list Value) : bool := match l, l' with
        | [], [] => true | v :: l, w :: l' => value_eqb v w && all l l' | _, _ => false end) l l'
  | Obj m, Obj m' =>
      (fix all (m m' : list (string * Value)) : bool := match m, m' with
        | [], [] => true
        | (k, v) :: m, (k', w) :: m' => (k =? k')%string && value_eqb v w && all m m'
        | _, _ => false end) m m'
  | _, _ => false
  end.
