(* ===== verification/JsonDecode.v ===== *)
(** * A reference reader for canonical JSON

    An executable reader of the texts the canonical encoder writes, with the
    round trip [decode (encode v) = v].  It shows that the encoder is injective
    (a payload digest binds one value) and it instantiates the JSON reader of
    [Externals] in the concrete examples of the development. *)

From Stdlib Require Import DecimalString DecimalN DecimalFacts.
From S2P Require Import Prelude Json.

#[local] Arguments String.append : simpl nomatch.

(** ** Reader *)

Fixpoint strip (p s : string) : option string :=
  match p, s with
  | EmptyString, _ => Some s
  | String a p, String b s => if Ascii.eqb a b then strip p s else None
  | _, _ => None
  end.

Definition unhex (c : ascii) : Z :=
  if byte_code c <? 58 then byte_code c - 48 else byte_code c - 87.

Definition unescape (c : ascii) : ascii :=
  let code := byte_code c in
  if code =? 98 then ascii_of_N 8 else if code =? 102 then ascii_of_N 12
  else if code =? 110 then ascii_of_N 10 else if code =? 114 then ascii_of_N 13
  else if code =? 116 then ascii_of_N 9 else c.

Definition cons_char (c : ascii) (p : option (string * string)) : option (string * string) :=
  match p with Some (v, r) => Some (String c v, r) | None => None end.

Fixpoint decode_chars (s : string) : option (string * string) :=
  match s with
  | EmptyString => None
  | String c s =>
      if byte_code c =? 34 then Some (EmptyString, s)
      else if byte_code c =? 92 then
        match s with
        | String e rest =>
            if byte_code e =? 117 then
              match rest with
              | String _ (String _ (String h1 (String h2 rest))) =>
                  cons_char (ascii_of_N (Z.to_N (unhex h1 * 16 + unhex h2))) (decode_chars rest)
              | _ => None
              end
            else cons_char (unescape e) (decode_chars rest)
        | EmptyString => None
        end
      else cons_char c (decode_chars s)
  end.

Fixpoint take_digits (s : string) : string * string :=
  match s with
  | String c s' =>
      if is_ascii_digit c then let '(d, r) := take_digits s' in (String c d, r) else ("", s)
  | EmptyString => ("", "")
  end.

Definition decode_nat (s : string) : option (Z * string) :=
  let '(d, r) := take_digits s in
  match NilZero.uint_of_string d with
  | Some u => Some (Z.of_N (N.of_uint u), r)
  | None => None
  end.

Fixpoint decode_value (fuel : nat) (s : string) : option (Value * string) :=
  match fuel, s with
  | S fuel, String c rest =>
      let fix elements (fuel : nat) (s : string) : option (list Value * string) :=
        match fuel with
        | O => None
        | S fuel' =>
            match decode_value fuel s with
            | Some (v, String c rest) =>
                if byte_code c =? 44 then
                  match elements fuel' rest with Some (l, r) => Some (v :: l, r) | None => None end
                else if byte_code c =? 93 then Some ([v], rest) else None
            | _ => None
            end
        end in
      let fix members (fuel : nat) (s : string) : option (list (string * Value) * string) :=
        match fuel, s with
        | S fuel', String _ s =>
            match decode_chars s with
            | Some (k, String _ s) =>
                match decode_value fuel s with
                | Some (v, String c rest) =>
                    if byte_code c =? 44 then
                      match members fuel' rest with Some (l, r) => Some ((k, v) :: l, r) | None => None end
                    else if byte_code c =? 125 then Some ([(k, v)], rest) else None
                | _ => None
                end
            | _ => None
            end
        | _, _ => None
        end in
      let code := byte_code c in
      if code =? 110 then match strip "ull" rest with Some r => Some (Null, r) | None => None end
      else if code =? 116 then match strip "rue" rest with Some r => Some (Bool true, r) | None => None end
      else if code =? 102 then match strip "alse" rest with Some r => Some (Bool false, r) | None => None end
      else if code =? 34 then
        match decode_chars rest with Some (v, r) => Some (Str v, r) | None => None end
      else if code =? 45 then
        match decode_nat rest with Some (n, r) => Some (Num (NegInt (- n)), r) | None => None end
      else if code =? 91 then
        match strip "]" rest with
        | Some r => Some (Arr [], r)
        | None => match elements fuel rest with Some (l, r) => Some (Arr l, r) | None => None end
        end
      else if code =? 123 then
        match strip "}" rest with
        | Some r => Some (Obj [], r)
        | None => match members fuel rest with Some (l, r) => Some (Obj l, r) | None => None end
        end
      else match decode_nat s with Some (n, r) => Some (Num (PosInt n), r) | None => None end
  | _, _ => None
  end.

Definition decode (s : string) : option Value :=
  match decode_value (S (String.length s)) s with
  | Some (v, EmptyString) => Some v
  | _ => None
  end.

(** ** Induction on nested values *)

Fixpoint value_ind (P : Value -> Prop)
    (HNull : P Null) (HBool : forall b, P (Bool b)) (HNum : forall n, P (Num n))
    (HStr : forall s, P (Str s)) (HArr : forall l, Forall P l -> P (Arr l))
    (HObj : forall m, Forall (fun kv => P kv.2) m -> P (Obj m)) (v : Value) : P v :=
  let rec := value_ind P HNull HBool HNum HStr HArr HObj in
  match v with
  | Null => HNull
  | Bool b => HBool b
  | Num n => HNum n
  | Str s => HStr s
  | Arr l => HArr l ((fix all (l : list Value) : Forall P l :=
      match l with [] => Forall_nil_2 P | v :: l => Forall_cons_2 P v l (rec v) (all l) end) l)
  | Obj m => HObj m ((fix all (m : list (string * Value)) : Forall (fun kv => P kv.2) m :=
      match m with
      | [] => Forall_nil_2 _
      | kv :: m => Forall_cons_2 (fun kv => P kv.2) kv m (rec kv.2) (all m)
      end) m)
  end.

(** The loops of the encoder and of the reader, named. *)

Definition encode_elements := fix elements (index : nat) (values : list Value) :=
  match values with
  | [] => Ok "]"
  | value :: values =>
      let? head := encode value in
      let? tail := elements (S index) values in
      Ok (separator index +:+ head +:+ tail)
  end.
Definition encode_members := fix members (index : nat) (values : list (string * Value)) :=
  match values with
  | [] => Ok "}"
  | (key, value) :: values =>
      let? head := encode value in
      let? tail := members (S index) values in
      Ok (separator index +:+ encode_string key +:+ ":" +:+ head +:+ tail)
  end.

Definition decode_elements := fix elements (fuel : nat) (s : string) : option (list Value * string) :=
  match fuel with
  | O => None
  | S fuel' =>
      match decode_value fuel s with
      | Some (v, String c rest) =>
          if byte_code c =? 44 then
            match elements fuel' rest with Some (l, r) => Some (v :: l, r) | None => None end
          else if byte_code c =? 93 then Some ([v], rest) else None
      | _ => None
      end
  end.
Definition decode_members := fix members (fuel : nat) (s : string) : option (list (string * Value) * string) :=
  match fuel, s with
  | S fuel', String _ s =>
      match decode_chars s with
      | Some (k, String _ s) =>
          match decode_value fuel s with
          | Some (v, String c rest) =>
              if byte_code c =? 44 then
                match members fuel' rest with Some (l, r) => Some ((k, v) :: l, r) | None => None end
              else if byte_code c =? 125 then Some ([(k, v)], rest) else None
          | _ => None
          end
      | _ => None
      end
  | _, _ => None
  end.

Lemma encode_arr l : encode (Arr l) = let? body := encode_elements 0 l in Ok ("[" +:+ body).
Proof. reflexivity. Qed.
Lemma encode_obj m : encode (Obj m) = let? body := encode_members 0 m in Ok ("{" +:+ body).
Proof. reflexivity. Qed.

Lemma encode_elements_cons index v l :
  encode_elements index (v :: l) =
  let? head := encode v in
  let? tail := encode_elements (S index) l in
  Ok (separator index +:+ head +:+ tail).
Proof. reflexivity. Qed.
Lemma encode_members_cons index k v m :
  encode_members index ((k, v) :: m) =
  let? head := encode v in
  let? tail := encode_members (S index) m in
  Ok (separator index +:+ encode_string k +:+ ":" +:+ head +:+ tail).
Proof. reflexivity. Qed.
Lemma decode_elements_S fuel s :
  decode_elements (S fuel) s =
  match decode_value (S fuel) s with
  | Some (v, String c rest) =>
      if byte_code c =? 44 then
        match decode_elements fuel rest with Some (l, r) => Some (v :: l, r) | None => None end
      else if byte_code c =? 93 then Some ([v], rest) else None
  | _ => None
  end.
Proof. reflexivity. Qed.
Lemma decode_members_S fuel c0 s :
  decode_members (S fuel) (String c0 s) =
  match decode_chars s with
  | Some (k, String _ s) =>
      match decode_value (S fuel) s with
      | Some (v, String c rest) =>
          if byte_code c =? 44 then
            match decode_members fuel rest with Some (l, r) => Some ((k, v) :: l, r) | None => None end
          else if byte_code c =? 125 then Some ([(k, v)], rest) else None
      | _ => None
      end
  | _ => None
  end.
Proof. reflexivity. Qed.

(** ** Texts *)

Lemma append_assoc s1 s2 s3 : (s1 +:+ s2) +:+ s3 = s1 +:+ (s2 +:+ s3).
Proof. induction s1 as [|c s1 IH]; simpl; [done|]. by rewrite IH. Qed.

Lemma append_length s1 s2 : String.length (s1 +:+ s2) = (String.length s1 + String.length s2)%nat.
Proof. induction s1 as [|c s1 IH]; simpl; [done|]. by rewrite IH. Qed.

Lemma append_nil s : s +:+ "" = s.
Proof. induction s as [|c s IH]; simpl; [done|]. by rewrite IH. Qed.

Lemma decode_encode_char c t : decode_chars (encode_char c +:+ t) = cons_char c (decode_chars t).
Proof. destruct c as [[] [] [] [] [] [] [] []]; reflexivity. Qed.

Lemma decode_encode_chars v r : decode_chars (encode_chars v +:+ String quote r) = Some (v, r).
Proof.
  induction v as [|c v IH]; [done|]. simpl. by rewrite append_assoc, decode_encode_char, IH.
Qed.

(** A text that cannot continue a number. *)
Definition ends_number (r : string) : bool :=
  match r with EmptyString => true | String c _ => negb (is_ascii_digit c) end.

Lemma take_digits_uint d r : ends_number r = true ->
  take_digits (NilEmpty.string_of_uint d +:+ r) = (NilEmpty.string_of_uint d, r).
Proof.
  intros Hr. induction d; simpl; try by rewrite IHd. destruct r as [|c r]; simpl in *; [done|].
  bool_hyps. by rewrite Hr.
Qed.

Lemma string_of_uint_nonnil d : d ≠ Decimal.Nil ->
  NilZero.string_of_uint d = NilEmpty.string_of_uint d.
Proof. by destruct d. Qed.

Lemma to_uint_nonnil n : N.to_uint n ≠ Decimal.Nil.
Proof.
  intros Heq. pose proof (Unsigned.of_to n) as Hn. rewrite Heq in Hn. simpl in Hn. by subst n.
Qed.

Lemma decode_nat_to_string n r : 0 <= n -> ends_number r = true ->
  decode_nat (nat_to_string n +:+ r) = Some (n, r).
Proof.
  intros Hn Hr. unfold decode_nat, nat_to_string. pose proof (to_uint_nonnil (Z.to_N n)) as Hd.
  rewrite string_of_uint_nonnil, take_digits_uint, <-string_of_uint_nonnil, NilZero.usu by done.
  rewrite Unsigned.of_to. f_equal. f_equal. lia.
Qed.

(** The first byte of a number's text is a digit. *)
Lemma nat_to_string_head n : exists c s, nat_to_string n = String c s /\ is_ascii_digit c = true.
Proof.
  unfold nat_to_string. pose proof (to_uint_nonnil (Z.to_N n)).
  destruct (N.to_uint (Z.to_N n)); [done|..]; eexists _, _; split; reflexivity.
Qed.

#[local] Arguments decode_value : simpl never.
#[local] Arguments strip : simpl never.

(** ** Round trip *)

Fixpoint value_size (v : Value) : nat :=
  match v with
  | Arr l => S ((fix sum (l : list Value) := match l with [] => O | v :: l => S (value_size v + sum l) end) l)
  | Obj m => S ((fix sum (m : list (string * Value)) :=
                   match m with [] => O | (_, v) :: m => S (value_size v + sum m) end) m)
  | _ => 1%nat
  end.
Definition elements_size := fix sum (l : list Value) : nat :=
  match l with [] => O | v :: l => S (value_size v + sum l) end.
Definition members_size := fix sum (m : list (string * Value)) : nat :=
  match m with [] => O | (_, v) :: m => S (value_size v + sum m) end.

Lemma elements_size_cons v l : elements_size (v :: l) = S (value_size v + elements_size l).
Proof. reflexivity. Qed.
Lemma members_size_cons k v m : members_size ((k, v) :: m) = S (value_size v + members_size m).
Proof. reflexivity. Qed.

Lemma value_wf_arr l : value_wf (Arr l) = true <-> Forall (fun v => value_wf v = true) l.
Proof.
  simpl. induction l as [|v l IH]; [by split|].
  rewrite andb_true_iff, IH, list.Forall_cons. done.
Qed.

Lemma value_wf_obj m : value_wf (Obj m) = true ->
  keys_sorted m.*1 = true /\ Forall (fun kv => value_wf kv.2 = true) m.
Proof.
  simpl. intros [Hk Hm]%andb_true_iff. split; [done|]. clear Hk.
  induction m as [|[k v] m IH]; [done|]. apply andb_true_iff in Hm as [? ?]. constructor; auto.
Qed.

Definition decodes (v : Value) : Prop :=
  forall fuel s r, value_wf v = true -> encode v = Ok s -> (value_size v <= fuel)%nat ->
    ends_number r = true -> decode_value fuel (s +:+ r) = Some (v, r).

Lemma encode_head v s : value_wf v = true -> encode v = Ok s ->
  exists c t, s = String c t /\ strip "]" s = None.
Proof.
  intros Hw H. destruct v as [|b|n|t|l|m].
  - injection H as <-. by eexists _, _.
  - injection H as <-. destruct b; by eexists _, _.
  - destruct n as [n|n|b]; simpl in H; [|injection H as <-; by exists "-"%char, (nat_to_string (- n))|done].
    injection H as <-. destruct (nat_to_string_head n) as (c & t & -> & Hc). eexists _, _. split; [done|].
    unfold strip. destruct (Ascii.eqb_spec "]" c); [by subst|done].
  - injection H as <-. by eexists _, _.
  - rewrite encode_arr in H. destruct (encode_elements 0 l) as [t|]; [|done]. injection H as <-. by exists "["%char, t.
  - rewrite encode_obj in H. destruct (encode_members 0 m) as [t|]; [|done]. injection H as <-. by exists "{"%char, t.
Qed.

Lemma decode_elements_ok l v index fuel body r :
  Forall decodes (v :: l) -> Forall (fun v => value_wf v = true) (v :: l) ->
  encode_elements index (v :: l) = Ok body -> (elements_size (v :: l) <= fuel)%nat ->
  exists body', body = separator index +:+ body' /\
    decode_elements fuel (body' +:+ r) = Some (v :: l, r).
Proof.
  revert v index fuel body. induction l as [|v2 l IH]; intros v index fuel body Hd Hw H Hf;
    apply list.Forall_cons in Hd as [Hdv Hd], Hw as [Hwv Hw]; rewrite encode_elements_cons in H.
  - destruct (encode v) as [head|] eqn:Ev; [|done]. injection H as <-. eexists. split; [done|].
    destruct fuel as [|fuel]; simpl in Hf; [lia|]. rewrite append_assoc, decode_elements_S.
    rewrite (Hdv (S fuel) head (String "]" "" +:+ r)); [done..|lia|done].
  - destruct (encode v) as [head|] eqn:Ev; [|done].
    destruct (encode_elements (S index) (v2 :: l)) as [tail|] eqn:Et; [|done].
    injection H as <-. eexists. split; [done|].
    destruct fuel as [|fuel]; [simpl in Hf; lia|]. rewrite elements_size_cons in Hf.
    destruct (IH v2 (S index) fuel tail Hd Hw Et ltac:(lia)) as (body' & -> & Hbody).
    rewrite append_assoc, decode_elements_S.
    rewrite (Hdv (S fuel) head ((separator (S index) +:+ body') +:+ r)); [|done|done|lia|done].
    simpl. by rewrite Hbody.
Qed.

Lemma encode_string_append k r :
  encode_string k +:+ r = String quote (encode_chars k +:+ String quote r).
Proof. unfold encode_string. simpl. by rewrite append_assoc. Qed.

Lemma decode_members_ok m k v index fuel body r :
  Forall (fun kv => decodes kv.2) ((k, v) :: m) ->
  Forall (fun kv => value_wf kv.2 = true) ((k, v) :: m) ->
  encode_members index ((k, v) :: m) = Ok body -> (members_size ((k, v) :: m) <= fuel)%nat ->
  exists body', body = separator index +:+ body' /\
    decode_members fuel (body' +:+ r) = Some ((k, v) :: m, r).
Proof.
  revert k v index fuel body. induction m as [|[k2 v2] m IH]; intros k v index fuel body Hd Hw H Hf;
    apply list.Forall_cons in Hd as [Hdv Hd], Hw as [Hwv Hw]; rewrite encode_members_cons in H;
    rewrite members_size_cons in Hf; simpl in Hdv, Hwv.
  - destruct (encode v) as [head|] eqn:Ev; [|done]. injection H as <-.
    exists (encode_string k +:+ ":" +:+ head +:+ "}"). split; [done|].
    destruct fuel as [|fuel]; [lia|].
    rewrite !append_assoc, encode_string_append, decode_members_S, decode_encode_chars. simpl.
    rewrite (Hdv (S fuel) head (String "}" r)); [done..|lia|done].
  - destruct (encode v) as [head|] eqn:Ev; [|done].
    destruct (encode_members (S index) ((k2, v2) :: m)) as [tail|] eqn:Et; [|done].
    injection H as <-. exists (encode_string k +:+ ":" +:+ head +:+ tail). split; [done|].
    destruct fuel as [|fuel]; [lia|].
    destruct (IH k2 v2 (S index) fuel tail Hd Hw Et ltac:(lia)) as (body' & -> & Hbody).
    rewrite !append_assoc, encode_string_append, decode_members_S, decode_encode_chars. simpl.
    rewrite (Hdv (S fuel) head (String "," (body' +:+ r))); [|done|done|lia|done].
    simpl. by rewrite Hbody.
Qed.

Lemma decode_value_arr fuel s :
  decode_value (S fuel) (String "[" s) =
  match strip "]" s with
  | Some r => Some (Arr [], r)
  | None => match decode_elements fuel s with Some (l, r) => Some (Arr l, r) | None => None end
  end.
Proof. reflexivity. Qed.
Lemma decode_value_obj fuel s :
  decode_value (S fuel) (String "{" s) =
  match strip "}" s with
  | Some r => Some (Obj [], r)
  | None => match decode_members fuel s with Some (l, r) => Some (Obj l, r) | None => None end
  end.
Proof. reflexivity. Qed.
Lemma decode_value_digit fuel c s : is_ascii_digit c = true ->
  decode_value (S fuel) (String c s) =
  match decode_nat (String c s) with Some (n, r) => Some (Num (PosInt n), r) | None => None end.
Proof. by destruct c as [[] [] [] [] [] [] [] []]. Qed.

Lemma strip_head a c t t' : strip (String a "") (String c t) = None -> strip (String a "") (String c t') = None.
Proof. unfold strip. by destruct (Ascii.eqb a c). Qed.

(** Reading back what the encoder wrote. *)
Lemma decode_encoded v : decodes v.
Proof.
  induction v as [|b|n|t|l IH|m IH] using value_ind; intros fuel s r Hw H Hf Hr;
    (destruct fuel as [|fuel]; [simpl in Hf; lia|]).
  - injection H as <-. reflexivity.
  - injection H as <-. by destruct b.
  - destruct n as [n|n|b]; [..|done]; injection H as <-; simpl in Hw; bool_hyps.
    + destruct (nat_to_string_head n) as (c & t & Heq & Hc). pose proof (decode_nat_to_string n r) as Hd.
      rewrite Heq in *. simpl in *. rewrite decode_value_digit, Hd by done. done.
    + pose proof (decode_nat_to_string (- n) r) as Hd.
      change (match decode_nat (nat_to_string (- n) +:+ r) with
              | Some (n, r) => Some (Num (NegInt (- n)), r) | None => None end = Some (Num (NegInt n), r)).
      rewrite Hd by (done || lia). do 4 f_equal. lia.
  - injection H as <-. rewrite encode_string_append.
    change (match decode_chars (encode_chars t +:+ String quote r) with
            | Some (v, r) => Some (Str v, r) | None => None end = Some (Str t, r)).
    by rewrite decode_encode_chars.
  - rewrite encode_arr in H. apply value_wf_arr in Hw.
    destruct (encode_elements 0 l) as [body|] eqn:Eb; [|done]. injection H as <-. simpl.
    destruct l as [|v l]; [by injection Eb as <-|].
    destruct (decode_elements_ok l v 0 fuel body r) as (body' & -> & Hbody);
      [done..|apply le_S_n; exact Hf|].
    rewrite decode_value_arr. simpl. rewrite Hbody.
    rewrite encode_elements_cons in Eb. destruct (encode v) as [hd|] eqn:Ev; [|done].
    destruct (encode_elements 1 l); [|done]. injection Eb as <-.
    apply list.Forall_cons in Hw as [Hwv _]. destruct (encode_head v hd Hwv Ev) as (c & t & -> & Hs).
    simpl. by rewrite (strip_head _ _ _ _ Hs).
  - rewrite encode_obj in H. apply value_wf_obj in Hw as [_ Hw].
    destruct (encode_members 0 m) as [body|] eqn:Eb; [|done]. injection H as <-. simpl.
    destruct m as [|[k v] m]; [by injection Eb as <-|].
    destruct (decode_members_ok m k v 0 fuel body r) as (body' & -> & Hbody);
      [done..|apply le_S_n; exact Hf|].
    rewrite decode_value_obj. simpl. rewrite Hbody.
    rewrite encode_members_cons in Eb. destruct (encode v) as [hd|] eqn:Ev; [|done].
    destruct (encode_members 1 m); [|done]. by injection Eb as <-.
Qed.

(** ** Fuel: a value is no larger than its text *)

Definition text_bounds (v : Value) : Prop :=
  forall s, encode v = Ok s -> (value_size v <= String.length s)%nat.

Lemma elements_bounds l index body :
  Forall text_bounds l -> encode_elements index l = Ok body ->
  (elements_size l + (if (index =? 0)%nat then 0 else 1) <= String.length body)%nat.
Proof.
  intros Hl. revert index body. induction Hl as [|v l Hv _ IH]; intros index body H.
  - injection H as <-. destruct index; simpl; lia.
  - rewrite encode_elements_cons in H. destruct (encode v) as [hd|] eqn:Ev; [|done].
    destruct (encode_elements (S index) l) as [tl|] eqn:Et; [|done]. injection H as <-.
    apply IH in Et. apply Hv in Ev. simpl in Et. rewrite elements_size_cons, !append_length.
    destruct index; simpl; lia.
Qed.

Lemma members_bounds m index body :
  Forall (fun kv => text_bounds kv.2) m -> encode_members index m = Ok body ->
  (members_size m <= String.length body)%nat /\ (0 < String.length body)%nat.
Proof.
  intros Hm. revert index body. induction Hm as [|[k v] m Hv _ IH]; intros index body H.
  - injection H as <-. simpl. lia.
  - rewrite encode_members_cons in H. destruct (encode v) as [hd|] eqn:Ev; [|done].
    destruct (encode_members (S index) m) as [tl|] eqn:Et; [|done].
    apply IH in Et as [Hs Hp]. apply Hv in Ev. assert (body = separator index +:+ encode_string k +:+ ":" +:+ hd +:+ tl) as -> by congruence.
    rewrite members_size_cons, !append_length. simpl in *. lia.
Qed.

Lemma text_size v : text_bounds v.
Proof.
  induction v as [|b|n|t|l IH|m IH] using value_ind; intros s H.
  - injection H as <-. simpl. lia.
  - injection H as <-. destruct b; simpl; lia.
  - destruct n as [n|n|b]; [..|done]; injection H as <-.
    + destruct (nat_to_string_head n) as (c & t & -> & _). simpl. lia.
    + simpl. lia.
  - injection H as <-. simpl. lia.
  - rewrite encode_arr in H. destruct (encode_elements 0 l) as [body|] eqn:E; [|done].
    injection H as <-. pose proof (elements_bounds l 0 body IH E) as Hs.
    change (value_size (Arr l)) with (S (elements_size l)). simpl in *. lia.
  - rewrite encode_obj in H. destruct (encode_members 0 m) as [body|] eqn:E; [|done].
    injection H as <-. destruct (members_bounds m 0 body IH E) as [Hs Hp].
    change (value_size (Obj m)) with (S (members_size m)). simpl in *. lia.
Qed.

Lemma decode_encode v s : value_wf v = true -> encode v = Ok s -> decode s = Some v.
Proof.
  intros Hw He. unfold decode. pose proof (decode_encoded v (S (String.length s)) s "" Hw He) as Hd.
  rewrite append_nil in Hd. rewrite Hd; [done| |done]. pose proof (text_size v s He). lia.
Qed.

Lemma encode_injective v w s :
  value_wf v = true -> value_wf w = true -> encode v = Ok s -> encode w = Ok s -> v = w.
Proof.
  intros Hv Hw Ev Ew. apply decode_encode in Ev, Ew; [|done..]. congruence.
Qed.

(** The reader above satisfies the assumption made of [serde_json::from_str];
    the digest of this instance is a fixed-length text derived from the length,
    and a timestamp is its instant in decimal. *)
Definition model_digest (s : string) : string :=
  let d := nat_to_string (Z.of_nat (String.length s)) in
  String.substring 0 64 (d +:+ "0000000000000000000000000000000000000000000000000000000000000000").

Definition model_externals : Externals := {|
  sha256_hex := model_digest;
  json_from_str := decode;
  parse_rfc3339 := fun s => match decode_nat s with Some (n, EmptyString) => Some n | _ => None end;
  to_rfc3339 := nat_to_string;
|}.

Lemma model_externals_laws : @ExternalsLaws model_externals.
Proof. constructor. intros v s Hw _ He. by apply decode_encode. Qed.
