(* ===== verification/CanonicalTheorems.v ===== *)
(** * Theorems about canonical payloads

    The canonical text of a value determines the value; the encoder fails only on
    floats; a payload survives storage as text and digest, and no other text or
    digest is accepted. *)

From S2P Require Import Prelude Json JsonDecode.

(** A value without floating-point numbers. *)
Fixpoint integral (v : Value) : bool :=
  match v with
  | Num (Float _) => false
  | Arr l => (fix all (l : list Value) := match l with [] => true | v :: l => integral v && all l end) l
  | Obj m => (fix all (m : list (string * Value)) :=
                match m with [] => true | (_, v) :: m => integral v && all m end) m
  | _ => true
  end.

Definition encodes (v : Value) : Prop :=
  if integral v then exists s, encode v = Ok s else encode v = Err UnsupportedNumber.

Lemma integral_elements l index :
  Forall encodes l ->
  if integral (Arr l) then exists s, encode_elements index l = Ok s
  else encode_elements index l = Err UnsupportedNumber.
Proof.
  intros Hl. revert index. induction Hl as [|v l Hv _ IH]; intros index; [simpl; eauto|].
  unfold encodes in Hv. specialize (IH (S index)). rewrite encode_elements_cons. simpl in *.
  destruct (integral v); [|by rewrite Hv]. destruct Hv as [s ->]. simpl.
  destruct (_ l) in IH |- *; [destruct IH as [t ->]; eauto|by rewrite IH].
Qed.

Lemma integral_members m index :
  Forall (fun kv => encodes kv.2) m ->
  if integral (Obj m) then exists s, encode_members index m = Ok s
  else encode_members index m = Err UnsupportedNumber.
Proof.
  intros Hl. revert index. induction Hl as [|[k v] m Hv _ IH]; intros index; [simpl; eauto|].
  unfold encodes in Hv. specialize (IH (S index)). rewrite encode_members_cons. simpl in *.
  destruct (integral v); [|by rewrite Hv]. destruct Hv as [s ->]. simpl.
  destruct (_ m) in IH |- *; [destruct IH as [t ->]; eauto|by rewrite IH].
Qed.

(** The encoder returns a text for every value without floats and reports an unsupported
    number for every other value. *)
Lemma canonical_encoding_total v :
  if integral v then exists s, encode v = Ok s else encode v = Err UnsupportedNumber.
Proof.
  change (encodes v). induction v as [|b|n|t|l IH|m IH] using value_ind; unfold encodes.
  1-2,4: simpl; eauto.
  - destruct n; simpl; eauto.
  - rewrite encode_arr. pose proof (integral_elements l 0 IH) as Hl.
    destruct (integral _); [destruct Hl as [s ->]; eauto|by rewrite Hl].
  - rewrite encode_obj. pose proof (integral_members m 0 IH) as Hl.
    destruct (integral _); [destruct Hl as [s ->]; eauto|by rewrite Hl].
Qed.

(** Two well-formed values with the same canonical text are equal. *)
Theorem canonical_encoding_injective v w s :
  value_wf v = true -> value_wf w = true -> encode v = Ok s -> encode w = Ok s -> v = w.
Proof. apply encode_injective. Qed.

(** Stored parts are accepted exactly when the digest is that of the text and the text is the
    canonical encoding of what it reads as. *)
Theorem canonical_parts_exact `{Externals} json sha256 p :
  from_canonical_parts json sha256 = Ok p <->
  p = mkPayload json sha256 /\ sha256 = sha256_hex json /\
  exists v, json_from_str json = Some v /\ encode v = Ok json.
Proof.
  unfold from_canonical_parts, payload_from_value. split.
  - intros Hp. destruct (json_from_str json) as [v|]; [|done]. simpl in Hp.
    destruct (encode v) as [text|] eqn:Ev; [|done]. simpl in Hp.
    destruct (negb _) eqn:E1 in Hp; [done|]. destruct (negb _) eqn:E2 in Hp; [done|]. bool_hyps.
    injection Hp as <-. subst. eauto.
  - intros (-> & -> & v & -> & Hv). simpl. rewrite Hv. simpl. by rewrite !String.eqb_refl.
Qed.

(** A payload built from a value verifies, is read back as that value, and is accepted again
    from its stored text and digest. *)
Theorem canonical_payload_roundtrip `{ExternalsLaws} v p :
  value_wf v = true -> (value_depth v < 128)%nat -> payload_from_value v = Ok p ->
  payload_verify p = Ok tt /\ json_from_str (payload_json p) = Some v /\
  from_canonical_parts (payload_json p) (payload_sha256 p) = Ok p.
Proof.
  intros Hw Hd Hp. unfold payload_from_value in Hp. destruct (encode v) as [s|] eqn:Ev; [|done].
  injection Hp as <-. pose proof (json_reads_canonical v s Hw Hd Ev) as Hj.
  unfold payload_verify, from_canonical_parts, payload_from_value. simpl. rewrite Hj. simpl.
  rewrite Ev. simpl. by rewrite !String.eqb_refl.
Qed.

(** ** Witnesses *)

Definition sample_value : Value :=
  Obj [("a", Arr [Num (PosInt 7); Str "x"; Null]); ("b", Bool true)].

Lemma canonical_encoding_injective_witness : exists s, encode sample_value = Ok s /\ sample_value = sample_value.
Proof.
  eexists. split; [vm_compute; reflexivity|].
  eapply (canonical_encoding_injective sample_value sample_value); by vm_compute.
Defined.

Lemma canonical_payload_roundtrip_witness :
  exists p, @payload_from_value model_externals sample_value = Ok p /\ @payload_verify model_externals p = Ok tt.
Proof.
  eexists. split; [vm_compute; reflexivity|].
  apply (@canonical_payload_roundtrip model_externals model_externals_laws sample_value);
    [by vm_compute|apply Nat.ltb_lt; by vm_compute|by vm_compute].
Defined.
