(* ===== verification/LedgerTypes.v ===== *)
(** * Ledger facts and errors ([engine/ledger/src/types.rs])

    Fact drafts and durable facts, their validation, and the commit result and
    error types of the ledger. *)

From S2P Require Import Prelude Json.

Inductive LedgerError :=
  | EmptyBatch
  | ConcurrentModification
  | IdempotencyCollision
  | IncompleteReplay
  | InvalidFact
  | InvalidTransition
  | MissingReference
  | PositionOverflow
  | InvalidReadRange
  | Corruption (e : CanonicalPayloadError).

#[export] Instance LedgerError_eq_dec : EqDecision LedgerError.
Proof. solve_decision. Defined.

Definition ledger_error_code (self : LedgerError) : string :=
  match self with
  | EmptyBatch => "empty-batch"
  | ConcurrentModification => "concurrent-modification"
  | IdempotencyCollision => "idempotency-collision"
  | IncompleteReplay => "incomplete-replay"
  | InvalidFact => "invalid-fact"
  | InvalidTransition => "invalid-transition"
  | MissingReference => "missing-reference"
  | PositionOverflow => "position-overflow"
  | InvalidReadRange => "invalid-read-range"
  | Corruption DigestMismatch => "digest-mismatch"
  | Corruption _ => "corruption"
  end.

(** The [ledger_identity!] newtypes are non-empty strings. *)
Definition ledger_identity_try_from (value : string) : option string :=
  if str_is_empty value then None else Some value.

(** [FactKind::new]. *)
Definition FactKind_new (value : string) : result LedgerError string :=
  if str_is_empty value then Err InvalidFact else Ok value.

Record FactDraft := mkFactDraft {
  fact_id : string;
  turn_id : option string;
  execution_id : option string;
  model_request_id : option string;
  tool_invocation_id : option string;
  kind : string;
  schema_version : Z;
  payload : CanonicalPayload;
  recorded_at : string;
}.

#[export] Instance FactDraft_eq_dec : EqDecision FactDraft.
Proof. solve_decision. Defined.

Definition same_semantics (self other : FactDraft) : bool :=
  (fact_id self =? fact_id other)%string
  && bool_decide (turn_id self = turn_id other)
  && bool_decide (execution_id self = execution_id other)
  && bool_decide (model_request_id self = model_request_id other)
  && bool_decide (tool_invocation_id self = tool_invocation_id other)
  && (kind self =? kind other)%string
  && (schema_version self =? schema_version other)
  && bool_decide (payload self = payload other).

Record DurableFact := mkDurableFact {
  df_fact_id : string;
  df_session_id : string;
  position : Z;
  df_turn_id : option string;
  df_execution_id : option string;
  df_model_request_id : option string;
  df_tool_invocation_id : option string;
  df_kind : string;
  df_schema_version : Z;
  df_payload : CanonicalPayload;
  df_recorded_at : string;
}.

#[export] Instance DurableFact_eq_dec : EqDecision DurableFact.
Proof. solve_decision. Defined.

(** [DurableFact::from((session_id, position, draft))]. *)
Definition DurableFact_from (session_id : string) (position : Z) (value : FactDraft) : DurableFact :=
  mkDurableFact (fact_id value) session_id position (turn_id value) (execution_id value)
    (model_request_id value) (tool_invocation_id value) (kind value) (schema_version value)
    (payload value) (recorded_at value).

Definition map_corruption (r : result CanonicalPayloadError unit) : result LedgerError unit :=
  match r with Ok u => Ok u | Err e => Err (Corruption e) end.

Section validation.
Context `{Externals}.

Definition draft_validate (self : FactDraft) : result LedgerError unit :=
  reject InvalidFact when
    (schema_version self =? 0) || negb (is_rfc3339 (recorded_at self));
  map_corruption (payload_verify (payload self)).

Definition fact_verify (self : DurableFact) : result LedgerError unit :=
  reject (Corruption InvalidJson) when
    (position self =? 0)
    || (df_schema_version self =? 0)
    || negb (is_rfc3339 (df_recorded_at self));
  map_corruption (payload_verify (df_payload self)).
End validation.

Inductive CommitDisposition := Committed | Replayed.

Record CommitResult := mkCommitResult {
  disposition : CommitDisposition;
  result_session_version : Z;
  result_positions : list Z;
}.

#[export] Instance CommitDisposition_eq_dec : EqDecision CommitDisposition.
Proof. solve_decision. Defined.
#[export] Instance CommitResult_eq_dec : EqDecision CommitResult.
Proof. solve_decision. Defined.

(** How a ledger operation stops early: by returning an error, or by a panic
    (an indexing expression on an absent key). *)
Inductive Abort :=
  | Returned (e : LedgerError)
  | Panicked.
Coercion Returned : LedgerError >-> Abort.

#[export] Instance Abort_eq_dec : EqDecision Abort.
Proof. solve_decision. Defined.

(** [?] on a [Result<_, LedgerError>]. *)
Definition lift {A} (r : result LedgerError A) : result Abort A :=
  match r with Ok a => Ok a | Err e => Err (Returned e) end.

(** ** Field validators of durable payloads
    ([engine/ledger/src/runtime_facts/values.rs])

    The checks every payload schema is composed of: closed key sets, non-empty
    texts, enumerations, unsigned integers, digests, content bindings, usage
    and limit objects. *)

Section values.
Context `{Externals}.

Abbreviation Chk := (result LedgerError unit) (only parsing).

Definition fv_object (value : Value) : result LedgerError Map := ok_or (as_object value) InvalidFact.

(** [object(value.get(key).ok_or(InvalidFact)?)?]. *)
Definition object_at (value : Map) (key : string) : result LedgerError Map :=
  let? v := ok_or (map_get key value) InvalidFact in fv_object v.

Definition member (key : string) (keys : list string) : bool :=
  existsb (fun k => (k =? key)%string) keys.

Definition fields (value : Map) (required optional : list string) : Chk :=
  if existsb (fun key => negb (contains_key value key)) required
     || existsb (fun key => negb (member key required) && negb (member key optional)) value.*1
  then Err InvalidFact else Ok tt.

Definition string_at (value : Map) (key : string) : result LedgerError string :=
  ok_or (map_get key value ≫= as_str) InvalidFact.

Definition non_empty (value : Map) (key : string) : Chk :=
  let? s := string_at value key in
  if str_is_empty s then Err InvalidFact else Ok tt.

Definition optional_non_empty (value : Map) (key : string) : Chk :=
  if contains_key value key then non_empty value key else Ok tt.

Definition enumeration (value : Map) (key : string) (allowed : list string)
    : result LedgerError string :=
  let? found := string_at value key in
  if member found allowed then Ok found else Err InvalidFact.

(** [value.get(key).and_then(Value::as_u64)]. *)
Definition u64_at (value : Map) (key : string) : option Z := map_get key value ≫= as_u64.

Definition unsigned_field (value : Map) (key : string) (nonzero : bool) : Chk :=
  let? found := ok_or (u64_at value key) InvalidFact in
  if nonzero && (found =? 0) then Err InvalidFact else Ok tt.

Definition optional_unsigned (value : Map) (key : string) : Chk :=
  if contains_key value key then unsigned_field value key false else Ok tt.

Definition digest_field (value : Map) (key : string) : Chk :=
  let? found := string_at value key in
  if valid_digest found then Ok tt else Err InvalidFact.

Definition content (value : Map) (key : string) : Chk :=
  let? binding := object_at value key in
  fields binding ["digest"] ["inline_utf8"; "reference"] ?;
  digest_field binding "digest" ?;
  match map_get "inline_utf8" binding, map_get "reference" binding with
  | Some (Str text), None =>
      let? digest := string_at binding "digest" in
      if (sha256_hex text =? digest)%string then Ok tt else Err InvalidFact
  | None, Some (Str reference) => if str_is_empty reference then Err InvalidFact else Ok tt
  | _, _ => Err InvalidFact
  end.

Definition optional_content (value : Map) (key : string) : Chk :=
  if contains_key value key then content value key else Ok tt.

Definition token_count (value : Map) : Chk :=
  match map_get "kind" value ≫= as_str with
  | Some k =>
      if (k =? "unknown")%string then fields value ["kind"] []
      else if (k =? "known")%string then
        fields value ["kind"; "value"] [] ?; unsigned_field value "value" false
      else Err InvalidFact
  | None => Err InvalidFact
  end.

Definition usage (value : Map) (key : string) : Chk :=
  let? usage := object_at value key in
  fields usage ["input_tokens"; "output_tokens"; "source"]
    ["cache_read_tokens"; "cache_write_tokens"] ?;
  try_for_each (fun name =>
    match map_get name usage with
    | Some count => let? count := fv_object count in token_count count
    | None => Ok tt
    end) ["input_tokens"; "output_tokens"; "cache_read_tokens"; "cache_write_tokens"] ?;
  enumeration usage "source" ["provider_reported"; "estimated"] ?;
  Ok tt.

Definition limits (value : Map) (key : string) : Chk :=
  let? limits := object_at value key in
  fields limits ["max_iterations"]
    ["max_input_tokens"; "max_output_tokens"; "deadline_budget_ms"] ?;
  try_for_each (fun name =>
    if contains_key limits name then unsigned_field limits name true else Ok tt)
    ["max_iterations"; "max_input_tokens"; "max_output_tokens"; "deadline_budget_ms"].

(** The [identities] and [digests] loops of the schema files. *)
Definition identities (value : Map) (keys : list string) : Chk := try_for_each (non_empty value) keys.
Definition digests (value : Map) (keys : list string) : Chk := try_for_each (digest_field value) keys.

(** The canonical UTC timestamp check of the schema files. *)
Definition timestamp (value : Map) (key : string) : Chk :=
  let? raw := string_at value key in
  if is_some (canonical_utc raw) then Ok tt else Err InvalidFact.

Definition boolean (value : Map) (key : string) : result LedgerError bool :=
  ok_or (map_get key value ≫= as_bool) InvalidFact.

Definition opt_value_eqb (a b : option Value) : bool :=
  match a, b with
  | Some a, Some b => value_eqb a b
  | None, None => true
  | _, _ => false
  end.

(** [value[binding]["digest"] == value[asserted]] on present keys. *)
Definition same_binding_digest (value : Map) (binding asserted : string) : Chk :=
  if opt_value_eqb (map_get binding value ≫= value_get "digest") (map_get asserted value)
  then Ok tt else Err InvalidFact.

End values.
