(* ===== verification/FactsTurn.v ===== *)
(** * Turn, execution, model and effect payload schemas

    ([runtime_facts/turn.rs], [model.rs], [effect.rs], [f0.rs], [artifact.rs]) *)

From S2P Require Import Prelude Json LedgerTypes.

Section facts.
Context `{Externals}.

Abbreviation Chk := (result LedgerError unit) (only parsing).

Definition conditional_unsigned (value : Map) (enum_key requiring field : string) : Chk :=
  match bool_decide (map_get enum_key value ≫= as_str = Some requiring), map_get field value with
  | true, Some _ => unsigned_field value field true
  | false, None => Ok tt
  | _, _ => Err InvalidFact
  end.

Definition conditional_identity (value : Map) (enum_key requiring identity : string)
    (allowed : list string) : Chk :=
  let? found := enumeration value enum_key allowed in
  match (found =? requiring)%string, map_get identity value with
  | false, None => Ok tt
  | true, Some _ => non_empty value identity
  | _, _ => Err InvalidFact
  end.

Definition turn_effect_batch_planned (value : Map) : Chk :=
  fields value ["plan_digest"; "conflict_graph_digest"; "ordered_prepared_digests"; "steps";
    "max_parallel_reads"; "max_buffered_result_bytes"] [] ?;
  digest_field value "plan_digest" ?;
  digest_field value "conflict_graph_digest" ?;
  content value "ordered_prepared_digests" ?;
  content value "steps" ?;
  unsigned_field value "max_parallel_reads" true ?;
  unsigned_field value "max_buffered_result_bytes" true.

Definition turn_started (value : Map) : Chk :=
  fields value ["command_id"; "kind"; "agent_instance_id"; "definition_id"; "definition_revision";
    "snapshot_digest"; "trusted_input_digest"] ["prior_suspension_id"; "expected_session_version"] ?;
  identities value ["command_id"; "agent_instance_id"; "definition_id"; "definition_revision"] ?;
  digest_field value "snapshot_digest" ?;
  digest_field value "trusted_input_digest" ?;
  conditional_identity value "kind" "continue" "prior_suspension_id" ["start"; "continue"] ?;
  conditional_unsigned value "kind" "continue" "expected_session_version".

Definition turn_input (value : Map) : Chk :=
  fields value ["input_kind"; "content"] ["suspension_id"] ?;
  content value "content" ?;
  let? kind := enumeration value "input_kind" ["trusted_user"; "trusted_system"; "external_input";
    "interaction_string"; "interaction_json"; "reconciliation"; "resource_ready";
    "delegation_result"] in
  match member kind ["trusted_user"; "trusted_system"], map_get "suspension_id" value with
  | true, None => Ok tt
  | false, Some _ => non_empty value "suspension_id"
  | _, _ => Err InvalidFact
  end.

Definition turn_cancel (value : Map) : Chk :=
  fields value ["command_id"; "reason"; "requested_through_position"] [] ?;
  non_empty value "command_id" ?;
  enumeration value "reason" ["user"; "deadline"; "shutdown"; "operator"; "policy"] ?;
  unsigned_field value "requested_through_position" false.

(** The identity a turn fact names, or the iteration count an execution fact carries. *)
Definition turn_subject (value : Map) (turn : bool) : Chk :=
  if turn then non_empty value "execution_id"
  else unsigned_field value "completed_iterations" false.

Definition usage_key (turn : bool) : string := if turn then "cumulative_usage" else "usage".

Definition turn_suspended (value : Map) (turn : bool) : Chk :=
  fields value
    (if turn then ["suspension_id"; "execution_id"; "reason"; "continuation"; "cumulative_usage"]
     else ["suspension_id"; "reason"; "continuation"; "usage"; "completed_iterations"]) [] ?;
  non_empty value "suspension_id" ?;
  turn_subject value turn ?;
  enumeration value "reason" ["approval_required"; "external_input_required";
    "operator_reconciliation"; "resource_unavailable"; "partial_output"; "delegation_pending"] ?;
  content value "continuation" ?;
  usage value (usage_key turn).

Definition turn_completed (value : Map) (turn : bool) : Chk :=
  fields value
    (if turn then ["execution_id"; "response"; "cumulative_usage"]
     else ["response"; "usage"; "completed_iterations"]) [] ?;
  turn_subject value turn ?;
  content value "response" ?;
  usage value (usage_key turn).

Definition turn_stopped (value : Map) (turn : bool) : Chk :=
  fields value
    (if turn then ["execution_id"; "reason"; "cumulative_usage"]
     else ["reason"; "usage"; "completed_iterations"]) ["evidence"] ?;
  turn_subject value turn ?;
  enumeration value "reason" ["iteration_limit"; "token_limit"; "deadline"; "cancelled";
    "resource_unavailable"] ?;
  optional_content value "evidence" ?;
  usage value (usage_key turn).

Definition turn_failed (value : Map) (turn : bool) : Chk :=
  fields value
    (if turn then ["execution_id"; "reason"; "cumulative_usage"]
     else ["reason"; "usage"; "completed_iterations"]) ["evidence"] ?;
  turn_subject value turn ?;
  enumeration value "reason" ["invalid_input"; "invalid_model_output";
    "required_capability_unavailable"; "port_failure"; "invariant_violation";
    "durability_failure"; "corrupt_recovery_state"] ?;
  optional_content value "evidence" ?;
  usage value (usage_key turn).

Definition turn_execution_started (value : Map) : Chk :=
  fields value ["snapshot_digest"; "through_position"; "completed_iterations"; "limits";
    "recovery_ordinal"] [] ?;
  digest_field value "snapshot_digest" ?;
  try_for_each (fun key => unsigned_field value key false) ["through_position";
    "completed_iterations"; "recovery_ordinal"] ?;
  limits value "limits".

Definition turn_iteration_started (value : Map) : Chk :=
  fields value ["iteration"] [] ?;
  unsigned_field value "iteration" true.

Definition turn_abandoned (value : Map) : Chk :=
  fields value ["reason"; "last_safe_position"; "recovery_ordinal"] [] ?;
  enumeration value "reason" ["runtime_lost"] ?;
  unsigned_field value "last_safe_position" false ?;
  unsigned_field value "recovery_ordinal" true.

Definition turn_steered (value : Map) : Chk :=
  fields value ["command_id"; "steer_id"; "session_version"; "input"] [] ?;
  non_empty value "command_id" ?;
  non_empty value "steer_id" ?;
  unsigned_field value "session_version" false ?;
  content value "input" ?;
  Ok tt.

Definition turn_schemas : list (string * (Map -> Chk)) :=
  [("turn.started", turn_started);
   ("turn.input", turn_input);
   ("turn.cancel_requested", turn_cancel);
   ("turn.suspended", (fun value => turn_suspended value true));
   ("turn.completed", (fun value => turn_completed value true));
   ("turn.stopped", (fun value => turn_stopped value true));
   ("turn.failed", (fun value => turn_failed value true));
   ("turn.steered", turn_steered);
   ("execution.started", turn_execution_started);
   ("execution.iteration_started", turn_iteration_started);
   ("execution.abandoned", turn_abandoned);
   ("execution.completed", (fun value => turn_completed value false));
   ("execution.suspended", (fun value => turn_suspended value false));
   ("execution.stopped", (fun value => turn_stopped value false));
   ("execution.failed", (fun value => turn_failed value false));
   ("execution.effect_batch_planned", turn_effect_batch_planned)].

Definition turn_validate (kind : string) (value : Map) : Chk :=
  match assoc kind turn_schemas with Some check => check value | None => Err InvalidFact end.

Definition model_prepared (value : Map) : Chk :=
  fields value ["request_digest"; "capability_target"; "deployment_id"; "recovery_policy_revision";
    "max_attempts"] [] ?;
  digest_field value "request_digest" ?;
  identities value ["capability_target"; "deployment_id"; "recovery_policy_revision"] ?;
  unsigned_field value "max_attempts" true.

Definition model_started (value : Map) : Chk :=
  fields value ["request_digest"; "dispatch_attempt_id"] [] ?;
  digest_field value "request_digest" ?;
  non_empty value "dispatch_attempt_id".

Definition model_completed (value : Map) : Chk :=
  fields value ["request_digest"; "stop_reason"; "items"; "usage"] [] ?;
  digest_field value "request_digest" ?;
  enumeration value "stop_reason" ["end_turn"; "tool_use"; "stop_sequence"; "pause_turn";
    "refusal"; "other"] ?;
  content value "items" ?;
  usage value "usage".

Definition model_rejected (value : Map) : Chk :=
  fields value ["request_digest"; "kind"] ["evidence"] ?;
  digest_field value "request_digest" ?;
  enumeration value "kind" ["context_overflow"; "authentication"; "content_policy"] ?;
  optional_content value "evidence".

Definition model_interrupted (value : Map) : Chk :=
  fields value ["request_digest"; "kind"; "partial_items"; "usage"] [] ?;
  digest_field value "request_digest" ?;
  enumeration value "kind" ["cancelled"; "output_limit"; "transport"] ?;
  content value "partial_items" ?;
  usage value "usage".

Definition model_unavailable (value : Map) : Chk :=
  fields value ["request_digest"; "kind"] ["retry_after_ms"] ?;
  digest_field value "request_digest" ?;
  enumeration value "kind" ["rate_limited"; "model_unavailable"; "circuit_open"] ?;
  optional_unsigned value "retry_after_ms".

Definition model_uncertain (value : Map) : Chk :=
  fields value ["request_digest"; "reason"] ["evidence"] ?;
  digest_field value "request_digest" ?;
  enumeration value "reason" ["runtime_lost"; "transport_lost"; "provider_state_unknown"] ?;
  optional_content value "evidence".

Definition model_schemas : list (string * (Map -> Chk)) :=
  [("model.prepared", model_prepared);
   ("model.started", model_started);
   ("model.completed", model_completed);
   ("model.rejected", model_rejected);
   ("model.interrupted", model_interrupted);
   ("model.unavailable", model_unavailable);
   ("model.uncertain", model_uncertain)].

Definition model_validate (kind : string) (value : Map) : Chk :=
  match assoc kind model_schemas with Some check => check value | None => Err InvalidFact end.

End facts.

(** ** Effect, safety, sandbox and artifact payload schemas

    ([runtime_facts/effect.rs], [runtime_facts/f0.rs], [runtime_facts/artifact.rs]) *)

Section facts.
Context `{Externals}.

Abbreviation Chk := (result LedgerError unit) (only parsing).

Definition effect_validate_prepared_v2 (value : Map) : Chk :=
  fields value ["prepared_contract_version"; "prepared_digest"; "tool_name"; "tool_revision";
    "replay_class"; "model_call_id"; "access_policy_revision"; "access_resolver_revision";
    "invocation_accesses"; "max_result_bytes"] [] ?;
  reject InvalidFact when negb (bool_decide (u64_at value "prepared_contract_version" = Some 2));
  digest_field value "prepared_digest" ?;
  identities value ["tool_name"; "tool_revision"; "model_call_id"; "access_policy_revision";
    "access_resolver_revision"] ?;
  enumeration value "replay_class" ["read_only"; "idempotent"; "receipt_recoverable";
    "never_replay"] ?;
  content value "invocation_accesses" ?;
  unsigned_field value "max_result_bytes" true.

Definition effect_validate_prepared_v3 (value : Map) : Chk :=
  fields value ["prepared_contract_version"; "prepared_digest"; "tool_name"; "tool_revision";
    "replay_class"; "model_call_id"; "arguments"; "access_policy_revision";
    "access_resolver_revision"; "invocation_accesses"; "max_result_bytes"; "sandbox_requirements";
    "sandbox_requirements_digest"] [] ?;
  reject InvalidFact when negb (bool_decide (u64_at value "prepared_contract_version" = Some 3));
  digest_field value "prepared_digest" ?;
  content value "arguments" ?;
  identities value ["tool_name"; "tool_revision"; "model_call_id"; "access_policy_revision";
    "access_resolver_revision"] ?;
  enumeration value "replay_class" ["read_only"; "idempotent"; "receipt_recoverable";
    "never_replay"] ?;
  content value "invocation_accesses" ?;
  unsigned_field value "max_result_bytes" true ?;
  content value "sandbox_requirements" ?;
  digest_field value "sandbox_requirements_digest" ?;
  reject InvalidFact when
    negb (opt_value_eqb (map_get "sandbox_requirements" value ≫= value_get "digest")
            (map_get "sandbox_requirements_digest" value));
  Ok tt.

Definition effect_validate_authorized_v2 (value : Map) : Chk :=
  fields value ["prepared_contract_version"; "prepared_digest"; "grant_id"; "authority_revision";
    "constraints_digest"; "granted_requirements"] [] ?;
  reject InvalidFact when negb (bool_decide (u64_at value "prepared_contract_version" = Some 3));
  digest_field value "prepared_digest" ?;
  identities value ["grant_id"; "authority_revision"] ?;
  digest_field value "constraints_digest" ?;
  content value "granted_requirements".

Definition effect_interaction_requested (value : Map) : Chk :=
  fields value ["interaction_id"; "suspension_id"; "prepared_digest"; "kind"; "prompt";
    "response_schema"; "response_schema_digest"; "expiry_code"] ["response_schema"] ?;
  identities value ["interaction_id"; "suspension_id"] ?;
  digests value ["prepared_digest"; "response_schema_digest"] ?;
  optional_content value "response_schema" ?;
  enumeration value "kind" ["approval"; "external_input"] ?;
  enumeration value "expiry_code" ["none"; "turn_deadline"; "policy_deadline"] ?;
  content value "prompt" ?;
  content value "response_schema".

Definition effect_interaction_resolved (value : Map) : Chk :=
  fields value ["interaction_id"; "suspension_id"; "prepared_digest"; "response"] [] ?;
  identities value ["interaction_id"; "suspension_id"] ?;
  digest_field value "prepared_digest" ?;
  content value "response".

Definition effect_interaction_cancelled (value : Map) : Chk :=
  fields value ["interaction_id"; "suspension_id"; "prepared_digest"; "reason"] [] ?;
  identities value ["interaction_id"; "suspension_id"] ?;
  digest_field value "prepared_digest" ?;
  enumeration value "reason" ["user"; "expired"; "turn_cancelled"; "operator"] ?;
  Ok tt.

Definition effect_preparation_rejected (value : Map) : Chk :=
  fields value ["source_model_request_id"; "model_call_id"; "proposed_tool_name"; "code";
    "failure_paths"] [] ?;
  identities value ["source_model_request_id"; "model_call_id"] ?;
  string_at value "proposed_tool_name" ?;
  enumeration value "code" ["invalid_tool_name"; "tool_not_admitted"; "invalid_arguments_json";
    "arguments_schema_mismatch"; "non_canonical_value"] ?;
  content value "failure_paths".

Definition effect_prepared (value : Map) : Chk :=
  fields value ["prepared_digest"; "tool_name"; "tool_revision"; "replay_class"; "model_call_id"]
    [] ?;
  digest_field value "prepared_digest" ?;
  identities value ["tool_name"; "tool_revision"; "model_call_id"] ?;
  enumeration value "replay_class" ["read_only"; "idempotent"; "receipt_recoverable";
    "never_replay"] ?;
  Ok tt.

Definition effect_authorized (value : Map) : Chk :=
  fields value ["prepared_digest"; "grant_id"; "authority_revision"; "granted_requirements"] [] ?;
  digest_field value "prepared_digest" ?;
  identities value ["grant_id"; "authority_revision"] ?;
  content value "granted_requirements".

Definition effect_denied (value : Map) : Chk :=
  fields value ["prepared_digest"; "code"] ["safe_details"] ?;
  digest_field value "prepared_digest" ?;
  enumeration value "code" ["authorization_denied"; "replacement_required"] ?;
  optional_content value "safe_details".

Definition effect_started (value : Map) : Chk :=
  fields value ["prepared_digest"; "grant_id"; "executor_id"; "executor_revision";
    "dispatch_attempt_id"] [] ?;
  digest_field value "prepared_digest" ?;
  identities value ["grant_id"; "executor_id"; "executor_revision"; "dispatch_attempt_id"].

Definition effect_receipt (value : Map) : Chk :=
  fields value ["receipt_id"; "prepared_digest"; "grant_id"; "executor_id"; "executor_revision";
    "classification"; "result_or_evidence"] [] ?;
  digest_field value "prepared_digest" ?;
  identities value ["receipt_id"; "grant_id"; "executor_id"; "executor_revision"] ?;
  enumeration value "classification" ["completed"; "failed"] ?;
  content value "result_or_evidence".

Definition effect_completed (value : Map) : Chk :=
  fields value ["prepared_digest"; "receipt_id"; "result"] [] ?;
  digest_field value "prepared_digest" ?;
  non_empty value "receipt_id" ?;
  content value "result".

Definition effect_failed (value : Map) : Chk :=
  fields value ["prepared_digest"; "code"] ["receipt_id"; "evidence"] ?;
  digest_field value "prepared_digest" ?;
  optional_non_empty value "receipt_id" ?;
  enumeration value "code" ["timeout"; "cancelled"; "tool_failure"; "requirement_unsupported";
    "executor_unavailable"] ?;
  optional_content value "evidence".

Definition effect_uncertain (value : Map) : Chk :=
  fields value ["prepared_digest"; "reason"] ["evidence"] ?;
  digest_field value "prepared_digest" ?;
  enumeration value "reason" ["started_without_receipt"; "receipt_invalid";
    "executor_state_unknown"] ?;
  optional_content value "evidence".

Definition effect_reconciled (value : Map) : Chk :=
  fields value ["prepared_digest"; "decision"; "operator_evidence"; "observation"] [] ?;
  digest_field value "prepared_digest" ?;
  enumeration value "decision" ["completed"; "failed"] ?;
  content value "operator_evidence" ?;
  content value "observation".

Definition effect_observation (value : Map) : Chk :=
  fields value ["prepared_digest"; "model_call_id"; "observation"] [] ?;
  digest_field value "prepared_digest" ?;
  non_empty value "model_call_id" ?;
  content value "observation".

Definition effect_schemas : list (string * (Map -> Chk)) :=
  [("interaction.requested", effect_interaction_requested);
   ("interaction.resolved", effect_interaction_resolved);
   ("interaction.cancelled", effect_interaction_cancelled);
   ("tool.preparation_rejected", effect_preparation_rejected);
   ("effect.prepared", effect_prepared);
   ("effect.authorized", effect_authorized);
   ("effect.denied", effect_denied);
   ("effect.started", effect_started);
   ("effect.receipt", effect_receipt);
   ("effect.completed", effect_completed);
   ("effect.failed", effect_failed);
   ("effect.uncertain", effect_uncertain);
   ("effect.reconciled", effect_reconciled);
   ("effect.observation", effect_observation)].

Definition effect_validate (kind : string) (value : Map) : Chk :=
  match assoc kind effect_schemas with Some check => check value | None => Err InvalidFact end.

Definition f0_exact_code (value : Map) (expected : string) : Chk :=
  if bool_decide (map_get "safe_code" value ≫= as_str = Some expected) then Ok tt
  else Err InvalidFact.

Definition f0_safety_decided (value : Map) : Chk :=
  fields value ["request_id"; "decision_id"; "disposition"; "prepared_digest"; "tool_name";
    "tool_revision"; "actor_authority_reference"; "exact_access_digest";
    "sandbox_requirements_digest"; "policy_revision"]
    ["goal_reference"; "plan_reference"; "constraints_digest"; "safe_code"] ?;
  identities value ["request_id"; "decision_id"; "tool_name"; "tool_revision";
    "actor_authority_reference"; "policy_revision"] ?;
  optional_non_empty value "goal_reference" ?;
  optional_non_empty value "plan_reference" ?;
  digests value ["prepared_digest"; "exact_access_digest"; "sandbox_requirements_digest"] ?;
  let? disposition := enumeration value "disposition" ["allow"; "deny"; "interaction_required"] in
  if (disposition =? "allow")%string && is_none (map_get "safe_code" value)
  then digest_field value "constraints_digest"
  else if (disposition =? "deny")%string && is_none (map_get "constraints_digest" value)
  then f0_exact_code value "safety_denied"
  else if (disposition =? "interaction_required")%string
          && is_none (map_get "constraints_digest" value)
  then f0_exact_code value "safety_interaction_required"
  else Err InvalidFact.

Definition f0_sandbox_bound (value : Map) : Chk :=
  fields value ["binding_id"; "decision_id"; "prepared_digest"; "workspace_capability_id";
    "executor_id"; "executor_revision"; "policy_revision"; "access_scope_digest";
    "enforcement_digest"; "effective_limits_digest"] [] ?;
  identities value ["binding_id"; "decision_id"; "workspace_capability_id"; "executor_id";
    "executor_revision"; "policy_revision"] ?;
  digests value ["prepared_digest"; "access_scope_digest"; "enforcement_digest";
    "effective_limits_digest"].

Definition f0_sandbox_preflighted (value : Map) : Chk :=
  fields value ["preflight_id"; "binding_id"; "decision_id"; "prepared_digest"; "grant_id";
    "executor_id"; "executor_revision"; "dispatch_attempt_id"] [] ?;
  identities value ["preflight_id"; "binding_id"; "decision_id"; "grant_id"; "executor_id";
    "executor_revision"; "dispatch_attempt_id"] ?;
  digest_field value "prepared_digest".

Definition f0_schemas : list (string * (Map -> Chk)) :=
  [("safety.decided", f0_safety_decided);
   ("sandbox.bound", f0_sandbox_bound);
   ("sandbox.preflighted", f0_sandbox_preflighted)].

Definition f0_validate (kind : string) (value : Map) : Chk :=
  match assoc kind f0_schemas with Some check => check value | None => Err InvalidFact end.


Definition artifact_validate (kind : string) (value : Map) : Chk :=
  reject InvalidFact when negb (kind =? "artifact.committed")%string;
  fields value ["artifact_id"; "revision"; "receipt_id"; "display_name"; "kind"; "mime_type";
    "byte_size"; "content_digest"; "verification"; "preview"; "workspace_id"; "revealable";
    "exportable"] [] ?;
  identities value ["artifact_id"; "receipt_id"; "display_name"; "mime_type"; "workspace_id"] ?;
  unsigned_field value "revision" true ?;
  unsigned_field value "byte_size" false ?;
  digest_field value "content_digest" ?;
  enumeration value "kind" ["text"; "file"] ?;
  enumeration value "verification" ["not_run"; "passed"; "failed"; "partial"] ?;
  enumeration value "preview" ["unavailable"; "text"] ?;
  try_for_each (fun key =>
    if is_some (map_get key value ≫= as_bool) then Ok tt else Err InvalidFact)
    ["revealable"; "exportable"].

End facts.
