(* ===== verification/FactsPlan.v ===== *)
(** * Goal, Plan and capability payload schemas

    ([runtime_facts/goal.rs], [plan.rs], [plan_step.rs], [delegation.rs],
    [scheduler.rs], [knowledge.rs], [skill.rs], [workspace.rs]) *)

From S2P Require Import Prelude Json LedgerTypes.

Section facts.
Context `{Externals}.

Abbreviation Chk := (result LedgerError unit) (only parsing).

Definition goal_common (value : Map) : Chk :=
  non_empty value "command_id" ?;
  non_empty value "goal_id" ?;
  unsigned_field value "revision" true.

Definition goal_created (value : Map) : Chk :=
  fields value ["command_id"; "goal_id"; "revision"; "definition_digest"; "definition";
    "actor_reference"] [] ?;
  goal_common value ?;
  reject InvalidFact when negb (bool_decide (u64_at value "revision" = Some 1));
  digest_field value "definition_digest" ?;
  content value "definition" ?;
  non_empty value "actor_reference".

Definition goal_revised (value : Map) : Chk :=
  fields value ["command_id"; "goal_id"; "previous_revision"; "revision";
    "previous_definition_digest"; "definition_digest"; "definition"; "replacement_reason";
    "actor_reference"] [] ?;
  goal_common value ?;
  unsigned_field value "previous_revision" true ?;
  reject InvalidFact when
    negb (bool_decide ((u64_at value "previous_revision" ≫= fun item => checked_add item 1)
                       = u64_at value "revision"));
  digest_field value "previous_definition_digest" ?;
  digest_field value "definition_digest" ?;
  content value "definition" ?;
  non_empty value "replacement_reason" ?;
  non_empty value "actor_reference".

Definition goal_activated (value : Map) : Chk :=
  fields value ["command_id"; "goal_id"; "revision"; "attempt_number"; "actor_reference"]
    ["plan_reference"] ?;
  goal_common value ?;
  unsigned_field value "attempt_number" true ?;
  optional_non_empty value "plan_reference" ?;
  non_empty value "actor_reference".

Definition goal_suspended (value : Map) : Chk :=
  fields value ["command_id"; "goal_id"; "revision"; "reason"; "actor_reference"]
    ["suspension_reference"] ?;
  goal_common value ?;
  non_empty value "reason" ?;
  optional_non_empty value "suspension_reference" ?;
  non_empty value "actor_reference".

Definition goal_succeeded (value : Map) : Chk :=
  fields value ["command_id"; "goal_id"; "revision"; "evidence"; "actor_reference"] [] ?;
  goal_common value ?;
  content value "evidence" ?;
  non_empty value "actor_reference".

Definition goal_failed (value : Map) : Chk :=
  fields value ["command_id"; "goal_id"; "revision"; "code"; "actor_reference"] ["evidence"] ?;
  goal_common value ?;
  non_empty value "code" ?;
  optional_content value "evidence" ?;
  non_empty value "actor_reference".

Definition goal_cancelled (value : Map) : Chk :=
  fields value ["command_id"; "goal_id"; "revision"; "reason"; "actor_reference"] [] ?;
  goal_common value ?;
  non_empty value "reason" ?;
  non_empty value "actor_reference".

Definition goal_schemas : list (string * (Map -> Chk)) :=
  [("goal.created", goal_created);
   ("goal.revised", goal_revised);
   ("goal.activated", goal_activated);
   ("goal.suspended", goal_suspended);
   ("goal.succeeded", goal_succeeded);
   ("goal.failed", goal_failed);
   ("goal.cancelled", goal_cancelled)].

Definition goal_validate (kind : string) (value : Map) : Chk :=
  match assoc kind goal_schemas with Some check => check value | None => Err InvalidFact end.

Definition plan_base (value : Map) : Chk :=
  non_empty value "command_id" ?;
  non_empty value "plan_id" ?;
  unsigned_field value "plan_revision" true.

Definition plan_mutation (value : Map) : Chk :=
  plan_base value ?;
  unsigned_field value "previous_state_version" true ?;
  unsigned_field value "state_version" true ?;
  reject InvalidFact when
    negb (bool_decide ((u64_at value "previous_state_version" ≫= fun previous => checked_add previous 1)
                       = u64_at value "state_version"));
  Ok tt.

Definition plan_mutation_with (value : Map) (additional optional : list string) : Chk :=
  fields value
    (["command_id"; "plan_id"; "plan_revision"] ++ ["previous_state_version"; "state_version"]
     ++ additional) optional ?;
  plan_mutation value.

Definition plan_continuation (value : Map) : Chk :=
  enumeration value "continuation_kind" ["interaction"; "policy"; "reconciliation"] ?;
  non_empty value "continuation_reference".

Definition plan_replan_source_values (value : Map) : Chk :=
  non_empty value "admission_fact_id" ?;
  non_empty value "source_plan_id" ?;
  unsigned_field value "source_plan_revision" true ?;
  digest_field value "source_plan_definition_digest".

Definition plan_proposal_result_bound_values (value : Map) : Chk :=
  identities value ["command_id"; "goal_id"; "request_fact_id"; "planner_turn_id";
    "planner_execution_id"; "terminal_fact_id"] ?;
  unsigned_field value "goal_revision" true ?;
  digests value ["goal_definition_digest"; "terminal_payload_digest"; "result_digest"] ?;
  Ok tt.

Definition plan_proposal_requested_values (value : Map) : Chk :=
  identities value ["command_id"; "goal_id"; "proposer_reference"; "turn_id"; "execution_id"] ?;
  unsigned_field value "goal_revision" true ?;
  unsigned_field value "expected_session_version" true ?;
  unsigned_field value "through_position" false ?;
  digests value ["goal_definition_digest"; "request_digest"; "output_schema_digest"] ?;
  Ok tt.

(** One iteration of the [any] over the failed step identities, which also
    collects them: a non-text, empty or repeated identity stops it. *)
Definition unique_step_id (seen : gset string) (value : Value) : result LedgerError (gset string) :=
  match as_str value with
  | Some id =>
      if str_is_empty id || bool_decide (id ∈ seen) then Err InvalidFact else Ok ({[id]} ∪ seen)
  | None => Err InvalidFact
  end.

Definition plan_replan_admitted (value : Map) : Chk :=
  fields value ["command_id"; "source_plan_id"; "source_plan_revision";
    "source_plan_definition_digest"; "goal_id"; "goal_revision"; "goal_definition_digest";
    "failed_step_ids"; "policy_reference"; "expected_session_version"; "through_position";
    "decision_evidence"] [] ?;
  identities value ["command_id"; "source_plan_id"; "goal_id"; "policy_reference"] ?;
  unsigned_field value "source_plan_revision" true ?;
  unsigned_field value "goal_revision" true ?;
  unsigned_field value "expected_session_version" true ?;
  unsigned_field value "through_position" false ?;
  digest_field value "source_plan_definition_digest" ?;
  digest_field value "goal_definition_digest" ?;
  content value "decision_evidence" ?;
  let? failed := ok_or (map_get "failed_step_ids" value ≫= as_array) InvalidFact in
  reject InvalidFact when (length failed =? 0)%nat;
  try_fold unique_step_id ∅ failed ?;
  Ok tt.

Definition plan_proposal_result_bound (value : Map) : Chk :=
  fields value ["command_id"; "goal_id"; "goal_revision"; "goal_definition_digest";
    "request_fact_id"; "planner_turn_id"; "planner_execution_id"; "terminal_fact_id";
    "terminal_payload_digest"; "result_digest"] [] ?;
  identities value ["command_id"; "goal_id"; "request_fact_id"; "planner_turn_id";
    "planner_execution_id"; "terminal_fact_id"] ?;
  unsigned_field value "goal_revision" true ?;
  digests value ["goal_definition_digest"; "terminal_payload_digest"; "result_digest"] ?;
  Ok tt.

Definition plan_replan_proposal_result_bound (value : Map) : Chk :=
  fields value ["command_id"; "goal_id"; "goal_revision"; "goal_definition_digest";
    "admission_fact_id"; "source_plan_id"; "source_plan_revision"; "source_plan_definition_digest";
    "request_fact_id"; "planner_turn_id"; "planner_execution_id"; "terminal_fact_id";
    "terminal_payload_digest"; "result_digest"] [] ?;
  plan_proposal_result_bound_values value ?;
  plan_replan_source_values value.

Definition plan_proposal_requested (value : Map) : Chk :=
  fields value ["command_id"; "goal_id"; "goal_revision"; "goal_definition_digest";
    "expected_session_version"; "through_position"; "proposer_reference"; "request_digest";
    "output_schema_digest"; "turn_id"; "execution_id"] [] ?;
  identities value ["command_id"; "goal_id"; "proposer_reference"; "turn_id"; "execution_id"] ?;
  unsigned_field value "goal_revision" true ?;
  unsigned_field value "expected_session_version" true ?;
  unsigned_field value "through_position" false ?;
  digests value ["goal_definition_digest"; "request_digest"; "output_schema_digest"] ?;
  Ok tt.

Definition plan_replan_proposal_requested (value : Map) : Chk :=
  fields value ["command_id"; "goal_id"; "goal_revision"; "goal_definition_digest";
    "admission_fact_id"; "source_plan_id"; "source_plan_revision"; "source_plan_definition_digest";
    "expected_session_version"; "through_position"; "proposer_reference"; "request_digest";
    "output_schema_digest"; "turn_id"; "execution_id"] [] ?;
  plan_proposal_requested_values value ?;
  plan_replan_source_values value.

Definition plan_proposed (value : Map) : Chk :=
  fields value ["command_id"; "plan_id"; "plan_revision"; "state_version"; "plan_digest";
    "definition"; "goal_id"; "goal_revision"; "goal_definition_digest"; "agent_snapshot_digest";
    "tool_catalogue_digest"; "safety_policy_revision"; "proposer_reference"] [] ?;
  plan_base value ?;
  reject InvalidFact when negb (bool_decide (u64_at value "state_version" = Some 1));
  digests value ["plan_digest"; "goal_definition_digest"; "agent_snapshot_digest";
    "tool_catalogue_digest"] ?;
  content value "definition" ?;
  non_empty value "goal_id" ?;
  unsigned_field value "goal_revision" true ?;
  non_empty value "safety_policy_revision" ?;
  non_empty value "proposer_reference".

Definition plan_adopted (value : Map) : Chk :=
  fields value ["command_id"; "plan_id"; "plan_revision"; "previous_state_version";
    "state_version"; "expected_goal_revision"; "actor_reference"; "policy_reference";
    "carry_forward_evidence"] ["expected_prior_plan_revision"] ?;
  plan_mutation value ?;
  unsigned_field value "expected_goal_revision" true ?;
  optional_unsigned value "expected_prior_plan_revision" ?;
  reject InvalidFact when
    opt_value_eqb (map_get "expected_prior_plan_revision" value) (Some (Num (PosInt 0)));
  non_empty value "actor_reference" ?;
  non_empty value "policy_reference" ?;
  content value "carry_forward_evidence".

Definition plan_rejected (value : Map) : Chk :=
  plan_mutation_with value ["actor_reference"; "policy_reference"; "reason"] [] ?;
  non_empty value "actor_reference" ?;
  non_empty value "policy_reference" ?;
  non_empty value "reason".

Definition plan_superseded (value : Map) : Chk :=
  plan_mutation_with value ["replacement_plan_id"; "replacement_plan_revision";
    "replacement_plan_digest"; "unresolved_work"] [] ?;
  non_empty value "replacement_plan_id" ?;
  unsigned_field value "replacement_plan_revision" true ?;
  digest_field value "replacement_plan_digest" ?;
  content value "unresolved_work".

Definition plan_suspended (value : Map) : Chk :=
  plan_mutation_with value ["continuation_kind"; "continuation_reference"] [] ?;
  plan_continuation value.

Definition plan_resumed (value : Map) : Chk :=
  plan_mutation_with value ["resolved_continuation_reference"] [] ?;
  non_empty value "resolved_continuation_reference".

Definition plan_completed (value : Map) : Chk :=
  plan_mutation_with value ["reduction_evidence"] [] ?;
  content value "reduction_evidence".

Definition plan_failed (value : Map) : Chk :=
  plan_mutation_with value ["reason"] ["evidence"] ?;
  non_empty value "reason" ?;
  optional_content value "evidence".

Definition plan_schemas : list (string * (Map -> Chk)) :=
  [("plan.proposal.requested", plan_proposal_requested);
   ("plan.proposal.result_bound", plan_proposal_result_bound);
   ("plan.replan.admitted", plan_replan_admitted);
   ("plan.replan.proposal.requested", plan_replan_proposal_requested);
   ("plan.replan.proposal.result_bound", plan_replan_proposal_result_bound);
   ("plan.proposed", plan_proposed);
   ("plan.adopted", plan_adopted);
   ("plan.rejected", plan_rejected);
   ("plan.superseded", plan_superseded);
   ("plan.suspended", plan_suspended);
   ("plan.resumed", plan_resumed);
   ("plan.completed", plan_completed);
   ("plan.failed", plan_failed)].

Definition plan_step_terminal_attempt (value : Map) : Chk :=
  non_empty value "step_id" ?;
  non_empty value "attempt_id" ?;
  non_empty value "execution_id".

Definition plan_step_claimed (value : Map) : Chk :=
  plan_mutation_with value ["step_id"; "step_digest"; "claim_id"; "worker_reference"; "lease_epoch";
    "clock_revision"; "claimed_at_tick"; "expires_at_tick"] [] ?;
  non_empty value "step_id" ?;
  digest_field value "step_digest" ?;
  non_empty value "claim_id" ?;
  non_empty value "worker_reference" ?;
  unsigned_field value "lease_epoch" true ?;
  non_empty value "clock_revision" ?;
  unsigned_field value "claimed_at_tick" false ?;
  unsigned_field value "expires_at_tick" false ?;
  reject InvalidFact when
    match u64_at value "expires_at_tick", u64_at value "claimed_at_tick" with
    | Some expires, Some claimed => expires <=? claimed
    | None, _ => true
    | Some _, None => false
    end;
  Ok tt.

Definition plan_step_claim_expired (value : Map) : Chk :=
  plan_mutation_with value ["step_id"; "claim_id"; "lease_epoch"; "clock_revision";
    "observed_at_tick"] [] ?;
  non_empty value "step_id" ?;
  non_empty value "claim_id" ?;
  unsigned_field value "lease_epoch" true ?;
  non_empty value "clock_revision" ?;
  unsigned_field value "observed_at_tick" false.

Definition plan_step_started (value : Map) : Chk :=
  plan_mutation_with value ["step_id"; "step_digest"; "claim_id"; "lease_epoch"; "clock_revision";
    "observed_at_tick"; "attempt_id"; "execution_id"; "execution_snapshot_digest"] [] ?;
  non_empty value "step_id" ?;
  digest_field value "step_digest" ?;
  non_empty value "claim_id" ?;
  unsigned_field value "lease_epoch" true ?;
  non_empty value "clock_revision" ?;
  unsigned_field value "observed_at_tick" false ?;
  non_empty value "attempt_id" ?;
  non_empty value "execution_id" ?;
  digest_field value "execution_snapshot_digest".

Definition plan_step_completed (value : Map) : Chk :=
  plan_mutation_with value ["step_id"; "attempt_id"; "execution_id"; "result_digest";
    "step_evidence"; "criterion_evidence"] [] ?;
  plan_step_terminal_attempt value ?;
  digest_field value "result_digest" ?;
  content value "step_evidence" ?;
  content value "criterion_evidence".

Definition plan_step_failed (value : Map) : Chk :=
  plan_mutation_with value ["step_id"; "attempt_id"; "execution_id"; "reason"; "retry_posture"]
    ["evidence"] ?;
  plan_step_terminal_attempt value ?;
  non_empty value "reason" ?;
  enumeration value "retry_posture" ["retry"; "suspend"; "replan"; "fail"] ?;
  optional_content value "evidence".

Definition plan_step_suspended (value : Map) : Chk :=
  plan_mutation_with value ["step_id"; "attempt_id"; "execution_id"; "continuation_kind";
    "continuation_reference"] [] ?;
  plan_step_terminal_attempt value ?;
  plan_continuation value.

Definition plan_step_resumed (value : Map) : Chk :=
  plan_mutation_with value ["step_id"; "attempt_id"; "prior_execution_id"; "execution_id";
    "resolved_continuation_reference"] [] ?;
  identities value ["step_id"; "attempt_id"; "prior_execution_id"; "execution_id"] ?;
  non_empty value "resolved_continuation_reference".

Definition plan_step_schemas : list (string * (Map -> Chk)) :=
  [("plan.step.claimed", plan_step_claimed);
   ("plan.step.claim_expired", plan_step_claim_expired);
   ("plan.step.started", plan_step_started);
   ("plan.step.completed", plan_step_completed);
   ("plan.step.failed", plan_step_failed);
   ("plan.step.suspended", plan_step_suspended);
   ("plan.step.resumed", plan_step_resumed)].

Definition plan_step_validate (kind : string) (value : Map) : Chk :=
  match assoc kind plan_step_schemas with Some check => check value | None => Err InvalidFact end.


Definition plan_validate (kind : string) (value : Map) : Chk :=
  match assoc kind plan_schemas with
  | Some check => check value
  | None => if starts_with "plan.step." kind then plan_step_validate kind value else Err InvalidFact
  end.

End facts.

(** ** Delegation, schedule, knowledge, skill and workspace payload schemas

    ([runtime_facts/delegation.rs], [scheduler.rs], [knowledge.rs], [skill.rs],
    [workspace.rs]) *)

Section facts.
Context `{Externals}.

Abbreviation Chk := (result LedgerError unit) (only parsing).

Definition DELEGATION_FAILURES : list string :=
  ["invalid_delegation"; "child_not_found"; "child_revision_mismatch"; "authority_denied";
   "budget_exhausted"; "budget_overflow"; "depth_exceeded"; "concurrency_exceeded";
   "result_schema_mismatch"; "delegation_conflict"; "child_state_corrupt"; "durability_failure";
   "corrupt_delegation_state"].

Definition BUDGET_FIELDS : list string :=
  ["max_child_turns"; "max_child_executions"; "max_iterations"; "max_input_tokens";
   "max_output_tokens"; "deadline_budget_ms"; "max_depth"; "max_objective_bytes";
   "max_input_evidence"; "max_result_schema_bytes"; "max_result_bytes"; "max_result_evidence"].

Definition delegation_budget (value : Map) : Chk :=
  fields value BUDGET_FIELDS [] ?;
  try_for_each (fun key => unsigned_field value key true) BUDGET_FIELDS ?;
  if bool_decide (u64_at value "max_child_turns" = Some 1) then Ok tt else Err InvalidFact.

Definition delegation_requested (value : Map) : Chk :=
  fields value ["delegation_id"; "parent_agent_instance_id"; "intent"; "intent_digest";
    "through_position"] [] ?;
  non_empty value "delegation_id" ?;
  non_empty value "parent_agent_instance_id" ?;
  content value "intent" ?;
  digest_field value "intent_digest" ?;
  unsigned_field value "through_position" false ?;
  same_binding_digest value "intent" "intent_digest".

Definition delegation_authorized (value : Map) : Chk :=
  fields value ["delegation_id"; "grant_id"; "intent_digest"; "reserved_budget";
    "authority_revision"] [] ?;
  identities value ["delegation_id"; "grant_id"; "authority_revision"] ?;
  digest_field value "intent_digest" ?;
  let? reserved := object_at value "reserved_budget" in
  delegation_budget reserved.

Definition delegation_denied (value : Map) : Chk :=
  fields value ["delegation_id"; "intent_digest"; "code"] [] ?;
  non_empty value "delegation_id" ?;
  digest_field value "intent_digest" ?;
  enumeration value "code" DELEGATION_FAILURES ?;
  Ok tt.

Definition delegation_child_started (value : Map) : Chk :=
  fields value ["delegation_id"; "grant_id"; "suspension_id"; "child_agent_instance_id";
    "child_turn_id"; "child_snapshot_digest"] [] ?;
  identities value ["delegation_id"; "grant_id"; "suspension_id"; "child_agent_instance_id";
    "child_turn_id"] ?;
  digest_field value "child_snapshot_digest".

Definition delegation_child_terminal (value : Map) : Chk :=
  fields value ["delegation_id"; "grant_id"; "result_id"; "suspension_id";
    "child_agent_instance_id"; "child_turn_id"; "result"; "result_digest"] [] ?;
  identities value ["delegation_id"; "grant_id"; "result_id"; "suspension_id";
    "child_agent_instance_id"; "child_turn_id"] ?;
  content value "result" ?;
  digest_field value "result_digest" ?;
  same_binding_digest value "result" "result_digest".

Definition delegation_observed (value : Map) : Chk :=
  fields value ["delegation_id"; "grant_id"; "result_id"; "suspension_id"; "result_digest"] [] ?;
  identities value ["delegation_id"; "grant_id"; "result_id"; "suspension_id"] ?;
  digest_field value "result_digest".

Definition delegation_schemas : list (string * (Map -> Chk)) :=
  [("delegation.requested", delegation_requested);
   ("delegation.authorized", delegation_authorized);
   ("delegation.denied", delegation_denied);
   ("delegation.child_started", delegation_child_started);
   ("delegation.child_terminal", delegation_child_terminal);
   ("delegation.observed", delegation_observed)].

Definition delegation_validate (kind : string) (value : Map) : Chk :=
  match assoc kind delegation_schemas with Some check => check value | None => Err InvalidFact end.

Definition schedule_exhausted (value : Map) : Chk :=
  fields value ["schedule_id"; "revision_id"; "last_handled_ordinal"] [] ?;
  non_empty value "schedule_id" ?;
  non_empty value "revision_id" ?;
  unsigned_field value "last_handled_ordinal" true.

Definition schedule_created (value : Map) : Chk :=
  fields value ["command_id"; "schedule_id"; "revision_id"; "intent"; "intent_digest"] [] ?;
  identities value ["command_id"; "schedule_id"; "revision_id"] ?;
  content value "intent" ?;
  digest_field value "intent_digest" ?;
  same_binding_digest value "intent" "intent_digest".

Definition schedule_claimed (value : Map) : Chk :=
  fields value ["schedule_id"; "revision_id"; "occurrence_id"; "ordinal"; "due_at_utc"; "lease_id";
    "lease_epoch"; "through_position"] [] ?;
  identities value ["schedule_id"; "revision_id"; "occurrence_id"; "lease_id"] ?;
  unsigned_field value "ordinal" true ?;
  timestamp value "due_at_utc" ?;
  unsigned_field value "lease_epoch" true ?;
  unsigned_field value "through_position" false.

Definition schedule_fired (value : Map) : Chk :=
  fields value ["schedule_id"; "revision_id"; "occurrence_id"; "ordinal"; "runtime_command_id";
    "disposition"; "committed_position"] [] ?;
  identities value ["schedule_id"; "revision_id"; "occurrence_id"; "runtime_command_id"] ?;
  unsigned_field value "ordinal" true ?;
  enumeration value "disposition" ["committed"; "replayed"] ?;
  unsigned_field value "committed_position" true.

Definition schedule_skipped (value : Map) : Chk :=
  fields value ["schedule_id"; "revision_id"; "first_ordinal"; "last_ordinal"; "first_due_at_utc";
    "last_due_at_utc"; "observed_at_utc"] [] ?;
  identities value ["schedule_id"; "revision_id"] ?;
  unsigned_field value "first_ordinal" true ?;
  unsigned_field value "last_ordinal" true ?;
  reject InvalidFact when
    match u64_at value "first_ordinal", u64_at value "last_ordinal" with
    | Some first, Some last => last <? first
    | Some _, None => true
    | None, _ => false
    end;
  try_for_each (timestamp value) ["first_due_at_utc"; "last_due_at_utc"; "observed_at_utc"].

Definition schedule_cancelled (value : Map) : Chk :=
  fields value ["command_id"; "schedule_id"; "expected_revision_id"; "reason"] [] ?;
  identities value ["command_id"; "schedule_id"; "expected_revision_id"] ?;
  enumeration value "reason" ["user"; "operator"; "policy"; "superseded"] ?;
  Ok tt.

Definition schedule_failed (value : Map) : Chk :=
  fields value ["schedule_id"; "revision_id"; "reason"] ["occurrence_id"; "ordinal"] ?;
  non_empty value "schedule_id" ?;
  non_empty value "revision_id" ?;
  let occurrence := contains_key value "occurrence_id" in
  reject InvalidFact when xorb occurrence (contains_key value "ordinal");
  (if occurrence then non_empty value "occurrence_id" ?; unsigned_field value "ordinal" true
   else Ok tt) ?;
  enumeration value "reason" ["invalid_schedule"; "schedule_not_found"; "revision_conflict";
    "subject_not_resumable"; "authority_denied"; "clock_invalid"; "occurrence_overflow";
    "misfire_limit_exceeded"; "lease_lost"; "dispatch_conflict"; "durability_failure";
    "corrupt_schedule_state"] ?;
  Ok tt.

Definition schedule_schemas : list (string * (Map -> Chk)) :=
  [("schedule.created", schedule_created);
   ("schedule.claimed", schedule_claimed);
   ("schedule.fired", schedule_fired);
   ("schedule.skipped", schedule_skipped);
   ("schedule.cancelled", schedule_cancelled);
   ("schedule.failed", schedule_failed);
   ("schedule.exhausted", schedule_exhausted)].

Definition schedule_validate (kind : string) (value : Map) : Chk :=
  match assoc kind schedule_schemas with Some check => check value | None => Err InvalidFact end.

Definition knowledge_evidence (value : Map) : Chk :=
  fields value ["evidence_id"; "content"; "content_byte_length"; "citation_kind";
    "citation_locator"; "citation_content_digest"; "retrieved_at_utc"; "freshness"; "trust_class";
    "rank_basis_points"] ["source_snapshot_digest"; "citation_title"; "canonical_uri"] ?;
  non_empty value "evidence_id" ?;
  (if contains_key value "source_snapshot_digest" then digest_field value "source_snapshot_digest"
   else Ok tt) ?;
  content value "content" ?;
  unsigned_field value "content_byte_length" true ?;
  let? binding := object_at value "content" in
  reject InvalidFact when
    is_some_and (fun text => negb (bool_decide (u64_at value "content_byte_length" = Some (str_len text))))
      (map_get "inline_utf8" binding ≫= as_str);
  enumeration value "citation_kind" ["uri_fragment"; "document_offset"; "record_key";
    "opaque_locator"] ?;
  non_empty value "citation_locator" ?;
  optional_non_empty value "citation_title" ?;
  optional_non_empty value "canonical_uri" ?;
  digest_field value "citation_content_digest" ?;
  reject InvalidFact when
    negb (opt_value_eqb (map_get "citation_content_digest" value) (map_get "digest" binding));
  timestamp value "retrieved_at_utc" ?;
  enumeration value "freshness" ["fresh"; "cached"; "stale"] ?;
  enumeration value "trust_class" ["curated"; "first_party"; "third_party"; "untrusted"] ?;
  unsigned_field value "rank_basis_points" false ?;
  reject InvalidFact when
    negb (is_some_and (fun rank => rank <=? 10000) (u64_at value "rank_basis_points"));
  Ok tt.

Definition knowledge_dispatched (value : Map) : Chk :=
  fields value ["request_id"; "request_digest"; "dispatch_attempt_id"] [] ?;
  non_empty value "request_id" ?;
  digest_field value "request_digest" ?;
  non_empty value "dispatch_attempt_id".

Definition knowledge_requested (value : Map) : Chk :=
  fields value ["request_id"; "source_id"; "source_revision"; "request_digest"; "mode"; "query";
    "filters"; "through_position"; "max_chunks"; "max_total_bytes"; "deadline_budget_ms";
    "freshness_kind"] ["exact_snapshot_digest"] ?;
  identities value ["request_id"; "source_id"; "source_revision"] ?;
  digest_field value "request_digest" ?;
  enumeration value "mode" ["keyword"; "semantic"; "structured"] ?;
  content value "query" ?;
  content value "filters" ?;
  unsigned_field value "through_position" false ?;
  try_for_each (fun key => unsigned_field value key true)
    ["max_chunks"; "max_total_bytes"; "deadline_budget_ms"] ?;
  let? freshness := enumeration value "freshness_kind"
    ["cached_allowed"; "revalidate"; "exact_snapshot"] in
  let exact := (freshness =? "exact_snapshot")%string in
  reject InvalidFact when xorb exact (contains_key value "exact_snapshot_digest");
  if exact then digest_field value "exact_snapshot_digest" else Ok tt.

Definition knowledge_completed (value : Map) : Chk :=
  fields value ["request_id"; "request_digest"; "evidence"; "truncated"] [] ?;
  non_empty value "request_id" ?;
  digest_field value "request_digest" ?;
  let? items := ok_or (map_get "evidence" value ≫= as_array) InvalidFact in
  try_for_each (fun item => let? item := fv_object item in knowledge_evidence item) items ?;
  boolean value "truncated" ?;
  Ok tt.

Definition knowledge_failed (value : Map) : Chk :=
  fields value ["request_id"; "request_digest"; "phase"; "reason"; "ambiguous"]
    ["retry_after_ms"] ?;
  non_empty value "request_id" ?;
  digest_field value "request_digest" ?;
  let? phase := enumeration value "phase" ["pre_dispatch"; "dispatched"; "response_validation"] in
  let? reason := enumeration value "reason" ["invalid_query"; "source_not_found";
    "source_revision_mismatch"; "source_denied"; "filter_unsupported"; "freshness_unavailable";
    "connector_unavailable"; "connector_rejected"; "retrieval_uncertain"; "citation_invalid";
    "content_digest_mismatch"; "limit_exceeded"; "durability_failure";
    "corrupt_knowledge_state"] in
  let? ambiguous := boolean value "ambiguous" in
  reject InvalidFact when
    xorb ambiguous ((phase =? "dispatched")%string && (reason =? "retrieval_uncertain")%string);
  if contains_key value "retry_after_ms" then unsigned_field value "retry_after_ms" true else Ok tt.

Definition knowledge_schemas : list (string * (Map -> Chk)) :=
  [("knowledge.requested", knowledge_requested);
   ("knowledge.dispatched", knowledge_dispatched);
   ("knowledge.completed", knowledge_completed);
   ("knowledge.failed", knowledge_failed)].

Definition knowledge_validate (kind : string) (value : Map) : Chk :=
  match assoc kind knowledge_schemas with Some check => check value | None => Err InvalidFact end.


Definition skill_entry (mode : string) (skill : Value) : Chk :=
  let? skill := fv_object skill in
  fields skill ["skill_id"; "skill_revision"; "definition_digest"; "instruction_digest"; "reason"]
    [] ?;
  non_empty skill "skill_id" ?;
  non_empty skill "skill_revision" ?;
  digest_field skill "definition_digest" ?;
  digest_field skill "instruction_digest" ?;
  let? reason := enumeration skill "reason" ["explicit"; "tag_match"] in
  reject InvalidFact when xorb (mode =? "explicit")%string (reason =? "explicit")%string;
  Ok tt.

Definition skill_validate (kind : string) (value : Map) : Chk :=
  reject InvalidFact when negb (kind =? "skill.activated")%string;
  fields value ["activation_id"; "request_digest"; "mode"; "through_position"; "skills";
    "truncated"] [] ?;
  non_empty value "activation_id" ?;
  digest_field value "request_digest" ?;
  let? mode := enumeration value "mode" ["explicit"; "tagged"] in
  unsigned_field value "through_position" false ?;
  let? skills := ok_or (map_get "skills" value ≫= as_array) InvalidFact in
  try_for_each (skill_entry mode) skills ?;
  let? truncated := boolean value "truncated" in
  reject InvalidFact when
    (mode =? "explicit")%string && (negb (length skills =? 1)%nat || truncated);
  Ok tt.

Definition MAX_CONTEXT_ENTRIES : Z := 8.
Definition MAX_CONTEXT_BYTES : Z := 60 * 1024.
Definition MAX_PUBLIC_TEXT_BYTES : Z := 128.

Definition bounded_text (value : Map) (key : string) : Chk :=
  non_empty value key ?;
  let? text := string_at value key in
  if MAX_PUBLIC_TEXT_BYTES <? str_len text then Err InvalidFact else Ok tt.

Definition workspace_detached (value : Map) : Chk :=
  fields value ["command_id"; "workspace_id"; "grant_revision"; "outcome"] [] ?;
  bounded_text value "command_id" ?;
  bounded_text value "workspace_id" ?;
  unsigned_field value "grant_revision" true ?;
  enumeration value "outcome" ["detached"; "already_detached"] ?;
  Ok tt.

(** One selected entry: the identities seen and the bytes counted so far. *)
Definition context_entry (acc : gset string * Z) (entry : Value)
    : result LedgerError (gset string * Z) :=
  let '(identities, total_bytes) := acc in
  let? entry := fv_object entry in
  fields entry ["entry_id"; "display_name"; "kind"; "content"] [] ?;
  bounded_text entry "entry_id" ?;
  bounded_text entry "display_name" ?;
  enumeration entry "kind" ["text"] ?;
  content entry "content" ?;
  let? id := string_at entry "entry_id" in
  reject InvalidFact when bool_decide (id ∈ identities);
  let? body := object_at entry "content" in
  let? text := string_at body "inline_utf8" in
  reject InvalidFact when MAX_CONTEXT_BYTES <? total_bytes + str_len text;
  Ok ({[id]} ∪ identities, total_bytes + str_len text).

Definition workspace_context_selected (value : Map) : Chk :=
  fields value ["command_id"; "workspace_id"; "grant_revision"; "entries"] [] ?;
  bounded_text value "command_id" ?;
  bounded_text value "workspace_id" ?;
  unsigned_field value "grant_revision" true ?;
  let? entries := ok_or (map_get "entries" value ≫= as_array) InvalidFact in
  reject InvalidFact when
    (length entries =? 0)%nat || (MAX_CONTEXT_ENTRIES <? Z.of_nat (length entries));
  try_fold context_entry (∅, 0) entries ?;
  Ok tt.

Definition workspace_attached (value : Map) : Chk :=
  fields value ["command_id"; "workspace_id"; "display_name"; "grant_revision"; "access"] [] ?;
  non_empty value "command_id" ?;
  non_empty value "workspace_id" ?;
  non_empty value "display_name" ?;
  unsigned_field value "grant_revision" true ?;
  enumeration value "access" ["enumerate"; "read_write"] ?;
  Ok tt.

Definition workspace_schemas : list (string * (Map -> Chk)) :=
  [("workspace.attached", workspace_attached);
   ("workspace.detached", workspace_detached);
   ("workspace.context_selected", workspace_context_selected)].

Definition workspace_validate (kind : string) (value : Map) : Chk :=
  match assoc kind workspace_schemas with Some check => check value | None => Err InvalidFact end.

End facts.
