(* ===== verification/FactsMemory.v ===== *)
(** * Memory payload schemas

    ([runtime_facts/memory.rs]) *)

From S2P Require Import Prelude Json LedgerTypes.

Section facts.
Context `{Externals}.

Abbreviation Chk := (result LedgerError unit) (only parsing).

Definition MEMORY_KINDS : list string :=
  ["preference"; "constraint"; "decision"; "learned_fact"; "summary"].
Definition SENSITIVITIES : list string := ["ordinary"; "restricted"].
Definition MEMORY_TYPES : list string := ["semantic"; "episodic"; "lesson"; "procedural"].
Definition AUTHORITIES : list string := ["user_declared"; "agent_learned"; "organisation_published"].
Definition MEMORY_STATES : list string := ["candidate"; "active"; "cold"; "archived"; "promoted"].
Definition CONTROL_SCOPES : list string :=
  ["session"; "agent_instance"; "user"; "project"; "platform"].

Definition memory_fact_reference (value : Map) : Chk :=
  fields value ["session_id"; "position"; "fact_id"; "payload_digest"] [] ?;
  non_empty value "session_id" ?;
  unsigned_field value "position" true ?;
  non_empty value "fact_id" ?;
  digest_field value "payload_digest".

Definition memory_basis_points (value : Map) (key : string) : Chk :=
  unsigned_field value key false ?;
  if is_some_and (fun points => points <=? 10000) (u64_at value key) then Ok tt else Err InvalidFact.

Definition memory_optional_timestamp (value : Map) (key : string) : Chk :=
  if contains_key value key then timestamp value key else Ok tt.

Definition memory_scope (value : Map) (key : string) : Chk :=
  let? scope := object_at value key in
  match map_get "kind" scope ≫= as_str with
  | Some k =>
      if (k =? "namespace")%string then fields scope ["kind"] []
      else if member k ["session"; "agent_instance"] then
        fields scope ["kind"; "owner_id"] [] ?; non_empty scope "owner_id"
      else Err InvalidFact
  | None => Err InvalidFact
  end.

(** [value.get(key).and_then(Value::as_array).filter(|items| !items.is_empty())]. *)
Definition non_empty_array (value : Map) (key : string) : result LedgerError (list Value) :=
  let? items := ok_or (map_get key value ≫= as_array) InvalidFact in
  if (length items =? 0)%nat then Err InvalidFact else Ok items.

Definition memory_evidence (value : Map) (key : string) : Chk :=
  let? evidence := non_empty_array value key in
  try_for_each (fun item => let? item := fv_object item in memory_fact_reference item) evidence.

Definition memory_revision_classified (value : Map) : Chk :=
  fields value ["classification_id"; "namespace_id"; "record_id"; "revision_id"; "memory_type";
    "authority"; "lifecycle"; "scope"; "scope_owner_id"; "policy_revision"; "source_commit"]
    ["aggregation_policy_digest"; "authority_receipt_digest"] ?;
  identities value ["classification_id"; "namespace_id"; "record_id"; "revision_id";
    "scope_owner_id"; "policy_revision"] ?;
  enumeration value "memory_type" MEMORY_TYPES ?;
  let? authority := enumeration value "authority" AUTHORITIES in
  enumeration value "lifecycle" ["candidate"; "active"] ?;
  let? scope := enumeration value "scope" CONTROL_SCOPES in
  (let? r := object_at value "source_commit" in memory_fact_reference r) ?;
  let requires_receipt := negb (authority =? "agent_learned")%string in
  reject InvalidFact when xorb requires_receipt (contains_key value "authority_receipt_digest");
  (if requires_receipt then digest_field value "authority_receipt_digest" else Ok tt) ?;
  let platform := (scope =? "platform")%string in
  reject InvalidFact when xorb platform (contains_key value "aggregation_policy_digest");
  if platform then digest_field value "aggregation_policy_digest" else Ok tt.

Definition memory_candidate (value : Map) : Chk :=
  fields value ["candidate_id"; "namespace_id"; "extractor_revision"; "source"; "intent_kind";
    "intent_digest"] [] ?;
  identities value ["candidate_id"; "namespace_id"; "extractor_revision"] ?;
  enumeration value "source" ["explicit_user_command"; "session_end"; "exit_summary";
    "scheduled_distillation"] ?;
  enumeration value "intent_kind" ["learn"; "forget"] ?;
  digest_field value "intent_digest".

Definition memory_maintenance_decision (value : Map) : Chk :=
  fields value ["decision_id"; "candidate_id"; "namespace_id"; "decision_kind"; "decision_digest"]
    [] ?;
  identities value ["decision_id"; "candidate_id"; "namespace_id"] ?;
  enumeration value "decision_kind" ["add"; "update"; "delete"; "noop"] ?;
  digest_field value "decision_digest".

Definition memory_distillation_checkpoint (value : Map) : Chk :=
  fields value ["checkpoint_id"; "namespace_id"; "extractor_revision"; "session_id";
    "through_position"; "batch_digest"] [] ?;
  identities value ["checkpoint_id"; "namespace_id"; "extractor_revision"; "session_id"] ?;
  unsigned_field value "through_position" true ?;
  digest_field value "batch_digest".

Definition memory_audit (value : Map) : Chk :=
  fields value ["audit_id"; "namespace_id"; "through_position"; "policy_digest";
    "inventory_digest"; "report_digest"; "action_count"; "truncated"] [] ?;
  identities value ["audit_id"; "namespace_id"] ?;
  unsigned_field value "through_position" true ?;
  digests value ["policy_digest"; "inventory_digest"; "report_digest"] ?;
  unsigned_field value "action_count" false ?;
  boolean value "truncated" ?;
  Ok tt.

Definition memory_promotion_request (value : Map) : Chk :=
  fields value ["request_id"; "namespace_id"; "record_id"; "revision_id"; "memory_type";
    "policy_revision"; "knowledge_proposal_id"; "evidence_digest"] [] ?;
  identities value ["request_id"; "namespace_id"; "record_id"; "revision_id"; "policy_revision";
    "knowledge_proposal_id"] ?;
  enumeration value "memory_type" MEMORY_TYPES ?;
  digest_field value "evidence_digest".

Definition memory_promotion_receipt (value : Map) : Chk :=
  fields value ["request_id"; "namespace_id"; "record_id"; "revision_id"; "knowledge_proposal_id";
    "knowledge_record_id"; "knowledge_revision_id"; "receipt_digest"] [] ?;
  identities value ["request_id"; "namespace_id"; "record_id"; "revision_id";
    "knowledge_proposal_id"; "knowledge_record_id"; "knowledge_revision_id"] ?;
  digest_field value "receipt_digest".

Definition erasure_order (kind : string) : Z :=
  if (kind =? "primary_store")%string then 0
  else if (kind =? "projection")%string then 1
  else if (kind =? "cache")%string then 2 else 3.

(** One erasure target; [prior] is the order and identity of the previous one. *)
Definition erasure_target (prior : option (Z * string)) (target : Value)
    : result LedgerError (option (Z * string)) :=
  let? target := fv_object target in
  fields target ["target_id"; "kind"] [] ?;
  non_empty target "target_id" ?;
  let? kind := enumeration target "kind" ["primary_store"; "projection"; "cache"; "backup"] in
  let order := erasure_order kind in
  let? id := string_at target "target_id" in
  reject InvalidFact when
    is_some_and (fun p : Z * string =>
      (order <? p.1) || ((order =? p.1) && (id <=? p.2)%string)) prior;
  Ok (Some (order, id)).

(** [filter(|items| !items.is_empty() && items.len() <= 64)]. *)
Definition bounded_array (value : Map) (key : string) : result LedgerError (list Value) :=
  let? items := ok_or (map_get key value ≫= as_array) InvalidFact in
  if (length items =? 0)%nat || (64 <? Z.of_nat (length items)) then Err InvalidFact else Ok items.

Definition memory_erasure_request (value : Map) : Chk :=
  fields value ["request_id"; "namespace_id"; "record_id"; "revision_id"; "tombstone_fact";
    "policy_revision"; "targets"] [] ?;
  identities value ["request_id"; "namespace_id"; "record_id"; "revision_id"; "policy_revision"] ?;
  (let? r := object_at value "tombstone_fact" in memory_fact_reference r) ?;
  let? targets := bounded_array value "targets" in
  try_fold erasure_target None targets ?;
  Ok tt.

(** One erasure result: the targets seen and whether all were complete so far. *)
Definition erasure_result (attempted : Z) (acc : gset string * bool) (result : Value)
    : Prelude.result LedgerError (gset string * bool) :=
  let '(targets, complete) := acc in
  let? result := fv_object result in
  fields result ["target_id"; "status"; "receipt_digest"] ["not_before_position"] ?;
  non_empty result "target_id" ?;
  let? id := string_at result "target_id" in
  reject InvalidFact when bool_decide (id ∈ targets);
  let? status := enumeration result "status" ["erased"; "not_present"; "pending_backup_retention";
    "pending_retry"] in
  digest_field result "receipt_digest" ?;
  let pending_backup := (status =? "pending_backup_retention")%string in
  reject InvalidFact when xorb pending_backup (contains_key result "not_before_position");
  (if pending_backup then
     unsigned_field result "not_before_position" true ?;
     if is_some_and (fun position => position <=? attempted) (u64_at result "not_before_position")
     then Err InvalidFact else Ok tt
   else Ok tt) ?;
  Ok ({[id]} ∪ targets, complete && member status ["erased"; "not_present"]).

Definition memory_erasure_receipt (value : Map) : Chk :=
  fields value ["request_id"; "namespace_id"; "record_id"; "revision_id"; "attempt_id";
    "attempted_at_position"; "results"; "disposition"] [] ?;
  identities value ["request_id"; "namespace_id"; "record_id"; "revision_id"; "attempt_id"] ?;
  unsigned_field value "attempted_at_position" true ?;
  let? attempted := ok_or (u64_at value "attempted_at_position") InvalidFact in
  let? results := bounded_array value "results" in
  let? (_, complete) := try_fold (erasure_result attempted) (∅, true) results in
  let? disposition := enumeration value "disposition" ["complete"; "partial"] in
  reject InvalidFact when xorb (disposition =? "complete")%string complete;
  Ok tt.

Definition recall_exploration (value : Map) : result LedgerError bool :=
  match map_get "exploration" value with
  | None => Ok false
  | Some exploration =>
      let? exploration := fv_object exploration in
      fields exploration ["algorithm_revision"; "seed"; "slots"] [] ?;
      enumeration exploration "algorithm_revision" ["hash-explore-v1"] ?;
      unsigned_field exploration "seed" false ?;
      unsigned_field exploration "slots" true ?;
      Ok true
  end.

Definition valid_draw (draw : string) : bool :=
  (str_len draw =? 16)
  && all_bytes (fun b => is_ascii_digit b || ((97 <=? byte_code b) && (byte_code b <=? 102))) draw.

(** One recalled item; [bytes] counts the content selected so far. *)
Definition recall_item (product : string) (explores : bool) (bytes : Z) (item : Value)
    : result LedgerError Z :=
  let? item := fv_object item in
  fields item ["record_id"; "revision_id"; "memory_type"; "role"; "authority"; "state";
    "safe_label"; "content_digest"; "content_byte_length"; "evidence_count";
    "relevance_basis_points"; "recency_basis_points"; "importance_basis_points";
    "selection_kind"] ["draw_hex"] ?;
  identities item ["record_id"; "revision_id"; "safe_label"] ?;
  reject InvalidFact when
    is_none_or (fun text => 256 <? str_len text) (map_get "safe_label" item ≫= as_str);
  enumeration item "memory_type" MEMORY_TYPES ?;
  enumeration item "role" MEMORY_KINDS ?;
  enumeration item "authority" AUTHORITIES ?;
  let? state := enumeration item "state" MEMORY_STATES in
  reject InvalidFact when
    (state =? "promoted")%string || ((product =? "menu")%string && (state =? "archived")%string);
  digest_field item "content_digest" ?;
  unsigned_field item "content_byte_length" true ?;
  unsigned_field item "evidence_count" true ?;
  try_for_each (memory_basis_points item) ["relevance_basis_points"; "recency_basis_points";
    "importance_basis_points"] ?;
  let? selection := enumeration item "selection_kind" ["ranked"; "explored"] in
  let explored := (selection =? "explored")%string in
  reject InvalidFact when
    xorb explored (contains_key item "draw_hex") || (explored && negb explores);
  reject InvalidFact when
    is_some_and (fun draw => negb (valid_draw draw)) (map_get "draw_hex" item ≫= as_str);
  let? size := ok_or (u64_at item "content_byte_length") InvalidFact in
  ok_or (checked_add bytes size) InvalidFact.

Definition memory_recall (value : Map) : Chk :=
  fields value ["selection_id"; "request_digest"; "namespace_id"; "product";
    "selection_policy_revision"; "through_position"; "max_items"; "max_total_bytes"; "items";
    "truncated"] ["exploration"] ?;
  identities value ["selection_id"; "namespace_id"; "selection_policy_revision"] ?;
  digest_field value "request_digest" ?;
  let? product := enumeration value "product" ["menu"; "detail"] in
  unsigned_field value "through_position" false ?;
  unsigned_field value "max_items" true ?;
  unsigned_field value "max_total_bytes" true ?;
  let? explores := recall_exploration value in
  let? items := ok_or (map_get "items" value ≫= as_array) InvalidFact in
  let? max_items := ok_or (u64_at value "max_items") InvalidFact in
  reject InvalidFact when max_items <? Z.of_nat (length items);
  let? bytes := try_fold (recall_item product explores) 0 items in
  let? max_total_bytes := ok_or (u64_at value "max_total_bytes") InvalidFact in
  reject InvalidFact when max_total_bytes <? bytes;
  boolean value "truncated" ?;
  Ok tt.

Definition memory_obligation (value : Map) : Chk :=
  fields value ["obligation_id"; "namespace_id"; "record_id"; "revision_id"; "recall_fact";
    "selection_id"; "application_fact"; "expected_outcome_digest"; "application_scope_digest";
    "attribution_policy_revision"; "expires_at_position"] [] ?;
  identities value ["obligation_id"; "namespace_id"; "record_id"; "revision_id"; "selection_id";
    "attribution_policy_revision"] ?;
  (let? r := object_at value "recall_fact" in memory_fact_reference r) ?;
  (let? r := object_at value "application_fact" in memory_fact_reference r) ?;
  digest_field value "expected_outcome_digest" ?;
  digest_field value "application_scope_digest" ?;
  unsigned_field value "expires_at_position" true ?;
  Ok tt.

Definition observation_evidence (entry : Value) : Chk :=
  let? entry := fv_object entry in
  fields entry ["kind"; "fact"] [] ?;
  enumeration entry "kind" ["tool_result"; "test_result"; "effect_receipt"; "user_correction";
    "deterministic_verifier"] ?;
  let? fact := object_at entry "fact" in
  memory_fact_reference fact.

Definition observation_verdict (verdict : Map) : Chk :=
  match map_get "kind" verdict ≫= as_str with
  | Some k =>
      if (k =? "verified")%string then fields verdict ["kind"] []
      else if (k =? "neutral")%string then
        fields verdict ["kind"; "safe_reason"] [] ?; non_empty verdict "safe_reason"
      else if (k =? "falsified")%string then
        fields verdict ["kind"; "in_scope"] ["observed_scope_digest"] ?;
        let? in_scope := boolean verdict "in_scope" in
        reject InvalidFact when Bool.eqb in_scope (contains_key verdict "observed_scope_digest");
        if in_scope then Ok tt else digest_field verdict "observed_scope_digest"
      else Err InvalidFact
  | None => Err InvalidFact
  end.

Definition memory_observation (value : Map) : Chk :=
  fields value ["observation_id"; "obligation_id"; "namespace_id"; "position";
    "verifier_revision"; "evidence"; "verdict"] [] ?;
  identities value ["observation_id"; "obligation_id"; "namespace_id"; "verifier_revision"] ?;
  unsigned_field value "position" true ?;
  let? evidence := non_empty_array value "evidence" in
  try_for_each observation_evidence evidence ?;
  let? verdict := object_at value "verdict" in
  observation_verdict verdict.

Definition memory_lifecycle (value : Map) : Chk :=
  fields value ["transition_id"; "namespace_id"; "record_id"; "revision_id"; "from_state";
    "to_state"; "verified"; "falsified"; "neutral"; "last_observed_position"; "cause_kind";
    "cause_id"] ["promoted_knowledge_receipt_digest"] ?;
  identities value ["transition_id"; "namespace_id"; "record_id"; "revision_id"; "cause_id"] ?;
  enumeration value "from_state" MEMORY_STATES ?;
  let? state := enumeration value "to_state" MEMORY_STATES in
  try_for_each (fun key => unsigned_field value key false) ["verified"; "falsified"; "neutral"] ?;
  unsigned_field value "last_observed_position" true ?;
  enumeration value "cause_kind" ["observation"; "maintenance"; "promotion";
    "toolchain_changed"] ?;
  let promoted := (state =? "promoted")%string in
  reject InvalidFact when xorb promoted (contains_key value "promoted_knowledge_receipt_digest");
  if promoted then digest_field value "promoted_knowledge_receipt_digest" else Ok tt.

Definition memory_proposal (value : Map) : Chk :=
  fields value ["proposal_id"; "namespace_id"; "scope"; "kind"; "content"; "evidence";
    "sensitivity"; "confidence_basis_points"] ["expected_active_revision_id"] ?;
  non_empty value "proposal_id" ?;
  non_empty value "namespace_id" ?;
  memory_scope value "scope" ?;
  enumeration value "kind" MEMORY_KINDS ?;
  content value "content" ?;
  memory_evidence value "evidence" ?;
  enumeration value "sensitivity" SENSITIVITIES ?;
  memory_basis_points value "confidence_basis_points" ?;
  optional_non_empty value "expected_active_revision_id".

Definition memory_committed (value : Map) : Chk :=
  fields value ["proposal_id"; "record_id"; "revision_id"; "namespace_id"; "scope"; "kind";
    "content"; "evidence"; "sensitivity"; "confidence_basis_points"; "valid_from_position";
    "retention_policy_digest"] ["expires_at_utc"; "supersedes_revision_id"] ?;
  identities value ["proposal_id"; "record_id"; "revision_id"; "namespace_id"] ?;
  memory_scope value "scope" ?;
  enumeration value "kind" MEMORY_KINDS ?;
  content value "content" ?;
  memory_evidence value "evidence" ?;
  enumeration value "sensitivity" SENSITIVITIES ?;
  memory_basis_points value "confidence_basis_points" ?;
  unsigned_field value "valid_from_position" true ?;
  digest_field value "retention_policy_digest" ?;
  optional_non_empty value "supersedes_revision_id" ?;
  memory_optional_timestamp value "expires_at_utc".

Definition memory_rejected (value : Map) : Chk :=
  fields value ["proposal_id"; "reason"] [] ?;
  non_empty value "proposal_id" ?;
  enumeration value "reason" ["namespace_denied"; "evidence_not_found"; "evidence_mismatch";
    "revision_conflict"; "retention_rejected"; "sensitivity_denied"; "limit_exceeded";
    "unsupported"] ?;
  Ok tt.

Definition memory_superseded (value : Map) : Chk :=
  fields value ["record_id"; "old_revision_id"; "new_revision_id"; "proposal_id"] [] ?;
  identities value ["record_id"; "old_revision_id"; "new_revision_id"; "proposal_id"] ?;
  reject InvalidFact when
    opt_value_eqb (map_get "old_revision_id" value) (map_get "new_revision_id" value);
  Ok tt.

Definition memory_tombstoned (value : Map) : Chk :=
  fields value ["command_id"; "namespace_id"; "record_id"; "revision_id"; "reason"] [] ?;
  identities value ["command_id"; "namespace_id"; "record_id"; "revision_id"] ?;
  enumeration value "reason" ["expired"; "superseded"; "user_request"; "policy"; "corrupt_source"]
    ?;
  Ok tt.

(** One retrieved match, under the restricted-content grant of the query. *)
Definition retrieval_match (include : bool) (item : Value) : Chk :=
  let? item := fv_object item in
  fields item ["record_id"; "revision_id"; "content"; "content_byte_length"; "evidence";
    "relevance_basis_points"; "sensitivity"] [] ?;
  non_empty item "record_id" ?;
  non_empty item "revision_id" ?;
  content item "content" ?;
  unsigned_field item "content_byte_length" true ?;
  let? binding := object_at item "content" in
  reject InvalidFact when
    is_some_and (fun text => negb (bool_decide (u64_at item "content_byte_length" = Some (str_len text))))
      (map_get "inline_utf8" binding ≫= as_str);
  memory_evidence item "evidence" ?;
  memory_basis_points item "relevance_basis_points" ?;
  let? sensitivity := enumeration item "sensitivity" SENSITIVITIES in
  reject InvalidFact when (sensitivity =? "restricted")%string && negb include;
  Ok tt.

Definition memory_retrieval (value : Map) : Chk :=
  fields value ["query_id"; "query_digest"; "namespace_id"; "retriever_revision";
    "through_position"; "as_of_utc"; "max_results"; "max_total_bytes"; "include_restricted";
    "matches"; "truncated"] ["restricted_grant_digest"] ?;
  identities value ["query_id"; "namespace_id"; "retriever_revision"] ?;
  digest_field value "query_digest" ?;
  unsigned_field value "through_position" false ?;
  timestamp value "as_of_utc" ?;
  unsigned_field value "max_results" true ?;
  unsigned_field value "max_total_bytes" true ?;
  let? include := boolean value "include_restricted" in
  reject InvalidFact when xorb include (contains_key value "restricted_grant_digest");
  (if include then digest_field value "restricted_grant_digest" else Ok tt) ?;
  let? matches := ok_or (map_get "matches" value ≫= as_array) InvalidFact in
  try_for_each (retrieval_match include) matches ?;
  boolean value "truncated" ?;
  Ok tt.

Definition memory_schemas : list (string * (Map -> Chk)) :=
  [("memory.proposed", memory_proposal);
   ("memory.committed", memory_committed);
   ("memory.revision_classified", memory_revision_classified);
   ("memory.rejected", memory_rejected);
   ("memory.superseded", memory_superseded);
   ("memory.tombstoned", memory_tombstoned);
   ("memory.retrieval_recorded", memory_retrieval);
   ("memory.recall_recorded", memory_recall);
   ("memory.obligation_opened", memory_obligation);
   ("memory.observation_recorded", memory_observation);
   ("memory.lifecycle_transitioned", memory_lifecycle);
   ("memory.candidate_recorded", memory_candidate);
   ("memory.maintenance_decided", memory_maintenance_decision);
   ("memory.distillation_checkpointed", memory_distillation_checkpoint);
   ("memory.audit_recorded", memory_audit);
   ("memory.promotion_requested", memory_promotion_request);
   ("memory.promotion_recorded", memory_promotion_receipt);
   ("memory.erasure_requested", memory_erasure_request);
   ("memory.erasure_recorded", memory_erasure_receipt)].

Definition memory_validate (kind : string) (value : Map) : Chk :=
  match assoc kind memory_schemas with Some check => check value | None => Err InvalidFact end.

End facts.
