(* ===== verification/RuntimeFacts.v ===== *)
(** * Runtime fact validation ([engine/ledger/src/runtime_facts/mod.rs])

    The dispatcher over the payload schemas: which fact kinds are admitted at
    which schema version, the envelope identities each family carries, and the
    schema its payload is checked against. *)

From S2P Require Import Prelude Json LedgerTypes FactsTurn FactsPlan FactsMemory.

Inductive RuntimeFactDisposition := AppliedV1 | AppliedV2 | AppliedV3 | Opaque.

#[export] Instance RuntimeFactDisposition_eq_dec : EqDecision RuntimeFactDisposition.
Proof. solve_decision. Defined.

Section dispatch.
Context `{Externals}.

(** [kind.starts_with(prefix)] for the family prefixes, and the two exact kinds. *)
Definition execution_family (kind : string) : bool := starts_with "execution." kind.
Definition model_family (kind : string) : bool := starts_with "model." kind.
Definition effect_family (kind : string) : bool :=
  starts_with "effect." kind || starts_with "interaction." kind.
Definition f0_family (kind : string) : bool :=
  starts_with "safety." kind || starts_with "sandbox." kind.
Definition skill_family (kind : string) : bool := starts_with "skill." kind.
Definition memory_family (kind : string) : bool := starts_with "memory." kind.
Definition knowledge_family (kind : string) : bool := starts_with "knowledge." kind.
Definition scheduler_family (kind : string) : bool := starts_with "schedule." kind.
Definition delegation_family (kind : string) : bool := starts_with "delegation." kind.
Definition workspace_family (kind : string) : bool := starts_with "workspace." kind.
Definition artifact_family (kind : string) : bool := starts_with "artifact." kind.
Definition goal_family (kind : string) : bool := starts_with "goal." kind.
Definition plan_family (kind : string) : bool := starts_with "plan." kind.
Definition is_rejection (kind : string) : bool := (kind =? "tool.preparation_rejected")%string.

Definition memory_session_scoped (kind : string) : bool :=
  member kind
    ["memory.tombstoned"; "memory.revision_classified"; "memory.observation_recorded";
     "memory.lifecycle_transitioned"; "memory.candidate_recorded"; "memory.maintenance_decided";
     "memory.distillation_checkpointed"; "memory.audit_recorded"; "memory.promotion_requested";
     "memory.promotion_recorded"; "memory.erasure_requested"; "memory.erasure_recorded"].

Definition admitted_family (kind : string) : bool :=
  starts_with "turn." kind || execution_family kind || model_family kind || effect_family kind
  || f0_family kind || skill_family kind || memory_family kind || knowledge_family kind
  || scheduler_family kind || delegation_family kind || workspace_family kind
  || artifact_family kind || goal_family kind || plan_family kind || is_rejection kind.

(** Which identities the outer envelope of a kind carries. *)
Definition needs_turn (kind : string) : bool :=
  negb (memory_session_scoped kind || scheduler_family kind || workspace_family kind
        || goal_family kind || plan_family kind).
Definition needs_execution (kind : string) : bool :=
  execution_family kind || model_family kind || effect_family kind || f0_family kind
  || skill_family kind || is_rejection kind
  || (memory_family kind && negb (memory_session_scoped kind))
  || knowledge_family kind || delegation_family kind || artifact_family kind.
Definition needs_model_request (kind : string) : bool := model_family kind || is_rejection kind.
Definition needs_tool_invocation (kind : string) : bool :=
  effect_family kind || f0_family kind || artifact_family kind.

Definition effect_prepared_v2 (fact : FactDraft) : bool :=
  (kind fact =? "effect.prepared")%string && (schema_version fact =? 2).
Definition effect_prepared_v3 (fact : FactDraft) : bool :=
  (kind fact =? "effect.prepared")%string && (schema_version fact =? 3).
Definition effect_authorized_v2 (fact : FactDraft) : bool :=
  (kind fact =? "effect.authorized")%string && (schema_version fact =? 2).

Definition validate_payload (fact : FactDraft) (payload : Map) : result LedgerError unit :=
  let k := kind fact in
  if artifact_family k then artifact_validate k payload
  else if goal_family k then goal_validate k payload
  else if plan_family k then plan_validate k payload
  else if workspace_family k then workspace_validate k payload
  else if effect_prepared_v2 fact then effect_validate_prepared_v2 payload
  else if effect_prepared_v3 fact then effect_validate_prepared_v3 payload
  else if effect_authorized_v2 fact then effect_validate_authorized_v2 payload
  else if f0_family k then f0_validate k payload
  else if delegation_family k then delegation_validate k payload
  else if scheduler_family k then schedule_validate k payload
  else if knowledge_family k then knowledge_validate k payload
  else if memory_family k then memory_validate k payload
  else if skill_family k then skill_validate k payload
  else if effect_family k || is_rejection k then effect_validate k payload
  else if model_family k then model_validate k payload
  else turn_validate k payload.

Definition validate_runtime_fact (fact : FactDraft) : result LedgerError RuntimeFactDisposition :=
  let k := kind fact in
  if negb (admitted_family k) then Ok Opaque
  else if negb (schema_version fact =? 1) && negb (effect_prepared_v2 fact)
          && negb (effect_prepared_v3 fact) && negb (effect_authorized_v2 fact)
  then Ok Opaque
  else
    reject InvalidFact when
      xorb (is_some (turn_id fact)) (needs_turn k)
      || xorb (is_some (execution_id fact)) (needs_execution k)
      || xorb (is_some (model_request_id fact)) (needs_model_request k)
      || xorb (is_some (tool_invocation_id fact)) (needs_tool_invocation k);
    let? value := ok_or (json_from_str (payload_json (payload fact))) InvalidFact in
    let? payload := fv_object value in
    validate_payload fact payload ?;
    Ok (if effect_prepared_v2 fact || effect_authorized_v2 fact then AppliedV2
        else if effect_prepared_v3 fact then AppliedV3 else AppliedV1).

End dispatch.
