(* ===== verification/FactShapes.v ===== *)
(** * The shapes of runtime facts

    One flat table of what an applied fact looks like: for every kind and schema version the
    identities its envelope carries and the fields of its payload, required or optional, each
    with what its value must be.  The table is written down here on its own; that the dispatcher
    and the payload schemas of [runtime_facts] enforce it is proved in [RuntimeFactTheorems]. *)

From S2P Require Import Prelude Json LedgerTypes.

(** The identities an envelope carries. *)
Inductive FactScope := SessionScope | TurnScope | ExecutionScope | ModelScope | InvocationScope.

Definition carries (scope : FactScope) (f : FactDraft) : Prop :=
  match scope with
  | SessionScope => turn_id f = None /\ execution_id f = None /\ model_request_id f = None /\ tool_invocation_id f = None
  | TurnScope =>
      is_Some (turn_id f) /\ execution_id f = None /\ model_request_id f = None /\ tool_invocation_id f = None
  | ExecutionScope =>
      is_Some (turn_id f) /\ is_Some (execution_id f) /\ model_request_id f = None /\ tool_invocation_id f = None
  | ModelScope =>
      is_Some (turn_id f) /\ is_Some (execution_id f) /\ is_Some (model_request_id f) /\ tool_invocation_id f = None
  | InvocationScope =>
      is_Some (turn_id f) /\ is_Some (execution_id f) /\ model_request_id f = None /\ is_Some (tool_invocation_id f)
  end.

(** ** Fields *)

Inductive FieldType :=
  | FAny | FText | FIdentity | FDigest | FTime | FFlag | FCount | FPositive
  | FExactly (n : Z) | FChoice (allowed : list string) | FContent | FObject | FArray.
Record FactField := mkField { ff_name : string; ff_required : bool; ff_type : FieldType }.
Definition must (name : string) (type : FieldType) : FactField := mkField name true type.
Definition may (name : string) (type : FieldType) : FactField := mkField name false type.
Record FactShape := mkShape { fs_scope : FactScope; fs_fields : list FactField }.

Definition digest_text (text : string) : Prop :=
  str_len text = 64 /\ Forall (fun c => c ∈ list_ascii_of_string "0123456789abcdef") (list_ascii_of_string text).

Section shapes.
Context `{Externals}.

(** A binding names its content by digest: inline text of that digest, or a reference. *)
Definition binds_content (binding : Map) : Prop :=
  (forall key, key ∈ binding.*1 -> key ∈ ["digest"; "inline_utf8"; "reference"]) /\
  exists digest, map_get "digest" binding = Some (Str digest) /\ digest_text digest /\
    ((exists text, map_get "inline_utf8" binding = Some (Str text) /\ map_get "reference" binding = None /\
        sha256_hex text = digest) \/
     (exists reference, map_get "inline_utf8" binding = None /\ map_get "reference" binding = Some (Str reference) /\
        reference <> "")).

Definition has_type (type : FieldType) (value : Value) : Prop :=
  match type with
  | FAny => True
  | FText => exists text, value = Str text
  | FIdentity => exists text, value = Str text /\ text <> ""
  | FDigest => exists text, value = Str text /\ digest_text text
  | FTime => exists text, value = Str text /\ is_Some (canonical_utc text)
  | FFlag => exists flag, value = Bool flag
  | FCount => exists n, value = Num (PosInt n)
  | FPositive => exists n, value = Num (PosInt n) /\ n <> 0
  | FExactly n => value = Num (PosInt n)
  | FChoice allowed => exists text, value = Str text /\ text ∈ allowed
  | FContent => exists binding, value = Obj binding /\ binds_content binding
  | FObject => exists object, value = Obj object
  | FArray => exists items, value = Arr items
  end.

Definition field_ok (m : Map) (field : FactField) : Prop :=
  match map_get (ff_name field) m with
  | Some value => has_type (ff_type field) value
  | None => ff_required field = false
  end.

(** Every field is as the shape says, and there are no others. *)
Definition payload_ok (m : Map) (shape : FactShape) : Prop :=
  (forall key, key ∈ m.*1 -> key ∈ (ff_name <$> fs_fields shape)) /\ Forall (field_ok m) (fs_fields shape).
End shapes.

(** ** The table *)

Definition turn_shapes : list (string * FactShape) :=
  [
    ("turn.started", mkShape TurnScope [must "command_id" FIdentity;
      must "kind" (FChoice ["start"; "continue"]); must "agent_instance_id" FIdentity;
      must "definition_id" FIdentity; must "definition_revision" FIdentity; must "snapshot_digest" FDigest;
      must "trusted_input_digest" FDigest; may "prior_suspension_id" FIdentity;
      may "expected_session_version" FPositive]);
    ("turn.input", mkShape TurnScope [
      must "input_kind" (FChoice ["trusted_user"; "trusted_system"; "external_input"; "interaction_string";
        "interaction_json"; "reconciliation"; "resource_ready"; "delegation_result"]);
      must "content" FContent; may "suspension_id" FIdentity]);
    ("turn.cancel_requested", mkShape TurnScope [must "command_id" FIdentity;
      must "reason" (FChoice ["user"; "deadline"; "shutdown"; "operator"; "policy"]);
      must "requested_through_position" FCount]);
    ("turn.suspended", mkShape TurnScope [must "suspension_id" FIdentity; must "execution_id" FIdentity;
      must "reason" (FChoice ["approval_required"; "external_input_required"; "operator_reconciliation";
        "resource_unavailable"; "partial_output"; "delegation_pending"]);
      must "continuation" FContent; must "cumulative_usage" FObject]);
    ("turn.completed", mkShape TurnScope [must "execution_id" FIdentity; must "response" FContent;
      must "cumulative_usage" FObject]);
    ("turn.stopped", mkShape TurnScope [must "execution_id" FIdentity;
      must "reason" (FChoice ["iteration_limit"; "token_limit"; "deadline"; "cancelled";
        "resource_unavailable"]);
      must "cumulative_usage" FObject; may "evidence" FContent]);
    ("turn.failed", mkShape TurnScope [must "execution_id" FIdentity;
      must "reason" (FChoice ["invalid_input"; "invalid_model_output"; "required_capability_unavailable";
        "port_failure"; "invariant_violation"; "durability_failure"; "corrupt_recovery_state"]);
      must "cumulative_usage" FObject; may "evidence" FContent]);
    ("turn.steered", mkShape TurnScope [must "command_id" FIdentity; must "steer_id" FIdentity;
      must "session_version" FCount; must "input" FContent])
  ].
Definition execution_shapes : list (string * FactShape) :=
  [
    ("execution.started", mkShape ExecutionScope [must "snapshot_digest" FDigest;
      must "through_position" FCount; must "completed_iterations" FCount; must "limits" FObject;
      must "recovery_ordinal" FCount]);
    ("execution.iteration_started", mkShape ExecutionScope [must "iteration" FPositive]);
    ("execution.abandoned", mkShape ExecutionScope [must "reason" (FChoice ["runtime_lost"]);
      must "last_safe_position" FCount; must "recovery_ordinal" FPositive]);
    ("execution.completed", mkShape ExecutionScope [must "response" FContent; must "usage" FObject;
      must "completed_iterations" FCount]);
    ("execution.suspended", mkShape ExecutionScope [must "suspension_id" FIdentity;
      must "reason" (FChoice ["approval_required"; "external_input_required"; "operator_reconciliation";
        "resource_unavailable"; "partial_output"; "delegation_pending"]);
      must "continuation" FContent; must "usage" FObject; must "completed_iterations" FCount]);
    ("execution.stopped", mkShape ExecutionScope [
      must "reason" (FChoice ["iteration_limit"; "token_limit"; "deadline"; "cancelled";
        "resource_unavailable"]);
      must "usage" FObject; must "completed_iterations" FCount; may "evidence" FContent]);
    ("execution.failed", mkShape ExecutionScope [
      must "reason" (FChoice ["invalid_input"; "invalid_model_output"; "required_capability_unavailable";
        "port_failure"; "invariant_violation"; "durability_failure"; "corrupt_recovery_state"]);
      must "usage" FObject; must "completed_iterations" FCount; may "evidence" FContent]);
    ("execution.effect_batch_planned", mkShape ExecutionScope [must "plan_digest" FDigest;
      must "conflict_graph_digest" FDigest; must "ordered_prepared_digests" FContent; must "steps" FContent;
      must "max_parallel_reads" FPositive; must "max_buffered_result_bytes" FPositive])
  ].
Definition model_shapes : list (string * FactShape) :=
  [
    ("model.prepared", mkShape ModelScope [must "request_digest" FDigest; must "capability_target" FIdentity;
      must "deployment_id" FIdentity; must "recovery_policy_revision" FIdentity; must "max_attempts" FPositive]);
    ("model.started", mkShape ModelScope [must "request_digest" FDigest; must "dispatch_attempt_id" FIdentity]);
    ("model.completed", mkShape ModelScope [must "request_digest" FDigest;
      must "stop_reason" (FChoice ["end_turn"; "tool_use"; "stop_sequence"; "pause_turn"; "refusal"; "other"]);
      must "items" FContent; must "usage" FObject]);
    ("model.rejected", mkShape ModelScope [must "request_digest" FDigest;
      must "kind" (FChoice ["context_overflow"; "authentication"; "content_policy"]); may "evidence" FContent]);
    ("model.interrupted", mkShape ModelScope [must "request_digest" FDigest;
      must "kind" (FChoice ["cancelled"; "output_limit"; "transport"]); must "partial_items" FContent;
      must "usage" FObject]);
    ("model.unavailable", mkShape ModelScope [must "request_digest" FDigest;
      must "kind" (FChoice ["rate_limited"; "model_unavailable"; "circuit_open"]); may "retry_after_ms" FCount]);
    ("model.uncertain", mkShape ModelScope [must "request_digest" FDigest;
      must "reason" (FChoice ["runtime_lost"; "transport_lost"; "provider_state_unknown"]);
      may "evidence" FContent])
  ].
Definition tool_shapes : list (string * FactShape) :=
  [
    ("tool.preparation_rejected", mkShape ModelScope [must "source_model_request_id" FIdentity;
      must "model_call_id" FIdentity; must "proposed_tool_name" FText;
      must "code" (FChoice ["invalid_tool_name"; "tool_not_admitted"; "invalid_arguments_json";
        "arguments_schema_mismatch"; "non_canonical_value"]);
      must "failure_paths" FContent])
  ].
Definition interaction_shapes : list (string * FactShape) :=
  [
    ("interaction.requested", mkShape InvocationScope [must "interaction_id" FIdentity;
      must "suspension_id" FIdentity; must "prepared_digest" FDigest;
      must "kind" (FChoice ["approval"; "external_input"]); must "prompt" FContent;
      must "response_schema" FContent; must "response_schema_digest" FDigest;
      must "expiry_code" (FChoice ["none"; "turn_deadline"; "policy_deadline"])]);
    ("interaction.resolved", mkShape InvocationScope [must "interaction_id" FIdentity;
      must "suspension_id" FIdentity; must "prepared_digest" FDigest; must "response" FContent]);
    ("interaction.cancelled", mkShape InvocationScope [must "interaction_id" FIdentity;
      must "suspension_id" FIdentity; must "prepared_digest" FDigest;
      must "reason" (FChoice ["user"; "expired"; "turn_cancelled"; "operator"])])
  ].
Definition effect_shapes : list (string * FactShape) :=
  [
    ("effect.prepared", mkShape InvocationScope [must "prepared_digest" FDigest; must "tool_name" FIdentity;
      must "tool_revision" FIdentity;
      must "replay_class" (FChoice ["read_only"; "idempotent"; "receipt_recoverable"; "never_replay"]);
      must "model_call_id" FIdentity]);
    ("effect.authorized", mkShape InvocationScope [must "prepared_digest" FDigest; must "grant_id" FIdentity;
      must "authority_revision" FIdentity; must "granted_requirements" FContent]);
    ("effect.denied", mkShape InvocationScope [must "prepared_digest" FDigest;
      must "code" (FChoice ["authorization_denied"; "replacement_required"]); may "safe_details" FContent]);
    ("effect.started", mkShape InvocationScope [must "prepared_digest" FDigest; must "grant_id" FIdentity;
      must "executor_id" FIdentity; must "executor_revision" FIdentity; must "dispatch_attempt_id" FIdentity]);
    ("effect.receipt", mkShape InvocationScope [must "receipt_id" FIdentity; must "prepared_digest" FDigest;
      must "grant_id" FIdentity; must "executor_id" FIdentity; must "executor_revision" FIdentity;
      must "classification" (FChoice ["completed"; "failed"]); must "result_or_evidence" FContent]);
    ("effect.completed", mkShape InvocationScope [must "prepared_digest" FDigest; must "receipt_id" FIdentity;
      must "result" FContent]);
    ("effect.failed", mkShape InvocationScope [must "prepared_digest" FDigest;
      must "code" (FChoice ["timeout"; "cancelled"; "tool_failure"; "requirement_unsupported";
        "executor_unavailable"]);
      may "receipt_id" FIdentity; may "evidence" FContent]);
    ("effect.uncertain", mkShape InvocationScope [must "prepared_digest" FDigest;
      must "reason" (FChoice ["started_without_receipt"; "receipt_invalid"; "executor_state_unknown"]);
      may "evidence" FContent]);
    ("effect.reconciled", mkShape InvocationScope [must "prepared_digest" FDigest;
      must "decision" (FChoice ["completed"; "failed"]); must "operator_evidence" FContent;
      must "observation" FContent]);
    ("effect.observation", mkShape InvocationScope [must "prepared_digest" FDigest;
      must "model_call_id" FIdentity; must "observation" FContent])
  ].
Definition safety_shapes : list (string * FactShape) :=
  [
    ("safety.decided", mkShape InvocationScope [must "request_id" FIdentity; must "decision_id" FIdentity;
      must "disposition" (FChoice ["allow"; "deny"; "interaction_required"]); must "prepared_digest" FDigest;
      must "tool_name" FIdentity; must "tool_revision" FIdentity; must "actor_authority_reference" FIdentity;
      must "exact_access_digest" FDigest; must "sandbox_requirements_digest" FDigest;
      must "policy_revision" FIdentity; may "goal_reference" FIdentity; may "plan_reference" FIdentity;
      may "constraints_digest" FDigest; may "safe_code" FAny])
  ].
Definition sandbox_shapes : list (string * FactShape) :=
  [
    ("sandbox.bound", mkShape InvocationScope [must "binding_id" FIdentity; must "decision_id" FIdentity;
      must "prepared_digest" FDigest; must "workspace_capability_id" FIdentity; must "executor_id" FIdentity;
      must "executor_revision" FIdentity; must "policy_revision" FIdentity; must "access_scope_digest" FDigest;
      must "enforcement_digest" FDigest; must "effective_limits_digest" FDigest]);
    ("sandbox.preflighted", mkShape InvocationScope [must "preflight_id" FIdentity; must "binding_id" FIdentity;
      must "decision_id" FIdentity; must "prepared_digest" FDigest; must "grant_id" FIdentity;
      must "executor_id" FIdentity; must "executor_revision" FIdentity; must "dispatch_attempt_id" FIdentity])
  ].
Definition artifact_shapes : list (string * FactShape) :=
  [
    ("artifact.committed", mkShape InvocationScope [must "artifact_id" FIdentity; must "revision" FPositive;
      must "receipt_id" FIdentity; must "display_name" FIdentity; must "kind" (FChoice ["text"; "file"]);
      must "mime_type" FIdentity; must "byte_size" FCount; must "content_digest" FDigest;
      must "verification" (FChoice ["not_run"; "passed"; "failed"; "partial"]);
      must "preview" (FChoice ["unavailable"; "text"]); must "workspace_id" FIdentity; must "revealable" FFlag;
      must "exportable" FFlag])
  ].
Definition skill_shapes : list (string * FactShape) :=
  [
    ("skill.activated", mkShape ExecutionScope [must "activation_id" FIdentity; must "request_digest" FDigest;
      must "mode" (FChoice ["explicit"; "tagged"]); must "through_position" FCount; must "skills" FArray;
      must "truncated" FFlag])
  ].
Definition delegation_shapes : list (string * FactShape) :=
  [
    ("delegation.requested", mkShape ExecutionScope [must "delegation_id" FIdentity;
      must "parent_agent_instance_id" FIdentity; must "intent" FContent; must "intent_digest" FDigest;
      must "through_position" FCount]);
    ("delegation.authorized", mkShape ExecutionScope [must "delegation_id" FIdentity; must "grant_id" FIdentity;
      must "intent_digest" FDigest; must "reserved_budget" FObject; must "authority_revision" FIdentity]);
    ("delegation.denied", mkShape ExecutionScope [must "delegation_id" FIdentity; must "intent_digest" FDigest;
      must "code" (FChoice ["invalid_delegation"; "child_not_found"; "child_revision_mismatch";
        "authority_denied"; "budget_exhausted"; "budget_overflow"; "depth_exceeded"; "concurrency_exceeded";
        "result_schema_mismatch"; "delegation_conflict"; "child_state_corrupt"; "durability_failure";
        "corrupt_delegation_state"])]);
    ("delegation.child_started", mkShape ExecutionScope [must "delegation_id" FIdentity;
      must "grant_id" FIdentity; must "suspension_id" FIdentity; must "child_agent_instance_id" FIdentity;
      must "child_turn_id" FIdentity; must "child_snapshot_digest" FDigest]);
    ("delegation.child_terminal", mkShape ExecutionScope [must "delegation_id" FIdentity;
      must "grant_id" FIdentity; must "result_id" FIdentity; must "suspension_id" FIdentity;
      must "child_agent_instance_id" FIdentity; must "child_turn_id" FIdentity; must "result" FContent;
      must "result_digest" FDigest]);
    ("delegation.observed", mkShape ExecutionScope [must "delegation_id" FIdentity; must "grant_id" FIdentity;
      must "result_id" FIdentity; must "suspension_id" FIdentity; must "result_digest" FDigest])
  ].
Definition knowledge_shapes : list (string * FactShape) :=
  [
    ("knowledge.requested", mkShape ExecutionScope [must "request_id" FIdentity; must "source_id" FIdentity;
      must "source_revision" FIdentity; must "request_digest" FDigest;
      must "mode" (FChoice ["keyword"; "semantic"; "structured"]); must "query" FContent;
      must "filters" FContent; must "through_position" FCount; must "max_chunks" FPositive;
      must "max_total_bytes" FPositive; must "deadline_budget_ms" FPositive;
      must "freshness_kind" (FChoice ["cached_allowed"; "revalidate"; "exact_snapshot"]);
      may "exact_snapshot_digest" FDigest]);
    ("knowledge.dispatched", mkShape ExecutionScope [must "request_id" FIdentity; must "request_digest" FDigest;
      must "dispatch_attempt_id" FIdentity]);
    ("knowledge.completed", mkShape ExecutionScope [must "request_id" FIdentity; must "request_digest" FDigest;
      must "evidence" FArray; must "truncated" FFlag]);
    ("knowledge.failed", mkShape ExecutionScope [must "request_id" FIdentity; must "request_digest" FDigest;
      must "phase" (FChoice ["pre_dispatch"; "dispatched"; "response_validation"]);
      must "reason" (FChoice ["invalid_query"; "source_not_found"; "source_revision_mismatch"; "source_denied";
        "filter_unsupported"; "freshness_unavailable"; "connector_unavailable"; "connector_rejected";
        "retrieval_uncertain"; "citation_invalid"; "content_digest_mismatch"; "limit_exceeded";
        "durability_failure"; "corrupt_knowledge_state"]);
      must "ambiguous" FFlag; may "retry_after_ms" FPositive])
  ].
Definition memory_shapes : list (string * FactShape) :=
  [
    ("memory.proposed", mkShape ExecutionScope [must "proposal_id" FIdentity; must "namespace_id" FIdentity;
      must "scope" FObject;
      must "kind" (FChoice ["preference"; "constraint"; "decision"; "learned_fact"; "summary"]);
      must "content" FContent; must "evidence" FArray; must "sensitivity" (FChoice ["ordinary"; "restricted"]);
      must "confidence_basis_points" FCount; may "expected_active_revision_id" FIdentity]);
    ("memory.committed", mkShape ExecutionScope [must "proposal_id" FIdentity; must "record_id" FIdentity;
      must "revision_id" FIdentity; must "namespace_id" FIdentity; must "scope" FObject;
      must "kind" (FChoice ["preference"; "constraint"; "decision"; "learned_fact"; "summary"]);
      must "content" FContent; must "evidence" FArray; must "sensitivity" (FChoice ["ordinary"; "restricted"]);
      must "confidence_basis_points" FCount; must "valid_from_position" FPositive;
      must "retention_policy_digest" FDigest; may "expires_at_utc" FTime;
      may "supersedes_revision_id" FIdentity]);
    ("memory.revision_classified", mkShape SessionScope [must "classification_id" FIdentity;
      must "namespace_id" FIdentity; must "record_id" FIdentity; must "revision_id" FIdentity;
      must "memory_type" (FChoice ["semantic"; "episodic"; "lesson"; "procedural"]);
      must "authority" (FChoice ["user_declared"; "agent_learned"; "organisation_published"]);
      must "lifecycle" (FChoice ["candidate"; "active"]);
      must "scope" (FChoice ["session"; "agent_instance"; "user"; "project"; "platform"]);
      must "scope_owner_id" FIdentity; must "policy_revision" FIdentity; must "source_commit" FObject;
      may "aggregation_policy_digest" FDigest; may "authority_receipt_digest" FDigest]);
    ("memory.rejected", mkShape ExecutionScope [must "proposal_id" FIdentity;
      must "reason" (FChoice ["namespace_denied"; "evidence_not_found"; "evidence_mismatch";
        "revision_conflict"; "retention_rejected"; "sensitivity_denied"; "limit_exceeded"; "unsupported"])]);
    ("memory.superseded", mkShape ExecutionScope [must "record_id" FIdentity; must "old_revision_id" FIdentity;
      must "new_revision_id" FIdentity; must "proposal_id" FIdentity]);
    ("memory.tombstoned", mkShape SessionScope [must "command_id" FIdentity; must "namespace_id" FIdentity;
      must "record_id" FIdentity; must "revision_id" FIdentity;
      must "reason" (FChoice ["expired"; "superseded"; "user_request"; "policy"; "corrupt_source"])]);
    ("memory.retrieval_recorded", mkShape ExecutionScope [must "query_id" FIdentity;
      must "query_digest" FDigest; must "namespace_id" FIdentity; must "retriever_revision" FIdentity;
      must "through_position" FCount; must "as_of_utc" FTime; must "max_results" FPositive;
      must "max_total_bytes" FPositive; must "include_restricted" FFlag; must "matches" FArray;
      must "truncated" FFlag; may "restricted_grant_digest" FDigest]);
    ("memory.recall_recorded", mkShape ExecutionScope [must "selection_id" FIdentity;
      must "request_digest" FDigest; must "namespace_id" FIdentity; must "product" (FChoice ["menu"; "detail"]);
      must "selection_policy_revision" FIdentity; must "through_position" FCount; must "max_items" FPositive;
      must "max_total_bytes" FPositive; must "items" FArray; must "truncated" FFlag; may "exploration" FAny]);
    ("memory.obligation_opened", mkShape ExecutionScope [must "obligation_id" FIdentity;
      must "namespace_id" FIdentity; must "record_id" FIdentity; must "revision_id" FIdentity;
      must "recall_fact" FObject; must "selection_id" FIdentity; must "application_fact" FObject;
      must "expected_outcome_digest" FDigest; must "application_scope_digest" FDigest;
      must "attribution_policy_revision" FIdentity; must "expires_at_position" FPositive]);
    ("memory.observation_recorded", mkShape SessionScope [must "observation_id" FIdentity;
      must "obligation_id" FIdentity; must "namespace_id" FIdentity; must "position" FPositive;
      must "verifier_revision" FIdentity; must "evidence" FArray; must "verdict" FObject]);
    ("memory.lifecycle_transitioned", mkShape SessionScope [must "transition_id" FIdentity;
      must "namespace_id" FIdentity; must "record_id" FIdentity; must "revision_id" FIdentity;
      must "from_state" (FChoice ["candidate"; "active"; "cold"; "archived"; "promoted"]);
      must "to_state" (FChoice ["candidate"; "active"; "cold"; "archived"; "promoted"]); must "verified" FCount;
      must "falsified" FCount; must "neutral" FCount; must "last_observed_position" FPositive;
      must "cause_kind" (FChoice ["observation"; "maintenance"; "promotion"; "toolchain_changed"]);
      must "cause_id" FIdentity; may "promoted_knowledge_receipt_digest" FDigest]);
    ("memory.candidate_recorded", mkShape SessionScope [must "candidate_id" FIdentity;
      must "namespace_id" FIdentity; must "extractor_revision" FIdentity;
      must "source" (FChoice ["explicit_user_command"; "session_end"; "exit_summary";
        "scheduled_distillation"]);
      must "intent_kind" (FChoice ["learn"; "forget"]); must "intent_digest" FDigest]);
    ("memory.maintenance_decided", mkShape SessionScope [must "decision_id" FIdentity;
      must "candidate_id" FIdentity; must "namespace_id" FIdentity;
      must "decision_kind" (FChoice ["add"; "update"; "delete"; "noop"]); must "decision_digest" FDigest]);
    ("memory.distillation_checkpointed", mkShape SessionScope [must "checkpoint_id" FIdentity;
      must "namespace_id" FIdentity; must "extractor_revision" FIdentity; must "session_id" FIdentity;
      must "through_position" FPositive; must "batch_digest" FDigest]);
    ("memory.audit_recorded", mkShape SessionScope [must "audit_id" FIdentity; must "namespace_id" FIdentity;
      must "through_position" FPositive; must "policy_digest" FDigest; must "inventory_digest" FDigest;
      must "report_digest" FDigest; must "action_count" FCount; must "truncated" FFlag]);
    ("memory.promotion_requested", mkShape SessionScope [must "request_id" FIdentity;
      must "namespace_id" FIdentity; must "record_id" FIdentity; must "revision_id" FIdentity;
      must "memory_type" (FChoice ["semantic"; "episodic"; "lesson"; "procedural"]);
      must "policy_revision" FIdentity; must "knowledge_proposal_id" FIdentity; must "evidence_digest" FDigest]);
    ("memory.promotion_recorded", mkShape SessionScope [must "request_id" FIdentity;
      must "namespace_id" FIdentity; must "record_id" FIdentity; must "revision_id" FIdentity;
      must "knowledge_proposal_id" FIdentity; must "knowledge_record_id" FIdentity;
      must "knowledge_revision_id" FIdentity; must "receipt_digest" FDigest]);
    ("memory.erasure_requested", mkShape SessionScope [must "request_id" FIdentity;
      must "namespace_id" FIdentity; must "record_id" FIdentity; must "revision_id" FIdentity;
      must "tombstone_fact" FObject; must "policy_revision" FIdentity; must "targets" FArray]);
    ("memory.erasure_recorded", mkShape SessionScope [must "request_id" FIdentity;
      must "namespace_id" FIdentity; must "record_id" FIdentity; must "revision_id" FIdentity;
      must "attempt_id" FIdentity; must "attempted_at_position" FPositive; must "results" FArray;
      must "disposition" (FChoice ["complete"; "partial"])])
  ].
Definition schedule_shapes : list (string * FactShape) :=
  [
    ("schedule.created", mkShape SessionScope [must "command_id" FIdentity; must "schedule_id" FIdentity;
      must "revision_id" FIdentity; must "intent" FContent; must "intent_digest" FDigest]);
    ("schedule.claimed", mkShape SessionScope [must "schedule_id" FIdentity; must "revision_id" FIdentity;
      must "occurrence_id" FIdentity; must "ordinal" FPositive; must "due_at_utc" FTime;
      must "lease_id" FIdentity; must "lease_epoch" FPositive; must "through_position" FCount]);
    ("schedule.fired", mkShape SessionScope [must "schedule_id" FIdentity; must "revision_id" FIdentity;
      must "occurrence_id" FIdentity; must "ordinal" FPositive; must "runtime_command_id" FIdentity;
      must "disposition" (FChoice ["committed"; "replayed"]); must "committed_position" FPositive]);
    ("schedule.skipped", mkShape SessionScope [must "schedule_id" FIdentity; must "revision_id" FIdentity;
      must "first_ordinal" FPositive; must "last_ordinal" FPositive; must "first_due_at_utc" FTime;
      must "last_due_at_utc" FTime; must "observed_at_utc" FTime]);
    ("schedule.cancelled", mkShape SessionScope [must "command_id" FIdentity; must "schedule_id" FIdentity;
      must "expected_revision_id" FIdentity;
      must "reason" (FChoice ["user"; "operator"; "policy"; "superseded"])]);
    ("schedule.failed", mkShape SessionScope [must "schedule_id" FIdentity; must "revision_id" FIdentity;
      must "reason" (FChoice ["invalid_schedule"; "schedule_not_found"; "revision_conflict";
        "subject_not_resumable"; "authority_denied"; "clock_invalid"; "occurrence_overflow";
        "misfire_limit_exceeded"; "lease_lost"; "dispatch_conflict"; "durability_failure";
        "corrupt_schedule_state"]);
      may "occurrence_id" FIdentity; may "ordinal" FPositive]);
    ("schedule.exhausted", mkShape SessionScope [must "schedule_id" FIdentity; must "revision_id" FIdentity;
      must "last_handled_ordinal" FPositive])
  ].
Definition workspace_shapes : list (string * FactShape) :=
  [
    ("workspace.attached", mkShape SessionScope [must "command_id" FIdentity; must "workspace_id" FIdentity;
      must "display_name" FIdentity; must "grant_revision" FPositive;
      must "access" (FChoice ["enumerate"; "read_write"])]);
    ("workspace.detached", mkShape SessionScope [must "command_id" FIdentity; must "workspace_id" FIdentity;
      must "grant_revision" FPositive; must "outcome" (FChoice ["detached"; "already_detached"])]);
    ("workspace.context_selected", mkShape SessionScope [must "command_id" FIdentity;
      must "workspace_id" FIdentity; must "grant_revision" FPositive; must "entries" FArray])
  ].
Definition goal_shapes : list (string * FactShape) :=
  [
    ("goal.created", mkShape SessionScope [must "command_id" FIdentity; must "goal_id" FIdentity;
      must "revision" (FExactly 1); must "definition_digest" FDigest; must "definition" FContent;
      must "actor_reference" FIdentity]);
    ("goal.revised", mkShape SessionScope [must "command_id" FIdentity; must "goal_id" FIdentity;
      must "previous_revision" FPositive; must "revision" FPositive; must "previous_definition_digest" FDigest;
      must "definition_digest" FDigest; must "definition" FContent; must "replacement_reason" FIdentity;
      must "actor_reference" FIdentity]);
    ("goal.activated", mkShape SessionScope [must "command_id" FIdentity; must "goal_id" FIdentity;
      must "revision" FPositive; must "attempt_number" FPositive; must "actor_reference" FIdentity;
      may "plan_reference" FIdentity]);
    ("goal.suspended", mkShape SessionScope [must "command_id" FIdentity; must "goal_id" FIdentity;
      must "revision" FPositive; must "reason" FIdentity; must "actor_reference" FIdentity;
      may "suspension_reference" FIdentity]);
    ("goal.succeeded", mkShape SessionScope [must "command_id" FIdentity; must "goal_id" FIdentity;
      must "revision" FPositive; must "evidence" FContent; must "actor_reference" FIdentity]);
    ("goal.failed", mkShape SessionScope [must "command_id" FIdentity; must "goal_id" FIdentity;
      must "revision" FPositive; must "code" FIdentity; must "actor_reference" FIdentity;
      may "evidence" FContent]);
    ("goal.cancelled", mkShape SessionScope [must "command_id" FIdentity; must "goal_id" FIdentity;
      must "revision" FPositive; must "reason" FIdentity; must "actor_reference" FIdentity])
  ].
Definition plan_shapes : list (string * FactShape) :=
  [
    ("plan.proposal.requested", mkShape SessionScope [must "command_id" FIdentity; must "goal_id" FIdentity;
      must "goal_revision" FPositive; must "goal_definition_digest" FDigest;
      must "expected_session_version" FPositive; must "through_position" FCount;
      must "proposer_reference" FIdentity; must "request_digest" FDigest; must "output_schema_digest" FDigest;
      must "turn_id" FIdentity; must "execution_id" FIdentity]);
    ("plan.proposal.result_bound", mkShape SessionScope [must "command_id" FIdentity; must "goal_id" FIdentity;
      must "goal_revision" FPositive; must "goal_definition_digest" FDigest; must "request_fact_id" FIdentity;
      must "planner_turn_id" FIdentity; must "planner_execution_id" FIdentity;
      must "terminal_fact_id" FIdentity; must "terminal_payload_digest" FDigest; must "result_digest" FDigest]);
    ("plan.replan.admitted", mkShape SessionScope [must "command_id" FIdentity; must "source_plan_id" FIdentity;
      must "source_plan_revision" FPositive; must "source_plan_definition_digest" FDigest;
      must "goal_id" FIdentity; must "goal_revision" FPositive; must "goal_definition_digest" FDigest;
      must "failed_step_ids" FArray; must "policy_reference" FIdentity;
      must "expected_session_version" FPositive; must "through_position" FCount;
      must "decision_evidence" FContent]);
    ("plan.replan.proposal.requested", mkShape SessionScope [must "command_id" FIdentity;
      must "goal_id" FIdentity; must "goal_revision" FPositive; must "goal_definition_digest" FDigest;
      must "admission_fact_id" FIdentity; must "source_plan_id" FIdentity;
      must "source_plan_revision" FPositive; must "source_plan_definition_digest" FDigest;
      must "expected_session_version" FPositive; must "through_position" FCount;
      must "proposer_reference" FIdentity; must "request_digest" FDigest; must "output_schema_digest" FDigest;
      must "turn_id" FIdentity; must "execution_id" FIdentity]);
    ("plan.replan.proposal.result_bound", mkShape SessionScope [must "command_id" FIdentity;
      must "goal_id" FIdentity; must "goal_revision" FPositive; must "goal_definition_digest" FDigest;
      must "admission_fact_id" FIdentity; must "source_plan_id" FIdentity;
      must "source_plan_revision" FPositive; must "source_plan_definition_digest" FDigest;
      must "request_fact_id" FIdentity; must "planner_turn_id" FIdentity; must "planner_execution_id" FIdentity;
      must "terminal_fact_id" FIdentity; must "terminal_payload_digest" FDigest; must "result_digest" FDigest]);
    ("plan.proposed", mkShape SessionScope [must "command_id" FIdentity; must "plan_id" FIdentity;
      must "plan_revision" FPositive; must "state_version" (FExactly 1); must "plan_digest" FDigest;
      must "definition" FContent; must "goal_id" FIdentity; must "goal_revision" FPositive;
      must "goal_definition_digest" FDigest; must "agent_snapshot_digest" FDigest;
      must "tool_catalogue_digest" FDigest; must "safety_policy_revision" FIdentity;
      must "proposer_reference" FIdentity]);
    ("plan.adopted", mkShape SessionScope [must "command_id" FIdentity; must "plan_id" FIdentity;
      must "plan_revision" FPositive; must "previous_state_version" FPositive; must "state_version" FPositive;
      must "expected_goal_revision" FPositive; must "actor_reference" FIdentity;
      must "policy_reference" FIdentity; must "carry_forward_evidence" FContent;
      may "expected_prior_plan_revision" FCount]);
    ("plan.rejected", mkShape SessionScope [must "command_id" FIdentity; must "plan_id" FIdentity;
      must "plan_revision" FPositive; must "previous_state_version" FPositive; must "state_version" FPositive;
      must "actor_reference" FIdentity; must "policy_reference" FIdentity; must "reason" FIdentity]);
    ("plan.superseded", mkShape SessionScope [must "command_id" FIdentity; must "plan_id" FIdentity;
      must "plan_revision" FPositive; must "previous_state_version" FPositive; must "state_version" FPositive;
      must "replacement_plan_id" FIdentity; must "replacement_plan_revision" FPositive;
      must "replacement_plan_digest" FDigest; must "unresolved_work" FContent]);
    ("plan.suspended", mkShape SessionScope [must "command_id" FIdentity; must "plan_id" FIdentity;
      must "plan_revision" FPositive; must "previous_state_version" FPositive; must "state_version" FPositive;
      must "continuation_kind" (FChoice ["interaction"; "policy"; "reconciliation"]);
      must "continuation_reference" FIdentity]);
    ("plan.resumed", mkShape SessionScope [must "command_id" FIdentity; must "plan_id" FIdentity;
      must "plan_revision" FPositive; must "previous_state_version" FPositive; must "state_version" FPositive;
      must "resolved_continuation_reference" FIdentity]);
    ("plan.completed", mkShape SessionScope [must "command_id" FIdentity; must "plan_id" FIdentity;
      must "plan_revision" FPositive; must "previous_state_version" FPositive; must "state_version" FPositive;
      must "reduction_evidence" FContent]);
    ("plan.failed", mkShape SessionScope [must "command_id" FIdentity; must "plan_id" FIdentity;
      must "plan_revision" FPositive; must "previous_state_version" FPositive; must "state_version" FPositive;
      must "reason" FIdentity; may "evidence" FContent]);
    ("plan.step.claimed", mkShape SessionScope [must "command_id" FIdentity; must "plan_id" FIdentity;
      must "plan_revision" FPositive; must "previous_state_version" FPositive; must "state_version" FPositive;
      must "step_id" FIdentity; must "step_digest" FDigest; must "claim_id" FIdentity;
      must "worker_reference" FIdentity; must "lease_epoch" FPositive; must "clock_revision" FIdentity;
      must "claimed_at_tick" FCount; must "expires_at_tick" FCount]);
    ("plan.step.claim_expired", mkShape SessionScope [must "command_id" FIdentity; must "plan_id" FIdentity;
      must "plan_revision" FPositive; must "previous_state_version" FPositive; must "state_version" FPositive;
      must "step_id" FIdentity; must "claim_id" FIdentity; must "lease_epoch" FPositive;
      must "clock_revision" FIdentity; must "observed_at_tick" FCount]);
    ("plan.step.started", mkShape SessionScope [must "command_id" FIdentity; must "plan_id" FIdentity;
      must "plan_revision" FPositive; must "previous_state_version" FPositive; must "state_version" FPositive;
      must "step_id" FIdentity; must "step_digest" FDigest; must "claim_id" FIdentity;
      must "lease_epoch" FPositive; must "clock_revision" FIdentity; must "observed_at_tick" FCount;
      must "attempt_id" FIdentity; must "execution_id" FIdentity; must "execution_snapshot_digest" FDigest]);
    ("plan.step.completed", mkShape SessionScope [must "command_id" FIdentity; must "plan_id" FIdentity;
      must "plan_revision" FPositive; must "previous_state_version" FPositive; must "state_version" FPositive;
      must "step_id" FIdentity; must "attempt_id" FIdentity; must "execution_id" FIdentity;
      must "result_digest" FDigest; must "step_evidence" FContent; must "criterion_evidence" FContent]);
    ("plan.step.failed", mkShape SessionScope [must "command_id" FIdentity; must "plan_id" FIdentity;
      must "plan_revision" FPositive; must "previous_state_version" FPositive; must "state_version" FPositive;
      must "step_id" FIdentity; must "attempt_id" FIdentity; must "execution_id" FIdentity;
      must "reason" FIdentity; must "retry_posture" (FChoice ["retry"; "suspend"; "replan"; "fail"]);
      may "evidence" FContent]);
    ("plan.step.suspended", mkShape SessionScope [must "command_id" FIdentity; must "plan_id" FIdentity;
      must "plan_revision" FPositive; must "previous_state_version" FPositive; must "state_version" FPositive;
      must "step_id" FIdentity; must "attempt_id" FIdentity; must "execution_id" FIdentity;
      must "continuation_kind" (FChoice ["interaction"; "policy"; "reconciliation"]);
      must "continuation_reference" FIdentity]);
    ("plan.step.resumed", mkShape SessionScope [must "command_id" FIdentity; must "plan_id" FIdentity;
      must "plan_revision" FPositive; must "previous_state_version" FPositive; must "state_version" FPositive;
      must "step_id" FIdentity; must "attempt_id" FIdentity; must "prior_execution_id" FIdentity;
      must "execution_id" FIdentity; must "resolved_continuation_reference" FIdentity])
  ].
Definition second_shapes : list (string * FactShape) :=
  [
    ("effect.prepared", mkShape InvocationScope [must "prepared_contract_version" (FExactly 2);
      must "prepared_digest" FDigest; must "tool_name" FIdentity; must "tool_revision" FIdentity;
      must "replay_class" (FChoice ["read_only"; "idempotent"; "receipt_recoverable"; "never_replay"]);
      must "model_call_id" FIdentity; must "access_policy_revision" FIdentity;
      must "access_resolver_revision" FIdentity; must "invocation_accesses" FContent;
      must "max_result_bytes" FPositive]);
    ("effect.authorized", mkShape InvocationScope [must "prepared_contract_version" (FExactly 3);
      must "prepared_digest" FDigest; must "grant_id" FIdentity; must "authority_revision" FIdentity;
      must "constraints_digest" FDigest; must "granted_requirements" FContent])
  ].
Definition third_shapes : list (string * FactShape) :=
  [
    ("effect.prepared", mkShape InvocationScope [must "prepared_contract_version" (FExactly 3);
      must "prepared_digest" FDigest; must "tool_name" FIdentity; must "tool_revision" FIdentity;
      must "replay_class" (FChoice ["read_only"; "idempotent"; "receipt_recoverable"; "never_replay"]);
      must "model_call_id" FIdentity; must "arguments" FContent; must "access_policy_revision" FIdentity;
      must "access_resolver_revision" FIdentity; must "invocation_accesses" FContent;
      must "max_result_bytes" FPositive; must "sandbox_requirements" FContent;
      must "sandbox_requirements_digest" FDigest])
  ].

Definition fact_shapes (version : Z) : list (string * FactShape) :=
  match version with
  | 1 =>
      turn_shapes ++ execution_shapes ++ model_shapes ++ tool_shapes ++ interaction_shapes ++ effect_shapes
      ++ safety_shapes ++ sandbox_shapes ++ artifact_shapes ++ skill_shapes ++ delegation_shapes
      ++ knowledge_shapes ++ memory_shapes ++ schedule_shapes ++ workspace_shapes ++ goal_shapes ++ plan_shapes
  | 2 => second_shapes
  | 3 => third_shapes
  | _ => []
  end.
