(* ===== verification/ProjectionTypes.v ===== *)
(** * Session projection: state ([engine/ledger/src/projection.rs])

    The state every durable prefix of a Session projects to: turns, executions,
    model and tool invocations with their bindings, interactions, knowledge
    requests, schedules and delegations.  A [BTreeMap] keyed by an identity is a
    [gmap] keyed by its text. *)

From S2P Require Import Prelude Json LedgerTypes.

Inductive TurnState := TurnOpen | TurnSuspended | TurnCompleted | TurnStopped | TurnFailed.
Inductive ExecutionState :=
  | ExActive | ExAbandoned | ExCompleted | ExSuspended | ExStopped | ExFailed.
Inductive InvocationState :=
  | InvPrepared | InvAuthorized | InvStarted | InvReceipt | InvCompleted | InvRejected
  | InvInterrupted | InvUnavailable | InvFailed | InvDenied | InvUncertain | InvReconciled
  | InvObserved.
Inductive SafetyDecisionState := SafetyAllow | SafetyDeny | SafetyInteractionRequired.
Inductive ScheduleState :=
  | SchedActive | SchedSuperseding | SchedCancelled | SchedFailed | SchedExhausted.
Inductive DelegationState :=
  | DelRequested | DelAuthorized | DelDenied | DelStarted | DelTerminal | DelObserved.

#[export] Instance TurnState_eq_dec : EqDecision TurnState.
Proof. solve_decision. Defined.
#[export] Instance ExecutionState_eq_dec : EqDecision ExecutionState.
Proof. solve_decision. Defined.
#[export] Instance InvocationState_eq_dec : EqDecision InvocationState.
Proof. solve_decision. Defined.
#[export] Instance SafetyDecisionState_eq_dec : EqDecision SafetyDecisionState.
Proof. solve_decision. Defined.
#[export] Instance ScheduleState_eq_dec : EqDecision ScheduleState.
Proof. solve_decision. Defined.
#[export] Instance DelegationState_eq_dec : EqDecision DelegationState.
Proof. solve_decision. Defined.

Record InteractionRecord := mkInteraction {
  ir_execution : string;
  ir_tool : string;
  ir_suspension_id : string;
  ir_prepared_digest : string;
  ir_terminal : bool;
}.
#[export] Instance eta_InteractionRecord : Eta InteractionRecord := fun r =>
  mkInteraction (ir_execution r) (ir_tool r) (ir_suspension_id r) (ir_prepared_digest r) (ir_terminal r).

Record KnowledgeRecord := mkKnowledge {
  kr_execution : string;
  kr_request_digest : string;
  kr_dispatch_attempts : gset string;
  kr_terminal : bool;
}.
#[export] Instance eta_KnowledgeRecord : Eta KnowledgeRecord := fun r =>
  mkKnowledge (kr_execution r) (kr_request_digest r) (kr_dispatch_attempts r) (kr_terminal r).

Record EffectBatchRecord := mkEffectBatch {
  eb_tools : list string;
  eb_next_start : nat;
}.
#[export] Instance eta_EffectBatchRecord : Eta EffectBatchRecord := fun r =>
  mkEffectBatch (eb_tools r) (eb_next_start r).

Record SandboxProofRecord := mkSandboxProof {
  sp_binding_id : string;
  sp_executor_id : string;
  sp_executor_revision : string;
  sp_grant_id : option string;
  sp_dispatch_attempt_id : option string;
}.
#[export] Instance eta_SandboxProofRecord : Eta SandboxProofRecord := fun r =>
  mkSandboxProof (sp_binding_id r) (sp_executor_id r) (sp_executor_revision r) (sp_grant_id r)
    (sp_dispatch_attempt_id r).

Record F0Record := mkF0 {
  f0_decision_id : string;
  f0_disposition : SafetyDecisionState;
  f0_prepared_digest : string;
  f0_policy_revision : string;
  f0_constraints_digest : option string;
  f0_sandbox : option SandboxProofRecord;
}.
#[export] Instance eta_F0Record : Eta F0Record := fun r =>
  mkF0 (f0_decision_id r) (f0_disposition r) (f0_prepared_digest r) (f0_policy_revision r)
    (f0_constraints_digest r) (f0_sandbox r).

Record ScheduleClaim := mkScheduleClaim {
  sc_occurrence_id : string;
  sc_ordinal : Z;
  sc_due_at_utc : string;
  sc_lease_epoch : Z;
}.

Record ScheduleRecord := mkScheduleRecord {
  sr_revision_id : string;
  sr_intent_digest : string;
  sr_last_handled_ordinal : Z;
  sr_pending_claim : option ScheduleClaim;
  sr_state : ScheduleState;
}.
#[export] Instance eta_ScheduleRecord : Eta ScheduleRecord := fun r =>
  mkScheduleRecord (sr_revision_id r) (sr_intent_digest r) (sr_last_handled_ordinal r)
    (sr_pending_claim r) (sr_state r).

Record DelegationRecord := mkDelegation {
  dr_parent_turn : string;
  dr_parent_execution : string;
  dr_intent_digest : string;
  dr_grant_id : option string;
  dr_suspension_id : option string;
  dr_child_turn : option string;
  dr_result_id : option string;
  dr_result_digest : option string;
  dr_input_admitted : bool;
  dr_state : DelegationState;
}.
#[export] Instance eta_DelegationRecord : Eta DelegationRecord := fun r =>
  mkDelegation (dr_parent_turn r) (dr_parent_execution r) (dr_intent_digest r) (dr_grant_id r)
    (dr_suspension_id r) (dr_child_turn r) (dr_result_id r) (dr_result_digest r)
    (dr_input_admitted r) (dr_state r).

Record SessionProjection := mkProjection {
  opened : bool;
  closed : bool;
  turns : gmap string TurnState;
  executions : gmap string (string * ExecutionState);
  execution_iterations : gmap string Z;
  models : gmap string (string * InvocationState);
  model_digests : gmap string string;
  tools : gmap string (string * InvocationState);
  tool_digests : gmap string string;
  tool_revisions : gmap string (string * string);
  tool_access_digests : gmap string string;
  tool_sandbox_digests : gmap string string;
  artifacts : gset (string * Z);
  tool_contract_versions : gmap string Z;
  tool_result_bytes : gmap string Z;
  tool_batch_plans : gmap string string;
  effect_batches : gmap string EffectBatchRecord;
  f0 : gmap string F0Record;
  tool_grants : gmap string string;
  tool_receipts : gmap string string;
  tool_executors : gmap string (string * string);
  tool_reconciled_observations : gmap string Value;
  suspensions : gmap string string;
  interactions : gmap string InteractionRecord;
  knowledge : gmap string KnowledgeRecord;
  schedules : gmap string ScheduleRecord;
  turn_agents : gmap string (string * string);
  delegations : gmap string DelegationRecord;
  turns_started_in_commit : gset string;
  turns_suspended_in_commit : gset string;
  turns_terminal_in_commit : gset string;
  tools_completed_in_commit : gset string;
}.

#[export] Instance eta_SessionProjection : Eta SessionProjection := fun r =>
  mkProjection (opened r) (closed r) (turns r) (executions r) (execution_iterations r) (models r)
    (model_digests r) (tools r) (tool_digests r) (tool_revisions r) (tool_access_digests r)
    (tool_sandbox_digests r) (artifacts r) (tool_contract_versions r) (tool_result_bytes r)
    (tool_batch_plans r) (effect_batches r) (f0 r) (tool_grants r) (tool_receipts r)
    (tool_executors r) (tool_reconciled_observations r) (suspensions r) (interactions r)
    (knowledge r) (schedules r) (turn_agents r) (delegations r) (turns_started_in_commit r)
    (turns_suspended_in_commit r) (turns_terminal_in_commit r) (tools_completed_in_commit r).

(** [SessionProjection::default()]. *)
Definition projection_default : SessionProjection :=
  mkProjection false false ∅ ∅ ∅ ∅ ∅ ∅ ∅ ∅ ∅ ∅ ∅ ∅ ∅ ∅ ∅ ∅ ∅ ∅ ∅ ∅ ∅ ∅ ∅ ∅ ∅ ∅ ∅ ∅ ∅ ∅.
