(* ===== verification/Projection.v ===== *)
(** * Session projection: reduction ([engine/ledger/src/projection.rs])

    One definition per handler, composed by [projection_apply].  A handler takes
    the state and the fact and returns the new state or stops; a condition
    [a || b(text(..)?) || c] of the source becomes successive [reject]s, so that
    a later operand is evaluated only when the earlier ones are false. *)

From S2P Require Import Prelude Json LedgerTypes ProjectionTypes.

Section projection.
Context `{Externals}.

Abbreviation Res := (result Abort) (only parsing).
Abbreviation State := SessionProjection (only parsing).

Definition required {A} (value : option A) : Res A := ok_or value (Returned MissingReference).

Definition fact_payload (fact : FactDraft) : Res Map :=
  let? value := ok_or (json_from_str (payload_json (payload fact))) (Returned InvalidFact) in
  ok_or (as_object value) (Returned InvalidFact).

Definition text (value : Map) (key : string) : Res string :=
  match map_get key value with Some (Str s) => Ok s | _ => Err InvalidFact end.

Definition unsigned (value : Map) (key : string) : Res Z :=
  match map_get key value with Some (Num (PosInt n)) => Ok n | _ => Err InvalidFact end.

(** [value.get(key).and_then(Value::as_str)]. *)
Definition opt_text (value : Map) (key : string) : option string := map_get key value ≫= as_str.

Definition bound_object (value : Map) (key : string) : Res Map :=
  match map_get key value with Some (Obj m) => Ok m | _ => Err InvalidFact end.

Definition content_value (value : Map) (key : string) : Res Value :=
  let? binding := bound_object value key in
  let? inline_utf8 := text binding "inline_utf8" in
  let? digest := text binding "digest" in
  match from_canonical_parts inline_utf8 digest with
  | Ok canonical => ok_or (json_from_str (payload_json canonical)) (Returned InvalidFact)
  | Err _ => Err InvalidFact
  end.

Definition content_digest (value : Map) (key : string) : Res string :=
  let? binding := bound_object value key in text binding "digest".

(** [map.get(k).map(String::as_str) != Some(s)]. *)
Definition differs (m : gmap string string) (k s : string) : bool :=
  negb (bool_decide (m !! k = Some s)).

(** ** Shared conditions *)

Definition is_v (s : State) (tool : string) (version : Z) : bool :=
  bool_decide (tool_contract_versions s !! tool = Some version).

Definition require_open_turn (s : State) (turn : string) : Res unit :=
  if bool_decide (turns s !! turn = Some TurnOpen) then Ok tt else Err InvalidTransition.

Definition require_non_terminal_turn (s : State) (turn : string) : Res unit :=
  match turns s !! turn with
  | Some TurnOpen | Some TurnSuspended => Ok tt
  | Some _ => Err InvalidTransition
  | None => Err MissingReference
  end.

Definition require_active_execution (s : State) (fact : FactDraft) : Res unit :=
  let? execution := required (execution_id fact) in
  let? turn := required (turn_id fact) in
  match executions s !! execution with
  | Some (owned_turn, ExActive) =>
      if (owned_turn =? turn)%string then Ok tt else Err InvalidTransition
  | Some _ => Err InvalidTransition
  | None => Err MissingReference
  end.

Definition require_suspended_execution (s : State) (fact : FactDraft) : Res unit :=
  let? turn := required (turn_id fact) in
  let? execution := required (execution_id fact) in
  if bool_decide (turns s !! turn = Some TurnSuspended)
     && bool_decide (executions s !! execution = Some (turn, ExSuspended))
  then Ok tt else Err InvalidTransition.

Definition inv_pending (st : InvocationState) : bool :=
  match st with InvStarted | InvReceipt => true | _ => false end.

Definition has_recovery_pending_invocation (s : State) (execution : option string) : bool :=
  let pending (p : string * InvocationState) :=
    is_none_or (fun expected => (p.1 =? expected)%string) execution && inv_pending p.2 in
  any_value pending (models s) || any_value pending (tools s).

Definition has_pending_knowledge (s : State) (execution : string) : bool :=
  any_value (fun value => (kr_execution value =? execution)%string && negb (kr_terminal value))
    (knowledge s).

Definition has_pending_interaction (s : State) (execution : string) : bool :=
  any_value (fun value => (ir_execution value =? execution)%string && negb (ir_terminal value))
    (interactions s).

Definition has_pending_interaction_for_turn (s : State) (turn : string) : bool :=
  any_value (fun value =>
    negb (ir_terminal value)
    && is_some_and (fun p : string * ExecutionState => (p.1 =? turn)%string)
         (executions s !! ir_execution value)) (interactions s).

Definition delegation_settled (st : DelegationState) : bool :=
  match st with DelDenied | DelObserved => true | _ => false end.

Definition delegation_continuation_ready (s : State) (turn : string) (suspension : option string)
    : bool :=
  let matching := List.filter (fun item =>
    (dr_parent_turn item =? turn)%string && bool_decide (dr_suspension_id item = suspension))
    (values (delegations s)) in
  bool_decide (length matching = 0%nat)
  || forallb (fun item => bool_decide (dr_state item = DelObserved) && dr_input_admitted item) matching.

(** ** Session and turns *)

Definition close_session (s : State) : Res State :=
  reject InvalidTransition when
    any_value (fun st => match st with TurnOpen | TurnSuspended => true | _ => false end) (turns s)
    || any_value (fun p : string * ExecutionState => bool_decide (p.2 = ExActive)) (executions s)
    || has_recovery_pending_invocation s None
    || any_value (fun value => bool_decide (sr_state value = SchedActive)) (schedules s)
    || any_value (fun value => negb (delegation_settled (dr_state value))) (delegations s);
  Ok (s <| closed := true |>).

Definition start_turn (s : State) (fact : FactDraft) : Res State :=
  let? turn := required (turn_id fact) in
  let? payload := fact_payload fact in
  let? kind := text payload "kind" in
  let prior := opt_text payload "prior_suspension_id" in
  let valid := match turns s !! turn with
    | None => (kind =? "start")%string && is_none prior
    | Some TurnSuspended =>
        (kind =? "continue")%string
        && bool_decide (suspensions s !! turn = prior)
        && negb (has_pending_interaction_for_turn s turn)
        && delegation_continuation_ready s turn prior
    | _ => false
    end in
  reject InvalidTransition when negb valid;
  let s := s <| turns ::= <[turn := TurnOpen]> |> in
  let? s := (if (kind =? "start")%string then
    let? agent := text payload "agent_instance_id" in
    let? snapshot := text payload "snapshot_digest" in
    Ok (s <| turn_agents ::= <[turn := (agent, snapshot)]> |>
          <| turns_started_in_commit ::= (fun set => {[turn]} ∪ set) |>)
    else Ok s) in
  Ok (s <| suspensions ::= delete turn |>).

Definition transition_turn (s : State) (turn : string) (next : TurnState) : Res State :=
  let? current := ok_or (turns s !! turn) (Returned MissingReference) in
  let valid := match next with
    | TurnSuspended | TurnCompleted => bool_decide (current = TurnOpen)
    | TurnStopped | TurnFailed => match current with TurnOpen | TurnSuspended => true | _ => false end
    | TurnOpen => false
    end in
  reject InvalidTransition when negb valid;
  reject InvalidTransition when
    any_value (fun p : string * ExecutionState =>
      (p.1 =? turn)%string && bool_decide (p.2 = ExActive)) (executions s);
  reject InvalidTransition when
    negb (bool_decide (next = TurnSuspended)) && has_pending_interaction_for_turn s turn;
  Ok (s <| turns ::= <[turn := next]> |>).

Definition ledger_identity (value : string) : Res string :=
  ok_or (ledger_identity_try_from value) (Returned InvalidFact).

Definition suspend_turn (s : State) (fact : FactDraft) : Res State :=
  let? turn := required (turn_id fact) in
  let? payload := fact_payload fact in
  let? execution_text := text payload "execution_id" in
  let? execution := ledger_identity execution_text in
  reject InvalidTransition when
    negb (bool_decide (executions s !! execution = Some (turn, ExSuspended)));
  let? s := transition_turn s turn TurnSuspended in
  let? suspension_id := text payload "suspension_id" in
  let s := s <| suspensions ::= <[turn := suspension_id]> |> in
  let? reason := text payload "reason" in
  Ok (if (reason =? "delegation_pending")%string
      then s <| turns_suspended_in_commit ::= (fun set => {[turn]} ∪ set) |> else s).

Definition terminal_turn (s : State) (fact : FactDraft) (next : TurnState) : Res State :=
  let? turn := required (turn_id fact) in
  let? payload := fact_payload fact in
  let? execution_text := text payload "execution_id" in
  let? execution := ledger_identity execution_text in
  let? expected := (match next with
    | TurnCompleted => Ok ExCompleted
    | TurnStopped => Ok ExStopped
    | TurnFailed => Ok ExFailed
    | _ => Err InvalidTransition
    end : Res ExecutionState) in
  let actual := executions s !! execution in
  let suspended_close :=
    match next with TurnStopped | TurnFailed => true | _ => false end
    && bool_decide (turns s !! turn = Some TurnSuspended)
    && bool_decide (actual = Some (turn, ExSuspended)) in
  reject InvalidTransition when
    negb (bool_decide (actual = Some (turn, expected))) && negb suspended_close;
  let? s := transition_turn s turn next in
  Ok (s <| turns_terminal_in_commit ::= (fun set => {[turn]} ∪ set) |>).

Definition admit_turn_input (s : State) (fact : FactDraft) : Res State :=
  let? turn := required (turn_id fact) in
  let? payload := fact_payload fact in
  let? input_kind := text payload "input_kind" in
  if (input_kind =? "delegation_result")%string then
    let? suspension := text payload "suspension_id" in
    let? content := bound_object payload "content" in
    let? digest := text content "digest" in
    match List.find (fun kv : string * DelegationRecord =>
            (dr_parent_turn kv.2 =? turn)%string
            && bool_decide (dr_state kv.2 = DelObserved)
            && bool_decide (dr_suspension_id kv.2 = Some suspension)
            && bool_decide (dr_result_digest kv.2 = Some digest)) (entries (delegations s)) with
    | Some (id, record) =>
        Ok (s <| delegations ::= <[id := record <| dr_input_admitted := true |>]> |>)
    | None => Err InvalidTransition
    end
  else if negb ((input_kind =? "trusted_user")%string || (input_kind =? "trusted_system")%string) then
    if bool_decide (turns s !! turn = Some TurnSuspended)
       && bool_decide (suspensions s !! turn = opt_text payload "suspension_id")
    then Ok s else Err InvalidTransition
  else require_open_turn s turn ?; Ok s.

Definition admit_turn_steered (s : State) (fact : FactDraft) : Res State :=
  let? turn := required (turn_id fact) in
  match turns s !! turn with
  | Some TurnOpen => Ok s
  | Some _ => Err InvalidTransition
  | None => Err MissingReference
  end.

Definition request_cancel (s : State) (fact : FactDraft) : Res State :=
  let? turn := required (turn_id fact) in
  require_non_terminal_turn s turn ?; Ok s.

(** ** Executions *)

Definition start_execution (s : State) (fact : FactDraft) : Res State :=
  let? turn := required (turn_id fact) in
  require_open_turn s turn ?;
  let? execution := required (execution_id fact) in
  reject InvalidTransition when is_some (executions s !! execution);
  let s := s <| executions ::= <[execution := (turn, ExActive)]> |> in
  let? payload := fact_payload fact in
  let? iterations := unsigned payload "completed_iterations" in
  Ok (s <| execution_iterations ::= <[execution := iterations]> |>).

Definition start_iteration (s : State) (fact : FactDraft) : Res State :=
  require_active_execution s fact ?;
  let? execution := required (execution_id fact) in
  let? payload := fact_payload fact in
  let? iteration := unsigned payload "iteration" in
  let? current := ok_or (execution_iterations s !! execution) (Returned MissingReference) in
  reject InvalidTransition when negb (bool_decide (checked_add current 1 = Some iteration));
  Ok (s <| execution_iterations ::= <[execution := iteration]> |>).

Definition transition_execution (s : State) (fact : FactDraft) (next : ExecutionState) : Res State :=
  let? execution := required (execution_id fact) in
  let? turn := required (turn_id fact) in
  let? (owned_turn, state) := ok_or (executions s !! execution) (Returned MissingReference) in
  reject InvalidTransition when
    negb (owned_turn =? turn)%string || negb (bool_decide (state = ExActive));
  reject InvalidTransition when
    has_recovery_pending_invocation s (Some execution)
    || has_pending_knowledge s execution
    || (negb (bool_decide (next = ExSuspended)) && has_pending_interaction s execution);
  Ok (s <| executions ::= <[execution := (owned_turn, next)]> |>).

(** ** Model invocations *)

Definition prepare_model (s : State) (fact : FactDraft) : Res State :=
  require_active_execution s fact ?;
  let? request := required (model_request_id fact) in
  let? execution := required (execution_id fact) in
  reject InvalidTransition when is_some (models s !! request);
  let s := s <| models ::= <[request := (execution, InvPrepared)]> |> in
  let? payload := fact_payload fact in
  let? digest := text payload "request_digest" in
  Ok (s <| model_digests ::= <[request := digest]> |>).

Definition transition_model (s : State) (fact : FactDraft) (next : InvocationState) : Res State :=
  require_active_execution s fact ?;
  let? request := required (model_request_id fact) in
  let? execution := required (execution_id fact) in
  let? (owner, state) := ok_or (models s !! request) (Returned MissingReference) in
  reject InvalidTransition when negb (owner =? execution)%string;
  let? payload := fact_payload fact in
  let? digest := text payload "request_digest" in
  reject InvalidTransition when differs (model_digests s) request digest;
  let valid :=
    (bool_decide (state = InvPrepared) && bool_decide (next = InvStarted))
    || (bool_decide (state = InvStarted)
        && negb match next with InvPrepared | InvStarted => true | _ => false end) in
  reject InvalidTransition when negb valid;
  Ok (s <| models ::= <[request := (owner, next)]> |>).

Definition reject_tool_preparation (s : State) (fact : FactDraft) : Res State :=
  require_active_execution s fact ?;
  reject InvalidTransition when is_some (tool_invocation_id fact);
  let? request := required (model_request_id fact) in
  let? execution := required (execution_id fact) in
  let? payload := fact_payload fact in
  let? source := text payload "source_model_request_id" in
  reject InvalidTransition when negb (source =? request)%string;
  match models s !! request with
  | Some (owner, InvCompleted) =>
      if (owner =? execution)%string then Ok s else Err InvalidTransition
  | Some _ => Err InvalidTransition
  | None => Err MissingReference
  end.

(** ** Tool invocations *)

Definition prepare_tool (s : State) (fact : FactDraft) : Res State :=
  require_active_execution s fact ?;
  let? tool := required (tool_invocation_id fact) in
  let? execution := required (execution_id fact) in
  reject InvalidTransition when is_some (tools s !! tool);
  let s := s <| tools ::= <[tool := (execution, InvPrepared)]> |> in
  let? value := fact_payload fact in
  let? prepared_digest := text value "prepared_digest" in
  let s := s <| tool_digests ::= <[tool := prepared_digest]> |> in
  let? tool_name := text value "tool_name" in
  let? tool_revision := text value "tool_revision" in
  let s := s <| tool_revisions ::= <[tool := (tool_name, tool_revision)]> |>
             <| tool_contract_versions ::= <[tool := schema_version fact]> |> in
  if (schema_version fact =? 2) || (schema_version fact =? 3) then
    let? max_result_bytes := unsigned value "max_result_bytes" in
    let s := s <| tool_result_bytes ::= <[tool := max_result_bytes]> |> in
    if schema_version fact =? 3 then
      let? access := content_digest value "invocation_accesses" in
      let s := s <| tool_access_digests ::= <[tool := access]> |> in
      let? sandbox := text value "sandbox_requirements_digest" in
      Ok (s <| tool_sandbox_digests ::= <[tool := sandbox]> |>)
    else Ok s
  else Ok s.

(** One step of a batch plan: the indexes it schedules are appended. *)
Definition batch_group_index (tools : list string) (result_bytes : gmap string Z)
    (acc : Z * list Z) (index : Value) : Res (Z * list Z) :=
  let '(bytes, indexes) := acc in
  let? index := ok_or (as_u64 index) (Returned InvalidFact) in
  let? tool := ok_or (tools !! Z.to_nat index) (Returned InvalidTransition) in
  let? size := ok_or (result_bytes !! tool) (Returned InvalidTransition) in
  let? bytes := ok_or (checked_add bytes size) (Returned InvalidTransition) in
  Ok (bytes, indexes ++ [index]).

Definition batch_step (tools : list string) (result_bytes : gmap string Z)
    (max_parallel max_buffered : Z) (indexes : list Z) (step : Value) : Res (list Z) :=
  let? step := ok_or (as_object step) (Returned InvalidFact) in
  let? kind := text step "kind" in
  if (kind =? "sequential_step")%string && (length step =? 2)%nat then
    let? index := unsigned step "intent_index" in
    Ok (indexes ++ [index])
  else if (kind =? "parallel_read_group")%string && (length step =? 2)%nat then
    let? group := ok_or (map_get "intent_indexes" step ≫= as_array) (Returned InvalidFact) in
    reject InvalidTransition when
      bool_decide (group = []) || (max_parallel <? Z.of_nat (length group));
    let? (bytes, indexes) := try_fold (batch_group_index tools result_bytes) (0, indexes) group in
    reject InvalidTransition when max_buffered <? bytes;
    Ok indexes
  else Err InvalidFact.

Definition validate_batch_steps (value : Value) (tools : list string) (result_bytes : gmap string Z)
    (max_parallel max_buffered : Z) : Res unit :=
  let? steps := ok_or (as_array value) (Returned InvalidFact) in
  let? indexes := try_fold (batch_step tools result_bytes max_parallel max_buffered) [] steps in
  reject InvalidTransition when
    negb (bool_decide (indexes = Z.of_nat <$> seq 0 (length tools)));
  Ok tt.

(** [value[key].as_u64()]: indexing a map panics when the key is absent. *)
Definition index_u64 (value : Map) (key : string) : Res Z :=
  match map_get key value with
  | None => Err Panicked
  | Some v => ok_or (as_u64 v) (Returned InvalidFact)
  end.

(** The authorized, not yet planned invocations of one prepared digest. *)
Definition batch_matches (s : State) (execution digest : string) : list string :=
  (List.filter (fun kv : string * (string * InvocationState) =>
     (kv.2.1 =? execution)%string
     && bool_decide (kv.2.2 = InvAuthorized)
     && is_v s kv.1 2
     && bool_decide (tool_digests s !! kv.1 = Some digest)
     && negb (is_some (tool_batch_plans s !! kv.1))) (entries (tools s))).*1.

Definition batch_tool (s : State) (execution : string) (digest : Value) : Res string :=
  let? digest := ok_or (as_str digest) (Returned InvalidFact) in
  match batch_matches s execution digest with
  | [tool] => Ok tool
  | _ => Err InvalidTransition
  end.

Definition plan_effect_batch (s : State) (fact : FactDraft) : Res State :=
  require_active_execution s fact ?;
  let? execution := required (execution_id fact) in
  let? value := fact_payload fact in
  let? plan_digest := text value "plan_digest" in
  reject InvalidTransition when is_some (effect_batches s !! plan_digest);
  let? ordered := content_value value "ordered_prepared_digests" in
  let? digests := ok_or (as_array ordered) (Returned InvalidFact) in
  reject InvalidTransition when bool_decide (length digests = 0%nat);
  let? batch := try_map (batch_tool s execution) digests in
  reject InvalidTransition when
    negb (size (list_to_set batch : gset string) =? length batch)%nat;
  let? steps := content_value value "steps" in
  let? max_parallel := index_u64 value "max_parallel_reads" in
  let? max_buffered := index_u64 value "max_buffered_result_bytes" in
  validate_batch_steps steps batch (tool_result_bytes s) max_parallel max_buffered ?;
  Ok (s <| tool_batch_plans ::= (fun m => foldl (fun m tool => <[tool := plan_digest]> m) m batch) |>
        <| effect_batches ::= <[plan_digest := mkEffectBatch batch 0]> |>).

Definition tool_edge (current next : InvocationState) : bool :=
  match current, next with
  | InvPrepared, InvAuthorized
  | InvPrepared, InvStarted
  | InvPrepared, InvDenied
  | InvAuthorized, InvStarted
  | InvAuthorized, InvDenied
  | InvAuthorized, InvFailed
  | InvStarted, InvReceipt
  | InvStarted, InvFailed
  | InvStarted, InvUncertain
  | InvReceipt, InvCompleted
  | InvReceipt, InvFailed => true
  | _, _ => false
  end.

(** The stricter edges of a contract-v3 invocation. *)
Definition tool_edge_v3 (s : State) (tool : string) (version : Z) (current next : InvocationState)
    : bool :=
  match next with
  | InvAuthorized => bool_decide (current = InvPrepared) && (version =? 2)
  | InvStarted => bool_decide (current = InvAuthorized)
  | InvDenied =>
      is_some_and (fun record => negb (bool_decide (f0_disposition record = SafetyAllow)))
        (f0 s !! tool)
  | _ => true
  end.

(** The sandbox proof that admits the start of a contract-v3 invocation. *)
Definition sandbox_admits (s : State) (tool grant executor_id executor_revision attempt : string)
    : bool :=
  is_some_and (fun proof =>
    bool_decide (sp_grant_id proof = Some grant)
    && (sp_executor_id proof =? executor_id)%string
    && (sp_executor_revision proof =? executor_revision)%string
    && bool_decide (sp_dispatch_attempt_id proof = Some attempt)) (f0 s !! tool ≫= f0_sandbox).

(** The binding of an authorization to the Allow decision of a v3 invocation. *)
Definition check_decision (s : State) (tool : string) (payload : Map) : Res unit :=
  if is_v s tool 3 then
    let? record := ok_or (f0 s !! tool) (Returned InvalidTransition) in
    reject InvalidTransition when negb (bool_decide (f0_disposition record = SafetyAllow));
    let? prepared_digest := text payload "prepared_digest" in
    reject InvalidTransition when negb (f0_prepared_digest record =? prepared_digest)%string;
    let? authority_revision := text payload "authority_revision" in
    reject InvalidTransition when negb (f0_policy_revision record =? authority_revision)%string;
    let? constraints := text payload "constraints_digest" in
    reject InvalidTransition when
      negb (bool_decide (f0_constraints_digest record = Some constraints));
    Ok tt
  else Ok tt.

(** The preflighted sandbox proof required by the start of a v3 invocation. *)
Definition check_sandbox (s : State) (tool grant : string) (payload : Map) : Res unit :=
  if is_v s tool 3 then
    let? executor_id := text payload "executor_id" in
    let? executor_revision := text payload "executor_revision" in
    let? attempt := text payload "dispatch_attempt_id" in
    reject InvalidTransition when
      negb (sandbox_admits s tool grant executor_id executor_revision attempt);
    Ok tt
  else Ok tt.

Definition validate_effect_binding (s : State) (tool : string) (current next : InvocationState)
    (payload : Map) : Res State :=
  match next with
  | InvAuthorized =>
      check_decision s tool payload ?;
      let? grant := text payload "grant_id" in
      Ok (s <| tool_grants ::= <[tool := grant]> |>)
  | InvStarted =>
      let? grant := text payload "grant_id" in
      reject InvalidTransition when
        is_some_and (fun value => negb (value =? grant)%string) (tool_grants s !! tool);
      check_sandbox s tool grant payload ?;
      let s := s <| tool_grants ::= <[tool := grant]> |> in
      let? executor_id := text payload "executor_id" in
      let? executor_revision := text payload "executor_revision" in
      Ok (s <| tool_executors ::= <[tool := (executor_id, executor_revision)]> |>)
  | InvReceipt =>
      let? grant := text payload "grant_id" in
      reject InvalidTransition when differs (tool_grants s) tool grant;
      let? executor_id := text payload "executor_id" in
      let? executor_revision := text payload "executor_revision" in
      reject InvalidTransition when
        negb (bool_decide (tool_executors s !! tool = Some (executor_id, executor_revision)));
      let? receipt := text payload "receipt_id" in
      Ok (s <| tool_receipts ::= <[tool := receipt]> |>)
  | InvCompleted =>
      let? receipt := text payload "receipt_id" in
      reject InvalidTransition when differs (tool_receipts s) tool receipt;
      Ok s
  | InvFailed =>
      reject InvalidTransition when
        bool_decide (current = InvReceipt)
        && negb (bool_decide (tool_receipts s !! tool = opt_text payload "receipt_id"));
      Ok s
  | _ => Ok s
  end.

(** The planned batch of a contract-v2 invocation admits exactly its next tool. *)
Definition batch_admits (s : State) (tool : string) : bool :=
  match tool_batch_plans s !! tool ≫= fun digest => effect_batches s !! digest with
  | Some plan => bool_decide (eb_tools plan !! eb_next_start plan = Some tool)
  | None => false
  end.

Definition advance_batch (s : State) (tool : string) : State :=
  match tool_batch_plans s !! tool with
  | Some digest => s <| effect_batches ::= alter (fun plan => plan <| eb_next_start ::= S |>) digest |>
  | None => s
  end.

Definition transition_tool (s : State) (fact : FactDraft) (next : InvocationState) : Res State :=
  require_active_execution s fact ?;
  let? tool := required (tool_invocation_id fact) in
  let? execution := required (execution_id fact) in
  let? payload := fact_payload fact in
  let? prepared_digest := text payload "prepared_digest" in
  reject InvalidTransition when differs (tool_digests s) tool prepared_digest;
  let? (owner, current) := ok_or (tools s !! tool) (Returned MissingReference) in
  reject InvalidTransition when negb (owner =? execution)%string;
  let valid :=
    tool_edge current next
    && (if is_v s tool 3 then tool_edge_v3 s tool (schema_version fact) current next else true) in
  reject InvalidTransition when negb valid;
  let v2_start := bool_decide (next = InvStarted) && is_v s tool 2 in
  reject InvalidTransition when v2_start && negb (batch_admits s tool);
  let? s := validate_effect_binding s tool current next payload in
  let s := s <| tools ::= <[tool := (owner, next)]> |> in
  let s := if bool_decide (next = InvCompleted)
    then s <| tools_completed_in_commit ::= (fun set => {[tool]} ∪ set) |> else s in
  Ok (if v2_start then advance_batch s tool else s).

Definition commit_artifact (s : State) (fact : FactDraft) : Res State :=
  require_active_execution s fact ?;
  let? tool := required (tool_invocation_id fact) in
  let? execution := required (execution_id fact) in
  reject InvalidTransition when
    negb (bool_decide (tool ∈ tools_completed_in_commit s))
    || negb (bool_decide (tools s !! tool = Some (execution, InvCompleted)));
  let? value := fact_payload fact in
  let? receipt := text value "receipt_id" in
  reject InvalidTransition when differs (tool_receipts s) tool receipt;
  let? artifact_id := text value "artifact_id" in
  let? revision := unsigned value "revision" in
  reject InvalidTransition when bool_decide ((artifact_id, revision) ∈ artifacts s);
  Ok (s <| artifacts ::= (fun set => {[(artifact_id, revision)]} ∪ set) |>).

(** A reconciled effect is observed while suspended, with the reconciled value;
    any other one while its execution is active. *)
Definition observe_context (s : State) (fact : FactDraft) (tool : string) (payload : Map)
    (state : InvocationState) : Res unit :=
  if bool_decide (state = InvReconciled) then
    require_suspended_execution s fact ?;
    match tool_reconciled_observations s !! tool, map_get "observation" payload with
    | Some a, Some b => if value_eqb a b then Ok tt else Err InvalidTransition
    | None, None => Ok tt
    | _, _ => Err InvalidTransition
    end
  else require_active_execution s fact.

Definition observe_tool (s : State) (fact : FactDraft) : Res State :=
  let? tool := required (tool_invocation_id fact) in
  let? execution := required (execution_id fact) in
  let? payload := fact_payload fact in
  let? (owner, state) := ok_or (tools s !! tool) (Returned MissingReference) in
  reject InvalidTransition when
    negb (owner =? execution)%string
    || negb match state with
            | InvCompleted | InvFailed | InvDenied | InvReconciled => true | _ => false end;
  observe_context s fact tool payload state ?;
  let? prepared_digest := text payload "prepared_digest" in
  reject InvalidTransition when differs (tool_digests s) tool prepared_digest;
  Ok (s <| tools ::= <[tool := (owner, InvObserved)]> |>).

Definition reconcile_tool (s : State) (fact : FactDraft) : Res State :=
  require_suspended_execution s fact ?;
  let? tool := required (tool_invocation_id fact) in
  let? execution := required (execution_id fact) in
  let? payload := fact_payload fact in
  let? prepared_digest := text payload "prepared_digest" in
  reject InvalidTransition when
    differs (tool_digests s) tool prepared_digest
    || negb (bool_decide (tools s !! tool = Some (execution, InvUncertain)));
  let s := s <| tools ::= <[tool := (execution, InvReconciled)]> |> in
  let? observation := ok_or (map_get "observation" payload) (Returned InvalidFact) in
  Ok (s <| tool_reconciled_observations ::= <[tool := observation]> |>).

(** ** Safety decisions and sandbox proofs *)

Definition decide_safety (s : State) (fact : FactDraft) : Res State :=
  require_active_execution s fact ?;
  let? tool := required (tool_invocation_id fact) in
  let? execution := required (execution_id fact) in
  reject InvalidTransition when
    negb (is_v s tool 3)
    || negb (bool_decide (tools s !! tool = Some (execution, InvPrepared)))
    || is_some (f0 s !! tool);
  let? value := fact_payload fact in
  let? prepared_digest := text value "prepared_digest" in
  reject InvalidTransition when differs (tool_digests s) tool prepared_digest;
  let? tool_name := text value "tool_name" in
  let? tool_revision := text value "tool_revision" in
  reject InvalidTransition when
    negb (bool_decide (tool_revisions s !! tool = Some (tool_name, tool_revision)));
  let? access := text value "exact_access_digest" in
  reject InvalidTransition when differs (tool_access_digests s) tool access;
  let? sandbox := text value "sandbox_requirements_digest" in
  reject InvalidTransition when differs (tool_sandbox_digests s) tool sandbox;
  let? disposition_text := text value "disposition" in
  let? disposition := ok_or (assoc disposition_text
    [("allow", SafetyAllow); ("deny", SafetyDeny);
     ("interaction_required", SafetyInteractionRequired)]) (Returned InvalidFact) in
  let? decision_id := text value "decision_id" in
  let? policy_revision := text value "policy_revision" in
  Ok (s <| f0 ::= <[tool := mkF0 decision_id disposition prepared_digest policy_revision
                              (opt_text value "constraints_digest") None]> |>).

Definition bind_sandbox (s : State) (fact : FactDraft) : Res State :=
  require_active_execution s fact ?;
  let? tool := required (tool_invocation_id fact) in
  let? value := fact_payload fact in
  let? record := ok_or (f0 s !! tool) (Returned InvalidTransition) in
  reject InvalidTransition when
    negb (bool_decide (f0_disposition record = SafetyAllow))
    || is_some (f0_sandbox record)
    || negb (bool_decide (snd <$> tools s !! tool = Some InvAuthorized));
  let? decision_id := text value "decision_id" in
  reject InvalidTransition when negb (f0_decision_id record =? decision_id)%string;
  let? prepared_digest := text value "prepared_digest" in
  reject InvalidTransition when negb (f0_prepared_digest record =? prepared_digest)%string;
  let? policy_revision := text value "policy_revision" in
  reject InvalidTransition when negb (f0_policy_revision record =? policy_revision)%string;
  let? binding_id := text value "binding_id" in
  let? executor_id := text value "executor_id" in
  let? executor_revision := text value "executor_revision" in
  Ok (s <| f0 ::= <[tool := record <| f0_sandbox :=
              Some (mkSandboxProof binding_id executor_id executor_revision None None) |>]> |>).

Definition preflight_sandbox (s : State) (fact : FactDraft) : Res State :=
  require_active_execution s fact ?;
  let? tool := required (tool_invocation_id fact) in
  let? value := fact_payload fact in
  let? record := ok_or (f0 s !! tool) (Returned InvalidTransition) in
  let? proof := ok_or (f0_sandbox record) (Returned InvalidTransition) in
  let? grant := text value "grant_id" in
  reject InvalidTransition when is_some (sp_grant_id proof);
  let? decision_id := text value "decision_id" in
  reject InvalidTransition when negb (f0_decision_id record =? decision_id)%string;
  let? prepared_digest := text value "prepared_digest" in
  reject InvalidTransition when negb (f0_prepared_digest record =? prepared_digest)%string;
  let? binding_id := text value "binding_id" in
  reject InvalidTransition when negb (sp_binding_id proof =? binding_id)%string;
  let? executor_id := text value "executor_id" in
  reject InvalidTransition when negb (sp_executor_id proof =? executor_id)%string;
  let? executor_revision := text value "executor_revision" in
  reject InvalidTransition when negb (sp_executor_revision proof =? executor_revision)%string;
  reject InvalidTransition when differs (tool_grants s) tool grant;
  let? attempt := text value "dispatch_attempt_id" in
  Ok (s <| f0 ::= <[tool := record <| f0_sandbox :=
              Some (proof <| sp_grant_id := Some grant |>
                          <| sp_dispatch_attempt_id := Some attempt |>) |>]> |>).

(** ** Interactions *)

Definition request_interaction (s : State) (fact : FactDraft) : Res State :=
  require_active_execution s fact ?;
  let? tool := required (tool_invocation_id fact) in
  let? execution := required (execution_id fact) in
  reject InvalidTransition when
    negb match tools s !! tool with
         | Some (owner, InvPrepared) | Some (owner, InvAuthorized) => (owner =? execution)%string
         | _ => false
         end;
  reject InvalidTransition when
    is_v s tool 3
    && negb (bool_decide (f0_disposition <$> f0 s !! tool = Some SafetyInteractionRequired));
  let? payload := fact_payload fact in
  let? interaction_id := text payload "interaction_id" in
  let? prepared_digest := text payload "prepared_digest" in
  reject InvalidTransition when
    differs (tool_digests s) tool prepared_digest
    || is_some (interactions s !! interaction_id);
  let? suspension_id := text payload "suspension_id" in
  Ok (s <| interactions ::= <[interaction_id :=
              mkInteraction execution tool suspension_id prepared_digest false]> |>).

Definition finish_interaction (s : State) (fact : FactDraft) : Res State :=
  let? execution := required (execution_id fact) in
  let? tool := required (tool_invocation_id fact) in
  let? payload := fact_payload fact in
  let? interaction_id := text payload "interaction_id" in
  let? interaction := ok_or (interactions s !! interaction_id) (Returned MissingReference) in
  reject InvalidTransition when
    ir_terminal interaction
    || negb (ir_execution interaction =? execution)%string
    || negb (ir_tool interaction =? tool)%string;
  let? suspension_id := text payload "suspension_id" in
  reject InvalidTransition when negb (ir_suspension_id interaction =? suspension_id)%string;
  let? prepared_digest := text payload "prepared_digest" in
  reject InvalidTransition when negb (ir_prepared_digest interaction =? prepared_digest)%string;
  Ok (s <| interactions ::= <[interaction_id := interaction <| ir_terminal := true |>]> |>).

(** ** Knowledge requests *)

Definition request_knowledge (s : State) (fact : FactDraft) : Res State :=
  require_active_execution s fact ?;
  let? execution := required (execution_id fact) in
  let? value := fact_payload fact in
  let? request_id := text value "request_id" in
  let? request_digest := text value "request_digest" in
  reject InvalidTransition when is_some (knowledge s !! request_id);
  Ok (s <| knowledge ::= <[request_id := mkKnowledge execution request_digest ∅ false]> |>).

Definition dispatch_knowledge (s : State) (fact : FactDraft) : Res State :=
  require_active_execution s fact ?;
  let? execution := required (execution_id fact) in
  let? value := fact_payload fact in
  let? request_id := text value "request_id" in
  let? record := ok_or (knowledge s !! request_id) (Returned InvalidTransition) in
  let? attempt := text value "dispatch_attempt_id" in
  reject InvalidTransition when negb (kr_execution record =? execution)%string || kr_terminal record;
  let? request_digest := text value "request_digest" in
  reject InvalidTransition when
    negb (kr_request_digest record =? request_digest)%string
    || bool_decide (attempt ∈ kr_dispatch_attempts record);
  Ok (s <| knowledge ::= <[request_id :=
              record <| kr_dispatch_attempts ::= (fun set => {[attempt]} ∪ set) |>]> |>).

Definition knowledge_phase_valid (fact : FactDraft) (value : Map) (dispatched : bool) : Res bool :=
  if (kind fact =? "knowledge.completed")%string then Ok dispatched
  else
    let? phase := text value "phase" in
    Ok (if (phase =? "pre_dispatch")%string then negb dispatched
        else if (phase =? "dispatched")%string || (phase =? "response_validation")%string
        then dispatched else false).

Definition terminal_knowledge (s : State) (fact : FactDraft) : Res State :=
  require_active_execution s fact ?;
  let? execution := required (execution_id fact) in
  let? value := fact_payload fact in
  let? request_id := text value "request_id" in
  let? record := ok_or (knowledge s !! request_id) (Returned InvalidTransition) in
  let dispatched := negb (bool_decide (kr_dispatch_attempts record = ∅)) in
  let? valid_phase := knowledge_phase_valid fact value dispatched in
  reject InvalidTransition when negb (kr_execution record =? execution)%string || kr_terminal record;
  let? request_digest := text value "request_digest" in
  reject InvalidTransition when
    negb (kr_request_digest record =? request_digest)%string || negb valid_phase;
  Ok (s <| knowledge ::= <[request_id := record <| kr_terminal := true |>]> |>).

(** ** Delegations *)

Definition request_delegation (s : State) (fact : FactDraft) : Res State :=
  require_active_execution s fact ?;
  let? turn := required (turn_id fact) in
  let? execution := required (execution_id fact) in
  let? value := fact_payload fact in
  let? id := text value "delegation_id" in
  reject InvalidTransition when
    is_some (delegations s !! id)
    || any_value (fun item =>
         (dr_parent_turn item =? turn)%string && negb (delegation_settled (dr_state item)))
         (delegations s);
  let? agent := text value "parent_agent_instance_id" in
  reject InvalidTransition when negb (bool_decide (fst <$> turn_agents s !! turn = Some agent));
  let? intent_digest := text value "intent_digest" in
  Ok (s <| delegations ::= <[id := mkDelegation turn execution intent_digest None None None None None
                                     false DelRequested]> |>).

(** The record named by the payload and the envelope checks every later
    delegation fact starts with. *)
Definition delegation_record (s : State) (fact : FactDraft) (value : Map) (state : DelegationState)
    : Res (string * DelegationRecord) :=
  let? id := text value "delegation_id" in
  let? record := ok_or (delegations s !! id) (Returned MissingReference) in
  reject InvalidTransition when negb (bool_decide (dr_state record = state));
  let? turn := required (turn_id fact) in
  reject InvalidTransition when negb (dr_parent_turn record =? turn)%string;
  let? execution := required (execution_id fact) in
  reject InvalidTransition when negb (dr_parent_execution record =? execution)%string;
  Ok (id, record).

Definition authorize_delegation (s : State) (fact : FactDraft) : Res State :=
  require_active_execution s fact ?;
  let? value := fact_payload fact in
  let? (id, record) := delegation_record s fact value DelRequested in
  let? intent_digest := text value "intent_digest" in
  reject InvalidTransition when negb (dr_intent_digest record =? intent_digest)%string;
  let? grant := text value "grant_id" in
  Ok (s <| delegations ::= <[id := record <| dr_grant_id := Some grant |>
                                          <| dr_state := DelAuthorized |>]> |>).

Definition deny_delegation (s : State) (fact : FactDraft) : Res State :=
  require_active_execution s fact ?;
  let? value := fact_payload fact in
  let? (id, record) := delegation_record s fact value DelRequested in
  let? intent_digest := text value "intent_digest" in
  reject InvalidTransition when negb (dr_intent_digest record =? intent_digest)%string;
  Ok (s <| delegations ::= <[id := record <| dr_state := DelDenied |>]> |>).

Definition start_delegation_child (s : State) (fact : FactDraft) : Res State :=
  let? value := fact_payload fact in
  let? child_text := text value "child_turn_id" in
  let? child_turn := ledger_identity child_text in
  let? (id, record) := delegation_record s fact value DelAuthorized in
  let child := turn_agents s !! child_turn in
  let? grant := text value "grant_id" in
  reject InvalidTransition when
    negb (bool_decide (dr_grant_id record = Some grant))
    || negb (bool_decide (dr_parent_turn record ∈ turns_suspended_in_commit s))
    || negb (bool_decide (child_turn ∈ turns_started_in_commit s));
  let? agent := text value "child_agent_instance_id" in
  reject InvalidTransition when negb (bool_decide (fst <$> child = Some agent));
  let? snapshot := text value "child_snapshot_digest" in
  reject InvalidTransition when negb (bool_decide (snd <$> child = Some snapshot));
  let? suspension := text value "suspension_id" in
  reject InvalidTransition when differs (suspensions s) (dr_parent_turn record) suspension;
  Ok (s <| delegations ::= <[id := record <| dr_suspension_id := Some suspension |>
                                          <| dr_child_turn := Some child_turn |>
                                          <| dr_state := DelStarted |>]> |>).

Definition terminal_delegation_child (s : State) (fact : FactDraft) : Res State :=
  let? value := fact_payload fact in
  let? child_text := text value "child_turn_id" in
  let? child_turn := ledger_identity child_text in
  let? (id, record) := delegation_record s fact value DelStarted in
  let? grant := text value "grant_id" in
  reject InvalidTransition when negb (bool_decide (dr_grant_id record = Some grant));
  let? suspension := text value "suspension_id" in
  reject InvalidTransition when
    negb (bool_decide (dr_suspension_id record = Some suspension))
    || negb (bool_decide (dr_child_turn record = Some child_turn))
    || negb (bool_decide (child_turn ∈ turns_terminal_in_commit s));
  let? result_id := text value "result_id" in
  let? result_digest := text value "result_digest" in
  Ok (s <| delegations ::= <[id := record <| dr_result_id := Some result_id |>
                                          <| dr_result_digest := Some result_digest |>
                                          <| dr_state := DelTerminal |>]> |>).

Definition observe_delegation (s : State) (fact : FactDraft) : Res State :=
  let? value := fact_payload fact in
  let? (id, record) := delegation_record s fact value DelTerminal in
  let? grant := text value "grant_id" in
  reject InvalidTransition when negb (bool_decide (dr_grant_id record = Some grant));
  let? suspension := text value "suspension_id" in
  reject InvalidTransition when negb (bool_decide (dr_suspension_id record = Some suspension));
  let? result_id := text value "result_id" in
  reject InvalidTransition when negb (bool_decide (dr_result_id record = Some result_id));
  let? result_digest := text value "result_digest" in
  reject InvalidTransition when negb (bool_decide (dr_result_digest record = Some result_digest));
  Ok (s <| delegations ::= <[id := record <| dr_state := DelObserved |>]> |>).

(** ** Schedules *)

Definition create_schedule (s : State) (fact : FactDraft) : Res State :=
  let? value := fact_payload fact in
  let? schedule_id := text value "schedule_id" in
  let? revision_id := text value "revision_id" in
  let? intent_digest := text value "intent_digest" in
  reject InvalidTransition when
    is_some_and (fun existing =>
      negb (bool_decide (sr_state existing = SchedSuperseding))
      || (sr_revision_id existing =? revision_id)%string) (schedules s !! schedule_id);
  Ok (s <| schedules ::= <[schedule_id :=
              mkScheduleRecord revision_id intent_digest 0 None SchedActive]> |>).

Definition schedule_mut (s : State) (value : Map) : Res (string * ScheduleRecord) :=
  let? schedule_id := text value "schedule_id" in
  let? record := ok_or (schedules s !! schedule_id) (Returned InvalidTransition) in
  reject InvalidTransition when negb (bool_decide (sr_state record = SchedActive));
  let? revision_id := text value "revision_id" in
  reject InvalidTransition when negb (sr_revision_id record =? revision_id)%string;
  Ok (schedule_id, record).

Definition claim_schedule (s : State) (fact : FactDraft) : Res State :=
  let? value := fact_payload fact in
  let? (id, record) := schedule_mut s value in
  let? ordinal := unsigned value "ordinal" in
  let? occurrence_id := text value "occurrence_id" in
  let? due_at_utc := text value "due_at_utc" in
  let? lease_epoch := unsigned value "lease_epoch" in
  let? next := ok_or (checked_add (sr_last_handled_ordinal record) 1) (Returned InvalidTransition) in
  let valid := match sr_pending_claim record with
    | None => ordinal =? next
    | Some pending =>
        (sc_ordinal pending =? ordinal)
        && (sc_occurrence_id pending =? occurrence_id)%string
        && (sc_due_at_utc pending =? due_at_utc)%string
        && (sc_lease_epoch pending <? lease_epoch)
    end in
  reject InvalidTransition when negb valid;
  Ok (s <| schedules ::= <[id := record <| sr_pending_claim :=
              Some (mkScheduleClaim occurrence_id ordinal due_at_utc lease_epoch) |>]> |>).

Definition fire_schedule (s : State) (fact : FactDraft) : Res State :=
  let? value := fact_payload fact in
  let? (id, record) := schedule_mut s value in
  let? ordinal := unsigned value "ordinal" in
  let? occurrence := text value "occurrence_id" in
  reject InvalidTransition when
    negb (is_some_and (fun pending =>
      (sc_ordinal pending =? ordinal) && (sc_occurrence_id pending =? occurrence)%string)
      (sr_pending_claim record));
  Ok (s <| schedules ::= <[id := record <| sr_last_handled_ordinal := ordinal |>
                                        <| sr_pending_claim := None |>]> |>).

Definition skip_schedule (s : State) (fact : FactDraft) : Res State :=
  let? value := fact_payload fact in
  let? (id, record) := schedule_mut s value in
  let? first := unsigned value "first_ordinal" in
  let? last := unsigned value "last_ordinal" in
  reject InvalidTransition when
    is_some (sr_pending_claim record)
    || negb (bool_decide (checked_add (sr_last_handled_ordinal record) 1 = Some first));
  Ok (s <| schedules ::= <[id := record <| sr_last_handled_ordinal := last |>]> |>).

Definition cancel_schedule (s : State) (fact : FactDraft) : Res State :=
  let? value := fact_payload fact in
  let? schedule_id := text value "schedule_id" in
  let? record := ok_or (schedules s !! schedule_id) (Returned InvalidTransition) in
  reject InvalidTransition when
    negb (bool_decide (sr_state record = SchedActive)) || is_some (sr_pending_claim record);
  let? expected := text value "expected_revision_id" in
  reject InvalidTransition when negb (sr_revision_id record =? expected)%string;
  let? reason := text value "reason" in
  Ok (s <| schedules ::= <[schedule_id := record <| sr_state :=
              if (reason =? "superseded")%string then SchedSuperseding else SchedCancelled |>]> |>).

Definition fail_schedule (s : State) (fact : FactDraft) : Res State :=
  let? value := fact_payload fact in
  let? (id, record) := schedule_mut s value in
  let occurrence := opt_text value "occurrence_id" in
  let ordinal := map_get "ordinal" value ≫= as_u64 in
  let matches_claim := match sr_pending_claim record, occurrence, ordinal with
    | None, None, None => true
    | None, Some _, Some number =>
        bool_decide (checked_add (sr_last_handled_ordinal record) 1 = Some number)
    | Some pending, Some id, Some number =>
        (sc_occurrence_id pending =? id)%string && (sc_ordinal pending =? number)
    | _, _, _ => false
    end in
  reject InvalidTransition when negb matches_claim;
  Ok (s <| schedules ::= <[id := record <| sr_pending_claim := None |>
                                        <| sr_state := SchedFailed |>]> |>).

Definition exhaust_schedule (s : State) (fact : FactDraft) : Res State :=
  let? value := fact_payload fact in
  let? (id, record) := schedule_mut s value in
  reject InvalidTransition when is_some (sr_pending_claim record);
  let? last := unsigned value "last_handled_ordinal" in
  reject InvalidTransition when negb (sr_last_handled_ordinal record =? last);
  Ok (s <| schedules ::= <[id := record <| sr_state := SchedExhausted |>]> |>).

(** ** Dispatch *)

Definition handlers : list (string * (State -> FactDraft -> Res State)) :=
  [("session.closed", fun s _ => close_session s);
   ("turn.started", start_turn);
   ("turn.suspended", suspend_turn);
   ("turn.completed", fun s f => terminal_turn s f TurnCompleted);
   ("turn.stopped", fun s f => terminal_turn s f TurnStopped);
   ("turn.failed", fun s f => terminal_turn s f TurnFailed);
   ("turn.input", admit_turn_input);
   ("turn.steered", admit_turn_steered);
   ("turn.cancel_requested", request_cancel);
   ("execution.started", start_execution);
   ("execution.iteration_started", start_iteration);
   ("execution.abandoned", fun s f => transition_execution s f ExAbandoned);
   ("execution.completed", fun s f => transition_execution s f ExCompleted);
   ("execution.suspended", fun s f => transition_execution s f ExSuspended);
   ("execution.stopped", fun s f => transition_execution s f ExStopped);
   ("execution.failed", fun s f => transition_execution s f ExFailed);
   ("execution.effect_batch_planned", plan_effect_batch);
   ("model.prepared", prepare_model);
   ("model.started", fun s f => transition_model s f InvStarted);
   ("model.completed", fun s f => transition_model s f InvCompleted);
   ("model.rejected", fun s f => transition_model s f InvRejected);
   ("model.interrupted", fun s f => transition_model s f InvInterrupted);
   ("model.unavailable", fun s f => transition_model s f InvUnavailable);
   ("model.uncertain", fun s f => transition_model s f InvUncertain);
   ("effect.prepared", prepare_tool);
   ("safety.decided", decide_safety);
   ("effect.authorized", fun s f => transition_tool s f InvAuthorized);
   ("sandbox.bound", bind_sandbox);
   ("sandbox.preflighted", preflight_sandbox);
   ("effect.started", fun s f => transition_tool s f InvStarted);
   ("effect.receipt", fun s f => transition_tool s f InvReceipt);
   ("effect.completed", fun s f => transition_tool s f InvCompleted);
   ("artifact.committed", commit_artifact);
   ("effect.failed", fun s f => transition_tool s f InvFailed);
   ("effect.denied", fun s f => transition_tool s f InvDenied);
   ("effect.uncertain", fun s f => transition_tool s f InvUncertain);
   ("effect.reconciled", reconcile_tool);
   ("effect.observation", observe_tool);
   ("tool.preparation_rejected", reject_tool_preparation);
   ("interaction.requested", request_interaction);
   ("interaction.resolved", finish_interaction);
   ("interaction.cancelled", finish_interaction);
   ("knowledge.requested", request_knowledge);
   ("knowledge.dispatched", dispatch_knowledge);
   ("knowledge.completed", terminal_knowledge);
   ("knowledge.failed", terminal_knowledge);
   ("schedule.created", create_schedule);
   ("schedule.claimed", claim_schedule);
   ("schedule.fired", fire_schedule);
   ("schedule.skipped", skip_schedule);
   ("schedule.cancelled", cancel_schedule);
   ("schedule.failed", fail_schedule);
   ("schedule.exhausted", exhaust_schedule);
   ("delegation.requested", request_delegation);
   ("delegation.authorized", authorize_delegation);
   ("delegation.denied", deny_delegation);
   ("delegation.child_started", start_delegation_child);
   ("delegation.child_terminal", terminal_delegation_child);
   ("delegation.observed", observe_delegation)].

Definition projection_apply (s : State) (fact : FactDraft) : Res State :=
  lift (draft_validate fact) ?;
  if (kind fact =? "session.opened")%string then
    reject InvalidTransition when opened s || closed s;
    Ok (s <| opened := true |>)
  else
    reject InvalidTransition when negb (opened s) || closed s;
    match assoc (kind fact) handlers with
    | Some handler => handler s fact
    | None => Ok s
    end.

Definition begin_commit (s : State) : State :=
  s <| turns_started_in_commit := ∅ |> <| turns_suspended_in_commit := ∅ |>
    <| turns_terminal_in_commit := ∅ |> <| tools_completed_in_commit := ∅ |>.

Definition validate_commit_boundary (s : State) : Res unit :=
  if any_value (fun value => bool_decide (sr_state value = SchedSuperseding)) (schedules s)
     || any_value (fun value =>
          (bool_decide (dr_parent_turn value ∈ turns_suspended_in_commit s)
           && bool_decide (dr_state value = DelAuthorized))
          || is_some_and (fun turn =>
               bool_decide (turn ∈ turns_terminal_in_commit s)
               && bool_decide (dr_state value = DelStarted)) (dr_child_turn value))
          (delegations s)
  then Err InvalidTransition else Ok tt.

(** ** Queries *)

Definition recoverable_turns (s : State) : list string :=
  (List.filter (fun kv : string * TurnState =>
     match kv.2 with TurnOpen | TurnSuspended => true | _ => false end) (entries (turns s))).*1.

Definition uncertain_model_requests (s : State) : list string :=
  (List.filter (fun kv : string * (string * InvocationState) => bool_decide (kv.2.2 = InvStarted))
     (entries (models s))).*1.

Definition uncertain_tool_invocations (s : State) : list string :=
  (List.filter (fun kv : string * (string * InvocationState) => bool_decide (kv.2.2 = InvStarted))
     (entries (tools s))).*1.

End projection.
