(* ===== verification/LedgerState.v ===== *)
(** * Ledger state ([engine/ledger/src/state.rs])

    The in-memory reference ledger: sessions with their ordered facts and
    projection, the global fact index, the atomic [commit] and the queries.
    [commit] returns the next state, or stops with the state unchanged. *)

From S2P Require Import Prelude Json LedgerTypes RuntimeFacts ProjectionTypes Projection.

Record SessionLedger := mkSessionLedger {
  session_version_of : Z;
  facts : list DurableFact;
  session_drafts : gmap Z FactDraft;
  projection : SessionProjection;
}.
#[export] Instance eta_SessionLedger : Eta SessionLedger := fun r =>
  mkSessionLedger (session_version_of r) (facts r) (session_drafts r) (projection r).

(** [SessionLedger::default()]. *)
Definition session_default : SessionLedger := mkSessionLedger 0 [] ∅ projection_default.

Record FactIndexEntry := mkIndexEntry {
  fi_session_id : string;
  fi_position : Z;
  fi_draft : FactDraft;
}.

Record LedgerState := mkLedgerState {
  sessions : gmap string SessionLedger;
  fact_index : gmap string FactIndexEntry;
}.
#[export] Instance eta_LedgerState : Eta LedgerState := fun r =>
  mkLedgerState (sessions r) (fact_index r).

Definition ledger_default : LedgerState := mkLedgerState ∅ ∅.

Section ledger.
Context `{Externals}.

Abbreviation Res := (result Abort) (only parsing).

Definition same_present (left right : option string) : bool :=
  match left, right with
  | Some l, Some r => (l =? r)%string
  | _, _ => false
  end.

Definition shares_identity (existing draft : FactDraft) : bool :=
  same_present (turn_id existing) (turn_id draft)
  || same_present (execution_id existing) (execution_id draft)
  || same_present (model_request_id existing) (model_request_id draft)
  || same_present (tool_invocation_id existing) (tool_invocation_id draft).

Definition identity_owned_by_other_session (self : LedgerState) (session_id : string)
    (draft : FactDraft) : bool :=
  any_value (fun existing =>
    negb (fi_session_id existing =? session_id)%string && shares_identity (fi_draft existing) draft)
    (fact_index self).

(** ** Commit *)

(** What the first loop of [commit] accumulates. *)
Record Scan := mkScan {
  scan_identities : gset string;
  replay_positions : list Z;
  replayed : nat;
}.

Definition commit_scan (self : LedgerState) (session_id : string) (acc : Scan) (draft : FactDraft)
    : Res Scan :=
  lift (draft_validate draft) ?;
  lift (validate_runtime_fact draft) ?;
  reject InvalidTransition when identity_owned_by_other_session self session_id draft;
  reject InvalidFact when bool_decide (fact_id draft ∈ scan_identities acc);
  let identities := {[fact_id draft]} ∪ scan_identities acc in
  match fact_index self !! fact_id draft with
  | Some existing =>
      reject IdempotencyCollision when
        negb (fi_session_id existing =? session_id)%string
        || negb (same_semantics (fi_draft existing) draft);
      Ok (mkScan identities (replay_positions acc ++ [fi_position existing]) (S (replayed acc)))
  | None => Ok (mkScan identities (replay_positions acc) (replayed acc))
  end.

(** The append loop; [position] is the position of the head of [drafts]. *)
Fixpoint commit_append (session_id : string) (next : SessionLedger) (position : Z)
    (drafts : list FactDraft) : Res (SessionLedger * list Z) :=
  match drafts with
  | [] => Ok (next, [])
  | draft :: rest =>
      let? projected := projection_apply (projection next) draft in
      let durable := DurableFact_from session_id position draft in
      lift (fact_verify durable) ?;
      let next := next <| projection := projected |>
                       <| session_drafts ::= <[position := draft]> |>
                       <| facts ::= (fun l => l ++ [durable]) |> in
      match rest with
      | [] => Ok (next, [position])
      | _ =>
          let? following := ok_or (checked_add position 1) (Returned PositionOverflow) in
          let? (next, positions) := commit_append session_id next following rest in
          Ok (next, position :: positions)
      end
  end.

Definition index_insert (session_id : string) (index : gmap string FactIndexEntry)
    (entry : FactDraft * Z) : gmap string FactIndexEntry :=
  <[fact_id entry.1 := mkIndexEntry session_id entry.2 entry.1]> index.

Definition next_position (next : SessionLedger) : Res Z :=
  match last (facts next) with
  | None => Ok 1
  | Some fact => ok_or (checked_add (position fact) 1) (Returned PositionOverflow)
  end.

Definition commit (self : LedgerState) (session_id : string) (expected_session_version : Z)
    (drafts : list FactDraft) : Res (LedgerState * CommitResult) :=
  reject EmptyBatch when (length drafts =? 0)%nat;
  let? scan := try_fold (commit_scan self session_id) (mkScan ∅ [] 0) drafts in
  if (replayed scan =? length drafts)%nat then
    let? session := ok_or (sessions self !! session_id) (Returned MissingReference) in
    Ok (self, mkCommitResult Replayed (session_version_of session) (replay_positions scan))
  else
    reject IncompleteReplay when negb (replayed scan =? 0)%nat;
    let next := default session_default (sessions self !! session_id) in
    reject ConcurrentModification when
      negb (session_version_of next =? expected_session_version);
    let next := next <| projection ::= begin_commit |> in
    let? position := next_position next in
    let? (next, positions) := commit_append session_id next position drafts in
    validate_commit_boundary (projection next) ?;
    let? version := ok_or (checked_add (session_version_of next) 1) (Returned PositionOverflow) in
    let next := next <| session_version_of := version |> in
    Ok (mkLedgerState (<[session_id := next]> (sessions self))
          (foldl (index_insert session_id) (fact_index self) (zip drafts positions)),
        mkCommitResult Committed version positions).

(** ** Queries *)

(** The body of the [read_facts] loop: [previous] and the facts kept so far. *)
Definition read_step (kinds : option (gset string)) (acc : Z * list DurableFact)
    (fact : DurableFact) : Res (Z * list DurableFact) :=
  let '(previous, output) := acc in
  lift (fact_verify fact) ?;
  reject InvalidTransition when position fact <=? previous;
  Ok (position fact,
      if is_none_or (fun values => bool_decide (df_kind fact ∈ values)) kinds
      then output ++ [fact] else output).

Definition in_range (after_position through_position : Z) (fact : DurableFact) : bool :=
  (after_position <? position fact) && (position fact <=? through_position).

Definition read_facts (self : LedgerState) (session_id : string)
    (after_position through_position : Z) (kinds : option (gset string))
    : Res (list DurableFact) :=
  reject InvalidReadRange when
    (through_position =? 0) || (through_position <=? after_position);
  let? session := ok_or (sessions self !! session_id) (Returned MissingReference) in
  let? (_, output) := try_fold (read_step kinds) (after_position, [])
    (List.filter (in_range after_position through_position) (facts session)) in
  Ok output.

Record TurnSnapshot := mkTurnSnapshot {
  snapshot_facts : list DurableFact;
  snapshot_session_version : Z;
  snapshot_through_position : Z;
}.

Definition turn_facts (turn : string) (session : SessionLedger) : list DurableFact :=
  List.filter (fun fact => bool_decide (df_turn_id fact = Some turn)) (facts session).

(** The first session, in identity order, that holds facts of the turn. *)
Definition load_turn (self : LedgerState) (turn : string) : Res TurnSnapshot :=
  match List.find (fun session => negb (length (turn_facts turn session) =? 0)%nat)
          (values (sessions self)) with
  | Some session =>
      Ok (mkTurnSnapshot (turn_facts turn session) (session_version_of session)
            (match last (facts session) with Some fact => position fact | None => 0 end))
  | None => Err MissingReference
  end.

Definition with_projection {A} (self : LedgerState) (session_id : string)
    (query : SessionProjection -> A) : Res A :=
  ok_or ((fun session => query (projection session)) <$> sessions self !! session_id)
    (Returned MissingReference).

Definition list_recoverable_turns (self : LedgerState) (session_id : string) : Res (list string) :=
  with_projection self session_id recoverable_turns.
Definition list_uncertain_model_requests (self : LedgerState) (session_id : string)
    : Res (list string) := with_projection self session_id uncertain_model_requests.
Definition list_uncertain_tool_invocations (self : LedgerState) (session_id : string)
    : Res (list string) := with_projection self session_id uncertain_tool_invocations.

Definition find_invocation (self : LedgerState) (predicate : DurableFact -> bool)
    : list DurableFact :=
  List.filter predicate (concat (facts <$> values (sessions self))).
Definition find_model_request (self : LedgerState) (request : string) : list DurableFact :=
  find_invocation self (fun fact => bool_decide (df_model_request_id fact = Some request)).
Definition find_tool_invocation (self : LedgerState) (invocation : string) : list DurableFact :=
  find_invocation self (fun fact => bool_decide (df_tool_invocation_id fact = Some invocation)).

Definition session_version (self : LedgerState) (session_id : string) : option Z :=
  session_version_of <$> sessions self !! session_id.
Definition fact_count (self : LedgerState) (session_id : string) : nat :=
  match sessions self !! session_id with Some session => length (facts session) | None => 0%nat end.
Definition fact_at (self : LedgerState) (session_id : string) (p : Z) : option DurableFact :=
  sessions self !! session_id ≫= fun session =>
    List.find (fun fact => position fact =? p) (facts session).

End ledger.
