(* ===== verification/LedgerTheorems.v ===== *)
(** * Ledger invariant and theorems

    What every sequence of commits keeps: contiguous positions, an index that
    agrees with the stored facts, one owning session per identity, and a
    projection that is the replay of the committed batches. *)

From S2P Require Import Prelude Json LedgerTypes RuntimeFacts ProjectionTypes Projection LedgerState JsonDecode.

Section invariant.
Context `{Externals}.

(** ** The append loop *)

Definition positions_from (p : Z) (n : nat) : list Z := (fun i => p + Z.of_nat i) <$> seq 0 n.

#[global] Arguments positions_from : simpl never.

Lemma positions_from_S p n : positions_from p (S n) = p :: positions_from (p + 1) n.
Proof.
  unfold positions_from. simpl. f_equal; [lia|].
  rewrite <-fmap_S_seq, <-list_fmap_compose. apply list_fmap_ext. intros i x _. simpl. lia.
Qed.

Lemma positions_from_app p n m :
  positions_from p (n + m) = positions_from p n ++ positions_from (p + Z.of_nat n) m.
Proof.
  revert p. induction n as [|n IH]; intros p.
  - simpl. by rewrite Z.add_0_r.
  - rewrite Nat.add_succ_l, !positions_from_S, IH. simpl.
    by replace (p + Z.of_nat (S n)) with (p + 1 + Z.of_nat n) by lia.
Qed.

Lemma length_positions_from p n : length (positions_from p n) = n.
Proof. unfold positions_from. by rewrite length_fmap, length_seq. Qed.

Lemma elem_of_positions_from q p n : q ∈ positions_from p n <-> p <= q < p + Z.of_nat n.
Proof.
  unfold positions_from. rewrite list_elem_of_fmap. split.
  - intros (i & -> & Hi%elem_of_seq). lia.
  - intros Hq. exists (Z.to_nat (q - p)). split; [lia|]. apply elem_of_seq. lia.
Qed.

(** The durable facts a batch becomes at position [p]. *)
Fixpoint durable (sid : string) (p : Z) (ds : list FactDraft) : list DurableFact :=
  match ds with [] => [] | d :: ds => DurableFact_from sid p d :: durable sid (p + 1) ds end.

Lemma length_durable sid p ds : length (durable sid p ds) = length ds.
Proof. revert p. induction ds as [|d ds IH]; intros p; simpl; [done|]. by rewrite IH. Qed.

Lemma position_durable sid p ds : position <$> durable sid p ds = positions_from p (length ds).
Proof.
  revert p. induction ds as [|d ds IH]; intros p; simpl; [done|].
  rewrite positions_from_S. by f_equal.
Qed.

Lemma elem_of_durable sid p ds f :
  f ∈ durable sid p ds <->
  exists q d, (d, q) ∈ zip ds (positions_from p (length ds)) /\ f = DurableFact_from sid q d.
Proof.
  revert p. induction ds as [|d ds IH]; intros p; cbn [durable length].
  - split; [set_solver|]. intros (q & d & Hin & _). set_solver.
  - rewrite elem_of_cons, positions_from_S, IH. simpl. setoid_rewrite elem_of_cons. naive_solver.
Qed.

Record appended (sid : string) (next : SessionLedger) (p : Z) (ds : list FactDraft)
    (next' : SessionLedger) (ps : list Z) : Prop := {
  app_positions : ps = positions_from p (length ds);
  app_facts : facts next' = facts next ++ durable sid p ds;
  app_version : session_version_of next' = session_version_of next;
  app_verified : Forall (fun f => fact_verify f = Ok tt) (durable sid p ds);
  app_projection : try_fold projection_apply (projection next) ds = Ok (projection next');
  app_bound : p <= u64_max -> p + Z.of_nat (length ds) - 1 <= u64_max;
}.

Lemma commit_append_ok sid next p ds next' ps :
  commit_append sid next p ds = Ok (next', ps) -> ds ≠ [] -> appended sid next p ds next' ps.
Proof.
  revert next p ps. induction ds as [|d ds IH]; intros next p ps Hc Hne; [done|]. simpl in Hc.
  destruct (projection_apply _ _) as [pr|] eqn:Ep; [|done].
  destruct (lift _) as [[]|] eqn:Ev; [|done].
  assert (Hv : fact_verify (DurableFact_from sid p d) = Ok tt).
  { unfold lift in Ev. by destruct (fact_verify _) as [[]|]. }
  destruct ds as [|d2 ds].
  - injection Hc as <- <-. constructor; simpl; [by rewrite positions_from_S|done|done| | |lia].
    + by repeat constructor.
    + by rewrite Ep.
  - destruct (ok_or _ _) as [q|] eqn:Eq; [|done]. apply ok_or_ok, checked_u64_some in Eq as [<- Hq].
    destruct (commit_append _ _ _ _) as [[next2 ps2]|] eqn:Ec; [|done]. injection Hc as <- <-.
    apply IH in Ec as [Hps Hf Hver Hvf Hpr Hb]; [|done]. constructor.
    + by rewrite Hps, <-positions_from_S.
    + rewrite Hf. simpl. by rewrite <-app_assoc.
    + by rewrite Hver.
    + constructor; [done|]. apply Hvf.
    + simpl. by rewrite Ep.
    + intros _. unfold is_u64 in Hq. simpl length in *. lia.
Qed.

(** ** The scan loop *)

Definition acceptable (L : LedgerState) (sid : string) (d : FactDraft) : Prop :=
  draft_validate d = Ok tt /\ (exists r, validate_runtime_fact d = Ok r) /\
  identity_owned_by_other_session L sid d = false.

Definition indexed_in (L : LedgerState) (sid : string) (d : FactDraft) (e : FactIndexEntry) : Prop :=
  fact_index L !! fact_id d = Some e /\ fi_session_id e = sid /\ same_semantics (fi_draft e) d = true.

Definition is_indexed (L : LedgerState) (d : FactDraft) : bool := is_some (fact_index L !! fact_id d).

Record scanned (L : LedgerState) (sid : string) (acc : Scan) (ds : list FactDraft) (sc : Scan) : Prop := {
  sc_acceptable : Forall (acceptable L sid) ds;
  sc_nodup : NoDup (fact_id <$> ds);
  sc_fresh : forall d, d ∈ ds -> fact_id d ∉ scan_identities acc;
  sc_replayed : replayed sc = (replayed acc + length (List.filter (is_indexed L) ds))%nat;
  sc_positions : replay_positions sc = replay_positions acc ++
    omap (fun d => fi_position <$> fact_index L !! fact_id d) ds;
  sc_indexed : forall d, d ∈ ds -> is_indexed L d = true -> exists e, indexed_in L sid d e;
}.

Lemma lift_ok {A} (r : result LedgerError A) a : lift r = Ok a <-> r = Ok a.
Proof. destruct r; simpl; naive_solver. Qed.

Lemma commit_scan_ok L sid acc d sc :
  commit_scan L sid acc d = Ok sc <->
  acceptable L sid d /\ fact_id d ∉ scan_identities acc /\
  scan_identities sc = {[fact_id d]} ∪ scan_identities acc /\
  match fact_index L !! fact_id d with
  | Some e => indexed_in L sid d e /\ replayed sc = S (replayed acc) /\
      replay_positions sc = replay_positions acc ++ [fi_position e]
  | None => replayed sc = replayed acc /\ replay_positions sc = replay_positions acc
  end.
Proof.
  unfold commit_scan, acceptable, indexed_in. split.
  - intros Hs. destruct (lift (draft_validate d)) as [[]|] eqn:E1; [|done]. apply lift_ok in E1.
    destruct (lift (validate_runtime_fact d)) as [r|] eqn:E2; [|done]. apply lift_ok in E2.
    destruct (identity_owned_by_other_session L sid d) eqn:E3; [done|].
    case_bool_decide; [done|]. split_and!; eauto.
    + destruct (fact_index L !! fact_id d); [destruct (_ || _); [done|]|]; by injection Hs as <-.
    + destruct (fact_index L !! fact_id d) as [e|] eqn:E4; [|by injection Hs as <-].
      destruct (_ || _) eqn:E5; [done|]. injection Hs as <-. bool_hyps. done.
  - intros ((Hv & [r Hr] & Ho) & Hn & Hi & Hm). rewrite Hv, Hr, Ho. simpl.
    rewrite bool_decide_eq_false_2 by done. destruct sc as [si rp re]. simpl in *. subst si.
    destruct (fact_index L !! fact_id d) as [e|].
    + destruct Hm as ((_ & -> & ->) & -> & ->). by rewrite String.eqb_refl.
    + by destruct Hm as [-> ->].
Qed.

Lemma scan_ok L sid ds acc sc :
  try_fold (commit_scan L sid) acc ds = Ok sc -> scanned L sid acc ds sc.
Proof.
  revert acc. induction ds as [|d ds IH]; intros acc Hs; simpl in Hs.
  - injection Hs as <-. constructor; simpl; [done|constructor|set_solver|lia|by rewrite app_nil_r|set_solver].
  - destruct (commit_scan L sid acc d) as [s1|] eqn:E1; [|done].
    apply commit_scan_ok in E1 as (Ha & Hn & Hi & Hm). apply IH in Hs as [Hfa Hnd Hfr Hre Hpo Hin].
    rewrite Hi in Hfr. constructor.
    + by constructor.
    + simpl. constructor; [|done]. intros (d' & Heq & Hd')%list_elem_of_fmap.
      specialize (Hfr d' Hd'). rewrite <-Heq in Hfr. set_solver.
    + intros d' [->|Hd']%elem_of_cons; [done|]. specialize (Hfr d' Hd'). set_solver.
    + unfold is_indexed in *. simpl. destruct (fact_index L !! fact_id d) as [e|]; simpl;
        [destruct Hm as (_ & Hm & _)|destruct Hm as (Hm & _)]; rewrite Hre, Hm; simpl; lia.
    + simpl. destruct (fact_index L !! fact_id d) as [e|]; simpl;
        [destruct Hm as (_ & _ & Hm)|destruct Hm as (_ & Hm)]; rewrite Hpo, Hm; [by rewrite <-app_assoc|done].
    + intros d' [->|Hd']%elem_of_cons Hix; [|by apply Hin]. unfold is_indexed in Hix.
      destruct (fact_index L !! fact_id d) as [e|] eqn:E; [|done]. destruct Hm as (Hm & _). eauto.
Qed.

(** ** State invariant *)

(** The batches of a session, replayed from the empty projection. *)
Definition replay_batch (s : SessionProjection) (ds : list FactDraft) : result Abort SessionProjection :=
  let? s := try_fold projection_apply (begin_commit s) ds in
  validate_commit_boundary s ?; Ok s.

Record session_wf (sid : string) (S : SessionLedger) : Prop := {
  wf_positions : position <$> facts S = positions_from 1 (length (facts S));
  wf_position_bound : Z.of_nat (length (facts S)) <= u64_max;
  wf_verified : Forall (fun f => fact_verify f = Ok tt) (facts S);
  wf_replay : exists batches : list (list FactDraft),
    Forall (fun b => b ≠ []) batches /\
    session_version_of S = Z.of_nat (length batches) /\
    facts S = durable sid 1 (concat batches) /\
    try_fold replay_batch projection_default batches = Ok (projection S);
}.

Record ledger_wf (L : LedgerState) : Prop := {
  lw_sessions : forall sid S, sessions L !! sid = Some S -> session_wf sid S /\ facts S ≠ [];
  lw_indexed : forall sid S f, sessions L !! sid = Some S -> f ∈ facts S ->
    exists d, fact_index L !! df_fact_id f = Some (mkIndexEntry sid (position f) d) /\
      f = DurableFact_from sid (position f) d;
  lw_stored : forall id e, fact_index L !! id = Some e ->
    fact_id (fi_draft e) = id /\ draft_validate (fi_draft e) = Ok tt /\
    (exists r, validate_runtime_fact (fi_draft e) = Ok r) /\
    exists S, sessions L !! fi_session_id e = Some S /\
      DurableFact_from (fi_session_id e) (fi_position e) (fi_draft e) ∈ facts S;
  lw_isolated : forall id1 e1 id2 e2,
    fact_index L !! id1 = Some e1 -> fact_index L !! id2 = Some e2 ->
    shares_identity (fi_draft e1) (fi_draft e2) = true -> fi_session_id e1 = fi_session_id e2;
}.

(** ** Inversion of a commit *)

Definition session_of (L : LedgerState) (sid : string) : SessionLedger :=
  default session_default (sessions L !! sid).

Inductive committed (L : LedgerState) (sid : string) (v : Z) (ds : list FactDraft) :
    LedgerState -> CommitResult -> Prop :=
  | committed_replay S :
      sessions L !! sid = Some S ->
      Forall (fun d => exists e, indexed_in L sid d e) ds ->
      committed L sid v ds L
        (mkCommitResult Replayed (session_version_of S)
           (omap (fun d => fi_position <$> fact_index L !! fact_id d) ds))
  | committed_append p next' :
      Forall (fun d => fact_index L !! fact_id d = None) ds ->
      session_version_of (session_of L sid) = v ->
      next_position (session_of L sid) = Ok p ->
      appended sid (session_of L sid <| projection ::= begin_commit |>) p ds next'
        (positions_from p (length ds)) ->
      validate_commit_boundary (projection next') = Ok tt ->
      is_u64 (v + 1) ->
      committed L sid v ds
        (mkLedgerState (<[sid := next' <| session_version_of := v + 1 |>]> (sessions L))
           (foldl (index_insert sid) (fact_index L) (zip ds (positions_from p (length ds)))))
        (mkCommitResult Committed (v + 1) (positions_from p (length ds))).

Lemma filter_all {A} (f : A -> bool) l :
  length (List.filter f l) = length l -> forall x, x ∈ l -> f x = true.
Proof.
  induction l as [|y l IH]; simpl; [set_solver|].
  pose proof (List.filter_length_le f l). destruct (f y) eqn:E; simpl; [|lia].
  intros Hl x [->|Hx]%elem_of_cons; [done|]. apply IH; [lia|done].
Qed.

Lemma filter_none {A} (f : A -> bool) l :
  length (List.filter f l) = 0%nat -> forall x, x ∈ l -> f x = false.
Proof.
  induction l as [|y l IH]; simpl; [set_solver|]. destruct (f y) eqn:E; simpl; [done|].
  intros Hl x [->|Hx]%elem_of_cons; auto.
Qed.

Lemma commit_inv L sid v ds L' r :
  commit L sid v ds = Ok (L', r) ->
  ds ≠ [] /\ Forall (acceptable L sid) ds /\ NoDup (fact_id <$> ds) /\ committed L sid v ds L' r.
Proof.
  unfold commit. intros Hc. destruct (length ds =? 0)%nat eqn:E0; [done|].
  assert (Hne : ds ≠ []) by by intros ->.
  destruct (try_fold _ _ ds) as [sc|] eqn:Es; [|done]. apply scan_ok in Es as [Ha Hnd _ Hre Hpo Hix].
  simpl in Hre, Hpo. split_and!; [done..|].
  destruct (replayed sc =? length ds)%nat eqn:Er.
  - apply Nat.eqb_eq in Er. destruct (ok_or _ _) as [S|] eqn:E1; [|done]. apply ok_or_ok in E1.
    injection Hc as <- <-. rewrite Hpo. constructor; [done|]. apply Forall_forall. intros d Hd.
    apply Hix; [done|]. apply (filter_all (is_indexed L) ds); [congruence|done].
  - destruct (negb _) eqn:E1; [done|]. bool_hyps. apply Nat.eqb_eq in E1.
    destruct (negb _) eqn:E2; [done|]. bool_hyps. fold (session_of L sid) in *.
    destruct (next_position _) as [p|] eqn:E3; [|done].
    destruct (commit_append _ _ _ _) as [[next' ps]|] eqn:E4; [|done].
    destruct (validate_commit_boundary _) as [[]|] eqn:E5; [|done].
    destruct (ok_or _ _) as [ver|] eqn:E6; [|done]. apply ok_or_ok, checked_u64_some in E6 as [Hver Hu].
    apply commit_append_ok in E4; [|done]. pose proof (app_positions _ _ _ _ _ _ E4) as Hps.
    pose proof (app_version _ _ _ _ _ _ E4) as Hv. simpl in Hv. rewrite Hv, E2 in Hver, Hu. subst ver.
    injection Hc as <- <-. subst ps. constructor; try done.
    apply Forall_forall. intros d Hd.
    pose proof (filter_none (is_indexed L) ds ltac:(congruence) d Hd) as Hf. unfold is_indexed in Hf.
    by destruct (_ !! _).
Qed.

(** ** The index after a commit *)

Lemma index_foldl sid idx ds ps id e :
  length ds = length ps -> NoDup (fact_id <$> ds) ->
  foldl (index_insert sid) idx (zip ds ps) !! id = Some e <->
  (exists d q, (d, q) ∈ zip ds ps /\ fact_id d = id /\ e = mkIndexEntry sid q d) \/
  (id ∉ fact_id <$> ds /\ idx !! id = Some e).
Proof.
  revert idx ps. induction ds as [|d ds IH]; intros idx [|q ps] Hl Hnd; simpl in *; try lia.
  - split; [right; split; [set_solver|done]|]. intros [(d & q & Hin & _)|[_ ?]]; [set_solver|done].
  - apply list.NoDup_cons in Hnd as [Hd Hnd]. rewrite IH by (lia || done).
    unfold index_insert. simpl. rewrite lookup_insert_Some. setoid_rewrite elem_of_cons.
    split.
    + intros [(d' & q' & ? & ? & ?)|[Hn [[<- <-]|[? ?]]]]; [naive_solver..|]. right. naive_solver.
    + intros [(d' & q' & [[= -> ->]|?] & Hid & ->)|[Hn ?]]; [|naive_solver..].
      right. subst id. naive_solver.
Qed.

Lemma index_keeps sid idx ds ps id e :
  length ds = length ps -> NoDup (fact_id <$> ds) -> Forall (fun d => idx !! fact_id d = None) ds ->
  idx !! id = Some e -> foldl (index_insert sid) idx (zip ds ps) !! id = Some e.
Proof.
  intros Hl Hnd Hn He. apply index_foldl; [done..|]. right. split; [|done].
  intros (d & -> & Hd)%list_elem_of_fmap. rewrite Forall_forall in Hn. rewrite Hn in He by done. done.
Qed.

Lemma last_position sid S p :
  session_wf sid S -> next_position S = Ok p -> p = Z.of_nat (length (facts S)) + 1 /\ p <= u64_max.
Proof.
  intros [Hp _ _ _]. unfold next_position. destruct (last (facts S)) as [f|] eqn:El.
  - apply last_Some in El as [l El]. rewrite El in *.
    rewrite fmap_app, length_app, positions_from_app in Hp. simpl in *.
    apply app_inj_2 in Hp as [_ Hp]; [|by rewrite length_positions_from].
    rewrite positions_from_S in Hp. injection Hp as Hp.
    intros Hq%ok_or_ok%checked_u64_some. unfold is_u64 in Hq. rewrite length_app. simpl. lia.
  - apply last_None in El as ->. simpl. intros [= <-]. done.
Qed.

Lemma durable_app sid p ds1 ds2 :
  durable sid p (ds1 ++ ds2) = durable sid p ds1 ++ durable sid (p + Z.of_nat (length ds1)) ds2.
Proof.
  revert p. induction ds1 as [|d ds1 IH]; intros p; simpl; [by rewrite Z.add_0_r|].
  rewrite IH. do 3 f_equal. lia.
Qed.

Lemma concat_snoc {A} (l : list (list A)) x : concat (l ++ [x]) = concat l ++ x.
Proof. induction l as [|y l IH]; simpl; [by rewrite app_nil_r|]. by rewrite IH, app_assoc. Qed.

(** ** Preservation *)

Lemma session_default_wf sid : session_wf sid session_default.
Proof. constructor; [done|done|constructor|]. by exists []. Qed.

Lemma session_of_wf L sid : ledger_wf L -> session_wf sid (session_of L sid).
Proof.
  intros [Hs _ _ _]. unfold session_of. destruct (sessions L !! sid) as [S|] eqn:E; simpl.
  - by apply Hs in E as [? _].
  - apply session_default_wf.
Qed.

Lemma append_session_wf sid S p ds next' ps :
  session_wf sid S -> ds ≠ [] -> next_position S = Ok p ->
  appended sid (S <| projection ::= begin_commit |>) p ds next' ps ->
  validate_commit_boundary (projection next') = Ok tt ->
  session_wf sid (next' <| session_version_of := session_version_of S + 1 |>).
Proof.
  intros Hw Hne Hp [_ Hf _ Hv Hpr Hb] Hbo. destruct (last_position sid S p Hw Hp) as [-> Hle].
  specialize (Hb Hle). destruct Hw as [Hpos _ Hver (batches & Hbs & Hn & Hfs & Hre)]. simpl in *.
  constructor; simpl; rewrite ?Hf.
  - rewrite fmap_app, length_app, length_durable, positions_from_app, Hpos, position_durable.
    by rewrite (Z.add_comm 1).
  - rewrite length_app, length_durable. lia.
  - apply Forall_app. auto.
  - exists (batches ++ [ds]). split_and!.
    + apply Forall_app. auto.
    + rewrite length_app. simpl. lia.
    + rewrite concat_snoc, durable_app, <-Hfs. do 2 f_equal.
      rewrite Hfs, length_durable. lia.
    + rewrite try_fold_app, Hre. simpl. unfold replay_batch. by rewrite Hpr, Hbo.
Qed.

Lemma same_present_sym a b : same_present a b = same_present b a.
Proof. destruct a, b; simpl; try done. apply String.eqb_sym. Qed.

Lemma shares_identity_sym d1 d2 : shares_identity d1 d2 = shares_identity d2 d1.
Proof. unfold shares_identity. f_equal; [f_equal; [f_equal|]|]; apply same_present_sym. Qed.

Lemma acceptable_isolated L sid d id e :
  acceptable L sid d -> fact_index L !! id = Some e ->
  shares_identity (fi_draft e) d = true -> fi_session_id e = sid.
Proof.
  intros (_ & _ & Ho) He Hsh. unfold identity_owned_by_other_session in Ho.
  rewrite any_value_false in Ho. specialize (Ho _ _ He). rewrite Hsh, andb_true_r in Ho. by bool_hyps.
Qed.

Section append.
Context (L : LedgerState) (sid : string) (ds : list FactDraft) (p : Z) (N : SessionLedger).
Hypothesis (Hwf : ledger_wf L) (Hne : ds ≠ []).
Hypothesis (Hacc : Forall (acceptable L sid) ds) (Hnd : NoDup (fact_id <$> ds)).
Hypothesis (Hfresh : Forall (fun d => fact_index L !! fact_id d = None) ds).
Hypothesis (HN : session_wf sid N) (HNf : facts N = facts (session_of L sid) ++ durable sid p ds).

Let L' := mkLedgerState (<[sid := N]> (sessions L))
  (foldl (index_insert sid) (fact_index L) (zip ds (positions_from p (length ds)))).

Lemma append_index id e :
  fact_index L' !! id = Some e <->
  (exists d q, (d, q) ∈ zip ds (positions_from p (length ds)) /\ fact_id d = id /\ e = mkIndexEntry sid q d) \/
  (id ∉ fact_id <$> ds /\ fact_index L !! id = Some e).
Proof. apply index_foldl; [by rewrite length_positions_from|done]. Qed.

Lemma append_keeps id e : fact_index L !! id = Some e -> fact_index L' !! id = Some e.
Proof. apply index_keeps; [by rewrite length_positions_from|done..]. Qed.

Lemma append_indexed sid' S f :
  sessions L' !! sid' = Some S -> f ∈ facts S ->
  exists d, fact_index L' !! df_fact_id f = Some (mkIndexEntry sid' (position f) d) /\
    f = DurableFact_from sid' (position f) d.
Proof.
  assert (Hold : forall sid' S, sessions L !! sid' = Some S -> f ∈ facts S ->
    exists d, fact_index L' !! df_fact_id f = Some (mkIndexEntry sid' (position f) d) /\
      f = DurableFact_from sid' (position f) d).
  { intros sid0 S0 HS0 Hf0. destruct (lw_indexed L Hwf _ _ _ HS0 Hf0) as (d & Hd & Heq).
    exists d. split; [by apply append_keeps|done]. }
  simpl. intros [[<- <-]|[Hn HS]]%lookup_insert_Some Hf; [|by eapply Hold].
  rewrite HNf in Hf. apply elem_of_app in Hf as [Hf|Hf].
  - unfold session_of in Hf. destruct (sessions L !! sid) as [S|] eqn:E; simpl in Hf; [by eapply Hold|set_solver].
  - apply elem_of_durable in Hf as (q & d & Hin & ->). exists d. split; [|done].
    apply append_index. left. exists d, q. done.
Qed.

Lemma append_stored id e :
  fact_index L' !! id = Some e ->
  fact_id (fi_draft e) = id /\ draft_validate (fi_draft e) = Ok tt /\
  (exists r, validate_runtime_fact (fi_draft e) = Ok r) /\
  exists S, sessions L' !! fi_session_id e = Some S /\
    DurableFact_from (fi_session_id e) (fi_position e) (fi_draft e) ∈ facts S.
Proof.
  intros [(d & q & Hin & Hid & ->)|[Hn He]]%append_index; simpl.
  - pose proof (elem_of_zip_l _ _ _ _ Hin) as Hd. rewrite Forall_forall in Hacc.
    destruct (Hacc d Hd) as (Hv & Hr & _). split_and!; [done..|]. exists N.
    rewrite lookup_insert_eq. split; [done|]. rewrite HNf. apply elem_of_app. right.
    apply elem_of_durable. eauto.
  - destruct (lw_stored L Hwf _ _ He) as (Hid & Hv & Hr & S & HS & Hin). split_and!; [done..|].
    destruct (decide (fi_session_id e = sid)) as [Heq|Hneq].
    + exists N. rewrite Heq, lookup_insert_eq. split; [done|]. rewrite HNf. apply elem_of_app. left.
      unfold session_of. rewrite <-Heq, HS. done.
    + exists S. by rewrite lookup_insert_ne.
Qed.

Lemma append_isolated id1 e1 id2 e2 :
  fact_index L' !! id1 = Some e1 -> fact_index L' !! id2 = Some e2 ->
  shares_identity (fi_draft e1) (fi_draft e2) = true -> fi_session_id e1 = fi_session_id e2.
Proof.
  rewrite Forall_forall in Hacc.
  intros [(d1 & q1 & H1 & _ & ->)|[_ H1]]%append_index [(d2 & q2 & H2 & _ & ->)|[_ H2]]%append_index Hsh;
    simpl in *; [done|..].
  - symmetry. apply elem_of_zip_l in H1. rewrite shares_identity_sym in Hsh.
    eapply acceptable_isolated; [by apply Hacc|done..].
  - apply elem_of_zip_l in H2. eapply acceptable_isolated; [by apply Hacc|done..].
  - by eapply (lw_isolated L Hwf).
Qed.

Lemma append_wf : ledger_wf L'.
Proof.
  constructor; [|apply append_indexed|apply append_stored|apply append_isolated].
  simpl. intros sid' S [[<- <-]|[Hn HS]]%lookup_insert_Some; [|by apply (lw_sessions L Hwf)].
  split; [done|]. rewrite HNf. intros [_ Hnil]%app_nil.
  apply (f_equal length) in Hnil. rewrite length_durable in Hnil. by destruct ds.
Qed.
End append.

Lemma commit_wf L sid v ds L' r : ledger_wf L -> commit L sid v ds = Ok (L', r) -> ledger_wf L'.
Proof.
  intros Hwf (Hne & Hacc & Hnd & Hc)%commit_inv.
  destruct Hc as [S HS _|p next' Hfr Hv Hp Happ Hbo Hu]; [done|].
  apply append_wf; try done.
  - rewrite <-Hv. eapply append_session_wf; eauto using session_of_wf.
  - simpl. by rewrite (app_facts _ _ _ _ _ _ Happ).
Qed.

Inductive ledger_reachable : LedgerState -> Prop :=
  | ledger_empty : ledger_reachable ledger_default
  | ledger_commit L sid v ds L' r :
      ledger_reachable L -> commit L sid v ds = Ok (L', r) -> ledger_reachable L'.

Lemma ledger_reachable_wf L : ledger_reachable L -> ledger_wf L.
Proof. induction 1; [by constructor|eauto using commit_wf]. Qed.
End invariant.

(** ** Theorems about the ledger

    Contiguous verified histories that replay to their projection, atomic
    append, idempotent retry, version checks, exact reads and one owning session
    per identity. *)

Section theorems.
Context `{Externals}.

(** ** Retry *)

(** Commits only ever extend the index. *)
Definition commits_to (L L' : LedgerState) : Prop :=
  rtc (fun L L' => exists sid v ds r, commit L sid v ds = Ok (L', r)) L L'.

Lemma commit_index_mono L sid v ds L' r id e :
  commit L sid v ds = Ok (L', r) -> fact_index L !! id = Some e -> fact_index L' !! id = Some e.
Proof.
  intros (Hne & Hacc & Hnd & Hc)%commit_inv He. destruct Hc as [S HS _|p next' Hfr Hv Hp Happ Hbo Hu]; [done|].
  apply index_keeps; [by rewrite length_positions_from|done..].
Qed.

Lemma commits_to_index L L' id e :
  commits_to L L' -> fact_index L !! id = Some e -> fact_index L' !! id = Some e.
Proof. induction 1 as [|L L1 L' (sid & v & ds & r & Hc) _ IH]; eauto using commit_index_mono. Qed.

Lemma commits_to_reachable L L' : ledger_reachable L -> commits_to L L' -> ledger_reachable L'.
Proof.
  intros Hr Hc. induction Hc as [|L L1 L' (sid & v & ds & r & Hc) _ IH]; [done|].
  eauto using ledger_commit.
Qed.

(** A retried draft: same idempotency-bound semantics, valid on its own. *)
Definition retry_of (d d' : FactDraft) : Prop :=
  same_semantics d d' = true /\ draft_validate d' = Ok tt.

Lemma same_semantics_fields d d' : same_semantics d d' = true ->
  d' = mkFactDraft (fact_id d) (turn_id d) (execution_id d) (model_request_id d)
         (tool_invocation_id d) (kind d) (schema_version d) (payload d) (recorded_at d').
Proof. unfold same_semantics. intros Hs. bool_hyps. destruct d, d'. simpl in *. by subst. Qed.

Lemma retry_schema d d' : same_semantics d d' = true ->
  validate_runtime_fact d' = validate_runtime_fact d.
Proof. intros ->%same_semantics_fields. by destruct d. Qed.

Lemma retry_identity d d' x : same_semantics d d' = true ->
  shares_identity x d' = shares_identity x d.
Proof. intros ->%same_semantics_fields. by destruct d. Qed.

Lemma retry_acceptable L sid d d' q :
  ledger_wf L -> fact_index L !! fact_id d = Some (mkIndexEntry sid q d) -> retry_of d d' ->
  acceptable L sid d'.
Proof.
  intros Hw He [Hs Hv]. destruct (lw_stored L Hw _ _ He) as (_ & _ & [r Hr] & _). simpl in Hr.
  split_and!; [done|exists r; by rewrite (retry_schema d d' Hs)|].
  unfold identity_owned_by_other_session. apply any_value_false. intros id e He'.
  destruct (shares_identity (fi_draft e) d') eqn:Hsh; [|by rewrite andb_false_r].
  rewrite andb_true_r, negb_false_iff. apply String.eqb_eq.
  rewrite (retry_identity d d' _ Hs) in Hsh.
  by apply (lw_isolated L Hw _ _ _ _ He' He).
Qed.

Lemma scan_replay L sid ds ds' ps acc :
  ledger_wf L -> Forall2 retry_of ds ds' -> length ds = length ps -> NoDup (fact_id <$> ds) ->
  (forall d, d ∈ ds -> fact_id d ∉ scan_identities acc) ->
  (forall d q, (d, q) ∈ zip ds ps -> fact_index L !! fact_id d = Some (mkIndexEntry sid q d)) ->
  exists sc, try_fold (commit_scan L sid) acc ds' = Ok sc /\
    replayed sc = (replayed acc + length ds)%nat /\ replay_positions sc = replay_positions acc ++ ps.
Proof.
  intros Hw Hf. revert ps acc. induction Hf as [|d d' ds ds' Hd Hf IH]; intros [|q ps] acc Hl Hnd Hfr Hix;
    simpl in *; try lia.
  - exists acc. rewrite app_nil_r. split_and!; [done|lia|done].
  - apply list.NoDup_cons in Hnd as [Hnd0 Hnd]. pose proof (Hix d q ltac:(set_solver)) as He.
    pose proof (same_semantics_fields d d' (proj1 Hd)) as Hid. apply (f_equal fact_id) in Hid. simpl in Hid.
    set (acc1 := mkScan ({[fact_id d']} ∪ scan_identities acc) (replay_positions acc ++ [q]) (S (replayed acc))).
    assert (Hstep : commit_scan L sid acc d' = Ok acc1).
    { apply commit_scan_ok. rewrite Hid, He. simpl. unfold indexed_in. rewrite Hid.
      split_and!; eauto using retry_acceptable; [apply Hfr; set_solver|]. apply Hd. }
    rewrite Hstep. destruct (IH ps acc1) as (sc & Hsc & Hr & Hp).
    + lia.
    + done.
    + simpl. rewrite Hid. intros d2 Hd2. specialize (Hfr d2 ltac:(set_solver)).
      assert (fact_id d2 ≠ fact_id d); [|set_solver]. intros Heq. apply Hnd0. rewrite <-Heq.
      apply list_elem_of_fmap. eauto.
    + intros d2 q2 Hin. apply Hix. set_solver.
    + exists sc. split_and!; [done|rewrite Hr; simpl; lia|rewrite Hp; simpl; by rewrite <-app_assoc].
Qed.

Lemma commit_entries L sid v ds L' r d q :
  commit L sid v ds = Ok (L', r) -> disposition r = Committed ->
  (d, q) ∈ zip ds (result_positions r) -> fact_index L' !! fact_id d = Some (mkIndexEntry sid q d).
Proof.
  intros (Hne & Hacc & Hnd & Hc)%commit_inv Hd Hin.
  destruct Hc as [S HS _|p next' Hfr Hv Hp Happ Hbo Hu]; [done|]. simpl in *.
  apply index_foldl; [by rewrite length_positions_from|done|]. left. eauto.
Qed.

Lemma commit_positions L sid v ds L' r :
  commit L sid v ds = Ok (L', r) -> disposition r = Committed -> length ds = length (result_positions r).
Proof.
  intros (Hne & Hacc & Hnd & Hc)%commit_inv Hd.
  destruct Hc; [done|]. simpl. by rewrite length_positions_from.
Qed.

(** ** Reads *)

Lemma read_fold kinds l previous output :
  (forall f, f ∈ l -> fact_verify f = Ok tt) ->
  StronglySorted (fun a b => position a < position b) l ->
  (forall f, f ∈ l -> previous < position f) ->
  exists last, try_fold (read_step kinds) (previous, output) l =
    Ok (last, output ++ List.filter (fun f =>
      is_none_or (fun values => bool_decide (df_kind f ∈ values)) kinds) l).
Proof.
  intros Hv Hs. revert previous output. induction Hs as [|f l Hs IH Hf]; intros previous output Hp; simpl.
  - exists previous. by rewrite app_nil_r.
  - rewrite (Hv f) by set_solver. simpl. rewrite (proj2 (Z.leb_gt _ _)) by (apply Hp; set_solver).
    edestruct IH as [last Hl]; [intros; apply Hv; set_solver|intros g Hg; rewrite Forall_forall in Hf; by apply Hf|].
    exists last. rewrite Hl. f_equal. f_equal. destruct (is_none_or _ _); [by rewrite <-app_assoc|done].
Qed.

Lemma positions_sorted p l :
  position <$> l = positions_from p (length l) -> StronglySorted (fun a b => position a < position b) l.
Proof.
  revert p. induction l as [|f l IH]; intros p Hp; [constructor|].
  simpl length in Hp. rewrite fmap_cons, positions_from_S in Hp. injection Hp as Hf Hp. constructor; [eauto|].
  apply Forall_forall. intros g Hg.
  assert (Hin : position g ∈ positions_from (p + 1) (length l)) by (rewrite <-Hp; apply list_elem_of_fmap; eauto).
  apply elem_of_positions_from in Hin. lia.
Qed.

Lemma filter_sorted {A} (R : relation A) f (l : list A) :
  StronglySorted R l -> StronglySorted R (List.filter f l).
Proof.
  induction 1 as [|x l Hs IH Hf]; simpl; [constructor|]. destruct (f x); [|done]. constructor; [done|].
  rewrite Forall_forall in *. intros y Hy. apply Hf. apply list_elem_of_In, List.filter_In in Hy as [Hy _].
  by apply list_elem_of_In.
Qed.

Lemma filter_filter {A} (f g : A -> bool) l :
  List.filter g (List.filter f l) = List.filter (fun x => f x && g x) l.
Proof. induction l as [|x l IH]; simpl; [done|]. destruct (f x); simpl; [destruct (g x)|]; by rewrite IH. Qed.

(** ** Turn ownership *)

Lemma turn_owner L sid1 S1 f1 sid2 S2 f2 t :
  ledger_wf L -> sessions L !! sid1 = Some S1 -> f1 ∈ facts S1 ->
  sessions L !! sid2 = Some S2 -> f2 ∈ facts S2 ->
  df_turn_id f1 = Some t -> df_turn_id f2 = Some t -> sid1 = sid2.
Proof.
  intros Hw HS1 Hf1 HS2 Hf2 Ht1 Ht2.
  destruct (lw_indexed L Hw _ _ _ HS1 Hf1) as (d1 & He1 & Heq1).
  destruct (lw_indexed L Hw _ _ _ HS2 Hf2) as (d2 & He2 & Heq2).
  apply (lw_isolated L Hw _ _ _ _ He1 He2). simpl. unfold shares_identity.
  rewrite Heq1 in Ht1. rewrite Heq2 in Ht2. simpl in *. by rewrite Ht1, Ht2; simpl; rewrite String.eqb_refl.
Qed.

(** ** The theorems *)

(** C1: In every ledger reached by commits, the facts of a session carry the positions 1, 2, 3,
    ... in order, every fact verifies against its digest, and replaying the session's history
    batch by batch from the empty projection gives exactly the stored projection, one version per
    batch. *)
Theorem ledger_history_replays L sid S :
  ledger_reachable L -> sessions L !! sid = Some S ->
  position <$> facts S = positions_from 1 (length (facts S)) /\
  Forall (fun f => fact_verify f = Ok tt) (facts S) /\
  exists batches : list (list FactDraft),
    Forall (fun b => b ≠ []) batches /\
    session_version_of S = Z.of_nat (length batches) /\
    facts S = durable sid 1 (concat batches) /\
    try_fold replay_batch projection_default batches = Ok (projection S).
Proof.
  intros Hr%ledger_reachable_wf HS. by destruct (lw_sessions L Hr sid S HS) as [[Hp _ Hv Hre] _].
Qed.

(** C31: A commit that is not a replay was made at the current version of the session, raises the
    version by one, stores only facts whose ids are new, appends exactly its drafts at the next
    positions, and leaves every other session as it was. *)
Theorem ledger_commit_appends L sid v ds L' r :
  ledger_reachable L -> commit L sid v ds = Ok (L', r) -> disposition r = Committed ->
  session_version_of (session_of L sid) = v /\ result_session_version r = v + 1 /\
  session_version L' sid = Some (v + 1) /\
  (forall d, d ∈ ds -> fact_index L !! fact_id d = None) /\
  (let p := Z.of_nat (length (facts (session_of L sid))) + 1 in
   result_positions r = positions_from p (length ds) /\
   facts (session_of L' sid) = facts (session_of L sid) ++ durable sid p ds) /\
  (forall other, other ≠ sid -> sessions L' !! other = sessions L !! other).
Proof.
  intros Hr%ledger_reachable_wf (Hne & Hacc & Hnd & Hc)%commit_inv Hd.
  destruct Hc as [S HS _|p next' Hfr Hv Hp Happ Hbo Hu]; [done|]. simpl.
  destruct (last_position sid _ p (session_of_wf L sid Hr) Hp) as [-> _].
  unfold session_version, session_of. simpl. rewrite !lookup_insert_eq. simpl.
  split_and!; [done..|by apply Forall_forall|done| |].
  - by rewrite (app_facts _ _ _ _ _ _ Happ).
  - intros other Ho. by rewrite lookup_insert_ne.
Qed.

(** C32: Retrying a committed batch, at any expected version and after any number of further
    commits, with drafts that have the same semantics (the recorded time may differ), changes
    nothing and returns the positions of the first commit. *)
Theorem ledger_retry_idempotent L sid v ds L1 r L2 v' ds' :
  ledger_reachable L -> commit L sid v ds = Ok (L1, r) -> disposition r = Committed ->
  commits_to L1 L2 -> Forall2 retry_of ds ds' ->
  exists version, session_version L2 sid = Some version /\
    commit L2 sid v' ds' = Ok (L2, mkCommitResult Replayed version (result_positions r)).
Proof.
  intros Hr Hc Hd Hto Hretry.
  pose proof (ledger_commit _ _ _ _ _ _ Hr Hc) as Hr1.
  pose proof (ledger_reachable_wf L2 (commits_to_reachable _ _ Hr1 Hto)) as Hw.
  assert (Hix : forall d q, (d, q) ∈ zip ds (result_positions r) ->
    fact_index L2 !! fact_id d = Some (mkIndexEntry sid q d)).
  { intros d q Hin. eapply commits_to_index; [done|]. eapply commit_entries; eauto. }
  pose proof (commit_positions _ _ _ _ _ _ Hc Hd) as Hl.
  destruct (commit_inv _ _ _ _ _ _ Hc) as (Hne & _ & Hnd & _).
  destruct (scan_replay L2 sid ds ds' (result_positions r) (mkScan ∅ [] 0))
    as (sc & Hsc & Hre & Hpo); [done..|set_solver|done|].
  destruct ds as [|d ds]; [done|]. destruct (result_positions r) as [|q ps] eqn:Eps; [done|].
  destruct (lw_stored L2 Hw _ _ (Hix d q ltac:(simpl; set_solver))) as (_ & _ & _ & S & HS & _). simpl in HS.
  exists (session_version_of S). unfold session_version. rewrite HS. split; [done|].
  unfold commit. pose proof (Forall2_length _ _ _ Hretry) as Hlen.
  rewrite <-Hlen, Hsc, Hre, Hpo, HS. simpl. by rewrite Nat.eqb_refl.
Qed.

(** After a commit at version v, no later commit at version v stores anything: it is rejected
    or is a replay that leaves the ledger as it was. *)
Theorem ledger_stale_version_rejected L sid v ds L1 r L2 ds' L3 r' :
  ledger_reachable L -> commit L sid v ds = Ok (L1, r) -> disposition r = Committed ->
  commits_to L1 L2 -> commit L2 sid v ds' = Ok (L3, r') ->
  disposition r' = Replayed /\ L3 = L2.
Proof.
  intros Hr Hc Hd Hto Hc'.
  assert (Hv1 : v < session_version_of (session_of L1 sid)).
  { pose proof (commit_inv _ _ _ _ _ _ Hc) as (_ & _ & _ & Hcm). destruct Hcm; [done|].
    unfold session_of. simpl. rewrite lookup_insert_eq. simpl. lia. }
  assert (Hmono : session_version_of (session_of L1 sid) <= session_version_of (session_of L2 sid)).
  { clear -Hto. induction Hto as [|L L1 L2 (sid' & v' & ds & r & Hc) _ IH]; [lia|].
    etrans; [|done]. apply commit_inv in Hc as (_ & _ & _ & Hcm). destruct Hcm as [|p next' _ Hv]; [lia|].
    unfold session_of in *. simpl. destruct (decide (sid' = sid)) as [->|Hn].
    - rewrite lookup_insert_eq. simpl. lia.
    - rewrite lookup_insert_ne by done. lia. }
  destruct (commit_inv _ _ _ _ _ _ Hc') as (_ & _ & _ & Hcm). destruct Hcm; [done|]. lia.
Qed.

(** Reading a range of a session returns exactly its facts in the range and of the asked
    kinds, in order, and never fails. *)
Theorem ledger_read_exact L sid S after through kinds :
  ledger_reachable L -> sessions L !! sid = Some S -> 0 <= after < through ->
  read_facts L sid after through kinds =
  Ok (List.filter (fun f => in_range after through f &&
        is_none_or (fun values => bool_decide (df_kind f ∈ values)) kinds) (facts S)).
Proof.
  intros Hr%ledger_reachable_wf HS Hrange. destruct (lw_sessions L Hr sid S HS) as [[Hp _ Hv _] _].
  unfold read_facts. rewrite (proj2 (Z.eqb_neq through 0)), (proj2 (Z.leb_gt through after)), HS by lia.
  simpl. rewrite Forall_forall in Hv.
  edestruct (read_fold kinds (List.filter (in_range after through) (facts S)) after []) as [last Hl].
  - intros f Hf. apply Hv. apply list_elem_of_In, List.filter_In in Hf as [Hf _]. by apply list_elem_of_In.
  - apply filter_sorted. by eapply positions_sorted.
  - intros f Hf. apply list_elem_of_In, List.filter_In in Hf as [_ Hf]. unfold in_range in Hf. by bool_hyps.
  - rewrite Hl. simpl. by rewrite filter_filter.
Qed.

(** Loading a turn returns every fact of the turn in the whole ledger, with the version and
    last position of its session. *)
Theorem ledger_turn_snapshot_complete L sid S f t :
  ledger_reachable L -> sessions L !! sid = Some S -> f ∈ facts S -> df_turn_id f = Some t ->
  load_turn L t = Ok (mkTurnSnapshot (turn_facts t S) (session_version_of S)
                        (Z.of_nat (length (facts S)))) /\
  forall sid' S' f', sessions L !! sid' = Some S' -> f' ∈ facts S' -> df_turn_id f' = Some t ->
    f' ∈ turn_facts t S.
Proof.
  intros Hr%ledger_reachable_wf HS Hf Ht.
  assert (Hin : forall S' f', f' ∈ turn_facts t S' <-> f' ∈ facts S' /\ df_turn_id f' = Some t).
  { intros S' f'. unfold turn_facts. by rewrite list_elem_of_In, List.filter_In, <-list_elem_of_In, bool_decide_eq_true. }
  assert (Hown : forall sid' S' f', sessions L !! sid' = Some S' -> f' ∈ facts S' ->
    df_turn_id f' = Some t -> S' = S).
  { intros sid' S' f' HS' Hf' Ht'. assert (sid' = sid) as -> by (by eapply (turn_owner L)). congruence. }
  split.
  - unfold load_turn. destruct (List.find _ _) as [S'|] eqn:E.
    + apply List.find_some in E as [HS' Hne]. apply list_elem_of_In, elem_of_values in HS' as [sid' HS'].
      destruct (turn_facts t S') as [|f' l] eqn:Et; [done|].
      pose proof (proj1 (Hin S' f') ltac:(rewrite Et; set_solver)) as [Hf' Ht'].
      assert (S' = S) as -> by eauto. rewrite <-Et. f_equal. f_equal.
      destruct (lw_sessions L Hr sid S HS) as [[Hp _ _ _] Hnil].
      destruct (last (facts S)) as [g|] eqn:El; [|by apply last_None in El].
      apply last_Some in El as [l' El]. rewrite El in *. rewrite fmap_app, length_app, positions_from_app in Hp.
      simpl in Hp. apply app_inj_2 in Hp as [_ Hp]; [|by rewrite length_positions_from].
      rewrite positions_from_S in Hp. injection Hp as Hp. rewrite length_app. simpl. lia.
    + exfalso. eapply List.find_none in E; [|apply list_elem_of_In, elem_of_values; by exists sid].
      simpl in E. bool_hyps. apply Nat.eqb_eq, nil_length_inv in E.
      pose proof (proj2 (Hin S f) (conj Hf Ht)). rewrite E in *. set_solver.
  - intros sid' S' f' HS' Hf' Ht'. assert (S' = S) as -> by eauto. by apply Hin.
Qed.
End theorems.
