(* ===== verification/ProjectionInvariant.v ===== *)
(** * Invariants of the session projection

    The lifecycle invariant every handler preserves: an active execution belongs
    to an open turn, a started invocation or a pending knowledge request to an
    active execution, a pending interaction to a turn that is not over. *)

From S2P Require Import Prelude Json LedgerTypes ProjectionTypes Projection.

(** Opens the outermost tests of a successful handler run, one after the other. *)
Ltac open_res H :=
  repeat match type of H with
  | Ok _ = Ok _ => injection H as H
  | Err _ = Ok _ => discriminate H
  | (match ?m with _ => _ end) = Ok _ => let E := fresh "E" in destruct m eqn:E
  end.

(** The same in every hypothesis, for runs nested in the tests of others. *)
Ltac open_all :=
  repeat match goal with E : (match _ with _ => _ end) = Ok _ |- _ => progress open_res E end.

(** Turns the facts of [open_res] into lookups and equalities. *)
Ltac clean_res :=
  bool_hyps;
  repeat match goal with
  | E : ok_or _ _ = Ok _ |- _ => apply ok_or_ok in E
  | E : required _ = Ok _ |- _ => apply ok_or_ok in E
  | E : is_some _ = false |- _ => apply is_some_false in E
  | E : any_value _ _ = false |- _ => rewrite any_value_false in E
  end.

Section invariant.
Context `{Externals}.
Abbreviation State := SessionProjection (only parsing).

Definition preserves (P : State -> Prop) (h : State -> FactDraft -> result Abort State) : Prop :=
  forall s f s', P s -> h s f = Ok s' -> P s'.

Lemma apply_preserves (P : State -> Prop) :
  (forall s, P s -> P (s <| opened := true |>)) ->
  Forall (fun kv => preserves P kv.2) handlers -> preserves P projection_apply.
Proof.
  intros Ho Hf s f s' Hs Ha. unfold projection_apply in Ha.
  destruct (lift _); [|done]. destruct (_ =? _)%string.
  - destruct (_ || _); [done|]. injection Ha as <-. exact (Ho s Hs).
  - destruct (_ || _); [done|]. destruct (assoc _ _) as [h|] eqn:Eh; [|by injection Ha as <-].
    apply assoc_elem in Eh. rewrite Forall_forall in Hf. by apply (Hf _ Eh s f s').
Qed.

(** States reached by applying facts, with commit boundaries anywhere. *)
Inductive projection_reachable : State -> Prop :=
  | proj_default : projection_reachable projection_default
  | proj_begin s : projection_reachable s -> projection_reachable (begin_commit s)
  | proj_apply s f s' :
      projection_reachable s -> projection_apply s f = Ok s' -> projection_reachable s'.

Lemma reachable_invariant (P : State -> Prop) s :
  P projection_default -> (forall s, P s -> P (begin_commit s)) -> preserves P projection_apply ->
  projection_reachable s -> P s.
Proof. intros H0 Hb Hp. induction 1; eauto. Qed.

(** ** The lifecycle invariant *)

Record core_inv (s : State) : Prop := {
  ci_execution : forall e t st, executions s !! e = Some (t, st) ->
    exists ts, turns s !! t = Some ts /\ (st = ExActive -> ts = TurnOpen);
  ci_model : forall m e st, models s !! m = Some (e, st) ->
    exists t es, executions s !! e = Some (t, es) /\ (inv_pending st = true -> es = ExActive);
  ci_tool : forall i e st, tools s !! i = Some (e, st) ->
    exists t es, executions s !! e = Some (t, es) /\ (inv_pending st = true -> es = ExActive);
  ci_interaction : forall i r, interactions s !! i = Some r -> ir_terminal r = false ->
    exists t es ts, executions s !! ir_execution r = Some (t, es) /\ turns s !! t = Some ts /\
      (es = ExActive \/ es = ExSuspended) /\ (ts = TurnOpen \/ ts = TurnSuspended);
  ci_knowledge : forall k r, knowledge s !! k = Some r -> kr_terminal r = false ->
    exists t, executions s !! kr_execution r = Some (t, ExActive);
  ci_suspended : forall t, turns s !! t = Some TurnSuspended -> is_Some (suspensions s !! t);
}.

Lemma active_execution s f u :
  require_active_execution s f = Ok u ->
  exists e t, execution_id f = Some e /\ turn_id f = Some t /\ executions s !! e = Some (t, ExActive).
Proof.
  unfold require_active_execution. intros H0. open_res H0. clean_res. subst. eauto.
Qed.

Lemma open_turn s t u : require_open_turn s t = Ok u -> turns s !! t = Some TurnOpen.
Proof. unfold require_open_turn. by case_bool_decide. Qed.

(** A turn changes state without touching executions or interactions. *)
Lemma core_turn s t ts susp :
  core_inv s ->
  (ts = TurnOpen \/ forall e o, executions s !! e = Some (t, o) -> o ≠ ExActive) ->
  (ts = TurnOpen \/ ts = TurnSuspended \/ has_pending_interaction_for_turn s t = false) ->
  (forall u, <[t := ts]> (turns s) !! u = Some TurnSuspended -> is_Some (susp !! u)) ->
  core_inv (s <| turns ::= <[t := ts]> |> <| suspensions := susp |>).
Proof.
  intros [He Hm Ht Hi Hk Hs] Hact Hpend Hsusp. constructor; simpl; auto.
  - intros e t' st Hl. destruct (He e t' st Hl) as (ts' & Hts & Hst).
    destruct (decide (t' = t)) as [->|Hn].
    + exists ts. rewrite lookup_insert_eq. split; [done|]. intros ->.
      destruct Hact as [|Hact]; [done|]. by destruct (Hact e ExActive Hl).
    + exists ts'. by rewrite lookup_insert_ne.
  - intros i r Hl Hr. destruct (Hi i r Hl Hr) as (t' & es & ts' & Hex & Hts & Hes & Hts').
    exists t', es. destruct (decide (t' = t)) as [->|Hn].
    + exists ts. rewrite lookup_insert_eq. split_and!; auto.
      destruct Hpend as [?|[?|Hp]]; auto. exfalso. unfold has_pending_interaction_for_turn in Hp.
      rewrite any_value_false in Hp. specialize (Hp i r Hl). rewrite Hr, Hex in Hp. simpl in Hp.
      by rewrite String.eqb_refl in Hp.
    + exists ts'. by rewrite lookup_insert_ne.
Qed.

(** Opens a handler that leaves the fields of an invariant as they are. *)
Ltac unfold_handlers := cbv beta delta [preserves close_session admit_turn_input admit_turn_steered
  request_cancel start_iteration plan_effect_batch decide_safety bind_sandbox preflight_sandbox
  commit_artifact reject_tool_preparation create_schedule claim_schedule fire_schedule
  skip_schedule cancel_schedule fail_schedule exhaust_schedule request_delegation
  authorize_delegation deny_delegation start_delegation_child terminal_delegation_child
  observe_delegation].
Lemma core_frame s s' :
  turns s' = turns s -> executions s' = executions s -> models s' = models s -> tools s' = tools s ->
  interactions s' = interactions s -> knowledge s' = knowledge s -> suspensions s' = suspensions s ->
  core_inv s -> core_inv s'.
Proof. intros E1 E2 E3 E4 E5 E6 E7 []. constructor; rewrite ?E1, ?E2, ?E3, ?E4, ?E5, ?E6, ?E7; done. Qed.

Ltac framed :=
  let Hi := fresh in let Ha := fresh in
  unfold_handlers; intros ? ? ? Hi Ha; cbv beta zeta in Ha; open_res Ha; subst;
  first [exact Hi | eapply core_frame; [..|exact Hi]; reflexivity].

(** Closes a goal [core_inv s'] whose [s'] differs from [s] outside the core. *)
Ltac core_as s := apply (core_frame s); [reflexivity..|].

(** ** Turns *)

Lemma transition_turn_ok s t next s' :
  transition_turn s t next = Ok s' ->
  s' = s <| turns ::= <[t := next]> |> /\
  (forall e o, executions s !! e = Some (t, o) -> o ≠ ExActive) /\
  (next = TurnSuspended \/ has_pending_interaction_for_turn s t = false) /\ next ≠ TurnOpen /\
  (turns s !! t = Some TurnOpen \/ turns s !! t = Some TurnSuspended).
Proof.
  unfold transition_turn. intros Ha. destruct (turns s !! t) as [cur|] eqn:Et; [|done]. simpl in Ha.
  destruct (negb _) eqn:Ev in Ha; [done|]. destruct (any_value _ _) eqn:Ea in Ha; [done|].
  destruct (_ && _) eqn:Ep in Ha; [done|]. injection Ha as <-. bool_hyps.
  rewrite any_value_false in Ea. split_and!; [done| | | |].
  - intros e o Ho ->. specialize (Ea _ _ Ho). simpl in Ea.
    by rewrite String.eqb_refl in Ea.
  - apply andb_false_iff in Ep as [Ep|Ep]; [left|by right]. by bool_hyps.
  - by destruct next.
  - destruct next, cur; try done; bool_hyps; eauto; discriminate.
Qed.

Lemma core_start_turn : preserves core_inv start_turn.
Proof.
  intros s f s' Hi Ha. unfold start_turn in Ha. cbv zeta in Ha.
  destruct (required _) as [t|]; [|done]. destruct (fact_payload f) as [m|]; [|done].
  destruct (text m "kind") as [k|]; [|done]. destruct (negb _) in Ha; [done|].
  assert (Hc : core_inv (s <| turns ::= <[t := TurnOpen]> |> <| suspensions := delete t (suspensions s) |>)).
  { apply core_turn; auto. intros u Hu. apply lookup_insert_Some in Hu as [[_ ?]|[Hn Hu]]; [done|].
    rewrite lookup_delete_ne by done. by apply (ci_suspended s Hi). }
  destruct (k =? "start")%string; open_res Ha; try (open_res E); subst;
    (eapply core_frame; [..|exact Hc]; reflexivity).
Qed.

Lemma core_transition_turn s t next s' susp :
  core_inv s -> transition_turn s t next = Ok s' ->
  (next = TurnSuspended -> is_Some (susp !! t)) ->
  (forall u, u ≠ t -> suspensions s !! u = susp !! u) ->
  core_inv (s' <| suspensions := susp |>).
Proof.
  intros Hi (-> & Hact & Hp & Hno & _)%transition_turn_ok Hs Hsusp.
  apply core_turn; [done|by right|naive_solver|].
  intros u [[<- ->]|[Hn Hu]]%lookup_insert_Some; [by apply Hs|].
  rewrite <-Hsusp by done. by apply (ci_suspended s Hi).
Qed.

Lemma core_suspend_turn : preserves core_inv suspend_turn.
Proof.
  intros s f s' Hi Ha. unfold suspend_turn in Ha. cbv zeta in Ha.
  destruct (required _) as [t|]; [|done]. destruct (fact_payload f) as [m|]; [|done].
  destruct (text m "execution_id") as [e|]; [|done]. destruct (ledger_identity e) as [e'|]; [|done].
  destruct (negb _) in Ha; [done|]. destruct (transition_turn s t TurnSuspended) as [s1|] eqn:Et; [|done].
  destruct (text m "suspension_id") as [sid|]; [|done]. destruct (text m "reason") as [r|]; [|done].
  assert (Hs1 : suspensions s1 = suspensions s) by by apply transition_turn_ok in Et as [-> _].
  assert (Hc : core_inv (s1 <| suspensions := <[t := sid]> (suspensions s) |>)).
  { eapply core_transition_turn; [done..|intros; rewrite lookup_insert_eq; eauto|].
    intros u Hu. by rewrite lookup_insert_ne. }
  injection Ha as <-. destruct (_ =? _)%string;
    (eapply core_frame; [..|exact Hc]; simpl; congruence || reflexivity).
Qed.

Lemma core_terminal_turn next : next ≠ TurnSuspended -> preserves core_inv (fun s f => terminal_turn s f next).
Proof.
  intros Hn s f s' Hi Ha. unfold terminal_turn in Ha. cbv zeta in Ha.
  destruct (required _) as [t|]; [|done]. destruct (fact_payload f) as [m|]; [|done].
  destruct (text m "execution_id") as [e|]; [|done]. destruct (ledger_identity e) as [e'|]; [|done].
  destruct (match next with TurnCompleted => _ | _ => _ end) as [ex|]; [|done].
  destruct (_ && _) in Ha; [done|]. destruct (transition_turn s t next) as [s1|] eqn:Et; [|done].
  assert (Hs1 : suspensions s1 = suspensions s) by by apply transition_turn_ok in Et as [-> _].
  assert (Hc : core_inv (s1 <| suspensions := suspensions s |>)).
  { by eapply core_transition_turn. }
  injection Ha as <-. eapply core_frame; [..|exact Hc]; simpl; congruence || reflexivity.
Qed.

(** ** Executions *)

Lemma core_start_execution : preserves core_inv start_execution.
Proof.
  intros s f s' Hi Ha. unfold start_execution in Ha. open_res Ha. clean_res.
  match goal with E : require_open_turn _ _ = Ok _ |- _ => apply open_turn in E end.
  destruct Hi as [He Hm Ht Hin Hk Hs]. subst s'. constructor; simpl; auto.
  - intros e t st [[<- [= <- <-]]|[Hn Hl]]%lookup_insert_Some; [by exists TurnOpen|by eapply He].
  - intros m e st Hl. destruct (Hm m e st Hl) as (t & es & Hex & Hp). exists t, es.
    split; [|done]. rewrite lookup_insert_ne; [done|]. congruence.
  - intros m e st Hl. destruct (Ht m e st Hl) as (t & es & Hex & Hp). exists t, es.
    split; [|done]. rewrite lookup_insert_ne; [done|]. congruence.
  - intros i r Hl Hr. destruct (Hin i r Hl Hr) as (t & es & ts & Hex & Hrest). exists t, es, ts.
    split; [|done]. rewrite lookup_insert_ne; [done|]. congruence.
  - intros k r Hl Hr. destruct (Hk k r Hl Hr) as (t & Hex). exists t.
    rewrite lookup_insert_ne; [done|]. congruence.
Qed.

Lemma core_transition_execution next : next ≠ ExActive ->
  preserves core_inv (fun s f => transition_execution s f next).
Proof.
  intros Hne s f s' Hi Ha. unfold transition_execution in Ha. open_res Ha. clean_res. subst.
  unfold has_recovery_pending_invocation, has_pending_knowledge in *. clean_res.
  destruct Hi as [He Hm Ht Hin Hk Hs]. constructor; simpl; auto.
  - intros e t st [[<- [= <- <-]]|[Hn Hl]]%lookup_insert_Some; [|by eapply He].
    edestruct He as (ts & Hts & _); [done|]. exists ts. by split.
  - intros m e st Hl. destruct (Hm m e st Hl) as (t & es & Hex & Hp).
    destruct (decide (e = a)) as [->|Hn]; [|exists t, es; by rewrite lookup_insert_ne].
    exists a0, next. rewrite lookup_insert_eq. split; [done|]. intros Hpe. exfalso.
    match goal with H : forall k x, models s !! k = Some x -> _ |- _ => specialize (H m _ Hl); simpl in H end.
    by rewrite String.eqb_refl, Hpe in *.
  - intros m e st Hl. destruct (Ht m e st Hl) as (t & es & Hex & Hp).
    destruct (decide (e = a)) as [->|Hn]; [|exists t, es; by rewrite lookup_insert_ne].
    exists a0, next. rewrite lookup_insert_eq. split; [done|]. intros Hpe. exfalso.
    match goal with H : forall k x, tools s !! k = Some x -> _ |- _ => specialize (H m _ Hl); simpl in H end.
    by rewrite String.eqb_refl, Hpe in *.
  - intros i r Hl Hr. destruct (Hin i r Hl Hr) as (t & es & ts & Hex & Hts & Hes & Hor).
    destruct (decide (ir_execution r = a)) as [Heq|Hn]; [|exists t, es, ts; by rewrite lookup_insert_ne].
    rewrite Heq in *. rewrite E1 in Hex. injection Hex as <- <-. exists a0, next, ts.
    rewrite lookup_insert_eq. split_and!; auto.
    match goal with H : _ && has_pending_interaction s a = false |- _ => apply andb_false_iff in H as [Hb|Hb] end.
    + bool_hyps. auto.
    + unfold has_pending_interaction in Hb. rewrite any_value_false in Hb. specialize (Hb i r Hl).
      by rewrite Hr, Heq, String.eqb_refl in Hb.
  - intros k r Hl Hr. destruct (Hk k r Hl Hr) as (t & Hex). exists t.
    rewrite lookup_insert_ne; [done|]. intros Heq.
    match goal with H : forall k x, knowledge s !! k = Some x -> _ |- _ => specialize (H k r Hl); simpl in H end.
    by rewrite Hr, <-Heq, String.eqb_refl in *.
Qed.

(** ** Invocations *)

Lemma core_model_insert s m e st t es :
  core_inv s -> executions s !! e = Some (t, es) -> (inv_pending st = true -> es = ExActive) ->
  core_inv (s <| models ::= <[m := (e, st)]> |>).
Proof.
  intros [He Hm Ht Hin Hk Hs] Hex Hp. constructor; simpl; auto.
  intros m' e' st' [[<- [= <- <-]]|[Hn Hl]]%lookup_insert_Some; eauto.
Qed.

Lemma core_tool_insert s m e st t es :
  core_inv s -> executions s !! e = Some (t, es) -> (inv_pending st = true -> es = ExActive) ->
  core_inv (s <| tools ::= <[m := (e, st)]> |>).
Proof.
  intros [He Hm Ht Hin Hk Hs] Hex Hp. constructor; simpl; auto.
  intros m' e' st' [[<- [= <- <-]]|[Hn Hl]]%lookup_insert_Some; eauto.
Qed.

Ltac active E := apply active_execution in E as (? & ? & ? & ? & ?).

Lemma core_prepare_model : preserves core_inv prepare_model.
Proof.
  intros s f s' Hi Ha. unfold prepare_model in Ha. open_res Ha. clean_res. active E. simplify_eq.
  match goal with Em : model_request_id f = Some ?m, Ee : execution_id f = Some ?e |- _ =>
    assert (Hc : core_inv (s <| models ::= <[m := (e, InvPrepared)]> |>)) by (by eapply core_model_insert) end.
  eapply core_frame; [..|exact Hc]; reflexivity.
Qed.

Lemma core_transition_model next : preserves core_inv (fun s f => transition_model s f next).
Proof.
  intros s f s' Hi Ha. unfold transition_model in Ha. cbv zeta in Ha. open_res Ha. clean_res.
  active E. simplify_eq. by eapply core_model_insert.
Qed.

Lemma core_prepare_tool : preserves core_inv prepare_tool.
Proof.
  intros s f s' Hi Ha. unfold prepare_tool in Ha. cbv zeta in Ha.
  destruct (require_active_execution s f) eqn:E; [|done]. active E.
  destruct (required _) as [tool|] eqn:Et in Ha; [|done]. destruct (required _) as [e|] eqn:Ee in Ha; [|done].
  clean_res. simplify_eq.
  match goal with Em : tool_invocation_id f = Some ?m, Ee : execution_id f = Some ?e |- _ =>
    assert (Hc : core_inv (s <| tools ::= <[m := (e, InvPrepared)]> |>)) by (by eapply core_tool_insert) end.
  open_res Ha; subst; (eapply core_frame; [..|exact Hc]; reflexivity).
Qed.

(** What an effect binding writes besides the tool state. *)
Lemma effect_binding_frame s tool cur next m s' :
  validate_effect_binding s tool cur next m = Ok s' ->
  s' = s <| tool_grants := tool_grants s' |> <| tool_executors := tool_executors s' |>
         <| tool_receipts := tool_receipts s' |>.
Proof. unfold validate_effect_binding. intros Ha. destruct next; open_res Ha; rewrite <-Ha; by destruct s. Qed.

Lemma transition_tool_ok s f next s' :
  transition_tool s f next = Ok s' ->
  exists tool e t cur s1 m,
    tool_invocation_id f = Some tool /\ execution_id f = Some e /\ turn_id f = Some t /\
    executions s !! e = Some (t, ExActive) /\ tools s !! tool = Some (e, cur) /\
    fact_payload f = Ok m /\ tool_edge cur next = true /\
    (is_v s tool 3 = true -> tool_edge_v3 s tool (schema_version f) cur next = true) /\
    validate_effect_binding s tool cur next m = Ok s1 /\
    s' = s1 <| tools := <[tool := (e, next)]> (tools s) |>
            <| tools_completed_in_commit := tools_completed_in_commit s' |>
            <| effect_batches := effect_batches s' |>.
Proof.
  unfold transition_tool. intros Ha. cbv zeta in Ha.
  destruct (require_active_execution s f) eqn:E; [|done]. active E.
  destruct (required (tool_invocation_id f)) as [tool|] eqn:Et; [|done].
  destruct (required (execution_id f)) as [e|] eqn:Ee; [|done].
  destruct (fact_payload f) as [m|] eqn:Em; [|done]. destruct (text m _); [|done].
  destruct (differs _ _ _); [done|]. destruct (ok_or _ _) as [[owner cur]|] eqn:Eo; [|done].
  destruct (negb (owner =? e)%string) eqn:Eow; [done|].
  destruct (negb (_ && _)) eqn:Ev; [done|]. destruct (_ && negb (batch_admits s tool)); [done|].
  destruct (validate_effect_binding _ _ _ _ _) as [s1|] eqn:Eb; [|done]. clean_res. simplify_eq.
  pose proof (effect_binding_frame _ _ _ _ _ _ Eb) as Hs1.
  assert (Htools : tools s1 = tools s) by by rewrite Hs1.
  eexists tool, _, _, cur, s1, m. split_and!; eauto.
  - intros Hv3. by rewrite Hv3 in *.
  - rewrite <-Htools. unfold advance_batch.
    repeat case_match; simpl; by destruct s1.
Qed.

Lemma core_transition_tool next : preserves core_inv (fun s f => transition_tool s f next).
Proof.
  intros s f s' Hi (tool & e & t & cur & s1 & m & Ht & He & Htu & Hex & Htl & _ & _ & _ & Hb & Heq)%transition_tool_ok.
  apply effect_binding_frame in Hb. rewrite Heq. clear Heq. rewrite Hb. clear Hb.
  eapply core_frame; [..|by eapply (core_tool_insert s tool e next)]; reflexivity.
Qed.

Lemma core_observe_tool : preserves core_inv observe_tool.
Proof.
  intros s f s' Hi Ha. unfold observe_tool in Ha. open_res Ha. clean_res. subst.
  destruct (ci_tool s Hi _ _ _ E2) as (t & es & Hex & _). by eapply core_tool_insert.
Qed.

Lemma core_reconcile_tool : preserves core_inv reconcile_tool.
Proof.
  intros s f s' Hi Ha. unfold reconcile_tool in Ha. open_res Ha. clean_res. subst.
  match goal with Ht : tools s !! ?i = Some (?e, InvUncertain) |- _ =>
    destruct (ci_tool s Hi _ _ _ Ht) as (t & es & Hex & _);
    assert (Hc : core_inv (s <| tools ::= <[i := (e, InvReconciled)]> |>)) by (by eapply core_tool_insert) end.
  eapply core_frame; [..|exact Hc]; reflexivity.
Qed.

(** ** Interactions and knowledge *)

Lemma core_request_interaction : preserves core_inv request_interaction.
Proof.
  intros s f s' Hi Ha. unfold request_interaction in Ha.
  destruct (require_active_execution s f) eqn:E; [|done]. active E.
  destruct (required _) as [tool|] eqn:Et in Ha; [|done]. destruct (required _) as [e|] eqn:Ee in Ha; [|done].
  open_res Ha. clean_res. simplify_eq. destruct Hi as [He Hm Ht Hin Hk Hs]. constructor; simpl; auto.
  intros i r [[<- <-]|[Hn Hl]]%lookup_insert_Some Hr; [|by eapply Hin]. simpl.
  match goal with Hx : executions s !! _ = Some (_, ExActive) |- _ =>
    destruct (He _ _ _ Hx) as (ts & Hts & Hop); rewrite Hop in Hts by done; eexists _, _, _ end.
  split_and!; eauto.
Qed.

Lemma core_finish_interaction : preserves core_inv finish_interaction.
Proof.
  intros s f s' Hi Ha. unfold finish_interaction in Ha. open_res Ha. clean_res. subst.
  destruct Hi as [He Hm Ht Hin Hk Hs]. constructor; simpl; auto.
  intros i r [[<- <-]|[Hn Hl]]%lookup_insert_Some Hr; [done|by eapply Hin].
Qed.

Lemma core_knowledge_insert s k r t :
  core_inv s -> (kr_terminal r = false -> executions s !! kr_execution r = Some (t, ExActive)) ->
  core_inv (s <| knowledge ::= <[k := r]> |>).
Proof.
  intros [He Hm Ht Hin Hk Hs] Hex. constructor; simpl; auto.
  intros k' r' [[<- <-]|[Hn Hl]]%lookup_insert_Some Hr; [eauto|by eapply Hk].
Qed.

Lemma core_request_knowledge : preserves core_inv request_knowledge.
Proof.
  intros s f s' Hi Ha. unfold request_knowledge in Ha. open_res Ha. clean_res. active E. simplify_eq.
  by eapply core_knowledge_insert.
Qed.

Lemma core_dispatch_knowledge : preserves core_inv dispatch_knowledge.
Proof.
  intros s f s' Hi Ha. unfold dispatch_knowledge in Ha. open_res Ha. clean_res. active E. simplify_eq.
  eapply core_knowledge_insert; [done|]. simpl. intros _. simplify_eq. eassumption.
Qed.

Lemma core_terminal_knowledge : preserves core_inv terminal_knowledge.
Proof.
  intros s f s' Hi Ha. unfold terminal_knowledge in Ha. cbv zeta in Ha. open_res Ha. clean_res. subst.
  by apply (core_knowledge_insert _ _ _ "").
Qed.

Lemma core_handlers : Forall (fun kv => preserves core_inv kv.2) handlers.
Proof.
  unfold handlers. repeat apply Forall_cons_2; [..|apply Forall_nil_2]; simpl.
  all: try solve [framed].
  all: first [apply core_start_turn | apply core_suspend_turn | apply core_terminal_turn; done
    | apply core_start_execution | apply core_transition_execution; done | apply core_prepare_model
    | apply core_transition_model | apply core_prepare_tool | apply core_transition_tool
    | apply core_reconcile_tool | apply core_observe_tool | apply core_request_interaction
    | apply core_finish_interaction | apply core_request_knowledge | apply core_dispatch_knowledge
    | apply core_terminal_knowledge].
Qed.

Lemma reachable_core s : projection_reachable s -> core_inv s.
Proof.
  apply reachable_invariant.
  - constructor; simpl; intros *; by rewrite lookup_empty.
  - intros s0 Hi. eapply core_frame; [..|exact Hi]; reflexivity.
  - apply apply_preserves; [|apply core_handlers].
    intros s0 Hi. eapply core_frame; [..|exact Hi]; reflexivity.
Qed.
End invariant.
