(* ===== verification/ProjectionSteps.v ===== *)
(** * The lifecycles of a session as abstract machines

    Turns, executions, model requests and effects each move along the edges of a
    small machine; one fact moves at most one key of each map, and never changes
    which execution owns an invocation or which turn owns an execution. *)

From S2P Require Import Prelude Json LedgerTypes ProjectionTypes Projection ProjectionInvariant.

Section steps.
Context `{Externals}.
Abbreviation State := SessionProjection (only parsing).

(** ** The abstract machines *)

Definition turn_edge (old new : option TurnState) : bool :=
  match old, new with
  | None, Some TurnOpen
  | Some TurnOpen, Some TurnSuspended
  | Some TurnOpen, Some TurnCompleted
  | Some TurnOpen, Some TurnStopped
  | Some TurnOpen, Some TurnFailed
  | Some TurnSuspended, Some TurnOpen
  | Some TurnSuspended, Some TurnStopped
  | Some TurnSuspended, Some TurnFailed => true
  | _, _ => false
  end.

Definition execution_edge (old new : option ExecutionState) : bool :=
  match old, new with
  | None, Some ExActive => true
  | Some ExActive, Some ExActive => false
  | Some ExActive, Some _ => true
  | _, _ => false
  end.

Definition model_edge (old new : option InvocationState) : bool :=
  match old, new with
  | None, Some InvPrepared
  | Some InvPrepared, Some InvStarted => true
  | Some InvStarted, Some (InvCompleted | InvRejected | InvInterrupted | InvUnavailable | InvUncertain) => true
  | _, _ => false
  end.

Definition effect_edge (old new : option InvocationState) : bool :=
  match old, new with
  | None, Some InvPrepared => true
  | Some InvPrepared, Some (InvAuthorized | InvStarted | InvDenied) => true
  | Some InvAuthorized, Some (InvStarted | InvDenied | InvFailed) => true
  | Some InvStarted, Some (InvReceipt | InvFailed | InvUncertain) => true
  | Some InvReceipt, Some (InvCompleted | InvFailed) => true
  | Some InvUncertain, Some InvReconciled => true
  | Some (InvCompleted | InvFailed | InvDenied | InvReconciled), Some InvObserved => true
  | _, _ => false
  end.

(** A map of owned states moves along an edge relation: at most one key changes. *)
Definition moves {A} (edge : option A -> option A -> bool) (m m' : gmap string A) : Prop :=
  m' = m \/ exists k a, m' = <[k := a]> m /\ edge (m !! k) (Some a) = true.

Definition owned_edge {A} (edge : option A -> option A -> bool) (old new : option (string * A)) : bool :=
  match old, new with
  | Some (o, a), Some (o', a') => (o =? o')%string && edge (Some a) (Some a')
  | None, Some (_, a') => edge None (Some a')
  | _, _ => false
  end.

Record lifecycle_step (s s' : State) : Prop := {
  ls_turns : moves turn_edge (turns s) (turns s');
  ls_executions : moves (owned_edge execution_edge) (executions s) (executions s');
  ls_models : moves (owned_edge model_edge) (models s) (models s');
  ls_tools : moves (owned_edge effect_edge) (tools s) (tools s');
}.
Definition life_view (s : State) := (turns s, executions s, models s, tools s).
Definition stepwise (h : State -> FactDraft -> result Abort State) : Prop :=
  forall s f s', h s f = Ok s' -> lifecycle_step s s'.

Lemma step_frame s s' : life_view s' = life_view s -> lifecycle_step s s'.
Proof. intros [= E1 E2 E3 E4]. constructor; left; congruence. Qed.

Ltac step_framed :=
  let s := fresh in let f := fresh in let s' := fresh in let Ha := fresh in
  cbv beta delta [stepwise close_session admit_turn_input admit_turn_steered request_cancel
    start_iteration plan_effect_batch decide_safety bind_sandbox preflight_sandbox
    commit_artifact reject_tool_preparation request_interaction finish_interaction
    request_knowledge dispatch_knowledge terminal_knowledge
    create_schedule claim_schedule fire_schedule
    skip_schedule cancel_schedule fail_schedule exhaust_schedule request_delegation
    authorize_delegation deny_delegation start_delegation_child terminal_delegation_child
    observe_delegation]; intros s f s' Ha; cbv beta zeta in Ha; open_res Ha; open_all; subst;
  by apply step_frame.

Lemma turn_moves s s' t ts :
  turn_edge (turns s !! t) (Some ts) = true -> turns s' = <[t := ts]> (turns s) ->
  executions s' = executions s -> models s' = models s -> tools s' = tools s -> lifecycle_step s s'.
Proof. intros He E1 E2 E3 E4. constructor; [right|left..]; eauto. Qed.

Lemma step_start_turn : stepwise start_turn.
Proof.
  intros s f s' Ha. unfold start_turn in Ha. cbv zeta in Ha.
  destruct (required _) as [t|]; [|done]. destruct (fact_payload f) as [m|]; [|done].
  destruct (text m "kind") as [k|]; [|done]. destruct (negb _) eqn:Ev in Ha; [done|].
  apply (turn_moves s s' t TurnOpen); [by destruct (turns s !! t) as [[]|]|..];
    open_res Ha; open_all; by subst.
Qed.

Lemma transition_turn_edge s t next s' :
  transition_turn s t next = Ok s' -> turn_edge (turns s !! t) (Some next) = true.
Proof.
  unfold transition_turn. intros Ha. destruct (turns s !! t) as [cur|]; [|done]. simpl in Ha.
  destruct (negb _) eqn:Ev in Ha; [done|]. by destruct cur, next.
Qed.

Lemma step_suspend_turn : stepwise suspend_turn.
Proof.
  intros s f s' Ha. unfold suspend_turn in Ha. cbv zeta in Ha. open_res Ha.
  match goal with E : transition_turn s ?t ?n = Ok ?s1 |- _ =>
    pose proof (transition_turn_edge _ _ _ _ E); apply transition_turn_ok in E as [-> _];
    apply (turn_moves s s' t n); subst s'; repeat case_match; done end.
Qed.

Lemma step_terminal_turn next : stepwise (fun s f => terminal_turn s f next).
Proof.
  intros s f s' Ha. unfold terminal_turn in Ha. cbv zeta in Ha. open_res Ha;
  match goal with E : transition_turn s ?t ?n = Ok ?s1 |- _ =>
    pose proof (transition_turn_edge _ _ _ _ E); apply transition_turn_ok in E as [-> _];
    apply (turn_moves s s' t n); subst s'; done end.
Qed.

Lemma step_start_execution : stepwise start_execution.
Proof.
  intros s f s' Ha. unfold start_execution in Ha. open_res Ha. clean_res. subst s'.
  constructor; [left; done|right|left; done..]. eexists _, _. split; [done|]. simpl.
  match goal with E : executions s !! _ = None |- _ => by rewrite E end.
Qed.

Lemma step_transition_execution next : next ≠ ExActive -> stepwise (fun s f => transition_execution s f next).
Proof.
  intros Hn s f s' Ha. unfold transition_execution in Ha. open_res Ha. clean_res. subst s'.
  constructor; [left; done|right|left; done..]. eexists _, _. split; [done|].
  match goal with E : executions s !! _ = Some _ |- _ => rewrite E end. simpl.
  subst. rewrite String.eqb_refl. by destruct next.
Qed.

Lemma step_prepare_model : stepwise prepare_model.
Proof.
  intros s f s' Ha. unfold prepare_model in Ha. open_res Ha. clean_res. subst s'.
  constructor; [left; done..|right|left; done]. eexists _, _. split; [done|].
  match goal with E : models s !! _ = None |- _ => by rewrite E end.
Qed.

Lemma step_transition_model next :
  next ∈ [InvStarted; InvCompleted; InvRejected; InvInterrupted; InvUnavailable; InvUncertain] ->
  stepwise (fun s f => transition_model s f next).
Proof.
  intros Hin s f s' Ha. unfold transition_model in Ha. cbv zeta in Ha. open_res Ha. clean_res. subst s'.
  constructor; [left; done..|right|left; done]. eexists _, _. split; [done|].
  match goal with E : models s !! _ = Some _ |- _ => rewrite E end. simpl.
  rewrite String.eqb_refl. simpl. subst.
  match goal with E : _ || _ = true |- _ => apply orb_true_iff in E as [E|E] end; bool_hyps; subst; [done|].
  repeat (apply elem_of_cons in Hin as [->|Hin]; try done). by apply not_elem_of_nil in Hin.
Qed.

Lemma step_prepare_tool : stepwise prepare_tool.
Proof.
  intros s f s' Ha. unfold prepare_tool in Ha. cbv zeta in Ha.
  destruct (require_active_execution s f); [|done].
  destruct (required _) as [tool|] in Ha; [|done]. destruct (required _) as [e|] in Ha; [|done].
  destruct (is_some _) eqn:Et in Ha; [done|]. apply is_some_false in Et.
  assert (Hl : life_view s' = life_view (s <| tools ::= <[tool := (e, InvPrepared)]> |>)) by (open_res Ha; by subst s').
  injection Hl as E1 E2 E3 E4. constructor; [by left..|right]. exists tool, (e, InvPrepared).
  split; [done|]. by rewrite Et.
Qed.

Lemma step_transition_tool next : stepwise (fun s f => transition_tool s f next).
Proof.
  intros s f s' (tool & e & t & cur & s1 & m & _ & _ & _ & _ & Htl & _ & Hedge & _ & Hb & Heq)%transition_tool_ok.
  assert (Hv : life_view s' = life_view (s <| tools ::= <[tool := (e, next)]> |>)).
  { pose proof (effect_binding_frame _ _ _ _ _ _ Hb) as Hs1. rewrite Heq. unfold life_view. simpl.
    rewrite Hs1. reflexivity. }
  injection Hv as E1 E2 E3 E4. constructor; [by left..|right]. exists tool, (e, next). split; [done|].
  rewrite Htl. simpl. rewrite String.eqb_refl. by destruct cur, next.
Qed.

Lemma step_observe_tool : stepwise observe_tool.
Proof.
  intros s f s' Ha. unfold observe_tool in Ha. open_res Ha. clean_res. subst s'.
  constructor; [by left..|right]. eexists _, _. split; [done|].
  match goal with E : tools s !! _ = Some _ |- _ => rewrite E end. simpl. rewrite String.eqb_refl.
  match goal with E : match ?x with _ => _ end = true |- _ => by destruct x end.
Qed.

Lemma step_reconcile_tool : stepwise reconcile_tool.
Proof.
  intros s f s' Ha. unfold reconcile_tool in Ha. open_res Ha. clean_res. subst s'.
  constructor; [by left..|right]. eexists _, _. split; [done|].
  match goal with E : tools s !! _ = Some _ |- _ => rewrite E end. simpl. by rewrite String.eqb_refl.
Qed.

Lemma step_handlers : Forall (fun kv => stepwise kv.2) handlers.
Proof.
  unfold handlers. repeat apply Forall_cons_2; [..|apply Forall_nil_2]; simpl.
  all: first [apply step_start_turn | apply step_suspend_turn | apply step_terminal_turn
    | apply step_start_execution | apply step_transition_execution; done | apply step_prepare_model
    | apply step_transition_model; set_solver | apply step_prepare_tool | apply step_transition_tool
    | apply step_reconcile_tool | apply step_observe_tool | idtac].
  all: try solve [step_framed].
Qed.

Lemma apply_steps s f s' : projection_apply s f = Ok s' -> lifecycle_step s s'.
Proof.
  unfold projection_apply. intros Ha. destruct (lift _); [|done]. destruct (_ =? _)%string.
  - destruct (_ || _); [done|]. injection Ha as <-. by apply step_frame.
  - destruct (_ || _); [done|]. destruct (assoc _ _) as [h|] eqn:Eh.
    + apply assoc_elem in Eh. pose proof step_handlers as Hf. rewrite Forall_forall in Hf. by apply (Hf _ Eh s f s').
    + injection Ha as <-. by apply step_frame.
Qed.

(** A key whose state has no way out keeps it. *)
Lemma moves_final {A} (edge : option A -> option A -> bool) m m' k a :
  moves edge m m' -> m !! k = Some a -> (forall b, edge (Some a) (Some b) = false) -> m' !! k = Some a.
Proof.
  intros [->|(k' & b & -> & He)] Hk Hf; [done|]. destruct (decide (k' = k)) as [->|Hn].
  - rewrite Hk, Hf in He. done.
  - by rewrite lookup_insert_ne.
Qed.

Lemma moves_owner {A} (edge : option A -> option A -> bool) m m' k o a :
  moves (owned_edge edge) m m' -> m !! k = Some (o, a) -> exists a', m' !! k = Some (o, a').
Proof.
  intros [->|(k' & [o' b] & -> & He)] Hk; [eauto|]. destruct (decide (k' = k)) as [->|Hn].
  - rewrite Hk in He. simpl in He. bool_hyps. subst. rewrite lookup_insert_eq. eauto.
  - rewrite lookup_insert_ne by done. eauto.
Qed.

(** ** Closing *)

(** What [session.closed] demands, and every later state of the session keeps. *)
Definition settled (s : State) : Prop :=
  (forall t st, turns s !! t = Some st -> st ∉ [TurnOpen; TurnSuspended]) /\
  (forall e t st, executions s !! e = Some (t, st) -> st ≠ ExActive) /\
  (forall m e st, models s !! m = Some (e, st) -> inv_pending st = false) /\
  (forall i e st, tools s !! i = Some (e, st) -> inv_pending st = false) /\
  (forall i r, schedules s !! i = Some r -> sr_state r ≠ SchedActive) /\
  (forall i r, delegations s !! i = Some r -> dr_state r ∈ [DelDenied; DelObserved]).

Lemma close_settles s s' : close_session s = Ok s' -> settled s'.
Proof.
  unfold close_session, has_recovery_pending_invocation. cbv zeta. intros Ha. open_res Ha. clean_res. subst s'.
  unfold settled. simpl. split_and!.
  - intros t st Ht Hin. match goal with E : forall k a, turns s !! k = Some a -> _ |- _ => specialize (E _ _ Ht) end.
    destruct st; set_solver.
  - intros e t st He ->. match goal with E : forall k a, executions s !! k = Some a -> _ |- _ => by specialize (E _ _ He) end.
  - intros m e st He. match goal with E : forall k a, models s !! k = Some a -> _ |- _ => by specialize (E _ _ He) end.
  - intros m e st He. match goal with E : forall k a, tools s !! k = Some a -> _ |- _ => by specialize (E _ _ He) end.
  - intros i r Hi Hst. match goal with E : forall k a, schedules s !! k = Some a -> _ |- _ => specialize (E _ _ Hi) end.
    by rewrite Hst in *.
  - intros i r Hi. match goal with E : forall k a, delegations s !! k = Some a -> _ |- _ => specialize (E _ _ Hi) end.
    simpl in *. bool_hyps. destruct (dr_state r); set_solver.
Qed.

(** Only [session.closed] writes the [closed] flag. *)
Definition keeps_closed (h : State -> FactDraft -> result Abort State) : Prop :=
  forall s f s', h s f = Ok s' -> closed s' = closed s.

Lemma keeps_closed_tool next : keeps_closed (fun s f => transition_tool s f next).
Proof.
  intros s f s' (tool & e & t & cur & s1 & m & _ & _ & _ & _ & _ & _ & _ & _ & Hb & Heq)%transition_tool_ok.
  rewrite Heq. simpl. by rewrite (effect_binding_frame _ _ _ _ _ _ Hb).
Qed.

Ltac closed_framed :=
  let s := fresh in let f := fresh in let s' := fresh in let Ha := fresh in
  cbv beta delta [keeps_closed admit_turn_input admit_turn_steered request_cancel
    start_turn suspend_turn terminal_turn transition_turn
    start_execution start_iteration transition_execution plan_effect_batch decide_safety bind_sandbox
    preflight_sandbox prepare_model transition_model prepare_tool observe_tool reconcile_tool
    commit_artifact reject_tool_preparation request_interaction finish_interaction
    request_knowledge dispatch_knowledge terminal_knowledge
    create_schedule claim_schedule fire_schedule
    skip_schedule cancel_schedule fail_schedule exhaust_schedule request_delegation
    authorize_delegation deny_delegation start_delegation_child terminal_delegation_child
    observe_delegation]; intros s f s' Ha; cbv beta zeta in Ha; open_res Ha; open_all; subst;
  repeat case_match; reflexivity.

Lemma closed_handlers :
  Forall (fun kv => kv.1 = "session.closed" \/ keeps_closed kv.2) handlers.
Proof.
  unfold handlers. repeat apply Forall_cons_2; [..|apply Forall_nil_2]; simpl.
  all: first [by left | right; apply keeps_closed_tool | right].
  all: try solve [closed_framed].
Qed.

Lemma apply_open s f s' : projection_apply s f = Ok s' -> closed s = false.
Proof.
  unfold projection_apply. intros Ha. destruct (lift _); [|done].
  destruct (_ =? _)%string; destruct (_ || _) eqn:E in Ha; try done; by bool_hyps.
Qed.

Lemma apply_closes s f s' : projection_apply s f = Ok s' -> closed s' = true -> settled s'.
Proof.
  intros Ha Hc. pose proof (apply_open _ _ _ Ha) as Hop. unfold projection_apply in Ha.
  destruct (lift _); [|done]. destruct (_ =? _)%string.
  - destruct (_ || _); [done|]. injection Ha as <-. simpl in Hc. congruence.
  - destruct (_ || _); [done|]. destruct (assoc _ _) as [h|] eqn:Eh.
    + apply assoc_elem in Eh as Hin. pose proof closed_handlers as Hf. rewrite Forall_forall in Hf.
      destruct (Hf _ Hin) as [Hk|Hk]; simpl in Hk; [|apply Hk in Ha; congruence].
      rewrite Hk in Eh. injection Eh as <-. by eapply close_settles.
    + injection Ha as <-. congruence.
Qed.

Lemma reachable_closed_settled s : projection_reachable s -> closed s = true -> settled s.
Proof. induction 1 as [|s Hr IH|s f s' Hr IH Ha]; [done|done|by eapply apply_closes]. Qed.

End steps.
