(* ===== verification/Governance.v ===== *)
(** * Governed effects: the safety and sandbox invariant

    A contract-v3 invocation runs only under an Allow decision and a preflighted
    sandbox proof.  The invariant ties the record of the decision, the sandbox
    proof, the grant and the executor of every invocation to its state; each
    handler that touches one of these maps preserves it.  The second part
    follows the facts that start an effect through the history of a session: what they
    name stays in the proof.  The third shows that the effects of a batch start in plan
    order. *)

From S2P Require Import Prelude Json LedgerTypes ProjectionTypes Projection ProjectionInvariant.

(** The states a dispatched effect can be in before it is observed. *)
Definition dispatched (st : InvocationState) : bool :=
  match st with
  | InvStarted | InvReceipt | InvCompleted | InvUncertain | InvReconciled => true
  | _ => false
  end.

(** The decision allows the exact prepared request, and the sandbox proof names
    the grant, the executor and the dispatch attempt the effect runs under. *)
Definition governed (s : SessionProjection) (tool : string) : Prop :=
  exists r p g a, f0 s !! tool = Some r /\ f0_disposition r = SafetyAllow /\
    tool_digests s !! tool = Some (f0_prepared_digest r) /\
    f0_sandbox r = Some p /\ sp_grant_id p = Some g /\ tool_grants s !! tool = Some g /\
    tool_executors s !! tool = Some (sp_executor_id p, sp_executor_revision p) /\
    sp_dispatch_attempt_id p = Some a.

Definition governance_of (s : SessionProjection) (tool : string) (st : InvocationState) : Prop :=
  match st with
  | InvPrepared => forall r, f0 s !! tool = Some r -> f0_sandbox r = None
  | InvAuthorized => exists r, f0 s !! tool = Some r /\ f0_disposition r = SafetyAllow
  | InvDenied => exists r, f0 s !! tool = Some r /\ f0_disposition r ≠ SafetyAllow
  | _ => dispatched st = true -> governed s tool
  end.

Section governance.
Context `{Externals}.
Abbreviation State := SessionProjection (only parsing).

Record gov_inv (s : State) : Prop := {
  gi_version : forall t v, tool_contract_versions s !! t = Some v -> is_Some (tools s !! t);
  gi_record : forall t r, f0 s !! t = Some r ->
    is_Some (tools s !! t) /\ tool_digests s !! t = Some (f0_prepared_digest r);
  gi_state : forall t e st, tools s !! t = Some (e, st) -> is_v s t 3 = true -> governance_of s t st;
}.

Definition gov_view (s : State) :=
  (tools s, tool_digests s, tool_contract_versions s, f0 s, tool_grants s, tool_executors s).

Lemma gov_frame s s' : gov_view s' = gov_view s -> gov_inv s -> gov_inv s'.
Proof.
  intros [= E1 E2 E3 E4 E5 E6] [Hv Hr Hs].
  constructor; unfold governance_of, governed, is_v in *; rewrite ?E1, ?E2, ?E3, ?E4, ?E5, ?E6; auto.
Qed.

(** What governance reads of one invocation. *)
Lemma governance_of_frame s s' t st :
  f0 s' !! t = f0 s !! t -> tool_digests s' !! t = tool_digests s !! t ->
  tool_grants s' !! t = tool_grants s !! t -> tool_executors s' !! t = tool_executors s !! t ->
  governance_of s t st -> governance_of s' t st.
Proof. unfold governance_of, governed. intros E1 E2 E3 E4. rewrite E1, E2, E3, E4. by destruct st. Qed.

(** One invocation changes; what governance reads of the others is as before. *)
Lemma gov_update s s' tool :
  gov_inv s ->
  (forall t, t ≠ tool -> tools s' !! t = tools s !! t /\ f0 s' !! t = f0 s !! t /\
     tool_digests s' !! t = tool_digests s !! t /\ tool_grants s' !! t = tool_grants s !! t /\
     tool_executors s' !! t = tool_executors s !! t /\
     tool_contract_versions s' !! t = tool_contract_versions s !! t) ->
  is_Some (tools s' !! tool) ->
  (forall r, f0 s' !! tool = Some r -> tool_digests s' !! tool = Some (f0_prepared_digest r)) ->
  (forall e st, tools s' !! tool = Some (e, st) -> is_v s' tool 3 = true -> governance_of s' tool st) ->
  gov_inv s'.
Proof.
  intros [Hv Hr Hs] Hother Hsome Hrec Hst. constructor.
  - intros t v Ht. destruct (decide (t = tool)) as [->|Hn]; [done|].
    destruct (Hother t Hn) as (E1 & E2 & E3 & E4 & E5 & E6). rewrite E1. rewrite E6 in Ht. eauto.
  - intros t r Ht. destruct (decide (t = tool)) as [->|Hn]; [eauto|].
    destruct (Hother t Hn) as (E1 & E2 & E3 & E4 & E5 & E6). rewrite E1, E3. rewrite E2 in Ht. eauto.
  - intros t e st Ht H3. destruct (decide (t = tool)) as [->|Hn]; [eauto|].
    destruct (Hother t Hn) as (E1 & E2 & E3 & E4 & E5 & E6). eapply governance_of_frame; [done..|].
    rewrite E1 in Ht. unfold is_v in *. rewrite E6 in H3. eauto.
Qed.

Ltac others := let t := fresh in let Hn := fresh in intros t Hn; simpl; rewrite ?lookup_insert_ne by done; by split_and!.

(** Names the invocation a handler is about. *)
Ltac named_tool := match goal with E : tool_invocation_id _ = Some ?t |- _ => rename t into tool end.

Lemma gov_prepare_tool : preserves gov_inv prepare_tool.
Proof.
  intros s f s' Hi Ha. unfold prepare_tool in Ha. cbv zeta in Ha.
  destruct (require_active_execution s f); [|done].
  destruct (required _) as [tool|] in Ha; [|done]. destruct (required _) as [e|] in Ha; [|done].
  destruct (is_some _) eqn:Et in Ha; [done|]. apply is_some_false in Et.
  destruct (fact_payload f) as [m|]; [|done]. destruct (text m _) as [pd|] in Ha; [|done].
  destruct (text m "tool_name") as [tn|] in Ha; [|done].
  destruct (text m "tool_revision") as [tr|] in Ha; [|done].
  assert (Hf0 : f0 s !! tool = None).
  { destruct (f0 s !! tool) as [r|] eqn:E; [|done]. destruct (gi_record s Hi _ _ E) as [[? ?] _]. congruence. }
  apply (gov_update s s' tool Hi); open_res Ha; subst s'; try others; simpl; rewrite ?lookup_insert_eq; eauto;
    intros *; rewrite ?Hf0; try done; intros [= <- <-] _; simpl; by rewrite Hf0.
Qed.

Lemma gov_decide_safety : preserves gov_inv decide_safety.
Proof.
  intros s f s' Hi Ha. unfold decide_safety in Ha. open_res Ha. clean_res. subst s'. named_tool.
  unfold differs in *. bool_hyps.
  eapply (gov_update s _ tool); [done|others|simpl; eauto| |].
  - simpl. intros r. rewrite lookup_insert_eq. by intros [= <-].
  - simpl. intros e st He _. simplify_eq. intros r. simpl. rewrite lookup_insert_eq. by intros [= <-].
Qed.

Lemma gov_bind_sandbox : preserves gov_inv bind_sandbox.
Proof.
  intros s f s' Hi Ha. unfold bind_sandbox in Ha. open_res Ha. clean_res. subst s'. named_tool.
  match goal with Hr : f0 s !! _ = Some _ |- _ => rename Hr into Hrec end.
  destruct (gi_record s Hi _ _ Hrec) as [Hsome Hd].
  eapply (gov_update s _ tool); [done|others|done| |]; simpl.
  - intros r. rewrite lookup_insert_eq. by intros [= <-].
  - intros e st He _. match goal with Ht : snd <$> _ = _ |- _ => rewrite He in Ht; injection Ht as -> end.
    simpl. rewrite lookup_insert_eq. eauto.
Qed.

Lemma gov_preflight_sandbox : preserves gov_inv preflight_sandbox.
Proof.
  intros s f s' Hi Ha. unfold preflight_sandbox in Ha. open_res Ha. clean_res. subst s'. named_tool.
  match goal with Hr : f0 s !! _ = Some ?r, Hp : f0_sandbox ?r = Some ?p |- _ =>
    rename Hr into Hrec; rename Hp into Hproof end.
  destruct (gi_record s Hi _ _ Hrec) as [Hsome Hd].
  eapply (gov_update s _ tool); [done|others|done| |]; simpl.
  - intros r. rewrite lookup_insert_eq. by intros [= <-].
  - intros e st He H3. pose proof (gi_state s Hi _ _ _ He H3) as Hg.
    unfold governance_of, governed in *. simpl. rewrite lookup_insert_eq.
    assert (Hno : ~ exists r p g b, f0 s !! tool = Some r /\ f0_disposition r = SafetyAllow /\
      tool_digests s !! tool = Some (f0_prepared_digest r) /\
      f0_sandbox r = Some p /\ sp_grant_id p = Some g /\ tool_grants s !! tool = Some g /\
      tool_executors s !! tool = Some (sp_executor_id p, sp_executor_revision p) /\
      sp_dispatch_attempt_id p = Some b).
    { intros (r & p & g & b & Hr & _ & _ & Hp & Hgr & _). congruence. }
    destruct st; simpl in *; try (intros; exfalso; by auto); try done.
    + intros r [= <-]. specialize (Hg _ Hrec). congruence.
    + destruct Hg as (r & Hr & Hal). simplify_eq. eauto.
    + destruct Hg as (r & Hr & Hal). simplify_eq. eauto.
Qed.

Lemma binding_others s tool cur next m s1 t :
  validate_effect_binding s tool cur next m = Ok s1 -> t ≠ tool ->
  tool_grants s1 !! t = tool_grants s !! t /\ tool_executors s1 !! t = tool_executors s !! t.
Proof.
  unfold validate_effect_binding. intros Ha Hn.
  destruct next; open_res Ha; subst s1; simpl; rewrite ?lookup_insert_ne by done; done.
Qed.

Lemma binding_keeps s tool cur next m s1 :
  validate_effect_binding s tool cur next m = Ok s1 ->
  match next with InvAuthorized | InvStarted => False | _ => True end ->
  tool_grants s1 = tool_grants s /\ tool_executors s1 = tool_executors s.
Proof. unfold validate_effect_binding. intros Ha Hn. destruct next; try done; open_res Ha; by subst s1. Qed.

Lemma binding_authorizes s tool cur m s1 :
  validate_effect_binding s tool cur InvAuthorized m = Ok s1 -> is_v s tool 3 = true ->
  exists r, f0 s !! tool = Some r /\ f0_disposition r = SafetyAllow.
Proof.
  simpl. intros Ha H3. unfold check_decision in Ha. rewrite H3 in Ha.
  destruct (f0 s !! tool) as [r|]; [|done]. exists r. split; [done|]. simpl in Ha.
  destruct (negb _) eqn:E in Ha; [done|]. by bool_hyps.
Qed.

Lemma binding_starts s tool cur m s1 :
  gov_inv s -> validate_effect_binding s tool cur InvStarted m = Ok s1 -> is_v s tool 3 = true ->
  (exists r, f0 s !! tool = Some r /\ f0_disposition r = SafetyAllow) ->
  governed (s <| tool_grants := tool_grants s1 |> <| tool_executors := tool_executors s1 |>) tool.
Proof.
  intros Hi Ha H3 (r & Hr & Hal). simpl in Ha. unfold check_sandbox in Ha. rewrite H3 in Ha.
  open_res Ha; try (open_res E1); simplify_eq; bool_hyps.
  match goal with Hs : sandbox_admits _ _ _ _ _ _ = true |- _ => unfold sandbox_admits in Hs; rewrite Hr in Hs; simpl in Hs end.
  destruct (f0_sandbox r) as [p|] eqn:Ep; [|done]. simpl in *. bool_hyps. subst.
  eexists r, p, _, _. simpl. rewrite !lookup_insert_eq. destruct (gi_record s Hi _ _ Hr) as [_ Hd].
  by split_and!.
Qed.

Lemma gov_transition_tool next : preserves gov_inv (fun s f => transition_tool s f next).
Proof.
  intros s f s' Hi (tool & e & t & cur & s1 & m & _ & _ & _ & _ & Htl & _ & Hedge & H3edge & Hb & Heq)%transition_tool_ok.
  assert (Hv : gov_view s' = (<[tool := (e, next)]> (tools s), tool_digests s, tool_contract_versions s,
    f0 s, tool_grants s1, tool_executors s1)).
  { pose proof (effect_binding_frame _ _ _ _ _ _ Hb) as Hs1. rewrite Heq. unfold gov_view. simpl.
    rewrite Hs1. reflexivity. }
  injection Hv as E1 E2 E3 E4 E5 E6.
  apply (gov_update s s' tool Hi).
  - intros t' Hn. rewrite E1, E2, E3, E4, E5, E6, lookup_insert_ne by done.
    destruct (binding_others _ _ _ _ _ _ t' Hb Hn). by split_and!.
  - rewrite E1, lookup_insert_eq. eauto.
  - rewrite E2, E4. intros r Hr. by apply (gi_record s Hi).
  - rewrite E1, lookup_insert_eq. intros ? ? [= <- <-]. unfold is_v. rewrite E3. intros H3.
    pose proof (gi_state s Hi _ _ _ Htl H3) as Hg. specialize (H3edge H3).
    apply (governance_of_frame (s <| tool_grants := tool_grants s1 |> <| tool_executors := tool_executors s1 |>));
      simpl; rewrite ?E2, ?E4, ?E5, ?E6; try done. clear E1 E2 E3 E4 E5 E6 Heq.
    destruct next; try (by destruct cur); simpl in H3edge, Hedge |- *.
    + by eapply binding_authorizes.
    + apply bool_decide_eq_true in H3edge. subst cur. intros _. exact (binding_starts _ _ _ _ _ Hi Hb H3 Hg).
    + destruct (binding_keeps _ _ _ _ _ _ Hb I) as [-> ->]. by destruct cur.
    + destruct (binding_keeps _ _ _ _ _ _ Hb I) as [-> ->]. by destruct cur.
    + destruct (f0 s !! tool) as [r|]; [|done]. simpl in H3edge. bool_hyps. eauto.
    + destruct (binding_keeps _ _ _ _ _ _ Hb I) as [-> ->]. by destruct cur.
Qed.

Lemma gov_observe_tool : preserves gov_inv observe_tool.
Proof.
  intros s f s' Hi Ha. unfold observe_tool in Ha. open_res Ha. clean_res. subst s'. named_tool.
  eapply (gov_update s _ tool); [done|others|simpl; rewrite lookup_insert_eq; eauto| |]; simpl.
  - apply (gi_record s Hi).
  - rewrite lookup_insert_eq. by intros ? ? [= <- <-].
Qed.

Lemma gov_reconcile_tool : preserves gov_inv reconcile_tool.
Proof.
  intros s f s' Hi Ha. unfold reconcile_tool in Ha. open_res Ha. clean_res. subst s'. named_tool.
  eapply (gov_update s _ tool); [done|others|simpl; rewrite lookup_insert_eq; eauto| |]; simpl.
  - apply (gi_record s Hi).
  - rewrite lookup_insert_eq. intros ? ? [= <- <-] H3.
    match goal with Ht : tools s !! tool = Some (_, InvUncertain) |- _ =>
      exact (gi_state s Hi _ _ _ Ht H3) end.
Qed.

Ltac gov_framed :=
  let s := fresh in let f := fresh in let s' := fresh in let Hi := fresh in let Ha := fresh in
  cbv beta delta [preserves close_session admit_turn_input admit_turn_steered request_cancel
    start_turn suspend_turn terminal_turn transition_turn
    start_execution start_iteration transition_execution plan_effect_batch prepare_model transition_model
    commit_artifact reject_tool_preparation request_interaction finish_interaction
    request_knowledge dispatch_knowledge terminal_knowledge
    create_schedule claim_schedule fire_schedule
    skip_schedule cancel_schedule fail_schedule exhaust_schedule request_delegation
    authorize_delegation deny_delegation start_delegation_child terminal_delegation_child
    observe_delegation]; intros s f s' Hi Ha; cbv beta zeta in Ha; open_res Ha; open_all; subst;
  first [exact Hi | eapply gov_frame; [|exact Hi]; repeat case_match; reflexivity].

Lemma gov_handlers : Forall (fun kv => preserves gov_inv kv.2) handlers.
Proof.
  unfold handlers. repeat apply Forall_cons_2; [..|apply Forall_nil_2]; simpl.
  all: first [apply gov_prepare_tool | apply gov_decide_safety | apply gov_transition_tool
    | apply gov_bind_sandbox | apply gov_preflight_sandbox | apply gov_observe_tool
    | apply gov_reconcile_tool | idtac].
  all: try solve [gov_framed].
Qed.

Lemma reachable_gov s : projection_reachable s -> gov_inv s.
Proof.
  apply reachable_invariant.
  - constructor; simpl; intros *; by rewrite lookup_empty.
  - intros s0 Hi. eapply gov_frame; [|exact Hi]; reflexivity.
  - apply apply_preserves; [|apply gov_handlers]. intros s0 Hi. eapply gov_frame; [|exact Hi]; reflexivity.
Qed.
(** ** The start of an effect

    The fact that started an invocation names the grant, the executor and the dispatch
    attempt of the sandbox proof, and the proof stays as it was. *)

(** [m] is the payload of a start that the sandbox proof of the invocation admits. *)
Definition started_as (s : State) (tool : string) (m : Map) : Prop :=
  exists r p g a, f0 s !! tool = Some r /\ f0_sandbox r = Some p /\
    map_get "grant_id" m = Some (Str g) /\ sp_grant_id p = Some g /\
    map_get "executor_id" m = Some (Str (sp_executor_id p)) /\
    map_get "executor_revision" m = Some (Str (sp_executor_revision p)) /\
    map_get "dispatch_attempt_id" m = Some (Str a) /\ sp_dispatch_attempt_id p = Some a.

Definition starts (tool : string) (d : FactDraft) : Prop :=
  kind d = "effect.started" /\ tool_invocation_id d = Some tool.

(** What one handler does to the invocations: preflighted proofs and contract versions
    are final, no invocation disappears, and only a start dispatches. *)
Record gov_step (s : State) (d : FactDraft) (next : option InvocationState) (s' : State) : Prop := {
  gs_proof : forall t r p g, f0 s !! t = Some r -> f0_sandbox r = Some p -> sp_grant_id p = Some g -> f0 s' !! t = Some r;
  gs_version : forall t, is_Some (tools s !! t) ->
    is_Some (tools s' !! t) /\ tool_contract_versions s' !! t = tool_contract_versions s !! t;
  gs_dispatched : forall t e st, tools s' !! t = Some (e, st) -> dispatched st = true ->
    (exists e' st', tools s !! t = Some (e', st') /\ dispatched st' = true) \/
    (next = Some InvStarted /\ tool_invocation_id d = Some t);
}.

Lemma gov_step_frame s d next s' : gov_view s' = gov_view s -> gov_step s d next s'.
Proof. intros [= E1 E2 E3 E4 E5 E6]. split; rewrite ?E1, ?E3, ?E4; eauto. Qed.

Definition gov_steps (next : option InvocationState) (h : State -> FactDraft -> result Abort State) : Prop :=
  forall s d s', gov_inv s -> h s d = Ok s' -> gov_step s d next s'.
Lemma prepare_tool_steps : gov_steps None prepare_tool.
Proof.
  intros s f s' Hi Ha. unfold prepare_tool in Ha. cbv zeta in Ha.
  destruct (require_active_execution s f); [|done].
  destruct (required _) as [tool|] in Ha; [|done]. destruct (required _) as [e|] in Ha; [|done].
  destruct (is_some _) eqn:Et in Ha; [done|]. apply is_some_false in Et.
  destruct (fact_payload f) as [m|]; [|done]. destruct (text m _) as [pd|] in Ha; [|done].
  destruct (text m "tool_name") as [tn|] in Ha; [|done].
  destruct (text m "tool_revision") as [tr|] in Ha; [|done].
  assert (Hne : forall t, is_Some (tools s !! t) -> t ≠ tool) by (intros t [? Ht] ->; congruence).
  assert (Hold : forall t e0 st, <[tool := (e, InvPrepared)]> (tools s) !! t = Some (e0, st) -> dispatched st = true ->
    tools s !! t = Some (e0, st)).
  { intros t e0 st [[_ [= _ <-]]|[_ ?]]%lookup_insert_Some; done. }
  split; open_res Ha; subst s'; simpl; try done; try (by eauto 6);
    intros t Ht; specialize (Hne t Ht); rewrite !lookup_insert_ne by done; done.
Qed.

(** A handler that writes one record that was not preflighted. *)
Lemma gov_step_record s d next s' tool r :
  tools s' = tools s -> tool_contract_versions s' = tool_contract_versions s -> f0 s' = <[tool := r]> (f0 s) ->
  (forall r0 p g, f0 s !! tool = Some r0 -> f0_sandbox r0 = Some p -> sp_grant_id p = Some g -> False) ->
  gov_step s d next s'.
Proof.
  intros E1 E2 E3 Hno. split; rewrite ?E1, ?E2, ?E3; eauto. intros t r0 p g Hr Hp Hg.
  rewrite lookup_insert_ne; [done|]. intros <-. by eapply Hno.
Qed.

Lemma decide_safety_steps : gov_steps None decide_safety.
Proof.
  intros s f s' Hi Ha. unfold decide_safety in Ha. open_res Ha. clean_res. subst s'. named_tool.
  eapply (gov_step_record _ _ _ _ tool); [done..|]. bool_hyps. congruence.
Qed.

Lemma bind_sandbox_steps : gov_steps None bind_sandbox.
Proof.
  intros s f s' Hi Ha. unfold bind_sandbox in Ha. open_res Ha. clean_res. subst s'. named_tool.
  eapply (gov_step_record _ _ _ _ tool); [done..|]. bool_hyps. congruence.
Qed.

Lemma preflight_sandbox_steps : gov_steps None preflight_sandbox.
Proof.
  intros s f s' Hi Ha. unfold preflight_sandbox in Ha. open_res Ha. clean_res. subst s'. named_tool.
  eapply (gov_step_record _ _ _ _ tool); [done..|]. bool_hyps. congruence.
Qed.

(** A handler that moves one invocation. *)
Lemma gov_step_move s d next s' tool e cur e' new :
  tools s !! tool = Some (e, cur) -> tools s' = <[tool := (e', new)]> (tools s) ->
  tool_contract_versions s' = tool_contract_versions s -> f0 s' = f0 s ->
  (dispatched new = true -> dispatched cur = true \/ next = Some InvStarted /\ tool_invocation_id d = Some tool) ->
  gov_step s d next s'.
Proof.
  intros Ht E1 E2 E3 Hd. split; rewrite ?E1, ?E2, ?E3; eauto.
  - intros t Hs. split; [|done]. apply lookup_insert_is_Some. destruct (decide (tool = t)); auto.
  - intros t e0 st [[<- [= <- <-]]|[_ Hl]]%lookup_insert_Some Hst; [|eauto]. destruct (Hd Hst) as [?|?]; [left; eauto|by right].
Qed.

Lemma transition_tool_steps next :
  gov_steps (if bool_decide (next = InvStarted) then Some InvStarted else None) (fun s f => transition_tool s f next).
Proof.
  intros s f s' Hi (tool & e & t & cur & s1 & m & Hid & _ & _ & _ & Htl & _ & Hedge & _ & Hb & Heq)%transition_tool_ok.
  pose proof (effect_binding_frame _ _ _ _ _ _ Hb) as Hs1.
  eapply (gov_step_move _ _ _ _ tool e cur e next Htl); [by rewrite Heq|by rewrite Heq; simpl; rewrite Hs1..|].
  case_bool_decide as Hn; [by right|]. intros Hd. left. by destruct next, cur.
Qed.

Lemma observe_tool_steps : gov_steps None observe_tool.
Proof.
  intros s f s' Hi Ha. unfold observe_tool in Ha. open_res Ha. clean_res. subst s'. named_tool.
  by eapply (gov_step_move _ _ _ _ tool).
Qed.

Lemma reconcile_tool_steps : gov_steps None reconcile_tool.
Proof.
  intros s f s' Hi Ha. unfold reconcile_tool in Ha. open_res Ha. clean_res. subst s'. named_tool.
  eapply (gov_step_move _ _ _ _ tool); [done..|]. by left.
Qed.

Ltac gov_steps_framed :=
  let s := fresh in let f := fresh in let s' := fresh in let Hi := fresh in let Ha := fresh in
  cbv beta delta [gov_steps close_session admit_turn_input admit_turn_steered request_cancel
    start_turn suspend_turn terminal_turn transition_turn
    start_execution start_iteration transition_execution plan_effect_batch prepare_model transition_model
    commit_artifact reject_tool_preparation request_interaction finish_interaction
    request_knowledge dispatch_knowledge terminal_knowledge
    create_schedule claim_schedule fire_schedule
    skip_schedule cancel_schedule fail_schedule exhaust_schedule request_delegation
    authorize_delegation deny_delegation start_delegation_child terminal_delegation_child
    observe_delegation]; intros s f s' Hi Ha; cbv beta zeta in Ha; open_res Ha; open_all; subst;
  apply gov_step_frame; repeat case_match; reflexivity.

Definition start_of (kind : string) : option InvocationState :=
  if (kind =? "effect.started")%string then Some InvStarted else None.

Lemma handlers_steps : Forall (fun kv => gov_steps (start_of kv.1) kv.2) handlers.
Proof.
  unfold handlers. repeat apply Forall_cons_2; [..|apply Forall_nil_2]; cbn [fst snd].
  all: first [exact prepare_tool_steps | exact decide_safety_steps | exact bind_sandbox_steps
    | exact preflight_sandbox_steps | exact observe_tool_steps | exact reconcile_tool_steps
    | exact (transition_tool_steps _) | idtac].
  all: try solve [gov_steps_framed].
Qed.
Lemma apply_gov_step s d s' : gov_inv s -> projection_apply s d = Ok s' -> gov_step s d (start_of (kind d)) s'.
Proof.
  intros Hi Ha. unfold projection_apply in Ha. destruct (lift _); [|done]. destruct (kind d =? _)%string eqn:Ek.
  - destruct (_ || _); [done|]. injection Ha as <-. by apply gov_step_frame.
  - destruct (_ || _); [done|]. destruct (assoc _ _) as [h|] eqn:Eh; [|injection Ha as <-; by apply gov_step_frame].
    apply assoc_elem in Eh. pose proof handlers_steps as Hs. rewrite Forall_forall in Hs. exact (Hs _ Eh s d s' Hi Ha).
Qed.

Lemma apply_started s d s' tool : projection_apply s d = Ok s' -> starts tool d -> is_v s' tool 3 = true ->
  exists m, fact_payload d = Ok m /\ started_as s' tool m.
Proof.
  intros Ha [Hk Ht] H3. unfold projection_apply in Ha. destruct (lift _); [|done]. rewrite Hk in Ha. change ("effect.started" =? "session.opened")%string with false in Ha. cbv iota in Ha.
  destruct (_ || _); [done|]. change (transition_tool s d InvStarted = Ok s') in Ha.
  destruct (transition_tool_ok _ _ _ _ Ha) as (tool' & e & t & cur & s1 & m & Hid & _ & _ & _ & _ & Hm & _ & _ & Hb & Heq).
  rewrite Ht in Hid. injection Hid as <-. exists m. split; [done|].
  pose proof (effect_binding_frame _ _ _ _ _ _ Hb) as Hs1.
  assert (E0 : f0 s' = f0 s) by (rewrite Heq; simpl; by rewrite Hs1).
  assert (Ev : is_v s' tool 3 = is_v s tool 3) by (unfold is_v; rewrite Heq; simpl; by rewrite Hs1).
  rewrite Ev in H3. clear Ha Heq Hs1. simpl in Hb. unfold check_sandbox in Hb. rewrite H3 in Hb.
  unfold text in Hb. destruct (map_get "grant_id" m) as [[|?|?|g|?|?]|] eqn:Eg; try done.
  destruct (is_some_and _ (tool_grants s !! tool)); [done|].
  destruct (map_get "executor_id" m) as [[|?|?|x|?|?]|] eqn:Ex; try done.
  destruct (map_get "executor_revision" m) as [[|?|?|rv|?|?]|] eqn:Er; try done.
  destruct (map_get "dispatch_attempt_id" m) as [[|?|?|att|?|?]|] eqn:Ea; try done.
  destruct (negb (sandbox_admits s tool g x rv att)) eqn:Es; [done|]. apply negb_false_iff in Es. unfold sandbox_admits in Es.
  destruct (f0 s !! tool) as [r|] eqn:Ef; [|done]. simpl in Es. destruct (f0_sandbox r) as [p|] eqn:Ep; [|done].
  simpl in Es. bool_hyps. subst. exists r, p, g, att. rewrite E0. by split_and!.
Qed.

(** The projection of a list of facts, with commit boundaries anywhere. *)
Inductive history : list FactDraft -> State -> Prop :=
  | history_default : history [] projection_default
  | history_begin ds s : history ds s -> history ds (begin_commit s)
  | history_apply ds s d s' : history ds s -> projection_apply s d = Ok s' -> history (ds ++ [d]) s'.

Lemma history_reachable ds s : history ds s -> projection_reachable s.
Proof. induction 1; [apply proj_default|by apply proj_begin|by eapply proj_apply]. Qed.

Record started_inv (ds : list FactDraft) (s : State) : Prop := {
  si_known : forall d t, d ∈ ds -> starts t d -> is_Some (tools s !! t);
  si_start : forall d t, d ∈ ds -> starts t d -> is_v s t 3 = true -> exists m, fact_payload d = Ok m /\ started_as s t m;
  si_dispatched : forall t e st, tools s !! t = Some (e, st) -> dispatched st = true -> exists d, d ∈ ds /\ starts t d;
}.

Lemma apply_start_known s d s' tool : projection_apply s d = Ok s' -> starts tool d -> is_Some (tools s' !! tool).
Proof.
  intros Ha [Hk Ht]. unfold projection_apply in Ha. destruct (lift _); [|done]. rewrite Hk in Ha. change ("effect.started" =? "session.opened")%string with false in Ha. cbv iota in Ha.
  destruct (_ || _); [done|]. change (transition_tool s d InvStarted = Ok s') in Ha.
  destruct (transition_tool_ok _ _ _ _ Ha) as (tool' & e & t & cur & s1 & m & Hid & _ & _ & _ & _ & _ & _ & _ & _ & Heq).
  rewrite Ht in Hid. injection Hid as <-. rewrite Heq. simpl. rewrite lookup_insert_eq. eauto.
Qed.

Lemma history_started ds s : history ds s -> started_inv ds s.
Proof.
  induction 1 as [|ds s Hh IH|ds s d s' Hh IH Ha].
  - split; try set_solver.
  - destruct IH as [Hk Hs Hd]. split; [exact Hk|exact Hs|exact Hd].
  - destruct IH as [Hk Hs Hd]. pose proof (apply_gov_step s d s' (reachable_gov s (history_reachable _ _ Hh)) Ha) as [Gp Gv Gd].
    split.
    + intros d0 t [Hin| ->%list_elem_of_singleton]%elem_of_app Hst; [apply Gv; by eapply Hk|by eapply apply_start_known].
    + intros d0 t [Hin| ->%list_elem_of_singleton]%elem_of_app Hst H3; [|by eapply apply_started].
      destruct (Gv t (Hk d0 t Hin Hst)) as [_ Ev]. unfold is_v in *. rewrite Ev in H3.
      destruct (Hs d0 t Hin Hst H3) as (m & Hm & r & p & g & a & Hr & Hp & Hg & Hpg & Hrest). exists m. split; [done|].
      exists r, p, g, a. rewrite (Gp t r p g Hr Hp Hpg). done.
    + intros t e st Ht Hst. destruct (Gd t e st Ht Hst) as [(e' & st' & Ht' & Hst')|[Hn Hid]].
      * destruct (Hd t e' st' Ht' Hst') as (d0 & Hin & Hd0). exists d0. set_solver.
      * exists d. split; [set_solver|]. split; [|done]. unfold start_of in Hn.
        destruct (String.eqb_spec (kind d) "effect.started"); done.
Qed.
End governance.

(** ** Effect batches: effects start in plan order

    A contract-v2 invocation starts only when it is the next one of the batch it
    was planned in.  The invariant: every batch is a duplicate-free list of
    planned invocations, those before its cursor have left the preparation
    states, those at or after it were never dispatched. *)

(** The states of an invocation that was never started. *)
Definition unstarted (st : InvocationState) : bool :=
  match st with InvPrepared | InvAuthorized | InvDenied => true | _ => false end.

Section batches.
Context `{Externals}.
Abbreviation State := SessionProjection (only parsing).

Record batch_inv (s : State) : Prop := {
  bi_batch : forall d b, effect_batches s !! d = Some b ->
    NoDup (eb_tools b) /\ (eb_next_start b <= length (eb_tools b))%nat;
  bi_member : forall d b t, effect_batches s !! d = Some b -> t ∈ eb_tools b ->
    tool_batch_plans s !! t = Some d /\ is_v s t 2 = true /\ is_Some (tools s !! t);
  bi_plan : forall t d, tool_batch_plans s !! t = Some d ->
    exists b, effect_batches s !! d = Some b /\ t ∈ eb_tools b;
  bi_order : forall d b i t e st, effect_batches s !! d = Some b -> eb_tools b !! i = Some t ->
    tools s !! t = Some (e, st) ->
    ((i < eb_next_start b)%nat -> unstarted st = false) /\
    ((eb_next_start b <= i)%nat -> dispatched st = false);
}.

Definition batch_view (s : State) :=
  (tools s, tool_contract_versions s, tool_batch_plans s, effect_batches s).

Lemma batch_frame s s' : batch_view s' = batch_view s -> batch_inv s -> batch_inv s'.
Proof.
  intros [= E1 E2 E3 E4] [Hb Hm Hp Ho].
  constructor; unfold is_v in *; rewrite ?E1, ?E2, ?E3, ?E4; auto.
Qed.

(** An invocation outside every batch changes freely. *)
Lemma batch_tool_fresh s s' tool x v :
  batch_inv s -> tools s !! tool = None ->
  batch_view s' = (<[tool := x]> (tools s), <[tool := v]> (tool_contract_versions s),
                   tool_batch_plans s, effect_batches s) -> batch_inv s'.
Proof.
  intros Hi Hn [= E1 E2 E3 E4].
  assert (Hne : forall d b t, effect_batches s !! d = Some b -> t ∈ eb_tools b -> tool ≠ t).
  { intros d b t Hd Ht ->. destruct (bi_member s Hi _ _ _ Hd Ht) as (_ & _ & [? ?]). congruence. }
  destruct Hi as [Hb Hm Hp Ho].
  constructor; unfold is_v in *; rewrite ?E1, ?E2, ?E3, ?E4; auto.
  - intros d b t Hd Ht. rewrite !lookup_insert_ne by eauto. eauto.
  - intros d b i t e st Hd Ht. rewrite lookup_insert_ne; [eauto|].
    eapply Hne; [done|]. by eapply list_elem_of_lookup_2.
Qed.

(** One invocation moves to a state on the same side of the cursor. *)
Lemma batch_tool_moves s s' tool e cur next :
  batch_inv s -> tools s !! tool = Some (e, cur) ->
  (unstarted next = true -> unstarted cur = true) -> (dispatched next = true -> dispatched cur = true) ->
  batch_view s' = (<[tool := (e, next)]> (tools s), tool_contract_versions s,
                   tool_batch_plans s, effect_batches s) -> batch_inv s'.
Proof.
  intros [Hb Hm Hp Ho] Ht Hu Hd [= E1 E2 E3 E4].
  constructor; unfold is_v in *; rewrite ?E1, ?E2, ?E3, ?E4; auto.
  - intros d b t He Hin. destruct (Hm _ _ _ He Hin) as (? & ? & ?). split_and!; auto.
    destruct (decide (tool = t)) as [->|Hn]; [rewrite lookup_insert_eq; eauto|by rewrite lookup_insert_ne].
  - intros d b i t e' st He Hi. destruct (decide (tool = t)) as [->|Hn]; [|rewrite lookup_insert_ne by done; eauto].
    rewrite lookup_insert_eq. intros [= <- <-]. destruct (Ho _ _ _ _ _ _ He Hi Ht) as [H1 H2].
    split; intros Hlt; [specialize (H1 Hlt)|specialize (H2 Hlt)]; apply not_true_iff_false; intros Heq;
      [rewrite Hu in H1 by done|rewrite Hd in H2 by done]; done.
Qed.

Lemma batch_prepare_tool : preserves batch_inv prepare_tool.
Proof.
  intros s f s' Hi Ha. unfold prepare_tool in Ha. cbv zeta in Ha.
  destruct (require_active_execution s f); [|done].
  destruct (required _) as [tool|] in Ha; [|done]. destruct (required _) as [e|] in Ha; [|done].
  destruct (is_some _) eqn:Et in Ha; [done|]. apply is_some_false in Et.
  eapply (batch_tool_fresh s s' tool); [done..|]. open_res Ha; subst s'; reflexivity.
Qed.

Lemma batch_observe_tool : preserves batch_inv observe_tool.
Proof.
  intros s f s' Hi Ha. unfold observe_tool in Ha. open_res Ha. clean_res. subst s'.
  by eapply (batch_tool_moves s _ _ _ _ InvObserved).
Qed.

Lemma batch_reconcile_tool : preserves batch_inv reconcile_tool.
Proof.
  intros s f s' Hi Ha. unfold reconcile_tool in Ha. open_res Ha. clean_res. subst s'.
  by eapply (batch_tool_moves s _ _ _ _ InvReconciled).
Qed.

(** ** Starting the next invocation of a batch *)

Lemma batch_advance s s' tool e cur d b :
  batch_inv s -> tools s !! tool = Some (e, cur) -> tool_batch_plans s !! tool = Some d ->
  effect_batches s !! d = Some b -> eb_tools b !! eb_next_start b = Some tool ->
  batch_view s' = (<[tool := (e, InvStarted)]> (tools s), tool_contract_versions s, tool_batch_plans s,
                   <[d := b <| eb_next_start ::= S |>]> (effect_batches s)) -> batch_inv s'.
Proof.
  intros [Hb Hm Hp Ho] Ht Hpl Hd Hnx [= E1 E2 E3 E4].
  assert (Hsome : forall t, is_Some (tools s !! t) -> is_Some (<[tool := (e, InvStarted)]> (tools s) !! t)).
  { intros t. rewrite lookup_insert_is_Some'. auto. }
  constructor; unfold is_v in *; rewrite ?E1, ?E2, ?E3, ?E4.
  - intros d' b' [[<- <-]|[Hn He]]%lookup_insert_Some; [|eauto].
    destruct (Hb _ _ Hd). split; [done|]. simpl. by apply lookup_lt_Some in Hnx.
  - intros d' b' t [[<- <-]|[Hn He]]%lookup_insert_Some Hin; edestruct Hm as (? & ? & ?); eauto.
  - intros t d' Htp. destruct (Hp t d' Htp) as (b' & He & Hin). destruct (decide (d = d')) as [->|Hn].
    + simplify_eq. eexists. rewrite lookup_insert_eq. eauto.
    + exists b'. by rewrite lookup_insert_ne.
  - intros d' b' i t e' st [[<- <-]|[Hn He]]%lookup_insert_Some Hi; simpl in *.
    + destruct (decide (tool = t)) as [->|Hnt].
      * pose proof (NoDup_lookup _ _ _ _ (proj1 (Hb _ _ Hd)) Hi Hnx) as ->.
        rewrite lookup_insert_eq. intros [= <- <-]. split; [done|lia].
      * rewrite lookup_insert_ne by done. intros Hst. destruct (Ho _ _ _ _ _ _ Hd Hi Hst) as [H1 H2].
        split; intros Hlt; [|apply H2; lia]. apply H1.
        assert (i ≠ eb_next_start b); [congruence|lia].
    + assert (tool ≠ t) as Hnt.
      { intros ->. apply list_elem_of_lookup_2 in Hi. destruct (Hm _ _ _ He Hi). congruence. }
      rewrite lookup_insert_ne by done. eauto.
Qed.

Lemma batch_admits_ok s tool : batch_admits s tool = true ->
  exists d b, tool_batch_plans s !! tool = Some d /\ effect_batches s !! d = Some b /\
    eb_tools b !! eb_next_start b = Some tool.
Proof.
  unfold batch_admits. destruct (tool_batch_plans s !! tool) as [d|]; [|done]. simpl.
  destruct (effect_batches s !! d) as [b|] eqn:Ed; [|done]. intros Hb. bool_hyps. eauto.
Qed.

(** How an effect transition moves the batch maps. *)
Lemma transition_tool_batches s f next s' :
  transition_tool s f next = Ok s' ->
  exists tool e cur, tools s !! tool = Some (e, cur) /\ tool_edge cur next = true /\
    if bool_decide (next = InvStarted) && is_v s tool 2
    then batch_admits s tool = true /\
      batch_view s' = batch_view (advance_batch (s <| tools ::= <[tool := (e, next)]> |>) tool)
    else batch_view s' = batch_view (s <| tools ::= <[tool := (e, next)]> |>).
Proof.
  unfold transition_tool. intros Ha. cbv zeta in Ha.
  destruct (require_active_execution s f); [|done].
  destruct (required (tool_invocation_id f)) as [tool|]; [|done].
  destruct (required (execution_id f)) as [e|]; [|done].
  destruct (fact_payload f) as [m|]; [|done]. destruct (text m _); [|done].
  destruct (differs _ _ _); [done|]. destruct (ok_or _ _) as [[owner cur]|] eqn:Eo; [|done].
  destruct (negb (owner =? e)%string) eqn:Eow; [done|].
  destruct (negb (_ && _)) eqn:Ev; [done|]. destruct (_ && negb (batch_admits s tool)) eqn:Eba; [done|].
  destruct (validate_effect_binding _ _ _ _ _) as [s1|] eqn:Eb; [|done]. clean_res. simplify_eq.
  exists tool, e, cur. split_and!; [done..|].
  apply effect_binding_frame in Eb. rewrite Eb. clear Eb.
  destruct (bool_decide (next = InvStarted) && is_v s tool 2); simpl in *.
  - bool_hyps. split; [done|]. destruct (bool_decide (next = InvCompleted)); unfold advance_batch; simpl;
      destruct (tool_batch_plans s !! tool); reflexivity.
  - repeat case_match; reflexivity.
Qed.

Lemma batch_transition_tool next : preserves batch_inv (fun s f => transition_tool s f next).
Proof.
  intros s f s' Hi (tool & e & cur & Ht & Hedge & Hv)%transition_tool_batches.
  destruct (_ && _) eqn:Es in Hv.
  - bool_hyps. subst next. destruct Hv as [Hadm Hv].
    destruct (batch_admits_ok _ _ Hadm) as (d & b & Hpl & Hd & Hnx).
    eapply (batch_advance s s' tool e cur d b); [done..|]. rewrite Hv. unfold advance_batch. simpl.
    rewrite Hpl. unfold batch_view. simpl. by rewrite (alter_some _ _ _ _ Hd).
  - destruct (decide (next = InvStarted)) as [->|Hns].
    + simpl in Es.
      assert (Hout : forall d b i, effect_batches s !! d = Some b -> eb_tools b !! i ≠ Some tool).
      { intros d b i Hd Hl%list_elem_of_lookup_2. destruct (bi_member s Hi _ _ _ Hd Hl) as (_ & H2 & _). congruence. }
      injection Hv as E1 E2 E3 E4. destruct Hi as [Hb Hm Hp Ho].
      constructor; unfold is_v in *; rewrite ?E1, ?E2, ?E3, ?E4; auto.
      * intros d b t Hd Hin. destruct (Hm _ _ _ Hd Hin) as (? & ? & ?). split_and!; auto.
        rewrite lookup_insert_is_Some'. auto.
      * intros d b i t e' st Hd Hl. rewrite lookup_insert_ne; [eauto|]. intros ->. by eapply Hout.
    + eapply (batch_tool_moves s s' tool e cur next); [done..| | |exact Hv]; by destruct cur, next.
Qed.

(** ** Planning a batch *)

Lemma batch_matches_elem s e digest t : t ∈ batch_matches s e digest ->
  tools s !! t = Some (e, InvAuthorized) /\ is_v s t 2 = true /\ tool_batch_plans s !! t = None.
Proof.
  unfold batch_matches. intros ([t' [o st]] & -> & Hin)%list_elem_of_fmap. simpl.
  apply list_elem_of_In, List.filter_In in Hin as [Hin Hb]. apply list_elem_of_In, elem_of_entries in Hin.
  simpl in Hb. bool_hyps. subst. split_and!; [done|done|by apply is_some_false].
Qed.

Lemma batch_tool_ok s e v t : batch_tool s e v = Ok t ->
  tools s !! t = Some (e, InvAuthorized) /\ is_v s t 2 = true /\ tool_batch_plans s !! t = None.
Proof.
  unfold batch_tool. destruct (as_str v) as [digest|]; [|done]. simpl.
  destruct (batch_matches s e digest) as [|t' [|]] eqn:E; [done| |done]. intros [= ->].
  apply (batch_matches_elem s e digest). rewrite E. set_solver.
Qed.

Lemma plans_insert (d : string) batch (m : gmap string string) t :
  foldl (fun m tool => <[tool := d]> m) m batch !! t = if bool_decide (t ∈ batch) then Some d else m !! t.
Proof.
  revert m. induction batch as [|x batch IH]; intros m; cbn [foldl];
    [by rewrite bool_decide_eq_false_2 by set_solver|].
  rewrite IH. destruct (decide (t = x)) as [->|Hn].
  - rewrite (bool_decide_eq_true_2 (x ∈ x :: batch)) by set_solver. rewrite lookup_insert_eq. by case_bool_decide.
  - rewrite lookup_insert_ne by done.
    rewrite (bool_decide_ext (t ∈ x :: batch) (t ∈ batch)) by set_solver. done.
Qed.

Lemma batch_plan s s' d batch e :
  batch_inv s -> effect_batches s !! d = None -> NoDup batch ->
  (forall t, t ∈ batch -> tools s !! t = Some (e, InvAuthorized) /\ is_v s t 2 = true /\
     tool_batch_plans s !! t = None) ->
  batch_view s' = (tools s, tool_contract_versions s,
    foldl (fun m tool => <[tool := d]> m) (tool_batch_plans s) batch,
    <[d := mkEffectBatch batch 0]> (effect_batches s)) -> batch_inv s'.
Proof.
  intros [Hb Hm Hp Ho] Hd Hnd Hall [= E1 E2 E3 E4].
  constructor; unfold is_v in *; rewrite ?E1, ?E2, ?E3, ?E4.
  - intros d' b [[<- <-]|[Hn He]]%lookup_insert_Some; [|eauto]. simpl. split; [done|lia].
  - intros d' b t. rewrite plans_insert. intros [[<- <-]|[Hn He]]%lookup_insert_Some Hin; simpl in *.
    + destruct (Hall t Hin) as (Ht & Hv & _). rewrite bool_decide_eq_true_2 by done. eauto.
    + destruct (Hm _ _ _ He Hin) as (Hpl & Hv & Ht). split_and!; auto.
      rewrite bool_decide_eq_false_2; [done|]. intros Hin'. destruct (Hall t Hin') as (_ & _ & ?). congruence.
  - intros t d'. rewrite plans_insert. case_bool_decide as Hin.
    + intros [= <-]. eexists. rewrite lookup_insert_eq. eauto.
    + intros Hpl. destruct (Hp _ _ Hpl) as (b & He & Hbin). exists b. rewrite lookup_insert_ne; [done|]. congruence.
  - intros d' b i t e' st [[<- <-]|[Hn He]]%lookup_insert_Some Hi Ht; simpl in *; [|eauto].
    apply list_elem_of_lookup_2 in Hi. destruct (Hall t Hi) as (Ht' & _). simplify_eq. split; [lia|done].
Qed.

Lemma batch_plan_effect_batch : preserves batch_inv plan_effect_batch.
Proof.
  intros s f s' Hi Ha. unfold plan_effect_batch in Ha. open_res Ha. clean_res.
  match goal with E : try_map _ _ = Ok ?b, Es : (_ =? _)%nat = true |- _ =>
    rename b into batch; rename E into Em; rename Es into Hnd end.
  apply Nat.eqb_eq, size_list_to_set_nodup in Hnd.
  eapply (batch_plan s s' _ batch); [done|eassumption|done| |subst s'; reflexivity].
  intros t Ht. apply try_map_ok in Em. apply list_elem_of_lookup in Ht as [i Hl].
  destruct (Forall2_lookup_r _ _ _ _ _ Em Hl) as (v & _ & Hv). by eapply batch_tool_ok.
Qed.

Ltac batch_framed :=
  let s := fresh in let f := fresh in let s' := fresh in let Hi := fresh in let Ha := fresh in
  cbv beta delta [preserves close_session admit_turn_input admit_turn_steered request_cancel
    start_turn suspend_turn terminal_turn transition_turn decide_safety bind_sandbox preflight_sandbox
    start_execution start_iteration transition_execution prepare_model transition_model
    commit_artifact reject_tool_preparation request_interaction finish_interaction
    request_knowledge dispatch_knowledge terminal_knowledge
    create_schedule claim_schedule fire_schedule
    skip_schedule cancel_schedule fail_schedule exhaust_schedule request_delegation
    authorize_delegation deny_delegation start_delegation_child terminal_delegation_child
    observe_delegation]; intros s f s' Hi Ha; cbv beta zeta in Ha; open_res Ha; open_all; subst;
  first [exact Hi | eapply batch_frame; [|exact Hi]; repeat case_match; reflexivity].

Lemma batch_handlers : Forall (fun kv => preserves batch_inv kv.2) handlers.
Proof.
  unfold handlers. repeat apply Forall_cons_2; [..|apply Forall_nil_2]; simpl.
  all: first [apply batch_prepare_tool | apply batch_transition_tool | apply batch_observe_tool
    | apply batch_reconcile_tool | apply batch_plan_effect_batch | idtac].
  all: try solve [batch_framed].
Qed.

Lemma reachable_batches s : projection_reachable s -> batch_inv s.
Proof.
  apply reachable_invariant.
  - constructor; simpl; intros *; by rewrite lookup_empty.
  - intros s0 Hi. eapply batch_frame; [|exact Hi]; reflexivity.
  - apply apply_preserves; [|apply batch_handlers]. intros s0 Hi. eapply batch_frame; [|exact Hi]; reflexivity.
Qed.
End batches.
