(* ===== verification/ScheduleFacts.v ===== *)
(** * Schedules of a session as an abstract machine

    The schedule facts of a session drive one machine per schedule: an occurrence
    is claimed under a lease, handled exactly at the next ordinal, or skipped in
    an ordered range; a schedule that is not active accepts only a replacement
    revision after a superseding cancellation. *)

From S2P Require Import Prelude Json LedgerTypes FactsPlan RuntimeFacts ProjectionTypes Projection ProjectionInvariant.

(** One step of the machine of a schedule. *)
Inductive schedule_step : option ScheduleRecord -> ScheduleRecord -> Prop :=
  | step_created rev digest :
      schedule_step None (mkScheduleRecord rev digest 0 None SchedActive)
  | step_replaced r rev digest :
      sr_state r = SchedSuperseding -> sr_revision_id r ≠ rev ->
      schedule_step (Some r) (mkScheduleRecord rev digest 0 None SchedActive)
  | step_claimed r c :
      sr_state r = SchedActive -> sr_pending_claim r = None ->
      sc_ordinal c = sr_last_handled_ordinal r + 1 ->
      schedule_step (Some r) (r <| sr_pending_claim := Some c |>)
  | step_reclaimed r c c' :
      sr_state r = SchedActive -> sr_pending_claim r = Some c ->
      sc_ordinal c' = sc_ordinal c -> sc_occurrence_id c' = sc_occurrence_id c ->
      sc_due_at_utc c' = sc_due_at_utc c -> sc_lease_epoch c < sc_lease_epoch c' ->
      schedule_step (Some r) (r <| sr_pending_claim := Some c' |>)
  | step_fired r c :
      sr_state r = SchedActive -> sr_pending_claim r = Some c ->
      sc_ordinal c = sr_last_handled_ordinal r + 1 ->
      schedule_step (Some r) (r <| sr_last_handled_ordinal ::= Z.add 1 |> <| sr_pending_claim := None |>)
  | step_skipped r n :
      sr_state r = SchedActive -> sr_pending_claim r = None -> sr_last_handled_ordinal r < n ->
      schedule_step (Some r) (r <| sr_last_handled_ordinal := n |>)
  | step_ended r st :
      sr_state r = SchedActive -> (sr_pending_claim r = None \/ st = SchedFailed) -> st ≠ SchedActive ->
      schedule_step (Some r) (r <| sr_pending_claim := None |> <| sr_state := st |>).

Section schedules.
Context `{Externals}.
Abbreviation State := SessionProjection (only parsing).

(** The pending claim of a schedule is the next occurrence of an active schedule. *)
Definition claim_next (s : State) : Prop := forall id r c,
  schedules s !! id = Some r -> sr_pending_claim r = Some c ->
  sr_state r = SchedActive /\ sc_ordinal c = sr_last_handled_ordinal r + 1.

Definition schedule_moves (s s' : State) : Prop :=
  schedules s' = schedules s \/
  exists id r, schedules s' = <[id := r]> (schedules s) /\ schedule_step (schedules s !! id) r.

(** A skipped range is ordered. *)
Definition ordered_range (f : FactDraft) : Prop := forall m first last,
  fact_payload f = Ok m -> unsigned m "first_ordinal" = Ok first -> unsigned m "last_ordinal" = Ok last ->
  first <= last.

Lemma unsigned_u64 (m : Map) k n : unsigned m k = Ok n -> u64_at m k = Some n.
Proof.
  unfold unsigned, u64_at. destruct (map_get k m) as [[| |[]| | |]|]; try done. by intros [= ->].
Qed.

Lemma skipped_schema m first last :
  schedule_skipped m = Ok tt -> unsigned m "first_ordinal" = Ok first -> unsigned m "last_ordinal" = Ok last ->
  first <= last.
Proof.
  intros Hs Hf%unsigned_u64 Hl%unsigned_u64. unfold schedule_skipped in Hs. rewrite Hf, Hl in Hs.
  repeat (match type of Hs with (match ?x with _ => _ end) = _ => destruct x eqn:? end; try done).
  by bool_hyps.
Qed.

(** The schema of [schedule.skipped] orders the range. *)
Lemma validated_range f d :
  kind f = "schedule.skipped" -> validate_runtime_fact f = Ok d -> d ≠ Opaque -> ordered_range f.
Proof.
  intros Hk Hv Hd. unfold validate_runtime_fact, effect_prepared_v2, effect_prepared_v3,
    effect_authorized_v2 in Hv. rewrite Hk in Hv.
  simpl in Hv. destruct (schema_version f =? 1); simpl in Hv; [|congruence].
  intros m first last Hm Hf Hl. unfold fact_payload in Hm. destruct (_ || _) in Hv; [done|].
  destruct (json_from_str _) as [v|]; [|done]. simpl in *. unfold fv_object in Hv.
  destruct (as_object v) as [m'|]; [|done]. injection Hm as <-. simpl in Hv.
  destruct (validate_payload f m') eqn:Ev; [|done]. unfold validate_payload in Ev. rewrite Hk in Ev. simpl in Ev.
  unfold effect_prepared_v2, effect_prepared_v3, effect_authorized_v2 in Ev. rewrite Hk in Ev. simpl in Ev.
  eapply skipped_schema; [|done..]. by destruct a.
Qed.

(** ** The handlers *)

Definition schedulewise (P : FactDraft -> Prop) (h : State -> FactDraft -> result Abort State) : Prop :=
  forall s f s', claim_next s -> P f -> h s f = Ok s' -> schedule_moves s s'.

Ltac run_schedule :=
  let Ha := fresh "Ha" in let Hc := fresh "Hc" in let Hp := fresh "Hp" in
  intros s f s' Hc Hp Ha; 
  cbv beta delta [create_schedule claim_schedule fire_schedule skip_schedule cancel_schedule fail_schedule
    exhaust_schedule schedule_mut] in Ha; cbv beta zeta in Ha; open_res Ha; open_all; clean_res; simplify_eq;
  right; eexists _, _; (split; [reflexivity|]);
  try match goal with E : schedules s !! ?i = Some _ |- schedule_step (schedules s !! ?i) _ => rewrite E end.

Lemma sched_create : schedulewise (fun _ => True) create_schedule.
Proof.
  run_schedule. destruct (schedules s !! _) as [r|]; [|constructor].
  simpl in *. bool_hyps. by constructor.
Qed.

Lemma sched_claim : schedulewise (fun _ => True) claim_schedule.
Proof.
  run_schedule. match goal with E : checked_add _ _ = Some _ |- _ => apply checked_u64_some in E as [<- _] end.
  destruct (sr_pending_claim _) as [c|] eqn:Ec; bool_hyps; subst.
  - by eapply (step_reclaimed _ c (mkScheduleClaim _ _ _ _)).
  - by apply (step_claimed _ (mkScheduleClaim _ _ _ _)).
Qed.

Lemma sched_fire : schedulewise (fun _ => True) fire_schedule.
Proof.
  run_schedule. destruct (sr_pending_claim _) as [c|] eqn:Ec; [|done]. simpl in *. bool_hyps. subst.
  match goal with Er : schedules s !! _ = Some _ |- _ => destruct (Hc _ _ _ Er Ec) as [Hst Hord] end.
  rewrite Hord, Z.add_comm. by eapply step_fired.
Qed.

Lemma sched_skip : schedulewise ordered_range skip_schedule.
Proof.
  run_schedule. match goal with E : checked_add _ _ = Some _ |- _ => apply checked_u64_some in E as [<- _] end.
  constructor; [done..|]. match goal with |- ?x < ?y => assert (x + 1 <= y); [by eapply Hp|lia] end.
Qed.

Lemma sched_cancel : schedulewise (fun _ => True) cancel_schedule.
Proof.
  run_schedule.
  match goal with Hn : sr_pending_claim ?r = None |- _ => destruct r; simpl in *; subst end.
  apply (step_ended (mkScheduleRecord _ _ _ None _)); [done|by left|by case_match].
Qed.

Lemma sched_exhaust : schedulewise (fun _ => True) exhaust_schedule.
Proof.
  run_schedule.
  match goal with Hn : sr_pending_claim ?r = None |- _ => destruct r; simpl in *; subst end.
  apply (step_ended (mkScheduleRecord _ _ _ None _)); [done|by left|done].
Qed.

Lemma sched_fail : schedulewise (fun _ => True) fail_schedule.
Proof. run_schedule; (constructor; [done|by right|done]). Qed.

(** Every other handler leaves the schedules alone. *)
Definition keeps_schedules (h : State -> FactDraft -> result Abort State) : Prop :=
  forall s f s', h s f = Ok s' -> schedules s' = schedules s.

Lemma keeps_schedules_tool next : keeps_schedules (fun s f => transition_tool s f next).
Proof.
  intros s f s' (tool & e & t & cur & s1 & m & _ & _ & _ & _ & _ & _ & _ & _ & Hb & Heq)%transition_tool_ok.
  rewrite Heq. simpl. by rewrite (effect_binding_frame _ _ _ _ _ _ Hb).
Qed.

Ltac schedules_framed :=
  let s := fresh in let f := fresh in let s' := fresh in let Ha := fresh in
  cbv beta delta [keeps_schedules close_session admit_turn_input admit_turn_steered request_cancel
    start_turn suspend_turn terminal_turn transition_turn
    start_execution start_iteration transition_execution plan_effect_batch decide_safety bind_sandbox
    preflight_sandbox prepare_model transition_model prepare_tool observe_tool reconcile_tool
    commit_artifact reject_tool_preparation request_interaction finish_interaction
    request_knowledge dispatch_knowledge terminal_knowledge request_delegation
    authorize_delegation deny_delegation start_delegation_child terminal_delegation_child
    observe_delegation]; intros s f s' Ha; cbv beta zeta in Ha; open_res Ha; open_all; subst;
  repeat case_match; reflexivity.

Definition schedule_handler (kv : string * (State -> FactDraft -> result Abort State)) : Prop :=
  keeps_schedules kv.2 \/ schedulewise (fun _ => True) kv.2 \/ kv = ("schedule.skipped", skip_schedule).

Lemma schedule_handlers : Forall schedule_handler handlers.
Proof.
  unfold handlers. repeat apply Forall_cons_2; [..|apply Forall_nil_2]; unfold schedule_handler; simpl.
  all: first [left; apply keeps_schedules_tool | left; solve [schedules_framed] | right].
  all: first [by right | left].
  all: first [apply sched_create | apply sched_claim | apply sched_fire | apply sched_cancel
    | apply sched_fail | apply sched_exhaust].
Qed.

Lemma moves_claim_next s s' : claim_next s -> schedule_moves s s' -> claim_next s'.
Proof.
  intros Hc [E|(i & r & E & Hs)] id r' c; rewrite E; [apply Hc|].
  intros [[<- <-]|[Hn Hl]]%lookup_insert_Some Hp; [|by eapply Hc].
  remember (schedules s !! i) as old eqn:Eold. destruct Hs; simpl in *; simplify_eq; try done.
  destruct (Hc i r c0) as [? ?]; [done..|]. split; [done|congruence].
Qed.

Lemma skip_claim_next : preserves claim_next skip_schedule.
Proof.
  intros s f s' Hc Ha. cbv beta delta [skip_schedule schedule_mut] in Ha. open_res Ha. open_all. clean_res. simplify_eq.
  intros id r c. simpl. intros [[<- <-]|[Hn Hl]]%lookup_insert_Some; simpl; [congruence|by eapply Hc].
Qed.

Lemma reachable_claim_next s : projection_reachable s -> claim_next s.
Proof.
  apply reachable_invariant; [by intros id r c Hl; simpl in Hl; rewrite lookup_empty in Hl|done|].
  apply apply_preserves; [done|]. eapply Forall_impl; [apply schedule_handlers|].
  intros kv [Hk|[Hk|Hk]] s0 f s' Hc Ha.
  - unfold claim_next. by rewrite (Hk _ _ _ Ha).
  - eapply moves_claim_next; [done|]. by eapply Hk.
  - subst kv. by eapply skip_claim_next.
Qed.

Lemma apply_schedule_moves s f s' :
  claim_next s -> projection_apply s f = Ok s' -> (kind f = "schedule.skipped" -> ordered_range f) ->
  schedule_moves s s'.
Proof.
  unfold projection_apply. intros Hc Ha Hr. destruct (lift _); [|done]. destruct (_ =? _)%string.
  - destruct (_ || _); [done|]. injection Ha as <-. by left.
  - destruct (_ || _); [done|]. destruct (assoc _ _) as [h|] eqn:Eh; [|injection Ha as <-; by left].
    apply assoc_elem in Eh. pose proof schedule_handlers as Hf. rewrite Forall_forall in Hf.
    destruct (Hf _ Eh) as [Hk|[Hk|Hk]].
    + left. by eapply Hk.
    + by eapply Hk.
    + injection Hk as Hk ->. eapply sched_skip; [done|by apply Hr|done].
Qed.
End schedules.
