(* ===== verification/DelegationFacts.v ===== *)
(** * Delegations of a session as an abstract machine

    A delegation is requested by an active execution, decided, started together
    with the suspension of its parent and the start of its child turn, ended with
    its child, and observed; its result is admitted as input once observed.  A
    parent turn has at most one delegation that is not settled. *)

From S2P Require Import Prelude Json LedgerTypes ProjectionTypes Projection ProjectionInvariant ProjectionSteps.

(** No delegation of the turn is still open. *)
Definition turn_settled (s : SessionProjection) (turn : string) : Prop :=
  forall id r, delegations s !! id = Some r -> dr_parent_turn r = turn -> delegation_settled (dr_state r) = true.

(** One step of the machine of a delegation, in the state it is applied to. *)
Inductive delegation_step (s : SessionProjection) : option DelegationRecord -> DelegationRecord -> Prop :=
  | del_requested turn execution intent :
      executions s !! execution = Some (turn, ExActive) -> turn_settled s turn ->
      delegation_step s None (mkDelegation turn execution intent None None None None None false DelRequested)
  | del_authorized r grant :
      dr_state r = DelRequested ->
      delegation_step s (Some r) (r <| dr_grant_id := Some grant |> <| dr_state := DelAuthorized |>)
  | del_denied r :
      dr_state r = DelRequested -> delegation_step s (Some r) (r <| dr_state := DelDenied |>)
  | del_started r suspension child :
      dr_state r = DelAuthorized -> dr_parent_turn r ∈ turns_suspended_in_commit s ->
      child ∈ turns_started_in_commit s -> suspensions s !! dr_parent_turn r = Some suspension ->
      delegation_step s (Some r) (r <| dr_suspension_id := Some suspension |> <| dr_child_turn := Some child |>
                                    <| dr_state := DelStarted |>)
  | del_ended r child result digest :
      dr_state r = DelStarted -> dr_child_turn r = Some child -> child ∈ turns_terminal_in_commit s ->
      delegation_step s (Some r) (r <| dr_result_id := Some result |> <| dr_result_digest := Some digest |>
                                    <| dr_state := DelTerminal |>)
  | del_observed r :
      dr_state r = DelTerminal -> delegation_step s (Some r) (r <| dr_state := DelObserved |>)
  | del_admitted r :
      dr_state r = DelObserved -> delegation_step s (Some r) (r <| dr_input_admitted := true |>).

Definition delegation_moves (s s' : SessionProjection) : Prop :=
  delegations s' = delegations s \/
  exists id r, delegations s' = <[id := r]> (delegations s) /\ delegation_step s (delegations s !! id) r.

(** The fields a delegation carries by its state. *)
Definition delegation_shape (r : DelegationRecord) : Prop :=
  (dr_state r ∈ [DelAuthorized; DelStarted; DelTerminal; DelObserved] -> is_Some (dr_grant_id r)) /\
  (dr_state r ∈ [DelStarted; DelTerminal; DelObserved] ->
     is_Some (dr_suspension_id r) /\ is_Some (dr_child_turn r)) /\
  (dr_state r ∈ [DelTerminal; DelObserved] -> is_Some (dr_result_id r) /\ is_Some (dr_result_digest r)) /\
  (dr_input_admitted r = true -> dr_state r = DelObserved).

Record delegation_inv (s : SessionProjection) : Prop := {
  dg_shape : forall id r, delegations s !! id = Some r -> delegation_shape r;
  dg_single : forall i j r r', delegations s !! i = Some r -> delegations s !! j = Some r' ->
    dr_parent_turn r = dr_parent_turn r' -> delegation_settled (dr_state r) = false ->
    delegation_settled (dr_state r') = false -> i = j;
  dg_parent : forall id r, delegations s !! id = Some r ->
    exists st, executions s !! dr_parent_execution r = Some (dr_parent_turn r, st);
  dg_child : forall id r t, delegations s !! id = Some r -> dr_child_turn r = Some t -> is_Some (turns s !! t);
  dg_started : forall t, t ∈ turns_started_in_commit s -> is_Some (turns s !! t);
}.

Section delegations.
Context `{Externals}.
Abbreviation State := SessionProjection (only parsing).

(** ** The handlers *)

Definition delegationwise (h : State -> FactDraft -> result Abort State) : Prop :=
  forall s f s', h s f = Ok s' -> delegation_moves s s'.

Ltac run_delegation :=
  let Ha := fresh "Ha" in
  intros s f s' Ha;
  cbv beta delta [request_delegation authorize_delegation deny_delegation start_delegation_child
    terminal_delegation_child observe_delegation delegation_record admit_turn_input] in Ha;
  cbv beta zeta in Ha; open_res Ha; open_all; clean_res; simplify_eq; unfold differs in *; bool_hyps.

(** Reads the record the handler updated. *)
Ltac updates := right; eexists _, _; split; [reflexivity|];
  match goal with E : delegations ?s !! ?i = Some _ |- delegation_step _ (delegations ?s !! ?i) _ => rewrite E end.

Lemma del_request : delegationwise request_delegation.
Proof.
  run_delegation. match goal with E : require_active_execution _ _ = Ok _ |- _ =>
    apply active_execution in E as (e & t & ? & ? & ?) end. simplify_eq.
  right. eexists _, _. split; [reflexivity|].
  match goal with E : delegations s !! _ = None |- _ => rewrite E end. constructor; [done|].
  intros i r Hr Hp. match goal with E : forall k x, delegations s !! k = Some x -> _ |- _ => specialize (E i r Hr) end.
  simpl in *. rewrite Hp, String.eqb_refl in *. simpl in *. by bool_hyps.
Qed.

Lemma del_authorize : delegationwise authorize_delegation.
Proof. run_delegation. updates. by constructor. Qed.

Lemma del_deny : delegationwise deny_delegation.
Proof. run_delegation. updates. by constructor. Qed.

Lemma del_start_child : delegationwise start_delegation_child.
Proof. run_delegation. updates. by constructor. Qed.

Lemma del_terminal_child : delegationwise terminal_delegation_child.
Proof. run_delegation. updates. by econstructor. Qed.

Lemma del_observe : delegationwise observe_delegation.
Proof. run_delegation. updates. by constructor. Qed.

Lemma del_admit_input : delegationwise admit_turn_input.
Proof.
  run_delegation; try (by left).
  match goal with E : List.find _ _ = Some _ |- _ => apply List.find_some in E as [Hin Hb] end.
  apply list_elem_of_In, elem_of_entries in Hin. simpl in Hb. bool_hyps. updates. by constructor.
Qed.

(** Every other handler leaves the delegations alone; only [turn.started] adds a
    turn to the ones started in the commit, and opens it. *)
Definition keeps_delegations (h : State -> FactDraft -> result Abort State) : Prop :=
  forall s f s', h s f = Ok s' -> delegations s' = delegations s.
Definition starts_known (h : State -> FactDraft -> result Abort State) : Prop :=
  forall s f s', h s f = Ok s' ->
    turns_started_in_commit s' = turns_started_in_commit s \/
    exists t, turns_started_in_commit s' = {[t]} ∪ turns_started_in_commit s /\ is_Some (turns s' !! t).

Ltac delegation_framed :=
  let s := fresh in let f := fresh in let s' := fresh in let Ha := fresh in
  cbv beta delta [keeps_delegations starts_known close_session admit_turn_input admit_turn_steered request_cancel
    start_turn suspend_turn terminal_turn transition_turn
    start_execution start_iteration transition_execution plan_effect_batch decide_safety bind_sandbox
    preflight_sandbox prepare_model transition_model prepare_tool observe_tool reconcile_tool
    commit_artifact reject_tool_preparation request_interaction finish_interaction
    request_knowledge dispatch_knowledge terminal_knowledge create_schedule claim_schedule fire_schedule
    skip_schedule cancel_schedule fail_schedule exhaust_schedule request_delegation
    authorize_delegation deny_delegation start_delegation_child terminal_delegation_child
    observe_delegation]; intros s f s' Ha; cbv beta zeta in Ha; open_res Ha; open_all; subst;
  try left; repeat case_match; reflexivity.

Lemma keeps_delegations_tool next : keeps_delegations (fun s f => transition_tool s f next).
Proof.
  intros s f s' (tool & e & t & cur & s1 & m & _ & _ & _ & _ & _ & _ & _ & _ & Hb & Heq)%transition_tool_ok.
  rewrite Heq. simpl. by rewrite (effect_binding_frame _ _ _ _ _ _ Hb).
Qed.

Lemma starts_known_tool next : starts_known (fun s f => transition_tool s f next).
Proof.
  intros s f s' (tool & e & t & cur & s1 & m & _ & _ & _ & _ & _ & _ & _ & _ & Hb & Heq)%transition_tool_ok.
  left. rewrite Heq. simpl. by rewrite (effect_binding_frame _ _ _ _ _ _ Hb).
Qed.

Lemma starts_known_turn : starts_known start_turn.
Proof.
  intros s f s' Ha. unfold start_turn in Ha. cbv zeta in Ha. open_res Ha; open_all; subst; simpl;
    first [by left | right; eexists; split; [done|]; rewrite lookup_insert_eq; eauto].
Qed.

Lemma delegation_handlers : Forall (fun kv => delegationwise kv.2 /\ starts_known kv.2) handlers.
Proof.
  unfold handlers. repeat apply Forall_cons_2; [..|apply Forall_nil_2]; split; simpl.
  all: first [apply del_request | apply del_authorize | apply del_deny | apply del_start_child
    | apply del_terminal_child | apply del_observe | apply del_admit_input | apply starts_known_tool
    | apply starts_known_turn | intros s f s' Ha; left; revert s f s' Ha; apply keeps_delegations_tool | idtac].
  all: try solve [delegation_framed].
  all: try (intros s f s' Ha; left; revert s f s' Ha; solve [delegation_framed]).
Qed.

Lemma apply_delegation_moves s f s' : projection_apply s f = Ok s' ->
  delegation_moves s s' /\
  (turns_started_in_commit s' = turns_started_in_commit s \/
   exists t, turns_started_in_commit s' = {[t]} ∪ turns_started_in_commit s /\ is_Some (turns s' !! t)).
Proof.
  unfold projection_apply. intros Ha. destruct (lift _); [|done]. destruct (_ =? _)%string.
  - destruct (_ || _); [done|]. injection Ha as <-. split; by left.
  - destruct (_ || _); [done|]. destruct (assoc _ _) as [h|] eqn:Eh; [|injection Ha as <-; split; by left].
    apply assoc_elem in Eh. pose proof delegation_handlers as Hf. rewrite Forall_forall in Hf.
    destruct (Hf _ Eh) as [Hd Hs]. split; [by eapply Hd|by eapply Hs].
Qed.

(** ** The invariant *)

Lemma step_shape s old r :
  delegation_step s old r -> (forall r0, old = Some r0 -> delegation_shape r0) -> delegation_shape r.
Proof.
  intros Hs Hold. unfold delegation_shape in *.
  destruct Hs; try (destruct (Hold _ eq_refl) as (Hg & Hc & Hr & Ha)); simpl in *.
  all: repeat match goal with Hst : dr_state ?r = _ |- _ => rewrite Hst in * end.
  all: split_and!; try set_solver.
  all: intros; try (split; eauto; fail); eauto; try done.
Qed.

(** A delegation that is open after a step is new on a settled turn, or was open. *)
Lemma step_open s old r :
  delegation_step s old r -> delegation_settled (dr_state r) = false ->
  (old = None /\ turn_settled s (dr_parent_turn r)) \/
  exists r0, old = Some r0 /\ delegation_settled (dr_state r0) = false /\ dr_parent_turn r0 = dr_parent_turn r.
Proof.
  intros Hs Ho. destruct Hs; simpl in *; try done; [by left|right..];
    try (eexists; split_and!; [done| |done]; match goal with E : dr_state _ = _ |- _ => by rewrite E end).
  match goal with E : dr_state _ = DelObserved |- _ => by rewrite E in Ho end.
Qed.

Lemma step_single s id r j x :
  delegation_inv s -> delegation_step s (delegations s !! id) r -> delegation_settled (dr_state r) = false ->
  delegations s !! j = Some x -> dr_parent_turn x = dr_parent_turn r ->
  delegation_settled (dr_state x) = false -> j = id.
Proof.
  intros Hi Hs Ho Hx Hp Hox. destruct (step_open _ _ _ Hs Ho) as [[_ Hset]|(r0 & Hr0 & Ho0 & Hp0)].
  - specialize (Hset j x Hx Hp). congruence.
  - eapply (dg_single s Hi j id x r0); eauto. congruence.
Qed.

Lemma turns_persist s s' t : lifecycle_step s s' -> is_Some (turns s !! t) -> is_Some (turns s' !! t).
Proof.
  intros [[->|(k & a & -> & _)] _ _ _] Ht; [done|]. rewrite lookup_insert_is_Some'. auto.
Qed.

Lemma delegation_inv_step s s' :
  delegation_inv s -> lifecycle_step s s' -> delegation_moves s s' ->
  (turns_started_in_commit s' = turns_started_in_commit s \/
   exists t, turns_started_in_commit s' = {[t]} ∪ turns_started_in_commit s /\ is_Some (turns s' !! t)) ->
  delegation_inv s'.
Proof.
  intros Hi Hl Hm Hstart. pose proof Hi as [Hsh Hsi Hpa Hch Hst].
  assert (Hkeep : forall r, (exists st, executions s !! dr_parent_execution r = Some (dr_parent_turn r, st)) ->
    exists st, executions s' !! dr_parent_execution r = Some (dr_parent_turn r, st)).
  { intros r [st Hex]. by eapply moves_owner; [apply (ls_executions _ _ Hl)|]. }
  assert (Hstarted : forall t, t ∈ turns_started_in_commit s' -> is_Some (turns s' !! t)).
  { intros t. destruct Hstart as [->|(u & -> & Hu)]; [eauto using turns_persist|].
    intros [->%elem_of_singleton|Ht]%elem_of_union; eauto using turns_persist. }
  destruct Hm as [E|(id & r & E & Hs)].
  - constructor; rewrite ?E; eauto using turns_persist.
  - assert (Hr : forall i x, <[id := r]> (delegations s) !! i = Some x ->
      (i = id /\ x = r) \/ (i ≠ id /\ delegations s !! i = Some x)).
    { intros i x [[<- <-]|[Hn Hx]]%lookup_insert_Some; auto. }
    constructor; rewrite ?E; [| | | |done].
    + intros i x [[-> ->]|[Hn Hx]]%Hr; [|eauto]. eapply step_shape; [done|]. intros r0 Hr0. eauto.
    + intros i j x y [[-> ->]|[Hn Hx]]%Hr [[-> ->]|[Hn' Hy]]%Hr Hp Hox Hoy; [done| | |by eapply Hsi].
      * symmetry. by eapply (step_single s id r j y).
      * by eapply (step_single s id r i x).
    + intros i x [[-> ->]|[Hn Hx]]%Hr; [|eauto]. apply Hkeep.
      remember (delegations s !! id) as old eqn:Eo. destruct Hs; simpl; eauto.
    + intros i x t [[-> ->]|[Hn Hx]]%Hr Ht; [|eauto using turns_persist].
      remember (delegations s !! id) as old eqn:Eo. destruct Hs; simpl in *; simplify_eq;
        eauto using turns_persist.
Qed.

Lemma reachable_delegations s : projection_reachable s -> delegation_inv s.
Proof.
  apply reachable_invariant.
  - constructor; simpl; intros *; try (by rewrite lookup_empty); set_solver.
  - intros s0 [Hsh Hsi Hpa Hch Hst]. constructor; simpl; auto. set_solver.
  - intros s0 f s' Hi Ha. destruct (apply_delegation_moves _ _ _ Ha) as [Hm Hst].
    eapply delegation_inv_step; eauto using apply_steps.
Qed.
End delegations.
