(* ===== verification/LedgerSamples.v ===== *)
(** * Sample histories

    Concrete ledgers, built by committing well-formed fact drafts against the
    model reader and digest of [JsonDecode]; the witnesses of the ledger and
    session theorems evaluate on them. *)

From S2P Require Import Prelude Json JsonDecode LedgerTypes RuntimeFacts ProjectionTypes Projection LedgerState LedgerTheorems.

Module LedgerSample.
#[local] Existing Instance model_externals.

Definition obj (m : list (string * Value)) : Value := Obj (merge_sort key_le m).
Definition strs (m : list (string * string)) : list (string * Value) :=
  (fun kv => (kv.1, Str kv.2)) <$> m.
Definition num (k : string) (n : Z) : string * Value := (k, Num (PosInt n)).
Definition digest (s : string) : string := sha256_hex s.
Definition text_of (v : Value) : string := match encode v with Ok s => s | Err _ => "" end.
(** A content binding with its text inline. *)
Definition inline (k : string) (v : Value) : string * Value :=
  (k, obj (strs [("digest", digest (text_of v)); ("inline_utf8", text_of v)])).

Definition draft (id : string) (turn execution model tool : option string) (kind : string) (version : Z)
    (m : list (string * Value)) : FactDraft :=
  mkFactDraft id turn execution model tool kind version
    (mkPayload (text_of (obj m)) (digest (text_of (obj m)))) "1".

(** The same draft, reconstructed by a retry at another time. *)
Definition recorded_again (d : FactDraft) : FactDraft :=
  mkFactDraft (fact_id d) (turn_id d) (execution_id d) (model_request_id d) (tool_invocation_id d) (kind d)
    (schema_version d) (payload d) "9".

Definition usage0 (k : string) : string * Value :=
  (k, obj [("input_tokens", obj (strs [("kind", "unknown")]));
           ("output_tokens", obj (strs [("kind", "unknown")]));
           ("source", Str "estimated")]).

(** ** Facts of a session with one turn *)

Definition opened_fact (n : string) : FactDraft :=
  draft ("open" +:+ n) None None None None "session.opened" 1 [].
Definition closed_fact (n : string) : FactDraft :=
  draft ("close" +:+ n) None None None None "session.closed" 1 [].

Definition turn_fact (id kind : string) (m : list (string * Value)) : FactDraft :=
  draft id (Some "t") None None None kind 1 m.
Definition execution_fact (id kind : string) (m : list (string * Value)) : FactDraft :=
  draft id (Some "t") (Some "e") None None kind 1 m.
Definition tool_fact (id tool kind : string) (version : Z) (m : list (string * Value)) : FactDraft :=
  draft id (Some "t") (Some "e") None (Some tool) kind version m.

Definition turn_started_fact : FactDraft := turn_fact "f1" "turn.started"
  (strs [("command_id", "c"); ("kind", "start"); ("agent_instance_id", "a"); ("definition_id", "d");
         ("definition_revision", "r"); ("snapshot_digest", digest "s"); ("trusted_input_digest", digest "i")]).

Definition execution_started_fact : FactDraft := execution_fact "f2" "execution.started"
  [("snapshot_digest", Str (digest "s")); num "through_position" 0; num "completed_iterations" 0;
   num "recovery_ordinal" 0; ("limits", obj [num "max_iterations" 5])].

(** ** A governed effect *)

Definition prepared_v3 : FactDraft := tool_fact "f3" "g" "effect.prepared" 3
  (strs [("prepared_digest", digest "p"); ("tool_name", "write"); ("tool_revision", "1");
         ("replay_class", "never_replay"); ("model_call_id", "call"); ("access_policy_revision", "1");
         ("access_resolver_revision", "1"); ("sandbox_requirements_digest", digest "null")]
   ++ [num "prepared_contract_version" 3; num "max_result_bytes" 10; inline "arguments" Null;
       inline "invocation_accesses" Null; inline "sandbox_requirements" Null]).

Definition decided (disposition : string) (extra : list (string * string)) : FactDraft :=
  tool_fact "f4" "g" "safety.decided" 1
  (strs ([("request_id", "q"); ("decision_id", "d"); ("disposition", disposition); ("prepared_digest", digest "p");
         ("tool_name", "write"); ("tool_revision", "1"); ("actor_authority_reference", "u");
         ("exact_access_digest", digest "null"); ("sandbox_requirements_digest", digest "null");
         ("policy_revision", "pol")] ++ extra)).

Definition authorized_v2 : FactDraft := tool_fact "f5" "g" "effect.authorized" 2
  (strs [("prepared_digest", digest "p"); ("grant_id", "grant"); ("authority_revision", "pol");
         ("constraints_digest", digest "k")]
   ++ [num "prepared_contract_version" 3; inline "granted_requirements" Null]).

Definition bound : FactDraft := tool_fact "f6" "g" "sandbox.bound" 1
  (strs [("binding_id", "b"); ("decision_id", "d"); ("prepared_digest", digest "p");
         ("workspace_capability_id", "w"); ("executor_id", "x"); ("executor_revision", "1");
         ("policy_revision", "pol"); ("access_scope_digest", digest "1"); ("enforcement_digest", digest "2");
         ("effective_limits_digest", digest "3")]).

Definition preflighted : FactDraft := tool_fact "f7" "g" "sandbox.preflighted" 1
  (strs [("preflight_id", "pre"); ("binding_id", "b"); ("decision_id", "d"); ("prepared_digest", digest "p");
         ("grant_id", "grant"); ("executor_id", "x"); ("executor_revision", "1"); ("dispatch_attempt_id", "1")]).

Definition started (id tool prepared : string) : FactDraft := tool_fact id tool "effect.started" 1
  (strs [("prepared_digest", prepared); ("grant_id", "grant"); ("executor_id", "x");
         ("executor_revision", "1"); ("dispatch_attempt_id", "1")]).

(** ** A batch of two reads *)

Definition prepared_v2 (id tool prepared : string) : FactDraft := tool_fact id tool "effect.prepared" 2
  (strs [("prepared_digest", prepared); ("tool_name", "read"); ("tool_revision", "1");
         ("replay_class", "read_only"); ("model_call_id", tool); ("access_policy_revision", "1");
         ("access_resolver_revision", "1")]
   ++ [num "prepared_contract_version" 2; num "max_result_bytes" 10; inline "invocation_accesses" Null]).

Definition authorized (id tool prepared : string) : FactDraft := tool_fact id tool "effect.authorized" 1
  (strs [("prepared_digest", prepared); ("grant_id", "grant"); ("authority_revision", "pol")]
   ++ [inline "granted_requirements" Null]).

Definition planned : FactDraft := execution_fact "f12" "execution.effect_batch_planned"
  [("plan_digest", Str (digest "plan")); ("conflict_graph_digest", Str (digest "graph"));
   inline "ordered_prepared_digests" (Arr [Str (digest "h"); Str (digest "ii")]);
   inline "steps" (Arr [obj [("kind", Str "parallel_read_group");
                             ("intent_indexes", Arr [Num (PosInt 0); Num (PosInt 1)])]]);
   num "max_parallel_reads" 2; num "max_buffered_result_bytes" 20].

(** ** Stopping and closing *)

Definition execution_stopped_fact : FactDraft := execution_fact "f20" "execution.stopped"
  [("reason", Str "cancelled"); num "completed_iterations" 0; usage0 "usage"].
Definition turn_stopped_fact : FactDraft := turn_fact "f21" "turn.stopped"
  [("execution_id", Str "e"); ("reason", Str "cancelled"); usage0 "cumulative_usage"].

(** ** A schedule *)

Definition schedule_fact (id kind : string) (m : list (string * Value)) : FactDraft :=
  draft id None None None None kind 1 (strs [("schedule_id", "s"); ("revision_id", "r")] ++ m).

Definition created_fact : FactDraft := schedule_fact "f30" "schedule.created"
  [("command_id", Str "c"); inline "intent" Null; ("intent_digest", Str (digest "null"))].
Definition skipped_fact : FactDraft := schedule_fact "f31" "schedule.skipped"
  [num "first_ordinal" 1; num "last_ordinal" 3; ("first_due_at_utc", Str "1"); ("last_due_at_utc", Str "3");
   ("observed_at_utc", Str "4")].
Definition claimed_fact : FactDraft := schedule_fact "f32" "schedule.claimed"
  [("occurrence_id", Str "o4"); num "ordinal" 4; ("due_at_utc", Str "4"); ("lease_id", Str "l");
   num "lease_epoch" 1; num "through_position" 2].
Definition fired_fact : FactDraft := schedule_fact "f33" "schedule.fired"
  [("occurrence_id", Str "o4"); num "ordinal" 4; ("runtime_command_id", Str "c"); ("disposition", Str "committed");
   num "committed_position" 3].

(** ** A delegation *)

Definition delegation_requested_fact : FactDraft := execution_fact "f50" "delegation.requested"
  [("delegation_id", Str "del"); ("parent_agent_instance_id", Str "a"); inline "intent" Null;
   ("intent_digest", Str (digest "null")); num "through_position" 3].

(** ** Ledgers *)

(** Commits the batches in order, from the version the session is at. *)
Fixpoint commits (sid : string) (v : Z) (batches : list (list FactDraft)) (L : LedgerState)
    : result Abort (LedgerState * CommitResult) :=
  match batches with
  | [] => Err EmptyBatch
  | [b] => commit L sid v b
  | b :: batches => let? (L, _) := commit L sid v b in commits sid (v + 1) batches L
  end.

Definition after (sid : string) (batches : list (list FactDraft)) : LedgerState :=
  match commits sid 0 batches ledger_default with Ok (L, _) => L | Err _ => ledger_default end.

Lemma commits_reachable sid batches v L r :
  ledger_reachable L -> forall L', commits sid v batches L = Ok (L', r) -> ledger_reachable L'.
Proof.
  revert v L. induction batches as [|b [|b' batches] IH]; intros v L HL L' Hc; [done| |].
  - by eapply ledger_commit.
  - change (commits sid v (b :: b' :: batches) L) with
      (let? (L, _) := commit L sid v b in commits sid (v + 1) (b' :: batches) L) in Hc.
    destruct (commit L sid v b) as [[L1 r1]|] eqn:E; [|done]. eapply IH; [|done]. by eapply ledger_commit.
Qed.

Lemma after_reachable sid batches : ledger_reachable (after sid batches).
Proof.
  unfold after. destruct (commits _ _ _ _) as [[L r]|] eqn:E; [|constructor].
  eapply commits_reachable; [constructor|done].
Qed.

Definition opening : list (list FactDraft) :=
  [[opened_fact "1"]; [turn_started_fact; execution_started_fact]].
Definition governed_history : list (list FactDraft) := opening ++
  [[prepared_v3; decided "allow" [("constraints_digest", digest "k")]];
   [authorized_v2; bound; preflighted]; [started "f8" "g" (digest "p")]].
Definition batch_history : list (list FactDraft) := opening ++
  [[prepared_v2 "f8" "h" (digest "h"); prepared_v2 "f9" "i" (digest "ii")];
   [authorized "f10" "h" (digest "h"); authorized "f11" "i" (digest "ii")];
   [planned; started "f13" "h" (digest "h")]].
Definition stopped_history : list (list FactDraft) := opening ++ [[execution_stopped_fact; turn_stopped_fact]].
Definition closed_history : list (list FactDraft) := stopped_history ++ [[closed_fact "1"]].
Definition schedule_history : list (list FactDraft) :=
  [[opened_fact "1"]; [created_fact]; [skipped_fact; claimed_fact]].

(** A fact of a schema version the ledger does not know. *)
Definition prepared_v4 : FactDraft := tool_fact "f40" "z" "effect.prepared" 4
  (strs [("prepared_digest", digest "p"); ("tool_name", "write"); ("tool_revision", "9")]).
End LedgerSample.
