(* ===== verification/SessionTheorems.v ===== *)
(** * Theorems about the sessions of a ledger

    What holds of the projection of every session of every ledger reached by
    commits: consistent lifecycles, governed and ordered effects, schedule
    occurrences in order, final states and closed sessions; with the witnesses of
    these and of the ledger theorems on the histories of [LedgerSamples]. *)

From S2P Require Import Prelude Json JsonDecode LedgerTypes FactsPlan RuntimeFacts ProjectionTypes Projection LedgerState LedgerTheorems ProjectionInvariant ProjectionSteps Governance ScheduleFacts DelegationFacts LedgerSamples.

Section sessions.
Context `{Externals}.
Abbreviation State := SessionProjection (only parsing).

(** ** From ledgers to projections *)

Lemma fold_apply_reachable ds s s' :
  projection_reachable s -> try_fold projection_apply s ds = Ok s' -> projection_reachable s'.
Proof.
  revert s. induction ds as [|d ds IH]; intros s Hs Hf; simpl in Hf; [by injection Hf as <-|].
  destruct (projection_apply s d) eqn:E; [|done]. eapply IH; [|done]. by eapply proj_apply.
Qed.

Lemma replay_reachable batches s s' :
  projection_reachable s -> try_fold replay_batch s batches = Ok s' -> projection_reachable s'.
Proof.
  revert s. induction batches as [|b batches IH]; intros s Hs Hf; simpl in Hf; [by injection Hf as <-|].
  destruct (replay_batch s b) as [s1|] eqn:E; [|done]. eapply IH; [|done].
  unfold replay_batch in E. destruct (try_fold _ _ b) eqn:Eb; [|done].
  destruct (validate_commit_boundary _); [|done]. injection E as <-.
  eapply fold_apply_reachable; [by apply proj_begin|done].
Qed.

Lemma session_reachable L sid S :
  ledger_reachable L -> sessions L !! sid = Some S -> projection_reachable (projection S).
Proof.
  intros Hr%ledger_reachable_wf HS. destruct (lw_sessions L Hr sid S HS) as [[_ _ _ (bs & _ & _ & _ & Hre)] _].
  eapply replay_reachable; [constructor|done].
Qed.

Lemma replay_history bs : forall ds s s', history ds s -> try_fold replay_batch s bs = Ok s' -> history (ds ++ concat bs) s'.
Proof.
  assert (Hone : forall b ds s s', history ds s -> try_fold projection_apply s b = Ok s' -> history (ds ++ b) s').
  { induction b as [|d b IH]; intros ds s s' Hh Hf; cbn in Hf; [injection Hf as <-; by rewrite app_nil_r|].
    destruct (projection_apply s d) as [s1|] eqn:E; [|done]. rewrite cons_middle, app_assoc. eapply IH; [|done].
    by eapply history_apply. }
  induction bs as [|b bs IH]; intros ds s s' Hh Hf; cbn in Hf; [injection Hf as <-; by rewrite app_nil_r|].
  unfold replay_batch in Hf at 1. destruct (try_fold projection_apply (begin_commit s) b) as [s1|] eqn:E; [|done].
  destruct (validate_commit_boundary s1); [|done]. cbn [concat]. rewrite app_assoc. eapply IH; [|done].
  eapply Hone; [|done]. by apply history_begin.
Qed.

(** The projection of a session is that of its stored facts. *)
Lemma session_history L sid S : ledger_reachable L -> sessions L !! sid = Some S ->
  exists ds, facts S = durable sid 1 ds /\ history ds (projection S).
Proof.
  intros Hr%ledger_reachable_wf HS. destruct (lw_sessions L Hr sid S HS) as [[_ _ _ (bs & _ & _ & Hf & Hre)] _].
  exists (concat bs). split; [done|]. by apply (replay_history bs [] projection_default); [constructor|].
Qed.

(** The durable fact starts the effect. *)
Definition starts_effect (tool : string) (f : DurableFact) : Prop :=
  df_kind f = "effect.started" /\ df_tool_invocation_id f = Some tool.

Lemma durable_of_draft sid : forall p ds d, d ∈ ds -> exists q, DurableFact_from sid q d ∈ durable sid p ds.
Proof.
  intros p ds. revert p. induction ds as [|d0 ds IH]; intros p d; [set_solver|]. cbn.
  intros [->|Hin]%elem_of_cons; [exists p; set_solver|]. destruct (IH (p + 1) d Hin) as [q Hq]. exists q. set_solver.
Qed.

Lemma fact_payload_ok d m : fact_payload d = Ok m -> json_from_str (payload_json (payload d)) = Some (Obj m).
Proof. unfold fact_payload. destruct (json_from_str _) as [[]|]; try done. by intros [= ->]. Qed.

(** A relation on projections that commit boundaries and facts respect holds
    between the projections before and after a commit. *)
Lemma commit_projection (R : State -> State -> Prop) L sid v ds L' r :
  ledger_reachable L -> commit L sid v ds = Ok (L', r) ->
  (forall s, R s (begin_commit s)) ->
  (forall s d s', projection_reachable s -> d ∈ ds -> (exists x, validate_runtime_fact d = Ok x) ->
     projection_apply s d = Ok s' -> R s s') ->
  rtc R (projection (session_of L sid)) (projection (session_of L' sid)).
Proof.
  intros Hr (Hne & Hacc & Hnd & Hc)%commit_inv Hb Ha. destruct Hc as [S HS _|p next' _ _ _ Happ _ _]; [done|].
  pose proof (app_projection _ _ _ _ _ _ Happ) as Hf.
  unfold session_of at 2. simpl. rewrite lookup_insert_eq. simpl.
  eapply rtc_l; [apply Hb|]. simpl in Hf.
  assert (Hs : projection_reachable (begin_commit (projection (session_of L sid)))).
  { apply proj_begin. unfold session_of. destruct (sessions L !! sid) as [S|] eqn:HS; [|constructor].
    by eapply session_reachable. }
  clear -Hf Hs Ha Hacc. revert Hs Hf. generalize (begin_commit (projection (session_of L sid))).
  assert (Hsub : forall d, d ∈ ds -> exists x, validate_runtime_fact d = Ok x).
  { intros d Hd. rewrite Forall_forall in Hacc. by destruct (Hacc d Hd) as (_ & ? & _). }
  clear Hacc. induction ds as [|d ds IH]; intros s Hs Hf; simpl in Hf; [injection Hf as <-; constructor|].
  destruct (projection_apply s d) as [s1|] eqn:E; [|done].
  eapply rtc_l; [eapply Ha; [done| |apply Hsub|done]; set_solver|].
  apply IH; [|set_solver|by eapply proj_apply|done]. intros s0 d0 s0' Hs0 Hd0. apply Ha; [done|set_solver].
Qed.

(** Two commits of one session relate its projections transitively. *)
Lemma commits_projection (R : State -> State -> Prop) L L' sid :
  ledger_reachable L -> commits_to L L' -> (forall s, R s (begin_commit s)) ->
  (forall s d s', projection_reachable s -> projection_apply s d = Ok s' -> R s s') ->
  rtc R (projection (session_of L sid)) (projection (session_of L' sid)).
Proof.
  intros Hr Hto Hb Ha. induction Hto as [|L L1 L' (sid' & v & ds & r & Hc) _ IH]; [done|].
  etrans; [|by apply IH; eapply ledger_commit].
  destruct (decide (sid' = sid)) as [->|Hn].
  - eapply commit_projection; [done..|]. intros s d s' Hs _ _. by apply Ha.
  - apply commit_inv in Hc as (_ & _ & _ & Hc). destruct Hc; [done|].
    unfold session_of at 2. simpl. rewrite lookup_insert_ne by done. done.
Qed.

Lemma begin_steps s : lifecycle_step s (begin_commit s).
Proof. by apply step_frame. Qed.

Lemma rtc_keeps {A} (R : relation A) (P : A -> Prop) x y :
  (forall a b, R a b -> P a -> P b) -> rtc R x y -> P x -> P y.
Proof. intros HR. induction 1; eauto. Qed.

(** Every stored projection passed its commit boundary. *)
Lemma replay_boundary batches s s' :
  validate_commit_boundary s = Ok tt -> try_fold replay_batch s batches = Ok s' ->
  validate_commit_boundary s' = Ok tt.
Proof.
  revert s. induction batches as [|b batches IH]; intros s Hs Hf; simpl in Hf; [by injection Hf as <-|].
  destruct (replay_batch s b) as [s1|] eqn:E; [|done]. eapply IH; [|done].
  unfold replay_batch in E. destruct (try_fold _ _ b) as [s2|]; [|done].
  destruct (validate_commit_boundary s2) as [[]|] eqn:Eb; [|done]. by injection E as <-.
Qed.

Lemma session_boundary L sid :
  ledger_reachable L -> validate_commit_boundary (projection (session_of L sid)) = Ok tt.
Proof.
  intros Hr%ledger_reachable_wf. unfold session_of. destruct (sessions L !! sid) as [S|] eqn:HS; [|by vm_compute].
  destruct (lw_sessions L Hr sid S HS) as [[_ _ _ (bs & _ & _ & _ & Hre)] _]. apply (replay_boundary bs projection_default); [by vm_compute|done].
Qed.

Lemma boundary_replaced s id r :
  validate_commit_boundary s = Ok tt -> schedules s !! id = Some r -> sr_state r ≠ SchedSuperseding.
Proof.
  unfold validate_commit_boundary. intros Hb Hr Hs. destruct (_ || _) eqn:E; [done|]. bool_hyps.
  match goal with E : any_value _ (schedules s) = false |- _ => rewrite any_value_false in E; specialize (E _ _ Hr) end.
  by bool_hyps.
Qed.

(** ** The theorems *)

(** C33: In every session: an active execution belongs to an open turn; a started or received
    model request or effect and a pending knowledge request belong to an active execution; a
    pending interaction belongs to an active or suspended execution of an open or suspended turn;
    a suspended turn has a suspension id. *)
Theorem session_lifecycle_consistent L sid S :
  ledger_reachable L -> sessions L !! sid = Some S -> let s := projection S in
  (forall e t, executions s !! e = Some (t, ExActive) -> turns s !! t = Some TurnOpen) /\
  (forall m e st, models s !! m = Some (e, st) -> inv_pending st = true ->
     exists t, executions s !! e = Some (t, ExActive)) /\
  (forall i e st, tools s !! i = Some (e, st) -> inv_pending st = true ->
     exists t, executions s !! e = Some (t, ExActive)) /\
  (forall k r, knowledge s !! k = Some r -> kr_terminal r = false ->
     exists t, executions s !! kr_execution r = Some (t, ExActive)) /\
  (forall i r, interactions s !! i = Some r -> ir_terminal r = false ->
     exists t es ts, executions s !! ir_execution r = Some (t, es) /\ turns s !! t = Some ts /\
       es ∈ [ExActive; ExSuspended] /\ ts ∈ [TurnOpen; TurnSuspended]) /\
  (forall t, turns s !! t = Some TurnSuspended -> is_Some (suspensions s !! t)).
Proof.
  intros Hr HS s. destruct (reachable_core s (session_reachable _ _ _ Hr HS)) as [He Hm Ht Hi Hk Hs].
  split_and!; [| | |done| |done].
  - intros e t Hl. destruct (He _ _ _ Hl) as (ts & Hts & Hop). by rewrite Hts, Hop.
  - intros m e st Hl Hp. destruct (Hm _ _ _ Hl) as (t & es & Hex & Ha). rewrite Ha in Hex by done. eauto.
  - intros m e st Hl Hp. destruct (Ht _ _ _ Hl) as (t & es & Hex & Ha). rewrite Ha in Hex by done. eauto.
  - intros i r Hl Hn. destruct (Hi _ _ Hl Hn) as (t & es & ts & ? & ? & ? & ?). exists t, es, ts.
    split_and!; [done..| |]; set_solver.
Qed.

(** C34: Every commit moves the turns, executions, model requests and effects of a session along
    the edges of four abstract machines, one key at a time, and never changes which execution owns
    an invocation or which turn owns an execution. *)
Theorem session_commit_refines_lifecycles L sid v ds L' r :
  ledger_reachable L -> commit L sid v ds = Ok (L', r) ->
  rtc lifecycle_step (projection (session_of L sid)) (projection (session_of L' sid)).
Proof.
  intros Hr Hc. eapply commit_projection; [done..|apply begin_steps|].
  intros s d s' _ _ _. apply apply_steps.
Qed.

(** Across any later commits of any sessions, a completed, stopped or failed turn, an
    execution that is not active and an observed effect keep their state, and an effect keeps its
    owner. *)
Theorem session_terminal_states_final L L' sid S S' :
  ledger_reachable L -> commits_to L L' -> sessions L !! sid = Some S -> sessions L' !! sid = Some S' ->
  (forall t st, turns (projection S) !! t = Some st -> st ∈ [TurnCompleted; TurnStopped; TurnFailed] ->
     turns (projection S') !! t = Some st) /\
  (forall e t st, executions (projection S) !! e = Some (t, st) -> st ≠ ExActive ->
     executions (projection S') !! e = Some (t, st)) /\
  (forall i e, tools (projection S) !! i = Some (e, InvObserved) ->
     tools (projection S') !! i = Some (e, InvObserved)) /\
  (forall i e st, tools (projection S) !! i = Some (e, st) ->
     exists st', tools (projection S') !! i = Some (e, st')).
Proof.
  intros Hr Hto HS HS'.
  assert (Hrtc : rtc lifecycle_step (projection S) (projection S')).
  { pose proof (commits_projection lifecycle_step L L' sid Hr Hto begin_steps) as Hp.
    unfold session_of in Hp. rewrite HS, HS' in Hp. apply Hp. intros s d s' _. apply apply_steps. }
  split_and!.
  - intros t st Hl Hin. eapply (rtc_keeps _ (fun s => turns s !! t = Some st)); [|done..].
    intros a b [Hm _ _ _] Ha. eapply moves_final; [done..|]. destruct st; [set_solver..| | |]; by intros [].
  - intros e t st Hl Hn. eapply (rtc_keeps _ (fun s => executions s !! e = Some (t, st))); [|done..].
    intros a b [_ Hm _ _] Ha. eapply moves_final; [done..|]. intros [o st']. simpl.
    destruct st; [done|..]; by rewrite andb_false_r.
  - intros i e Hl. eapply (rtc_keeps _ (fun s => tools s !! i = Some (e, InvObserved))); [|done..].
    intros a b [_ _ _ Hm] Ha. eapply moves_final; [done..|]. intros [o st']. simpl. by rewrite andb_false_r.
  - intros i e st Hl. eapply (rtc_keeps _ (fun s => exists st', tools s !! i = Some (e, st'))); [|done|eauto].
    intros a b [_ _ _ Hm] [st' Ha]. by eapply moves_owner.
Qed.

(** C35: A closed session has no open or suspended turn, no active execution, no pending
    invocation, no active schedule and no unsettled delegation, and no commit to it stores
    anything any more. *)
Theorem session_closed_is_settled_and_final L sid S :
  ledger_reachable L -> sessions L !! sid = Some S -> closed (projection S) = true ->
  settled (projection S) /\
  forall v ds L' r, commit L sid v ds = Ok (L', r) -> L' = L /\ disposition r = Replayed.
Proof.
  intros Hr HS Hc. split; [apply reachable_closed_settled; [by eapply session_reachable|done]|].
  intros v ds L' r (Hne & _ & _ & Hcm)%commit_inv. destruct Hcm as [|p next' _ _ _ Happ _ _]; [done|].
  exfalso. pose proof (app_projection _ _ _ _ _ _ Happ) as Hf. destruct ds as [|d ds]; [done|].
  unfold session_of in Hf. rewrite HS in Hf. cbn [try_fold] in Hf.
  destruct (projection_apply _ d) as [s1|] eqn:E; [|done]. apply apply_open in E. simpl in E. congruence.
Qed.

(** C2: A contract-v3 effect of a session that was dispatched (started, with receipt, completed,
    uncertain or reconciled) has an Allow decision for its exact prepared digest and a preflighted
    sandbox proof, and the session holds the fact that started it; every fact that started it
    names the grant, the executor, its revision and the dispatch attempt of that very proof. An
    authorized effect has the Allow decision, a denied one has a decision that is not Allow. *)
Theorem session_effects_governed L sid S tool e st :
  ledger_reachable L -> sessions L !! sid = Some S -> let s := projection S in
  tools s !! tool = Some (e, st) -> tool_contract_versions s !! tool = Some 3 ->
  (dispatched st = true -> governed s tool /\ exists f, f ∈ facts S /\ starts_effect tool f) /\
  (forall f, f ∈ facts S -> starts_effect tool f ->
     exists m, json_from_str (payload_json (df_payload f)) = Some (Obj m) /\ started_as s tool m) /\
  (st = InvAuthorized -> exists r, f0 s !! tool = Some r /\ f0_disposition r = SafetyAllow /\
     tool_digests s !! tool = Some (f0_prepared_digest r)) /\
  (st = InvDenied -> exists r, f0 s !! tool = Some r /\ f0_disposition r ≠ SafetyAllow).
Proof.
  intros Hr HS s Ht Hv. pose proof (reachable_gov s (session_reachable _ _ _ Hr HS)) as Hi.
  destruct (session_history _ _ _ Hr HS) as (ds & Hf & Hh). pose proof (history_started _ _ Hh) as [_ Hstart Hdisp].
  pose proof (gi_state s Hi _ _ _ Ht) as Hg. unfold is_v in Hg. rewrite Hv in Hg. specialize (Hg eq_refl).
  split_and!.
  - intros Hd. split; [destruct st; try done; by apply Hg|]. destruct (Hdisp _ _ _ Ht Hd) as (d & Hin & Hs).
    destruct (durable_of_draft sid 1 ds d Hin) as (q & Hq). exists (DurableFact_from sid q d). by rewrite Hf.
  - intros f Hin Hs. rewrite Hf in Hin. apply elem_of_durable in Hin as (q & d & Hz%elem_of_zip_l & ->).
    destruct (Hstart d tool Hz Hs) as (m & Hm & Hst); [unfold is_v; subst s; by rewrite Hv|]. exists m. split; [|done].
    by apply fact_payload_ok.
  - intros ->. destruct Hg as (r & Hr' & Hal). exists r. split_and!; [done..|]. by apply (gi_record s Hi).
  - intros ->. done.
Qed.

(** When an effect of a planned batch has been dispatched, every effect before it in the plan
    is another invocation and has itself left the states before its start: the effects of a batch
    start in plan order. *)
Theorem session_effect_batches_ordered L sid S d b i j t u e st e' st' :
  ledger_reachable L -> sessions L !! sid = Some S -> let s := projection S in
  effect_batches s !! d = Some b -> (i < j)%nat ->
  eb_tools b !! i = Some t -> eb_tools b !! j = Some u ->
  tools s !! t = Some (e, st) -> tools s !! u = Some (e', st') -> dispatched st' = true ->
  t ≠ u /\ unstarted st = false.
Proof.
  intros Hr HS s Hb Hij Hi Hj Ht Hu Hd. pose proof (reachable_batches s (session_reachable _ _ _ Hr HS)) as Hinv.
  split.
  - intros ->. pose proof (NoDup_lookup _ _ _ _ (proj1 (bi_batch s Hinv _ _ Hb)) Hi Hj). lia.
  - apply (bi_order s Hinv _ _ _ _ _ _ Hb Hi Ht). destruct (bi_order s Hinv _ _ _ _ _ _ Hb Hj Hu) as [_ Hnd].
    destruct (le_lt_dec (eb_next_start b) j) as [Hle|Hlt]; [|lia]. rewrite Hnd in Hd by done. done.
Qed.

(** Every commit whose skip facts have the known schema version drives the schedules of a
    session along the schedule machine: occurrences are claimed and fired at the next ordinal
    only, re-claimed only under a higher lease epoch for the same occurrence, skipped only forward
    and without a pending claim; the pending claim is always the next occurrence of an active
    schedule; and a schedule that a commit supersedes is replaced in the same commit. *)
Theorem session_schedules_refine_machine L sid v ds L' r :
  ledger_reachable L -> commit L sid v ds = Ok (L', r) ->
  (forall d, d ∈ ds -> kind d = "schedule.skipped" -> schema_version d = 1) ->
  rtc schedule_moves (projection (session_of L sid)) (projection (session_of L' sid)) /\
  claim_next (projection (session_of L' sid)) /\
  (forall id r, schedules (projection (session_of L' sid)) !! id = Some r -> sr_state r ≠ SchedSuperseding).
Proof.
  intros Hr Hc Hv. split_and!.
  - eapply commit_projection; [done..|by left|]. intros s d s' Hs Hd [x Hx] Ha.
    apply (apply_schedule_moves s d s'); [by apply reachable_claim_next|done|].
    intros Hk. eapply validated_range; [done..|]. intros ->.
    unfold validate_runtime_fact in Hx. rewrite Hk, (Hv d Hd Hk) in Hx. simpl in Hx.
    repeat case_match; done.
  - pose proof (ledger_commit _ _ _ _ _ _ Hr Hc) as Hr'. unfold session_of.
    destruct (sessions L' !! sid) as [S|] eqn:E; apply reachable_claim_next; [by eapply session_reachable|constructor].
  - intros id x. eapply boundary_replaced, session_boundary. by eapply ledger_commit.
Qed.

(** Every commit moves the delegations of a session along the delegation machine (request by
    an active execution, decision, start with the suspension of the parent and the start of the
    child, end with the child, observation, admission of the result once observed), and a parent
    turn has at most one delegation that is not settled. *)
Theorem session_delegations_refine_machine L sid v ds L' r :
  ledger_reachable L -> commit L sid v ds = Ok (L', r) ->
  rtc delegation_moves (projection (session_of L sid)) (projection (session_of L' sid)) /\
  delegation_inv (projection (session_of L' sid)).
Proof.
  intros Hr Hc. split.
  - eapply commit_projection; [done..|by left|]. intros s d s' _ _ _ Ha. by apply (apply_delegation_moves s d).
  - pose proof (ledger_commit _ _ _ _ _ _ Hr Hc) as Hr'. unfold session_of.
    destruct (sessions L' !! sid) as [S|] eqn:E; apply reachable_delegations; [by eapply session_reachable|constructor].
Qed.
End sessions.

(** ** Witnesses *)

#[local] Existing Instance model_externals.
Import LedgerSample.

(** A fact the validator classifies as Opaque (an effect.prepared of schema version 4) is
    committed and creates an effect in the projection. *)
Theorem opaque_fact_changes_projection :
  let L := after "s" opening in
  exists L' r, validate_runtime_fact prepared_v4 = Ok Opaque /\
    commit L "s" 2 [prepared_v4] = Ok (L', r) /\
    tools (projection (session_of L "s")) !! "z" = None /\
    tools (projection (session_of L' "s")) !! "z" = Some ("e", InvPrepared).
Proof.
  intros L. destruct (commit L "s" 2 [prepared_v4]) as [[L' r]|] eqn:E.
  - exists L', r. split_and!; [by vm_compute|done|by vm_compute|].
    replace L' with (match commit (after "s" opening) "s" 2 [prepared_v4] with Ok (L, _) => L | Err _ => ledger_default end)
      by (fold L; by rewrite E). by vm_compute.
  - exfalso. assert (Hok : is_ok (commit (after "s" opening) "s" 2 [prepared_v4]) = true) by by vm_compute.
    fold L in Hok. rewrite E in Hok. done.
Qed.

(** The session every sample history writes. *)
Definition sample (batches : list (list FactDraft)) : SessionLedger := session_of (after "s" batches) "s".

Lemma session_lifecycle_consistent_witness :
  turns (projection (sample governed_history)) !! "t" = Some TurnOpen.
Proof.
  assert (HS : sessions (after "s" governed_history) !! "s" = Some (sample governed_history)) by (by vm_compute).
  apply (proj1 (session_lifecycle_consistent _ "s" _ (after_reachable "s" governed_history) HS) "e" "t").
  by vm_compute.
Defined.

Lemma session_commit_refines_lifecycles_witness :
  rtc lifecycle_step (projection (sample opening)) (projection (sample stopped_history)).
Proof.
  apply (session_commit_refines_lifecycles (after "s" opening) "s" 2 [execution_stopped_fact; turn_stopped_fact]
           (after "s" stopped_history) (mkCommitResult Committed 3 [4; 5]) (after_reachable _ _)).
  by vm_compute.
Defined.

Lemma session_terminal_states_final_witness :
  turns (projection (sample closed_history)) !! "t" = Some TurnStopped.
Proof.
  apply (proj1 (session_terminal_states_final (after "s" stopped_history) (after "s" closed_history) "s"
    (sample stopped_history) (sample closed_history) (after_reachable _ _)
    ltac:(apply rtc_once; exists "s", 3, [closed_fact "1"], (mkCommitResult Committed 4 [6]); by vm_compute)
    ltac:(by vm_compute) ltac:(by vm_compute)) "t" TurnStopped); [by vm_compute|].
  apply (bool_decide_unpack (TurnStopped ∈ _)). by vm_compute.
Defined.

Lemma session_closed_is_settled_and_final_witness : settled (projection (sample closed_history)).
Proof.
  apply (session_closed_is_settled_and_final (after "s" closed_history) "s" (sample closed_history)
           (after_reachable _ _)); by vm_compute.
Defined.

Lemma session_effects_governed_witness : governed (projection (sample governed_history)) "g".
Proof.
  apply (session_effects_governed (after "s" governed_history) "s" (sample governed_history) "g" "e" InvStarted
           (after_reachable _ _)); by vm_compute.
Defined.

Lemma session_effect_batches_ordered_witness :
  let batches := batch_history ++ [[started "f14" "i" (digest "ii")]] in
  exists st, tools (projection (sample batches)) !! "h" = Some ("e", st) /\ unstarted st = false.
Proof.
  intros batches. exists InvStarted. split; [by vm_compute|].
  apply (session_effect_batches_ordered (after "s" batches) "s" (sample batches) (digest "plan")
           (mkEffectBatch ["h"; "i"] 2) 0 1 "h" "i" "e" InvStarted "e" InvStarted (after_reachable _ _));
    first [by vm_compute | lia].
Defined.

Lemma session_schedules_refine_machine_witness :
  claim_next (projection (sample (schedule_history ++ [[fired_fact]]))).
Proof.
  apply (session_schedules_refine_machine (after "s" schedule_history) "s" 3 [fired_fact]
           (after "s" (schedule_history ++ [[fired_fact]])) (mkCommitResult Committed 4 [5]) (after_reachable _ _)).
  - by vm_compute.
  - intros d Hd Hk. apply elem_of_cons in Hd as [->|Hd]; [by vm_compute|by apply not_elem_of_nil in Hd].
Defined.

Lemma session_delegations_refine_machine_witness :
  delegation_inv (projection (sample (opening ++ [[delegation_requested_fact]]))).
Proof.
  apply (session_delegations_refine_machine (after "s" opening) "s" 2 [delegation_requested_fact]
           (after "s" (opening ++ [[delegation_requested_fact]])) (mkCommitResult Committed 3 [4]) (after_reachable _ _)).
  by vm_compute.
Defined.

(** ** Witnesses of the ledger theorems *)

Definition opened_ledger : LedgerState := after "s" [[opened_fact "1"]].
Definition started_batch : list FactDraft := [turn_started_fact; execution_started_fact].
Definition started_result : CommitResult := mkCommitResult Committed 2 [2; 3].
Definition started_ledger : LedgerState := after "s" opening.

Lemma ledger_history_replays_witness :
  position <$> facts (sample governed_history) = positions_from 1 9.
Proof.
  apply (ledger_history_replays (after "s" governed_history) "s" (sample governed_history) (after_reachable _ _)).
  by vm_compute.
Defined.

Lemma ledger_commit_appends_witness : session_version started_ledger "s" = Some 2.
Proof.
  apply (ledger_commit_appends opened_ledger "s" 1 started_batch started_ledger started_result
           (after_reachable _ _)); by vm_compute.
Defined.

Lemma ledger_retry_idempotent_witness :
  exists version, session_version (after "s" stopped_history) "s" = Some version /\
    commit (after "s" stopped_history) "s" 7
      [recorded_again turn_started_fact; execution_started_fact] =
    Ok (after "s" stopped_history, mkCommitResult Replayed version [2; 3]).
Proof.
  apply (ledger_retry_idempotent opened_ledger "s" 1 started_batch started_ledger started_result
           (after "s" stopped_history) 7 _ (after_reachable _ _)); [by vm_compute|by vm_compute| |].
  - apply rtc_once. exists "s", 2, [execution_stopped_fact; turn_stopped_fact], (mkCommitResult Committed 3 [4; 5]).
    by vm_compute.
  - repeat apply Forall2_cons_2; [..|apply Forall2_nil_2]; split; by vm_compute.
Defined.

Lemma ledger_stale_version_rejected_witness :
  exists r, commit started_ledger "s" 1 started_batch = Ok (started_ledger, r) /\ disposition r = Replayed.
Proof.
  exists (mkCommitResult Replayed 2 [2; 3]). split; [by vm_compute|].
  apply (ledger_stale_version_rejected opened_ledger "s" 1 started_batch started_ledger started_result
           started_ledger started_batch started_ledger (mkCommitResult Replayed 2 [2; 3]) (after_reachable _ _));
    [by vm_compute|by vm_compute|apply rtc_refl|by vm_compute].
Defined.

Lemma ledger_read_exact_witness :
  read_facts started_ledger "s" 1 3 (Some {["turn.started"]}) = Ok [DurableFact_from "s" 2 turn_started_fact].
Proof.
  rewrite (ledger_read_exact started_ledger "s" (sample opening) 1 3 _ (after_reachable _ _)
             ltac:(by vm_compute) ltac:(lia)).
  by vm_compute.
Defined.

Lemma ledger_turn_snapshot_complete_witness :
  load_turn started_ledger "t" =
  Ok (mkTurnSnapshot (turn_facts "t" (sample opening)) 2 3).
Proof.
  apply (ledger_turn_snapshot_complete started_ledger "s" (sample opening)
           (DurableFact_from "s" 2 turn_started_fact) "t" (after_reachable _ _)); [by vm_compute| |by vm_compute].
  apply (bool_decide_unpack (_ ∈ _)). by vm_compute.
Defined.
