(* ===== verification/RuntimeFactTheorems.v ===== *)
(** * Theorems about runtime fact validation

    Every fact that [validate_runtime_fact] applies has the shape that the table of [FactShapes]
    gives for its kind and version: the dispatcher sends no kind to the wrong schema, the envelope
    carries the identities of the kind, and the schema admits no other field and no other value. *)

From S2P Require Import Prelude Json JsonDecode LedgerTypes FactsTurn FactsPlan FactsMemory RuntimeFacts FactShapes LedgerSamples.

Section facts.
Context `{Externals}.
Abbreviation Chk := (result LedgerError unit) (only parsing).

(** ** Dispatch *)

(** The schemas the version-1 dispatch can reach, by kind. *)
Definition runtime_schemas : list (string * (Map -> Chk)) :=
  [("artifact.committed", artifact_validate "artifact.committed");
   ("skill.activated", skill_validate "skill.activated")]
  ++ goal_schemas ++ plan_schemas ++ plan_step_schemas ++ workspace_schemas ++ f0_schemas
  ++ delegation_schemas ++ schedule_schemas ++ knowledge_schemas ++ memory_schemas ++ effect_schemas
  ++ model_schemas ++ turn_schemas.

Definition schema_check (k : string) (m : Map) : Chk :=
  match assoc k runtime_schemas with Some check => check m | None => Err InvalidFact end.

Lemma assoc_app {A} k (l l' : list (string * A)) :
  assoc k (l ++ l') = match assoc k l with Some a => Some a | None => assoc k l' end.
Proof. induction l as [|[k' a] l IH]; simpl; [done|]. by destruct (k =? k')%string. Qed.

Lemma validate_payload_table f m :
  schema_version f = 1 -> admitted_family (kind f) = true ->
  validate_payload f m = schema_check (kind f) m.
Proof.
  intros Hv Hf. unfold schema_check. destruct (assoc (kind f) runtime_schemas) as [check|] eqn:Hk.
  - apply assoc_elem in Hk.
    unfold validate_payload, effect_prepared_v2, effect_prepared_v3, effect_authorized_v2. rewrite Hv.
    rewrite !andb_false_r.
    unfold runtime_schemas in Hk. 
    repeat match goal with Hk : _ ∈ _ ++ _ |- _ => apply elem_of_app in Hk as [Hk|Hk] end.
    all: cbv [goal_schemas plan_schemas plan_step_schemas workspace_schemas f0_schemas delegation_schemas
    schedule_schemas knowledge_schemas memory_schemas effect_schemas model_schemas turn_schemas] in Hk.
    all: repeat (apply elem_of_cons in Hk as [Hk|Hk]; [injection Hk as -> ->; reflexivity|]).
    all: by apply not_elem_of_nil in Hk.
  - unfold runtime_schemas in Hk. rewrite !assoc_app in Hk.
    repeat match type of Hk with (match ?x with _ => _ end) = None =>
      let E := fresh "E" in destruct x eqn:E; [done|] end.
    simpl in E. destruct (kind f =? "artifact.committed")%string eqn:Ea; [done|].
    destruct (kind f =? "skill.activated")%string eqn:Es; [done|].
    unfold validate_payload, effect_prepared_v2, effect_prepared_v3, effect_authorized_v2. rewrite Hv.
    rewrite !andb_false_r. unfold artifact_validate, skill_validate, goal_validate, plan_validate,
      plan_step_validate, workspace_validate, f0_validate, delegation_validate, schedule_validate,
      knowledge_validate, memory_validate, effect_validate, model_validate, turn_validate.
    rewrite Ea, Es, E0, E1, E2, E3, E4, E5, E6, E7, E8, E9, E10, Hk.
    repeat match goal with |- (if ?b then _ else _) = _ =>
      destruct b; [first [reflexivity | by destruct (starts_with "plan.step." _)]|] end.
    reflexivity.
Qed.

(** ** What the field checks establish *)

Lemma member_elem key l : member key l = true -> key ∈ l.
Proof.
  unfold member. intros (x & Hx & He)%existsb_exists. apply String.eqb_eq in He as ->. by apply list_elem_of_In.
Qed.

Lemma fields_closed m req opt u : fields m req opt = Ok u -> forall key, key ∈ m.*1 -> key ∈ req ++ opt.
Proof.
  unfold fields. intros Hf key Hin. destruct (_ || _) eqn:E; [done|]. bool_hyps.
  match goal with E : existsb _ m.*1 = false |- _ => rewrite existsb_false in E; specialize (E key Hin) end.
  apply elem_of_app. apply andb_false_iff in H1 as [Hn|Hn]; apply negb_false_iff, member_elem in Hn; auto.
Qed.

Lemma fields_present m req opt u key : fields m req opt = Ok u -> key ∈ req -> is_Some (map_get key m).
Proof.
  unfold fields. intros Hf Hin. destruct (_ || _) eqn:E; [done|]. apply orb_false_iff in E as [E _].
  rewrite existsb_false in E. specialize (E key Hin). apply negb_false_iff in E. unfold contains_key in E.
  destruct (map_get key m); [by eexists|done].
Qed.

Lemma valid_digest_text text : valid_digest text = true -> digest_text text.
Proof.
  unfold valid_digest, digest_text. intros [E1 E2]%andb_true_iff. bool_hyps. split; [done|].
  clear E1. induction text as [|c text IH]; simpl in *; [constructor|]. apply andb_true_iff in E2 as [Ec E2].
  constructor; [|by apply IH]. clear IH E2. apply (bool_decide_eq_true (c ∈ _)).
  revert Ec. destruct c as [[] [] [] [] [] [] [] []]; vm_compute; intros Hx; try reflexivity; discriminate Hx.
Qed.

(** A field of a type, in the three ways a schema asks for it. *)
Definition typed (m : Map) (key : string) (type : FieldType) : Prop :=
  exists value, map_get key m = Some value /\ has_type type value.
Definition optional (m : Map) (key : string) (type : FieldType) : Prop :=
  map_get key m = None \/ typed m key type.

Lemma must_typed m key type : typed m key type -> field_ok m (must key type).
Proof. intros (v & Hv & Ht). unfold field_ok. simpl. by rewrite Hv. Qed.
Lemma may_optional m key type : optional m key type -> field_ok m (may key type).
Proof. unfold field_ok. simpl. intros [-> | (v & -> & Ht)]; done. Qed.

Lemma string_at_ok m key text : string_at m key = Ok text -> map_get key m = Some (Str text).
Proof. unfold string_at. destruct (map_get key m) as [[]|]; simpl; intros; by simplify_eq. Qed.
Lemma text_typed m key text : string_at m key = Ok text -> typed m key FText.
Proof. intros Hs%string_at_ok. eexists. split; [done|]. by eexists. Qed.
Lemma identity_typed m key u : non_empty m key = Ok u -> typed m key FIdentity.
Proof.
  unfold non_empty. destruct (string_at m key) as [text|] eqn:Es; [|done]. apply string_at_ok in Es.
  destruct (str_is_empty text) eqn:Ee; [done|]. apply str_is_empty_false in Ee. intros _. eexists. split; [done|]. by exists text.
Qed.
Lemma digest_typed m key u : digest_field m key = Ok u -> typed m key FDigest.
Proof.
  unfold digest_field. destruct (string_at m key) as [text|] eqn:Es; [|done]. apply string_at_ok in Es.
  destruct (valid_digest text) eqn:Ee; [|done]. intros _. eexists. split; [done|]. exists text. split; [done|]. by apply valid_digest_text.
Qed.
Lemma time_typed m key u : timestamp m key = Ok u -> typed m key FTime.
Proof.
  unfold timestamp. destruct (string_at m key) as [text|] eqn:Es; [|done]. apply string_at_ok in Es.
  destruct (canonical_utc text) eqn:Ee; [|done]. intros _. eexists. split; [done|]. exists text. by rewrite Ee.
Qed.
Lemma choice_typed m key allowed text : enumeration m key allowed = Ok text -> typed m key (FChoice allowed).
Proof.
  unfold enumeration. destruct (string_at m key) as [found|] eqn:Es; [|done]. apply string_at_ok in Es.
  destruct (member found allowed) eqn:Ee; [|done]. apply member_elem in Ee. intros _. eexists. split; [done|]. by exists found.
Qed.
Lemma u64_at_ok m key n : u64_at m key = Some n -> map_get key m = Some (Num (PosInt n)).
Proof. unfold u64_at. destruct (map_get key m) as [[| |[]| | |]|]; simpl; intros; by simplify_eq. Qed.
Lemma count_typed m key u : unsigned_field m key false = Ok u -> typed m key FCount.
Proof.
  unfold unsigned_field. destruct (u64_at m key) as [n|] eqn:En; [|done]. apply u64_at_ok in En. intros _.
  eexists. split; [done|]. by eexists.
Qed.
Lemma positive_typed m key u : unsigned_field m key true = Ok u -> typed m key FPositive.
Proof.
  unfold unsigned_field. destruct (u64_at m key) as [n|] eqn:En; [|done]. apply u64_at_ok in En. simpl.
  destruct (n =? 0) eqn:E0; [done|]. intros _. eexists. split; [done|]. exists n. split; [done|]. lia.
Qed.
Lemma exactly_typed m key n : negb (bool_decide (u64_at m key = Some n)) = false -> typed m key (FExactly n).
Proof. intros Hn. apply negb_false_iff, bool_decide_eq_true, u64_at_ok in Hn. by eexists. Qed.
Lemma flag_typed m key b : boolean m key = Ok b -> typed m key FFlag.
Proof.
  unfold boolean. destruct (map_get key m) as [[| | | | |]|] eqn:E; simpl; try done. intros _.
  eexists. split; [done|]. by eexists.
Qed.
Lemma is_flag_typed m key : is_some (map_get key m ≫= as_bool) = true -> typed m key FFlag.
Proof. destruct (map_get key m) as [[| | | | |]|] eqn:E; simpl; try done. intros _. eexists. split; [done|]. by eexists. Qed.
Lemma array_typed m key (e : LedgerError) items : ok_or (map_get key m ≫= as_array) e = Ok items -> typed m key FArray.
Proof. destruct (map_get key m) as [[| | | | |]|] eqn:E; simpl; try done. intros _. eexists. split; [done|]. by eexists. Qed.
Lemma object_at_ok m key object : object_at m key = Ok object -> map_get key m = Some (Obj object).
Proof. unfold object_at, fv_object. destruct (map_get key m) as [[]|]; simpl; intros; by simplify_eq. Qed.
Lemma object_typed m key object : object_at m key = Ok object -> typed m key FObject.
Proof. intros Ho%object_at_ok. eexists. split; [done|]. by eexists. Qed.
Lemma usage_typed m key u : usage m key = Ok u -> typed m key FObject.
Proof. unfold usage. destruct (object_at m key) eqn:E; [|done]. intros _. by eapply object_typed. Qed.
Lemma limits_typed m key u : limits m key = Ok u -> typed m key FObject.
Proof. unfold limits. destruct (object_at m key) eqn:E; [|done]. intros _. by eapply object_typed. Qed.

Lemma content_typed m key u : content m key = Ok u -> typed m key FContent.
Proof.
  unfold content. destruct (object_at m key) as [binding|] eqn:Eo; [|done]. apply object_at_ok in Eo.
  destruct (fields binding _ _) as [u1|] eqn:Ef; [|done]. destruct (digest_field binding "digest") as [u2|] eqn:Ed; [|done].
  pose proof (digest_typed _ _ _ Ed) as (v & Hv & digest & -> & Hdt). intros Hc.
  eexists. split; [done|]. exists binding. split; [done|]. split; [exact (fields_closed _ _ _ _ Ef)|].
  exists digest. split; [done|]. split; [done|]. unfold string_at in Hc. rewrite Hv in Hc. simpl in Hc.
  destruct (map_get "inline_utf8" binding) as [[| | |text| |]|], (map_get "reference" binding) as [[| | |reference| |]|]; try done.
  - destruct (String.eqb_spec (sha256_hex text) digest); [|done]. left. by exists text.
  - destruct (str_is_empty reference) eqn:Er; [done|]. apply str_is_empty_false in Er. right. by exists reference.
Qed.

Lemma typed_optional m key type : typed m key type -> optional m key type.
Proof. by right. Qed.
Lemma absent_optional m key type : map_get key m = None -> optional m key type.
Proof. by left. Qed.
Lemma missing_optional m key type : contains_key m key = false -> optional m key type.
Proof. unfold contains_key. intros Hc. left. by destruct (map_get key m). Qed.
Lemma identity_optional m key u : optional_non_empty m key = Ok u -> optional m key FIdentity.
Proof. unfold optional_non_empty. destruct (contains_key m key) eqn:E; [intros Hn; right; by eapply identity_typed|intros _; by apply missing_optional]. Qed.
Lemma content_optional m key u : optional_content m key = Ok u -> optional m key FContent.
Proof. unfold optional_content. destruct (contains_key m key) eqn:E; [intros Hn; right; by eapply content_typed|intros _; by apply missing_optional]. Qed.
Lemma count_optional m key u : optional_unsigned m key = Ok u -> optional m key FCount.
Proof. unfold optional_unsigned. destruct (contains_key m key) eqn:E; [intros Hn; right; by eapply count_typed|intros _; by apply missing_optional]. Qed.
Lemma any_optional m key : optional m key FAny.
Proof. destruct (map_get key m) as [v|] eqn:E; [right; by exists v|by left]. Qed.

Lemma none_optional m key type b : b && is_none (map_get key m) = true -> optional m key type.
Proof. destruct (map_get key m) eqn:E; [by rewrite andb_false_r|by left]. Qed.

(** *** Following a schema

    [follow m Hc] takes the success of a schema on [m] apart into the checks it makes. *)

Ltac head_of t := lazymatch t with ?f _ => head_of f | _ => t end.

Ltac follow m Hc :=
  cbv beta zeta in Hc;
  lazymatch type of Hc with
  | (match ?x with Ok _ => _ | Err _ => _ end) = Ok _ =>
      let E := fresh "L" in destruct x eqn:E; [follow m E; follow m Hc | discriminate Hc]
  | (if ?b then Err _ else _) = Ok _ => let B := fresh "B" in destruct b eqn:B; [discriminate Hc|]; follow m Hc
  | (if ?b then _ else Err _) = Ok _ => let B := fresh "B" in destruct b eqn:B; [|discriminate Hc]; follow m Hc
  | (if ?b then _ else _) = Ok _ => let B := fresh "B" in destruct b eqn:B; follow m Hc
  | (match ?x with Some _ => _ | None => _ end) = Ok _ =>
      let B := fresh "B" in destruct x eqn:B; first [discriminate Hc | follow m Hc]
  | (let '(_, _) := ?p in _) = Ok _ => destruct p; follow m Hc
  | Ok _ = Ok _ => idtac
  | Err _ = Ok _ => discriminate Hc
  | fields _ _ _ = _ => idtac
  | non_empty _ _ = _ => idtac
  | optional_non_empty _ _ = _ => idtac
  | digest_field _ _ = _ => idtac
  | content _ _ = _ => idtac
  | optional_content _ _ = _ => idtac
  | enumeration _ _ _ = _ => idtac
  | unsigned_field _ _ _ = _ => idtac
  | optional_unsigned _ _ = _ => idtac
  | timestamp _ _ = _ => idtac
  | boolean _ _ = _ => idtac
  | string_at _ _ = _ => idtac
  | object_at _ _ = _ => idtac
  | usage _ _ = _ => idtac
  | limits _ _ = _ => idtac
  | ok_or _ _ = _ => idtac
  | try_fold _ _ _ = _ => idtac
  | try_for_each _ (_ :: _) = _ => simpl try_for_each in Hc; follow m Hc
  | try_for_each _ _ = _ => idtac
  | ?call = Ok _ =>
      lazymatch call with
      | context [m] => let h := head_of call in first [unfold h in Hc; follow m Hc | idtac]
      | _ => idtac
      end
  end.

Ltac typed_field :=
  lazymatch goal with
  | |- typed _ _ FText => eapply text_typed; eassumption
  | |- typed _ _ FIdentity => eapply identity_typed; eassumption
  | |- typed _ _ FDigest => eapply digest_typed; eassumption
  | |- typed _ _ FTime => eapply time_typed; eassumption
  | |- typed _ _ FFlag => first [eapply flag_typed; eassumption | apply is_flag_typed; eassumption]
  | |- typed _ _ FCount => eapply count_typed; eassumption
  | |- typed _ _ FPositive => eapply positive_typed; eassumption
  | |- typed _ _ (FExactly _) => apply exactly_typed; eassumption
  | |- typed _ _ (FChoice _) => eapply choice_typed; eassumption
  | |- typed _ _ FContent => eapply content_typed; eassumption
  | |- typed _ _ FObject =>
      first [eapply usage_typed; eassumption | eapply limits_typed; eassumption | eapply object_typed; eassumption]
  | |- typed _ _ FArray => eapply array_typed; eassumption
  end.

Ltac optional_field :=
  first
    [ apply any_optional
    | eapply identity_optional; eassumption
    | eapply content_optional; eassumption
    | eapply count_optional; eassumption
    | apply typed_optional; typed_field
    | apply absent_optional; eassumption
    | apply missing_optional; eassumption
    | apply missing_optional; congruence
    | eapply none_optional; eassumption ].

Ltac shaped m Hc :=
  follow m Hc;
  repeat match goal with X : xorb _ _ = false |- _ => apply Bool.xorb_eq in X end;
  (split;
  [ match goal with F : fields m ?r ?o = Ok _ |- _ =>
      first [exact (fields_closed m r o _ F)
            |let key := fresh "key" in let Hk := fresh "Hk" in
             intros key Hk; apply (fields_closed m r o _ F) in Hk; cbn in Hk |- *; set_solver] end
  | repeat (apply Forall_cons_2; [first [apply must_typed; typed_field | apply may_optional; optional_field]|]); apply Forall_nil_2 ]).

(** The payloads a schema accepts have the shape of the kind. *)
Definition enforces (version : Z) (kv : string * (Map -> Chk)) : Prop :=
  exists shape, assoc kv.1 (fact_shapes version) = Some shape /\ forall m, kv.2 m = Ok tt -> payload_ok m shape.

Ltac enforced :=
  cbn [fst snd]; eexists; split; [vm_compute; reflexivity|];
  let m := fresh "m" in let Hc := fresh "Hc" in intros m Hc; shaped m Hc.
Ltac all_enforced := repeat (apply Forall_cons_2; [enforced|]); apply Forall_nil_2.

Lemma artifact_enforced : enforces 1 ("artifact.committed", artifact_validate "artifact.committed").
Proof. enforced. Qed.
Lemma skill_enforced : enforces 1 ("skill.activated", skill_validate "skill.activated").
Proof. enforced. Qed.
Lemma goal_enforced : Forall (enforces 1) goal_schemas.
Proof. all_enforced. Qed.
Lemma plan_enforced : Forall (enforces 1) plan_schemas.
Proof. all_enforced. Qed.
Lemma plan_step_enforced : Forall (enforces 1) plan_step_schemas.
Proof. all_enforced. Qed.
Lemma workspace_enforced : Forall (enforces 1) workspace_schemas.
Proof. all_enforced. Qed.
Lemma f0_enforced : Forall (enforces 1) f0_schemas.
Proof. all_enforced. Qed.
Lemma delegation_enforced : Forall (enforces 1) delegation_schemas.
Proof. all_enforced. Qed.
Lemma schedule_enforced : Forall (enforces 1) schedule_schemas.
Proof. all_enforced. Qed.
Lemma knowledge_enforced : Forall (enforces 1) knowledge_schemas.
Proof. all_enforced. Qed.
Lemma memory_enforced : Forall (enforces 1) memory_schemas.
Proof. all_enforced. Qed.
Lemma effect_enforced : Forall (enforces 1) effect_schemas.
Proof. all_enforced. Qed.
Lemma model_enforced : Forall (enforces 1) model_schemas.
Proof. all_enforced. Qed.
Lemma turn_enforced : Forall (enforces 1) turn_schemas.
Proof. all_enforced. Qed.
Lemma prepared_v2_enforced : enforces 2 ("effect.prepared", effect_validate_prepared_v2).
Proof. enforced. Qed.
Lemma prepared_v3_enforced : enforces 3 ("effect.prepared", effect_validate_prepared_v3).
Proof. enforced. Qed.
Lemma authorized_v2_enforced : enforces 2 ("effect.authorized", effect_validate_authorized_v2).
Proof. enforced. Qed.

Lemma schemas_enforced : Forall (enforces 1) runtime_schemas.
Proof.
  unfold runtime_schemas. rewrite !Forall_app. split_and!.
  - apply Forall_cons_2; [apply artifact_enforced|]. apply Forall_singleton, skill_enforced.
  - apply goal_enforced.
  - apply plan_enforced.
  - apply plan_step_enforced.
  - apply workspace_enforced.
  - apply f0_enforced.
  - apply delegation_enforced.
  - apply schedule_enforced.
  - apply knowledge_enforced.
  - apply memory_enforced.
  - apply effect_enforced.
  - apply model_enforced.
  - apply turn_enforced.
Qed.

(** ** Envelopes *)

Definition scope_bits (scope : FactScope) : bool * bool * bool * bool :=
  match scope with
  | SessionScope => (false, false, false, false)
  | TurnScope => (true, false, false, false)
  | ExecutionScope => (true, true, false, false)
  | ModelScope => (true, true, true, false)
  | InvocationScope => (true, true, false, true)
  end.

Lemma scopes_needed version : Forall (fun kv : string * FactShape =>
  scope_bits (fs_scope kv.2) = (needs_turn kv.1, needs_execution kv.1, needs_model_request kv.1, needs_tool_invocation kv.1))
  (fact_shapes version).
Proof.
  assert (Hv : fact_shapes version = [] \/ exists v, (v = 1 \/ v = 2 \/ v = 3) /\ fact_shapes version = fact_shapes v).
  { unfold fact_shapes. repeat (case_match; eauto 10). }
  destruct Hv as [->|(v & Hv & ->)]; [constructor|].
  assert (Hb : forallb (fun kv : string * FactShape => bool_decide (scope_bits (fs_scope kv.2) =
    (needs_turn kv.1, needs_execution kv.1, needs_model_request kv.1, needs_tool_invocation kv.1))) (fact_shapes v) = true)
    by (destruct Hv as [->|[->| ->]]; vm_compute; reflexivity).
  rewrite forallb_forall in Hb. apply Forall_forall. intros kv Hin%list_elem_of_In. by apply Hb, bool_decide_eq_true in Hin.
Qed.

Lemma carries_bits scope f : carries scope f <->
  scope_bits scope = (is_some (turn_id f), is_some (execution_id f), is_some (model_request_id f), is_some (tool_invocation_id f)).
Proof.
  unfold is_some, carries, scope_bits. destruct scope, (turn_id f), (execution_id f), (model_request_id f), (tool_invocation_id f);
    (split; [intros (H1 & H2 & H3 & H4); try done; try by destruct H1; try by destruct H2; try by destruct H3; try by destruct H4
            |intros [=]; by eauto 10]).
Qed.

Definition payload_object (f : FactDraft) (m : Map) : Prop :=
  json_from_str (payload_json (payload f)) = Some (Obj m).

Lemma xorb_false a b : xorb a b = false <-> a = b.
Proof. by destruct a, b. Qed.

Lemma validate_applied f d :
  validate_runtime_fact f = Ok d -> d ≠ Opaque ->
  admitted_family (kind f) = true /\
  (schema_version f = 1 \/ effect_prepared_v2 f = true \/ effect_prepared_v3 f = true
   \/ effect_authorized_v2 f = true) /\
  (needs_turn (kind f), needs_execution (kind f), needs_model_request (kind f), needs_tool_invocation (kind f)) =
    (is_some (turn_id f), is_some (execution_id f), is_some (model_request_id f), is_some (tool_invocation_id f)) /\
  exists m, payload_object f m /\ validate_payload f m = Ok tt.
Proof.
  unfold validate_runtime_fact, payload_object, fv_object. cbv zeta. intros Hv Hd.
  destruct (admitted_family (kind f)); [|simpl in Hv; congruence]. simpl in Hv.
  destruct (_ && _ && _ && _) eqn:Ev in Hv; [congruence|].
  destruct (_ || _ || _ || _) eqn:Een in Hv; [done|]. rewrite !orb_false_iff, !xorb_false in Een.
  destruct (json_from_str _) as [[| | | | |m]|]; simpl in Hv; try done.
  destruct (validate_payload f m) as [[]|] eqn:Ep; [|done]. split_and!; [done| |naive_solver congruence|by exists m].
  rewrite !andb_false_iff, !negb_false_iff, Z.eqb_eq in Ev. tauto.
Qed.

Lemma payload_enforced f m : admitted_family (kind f) = true ->
  schema_version f = 1 \/ effect_prepared_v2 f = true \/ effect_prepared_v3 f = true \/ effect_authorized_v2 f = true ->
  validate_payload f m = Ok tt ->
  exists shape, assoc (kind f) (fact_shapes (schema_version f)) = Some shape /\ payload_ok m shape.
Proof.
  intros Hf [Hv|Hv] Hp.
  - rewrite validate_payload_table in Hp by done. unfold schema_check in Hp.
    destruct (assoc (kind f) runtime_schemas) as [check|] eqn:Ek; [|done]. apply assoc_elem in Ek.
    pose proof schemas_enforced as Hs. rewrite Forall_forall in Hs. destruct (Hs _ Ek) as (shape & Ha & Hc).
    exists shape. rewrite Hv. split; [done|]. by apply Hc.
  - unfold validate_payload in Hp. unfold effect_prepared_v2, effect_prepared_v3, effect_authorized_v2 in *.
    destruct Hv as [Hv|[Hv|Hv]]; apply andb_true_iff in Hv as [Hk%String.eqb_eq Hv%Z.eqb_eq]; rewrite Hk, Hv in Hp |- *; simpl in Hp.
    + destruct prepared_v2_enforced as (shape & Ha & Hc). exists shape. split; [done|]. by apply Hc.
    + destruct prepared_v3_enforced as (shape & Ha & Hc). exists shape. split; [done|]. by apply Hc.
    + destruct authorized_v2_enforced as (shape & Ha & Hc). exists shape. split; [done|]. by apply Hc.
Qed.

End facts.

(** ** Witness *)

#[local] Existing Instance model_externals.

