(* ===== verification/Scheduler.v ===== *)
(** * Recurrence scheduler ([engine/scheduler/src/values.rs], [recurrence.rs])

    Schedule intents and the reduction of one intent against an observed clock.
    An instant is its number of nanoseconds since the epoch; chrono's reading and
    writing of timestamps are the operations of [Externals], its range of instants
    the class [Instants].  [Option::unwrap] on an absent value is a panic. *)

From S2P Require Import Prelude Text Json.

(** ** Values *)

Inductive ScheduleErrorCode :=
  | InvalidSchedule | ScheduleNotFound | RevisionConflict | SubjectNotResumable | AuthorityDenied
  | ClockInvalid | OccurrenceOverflow | MisfireLimitExceeded | LeaseLost | DispatchConflict
  | DurabilityFailure | CorruptScheduleState.

Definition schedule_wire_name (self : ScheduleErrorCode) : string :=
  match self with
  | InvalidSchedule => "invalid_schedule"
  | ScheduleNotFound => "schedule_not_found"
  | RevisionConflict => "revision_conflict"
  | SubjectNotResumable => "subject_not_resumable"
  | AuthorityDenied => "authority_denied"
  | ClockInvalid => "clock_invalid"
  | OccurrenceOverflow => "occurrence_overflow"
  | MisfireLimitExceeded => "misfire_limit_exceeded"
  | LeaseLost => "lease_lost"
  | DispatchConflict => "dispatch_conflict"
  | DurabilityFailure => "durability_failure"
  | CorruptScheduleState => "corrupt_schedule_state"
  end.

Inductive ScheduleSubject := StartTurn | ContinueTurnResourceReady.

Inductive ScheduleTiming :=
  | At (due_at_utc : string)
  | FixedDelay (first_due_at_utc : string) (delay_ms : Z) (max_occurrences : option Z).

Inductive MisfirePolicy := FireOnce | Skip | FailPolicy.

Record ScheduleIntentBinding := mkIntentBinding {
  binding_digest : string;
  binding_inline_utf8 : string;
}.

Record ScheduleIntent := mkScheduleIntent {
  si_schedule_id : string;
  si_revision_id : string;
  si_subject : ScheduleSubject;
  si_subject_binding_digest : string;
  si_timing : ScheduleTiming;
  si_misfire_policy : MisfirePolicy;
  si_max_lateness_ms : Z;
  si_effective_limits_digest : string;
}.

Record IntentSemantics := mkIntentSemantics {
  is_contract : string;
  is_version : Z;
  is_subject : ScheduleSubject;
  is_subject_binding_digest : string;
  is_timing : ScheduleTiming;
  is_misfire_policy : MisfirePolicy;
  is_max_lateness_ms : Z;
  is_effective_limits_digest : string;
}.

Definition INTENT_CONTRACT : string := "garive.schedule-intent".
Definition INTENT_VERSION : Z := 1.
Definition SCHEDULE_MAX_ID_BYTES : Z := 128.

#[export] Instance ScheduleTiming_eq_dec : EqDecision ScheduleTiming.
Proof. solve_decision. Defined.
#[export] Instance ScheduleSubject_eq_dec : EqDecision ScheduleSubject.
Proof. solve_decision. Defined.
#[export] Instance MisfirePolicy_eq_dec : EqDecision MisfirePolicy.
Proof. solve_decision. Defined.
#[export] Instance ScheduleErrorCode_eq_dec : EqDecision ScheduleErrorCode.
Proof. solve_decision. Defined.
#[export] Instance IntentSemantics_eq_dec : EqDecision IntentSemantics.
Proof. solve_decision. Defined.

(** How a reduction stops early. *)
Inductive Stop :=
  | Failed (code : ScheduleErrorCode)
  | Panic.
Coercion Failed : ScheduleErrorCode >-> Stop.

(** ** Identities and digests *)

Definition valid_schedule_id (value : string) : bool :=
  negb (str_is_empty value) && (str_len value <=? SCHEDULE_MAX_ID_BYTES) && is_trimmed value.

Definition valid_schedule_digest (value : string) : bool :=
  (str_len value =? 64)
  && all_bytes (fun b => is_ascii_digit b || ((97 <=? byte_code b) && (byte_code b <=? 102))) value.

Section values.
Context `{Externals}.

Definition valid_timing (value : ScheduleTiming) : bool :=
  match value with
  | At due_at_utc => is_some (canonical_utc due_at_utc)
  | FixedDelay first_due_at_utc delay_ms max_occurrences =>
      is_some (canonical_utc first_due_at_utc)
      && negb (delay_ms =? 0)
      && is_none_or (fun count => negb (count =? 0)) max_occurrences
  end.

Definition ScheduleIntent_new (schedule_id revision_id : string) (subject : ScheduleSubject)
    (subject_binding_digest : string) (timing : ScheduleTiming) (misfire_policy : MisfirePolicy)
    (max_lateness_ms : Z) (effective_limits_digest : string) : result ScheduleErrorCode ScheduleIntent :=
  let value := mkScheduleIntent schedule_id revision_id subject subject_binding_digest timing
                 misfire_policy max_lateness_ms effective_limits_digest in
  if negb (valid_schedule_id schedule_id)
     || negb (valid_schedule_id revision_id)
     || negb (valid_schedule_digest subject_binding_digest)
     || negb (valid_timing timing)
     || (max_lateness_ms =? 0)
     || negb (valid_schedule_digest effective_limits_digest)
  then Err InvalidSchedule else Ok value.
End values.

(** ** Canonical intent *)

Definition subject_value (subject : ScheduleSubject) : Value :=
  Str match subject with
      | StartTurn => "start_turn"
      | ContinueTurnResourceReady => "continue_turn_resource_ready"
      end.
Definition policy_value (policy : MisfirePolicy) : Value :=
  Str match policy with FireOnce => "fire_once" | Skip => "skip" | FailPolicy => "fail" end.
Definition timing_value (timing : ScheduleTiming) : Value :=
  match timing with
  | At due => Obj [("due_at_utc", Str due); ("kind", Str "at")]
  | FixedDelay first delay max =>
      Obj ([("delay_ms", Num (PosInt delay)); ("first_due_at_utc", Str first); ("kind", Str "fixed_delay")]
           ++ match max with Some count => [("max_occurrences", Num (PosInt count))] | None => [] end)
  end.

(** The document of [json!]; its keys are in the order of the map. *)
Definition intent_value (self : ScheduleIntent) : Value :=
  Obj [("contract", Str INTENT_CONTRACT);
       ("effective_limits_digest", Str (si_effective_limits_digest self));
       ("max_lateness_ms", Num (PosInt (si_max_lateness_ms self)));
       ("misfire_policy", policy_value (si_misfire_policy self));
       ("subject", subject_value (si_subject self));
       ("subject_binding_digest", Str (si_subject_binding_digest self));
       ("timing", timing_value (si_timing self));
       ("version", Num (PosInt INTENT_VERSION))].

(** [serde_jcs] on a JSON value and on the serialized semantics, and
    [serde_json::from_str] into the semantics. *)
Class IntentCodec := {
  jcs_value : Value -> option string;
  jcs_semantics : IntentSemantics -> option string;
  semantics_from_str : string -> option IntentSemantics;
}.

Section binding.
Context `{Externals, IntentCodec}.

Definition intent_binding (self : ScheduleIntent) : result ScheduleErrorCode ScheduleIntentBinding :=
  let? inline_utf8 := ok_or (jcs_value (intent_value self)) InvalidSchedule in
  Ok (mkIntentBinding (sha256_hex inline_utf8) inline_utf8).

Definition intent_digest (self : ScheduleIntent) : result ScheduleErrorCode string :=
  let? binding := intent_binding self in Ok (binding_digest binding).

Definition from_binding (schedule_id revision_id : string) (binding : ScheduleIntentBinding)
    : result ScheduleErrorCode ScheduleIntent :=
  let? value := ok_or (semantics_from_str (binding_inline_utf8 binding)) CorruptScheduleState in
  let? canonical := ok_or (jcs_semantics value) CorruptScheduleState in
  reject CorruptScheduleState when
    negb (canonical =? binding_inline_utf8 binding)%string
    || negb (sha256_hex canonical =? binding_digest binding)%string
    || negb (is_contract value =? INTENT_CONTRACT)%string
    || negb (is_version value =? INTENT_VERSION);
  match ScheduleIntent_new schedule_id revision_id (is_subject value) (is_subject_binding_digest value)
          (is_timing value) (is_misfire_policy value) (is_max_lateness_ms value)
          (is_effective_limits_digest value) with
  | Ok intent => Ok intent
  | Err _ => Err CorruptScheduleState
  end.
End binding.

(** ** Occurrences *)

Record DueOccurrence := mkDueOccurrence {
  do_ordinal : Z;
  do_due_at_utc : string;
  do_occurrence_id : string;
  do_runtime_command_id : string;
}.

Record SkippedOccurrences := mkSkipped {
  sk_first_ordinal : Z;
  sk_last_ordinal : Z;
  sk_first_due_at_utc : string;
  sk_last_due_at_utc : string;
  sk_next_due : option DueOccurrence;
}.

Inductive ScheduleDecision :=
  | NotDue (next : DueOccurrence)
  | Due (next : DueOccurrence)
  | Skipped (range : SkippedOccurrences)
  | Exhausted
  | FailMisfire (next : DueOccurrence).

Definition OCCURRENCE_CONTRACT : string := "garive.schedule-occurrence".
Definition COMMAND_CONTRACT : string := "garive.schedule-command".
Definition OCCURRENCE_VERSION : Z := 1.
Definition OCCURRENCE_PREFIX : string := "occurrence-".
Definition COMMAND_PREFIX : string := "schedule-command-".

(** The instants [DateTime<Utc>] represents, in nanoseconds. *)
Class Instants := {
  instant_min : Z;
  instant_max : Z;
}.

(** The preimage of an occurrence, with the contract inserted in key order. *)
Definition occurrence_value (contract : string) (intent : ScheduleIntent) (ordinal : Z) (due_at_utc : string)
    : Value :=
  Obj [("contract", Str contract);
       ("due_at_utc", Str due_at_utc);
       ("ordinal", Num (PosInt ordinal));
       ("revision_id", Str (si_revision_id intent));
       ("schedule_id", Str (si_schedule_id intent));
       ("version", Num (PosInt OCCURRENCE_VERSION))].

Section recurrence.
Context `{Externals, IntentCodec, Instants}.
Abbreviation Res := (result Stop) (only parsing).

(** [checked_add_signed] and [checked_sub_signed] of a duration in nanoseconds. *)
Definition in_instants (t : Z) : option Z :=
  if (instant_min <=? t) && (t <=? instant_max) then Some t else None.
Definition checked_add_signed (t duration : Z) : option Z := in_instants (t + duration).
Definition checked_sub_signed (t duration : Z) : option Z := in_instants (t - duration).

(** A [TimeDelta] of [value] milliseconds, in nanoseconds. *)
Definition milliseconds (value : Z) : Res Z :=
  let? value := ok_or (i64_try_from value) (Failed OccurrenceOverflow) in
  Ok (value * 1000000).

Definition canonical_digest (value : Value) : Res string :=
  let? bytes := ok_or (jcs_value value) (Failed InvalidSchedule) in
  Ok (sha256_hex bytes).

Definition identity (contract prefix : string) (intent : ScheduleIntent) (ordinal : Z) (due_at_utc : string)
    : Res string :=
  let? digest := canonical_digest (occurrence_value contract intent ordinal due_at_utc) in
  Ok (prefix +:+ digest).

(** [canonical_utc(text).unwrap()]. *)
Definition unwrap_utc (value : string) : Res Z := ok_or (canonical_utc value) Panic.

(** The due instant of an ordinal, or none past the bound. *)
Definition due_instant (intent : ScheduleIntent) (ordinal : Z) : Res (option Z) :=
  match si_timing intent with
  | At due_at_utc =>
      if negb (ordinal =? 1) then Ok None
      else let? due := unwrap_utc due_at_utc in Ok (Some due)
  | FixedDelay first_due_at_utc delay_ms max_occurrences =>
      if is_some_and (fun max => max <? ordinal) max_occurrences then Ok None
      else
        let? multiplier := ok_or (checked_sub ordinal 1) (Failed OccurrenceOverflow) in
        let? offset := ok_or (checked_mul multiplier delay_ms) (Failed OccurrenceOverflow) in
        let? first := unwrap_utc first_due_at_utc in
        let? delta := milliseconds offset in
        let? due := ok_or (checked_add_signed first delta) (Failed OccurrenceOverflow) in
        Ok (Some due)
  end.

Definition schedule_occurrence (intent : ScheduleIntent) (ordinal : Z) : Res (option DueOccurrence) :=
  let? due := due_instant intent ordinal in
  match due with
  | None => Ok None
  | Some due =>
      let due_at_utc := to_rfc3339 due in
      let? occurrence_id := identity OCCURRENCE_CONTRACT OCCURRENCE_PREFIX intent ordinal due_at_utc in
      let? runtime_command_id := identity COMMAND_CONTRACT COMMAND_PREFIX intent ordinal due_at_utc in
      Ok (Some (mkDueOccurrence ordinal due_at_utc occurrence_id runtime_command_id))
  end.

(** The last ordinal of the overdue range that starts at [first]. *)
Definition skip_last_ordinal (intent : ScheduleIntent) (first first_due now lateness max_ordinal : Z) : Res Z :=
  match si_timing intent with
  | At _ => Ok 1
  | FixedDelay _ delay_ms _ =>
      let? cutoff := ok_or (checked_sub_signed now lateness) (Failed OccurrenceOverflow) in
      let? delta_ns := ok_or (i64_try_from (cutoff - first_due)) (Failed OccurrenceOverflow) in
      let? delay_ns_u64 := ok_or (checked_mul delay_ms 1000000) (Failed OccurrenceOverflow) in
      let? delay_ns := ok_or (i64_try_from delay_ns_u64) (Failed OccurrenceOverflow) in
      let? difference := ok_or (i64_try_from (delta_ns - 1)) Panic in
      reject Panic when delay_ns =? 0;
      let? additional := ok_or (u64_try_from (Z.quot difference delay_ns)) (Failed OccurrenceOverflow) in
      let? last := ok_or (checked_add first additional) (Failed OccurrenceOverflow) in
      Ok (Z.min last max_ordinal)
  end.

Definition skip_overdue (intent : ScheduleIntent) (first : DueOccurrence) (first_due now lateness : Z)
    : Res ScheduleDecision :=
  let max_ordinal := match si_timing intent with
    | At _ => 1
    | FixedDelay _ _ max_occurrences => default u64_max max_occurrences
    end in
  let? last_ordinal := skip_last_ordinal intent (do_ordinal first) first_due now lateness max_ordinal in
  let? last := schedule_occurrence intent last_ordinal in
  let? last := ok_or last (Failed OccurrenceOverflow) in
  let? next_due := (if last_ordinal =? max_ordinal then Ok None
    else
      let? following := ok_or (checked_add last_ordinal 1) (Failed OccurrenceOverflow) in
      schedule_occurrence intent following) in
  Ok (Skipped (mkSkipped (do_ordinal first) last_ordinal (do_due_at_utc first) (do_due_at_utc last) next_due)).

Definition next_occurrence (intent : ScheduleIntent) (last_handled_ordinal : option Z)
    (observed_now_utc : string) : Res ScheduleDecision :=
  let? now := ok_or (canonical_utc observed_now_utc) (Failed ClockInvalid) in
  let? ordinal := match last_handled_ordinal with
    | Some value => ok_or (checked_add value 1) (Failed OccurrenceOverflow)
    | None => Ok 1
    end in
  let? next := schedule_occurrence intent ordinal in
  match next with
  | None => Ok Exhausted
  | Some next =>
      let? due := ok_or (canonical_utc (do_due_at_utc next)) (Failed OccurrenceOverflow) in
      if now <? due then Ok (NotDue next)
      else
        let? lateness := milliseconds (si_max_lateness_ms intent) in
        let? latest := ok_or (checked_add_signed due lateness) (Failed OccurrenceOverflow) in
        if now <=? latest then Ok (Due next)
        else match si_misfire_policy intent with
          | FireOnce => Ok (Due next)
          | FailPolicy => Ok (FailMisfire next)
          | Skip => skip_overdue intent next due now lateness
          end
  end.
End recurrence.
