(* ===== verification/SchedulerTheorems.v ===== *)
(** * Correctness of the recurrence scheduler

    The decisions of [next_occurrence] against a mathematical timetable, and the
    canonical binding of an intent.  The laws of chrono and of the JCS writer are
    the classes [InstantLaws] and [IntentCodecLaws]; [ScheduleSample] instantiates
    both. *)

From S2P Require Import Prelude Json JsonDecode Scheduler.

(** Documented behaviour of chrono: every instant read is representable, the texts
    of different instants differ, and an instant between 1970 and 2262 is read back
    from its text. *)
Class InstantLaws `{Externals, Instants} : Prop := {
  instants_cover : instant_min <= 0 /\ i64_max <= instant_max;
  parse_in_instants s t : parse_rfc3339 s = Some t -> instant_min <= t <= instant_max;
  to_rfc3339_inj t u : instant_min <= t <= instant_max -> instant_min <= u <= instant_max ->
    to_rfc3339 t = to_rfc3339 u -> t = u;
  rfc3339_reads t : 0 <= t <= i64_max -> parse_rfc3339 (to_rfc3339 t) = Some t;
}.

(** The integers RFC 8785 writes exactly. *)
Definition max_safe : Z := 9007199254740991.

Definition semantics_of (i : ScheduleIntent) : IntentSemantics :=
  mkIntentSemantics INTENT_CONTRACT INTENT_VERSION (si_subject i) (si_subject_binding_digest i) (si_timing i)
    (si_misfire_policy i) (si_max_lateness_ms i) (si_effective_limits_digest i).

Definition safe_numbers (i : ScheduleIntent) : Prop :=
  0 <= si_max_lateness_ms i <= max_safe /\
  match si_timing i with
  | At _ => True
  | FixedDelay _ delay max =>
      0 <= delay <= max_safe /\ match max with Some count => 0 <= count <= max_safe | None => True end
  end.

(** Documented behaviour of the serde derives and of RFC 8785 on documents of safe
    integers: the derived serialization and the [json!] document have one text, it
    reads back as the fields, and an occurrence has a text. *)
Class IntentCodecLaws `{IntentCodec} : Prop := {
  jcs_agrees i : safe_numbers i -> jcs_semantics (semantics_of i) = jcs_value (intent_value i);
  semantics_reads i s : safe_numbers i -> jcs_value (intent_value i) = Some s ->
    semantics_from_str s = Some (semantics_of i);
  jcs_writes_occurrence contract i ordinal due :
    0 <= ordinal <= max_safe -> exists s, jcs_value (occurrence_value contract i ordinal due) = Some s;
}.

(** ** Constructed intents *)

Section built.
Context `{Externals}.

(** A value the constructor returned, with the widths of its fields. *)
Record intent_built (i : ScheduleIntent) : Prop := {
  built_new : ScheduleIntent_new (si_schedule_id i) (si_revision_id i) (si_subject i)
    (si_subject_binding_digest i) (si_timing i) (si_misfire_policy i) (si_max_lateness_ms i)
    (si_effective_limits_digest i) = Ok i;
  built_lateness : is_u64 (si_max_lateness_ms i);
  built_timing : match si_timing i with
    | At _ => True
    | FixedDelay _ delay max => is_u64 delay /\ forall count, max = Some count -> is_u64 count
    end;
}.

(** The last ordinal of the timing. *)
Definition max_ordinal (i : ScheduleIntent) : Z :=
  match si_timing i with At _ => 1 | FixedDelay _ _ max => default u64_max max end.

(** The timetable: ordinal [o] is due at the first instant plus [o - 1] delays. *)
Definition timetable (i : ScheduleIntent) (o : Z) : option Z :=
  if o <=? max_ordinal i then
    match si_timing i with
    | At due => canonical_utc due
    | FixedDelay first delay _ => (fun t => t + (o - 1) * delay * 1000000) <$> canonical_utc first
    end
  else None.

Lemma intent_new_ok a b c d e f g h i :
  ScheduleIntent_new a b c d e f g h = Ok i <->
  i = mkScheduleIntent a b c d e f g h /\
  valid_schedule_id a = true /\ valid_schedule_id b = true /\ valid_schedule_digest d = true /\
  valid_timing e = true /\ g <> 0 /\ valid_schedule_digest h = true.
Proof.
  unfold ScheduleIntent_new. split.
  - intros H'. case_match; [done|]. simplify_eq. by bool_hyps.
  - intros (-> & -> & -> & -> & -> & Hg & ->). simpl. apply Z.eqb_neq in Hg. by rewrite Hg.
Qed.

Lemma built_facts i : intent_built i ->
  0 < si_max_lateness_ms i /\ 1 <= max_ordinal i <= u64_max /\
  match si_timing i with
  | At due => exists t, canonical_utc due = Some t
  | FixedDelay first delay _ => (exists t, canonical_utc first = Some t) /\ 0 < delay
  end.
Proof.
  intros [Hn Hl Ht]. apply intent_new_ok in Hn as (_ & _ & _ & _ & Hv & Hg & _).
  unfold max_ordinal, valid_timing, is_some, is_none_or in *. unfold is_u64, u64_max in *.
  split; [lia|]. destruct (si_timing i) as [due|first delay max].
  - split; [lia|]. destruct (canonical_utc due); [eauto|done].
  - bool_hyps. destruct Ht as [Hd Hm].
    split; [destruct max as [c|]; simpl; [specialize (Hm c eq_refl); bool_hyps; lia|lia]|].
    split; [|lia]. destruct (canonical_utc first); [eauto|done].
Qed.
End built.

(** ** Decisions *)

Section decisions.
Context `{Externals, IntentCodec, Instants, !InstantLaws}.

Definition lateness_ns (i : ScheduleIntent) : Z := si_max_lateness_ms i * 1000000.

(** Occurrence [n] of ordinal [o], due at [d]. *)
Definition occurs (i : ScheduleIntent) (o : Z) (n : DueOccurrence) (d : Z) : Prop :=
  schedule_occurrence i o = Ok (Some n) /\ timetable i o = Some d /\
  do_ordinal n = o /\ do_due_at_utc n = to_rfc3339 d.

(** Ordinal [k] is later than its tolerance. *)
Definition misfired (i : ScheduleIntent) (now k : Z) : Prop :=
  exists d, timetable i k = Some d /\ d + lateness_ns i < now.

(** What a decision for the next ordinal [o] at [now] means. *)
Inductive decides (i : ScheduleIntent) (o now : Z) : ScheduleDecision -> Prop :=
  | decides_exhausted : timetable i o = None -> decides i o now Exhausted
  | decides_not_due n d : occurs i o n d -> now < d -> decides i o now (NotDue n)
  | decides_due n d : occurs i o n d -> d <= now ->
      now <= d + lateness_ns i \/ si_misfire_policy i = FireOnce -> decides i o now (Due n)
  | decides_fail n d : occurs i o n d -> d + lateness_ns i < now -> si_misfire_policy i = FailPolicy ->
      decides i o now (FailMisfire n)
  | decides_skipped r first last d e : si_misfire_policy i = Skip ->
      sk_first_ordinal r = o -> occurs i o first d -> sk_first_due_at_utc r = do_due_at_utc first ->
      occurs i (sk_last_ordinal r) last e -> sk_last_due_at_utc r = do_due_at_utc last ->
      o <= sk_last_ordinal r ->
      (forall k, o <= k -> k <= sk_last_ordinal r <-> misfired i now k) ->
      match sk_next_due r with
      | None => timetable i (sk_last_ordinal r + 1) = None
      | Some n => exists f, occurs i (sk_last_ordinal r + 1) n f
      end ->
      decides i o now (Skipped r).

Lemma in_instants_ok t u : in_instants t = Some u <-> t = u /\ instant_min <= t <= instant_max.
Proof. unfold in_instants. destruct (_ && _) eqn:E; bool_hyps; [naive_solver|]. apply andb_false_iff in E. naive_solver lia. Qed.

Lemma i64_ok x y : i64_try_from x = Some y <-> x = y /\ i64_min <= x <= i64_max.
Proof. unfold i64_try_from. destruct (_ && _) eqn:E; bool_hyps; [naive_solver|]. apply andb_false_iff in E. naive_solver lia. Qed.

Lemma milliseconds_ok v d : milliseconds v = Ok d <-> d = v * 1000000 /\ i64_min <= v <= i64_max.
Proof.
  unfold milliseconds. destruct (i64_try_from v) as [w|] eqn:E; simpl.
  - apply i64_ok in E. naive_solver.
  - split; [done|]. intros [_ Hr]. by rewrite (proj2 (i64_ok v v)) in E.
Qed.

Lemma canonical_in_instants s t : canonical_utc s = Some t -> instant_min <= t <= instant_max.
Proof. unfold canonical_utc. intros. repeat case_match; simplify_eq. by eapply parse_in_instants. Qed.

Lemma canonical_of_text t u : instant_min <= t <= instant_max ->
  canonical_utc (to_rfc3339 t) = Some u -> u = t.
Proof.
  unfold canonical_utc. intros Ht Hc. repeat case_match; simplify_eq. bool_hyps.
  eapply to_rfc3339_inj; eauto using parse_in_instants.
Qed.

Lemma canonical_reads t : 0 <= t <= i64_max -> canonical_utc (to_rfc3339 t) = Some t.
Proof. intros. unfold canonical_utc. by rewrite rfc3339_reads, String.eqb_refl. Qed.

(** The due instant agrees with the timetable whenever it is computed. *)
Lemma due_instant_sound i o r : intent_built i -> 1 <= o <= u64_max ->
  due_instant i o = Ok r ->
  r = timetable i o /\ forall d, r = Some d -> instant_min <= d <= instant_max.
Proof.
  intros Hb Ho. destruct (built_facts i Hb) as (_ & Hm & Ht).
  unfold due_instant, timetable, max_ordinal in *. destruct (si_timing i) as [due|first delay max].
  - destruct Ht as [t Ht]. unfold unwrap_utc. rewrite Ht. simpl.
    destruct (o =? 1) eqn:E; simpl; bool_hyps; intros; simplify_eq.
    + split; [done|]. intros; simplify_eq. eauto using canonical_in_instants.
    + rewrite (proj2 (Z.leb_gt _ _)) by lia. done.
  - destruct Ht as [[t Ht] Hd]. unfold unwrap_utc. rewrite Ht.
    destruct (is_some_and _ max) eqn:E.
    { intros; simplify_eq. destruct max as [c|]; simpl in *; [|done]. bool_hyps.
      rewrite (proj2 (Z.leb_gt _ _)) by lia. done. }
    assert (Hle : (o <=? default u64_max max) = true).
    { apply Z.leb_le. destruct max; simpl in *; bool_hyps; lia. }
    rewrite Hle. intros Hr. inv_ok Hr.
    repeat match goal with E : ok_or _ _ = Ok _ |- _ => apply ok_or_ok in E end.
    unfold checked_sub, checked_mul, checked_add_signed in *. simplify_eq.
    repeat match goal with E : checked_u64 _ = Some _ |- _ => apply checked_u64_some in E as [<- ?] end.
    match goal with E : milliseconds _ = Ok _ |- _ => apply milliseconds_ok in E as [-> ?] end.
    match goal with E : in_instants _ = Some _ |- _ => apply in_instants_ok in E as [<- ?] end.
    simpl. split; [done|]. intros d [= <-]. done.
Qed.

Lemma due_instant_no_panic i o : intent_built i -> due_instant i o <> Err Panic.
Proof.
  intros Hb. destruct (built_facts i Hb) as (_ & _ & Ht). unfold due_instant, unwrap_utc.
  destruct (si_timing i) as [due|first delay max].
  - destruct Ht as [t ->]. simpl. by destruct (o =? 1).
  - destruct Ht as [[t ->] _]. unfold milliseconds, ok_or. repeat case_match; naive_solver.
Qed.

Lemma identity_no_panic c p i o t : identity c p i o t <> Err Panic.
Proof. unfold identity, canonical_digest, ok_or. repeat case_match; naive_solver. Qed.

Lemma occurrence_no_panic i o : intent_built i -> schedule_occurrence i o <> Err Panic.
Proof.
  intros Hb. pose proof (due_instant_no_panic i o Hb). unfold schedule_occurrence.
  destruct (due_instant i o) as [[d|]|]; [|done|naive_solver].
  pose proof (identity_no_panic OCCURRENCE_CONTRACT OCCURRENCE_PREFIX i o (to_rfc3339 d)).
  pose proof (identity_no_panic COMMAND_CONTRACT COMMAND_PREFIX i o (to_rfc3339 d)).
  repeat case_match; naive_solver.
Qed.

Lemma occurrence_sound i o r : intent_built i -> 1 <= o <= u64_max -> schedule_occurrence i o = Ok r ->
  match r with
  | None => timetable i o = None
  | Some n => exists d, occurs i o n d /\ instant_min <= d <= instant_max
  end.
Proof.
  intros Hb Ho Hr. pose proof Hr as Hr'. unfold schedule_occurrence in Hr.
  destruct (due_instant i o) as [x|] eqn:E; [|done]. apply due_instant_sound in E as [-> Hd]; [|done..].
  destruct (timetable i o) as [d|] eqn:Et; [|by simplify_eq].
  inv_ok Hr. intros; simplify_eq. exists d. unfold occurs. naive_solver.
Qed.

Lemma timetable_occurs i o d : timetable i o = Some d -> o <= max_ordinal i.
Proof. unfold timetable. case_match; [|done]. by bool_hyps. Qed.

(** The timetable of a fixed delay, around an ordinal that occurs. *)
Lemma timetable_fixed i first delay max o d k : si_timing i = FixedDelay first delay max ->
  timetable i o = Some d -> k <= max_ordinal i ->
  timetable i k = Some (d + (k - o) * (delay * 1000000)).
Proof.
  unfold timetable, max_ordinal. intros ->. case_match; [|done].
  intros (t & -> & Ht)%fmap_Some Hk. simpl. apply Z.leb_le in Hk. rewrite Hk. f_equal. lia.
Qed.

(** The division finds the greatest overdue ordinal. *)
Lemma quotient_overdue d delay cut o k : 0 < delay -> d < cut ->
  k <= o + Z.quot (cut - d - 1) delay <-> d + (k - o) * delay < cut.
Proof.
  intros Hd Hc. rewrite Z.quot_div_nonneg by lia. split; intros Hk.
  - assert ((k - o) * delay <= cut - d - 1); [|lia].
    transitivity ((cut - d - 1) / delay * delay); [nia|]. pose proof (Z.mul_div_le (cut - d - 1) delay). lia.
  - assert (k - o <= (cut - d - 1) / delay); [|lia]. apply Z.div_le_lower_bound; lia.
Qed.

Lemma misfired_fixed i first delay max o d now k : si_timing i = FixedDelay first delay max ->
  timetable i o = Some d ->
  misfired i now k <-> k <= max_ordinal i /\ d + (k - o) * (delay * 1000000) < now - lateness_ns i.
Proof.
  intros Hf Hd. unfold misfired. split.
  - intros (e & He & Hlt). pose proof (timetable_occurs _ _ _ He) as Hk.
    rewrite (timetable_fixed _ _ _ _ _ _ _ Hf Hd Hk) in He. simplify_eq. lia.
  - intros [Hk Hlt]. eexists. split; [by eapply timetable_fixed|lia].
Qed.

Lemma skip_last_ordinal_sound i o d now l : intent_built i -> 1 <= o -> timetable i o = Some d ->
  d + lateness_ns i < now -> skip_last_ordinal i o d now (lateness_ns i) (max_ordinal i) = Ok l ->
  o <= l <= max_ordinal i /\ forall k, o <= k -> k <= l <-> misfired i now k.
Proof.
  intros Hb Ho Hd Hlate. destruct (built_facts i Hb) as (Hl & Hm & Ht).
  pose proof (timetable_occurs _ _ _ Hd) as Hom. unfold skip_last_ordinal.
  destruct (si_timing i) as [due|first delay max] eqn:Etime.
  - unfold max_ordinal in *. rewrite Etime in *. intros [= <-]. split; [lia|]. intros k Hk. split.
    + intros. assert (k = o) as -> by lia. by exists d.
    + intros (e & He & _). apply timetable_occurs in He. unfold max_ordinal in He. rewrite Etime in He. lia.
  - destruct Ht as [_ Hpos]. intros Hr.
    inv_ok Hr; intros; simplify_eq.
    repeat match goal with E : ok_or _ _ = Ok _ |- _ => apply ok_or_ok in E end.
    unfold checked_sub_signed, checked_mul, checked_add, u64_try_from in *.
    repeat match goal with
      | E : checked_u64 _ = Some _ |- _ => apply checked_u64_some in E as [<- ?]
      | E : i64_try_from _ = Some _ |- _ => apply i64_ok in E as [<- ?]
      | E : in_instants _ = Some _ |- _ => apply in_instants_ok in E as [<- ?] end.
    assert (Hq := fun k => quotient_overdue d (delay * 1000000) (now - lateness_ns i) o k
                    ltac:(lia) ltac:(lia)).
    pose proof (proj2 (Hq o) ltac:(lia)). split; [lia|]. intros k Hk.
    rewrite (misfired_fixed _ _ _ _ _ _ _ _ Etime Hd), <-Hq. lia.
Qed.

Lemma skip_last_ordinal_no_panic i o d now m : intent_built i -> d + lateness_ns i < now ->
  skip_last_ordinal i o d now (lateness_ns i) m <> Err Panic.
Proof.
  intros Hb Hlate. destruct (built_facts i Hb) as (_ & _ & Ht). unfold skip_last_ordinal.
  destruct (si_timing i) as [|first delay max]; [done|]. destruct Ht as [_ Hpos].
  destruct (checked_sub_signed _ _) as [cut|] eqn:Ec; [|done]. apply in_instants_ok in Ec as [<- _]. simpl.
  destruct (i64_try_from (now - _ - d)) as [delta|] eqn:Ed; [|done]. apply i64_ok in Ed as [<- Hr]. simpl.
  destruct (checked_mul _ _) as [dl|] eqn:Em; [|done]. apply checked_u64_some in Em as [<- _]. simpl.
  destruct (i64_try_from (delay * _)) as [dl|] eqn:Ei; [|done]. apply i64_ok in Ei as [<- _]. simpl.
  rewrite (proj2 (i64_ok (now - lateness_ns i - d - 1) (now - lateness_ns i - d - 1)))
    by (unfold i64_min in *; lia).
  simpl. rewrite (proj2 (Z.eqb_neq _ _)) by lia. unfold ok_or. repeat case_match; naive_solver.
Qed.

Lemma skip_overdue_sound i first o d now r : intent_built i -> 1 <= o <= u64_max -> occurs i o first d ->
  d + lateness_ns i < now -> si_misfire_policy i = Skip ->
  skip_overdue i first d now (lateness_ns i) = Ok r -> decides i o now r.
Proof.
  intros Hb Ho Hocc Hlate Hp. destruct (built_facts i Hb) as (_ & Hm & _).
  assert (Hocc' := Hocc). destruct Hocc' as (_ & Hd & Hord & _). unfold skip_overdue.
  change (match si_timing i with At _ => 1 | FixedDelay _ _ m => default u64_max m end) with (max_ordinal i).
  rewrite Hord. destruct (skip_last_ordinal _ _ _ _ _ _) as [l|] eqn:El; [|done].
  apply skip_last_ordinal_sound in El as [Hl Hk]; [|done || lia..].
  destruct (schedule_occurrence i l) as [[last|]|] eqn:Elast; [|done..]. simpl.
  apply (occurrence_sound i l (Some last)) in Elast as (e & Hlast & _); [|done || lia..].
  destruct (if l =? max_ordinal i then _ else _) as [nd|] eqn:En; [|done]. intros [= <-].
  eapply decides_skipped; simpl; eauto; [lia|].
  destruct (l =? max_ordinal i) eqn:Elm; bool_hyps.
  - simplify_eq. unfold timetable. by rewrite (proj2 (Z.leb_gt _ _)) by lia.
  - destruct (checked_add l 1) as [f|] eqn:Ef; [|done]. apply checked_u64_some in Ef as [<- Hf]. simpl in En.
    unfold is_u64 in Hf. apply occurrence_sound in En; [|done || lia..].
    destruct nd as [n|]; [|done]. destruct En as (f & Hf' & _). eauto.
Qed.

(** The next ordinal after a handled prefix. *)
Definition next_ordinal (handled : option Z) : Z := default 0 handled + 1.

Lemma next_ordinal_checked handled o : (forall h, handled = Some h -> is_u64 h) ->
  match handled with
  | Some value => ok_or (checked_add value 1) (Failed OccurrenceOverflow)
  | None => Ok 1
  end = Ok o -> o = next_ordinal handled /\ 1 <= o <= u64_max.
Proof.
  intros Hh Ho. destruct handled as [h|]; simpl in *.
  - apply ok_or_ok, checked_u64_some in Ho as [<- Hu]. specialize (Hh h eq_refl).
    unfold next_ordinal, is_u64 in *. simpl. lia.
  - simplify_eq. unfold u64_max. done.
Qed.

Lemma next_occurrence_sound i handled clock r : intent_built i -> (forall h, handled = Some h -> is_u64 h) ->
  next_occurrence i handled clock = Ok r ->
  exists now, canonical_utc clock = Some now /\ decides i (next_ordinal handled) now r.
Proof.
  intros Hb Hh. unfold next_occurrence.
  destruct (canonical_utc clock) as [now|]; [|done]. simpl.
  destruct (match handled with Some _ => _ | None => _ end) as [o|] eqn:Eo; [|done].
  apply next_ordinal_checked in Eo as [-> Ho]; [|done]. intros Hr. exists now. split; [done|].
  destruct (schedule_occurrence _ _) as [[n|]|] eqn:En; [| |done].
  2:{ simplify_eq. apply decides_exhausted. by apply occurrence_sound in En. }
  apply occurrence_sound in En as (d & Hocc & Hd); [|done..].
  assert (Hocc' := Hocc). destruct Hocc' as (_ & _ & _ & Htext). rewrite Htext in Hr.
  destruct (canonical_utc (to_rfc3339 d)) as [d'|] eqn:Ed; [|done]. apply canonical_of_text in Ed as ->; [|done].
  simpl in Hr. destruct (now <? d) eqn:Elt; bool_hyps; [simplify_eq; eauto using decides_not_due|].
  destruct (milliseconds _) as [l|] eqn:El; [|done]. apply milliseconds_ok in El as [-> _].
  fold (lateness_ns i) in Hr.
  destruct (checked_add_signed _ _) as [latest|] eqn:Ela; [|done]. apply in_instants_ok in Ela as [<- _].
  simpl in Hr. destruct (now <=? _) eqn:Ele; bool_hyps; [simplify_eq; eauto using decides_due|].
  destruct (si_misfire_policy i) eqn:Ep; simplify_eq;
    eauto using decides_due, decides_fail, skip_overdue_sound.
Qed.

Lemma next_occurrence_no_panic i handled clock : intent_built i ->
  (forall h, handled = Some h -> is_u64 h) -> next_occurrence i handled clock <> Err Panic.
Proof.
  intros Hb Hh. unfold next_occurrence.
  destruct (canonical_utc clock) as [now|]; [|done]. simpl.
  destruct (match handled with Some _ => _ | None => _ end) as [o|e] eqn:Eo;
    [|unfold ok_or in Eo; repeat case_match; naive_solver].
  apply next_ordinal_checked in Eo as [-> Ho]; [|done].
  pose proof (occurrence_no_panic i (next_ordinal handled) Hb).
  destruct (schedule_occurrence _ _) as [[n|]|] eqn:En; [|done|naive_solver].
  apply occurrence_sound in En as (d & Hocc & Hd); [|done..].
  destruct Hocc as (_ & _ & Hord & ->).
  destruct (canonical_utc (to_rfc3339 d)) as [d'|] eqn:Ed; [|done]. apply canonical_of_text in Ed as ->; [|done].
  simpl. destruct (now <? d); [done|].
  destruct (milliseconds _) as [l|e] eqn:El; [|unfold milliseconds, ok_or in El; repeat case_match; naive_solver].
  apply milliseconds_ok in El as [-> _]. fold (lateness_ns i).
  destruct (checked_add_signed _ _) as [latest|] eqn:Ela; [|done]. apply in_instants_ok in Ela as [<- _].
  simpl. destruct (now <=? _) eqn:Ele; bool_hyps; [done|]. destruct (si_misfire_policy i); [done| |done].
  unfold skip_overdue.
  set (m := match si_timing i with At _ => _ | _ => _ end).
  pose proof (skip_last_ordinal_no_panic i (do_ordinal n) d now m Hb Ele).
  destruct (skip_last_ordinal _ _ _ _ _ _) as [k|]; [|naive_solver].
  pose proof (occurrence_no_panic i k Hb). destruct (schedule_occurrence i k) as [[|]|]; [|done|naive_solver].
  simpl. destruct (k =? m); [done|]. destruct (checked_add k 1) as [f|]; [|done]. simpl.
  pose proof (occurrence_no_panic i f Hb). destruct (schedule_occurrence i f); naive_solver.
Qed.

(** ** Decisions are reached

    Inside the range of 64-bit nanoseconds since 1970 no computation overflows. *)

Definition step_ns (i : ScheduleIntent) : Z :=
  match si_timing i with At _ => 0 | FixedDelay _ delay _ => delay * 1000000 end.

Record horizon (i : ScheduleIntent) (o now : Z) : Prop := {
  horizon_start t : timetable i 1 = Some t -> 0 <= t;
  horizon_due d : timetable i o = Some d -> d + lateness_ns i <= i64_max;
  horizon_clock : 0 <= now;
  horizon_step : now + step_ns i <= i64_max;
}.

Lemma timetable_none i o : intent_built i -> 1 <= o <= u64_max -> timetable i o = None ->
  schedule_occurrence i o = Ok None.
Proof.
  intros Hb Ho Hn. destruct (built_facts i Hb) as (_ & Hm & Ht).
  unfold schedule_occurrence, due_instant. unfold timetable, max_ordinal in *.
  destruct (si_timing i) as [due|first delay max].
  - destruct Ht as [t Ht]. rewrite Ht in Hn. case_match; [done|]. bool_hyps.
    by rewrite (proj2 (Z.eqb_neq _ _)) by lia.
  - destruct Ht as [[t Ht] _]. rewrite Ht in Hn. case_match; [done|]. bool_hyps.
    destruct max as [c|]; simpl in *; [|lia]. by rewrite (proj2 (Z.ltb_lt _ _)) by lia.
Qed.

Lemma timetable_step i o d : intent_built i -> 1 <= o -> timetable i o = Some d ->
  exists t, timetable i 1 = Some t /\ d = t + (o - 1) * step_ns i.
Proof.
  intros Hb Ho Hd. destruct (built_facts i Hb) as (_ & Hm & _).
  destruct (si_timing i) as [due|first delay max] eqn:Et.
  - unfold timetable, max_ordinal in *. rewrite Et in *. destruct (o <=? 1) eqn:E; [|done]. bool_hyps. simpl.
    exists d. split; [done|]. unfold step_ns. rewrite Et. lia.
  - pose proof (timetable_fixed i first delay max o d 1 Et Hd ltac:(lia)). unfold step_ns. rewrite Et.
    eexists. split; [done|]. lia.
Qed.

Lemma step_ns_nonneg i : intent_built i -> 0 <= step_ns i.
Proof.
  intros Hb. destruct (built_facts i Hb) as (_ & _ & Ht). unfold step_ns.
  destruct (si_timing i); [lia|]. destruct Ht as [_ ?]. lia.
Qed.

Lemma due_instant_defined i o d : intent_built i -> 1 <= o <= u64_max -> timetable i o = Some d ->
  (forall t, timetable i 1 = Some t -> 0 <= t) -> d <= i64_max -> due_instant i o = Ok (Some d).
Proof.
  intros Hb Ho Hd Hstart Hmax. destruct instants_cover as [Hlo Hhi].
  destruct (timetable_step _ _ _ Hb (proj1 Ho) Hd) as (t & Ht & ->). specialize (Hstart _ Ht).
  pose proof (timetable_occurs _ _ _ Hd) as Hom. destruct (built_facts i Hb) as (_ & _ & Hp).
  unfold due_instant, step_ns, unwrap_utc in *. unfold timetable, max_ordinal in Ht, Hom.
  destruct (si_timing i) as [due|first delay max].
  - assert (o = 1) as -> by lia. simpl in *. rewrite Ht. simpl. do 2 f_equal. lia.
  - destruct Hp as [[t' Hf] Hpos]. rewrite Hf in *.
    assert (Hle : (1 <=? default u64_max max) = true) by (apply Z.leb_le; lia). rewrite Hle in Ht.
    simpl in Ht. assert (t = t') as -> by (simplify_eq; lia).
    replace (is_some_and _ max) with false
      by (destruct max; simpl in *; [symmetry; apply Z.ltb_ge; lia|done]).
    unfold i64_max in Hmax.
    assert (0 <= (o - 1) * delay <= (o - 1) * (delay * 1000000)) by nia.
    unfold checked_sub. rewrite (proj2 (checked_u64_some (o - 1) (o - 1))) by (unfold is_u64; lia). simpl.
    unfold checked_mul. rewrite (proj2 (checked_u64_some _ ((o - 1) * delay))) by (unfold is_u64, u64_max; lia).
    simpl. rewrite (proj2 (milliseconds_ok _ ((o - 1) * delay * 1000000))) by (unfold i64_min, i64_max; lia).
    unfold checked_add_signed.
    rewrite (proj2 (in_instants_ok _ (t' + (o - 1) * (delay * 1000000)))); [done|]. unfold i64_max in Hhi. lia.
Qed.

Context `{!IntentCodecLaws}.

Lemma occurrence_defined i o d : intent_built i -> 1 <= o <= u64_max -> timetable i o = Some d ->
  (forall t, timetable i 1 = Some t -> 0 <= t) -> d <= i64_max -> 
  exists n, schedule_occurrence i o = Ok (Some n) /\ do_ordinal n = o /\ do_due_at_utc n = to_rfc3339 d.
Proof.
  intros Hb Ho Hd Hstart Hmax. unfold schedule_occurrence.
  rewrite (due_instant_defined i o d) by done.
  assert (o <= max_safe).
  { destruct (timetable_step _ _ _ Hb (proj1 Ho) Hd) as (t & Ht & ->). specialize (Hstart _ Ht).
    apply timetable_occurs in Hd. destruct (built_facts i Hb) as (_ & _ & Hp).
    unfold step_ns, max_ordinal, i64_max, max_safe in *.
    destruct (si_timing i); [lia|]. destruct Hp as [_ Hpos]. nia. }
  unfold identity, canonical_digest.
  destruct (jcs_writes_occurrence OCCURRENCE_CONTRACT i o (to_rfc3339 d)) as [s1 ->]; [lia|].
  destruct (jcs_writes_occurrence COMMAND_CONTRACT i o (to_rfc3339 d)) as [s2 ->]; [lia|].
  simpl. eauto.
Qed.

Lemma skip_last_ordinal_defined i o d now : intent_built i -> 1 <= o <= u64_max -> timetable i o = Some d ->
  d + lateness_ns i < now -> horizon i o now ->
  exists l, skip_last_ordinal i o d now (lateness_ns i) (max_ordinal i) = Ok l.
Proof.
  intros Hb Ho Hd Hlate [Hs Hdue Hc Hst]. destruct instants_cover as [Hlo Hhi].
  destruct (built_facts i Hb) as (Hl & Hm & Hp). destruct (timetable_step _ _ _ Hb (proj1 Ho) Hd) as (t & Ht & Hdt).
  specialize (Hs _ Ht). unfold skip_last_ordinal, step_ns in *. destruct (si_timing i) as [|first delay max]; [eauto|].
  destruct Hp as [_ Hpos]. assert (0 <= lateness_ns i) by (unfold lateness_ns; lia).
  unfold i64_max in *.
  assert (0 <= (o - 1) * (delay * 1000000)) by nia.
  assert (o - 1 <= 9223372036854) by nia.
  unfold checked_sub_signed. rewrite (proj2 (in_instants_ok _ (now - lateness_ns i))) by lia. simpl.
  rewrite (proj2 (i64_ok _ (now - lateness_ns i - d))) by (unfold i64_min, i64_max; lia). simpl.
  unfold checked_mul. rewrite (proj2 (checked_u64_some _ (delay * 1000000))) by (unfold is_u64, u64_max; lia). simpl.
  rewrite (proj2 (i64_ok _ (delay * 1000000))) by (unfold i64_min, i64_max; lia). simpl.
  rewrite (proj2 (i64_ok _ (now - lateness_ns i - d - 1))) by (unfold i64_min, i64_max; lia). simpl.
  rewrite (proj2 (Z.eqb_neq _ _)) by lia. set (q := Z.quot _ _).
  assert (0 <= q <= 9223372036854775807).
  { unfold q. rewrite Z.quot_div_nonneg by lia. split; [apply Z.div_pos; lia|].
    transitivity (now - lateness_ns i - d - 1); [apply Z.div_le_upper_bound; nia|lia]. }
  unfold u64_try_from. rewrite (proj2 (checked_u64_some _ q)) by (unfold is_u64, u64_max; lia). simpl.
  unfold checked_add. rewrite (proj2 (checked_u64_some _ (o + q))) by (unfold is_u64, u64_max; lia). simpl. eauto.
Qed.

Lemma skip_overdue_defined i first o d now : intent_built i -> 1 <= o <= u64_max -> occurs i o first d ->
  d + lateness_ns i < now -> horizon i o now ->
  exists r, skip_overdue i first d now (lateness_ns i) = Ok r.
Proof.
  intros Hb Ho Hocc Hlate Hh. destruct (built_facts i Hb) as (Hl & Hm & _).
  destruct Hocc as (_ & Hd & Hord & _). unfold skip_overdue.
  change (match si_timing i with At _ => 1 | FixedDelay _ _ m => default u64_max m end) with (max_ordinal i).
  rewrite Hord. destruct (skip_last_ordinal_defined i o d now) as [l El]; [done..|]. rewrite El.
  apply skip_last_ordinal_sound in El as [Hol Hk]; [|done || lia..].
  destruct (proj1 (Hk l (proj1 Hol))) as (e & He & Hle); [lia|]. destruct Hh as [Hs _ Hc Hst].
  assert (0 <= lateness_ns i) by (unfold lateness_ns; lia). pose proof (step_ns_nonneg i Hb).
  destruct (occurrence_defined i l e) as (last & -> & _); [done || lia..|]. simpl.
  destruct (l =? max_ordinal i) eqn:Elm; [eauto|]. bool_hyps.
  unfold checked_add. rewrite (proj2 (checked_u64_some _ (l + 1))) by (unfold is_u64; lia). simpl.
  destruct (timetable i (l + 1)) as [f|] eqn:Ef.
  - assert (f = e + step_ns i).
    { destruct (timetable_step i l e) as (t & Ht & ->); [done || lia..|].
      destruct (timetable_step i (l + 1) f) as (t' & Ht' & ->); [done || lia..|].
      rewrite Ht in Ht'. simplify_eq. lia. }
    destruct (occurrence_defined i (l + 1) f) as (n & -> & _); [done || lia.. |eauto].
  - rewrite timetable_none by (done || lia). eauto.
Qed.

Lemma next_occurrence_defined i handled clock now : intent_built i ->
  is_u64 (default 0 handled) -> next_ordinal handled <= u64_max ->
  canonical_utc clock = Some now -> horizon i (next_ordinal handled) now ->
  exists r, next_occurrence i handled clock = Ok r.
Proof.
  intros Hb Hu Ho Hnow Hh. unfold next_occurrence. rewrite Hnow. simpl.
  assert (Ho' : 1 <= next_ordinal handled <= u64_max) by (unfold is_u64, next_ordinal in *; lia).
  replace (match handled with Some _ => _ | None => _ end) with (Ok (next_ordinal handled) : result Stop Z).
  2:{ unfold next_ordinal in *. destruct handled as [h|]; [|done]. simpl in *. unfold checked_add.
      by rewrite (proj2 (checked_u64_some _ (h + 1))) by (unfold is_u64; lia). }
  destruct (timetable i (next_ordinal handled)) as [d|] eqn:Ed;
    [|rewrite timetable_none by done; eauto].
  assert (Hh' := Hh). destruct Hh' as [Hs Hdue Hc Hst]. specialize (Hdue _ Ed).
  destruct instants_cover as [Hlo Hhi]. destruct (built_facts i Hb) as (Hl & _ & _).
  assert (Hlpos : 0 <= lateness_ns i) by (unfold lateness_ns; lia). pose proof (step_ns_nonneg i Hb).
  assert (0 <= d).
  { destruct (timetable_step _ _ _ Hb (proj1 Ho') Ed) as (t & Ht & ->). specialize (Hs _ Ht). nia. }
  destruct (occurrence_defined i (next_ordinal handled) d) as (n & En & Hn & Ht); [done || lia..|].
  rewrite En, Ht, canonical_reads by lia. simpl. destruct (now <? d); [eauto|].
  rewrite (proj2 (milliseconds_ok _ (lateness_ns i))) by (unfold lateness_ns, i64_min in *; lia).
  unfold checked_add_signed. rewrite (proj2 (in_instants_ok _ (d + lateness_ns i))) by lia. simpl.
  destruct (now <=? _) eqn:Ele; bool_hyps; [eauto|]. destruct (si_misfire_policy i); [eauto| |eauto].
  eapply skip_overdue_defined; [done|done| |done|done]. done.
Qed.

(** C39: The recurrence of a constructed intent never panics. A decision it returns agrees with
    the timetable: exhausted past the bound, not due before the instant, due within the tolerance
    or under FireOnce, failed under Fail, and under Skip the range holds exactly the misfired
    ordinals from the next one on, with the following occurrence. In the range of 64-bit
    nanoseconds a decision is always returned, and after a skipped range the same clock skips
    nothing more. *)
Theorem schedule_decision_exact i handled clock :
  intent_built i -> (forall h, handled = Some h -> is_u64 h) ->
  next_occurrence i handled clock <> Err Panic /\
  (forall r, next_occurrence i handled clock = Ok r ->
     exists now, canonical_utc clock = Some now /\ decides i (next_ordinal handled) now r) /\
  (forall now, canonical_utc clock = Some now -> next_ordinal handled <= u64_max ->
     horizon i (next_ordinal handled) now -> exists r, next_occurrence i handled clock = Ok r) /\
  (forall r s, next_occurrence i handled clock = Ok (Skipped r) ->
     next_occurrence i (Some (sk_last_ordinal r)) clock = Ok s -> ~ exists r', s = Skipped r').
Proof.
  intros Hb Hh. split_and!.
  - by apply next_occurrence_no_panic.
  - intros r. by apply next_occurrence_sound.
  - intros now Hnow Ho. apply next_occurrence_defined; [done| |done..].
    destruct handled; simpl; [auto|]. unfold is_u64, u64_max. lia.
  - intros r s Hr Hs [r' ->].
    apply next_occurrence_sound in Hr as (now & Hnow & Hd); [|done..].
    inversion Hd as [| | | |? first last d e _ _ _ _ Hlast _ Hle Hk _]; subst.
    destruct Hlast as (_ & He & _ & _). pose proof (timetable_occurs _ _ _ He) as Hm.
    destruct (built_facts i Hb) as (_ & Hmu & _).
    assert (Hle' : 0 <= sk_last_ordinal r).
    { destruct handled as [h|]; unfold next_ordinal in *; simpl in *;
        [specialize (Hh h eq_refl); unfold is_u64 in *|]; lia. }
    apply next_occurrence_sound in Hs as (now' & Hnow' & Hd'); [|done|].
    2:{ intros h [= <-]. unfold is_u64. lia. }
    rewrite Hnow in Hnow'. simplify_eq.
    inversion Hd' as [| | | |? first' last' d' e' _ _ _ _ _ _ Hle2 Hk' _]; subst.
    unfold next_ordinal in *. simpl in *.
    pose proof (proj1 (Hk' (sk_last_ordinal r + 1) ltac:(lia)) Hle2) as Hmis.
    apply (Hk (sk_last_ordinal r + 1)) in Hmis; lia.
Qed.
End decisions.

(** ** Bindings *)

Section bindings.
Context `{Externals, IntentCodec, !IntentCodecLaws}.

Lemma semantics_determines c v s d t p l e i :
  mkIntentSemantics c v s d t p l e = semantics_of i <->
  c = INTENT_CONTRACT /\ v = INTENT_VERSION /\ s = si_subject i /\ d = si_subject_binding_digest i /\
  t = si_timing i /\ p = si_misfire_policy i /\ l = si_max_lateness_ms i /\ e = si_effective_limits_digest i.
Proof. unfold semantics_of. split; [intros [=]; subst; by split_and!|]. by intros (-> & -> & -> & -> & -> & -> & -> & ->). Qed.

(** A stored binding is accepted for an intent of safe integers exactly when the intent
    passes the constructor under the given identities and the binding is the one the intent
    writes. *)
Theorem schedule_binding_exact schedule_id revision_id binding i (Hsafe : safe_numbers i) :
  from_binding schedule_id revision_id binding = Ok i <->
  si_schedule_id i = schedule_id /\ si_revision_id i = revision_id /\
  ScheduleIntent_new schedule_id revision_id (si_subject i) (si_subject_binding_digest i) (si_timing i)
    (si_misfire_policy i) (si_max_lateness_ms i) (si_effective_limits_digest i) = Ok i /\
  intent_binding i = Ok binding.
Proof.
  unfold from_binding. split.
  - destruct (semantics_from_str _) as [v|]; [|done]. simpl.
    destruct (jcs_semantics v) as [canonical|] eqn:Ej; [|done]. simpl.
    destruct (_ || _) eqn:Ec; [done|]. bool_hyps.
    destruct (ScheduleIntent_new _ _ _ _ _ _ _ _) as [w|] eqn:En; [|done]. intros [= ->].
    assert (En' := En). apply intent_new_ok in En' as [Hi _].
    assert (v = semantics_of i) as ->.
    { destruct v. apply semantics_determines. rewrite Hi. simpl in *. by split_and!. }
    simpl in *. rewrite jcs_agrees in Ej by done. unfold intent_binding. rewrite Ej. simpl.
    split_and!; [by rewrite Hi..|done|]. destruct binding. simpl in *. congruence.
  - intros (_ & _ & Hn & Hb). unfold intent_binding in Hb.
    destruct (jcs_value (intent_value i)) as [s|] eqn:Es; simplify_eq/=.
    rewrite (semantics_reads i s) by done. simpl. rewrite jcs_agrees, Es by done. simpl.
    rewrite !String.eqb_refl. simpl. by rewrite Hn.
Qed.
End bindings.

(** ** Sample instance *)

Module ScheduleSample.
#[local] Instance externals : Externals := {|
  sha256_hex := @sha256_hex model_externals;
  json_from_str := @json_from_str model_externals;
  parse_rfc3339 s := t ← @parse_rfc3339 model_externals s; checked_u64 t;
  to_rfc3339 := @to_rfc3339 model_externals;
|}.
#[local] Instance instants : Instants := {| instant_min := 0; instant_max := u64_max |}.

Lemma text_inj t u : 0 <= t -> 0 <= u -> nat_to_string t = nat_to_string u -> t = u.
Proof.
  intros Ht Hu E. pose proof (decode_nat_to_string t "" Ht eq_refl) as Dt.
  rewrite E, decode_nat_to_string in Dt by done. by simplify_eq.
Qed.

#[local] Instance instant_laws : InstantLaws.
Proof.
  split; simpl.
  - unfold i64_max, u64_max. lia.
  - intros s t (u & _ & Hu)%bind_Some. apply checked_u64_some in Hu as [<- Hu]. done.
  - intros t u Ht Hu. apply text_inj; lia.
  - intros t Ht. pose proof (decode_nat_to_string t "" ltac:(lia) eq_refl) as D.
    rewrite append_nil in D. rewrite D. simpl. apply checked_u64_some. unfold is_u64, i64_max, u64_max in *. lia.
Qed.

Definition encoded (v : Value) : option string := match encode v with Ok s => Some s | Err _ => None end.
Definition subject_of (s : string) : ScheduleSubject :=
  if (s =? "start_turn")%string then StartTurn else ContinueTurnResourceReady.
Definition policy_of (s : string) : MisfirePolicy :=
  if (s =? "fire_once")%string then FireOnce else if (s =? "skip")%string then Skip else FailPolicy.
Definition timing_of (v : Value) : option ScheduleTiming :=
  match v with
  | Obj [(_, Str due); _] => Some (At due)
  | Obj [(_, Num (PosInt delay)); (_, Str first); _] => Some (FixedDelay first delay None)
  | Obj [(_, Num (PosInt delay)); (_, Str first); _; (_, Num (PosInt max))] =>
      Some (FixedDelay first delay (Some max))
  | _ => None
  end.
Definition fields_of (v : Value) : option IntentSemantics :=
  match v with
  | Obj [(_, Str c); (_, Str e); (_, Num (PosInt l)); (_, Str p); (_, Str s); (_, Str d); (_, t);
         (_, Num (PosInt n))] =>
      t ← timing_of t; Some (mkIntentSemantics c n (subject_of s) d t (policy_of p) l e)
  | _ => None
  end.
Definition intent_of (x : IntentSemantics) : ScheduleIntent :=
  mkScheduleIntent "" "" (is_subject x) (is_subject_binding_digest x) (is_timing x) (is_misfire_policy x)
    (is_max_lateness_ms x) (is_effective_limits_digest x).
#[local] Instance codec : IntentCodec := {|
  jcs_value := encoded;
  jcs_semantics x := encoded (intent_value (intent_of x));
  semantics_from_str s := v ← json_from_str s; fields_of v;
|}.

Lemma safe_wf i : safe_numbers i -> value_wf (intent_value i) = true.
Proof.
  intros [Hl Ht]. unfold intent_value. simpl. unfold number_wf, max_safe in *.
  repeat rewrite andb_true_iff. destruct (si_timing i) as [|first delay [count|]]; simpl; unfold number_wf;
    rewrite ?andb_true_iff, ?Z.leb_le; unfold u64_max; split_and!; done || lia.
Qed.

#[local] Instance codec_laws : IntentCodecLaws.
Proof.
  split; simpl.
  - done.
  - intros i s Hs Hv. unfold encoded in Hv. destruct (encode _) as [t|] eqn:E; simplify_eq.
    rewrite (decode_encode (intent_value i)) by (done || by apply safe_wf). simpl.
    unfold semantics_of. destruct i as [? ? [] ? [|? ? []] [] ? ?]; reflexivity.
  - intros. eexists. reflexivity.
Qed.

(** Every ten milliseconds, three times, from one second after the epoch. *)
Definition intent : ScheduleIntent :=
  mkScheduleIntent "s" "r" StartTurn (model_digest "a") (FixedDelay "1000000000" 10 (Some 3)) Skip 5
    (model_digest "b").
Lemma intent_is_built : intent_built intent.
Proof.
  split; [by vm_compute|by vm_compute|]. split; [by vm_compute|]. intros c [= <-]. by vm_compute.
Qed.
End ScheduleSample.

Section sample_witnesses.
Import ScheduleSample.
#[local] Existing Instances externals instants instant_laws codec codec_laws.

Lemma schedule_decision_exact_witness :
  exists r, next_occurrence intent (Some 1) "2000000000" = Ok r /\
    exists now, canonical_utc "2000000000" = Some now /\ decides intent 2 now r.
Proof.
  pose proof (schedule_decision_exact intent (Some 1) "2000000000" intent_is_built) as (_ & Hs & Hd & _).
  - intros h [= <-]. by vm_compute.
  - destruct (Hd 2000000000) as [r Hr]; [by vm_compute|by vm_compute| |eauto].
    split; [intros t [= <-]; done|intros d [= <-]; by vm_compute|done|by vm_compute].
Defined.

Lemma schedule_binding_exact_witness :
  exists binding, intent_binding intent = Ok binding /\ from_binding "s" "r" binding = Ok intent.
Proof.
  eexists. split; [reflexivity|]. apply schedule_binding_exact; [by repeat split|].
  split_and!; [done..|by vm_compute|done].
Defined.
End sample_witnesses.
