(* ===== verification/ModelTypes.v ===== *)
(** * Model contract ([engine/llm/src/outcome.rs], [request.rs], [stream.rs])

    The provider-neutral values of a model call, the validation of a request, and
    the validator of a stream of progress events, with the declarative meaning of
    an accepted stream. *)

From S2P Require Import Prelude.

(** ** Usage *)

Inductive TokenCount := Known (count : Z) | Unknown.
Inductive UsageTotal := TotalKnown (total : Z) | TotalUnknown | TotalOverflow.
Inductive UsageSource := ProviderReported | Estimated.

Record ModelUsage := mkModelUsage {
  mu_input_tokens : TokenCount;
  mu_output_tokens : TokenCount;
  mu_cache_read_tokens : option TokenCount;
  mu_cache_write_tokens : option TokenCount;
  mu_source : UsageSource;
}.

Definition total_tokens (self : ModelUsage) : UsageTotal :=
  match mu_input_tokens self, mu_output_tokens self with
  | Known input, Known output =>
      match checked_add input output with Some total => TotalKnown total | None => TotalOverflow end
  | _, _ => TotalUnknown
  end.

(** ** Outcomes *)

Inductive ReasoningContent := ModelVisible (text : string) | OpaqueReference (reference : string).
Inductive MediaKind := Image | Audio | Video | File | OtherMedia (name : string).

Inductive ModelItem :=
  | ItemText (text : string)
  | ItemRefusal (text : string)
  | ItemReasoning (content : ReasoningContent)
  | ItemToolIntent (model_call_id tool_name arguments_json : string)
  | ItemToolObservation (model_call_id result_json : string)
  | ItemMediaReference (media_kind : MediaKind) (reference : string).

Inductive ModelStopReason :=
  | EndTurn | ToolUse | StopSequence | PauseTurn | StopRefusal | OtherStop (name : string).
Inductive RejectionKind := ContextOverflow | Authentication | ContentPolicy.
Inductive InterruptionKind := InterruptCancelled | OutputLimit | Transport.
Inductive UnavailableKind := RateLimited | ModelUnavailable | CircuitOpen.

Inductive InvokeOutcome :=
  | Completed (items : list ModelItem) (usage : ModelUsage) (stop_reason : ModelStopReason)
  | Rejected (kind : RejectionKind) (sanitized_evidence : string)
  | Interrupted (kind : InterruptionKind) (partial_items : list ModelItem) (usage : ModelUsage)
  | Unavailable (kind : UnavailableKind) (retry_after : option Z).

(** ** Requests *)

Inductive ModelCapability := CapText | CapVision | CapReasoning | CapTools | CapJsonOutput | CapStreaming.
Inductive ModelRole := RoleSystem | RoleDeveloper | RoleUser | RoleAssistant.

Inductive ModelInputContent :=
  | ContentText (text : string)
  | ContentMediaReference (media_kind : MediaKind) (reference media_type : string).

Inductive ModelInputItem :=
  | InputMessage (role : ModelRole) (content : list ModelInputContent)
  | InputToolIntent (model_call_id tool_name arguments_json : string)
  | InputToolObservation (model_call_id result_json : string)
  | InputReasoningReference (reference : string).

Record ToolDescriptor := mkToolDescriptor {
  td_name : string;
  td_description : string;
  td_definition_revision : string;
  td_input_schema_json : string;
  td_strict : bool;
}.

Inductive TextMode := Plain | JsonObject | JsonSchema (schema_json : string).

Record ModelOutputSettings := mkOutputSettings {
  mo_max_output_tokens : option Z;
  mo_text_mode : TextMode;
  mo_reasoning_visibility : bool;
}.

Record ModelRequest := mkModelRequest {
  mr_request_id : string;
  mr_target_id : string;
  mr_required_capabilities : list ModelCapability;
  mr_input_items : list ModelInputItem;
  mr_tools : list ToolDescriptor;
  mr_output : ModelOutputSettings;
  mr_trace_metadata : list (string * string);
}.

Inductive RequestValidationError :=
  | EmptyIdentity | DuplicateCapability | InvalidTool | DuplicateTool | ZeroOutputLimit
  | InvalidMetadata | DuplicateMetadata.

Definition request_error_code (self : RequestValidationError) : string :=
  match self with
  | EmptyIdentity => "empty-identity"
  | DuplicateCapability => "duplicate-capability"
  | InvalidTool => "invalid-tool"
  | DuplicateTool => "duplicate-tool"
  | ZeroOutputLimit => "zero-output-limit"
  | InvalidMetadata => "invalid-metadata"
  | DuplicateMetadata => "duplicate-metadata"
  end.

#[export] Instance ModelCapability_eq_dec : EqDecision ModelCapability.
Proof. solve_decision. Defined.
#[export] Instance RequestValidationError_eq_dec : EqDecision RequestValidationError.
Proof. solve_decision. Defined.

(** The loops over the tools and over the metadata, each with the set of names
    seen so far. *)
Definition check_tool (names : gset string) (tool : ToolDescriptor)
    : result RequestValidationError (gset string) :=
  if str_is_empty (td_name tool) || str_is_empty (td_definition_revision tool)
     || str_is_empty (td_input_schema_json tool) then Err InvalidTool
  else if bool_decide (td_name tool ∈ names) then Err DuplicateTool
  else Ok ({[td_name tool]} ∪ names).

Definition check_metadata (keys : gset string) (entry : string * string)
    : result RequestValidationError (gset string) :=
  if str_is_empty entry.1 || (64 <? str_len entry.1) || (512 <? str_len entry.2) then Err InvalidMetadata
  else if bool_decide (entry.1 ∈ keys) then Err DuplicateMetadata
  else Ok ({[entry.1]} ∪ keys).

Definition model_request_validate (self : ModelRequest) : result RequestValidationError unit :=
  reject EmptyIdentity when str_is_empty (mr_request_id self) || str_is_empty (mr_target_id self);
  reject DuplicateCapability when negb (bool_decide (NoDup (mr_required_capabilities self)));
  let? _ := try_fold check_tool ∅ (mr_tools self) in
  reject ZeroOutputLimit when is_some_and (fun n => n =? 0) (mo_max_output_tokens (mr_output self));
  let? _ := try_fold check_metadata ∅ (mr_trace_metadata self) in
  Ok tt.

(** ** Streams *)

Inductive ModelOutputKind :=
  | OutText | OutRefusal | OutReasoning
  | OutToolIntent (model_call_id : string)
  | OutToolObservation | OutMediaReference.

#[export] Instance ModelOutputKind_eq_dec : EqDecision ModelOutputKind.
Proof. solve_decision. Defined.

Inductive ModelStreamEvent :=
  | OutputItemStarted (output_index : Z) (kind : ModelOutputKind)
  | TextDelta (output_index : Z) (delta : string)
  | RefusalDelta (output_index : Z) (delta : string)
  | ReasoningDelta (output_index : Z) (delta : string)
  | ToolArgumentsDelta (output_index : Z) (model_call_id delta : string)
  | OutputItemCompleted (output_index : Z) (item : ModelItem)
  | UsageUpdated (usage : ModelUsage).

Inductive StreamInvariantError :=
  | NonMonotonicStart | ItemNotStarted | ItemAlreadyCompleted | ItemKindMismatch.

Definition stream_error_code (self : StreamInvariantError) : string :=
  match self with
  | NonMonotonicStart => "non-monotonic-start"
  | ItemNotStarted => "item-not-started"
  | ItemAlreadyCompleted => "item-already-completed"
  | ItemKindMismatch => "item-kind-mismatch"
  end.

Record StreamValidator := mkStreamValidator {
  sv_started : gmap Z ModelOutputKind;
  sv_completed : gset Z;
  sv_last_started : option Z;
}.
Definition stream_validator_default : StreamValidator := mkStreamValidator ∅ ∅ None.

#[export] Instance StreamValidator_eta : Eta StreamValidator := fun r =>
  mkStreamValidator (sv_started r) (sv_completed r) (sv_last_started r).

Definition kind_of (item : ModelItem) : ModelOutputKind :=
  match item with
  | ItemText _ => OutText
  | ItemRefusal _ => OutRefusal
  | ItemReasoning _ => OutReasoning
  | ItemToolIntent model_call_id _ _ => OutToolIntent model_call_id
  | ItemToolObservation _ _ => OutToolObservation
  | ItemMediaReference _ _ => OutMediaReference
  end.

Definition require_kind (self : StreamValidator) (output_index : Z) (expected : ModelOutputKind)
    : result StreamInvariantError unit :=
  let? actual := ok_or (sv_started self !! output_index) ItemNotStarted in
  reject ItemAlreadyCompleted when bool_decide (output_index ∈ sv_completed self);
  reject ItemKindMismatch when negb (bool_decide (actual = expected));
  Ok tt.

Definition stream_accept (self : StreamValidator) (event : ModelStreamEvent)
    : result StreamInvariantError StreamValidator :=
  match event with
  | OutputItemStarted output_index kind =>
      if is_some_and (fun last => output_index <=? last) (sv_last_started self)
      then Err NonMonotonicStart
      else Ok (self <| sv_started ::= <[output_index := kind]> |> <| sv_last_started := Some output_index |>)
  | TextDelta output_index _ => require_kind self output_index OutText ?; Ok self
  | RefusalDelta output_index _ => require_kind self output_index OutRefusal ?; Ok self
  | ReasoningDelta output_index _ => require_kind self output_index OutReasoning ?; Ok self
  | ToolArgumentsDelta output_index model_call_id _ =>
      require_kind self output_index (OutToolIntent model_call_id) ?; Ok self
  | OutputItemCompleted output_index item =>
      if bool_decide (output_index ∈ sv_completed self) then Err ItemAlreadyCompleted
      else
        require_kind self output_index (kind_of item) ?;
        Ok (self <| sv_completed ::= fun c => {[output_index]} ∪ c |>)
  | UsageUpdated _ => Ok self
  end.

(** ** What an accepted stream means *)

(** The item an event writes to, with the kind that item must have. *)
Definition event_target (event : ModelStreamEvent) : option (Z * ModelOutputKind) :=
  match event with
  | TextDelta n _ => Some (n, OutText)
  | RefusalDelta n _ => Some (n, OutRefusal)
  | ReasoningDelta n _ => Some (n, OutReasoning)
  | ToolArgumentsDelta n id _ => Some (n, OutToolIntent id)
  | OutputItemCompleted n item => Some (n, kind_of item)
  | _ => None
  end.

(** An event is in place after a prefix: a start exceeds every earlier start, and
    a write goes to an item of its kind that was started and not completed. *)
Definition in_place (before : list ModelStreamEvent) (event : ModelStreamEvent) : Prop :=
  (forall n kind, event = OutputItemStarted n kind ->
     forall m kind', OutputItemStarted m kind' ∈ before -> m < n) /\
  (forall n kind, event_target event = Some (n, kind) ->
     OutputItemStarted n kind ∈ before /\ forall item, OutputItemCompleted n item ∉ before).

Definition stream_well_formed (events : list ModelStreamEvent) : Prop :=
  forall before event after, events = before ++ event :: after -> in_place before event.

(** The validator after a prefix records exactly its starts and completions. *)
Record stream_state (before : list ModelStreamEvent) (v : StreamValidator) : Prop := {
  ss_started n kind : sv_started v !! n = Some kind <-> OutputItemStarted n kind ∈ before;
  ss_completed n : n ∈ sv_completed v <-> exists item, OutputItemCompleted n item ∈ before;
  ss_last n kind : OutputItemStarted n kind ∈ before -> exists m, sv_last_started v = Some m /\ n <= m;
  ss_last_in m : sv_last_started v = Some m -> exists kind, OutputItemStarted m kind ∈ before;
}.

Lemma stream_state_nil : stream_state [] stream_validator_default.
Proof.
  split; simpl.
  - intros n kind. rewrite lookup_empty, elem_of_nil. naive_solver.
  - intros n. split; [set_solver|]. intros [item Hi]. by apply elem_of_nil in Hi.
  - intros n kind Hi. by apply elem_of_nil in Hi.
  - done.
Qed.

Lemma require_kind_ok before v n kind : stream_state before v ->
  require_kind v n kind = Ok tt <->
  OutputItemStarted n kind ∈ before /\ forall item, OutputItemCompleted n item ∉ before.
Proof.
  intros [Hs Hc _ _]. unfold require_kind. rewrite <-Hs. specialize (Hc n).
  destruct (sv_started v !! n) as [k|]; simpl; [|naive_solver].
  case_bool_decide as E; [naive_solver|]. case_bool_decide; naive_solver.
Qed.

Ltac stream_members :=
  repeat match goal with
  | H : _ ∈ _ ++ [_] |- _ => apply elem_of_app in H as [H|H%list_elem_of_singleton]
  | |- context [_ ∈ _ ++ [_]] => rewrite elem_of_app, list_elem_of_singleton
  end.

Lemma stream_start_step before v n kind :
  stream_state before v -> (forall m kind', OutputItemStarted m kind' ∈ before -> m < n) ->
  stream_state (before ++ [OutputItemStarted n kind])
    (v <| sv_started ::= <[n := kind]> |> <| sv_last_started := Some n |>).
Proof.
  intros [Hs Hc Hl Hi] Hlt. split; simpl.
  - intros m k. stream_members. destruct (decide (m = n)) as [->|Hne].
    + rewrite lookup_insert_eq. split; [naive_solver|]. intros [Hin|[=]]; [|naive_solver].
      specialize (Hlt _ _ Hin). lia.
    + rewrite lookup_insert_ne by done. naive_solver.
  - intros m. rewrite Hc. split; intros [item Hin]; exists item; stream_members; naive_solver.
  - intros m k Hin. exists n. split; [done|]. stream_members; [specialize (Hlt _ _ Hin); lia|naive_solver lia].
  - intros m [= <-]. exists kind. stream_members. by right.
Qed.

Lemma stream_other_step before v event :
  stream_state before v -> (forall n kind, event <> OutputItemStarted n kind) ->
  stream_state (before ++ [event])
    (match event with OutputItemCompleted n _ => v <| sv_completed ::= fun c => {[n]} ∪ c |> | _ => v end).
Proof.
  intros [Hs Hc Hl Hi] Hne.
  assert (Hstart : forall n kind, OutputItemStarted n kind ∈ before ++ [event] <-> OutputItemStarted n kind ∈ before).
  { intros n kind. stream_members. naive_solver. }
  assert (Hproj : forall v', sv_started v' = sv_started v -> sv_last_started v' = sv_last_started v ->
    (forall n, n ∈ sv_completed v' <-> exists item, OutputItemCompleted n item ∈ before ++ [event]) ->
    stream_state (before ++ [event]) v').
  { intros v' E1 E2 Hc'. split; [intros n kind; by rewrite E1, Hstart|done| |].
    - intros n kind Hin%Hstart. rewrite E2. eauto.
    - intros m. rewrite E2. intros [kind Hk]%Hi. exists kind. by apply Hstart. }
  destruct event as [n kind| | | | |n item|]; [naive_solver|..];
    apply Hproj; try done; intros m; simpl; try rewrite elem_of_union, elem_of_singleton;
    rewrite Hc; setoid_rewrite elem_of_app; setoid_rewrite list_elem_of_singleton; naive_solver.
Qed.

Lemma stream_accept_step before v event : stream_state before v ->
  (exists v', stream_accept v event = Ok v' /\ stream_state (before ++ [event]) v' /\ in_place before event) \/
  (exists e, stream_accept v event = Err e) /\ ~ in_place before event.
Proof.
  intros Hv. pose proof (fun n kind => require_kind_ok before v n kind Hv) as Hk.
  assert (Hwrite : forall n kind v', event_target event = Some (n, kind) ->
    (forall m k, event <> OutputItemStarted m k) ->
    v' = (match event with OutputItemCompleted n _ => v <| sv_completed ::= fun c => {[n]} ∪ c |> | _ => v end) ->
    stream_accept v event = (require_kind v n kind ?; Ok v') ->
    (exists v', stream_accept v event = Ok v' /\ stream_state (before ++ [event]) v' /\ in_place before event) \/
    (exists e, stream_accept v event = Err e) /\ ~ in_place before event).
  { intros n kind v' Ht Hns -> ->. specialize (Hk n kind). destruct (require_kind v n kind) as [[]|e].
    - left. eexists. split; [done|]. split; [by apply stream_other_step|]. split; naive_solver.
    - right. split; [eauto|]. intros [_ Hp]. apply Hp in Ht. apply Hk in Ht. done. }
  destruct event as [n kind|n d|n d|n d|n id d|n item|u]; try (eapply Hwrite; done).
  - simpl. destruct (is_some_and _ _) eqn:E.
    + right. split; [eauto|]. intros [Hp _]. destruct (sv_last_started v) as [m|] eqn:El; [|done].
      destruct (ss_last_in before v Hv m El) as [k Hin]. specialize (Hp n kind eq_refl m k Hin).
      simpl in E. bool_hyps. lia.
    + left. eexists. split; [done|].
      assert (Hlt : forall m kind', OutputItemStarted m kind' ∈ before -> m < n).
      { intros m k Hin. destruct (ss_last before v Hv m k Hin) as (l & El & Hle). rewrite El in E.
        simpl in E. bool_hyps. lia. }
      split; [by apply stream_start_step|]. split; naive_solver.
  - destruct (bool_decide (n ∈ sv_completed v)) eqn:E; bool_hyps.
    + right. split; [simpl; rewrite bool_decide_eq_true_2 by done; eauto|]. intros [_ Hp]. destruct (Hp n (kind_of item) eq_refl) as [_ Hno].
      apply (ss_completed before v Hv) in E as [i Hi]. by apply (Hno i).
    + eapply Hwrite; [done..|]. simpl. by rewrite bool_decide_eq_false_2.
  - left. exists v. split; [done|]. split; [by apply (stream_other_step before v (UsageUpdated u))|]. split; naive_solver.
Qed.

Lemma stream_well_formed_snoc before event after :
  stream_well_formed (before ++ event :: after) -> in_place before event.
Proof. intros H. by eapply H. Qed.

Lemma stream_fold_exact before v events : stream_state before v ->
  (forall pre event post, before ++ events = pre ++ event :: post -> (length pre < length before)%nat ->
     in_place pre event) ->
  is_ok (try_fold stream_accept v events) = true <-> stream_well_formed (before ++ events).
Proof.
  revert before v. induction events as [|event events IH]; intros before v Hv Hpre; simpl.
  - split; [|done]. intros _ pre e post Heq. eapply Hpre; [done|].
    rewrite app_nil_r in Heq. rewrite Heq, length_app. simpl. lia.
  - destruct (stream_accept_step before v event Hv) as [(v' & -> & Hv' & Hin)|[[e ->] Hnot]].
    + replace (before ++ event :: events) with ((before ++ [event]) ++ events) by by rewrite <-app_assoc.
      apply IH; [done|]. intros pre e post Heq Hlen. rewrite <-app_assoc in Heq. simpl in Heq.
      rewrite length_app in Hlen. simpl in Hlen. destruct (decide (length pre < length before)%nat) as [Hlt|Hge].
      { by eapply Hpre. }
      apply app_inj_1 in Heq as [<- [= <- _]]; [done|lia].
    + simpl. split; [done|]. intros Hwf. exfalso. apply Hnot. by eapply stream_well_formed_snoc.
Qed.

(** The stream validator accepts a sequence of model events exactly when output items start
    in increasing order, deltas go to started items of their kind, and an item completes once with
    its kind. *)
Theorem stream_validator_exact events :
  is_ok (try_fold stream_accept stream_validator_default events) = true <-> stream_well_formed events.
Proof. apply (stream_fold_exact []); [apply stream_state_nil|]. simpl. lia. Qed.
