(* ===== verification/ContextSurface.v ===== *)
(** * Context derivation ([engine/core/src/context.rs])

    Candidates projected from ledger facts are merged, filtered by window and
    visibility, and fitted into an item and a byte budget; the surface is then put
    in the order the model sees.  [usize] has 64 bits. *)

From S2P Require Import Prelude ModelTypes.

Inductive ContextPurpose := Inference | Governance | ToolPreparation | Summarization.
Inductive CandidateKind :=
  | KindInstruction | KindSkill | KindUserInput | KindModelOutput | KindToolObservation | KindApproval
  | KindSummary | KindSystemNotice | KindMemory | KindKnowledge.
Inductive Retention := Required | Optional.

#[export] Instance ContextPurpose_eq_dec : EqDecision ContextPurpose.
Proof. solve_decision. Defined.
#[export] Instance ContextPurpose_countable : Countable ContextPurpose.
Proof.
  refine (inj_countable' (fun p => match p with Inference => 0%nat | Governance => 1%nat
            | ToolPreparation => 2%nat | Summarization => 3%nat end)
          (fun n => match n with 0%nat => Inference | 1%nat => Governance | 2%nat => ToolPreparation
            | _ => Summarization end) _). by intros [].
Defined.
#[export] Instance Retention_eq_dec : EqDecision Retention.
Proof. solve_decision. Defined.

Inductive Visibility := Visible | Redacted | Purposes (purposes : gset ContextPurpose).

Record FactRef := mkFactRef { fr_session_id : string; fr_position : Z }.
#[export] Instance FactRef_eq_dec : EqDecision FactRef.
Proof. solve_decision. Defined.

Record ContextCandidate := mkCandidate {
  cc_fact_ref : FactRef;
  cc_kind : CandidateKind;
  cc_retention : Retention;
  cc_visibility : Visibility;
  cc_items : list ModelInputItem;
}.
Definition cc_position (c : ContextCandidate) : Z := fr_position (cc_fact_ref c).

Record ContextRequest := mkContextRequest {
  cr_session_id : string;
  cr_turn_id : string;
  cr_purpose : ContextPurpose;
  cr_after_position : option Z;
  cr_through_position : Z;
  cr_max_items : Z;
  cr_max_utf8_bytes : Z;
}.

Inductive ContextItem :=
  | Input (fact_ref : FactRef) (kind : CandidateKind) (item : ModelInputItem)
  | RedactedItem (fact_ref : FactRef).

Record ContextSurface := mkContextSurface {
  cs_purpose : ContextPurpose;
  cs_from_position : Z;
  cs_through_position : Z;
  cs_items : list ContextItem;
  cs_retained_refs : list FactRef;
  cs_dropped_refs : list FactRef;
  cs_filtered_refs : list FactRef;
  cs_item_count : Z;
  cs_utf8_bytes : Z;
}.

Inductive ContextDerivationError :=
  | InvalidRequest | SessionMismatch | PositionBeyondSurface | NonIncreasingPosition | DuplicateReference
  | EmptyRequiredContent | InvalidVisibility | BudgetOverflow
  | RequiredFactsExceedBudget (item_count utf8_bytes : Z).

Definition context_error_code (self : ContextDerivationError) : string :=
  match self with
  | InvalidRequest => "invalid-request"
  | SessionMismatch => "session-mismatch"
  | PositionBeyondSurface => "position-beyond-surface"
  | NonIncreasingPosition => "non-increasing-position"
  | DuplicateReference => "duplicate-reference"
  | EmptyRequiredContent => "empty-required-content"
  | InvalidVisibility => "invalid-visibility"
  | BudgetOverflow => "budget-overflow"
  | RequiredFactsExceedBudget _ _ => "required-facts-exceed-budget"
  end.

Abbreviation CRes := (result ContextDerivationError) (only parsing).

(** ** Merging *)

Fixpoint validate_stream_order (values : list ContextCandidate) : CRes unit :=
  match values with
  | a :: ((b :: _) as rest) =>
      if cc_position a <? cc_position b then validate_stream_order rest
      else if cc_position a =? cc_position b then Err DuplicateReference
      else Err NonIncreasingPosition
  | _ => Ok tt
  end.

(** The [while let] over both peeked streams, then the two [extend]s. *)
Fixpoint merge_loop (left : list ContextCandidate) : list ContextCandidate -> CRes (list ContextCandidate) :=
  fix merge_right (right : list ContextCandidate) : CRes (list ContextCandidate) :=
    match left, right with
    | a :: left', b :: right' =>
        if cc_position a <? cc_position b
        then let? rest := merge_loop left' right in Ok (a :: rest)
        else if cc_position a =? cc_position b then Err DuplicateReference
        else let? rest := merge_right right' in Ok (b :: rest)
    | _, _ => Ok (left ++ right)
    end.

Definition merge_context_candidates (base capability : list ContextCandidate) : CRes (list ContextCandidate) :=
  validate_stream_order base ?;
  validate_stream_order capability ?;
  merge_loop base capability.

(** ** Costs *)

Definition add_usize (total value : Z) : CRes Z := ok_or (checked_add total value) BudgetOverflow.

Definition content_strings (value : ModelInputContent) : list string :=
  match value with
  | ContentText text => [text]
  | ContentMediaReference media_kind reference media_type =>
      [reference; media_type] ++ match media_kind with OtherMedia name => [name] | _ => [] end
  end.
Definition item_strings (item : ModelInputItem) : list string :=
  match item with
  | InputMessage _ content => content ≫= content_strings
  | InputToolObservation model_call_id result_json => [model_call_id; result_json]
  | InputToolIntent model_call_id tool_name arguments_json => [model_call_id; tool_name; arguments_json]
  | InputReasoningReference reference => [reference]
  end.
Definition item_utf8_bytes (item : ModelInputItem) : CRes Z :=
  try_fold (fun total value => add_usize total (str_len value)) 0 (item_strings item).

Definition candidate_cost (items : list ModelInputItem) : CRes (Z * Z) :=
  let? bytes := try_fold (fun bytes item =>
      let? size := item_utf8_bytes item in add_usize bytes size) 0 items in
  Ok (Z.of_nat (length items), bytes).

(** ** Derivation *)

Definition is_visible_for (visibility : Visibility) (purpose : ContextPurpose) : CRes bool :=
  match visibility with
  | Visible | Redacted => Ok true
  | Purposes purposes =>
      if bool_decide (purposes = ∅) then Err InvalidVisibility else Ok (bool_decide (purpose ∈ purposes))
  end.

Definition is_redacted (visibility : Visibility) : bool :=
  match visibility with Redacted => true | _ => false end.
Definition is_required (c : ContextCandidate) : bool := bool_decide (cc_retention c = Required).

Definition validate_candidate (request : ContextRequest) (candidate : ContextCandidate)
    (last_position : option Z) : CRes (option Z) :=
  reject SessionMismatch when negb (fr_session_id (cc_fact_ref candidate) =? cr_session_id request)%string;
  reject PositionBeyondSurface when
    (cc_position candidate =? 0) || (cr_through_position request <? cc_position candidate);
  match last_position with
  | Some last =>
      if cc_position candidate =? last then Err DuplicateReference
      else if cc_position candidate <? last then Err NonIncreasingPosition else Ok tt
  | None => Ok tt
  end ?;
  reject EmptyRequiredContent when is_required candidate && bool_decide (cc_items candidate = []);
  Ok (Some (cc_position candidate)).

Record Eligible := mkEligible {
  el_candidate : ContextCandidate;
  el_item_count : Z;
  el_utf8_bytes : Z;
  el_redacted : bool;
}.

(** One turn of the loop over the candidates. *)
Definition classify_candidate (request : ContextRequest)
    (state : option Z * list FactRef * list Eligible) (candidate : ContextCandidate)
    : CRes (option Z * list FactRef * list Eligible) :=
  let '(last_position, filtered_refs, eligible) := state in
  let? last_position := validate_candidate request candidate last_position in
  let filtered := (last_position, filtered_refs ++ [cc_fact_ref candidate], eligible) in
  if is_some_and (fun after => cc_position candidate <=? after) (cr_after_position request) then Ok filtered
  else
    let? visible := is_visible_for (cc_visibility candidate) (cr_purpose request) in
    if negb visible then Ok filtered
    else
      let redacted := is_redacted (cc_visibility candidate) in
      let? (item_count, utf8_bytes) := (if redacted then Ok (1, 0) else candidate_cost (cc_items candidate)) in
      reject EmptyRequiredContent when
        is_required candidate && negb redacted && ((item_count =? 0) || (utf8_bytes =? 0));
      Ok (last_position, filtered_refs, eligible ++ [mkEligible candidate item_count utf8_bytes redacted]).

(** The loop over the required candidates: item count, bytes, retained positions. *)
Definition charge_required (state : Z * Z * gset Z) (value : Eligible) : CRes (Z * Z * gset Z) :=
  let '(items, bytes, retained) := state in
  if is_required (el_candidate value) then
    let? items := add_usize items (el_item_count value) in
    let? bytes := add_usize bytes (el_utf8_bytes value) in
    Ok (items, bytes, {[cc_position (el_candidate value)]} ∪ retained)
  else Ok state.

(** The loop over the optional candidates, newest first. *)
Definition charge_optional (request : ContextRequest) (state : Z * Z * gset Z) (value : Eligible)
    : CRes (Z * Z * gset Z) :=
  let '(items, bytes, retained) := state in
  if is_required (el_candidate value) then Ok state
  else
    let? next_items := add_usize items (el_item_count value) in
    let? next_bytes := add_usize bytes (el_utf8_bytes value) in
    if (next_items <=? cr_max_items request) && (next_bytes <=? cr_max_utf8_bytes request)
    then Ok (next_items, next_bytes, {[cc_position (el_candidate value)]} ∪ retained)
    else Ok state.

Definition emitted_items (value : Eligible) : list ContextItem :=
  let candidate := el_candidate value in
  if el_redacted value then [RedactedItem (cc_fact_ref candidate)]
  else Input (cc_fact_ref candidate) (cc_kind candidate) <$> cc_items candidate.

Definition derive_context (request : ContextRequest) (candidates : list ContextCandidate) : CRes ContextSurface :=
  let? from_position := ok_or (checked_add (default 0 (cr_after_position request)) 1) InvalidRequest in
  reject InvalidRequest when
    str_is_empty (cr_session_id request) || str_is_empty (cr_turn_id request)
    || (cr_through_position request =? 0) || (cr_max_items request =? 0) || (cr_max_utf8_bytes request =? 0)
    || is_some_and (fun after => cr_through_position request <=? after) (cr_after_position request);
  let? (_, filtered_refs, eligible) := try_fold (classify_candidate request) (None, [], []) candidates in
  let? (required_items, required_bytes, retained) := try_fold charge_required (0, 0, ∅) eligible in
  reject (RequiredFactsExceedBudget required_items required_bytes) when
    (cr_max_items request <? required_items) || (cr_max_utf8_bytes request <? required_bytes);
  let? (item_count, utf8_bytes, retained) :=
    try_fold (charge_optional request) (required_items, required_bytes, retained) (rev eligible) in
  let kept value := bool_decide (cc_position (el_candidate value) ∈ retained) in
  Ok (mkContextSurface (cr_purpose request) from_position (cr_through_position request)
        (List.filter kept eligible ≫= emitted_items)
        ((fun v => cc_fact_ref (el_candidate v)) <$> List.filter kept eligible)
        ((fun v => cc_fact_ref (el_candidate v)) <$> List.filter (fun v => negb (kept v)) eligible)
        filtered_refs item_count utf8_bytes).

(** ** Presentation *)

Definition is_instruction (item : ModelInputItem) : bool :=
  match item with InputMessage (RoleSystem | RoleDeveloper) _ => true | _ => false end.

Record Assembly := mkAssembly {
  as_instructions : list ModelInputItem;
  as_skills : list ModelInputItem;
  as_memory : list ModelInputItem;
  as_knowledge : list ModelInputItem;
  as_history : list ModelInputItem;
}.
#[export] Instance Assembly_eta : Eta Assembly := fun r =>
  mkAssembly (as_instructions r) (as_skills r) (as_memory r) (as_knowledge r) (as_history r).

Definition push_item (buckets : Assembly) (value : ContextItem) : Assembly :=
  match value with
  | Input _ kind item =>
      match kind with
      | KindSkill => buckets <| as_skills ::= fun l => l ++ [item] |>
      | KindMemory => buckets <| as_memory ::= fun l => l ++ [item] |>
      | KindKnowledge => buckets <| as_knowledge ::= fun l => l ++ [item] |>
      | _ => if is_instruction item then buckets <| as_instructions ::= fun l => l ++ [item] |>
             else buckets <| as_history ::= fun l => l ++ [item] |>
      end
  | RedactedItem _ => buckets
  end.

Definition assemble_model_inputs (surface : ContextSurface) : list ModelInputItem :=
  let b := fold_left push_item (cs_items surface) (mkAssembly [] [] [] [] []) in
  as_instructions b ++ as_skills b ++ as_memory b ++ as_knowledge b ++ as_history b.
