(* ===== verification/ContextTheorems.v ===== *)
(** * Correctness of context derivation

    What a derived surface contains, in terms of the eligibility and the cost of
    each candidate: nothing outside the window or the purpose, everything
    required, and the newest optional candidates that fit. *)

From S2P Require Import Prelude Text ModelTypes ContextSurface.

(** ** Sums *)

Definition zsum {A} (f : A -> Z) (l : list A) : Z := foldr (fun x s => f x + s) 0 l.

Lemma zsum_app {A} (f : A -> Z) l k : zsum f (l ++ k) = zsum f l + zsum f k.
Proof. induction l as [|x l IH]; simpl; [done|]. rewrite IH. lia. Qed.
Lemma zsum_nonneg {A} (f : A -> Z) l : (forall x, 0 <= f x) -> 0 <= zsum f l.
Proof. intros Hf. induction l as [|x l IH]; simpl; [done|]. specialize (Hf x). lia. Qed.
Lemma zsum_rev {A} (f : A -> Z) l : zsum f (rev l) = zsum f l.
Proof. induction l as [|x l IH]; simpl; [done|]. rewrite zsum_app, IH. simpl. lia. Qed.

Lemma add_usize_ok a b c : add_usize a b = Ok c <-> c = a + b /\ is_u64 (a + b).
Proof. unfold add_usize. rewrite ok_or_ok. unfold checked_add. rewrite checked_u64_some. naive_solver. Qed.

Lemma fold_usize_ok {A} (f : A -> CRes Z) (g : A -> Z) l a b :
  (forall x y, f x = Ok y -> y = g x) ->
  try_fold (fun t x => let? y := f x in add_usize t y) a l = Ok b -> b = a + zsum g l.
Proof.
  intros Hf. revert a. induction l as [|x l IH]; intros a; simpl; [intros [= <-]; lia|].
  destruct (f x) as [y|] eqn:Ey; [|done]. apply Hf in Ey as ->.
  destruct (add_usize a (g x)) as [c|] eqn:Ec; [|done]. apply add_usize_ok in Ec as [-> _].
  intros ->%IH. lia.
Qed.

(** ** Specification of a candidate *)

Definition in_window (r : ContextRequest) (c : ContextCandidate) : Prop :=
  forall after, cr_after_position r = Some after -> after < cc_position c.
Definition discloses (v : Visibility) (p : ContextPurpose) : Prop :=
  match v with Visible | Redacted => True | Purposes ps => p ∈ ps end.

(** A candidate that takes part in the budget. *)
Definition eligible (r : ContextRequest) (c : ContextCandidate) : Prop :=
  in_window r c /\ discloses (cc_visibility c) (cr_purpose r).
#[export] Instance in_window_dec r c : Decision (in_window r c).
Proof.
  unfold in_window. destruct (cr_after_position r) as [after|]; [|by left].
  destruct (decide (after < cc_position c)); [left; by intros ? [= <-]|right; intros H; by specialize (H _ eq_refl)].
Defined.
#[export] Instance discloses_dec v p : Decision (discloses v p).
Proof. destruct v; simpl; apply _. Defined.
#[export] Instance eligible_dec r c : Decision (eligible r c) := and_dec _ _.

Definition cost_items (c : ContextCandidate) : Z :=
  if is_redacted (cc_visibility c) then 1 else Z.of_nat (length (cc_items c)).
Definition item_bytes (item : ModelInputItem) : Z := zsum str_len (item_strings item).
Definition cost_bytes (c : ContextCandidate) : Z :=
  if is_redacted (cc_visibility c) then 0 else zsum item_bytes (cc_items c).

Lemma cost_items_nonneg c : 0 <= cost_items c.
Proof. unfold cost_items. case_match; lia. Qed.

Lemma item_utf8_bytes_ok item n : item_utf8_bytes item = Ok n -> n = item_bytes item.
Proof.
  intros H. apply (fold_usize_ok (fun v => Ok (str_len v)) str_len) in H; [by rewrite H; unfold item_bytes|].
  by intros x y [= <-].
Qed.

Lemma candidate_cost_ok items n b : candidate_cost items = Ok (n, b) ->
  n = Z.of_nat (length items) /\ b = zsum item_bytes items.
Proof.
  unfold candidate_cost. destruct (try_fold _ _ _) as [x|] eqn:E; [|done]. intros [= <- <-].
  apply (fold_usize_ok item_utf8_bytes item_bytes) in E; [|apply item_utf8_bytes_ok]. by rewrite E.
Qed.

(** ** The loops *)

Definition eligible_of (c : ContextCandidate) : Eligible :=
  mkEligible c (cost_items c) (cost_bytes c) (is_redacted (cc_visibility c)).

Definition increasing (last : option Z) (cs : list ContextCandidate) : Prop :=
  StronglySorted Z.lt (option_list last ++ (cc_position <$> cs)).

Lemma validate_candidate_ok r c last last' : validate_candidate r c last = Ok last' ->
  last' = Some (cc_position c) /\ (forall l, last = Some l -> l < cc_position c) /\
  fr_session_id (cc_fact_ref c) = cr_session_id r /\ cc_position c <= cr_through_position r /\
  cc_position c <> 0.
Proof.
  unfold validate_candidate. intros H. destruct last as [l|]; inv_ok H; intros; simplify_eq; bool_hyps;
    split_and!; try done; try naive_solver lia.
Qed.

Lemma classify_step r last f e c s :
  classify_candidate r (last, f, e) c = Ok s ->
  (forall l, last = Some l -> l < cc_position c) /\ fr_session_id (cc_fact_ref c) = cr_session_id r /\
  cc_position c <= cr_through_position r /\
  s = (Some (cc_position c), f ++ (if decide (eligible r c) then [] else [cc_fact_ref c]),
       e ++ (if decide (eligible r c) then [eligible_of c] else [])).
Proof.
  unfold classify_candidate. destruct (validate_candidate r c last) as [last'|] eqn:Ev; [|done].
  apply validate_candidate_ok in Ev as (-> & Hlt & Hses & Hthr & _). intros Hs. split_and!; [done..|].
  assert (Hel : eligible r c <-> is_some_and (fun after => cc_position c <=? after) (cr_after_position r) = false
            /\ discloses (cc_visibility c) (cr_purpose r)).
  { unfold eligible, in_window. destruct (cr_after_position r) as [a|]; simpl; [|naive_solver].
    rewrite Z.leb_gt. naive_solver. }
  destruct (is_some_and _ _) eqn:Ew.
  { rewrite !decide_False by (by intros [? _]%Hel). rewrite app_nil_r. congruence. }
  destruct (is_visible_for _ _) as [vis|] eqn:Evis; [|done].
  assert (Hvis : vis = true <-> discloses (cc_visibility c) (cr_purpose r)).
  { unfold is_visible_for in Evis. destruct (cc_visibility c); simpl; [by injection Evis as <-..|].
    destruct (bool_decide (_ = _)); [done|]. injection Evis as <-. by rewrite bool_decide_eq_true. }
  destruct vis; simpl in Hs.
  2:{ rewrite !decide_False by (by intros [_ ?%Hvis]%Hel). rewrite app_nil_r. congruence. }
  rewrite !decide_True by (apply Hel; split; [done|by apply Hvis]). rewrite app_nil_r.
  unfold eligible_of, cost_items, cost_bytes. destruct (is_redacted _) eqn:Er; simpl in Hs.
  { destruct (_ && _); congruence. }
  destruct (candidate_cost _) as [[n b]|] eqn:Ec; [|done]. apply candidate_cost_ok in Ec as [-> ->].
  destruct (_ && _); congruence.
Qed.

Lemma classify_ok r cs last f e last' f' e' :
  try_fold (classify_candidate r) (last, f, e) cs = Ok (last', f', e') ->
  increasing last cs /\ (forall c, c ∈ cs -> fr_session_id (cc_fact_ref c) = cr_session_id r /\
                                          cc_position c <= cr_through_position r) /\
  f' = f ++ (cc_fact_ref <$> filter (fun c => ~ eligible r c) cs) /\
  e' = e ++ (eligible_of <$> filter (eligible r) cs).
Proof.
  revert last f e. induction cs as [|c cs IH]; intros last f e; cbn [try_fold].
  { intros [= <- <- <-]. rewrite !app_nil_r. split_and!; [|set_solver|done..].
    unfold increasing. destruct last; simpl; repeat constructor. }
  destruct (classify_candidate r (last, f, e) c) as [s|] eqn:Es; [|done].
  apply classify_step in Es as (Hlt & Hses & Hthr & ->). intros (Hinc & Hcs & -> & ->)%IH.
  split_and!.
  - unfold increasing in *. simpl in *. destruct last as [l|]; simpl; [|done].
    constructor; [done|]. specialize (Hlt l eq_refl). inversion Hinc as [|x k Hk Hf]; subst.
    constructor; [done|]. eapply Forall_impl; [done|]. simpl. lia.
  - intros x Hx. apply elem_of_cons in Hx as [->|Hx]; [done|by apply Hcs].
  - rewrite filter_cons. destruct (decide (eligible r c)); [rewrite decide_False by tauto|rewrite decide_True by tauto];
      simpl; rewrite <-app_assoc; done.
  - rewrite filter_cons. destruct (decide (eligible r c)); simpl; rewrite <-app_assoc; done.
Qed.

Definition optional (c : ContextCandidate) : Prop := is_required c = false.
#[export] Instance optional_dec c : Decision (optional c) := _.

Lemma required_ok l i b R i' b' R' :
  try_fold charge_required (i, b, R) (eligible_of <$> l) = Ok (i', b', R') ->
  i' = i + zsum cost_items (List.filter is_required l) /\
  b' = b + zsum cost_bytes (List.filter is_required l) /\
  (forall p, p ∈ R' <-> p ∈ R \/ exists c, c ∈ l /\ is_required c = true /\ cc_position c = p).
Proof.
  revert i b R. induction l as [|c l IH]; intros i b R; cbn [try_fold fmap list_fmap].
  { intros [= <- <- <-]. simpl. split_and!; [lia..|]. set_solver. }
  unfold charge_required at 1. cbn [el_candidate eligible_of el_item_count el_utf8_bytes]. simpl List.filter.
  destruct (is_required c) eqn:Er.
  - destruct (add_usize i _) as [i1|] eqn:E1; [|done]. apply add_usize_ok in E1 as [-> _].
    destruct (add_usize b _) as [b1|] eqn:E2; [|done]. apply add_usize_ok in E2 as [-> _].
    intros (-> & -> & HR)%IH. simpl. split_and!; [lia..|]. intros p. rewrite HR, elem_of_union, elem_of_singleton.
    split; [|].
    + intros [[->|?]|(d & Hd & ?)]; [right; exists c; set_solver|by left|right; exists d; set_solver].
    + intros [?|(d & [->|Hd]%elem_of_cons & ? & <-)]; naive_solver.
  - intros (-> & -> & HR)%IH. split_and!; [done..|]. intros p. rewrite HR. split.
    + intros [?|(d & Hd & ?)]; [by left|right; exists d; set_solver].
    + intros [?|(d & [->|Hd]%elem_of_cons & ? & <-)]; [by left|congruence|naive_solver].
Qed.

(** The optional candidates of a list that are kept. *)
Definition picked (R : gset Z) (c : ContextCandidate) : bool :=
  negb (is_required c) && bool_decide (cc_position c ∈ R).

(** Adding a candidate's cost would exceed a budget. *)
Definition over_budget (r : ContextRequest) (items bytes : Z) (c : ContextCandidate) : Prop :=
  cr_max_items r < items + cost_items c \/ cr_max_utf8_bytes r < bytes + cost_bytes c.

Record greedy (r : ContextRequest) (l : list ContextCandidate) (i b : Z) (R : gset Z) (i' b' : Z) (R' : gset Z)
    : Prop := {
  gr_mono : R ⊆ R';
  gr_only p : p ∈ R' -> p ∈ R \/ exists c, c ∈ l /\ optional c /\ cc_position c = p;
  gr_items : i' = i + zsum cost_items (List.filter (picked R') l);
  gr_bytes : b' = b + zsum cost_bytes (List.filter (picked R') l);
  gr_fits : i <= cr_max_items r /\ b <= cr_max_utf8_bytes r ->
    i' <= cr_max_items r /\ b' <= cr_max_utf8_bytes r;
  gr_dropped newer c older : l = newer ++ c :: older -> optional c -> cc_position c ∉ R' ->
    over_budget r (i + zsum cost_items (List.filter (picked R') newer))
      (b + zsum cost_bytes (List.filter (picked R') newer)) c;
}.

Lemma charge_optional_cases r i b R c s :
  charge_optional r (i, b, R) (eligible_of c) = Ok s ->
  (is_required c = true /\ s = (i, b, R)) \/
  (optional c /\ s = (i + cost_items c, b + cost_bytes c, {[cc_position c]} ∪ R) /\
     i + cost_items c <= cr_max_items r /\ b + cost_bytes c <= cr_max_utf8_bytes r) \/
  (optional c /\ s = (i, b, R) /\ over_budget r i b c).
Proof.
  unfold charge_optional, optional, over_budget. cbn [el_candidate eligible_of el_item_count el_utf8_bytes].
  destruct (is_required c); [intros [= <-]; by left|].
  destruct (add_usize i _) as [i1|] eqn:E1; [|done]. apply add_usize_ok in E1 as [-> _].
  destruct (add_usize b _) as [b1|] eqn:E2; [|done]. apply add_usize_ok in E2 as [-> _].
  destruct (_ && _) eqn:E; intros [= <-]; right; [left; bool_hyps; done|right].
  apply andb_false_iff in E as [E|E]; bool_hyps; split_and!; try done; lia.
Qed.

(** What one more candidate, decided before the others, adds to a greedy run. *)
Lemma greedy_skip r c l i b R i' b' R' :
  picked R' c = false -> (optional c -> cc_position c ∉ R' -> over_budget r i b c) ->
  greedy r l i b R i' b' R' -> greedy r (c :: l) i b R i' b' R'.
Proof.
  intros Hp Hover [Hm Ho Hi Hb Hf Hd]. split; [done| |simpl; by rewrite Hp..|done|].
  - intros p Hin. destruct (Ho p Hin) as [?|(d & ? & ?)]; [by left|right; exists d; set_solver].
  - intros newer d older Heq Hopt Hnot. destruct newer as [|x newer]; simplify_eq/=.
    + rewrite !Z.add_0_r. auto.
    + rewrite Hp. by eapply Hd.
Qed.

Lemma optional_ok r l i b R i' b' R' :
  try_fold (charge_optional r) (i, b, R) (eligible_of <$> l) = Ok (i', b', R') ->
  NoDup (cc_position <$> l) -> (forall c, c ∈ l -> optional c -> cc_position c ∉ R) ->
  greedy r l i b R i' b' R'.
Proof.
  revert i b R. induction l as [|c l IH]; intros i b R; cbn [try_fold fmap list_fmap].
  { intros [= <- <- <-] _ _. split; simpl; [done|naive_solver|lia..|done|].
    intros newer c older Heq. by destruct newer. }
  destruct (charge_optional r _ _) as [s|] eqn:Es; [|done].
  intros Hrun [Hnin Hnd]%NoDup_cons Hfresh.
  destruct (charge_optional_cases _ _ _ _ _ _ Es) as [(Hreq & ->)|[(Hopt & -> & Hci & Hcb)|(Hopt & -> & Hover)]].
  - apply greedy_skip; [by unfold picked; rewrite Hreq|unfold optional; congruence|].
    apply IH; [done..|]. intros d Hd. apply Hfresh. by right.
  - destruct (IH _ _ _ Hrun Hnd) as [Hm Ho Hi Hb Hf Hd].
    { intros d Hd Hod. rewrite elem_of_union, elem_of_singleton. intros [Heq|Hin].
      - apply Hnin. rewrite <-Heq. by apply list_elem_of_fmap_2.
      - by eapply Hfresh; [right|..]. }
    assert (Hc : picked R' c = true).
    { unfold picked. rewrite Hopt. simpl. apply bool_decide_eq_true. apply Hm. set_solver. }
    split; simpl.
    + set_solver.
    + intros p Hin. destruct (Ho p Hin) as [[->%elem_of_singleton|?]%elem_of_union|(d & ? & ?)];
        [right; exists c; set_solver|by left|right; exists d; set_solver].
    + rewrite Hc. simpl. lia.
    + rewrite Hc. simpl. lia.
    + intros _. by apply Hf.
    + intros newer d older Heq Hod Hnot. destruct newer as [|x newer]; simplify_eq/=; [set_solver|].
      rewrite Hc. simpl. rewrite !Z.add_assoc. by eapply Hd.
  - assert (Hg : greedy r l i b R i' b' R').
    { apply IH; [done..|]. intros d Hd. apply Hfresh. by right. }
    apply greedy_skip; [|done|done]. unfold picked. rewrite Hopt. simpl. apply bool_decide_eq_false.
    intros [Hin|(d & Hd & _ & Heq)]%(gr_only _ _ _ _ _ _ _ _ Hg).
    + by eapply Hfresh; [left|..].
    + apply Hnin. rewrite <-Heq. by apply list_elem_of_fmap_2.
Qed.

(** ** Totality *)

Lemma fold_usize_total {A} (f : A -> CRes Z) (g : A -> Z) l a :
  (forall x, x ∈ l -> f x = Ok (g x)) -> (forall x, 0 <= g x) -> 0 <= a -> a + zsum g l <= u64_max ->
  try_fold (fun t x => let? y := f x in add_usize t y) a l = Ok (a + zsum g l).
Proof.
  intros Hf Hg. revert a. induction l as [|x l IH]; intros a Ha Hmax; simpl in *; [f_equal; lia|].
  rewrite Hf by set_solver. pose proof (Hg x). pose proof (zsum_nonneg g l Hg).
  rewrite (proj2 (add_usize_ok a (g x) (a + g x))) by (unfold is_u64; lia).
  rewrite IH; [f_equal; lia|intros; apply Hf; set_solver|lia..].
Qed.

Lemma item_bytes_nonneg i : 0 <= item_bytes i.
Proof. apply zsum_nonneg, str_len_nonneg. Qed.
Lemma cost_bytes_nonneg c : 0 <= cost_bytes c.
Proof. unfold cost_bytes. case_match; [lia|]. apply zsum_nonneg, item_bytes_nonneg. Qed.

Lemma zsum_elem {A} (f : A -> Z) l x : (forall x, 0 <= f x) -> x ∈ l -> f x <= zsum f l.
Proof.
  intros Hf Hx. induction Hx as [x l|x y l Hx IH]; simpl; [pose proof (zsum_nonneg f l Hf); lia|].
  specialize (Hf y). lia.
Qed.

Lemma candidate_cost_total items : zsum item_bytes items <= u64_max ->
  candidate_cost items = Ok (Z.of_nat (length items), zsum item_bytes items).
Proof.
  intros Hmax. unfold candidate_cost.
  rewrite (fold_usize_total item_utf8_bytes item_bytes); [done| |apply item_bytes_nonneg|lia..].
  intros x Hx. unfold item_utf8_bytes.
  pose proof (zsum_elem item_bytes items x item_bytes_nonneg Hx).
  pose proof (fold_usize_total (fun v => Ok (str_len v)) str_len (item_strings x) 0) as H'.
  simpl in H'. rewrite H'; [done|done|apply str_len_nonneg|lia|unfold item_bytes in *; lia].
Qed.

(** A candidate the derivation admits. *)
Definition candidate_valid (r : ContextRequest) (c : ContextCandidate) : Prop :=
  fr_session_id (cc_fact_ref c) = cr_session_id r /\ 0 < cc_position c <= cr_through_position r /\
  cc_visibility c <> Purposes ∅ /\
  (is_required c = true -> cc_items c <> [] /\ (is_redacted (cc_visibility c) = false -> 0 < cost_bytes c)).

Lemma classify_total_step r last f e c : candidate_valid r c -> (forall l, last = Some l -> l < cc_position c) ->
  cost_bytes c <= u64_max -> exists s, classify_candidate r (last, f, e) c = Ok s.
Proof.
  intros (Hses & Hpos & Hvis & Hreq) Hlast Hmax. unfold classify_candidate, validate_candidate.
  rewrite Hses, String.eqb_refl. simpl. rewrite (proj2 (Z.eqb_neq _ _)), (proj2 (Z.ltb_ge _ _)) by lia. simpl.
  destruct last as [l|].
  all: try (rewrite (proj2 (Z.eqb_neq (cc_position c) l)), (proj2 (Z.ltb_ge (cc_position c) l))
    by (specialize (Hlast l eq_refl); lia)).
  all: assert (Hne : is_required c && bool_decide (cc_items c = []) = false)
    by (destruct (is_required c); simpl; [apply bool_decide_eq_false; by apply Hreq|done]); rewrite Hne.
  all: destruct (is_some_and _ _); [eauto|].
  all: destruct (is_visible_for _ _) as [[]|] eqn:Ev; simpl; [|eauto|
    unfold is_visible_for in Ev; destruct (cc_visibility c) as [| |ps]; try done;
    destruct (bool_decide (ps = ∅)) eqn:Eb; try done; apply bool_decide_eq_true in Eb; by rewrite Eb in Hvis].
  all: unfold cost_bytes in *; destruct (is_redacted _) eqn:Er;
    [simpl; rewrite andb_false_r; simpl; eauto|rewrite candidate_cost_total by done].
  all: assert (Hgo : is_required c && negb false &&
      ((Z.of_nat (length (cc_items c)) =? 0) || (zsum item_bytes (cc_items c) =? 0)) = false).
  1,3: destruct (is_required c); [|done]; destruct (Hreq eq_refl) as [Hi Hby]; specialize (Hby eq_refl);
    simpl; apply orb_false_iff; split; apply Z.eqb_neq; [|lia]; destruct (cc_items c); [done|simpl; lia].
  all: rewrite Hgo; eauto.
Qed.

Lemma classify_total r cs last f e :
  increasing last cs -> (forall c, c ∈ cs -> candidate_valid r c /\ cost_bytes c <= u64_max) ->
  exists s, try_fold (classify_candidate r) (last, f, e) cs = Ok s.
Proof.
  revert last f e. induction cs as [|c cs IH]; intros last f e Hinc Hc; cbn [try_fold]; [eauto|].
  destruct (Hc c) as [Hval Hmax]; [by left|].
  assert (Hlt : forall l, last = Some l -> l < cc_position c).
  { intros l ->. unfold increasing in Hinc. simpl in Hinc. inversion Hinc as [|x k _ Hf]; subst.
    by inversion Hf. }
  destruct (classify_total_step r last f e c) as [s Es]; [done..|]. rewrite Es.
  apply classify_step in Es as (_ & _ & _ & ->). apply IH; [|intros; apply Hc; by right].
  unfold increasing in *. simpl in *. destruct last; simpl in *; [by inversion Hinc|done].
Qed.

Lemma charge_total {S} (step : Z * Z * S -> Eligible -> CRes (Z * Z * S)) (wi wb : ContextCandidate -> Z) l i b R :
  (forall c, 0 <= wi c) -> (forall c, 0 <= wb c) ->
  (forall i b R c, 0 <= i /\ i + wi c <= u64_max -> 0 <= b /\ b + wb c <= u64_max ->
     exists i' b' R', step (i, b, R) (eligible_of c) = Ok (i', b', R') /\
       i <= i' <= i + wi c /\ b <= b' <= b + wb c) ->
  0 <= i /\ i + zsum wi l <= u64_max -> 0 <= b /\ b + zsum wb l <= u64_max ->
  exists s, try_fold step (i, b, R) (eligible_of <$> l) = Ok s.
Proof.
  intros Hwi Hwb Hstep. revert i b R.
  induction l as [|c l IH]; intros i b R Hi Hb; cbn [try_fold fmap list_fmap]; [eauto|].
  simpl in *. pose proof (Hwi c). pose proof (Hwb c). pose proof (zsum_nonneg wi l Hwi). pose proof (zsum_nonneg wb l Hwb).
  destruct (Hstep i b R c) as (i1 & b1 & R1 & -> & ? & ?); [lia..|]. apply IH; lia.
Qed.

(** The cost a candidate adds in the loop of its retention class. *)
Definition weight (f : ContextCandidate -> Z) (class : bool) (c : ContextCandidate) : Z :=
  if Bool.eqb (is_required c) class then f c else 0.

Lemma weight_nonneg f class c : (forall c, 0 <= f c) -> 0 <= weight f class c.
Proof. intros Hf. unfold weight. case_match; [apply Hf|lia]. Qed.
Lemma zsum_weight f l : zsum f l = zsum (weight f true) l + zsum (weight f false) l.
Proof. induction l as [|c l IH]; simpl; [done|]. rewrite IH. unfold weight. destruct (is_required c); simpl; lia. Qed.
Lemma zsum_weight_required f l : zsum (weight f true) l = zsum f (List.filter is_required l).
Proof. induction l as [|c l IH]; simpl; [done|]. rewrite IH. unfold weight. destruct (is_required c); simpl; lia. Qed.

Lemma add_usize_total a b : 0 <= a -> 0 <= b -> a + b <= u64_max -> add_usize a b = Ok (a + b).
Proof. intros. apply add_usize_ok. unfold is_u64. lia. Qed.

Lemma charge_required_total i b R c :
  0 <= i /\ i + weight cost_items true c <= u64_max -> 0 <= b /\ b + weight cost_bytes true c <= u64_max ->
  exists i' b' R', charge_required (i, b, R) (eligible_of c) = Ok (i', b', R') /\
    i <= i' <= i + weight cost_items true c /\ b <= b' <= b + weight cost_bytes true c.
Proof.
  pose proof (cost_items_nonneg c). pose proof (cost_bytes_nonneg c). unfold weight, charge_required.
  cbn [el_candidate eligible_of el_item_count el_utf8_bytes].
  destruct (is_required c); simpl; intros Hi Hb; [|exists i, b, R; split; [done|lia]].
  rewrite !add_usize_total by lia. do 3 eexists. split; [done|lia].
Qed.

Lemma charge_optional_total r i b R c :
  0 <= i /\ i + weight cost_items false c <= u64_max -> 0 <= b /\ b + weight cost_bytes false c <= u64_max ->
  exists i' b' R', charge_optional r (i, b, R) (eligible_of c) = Ok (i', b', R') /\
    i <= i' <= i + weight cost_items false c /\ b <= b' <= b + weight cost_bytes false c.
Proof.
  pose proof (cost_items_nonneg c). pose proof (cost_bytes_nonneg c). unfold weight, charge_optional.
  cbn [el_candidate eligible_of el_item_count el_utf8_bytes].
  destruct (is_required c); simpl; intros Hi Hb; [exists i, b, R; split; [done|lia]|].
  rewrite !add_usize_total by lia. destruct (_ && _); do 3 eexists; (split; [done|lia]).
Qed.

(** ** The surface *)

Definition shown (c : ContextCandidate) : list ContextItem := emitted_items (eligible_of c).

(** A surface of a request over candidates, with the positions [R] it retains. *)
Record surface_of (r : ContextRequest) (cs : list ContextCandidate) (s : ContextSurface) (R : gset Z) : Prop := {
  so_filtered : cs_filtered_refs s = cc_fact_ref <$> filter (fun c => ~ eligible r c) cs;
  so_retained : cs_retained_refs s = cc_fact_ref <$> filter (fun c => eligible r c /\ cc_position c ∈ R) cs;
  so_dropped : cs_dropped_refs s = cc_fact_ref <$> filter (fun c => eligible r c /\ cc_position c ∉ R) cs;
  so_items : cs_items s = filter (fun c => eligible r c /\ cc_position c ∈ R) cs ≫= shown;
  so_item_count : cs_item_count s = Z.of_nat (length (cs_items s)) /\ cs_item_count s <= cr_max_items r;
  so_utf8_bytes : cs_utf8_bytes s = zsum cost_bytes (filter (fun c => eligible r c /\ cc_position c ∈ R) cs) /\
    cs_utf8_bytes s <= cr_max_utf8_bytes r;
  so_required c : c ∈ cs -> eligible r c -> is_required c = true -> cc_position c ∈ R;
  so_newest older c newer : cs = older ++ c :: newer -> eligible r c -> cc_position c ∉ R ->
    let kept := filter (fun d => eligible r d /\ is_required d = true) cs
                ++ filter (fun d => eligible r d /\ optional d /\ cc_position d ∈ R) newer in
    over_budget r (zsum cost_items kept) (zsum cost_bytes kept) c;
}.

Lemma increasing_nodup cs (P : ContextCandidate -> Prop) `{!forall c, Decision (P c)} :
  increasing None cs -> NoDup (cc_position <$> filter P cs).
Proof.
  unfold increasing. simpl. induction cs as [|c cs IH]; simpl; intros Hs; [constructor|].
  inversion Hs as [|x k Hk Hf]; subst. rewrite filter_cons. case_decide; [|auto].
  simpl. constructor; [|auto]. intros (d & Heq & Hd)%list_elem_of_fmap.
  apply list_elem_of_filter in Hd as [_ Hd]. rewrite Forall_forall in Hf.
  specialize (Hf (cc_position d)). assert (cc_position c < cc_position d) by (apply Hf; by apply list_elem_of_fmap_2). lia.
Qed.

Lemma filter_filter_list {A} (f : A -> bool) (P : A -> Prop) `{!forall x, Decision (P x)} l :
  List.filter f (filter P l) = filter (fun x => P x /\ f x = true) l.
Proof.
  induction l as [|x l IH]; [done|]. rewrite !filter_cons.
  destruct (decide (P x)); simpl.
  - destruct (f x) eqn:E; [rewrite decide_True by done; by rewrite IH|rewrite decide_False by (by intros [_ ?]); done].
  - rewrite decide_False by tauto. done.
Qed.

Lemma list_filter_fmap {A B} (f : B -> bool) (g : A -> B) l :
  List.filter f (g <$> l) = g <$> List.filter (fun x => f (g x)) l.
Proof. induction l as [|x l IH]; csimpl; [done|]. rewrite IH. by destruct (f (g x)). Qed.

Lemma list_filter_rev {A} (f : A -> bool) l : List.filter f (rev l) = rev (List.filter f l).
Proof.
  induction l as [|x l IH]; simpl; [done|]. rewrite List.filter_app, IH. simpl. destruct (f x); simpl; [done|by rewrite app_nil_r].
Qed.

Lemma list_fmap_rev {A B} (g : A -> B) l : g <$> rev l = rev (g <$> l).
Proof. induction l as [|x l IH]; csimpl; [done|]. by rewrite fmap_app, IH. Qed.

Lemma zsum_split {A} (f : A -> Z) (P : A -> bool) l :
  zsum f l = zsum f (List.filter P l) + zsum f (List.filter (fun x => negb (P x)) l).
Proof. induction l as [|x l IH]; simpl; [done|]. rewrite IH. destruct (P x); simpl; lia. Qed.

Lemma length_shown l : Z.of_nat (length (l ≫= shown)) = zsum cost_items l.
Proof.
  induction l as [|c l IH]; csimpl; [done|]. rewrite length_app, Nat2Z.inj_add, IH.
  unfold shown, emitted_items, cost_items. simpl. destruct (is_redacted _); simpl; [lia|]. rewrite length_fmap. lia.
Qed.

Lemma filter_iff_list {A} (P Q : A -> Prop) `{!forall x, Decision (P x), !forall x, Decision (Q x)} (l : list A) :
  (forall x, x ∈ l -> P x <-> Q x) -> filter P l = filter Q l.
Proof.
  intros Hpq. induction l as [|x l IH]; [done|]. rewrite !filter_cons, IH by (intros; apply Hpq; by right).
  pose proof (Hpq x ltac:(left)). repeat case_decide; naive_solver.
Qed.

Lemma bind_fmap_eligible (l : list ContextCandidate) : (eligible_of <$> l) ≫= emitted_items = l ≫= shown.
Proof. induction l as [|c l IH]; [done|]. csimpl. by rewrite IH. Qed.

(** The optional candidates of a list that are kept, as a filter of the request. *)
Lemma picked_filter r (R : gset Z) l :
  List.filter (picked R) (filter (eligible r) l) =
  filter (fun d => eligible r d /\ optional d /\ cc_position d ∈ R) l.
Proof.
  rewrite filter_filter_list. apply filter_iff_list. intros c _. unfold picked, optional.
  rewrite andb_true_iff, negb_true_iff, bool_decide_eq_true. done.
Qed.

Lemma derive_surface r cs last f el i0 b0 R0 i b R s :
  try_fold (classify_candidate r) (None, [], []) cs = Ok (last, f, el) ->
  try_fold charge_required (0, 0, ∅) el = Ok (i0, b0, R0) ->
  i0 <= cr_max_items r -> b0 <= cr_max_utf8_bytes r ->
  try_fold (charge_optional r) (i0, b0, R0) (rev el) = Ok (i, b, R) ->
  let kept value := bool_decide (cc_position (el_candidate value) ∈ R) in
  cs_items s = List.filter kept el ≫= emitted_items ->
  cs_retained_refs s = (fun v => cc_fact_ref (el_candidate v)) <$> List.filter kept el ->
  cs_dropped_refs s = (fun v => cc_fact_ref (el_candidate v)) <$> List.filter (fun v => negb (kept v)) el ->
  cs_filtered_refs s = f -> cs_item_count s = i -> cs_utf8_bytes s = b ->
  surface_of r cs s R.
Proof.
  intros Hc Hr Hi0 Hb0 Ho kept Hitems Hret Hdrop Hfil Hcnt Hby.
  apply classify_ok in Hc as (Hinc & _ & -> & ->). simpl in *. set (E := filter (eligible r) cs) in *.
  apply required_ok in Hr as (Ei0 & Eb0 & HR0). simpl in Ei0, Eb0.
  rewrite <-list_fmap_rev in Ho.
  assert (Hnd : NoDup (cc_position <$> E)) by by apply increasing_nodup.
  assert (Hinj : forall c d, c ∈ E -> d ∈ E -> cc_position c = cc_position d -> c = d).
  { clear -Hnd. intros c d Hc Hd Heq. apply list_elem_of_lookup in Hc as [i Hc], Hd as [j Hd].
    assert (i = j) as ->; [|congruence].
    eapply NoDup_lookup; [exact Hnd|rewrite list_lookup_fmap, Hc; done|rewrite list_lookup_fmap, Hd; simpl; by f_equal]. }
  apply optional_ok in Ho as [Hm Honly Hi Hb Hfits Hdr].
  2:{ rewrite list_fmap_rev. rewrite List.rev_alt. fold (reverse (cc_position <$> E)). by rewrite reverse_Permutation. }
  2:{ intros c Hc Hopt [Hn|(d & Hd & Hreq & Heq)]%HR0; [set_solver|].
      rewrite List.rev_alt in Hc. fold (reverse E) in Hc. rewrite reverse_Permutation in Hc. rewrite (Hinj d c) in Hreq by done. unfold optional in Hopt. congruence. }
  assert (Hreq : forall c, c ∈ E -> is_required c = true -> cc_position c ∈ R).
  { intros c Hc Hq. apply Hm, HR0. right. eauto. }
  assert (Hkept : List.filter kept (eligible_of <$> E) = eligible_of <$> filter (fun c => eligible r c /\ cc_position c ∈ R) cs).
  { rewrite list_filter_fmap. f_equal. unfold E. rewrite filter_filter_list. apply filter_iff_list.
    intros c _. unfold kept. simpl. by rewrite bool_decide_eq_true. }
  assert (Hnkept : List.filter (fun v => negb (kept v)) (eligible_of <$> E)
                   = eligible_of <$> filter (fun c => eligible r c /\ cc_position c ∉ R) cs).
  { rewrite list_filter_fmap. f_equal. unfold E. rewrite filter_filter_list. apply filter_iff_list.
    intros c _. unfold kept. simpl. by rewrite negb_true_iff, bool_decide_eq_false. }
  assert (Hsum : forall g, zsum g (filter (fun c => eligible r c /\ cc_position c ∈ R) cs)
      = zsum g (List.filter is_required E) + zsum g (List.filter (picked R) (rev E))).
  { intros g. rewrite list_filter_rev, zsum_rev. rewrite (zsum_split g is_required). unfold E.
    rewrite !filter_filter_list. f_equal; f_equal; apply filter_iff_list; intros c Hc; unfold picked.
    - split; [tauto|]. intros [He Hq]. split_and!; [done| |done]. apply Hreq; [|done].
      unfold E. by apply list_elem_of_filter.
    - rewrite andb_true_iff, bool_decide_eq_true. tauto. }
  split.
  - done.
  - rewrite Hret, Hkept, <-list_fmap_compose. done.
  - rewrite Hdrop, Hnkept, <-list_fmap_compose. done.
  - rewrite Hitems, Hkept. apply bind_fmap_eligible.
  - rewrite Hitems, Hkept, bind_fmap_eligible, length_shown, Hsum, Hcnt, Hi, Ei0.
    split; [lia|]. rewrite <-Ei0, <-Hi. by apply Hfits.
  - rewrite Hsum, Hby, Hb, Eb0. split; [lia|]. rewrite <-Eb0, <-Hb. by apply Hfits.
  - intros c Hc He Hq. apply Hreq; [|done]. by apply list_elem_of_filter.
  - intros older c newer -> He Hn kept'. subst kept'.
    assert (Hopt : optional c).
    { unfold optional. destruct (is_required c) eqn:Eq; [|done]. destruct Hn. apply Hreq; [|done].
      unfold E. rewrite list_elem_of_filter. set_solver. }
    pose proof (Hdr (rev (filter (eligible r) newer)) c (rev (filter (eligible r) older))) as Hov.
    rewrite !list_filter_rev, !zsum_rev, !picked_filter in Hov. rewrite !zsum_app.
    rewrite <-!(filter_filter_list is_required). unfold E in *. rewrite Ei0, Eb0 in Hov. apply Hov; [|done..].
    rewrite filter_app, filter_cons, decide_True by done. rewrite rev_app_distr. simpl. by rewrite <-app_assoc.
Qed.

Definition request_valid (r : ContextRequest) : Prop :=
  cr_session_id r <> "" /\ cr_turn_id r <> "" /\ 0 < cr_through_position r <= u64_max /\ 0 < cr_max_items r /\
  0 < cr_max_utf8_bytes r /\ forall after, cr_after_position r = Some after -> 0 <= after < cr_through_position r.

Lemma zsum_filter_le {A} (f : A -> Z) (P : A -> Prop) `{!forall x, Decision (P x)} (l : list A) :
  (forall x, 0 <= f x) -> zsum f (filter P l) <= zsum f l.
Proof.
  intros Hf. induction l as [|x l IH]; [done|]. rewrite filter_cons. specialize (Hf x). case_decide; simpl; lia.
Qed.

Lemma derive_request_checks r : request_valid r ->
  ok_or (checked_add (default 0 (cr_after_position r)) 1) InvalidRequest = Ok (default 0 (cr_after_position r) + 1) /\
  str_is_empty (cr_session_id r) || str_is_empty (cr_turn_id r)
    || (cr_through_position r =? 0) || (cr_max_items r =? 0) || (cr_max_utf8_bytes r =? 0)
    || is_some_and (fun after => cr_through_position r <=? after) (cr_after_position r) = false.
Proof.
  intros (Hs & Ht & Hp & Hi & Hb & Ha). split.
  - apply ok_or_ok, checked_u64_some. split; [done|]. unfold is_u64.
    destruct (cr_after_position r) as [a|]; simpl; [specialize (Ha a eq_refl)|]; lia.
  - unfold str_is_empty. apply String.eqb_neq in Hs, Ht. rewrite Hs, Ht, !(proj2 (Z.eqb_neq _ _)) by lia. simpl.
    destruct (cr_after_position r) as [a|]; simpl; [|done]. apply Z.leb_gt. by apply Ha.
Qed.

(** C11: A derived context holds the visible candidates of the window in order: every required
    one, and of the optional ones the newest that fit the item and byte budgets; a valid request
    over valid candidates fails only when the required ones exceed a budget. *)
Theorem context_derivation_exact r cs :
  (forall s, derive_context r cs = Ok s -> exists R, surface_of r cs s R) /\
  (request_valid r -> increasing None cs -> Forall (candidate_valid r) cs ->
   zsum cost_items cs <= u64_max -> zsum cost_bytes cs <= u64_max ->
   let required := filter (fun c => eligible r c /\ is_required c = true) cs in
   if bool_decide (zsum cost_items required <= cr_max_items r /\ zsum cost_bytes required <= cr_max_utf8_bytes r)
   then exists s, derive_context r cs = Ok s
   else derive_context r cs =
          Err (RequiredFactsExceedBudget (zsum cost_items required) (zsum cost_bytes required))).
Proof.
  split.
  - intros s. unfold derive_context. destruct (ok_or _ _); [|done]. destruct (_ || _); [done|].
    destruct (try_fold _ _ cs) as [[[last f] el]|] eqn:Ec; [|done].
    destruct (try_fold charge_required _ el) as [[[i0 b0] R0]|] eqn:Er; [|done].
    destruct (_ || _) eqn:Eb; [done|]. apply orb_false_iff in Eb as [Eb1 Eb2]. bool_hyps.
    destruct (try_fold _ _ (rev el)) as [[[i b] R]|] eqn:Eo; [|done]. intros [= <-]. exists R.
    eapply derive_surface; try done; simpl; lia.
  - intros Hr Hinc Hval Hi Hb required. unfold derive_context.
    destruct (derive_request_checks r Hr) as [-> ->].
    assert (Hcost : forall c, c ∈ cs -> candidate_valid r c /\ cost_bytes c <= u64_max).
    { rewrite Forall_forall in Hval. intros c Hc. split; [by apply Hval|].
      pose proof (zsum_elem cost_bytes cs c cost_bytes_nonneg Hc). lia. }
    destruct (classify_total r cs None [] []) as [[[last f] el] Ec]; [done..|]. rewrite Ec.
    apply classify_ok in Ec as (_ & _ & -> & ->). simpl. set (E := filter (eligible r) cs).
    assert (HEi : zsum cost_items E <= u64_max)
      by (pose proof (zsum_filter_le cost_items (eligible r) cs cost_items_nonneg); unfold E; lia).
    assert (HEb : zsum cost_bytes E <= u64_max)
      by (pose proof (zsum_filter_le cost_bytes (eligible r) cs cost_bytes_nonneg); unfold E; lia).
    pose proof (zsum_weight cost_items E) as Hwi. pose proof (zsum_weight cost_bytes E) as Hwb.
    assert (Hn : forall class, 0 <= zsum (weight cost_items class) E /\ 0 <= zsum (weight cost_bytes class) E)
      by (intros; split; apply zsum_nonneg; intros; apply weight_nonneg; auto using cost_items_nonneg, cost_bytes_nonneg).
    pose proof (Hn true). pose proof (Hn false).
    destruct (charge_total charge_required (weight cost_items true) (weight cost_bytes true) E 0 0 ∅) as [[[i0 b0] R0] Er];
      [auto using weight_nonneg, cost_items_nonneg|auto using weight_nonneg, cost_bytes_nonneg|
       apply charge_required_total|lia|lia|].
    rewrite Er. apply required_ok in Er as (-> & -> & _).
    assert (Hreq : List.filter is_required E = required) by apply filter_filter_list. rewrite Hreq, !Z.add_0_l.
    case_bool_decide as Hfit.
    + rewrite !(proj2 (Z.ltb_ge _ _)) by lia. simpl. rewrite <-list_fmap_rev.
      rewrite !zsum_weight_required, Hreq in *.
      destruct (charge_total (charge_optional r) (weight cost_items false) (weight cost_bytes false) (rev E)
        (zsum cost_items required) (zsum cost_bytes required) R0) as [[[i b] R] ->];
        [auto using weight_nonneg, cost_items_nonneg|auto using weight_nonneg, cost_bytes_nonneg|
         apply charge_optional_total|rewrite zsum_rev; lia|rewrite zsum_rev; lia|]. eauto.
    + destruct (_ || _) eqn:Eo; [done|]. apply orb_false_iff in Eo as [E1 E2]. bool_hyps. lia.
Qed.

(** ** Merging and presentation *)

Lemma stream_order_ok cs : validate_stream_order cs = Ok tt <-> increasing None cs.
Proof.
  unfold increasing. simpl. induction cs as [|a cs IH]; [by split; [constructor|]|].
  destruct cs as [|b cs]; [by split; [repeat constructor|]|].
  change (validate_stream_order (a :: b :: cs)) with
    (if cc_position a <? cc_position b then validate_stream_order (b :: cs)
     else if cc_position a =? cc_position b then Err DuplicateReference else Err NonIncreasingPosition).
  destruct (cc_position a <? cc_position b) eqn:E; bool_hyps.
  - rewrite IH. csimpl. split.
    + intros Hs. constructor; [done|]. constructor; [done|]. inversion Hs as [|x k _ Hf]; subst.
      eapply Forall_impl; [exact Hf|]. simpl. lia.
    + intros Hs. by inversion Hs.
  - split; [by destruct (_ =? _)|]. csimpl. intros Hs. inversion Hs as [|x k _ Hf]; subst. inversion Hf; subst. lia.
Qed.

Lemma increasing_cons c cs : increasing None (c :: cs) <->
  increasing None cs /\ forall d, d ∈ cs -> cc_position c < cc_position d.
Proof.
  unfold increasing. csimpl. split.
  - intros Hs. inversion Hs as [|x k ? Hf]; subst. split; [done|]. intros d Hd. rewrite Forall_forall in Hf.
    apply Hf. by apply list_elem_of_fmap_2.
  - intros [Hs Hf]. constructor; [done|]. apply Forall_forall. intros p (d & -> & Hd)%list_elem_of_fmap. auto.
Qed.

Lemma increasing_all_nodup cs : increasing None cs -> NoDup (cc_position <$> cs).
Proof.
  induction cs as [|c cs IH]; csimpl; [constructor|]. intros [Hs Hlt]%increasing_cons. constructor; [|auto].
  intros (d & Heq & Hd)%list_elem_of_fmap. specialize (Hlt d Hd). lia.
Qed.

Lemma merge_loop_nil right : merge_loop [] right = Ok right.
Proof. by destruct right. Qed.
Lemma merge_loop_nil_r a left : merge_loop (a :: left) [] = Ok (a :: left).
Proof. simpl. by rewrite app_nil_r. Qed.
Lemma merge_loop_cons a left b right : merge_loop (a :: left) (b :: right) =
  if cc_position a <? cc_position b then let? rest := merge_loop left (b :: right) in Ok (a :: rest)
  else if cc_position a =? cc_position b then Err DuplicateReference
  else let? rest := merge_loop (a :: left) right in Ok (b :: rest).
Proof. done. Qed.

(** The merge of two increasing streams succeeds exactly when no position is in
    both, and gives the increasing permutation of their candidates. *)
Lemma merge_loop_exact left right : increasing None left -> increasing None right ->
  match merge_loop left right with
  | Ok m => increasing None m /\ m ≡ₚ left ++ right
  | Err e => e = DuplicateReference /\
      exists a b, a ∈ left /\ b ∈ right /\ cc_position a = cc_position b
  end.
Proof.
  revert right. induction left as [|a left IHl]; intros right Hl Hr.
  { by rewrite merge_loop_nil. }
  induction right as [|b right IHr].
  { rewrite merge_loop_nil_r. by rewrite app_nil_r. }
  rewrite merge_loop_cons. pose proof Hl as [Hl' Ha]%increasing_cons. pose proof Hr as [Hr' Hb]%increasing_cons.
  destruct (cc_position a <? cc_position b) eqn:E; [|destruct (cc_position a =? cc_position b) eqn:E2]; bool_hyps.
  - specialize (IHl (b :: right) Hl' Hr). destruct (merge_loop left (b :: right)) as [m|e].
    + destruct IHl as [Hm Hp]. split; [|by rewrite Hp]. apply increasing_cons. split; [done|].
      intros d. rewrite Hp, elem_of_app, elem_of_cons. intros [?|[->|Hd]]; [auto|done|]. specialize (Hb d Hd). lia.
    + destruct IHl as (-> & x & y & ? & ? & ?). split; [done|]. exists x, y. set_solver.
  - split; [done|]. exists a, b. set_solver.
  - specialize (IHr Hr'). destruct (merge_loop (a :: left) right) as [m|e].
    + destruct IHr as [Hm Hp]. split; [|by rewrite Hp, Permutation_middle]. apply increasing_cons. split; [done|].
      intros d. rewrite Hp, elem_of_app, elem_of_cons. intros [[->|Hd]|?]; [lia| |auto]. specialize (Ha d Hd). lia.
    + destruct IHr as (-> & x & y & ? & ? & ?). split; [done|]. exists x, y. set_solver.
Qed.

(** The merge accepts exactly two increasing streams without a common position, and
    returns their increasing union. *)
Theorem context_merge_exact base capability m :
  merge_context_candidates base capability = Ok m <->
  increasing None base /\ increasing None capability /\ increasing None m /\ m ≡ₚ base ++ capability.
Proof.
  unfold merge_context_candidates. split.
  - destruct (validate_stream_order base) as [[]|] eqn:Eb; [|done]. apply stream_order_ok in Eb.
    destruct (validate_stream_order capability) as [[]|] eqn:Ec; [|done]. apply stream_order_ok in Ec.
    intros Hm. pose proof (merge_loop_exact base capability Eb Ec) as H. rewrite Hm in H. tauto.
  - intros (Hb & Hc & Hm & Hp). rewrite (proj2 (stream_order_ok _) Hb), (proj2 (stream_order_ok _) Hc).
    pose proof (merge_loop_exact base capability Hb Hc) as H. destruct (merge_loop base capability) as [k|e].
    + destruct H as [Hk Hkp]. f_equal. rewrite <-Hp in Hkp. clear Hp Hb Hc. revert m Hm Hkp.
      induction k as [|c k IH]; intros m Hm Hkp; [by apply Permutation_nil_l in Hkp as ->|].
      apply increasing_cons in Hk as [Hk Hlt]. destruct m as [|d m].
      { by apply Permutation_nil_r in Hkp. }
      pose proof Hm as [Hm' Hlt']%increasing_cons.
      assert (c = d) as ->.
      { assert (Hcin : c ∈ d :: m) by (rewrite <-Hkp; by left). assert (Hdin : d ∈ c :: k) by (rewrite Hkp; by left).
        apply elem_of_cons in Hcin as [?|Hcin]; [done|]. apply elem_of_cons in Hdin as [?|Hdin]; [done|].
        specialize (Hlt d Hdin). specialize (Hlt' c Hcin). lia. }
      f_equal. apply IH; [done..|]. by apply Permutation_cons_inv in Hkp.
    + exfalso. destruct H as (_ & a & b & Ha & Hb' & Heq).
      assert (Hnd : NoDup (cc_position <$> base ++ capability)).
      { rewrite <-Hp. by apply increasing_all_nodup. }
      rewrite fmap_app in Hnd. apply NoDup_app in Hnd as (_ & Hdis & _).
      apply (Hdis (cc_position a)); [by apply list_elem_of_fmap_2|]. rewrite Heq. by apply list_elem_of_fmap_2.
Qed.

(** ** A sample surface *)

Module ContextSample.
Definition text (t : string) : list ModelInputItem := [InputMessage RoleUser [ContentText t]].
Definition candidate (p : Z) (k : Retention) (v : Visibility) (t : string) : ContextCandidate :=
  mkCandidate (mkFactRef "s" p) KindUserInput k v (text t).
Definition request : ContextRequest := mkContextRequest "s" "t" Inference (Some 1) 9 3 6.
(** Below the window, optional and dropped for its bytes, redacted, required, hidden
    for this purpose, newest. *)
Definition candidates : list ContextCandidate :=
  [candidate 1 Optional Visible "a"; candidate 2 Optional Visible "abcd"; candidate 3 Optional Redacted "b";
   candidate 4 Required Visible "cd"; candidate 5 Optional (Purposes {[Governance]}) "e";
   candidate 6 Optional Visible "fg"].
End ContextSample.

Example context_sample :
  match derive_context ContextSample.request ContextSample.candidates with
  | Ok s => (fr_position <$> cs_retained_refs s, fr_position <$> cs_dropped_refs s,
             fr_position <$> cs_filtered_refs s, cs_item_count s, cs_utf8_bytes s)
            = ([3; 4; 6], [2], [1; 5], 3, 4)
  | Err _ => False
  end.
Proof. by vm_compute. Qed.
