(* ===== verification/Float64.v ===== *)
(** * Doubles

    The [f64] operations the engine uses, on the specification floats of the
    Standard Library at precision 53: reading of bits and integers, the
    comparisons, the arithmetic of [multipleOf], [trunc], [fract] and [round]. *)

From Stdlib Require Export SpecFloat.
From S2P Require Import Prelude Json.

Definition f64 : Set := spec_float.
Definition f64_of_int (n : Z) : f64 := binary_normalize 53 1024 n 0 false.

Definition f64_of_bits (bits : Z) : f64 :=
  let sign := Z.testbit bits 63 in
  let exponent := Z.land (Z.shiftr bits 52) 2047 in
  let mantissa := Z.land bits 4503599627370495 in
  if exponent =? 0 then
    match mantissa with Zpos m => S754_finite sign m (-1074) | _ => S754_zero sign end
  else if exponent =? 2047 then
    if mantissa =? 0 then S754_infinity sign else S754_nan
  else match mantissa + 4503599627370496 with
       | Zpos m => S754_finite sign m (exponent - 1075)
       | _ => S754_nan
       end.

Definition f64_add (a b : f64) : f64 := SFadd 53 1024 a b.
Definition f64_sub (a b : f64) : f64 := SFsub 53 1024 a b.
Definition f64_mul (a b : f64) : f64 := SFmul 53 1024 a b.
Definition f64_div (a b : f64) : f64 := SFdiv 53 1024 a b.
Definition f64_abs (a : f64) : f64 := SFabs a.
Definition f64_eqb (a b : f64) : bool := SFeqb a b.
Definition f64_ltb (a b : f64) : bool := SFltb a b.
Definition f64_leb (a b : f64) : bool := SFleb a b.
(** [f64::max] of two numbers, neither of them NaN. *)
Definition f64_max (a b : f64) : f64 := if f64_ltb a b then b else a.

(** An integer of a magnitude below [2^53], with the sign of the float it rounds. *)
Definition f64_signed_int (sign : bool) (n : Z) : f64 :=
  binary_normalize 53 1024 (if sign then - n else n) 0 sign.
(** [trunc], and [round] half away from zero. *)
Definition f64_trunc (a : f64) : f64 :=
  match a with
  | S754_finite sign m e => if 0 <=? e then a else f64_signed_int sign (Z.shiftr (Zpos m) (- e))
  | _ => a
  end.
Definition f64_round (a : f64) : f64 :=
  match a with
  | S754_finite sign m e =>
      if 0 <=? e then a
      else f64_signed_int sign (Z.shiftr (Zpos m + Z.shiftl 1 (- e - 1)) (- e))
  | _ => a
  end.
Definition f64_fract (a : f64) : f64 := f64_sub a (f64_trunc a).

(** [f64::is_finite]. *)
Definition f64_is_finite (a : f64) : bool :=
  match a with S754_zero _ | S754_finite _ _ _ => true | _ => false end.

Definition f64_zero : f64 := S754_zero false.
Definition f64_one : f64 := f64_of_int 1.
Definition f64_four : f64 := f64_of_int 4.
Definition f64_epsilon : f64 := f64_of_bits 4372995238176751616.

(** [Value::as_f64]. *)
Definition as_f64 (v : Value) : option f64 :=
  match v with
  | Num (PosInt n) | Num (NegInt n) => Some (f64_of_int n)
  | Num (Float bits) => Some (f64_of_bits bits)
  | _ => None
  end.

(** ** Samples *)

Example f64_epsilon_is : f64_eqb (f64_add f64_one f64_epsilon) f64_one = false /\
  f64_eqb (f64_add f64_one (f64_div f64_epsilon f64_four)) f64_one = true.
Proof. by vm_compute. Qed.
Example f64_samples :
  f64_of_bits 4609434218613702656 = f64_div (f64_of_int 3) (f64_of_int 2) /\
  f64_round (f64_of_bits 4609434218613702656) = f64_of_int 2 /\
  f64_trunc (f64_of_bits 4609434218613702656) = f64_one /\
  f64_round (f64_of_bits 13832806255468478464) = f64_of_int (-2) /\
  f64_eqb (f64_fract (f64_of_int 7)) f64_zero = true.
Proof. by vm_compute. Qed.
