(* ===== verification/ToolSchema.v ===== *)
(** * Portable tool schemas ([engine/tools/src/schema.rs], [schema_validate.rs], [unique_json.rs])

    The admission of a JSON Schema, the validation of an instance against an
    admitted schema, and the reading of arguments without duplicate keys.  A call
    of [expect] on an absent value is [Panicked].  The recursions over a schema
    take fuel; the entry points give the depth of the schema, which is enough. *)

From S2P Require Import Prelude Json Float64.

(** ** Errors ([prepared.rs]) *)

Inductive PreparationErrorCode :=
  | InvalidModelCallId | InvalidToolName | ToolNotAdmitted | InvalidArgumentsJson | ArgumentsSchemaMismatch
  | InvalidToolDefinition | UnsupportedSchemaKeyword | NonCanonicalValue | EffectAccessInvalid
  | SandboxRequirementInvalid.

Record SchemaFailure := mkSchemaFailure {
  sf_instance_path : string;
  sf_schema_path : string;
  sf_keyword : string;
}.

Record PreparationError := mkPreparationError {
  pe_code : PreparationErrorCode;
  pe_failures : list SchemaFailure;
}.
Definition preparation_error (code : PreparationErrorCode) : PreparationError := mkPreparationError code [].
Definition invalid_definition : PreparationError := preparation_error InvalidToolDefinition.

#[export] Instance PreparationErrorCode_eq_dec : EqDecision PreparationErrorCode.
Proof. solve_decision. Defined.
#[export] Instance SchemaFailure_eq_dec : EqDecision SchemaFailure.
Proof. solve_decision. Defined.
#[export] Instance PreparationError_eq_dec : EqDecision PreparationError.
Proof. solve_decision. Defined.

(** How a recursion over a schema stops without a result. *)
Inductive Halt := Panicked | OutOfFuel.

(** ** Admission of a schema *)

Definition DIALECT : string := "https://json-schema.org/draft/2020-12/schema".
Definition KEYWORDS : list string :=
  ["$schema"; "$id"; "title"; "description"; "default"; "examples"; "deprecated"; "readOnly"; "writeOnly";
   "format"; "type"; "enum"; "const"; "properties"; "required"; "additionalProperties"; "items"; "minItems";
   "maxItems"; "minLength"; "maxLength"; "minimum"; "maximum"; "exclusiveMinimum"; "exclusiveMaximum";
   "multipleOf"; "allOf"; "anyOf"; "oneOf"; "not"].
Definition TYPES : list string := ["object"; "array"; "string"; "number"; "integer"; "boolean"; "null"].

Definition contains (l : list string) (s : string) : bool := existsb (String.eqb s) l.

(** The names of [required], each a string not seen before. *)
Fixpoint required_names (seen : gset string) (values : list Value) : bool :=
  match values with
  | [] => true
  | Str name :: values => negb (bool_decide (name ∈ seen)) && required_names ({[name]} ∪ seen) values
  | _ => false
  end.

Definition validate_required (object : Map) : result PreparationError unit :=
  match map_get "required" object with
  | None => Ok tt
  | Some required =>
      let? values := ok_or (as_array required) invalid_definition in
      if required_names ∅ values then Ok tt else Err invalid_definition
  end.

(** No value equals an earlier one. *)
Fixpoint distinct_values (earlier values : list Value) : bool :=
  match values with
  | [] => true
  | v :: values => negb (existsb (fun w => value_eqb w v) earlier) && distinct_values (earlier ++ [v]) values
  end.

Definition validate_keyword_values (object : Map) : result PreparationError unit :=
  reject invalid_definition when
    existsb (fun keyword => is_some_and (fun v => is_none (as_u64 v)) (map_get keyword object))
      ["minItems"; "maxItems"; "minLength"; "maxLength"];
  reject invalid_definition when
    existsb (fun keyword => is_some_and (fun v => is_none (as_f64 v)) (map_get keyword object))
      ["minimum"; "maximum"; "exclusiveMinimum"; "exclusiveMaximum"];
  reject invalid_definition when
    is_some_and (fun v => match as_f64 v with Some number => f64_leb number f64_zero | None => true end)
      (map_get "multipleOf" object);
  match map_get "enum" object with
  | None => Ok tt
  | Some values =>
      match as_array values with
      | Some ((_ :: _) as values) => if distinct_values [] values then Ok tt else Err invalid_definition
      | _ => Err invalid_definition
      end
  end.

(** The children of a node whose own check is [rec]. *)
Definition validate_children (rec : Value -> result PreparationError unit) (object : Map)
    : result PreparationError unit :=
  match map_get "properties" object with
  | Some properties =>
      let? m := ok_or (as_object properties) invalid_definition in try_for_each rec m.*2
  | None => Ok tt
  end ?;
  match map_get "additionalProperties" object with
  | Some ((Obj _) as additional) => rec additional
  | Some (Bool _) | None => Ok tt
  | Some _ => Err invalid_definition
  end ?;
  match map_get "items" object with Some items => rec items | None => Ok tt end ?;
  try_for_each (fun keyword =>
    match map_get keyword object with
    | Some branches =>
        match as_array branches with
        | Some ((_ :: _) as branches) => try_for_each rec branches
        | _ => Err invalid_definition
        end
    | None => Ok tt
    end) ["allOf"; "anyOf"; "oneOf"] ?;
  match map_get "not" object with Some child => rec child | None => Ok tt end.

Definition validate_schema_body (rec : Value -> result PreparationError unit) (schema : Value)
    : result PreparationError unit :=
  let? object := ok_or (as_object schema) invalid_definition in
  reject (preparation_error UnsupportedSchemaKeyword) when
    existsb (fun keyword => negb (contains KEYWORDS keyword)) object.*1;
  reject invalid_definition when
    is_some_and (fun v => match as_str v with Some s => negb (s =? DIALECT)%string | None => true end)
      (map_get "$schema" object);
  reject invalid_definition when
    is_some_and (fun kind => match as_str kind with Some s => negb (contains TYPES s) | None => true end)
      (map_get "type" object);
  validate_required object ?;
  validate_keyword_values object ?;
  validate_children rec object.

(** The fuel only bounds the depth: without fuel no schema is admitted. *)
Fixpoint validate_schema_node (fuel : nat) (schema : Value) : result PreparationError unit :=
  match fuel with
  | O => Err invalid_definition
  | S fuel => validate_schema_body (validate_schema_node fuel) schema
  end.

Definition validate_value_definition (schema : Value) : result PreparationError unit :=
  validate_schema_node (S (value_depth schema)) schema.

Definition validate_definition (schema : Value) : result PreparationError unit :=
  let? object := ok_or (as_object schema) invalid_definition in
  reject invalid_definition when
    match map_get "type" object ≫= as_str with Some s => negb (s =? "object")%string | None => true end
    || match map_get "properties" object with Some (Obj _) => false | _ => true end
    || match map_get "additionalProperties" object with Some (Bool _) | Some (Obj _) => false | _ => true end;
  validate_value_definition schema.

(** ** Validation of an instance *)

Abbreviation VRes := (result Halt (list SchemaFailure)) (only parsing).

(** [str::replace] of one byte. *)
Fixpoint replace_byte (c : ascii) (by_ s : string) : string :=
  match s with
  | EmptyString => ""
  | String d s => (if Ascii.eqb c d then by_ else String d "") +:+ replace_byte c by_ s
  end.
Definition join (base token : string) : string :=
  base +:+ "/" +:+ replace_byte (ascii_of_N 47) "~1" (replace_byte (ascii_of_N 126) "~0" token).
Definition failure (ip sp keyword : string) : SchemaFailure := mkSchemaFailure ip (join sp keyword) keyword.

(** [chars().count()]: the bytes of UTF-8 text that start a character. *)
Fixpoint char_count (s : string) : Z :=
  match s with
  | EmptyString => 0
  | String c s => (if (128 <=? byte_code c) && (byte_code c <? 192) then 0 else 1) + char_count s
  end.

Definition matches_type (value : Value) (kind : string) : bool :=
  if (kind =? "object")%string then is_some (as_object value)
  else if (kind =? "array")%string then is_some (as_array value)
  else if (kind =? "string")%string then is_some (as_str value)
  else if (kind =? "number")%string then match value with Num _ => true | _ => false end
  else if (kind =? "integer")%string then
    is_some_and (fun number => f64_eqb (f64_fract number) f64_zero) (as_f64 value)
  else if (kind =? "boolean")%string then is_some (as_bool value)
  else if (kind =? "null")%string then is_null value
  else false.

Definition boundary (schema : Map) (key : string) (actual : Z) (check : Z -> Z -> bool) (ip sp : string)
    : list SchemaFailure :=
  if is_some_and (fun bound => negb (check actual bound)) (map_get key schema ≫= as_u64)
  then [failure ip sp key] else [].

(** Runs a check on each element and appends the failures. *)
Fixpoint collect {A} (f : A -> VRes) (l : list A) : VRes :=
  match l with
  | [] => Ok []
  | x :: l => let? head := f x in let? tail := collect f l in Ok (head ++ tail)
  end.

Section validate.
Context (rec : Value -> Value -> string -> string -> VRes).

Definition validate_object (schema : Map) (instance : Value) (ip sp : string) : VRes :=
  match as_object instance with
  | None => Ok []
  | Some value =>
      let missing := match map_get "required" schema ≫= as_array with
        | Some required =>
            omap (fun name => match as_str name with
              | Some name => if contains_key value name then None else Some (failure ip sp "required")
              | None => None end) required
        | None => [] end in
      let properties := map_get "properties" schema ≫= as_object in
      let? known := match properties with
        | Some properties =>
            collect (fun entry : string * Value =>
              match map_get entry.1 value with
              | Some item => rec entry.2 item (join ip entry.1) (join (join sp "properties") entry.1)
              | None => Ok []
              end) properties
        | None => Ok [] end in
      let? additional := collect (fun entry : string * Value =>
        if is_some_and (fun known => contains_key known entry.1) properties then Ok []
        else match map_get "additionalProperties" schema with
             | Some (Bool false) => Ok [failure (join ip entry.1) sp "additionalProperties"]
             | Some ((Obj _) as child) =>
                 rec child entry.2 (join ip entry.1) (join sp "additionalProperties")
             | _ => Ok []
             end) value in
      Ok (missing ++ known ++ additional)
  end.

Definition validate_array (schema : Map) (instance : Value) (ip sp : string) : VRes :=
  match as_array instance with
  | None => Ok []
  | Some value =>
      let len := Z.of_nat (length value) in
      let? items := match map_get "items" schema with
        | Some items =>
            collect (fun entry : nat * Value =>
              rec items entry.2 (join ip (nat_to_string (Z.of_nat entry.1))) (join sp "items"))
              (imap pair value)
        | None => Ok [] end in
      Ok (boundary schema "minItems" len (fun a b => b <=? a) ip sp
          ++ boundary schema "maxItems" len Z.leb ip sp ++ items)
  end.

Definition validate_string (schema : Map) (instance : Value) (ip sp : string) : list SchemaFailure :=
  match as_str instance with
  | None => []
  | Some value =>
      let len := char_count value in
      boundary schema "minLength" len (fun a b => b <=? a) ip sp ++ boundary schema "maxLength" len Z.leb ip sp
  end.

(** The bound of a keyword, and whether a value violates it. *)
Definition number_check (schema : Map) (key : string) (violates : f64 -> bool) (ip sp : string)
    : list SchemaFailure :=
  if is_some_and violates (map_get key schema ≫= as_f64) then [failure ip sp key] else [].

Definition not_multiple (value unit : f64) : bool :=
  let quotient := f64_div value unit in
  f64_ltb (f64_mul (f64_mul f64_epsilon (f64_max (f64_abs quotient) f64_one)) f64_four)
    (f64_abs (f64_sub quotient (f64_round quotient))).

Definition validate_number (schema : Map) (instance : Value) (ip sp : string) : list SchemaFailure :=
  match as_f64 instance with
  | None => []
  | Some value =>
      number_check schema "minimum" (fun bound => f64_ltb value bound) ip sp
      ++ number_check schema "maximum" (fun bound => f64_ltb bound value) ip sp
      ++ number_check schema "exclusiveMinimum" (fun bound => f64_leb value bound) ip sp
      ++ number_check schema "exclusiveMaximum" (fun bound => f64_leb bound value) ip sp
      ++ number_check schema "multipleOf" (not_multiple value) ip sp
  end.

(** One of [allOf], [anyOf], [oneOf]. *)
Definition validate_branches (schema : Map) (instance : Value) (ip sp keyword : string) : VRes :=
  match map_get keyword schema ≫= as_array with
  | None => Ok []
  | Some branches =>
      let? results := try_map (fun branch => rec branch instance ip (join sp keyword)) branches in
      let successes := length (List.filter (fun r => bool_decide (r = [])) results) in
      Ok (if (keyword =? "allOf")%string then mjoin results
          else if ((keyword =? "anyOf")%string && (successes =? 0)%nat)
                  || ((keyword =? "oneOf")%string && negb (successes =? 1)%nat)
               then [failure ip sp keyword] else [])
  end.

Definition validate_composition (schema : Map) (instance : Value) (ip sp : string) : VRes :=
  let? branches := collect (validate_branches schema instance ip sp) ["allOf"; "anyOf"; "oneOf"] in
  let? negation := match map_get "not" schema with
    | Some child =>
        let? inner := rec child instance ip (join sp "not") in
        Ok (if bool_decide (inner = []) then [failure ip sp "not"] else [])
    | None => Ok [] end in
  Ok (branches ++ negation).

Definition validate_node_body (schema instance : Value) (ip sp : string) : VRes :=
  let? object := ok_or (as_object schema) Panicked in
  if match map_get "type" object ≫= as_str with Some kind => negb (matches_type instance kind) | None => false end
  then Ok [failure ip sp "type"]
  else
    let enums := if is_some_and (fun values => negb (existsb (fun v => value_eqb v instance) values))
                      (map_get "enum" object ≫= as_array) then [failure ip sp "enum"] else [] in
    let consts := if is_some_and (fun value => negb (value_eqb value instance)) (map_get "const" object)
                  then [failure ip sp "const"] else [] in
    let? objects := validate_object object instance ip sp in
    let? arrays := validate_array object instance ip sp in
    let? composed := validate_composition object instance ip sp in
    Ok (enums ++ consts ++ objects ++ arrays ++ validate_string object instance ip sp
        ++ validate_number object instance ip sp ++ composed).
End validate.

Fixpoint validate_node (fuel : nat) (schema instance : Value) (ip sp : string) : VRes :=
  match fuel with
  | O => Err OutOfFuel
  | S fuel => validate_node_body (validate_node fuel) schema instance ip sp
  end.

(** The derived order of failures: paths first, bytewise. *)
Definition failure_leb (a b : SchemaFailure) : bool :=
  if (sf_instance_path a =? sf_instance_path b)%string then
    if (sf_schema_path a =? sf_schema_path b)%string then (sf_keyword a <=? sf_keyword b)%string
    else (sf_schema_path a <=? sf_schema_path b)%string
  else (sf_instance_path a <=? sf_instance_path b)%string.
Definition failure_le (a b : SchemaFailure) : Prop := failure_leb a b = true.
#[export] Instance failure_le_dec a b : Decision (failure_le a b).
Proof. unfold failure_le. apply _. Defined.

Definition validate_arguments (schema instance : Value) : VRes :=
  let? failures := validate_node (S (value_depth schema)) schema instance "" "" in
  Ok (merge_sort failure_le failures).

Definition validate_portable_value (schema value : Value)
    : result PreparationError (result Halt (list SchemaFailure)) :=
  validate_value_definition schema ?;
  Ok (validate_arguments schema value).

(** ** Arguments without duplicate keys *)

(** What the deserializer reports to its visitor, an object with its entries in
    text order; integers are [i64] when negative and [u64] otherwise. *)
Inductive Raw :=
  | RawUnit
  | RawBool (value : bool)
  | RawI64 (value : Z)
  | RawU64 (value : Z)
  | RawF64 (bits : Z)
  | RawStr (value : string)
  | RawSeq (values : list Raw)
  | RawMap (values : list (string * Raw)).

(** [serde_json::Deserializer::from_str], read to the end of the text. *)
Class ArgumentReader := read_raw : string -> option Raw.

(** [BTreeMap::insert]: the map with the entry, and whether the key was present. *)
Fixpoint map_insert (key : string) (value : Value) (m : Map) : Map * bool :=
  match m with
  | [] => ([(key, value)], false)
  | (k, v) :: m' =>
      if (key =? k)%string then ((k, value) :: m', true)
      else if (key <=? k)%string then ((key, value) :: m, false)
      else let '(m'', present) := map_insert key value m' in ((k, v) :: m'', present)
  end.

Definition f64_is_finite (bits : Z) : bool :=
  match f64_of_bits bits with S754_infinity _ | S754_nan => false | _ => true end.

Fixpoint unique_value (raw : Raw) : option Value :=
  match raw with
  | RawUnit => Some Null
  | RawBool value => Some (Bool value)
  | RawI64 value => Some (Num (if value <? 0 then NegInt value else PosInt value))
  | RawU64 value => Some (Num (PosInt value))
  | RawF64 bits => if f64_is_finite bits then Some (Num (Float bits)) else None
  | RawStr value => Some (Str value)
  | RawSeq values =>
      Arr <$> (fix sequence (values : list Raw) : option (list Value) :=
        match values with
        | [] => Some []
        | raw :: values => v ← unique_value raw; vs ← sequence values; Some (v :: vs)
        end) values
  | RawMap values =>
      Obj <$> (fix entries (acc : Map) (values : list (string * Raw)) {struct values} : option Map :=
        match values with
        | [] => Some acc
        | (key, raw) :: values =>
            v ← unique_value raw;
            let '(acc, present) := map_insert key v acc in
            if present then None else entries acc values
        end) [] values
  end.

Definition parse_arguments `{ArgumentReader} (input : string) : result PreparationError Value :=
  ok_or (raw ← read_raw input; unique_value raw) (preparation_error InvalidArgumentsJson).
