(* ===== verification/SchemaTheorems.v ===== *)
(** * Correctness of schema validation

    An admitted schema is never found malformed while validating, and validation
    reports no failure exactly on the instances the schema describes. *)

From S2P Require Import Prelude Json Float64 ToolSchema.

(** ** What a schema describes *)

(** A number keyword holds of a value. *)
Definition bound_holds (object : Map) (key : string) (violates : f64 -> bool) : Prop :=
  forall b, (map_get key object ≫= as_f64) = Some b -> violates b = false.
Definition length_holds (object : Map) (low high : string) (len : Z) : Prop :=
  (forall b, (map_get low object ≫= as_u64) = Some b -> b <= len) /\
  (forall b, (map_get high object ≫= as_u64) = Some b -> len <= b).

(** The assertions of one node, over the meaning [sat] of its children. *)
Record node_sat (sat : Value -> Value -> Prop) (object : Map) (instance : Value) : Prop := {
  ns_type kind : (map_get "type" object ≫= as_str) = Some kind -> matches_type instance kind = true;
  ns_enum values : (map_get "enum" object ≫= as_array) = Some values ->
    exists v, v ∈ values /\ value_eqb v instance = true;
  ns_const value : map_get "const" object = Some value -> value_eqb value instance = true;
  ns_required m names name : instance = Obj m -> (map_get "required" object ≫= as_array) = Some names ->
    Str name ∈ names -> contains_key m name = true;
  ns_properties m properties name child item : instance = Obj m ->
    (map_get "properties" object ≫= as_object) = Some properties -> (name, child) ∈ properties ->
    map_get name m = Some item -> sat child item;
  ns_additional m name item : instance = Obj m -> (name, item) ∈ m ->
    (forall properties, (map_get "properties" object ≫= as_object) = Some properties ->
       contains_key properties name = false) ->
    match map_get "additionalProperties" object with
    | Some (Bool false) => False
    | Some ((Obj _) as child) => sat child item
    | _ => True
    end;
  ns_array l : instance = Arr l -> length_holds object "minItems" "maxItems" (Z.of_nat (length l)) /\
    forall items item, map_get "items" object = Some items -> item ∈ l -> sat items item;
  ns_string s : instance = Str s -> length_holds object "minLength" "maxLength" (char_count s);
  ns_number x : as_f64 instance = Some x ->
    bound_holds object "minimum" (fun b => f64_ltb x b) /\ bound_holds object "maximum" (fun b => f64_ltb b x) /\
    bound_holds object "exclusiveMinimum" (fun b => f64_leb x b) /\
    bound_holds object "exclusiveMaximum" (fun b => f64_leb b x) /\
    bound_holds object "multipleOf" (not_multiple x);
  ns_all branches branch : (map_get "allOf" object ≫= as_array) = Some branches -> branch ∈ branches ->
    sat branch instance;
  ns_any branches : (map_get "anyOf" object ≫= as_array) = Some branches ->
    exists branch, branch ∈ branches /\ sat branch instance;
  ns_one branches : (map_get "oneOf" object ≫= as_array) = Some branches ->
    exists i branch, branches !! i = Some branch /\ sat branch instance /\
      forall j other, branches !! j = Some other -> sat other instance -> i = j;
  ns_not child : map_get "not" object = Some child -> ~ sat child instance;
}.

(** The meaning of a schema by its depth. *)
Fixpoint sat_at (depth : nat) (schema instance : Value) : Prop :=
  match depth with
  | O => False
  | S depth => exists object, schema = Obj object /\ node_sat (sat_at depth) object instance
  end.
Definition satisfies (schema instance : Value) : Prop := sat_at (S (value_depth schema)) schema instance.

(** ** Children and depth *)

Lemma depth_member k v (m : Map) : (k, v) ∈ m -> (value_depth v < value_depth (Obj m))%nat.
Proof.
  simpl. induction m as [|[k' v'] m IH]; [by intros H%elem_of_nil|].
  intros [[= <- <-]|H]%elem_of_cons; [lia|]. specialize (IH H). lia.
Qed.
Lemma depth_element v (l : list Value) : v ∈ l -> (value_depth v < value_depth (Arr l))%nat.
Proof.
  simpl. induction l as [|w l IH]; [by intros H%elem_of_nil|].
  intros [<-|H]%elem_of_cons; [lia|]. specialize (IH H). lia.
Qed.
Lemma depth_get k v (m : Map) : map_get k m = Some v -> (value_depth v < value_depth (Obj m))%nat.
Proof. intros H. by eapply depth_member, assoc_elem. Qed.

(** The sub-schemas of a node. *)
Inductive child_of (object : Map) : Value -> Prop :=
  | child_property properties name child :
      map_get "properties" object = Some (Obj properties) -> (name, child) ∈ properties -> child_of object child
  | child_additional m : map_get "additionalProperties" object = Some (Obj m) -> child_of object (Obj m)
  | child_items items : map_get "items" object = Some items -> child_of object items
  | child_branch keyword branches branch : keyword ∈ ["allOf"; "anyOf"; "oneOf"] ->
      map_get keyword object = Some (Arr branches) -> branch ∈ branches -> child_of object branch
  | child_not child : map_get "not" object = Some child -> child_of object child.

Lemma child_depth object child : child_of object child -> (value_depth child < value_depth (Obj object))%nat.
Proof.
  intros H. destruct H as [p n c Hp Hc|m Hm|i Hi|k b c _ Hk Hc|c Hc]; try by eapply depth_get.
  - pose proof (depth_get _ _ _ Hp). pose proof (depth_member _ _ _ Hc). lia.
  - pose proof (depth_get _ _ _ Hk). pose proof (depth_element _ _ Hc). lia.
Qed.

Lemma try_for_each_ok {E A} (f : A -> result E unit) l x : try_for_each f l = Ok tt -> x ∈ l -> f x = Ok tt.
Proof.
  intros H Hx. revert H. induction Hx as [x l|x y l Hx IH]; simpl.
  - by destruct (f x) as [[]|].
  - destruct (f y) as [[]|]; [auto|done].
Qed.

(** Every sub-schema of an admitted node passed the check of nodes. *)
Lemma validate_children_ok rec object child :
  validate_children rec object = Ok tt -> child_of object child -> rec child = Ok tt.
Proof.
  unfold validate_children. intros H Hc.
  destruct (match map_get "properties" object with Some _ => _ | None => _ end) as [[]|] eqn:E1; [|done].
  destruct (match map_get "additionalProperties" object with Some _ => _ | None => _ end) as [[]|] eqn:E2; [|done].
  destruct (match map_get "items" object with Some _ => _ | None => _ end) as [[]|] eqn:E3; [|done].
  destruct (try_for_each _ ["allOf"; "anyOf"; "oneOf"]) as [[]|] eqn:E4; [|done].
  destruct Hc as [p n c Hp Hin|m Hm|i Hi|k b c Hk Hb Hin|c Hn].
  - rewrite Hp in E1. simpl in E1. eapply try_for_each_ok; [exact E1|]. by apply (list_elem_of_fmap_2 snd _ (n, c)).
  - by rewrite Hm in E2.
  - by rewrite Hi in E3.
  - eapply try_for_each_ok in E4; [|exact Hk]. simpl in E4. rewrite Hb in E4. simpl in E4.
    destruct b as [|b0 b]; [by apply elem_of_nil in Hin|]. by eapply try_for_each_ok.
  - by rewrite Hn in H.
Qed.

Lemma schema_body_ok rec schema : validate_schema_body rec schema = Ok tt ->
  exists object, schema = Obj object /\ validate_children rec object = Ok tt.
Proof.
  unfold validate_schema_body. intros H. destruct schema as [| | | | |m]; try done. exists m. split; [done|].
  simpl in H. repeat (case_match; try done).
Qed.

(** ** Collecting failures *)

Lemma collect_ok {A} (f : A -> VRes) (P : A -> Prop) l :
  (forall x, x ∈ l -> exists fs, f x = Ok fs /\ (fs = [] <-> P x)) ->
  exists fs, collect f l = Ok fs /\ (fs = [] <-> forall x, x ∈ l -> P x).
Proof.
  induction l as [|x l IH]; intros Hf; simpl.
  { exists []. split; [done|]. split; [intros _ x Hx; by apply elem_of_nil in Hx|done]. }
  destruct (Hf x) as (fs & -> & Hx); [by left|].
  destruct IH as (gs & -> & Hl); [intros y Hy; apply Hf; by right|].
  exists (fs ++ gs). split; [done|]. rewrite app_nil. setoid_rewrite elem_of_cons. naive_solver.
Qed.

Lemma try_map_all {E A B} (f : A -> result E B) (Q : A -> B -> Prop) l :
  (forall x, x ∈ l -> exists y, f x = Ok y /\ Q x y) -> exists ys, try_map f l = Ok ys /\ Forall2 Q l ys.
Proof.
  induction l as [|x l IH]; intros Hf; simpl; [by exists []|].
  destruct (Hf x) as (y & -> & Hy); [by left|].
  destruct IH as (ys & -> & Hys); [intros z Hz; apply Hf; by right|]. eauto.
Qed.

Lemma boundary_nil object key actual check ip sp :
  boundary object key actual check ip sp = [] <->
  forall b, (map_get key object ≫= as_u64) = Some b -> check actual b = true.
Proof.
  unfold boundary, is_some_and. destruct (map_get key object ≫= as_u64) as [b|]; [|by split].
  destruct (check actual b) eqn:E; simpl; split; [by intros _ c [= <-]|done..|].
  intros H. specialize (H b eq_refl). congruence.
Qed.

Lemma number_check_nil object key violates ip sp :
  number_check object key violates ip sp = [] <-> bound_holds object key violates.
Proof.
  unfold number_check, bound_holds, is_some_and. destruct (map_get key object ≫= as_f64) as [b|]; [|by split].
  destruct (violates b) eqn:E; split; [done| |by intros _ c [= <-]|done].
  intros H. specialize (H b eq_refl). congruence.
Qed.

Lemma omap_nil {A B} (f : A -> option B) l : omap f l = [] <-> forall x, x ∈ l -> f x = None.
Proof.
  induction l as [|x l IH]; csimpl; [set_solver|]. destruct (f x) eqn:E; split; intros H.
  - done.
  - exfalso. specialize (H x ltac:(left)). congruence.
  - intros y [->|Hy]%elem_of_cons; [done|]. by apply IH.
  - apply IH. intros y Hy. apply H. by right.
Qed.

(** Exactly one branch has no failures, by position. *)
Lemma one_success {A} (P : A -> Prop) (rs : list (list SchemaFailure)) l :
  Forall2 (fun x r => r = [] <-> P x) l rs ->
  length (List.filter (fun r => bool_decide (r = [])) rs) = 1%nat <->
  exists i x, l !! i = Some x /\ P x /\ forall j y, l !! j = Some y -> P y -> i = j.
Proof.
  intros H. induction H as [|x r l rs Hx H IH]; simpl; [naive_solver|].
  destruct (bool_decide (r = [])) eqn:E; bool_hyps; simpl.
  - assert (Hno : length (List.filter (fun r => bool_decide (r = [])) rs) = 0%nat <-> forall y, y ∈ l -> ~ P y).
    { clear -H. induction H as [|y s l rs Hy H IH]; simpl; [set_solver|].
      destruct (bool_decide (s = [])) eqn:E; bool_hyps; simpl.
      - split; [done|]. intros Hn. exfalso. apply (Hn y); [by left|naive_solver].
      - rewrite IH. setoid_rewrite elem_of_cons. naive_solver. }
    rewrite <-Nat.succ_inj_wd in Hno. rewrite Hno. split.
    + intros Hn. exists 0%nat, x. simpl. split_and!; [done|naive_solver|]. intros [|j] y Hy HP; [done|].
      exfalso. apply (Hn y); [by eapply list_elem_of_lookup_2|done].
    + intros (i & z & Hz & HP & Hu) y [j Hj]%list_elem_of_lookup HPy.
      assert (i = S j) by by eapply Hu. assert (i = 0%nat) by (eapply (Hu 0%nat x); [done|naive_solver]). lia.
  - rewrite IH. split.
    + intros (i & z & Hz & HP & Hu). exists (S i), z. split_and!; [done..|]. intros [|j] y Hy HPy; simpl in *; [naive_solver|].
      f_equal. by eapply Hu.
    + intros ([|i] & z & Hz & HP & Hu); simpl in *; [naive_solver|]. exists i, z. split_and!; [done..|].
      intros j y Hy HPy. assert (S i = S j) by by eapply Hu. lia.
Qed.

(** ** One node *)

Section node.
Context (rec : Value -> Value -> string -> string -> VRes) (sat : Value -> Value -> Prop) (object : Map).
Hypothesis Hrec : forall child, child_of object child -> forall instance ip sp,
  exists fs, rec child instance ip sp = Ok fs /\ (fs = [] <-> sat child instance).

Lemma as_object_some v m : as_object v = Some m <-> v = Obj m.
Proof. destruct v; simpl; naive_solver. Qed.
Lemma as_array_some v l : as_array v = Some l <-> v = Arr l.
Proof. destruct v; simpl; naive_solver. Qed.
Lemma as_str_some v s : as_str v = Some s <-> v = Str s.
Proof. destruct v; simpl; naive_solver. Qed.

Lemma get_object k m : (map_get k object ≫= as_object) = Some m <-> map_get k object = Some (Obj m).
Proof. rewrite bind_Some. setoid_rewrite as_object_some. naive_solver. Qed.
Lemma get_array k l : (map_get k object ≫= as_array) = Some l <-> map_get k object = Some (Arr l).
Proof. rewrite bind_Some. setoid_rewrite as_array_some. naive_solver. Qed.

(** The required names that are missing. *)
Lemma missing_nil (value : Map) ip sp :
  match map_get "required" object ≫= as_array with
  | Some required =>
      omap (fun name => match as_str name with
        | Some name => if contains_key value name then None else Some (failure ip sp "required")
        | None => None end) required
  | None => [] end = [] <->
  forall names name, (map_get "required" object ≫= as_array) = Some names -> Str name ∈ names ->
    contains_key value name = true.
Proof.
  destruct (map_get "required" object ≫= as_array) as [names|]; [|by split].
  rewrite omap_nil. split.
  - intros H l name [= <-] Hin. specialize (H _ Hin). simpl in H. by destruct (contains_key value name).
  - intros H v Hv. destruct v as [| | |name| |]; simpl; try done. by rewrite (H names name eq_refl Hv).
Qed.

Lemma known_ok (value : Map) ip sp :
  exists fs, match map_get "properties" object ≫= as_object with
    | Some properties =>
        collect (fun entry : string * Value =>
          match map_get entry.1 value with
          | Some item => rec entry.2 item (join ip entry.1) (join (join sp "properties") entry.1)
          | None => Ok []
          end) properties
    | None => Ok [] end = Ok fs /\
  (fs = [] <-> forall properties name child item, (map_get "properties" object ≫= as_object) = Some properties ->
    (name, child) ∈ properties -> map_get name value = Some item -> sat child item).
Proof.
  destruct (map_get "properties" object ≫= as_object) as [properties|] eqn:E; [|by exists []].
  apply get_object in E.
  destruct (collect_ok (fun entry : string * Value =>
      match map_get entry.1 value with
      | Some item => rec entry.2 item (join ip entry.1) (join (join sp "properties") entry.1)
      | None => Ok [] end)
    (fun entry => forall item, map_get entry.1 value = Some item -> sat entry.2 item) properties) as (fs & -> & Hfs).
  { intros [name child] Hin. simpl. destruct (map_get name value) as [item|]; [|by exists []].
    destruct (Hrec child) with (instance := item) (ip := join ip name) (sp := join (join sp "properties") name)
      as (fs & -> & Hfs); [by eapply child_property|].
    exists fs. split; [done|]. rewrite Hfs. split; [by intros ? ? [= <-]|auto]. }
  exists fs. split; [done|]. rewrite Hfs. split.
  - intros H p name child item [= <-] Hin. by apply (H (name, child)).
  - intros H [name child] Hin item Hitem. by eapply H.
Qed.

Lemma additional_ok (value : Map) ip sp :
  let known := map_get "properties" object ≫= as_object in
  exists fs, collect (fun entry : string * Value =>
      if is_some_and (fun known => contains_key known entry.1) known then Ok []
      else match map_get "additionalProperties" object with
           | Some (Bool false) => Ok [failure (join ip entry.1) sp "additionalProperties"]
           | Some ((Obj _) as child) => rec child entry.2 (join ip entry.1) (join sp "additionalProperties")
           | _ => Ok []
           end) value = Ok fs /\
  (fs = [] <-> forall name item, (name, item) ∈ value ->
    (forall properties, known = Some properties -> contains_key properties name = false) ->
    match map_get "additionalProperties" object with
    | Some (Bool false) => False
    | Some ((Obj _) as child) => sat child item
    | _ => True
    end).
Proof.
  intros known.
  destruct (collect_ok (fun entry : string * Value =>
      if is_some_and (fun known => contains_key known entry.1) known then Ok []
      else match map_get "additionalProperties" object with
           | Some (Bool false) => Ok [failure (join ip entry.1) sp "additionalProperties"]
           | Some ((Obj _) as child) => rec child entry.2 (join ip entry.1) (join sp "additionalProperties")
           | _ => Ok []
           end)
    (fun entry => (forall properties, known = Some properties -> contains_key properties entry.1 = false) ->
      match map_get "additionalProperties" object with
      | Some (Bool false) => False
      | Some ((Obj _) as child) => sat child entry.2
      | _ => True
      end) value) as (fs & -> & Hfs).
  { intros [name item] _. cbn [fst snd].
    destruct (is_some_and _ known) eqn:E.
    { exists []. split; [done|]. split; [|done]. intros _ H. destruct known as [p|]; [|done]. simpl in E.
      rewrite (H p eq_refl) in E. done. }
    assert (Hk : forall properties, known = Some properties -> contains_key properties name = false).
    { intros p ->. done. }
    destruct (map_get "additionalProperties" object) as [[|[]| | | |m]|] eqn:Ea;
      try (exists []; by split); [eexists; split; [done|]; split; [done|]; by intros []|].
    destruct (Hrec (Obj m)) with (instance := item) (ip := join ip name) (sp := join sp "additionalProperties")
      as (fs & -> & Hfs); [by apply child_additional|].
    exists fs. split; [done|]. rewrite Hfs. split; auto. }
  exists fs. split; [done|]. rewrite Hfs. split.
  - intros H name item Hin. by apply (H (name, item)).
  - intros H [name item] Hin. by apply H.
Qed.

Lemma validate_object_ok instance ip sp :
  exists fs, validate_object rec object instance ip sp = Ok fs /\
  (fs = [] <-> forall m, instance = Obj m ->
    (forall names name, (map_get "required" object ≫= as_array) = Some names -> Str name ∈ names ->
      contains_key m name = true) /\
    (forall properties name child item, (map_get "properties" object ≫= as_object) = Some properties ->
      (name, child) ∈ properties -> map_get name m = Some item -> sat child item) /\
    (forall name item, (name, item) ∈ m ->
      (forall properties, (map_get "properties" object ≫= as_object) = Some properties ->
         contains_key properties name = false) ->
      match map_get "additionalProperties" object with
      | Some (Bool false) => False
      | Some ((Obj _) as child) => sat child item
      | _ => True
      end)).
Proof.
  unfold validate_object. destruct (as_object instance) as [m|] eqn:E.
  2:{ exists []. split; [done|]. split; [|done]. intros _ m ->. done. }
  apply as_object_some in E as ->.
  destruct (known_ok m ip sp) as (ks & -> & Hk). destruct (additional_ok m ip sp) as (ads & -> & Ha).
  eexists. split; [done|]. rewrite !app_nil, missing_nil, Hk, Ha. split.
  - intros (? & ? & ?) m' [= <-]. done.
  - intros H. apply (H m eq_refl).
Qed.

Lemma validate_array_ok instance ip sp :
  exists fs, validate_array rec object instance ip sp = Ok fs /\
  (fs = [] <-> forall l, instance = Arr l ->
    length_holds object "minItems" "maxItems" (Z.of_nat (length l)) /\
    forall items item, map_get "items" object = Some items -> item ∈ l -> sat items item).
Proof.
  unfold validate_array. destruct (as_array instance) as [l|] eqn:E.
  2:{ exists []. split; [done|]. split; [|done]. intros _ l ->. done. }
  apply as_array_some in E as ->.
  assert (Hitems : exists fs, match map_get "items" object with
      | Some items => collect (fun entry : nat * Value =>
            rec items entry.2 (join ip (nat_to_string (Z.of_nat entry.1))) (join sp "items")) (imap pair l)
      | None => Ok [] end = Ok fs /\
    (fs = [] <-> forall items item, map_get "items" object = Some items -> item ∈ l -> sat items item)).
  { destruct (map_get "items" object) as [items|] eqn:Ei; [|by exists []].
    destruct (collect_ok (fun entry : nat * Value =>
        rec items entry.2 (join ip (nat_to_string (Z.of_nat entry.1))) (join sp "items"))
      (fun entry => sat items entry.2) (imap pair l)) as (fs & -> & Hfs).
    { intros entry _. apply Hrec. by apply child_items. }
    exists fs. split; [done|]. rewrite Hfs. split.
    - intros H i item [= <-] [n Hn]%list_elem_of_lookup. apply (H (n, item)).
      apply list_elem_of_lookup. exists n. by rewrite list_lookup_imap, Hn.
    - intros H [n item] [j Hj]%list_elem_of_lookup. rewrite list_lookup_imap in Hj.
      destruct (l !! j) eqn:El; simplify_eq/=. apply (H items); [done|]. by eapply list_elem_of_lookup_2. }
  destruct Hitems as (its & -> & Hi). eexists. split; [done|].
  rewrite !app_nil, !boundary_nil, Hi. unfold length_holds. setoid_rewrite Z.leb_le. split.
  - intros (? & ? & ?) l' [= <-]. done.
  - intros H. destruct (H l eq_refl) as [[? ?] ?]. done.
Qed.

Lemma validate_string_nil instance ip sp :
  validate_string object instance ip sp = [] <->
  forall s, instance = Str s -> length_holds object "minLength" "maxLength" (char_count s).
Proof.
  unfold validate_string. destruct (as_str instance) as [s|] eqn:E.
  2:{ split; [|done]. intros _ s ->. done. }
  apply as_str_some in E as ->. rewrite app_nil, !boundary_nil. unfold length_holds. setoid_rewrite Z.leb_le.
  split; [by intros ? s' [= <-]|auto].
Qed.

Lemma validate_number_nil instance ip sp :
  validate_number object instance ip sp = [] <->
  forall x, as_f64 instance = Some x ->
    bound_holds object "minimum" (fun b => f64_ltb x b) /\ bound_holds object "maximum" (fun b => f64_ltb b x) /\
    bound_holds object "exclusiveMinimum" (fun b => f64_leb x b) /\
    bound_holds object "exclusiveMaximum" (fun b => f64_leb b x) /\
    bound_holds object "multipleOf" (not_multiple x).
Proof.
  unfold validate_number. destruct (as_f64 instance) as [x|]; [|by split].
  rewrite !app_nil, !number_check_nil. split; [by intros ? y [= <-]|auto].
Qed.

(** What the branches of a keyword mean. *)
Definition branches_sat (keyword : string) (branches : list Value) (instance : Value) : Prop :=
  if (keyword =? "allOf")%string then forall branch, branch ∈ branches -> sat branch instance
  else if (keyword =? "anyOf")%string then exists branch, branch ∈ branches /\ sat branch instance
  else exists i branch, branches !! i = Some branch /\ sat branch instance /\
    forall j other, branches !! j = Some other -> sat other instance -> i = j.

Lemma branch_results_all (P : Value -> Prop) (rs : list (list SchemaFailure)) l :
  Forall2 (fun x r => r = [] <-> P x) l rs -> mjoin rs = [] <-> forall x, x ∈ l -> P x.
Proof.
  induction 1 as [|x r l rs Hx H IH]; csimpl; [set_solver|]. rewrite app_nil, IH, Hx.
  setoid_rewrite elem_of_cons. naive_solver.
Qed.

Lemma branch_results_any (P : Value -> Prop) (rs : list (list SchemaFailure)) l :
  Forall2 (fun x r => r = [] <-> P x) l rs ->
  length (List.filter (fun r => bool_decide (r = [])) rs) <> 0%nat <-> exists x, x ∈ l /\ P x.
Proof.
  induction 1 as [|x r l rs Hx H IH]; simpl; [set_solver|].
  destruct (bool_decide (r = [])) eqn:E; bool_hyps; simpl.
  - split; [|done]. intros _. exists x. split; [by left|naive_solver].
  - rewrite IH. setoid_rewrite elem_of_cons. naive_solver.
Qed.

Lemma validate_branches_ok instance ip sp keyword : keyword ∈ ["allOf"; "anyOf"; "oneOf"] ->
  exists fs, validate_branches rec object instance ip sp keyword = Ok fs /\
  (fs = [] <-> forall branches, (map_get keyword object ≫= as_array) = Some branches ->
    branches_sat keyword branches instance).
Proof.
  intros Hk. unfold validate_branches.
  destruct (map_get keyword object ≫= as_array) as [branches|] eqn:E; [|by exists []].
  apply get_array in E.
  destruct (try_map_all (fun branch => rec branch instance ip (join sp keyword))
    (fun x r => r = [] <-> sat x instance) branches) as (rs & -> & Hres).
  { intros b Hb. apply Hrec. by eapply child_branch. }
  eexists. split; [done|]. unfold branches_sat.
  repeat setoid_rewrite elem_of_cons in Hk. destruct Hk as [->|[->|[->|?%elem_of_nil]]]; [..|done]; simpl.
  - rewrite (branch_results_all _ _ _ Hres). split; [by intros H l [= <-]|intros H; by apply H].
  - pose proof (branch_results_any _ _ _ Hres) as Hany. destruct (_ =? 0)%nat eqn:E0; simpl.
    + apply Nat.eqb_eq in E0. split; [done|]. intros H. exfalso. apply Hany; [by apply H|done].
    + apply Nat.eqb_neq, Hany in E0. split; [by intros _ l [= <-]|done].
  - pose proof (one_success _ _ _ Hres) as Hone. destruct (_ =? 1)%nat eqn:E1; simpl.
    + apply Nat.eqb_eq, Hone in E1. split; [by intros _ l [= <-]|done].
    + apply Nat.eqb_neq in E1. split; [done|]. intros H. destruct E1. apply Hone. by apply H.
Qed.

Lemma validate_composition_ok instance ip sp :
  exists fs, validate_composition rec object instance ip sp = Ok fs /\
  (fs = [] <-> (forall keyword branches, keyword ∈ ["allOf"; "anyOf"; "oneOf"] ->
      (map_get keyword object ≫= as_array) = Some branches -> branches_sat keyword branches instance) /\
    (forall child, map_get "not" object = Some child -> ~ sat child instance)).
Proof.
  unfold validate_composition.
  destruct (collect_ok (validate_branches rec object instance ip sp)
    (fun keyword => forall branches, (map_get keyword object ≫= as_array) = Some branches ->
       branches_sat keyword branches instance) ["allOf"; "anyOf"; "oneOf"]) as (bs & -> & Hbs).
  { intros keyword Hk. by apply validate_branches_ok. }
  destruct (map_get "not" object) as [child|] eqn:En.
  - destruct (Hrec child) with (instance := instance) (ip := ip) (sp := join sp "not") as (fs & -> & Hfs);
      [by apply child_not|]. eexists. split; [done|]. rewrite app_nil, Hbs.
    destruct (bool_decide (fs = [])) eqn:Eb; bool_hyps.
    + split; [by intros [_ ?]|]. intros [_ Hn]. exfalso. apply (Hn child eq_refl). by apply Hfs.
    + split; [|by intros [? _]; split; [eauto|]]. intros [H _]. split; [eauto|]. intros c [= <-] Hs. apply Eb. by apply Hfs.
  - eexists. split; [done|]. rewrite app_nil_r, Hbs. split; [intros H; split; [eauto|done]|intros [H _]; eauto].
Qed.

Lemma validate_node_body_ok instance ip sp :
  exists fs, validate_node_body rec (Obj object) instance ip sp = Ok fs /\
  (fs = [] <-> node_sat sat object instance).
Proof.
  unfold validate_node_body. cbn [as_object ok_or].
  destruct (match map_get "type" object ≫= as_str with Some _ => _ | None => _ end) eqn:Et.
  { eexists. split; [done|]. split; [done|]. intros [Hty]. destruct (map_get "type" object ≫= as_str); [|done].
    rewrite (Hty _ eq_refl) in Et. done. }
  destruct (validate_object_ok instance ip sp) as (os & -> & Ho).
  destruct (validate_array_ok instance ip sp) as (ars & -> & Ha).
  destruct (validate_composition_ok instance ip sp) as (cs & -> & Hc).
  eexists. split; [done|]. rewrite !app_nil, Ho, Ha, Hc, validate_string_nil, validate_number_nil.
  assert (Henum : (if is_some_and (fun values => negb (existsb (fun v => value_eqb v instance) values))
      (map_get "enum" object ≫= as_array) then [failure ip sp "enum"] else []) = [] <->
    forall values, (map_get "enum" object ≫= as_array) = Some values ->
      exists v, v ∈ values /\ value_eqb v instance = true).
  { destruct (map_get "enum" object ≫= as_array) as [values|]; [|by split]. simpl.
    destruct (existsb _ values) eqn:E; simpl.
    - split; [|done]. intros _ l [= <-]. apply existsb_exists in E as (v & Hv & E). exists v. by rewrite list_elem_of_In.
    - split; [done|]. intros H. destruct (H values eq_refl) as (v & Hv & Hev). exfalso.
      apply not_true_iff_false in E. apply E. apply existsb_exists. exists v. by rewrite <-list_elem_of_In. }
  assert (Hconst : (if is_some_and (fun value => negb (value_eqb value instance)) (map_get "const" object)
      then [failure ip sp "const"] else []) = [] <->
    forall value, map_get "const" object = Some value -> value_eqb value instance = true).
  { destruct (map_get "const" object) as [v|]; [|by split]. simpl. destruct (value_eqb v instance) eqn:E; simpl.
    - split; [by intros _ w [= <-]|done].
    - split; [done|]. intros H. specialize (H v eq_refl). congruence. }
  rewrite Henum, Hconst. unfold branches_sat in *. split.
  - intros (He & Hco & Hob & Har & Hst & Hnu & Hbr & Hno). split; try done.
    + intros kind Hkind. rewrite Hkind in Et. by apply negb_false_iff in Et.
    + intros m names name ->. by apply Hob.
    + intros m p name child item ->. by apply Hob.
    + intros m name item ->. by apply Hob.
    + intros bs b Hbs. by apply (Hbr "allOf" bs ltac:(set_solver) Hbs).
    + intros bs Hbs. by apply (Hbr "anyOf" bs ltac:(set_solver) Hbs).
    + intros bs Hbs. by apply (Hbr "oneOf" bs ltac:(set_solver) Hbs).
  - intros [Hty Hen Hco Hre Hpr Had Har Hst Hnu Hal Han Hon Hno]. split_and!; try done.
    + intros m ->. split_and!; [intros; by eapply Hre|intros; by eapply Hpr|intros; by eapply Had].
    + intros keyword bs Hk Hbs. repeat setoid_rewrite elem_of_cons in Hk.
      destruct Hk as [->|[->|[->|?%elem_of_nil]]]; [intros b; by apply Hal|by apply Han|by apply Hon|done].
Qed.
End node.

(** ** Fuel *)

Lemma node_sat_ext (sat sat' : Value -> Value -> Prop) object instance :
  (forall child i, child_of object child -> sat child i <-> sat' child i) ->
  node_sat sat object instance -> node_sat sat' object instance.
Proof.
  intros Hext [Hty Hen Hco Hre Hpr Had Har Hst Hnu Hal Han Hon Hno].
  assert (Hbr : forall keyword branches, keyword ∈ ["allOf"; "anyOf"; "oneOf"] ->
    (map_get keyword object ≫= as_array) = Some branches -> forall b i, b ∈ branches -> sat b i <-> sat' b i).
  { intros keyword bs Hk Hbs b i Hb. apply Hext. apply get_array in Hbs. by eapply child_branch. }
  split; try done.
  - intros m p name child item Hi Hp Hin Hget. apply Hext; [|by eapply Hpr].
    apply get_object in Hp. by eapply child_property.
  - intros m name item Hi Hin Hnot. specialize (Had m name item Hi Hin Hnot).
    destruct (map_get "additionalProperties" object) as [[|[]| | | |a]|] eqn:Ea; try done.
    apply Hext; [by apply child_additional|done].
  - intros l ->. destruct (Har l eq_refl) as [Hlen Hitems]. split; [done|]. intros items item Hi Hin.
    apply Hext; [by apply child_items|by apply Hitems].
  - intros bs b Hbs Hb. apply (Hbr "allOf" bs ltac:(set_solver) Hbs); [done|by eapply Hal].
  - intros bs Hbs. destruct (Han bs Hbs) as (b & Hb & Hs). exists b. split; [done|].
    by apply (Hbr "anyOf" bs ltac:(set_solver) Hbs).
  - intros bs Hbs. destruct (Hon bs Hbs) as (i & b & Hb & Hs & Hu). exists i, b. split_and!; [done| |].
    + apply (Hbr "oneOf" bs ltac:(set_solver) Hbs); [by eapply list_elem_of_lookup_2|done].
    + intros j c Hc Hsc. apply (Hu j c Hc). apply (Hbr "oneOf" bs ltac:(set_solver) Hbs); [by eapply list_elem_of_lookup_2|done].
  - intros child Hc Hs. apply (Hno child Hc). apply Hext; [by apply child_not|done].
Qed.

Lemma sat_fuel n m schema instance : (value_depth schema < n)%nat -> (value_depth schema < m)%nat ->
  sat_at n schema instance <-> sat_at m schema instance.
Proof.
  revert m schema instance. induction n as [|n IH]; intros m schema instance Hn Hm; [lia|].
  destruct m as [|m]; [lia|]. simpl. split; intros (object & -> & Hs); exists object; (split; [done|]);
    eapply node_sat_ext; try exact Hs; intros child i Hc; apply child_depth in Hc; [|symmetry]; apply IH; lia.
Qed.

(** The meaning of a schema in terms of the meaning of its children. *)
Lemma satisfies_unfold object instance :
  satisfies (Obj object) instance <-> node_sat satisfies object instance.
Proof.
  unfold satisfies. split.
  - intros (o & [= <-] & Hs). eapply node_sat_ext; [|exact Hs]. intros child i Hc. apply child_depth in Hc.
    apply sat_fuel; lia.
  - intros Hs. exists object. split; [done|]. eapply node_sat_ext; [|exact Hs]. intros child i Hc.
    apply child_depth in Hc. apply sat_fuel; lia.
Qed.

Lemma try_for_each_ext {E A} (f g : A -> result E unit) l :
  (forall x, x ∈ l -> f x = g x) -> try_for_each f l = try_for_each g l.
Proof.
  induction l as [|x l IH]; intros H; simpl; [done|]. rewrite H by by left. destruct (g x); [|done].
  apply IH. intros y Hy. apply H. by right.
Qed.

Lemma validate_children_ext rec rec' object :
  (forall child, child_of object child -> rec child = rec' child) ->
  validate_children rec object = validate_children rec' object.
Proof.
  intros Hext. unfold validate_children.
  replace (match map_get "properties" object with Some _ => _ | None => _ end) with
    (match map_get "properties" object with
     | Some properties => let? m := ok_or (as_object properties) invalid_definition in try_for_each rec' m.*2
     | None => Ok tt end).
  2:{ destruct (map_get "properties" object) as [[| | | | |p]|] eqn:E; try done. simpl. apply try_for_each_ext.
      intros c ([n c'] & -> & Hin)%list_elem_of_fmap. symmetry. apply Hext. by eapply child_property. }
  destruct (match map_get "properties" object with Some _ => _ | None => _ end); [|done].
  destruct (map_get "additionalProperties" object) as [[|[]| | | |addl]|] eqn:Ea; try done.
  3: rewrite (Hext (Obj addl)) by (by apply child_additional); destruct (rec' (Obj addl)); [|done].
  all: destruct (map_get "items" object) as [items|] eqn:Ei;
    try (rewrite (Hext items) by (by apply child_items); destruct (rec' items); [|done]).
  all: rewrite (try_for_each_ext _ (fun keyword =>
      match map_get keyword object with
      | Some branches =>
          match as_array branches with
          | Some ((_ :: _) as branches) => try_for_each rec' branches
          | _ => Err invalid_definition
          end
      | None => Ok tt end)).
  all: try (destruct (try_for_each _ ["allOf"; "anyOf"; "oneOf"]); [|done];
    destruct (map_get "not" object) eqn:En; [apply Hext; by apply child_not|done]).
  all: intros keyword Hk; destruct (map_get keyword object) as [[| | | |[|b bs]|]|] eqn:Eb; try done;
    apply try_for_each_ext; intros c Hc; apply Hext; by eapply child_branch.
Qed.

(** Any fuel above the depth of a schema admits the same schemas. *)
Lemma schema_fuel n m schema : (value_depth schema < n)%nat -> (value_depth schema < m)%nat ->
  validate_schema_node n schema = validate_schema_node m schema.
Proof.
  revert m schema. induction n as [|n IH]; intros m schema Hn Hm; [lia|]. destruct m as [|m]; [lia|].
  simpl. unfold validate_schema_body. destruct schema as [| | | | |object]; try done. cbn [as_object ok_or].
  rewrite (validate_children_ext _ (validate_schema_node m)); [done|].
  intros child Hc. apply child_depth in Hc. apply IH; lia.
Qed.

(** ** Validation *)

Lemma validate_node_ok n schema instance ip sp : validate_schema_node n schema = Ok tt ->
  exists fs, validate_node n schema instance ip sp = Ok fs /\ (fs = [] <-> sat_at n schema instance).
Proof.
  revert schema instance ip sp. induction n as [|n IH]; intros schema instance ip sp H; [done|].
  simpl in H. apply schema_body_ok in H as (object & -> & Hc). simpl.
  destruct (validate_node_body_ok (validate_node n) (sat_at n) object) with (instance := instance) (ip := ip) (sp := sp)
    as (fs & Hfs & Hsat).
  { intros child Hch i jp js. apply IH. by eapply validate_children_ok. }
  exists fs. split; [done|]. rewrite Hsat. split; [eauto|]. intros (o & [= <-] & ?). done.
Qed.

Lemma validate_arguments_ok schema instance : validate_value_definition schema = Ok tt ->
  exists failures, validate_arguments schema instance = Ok failures /\ (failures = [] <-> satisfies schema instance).
Proof.
  intros H. unfold validate_arguments.
  destruct (validate_node_ok _ schema instance "" "" H) as (fs & -> & Hfs).
  exists (merge_sort failure_le fs). split; [done|].
  rewrite <-Hfs. pose proof (merge_sort_Permutation failure_le fs) as Hp. split; intros E.
  - rewrite E in Hp. by apply Permutation_nil_l in Hp as <-.
  - by rewrite E.
Qed.


(** ** A sample schema *)

Module SchemaSample.
Definition schema : Value :=
  Obj [("additionalProperties", Bool false);
       ("properties", Obj [("count", Obj [("minimum", Num (PosInt 1)); ("type", Str "integer")]);
                           ("path", Obj [("minLength", Num (PosInt 1)); ("type", Str "string")])]);
       ("required", Arr [Str "path"]); ("type", Str "object")].
Definition good : Value := Obj [("count", Num (PosInt 2)); ("path", Str "a")].
Definition bad : Value := Obj [("count", Num (Float 4602678819172646912)); ("size", Null)].
End SchemaSample.

Example schema_sample :
  validate_definition SchemaSample.schema = Ok tt /\
  validate_arguments SchemaSample.schema SchemaSample.bad =
    Ok [mkSchemaFailure "" "/required" "required"; mkSchemaFailure "/count" "/properties/count/type" "type";
        mkSchemaFailure "/size" "/additionalProperties" "additionalProperties"].
Proof. by vm_compute. Qed.

