(* ===== verification/Order.v ===== *)
(** * Total orders and sorted vectors of the standard library

    [Ord] with its laws, the derived (lexicographic) instances, [sort], the
    [windows(2)] scan the crates use to find duplicates after sorting, and
    [BTreeSet::from_iter].  The lemmas say that the scan decides distinctness. *)

From S2P Require Import Prelude.
From Stdlib Require Import OrderedTypeEx.

(** ** The trait *)

Class Ord (A : Type) := {
  cmp : A -> A -> comparison;
  cmp_eq : forall a b, cmp a b = Eq <-> a = b;
  cmp_opp : forall a b, cmp b a = CompOpp (cmp a b);
  cmp_trans : forall a b c, cmp a b = Lt -> cmp b c = Lt -> cmp a c = Lt;
}.

Definition le_of `{Ord A} (a b : A) : Prop := cmp a b <> Gt.
#[export] Instance le_of_dec `{Ord A} (a b : A) : Decision (le_of a b).
Proof. unfold le_of. destruct (cmp a b); [left; done|left; done|right; intros H0; by apply H0]. Defined.

#[export] Program Instance Ord_Z : Ord Z := {| cmp := Z.compare |}.
Next Obligation. apply Z.compare_eq_iff. Qed.
Next Obligation. intros a b. apply Z.compare_antisym. Qed.
Next Obligation. intros a b c. rewrite !Z.compare_lt_iff. lia. Qed.

#[export] Program Instance Ord_string : Ord string := {| cmp := String.compare |}.
Next Obligation. intros a b. split; [apply String.compare_eq_iff|intros ->; apply String_as_OT.cmp_eq; done]. Qed.
Next Obligation. intros a b. apply String.compare_antisym. Qed.
Next Obligation.
  intros a b c H1%String_as_OT.cmp_lt H2%String_as_OT.cmp_lt. apply String_as_OT.cmp_lt.
  by apply (String_as_OT.lt_trans a b c).
Qed.

(** The derived order of a structure with two fields, and of a type that a
    one-to-one [f] views as another. *)
#[export] Program Instance Ord_prod `{Ord A, Ord B} : Ord (A * B) := {|
  cmp p q := match cmp p.1 q.1 with Eq => cmp p.2 q.2 | Lt => Lt | Gt => Gt end
|}.
Next Obligation.
  intros A HA B HB [a b] [a' b']; simpl. destruct (cmp a a') eqn:E.
  - apply cmp_eq in E as ->. rewrite (cmp_eq b b'). naive_solver.
  - split; [done|]. intros [= -> ->]. rewrite (proj2 (cmp_eq a' a') eq_refl) in E. done.
  - split; [done|]. intros [= -> ->]. rewrite (proj2 (cmp_eq a' a') eq_refl) in E. done.
Qed.
Next Obligation.
  intros A HA B HB [a b] [a' b']; simpl. rewrite (cmp_opp a a').
  destruct (cmp a a') eqn:E; simpl; [apply cmp_opp|done..].
Qed.
Next Obligation.
  intros A HA B HB [a x] [b y] [c z]; simpl. destruct (cmp a b) eqn:E1, (cmp b c) eqn:E2; intros H1 H2; try done.
  - apply cmp_eq in E1 as ->. rewrite E2. by apply (cmp_trans x y z).
  - apply cmp_eq in E1 as ->. by rewrite E2.
  - apply cmp_eq in E2 as ->. by rewrite E1.
  - by rewrite (cmp_trans a b c).
Qed.

Program Definition Ord_view {A B} `{Ord B} (f : A -> B) (inj : forall a b, f a = f b -> a = b) : Ord A :=
  {| cmp a b := cmp (f a) (f b) |}.
Next Obligation. intros A B HB f Hf a b. rewrite cmp_eq. split; [apply Hf|by intros ->]. Qed.
Next Obligation. intros. apply cmp_opp. Qed.
Next Obligation. intros A B HB f Hf a b c. apply cmp_trans. Qed.

(** ** Vectors *)

(** [Vec::sort]. *)
Definition sort `{Ord A} (l : list A) : list A := merge_sort le_of l.

(** [sort_by(|a, b| key(a).cmp(&key(b)))], stable. *)
Definition key_le_of {A} `{Ord K} (key : A -> K) (a b : A) : Prop := le_of (key a) (key b).
#[export] Instance key_le_of_dec {A} `{Ord K} (key : A -> K) a b : Decision (key_le_of key a b).
Proof. unfold key_le_of. apply _. Defined.
Definition sort_by_key {A} `{Ord K} (key : A -> K) (l : list A) : list A := merge_sort (key_le_of key) l.

(** [windows(2).any(f)]. *)
Fixpoint windows_any {A} (f : A -> A -> bool) (l : list A) : bool :=
  match l with
  | a :: ((b :: _) as rest) => f a b || windows_any f rest
  | _ => false
  end.

(** [BTreeSet::from_iter] and its ordered iteration: equal neighbours collapse. *)
Fixpoint dedup `{Ord A} (l : list A) : list A :=
  match l with
  | a :: ((b :: _) as rest) => match cmp a b with Eq => dedup rest | _ => a :: dedup rest end
  | _ => l
  end.
Definition btree_set `{Ord A} (l : list A) : list A := dedup (sort l).

(** ** Lemmas *)

Section order.
Context `{Ord A}.
Implicit Types a b c : A.

Lemma cmp_refl a : cmp a a = Eq.
Proof. by apply cmp_eq. Qed.

Lemma le_of_cases a b : le_of a b <-> cmp a b = Lt \/ a = b.
Proof.
  unfold le_of. destruct (cmp a b) eqn:E.
  - apply cmp_eq in E as ->. naive_solver.
  - naive_solver.
  - split; [done|]. intros [?| ->]; [done|]. by rewrite cmp_refl in E.
Qed.

#[export] Instance le_of_trans : Transitive (le_of (A:=A)).
Proof.
  intros a b c. rewrite !le_of_cases. intros [H1| ->] [H2| ->]; auto. left. by apply (cmp_trans a b c).
Qed.
#[export] Instance le_of_total : Total (le_of (A:=A)).
Proof. intros a b. unfold le_of. rewrite (cmp_opp a b). destruct (cmp a b); simpl; auto. Qed.
#[export] Instance le_of_anti : AntiSymm eq (le_of (A:=A)).
Proof.
  intros a b. rewrite !le_of_cases. intros [H1|?] [H2|?]; auto.
  pose proof (cmp_trans _ _ _ H1 H2) as H3. by rewrite cmp_refl in H3.
Qed.

Lemma sort_perm (l : list A) : sort l ≡ₚ l.
Proof. apply merge_sort_Permutation. Qed.
Lemma sort_sorted (l : list A) : StronglySorted le_of (sort l).
Proof. apply StronglySorted_merge_sort; apply _. Qed.

(** Two sorted vectors with the same elements are the same vector. *)
Lemma sort_unique (l l' : list A) : StronglySorted le_of l' -> l' ≡ₚ l -> l' = sort l.
Proof.
  intros Hs Hp. apply (StronglySorted_unique le_of); [done|apply sort_sorted|]. by rewrite Hp, sort_perm.
Qed.

End order.

Section keys.
Context {A} `{Ord K} (key : A -> K).

#[export] Instance key_le_of_trans : Transitive (key_le_of key).
Proof. intros a b c. unfold key_le_of. apply transitivity. Qed.
#[export] Instance key_le_of_total : Total (key_le_of key).
Proof. intros a b. apply (le_of_total (key a) (key b)). Qed.

Lemma sort_by_key_perm l : sort_by_key key l ≡ₚ l.
Proof. apply merge_sort_Permutation. Qed.
Lemma sort_by_key_sorted l : StronglySorted (key_le_of key) (sort_by_key key l).
Proof. apply StronglySorted_merge_sort; apply _. Qed.

(** On a vector sorted by its keys the scan finds a duplicate key exactly when
    there is one. *)
Lemma windows_any_nodup (f : A -> A -> bool) l :
  (forall a b, f a b = true <-> key a = key b) ->
  StronglySorted (key_le_of key) l ->
  windows_any f l = false <-> NoDup (key <$> l).
Proof.
  intros Hf Hs. induction Hs as [|a l Hs IH Ha]; [by split; constructor|].
  destruct l as [|b l]; [split; [intros _; apply NoDup_singleton|done]|].
  change (windows_any f (a :: b :: l)) with (f a b || windows_any f (b :: l)).
  change (key <$> a :: b :: l) with (key a :: (key <$> b :: l)).
  rewrite orb_false_iff, IH, list.NoDup_cons.
  split; intros [H1 H2]; (split; [|done]).
  - intros Hin. apply list_elem_of_fmap in Hin as (c & Hc & Hin).
    assert (key a = key b); [|by rewrite (proj2 (Hf a b)) in H1].
    apply (anti_symm le_of).
    + apply Forall_cons in Ha as [Ha _]. exact Ha.
    + rewrite Hc. apply elem_of_cons in Hin as [->|Hin]; [unfold le_of; by rewrite cmp_refl|].
      apply StronglySorted_inv in Hs as [_ Hb]. rewrite Forall_forall in Hb. by apply Hb, Hin.
  - apply not_true_iff_false. rewrite Hf. intros E. apply H1. rewrite E. left.
Qed.
End keys.

Section sets.
Context `{Ord A}.

Lemma dedup_elem (l : list A) x : x ∈ dedup l <-> x ∈ l.
Proof.
  induction l as [|a l IH]; [done|]. destruct l as [|b l]; [done|].
  change (dedup (a :: b :: l)) with (match cmp a b with Eq => dedup (b :: l) | _ => a :: dedup (b :: l) end).
  destruct (cmp a b) eqn:E; [|by rewrite !(elem_of_cons _ x a), IH..].
  apply cmp_eq in E as ->. rewrite IH. set_solver.
Qed.

Lemma dedup_head (l : list A) a : head l = Some a -> head (dedup l) = Some a.
Proof.
  revert a. induction l as [|b l IH]; intros a; [done|]. destruct l as [|c l]; [done|]. intros [= ->].
  change (dedup (a :: c :: l)) with (match cmp a c with Eq => dedup (c :: l) | _ => a :: dedup (c :: l) end).
  destruct (cmp a c) eqn:E; [|done..]. apply cmp_eq in E as ->. by apply IH.
Qed.

(** The set's elements in strictly increasing order, each once. *)
Lemma dedup_strict (l : list A) : StronglySorted le_of l -> StronglySorted (fun a b => cmp a b = Lt) (dedup l).
Proof.
  intros Hs. induction Hs as [|a l Hs IH Ha]; [constructor|]. destruct l as [|b l]; [repeat constructor|].
  change (dedup (a :: b :: l)) with (match cmp a b with Eq => dedup (b :: l) | _ => a :: dedup (b :: l) end).
  destruct (cmp a b) eqn:E; [done| |].
  - constructor; [done|]. apply Forall_forall. intros x Hx. rewrite dedup_elem in Hx.
    rewrite Forall_forall in Ha. apply elem_of_cons in Hx as [->|Hx]; [done|].
    apply StronglySorted_inv in Hs as [_ Hb]. rewrite Forall_forall in Hb. specialize (Hb x Hx).
    apply le_of_cases in Hb as [Hb| <-]; [|done]. by apply (cmp_trans a b x).
  - apply Forall_cons in Ha as [Ha _]. by unfold le_of in Ha.
Qed.

Lemma strict_nodup (l : list A) : StronglySorted (fun a b => cmp a b = Lt) l -> NoDup l.
Proof.
  induction 1 as [|a l Hs IH Ha]; constructor; [|done]. intros Hin. rewrite Forall_forall in Ha.
  specialize (Ha a Hin). by rewrite cmp_refl in Ha.
Qed.

Lemma btree_set_elem (l : list A) x : x ∈ btree_set l <-> x ∈ l.
Proof. unfold btree_set. by rewrite dedup_elem, sort_perm. Qed.
Lemma btree_set_strict (l : list A) : StronglySorted (fun a b => cmp a b = Lt) (btree_set l).
Proof. apply dedup_strict, sort_sorted. Qed.
Lemma btree_set_nodup (l : list A) : NoDup (btree_set l).
Proof. apply strict_nodup, btree_set_strict. Qed.

(** The size of the set is the length of the vector exactly without duplicates. *)
Lemma btree_set_length (l : list A) : length (btree_set l) = length l <-> NoDup l.
Proof.
  assert (Hle : (btree_set l) ⊆ l) by (intros x; by rewrite btree_set_elem).
  split; intros Hl.
  - destruct (submseteq_Permutation (btree_set l) l) as [k Hk].
    { apply NoDup_submseteq; [apply btree_set_nodup|done]. }
    assert (k = []) as ->.
    { apply Permutation_length in Hk.
      rewrite length_app in Hk. destruct k; [done|simpl in Hk; lia]. }
    rewrite app_nil_r in Hk. rewrite Hk. apply btree_set_nodup.
  - apply Permutation_length. apply NoDup_Permutation; [apply btree_set_nodup|done|].
    intros x. apply btree_set_elem.
Qed.
End sets.

(** ** Sums *)

Definition zsum_by {A} (f : A -> Z) (l : list A) : Z := foldr (fun a n => f a + n) 0 l.

Lemma zsum_by_app {A} (f : A -> Z) l1 l2 : zsum_by f (l1 ++ l2) = zsum_by f l1 + zsum_by f l2.
Proof. induction l1 as [|a l1 IH]; simpl; lia. Qed.

Lemma zsum_by_nonneg {A} (f : A -> Z) l : (forall a, 0 <= f a) -> 0 <= zsum_by f l.
Proof. intros Hf. induction l as [|a l IH]; simpl; [lia|]. specialize (Hf a). lia. Qed.

Lemma zsum_by_elem {A} (f : A -> Z) l i a : (forall a, 0 <= f a) -> l !! i = Some a -> f a <= zsum_by f l.
Proof.
  intros Hf. revert i. induction l as [|b l IH]; intros [|i]; simpl; [done..| |].
  - intros [= ->]. pose proof (zsum_by_nonneg f l Hf). lia.
  - intros Hi%IH. specialize (Hf b). lia.
Qed.
