(* ===== verification/ToolAccess.v ===== *)
(** * Resource accesses and their ceilings ([engine/tools/src/access.rs])

    Canonical resource keys of the four namespaces, the access sets a resolver
    returns and the policy that bounds them.  The standard library's IP
    addresses are modelled as far as the key check uses them. *)

From S2P Require Import Prelude Json ToolSchema Text Order.

(** ** IP addresses and ports ([std::net]) *)

(** [char::to_digit]. *)
Definition to_digit (radix : Z) (c : ascii) : option Z :=
  let value :=
    if is_ascii_digit c then Some (byte_code c - 48)
    else if (97 <=? byte_code c) && (byte_code c <=? 122) then Some (byte_code c - 87)
    else if is_ascii_uppercase c then Some (byte_code c - 55)
    else None in
  match value with Some d => if d <? radix then Some d else None | None => None end.

(** The digits at the front of a text, with how many they are, and the rest. *)
Fixpoint read_digits (radix acc : Z) (count : nat) (s : string) : Z * nat * string :=
  match s with
  | EmptyString => (acc, count, s)
  | String c rest =>
      match to_digit radix c with
      | Some d => read_digits radix (acc * radix + d) (S count) rest
      | None => (acc, count, s)
      end
  end.

(** [Parser::read_number] with at most [max_digits] digits. *)
Definition read_number (radix : Z) (max_digits : nat) (allow_zero_prefix : bool) (s : string)
    : option (Z * string) :=
  let '(value, count, rest) := read_digits radix 0 0 s in
  if (count =? 0)%nat || (max_digits <? count)%nat then None
  else if negb allow_zero_prefix && starts_with "0" s && (1 <? count)%nat then None
  else Some (value, rest).

(** [Parser::read_separator]: no separator before the first element. *)
Definition read_separator {A} (sep : ascii) (index : nat) (inner : string -> option (A * string)) (s : string)
    : option (A * string) :=
  match index, s with
  | O, _ => inner s
  | S _, String c s => if Ascii.eqb c sep then inner s else None
  | S _, EmptyString => None
  end.

(** [Ipv4Addr::from_str]: four octets and nothing after them. *)
Fixpoint read_octets (n index : nat) (s : string) : option (list Z * string) :=
  match n with
  | O => Some ([], s)
  | S n =>
      match read_separator dot index (read_number 10 3 false) s with
      | Some (octet, s) =>
          if 255 <? octet then None
          else match read_octets n (S index) s with
               | Some (octets, s) => Some (octet :: octets, s)
               | None => None
               end
      | None => None
      end
  end.
Definition parse_ipv4 (s : string) : option (list Z) :=
  if 15 <? str_len s then None
  else match read_octets 4 0 s with
       | Some (octets, rest) => if str_is_empty rest then Some octets else None
       | None => None
       end.
Definition ipv4_to_string (octets : list Z) : string := join_byte dot (nat_to_string <$> octets).

(** [Ipv6Addr::from_str] on a text without a dot, which holds no embedded IPv4
    address: at most [n] groups, then [::] and the groups after it. *)
Fixpoint read_groups (n index : nat) (s : string) : list Z * string :=
  match n with
  | O => ([], s)
  | S n =>
      match read_separator colon index (read_number 16 4 true) s with
      | Some (group, s) => let '(groups, s) := read_groups n (S index) s in (group :: groups, s)
      | None => ([], s)
      end
  end.
Definition parse_ipv6 (s : string) : option (list Z) :=
  let '(head, rest) := read_groups 8 0 s in
  if (length head =? 8)%nat then if str_is_empty rest then Some head else None
  else match strip_prefix "::" rest with
       | Some rest =>
           let '(tail, rest) := read_groups (8 - S (length head)) 0 rest in
           if str_is_empty rest then Some (head ++ replicate (8 - length head - length tail) 0 ++ tail) else None
       | None => None
       end.

(** [{:x}] of a [u16], with fuel for its digits. *)
Fixpoint hex_digits (fuel : nat) (n : Z) : string :=
  match fuel with
  | O => ""
  | S fuel => if n <? 16 then String (hex_digit n) "" else hex_digits fuel (n / 16) +:+ String (hex_digit (n mod 16)) ""
  end.
Definition hex_u16 (n : Z) : string := hex_digits 4 n.

(** The first longest run of zero segments: its start and its length. *)
Fixpoint zero_span (index : nat) (current longest : nat * nat) (segments : list Z) : nat * nat :=
  match segments with
  | [] => longest
  | 0 :: segments =>
      let current := (if (current.2 =? 0)%nat then index else current.1, S current.2) in
      zero_span (S index) current (if (longest.2 <? current.2)%nat then current else longest) segments
  | _ :: segments => zero_span (S index) (0%nat, 0%nat) longest segments
  end.
Definition ipv6_to_string (segments : list Z) : string :=
  match segments with
  | [0; 0; 0; 0; 0; 65535; g; h] => "::ffff:" +:+ ipv4_to_string [g / 256; g mod 256; h / 256; h mod 256]
  | _ =>
      let '(start, len) := zero_span 0 (0%nat, 0%nat) (0%nat, 0%nat) segments in
      let subslice chunk := join_byte colon (hex_u16 <$> chunk) in
      if (1 <? len)%nat then subslice (take start segments) +:+ "::" +:+ subslice (drop (start + len) segments)
      else subslice segments
  end.

(** [u16::from_str]: an optional plus sign and decimal digits in range. *)
Definition parse_u16 (s : string) : option Z :=
  let digits := default s (strip_prefix "+" s) in
  let '(value, count, rest) := read_digits 10 0 0 digits in
  if (count =? 0)%nat || negb (str_is_empty rest) || (65535 <? value) then None else Some value.

(** ** Keys *)

Inductive AccessNamespace := Filesystem | Process | Network | Runtime.
Inductive AccessMode := Read | Write | Exclusive.
#[export] Instance AccessNamespace_eq_dec : EqDecision AccessNamespace.
Proof. solve_decision. Defined.
#[export] Instance AccessMode_eq_dec : EqDecision AccessMode.
Proof. solve_decision. Defined.

Definition access_error : PreparationError := preparation_error EffectAccessInvalid.

Definition is_ascii_lowercase (c : ascii) : bool := (97 <=? byte_code c) && (byte_code c <=? 122).
Definition is_ascii_alphanumeric (c : ascii) : bool :=
  is_ascii_digit c || is_ascii_lowercase c || is_ascii_uppercase c.

Definition canonical_dns (host : string) : bool :=
  (str_len host <=? 253)
  && all_bytes (fun byte => is_ascii_lowercase byte || is_ascii_digit byte
                            || Ascii.eqb byte "-" || Ascii.eqb byte dot) host
  && negb (starts_with "." host)
  && negb (ends_with_byte dot host)
  && negb (existsb (fun label => str_is_empty label || (63 <? str_len label)
                                 || starts_with "-" label || ends_with_byte "-" label)
             (split_byte dot host)).

Definition canonical_origin (origin : string) : bool :=
  match (match strip_prefix "http://" origin with
         | Some authority => Some authority
         | None => strip_prefix "https://" origin
         end) with
  | None => false
  | Some authority =>
      if existsb (fun c => contains_byte c authority) ["/"; "?"; "#"; "@"]%char then false
      else
        match (match strip_prefix "[" authority with
               | Some inner =>
                   match split_once "]" inner with
                   | None => None
                   | Some (host, after) =>
                       if contains_byte dot host
                          || negb (bool_decide ((ipv6_to_string <$> parse_ipv6 host) = Some host)) then None
                       else Some (host, strip_prefix ":" after)
                   end
               | None =>
                   match rsplit_once colon authority with
                   | None => None
                   | Some (host, port) =>
                       let canonical_ip := bool_decide ((ipv4_to_string <$> parse_ipv4 host) = Some host) in
                       if negb canonical_ip && negb (canonical_dns host) then None else Some (host, Some port)
                   end
               end) with
        | None => false
        | Some (host, port) =>
            negb (str_is_empty host)
            && is_some_and (fun value =>
                 is_some_and (fun number => negb (number =? 0) && (nat_to_string number =? value)%string)
                   (parse_u16 value)) port
        end
  end.

Definition valid_key (namespace : AccessNamespace) (key : string) : bool :=
  match namespace with
  | Filesystem =>
      (key =? ".")%string
      || negb (starts_with "/" key) && negb (contains_byte "000" key) && negb (contains_byte "\" key)
         && forallb (fun part => negb (str_is_empty part) && negb (part =? ".")%string && negb (part =? "..")%string)
              (split_byte slash key)
  | Network => canonical_origin key
  | Process | Runtime =>
      negb (str_is_empty key)
      && all_bytes (fun byte => is_ascii_alphanumeric byte || Ascii.eqb byte "-" || Ascii.eqb byte "_"
                                || Ascii.eqb byte dot || Ascii.eqb byte colon) key
  end.

(** ** Accesses *)

Record ResourceAccess := mkAccess {
  ra_namespace : AccessNamespace;
  ra_resource_key : string;
  ra_mode : AccessMode;
}.
#[export] Instance ResourceAccess_eq_dec : EqDecision ResourceAccess.
Proof. solve_decision. Defined.

Definition resource_access_new (namespace : AccessNamespace) (resource_key : string) (mode : AccessMode)
    : result PreparationError ResourceAccess :=
  reject access_error when negb (valid_key namespace resource_key);
  Ok (mkAccess namespace resource_key mode).

(** The derived order: namespace, key, mode, each in declaration order. *)
Definition namespace_rank (n : AccessNamespace) : Z :=
  match n with Filesystem => 0 | Process => 1 | Network => 2 | Runtime => 3 end.
Definition mode_rank (m : AccessMode) : Z := match m with Read => 0 | Write => 1 | Exclusive => 2 end.
Definition access_view (a : ResourceAccess) : Z * string * Z :=
  (namespace_rank (ra_namespace a), ra_resource_key a, mode_rank (ra_mode a)).

Lemma namespace_rank_inj m n : namespace_rank m = namespace_rank n -> m = n.
Proof. by destruct m, n. Qed.
Lemma mode_rank_inj m n : mode_rank m = mode_rank n -> m = n.
Proof. by destruct m, n. Qed.
Lemma access_view_inj a b : access_view a = access_view b -> a = b.
Proof.
  destruct a, b. unfold access_view; simpl. intros [= H1 -> H2].
  by rewrite (namespace_rank_inj _ _ H1), (mode_rank_inj _ _ H2).
Qed.
#[export] Instance Ord_mode : Ord AccessMode := Ord_view mode_rank mode_rank_inj.
#[export] Instance Ord_access : Ord ResourceAccess := Ord_view access_view access_view_inj.

Definition same_resource (a b : ResourceAccess) : bool :=
  bool_decide (ra_namespace a = ra_namespace b) && (ra_resource_key a =? ra_resource_key b)%string.

(** The values are private: only [access_set_new] builds a set. *)
Definition InvocationAccessSet := list ResourceAccess.

Definition access_set_new (accesses : list ResourceAccess) : result PreparationError InvocationAccessSet :=
  let accesses := sort accesses in
  reject access_error when bool_decide (accesses = []) || windows_any same_resource accesses;
  Ok accesses.

(** ** The policy *)

Record AccessPolicyEntry := mkPolicyEntry {
  ape_resource : string;
  ape_allowed_modes : list AccessMode;
}.
#[export] Instance AccessPolicyEntry_eq_dec : EqDecision AccessPolicyEntry.
Proof. solve_decision. Defined.

Definition access_policy_entry_new (resource : string) (modes : list AccessMode)
    : result PreparationError AccessPolicyEntry :=
  let allowed_modes := sort modes in
  reject access_error when
    str_is_empty resource || bool_decide (allowed_modes = [])
    || windows_any (fun a b => bool_decide (a = b)) allowed_modes;
  Ok (mkPolicyEntry resource allowed_modes).

Record ToolAccessPolicyV1 := mkAccessPolicy {
  tap_policy_revision : string;
  tap_filesystem_roots : list AccessPolicyEntry;
  tap_process_lanes : list AccessPolicyEntry;
  tap_network_origins : list AccessPolicyEntry;
  tap_runtime_lanes : list AccessPolicyEntry;
  tap_max_accesses : Z;
  tap_max_result_bytes : Z;
}.
#[export] Instance ToolAccessPolicyV1_eq_dec : EqDecision ToolAccessPolicyV1.
Proof. solve_decision. Defined.

Definition policy_entries (namespace : AccessNamespace) (entries : list AccessPolicyEntry)
    : result PreparationError (list AccessPolicyEntry) :=
  let entries := sort_by_key ape_resource entries in
  reject access_error when
    existsb (fun entry => negb (valid_key namespace (ape_resource entry))) entries
    || windows_any (fun a b => (ape_resource a =? ape_resource b)%string) entries;
  Ok entries.

Definition access_policy_new (policy_revision : string)
    (filesystem_roots process_lanes network_origins runtime_lanes : list AccessPolicyEntry)
    (max_accesses max_result_bytes : Z) : result PreparationError ToolAccessPolicyV1 :=
  let? filesystem_roots := policy_entries Filesystem filesystem_roots in
  let? process_lanes := policy_entries Process process_lanes in
  let? network_origins := policy_entries Network network_origins in
  let? runtime_lanes := policy_entries Runtime runtime_lanes in
  reject access_error when str_is_empty policy_revision || (max_accesses =? 0) || (max_result_bytes =? 0);
  Ok (mkAccessPolicy policy_revision filesystem_roots process_lanes network_origins runtime_lanes
        max_accesses max_result_bytes).

Definition policy_entries_of (self : ToolAccessPolicyV1) (namespace : AccessNamespace) : list AccessPolicyEntry :=
  match namespace with
  | Filesystem => tap_filesystem_roots self
  | Process => tap_process_lanes self
  | Network => tap_network_origins self
  | Runtime => tap_runtime_lanes self
  end.

Definition entry_covers (access : ResourceAccess) (entry : AccessPolicyEntry) : bool :=
  existsb (fun mode => bool_decide (mode = ra_mode access)) (ape_allowed_modes entry)
  && match ra_namespace access with
     | Filesystem =>
         (ape_resource entry =? ".")%string || (ra_resource_key access =? ape_resource entry)%string
         || starts_with (ape_resource entry +:+ "/") (ra_resource_key access)
     | _ => (ra_resource_key access =? ape_resource entry)%string
     end.

Definition covers (self : ToolAccessPolicyV1) (accesses : InvocationAccessSet) : bool :=
  (Z.of_nat (length accesses) <=? tap_max_accesses self)
  && forallb (fun access => existsb (entry_covers access) (policy_entries_of self (ra_namespace access))) accesses.

(** ** Access sets *)

Definition resource_of (a : ResourceAccess) : AccessNamespace * string := (ra_namespace a, ra_resource_key a).

Definition resource_view (r : AccessNamespace * string) : Z * string := (namespace_rank r.1, r.2).
Lemma resource_view_inj a b : resource_view a = resource_view b -> a = b.
Proof. destruct a, b. unfold resource_view; simpl. intros [= H ->]. by rewrite (namespace_rank_inj _ _ H). Qed.
#[local] Instance Ord_resource : Ord (AccessNamespace * string) := Ord_view resource_view resource_view_inj.

Lemma access_le_resource a b : le_of a b -> key_le_of resource_of a b.
Proof.
  unfold key_le_of, le_of. simpl. unfold access_view, resource_view. simpl.
  destruct (_ ?= _); [|done..]. by destruct (String.compare _ _).
Qed.

Lemma access_sorted_resource l : StronglySorted le_of l -> StronglySorted (key_le_of resource_of) l.
Proof.
  induction 1 as [|a l Hs IH Ha]; constructor; [done|].
  eapply Forall_impl; [exact Ha|]. apply access_le_resource.
Qed.

Lemma same_resource_spec a b : same_resource a b = true <-> resource_of a = resource_of b.
Proof.
  unfold same_resource, resource_of. rewrite andb_true_iff, bool_decide_eq_true, String.eqb_eq.
  split; [by intros [-> ->]|by intros [= -> ->]].
Qed.

(** An access set is accepted exactly when it is not empty and names every resource
    once; it is then sorted. *)
Theorem access_set_exact (l s : list ResourceAccess) :
  access_set_new l = Ok s <->
  l <> [] /\ NoDup (resource_of <$> l) /\ s ≡ₚ l /\ StronglySorted le_of s.
Proof.
  unfold access_set_new. assert (Hw : windows_any same_resource (sort l) = false <-> NoDup (resource_of <$> l)).
  { rewrite (windows_any_nodup resource_of _ _ same_resource_spec); [|apply access_sorted_resource, sort_sorted].
    by rewrite sort_perm. }
  assert (He : bool_decide (sort l = []) = false <-> l <> []).
  { rewrite bool_decide_eq_false. split; intros Hne E; apply Hne.
    - rewrite E. done.
    - apply Permutation_nil_r. by rewrite <-E, sort_perm. }
  split.
  - intros H. destruct (_ || _) eqn:E; [done|]. injection H as <-. apply orb_false_iff in E as [E1 E2].
    split; [by apply He|]. split; [by apply Hw|]. split; [apply sort_perm|apply sort_sorted].
  - intros (Hne & Hnd & Hp & Hs). rewrite (proj2 He Hne), (proj2 Hw Hnd). simpl. by rewrite (sort_unique l s).
Qed.

(** ** Ceilings *)

Definition path (key : string) : list string := split_byte slash key.

Definition within (access : ResourceAccess) (entry : AccessPolicyEntry) : Prop :=
  ra_mode access ∈ ape_allowed_modes entry /\
  match ra_namespace access with
  | Filesystem => ape_resource entry = "." \/ path (ape_resource entry) `prefix_of` path (ra_resource_key access)
  | _ => ra_resource_key access = ape_resource entry
  end.

Lemma entry_covers_within access entry : entry_covers access entry = true <-> within access entry.
Proof.
  unfold entry_covers, within. rewrite andb_true_iff.
  assert (Hm : existsb (fun mode => bool_decide (mode = ra_mode access)) (ape_allowed_modes entry) = true <->
               ra_mode access ∈ ape_allowed_modes entry).
  { rewrite existsb_exists. setoid_rewrite <-list_elem_of_In. setoid_rewrite bool_decide_eq_true.
    split; [by intros (m & Hm & <-)|eauto]. }
  rewrite Hm. apply and_iff_compat_l. destruct (ra_namespace access); rewrite ?String.eqb_eq; try done.
  unfold path. rewrite split_byte_prefix, !orb_true_iff, !String.eqb_eq. tauto.
Qed.

Lemma covers_spec policy accesses :
  covers policy accesses = true <->
  Z.of_nat (length accesses) <= tap_max_accesses policy /\
  forall access, access ∈ accesses ->
    exists entry, entry ∈ policy_entries_of policy (ra_namespace access) /\ within access entry.
Proof.
  unfold covers. rewrite andb_true_iff, Z.leb_le, forallb_forall. apply and_iff_compat_l.
  setoid_rewrite <-list_elem_of_In. setoid_rewrite existsb_exists. setoid_rewrite <-list_elem_of_In.
  by setoid_rewrite entry_covers_within.
Qed.

(** A valid filesystem key names no parent directory, so that a key below a root
    never leaves it. *)
Lemma valid_filesystem_path key : valid_key Filesystem key = true ->
  key = "." \/ Forall (fun part => part <> "" /\ part <> "." /\ part <> "..") (path key).
Proof.
  unfold valid_key. rewrite orb_true_iff, String.eqb_eq. intros [->|H]; [by left|right].
  bool_hyps. rewrite forallb_forall in H0. apply Forall_forall. intros part Hp%list_elem_of_In.
  apply H0 in Hp. bool_hyps. unfold str_is_empty in *. bool_hyps. done.
Qed.

(** A policy covers an access set exactly when the set is within the bound and every access
    lies within an entry of its namespace that allows its mode, and a canonical file key has no
    empty, dot or dot-dot component. *)
Theorem covers_exact (policy : ToolAccessPolicyV1) (accesses : InvocationAccessSet) :
  (covers policy accesses = true <->
   Z.of_nat (length accesses) <= tap_max_accesses policy /\
   forall access, access ∈ accesses ->
     exists entry, entry ∈ policy_entries_of policy (ra_namespace access) /\ within access entry) /\
  (forall access, access ∈ accesses -> ra_namespace access = Filesystem ->
   valid_key Filesystem (ra_resource_key access) = true ->
   ra_resource_key access = "." \/
   Forall (fun part => part <> "" /\ part <> "." /\ part <> "..") (path (ra_resource_key access))).
Proof. split; [apply covers_spec|]. intros access _ _. apply valid_filesystem_path. Qed.
