(* ===== verification/ToolPrepared.v ===== *)
(** * Tool definitions and prepared calls ([engine/tools/src/sandbox.rs], [prepared.rs])

    A definition admits a schema, execution limits, an access ceiling and a
    sandbox profile; the catalog turns a model's untrusted intent into a prepared
    call bound to a digest of everything the execution may do. *)

From S2P Require Import Prelude Json ToolSchema Text Order ToolAccess.

(** ** Capabilities and sandbox controls *)

Inductive ExecutionCapability :=
  | FilesystemRead | FilesystemWrite | CapProcess | CapNetwork
  | BrowserObserve | BrowserAct | ComputerObserve | ComputerAct.
#[export] Instance ExecutionCapability_eq_dec : EqDecision ExecutionCapability.
Proof. solve_decision. Defined.

Definition capability_wire_name (c : ExecutionCapability) : string :=
  match c with
  | FilesystemRead => "filesystem_read" | FilesystemWrite => "filesystem_write"
  | CapProcess => "process" | CapNetwork => "network"
  | BrowserObserve => "browser_observe" | BrowserAct => "browser_act"
  | ComputerObserve => "computer_observe" | ComputerAct => "computer_act"
  end.
Definition capability_rank (c : ExecutionCapability) : Z :=
  match c with
  | FilesystemRead => 0 | FilesystemWrite => 1 | CapProcess => 2 | CapNetwork => 3
  | BrowserObserve => 4 | BrowserAct => 5 | ComputerObserve => 6 | ComputerAct => 7
  end.
Lemma capability_rank_inj a b : capability_rank a = capability_rank b -> a = b.
Proof. by destruct a, b. Qed.
#[export] Instance Ord_capability : Ord ExecutionCapability := Ord_view capability_rank capability_rank_inj.

Inductive SandboxControl :=
  | FilesystemScope | SymlinkContainment | ProcessContainment | StructuredArguments | EnvironmentAllowlist
  | NetworkOriginScope | RedirectRevalidation | BrowserSessionScope | NativeTargetScope | SnapshotBinding
  | FocusRevalidation | ScreenCaptureScope | ResourceLimits.
#[export] Instance SandboxControl_eq_dec : EqDecision SandboxControl.
Proof. solve_decision. Defined.

Definition control_wire_name (c : SandboxControl) : string :=
  match c with
  | FilesystemScope => "filesystem_scope" | SymlinkContainment => "symlink_containment"
  | ProcessContainment => "process_containment" | StructuredArguments => "structured_arguments"
  | EnvironmentAllowlist => "environment_allowlist" | NetworkOriginScope => "network_origin_scope"
  | RedirectRevalidation => "redirect_revalidation" | BrowserSessionScope => "browser_session_scope"
  | NativeTargetScope => "native_target_scope" | SnapshotBinding => "snapshot_binding"
  | FocusRevalidation => "focus_revalidation" | ScreenCaptureScope => "screen_capture_scope"
  | ResourceLimits => "resource_limits"
  end.
Definition control_rank (c : SandboxControl) : Z :=
  match c with
  | FilesystemScope => 0 | SymlinkContainment => 1 | ProcessContainment => 2 | StructuredArguments => 3
  | EnvironmentAllowlist => 4 | NetworkOriginScope => 5 | RedirectRevalidation => 6 | BrowserSessionScope => 7
  | NativeTargetScope => 8 | SnapshotBinding => 9 | FocusRevalidation => 10 | ScreenCaptureScope => 11
  | ResourceLimits => 12
  end.
Lemma control_rank_inj a b : control_rank a = control_rank b -> a = b.
Proof. by destruct a, b. Qed.
#[export] Instance Ord_control : Ord SandboxControl := Ord_view control_rank control_rank_inj.

Definition has {A} `{EqDecision A} (l : list A) (x : A) : bool := bool_decide (x ∈ l).

(** ** Sandbox requirements *)

Record SandboxRequirementsV1 := mkSandbox {
  sr_contract : string;
  sr_version : Z;
  sr_controls : list SandboxControl;
  sr_max_processes : option Z;
  sr_max_open_files : Z;
}.
#[export] Instance SandboxRequirementsV1_eq_dec : EqDecision SandboxRequirementsV1.
Proof. solve_decision. Defined.

Definition sandbox_error : PreparationError := preparation_error SandboxRequirementInvalid.

Definition required (controls needed : list SandboxControl) : bool := forallb (has controls) needed.

Definition sandbox_valid (capabilities : list ExecutionCapability) (control_values : list SandboxControl)
    (max_processes : option Z) (max_open_files : Z) : bool :=
  let capabilities := btree_set capabilities in
  let controls := btree_set control_values in
  let filesystem := has capabilities FilesystemRead || has capabilities FilesystemWrite in
  let process := has capabilities CapProcess in
  let network := has capabilities CapNetwork in
  let browser := has capabilities BrowserObserve || has capabilities BrowserAct in
  let computer := has capabilities ComputerObserve || has capabilities ComputerAct in
  let computer_act := has capabilities ComputerAct in
  negb (max_open_files =? 0)
  && negb (bool_decide (controls = []))
  && (length control_values =? length controls)%nat
  && Bool.eqb process (is_some max_processes)
  && is_none_or (fun value => negb (value =? 0)) max_processes
  && (negb filesystem || required controls [FilesystemScope; SymlinkContainment; ResourceLimits])
  && (negb process
      || required controls [ProcessContainment; StructuredArguments; EnvironmentAllowlist; ResourceLimits])
  && (negb network || required controls [NetworkOriginScope; RedirectRevalidation; ResourceLimits])
  && (negb browser || required controls [BrowserSessionScope; SnapshotBinding; ResourceLimits])
  && (negb computer || required controls [NativeTargetScope; SnapshotBinding; ResourceLimits])
  && (negb computer_act || has controls FocusRevalidation).

Definition sandbox_new (capabilities : list ExecutionCapability) (control_values : list SandboxControl)
    (max_processes : option Z) (max_open_files : Z) : result PreparationError SandboxRequirementsV1 :=
  reject sandbox_error when negb (sandbox_valid capabilities control_values max_processes max_open_files);
  Ok (mkSandbox "garive.sandbox-requirements" 1 (btree_set control_values) max_processes max_open_files).

Definition is_covered_by (self executor : SandboxRequirementsV1) : bool :=
  forallb (has (sr_controls executor)) (sr_controls self)
  && (sr_max_open_files executor <=? sr_max_open_files self)
  && match sr_max_processes self, sr_max_processes executor with
     | Some requested, Some enforced => enforced <=? requested
     | None, None => true
     | _, _ => false
     end.

Definition validate_for (self : SandboxRequirementsV1) (capabilities : list ExecutionCapability)
    : result PreparationError unit :=
  let? _ := sandbox_new capabilities (sr_controls self) (sr_max_processes self) (sr_max_open_files self) in Ok tt.

(** ** Requirements, replay classes and definitions *)

Record ExecutionRequirements := mkRequirements {
  er_capabilities : list ExecutionCapability;
  er_max_duration_ms : Z;
  er_max_output_bytes : Z;
}.
#[export] Instance ExecutionRequirements_eq_dec : EqDecision ExecutionRequirements.
Proof. solve_decision. Defined.

Definition requirements_new (capabilities : list ExecutionCapability) (max_duration_ms max_output_bytes : Z)
    : result PreparationError ExecutionRequirements :=
  let unique := btree_set capabilities in
  reject invalid_definition when
    (max_duration_ms =? 0) || (max_output_bytes =? 0) || negb (length unique =? length capabilities)%nat;
  Ok (mkRequirements unique max_duration_ms max_output_bytes).

Inductive ReplayClass := ReadOnly | Idempotent | ReceiptRecoverable | NeverReplay.
#[export] Instance ReplayClass_eq_dec : EqDecision ReplayClass.
Proof. solve_decision. Defined.

Record ToolAccessContract := mkContract {
  tac_policy : ToolAccessPolicyV1;
  tac_resolver_revision : string;
}.

Record ToolDefinition := mkDefinition {
  td_name : string;
  td_revision : string;
  td_description : string;
  td_input_schema : Value;
  td_requirements : ExecutionRequirements;
  td_replay_class : ReplayClass;
  td_access_contract : option ToolAccessContract;
  td_sandbox_requirements : option SandboxRequirementsV1;
}.

#[export] Instance eta_ToolDefinition : Eta ToolDefinition := fun r =>
  mkDefinition (td_name r) (td_revision r) (td_description r) (td_input_schema r) (td_requirements r)
    (td_replay_class r) (td_access_contract r) (td_sandbox_requirements r).

Definition observes_only (v2_access_proof : bool) (capability : ExecutionCapability) : bool :=
  match capability with
  | FilesystemRead | BrowserObserve | ComputerObserve => true
  | CapNetwork => v2_access_proof
  | _ => false
  end.

Definition definition_new_internal (name revision description : string) (input_schema : Value)
    (requirements : ExecutionRequirements) (replay_class : ReplayClass) (v2_access_proof : bool)
    : result PreparationError ToolDefinition :=
  reject invalid_definition when str_is_empty name || str_is_empty revision || str_is_empty description;
  validate_definition input_schema ?;
  reject invalid_definition when
    bool_decide (replay_class = ReadOnly)
    && existsb (fun c => negb (observes_only v2_access_proof c)) (er_capabilities requirements);
  Ok (mkDefinition name revision description input_schema requirements replay_class None None).

Definition definition_new (name revision description : string) (input_schema : Value)
    (requirements : ExecutionRequirements) (replay_class : ReplayClass) : result PreparationError ToolDefinition :=
  definition_new_internal name revision description input_schema requirements replay_class false.

Definition definition_new_v2 (name revision description : string) (input_schema : Value)
    (requirements : ExecutionRequirements) (replay_class : ReplayClass)
    (access_policy : ToolAccessPolicyV1) (access_resolver_revision : string)
    : result PreparationError ToolDefinition :=
  let? definition :=
    definition_new_internal name revision description input_schema requirements replay_class true in
  reject access_error when str_is_empty access_resolver_revision;
  Ok (definition <| td_access_contract := Some (mkContract access_policy access_resolver_revision) |>).

Definition definition_new_v3 (name revision description : string) (input_schema : Value)
    (requirements : ExecutionRequirements) (replay_class : ReplayClass)
    (access_policy : ToolAccessPolicyV1) (access_resolver_revision : string)
    (sandbox_requirements : SandboxRequirementsV1) : result PreparationError ToolDefinition :=
  validate_for sandbox_requirements (er_capabilities requirements) ?;
  let? definition :=
    definition_new_v2 name revision description input_schema requirements replay_class access_policy
      access_resolver_revision in
  Ok (definition <| td_sandbox_requirements := Some sandbox_requirements |>).

Definition prepared_contract_version (self : ToolDefinition) : Z :=
  if is_some (td_sandbox_requirements self) then 3
  else if is_some (td_access_contract self) then 2 else 1.

(** ** JSON forms ([#[derive(Serialize)]]) *)

Definition json_object (fields : list (string * Value)) : Value :=
  Obj (fold_left (fun m kv => (map_insert kv.1 kv.2 m).1) fields []).
Definition json_nat (n : Z) : Value := Num (PosInt n).
Definition json_strings (l : list string) : Value := Arr (Str <$> l).
Definition json_field {A} (key : string) (f : A -> Value) (o : option A) : list (string * Value) :=
  match o with Some a => [(key, f a)] | None => [] end.

Definition namespace_name (n : AccessNamespace) : string :=
  match n with Filesystem => "filesystem" | Process => "process" | Network => "network" | Runtime => "runtime" end.
Definition mode_name (m : AccessMode) : string :=
  match m with Read => "read" | Write => "write" | Exclusive => "exclusive" end.
Definition replay_name (r : ReplayClass) : string :=
  match r with
  | ReadOnly => "read_only" | Idempotent => "idempotent"
  | ReceiptRecoverable => "receipt_recoverable" | NeverReplay => "never_replay"
  end.

Definition access_json (a : ResourceAccess) : Value :=
  json_object [("namespace", Str (namespace_name (ra_namespace a))); ("resource_key", Str (ra_resource_key a));
               ("mode", Str (mode_name (ra_mode a)))].
Definition accesses_json (l : InvocationAccessSet) : Value := Arr (access_json <$> l).
Definition policy_entry_json (e : AccessPolicyEntry) : Value :=
  json_object [("resource", Str (ape_resource e)); ("allowed_modes", json_strings (mode_name <$> ape_allowed_modes e))].
Definition policy_json (p : ToolAccessPolicyV1) : Value :=
  json_object
    [("policy_revision", Str (tap_policy_revision p));
     ("filesystem_roots", Arr (policy_entry_json <$> tap_filesystem_roots p));
     ("process_lanes", Arr (policy_entry_json <$> tap_process_lanes p));
     ("network_origins", Arr (policy_entry_json <$> tap_network_origins p));
     ("runtime_lanes", Arr (policy_entry_json <$> tap_runtime_lanes p));
     ("max_accesses", json_nat (tap_max_accesses p)); ("max_result_bytes", json_nat (tap_max_result_bytes p))].
Definition requirements_json (r : ExecutionRequirements) : Value :=
  json_object
    [("capabilities", json_strings (capability_wire_name <$> er_capabilities r));
     ("max_duration_ms", json_nat (er_max_duration_ms r)); ("max_output_bytes", json_nat (er_max_output_bytes r))].
Definition sandbox_json (s : SandboxRequirementsV1) : Value :=
  json_object
    ([("contract", Str (sr_contract s)); ("version", json_nat (sr_version s));
      ("controls", json_strings (control_wire_name <$> sr_controls s))]
     ++ json_field "max_processes" json_nat (sr_max_processes s)
     ++ [("max_open_files", json_nat (sr_max_open_files s))]).
Definition contract_json (c : ToolAccessContract) : Value :=
  json_object [("policy", policy_json (tac_policy c)); ("resolver_revision", Str (tac_resolver_revision c))].
Definition definition_json (d : ToolDefinition) : Value :=
  json_object
    ([("name", Str (td_name d)); ("revision", Str (td_revision d)); ("description", Str (td_description d));
      ("input_schema", td_input_schema d); ("requirements", requirements_json (td_requirements d));
      ("replay_class", Str (replay_name (td_replay_class d)))]
     ++ json_field "access_contract" contract_json (td_access_contract d)
     ++ json_field "sandbox_requirements" sandbox_json (td_sandbox_requirements d)).

(** ** The catalog *)

Record ToolIntent := mkIntent {
  ti_model_call_id : string;
  ti_tool_name : string;
  ti_arguments_json : string;
}.

Record ToolCatalog := mkCatalog { tc_definitions : gmap string ToolDefinition }.

Definition catalog_insert (m : gmap string ToolDefinition) (d : ToolDefinition)
    : result PreparationError (gmap string ToolDefinition) :=
  if is_some (m !! td_name d) then Err invalid_definition else Ok (<[td_name d := d]> m).
Definition catalog_new (definitions : list ToolDefinition) : result PreparationError ToolCatalog :=
  let? catalog := try_fold catalog_insert ∅ definitions in Ok (mkCatalog catalog).

(** The resolver of a tool: its revision and its total, effect-free reading of the
    validated arguments. *)
Record ToolAccessResolver := mkResolver {
  resolver_revision : string;
  resolver_resolve : Value -> result PreparationError InvocationAccessSet;
}.

(** RFC 8785 text of a value ([serde_jcs]). *)
Class Jcs := jcs : Value -> option string.

Record PreparedToolCall := mkPrepared {
  pc_model_call_id : string;
  pc_tool_name : string;
  pc_tool_revision : string;
  pc_normalized_arguments : string;
  pc_input_digest : string;
  pc_requirements : ExecutionRequirements;
  pc_replay_class : ReplayClass;
  pc_contract_version : Z;
  pc_access_policy_revision : option string;
  pc_access_resolver_revision : option string;
  pc_invocation_accesses : option InvocationAccessSet;
  pc_max_result_bytes : option Z;
  pc_sandbox_requirements : option SandboxRequirementsV1;
  pc_sandbox_requirements_digest : option string;
}.
#[export] Instance PreparedToolCall_eq_dec : EqDecision PreparedToolCall.
Proof. solve_decision. Defined.

(** A refusal, or a stop of the schema validator. *)
Inductive PrepareStop := Refused (error : PreparationError) | Stopped (halt : Halt).
Definition refuse {A} (code : PreparationErrorCode) : result PrepareStop A := Err (Refused (preparation_error code)).
Definition lift {A} (r : result PreparationError A) : result PrepareStop A :=
  match r with Ok a => Ok a | Err e => Err (Refused e) end.

Section catalog.
Context `{Externals, ArgumentReader, Jcs}.

Definition canonical (v : Value) : result PreparationError string :=
  ok_or (jcs v) (preparation_error NonCanonicalValue).

Definition sandbox_digest (self : SandboxRequirementsV1) : result PreparationError string :=
  let? bytes := canonical (sandbox_json self) in Ok (sha256_hex bytes).

Definition tool_catalogue_digest (definitions : list ToolDefinition) : result PreparationError string :=
  let? ordered := try_fold catalog_insert ∅ definitions in
  let? text := canonical (json_object
    [("contract", Str "garive.tool-catalogue"); ("version", json_nat 1);
     ("definitions", Arr (definition_json <$> values ordered))]) in
  Ok (sha256_hex text).

Definition validate_intent (self : ToolCatalog) (intent : ToolIntent)
    : result PrepareStop (ToolDefinition * Value) :=
  if str_is_empty (ti_model_call_id intent) then refuse InvalidModelCallId
  else if str_is_empty (ti_tool_name intent) then refuse InvalidToolName
  else match tc_definitions self !! ti_tool_name intent with
  | None => refuse ToolNotAdmitted
  | Some definition =>
      let? arguments := lift (parse_arguments (ti_arguments_json intent)) in
      match validate_arguments (td_input_schema definition) arguments with
      | Err halt => Err (Stopped halt)
      | Ok [] => Ok (definition, arguments)
      | Ok failures => Err (Refused (mkPreparationError ArgumentsSchemaMismatch failures))
      end
  end.

(** The digest preimages of the three contract versions. *)
Definition preimage_v1 (version : Z) (d : ToolDefinition) (arguments : Value) : list (string * Value) :=
  [("contract", Str "garive.prepared-tool-call"); ("version", json_nat version); ("tool_name", Str (td_name d));
   ("tool_revision", Str (td_revision d)); ("arguments", arguments);
   ("requirements", requirements_json (td_requirements d)); ("replay_class", Str (replay_name (td_replay_class d)))].
Definition preimage_v2 (version : Z) (d : ToolDefinition) (arguments : Value) (accesses : InvocationAccessSet)
    (contract : ToolAccessContract) : list (string * Value) :=
  preimage_v1 version d arguments ++
  [("access_policy_revision", Str (tap_policy_revision (tac_policy contract)));
   ("access_resolver_revision", Str (tac_resolver_revision contract));
   ("invocation_accesses", accesses_json accesses);
   ("max_result_bytes", json_nat (tap_max_result_bytes (tac_policy contract)))].
Definition preimage_v3 (d : ToolDefinition) (arguments : Value) (accesses : InvocationAccessSet)
    (contract : ToolAccessContract) (sandbox : SandboxRequirementsV1) (digest : string) : list (string * Value) :=
  preimage_v2 3 d arguments accesses contract ++
  [("sandbox_requirements", sandbox_json sandbox); ("sandbox_requirements_digest", Str digest)].

Definition from_v1 (intent : ToolIntent) (d : ToolDefinition) (arguments : Value)
    : result PreparationError PreparedToolCall :=
  let? normalized := canonical arguments in
  let? text := canonical (json_object (preimage_v1 1 d arguments)) in
  Ok (mkPrepared (ti_model_call_id intent) (td_name d) (td_revision d) normalized (sha256_hex text)
        (td_requirements d) (td_replay_class d) 1 None None None None None None).

Definition from_v2 (intent : ToolIntent) (d : ToolDefinition) (arguments : Value) (accesses : InvocationAccessSet)
    (contract : ToolAccessContract) : result PreparationError PreparedToolCall :=
  let? normalized := canonical arguments in
  let? text := canonical (json_object (preimage_v2 2 d arguments accesses contract)) in
  Ok (mkPrepared (ti_model_call_id intent) (td_name d) (td_revision d) normalized (sha256_hex text)
        (td_requirements d) (td_replay_class d) 2 (Some (tap_policy_revision (tac_policy contract)))
        (Some (tac_resolver_revision contract)) (Some accesses)
        (Some (tap_max_result_bytes (tac_policy contract))) None None).

Definition from_v3 (intent : ToolIntent) (d : ToolDefinition) (arguments : Value) (accesses : InvocationAccessSet)
    (contract : ToolAccessContract) (sandbox : SandboxRequirementsV1) : result PreparationError PreparedToolCall :=
  let? normalized := canonical arguments in
  let? digest := sandbox_digest sandbox in
  let? text := canonical (json_object (preimage_v3 d arguments accesses contract sandbox digest)) in
  Ok (mkPrepared (ti_model_call_id intent) (td_name d) (td_revision d) normalized (sha256_hex text)
        (td_requirements d) (td_replay_class d) 3 (Some (tap_policy_revision (tac_policy contract)))
        (Some (tac_resolver_revision contract)) (Some accesses)
        (Some (tap_max_result_bytes (tac_policy contract))) (Some sandbox) (Some digest)).

Definition mutates (capability : ExecutionCapability) : bool :=
  match capability with FilesystemWrite | CapProcess | BrowserAct | ComputerAct => true | _ => false end.

(** The access checks that versions two and three share. *)
Definition access_violation (d : ToolDefinition) (contract : ToolAccessContract) (accesses : InvocationAccessSet)
    : bool :=
  let mutating := existsb (fun a => negb (bool_decide (ra_mode a = Read))) accesses in
  let requires_mutation := existsb mutates (er_capabilities (td_requirements d)) in
  let read_only := bool_decide (td_replay_class d = ReadOnly) in
  negb (covers (tac_policy contract) accesses)
  || (read_only && mutating)
  || (negb read_only && requires_mutation && negb mutating).

Definition prepare (self : ToolCatalog) (intent : ToolIntent) : result PrepareStop PreparedToolCall :=
  let? (definition, arguments) := validate_intent self intent in
  if is_some (td_access_contract definition) then refuse EffectAccessInvalid
  else lift (from_v1 intent definition arguments).

Definition prepare_v2 (self : ToolCatalog) (intent : ToolIntent) (resolver : ToolAccessResolver)
    : result PrepareStop PreparedToolCall :=
  let? (definition, arguments) := validate_intent self intent in
  if is_some (td_sandbox_requirements definition) then refuse SandboxRequirementInvalid
  else match td_access_contract definition with
  | None => refuse EffectAccessInvalid
  | Some contract =>
      if negb (resolver_revision resolver =? tac_resolver_revision contract)%string then refuse EffectAccessInvalid
      else
        let? accesses := lift (resolver_resolve resolver arguments) in
        if access_violation definition contract accesses then refuse EffectAccessInvalid
        else lift (from_v2 intent definition arguments accesses contract)
  end.

Definition prepare_v3 (self : ToolCatalog) (intent : ToolIntent) (resolver : ToolAccessResolver)
    : result PrepareStop PreparedToolCall :=
  let? (definition, arguments) := validate_intent self intent in
  match td_access_contract definition with
  | None => refuse EffectAccessInvalid
  | Some contract =>
      match td_sandbox_requirements definition with
      | None => refuse SandboxRequirementInvalid
      | Some sandbox =>
          if negb (resolver_revision resolver =? tac_resolver_revision contract)%string
          then refuse EffectAccessInvalid
          else
            let? accesses := lift (resolver_resolve resolver arguments) in
            if access_violation definition contract accesses then refuse EffectAccessInvalid
            else lift (from_v3 intent definition arguments accesses contract sandbox)
      end
  end.
End catalog.
