(* ===== verification/ToolTheorems.v ===== *)
(** * Prepared calls: what preparation admits and what its digest binds *)

From S2P Require Import Prelude Json ToolSchema SchemaTheorems Text Order ToolAccess ToolPrepared.

(** ** Definitions *)

(** What every constructor of a definition has checked. *)
Definition definition_ok (d : ToolDefinition) : Prop :=
  td_name d <> "" /\ td_revision d <> "" /\ td_description d <> "" /\
  validate_definition (td_input_schema d) = Ok tt /\
  (td_replay_class d = ReadOnly -> forall c, c ∈ er_capabilities (td_requirements d) -> mutates c = false) /\
  match td_access_contract d with Some c => tac_resolver_revision c <> "" | None => True end /\
  match td_sandbox_requirements d with
  | Some s => is_some (td_access_contract d) = true /\ validate_for s (er_capabilities (td_requirements d)) = Ok tt
  | None => True
  end.

Lemma observes_not_mutates b c : observes_only b c = true -> mutates c = false.
Proof. by destruct b, c. Qed.

Lemma definition_new_internal_ok name revision description schema requirements replay b d :
  definition_new_internal name revision description schema requirements replay b = Ok d ->
  definition_ok d /\ td_requirements d = requirements.
Proof.
  unfold definition_new_internal. intros H. inv_ok H. intros; simplify_eq. bool_hyps. unfold str_is_empty in *. bool_hyps.
  split; [|done]. unfold definition_ok; simpl. repeat match goal with u : unit |- _ => destruct u end. split_and!; try done. intros -> c Hc.
  rewrite bool_decide_eq_true_2 in E1 by done. simpl in E1. rewrite existsb_false in E1.
  specialize (E1 c Hc). bool_hyps. by apply observes_not_mutates in E1.
Qed.

Lemma definition_new_ok name revision description schema requirements replay d :
  definition_new name revision description schema requirements replay = Ok d -> definition_ok d.
Proof. intros H. by apply definition_new_internal_ok in H as [? _]. Qed.

Lemma definition_new_v2_ok name revision description schema requirements replay policy rr d :
  definition_new_v2 name revision description schema requirements replay policy rr = Ok d ->
  definition_ok d /\ td_requirements d = requirements /\ is_some (td_access_contract d) = true.
Proof.
  unfold definition_new_v2. intros H. inv_ok H. intros; simplify_eq.
  apply definition_new_internal_ok in E as [(?&?&?&?&?&?&?) Hr]. apply str_is_empty_false in E0.
  split; [|done]. split_and!; try done. simpl. destruct (td_sandbox_requirements _); [|done]. naive_solver.
Qed.

Lemma definition_new_v3_ok name revision description schema requirements replay policy rr sandbox d :
  definition_new_v3 name revision description schema requirements replay policy rr sandbox = Ok d -> definition_ok d.
Proof.
  unfold definition_new_v3. intros H. inv_ok H. intros; simplify_eq. repeat match goal with u : unit |- _ => destruct u end.
  apply definition_new_v2_ok in E0 as [(?&?&?&?&?&?&?) [Hr Hc]]. split_and!; try done. simpl. by rewrite Hr.
Qed.

(** ** The catalog *)

Lemma catalog_fold_ok definitions m0 m :
  try_fold catalog_insert m0 definitions = Ok m <->
  NoDup (td_name <$> definitions) /\ (forall d, d ∈ definitions -> m0 !! td_name d = None) /\
  m = list_to_map ((fun d => (td_name d, d)) <$> definitions) ∪ m0.
Proof.
  revert m0. induction definitions as [|d ds IH]; intros m0.
  - cbn. rewrite (left_id_L ∅ (∪)). split; [intros [= <-]; split_and!; [constructor|by intros ? ?%elem_of_nil|done]|].
    by intros (_ & _ & ->).
  - cbn [try_fold]. unfold catalog_insert at 1. rewrite !fmap_cons, list.NoDup_cons. cbn [list_to_map].
    destruct (m0 !! td_name d) as [d0|] eqn:E; simpl.
    + split; [done|]. intros (_ & Hn & _). rewrite (Hn d) in E by left. done.
    + rewrite IH. split.
      * intros (Hnd & Hn & ->). split_and!; [|done| |].
        -- intros (d' & Hd & Hin)%list_elem_of_fmap. specialize (Hn d' Hin). rewrite <-Hd, lookup_insert_eq in Hn. done.
        -- intros d' [->|Hin]%elem_of_cons; [done|]. specialize (Hn d' Hin). by apply lookup_insert_None in Hn as [? _].
        -- rewrite <-insert_union_r; [by rewrite insert_union_l|]. apply not_elem_of_list_to_map_1. rewrite <-list_fmap_compose.
           intros (d' & Hd & Hin)%list_elem_of_fmap. specialize (Hn d' Hin). simpl in Hd. rewrite <-Hd, lookup_insert_eq in Hn. done.
      * intros ((Hd & Hnd) & Hn & ->). split_and!; [done| |].
        -- intros d' Hin. rewrite lookup_insert_ne; [apply Hn; by right|].
           intros Heq. apply Hd. apply list_elem_of_fmap. eauto.
        -- rewrite <-insert_union_l, insert_union_r; [done|]. apply not_elem_of_list_to_map_1. by rewrite <-list_fmap_compose.
Qed.

(** Admission needs distinct names, and then a name finds its definition. *)
Lemma catalog_new_lookup definitions catalog : catalog_new definitions = Ok catalog ->
  NoDup (td_name <$> definitions) /\
  forall name d, tc_definitions catalog !! name = Some d <-> d ∈ definitions /\ td_name d = name.
Proof.
  unfold catalog_new. intros H. inv_ok H. intros; simplify_eq. apply catalog_fold_ok in E as (Hnd & _ & ->).
  split; [done|]. intros name d. simpl. rewrite (right_id_L ∅ (∪)).
  rewrite <-elem_of_list_to_map; [|by rewrite <-list_fmap_compose]. rewrite list_elem_of_fmap.
  split; [intros (d' & [= -> ->] & ?); done|intros [? <-]; eauto].
Qed.

(** ** Preparation *)

Section prepare.
Context `{Externals, ArgumentReader, Jcs}.

Definition intent_matches (catalog : ToolCatalog) (intent : ToolIntent) (d : ToolDefinition) (arguments : Value)
    : Prop :=
  ti_model_call_id intent <> "" /\ ti_tool_name intent <> "" /\
  tc_definitions catalog !! ti_tool_name intent = Some d /\
  parse_arguments (ti_arguments_json intent) = Ok arguments /\
  satisfies (td_input_schema d) arguments.

Definition catalog_ok (catalog : ToolCatalog) : Prop :=
  forall name d, tc_definitions catalog !! name = Some d -> definition_ok d.

Lemma definition_schema schema : validate_definition schema = Ok tt -> validate_value_definition schema = Ok tt.
Proof. unfold validate_definition. intros H'. by inv_ok H'. Qed.

Lemma validate_intent_ok catalog intent : catalog_ok catalog ->
  (forall d args, validate_intent catalog intent = Ok (d, args) <-> intent_matches catalog intent d args) /\
  (forall h, validate_intent catalog intent <> Err (Stopped h)).
Proof.
  intros Hok. unfold validate_intent, intent_matches, refuse. unfold str_is_empty.
  destruct (ti_model_call_id intent =? "")%string eqn:E1; bool_hyps; [split; [naive_solver|done]|].
  destruct (ti_tool_name intent =? "")%string eqn:E2; bool_hyps; [split; [naive_solver|done]|].
  destruct (tc_definitions catalog !! ti_tool_name intent) as [d|] eqn:Ed; [|split; [naive_solver|done]].
  destruct (parse_arguments (ti_arguments_json intent)) as [args|e] eqn:Ep; simpl; [|split; [naive_solver|done]].
  destruct (validate_arguments_ok (td_input_schema d) args) as (fs & -> & Hfs).
  { apply definition_schema. by eapply Hok. }
  destruct fs as [|f fs]; (split; [|done]).
  - intros d' args'. split; [intros [= <- <-]; split_and!; try done; by apply Hfs|]. naive_solver.
  - intros d' args'. split; [done|]. intros (_ & _ & [= <-] & [= <-] & Hs). apply Hfs in Hs. done.
Qed.

(** What the access checks of versions two and three establish: the ceiling of a namespace, the
    capabilities that change the world, and the accesses both allow. *)
Definition ceiling (policy : ToolAccessPolicyV1) (namespace : AccessNamespace) (entry : AccessPolicyEntry) : Prop :=
  match namespace with
  | Filesystem => entry ∈ tap_filesystem_roots policy
  | Process => entry ∈ tap_process_lanes policy
  | Network => entry ∈ tap_network_origins policy
  | Runtime => entry ∈ tap_runtime_lanes policy
  end.

Definition world_changing (c : ExecutionCapability) : Prop :=
  c = FilesystemWrite \/ c = CapProcess \/ c = BrowserAct \/ c = ComputerAct.

Definition accesses_admitted (d : ToolDefinition) (contract : ToolAccessContract) (accesses : InvocationAccessSet)
    : Prop :=
  (Z.of_nat (length accesses) <= tap_max_accesses (tac_policy contract) /\
   forall access, access ∈ accesses ->
     exists entry, ceiling (tac_policy contract) (ra_namespace access) entry /\ within access entry) /\
  (td_replay_class d = ReadOnly -> forall a, a ∈ accesses -> ra_mode a = Read) /\
  (td_replay_class d <> ReadOnly -> (exists c, c ∈ er_capabilities (td_requirements d) /\ world_changing c) ->
   exists a, a ∈ accesses /\ ra_mode a <> Read).

Lemma ceiling_entries policy namespace entry :
  entry ∈ policy_entries_of policy namespace <-> ceiling policy namespace entry.
Proof. by destruct namespace. Qed.

Lemma mutates_world_changing c : mutates c = true <-> world_changing c.
Proof. unfold world_changing. destruct c; simpl; naive_solver. Qed.

Lemma access_violation_false d contract accesses :
  access_violation d contract accesses = false <-> accesses_admitted d contract accesses.
Proof.
  unfold access_violation, accesses_admitted. rewrite !orb_false_iff, negb_false_iff, Logic.and_assoc, covers_spec.
  setoid_rewrite ceiling_entries. apply and_iff_compat_l.
  assert (Hm : existsb (fun a => negb (bool_decide (ra_mode a = Read))) accesses = false <->
               forall a, a ∈ accesses -> ra_mode a = Read) by apply existsb_negb_false.
  assert (Hc : existsb mutates (er_capabilities (td_requirements d)) = true <->
               exists c, c ∈ er_capabilities (td_requirements d) /\ world_changing c).
  { rewrite existsb_exists. setoid_rewrite <-list_elem_of_In. by setoid_rewrite mutates_world_changing. }
  assert (Hx : existsb (fun a => negb (bool_decide (ra_mode a = Read))) accesses = true <->
               exists a, a ∈ accesses /\ ra_mode a <> Read).
  { rewrite existsb_exists. setoid_rewrite <-list_elem_of_In. setoid_rewrite negb_true_iff.
    by setoid_rewrite bool_decide_eq_false. }
  rewrite <-Hm, <-Hc, <-Hx. destruct (decide (td_replay_class d = ReadOnly)) as [Hr|Hr];
    [rewrite bool_decide_eq_true_2 by done|rewrite bool_decide_eq_false_2 by done]; simpl;
    destruct (existsb _ accesses), (existsb mutates _); simpl; naive_solver.
Qed.

(** What a prepared call of version three went through. *)
Lemma prepare_v3_inv catalog intent resolver call : prepare_v3 catalog intent resolver = Ok call ->
  exists d arguments contract sandbox accesses,
    validate_intent catalog intent = Ok (d, arguments) /\
    tc_definitions catalog !! ti_tool_name intent = Some d /\
    parse_arguments (ti_arguments_json intent) = Ok arguments /\
    td_access_contract d = Some contract /\ td_sandbox_requirements d = Some sandbox /\
    resolver_revision resolver = tac_resolver_revision contract /\
    resolver_resolve resolver arguments = Ok accesses /\
    accesses_admitted d contract accesses /\
    from_v3 intent d arguments accesses contract sandbox = Ok call.
Proof.
  unfold prepare_v3. destruct (validate_intent catalog intent) as [[d args]|e] eqn:E; [|done].
  destruct (td_access_contract d) as [contract|] eqn:Ec; [|done].
  destruct (td_sandbox_requirements d) as [sandbox|] eqn:Es; [|done].
  destruct (resolver_revision resolver =? _)%string eqn:Er; [|done]. bool_hyps. simpl.
  destruct (resolver_resolve resolver args) as [accesses|] eqn:Ea; [|done]. simpl.
  destruct (access_violation d contract accesses) eqn:Ev; [done|]. apply access_violation_false in Ev.
  destruct (from_v3 intent d args accesses contract sandbox) as [c|] eqn:Ef; [|done]. intros [= ->].
  exists d, args, contract, sandbox, accesses. unfold validate_intent, refuse in E.
  destruct (str_is_empty _); [done|]. destruct (str_is_empty _); [done|].
  destruct (tc_definitions catalog !! _) as [d'|]; [|done].
  destruct (parse_arguments _) as [args'|]; [|done]. simpl in E.
  destruct (validate_arguments _ _) as [[|]|]; [|done..]. injection E as -> ->. by split_and!.
Qed.

(** What the fields of a prepared call of version three are. *)
Lemma from_v3_fields intent d arguments accesses contract sandbox call :
  from_v3 intent d arguments accesses contract sandbox = Ok call ->
  pc_contract_version call = 3 /\ pc_tool_name call = td_name d /\ pc_invocation_accesses call = Some accesses /\
  pc_sandbox_requirements call = Some sandbox /\
  pc_access_policy_revision call = Some (tap_policy_revision (tac_policy contract)) /\
  pc_max_result_bytes call = Some (tap_max_result_bytes (tac_policy contract)).
Proof. unfold from_v3. intros H2. inv_ok H2. intros; simplify_eq. by split_and!. Qed.

(** The call a preparation of version three hands on: the fields of the intent, of the definition
    and of its contract, the canonical text of the arguments and the digests of two canonical
    texts, the sandbox requirements and the whole binding. *)
Definition access_object (a : ResourceAccess) : Value :=
  json_object [("namespace", Str match ra_namespace a with
                                 | Filesystem => "filesystem" | Process => "process"
                                 | Network => "network" | Runtime => "runtime"
                                 end);
               ("resource_key", Str (ra_resource_key a));
               ("mode", Str match ra_mode a with Read => "read" | Write => "write" | Exclusive => "exclusive" end)].

Definition sandbox_object (s : SandboxRequirementsV1) : Value :=
  json_object
    ([("contract", Str (sr_contract s)); ("version", json_nat (sr_version s));
      ("controls", json_strings (control_wire_name <$> sr_controls s))]
     ++ (if sr_max_processes s is Some n then [("max_processes", json_nat n)] else [])
     ++ [("max_open_files", json_nat (sr_max_open_files s))]).

Definition binding_object (d : ToolDefinition) (arguments : Value) (accesses : InvocationAccessSet)
    (contract : ToolAccessContract) (sandbox : SandboxRequirementsV1) (sandbox_text : string) : Value :=
  json_object
    [("contract", Str "garive.prepared-tool-call"); ("version", json_nat 3);
     ("tool_name", Str (td_name d)); ("tool_revision", Str (td_revision d)); ("arguments", arguments);
     ("requirements", json_object
        [("capabilities", json_strings (capability_wire_name <$> er_capabilities (td_requirements d)));
         ("max_duration_ms", json_nat (er_max_duration_ms (td_requirements d)));
         ("max_output_bytes", json_nat (er_max_output_bytes (td_requirements d)))]);
     ("replay_class", Str match td_replay_class d with
                          | ReadOnly => "read_only" | Idempotent => "idempotent"
                          | ReceiptRecoverable => "receipt_recoverable" | NeverReplay => "never_replay"
                          end);
     ("access_policy_revision", Str (tap_policy_revision (tac_policy contract)));
     ("access_resolver_revision", Str (tac_resolver_revision contract));
     ("invocation_accesses", Arr (access_object <$> accesses));
     ("max_result_bytes", json_nat (tap_max_result_bytes (tac_policy contract)));
     ("sandbox_requirements", sandbox_object sandbox);
     ("sandbox_requirements_digest", Str (sha256_hex sandbox_text))].

Definition prepared_call (intent : ToolIntent) (d : ToolDefinition) (arguments : Value)
    (accesses : InvocationAccessSet) (contract : ToolAccessContract) (sandbox : SandboxRequirementsV1)
    (call : PreparedToolCall) : Prop :=
  exists normalized sandbox_text text,
    jcs arguments = Some normalized /\ jcs (sandbox_object sandbox) = Some sandbox_text /\
    jcs (binding_object d arguments accesses contract sandbox sandbox_text) = Some text /\
    pc_model_call_id call = ti_model_call_id intent /\
    pc_tool_name call = td_name d /\ pc_tool_revision call = td_revision d /\
    pc_normalized_arguments call = normalized /\ pc_input_digest call = sha256_hex text /\
    pc_requirements call = td_requirements d /\ pc_replay_class call = td_replay_class d /\
    pc_contract_version call = 3 /\
    pc_access_policy_revision call = Some (tap_policy_revision (tac_policy contract)) /\
    pc_access_resolver_revision call = Some (tac_resolver_revision contract) /\
    pc_invocation_accesses call = Some accesses /\
    pc_max_result_bytes call = Some (tap_max_result_bytes (tac_policy contract)) /\
    pc_sandbox_requirements call = Some sandbox /\
    pc_sandbox_requirements_digest call = Some (sha256_hex sandbox_text).

Lemma from_v3_prepared intent d arguments accesses contract sandbox call :
  from_v3 intent d arguments accesses contract sandbox = Ok call <->
  prepared_call intent d arguments accesses contract sandbox call.
Proof.
  unfold from_v3, sandbox_digest, canonical, ok_or, prepared_call.
  destruct (jcs arguments) as [normalized|]; simpl; [|naive_solver].
  change (sandbox_json sandbox) with (sandbox_object sandbox).
  destruct (jcs (sandbox_object sandbox)) as [sandbox_text|]; simpl; [|naive_solver].
  change (json_object (preimage_v3 d arguments accesses contract sandbox (sha256_hex sandbox_text)))
    with (binding_object d arguments accesses contract sandbox sandbox_text).
  destruct (jcs (binding_object _ _ _ _ _ _)) as [text|] eqn:Et; simpl.
  - split; [intros [= <-]; exists normalized, sandbox_text, text; by split_and!|].
    destruct call; simpl. naive_solver.
  - split; [done|]. intros (n & s & t & _ & [= <-] & Ht & _). by rewrite Et in Ht.
Qed.

(** C8: The version-three preparation accepts an intent with a call exactly when its call id and
    tool name are not empty, a definition of the catalog has that name, an access contract and
    sandbox requirements, the arguments parse and satisfy its schema, the resolver has the frozen
    revision and resolves accesses that are within the bound, each under a root, lane or origin of
    its namespace that allows its mode (a path by its components), only reads for a read-only tool
    and some change for one that can change the world, and the arguments, the sandbox requirements
    and the whole binding have canonical texts; the call then carries exactly these values and the
    digests of those texts. The schema validator never stops short. *)
Theorem prepare_v3_exact definitions catalog intent resolver :
  catalog_new definitions = Ok catalog -> Forall definition_ok definitions ->
  (forall call, prepare_v3 catalog intent resolver = Ok call <->
     exists d arguments contract sandbox accesses,
       ti_model_call_id intent <> "" /\ ti_tool_name intent <> "" /\
       d ∈ definitions /\ td_name d = ti_tool_name intent /\
       parse_arguments (ti_arguments_json intent) = Ok arguments /\ satisfies (td_input_schema d) arguments /\
       td_access_contract d = Some contract /\ td_sandbox_requirements d = Some sandbox /\
       resolver_revision resolver = tac_resolver_revision contract /\
       resolver_resolve resolver arguments = Ok accesses /\
       accesses_admitted d contract accesses /\
       prepared_call intent d arguments accesses contract sandbox call) /\
  (forall halt, prepare_v3 catalog intent resolver <> Err (Stopped halt)).
Proof.
  intros Hc Hok. apply catalog_new_lookup in Hc as [_ Hl].
  assert (Hcat : catalog_ok catalog) by (intros n d [Hin _]%Hl; by eapply Forall_forall in Hok).
  destruct (validate_intent_ok catalog intent Hcat) as [Hv Hs]. unfold prepare_v3.
  destruct (validate_intent catalog intent) as [[d args]|e] eqn:E; [|split].
  - assert (Hm : intent_matches catalog intent d args) by by apply Hv.
    assert (Hd : d ∈ definitions /\ td_name d = ti_tool_name intent) by (destruct Hm as (_&_&?&_); by apply Hl).
    assert (Huniq : forall d' args', intent_matches catalog intent d' args' -> d' = d /\ args' = args).
    { intros d' args' Hm'. apply Hv in Hm'. by injection Hm'. }
    split.
    + intros call. split.
      * intros Hr. assert (Hr' : prepare_v3 catalog intent resolver = Ok call) by (unfold prepare_v3; by rewrite E).
        apply prepare_v3_inv in Hr' as (d' & args' & contract & sandbox & accesses & Hv' & _ & _ & Hrest).
        rewrite E in Hv'. injection Hv' as <- <-. rewrite from_v3_prepared in Hrest.
        destruct Hd, Hm as (? & ? & _ & ? & ?), Hrest as (?&?&?&?&?&?).
        exists d, args, contract, sandbox, accesses. by split_and!.
      * intros (d' & args' & contract & sandbox & accesses & ? & ? & Hd' & Hn' & ? & ? & Ec & Es & Er & Ea & Hv' & Ef).
        rewrite <-from_v3_prepared in Ef.
        assert (Hm' : intent_matches catalog intent d' args') by (split_and!; try done; by apply Hl).
        destruct (Huniq _ _ Hm') as [-> ->]. rewrite Ec, Es, Er, String.eqb_refl, Ea. simpl.
        rewrite (proj2 (access_violation_false _ _ _) Hv'). by rewrite Ef.
    + intros halt Hr. unfold refuse in Hr. repeat (case_match; simplify_eq/=); try done.
      all: unfold lift in *; repeat (case_match; simplify_eq/=); try done.
  - intros call. split; [done|]. intros (d' & args' & _ & _ & _ & ? & ? & Hd' & Hn' & ? & ? & _).
    assert (Hm : intent_matches catalog intent d' args') by (split_and!; try done; by apply Hl). by apply Hv in Hm.
  - intros halt [= ->]. by apply (Hs halt).
Qed.
End prepare.
