(* ===== verification/ToolPatch.v ===== *)
(** * Workspace patches ([engine/tools/src/t1_patch.rs])

    The two patch grammars and the in-memory application of a target's hunks. *)

From S2P Require Import Prelude Text Order.

Inductive T1PatchError := InvalidSyntax | TargetMissing | ContextMismatch.
Inductive LineKind := Context | Add | Remove.
#[export] Instance LineKind_eq_dec : EqDecision LineKind.
Proof. solve_decision. Defined.

Record PatchLine := mkPatchLine {
  pl_kind : LineKind;
  pl_text : string;
  pl_no_newline : bool;
}.
Definition Hunk := list PatchLine.
Record Target := mkTarget {
  tg_path : string;
  tg_hunks : list Hunk;
}.
#[export] Instance PatchLine_eq_dec : EqDecision PatchLine.
Proof. solve_decision. Defined.
#[export] Instance Target_eq_dec : EqDecision Target.
Proof. solve_decision. Defined.

(** ** Hunks and lines of a patch *)

Definition is_kind (k : LineKind) (line : PatchLine) : bool := bool_decide (pl_kind line = k).
Definition before_lines (hunk : Hunk) : list string :=
  pl_text <$> filter (fun line => pl_kind line <> Add) hunk.
Definition after_lines (hunk : Hunk) : list string :=
  pl_text <$> filter (fun line => pl_kind line <> Remove) hunk.

Definition hunk_valid (hunk : Hunk) : bool :=
  negb (bool_decide (hunk = []))
  && existsb (fun line => negb (is_kind Add line)) hunk
  && existsb (fun line => negb (is_kind Context line)) hunk.

(** Appends to the hunks of the last target. *)
Fixpoint push_hunk (targets : list Target) (hunk : Hunk) : option (list Target) :=
  match targets with
  | [] => None
  | [t] => Some [mkTarget (tg_path t) (tg_hunks t ++ [hunk])]
  | t :: targets => cons t <$> push_hunk targets hunk
  end.

Definition finish_hunk (targets : list Target) (current : option Hunk) : result T1PatchError (list Target) :=
  match current with
  | None => Ok targets
  | Some hunk =>
      reject InvalidSyntax when negb (hunk_valid hunk);
      ok_or (push_hunk targets hunk) InvalidSyntax
  end.

Definition NO_NEWLINE : string := "\ No newline at end of file".

(** The marker on the last line of the hunk, once. *)
Fixpoint mark_no_newline (hunk : Hunk) : option Hunk :=
  match hunk with
  | [] => None
  | [line] => if pl_no_newline line then None else Some [mkPatchLine (pl_kind line) (pl_text line) true]
  | line :: hunk => cons line <$> mark_no_newline hunk
  end.

Definition patch_line (raw : string) : result T1PatchError PatchLine :=
  match raw with
  | String " " text => Ok (mkPatchLine Context text false)
  | String "+" text => Ok (mkPatchLine Add text false)
  | String "-" text => Ok (mkPatchLine Remove text false)
  | _ => Err InvalidSyntax
  end.

(** A line inside a hunk, the marker included; both grammars share it. *)
Definition hunk_line (current : option Hunk) (raw : string) : result T1PatchError Hunk :=
  if (raw =? NO_NEWLINE)%string then ok_or (current ≫= mark_no_newline) InvalidSyntax
  else
    let? line := patch_line raw in
    let? hunk := ok_or current InvalidSyntax in
    Ok (hunk ++ [line]).

Definition has_target (targets : list Target) (path : string) : bool :=
  existsb (fun target => (tg_path target =? path)%string) targets.

(** ** The Garive grammar *)

Definition garive_step (state : list Target * option Hunk) (raw : string)
    : result T1PatchError (list Target * option Hunk) :=
  let '(targets, current) := state in
  match strip_prefix "*** Update File: " raw with
  | Some path =>
      let? targets := finish_hunk targets current in
      reject InvalidSyntax when str_is_empty path || (path =? ".")%string || has_target targets path;
      Ok (targets ++ [mkTarget path []], None)
  | None =>
      if (raw =? "@@")%string then
        let? targets := finish_hunk targets current in
        reject InvalidSyntax when bool_decide (targets = []);
        Ok (targets, Some [])
      else
        let? hunk := hunk_line current raw in Ok (targets, Some hunk)
  end.

Definition finish_targets (targets : list Target) (current : option Hunk) : result T1PatchError (list Target) :=
  let? targets := finish_hunk targets current in
  reject InvalidSyntax when
    bool_decide (targets = []) || existsb (fun target => bool_decide (tg_hunks target = [])) targets;
  Ok targets.

Definition line_feed : string := String newline "".
Definition BEGIN_PATCH : string := "*** Begin Patch" +:+ line_feed.
Definition END_PATCH : string := line_feed +:+ "*** End Patch".

Definition parse_garive_patch (patch : string) : result T1PatchError (list Target) :=
  let? body := ok_or
    (value ← strip_prefix BEGIN_PATCH patch;
     match strip_suffix END_PATCH value with
     | Some body => Some body
     | None => strip_suffix (END_PATCH +:+ line_feed) value
     end) InvalidSyntax in
  let? (targets, current) := try_fold garive_step ([], None) (lines body) in
  finish_targets targets current.

(** ** The unified grammar *)

Definition unified_path (header : string) : result T1PatchError string :=
  let path := match split_once tab header with Some (path, _) => path | None => header end in
  let? path := ok_or
    (match strip_prefix "a/" path with Some path => Some path | None => strip_prefix "b/" path end) InvalidSyntax in
  reject InvalidSyntax when str_is_empty path || (path =? ".")%string || (path =? "/dev/null")%string;
  Ok path.

Definition starts_file (raw : string) : bool := starts_with "diff --git " raw || starts_with "--- " raw.
Definition hunk_header (raw : string) : bool :=
  match strip_prefix "@@ " raw with Some rest => contains_text " @@" rest | None => false end.

(** [inner] holds inside the lines of a file, where only a file header returns to
    the outer loop. *)
Fixpoint unified_lines (inner : bool) (targets : list Target) (current : option Hunk) (lines : list string)
    : result T1PatchError (list Target * option Hunk) :=
  match lines with
  | [] => Ok (targets, current)
  | raw :: lines =>
      if inner && negb (starts_file raw) then
        if hunk_header raw then
          let? targets := finish_hunk targets current in unified_lines true targets (Some []) lines
        else
          let? hunk := hunk_line current raw in unified_lines true targets (Some hunk) lines
      else if starts_with "diff --git " raw then
        let? targets := finish_hunk targets current in unified_lines false targets None lines
      else
        let? old_path := ok_or (strip_prefix "--- " raw) InvalidSyntax in
        let? targets := finish_hunk targets current in
        match lines with
        | [] => Err InvalidSyntax
        | new_header :: lines =>
            let? new_path := ok_or (strip_prefix "+++ " new_header) InvalidSyntax in
            let? old_path := unified_path old_path in
            let? new_path := unified_path new_path in
            reject InvalidSyntax when negb (old_path =? new_path)%string || has_target targets new_path;
            unified_lines true (targets ++ [mkTarget new_path []]) None lines
        end
  end.

Definition parse_unified_diff (patch : string) : result T1PatchError (list Target) :=
  let? (targets, current) := unified_lines false [] None (lines patch) in
  finish_targets targets current.

Definition parse (patch : string) : result T1PatchError (list Target) :=
  if starts_with BEGIN_PATCH patch then parse_garive_patch patch else parse_unified_diff patch.

Definition t1_patch_targets (patch : string) : result T1PatchError (list string) :=
  let? targets := parse patch in Ok (btree_set (tg_path <$> targets)).

(** ** Application *)

(** The starts at or after [index] where [before] occurs in [lines], given the
    [lines] from there. *)
Fixpoint positions (index : nat) (before lines : list string) : list nat :=
  let rest := match lines with [] => [] | _ :: lines => positions (S index) before lines end in
  if bool_decide (take (length before) lines = before) then index :: rest else rest.

Record ApplyState := mkApply {
  ap_lines : list string;
  ap_cursor : nat;
  ap_terminal_newline : bool;
}.

Definition apply_hunk (terminal_newline final_hunk : bool) (s : ApplyState) (hunk : Hunk)
    : result T1PatchError ApplyState :=
  let before := before_lines hunk in
  reject InvalidSyntax when bool_decide (before = []);
  match positions (ap_cursor s) before (drop (ap_cursor s) (ap_lines s)) with
  | [start] =>
      let stop := (start + length before)%nat in
      let marked := existsb pl_no_newline hunk in
      reject InvalidSyntax when
        marked && (negb final_hunk || negb (is_some_and pl_no_newline (last hunk))
                   || negb (stop =? length (ap_lines s))%nat);
      reject ContextMismatch when
        marked && existsb (fun line => pl_no_newline line && negb (is_kind Add line)) hunk && terminal_newline;
      let after := after_lines hunk in
      Ok (mkApply (take start (ap_lines s) ++ after ++ drop stop (ap_lines s)) (start + length after)
            (if marked then false else ap_terminal_newline s))
  | _ => Err ContextMismatch
  end.

Fixpoint apply_hunks (terminal_newline : bool) (s : ApplyState) (hunks : list Hunk)
    : result T1PatchError ApplyState :=
  match hunks with
  | [] => Ok s
  | hunk :: hunks =>
      let? s := apply_hunk terminal_newline (bool_decide (hunks = [])) s hunk in
      apply_hunks terminal_newline s hunks
  end.

Definition content_lines (current : string) : list string :=
  if str_is_empty current then []
  else split_byte newline (default current (strip_suffix line_feed current)).

Definition apply_targets (targets : list Target) (path current : string) : result T1PatchError string :=
  let? target := ok_or (List.find (fun target => (tg_path target =? path)%string) targets) TargetMissing in
  let terminal_newline := ends_with_byte newline current in
  let? s := apply_hunks terminal_newline (mkApply (content_lines current) 0 terminal_newline) (tg_hunks target) in
  Ok (join_byte newline (ap_lines s) +:+ (if ap_terminal_newline s then line_feed else "")).

Definition apply_t1_patch (patch path current : string) : result T1PatchError string :=
  let? targets := parse patch in apply_targets targets path current.

(** ** Patches: what an application changes, and the printed form of a patch *)

(** ** Parsed targets *)

Definition target_ok (t : Target) : Prop :=
  tg_path t <> "" /\ tg_path t <> "." /\ Forall (fun h => hunk_valid h = true) (tg_hunks t).

Definition targets_ok (targets : list Target) : Prop :=
  NoDup (tg_path <$> targets) /\ Forall target_ok targets.

Lemma push_hunk_some targets hunk targets' : push_hunk targets hunk = Some targets' <->
  exists front t, targets = front ++ [t] /\ targets' = front ++ [mkTarget (tg_path t) (tg_hunks t ++ [hunk])].
Proof.
  split.
  - revert targets'. induction targets as [|t targets IH]; intros targets'; [done|].
    destruct targets as [|u targets]; [intros [= <-]; by exists [], t|].
    change (push_hunk (t :: u :: targets) hunk) with (cons t <$> push_hunk (u :: targets) hunk).
    destruct (push_hunk (u :: targets) hunk) as [l|]; [|done]. intros [= <-].
    destruct (IH l eq_refl) as (front & v & -> & ->). by exists (t :: front), v.
  - intros (front & t & -> & ->). induction front as [|u front IH]; [done|].
    change (push_hunk ((u :: front) ++ [t]) hunk) with
      (match front ++ [t] with [] => Some [mkTarget (tg_path u) (tg_hunks u ++ [hunk])]
       | _ => cons u <$> push_hunk (front ++ [t]) hunk end).
    rewrite IH. by destruct front.
Qed.

Lemma finish_hunk_ok targets current targets' : targets_ok targets ->
  finish_hunk targets current = Ok targets' -> targets_ok targets' /\ tg_path <$> targets' = tg_path <$> targets.
Proof.
  intros [Hnd Hok] H. unfold finish_hunk in H. destruct current as [h|]; [|by injection H as <-].
  destruct (hunk_valid h) eqn:Hv; [|done]. simpl in H. apply ok_or_ok, push_hunk_some in H as (front & t & -> & ->).
  rewrite !fmap_app in *. simpl. split; [|done]. split; [by rewrite fmap_app|].
  apply Forall_app in Hok as [Hf (? & ? & ?)%Forall_singleton]. apply Forall_app. split; [done|].
  apply Forall_singleton. split_and!; [done..|]. simpl. apply Forall_app. by rewrite Forall_singleton.
Qed.

Lemma has_target_elem targets path : has_target targets path = true <-> path ∈ tg_path <$> targets.
Proof.
  unfold has_target. rewrite existsb_exists, list_elem_of_fmap. setoid_rewrite <-list_elem_of_In.
  setoid_rewrite String.eqb_eq. split; intros (t & ? & ?); eauto.
Qed.

Lemma targets_ok_snoc targets path : targets_ok targets -> path <> "" -> path <> "." ->
  has_target targets path = false -> targets_ok (targets ++ [mkTarget path []]).
Proof.
  intros [Hnd Hok] H1 H2 Hf. apply not_true_iff_false in Hf. rewrite has_target_elem in Hf. split.
  - rewrite fmap_app. simpl. apply NoDup_app. split_and!; [done| |apply NoDup_singleton].
    by intros x Hx ->%list_elem_of_singleton.
  - apply Forall_app. split; [done|]. apply Forall_singleton. by split_and!.
Qed.

Lemma garive_fold_ok ls targets current targets' current' : targets_ok targets ->
  try_fold garive_step (targets, current) ls = Ok (targets', current') -> targets_ok targets'.
Proof.
  revert targets current. induction ls as [|raw ls IH]; intros targets current Hok H.
  - cbn in H. by injection H as <- <-.
  - cbn [try_fold] in H. destruct (garive_step (targets, current) raw) as [[t1 c1]|] eqn:E; [|done].
    apply (IH t1 c1); [|done]. clear H IH. unfold garive_step in E.
    destruct (strip_prefix _ raw) as [path|].
    + destruct (finish_hunk targets current) as [t0|] eqn:Ef; [|done].
      apply finish_hunk_ok in Ef as [Hok0 _]; [|done].
      destruct (_ || _) eqn:Eb; [done|]. injection E as <- <-. bool_hyps. unfold str_is_empty in *. bool_hyps.
      by apply targets_ok_snoc.
    + destruct (raw =? "@@")%string.
      * destruct (finish_hunk targets current) as [t0|] eqn:Ef; [|done].
        apply finish_hunk_ok in Ef as [Hok0 _]; [|done]. destruct (bool_decide _); [done|]. by injection E as <- <-.
      * destruct (hunk_line current raw); [|done]. by injection E as <- <-.
Qed.

Lemma unified_path_ok header path : unified_path header = Ok path -> path <> "" /\ path <> ".".
Proof.
  unfold unified_path. intros H. destruct (ok_or _ _) as [q|]; [|done]. destruct (_ || _) eqn:E; [done|].
  injection H as <-. bool_hyps. unfold str_is_empty in *. by bool_hyps.
Qed.

Lemma unified_lines_ok n : forall inner targets current ls targets' current',
  (length ls <= n)%nat -> targets_ok targets ->
  unified_lines inner targets current ls = Ok (targets', current') -> targets_ok targets'.
Proof.
  induction n as [|n IH]; intros inner targets current ls targets' current' Hn Hok H.
  { destruct ls; [|simpl in Hn; lia]. simpl in H. by injection H as <- <-. }
  destruct ls as [|raw ls]; [simpl in H; by injection H as <- <-|]. cbn [unified_lines] in H. cbn [length] in Hn.
  assert (Hfin : forall t0, finish_hunk targets current = Ok t0 -> targets_ok t0)
    by (intros t0 Ef; by apply finish_hunk_ok in Ef as [? _]).
  destruct (inner && _).
  - destruct (hunk_header raw).
    + destruct (finish_hunk targets current) as [t0|]; [|done]. eapply IH, H; [lia|auto].
    + destruct (hunk_line current raw); [|done]. eapply IH, H; [lia|auto].
  - destruct (starts_with "diff --git " raw).
    + destruct (finish_hunk targets current) as [t0|]; [|done]. eapply IH, H; [lia|auto].
    + destruct (ok_or (strip_prefix "--- " raw) _) as [old|]; [|done].
      destruct (finish_hunk targets current) as [t0|]; [|done]. destruct ls as [|hd ls]; [done|].
      destruct (ok_or (strip_prefix "+++ " hd) _) as [new|]; [|done].
      destruct (unified_path old) as [op|]; [|done]. destruct (unified_path new) as [np|] eqn:Ep; [|done].
      destruct (_ || _) eqn:Eb; [done|]. bool_hyps. apply unified_path_ok in Ep as [? ?].
      simpl in Hn. eapply IH, H; [lia|]. apply targets_ok_snoc; auto.
Qed.

Lemma parse_ok patch targets : parse patch = Ok targets ->
  targets_ok targets /\ targets <> [] /\ Forall (fun t => tg_hunks t <> []) targets.
Proof.
  assert (Hfin : forall t0 current, targets_ok t0 -> finish_targets t0 current = Ok targets ->
            targets_ok targets /\ targets <> [] /\ Forall (fun t => tg_hunks t <> []) targets).
  { intros t0 current Hok H. unfold finish_targets in H. destruct (finish_hunk t0 current) as [t1|] eqn:Ef; [|done].
    apply finish_hunk_ok in Ef as [Hok1 _]; [|done]. destruct (_ || _) eqn:Eb; [done|]. injection H as <-.
    apply orb_false_iff in Eb as [E1 E2]. bool_hyps. split_and!; [done..|]. rewrite existsb_false in E2.
    apply Forall_forall. intros t Ht. specialize (E2 t Ht). by bool_hyps. }
  assert (Hnil : targets_ok []) by (split; constructor).
  unfold parse. destruct (starts_with _ patch).
  - unfold parse_garive_patch. destruct (ok_or _ _) as [body|]; [|done].
    destruct (try_fold _ _ _) as [[t0 c0]|] eqn:E; [|done]. apply Hfin. by eapply garive_fold_ok.
  - unfold parse_unified_diff. destruct (unified_lines _ _ _ _) as [[t0 c0]|] eqn:E; [|done]. apply Hfin.
    by eapply unified_lines_ok.
Qed.

(** Both grammars have one error. *)
Lemma finish_hunk_err targets current e : finish_hunk targets current = Err e -> e = InvalidSyntax.
Proof.
  unfold finish_hunk, ok_or. destruct current as [h|]; [|done].
  destruct (negb _); [by intros [= <-]|]. destruct (push_hunk _ _); [done|by intros [= <-]].
Qed.
Lemma hunk_line_err current raw e : hunk_line current raw = Err e -> e = InvalidSyntax.
Proof. unfold hunk_line, patch_line, ok_or. intros H. repeat (case_match; try done); congruence. Qed.
Lemma unified_path_err header e : unified_path header = Err e -> e = InvalidSyntax.
Proof. unfold unified_path, ok_or. intros H. repeat (case_match; try done); congruence. Qed.
#[local] Hint Resolve finish_hunk_err hunk_line_err unified_path_err : garive.

Lemma garive_fold_err ls s e : try_fold garive_step s ls = Err e -> e = InvalidSyntax.
Proof.
  revert s. induction ls as [|raw ls IH]; intros s; [done|]. cbn [try_fold].
  destruct (garive_step s raw) as [s1|e1] eqn:E; [apply IH|]. intros [= ->]. unfold garive_step in E. destruct s as [t c].
  destruct (strip_prefix _ raw); [|destruct (_ =? _)%string].
  - destruct (finish_hunk t c) eqn:Ef; [by destruct (_ || _); simplify_eq|simplify_eq; eauto with garive].
  - destruct (finish_hunk t c) eqn:Ef; [by destruct (bool_decide _); simplify_eq|simplify_eq; eauto with garive].
  - destruct (hunk_line c raw) eqn:Eh; simplify_eq; eauto with garive.
Qed.

Lemma unified_lines_err n : forall inner targets current ls e,
  (length ls <= n)%nat -> unified_lines inner targets current ls = Err e -> e = InvalidSyntax.
Proof.
  induction n as [|n IH]; intros inner targets current ls e Hn H; [by destruct ls; [|simpl in Hn; lia]|].
  destruct ls as [|raw ls]; [done|]. cbn [unified_lines] in H. cbn [length] in Hn.
  destruct (inner && _); [destruct (hunk_header raw)|destruct (starts_with "diff --git " raw)].
  - destruct (finish_hunk targets current) eqn:E; [|simplify_eq; eauto with garive]. eapply IH, H. lia.
  - destruct (hunk_line current raw) eqn:E; [|simplify_eq; eauto with garive]. eapply IH, H. lia.
  - destruct (finish_hunk targets current) eqn:E; [|simplify_eq; eauto with garive]. eapply IH, H. lia.
  - destruct (strip_prefix "--- " raw); cbn [ok_or] in H; [|congruence].
    destruct (finish_hunk targets current) eqn:E; [|simplify_eq; eauto with garive].
    destruct ls as [|hd ls]; [congruence|]. cbn [length] in Hn. destruct (strip_prefix "+++ " hd); cbn [ok_or] in H; [|congruence].
    destruct (unified_path s) eqn:E1; [|simplify_eq; eauto with garive].
    destruct (unified_path s0) eqn:E2; [|simplify_eq; eauto with garive].
    destruct (_ || _); [congruence|]. eapply IH, H. lia.
Qed.

Lemma parse_err patch e : parse patch = Err e -> e = InvalidSyntax.
Proof.
  assert (Hfin : forall t c, finish_targets t c = Err e -> e = InvalidSyntax).
  { intros t c H. unfold finish_targets in H. destruct (finish_hunk t c) eqn:E; [|simplify_eq; eauto with garive].
    destruct (_ || _); congruence. }
  unfold parse. destruct (starts_with _ _).
  - unfold parse_garive_patch. destruct (value ← _; _); simpl; [|congruence].
    destruct (try_fold _ _ _) as [[t c]|e1] eqn:E; [apply Hfin|]. intros [= <-]. by eapply garive_fold_err.
  - unfold parse_unified_diff. destruct (unified_lines _ _ _ _) as [[t c]|e1] eqn:E; [apply Hfin|].
    intros [= <-]. by eapply unified_lines_err.
Qed.

(** ** Application *)

Definition marked (h : Hunk) : bool := existsb pl_no_newline h.

(** The marker may stand on the last line of the last hunk, when the hunk ends the
    content; on a line of the old content it says that the content has no final
    line feed. *)
Definition marks_ok (terminal_newline : bool) (h : Hunk) (later : list Hunk) (rest : list string) : Prop :=
  marked h = true ->
  later = [] /\ is_some_and pl_no_newline (last h) = true /\ rest = [] /\
  (existsb (fun line => pl_no_newline line && negb (is_kind Add line)) h = true -> terminal_newline = false).

(** The content is cut into kept lines and the old lines of the hunks, in order;
    the result has the new lines of each hunk in their place.  Each hunk's old
    lines occur once in what the earlier hunks left. *)
Inductive rewrites (terminal_newline : bool) : list Hunk -> list string -> list string -> Prop :=
  | rewrites_nil kept : rewrites terminal_newline [] kept kept
  | rewrites_cons kept h hs old new :
      before_lines h <> [] ->
      (forall kept' old', kept ++ before_lines h ++ old = kept' ++ before_lines h ++ old' -> kept' = kept) ->
      marks_ok terminal_newline h hs old ->
      rewrites terminal_newline hs old new ->
      rewrites terminal_newline (h :: hs) (kept ++ before_lines h ++ old) (kept ++ after_lines h ++ new).

Lemma positions_elem index before lines i : i ∈ positions index before lines <->
  exists kept rest, lines = kept ++ before ++ rest /\ i = (index + length kept)%nat.
Proof.
  revert index. induction lines as [|l lines IH]; intros index.
  - simpl. case_bool_decide as Hb.
    + rewrite list_elem_of_singleton. destruct before; [|done]. split.
      * intros ->. exists [], []. split; [done|simpl; lia].
      * intros (kept & rest & Heq & ->). destruct kept; [simpl; lia|done].
    + split; [by intros ?%elem_of_nil|]. intros (kept & rest & Heq & ->). destruct kept; [|done].
      destruct before; [done|]. simpl in Heq. done.
  - simpl.
    assert (Hhead : take (length before) (l :: lines) = before <-> exists rest, l :: lines = before ++ rest).
    { split.
      - intros E. exists (drop (length before) (l :: lines)). rewrite <-E at 1. by rewrite take_drop.
      - intros [rest ->]. by rewrite take_app_length. }
    assert (Hrest : (exists kept rest, l :: lines = kept ++ before ++ rest /\ i = (index + length kept)%nat) <->
                    (exists rest, l :: lines = before ++ rest) /\ i = index \/ i ∈ positions (S index) before lines).
    { rewrite IH. split.
      - intros (kept & rest & E & ->). destruct kept as [|k kept]; [left; split; [eauto|simpl; lia]|].
        injection E as -> ->. right. exists kept, rest. split; [done|simpl; lia].
      - intros [[[rest E] ->]|(kept & rest & -> & ->)]; [exists [], rest; split; [done|simpl; lia]|].
        exists (l :: kept), rest. split; [done|simpl; lia]. }
    rewrite Hrest. case_bool_decide as Hb; rewrite ?elem_of_cons; tauto.
Qed.

Lemma positions_nodup index before lines :
  NoDup (positions index before lines) /\ Forall (fun i => (index <= i)%nat) (positions index before lines).
Proof.
  revert index. induction lines as [|l lines IH]; intros index; simpl.
  - case_bool_decide; (split; [try apply NoDup_singleton; constructor|]); repeat constructor; lia.
  - destruct (IH (S index)) as [Hnd Hle].
    assert (Hle' : Forall (fun i => (index <= i)%nat) (positions (S index) before lines))
      by (eapply Forall_impl; [exact Hle|]; simpl; lia).
    case_bool_decide; [|done]. split; [|by constructor; [lia|]]. constructor; [|done].
    intros Hin. rewrite Forall_forall in Hle. specialize (Hle _ Hin). simpl in Hle. lia.
Qed.

(** Exactly one position. *)
Lemma positions_unique index before lines start : positions index before lines = [start] <->
  exists kept rest, lines = kept ++ before ++ rest /\ start = (index + length kept)%nat /\
    forall kept' rest', lines = kept' ++ before ++ rest' -> kept' = kept.
Proof.
  split.
  - intros E. assert (Hin : start ∈ positions index before lines) by (rewrite E; left).
    apply positions_elem in Hin as (kept & rest & -> & ->). exists kept, rest. split_and!; [done..|].
    intros kept' rest' Heq.
    assert (Hin : (index + length kept')%nat ∈ positions index before (kept ++ before ++ rest))
      by (apply positions_elem; eauto).
    rewrite E in Hin. apply list_elem_of_singleton in Hin.
    apply (f_equal (take (length kept'))) in Heq. rewrite take_app_length in Heq.
    rewrite <-Heq. replace (length kept') with (length kept) by lia. apply take_app_length.
  - intros (kept & rest & -> & -> & Hu). apply Permutation_singleton_r.
    apply NoDup_Permutation; [apply positions_nodup|apply NoDup_singleton|].
    intros i. rewrite positions_elem, list_elem_of_singleton. split.
    + intros (kept' & rest' & Heq & ->). by rewrite (Hu kept' rest' Heq).
    + intros ->. eauto.
Qed.

Definition keeps_newline (terminal_newline : bool) (hunks : list Hunk) : bool :=
  terminal_newline && negb (existsb marked hunks).

(** One hunk applied to the lines after the cursor. *)
Lemma apply_hunk_ok tn front lines b h hs s' :
  apply_hunk tn (bool_decide (hs = [])) (mkApply (front ++ lines) (length front) b) h = Ok s' <->
  exists kept old, lines = kept ++ before_lines h ++ old /\ before_lines h <> [] /\
    (forall kept' old', lines = kept' ++ before_lines h ++ old' -> kept' = kept) /\
    marks_ok tn h hs old /\
    s' = mkApply ((front ++ kept ++ after_lines h) ++ old) (length (front ++ kept ++ after_lines h))
           (if marked h then false else b).
Proof.
  unfold apply_hunk. cbn [ap_lines ap_cursor ap_terminal_newline].
  case_bool_decide as Hb; [split; [done|naive_solver]|]. rewrite drop_app_length.
  assert (Hone : forall start, positions (length front) (before_lines h) lines = [start] ->
    exists kept old, lines = kept ++ before_lines h ++ old /\
      (forall kept' old', lines = kept' ++ before_lines h ++ old' -> kept' = kept) /\
      start = length (front ++ kept) /\
      take start (front ++ lines) = front ++ kept /\
      drop (start + length (before_lines h)) (front ++ lines) = old /\
      ((start + length (before_lines h) =? length (front ++ lines))%nat = bool_decide (old = []))).
  { intros start (kept & old & -> & -> & Hu)%positions_unique. exists kept, old.
    rewrite <-length_app. split_and!; [done..| | |].
    - rewrite app_assoc. apply take_app_length.
    - rewrite (app_assoc front), (app_assoc (front ++ kept)), <-length_app. apply drop_app_length.
    - rewrite !length_app. case_bool_decide as Ho; [subst; simpl; apply Nat.eqb_eq; lia|].
      apply Nat.eqb_neq. destruct old; [done|simpl; lia]. }
  split.
  - destruct (positions _ _ _) as [|start [|]] eqn:Ep; [done| |done].
    destruct (Hone start eq_refl) as (kept & old & El & Hu & -> & -> & -> & ->). intros H.
    exists kept, old. unfold marks_ok, marked. destruct (existsb pl_no_newline h) eqn:Em; cbn [andb] in H.
    + destruct (negb _ || _ || _) eqn:E1; [done|]. bool_hyps.
      destruct (existsb _ h && tn) eqn:E2; [done|]. injection H as <-. split_and!; [done..| |].
      * intros _. split_and!; [done..|]. intros Hx. rewrite Hx in E2. by destruct tn.
      * f_equal; [by rewrite <-!app_assoc|]. rewrite !length_app. lia.
    + injection H as <-. split_and!; [done..|]. f_equal; [by rewrite <-!app_assoc|]. rewrite !length_app. lia.
  - intros (kept & old & El & _ & Hu & Hm & ->).
    assert (Ep : positions (length front) (before_lines h) lines = [length (front ++ kept)]).
    { apply positions_unique. exists kept, old. by rewrite length_app. }
    rewrite Ep. destruct (Hone _ Ep) as (kept' & old' & El' & _ & E1 & E2 & E3 & E4).
    assert (kept' = kept) as -> by (by eapply Hu).
    assert (old' = old) as ->. { rewrite El in El'. by simplify_list_eq. }
    rewrite E2, E3, E4. unfold marks_ok, marked in *. destruct (existsb pl_no_newline h).
    + destruct Hm as (-> & -> & -> & Ht); [done|]. simpl. destruct (existsb _ h); simpl; [rewrite Ht by done; simpl|];
        (f_equal; f_equal; [by rewrite <-!app_assoc|rewrite !length_app; lia]).
    + simpl. f_equal. f_equal; [by rewrite <-!app_assoc|rewrite !length_app; lia].
Qed.

Lemma keeps_newline_cons b h hs : keeps_newline (if marked h then false else b) hs = keeps_newline b (h :: hs).
Proof. unfold keeps_newline. simpl. by destruct (marked h), b. Qed.

Lemma apply_hunks_sound tn hunks front lines b s' :
  apply_hunks tn (mkApply (front ++ lines) (length front) b) hunks = Ok s' ->
  exists new, rewrites tn hunks lines new /\ ap_lines s' = front ++ new /\
    ap_terminal_newline s' = keeps_newline b hunks.
Proof.
  revert front lines b. induction hunks as [|h hs IH]; intros front lines b H; cbn [apply_hunks] in H.
  - injection H as <-. exists lines. split_and!; [constructor|done|]. unfold keeps_newline. simpl. by rewrite andb_true_r.
  - destruct (apply_hunk _ _ _ _) as [s1|] eqn:E; [|done].
    apply apply_hunk_ok in E as (kept & old & -> & Hb & Hu & Hm & ->).
    apply IH in H as (new & Hr & -> & ->). exists (kept ++ after_lines h ++ new). split_and!.
    + by constructor.
    + by rewrite <-!app_assoc.
    + apply keeps_newline_cons.
Qed.

Lemma apply_hunks_complete tn hunks front lines new b : rewrites tn hunks lines new ->
  exists n, apply_hunks tn (mkApply (front ++ lines) (length front) b) hunks =
    Ok (mkApply (front ++ new) n (keeps_newline b hunks)).
Proof.
  intros H. revert front b. induction H as [kept|kept h hs old new Hb Hu Hm Hr IH]; intros front b.
  - exists (length front). cbn. unfold keeps_newline. simpl. by rewrite andb_true_r.
  - destruct (IH (front ++ kept ++ after_lines h) (if marked h then false else b)) as [n Hn].
    exists n. cbn [apply_hunks].
    destruct (apply_hunk_ok tn front (kept ++ before_lines h ++ old) b h hs
                (mkApply ((front ++ kept ++ after_lines h) ++ old) (length (front ++ kept ++ after_lines h))
                   (if marked h then false else b))) as [_ ->].
    + rewrite Hn, keeps_newline_cons. by rewrite <-!app_assoc.
    + exists kept, old. by split_and!.
Qed.

Lemma find_target targets path t : NoDup (tg_path <$> targets) ->
  List.find (fun target => (tg_path target =? path)%string) targets = Some t <-> t ∈ targets /\ tg_path t = path.
Proof.
  intros Hnd. split.
  - intros [Hin He]%find_some. apply String.eqb_eq in He. by rewrite list_elem_of_In.
  - intros [Hin <-]. destruct (List.find _ targets) as [u|] eqn:E.
    + apply find_some in E as [Hu He]. apply String.eqb_eq in He. apply list_elem_of_In in Hu.
      f_equal. by apply (nodup_key_inj tg_path targets).
    + apply list_elem_of_In in Hin. apply (find_none _ _ E) in Hin. by rewrite String.eqb_refl in Hin.
Qed.

Lemma find_target_none targets path :
  List.find (fun target => (tg_path target =? path)%string) targets = None <-> path ∉ tg_path <$> targets.
Proof.
  split.
  - intros E (t & -> & Hin)%list_elem_of_fmap. apply list_elem_of_In in Hin.
    apply (find_none _ _ E) in Hin. by rewrite String.eqb_refl in Hin.
  - intros Hn. destruct (List.find _ targets) as [t|] eqn:E; [|done]. exfalso. apply Hn.
    apply find_some in E as [Hin He]. apply String.eqb_eq in He. apply list_elem_of_fmap. exists t.
    by rewrite list_elem_of_In.
Qed.

(** [TargetMissing] is no error of a grammar or of a hunk. *)
Lemma apply_hunks_error tn s hunks e : apply_hunks tn s hunks = Err e -> e <> TargetMissing.
Proof.
  revert s. induction hunks as [|h hs IH]; intros s; [done|]. cbn [apply_hunks].
  destruct (apply_hunk _ _ s h) as [s1|e1] eqn:E; [apply IH|]. intros [= <-]. unfold apply_hunk in E.
  destruct (bool_decide _); [congruence|]. destruct (positions _ _ _) as [|start [|]]; [congruence| |congruence].
  destruct (_ && (_ || _ || _)); [congruence|]. destruct (_ && _ && _); congruence.
Qed.

(** C10: Applying a patch to a file succeeds with a text exactly when the patch parses to a target
    of that path whose hunks rewrite the lines of the file one after the other, each at the only
    place its context matches. *)
Theorem patch_apply_exact patch path current output :
  (apply_t1_patch patch path current = Ok output <->
   exists targets t new, parse patch = Ok targets /\ t ∈ targets /\ tg_path t = path /\
     rewrites (ends_with_byte newline current) (tg_hunks t) (content_lines current) new /\
     output = join_byte newline new
              +:+ (if keeps_newline (ends_with_byte newline current) (tg_hunks t) then line_feed else "")) /\
  (apply_t1_patch patch path current = Err TargetMissing <->
   exists targets, t1_patch_targets patch = Ok targets /\ path ∉ targets).
Proof.
  unfold apply_t1_patch, t1_patch_targets. destruct (parse patch) as [targets|e] eqn:Ep; simpl.
  - destruct (parse_ok _ _ Ep) as ((Hnd & _) & _ & _). split; unfold apply_targets; split.
    + destruct (List.find _ targets) as [t|] eqn:Ef; [|done]. simpl. apply find_target in Ef as [Hin Hp]; [|done].
      destruct (apply_hunks _ _ _) as [s'|] eqn:Ea; [|done].
      apply (apply_hunks_sound _ _ []) in Ea as (new & Hr & El & Et).
      intros [= <-]. exists targets, t, new. rewrite El, Et. by split_and!.
    + intros (targets' & t & new & [= <-] & Hin & Hp & Hr & ->).
      rewrite (proj2 (find_target targets path t Hnd)) by done. simpl.
      destruct (apply_hunks_complete _ _ [] _ _ (ends_with_byte newline current) Hr) as [n Hn]. simpl in Hn.
      by rewrite Hn.
    + intros H. exists (btree_set (tg_path <$> targets)). split; [done|]. rewrite btree_set_elem.
      apply find_target_none. destruct (List.find _ targets) as [t|]; [|done]. cbn [ok_or] in H.
      destruct (apply_hunks _ _ _) as [s'|e] eqn:Ea; [done|]. injection H as ->. by apply apply_hunks_error in Ea.
    + intros (targets' & [= <-] & Hn). rewrite btree_set_elem in Hn. by rewrite (proj2 (find_target_none _ _) Hn).
  - split; split; intros H; [done|naive_solver| |naive_solver]. injection H as ->. by apply parse_err in Ep.
Qed.

(** ** The printed form *)

Definition kind_byte (k : LineKind) : ascii := match k with Context => " " | Add => "+" | Remove => "-" end%char.
Definition line_lines (l : PatchLine) : list string :=
  String (kind_byte (pl_kind l)) (pl_text l) :: (if pl_no_newline l then [NO_NEWLINE] else []).
Definition hunk_lines (h : Hunk) : list string := "@@" :: concat (line_lines <$> h).
Definition target_lines (t : Target) : list string :=
  ("*** Update File: " +:+ tg_path t) :: concat (hunk_lines <$> tg_hunks t).
Definition patch_lines (targets : list Target) : list string := concat (target_lines <$> targets).
Definition print_patch (targets : list Target) : string :=
  BEGIN_PATCH +:+ join_byte newline (patch_lines targets) +:+ END_PATCH.

Definition printable (targets : list Target) : Prop :=
  targets <> [] /\ targets_ok targets /\ Forall (fun t => tg_hunks t <> []) targets /\
  Forall (fun t => one_line (tg_path t) /\ Forall (Forall (fun l => one_line (pl_text l))) (tg_hunks t)) targets.

Lemma last_concat_cons {A} (x : A) (ls : list (list A)) (P : A -> Prop) :
  P x -> Forall (fun l => exists y, last l = Some y /\ P y) ls -> exists y, last (x :: concat ls) = Some y /\ P y.
Proof.
  intros Hx H. revert x Hx. induction H as [|l ls (y & Hy & Py) H IH]; intros x Hx; simpl; [eauto|].
  destruct (last_Some l y) as [Hsome _]. destruct (Hsome Hy) as [l' ->].
  rewrite app_comm_cons, app_comm_cons, <-app_assoc. simpl. rewrite !app_comm_cons, last_app_cons. auto.
Qed.

Definition nonempty (s : string) : Prop := s <> "".

Lemma patch_lines_last targets : targets <> [] ->
  is_some_and (fun s => negb (str_is_empty s)) (last (patch_lines targets)) = true.
Proof.
  intros Hne.
  assert (Hh : forall h : Hunk, exists y, last (hunk_lines h) = Some y /\ nonempty y).
  { intros h. apply last_concat_cons; [done|]. apply Forall_fmap, Forall_true. intros l. unfold line_lines; simpl.
    destruct (pl_no_newline l); simpl; eexists; split; try reflexivity; done. }
  assert (Ht : forall t, exists y, last (target_lines t) = Some y /\ nonempty y).
  { intros t. apply last_concat_cons; [done|]. by apply Forall_fmap, Forall_true. }
  destruct targets as [|t targets]; [done|].
  change (patch_lines (t :: targets)) with
    (("*** Update File: " +:+ tg_path t) :: concat (hunk_lines <$> tg_hunks t) ++ concat (target_lines <$> targets)).
  destruct (last_concat_cons ("*** Update File: " +:+ tg_path t)
              ((hunk_lines <$> tg_hunks t) ++ (target_lines <$> targets)) nonempty) as (z & Hz & Pz); [done| |].
  { apply Forall_app; split; by apply Forall_fmap, Forall_true. }
  rewrite concat_app in Hz. rewrite Hz. apply negb_true_iff. by apply str_is_empty_false.
Qed.

Lemma patch_lines_one targets : printable targets -> Forall one_line (patch_lines targets).
Proof.
  intros (_ & _ & _ & Hp). unfold patch_lines. apply Forall_concat, Forall_fmap. eapply Forall_impl; [exact Hp|].
  intros t [Hpath Hh]. unfold compose, target_lines. constructor.
  - repeat (apply one_line_cons; [done|done|]). done.
  - apply Forall_concat, Forall_fmap. eapply Forall_impl; [exact Hh|]. intros h Hl. unfold compose, hunk_lines.
    constructor; [by vm_compute|]. apply Forall_concat, Forall_fmap. eapply Forall_impl; [exact Hl|].
    intros l H. unfold compose, line_lines. constructor; [by apply one_line_cons; [destruct (pl_kind l)..|]|].
    destruct (pl_no_newline l); repeat constructor.
Qed.

(** Reading the printed lines back: a line, a hunk, a target, a patch. *)
Lemma mark_snoc h l : pl_no_newline l = false ->
  mark_no_newline (h ++ [l]) = Some (h ++ [mkPatchLine (pl_kind l) (pl_text l) true]).
Proof.
  intros Hl. induction h as [|a h IH]; [simpl; by rewrite Hl|].
  change (mark_no_newline ((a :: h) ++ [l])) with
    (match h ++ [l] with
     | [] => if pl_no_newline a then None else Some [mkPatchLine (pl_kind a) (pl_text a) true]
     | _ => cons a <$> mark_no_newline (h ++ [l])
     end).
  rewrite IH. by destruct h.
Qed.

Lemma fold_line targets acc l :
  try_fold garive_step (targets, Some acc) (line_lines l) = Ok (targets, Some (acc ++ [l])).
Proof.
  destruct l as [k s b]. unfold line_lines. cbn [pl_kind pl_text pl_no_newline try_fold].
  assert (garive_step (targets, Some acc) (String (kind_byte k) s) =
          Ok (targets, Some (acc ++ [mkPatchLine k s false]))) as -> by by destruct k.
  destruct b; [|done]. cbn [try_fold].
  change (garive_step (targets, Some (acc ++ [mkPatchLine k s false])) NO_NEWLINE) with
    (let? hunk := ok_or (mark_no_newline (acc ++ [mkPatchLine k s false])) InvalidSyntax in
     Ok (targets, Some hunk)).
  by rewrite mark_snoc.
Qed.

Lemma fold_lines targets acc h :
  try_fold garive_step (targets, Some acc) (concat (line_lines <$> h)) = Ok (targets, Some (acc ++ h)).
Proof.
  revert acc. induction h as [|l h IH]; intros acc; [by rewrite app_nil_r|].
  rewrite fmap_cons. cbn [concat]. rewrite try_fold_app, fold_line. cbn. rewrite IH. by rewrite <-app_assoc.
Qed.

Definition current_list (c : option Hunk) : list Hunk := match c with Some h => [h] | None => [] end.
Definition current_ok (c : option Hunk) : Prop := match c with Some h => hunk_valid h = true | None => True end.

Lemma finish_current front path hs current : current_ok current ->
  finish_hunk (front ++ [mkTarget path hs]) current = Ok (front ++ [mkTarget path (hs ++ current_list current)]).
Proof.
  destruct current as [h|]; simpl; [|by rewrite app_nil_r]. intros ->. simpl.
  apply ok_or_ok, push_hunk_some. by exists front, (mkTarget path hs).
Qed.

Lemma fold_hunks front path hs : Forall (fun h => hunk_valid h = true) hs -> forall start current, current_ok current ->
  exists prior current', try_fold garive_step (front ++ [mkTarget path start], current) (concat (hunk_lines <$> hs)) =
    Ok (front ++ [mkTarget path prior], current') /\ current_ok current' /\
    prior ++ current_list current' = start ++ current_list current ++ hs.
Proof.
  induction 1 as [|h hs Hv H IH]; intros start current Hc.
  - exists start, current. by rewrite app_nil_r.
  - rewrite fmap_cons. cbn [concat]. rewrite try_fold_app. unfold hunk_lines at 1. cbn [try_fold].
    assert (garive_step (front ++ [mkTarget path start], current) "@@" =
            Ok (front ++ [mkTarget path (start ++ current_list current)], Some [])) as ->.
    { change (garive_step (front ++ [mkTarget path start], current) "@@") with
        (let? targets := finish_hunk (front ++ [mkTarget path start]) current in
         reject InvalidSyntax when bool_decide (targets = []); Ok (targets, Some ([] : Hunk))).
      rewrite finish_current by done. rewrite bool_decide_eq_false_2; [done|]. by destruct front. }
    rewrite fold_lines, app_nil_l. cbv beta iota. destruct (IH (start ++ current_list current) (Some h)) as (prior & c & E & ? & Heq); [done|].
    exists prior, c. split_and!; [exact E|done|]. rewrite Heq. simpl. by rewrite <-app_assoc.
Qed.

Lemma fold_targets targets : Forall target_ok targets -> forall before current ready,
  finish_hunk before current = Ok ready -> NoDup (tg_path <$> (ready ++ targets)) ->
  exists after current', try_fold garive_step (before, current) (patch_lines targets) = Ok (after, current') /\
    finish_hunk after current' = Ok (ready ++ targets).
Proof.
  induction 1 as [|t targets (Hp1 & Hp2 & Hh) H IH]; intros before current ready Hf Hnd.
  - exists before, current. by rewrite app_nil_r.
  - unfold patch_lines. rewrite fmap_cons. cbn [concat]. rewrite try_fold_app. unfold target_lines at 1. cbn [try_fold].
    assert (garive_step (before, current) ("*** Update File: " +:+ tg_path t) =
            Ok (ready ++ [mkTarget (tg_path t) []], None)) as ->.
    { unfold garive_step. rewrite (proj2 (strip_prefix_some _ _ (tg_path t)) eq_refl), Hf.
      rewrite (proj2 (str_is_empty_false _) Hp1), (proj2 (String.eqb_neq _ _) Hp2).
      assert (has_target ready (tg_path t) = false) as ->; [|done].
      apply not_true_iff_false. rewrite has_target_elem. intros Hin.
      rewrite fmap_app in Hnd. apply NoDup_app in Hnd as (_ & Hd & _). apply (Hd _ Hin). left. }
    destruct (fold_hunks ready (tg_path t) (tg_hunks t) Hh [] None) as (prior & c & -> & Hc & Heq); [done|]. cbv beta iota.
    destruct (IH (ready ++ [mkTarget (tg_path t) prior]) c (ready ++ [t])) as (after & c' & Hfold & Hfin).
    + rewrite finish_current by done. rewrite Heq. by destruct t.
    + by rewrite <-app_assoc.
    + exists after, c'. unfold patch_lines in Hfold. rewrite Hfold. split; [done|]. by rewrite Hfin, <-app_assoc.
Qed.

(** Printing targets in the patch grammar and parsing the text gives them back. *)
Theorem patch_print_parse targets : printable targets -> parse (print_patch targets) = Ok targets.
Proof.
  intros Hp. pose proof (patch_lines_one _ Hp) as Hone. destruct Hp as (Hne & [Hnd Hok] & Hh & _).
  assert (Hpre : strip_prefix BEGIN_PATCH (print_patch targets) = Some (join_byte newline (patch_lines targets) +:+ END_PATCH)).
  { by apply strip_prefix_some. }
  unfold parse. rewrite starts_with_strip, Hpre. cbn [is_some]. unfold parse_garive_patch. rewrite Hpre. cbn [mbind option_bind].
  rewrite strip_suffix_app. cbn [ok_or]. rewrite lines_join; [|by destruct targets|done|by apply patch_lines_last].
  destruct (fold_targets targets Hok [] None []) as (after & c & -> & Hfin); [done|done|].
  unfold finish_targets. rewrite Hfin. cbn. rewrite (bool_decide_eq_false_2 (targets = [])) by done. cbn.
  assert (existsb (fun target => bool_decide (tg_hunks target = [])) targets = false) as ->; [|done].
  apply existsb_false. intros t Ht. rewrite Forall_forall in Hh. by apply bool_decide_eq_false_2, Hh.
Qed.

(** ** Samples *)

Module PatchSample.
Definition nl : string := line_feed.
Definition targets : list Target :=
  [mkTarget "src/a.rs" [[mkPatchLine Context "fn a() {" false; mkPatchLine Remove "  1" false;
                         mkPatchLine Add "  2" false; mkPatchLine Add "}" true]]].
Definition clear : string :=
  "--- a/f" +:+ nl +:+ "+++ b/f" +:+ nl +:+ "@@ -1 +0,0 @@" +:+ nl +:+ "-only" +:+ nl.
Definition comment : string :=
  "--- a/q.sql" +:+ nl +:+ "+++ b/q.sql" +:+ nl +:+ "@@ -1,2 +1 @@" +:+ nl +:+ "--- drop" +:+ nl +:+ " select 1" +:+ nl.
End PatchSample.

Lemma patch_print_parse_witness : parse (print_patch PatchSample.targets) = Ok PatchSample.targets.
Proof.
  apply patch_print_parse. split_and!; [done| | |].
  - split; [apply NoDup_singleton|]. repeat constructor; done.
  - by repeat constructor.
  - repeat constructor.
Defined.

(** A patch that removes every line of a file leaves a file with one empty line. *)
Theorem patch_cannot_empty_a_file :
  apply_t1_patch PatchSample.clear "f" ("only" +:+ PatchSample.nl) = Ok PatchSample.nl.
Proof. by vm_compute. Qed.

(** A unified diff that removes a line starting with two dashes and a space is
    refused: the removed line reads as a file header. *)
Theorem patch_refuses_removed_dashes :
  parse PatchSample.comment = Err InvalidSyntax.
Proof. by vm_compute. Qed.
