(* ===== verification/BuiltinTools.v ===== *)
(** * The built-in workspace and process tools ([engine/tools/src/basic_tools.rs])

    The six definitions, the resolver of their accesses and the catalogue. *)

From S2P Require Import Prelude Json ToolSchema Text Order ToolAccess ToolPrepared ToolPatch SchemaTheorems ToolTheorems.

Definition T1_TOOL_REVISION : string := "1".
Definition T1_ACCESS_RESOLVER_REVISION : string := "garive.t1.access.v1".
Definition T1_READ_TEXT : string := "garive.workspace.read_text".
Definition T1_LIST : string := "garive.workspace.list".
Definition T1_SEARCH_TEXT : string := "garive.workspace.search_text".
Definition T1_WRITE_TEXT : string := "garive.workspace.write_text".
Definition T1_APPLY_PATCH : string := "garive.workspace.apply_patch".
Definition T1_PROCESS_RUN : string := "garive.process.run".

Definition MAX_FILE_BYTES : Z := 1048576.
Definition MAX_RESULT_BYTES : Z := 2097152.
Definition MAX_PATCH_BYTES : Z := 1048576.
Definition MAX_EXPECTED_FILES : Z := 128.
Definition MAX_PROCESS_ARGUMENTS : Z := 256.
Definition MAX_ARGUMENT_BYTES : Z := 32768.
Definition MAX_PROCESS_DURATION_MS : Z := 300000.
Definition MAX_PROCESS_OUTPUT_BYTES : Z := 1048576.
Definition MAX_TRAVERSAL_NODES : Z := 10000.

(** ** Argument schemas *)

Definition json_int (n : Z) : Value := Num (if n <? 0 then NegInt n else PosInt n).
Definition text_schema (lo hi : Z) : Value :=
  json_object [("type", Str "string"); ("minLength", json_nat lo); ("maxLength", json_nat hi)].
Definition integer_schema (lo hi : Z) : Value :=
  json_object [("type", Str "integer"); ("minimum", json_int lo); ("maximum", json_int hi)].
Definition choice_schema (choices : list string) : Value :=
  json_object [("type", Str "string"); ("enum", json_strings choices)].

Definition t1_read_schema : Value :=
  json_object
    [("type", Str "object");
     ("properties", json_object [("path", text_schema 1 4096); ("max_bytes", integer_schema 1 MAX_FILE_BYTES)]);
     ("required", json_strings ["path"; "max_bytes"]);
     ("additionalProperties", Bool false)].

Definition t1_list_schema : Value :=
  json_object
    [("type", Str "object");
     ("properties", json_object
      [("path", text_schema 1 4096);
       ("max_entries", integer_schema 1 4096);
       ("include_hidden", json_object [("type", Str "boolean")]);
       ("max_nodes", integer_schema 1 MAX_TRAVERSAL_NODES)]);
     ("required", json_strings ["path"; "max_entries"; "include_hidden"; "max_nodes"]);
     ("additionalProperties", Bool false)].

Definition t1_search_schema : Value :=
  json_object
    [("type", Str "object");
     ("properties", json_object
      [("path", text_schema 1 4096);
       ("query", text_schema 1 4096);
       ("case_sensitive", json_object [("type", Str "boolean")]);
       ("max_matches", integer_schema 1 4096);
       ("max_file_bytes", integer_schema 1 MAX_FILE_BYTES);
       ("max_nodes", integer_schema 1 MAX_TRAVERSAL_NODES)]);
     ("required", json_strings ["path"; "query"; "case_sensitive"; "max_matches"; "max_file_bytes"; "max_nodes"]);
     ("additionalProperties", Bool false)].

Definition t1_write_schema : Value :=
  json_object
    [("type", Str "object");
     ("properties", json_object
      [("path", text_schema 1 4096);
       ("text", json_object [("type", Str "string"); ("maxLength", json_nat MAX_FILE_BYTES)])]);
     ("required", json_strings ["path"; "text"]);
     ("additionalProperties", Bool false)].

Definition t1_patch_schema : Value :=
  json_object
    [("type", Str "object");
     ("properties", json_object
      [("patch", json_object
        [("type", Str "string");
         ("description", Str "A standard unified diff with --- a/path, +++ b/path and @@ range @@ headers, or a Garive *** Begin Patch block.");
         ("minLength", json_nat 1);
         ("maxLength", json_nat MAX_PATCH_BYTES)]);
       ("expected_files", json_object
        [("type", Str "array");
         ("description", Str "Every patched path exactly once, bound to the SHA-256 content_digest returned by read_text.");
         ("minItems", json_nat 1);
         ("maxItems", json_nat MAX_EXPECTED_FILES);
         ("items", json_object
          [("type", Str "object");
           ("properties", json_object [("path", text_schema 1 4096); ("before_digest", text_schema 64 64)]);
           ("required", json_strings ["path"; "before_digest"]);
           ("additionalProperties", Bool false)])])]);
     ("required", json_strings ["patch"; "expected_files"]);
     ("additionalProperties", Bool false)].

Definition t1_process_schema : Value :=
  json_object
    [("type", Str "object");
     ("properties", json_object
      [("lane", text_schema 1 256);
       ("argv", json_object
        [("type", Str "array");
         ("minItems", json_nat 1);
         ("maxItems", json_nat MAX_PROCESS_ARGUMENTS);
         ("items", text_schema 1 MAX_ARGUMENT_BYTES)]);
       ("working_directory", text_schema 1 4096);
       ("workspace_mode", choice_schema ["read"; "write"]);
       ("max_output_bytes", integer_schema 1 MAX_PROCESS_OUTPUT_BYTES);
       ("timeout_ms", integer_schema 1 MAX_PROCESS_DURATION_MS)]);
     ("required", json_strings ["lane"; "argv"; "working_directory"; "workspace_mode"; "max_output_bytes"; "timeout_ms"]);
     ("additionalProperties", Bool false)].

(** ** Resolution of accesses *)

Definition text (value : Value) (field : string) : result PreparationError string :=
  ok_or (value_get field value ≫= as_str) access_error.

Definition one_file (arguments : Value) (mode : AccessMode) (root_allowed : bool)
    : result PreparationError InvocationAccessSet :=
  let? path := text arguments "path" in
  reject access_error when negb root_allowed && (path =? ".")%string;
  let? access := resource_access_new Filesystem path mode in
  access_set_new [access].

Definition process_accesses (arguments : Value) : result PreparationError InvocationAccessSet :=
  let? workspace_mode := text arguments "workspace_mode" in
  let? workspace_mode := ok_or
    (if (workspace_mode =? "read")%string then Some Read
     else if (workspace_mode =? "write")%string then Some Write else None) access_error in
  let? lane := text arguments "lane" in
  let? process := resource_access_new Process lane Exclusive in
  let? working_directory := text arguments "working_directory" in
  let? filesystem := resource_access_new Filesystem working_directory workspace_mode in
  access_set_new [process; filesystem].

Definition patch_targets (patch : string) : result PreparationError (list string) :=
  let? targets := match t1_patch_targets patch with Ok targets => Ok targets | Err _ => Err access_error end in
  try_for_each (fun path => let? _ := resource_access_new Filesystem path Write in Ok tt) targets ?;
  Ok targets.

(** A lowercase SHA-256, as this file checks it. *)
Definition lowercase_digest (digest : string) : bool :=
  (str_len digest =? 64)
  && all_bytes (fun byte => is_ascii_digit byte || (97 <=? byte_code byte) && (byte_code byte <=? 102)) digest.

Definition declare_file (declared : gset string) (value : Value) : result PreparationError (gset string) :=
  let? path := text value "path" in
  let? digest := text value "before_digest" in
  reject access_error when
    (path =? ".")%string || negb (lowercase_digest digest) || bool_decide (path ∈ declared);
  Ok ({[path]} ∪ declared).

Definition patch_accesses (arguments : Value) : result PreparationError InvocationAccessSet :=
  let? patch := text arguments "patch" in
  let? targets := patch_targets patch in
  let? expected := ok_or (value_get "expected_files" arguments ≫= as_array) access_error in
  let? declared := try_fold declare_file ∅ expected in
  reject access_error when negb (bool_decide (list_to_set targets = declared));
  let? accesses := try_map (fun path => resource_access_new Filesystem path Write) targets in
  access_set_new accesses.

Definition t1_resolve (tool_name : string) (arguments : Value) : result PreparationError InvocationAccessSet :=
  if (tool_name =? T1_READ_TEXT)%string then one_file arguments Read false
  else if (tool_name =? T1_WRITE_TEXT)%string then one_file arguments Write false
  else if (tool_name =? T1_LIST)%string || (tool_name =? T1_SEARCH_TEXT)%string then one_file arguments Read true
  else if (tool_name =? T1_APPLY_PATCH)%string then patch_accesses arguments
  else if (tool_name =? T1_PROCESS_RUN)%string then process_accesses arguments
  else Err access_error.
Definition BuiltinT1Resolver (tool_name : string) : ToolAccessResolver :=
  mkResolver T1_ACCESS_RESOLVER_REVISION (t1_resolve tool_name).

(** ** Definitions *)

Definition filesystem_sandbox (capabilities : list ExecutionCapability)
    : result PreparationError SandboxRequirementsV1 :=
  sandbox_new capabilities [FilesystemScope; SymlinkContainment; ResourceLimits] None 64.

Definition file_definition (name description : string) (schema : Value) (replay : ReplayClass)
    (capabilities : list ExecutionCapability) (modes : list AccessMode) (policy_revision : string)
    (max_duration_ms max_accesses : Z) : result PreparationError ToolDefinition :=
  let? requirements := requirements_new capabilities max_duration_ms MAX_RESULT_BYTES in
  let? entry := access_policy_entry_new "." modes in
  let? policy := access_policy_new policy_revision [entry] [] [] [] max_accesses MAX_RESULT_BYTES in
  let? sandbox := filesystem_sandbox (er_capabilities requirements) in
  definition_new_v3 name T1_TOOL_REVISION description schema requirements replay policy
    T1_ACCESS_RESOLVER_REVISION sandbox.

Definition read_definition (policy_revision : string) : result PreparationError ToolDefinition :=
  file_definition T1_READ_TEXT "Read one bounded UTF-8 workspace file." t1_read_schema ReadOnly
    [FilesystemRead] [Read] policy_revision 5000 1.
Definition list_definition (policy_revision : string) : result PreparationError ToolDefinition :=
  file_definition T1_LIST "List one workspace directory without following links." t1_list_schema ReadOnly
    [FilesystemRead] [Read] policy_revision 5000 1.
Definition search_definition (policy_revision : string) : result PreparationError ToolDefinition :=
  file_definition T1_SEARCH_TEXT "Search bounded workspace text for one literal query." t1_search_schema ReadOnly
    [FilesystemRead] [Read] policy_revision 30000 1.
Definition write_definition (policy_revision : string) : result PreparationError ToolDefinition :=
  file_definition T1_WRITE_TEXT "Create one bounded UTF-8 workspace file without overwriting." t1_write_schema
    NeverReplay [FilesystemWrite] [Write] policy_revision 5000 1.
Definition patch_definition (policy_revision : string) : result PreparationError ToolDefinition :=
  file_definition T1_APPLY_PATCH
    "Apply a standard unified diff or Garive patch to existing workspace files. Every target must include its digest from read_text."
    t1_patch_schema ReceiptRecoverable [FilesystemRead; FilesystemWrite] [Read; Write] policy_revision 30000
    MAX_EXPECTED_FILES.

Definition process_definition (policy_revision : string) (lanes : list string)
    : result PreparationError ToolDefinition :=
  let? requirements :=
    requirements_new [FilesystemRead; FilesystemWrite; CapProcess] MAX_PROCESS_DURATION_MS MAX_RESULT_BYTES in
  let? process_entries := try_map (fun lane => access_policy_entry_new lane [Exclusive]) lanes in
  let? entry := access_policy_entry_new "." [Read; Write] in
  let? policy := access_policy_new policy_revision [entry] process_entries [] [] 2 MAX_RESULT_BYTES in
  let? sandbox := sandbox_new (er_capabilities requirements)
    [FilesystemScope; SymlinkContainment; ProcessContainment; StructuredArguments; EnvironmentAllowlist;
     ResourceLimits] (Some 16) 64 in
  definition_new_v3 T1_PROCESS_RUN T1_TOOL_REVISION "Run one configured executable lane without shell parsing."
    t1_process_schema requirements NeverReplay policy T1_ACCESS_RESOLVER_REVISION sandbox.

(** ** The catalogue *)

(** A frozen set of definitions in name order, with its catalog. *)
Record BuiltinCatalogue := mkBuiltin {
  bc_definitions : list ToolDefinition;
  bc_catalog : ToolCatalog;
}.
Definition freeze_catalogue (definitions : list ToolDefinition) : result PreparationError BuiltinCatalogue :=
  let definitions := sort_by_key td_name definitions in
  let? catalog := catalog_new definitions in
  Ok (mkBuiltin definitions catalog).

Definition t1_catalogue_new (policy_revision : string) (process_lanes : list string)
    : result PreparationError BuiltinCatalogue :=
  let? d1 := read_definition policy_revision in
  let? d2 := list_definition policy_revision in
  let? d3 := search_definition policy_revision in
  let? d4 := write_definition policy_revision in
  let? d5 := patch_definition policy_revision in
  let? d6 := process_definition policy_revision process_lanes in
  freeze_catalogue [d1; d2; d3; d4; d5; d6].

Definition t1_prepare `{Externals, ArgumentReader, Jcs} (self : BuiltinCatalogue) (intent : ToolIntent)
    : result PrepareStop PreparedToolCall :=
  prepare_v3 (bc_catalog self) intent (BuiltinT1Resolver (ti_tool_name intent)).

(** ** The built-in catalogue: its construction and the accesses of its calls *)

(** ** Construction *)

Lemma definition_new_v3_fields name revision description schema requirements replay policy rr sandbox d :
  definition_new_v3 name revision description schema requirements replay policy rr sandbox = Ok d ->
  td_name d = name /\ td_access_contract d = Some (mkContract policy rr) /\ td_sandbox_requirements d = Some sandbox.
Proof.
  unfold definition_new_v3, definition_new_v2, definition_new_internal. intros H.
  destruct (validate_for _ _) as [[]|]; [|done]. destruct (_ || _ || _); [done|].
  destruct (validate_definition _) as [[]|]; [|done]. destruct (_ && _); [done|]. destruct (str_is_empty rr); [done|].
  injection H as <-. done.
Qed.

Lemma access_policy_new_fields rev fs ps ns rs ma mr policy :
  access_policy_new rev fs ps ns rs ma mr = Ok policy ->
  tap_policy_revision policy = rev /\ tap_filesystem_roots policy ≡ₚ fs /\ tap_process_lanes policy ≡ₚ ps /\
  tap_network_origins policy ≡ₚ ns /\ tap_runtime_lanes policy ≡ₚ rs /\
  tap_max_accesses policy = ma /\ tap_max_result_bytes policy = mr.
Proof.
  assert (Hp : forall n l l', policy_entries n l = Ok l' -> l' ≡ₚ l).
  { intros n l l' H. unfold policy_entries in H. destruct (_ || _); [done|]. injection H as <-. apply sort_by_key_perm. }
  unfold access_policy_new. intros H.
  destruct (policy_entries Filesystem fs) eqn:E1; [|done]. destruct (policy_entries Process ps) eqn:E2; [|done].
  destruct (policy_entries Network ns) eqn:E3; [|done]. destruct (policy_entries Runtime rs) eqn:E4; [|done].
  destruct (_ || _ || _); [done|]. injection H as <-. simpl. by split_and!; [|eapply Hp..| |].
Qed.

Lemma policy_entry_new_fields resource modes entry :
  access_policy_entry_new resource modes = Ok entry ->
  ape_resource entry = resource /\ ape_allowed_modes entry ≡ₚ modes.
Proof.
  unfold access_policy_entry_new. intros H. destruct (_ || _ || _); [done|]. injection H as <-.
  split; [done|]. apply sort_perm.
Qed.

Lemma file_definition_fields name description schema replay caps modes rev ms ma d :
  file_definition name description schema replay caps modes rev ms ma = Ok d -> td_name d = name.
Proof.
  unfold file_definition. intros H. destruct (requirements_new _ _ _); [|done].
  destruct (access_policy_entry_new _ _); [|done]. destruct (access_policy_new _ _ _ _ _ _ _); [|done].
  destruct (filesystem_sandbox _); [|done]. by apply definition_new_v3_fields in H as [? _].
Qed.

Lemma process_definition_fields rev lanes d : process_definition rev lanes = Ok d ->
  td_name d = T1_PROCESS_RUN /\
  exists contract, td_access_contract d = Some contract /\
    forall e, e ∈ tap_process_lanes (tac_policy contract) -> ape_resource e ∈ lanes.
Proof.
  unfold process_definition. intros H. destruct (requirements_new _ _ _); [|done].
  destruct (try_map _ lanes) as [es|] eqn:El; [|done]. destruct (access_policy_entry_new _ _); [|done].
  destruct (access_policy_new _ _ _ _ _ _ _) eqn:Ep; [|done]. destruct (sandbox_new _ _ _ _); [|done].
  apply definition_new_v3_fields in H as (? & Hc & _). split; [done|]. eexists. split; [done|]. intros e He. simpl in He.
  apply access_policy_new_fields in Ep as (_ & _ & Hp & _). rewrite Hp in He. apply try_map_ok in El.
  apply list_elem_of_lookup in He as [i Hi].
  destruct (Forall2_lookup_r _ _ _ _ _ El Hi) as (lane & Hl & Hn). apply policy_entry_new_fields in Hn as [-> _].
  by eapply list_elem_of_lookup_2.
Qed.

Lemma freeze_catalogue_lookup definitions cat : freeze_catalogue definitions = Ok cat ->
  forall name d, tc_definitions (bc_catalog cat) !! name = Some d <-> d ∈ definitions /\ td_name d = name.
Proof.
  unfold freeze_catalogue. intros H. destruct (catalog_new _) eqn:E; [|done]. injection H as <-. simpl.
  apply catalog_new_lookup in E as [_ Hl]. intros name d. by rewrite Hl, sort_by_key_perm.
Qed.

Lemma t1_lookup_name rev lanes cat name d : t1_catalogue_new rev lanes = Ok cat ->
  tc_definitions (bc_catalog cat) !! name = Some d -> td_name d = name.
Proof.
  unfold t1_catalogue_new. intros Hc Hd. repeat (case_match; [|done]).
  by apply (freeze_catalogue_lookup _ _ Hc) in Hd as [_ ?].
Qed.

Lemma t1_lanes rev lanes cat d : t1_catalogue_new rev lanes = Ok cat ->
  tc_definitions (bc_catalog cat) !! T1_PROCESS_RUN = Some d -> process_definition rev lanes = Ok d.
Proof.
  unfold t1_catalogue_new. intros H Hd.
  destruct (read_definition rev) as [d1|] eqn:E1; [|done]. destruct (list_definition rev) as [d2|] eqn:E2; [|done].
  destruct (search_definition rev) as [d3|] eqn:E3; [|done]. destruct (write_definition rev) as [d4|] eqn:E4; [|done].
  destruct (patch_definition rev) as [d5|] eqn:E5; [|done]. destruct (process_definition rev lanes) as [d6|] eqn:E6; [|done].
  apply (freeze_catalogue_lookup _ _ H) in Hd as [Hin Hn].
  apply file_definition_fields in E1, E2, E3, E4, E5.
  apply elem_of_cons in Hin as [->|Hin]; [by rewrite E1 in Hn|].
  apply elem_of_cons in Hin as [->|Hin]; [by rewrite E2 in Hn|].
  apply elem_of_cons in Hin as [->|Hin]; [by rewrite E3 in Hn|].
  apply elem_of_cons in Hin as [->|Hin]; [by rewrite E4 in Hn|].
  apply elem_of_cons in Hin as [->|Hin]; [by rewrite E5 in Hn|].
  by apply list_elem_of_singleton in Hin as ->.
Qed.

(** ** Accesses *)

Definition has_text (arguments : Value) (field s : string) : Prop :=
  exists v, value_get field arguments = Some v /\ as_str v = Some s.

Lemma text_ok arguments field s : text arguments field = Ok s <-> has_text arguments field s.
Proof.
  unfold text, has_text. rewrite ok_or_ok. destruct (value_get field arguments) as [v|]; simpl.
  - split; [eauto|]. by intros (? & [= <-] & ?).
  - split; [done|]. by intros (? & ? & _).
Qed.

Lemma access_new_ok n k m a : resource_access_new n k m = Ok a <-> valid_key n k = true /\ a = mkAccess n k m.
Proof.
  unfold resource_access_new. destruct (valid_key n k); simpl; [|naive_solver]. split; [by intros [= <-]|by intros [_ ->]].
Qed.

Lemma access_set_single a l : access_set_new [a] = Ok l -> l = [a].
Proof. intros [= <-]. done. Qed.

Lemma one_file_ok arguments mode root l : one_file arguments mode root = Ok l ->
  exists path, has_text arguments "path" path /\ (root = false -> path <> ".") /\ valid_key Filesystem path = true /\
    l = [mkAccess Filesystem path mode].
Proof.
  unfold one_file. destruct (text arguments "path") as [path|] eqn:Et; [|done]. apply text_ok in Et.
  destruct (negb root && _) eqn:Er; [done|]. destruct (resource_access_new _ _ _) as [a|] eqn:Ea; [|done].
  apply access_new_ok in Ea as [Hv ->]. intros ->%access_set_single. exists path. split_and!; [done| |done..].
  intros ->. simpl in Er. by bool_hyps.
Qed.

Lemma process_accesses_ok arguments l : process_accesses arguments = Ok l ->
  exists lane directory mode, has_text arguments "lane" lane /\ has_text arguments "working_directory" directory /\
    has_text arguments "workspace_mode" (mode_name mode) /\ mode <> Exclusive /\
    valid_key Filesystem directory = true /\
    l = [mkAccess Filesystem directory mode; mkAccess Process lane Exclusive].
Proof.
  unfold process_accesses. destruct (text arguments "workspace_mode") as [m|] eqn:Em; [|done]. apply text_ok in Em.
  destruct (ok_or _ _) as [mode|] eqn:Eo; [|done]. apply ok_or_ok in Eo.
  assert (m = mode_name mode /\ mode <> Exclusive) as [-> Hne].
  { destruct (m =? "read")%string eqn:E1; bool_hyps; [by injection Eo as <-|].
    destruct (m =? "write")%string eqn:E2; bool_hyps; [by injection Eo as <-|done]. }
  destruct (text arguments "lane") as [lane|] eqn:El; [|done]. apply text_ok in El.
  destruct (resource_access_new Process _ _) as [p|] eqn:Ep; [|done]. apply access_new_ok in Ep as [Hp ->].
  destruct (text arguments "working_directory") as [dir|] eqn:Ed; [|done]. apply text_ok in Ed.
  destruct (resource_access_new Filesystem _ _) as [f|] eqn:Ef; [|done]. apply access_new_ok in Ef as [Hf ->].
  intros [= <-]. by exists lane, dir, mode.
Qed.

Lemma process_accesses_valid arguments l : process_accesses arguments = Ok l ->
  Forall (fun a => valid_key (ra_namespace a) (ra_resource_key a) = true) l.
Proof.
  unfold process_accesses. destruct (text arguments "workspace_mode") as [m|]; [|done].
  destruct (ok_or _ _) as [mode|]; [|done]. destruct (text arguments "lane") as [lane|]; [|done].
  destruct (resource_access_new Process _ _) as [p|] eqn:Ep; [|done]. apply access_new_ok in Ep as [Hp ->].
  destruct (text arguments "working_directory") as [dir|]; [|done].
  destruct (resource_access_new Filesystem _ _) as [f|] eqn:Ef; [|done]. apply access_new_ok in Ef as [Hf ->].
  intros [= <-]. by repeat constructor.
Qed.

(** The paths an argument object declares, each with a digest. *)
Lemma declare_files_ok values declared0 declared : try_fold declare_file declared0 values = Ok declared ->
  exists paths, Forall2 (fun v p => has_text v "path" p /\ p <> ".") values paths /\ NoDup paths /\
    declared = list_to_set paths ∪ declared0 /\ (forall p, p ∈ paths -> p ∉ declared0).
Proof.
  revert declared0. induction values as [|v values IH]; intros declared0; cbn [try_fold].
  - intros [= <-]. exists []. split_and!; [constructor|constructor|set_solver|set_solver].
  - unfold declare_file at 1. destruct (text v "path") as [p|] eqn:Et; [|done]. apply text_ok in Et.
    destruct (text v "before_digest") as [dg|]; [|done]. destruct (_ || _ || _) eqn:Eb; [done|].
    intros (paths & Hf & Hnd & -> & Hn)%IH. bool_hyps. exists (p :: paths). split_and!.
    + by constructor.
    + constructor; [|done]. intros Hp. apply Hn in Hp. set_solver.
    + set_solver.
    + intros q [->|Hq]%elem_of_cons; [done|]. apply Hn in Hq. set_solver.
Qed.

Lemma patch_accesses_ok arguments l : patch_accesses arguments = Ok l ->
  exists patch targets, has_text arguments "patch" patch /\ t1_patch_targets patch = Ok targets /\
    l ≡ₚ (fun path => mkAccess Filesystem path Write) <$> targets /\
    (forall path, path ∈ targets -> valid_key Filesystem path = true /\ path <> ".") /\
    exists values paths, value_get "expected_files" arguments = Some (Arr values) /\
      Forall2 (fun v p => has_text v "path" p) values paths /\ paths ≡ₚ targets.
Proof.
  unfold patch_accesses. destruct (text arguments "patch") as [patch|] eqn:Et; [|done]. apply text_ok in Et.
  unfold patch_targets. destruct (t1_patch_targets patch) as [targets|] eqn:Ep; [|done].
  destruct (try_for_each _ targets) as [[]|]; [|done].
  destruct (value_get "expected_files" arguments) as [v|] eqn:Ev; [|done]. simpl.
  destruct (as_array v) as [values|] eqn:Ea; [|done]. simpl. destruct v; try done. injection Ea as ->.
  destruct (try_fold declare_file ∅ values) as [declared|] eqn:Ed; [|done].
  apply declare_files_ok in Ed as (paths & Hf & Hnd & -> & _). case_bool_decide as Hs; [|done]. simpl.
  destruct (try_map _ targets) as [as_|] eqn:Em; [|done]. apply try_map_ok in Em.
  assert (Htn : NoDup targets).
  { unfold t1_patch_targets in Ep. destruct (parse patch); [|done]. injection Ep as <-. apply btree_set_nodup. }
  assert (Hperm : paths ≡ₚ targets).
  { apply NoDup_Permutation; [done..|]. intros x. rewrite <-(elem_of_list_to_set (C:=gset string)), <-(elem_of_list_to_set (C:=gset string) x targets).
    rewrite Hs. set_solver. }
  assert (Has : as_ = (fun path => mkAccess Filesystem path Write) <$> targets).
  { clear -Em. induction Em as [|p a ps as_ Hp Em IH]; [done|]. apply access_new_ok in Hp as [_ ->]. by rewrite IH. }
  assert (Hv : forall path, path ∈ targets -> valid_key Filesystem path = true).
  { intros path [i Hi]%list_elem_of_lookup. destruct (Forall2_lookup_l _ _ _ _ _ Em Hi) as (a & _ & Hp).
    by apply access_new_ok in Hp as [? _]. }
  intros Hl. exists patch, targets. split_and!; [done..| | |].
  - unfold access_set_new in Hl. destruct (_ || _); [done|]. injection Hl as <-. rewrite sort_perm. by rewrite Has.
  - intros path Hin. split; [by apply Hv|]. rewrite <-Hperm in Hin. apply list_elem_of_lookup in Hin as [i Hi].
    by destruct (Forall2_lookup_r _ _ _ _ _ Hf Hi) as (v & _ & _ & ?).
  - exists values, paths. split_and!; [done| |done]. eapply Forall2_impl; [exact Hf|]. by intros v p [? _].
Qed.

(** What a prepared call of each tool may touch. *)
Definition t1_accesses (lanes : list string) (tool : string) (arguments : Value) (accesses : list ResourceAccess)
    : Prop :=
  (exists path, has_text arguments "path" path /\
     (tool = T1_READ_TEXT /\ path <> "." /\ accesses = [mkAccess Filesystem path Read] \/
      tool = T1_WRITE_TEXT /\ path <> "." /\ accesses = [mkAccess Filesystem path Write] \/
      (tool = T1_LIST \/ tool = T1_SEARCH_TEXT) /\ accesses = [mkAccess Filesystem path Read])) \/
  (tool = T1_APPLY_PATCH /\ exists patch targets values paths,
     has_text arguments "patch" patch /\ t1_patch_targets patch = Ok targets /\
     accesses ≡ₚ (fun path => mkAccess Filesystem path Write) <$> targets /\
     value_get "expected_files" arguments = Some (Arr values) /\
     Forall2 (fun v p => has_text v "path" p) values paths /\ paths ≡ₚ targets) \/
  (tool = T1_PROCESS_RUN /\ exists lane directory mode,
     has_text arguments "lane" lane /\ lane ∈ lanes /\ has_text arguments "working_directory" directory /\
     has_text arguments "workspace_mode" (mode_name mode) /\ mode <> Exclusive /\
     accesses = [mkAccess Filesystem directory mode; mkAccess Process lane Exclusive]).

Definition accesses_valid (accesses : list ResourceAccess) : Prop :=
  Forall (fun a => valid_key (ra_namespace a) (ra_resource_key a) = true) accesses.

(** The resolver alone gives everything but the lane's admission. *)
Lemma t1_resolve_ok tool arguments accesses : t1_resolve tool arguments = Ok accesses ->
  accesses_valid accesses /\
  forall lanes, (forall lane, mkAccess Process lane Exclusive ∈ accesses -> tool = T1_PROCESS_RUN -> lane ∈ lanes) ->
    t1_accesses lanes tool arguments accesses.
Proof.
  unfold t1_resolve, t1_accesses, accesses_valid.
  destruct (tool =? T1_READ_TEXT)%string eqn:E1; bool_hyps.
  { intros (path & Ht & Hne & Hv & ->)%one_file_ok. split; [by repeat constructor|]. intros lanes _. left.
    exists path. split; [done|]. left. auto. }
  destruct (tool =? T1_WRITE_TEXT)%string eqn:E2; bool_hyps.
  { intros (path & Ht & Hne & Hv & ->)%one_file_ok. split; [by repeat constructor|]. intros lanes _. left.
    exists path. split; [done|]. right; left. auto. }
  destruct ((tool =? T1_LIST)%string || (tool =? T1_SEARCH_TEXT)%string) eqn:E3.
  { intros (path & Ht & Hne & Hv & ->)%one_file_ok. split; [by repeat constructor|]. intros lanes _. left.
    exists path. split; [done|]. right; right. apply orb_true_iff in E3. rewrite !String.eqb_eq in E3. auto. }
  destruct (tool =? T1_APPLY_PATCH)%string eqn:E4; bool_hyps.
  { intros (patch & targets & Ht & Hp & Hl & Hv & values & paths & ? & ? & ?)%patch_accesses_ok. split.
    - rewrite Hl. apply Forall_fmap, Forall_forall. intros path Hin. by apply Hv.
    - intros lanes _. right; left. split; [done|]. by exists patch, targets, values, paths. }
  destruct (tool =? T1_PROCESS_RUN)%string eqn:E5; [|done]. bool_hyps.
  intros Hr. assert (Hlane : forall a, a ∈ accesses -> valid_key (ra_namespace a) (ra_resource_key a) = true).
  { apply process_accesses_valid in Hr. by rewrite Forall_forall in Hr. }
  apply process_accesses_ok in Hr as (lane & dir & mode & ? & ? & ? & ? & ? & ->).
  split; [by apply Forall_forall|]. intros lanes Hl. right; right. split; [done|]. exists lane, dir, mode.
  split_and!; try done. apply Hl; [right; left|done].
Qed.

Section prepared.
Context `{Externals, ArgumentReader, Jcs}.

(** A prepared call of a built-in workspace or process tool carries exactly the accesses of
    its arguments: the file it reads or writes, the files its patch changes and declares, or the
    configured lane and the working directory. *)
Theorem t1_prepare_exact_accesses policy_revision lanes catalogue intent call :
  t1_catalogue_new policy_revision lanes = Ok catalogue -> t1_prepare catalogue intent = Ok call ->
  exists arguments accesses,
    parse_arguments (ti_arguments_json intent) = Ok arguments /\
    pc_contract_version call = 3 /\ pc_tool_name call = ti_tool_name intent /\
    pc_invocation_accesses call = Some accesses /\
    accesses_valid accesses /\
    t1_accesses lanes (ti_tool_name intent) arguments accesses.
Proof.
  intros Hc Hp.
  apply prepare_v3_inv in Hp as (d & args & contract & sandbox & accesses & _ & Hd & Ha & Ec & _ & _ & Hr & Hadm & Hf).
  apply from_v3_fields in Hf as (Hver & Hname & Hacc & _). exists args, accesses.
  assert (Hn : td_name d = ti_tool_name intent) by by eapply t1_lookup_name.
  destruct (t1_resolve_ok _ _ _ Hr) as [Hv Hx]. split_and!; try done; [by rewrite Hname|].
  apply Hx. intros lane Hin Htool. rewrite Htool in Hd.
  destruct (process_definition_fields policy_revision lanes d) as (_ & contract' & Ec' & Hl); [by eapply t1_lanes|].
  rewrite Ec in Ec'. injection Ec' as <-. destruct Hadm as [[_ Hcov] _].
  destruct (Hcov _ Hin) as (entry & He & [_ Hw]). simpl in He, Hw. rewrite Hw. by apply Hl.
Qed.
End prepared.

(** ** A sample call *)

Module ToolSample.
#[export] Instance externals : Externals :=
  {| sha256_hex := fun s => "digest"; json_from_str := fun _ => None;
     parse_rfc3339 := fun _ => None; to_rfc3339 := fun _ => "" |}.
#[export] Instance reader : ArgumentReader := fun s =>
  if (s =? "read")%string then Some (RawMap [("path", RawStr "src/lib.rs"); ("max_bytes", RawU64 4096)])
  else if (s =? "run")%string then
    Some (RawMap [("lane", RawStr "cargo"); ("argv", RawSeq [RawStr "test"]); ("working_directory", RawStr ".");
                  ("workspace_mode", RawStr "write"); ("max_output_bytes", RawU64 1024); ("timeout_ms", RawU64 60000)])
  else None.
#[export] Instance canonical_json : Jcs := fun v => match encode v with Ok s => Some s | Err _ => None end.
Definition run (lane : string) : ToolIntent := mkIntent "call-1" T1_PROCESS_RUN lane.
Definition catalogue : option BuiltinCatalogue :=
  match t1_catalogue_new "p1" ["cargo"; "git"] with Ok c => Some c | Err _ => None end.
Definition definitions : list ToolDefinition := match catalogue with Some c => bc_definitions c | None => [] end.
Definition call : option PreparedToolCall :=
  match catalogue with
  | Some c => match t1_prepare c (run "run") with Ok call => Some call | Err _ => None end
  | None => None
  end.
End ToolSample.
#[local] Existing Instances ToolSample.externals ToolSample.reader ToolSample.canonical_json.

Lemma t1_prepare_exact_accesses_witness :
  exists call arguments accesses, ToolSample.call = Some call /\ pc_invocation_accesses call = Some accesses /\
    t1_accesses ["cargo"; "git"] T1_PROCESS_RUN arguments accesses.
Proof.
  destruct (t1_catalogue_new "p1" ["cargo"; "git"]) as [c|] eqn:Ec; [|by vm_compute in Ec].
  destruct (t1_prepare c (ToolSample.run "run")) as [call|] eqn:Ep.
  - destruct (t1_prepare_exact_accesses "p1" ["cargo"; "git"] c (ToolSample.run "run") call Ec Ep)
      as (arguments & accesses & _ & _ & _ & Hacc & _ & Ht).
    exists call, arguments, accesses. split_and!; [|done|done].
    unfold ToolSample.call, ToolSample.catalogue. by rewrite Ec, Ep.
  - exfalso. vm_compute in Ec. injection Ec as <-. vm_compute in Ep. discriminate.
Defined.

Lemma t1_definition_ok rev lanes cat : t1_catalogue_new rev lanes = Ok cat ->
  Forall definition_ok (bc_definitions cat) /\ catalog_new (bc_definitions cat) = Ok (bc_catalog cat).
Proof.
  assert (Hfile : forall name description schema replay caps modes rev ms ma d,
    file_definition name description schema replay caps modes rev ms ma = Ok d -> definition_ok d).
  { intros * H. unfold file_definition in H. destruct (requirements_new _ _ _); [|done].
    destruct (access_policy_entry_new _ _); [|done]. destruct (access_policy_new _ _ _ _ _ _ _); [|done].
    destruct (filesystem_sandbox _); [|done]. by eapply definition_new_v3_ok. }
  assert (Hproc : forall d, process_definition rev lanes = Ok d -> definition_ok d).
  { intros d H. unfold process_definition in H. destruct (requirements_new _ _ _); [|done].
    destruct (try_map _ lanes); [|done]. destruct (access_policy_entry_new _ _); [|done].
    destruct (access_policy_new _ _ _ _ _ _ _); [|done]. destruct (sandbox_new _ _ _ _); [|done].
    by eapply definition_new_v3_ok. }
  unfold t1_catalogue_new. intros H.
  destruct (read_definition rev) as [d1|] eqn:E1; [|done]. destruct (list_definition rev) as [d2|] eqn:E2; [|done].
  destruct (search_definition rev) as [d3|] eqn:E3; [|done]. destruct (write_definition rev) as [d4|] eqn:E4; [|done].
  destruct (patch_definition rev) as [d5|] eqn:E5; [|done]. destruct (process_definition rev lanes) as [d6|] eqn:E6; [|done].
  unfold freeze_catalogue in H. destruct (catalog_new _) as [c|] eqn:Ec; [|done]. injection H as <-. simpl.
  split; [|done]. rewrite sort_by_key_perm. apply Forall_forall. intros d Hin.
  repeat (apply elem_of_cons in Hin as [->|Hin]; [eauto|]). by apply elem_of_nil in Hin.
Qed.

Lemma prepare_v3_exact_witness :
  exists d, d ∈ ToolSample.definitions /\ td_name d = T1_PROCESS_RUN /\ is_some (td_access_contract d) = true.
Proof.
  destruct (t1_catalogue_new "p1" ["cargo"; "git"]) as [c|] eqn:Ec; [|by vm_compute in Ec].
  destruct (t1_definition_ok _ _ _ Ec) as [Hok Hc].
  destruct (prepare_v3_exact (bc_definitions c) (bc_catalog c) (ToolSample.run "run") (BuiltinT1Resolver T1_PROCESS_RUN) Hc Hok)
    as [Hx _].
  destruct (prepare_v3 (bc_catalog c) (ToolSample.run "run") (BuiltinT1Resolver T1_PROCESS_RUN)) as [call|] eqn:Ep.
  - destruct (proj1 (Hx call) eq_refl) as (d & _ & contract & _ & _ & _ & _ & Hin & Hn & _ & _ & Hcon & _).
    exists d. split_and!; [|done|by rewrite Hcon].
    unfold ToolSample.definitions, ToolSample.catalogue. by rewrite Ec.
  - exfalso. clear Hx Hok Hc. vm_compute in Ec. injection Ec as <-. vm_compute in Ep. discriminate.
Defined.

(** A lane outside the catalogue is refused by the policy. *)
Example t1_unknown_lane_refused :
  match t1_catalogue_new "p1" ["git"] with
  | Ok c => t1_prepare c (ToolSample.run "run") = Err (Refused access_error)
  | Err _ => False
  end.
Proof. by vm_compute. Qed.
