(* ===== verification/AutomationTools.v ===== *)
(** * The built-in browser and computer tools ([engine/tools/src/browser_tools.rs], [computer_tools.rs])

    Page and origin scopes, the three definitions, the resolver of their accesses
    and the catalogue.  The [url] crate's parser is a parameter. *)

From S2P Require Import Prelude Json ToolSchema Text Order ToolAccess ToolPrepared BuiltinTools ToolTheorems.

Definition T2_BROWSER_TOOL_REVISION : string := "1".
Definition T2_BROWSER_RESOLVER_REVISION : string := "garive.t2.browser.access.v1".
Definition T2_BROWSER_OBSERVE : string := "garive.browser.observe".
Definition T2_BROWSER_NAVIGATE : string := "garive.browser.navigate".
Definition T2_BROWSER_ACT : string := "garive.browser.act".

(** ** URLs *)

Inductive UrlHost := HostDomain (host : string) | HostIpv4 (octets : list Z) | HostIpv6 (segments : list Z).
Record ParsedUrl := mkUrl {
  url_scheme : string;
  url_username : string;
  url_password : option string;
  url_port_or_known_default : option Z;
  url_host : option UrlHost;
}.
(** [url::Url::parse] with the accessors the code reads. *)
Class UrlReader := url_parse : string -> option ParsedUrl.

(** What stands before and after the first occurrence of a text. *)
Fixpoint split_text (needle s : string) : option (string * string) :=
  match strip_prefix needle s with
  | Some rest => Some ("", rest)
  | None =>
      match s with
      | EmptyString => None
      | String c s => match split_text needle s with Some (a, b) => Some (String c a, b) | None => None end
      end
  end.

(** [split([..]).next()]: up to the first of the bytes. *)
Fixpoint until_bytes (stops : list ascii) (s : string) : string :=
  match s with
  | EmptyString => ""
  | String c s => if existsb (Ascii.eqb c) stops then "" else String c (until_bytes stops s)
  end.

Definition host_text (host : UrlHost) : string :=
  match host with
  | HostDomain host => host
  | HostIpv4 octets => ipv4_to_string octets
  | HostIpv6 segments => "[" +:+ ipv6_to_string segments +:+ "]"
  end.

Definition port_text (authority : string) : option string :=
  if starts_with "[" authority then
    match split_once "]" authority with Some (_, after) => strip_prefix ":" after | None => None end
  else match rsplit_once colon authority with Some (_, port) => Some port | None => None end.

Definition canonical_http_origin `{UrlReader} (value : string) : option string :=
  match split_text "://" value with
  | None => None
  | Some (_, after) =>
      parsed ← url_parse value;
      if negb ((url_scheme parsed =? "http")%string || (url_scheme parsed =? "https")%string)
         || negb (str_is_empty (url_username parsed)) || is_some (url_password parsed) then None
      else
        port_text ← port_text (until_bytes ["/"; "?"; "#"]%char after);
        if str_is_empty port_text || negb (all_bytes is_ascii_digit port_text) then None
        else
          port ← parse_u16 port_text;
          if negb (0 <? port) then None
          else if negb (bool_decide (url_port_or_known_default parsed = Some port)) then None
          else
            host ← url_host parsed;
            let origin := url_scheme parsed +:+ "://" +:+ host_text host +:+ ":" +:+ nat_to_string port in
            if str_len origin <=? 512 then Some origin else None
  end.

(** ** Scopes *)

Definition token (value : string) : bool :=
  negb (str_is_empty value) && (str_len value <=? 128)
  && all_bytes (fun byte => is_ascii_alphanumeric byte || Ascii.eqb byte "-" || Ascii.eqb byte "_"
                            || Ascii.eqb byte dot) value.

Record BrowserPageScope := mkPage {
  bp_session_id : string;
  bp_page_id : string;
}.
Definition page_scope_new (session_id page_id : string) : result PreparationError BrowserPageScope :=
  reject access_error when negb (token session_id) || negb (token page_id);
  Ok (mkPage session_id page_id).
Definition page_resource_key (self : BrowserPageScope) : string :=
  "browser:" +:+ bp_session_id self +:+ ":" +:+ bp_page_id self.

(** ** Argument schemas *)

Definition browser_observe_schema : Value :=
  json_object
    [("type", Str "object");
     ("properties", json_object
      [("session_id", text_schema 1 128);
       ("page_id", text_schema 1 128);
       ("expected_previous_snapshot_id", text_schema 1 128);
       ("max_nodes", integer_schema 1 10000);
       ("max_text_bytes", integer_schema 1 1048576)]);
     ("required", json_strings ["session_id"; "page_id"; "max_nodes"; "max_text_bytes"]);
     ("additionalProperties", Bool false)].

Definition browser_navigate_schema : Value :=
  json_object
    [("type", Str "object");
     ("properties", json_object
      [("session_id", text_schema 1 128);
       ("page_id", text_schema 1 128);
       ("expected_snapshot_id", text_schema 1 128);
       ("target_revision", text_schema 1 128);
       ("destination_url", text_schema 1 8192);
       ("destination_origin", text_schema 10 512);
       ("wait_until", choice_schema ["dom_content_loaded"; "load"; "network_idle"]);
       ("timeout_ms", integer_schema 1 120000);
       ("max_nodes", integer_schema 1 10000);
       ("max_text_bytes", integer_schema 1 1048576)]);
     ("required", json_strings
        ["session_id"; "page_id"; "expected_snapshot_id"; "target_revision";
         "destination_url"; "destination_origin"; "wait_until"; "timeout_ms"; "max_nodes";
         "max_text_bytes"]);
     ("additionalProperties", Bool false)].

Definition browser_act_schema : Value :=
  json_object
    [("type", Str "object");
     ("properties", json_object
      [("session_id", text_schema 1 128);
       ("page_id", text_schema 1 128);
       ("expected_snapshot_id", text_schema 1 128);
       ("target_revision", text_schema 1 128);
       ("action", choice_schema ["click"; "type_text"; "clear"; "select_option"; "press_key"; "scroll"; "go_back"; "go_forward"; "reload"]);
       ("node_ref", text_schema 1 128);
       ("text", json_object [("type", Str "string"); ("maxLength", json_nat 32768)]);
       ("option", text_schema 1 4096);
       ("key", choice_schema ["enter"; "tab"; "escape"; "backspace"; "delete"; "arrow_up"; "arrow_down"; "arrow_left"; "arrow_right"; "home"; "end"; "page_up"; "page_down"; "space"]);
       ("delta_x", integer_schema (-100000) 100000);
       ("delta_y", integer_schema (-100000) 100000);
       ("allowed_navigation_origins", json_object [("type", Str "array"); ("maxItems", json_nat 16); ("items", text_schema 10 512)])]);
     ("required", json_strings
        ["session_id"; "page_id"; "expected_snapshot_id"; "target_revision"; "action";
         "allowed_navigation_origins"]);
     ("additionalProperties", Bool false)].

(** ** Resolution of accesses *)

Definition as_i64 (v : Value) : option Z :=
  match v with
  | Num (PosInt n) => if n <=? i64_max then Some n else None
  | Num (NegInt n) => Some n
  | _ => None
  end.
Definition string_array (value : Value) (field : string) : result PreparationError (list string) :=
  let? values := ok_or (value_get field value ≫= as_array) access_error in
  try_map (fun value => ok_or (as_str value) access_error) values.
Definition integer (value : Value) (field : string) : result PreparationError Z :=
  ok_or (value_get field value ≫= as_i64) access_error.

Definition browser_validate_action (arguments : Value) : result PreparationError unit :=
  let present name := is_some (value_get name arguments) in
  let only fields :=
    forallb (fun name => Bool.eqb (present name) (contains fields name))
      ["node_ref"; "text"; "option"; "key"; "delta_x"; "delta_y"] in
  let? action := text arguments "action" in
  let? valid :=
    if (action =? "click")%string || (action =? "clear")%string then Ok (only ["node_ref"])
    else if (action =? "type_text")%string then Ok (only ["node_ref"; "text"])
    else if (action =? "select_option")%string then Ok (only ["node_ref"; "option"])
    else if (action =? "press_key")%string then Ok (only ["key"])
    else if (action =? "scroll")%string then
      if present "delta_x" && present "delta_y" then
        let? delta_x := integer arguments "delta_x" in
        let? moved := if negb (delta_x =? 0) then Ok true
                      else let? delta_y := integer arguments "delta_y" in Ok (negb (delta_y =? 0)) in
        Ok (moved && only ["delta_x"; "delta_y"])
      else Ok false
    else if (action =? "go_back")%string || (action =? "go_forward")%string || (action =? "reload")%string then
      Ok (only [])
    else Ok false in
  reject access_error when negb valid;
  Ok tt.

Section browser.
Context `{UrlReader}.

Definition browser_resolve (tool_name : string) (arguments : Value)
    : result PreparationError InvocationAccessSet :=
  let? session_id := text arguments "session_id" in
  let? page_id := text arguments "page_id" in
  let? page := page_scope_new session_id page_id in
  let mode := if (tool_name =? T2_BROWSER_OBSERVE)%string then Read else Write in
  let? access := resource_access_new Runtime (page_resource_key page) mode in
  if (tool_name =? T2_BROWSER_OBSERVE)%string then access_set_new [access]
  else if (tool_name =? T2_BROWSER_NAVIGATE)%string then
    let? origin := text arguments "destination_origin" in
    let? url := text arguments "destination_url" in
    reject access_error when negb (bool_decide (canonical_http_origin url = Some origin));
    let? network := resource_access_new Network origin Write in
    access_set_new [access; network]
  else if (tool_name =? T2_BROWSER_ACT)%string then
    browser_validate_action arguments ?;
    let? origins := string_array arguments "allowed_navigation_origins" in
    let? networks := try_map (fun origin => resource_access_new Network origin Write) origins in
    access_set_new (access :: networks)
  else Err access_error.
Definition BrowserResolver (tool_name : string) : ToolAccessResolver :=
  mkResolver T2_BROWSER_RESOLVER_REVISION (browser_resolve tool_name).

(** ** Definitions and the catalogue *)

Definition browser_definition (name description : string) (schema : Value)
    (capabilities : list ExecutionCapability) (replay : ReplayClass) (pages : list BrowserPageScope)
    (origins : list string) (page_mode : AccessMode) (policy : string) : result PreparationError ToolDefinition :=
  let observe := (name =? T2_BROWSER_OBSERVE)%string in
  let? requirements := requirements_new capabilities (if observe then 30000 else 120000) MAX_RESULT_BYTES in
  let controls :=
    if has capabilities CapNetwork
    then [NetworkOriginScope; RedirectRevalidation; BrowserSessionScope; SnapshotBinding; ResourceLimits]
    else [BrowserSessionScope; SnapshotBinding; ResourceLimits] in
  let? origin_entries := try_map (fun origin => access_policy_entry_new origin [Write]) origins in
  let? page_entries := try_map (fun page => access_policy_entry_new (page_resource_key page) [page_mode]) pages in
  let? access_policy := access_policy_new policy [] [] origin_entries page_entries
    (if observe then 1 else 17) MAX_RESULT_BYTES in
  let? sandbox := sandbox_new (er_capabilities requirements) controls None 64 in
  definition_new_v3 name T2_BROWSER_TOOL_REVISION description schema requirements replay access_policy
    T2_BROWSER_RESOLVER_REVISION sandbox.

Definition browser_observe_definition (policy : string) (pages : list BrowserPageScope) :=
  browser_definition T2_BROWSER_OBSERVE "Observe one bounded browser semantic tree." browser_observe_schema
    [BrowserObserve] ReadOnly pages [] Read policy.
Definition browser_navigate_definition (policy : string) (pages : list BrowserPageScope) (origins : list string) :=
  browser_definition T2_BROWSER_NAVIGATE "Navigate one browser page to an exact admitted origin."
    browser_navigate_schema [BrowserAct; CapNetwork] NeverReplay pages origins Write policy.
Definition browser_act_definition (policy : string) (pages : list BrowserPageScope) (origins : list string) :=
  browser_definition T2_BROWSER_ACT "Perform one snapshot-bound semantic browser action." browser_act_schema
    [BrowserAct; CapNetwork] NeverReplay pages origins Write policy.

Definition browser_catalogue_new (policy_revision : string) (pages : list BrowserPageScope) (origins : list string)
    : result PreparationError BuiltinCatalogue :=
  reject access_error when
    existsb (fun origin => negb (bool_decide (canonical_http_origin origin = Some origin))) origins;
  let? d1 := browser_observe_definition policy_revision pages in
  let? d2 := browser_navigate_definition policy_revision pages origins in
  let? d3 := browser_act_definition policy_revision pages origins in
  freeze_catalogue [d1; d2; d3].

Definition browser_prepare `{Externals, ArgumentReader, Jcs} (self : BuiltinCatalogue) (intent : ToolIntent)
    : result PrepareStop PreparedToolCall :=
  prepare_v3 (bc_catalog self) intent (BrowserResolver (ti_tool_name intent)).
End browser.

(** ** The built-in computer-use tools ([engine/tools/src/computer_tools.rs])

    Window scopes, the two definitions, the check of an action's fields and
    coordinates, the resolver and the catalogue. *)

Definition T2_COMPUTER_TOOL_REVISION : string := "1".
Definition T2_COMPUTER_RESOLVER_REVISION : string := "garive.t2.computer.access.v1".
Definition T2_COMPUTER_OBSERVE : string := "garive.computer.observe".
Definition T2_COMPUTER_ACT : string := "garive.computer.act".

Record ComputerTargetScope := mkComputerTarget {
  ct_desktop_session_id : string;
  ct_application_id : string;
  ct_window_id : string;
}.
Definition target_scope_new (desktop_session_id application_id window_id : string)
    : result PreparationError ComputerTargetScope :=
  reject access_error when negb (token desktop_session_id) || negb (token application_id) || negb (token window_id);
  Ok (mkComputerTarget desktop_session_id application_id window_id).
Definition target_resource_key (self : ComputerTargetScope) : string :=
  "computer:" +:+ ct_desktop_session_id self +:+ ":" +:+ ct_application_id self +:+ ":" +:+ ct_window_id self.

(** ** Argument schemas *)

Definition computer_observe_schema : Value :=
  json_object
    [("type", Str "object");
     ("properties", json_object
      [("desktop_session_id", text_schema 1 128);
       ("application_id", text_schema 1 128);
       ("window_id", text_schema 1 128);
       ("expected_previous_snapshot_id", text_schema 1 128);
       ("max_nodes", integer_schema 1 10000);
       ("max_text_bytes", integer_schema 1 1048576);
       ("capture", choice_schema ["none"; "window"]);
       ("max_capture_bytes", integer_schema 1 8388608);
       ("max_capture_pixels", integer_schema 1 16777216)]);
     ("required", json_strings
        ["desktop_session_id"; "application_id"; "window_id"; "max_nodes"; "max_text_bytes";
         "capture"; "max_capture_bytes"; "max_capture_pixels"]);
     ("additionalProperties", Bool false)].

Definition computer_act_schema : Value :=
  json_object
    [("type", Str "object");
     ("properties", json_object
      [("desktop_session_id", text_schema 1 128);
       ("application_id", text_schema 1 128);
       ("window_id", text_schema 1 128);
       ("expected_snapshot_id", text_schema 1 128);
       ("target_revision", text_schema 1 128);
       ("action", choice_schema ["press"; "set_value"; "type_text"; "press_key"; "scroll"; "move_pointer"; "click_point"; "drag"]);
       ("node_ref", text_schema 1 128);
       ("value", json_object [("type", Str "string"); ("maxLength", json_nat 32768)]);
       ("text", json_object [("type", Str "string"); ("maxLength", json_nat 32768)]);
       ("key", choice_schema ["enter"; "tab"; "escape"; "backspace"; "delete"; "arrow_up"; "arrow_down"; "arrow_left"; "arrow_right"; "home"; "end"; "page_up"; "page_down"; "space"]);
       ("delta_x", integer_schema (-100000) 100000);
       ("delta_y", integer_schema (-100000) 100000);
       ("display_id", text_schema 1 128);
       ("point_x", integer_schema 0 1000000);
       ("point_y", integer_schema 0 1000000);
       ("start_x", integer_schema 0 1000000);
       ("start_y", integer_schema 0 1000000);
       ("end_x", integer_schema 0 1000000);
       ("end_y", integer_schema 0 1000000);
       ("snapshot_pixel_width", integer_schema 1 32768);
       ("snapshot_pixel_height", integer_schema 1 32768);
       ("scale_milli", integer_schema 1000 8000);
       ("visible_frame_x", integer_schema 0 1000000);
       ("visible_frame_y", integer_schema 0 1000000);
       ("visible_frame_width", integer_schema 1 32768);
       ("visible_frame_height", integer_schema 1 32768)]);
     ("required", json_strings
        ["desktop_session_id"; "application_id"; "window_id"; "expected_snapshot_id";
         "target_revision"; "action"]);
     ("additionalProperties", Bool false)].

(** ** The fields and coordinates of an action *)

Definition DETAIL_FIELDS : list string :=
  ["node_ref"; "value"; "text"; "key"; "delta_x"; "delta_y"; "display_id"; "point_x"; "point_y"; "start_x";
   "start_y"; "end_x"; "end_y"; "snapshot_pixel_width"; "snapshot_pixel_height"; "scale_milli"; "visible_frame_x";
   "visible_frame_y"; "visible_frame_width"; "visible_frame_height"].
Definition GEOMETRY_FIELDS : list string :=
  ["display_id"; "snapshot_pixel_width"; "snapshot_pixel_height"; "scale_milli"; "visible_frame_x";
   "visible_frame_y"; "visible_frame_width"; "visible_frame_height"].

Definition present (object : Map) (field : string) : bool := contains_key object field.
Definition absent (object : Map) (fields : list string) : bool := forallb (fun field => negb (present object field)) fields.
Definition map_integer (object : Map) (field : string) : result PreparationError Z :=
  ok_or (map_get field object ≫= as_i64) access_error.

Definition checked_add_i64 (a b : Z) : option Z := i64_try_from (a + b).

(** [and_then a b]: the short-circuit [a && b?]. *)
Definition and_then {E} (a : bool) (b : result E bool) : result E bool := if a then b else Ok false.

Definition semantic_scroll (object : Map) : result PreparationError bool :=
  and_then (present object "node_ref" && present object "delta_x" && present object "delta_y")
    (let? delta_x := map_integer object "delta_x" in
     let? moved := if negb (delta_x =? 0) then Ok true
                   else let? delta_y := map_integer object "delta_y" in Ok (negb (delta_y =? 0)) in
     Ok (moved && absent object ["value"; "text"; "key"] && absent object (drop 6 DETAIL_FIELDS))).

Definition geometry_valid (object : Map) : result PreparationError bool :=
  let? width := map_integer object "snapshot_pixel_width" in
  let? height := map_integer object "snapshot_pixel_height" in
  let? x := map_integer object "visible_frame_x" in
  let? y := map_integer object "visible_frame_y" in
  let? frame_width := map_integer object "visible_frame_width" in
  let? frame_height := map_integer object "visible_frame_height" in
  let display := is_some_and token (map_get "display_id" object ≫= as_str) in
  Ok (display && is_some_and (fun stop => stop <=? width) (checked_add_i64 x frame_width)
      && is_some_and (fun stop => stop <=? height) (checked_add_i64 y frame_height)).

Definition point_inside (object : Map) (x y : Z) : result PreparationError bool :=
  let? frame_left := map_integer object "visible_frame_x" in
  let? frame_top := map_integer object "visible_frame_y" in
  let? frame_width := map_integer object "visible_frame_width" in
  let? frame_right := ok_or (checked_add_i64 frame_left frame_width) access_error in
  let? frame_height := map_integer object "visible_frame_height" in
  let? frame_bottom := ok_or (checked_add_i64 frame_top frame_height) access_error in
  Ok ((frame_left <=? x) && (x <? frame_right) && (frame_top <=? y) && (y <? frame_bottom)).

Definition point_action (object : Map) : result PreparationError bool :=
  and_then (forallb (present object) GEOMETRY_FIELDS && present object "point_x" && present object "point_y"
            && absent object ["node_ref"; "value"; "text"; "key"; "delta_x"; "delta_y"]
            && absent object ["start_x"; "start_y"; "end_x"; "end_y"])
    (let? geometry := geometry_valid object in
     and_then geometry
       (let? x := map_integer object "point_x" in
        let? y := map_integer object "point_y" in
        point_inside object x y)).

Definition drag_action (object : Map) : result PreparationError bool :=
  let? start_x := map_integer object "start_x" in
  let? start_y := map_integer object "start_y" in
  let? end_x := map_integer object "end_x" in
  let? end_y := map_integer object "end_y" in
  and_then (forallb (present object) GEOMETRY_FIELDS
            && forallb (present object) ["start_x"; "start_y"; "end_x"; "end_y"]
            && absent object ["node_ref"; "value"; "text"; "key"; "delta_x"; "delta_y"]
            && absent object ["point_x"; "point_y"]
            && (negb (start_x =? end_x) || negb (start_y =? end_y)))
    (let? geometry := geometry_valid object in
     and_then geometry
       (let? start := point_inside object start_x start_y in
        and_then start (point_inside object end_x end_y))).

Definition computer_validate_action (arguments : Value) : result PreparationError unit :=
  let? object := ok_or (as_object arguments) access_error in
  let? action := text arguments "action" in
  let? valid :=
    if (action =? "press")%string then Ok (present object "node_ref" && absent object (drop 1 DETAIL_FIELDS))
    else if (action =? "set_value")%string then
      Ok (present object "node_ref" && present object "value" && absent object (drop 2 DETAIL_FIELDS))
    else if (action =? "type_text")%string then
      Ok (present object "node_ref" && present object "text" && negb (present object "value")
          && absent object (drop 3 DETAIL_FIELDS))
    else if (action =? "press_key")%string then
      Ok (present object "key" && negb (present object "node_ref") && absent object ["value"; "text"]
          && absent object (drop 4 DETAIL_FIELDS))
    else if (action =? "scroll")%string then semantic_scroll object
    else if (action =? "move_pointer")%string || (action =? "click_point")%string then point_action object
    else if (action =? "drag")%string then drag_action object
    else Ok false in
  reject access_error when negb valid;
  Ok tt.

(** ** Resolution, definitions and the catalogue *)

Definition computer_resolve (tool_name : string) (arguments : Value)
    : result PreparationError InvocationAccessSet :=
  let? desktop_session_id := text arguments "desktop_session_id" in
  let? application_id := text arguments "application_id" in
  let? window_id := text arguments "window_id" in
  let? target := target_scope_new desktop_session_id application_id window_id in
  let? mode :=
    if (tool_name =? T2_COMPUTER_OBSERVE)%string then Ok Read
    else if (tool_name =? T2_COMPUTER_ACT)%string then computer_validate_action arguments ?; Ok Write
    else Err access_error in
  let? access := resource_access_new Runtime (target_resource_key target) mode in
  access_set_new [access].
Definition ComputerResolver (tool_name : string) : ToolAccessResolver :=
  mkResolver T2_COMPUTER_RESOLVER_REVISION (computer_resolve tool_name).

Definition computer_definition (name description : string) (schema : Value) (capability : ExecutionCapability)
    (replay : ReplayClass) (mode : AccessMode) (policy : string) (targets : list ComputerTargetScope)
    : result PreparationError ToolDefinition :=
  let? requirements := requirements_new [capability] 30000 MAX_RESULT_BYTES in
  let controls :=
    [NativeTargetScope; SnapshotBinding; ScreenCaptureScope; ResourceLimits]
    ++ (if bool_decide (capability = ComputerAct) then [FocusRevalidation] else []) in
  let? entries := try_map (fun target => access_policy_entry_new (target_resource_key target) [mode]) targets in
  let? access_policy := access_policy_new policy [] [] [] entries 1 MAX_RESULT_BYTES in
  let? sandbox := sandbox_new (er_capabilities requirements) controls None 64 in
  definition_new_v3 name T2_COMPUTER_TOOL_REVISION description schema requirements replay access_policy
    T2_COMPUTER_RESOLVER_REVISION sandbox.

Definition computer_observe_definition (policy : string) (targets : list ComputerTargetScope) :=
  computer_definition T2_COMPUTER_OBSERVE
    "Observe one bounded native accessibility tree and optional window capture." computer_observe_schema
    ComputerObserve ReadOnly Read policy targets.
Definition computer_act_definition (policy : string) (targets : list ComputerTargetScope) :=
  computer_definition T2_COMPUTER_ACT
    "Perform one exact snapshot-bound native semantic or coordinate action." computer_act_schema
    ComputerAct NeverReplay Write policy targets.

Definition computer_catalogue_new (policy_revision : string) (targets : list ComputerTargetScope)
    : result PreparationError BuiltinCatalogue :=
  let? d1 := computer_observe_definition policy_revision targets in
  let? d2 := computer_act_definition policy_revision targets in
  freeze_catalogue [d1; d2].

Definition computer_prepare `{Externals, ArgumentReader, Jcs} (self : BuiltinCatalogue) (intent : ToolIntent)
    : result PrepareStop PreparedToolCall :=
  prepare_v3 (bc_catalog self) intent (ComputerResolver (ti_tool_name intent)).

(** ** The browser and computer catalogues: a prepared call stays in its scope *)

(** ** Keys *)

Lemma all_bytes_no_byte (f : ascii -> bool) c s : f c = false -> all_bytes f s = true -> contains_byte c s = false.
Proof.
  intros Hc. induction s as [|d s IH]; [done|]. intros [Hd Hs]%andb_true_iff.
  change (Ascii.eqb c d || contains_byte c s = false). rewrite IH by done. rewrite orb_false_r.
  apply Ascii.eqb_neq. intros ->. congruence.
Qed.

Lemma token_no_colon s : token s = true -> contains_byte colon s = false.
Proof. unfold token. intros [_ H]%andb_true_iff. eapply all_bytes_no_byte; [|exact H]. done. Qed.

Definition page_ok (page : BrowserPageScope) : Prop :=
  token (bp_session_id page) = true /\ token (bp_page_id page) = true.

Lemma page_key_split page : page_ok page ->
  split_byte colon (page_resource_key page) = ["browser"; bp_session_id page; bp_page_id page].
Proof.
  intros [H1%token_no_colon H2%token_no_colon]. unfold page_resource_key.
  change ("browser:" +:+ bp_session_id page +:+ ":" +:+ bp_page_id page) with
    ("browser" +:+ String colon (bp_session_id page +:+ String colon (bp_page_id page))).
  rewrite split_byte_app by done. rewrite split_byte_app by done. by rewrite split_byte_single.
Qed.

Lemma page_key_inj p q : page_ok p -> page_ok q -> page_resource_key p = page_resource_key q -> p = q.
Proof.
  intros Hp Hq E. apply (f_equal (split_byte colon)) in E. rewrite !page_key_split in E by done.
  destruct p, q. by injection E as -> ->.
Qed.

Definition computer_target_ok (t : ComputerTargetScope) : Prop :=
  token (ct_desktop_session_id t) = true /\ token (ct_application_id t) = true /\ token (ct_window_id t) = true.

Lemma target_key_split t : computer_target_ok t ->
  split_byte colon (target_resource_key t) =
    ["computer"; ct_desktop_session_id t; ct_application_id t; ct_window_id t].
Proof.
  intros (H1%token_no_colon & H2%token_no_colon & H3%token_no_colon). unfold target_resource_key.
  change ("computer:" +:+ ct_desktop_session_id t +:+ ":" +:+ ct_application_id t +:+ ":" +:+ ct_window_id t) with
    ("computer" +:+ String colon (ct_desktop_session_id t +:+ String colon (ct_application_id t
       +:+ String colon (ct_window_id t)))).
  rewrite split_byte_app by done. rewrite split_byte_app by done. rewrite split_byte_app by done.
  by rewrite split_byte_single.
Qed.

Lemma target_key_inj p q : computer_target_ok p -> computer_target_ok q ->
  target_resource_key p = target_resource_key q -> p = q.
Proof.
  intros Hp Hq E. apply (f_equal (split_byte colon)) in E. rewrite !target_key_split in E by done.
  destruct p, q. by injection E as -> -> ->.
Qed.

(** ** Policies made of one entry per scope *)

Lemma entries_resources {A} (key : A -> string) mode (l : list A) es :
  try_map (fun x => access_policy_entry_new (key x) [mode]) l = Ok es ->
  forall e, e ∈ es -> exists x, x ∈ l /\ ape_resource e = key x.
Proof.
  intros H%try_map_ok e [i Hi]%list_elem_of_lookup. destruct (Forall2_lookup_r _ _ _ _ _ H Hi) as (x & Hx & Hn).
  apply policy_entry_new_fields in Hn as [-> _]. exists x. split; [by eapply list_elem_of_lookup_2|done].
Qed.

Definition scoped (d : ToolDefinition) (runtime network : list string) : Prop :=
  exists contract, td_access_contract d = Some contract /\
    (forall e, e ∈ tap_runtime_lanes (tac_policy contract) -> ape_resource e ∈ runtime) /\
    (forall e, e ∈ tap_network_origins (tac_policy contract) -> ape_resource e ∈ network).

Lemma scoped_access d runtime network contract accesses access : scoped d runtime network ->
  td_access_contract d = Some contract -> accesses_admitted d contract accesses -> access ∈ accesses ->
  (ra_namespace access = Runtime -> ra_resource_key access ∈ runtime) /\
  (ra_namespace access = Network -> ra_resource_key access ∈ network).
Proof.
  intros (c & Hc & Hr & Hn) Hd [[_ Hcov] _] Hin. rewrite Hc in Hd. injection Hd as <-.
  destruct (Hcov _ Hin) as (e & He & [_ Hw]).
  split; intros Hns; rewrite Hns in He, Hw; simpl in He; rewrite Hw; auto.
Qed.

Lemma browser_definition_scoped name description schema caps replay pages origins mode policy d :
  browser_definition name description schema caps replay pages origins mode policy = Ok d ->
  td_name d = name /\ scoped d (page_resource_key <$> pages) origins.
Proof.
  unfold browser_definition. intros H. destruct (requirements_new _ _ _); [|done].
  destruct (try_map _ origins) as [oes|] eqn:Eo; [|done]. destruct (try_map _ pages) as [pes|] eqn:Ep; [|done].
  destruct (access_policy_new _ _ _ _ _ _ _) eqn:Ea; [|done]. destruct (sandbox_new _ _ _ _); [|done].
  apply definition_new_v3_fields in H as (? & Hc & _). split; [done|]. eexists. split; [done|]. simpl.
  apply access_policy_new_fields in Ea as (_ & _ & _ & Hn & Hr & _). split; intros e He.
  - rewrite Hr in He. destruct (entries_resources page_resource_key mode pages pes Ep e He) as (x & Hx & ->).
    by apply list_elem_of_fmap_2.
  - rewrite Hn in He. by destruct (entries_resources (fun o => o) Write origins oes Eo e He) as (x & Hx & ->).
Qed.

Lemma computer_definition_scoped name description schema cap replay mode policy targets d :
  computer_definition name description schema cap replay mode policy targets = Ok d ->
  td_name d = name /\ scoped d (target_resource_key <$> targets) [].
Proof.
  unfold computer_definition. intros H. destruct (requirements_new _ _ _); [|done].
  destruct (try_map _ targets) as [pes|] eqn:Ep; [|done].
  destruct (access_policy_new _ _ _ _ _ _ _) eqn:Ea; [|done]. destruct (sandbox_new _ _ _ _); [|done].
  apply definition_new_v3_fields in H as (? & Hc & _). split; [done|]. eexists. split; [done|]. simpl.
  apply access_policy_new_fields in Ea as (_ & _ & _ & Hn & Hr & _). split; intros e He.
  - rewrite Hr in He. destruct (entries_resources target_resource_key mode targets pes Ep e He) as (x & Hx & ->).
    by apply list_elem_of_fmap_2.
  - rewrite Hn in He. by apply elem_of_nil in He.
Qed.

(** ** The browser *)

Section browser.
Context `{UrlReader, Externals, ArgumentReader, Jcs}.

Lemma browser_lookup policy pages origins cat name d : browser_catalogue_new policy pages origins = Ok cat ->
  tc_definitions (bc_catalog cat) !! name = Some d ->
  td_name d = name /\ scoped d (page_resource_key <$> pages) origins.
Proof.
  unfold browser_catalogue_new. intros Hc Hd. destruct (existsb _ _); [done|].
  destruct (browser_observe_definition _ _) as [d1|] eqn:E1; [|done].
  destruct (browser_navigate_definition _ _ _) as [d2|] eqn:E2; [|done].
  destruct (browser_act_definition _ _ _) as [d3|] eqn:E3; [|done].
  apply (freeze_catalogue_lookup _ _ Hc) in Hd as [Hin Hn]. split; [done|].
  apply browser_definition_scoped in E1 as [_ (c & ? & ? & Hnet)].
  apply browser_definition_scoped in E2 as [_ E2], E3 as [_ E3].
  apply elem_of_cons in Hin as [->|Hin].
  { exists c. split_and!; [done..|]. intros e He. by apply Hnet, elem_of_nil in He. }
  apply elem_of_cons in Hin as [->|Hin]; [done|]. by apply list_elem_of_singleton in Hin as ->.
Qed.

(** The accesses of each tool, on one page of the catalogue. *)
Definition browser_accesses (pages : list BrowserPageScope) (origins : list string) (tool : string)
    (arguments : Value) (accesses : list ResourceAccess) : Prop :=
  exists page, page ∈ pages /\
    has_text arguments "session_id" (bp_session_id page) /\ has_text arguments "page_id" (bp_page_id page) /\
    (tool = T2_BROWSER_OBSERVE /\ accesses = [mkAccess Runtime (page_resource_key page) Read] \/
     tool = T2_BROWSER_NAVIGATE /\ (exists url origin,
       has_text arguments "destination_url" url /\ canonical_http_origin url = Some origin /\ origin ∈ origins /\
       accesses ≡ₚ [mkAccess Runtime (page_resource_key page) Write; mkAccess Network origin Write]) \/
     tool = T2_BROWSER_ACT /\ (exists allowed,
       string_array arguments "allowed_navigation_origins" = Ok allowed /\
       browser_validate_action arguments = Ok tt /\ (forall origin, origin ∈ allowed -> origin ∈ origins) /\
       accesses ≡ₚ mkAccess Runtime (page_resource_key page) Write ::
                   ((fun origin => mkAccess Network origin Write) <$> allowed))).

Lemma try_map_accesses n m keys as_ : try_map (fun key => resource_access_new n key m) keys = Ok as_ ->
  as_ = (fun key => mkAccess n key m) <$> keys.
Proof.
  intros Hm%try_map_ok. induction Hm as [|k a ks as_ Hk Hm IH]; [done|].
  apply access_new_ok in Hk as [_ ->]. by rewrite IH.
Qed.

Lemma access_set_perm l s : access_set_new l = Ok s -> s ≡ₚ l.
Proof. unfold access_set_new. intros Hs. destruct (_ || _); [done|]. injection Hs as <-. apply sort_perm. Qed.

(** The resolver alone gives everything but the admission of page and origins. *)
Lemma browser_resolve_ok tool args accesses : browser_resolve tool args = Ok accesses ->
  exists page mode, page_ok page /\ mkAccess Runtime (page_resource_key page) mode ∈ accesses /\
    forall pages origins, page ∈ pages ->
      (forall origin, mkAccess Network origin Write ∈ accesses -> origin ∈ origins) ->
      browser_accesses pages origins tool args accesses.
Proof.
  intros Hr. unfold browser_resolve in Hr.
  destruct (text args "session_id") as [sid|] eqn:Es; [|done]. apply text_ok in Es.
  destruct (text args "page_id") as [pid|] eqn:Ep; [|done]. apply text_ok in Ep.
  destruct (page_scope_new sid pid) as [page|] eqn:Epg; [|done].
  assert (page = mkPage sid pid /\ page_ok page) as [-> Hok].
  { unfold page_scope_new in Epg. destruct (negb (token sid) || negb (token pid)) eqn:Et; [done|].
    injection Epg as <-. bool_hyps. done. }
  destruct (resource_access_new Runtime _ _) as [access|] eqn:Ea; [|done]. apply access_new_ok in Ea as [_ ->].
  exists (mkPage sid pid).
  destruct (tool =? T2_BROWSER_OBSERVE)%string eqn:E1; bool_hyps.
  { apply access_set_single in Hr as ->. exists Read. split_and!; [done|left|]. intros pages origins Hp _.
    exists (mkPage sid pid). split_and!; [done..|]. by left. }
  exists Write. destruct (tool =? T2_BROWSER_NAVIGATE)%string eqn:E2; bool_hyps.
  - destruct (text args "destination_origin") as [origin|] eqn:Eo; [|done].
    destruct (text args "destination_url") as [url|] eqn:Eu; [|done]. apply text_ok in Eu.
    case_bool_decide as Hcan; [|done]. simpl in Hr.
    destruct (resource_access_new Network _ _) as [network|] eqn:En; [|done]. apply access_new_ok in En as [_ ->].
    apply access_set_perm in Hr. split_and!; [done|rewrite Hr; left|]. intros pages origins Hp Ho.
    exists (mkPage sid pid). split_and!; [done..|]. right; left. split; [done|]. exists url, origin.
    split_and!; [done..| |done]. apply Ho. rewrite Hr. right; left.
  - destruct (tool =? T2_BROWSER_ACT)%string eqn:E3; [|done]. bool_hyps.
    destruct (browser_validate_action args) as [[]|] eqn:Ev; [|done].
    destruct (string_array args _) as [allowed|] eqn:El; [|done].
    destruct (try_map _ allowed) as [networks|] eqn:Em; [|done]. apply try_map_accesses in Em as ->.
    apply access_set_perm in Hr. split_and!; [done|rewrite Hr; left|]. intros pages origins Hp Ho.
    exists (mkPage sid pid). split_and!; [done..|]. right; right. split; [done|]. exists allowed.
    split_and!; [done..| |done]. intros origin Hin. apply Ho. rewrite Hr. right. apply list_elem_of_fmap. eauto.
Qed.

(** A prepared browser call touches one admitted page and only admitted origins, those its
    arguments name. *)
Theorem browser_prepare_scope policy pages origins catalogue intent call :
  browser_catalogue_new policy pages origins = Ok catalogue -> Forall page_ok pages ->
  browser_prepare catalogue intent = Ok call ->
  exists arguments accesses,
    parse_arguments (ti_arguments_json intent) = Ok arguments /\
    pc_invocation_accesses call = Some accesses /\
    browser_accesses pages origins (ti_tool_name intent) arguments accesses.
Proof.
  intros Hc Hpages Hp.
  apply prepare_v3_inv in Hp as (d & args & contract & sandbox & accesses & _ & Hd & Ha & Ec & _ & _ & Hr & Hadm & Hf).
  apply from_v3_fields in Hf as (_ & _ & Hacc & _). exists args, accesses. split_and!; [done..|].
  destruct (browser_lookup _ _ _ _ _ _ Hc Hd) as [_ Hs].
  assert (Hscope := fun access => scoped_access d _ _ contract accesses access Hs Ec Hadm).
  destruct (browser_resolve_ok _ _ _ Hr) as (page & mode & Hok & Hin & Hx). apply Hx.
  - apply Hscope in Hin as [Hin _]. specialize (Hin eq_refl). apply list_elem_of_fmap in Hin as (q & Hq & Hin).
    rewrite Forall_forall in Hpages. by rewrite (page_key_inj page q) by auto.
  - intros origin Ho. apply Hscope in Ho as [_ Ho]. by apply Ho.
Qed.
End browser.

(** ** The computer *)

Section computer.
Context `{Externals, ArgumentReader, Jcs}.

Lemma computer_lookup policy targets cat name d : computer_catalogue_new policy targets = Ok cat ->
  tc_definitions (bc_catalog cat) !! name = Some d ->
  td_name d = name /\ scoped d (target_resource_key <$> targets) [].
Proof.
  unfold computer_catalogue_new. intros Hc Hd.
  destruct (computer_observe_definition _ _) as [d1|] eqn:E1; [|done].
  destruct (computer_act_definition _ _) as [d2|] eqn:E2; [|done].
  apply (freeze_catalogue_lookup _ _ Hc) in Hd as [Hin Hn]. split; [done|].
  apply computer_definition_scoped in E1 as [_ E1], E2 as [_ E2].
  apply elem_of_cons in Hin as [->|Hin]; [done|]. by apply list_elem_of_singleton in Hin as ->.
Qed.

Definition has_integer (object : Map) (field : string) (n : Z) : Prop :=
  exists v, map_get field object = Some v /\ as_i64 v = Some n.

Lemma map_integer_ok object field n : map_integer object field = Ok n <-> has_integer object field n.
Proof.
  unfold map_integer, has_integer. rewrite ok_or_ok. destruct (map_get field object) as [v|]; simpl.
  - split; [eauto|]. by intros (? & [= <-] & ?).
  - split; [done|]. by intros (? & ? & _).
Qed.

(** The point lies in the visible frame, and the frame ends inside the snapshot. *)
Definition visible_point (object : Map) (x y : Z) : Prop :=
  exists left_ top width height snapshot_width snapshot_height,
    has_integer object "visible_frame_x" left_ /\ has_integer object "visible_frame_y" top /\
    has_integer object "visible_frame_width" width /\ has_integer object "visible_frame_height" height /\
    has_integer object "snapshot_pixel_width" snapshot_width /\
    has_integer object "snapshot_pixel_height" snapshot_height /\
    left_ <= x < left_ + width /\ left_ + width <= snapshot_width /\
    top <= y < top + height /\ top + height <= snapshot_height.

Lemma i64_try_from_some x y : i64_try_from x = Some y -> x = y.
Proof. unfold i64_try_from. intros H2. by destruct (_ && _); simplify_eq. Qed.

Lemma visible_point_ok object x y :
  geometry_valid object = Ok true -> point_inside object x y = Ok true -> visible_point object x y.
Proof.
  unfold geometry_valid, point_inside, visible_point, checked_add_i64. intros Hg Hp.
  destruct (map_integer object "snapshot_pixel_width") as [w|] eqn:E1; [|done].
  destruct (map_integer object "snapshot_pixel_height") as [h|] eqn:E2; [|done].
  destruct (map_integer object "visible_frame_x") as [l|] eqn:E3; [|done].
  destruct (map_integer object "visible_frame_y") as [t|] eqn:E4; [|done].
  destruct (map_integer object "visible_frame_width") as [fw|] eqn:E5; [|done].
  destruct (map_integer object "visible_frame_height") as [fh|] eqn:E6; [|done].
  apply map_integer_ok in E1, E2, E3, E4, E5, E6.
  destruct (i64_try_from (l + fw)) as [r|] eqn:Er; [|done]. apply i64_try_from_some in Er as <-.
  destruct (i64_try_from (t + fh)) as [b|] eqn:Eb; [|done]. apply i64_try_from_some in Eb as <-.
  cbn in Hg, Hp. injection Hg as Hg. injection Hp as Hp. bool_hyps.
  exists l, t, fw, fh, w, h. split_and!; try done; lia.
Qed.

(** A coordinate action points at visible pixels of the snapshot it was decided on. *)
Definition action_visible (object : Map) (action : string) : Prop :=
  (action = "move_pointer" \/ action = "click_point" ->
   exists x y, has_integer object "point_x" x /\ has_integer object "point_y" y /\ visible_point object x y) /\
  (action = "drag" ->
   exists x y x' y', has_integer object "start_x" x /\ has_integer object "start_y" y /\
     has_integer object "end_x" x' /\ has_integer object "end_y" y' /\ (x, y) <> (x', y') /\
     visible_point object x y /\ visible_point object x' y').

Lemma and_then_true {E} a (b : result E bool) : and_then a b = Ok true <-> a = true /\ b = Ok true.
Proof. destruct a; simpl; [naive_solver|]. split; [done|naive_solver]. Qed.

Lemma point_action_visible object : point_action object = Ok true ->
  exists x y, has_integer object "point_x" x /\ has_integer object "point_y" y /\ visible_point object x y.
Proof.
  unfold point_action. intros [_ Hb]%and_then_true.
  destruct (geometry_valid object) as [g|] eqn:Eg; [|done]. apply and_then_true in Hb as [-> Hb].
  destruct (map_integer object "point_x") as [x|] eqn:Ex; [|done].
  destruct (map_integer object "point_y") as [y|] eqn:Ey; [|done]. apply map_integer_ok in Ex, Ey.
  exists x, y. split_and!; [done..|]. by apply visible_point_ok.
Qed.

Lemma drag_action_visible object : drag_action object = Ok true -> action_visible object "drag".
Proof.
  unfold drag_action. intros Hb. split; [by intros []|intros _].
  destruct (map_integer object "start_x") as [x|] eqn:E1; [|done].
  destruct (map_integer object "start_y") as [y|] eqn:E2; [|done].
  destruct (map_integer object "end_x") as [x'|] eqn:E3; [|done].
  destruct (map_integer object "end_y") as [y'|] eqn:E4; [|done]. apply map_integer_ok in E1, E2, E3, E4.
  apply and_then_true in Hb as [Ha Hb]. apply andb_true_iff in Ha as [_ Ha].
  destruct (geometry_valid object) as [g|] eqn:Eg; [|done]. apply and_then_true in Hb as [-> Hb].
  destruct (point_inside object x y) as [p|] eqn:Ep; [|done]. apply and_then_true in Hb as [-> Hb].
  exists x, y, x', y'. split_and!; try done; [|by apply visible_point_ok..].
  intros [= -> ->]. by rewrite !Z.eqb_refl in Ha.
Qed.

Lemma computer_action_visible args : computer_validate_action args = Ok tt ->
  exists object action, args = Obj object /\ has_text args "action" action /\ action_visible object action.
Proof.
  unfold computer_validate_action. destruct args; try done. cbn [as_object ok_or].
  destruct (text (Obj _) "action") as [action|] eqn:Ea; [|done]. apply text_ok in Ea. intros Hv.
  eexists _, action. split_and!; [done..|].
  destruct (action =? "press")%string eqn:E1; [apply String.eqb_eq in E1 as ->; by split; [intros []|]|].
  destruct (action =? "set_value")%string eqn:E2; [apply String.eqb_eq in E2 as ->; by split; [intros []|]|].
  destruct (action =? "type_text")%string eqn:E3; [apply String.eqb_eq in E3 as ->; by split; [intros []|]|].
  destruct (action =? "press_key")%string eqn:E4; [apply String.eqb_eq in E4 as ->; by split; [intros []|]|].
  destruct (action =? "scroll")%string eqn:E5; [apply String.eqb_eq in E5 as ->; by split; [intros []|]|].
  destruct ((action =? "move_pointer")%string || (action =? "click_point")%string) eqn:E6.
  - destruct (point_action _) as [[]|] eqn:Ep; [|done..]. apply point_action_visible in Ep. split; [done|].
    intros ->. done.
  - destruct (action =? "drag")%string eqn:E7; [|done]. apply String.eqb_eq in E7 as ->.
    destruct (drag_action _) as [[]|] eqn:Ep; [|done..]. by apply drag_action_visible.
Qed.

(** A prepared computer call touches one admitted window, for reading when it observes,
    and an action with coordinates has its points inside the visible frame. *)
Theorem computer_prepare_scope policy targets catalogue intent call :
  computer_catalogue_new policy targets = Ok catalogue -> Forall computer_target_ok targets ->
  computer_prepare catalogue intent = Ok call ->
  exists arguments target mode, parse_arguments (ti_arguments_json intent) = Ok arguments /\
    target ∈ targets /\
    has_text arguments "desktop_session_id" (ct_desktop_session_id target) /\
    has_text arguments "application_id" (ct_application_id target) /\
    has_text arguments "window_id" (ct_window_id target) /\
    pc_invocation_accesses call = Some [mkAccess Runtime (target_resource_key target) mode] /\
    (ti_tool_name intent = T2_COMPUTER_OBSERVE /\ mode = Read \/
     ti_tool_name intent = T2_COMPUTER_ACT /\ mode = Write /\
     exists object action, arguments = Obj object /\ has_text arguments "action" action /\
       action_visible object action).
Proof.
  intros Hc Ht Hp.
  apply prepare_v3_inv in Hp as (d & args & contract & sandbox & accesses & _ & Hd & Ha & Ec & _ & _ & Hr & Hadm & Hf).
  apply from_v3_fields in Hf as (_ & _ & Hacc & _).
  destruct (computer_lookup _ _ _ _ _ Hc Hd) as [_ Hs].
  simpl in Hr. unfold computer_resolve in Hr.
  destruct (text args "desktop_session_id") as [sid|] eqn:Es; [|done]. apply text_ok in Es.
  destruct (text args "application_id") as [aid|] eqn:Eap; [|done]. apply text_ok in Eap.
  destruct (text args "window_id") as [wid|] eqn:Ew; [|done]. apply text_ok in Ew.
  destruct (target_scope_new sid aid wid) as [t|] eqn:Et; [|done].
  assert (t = mkComputerTarget sid aid wid /\ computer_target_ok t) as [-> Hok].
  { unfold target_scope_new in Et. destruct (negb (token sid) || negb (token aid) || negb (token wid)) eqn:E; [done|].
    injection Et as <-. bool_hyps. by split_and!. }
  match type of Hr with (match ?m with _ => _ end = _) => destruct m as [mode|] eqn:Em; [|done] end.
  destruct (resource_access_new Runtime _ _) as [access|] eqn:Eac; [|done]. apply access_new_ok in Eac as [_ ->].
  apply access_set_single in Hr as ->. exists args, (mkComputerTarget sid aid wid), mode. split_and!; try done.
  - destruct (scoped_access d _ _ contract _ (mkAccess Runtime (target_resource_key (mkComputerTarget sid aid wid)) mode) Hs Ec Hadm)
      as [Hin _]; [left|]. specialize (Hin eq_refl). apply list_elem_of_fmap in Hin as (q & Hq & Hin).
    rewrite Forall_forall in Ht. by rewrite (target_key_inj (mkComputerTarget sid aid wid) q) by auto.
  - destruct (ti_tool_name intent =? T2_COMPUTER_OBSERVE)%string eqn:E1; bool_hyps; [left; by injection Em as <-|].
    destruct (ti_tool_name intent =? T2_COMPUTER_ACT)%string eqn:E2; [|done]. bool_hyps. right.
    destruct (computer_validate_action args) as [[]|] eqn:Ev; [|done]. injection Em as <-.
    split_and!; [done..|]. by apply computer_action_visible.
Qed.
End computer.

(** ** Samples *)

Module AutomationSample.
#[export] Instance url : UrlReader := fun s =>
  if starts_with "https://a.b:443" s then Some (mkUrl "https" "" None (Some 443) (Some (HostDomain "a.b"))) else None.
#[export] Instance reader : ArgumentReader := fun s =>
  if (s =? "go")%string then
    Some (RawMap [("session_id", RawStr "s"); ("page_id", RawStr "p"); ("expected_snapshot_id", RawStr "n1");
                  ("target_revision", RawStr "r1"); ("destination_url", RawStr "https://a.b:443/x");
                  ("destination_origin", RawStr "https://a.b:443"); ("wait_until", RawStr "load");
                  ("timeout_ms", RawU64 1000); ("max_nodes", RawU64 10); ("max_text_bytes", RawU64 10)])
  else
    Some (RawMap [("desktop_session_id", RawStr "d"); ("application_id", RawStr "a"); ("window_id", RawStr "w");
                  ("expected_snapshot_id", RawStr "n1"); ("target_revision", RawStr "r1");
                  ("action", RawStr "click_point"); ("display_id", RawStr "main"); ("point_x", RawU64 15);
                  ("point_y", RawU64 20); ("snapshot_pixel_width", RawU64 100); ("snapshot_pixel_height", RawU64 90);
                  ("scale_milli", RawU64 1000); ("visible_frame_x", RawU64 10); ("visible_frame_y", RawU64 10);
                  ("visible_frame_width", RawU64 80); ("visible_frame_height", RawU64 70)]).
Definition page : BrowserPageScope := mkPage "s" "p".
Definition window : ComputerTargetScope := mkComputerTarget "d" "a" "w".
Definition navigate : ToolIntent := mkIntent "call-1" T2_BROWSER_NAVIGATE "go".
Definition click : ToolIntent := mkIntent "call-2" T2_COMPUTER_ACT "click".
End AutomationSample.
#[local] Existing Instances AutomationSample.url AutomationSample.reader.
#[local] Existing Instances ToolSample.externals ToolSample.canonical_json.

Lemma browser_prepare_scope_witness : exists arguments accesses,
  browser_accesses [AutomationSample.page] ["https://a.b:443"] T2_BROWSER_NAVIGATE arguments accesses.
Proof.
  destruct (browser_catalogue_new "p1" [AutomationSample.page] ["https://a.b:443"]) as [c|] eqn:Ec; [|by vm_compute in Ec].
  destruct (browser_prepare c AutomationSample.navigate) as [call|] eqn:Ep.
  - destruct (browser_prepare_scope "p1" [AutomationSample.page] ["https://a.b:443"] c AutomationSample.navigate call Ec)
      as (arguments & accesses & _ & _ & Ht); [by repeat constructor|done|eauto].
  - exfalso. vm_compute in Ec. injection Ec as <-. vm_compute in Ep. discriminate.
Defined.

Lemma computer_prepare_scope_witness : exists arguments object,
  arguments = Obj object /\ exists action, has_text arguments "action" action /\ action_visible object action.
Proof.
  destruct (computer_catalogue_new "p1" [AutomationSample.window]) as [c|] eqn:Ec; [|by vm_compute in Ec].
  destruct (computer_prepare c AutomationSample.click) as [call|] eqn:Ep.
  - destruct (computer_prepare_scope "p1" [AutomationSample.window] c AutomationSample.click call Ec)
      as (arguments & target & mode & _ & _ & _ & _ & _ & _ & [[? _]|(_ & _ & object & action & ? & ? & ?)]);
      [by repeat constructor|done|done|]. exists arguments, object. split; [done|]. by exists action.
  - exfalso. vm_compute in Ec. injection Ec as <-. vm_compute in Ep. discriminate.
Defined.
