(* ===== verification/ToolBatch.v ===== *)
(** * Effect batches ([engine/tools/src/batch.rs])

    The conflict graph of a batch of prepared calls and the plan of sequential
    steps and parallel read groups built over it. *)

From S2P Require Import Prelude Json ToolSchema Text Order ToolAccess ToolPrepared BuiltinTools.

Inductive EffectBatchErrorCode := BatchAccessInvalid | EffectBatchBoundExceeded.
#[export] Instance EffectBatchErrorCode_eq_dec : EqDecision EffectBatchErrorCode.
Proof. solve_decision. Defined.

Record EffectBatchLimitsV1 := mkBatchLimits {
  bl_max_intents : Z;
  bl_max_accesses_per_intent : Z;
  bl_max_total_accesses : Z;
  bl_max_parallel_reads : Z;
  bl_max_buffered_result_bytes : Z;
}.

Definition batch_limits_new (max_intents max_accesses_per_intent max_total_accesses max_parallel_reads
    max_buffered_result_bytes : Z) : result EffectBatchErrorCode EffectBatchLimitsV1 :=
  reject EffectBatchBoundExceeded when
    (max_intents =? 0) || (max_accesses_per_intent =? 0) || (max_total_accesses =? 0)
    || (max_parallel_reads =? 0) || (max_buffered_result_bytes =? 0);
  Ok (mkBatchLimits max_intents max_accesses_per_intent max_total_accesses max_parallel_reads
        max_buffered_result_bytes).

Inductive EffectBatchStep :=
  | SequentialStep (intent_index : nat)
  | ParallelReadGroup (intent_indexes : list nat).

Record EffectBatchIntent := mkBatchIntent {
  bi_prepared : PreparedToolCall;
  bi_suspension_boundary : bool;
}.

Record EffectBatchPlanV1 := mkBatchPlan {
  bp_ordered_prepared_digests : list string;
  bp_conflict_graph_bytes : list Z;
  bp_conflict_graph_digest : string;
  bp_steps : list EffectBatchStep;
  bp_plan_digest : string;
}.

(** ** The conflict graph *)

Definition accesses_conflict (a b : ResourceAccess) : bool :=
  bool_decide (ra_namespace a = ra_namespace b)
  && (bool_decide (ra_mode a = Exclusive) || bool_decide (ra_mode b = Exclusive)
      || (ra_resource_key a =? ra_resource_key b)%string
         && (bool_decide (ra_mode a = Write) || bool_decide (ra_mode b = Write))).

(** [invocation_accesses().unwrap()], after the scan that checked it. *)
Definition accesses_of (intent : EffectBatchIntent) : InvocationAccessSet :=
  default [] (pc_invocation_accesses (bi_prepared intent)).

Definition intents_conflict (a b : EffectBatchIntent) : bool :=
  existsb (fun x => existsb (accesses_conflict x) (accesses_of b)) (accesses_of a).

(** The upper triangle, row by row. *)
Fixpoint conflict_graph (intents : list EffectBatchIntent) : list Z :=
  match intents with
  | [] => []
  | intent :: intents => ((fun other => Z.b2z (intents_conflict intent other)) <$> intents) ++ conflict_graph intents
  end.

Definition graph_offset (count i j : nat) : nat := (i * (2 * count - i - 1) / 2 + (j - i - 1))%nat.
Definition graph_edge (graph : list Z) (count i j : nat) : bool :=
  bool_decide (graph !! graph_offset count i j = Some 1).

(** ** The plan *)

Definition scan_intent (limits : EffectBatchLimitsV1) (total : Z) (intent : EffectBatchIntent)
    : result EffectBatchErrorCode Z :=
  let call := bi_prepared intent in
  let? accesses := ok_or (pc_invocation_accesses call) BatchAccessInvalid in
  reject BatchAccessInvalid when negb (pc_contract_version call =? 2) || bool_decide (accesses = []);
  reject EffectBatchBoundExceeded when bl_max_accesses_per_intent limits <? Z.of_nat (length accesses);
  ok_or (checked_add total (Z.of_nat (length accesses))) EffectBatchBoundExceeded.

Record Planning := mkPlanning {
  pl_steps : list EffectBatchStep;
  pl_group : list nat;
  pl_group_accesses : Z;
  pl_group_bytes : Z;
}.

Definition flush_group (steps : list EffectBatchStep) (group : list nat) : list EffectBatchStep :=
  match group with [] => steps | _ => steps ++ [ParallelReadGroup group] end.

Definition plan_intent (limits : EffectBatchLimitsV1) (graph : list Z) (count : nat) (s : Planning)
    (indexed : nat * EffectBatchIntent) : result EffectBatchErrorCode Planning :=
  let '(index, intent) := indexed in
  let call := bi_prepared intent in
  let? accesses := ok_or (pc_invocation_accesses call) BatchAccessInvalid in
  let? result_bytes := ok_or (pc_max_result_bytes call) BatchAccessInvalid in
  let conflicts := existsb (fun member => graph_edge graph count member index) (pl_group s) in
  let next_accesses := pl_group_accesses s + Z.of_nat (length accesses) in
  let? next_bytes := ok_or (checked_add (pl_group_bytes s) result_bytes) EffectBatchBoundExceeded in
  let read_only := bool_decide (pc_replay_class call = ReadOnly) && negb (bi_suspension_boundary intent) in
  if read_only && negb conflicts
     && (Z.of_nat (length (pl_group s)) <? bl_max_parallel_reads limits)
     && (next_accesses <=? bl_max_total_accesses limits)
     && (next_bytes <=? bl_max_buffered_result_bytes limits) then
    Ok (mkPlanning (pl_steps s) (pl_group s ++ [index]) next_accesses next_bytes)
  else
    let steps := flush_group (pl_steps s) (pl_group s) in
    if read_only then
      reject EffectBatchBoundExceeded when bl_max_buffered_result_bytes limits <? result_bytes;
      Ok (mkPlanning steps [index] (Z.of_nat (length accesses)) result_bytes)
    else Ok (mkPlanning (steps ++ [SequentialStep index]) [] 0 0).

Definition enumerate {A} (l : list A) : list (nat * A) := zip (seq 0 (length l)) l.

Definition step_json (step : EffectBatchStep) : Value :=
  match step with
  | SequentialStep i => json_object [("kind", Str "sequential_step"); ("intent_index", json_nat (Z.of_nat i))]
  | ParallelReadGroup is_ =>
      json_object [("kind", Str "parallel_read_group");
                   ("intent_indexes", Arr ((fun i => json_nat (Z.of_nat i)) <$> is_))]
  end.

Definition plan_steps (intents : list EffectBatchIntent) (limits : EffectBatchLimitsV1)
    : result EffectBatchErrorCode (list EffectBatchStep) :=
  reject EffectBatchBoundExceeded when
    bool_decide (intents = []) || (bl_max_intents limits <? Z.of_nat (length intents));
  let? total_accesses := try_fold (scan_intent limits) 0 intents in
  reject EffectBatchBoundExceeded when bl_max_total_accesses limits <? total_accesses;
  let? s := try_fold (plan_intent limits (conflict_graph intents) (length intents)) (mkPlanning [] [] 0 0)
              (enumerate intents) in
  Ok (flush_group (pl_steps s) (pl_group s)).

(** A byte string of the graph, for its digest. *)
Definition bytes_to_string (bytes : list Z) : string :=
  foldr (fun b s => String (ascii_of_N (Z.to_N b)) s) "" bytes.

Section plan.
Context `{Externals, Jcs}.

Definition plan_effect_batch_intents (intents : list EffectBatchIntent) (limits : EffectBatchLimitsV1)
    : result EffectBatchErrorCode EffectBatchPlanV1 :=
  let? steps := plan_steps intents limits in
  let graph := conflict_graph intents in
  let ordered_prepared_digests := (fun intent => pc_input_digest (bi_prepared intent)) <$> intents in
  let conflict_graph_digest := sha256_hex (bytes_to_string graph) in
  let? text := ok_or (jcs (json_object
    [("schema_version", json_nat 1); ("prepared_contract_version", json_nat 2);
     ("ordered_prepared_digests", json_strings ordered_prepared_digests);
     ("conflict_graph_digest", Str conflict_graph_digest); ("steps", Arr (step_json <$> steps))])) BatchAccessInvalid in
  Ok (mkBatchPlan ordered_prepared_digests graph conflict_graph_digest steps (sha256_hex text)).

Definition plan_effect_batch (prepared : list PreparedToolCall) (limits : EffectBatchLimitsV1)
    : result EffectBatchErrorCode EffectBatchPlanV1 :=
  plan_effect_batch_intents ((fun call => mkBatchIntent call false) <$> prepared) limits.
End plan.

(** ** What a plan promises *)

Definition step_indexes (step : EffectBatchStep) : list nat :=
  match step with SequentialStep i => [i] | ParallelReadGroup is_ => is_ end.

Definition read_call (intent : EffectBatchIntent) : Prop :=
  pc_replay_class (bi_prepared intent) = ReadOnly /\ bi_suspension_boundary intent = false.

Definition result_bytes_of (intent : EffectBatchIntent) : Z := default 0 (pc_max_result_bytes (bi_prepared intent)).

(** A group reads side by side within the bounds; a single step may not be a free
    read. *)
Definition group_ok (limits : EffectBatchLimitsV1) (intents : list EffectBatchIntent) (group : list nat) : Prop :=
  exists members, Forall2 (fun i m => intents !! i = Some m) group members /\
    Forall read_call members /\
    ForallOrdPairs (fun a b => intents_conflict a b = false) members /\
    Z.of_nat (length group) <= bl_max_parallel_reads limits /\
    zsum_by (fun m => Z.of_nat (length (accesses_of m))) members <= bl_max_total_accesses limits /\
    zsum_by result_bytes_of members <= bl_max_buffered_result_bytes limits.

Definition step_ok (limits : EffectBatchLimitsV1) (intents : list EffectBatchIntent) (step : EffectBatchStep) : Prop :=
  match step with
  | SequentialStep i => exists m, intents !! i = Some m /\ ~ read_call m
  | ParallelReadGroup group => group <> [] /\ group_ok limits intents group
  end.

(** ** The graph's index *)

Lemma conflict_graph_length intents :
  (2 * length (conflict_graph intents) = length intents * (length intents - 1))%nat.
Proof.
  induction intents as [|a l IH]; [done|]. cbn [conflict_graph length]. rewrite length_app, length_fmap.
  destruct (length l) as [|n]; [lia|]. nia.
Qed.

Lemma triangle_offset n i j : (i < j)%nat -> (j < n)%nat ->
  graph_offset (S n) (S i) (S j) = (n + graph_offset n i j)%nat.
Proof.
  intros Hij Hjn. unfold graph_offset.
  replace (S i * (2 * S n - S i - 1))%nat with (i * (2 * n - i - 1) + n * 2)%nat by nia.
  rewrite Nat.div_add by done. lia.
Qed.

Lemma conflict_graph_lookup intents i j a b :
  (i < j)%nat -> intents !! i = Some a -> intents !! j = Some b ->
  conflict_graph intents !! graph_offset (length intents) i j = Some (Z.b2z (intents_conflict a b)).
Proof.
  revert i j. induction intents as [|c l IH]; intros i j Hij Ha Hb; [done|].
  pose proof (lookup_lt_Some _ _ _ Hb) as Hj. cbn [length] in *. cbn [conflict_graph].
  destruct i as [|i], j as [|j]; [lia| |lia|].
  - simpl in Ha. injection Ha as ->.
    replace (graph_offset (S (length l)) 0 (S j)) with j by (unfold graph_offset; simpl; lia). rewrite lookup_app_l.
    + rewrite list_lookup_fmap. simpl in Hb. by rewrite Hb.
    + rewrite length_fmap. lia.
  - simpl in Ha, Hb. apply lookup_lt_Some in Hb as Hj'. rewrite triangle_offset by lia.
    rewrite lookup_app_r; rewrite length_fmap; [|lia].
    replace (length l + graph_offset (length l) i j - length l)%nat with (graph_offset (length l) i j) by lia.
    apply IH; [lia|done..].
Qed.

Lemma graph_edge_spec intents i j a b :
  (i < j)%nat -> intents !! i = Some a -> intents !! j = Some b ->
  graph_edge (conflict_graph intents) (length intents) i j = intents_conflict a b.
Proof.
  intros. unfold graph_edge. rewrite (conflict_graph_lookup intents i j a b) by done.
  destruct (intents_conflict a b); [by apply bool_decide_eq_true_2|by apply bool_decide_eq_false_2].
Qed.

(** ** The plan is a partition into admissible steps *)

Definition limits_ok (limits : EffectBatchLimitsV1) : Prop :=
  1 <= bl_max_intents limits /\ 1 <= bl_max_accesses_per_intent limits /\ 1 <= bl_max_total_accesses limits /\
  1 <= bl_max_parallel_reads limits /\ 1 <= bl_max_buffered_result_bytes limits.

Lemma ord_pairs_snoc {A} (R : A -> A -> Prop) l x :
  ForallOrdPairs R l -> Forall (fun a => R a x) l -> ForallOrdPairs R (l ++ [x]).
Proof.
  induction 1 as [|a l Ha Hl IH]; simpl; intros Hx; [by repeat constructor|].
  apply Forall_cons in Hx as [Hax Hx]. constructor; [|by apply IH].
  apply List.Forall_app. split; [done|]. by constructor.
Qed.

(** Every access set of a scanned batch fits the total, which is their sum. *)
Lemma scan_total limits intents t0 total : try_fold (scan_intent limits) t0 intents = Ok total ->
  total = t0 + zsum_by (fun m => Z.of_nat (length (accesses_of m))) intents.
Proof.
  revert t0. induction intents as [|m l IH]; intros t0; cbn [try_fold zsum_by foldr]; [intros [= ->]; lia|].
  unfold scan_intent at 1. destruct (pc_invocation_accesses (bi_prepared m)) as [acc|] eqn:Ea; [|done]. cbn [ok_or].
  destruct (_ || _); [done|]. destruct (_ <? _); [done|].
  destruct (checked_add t0 _) as [t1|] eqn:Et; [|done]. cbn [ok_or]. intros ->%IH.
  apply checked_u64_some in Et as [<- _]. unfold accesses_of at 2. rewrite Ea. simpl. unfold zsum_by. lia.
Qed.

Section planning.
Context (limits : EffectBatchLimitsV1) (intents : list EffectBatchIntent).
Hypothesis Hlimits : limits_ok limits.
Hypothesis Htotal : zsum_by (fun m => Z.of_nat (length (accesses_of m))) intents <= bl_max_total_accesses limits.

(** After the first [k] intents: the steps and the open group list them in order. *)
Definition planning_inv (k : nat) (s : Planning) : Prop :=
  concat (step_indexes <$> pl_steps s) ++ pl_group s = seq 0 k /\
  Forall (step_ok limits intents) (pl_steps s) /\
  exists members, Forall2 (fun i m => intents !! i = Some m) (pl_group s) members /\
    Forall read_call members /\ ForallOrdPairs (fun a b => intents_conflict a b = false) members /\
    Z.of_nat (length (pl_group s)) <= bl_max_parallel_reads limits /\
    pl_group_accesses s = zsum_by (fun m => Z.of_nat (length (accesses_of m))) members /\
    pl_group_accesses s <= bl_max_total_accesses limits /\
    pl_group_bytes s = zsum_by result_bytes_of members /\
    pl_group_bytes s <= bl_max_buffered_result_bytes limits.

Lemma flush_group_inv k s : planning_inv k s ->
  concat (step_indexes <$> flush_group (pl_steps s) (pl_group s)) = seq 0 k /\
  Forall (step_ok limits intents) (flush_group (pl_steps s) (pl_group s)).
Proof.
  intros (Hs & Hok & members & H1 & H2 & H3 & H4 & H5 & H6 & H7 & H8). unfold flush_group.
  destruct (pl_group s) as [|i g] eqn:Eg; [by rewrite app_nil_r in Hs|]. rewrite fmap_app, concat_app. simpl.
  rewrite app_nil_r. split; [done|]. apply List.Forall_app. split; [done|]. constructor; [|constructor].
  split; [done|]. exists members. split_and!; try done; lia.
Qed.

Lemma planning_empty k steps : concat (step_indexes <$> steps) = seq 0 k -> Forall (step_ok limits intents) steps ->
  planning_inv k (mkPlanning steps [] 0 0).
Proof.
  intros Hs Hok. destruct Hlimits as (_ & _ & ? & ? & ?). split_and!; [by rewrite app_nil_r|done|].
  exists []. simpl. split_and!; try done; try lia; constructor.
Qed.

Lemma planning_single k steps m : concat (step_indexes <$> steps) = seq 0 k -> Forall (step_ok limits intents) steps ->
  intents !! k = Some m -> read_call m -> result_bytes_of m <= bl_max_buffered_result_bytes limits ->
  planning_inv (S k) (mkPlanning steps [k] (Z.of_nat (length (accesses_of m))) (result_bytes_of m)).
Proof.
  intros Hs Hok Hm Hr Hb. destruct Hlimits as (_ & _ & ? & ? & ?). split_and!.
  - cbn [pl_steps pl_group]. by rewrite Hs, seq_S.
  - done.
  - exists [m]. simpl. split_and!; try lia; [by constructor; [|constructor]|by constructor|by repeat constructor|].
    etrans; [|exact Htotal]. apply (zsum_by_elem (fun m => Z.of_nat (length (accesses_of m))) intents k m); [lia|done].
Qed.

Lemma plan_intent_inv k s m s' : planning_inv k s -> intents !! k = Some m ->
  plan_intent limits (conflict_graph intents) (length intents) s (k, m) = Ok s' -> planning_inv (S k) s'.
Proof.
  intros Hinv Hm. unfold plan_intent.
  destruct (pc_invocation_accesses (bi_prepared m)) as [acc|] eqn:Ea; [|done]. cbn [ok_or].
  destruct (pc_max_result_bytes (bi_prepared m)) as [bytes|] eqn:Eb; [|done]. cbn [ok_or].
  assert (Hacc : accesses_of m = acc) by (unfold accesses_of; by rewrite Ea).
  assert (Hbytes : result_bytes_of m = bytes) by (unfold result_bytes_of; by rewrite Eb).
  destruct (checked_add (pl_group_bytes s) bytes) as [nb|] eqn:En; [|done]. cbn [ok_or].
  apply checked_u64_some in En as [<- _].
  assert (Hread : bool_decide (pc_replay_class (bi_prepared m) = ReadOnly) && negb (bi_suspension_boundary m) = true <->
                  read_call m).
  { unfold read_call. rewrite andb_true_iff, bool_decide_eq_true, negb_true_iff. done. }
  destruct (flush_group_inv k s Hinv) as [Hf1 Hf2].
  destruct (_ && _ && _ && _ && _) eqn:Eread.
  - intros [= <-]. bool_hyps. assert (Hrd : read_call m) by done.
    match goal with H : existsb _ (pl_group s) = false |- _ => rename H into Hconf end.
    destruct Hinv as (Hs & Hok & members & H5 & H6 & H7 & H8 & H9 & H10 & H11 & H12).
    split_and!; [cbn [pl_steps pl_group]; by rewrite app_assoc, Hs, seq_S|done|]. exists (members ++ [m]). simpl.
    rewrite !zsum_by_app, length_app. simpl. rewrite Hacc, Hbytes.
    split_and!; [by apply Forall2_app; [|repeat constructor]|by apply List.Forall_app; split; [|constructor]| |lia..].
    apply ord_pairs_snoc; [done|]. apply Forall_forall. intros a [j Hj]%list_elem_of_lookup.
    destruct (Forall2_lookup_r _ _ _ _ _ H5 Hj) as (i & Hi & Hia).
    assert (Hik : (i < k)%nat).
    { assert (Hin : i ∈ seq 0 k); [|apply elem_of_seq in Hin; lia].
      rewrite <-Hs. apply elem_of_app. right. by eapply list_elem_of_lookup_2. }
    rewrite <-(graph_edge_spec intents i k a m Hik Hia Hm).
    rewrite existsb_false in Hconf. apply Hconf. by eapply list_elem_of_lookup_2.
  - destruct (bool_decide (pc_replay_class (bi_prepared m) = ReadOnly) && negb (bi_suspension_boundary m)) eqn:Er.
    + destruct (bl_max_buffered_result_bytes limits <? bytes) eqn:Eq; [done|]. intros [= <-]. apply Z.ltb_ge in Eq. rewrite <-Hacc, <-Hbytes.
      apply planning_single; [exact Hf1|exact Hf2|exact Hm|by apply Hread|lia].
    + intros [= <-]. apply planning_empty.
      * rewrite fmap_app, concat_app, Hf1, seq_S. done.
      * apply List.Forall_app. split; [done|]. constructor; [|constructor]. exists m. split; [done|].
        intros Hr. apply Hread in Hr. congruence.
Qed.

Lemma plan_fold_inv l k s s' : planning_inv k s -> (forall i m, l !! i = Some m -> intents !! (k + i)%nat = Some m) ->
  try_fold (plan_intent limits (conflict_graph intents) (length intents)) s (zip (seq k (length l)) l) = Ok s' ->
  planning_inv (k + length l) s'.
Proof.
  revert k s. induction l as [|m l IH]; intros k s Hinv Hl; cbn [length seq zip_with try_fold].
  - intros [= <-]. by rewrite Nat.add_0_r.
  - destruct (plan_intent _ _ _ _ _) as [s1|] eqn:E; [|done]. intros H.
    replace (k + S (length l))%nat with (S k + length l)%nat by lia. eapply IH; [|..|exact H].
    + eapply plan_intent_inv; [done| |exact E]. specialize (Hl 0%nat m eq_refl). by rewrite Nat.add_0_r in Hl.
    + intros i m' Hi. specialize (Hl (S i) m' Hi). by replace (S k + i)%nat with (k + S i)%nat by lia.
Qed.
End planning.

(** A planned batch runs every intent once, in order; each step is one sequential intent or a
    group of read-only intents without conflicts within the bounds; and the conflict graph holds
    exactly the conflicts. *)
Theorem effect_batch_plan_partition `{Externals, Jcs} intents limits plan : limits_ok limits ->
  plan_effect_batch_intents intents limits = Ok plan ->
  concat (step_indexes <$> bp_steps plan) = seq 0 (length intents) /\
  Forall (step_ok limits intents) (bp_steps plan) /\
  bp_ordered_prepared_digests plan = (fun intent => pc_input_digest (bi_prepared intent)) <$> intents /\
  (forall i j a b, (i < j)%nat -> intents !! i = Some a -> intents !! j = Some b ->
     graph_edge (bp_conflict_graph_bytes plan) (length intents) i j = intents_conflict a b).
Proof.
  intros Hl Hp. unfold plan_effect_batch_intents in Hp. destruct (plan_steps intents limits) as [steps|] eqn:Es; [|done].
  destruct (ok_or _ _) as [text|]; [|done]. injection Hp as <-. simpl.
  unfold plan_steps in Es. destruct (_ || _); [done|].
  destruct (try_fold (scan_intent limits) 0 intents) as [total|] eqn:Et; [|done].
  destruct (bl_max_total_accesses limits <? total) eqn:Em; [done|].
  destruct (try_fold (plan_intent _ _ _) _ _) as [s|] eqn:Ef; [|done]. injection Es as <-.
  apply scan_total in Et as ->. bool_hyps.
  assert (Hinv : planning_inv limits intents (0 + length intents) s).
  { eapply plan_fold_inv; [done|lia| | |exact Ef]; [|done]. by apply planning_empty; [| |constructor]. }
  destruct (flush_group_inv limits intents _ s Hinv) as [H1 H2].
  split_and!; [done..|]. intros. by apply graph_edge_spec.
Qed.

(** ** A sample batch: two reads, a write, a read of the written file *)

Module BatchSample.
Definition call (id : string) (replay : ReplayClass) (accesses : InvocationAccessSet) : PreparedToolCall :=
  mkPrepared id "tool" "1" "{}" id (mkRequirements [FilesystemRead] 1 1) replay 2 (Some "p") (Some "r")
    (Some accesses) (Some 10) None None.
Definition intents : list EffectBatchIntent :=
  [mkBatchIntent (call "a" ReadOnly [mkAccess Filesystem "x" Read]) false;
   mkBatchIntent (call "b" ReadOnly [mkAccess Filesystem "y" Read]) false;
   mkBatchIntent (call "c" NeverReplay [mkAccess Filesystem "x" Write]) false;
   mkBatchIntent (call "d" ReadOnly [mkAccess Filesystem "x" Read]) false].
Definition limits : EffectBatchLimitsV1 := mkBatchLimits 8 4 16 2 100.
End BatchSample.
#[local] Existing Instances ToolSample.externals ToolSample.canonical_json.

Example batch_sample_steps : plan_steps BatchSample.intents BatchSample.limits =
  Ok [ParallelReadGroup [0; 1]; SequentialStep 2; ParallelReadGroup [3]]%nat.
Proof. by vm_compute. Qed.

Lemma effect_batch_plan_partition_witness : exists plan,
  plan_effect_batch_intents BatchSample.intents BatchSample.limits = Ok plan /\
  concat (step_indexes <$> bp_steps plan) = seq 0 4.
Proof.
  destruct (plan_effect_batch_intents BatchSample.intents BatchSample.limits) as [plan|] eqn:E; [|by vm_compute in E].
  exists plan. split; [done|].
  apply (effect_batch_plan_partition BatchSample.intents BatchSample.limits plan); [|done]. by split_and!.
Defined.
