(* ===== verification/GovernedEffect.v ===== *)
(** * Governed effects ([engine/tools/src/governed_types.rs], [governed_reducer.rs], [governed_outcome.rs])

    One invocation from its prepared call through authorization, interaction and
    execution to its observation, and the recovery decision after a restart. *)

From S2P Require Import Prelude Json ToolSchema SchemaTheorems Text Order ToolAccess ToolPrepared.

(** ** Values ([governed_types.rs]) *)

(** The label of the value that was empty or malformed. *)
Definition InvalidGovernanceValue := string.

(** The five Runtime identities are non-empty texts. *)
Definition governed_identity_new (label value : string) : result InvalidGovernanceValue string :=
  if str_is_empty value then Err label else Ok value.

Definition required (value label : string) : result InvalidGovernanceValue unit :=
  if str_is_empty value then Err label else Ok tt.

Record InvocationGrant := mkGrant {
  ig_grant_id : string;
  ig_invocation_id : string;
  ig_prepared_digest : string;
  ig_tool_name : string;
  ig_tool_revision : string;
  ig_granted_requirements : ExecutionRequirements;
  ig_constraints_digest : string;
  ig_authority_revision : string;
}.
#[export] Instance InvocationGrant_eq_dec : EqDecision InvocationGrant.
Proof. solve_decision. Defined.

Definition invocation_grant_new (grant_id invocation_id prepared_digest tool_name tool_revision : string)
    (granted_requirements : ExecutionRequirements) (constraints_digest authority_revision : string)
    : result InvalidGovernanceValue InvocationGrant :=
  required prepared_digest "prepared digest" ?;
  required tool_name "tool name" ?;
  required tool_revision "tool revision" ?;
  required constraints_digest "constraints digest" ?;
  required authority_revision "authority revision" ?;
  Ok (mkGrant grant_id invocation_id prepared_digest tool_name tool_revision granted_requirements
        constraints_digest authority_revision).

Inductive InteractionKind := Approval | ExternalInput.

Record InteractionRequest := mkInteraction {
  ir_interaction_id : string;
  ir_invocation_id : string;
  ir_prepared_digest : string;
  ir_kind : InteractionKind;
  ir_prompt : Value;
  ir_response_schema : Value;
  ir_expiry_policy : string;
}.

Definition non_empty_text (value : option Value) : bool :=
  is_some_and (fun text => negb (str_is_empty text)) (value ≫= as_str).

Definition interaction_validate (self : InteractionRequest) : result InvalidGovernanceValue unit :=
  required (ir_prepared_digest self) "prepared digest" ?;
  required (ir_expiry_policy self) "expiry policy" ?;
  let? prompt := ok_or (as_object (ir_prompt self)) "interaction prompt" in
  reject "interaction prompt" when
    (Z.of_nat (length prompt) <? 3) || (5 <? Z.of_nat (length prompt))
    || negb (bool_decide ((map_get "schema_version" prompt ≫= as_u64) = Some 1))
    || negb (non_empty_text (map_get "title_key" prompt))
    || negb (non_empty_text (map_get "action_label_key" prompt))
    || existsb (fun key => is_some_and (fun value => negb (non_empty_text (Some value))) (map_get key prompt))
         ["message_text"; "cancel_label_key"]
    || existsb (fun key => negb (contains ["schema_version"; "title_key"; "message_text"; "action_label_key";
                                           "cancel_label_key"] key)) prompt.*1;
  Ok tt.

Inductive InteractionResolution :=
  | Resolved (interaction_id invocation_id prepared_digest : string) (response : Value)
  | Cancelled (interaction_id invocation_id prepared_digest : string).

Definition resolution_eqb (a b : InteractionResolution) : bool :=
  match a, b with
  | Resolved i v d r, Resolved i' v' d' r' =>
      (i =? i')%string && (v =? v')%string && (d =? d')%string && value_eqb r r'
  | Cancelled i v d, Cancelled i' v' d' => (i =? i')%string && (v =? v')%string && (d =? d')%string
  | _, _ => false
  end.

Inductive TerminalClassification := ClassCompleted | ClassFailed.
#[export] Instance TerminalClassification_eq_dec : EqDecision TerminalClassification.
Proof. solve_decision. Defined.

Record EffectReceipt := mkReceipt {
  rc_receipt_id : string;
  rc_invocation_id : string;
  rc_prepared_digest : string;
  rc_grant_id : string;
  rc_executor_id : string;
  rc_executor_revision : string;
  rc_terminal_classification : TerminalClassification;
  rc_result_digest : string;
}.

Definition receipt_validate (self : EffectReceipt) : result InvalidGovernanceValue unit :=
  required (rc_prepared_digest self) "prepared digest" ?;
  required (rc_executor_id self) "executor identity" ?;
  required (rc_executor_revision self) "executor revision" ?;
  required (rc_result_digest self) "result digest".

(** ** Facts, observations and actions ([governed_outcome.rs]) *)

Record PreparationRejectedFeedback := mkRejectedFeedback {
  pr_model_call_id : string;
  pr_proposed_tool_name : string;
  pr_code : PreparationErrorCode;
  pr_failure_paths : list string;
}.

Inductive ExecutionFact :=
  | FactStarted (attempt : string)
  | FactCompleted (receipt : option EffectReceipt) (content : Value) (truncated : bool)
  | FactFailed (receipt : option EffectReceipt) (code : string) (details : option string) (partial : option Value)
  | FactUncertain (evidence : string)
  | FactUnsupported (requirement : string).

Inductive ObservationOutcome :=
  | Succeeded (content : Value) (truncated : bool)
  | Rejected (code : string) (details : option string)
  | OutcomeFailed (code : string) (details : option string) (partial : option Value).

Record GovernedObservation := mkObservation {
  go_invocation_id : string;
  go_prepared_digest : string;
  go_model_call_id : string;
  go_tool_name : string;
  go_outcome : ObservationOutcome;
}.

Inductive ToolFeedback :=
  | FeedbackRejected (feedback : PreparationRejectedFeedback)
  | FeedbackGoverned (observation : GovernedObservation).

(** Insertion into an envelope that is an object. *)
Definition optional_envelope (value : Value) (key : string) (item : option Value) : Value :=
  match item, value with
  | Some item, Obj m => Obj (map_insert key item m).1
  | _, _ => value
  end.

Definition model_envelope (self : GovernedObservation) : Value :=
  match go_outcome self with
  | Succeeded content truncated =>
      json_object [("status", Str "succeeded"); ("content", content); ("truncated", Bool truncated)]
  | Rejected code details =>
      optional_envelope (json_object [("status", Str "rejected"); ("code", Str code)]) "details" (Str <$> details)
  | OutcomeFailed code details partial =>
      optional_envelope
        (optional_envelope (json_object [("status", Str "failed"); ("code", Str code)]) "details" (Str <$> details))
        "partial" partial
  end.

Inductive GovernedFailureCode :=
  | GrantMismatch | RequirementUnsupported | InvocationConflict | InteractionConflict | CorruptRecoveryState
  | InvalidModelOutput.

Inductive SuspensionRequirement :=
  | SuspendInteraction (request : InteractionRequest)
  | OperatorReconciliation (evidence : string).

Inductive GovernedAction :=
  | ActAuthorize
  | ActDispatch (grant : InvocationGrant)
  | ActObservation (observation : GovernedObservation)
  | ActSuspend (requirement : SuspensionRequirement)
  | ActFail (code : GovernedFailureCode)
  | ActNone.

Inductive GovernedToolResult :=
  | ResultObservation (feedback : ToolFeedback)
  | ResultSuspend (requirement : SuspensionRequirement)
  | ResultFail (code : GovernedFailureCode).

(** The code names the states; [EffectState] drops what they carry. *)
Inductive EffectState :=
  | StPrepared | StDenied | StReplaced | StAwaitingInteraction | StAuthorized | StStarted | StCompleted | StFailed
  | StUncertain.

Inductive RecoveryPosition := PosAuthorized | PosStartedNoReceipt | PosReceiptNoResult | PosTerminal.
Inductive RecoveryDecision :=
  | RevalidateGrant | RetrySameInvocation | RecoverExecutorReceipt | ReconstructFromReceipt | ReturnTerminal
  | ReconcileOperator.

(** ** The reducer ([governed_reducer.rs]) *)

Definition reduce_preparation_failure (intent : ToolIntent) (error : PreparationError) : GovernedToolResult :=
  if str_is_empty (ti_model_call_id intent) then ResultFail InvalidModelOutput
  else ResultObservation (FeedbackRejected
    (mkRejectedFeedback (ti_model_call_id intent) (ti_tool_name intent) (pe_code error)
       (sf_instance_path <$> pe_failures error))).

Inductive AuthorizationVerdict :=
  | Approve (grant : InvocationGrant)
  | Deny (code : string) (details : option string)
  | ReplacementRequired
  | InteractionRequired (request : InteractionRequest).

Inductive ReducerState :=
  | Prepared
  | AwaitingInteraction (request : InteractionRequest)
  | Authorized (grant : InvocationGrant)
  | Started (grant : InvocationGrant)
  | Denied | Replaced | Completed | Failed | Uncertain.

Record GovernedEffect := mkEffect {
  ge_invocation_id : string;
  ge_prepared : PreparedToolCall;
  ge_state : ReducerState;
  ge_last_interaction_resolution : option InteractionResolution;
}.
#[export] Instance eta_GovernedEffect : Eta GovernedEffect := fun r =>
  mkEffect (ge_invocation_id r) (ge_prepared r) (ge_state r) (ge_last_interaction_resolution r).

Definition governed_effect_new (invocation_id : string) (prepared : PreparedToolCall)
    : GovernedEffect * GovernedAction :=
  (mkEffect invocation_id prepared Prepared None, ActAuthorize).

Definition effect_state (self : GovernedEffect) : EffectState :=
  match ge_state self with
  | Prepared => StPrepared
  | AwaitingInteraction _ => StAwaitingInteraction
  | Authorized _ => StAuthorized
  | Started _ => StStarted
  | Denied => StDenied
  | Replaced => StReplaced
  | Completed => StCompleted
  | Failed => StFailed
  | Uncertain => StUncertain
  end.

Definition fail_effect (self : GovernedEffect) (code : GovernedFailureCode) : GovernedEffect * GovernedAction :=
  (self <| ge_state := Failed |>, ActFail code).

Definition observation (self : GovernedEffect) (outcome : ObservationOutcome) : GovernedObservation :=
  mkObservation (ge_invocation_id self) (pc_input_digest (ge_prepared self)) (pc_model_call_id (ge_prepared self))
    (pc_tool_name (ge_prepared self)) outcome.

Definition grant_binds (self : GovernedEffect) (grant : InvocationGrant) : bool :=
  let prepared := ge_prepared self in
  (ig_invocation_id grant =? ge_invocation_id self)%string
  && (ig_prepared_digest grant =? pc_input_digest prepared)%string
  && (ig_tool_name grant =? pc_tool_name prepared)%string
  && (ig_tool_revision grant =? pc_tool_revision prepared)%string
  && (er_max_duration_ms (ig_granted_requirements grant) <=? er_max_duration_ms (pc_requirements prepared))
  && (er_max_output_bytes (ig_granted_requirements grant) <=? er_max_output_bytes (pc_requirements prepared))
  && forallb (fun capability => has (er_capabilities (pc_requirements prepared)) capability)
       (er_capabilities (ig_granted_requirements grant)).

Definition receipt_binds (self : GovernedEffect) (receipt : EffectReceipt) (grant : InvocationGrant)
    (terminal : TerminalClassification) : bool :=
  is_ok (receipt_validate receipt)
  && (rc_invocation_id receipt =? ge_invocation_id self)%string
  && (rc_prepared_digest receipt =? pc_input_digest (ge_prepared self))%string
  && (rc_grant_id receipt =? ig_grant_id grant)%string
  && bool_decide (rc_terminal_classification receipt = terminal).

Definition apply_authorization (self : GovernedEffect) (verdict : AuthorizationVerdict)
    : GovernedEffect * GovernedAction :=
  match ge_state self, verdict with
  | Authorized existing, Approve candidate =>
      if bool_decide (existing = candidate) then (self, ActNone) else fail_effect self InvocationConflict
  | Prepared, Approve grant =>
      if negb (grant_binds self grant) then fail_effect self GrantMismatch
      else (self <| ge_state := Authorized grant |>, ActDispatch grant)
  | Prepared, Deny code details =>
      if str_is_empty code then fail_effect self InvocationConflict
      else (self <| ge_state := Denied |>, ActObservation (observation self (Rejected code details)))
  | Prepared, ReplacementRequired =>
      (self <| ge_state := Replaced |>, ActObservation (observation self (Rejected "replacement_required" None)))
  | Prepared, InteractionRequired request =>
      if negb (is_ok (interaction_validate request))
         || negb (is_ok (validate_value_definition (ir_response_schema request)))
         || negb (ir_invocation_id request =? ge_invocation_id self)%string
         || negb (ir_prepared_digest request =? pc_input_digest (ge_prepared self))%string
      then fail_effect self InteractionConflict
      else (self <| ge_state := AwaitingInteraction request |> <| ge_last_interaction_resolution := None |>,
            ActSuspend (SuspendInteraction request))
  | _, _ => fail_effect self InvocationConflict
  end.

(** The schema of a pending request was admitted, so that the validator stops
    only with a list of failures; [reachable_no_halt] below. *)
Definition apply_interaction (self : GovernedEffect) (resolution : InteractionResolution)
    : result Halt (GovernedEffect * GovernedAction) :=
  match ge_last_interaction_resolution self with
  | Some existing =>
      Ok (if resolution_eqb existing resolution then (self, ActNone) else fail_effect self InteractionConflict)
  | None =>
      match ge_state self with
      | AwaitingInteraction request =>
          let binds interaction_id invocation_id prepared_digest :=
            (interaction_id =? ir_interaction_id request)%string
            && (invocation_id =? ir_invocation_id request)%string
            && (prepared_digest =? ir_prepared_digest request)%string in
          match resolution with
          | Resolved interaction_id invocation_id prepared_digest response =>
              if negb (binds interaction_id invocation_id prepared_digest) then
                Ok (fail_effect self InteractionConflict)
              else
                let? failures := validate_arguments (ir_response_schema request) response in
                Ok (match failures with
                    | [] => (self <| ge_last_interaction_resolution := Some resolution |>
                                  <| ge_state := Prepared |>, ActAuthorize)
                    | _ => fail_effect self InteractionConflict
                    end)
          | Cancelled interaction_id invocation_id prepared_digest =>
              Ok (if negb (binds interaction_id invocation_id prepared_digest) then
                    fail_effect self InteractionConflict
                  else (self <| ge_last_interaction_resolution := Some resolution |> <| ge_state := Denied |>,
                        ActObservation (observation self (Rejected "interaction_cancelled" None))))
          end
      | _ => Ok (fail_effect self InteractionConflict)
      end
  end.

(** [serde_json::to_vec]. *)
Class JsonWriter := json_to_vec : Value -> option string.

Section execution.
Context `{JsonWriter}.

Definition oversized (grant : InvocationGrant) (content : Value) : bool :=
  match json_to_vec content with
  | Some bytes => er_max_output_bytes (ig_granted_requirements grant) <? str_len bytes
  | None => true
  end.

Definition apply_execution (self : GovernedEffect) (fact : ExecutionFact) : GovernedEffect * GovernedAction :=
  match ge_state self, fact with
  | Authorized grant, FactStarted _ => (self <| ge_state := Started grant |>, ActNone)
  | Authorized _, FactUnsupported requirement =>
      if str_is_empty requirement then fail_effect self CorruptRecoveryState
      else fail_effect self RequirementUnsupported
  | Started grant, FactCompleted receipt content truncated =>
      match receipt with
      | None => fail_effect self CorruptRecoveryState
      | Some receipt =>
          if negb (receipt_binds self receipt grant ClassCompleted) || oversized grant content
          then fail_effect self CorruptRecoveryState
          else (self <| ge_state := Completed |>, ActObservation (observation self (Succeeded content truncated)))
      end
  | Started grant, FactFailed receipt code details partial =>
      match receipt with
      | None => fail_effect self CorruptRecoveryState
      | Some receipt =>
          if str_is_empty code || negb (receipt_binds self receipt grant ClassFailed)
             || is_some_and (oversized grant) partial
          then fail_effect self CorruptRecoveryState
          else (self <| ge_state := Failed |>, ActObservation (observation self (OutcomeFailed code details partial)))
      end
  | Started _, FactUncertain evidence =>
      if str_is_empty evidence then fail_effect self CorruptRecoveryState
      else (self <| ge_state := Uncertain |>, ActSuspend (OperatorReconciliation evidence))
  | _, _ => fail_effect self InvocationConflict
  end.

(** One input of any kind. *)
Inductive EffectInput :=
  | InVerdict (verdict : AuthorizationVerdict)
  | InResolution (resolution : InteractionResolution)
  | InFact (fact : ExecutionFact).

Definition effect_step (self : GovernedEffect) (input : EffectInput) : result Halt (GovernedEffect * GovernedAction) :=
  match input with
  | InVerdict verdict => Ok (apply_authorization self verdict)
  | InResolution resolution => apply_interaction self resolution
  | InFact fact => Ok (apply_execution self fact)
  end.

(** The effect and its actions after a sequence of inputs. *)
Fixpoint effect_run (self : GovernedEffect) (inputs : list EffectInput)
    : result Halt (GovernedEffect * list GovernedAction) :=
  match inputs with
  | [] => Ok (self, [])
  | input :: inputs =>
      let? (self, action) := effect_step self input in
      let? (self, actions) := effect_run self inputs in
      Ok (self, action :: actions)
  end.
End execution.

Definition recover_effect (position : RecoveryPosition) (replay_class : ReplayClass) (executor_proves_replay : bool)
    : RecoveryDecision :=
  match position with
  | PosAuthorized => RevalidateGrant
  | PosReceiptNoResult => ReconstructFromReceipt
  | PosTerminal => ReturnTerminal
  | PosStartedNoReceipt =>
      match replay_class, executor_proves_replay with
      | ReceiptRecoverable, true => RecoverExecutorReceipt
      | ReadOnly, true | Idempotent, true => RetrySameInvocation
      | _, _ => ReconcileOperator
      end
  end.

(** ** Governed effects: authority before dispatch, evidence before an observation *)

Section governed.
Context `{JsonWriter}.

(** The inputs of a run paired with the actions they produced. *)
Definition History := list (EffectInput * GovernedAction).

Definition dispatched (h : History) : list InvocationGrant :=
  omap (fun p : EffectInput * GovernedAction => match p.2 with ActDispatch g => Some g | _ => None end) h.
Definition observed (h : History) : list GovernedObservation :=
  omap (fun p : EffectInput * GovernedAction => match p.2 with ActObservation o => Some o | _ => None end) h.

(** The grant was dispatched, and later the start of its execution was recorded. *)
Definition started_under (h : History) (grant : InvocationGrant) : Prop :=
  exists i j input attempt, (i < j)%nat /\ h !! i = Some (input, ActDispatch grant) /\
    h !! j = Some (InFact (FactStarted attempt), ActNone).

(** The grant is for this call, within what was prepared. *)
Definition granted (e0 : GovernedEffect) (grant : InvocationGrant) : Prop :=
  ig_invocation_id grant = ge_invocation_id e0 /\ ig_prepared_digest grant = pc_input_digest (ge_prepared e0) /\
  ig_tool_name grant = pc_tool_name (ge_prepared e0) /\ ig_tool_revision grant = pc_tool_revision (ge_prepared e0) /\
  er_max_duration_ms (ig_granted_requirements grant) <= er_max_duration_ms (pc_requirements (ge_prepared e0)) /\
  er_max_output_bytes (ig_granted_requirements grant) <= er_max_output_bytes (pc_requirements (ge_prepared e0)) /\
  (forall capability, capability ∈ er_capabilities (ig_granted_requirements grant) ->
     capability ∈ er_capabilities (pc_requirements (ge_prepared e0))).

(** The receipt is of this call under the grant, with the outcome it classifies. *)
Definition receipted (e0 : GovernedEffect) (receipt : EffectReceipt) (grant : InvocationGrant)
    (terminal : TerminalClassification) : Prop :=
  rc_invocation_id receipt = ge_invocation_id e0 /\ rc_prepared_digest receipt = pc_input_digest (ge_prepared e0) /\
  rc_grant_id receipt = ig_grant_id grant /\ rc_terminal_classification receipt = terminal /\
  rc_prepared_digest receipt <> "" /\ rc_executor_id receipt <> "" /\ rc_executor_revision receipt <> "" /\
  rc_result_digest receipt <> "".

Definition within_output (grant : InvocationGrant) (content : Value) : Prop :=
  exists bytes, json_to_vec content = Some bytes /\ str_len bytes <= er_max_output_bytes (ig_granted_requirements grant).

(** The request of an interaction about this call. *)
Definition asks_about (e0 : GovernedEffect) (request : InteractionRequest) : Prop :=
  ir_invocation_id request = ge_invocation_id e0 /\ ir_prepared_digest request = pc_input_digest (ge_prepared e0).

(** The resolution names the interaction of the request, and a response satisfies its schema. *)
Definition answers (request : InteractionRequest) (resolution : InteractionResolution) : Prop :=
  match resolution with
  | Resolved interaction_id invocation_id prepared_digest response =>
      interaction_id = ir_interaction_id request /\ invocation_id = ir_invocation_id request /\
      prepared_digest = ir_prepared_digest request /\ satisfies (ir_response_schema request) response
  | Cancelled interaction_id invocation_id prepared_digest =>
      interaction_id = ir_interaction_id request /\ invocation_id = ir_invocation_id request /\
      prepared_digest = ir_prepared_digest request
  end.

(** The last step of [h] suspended the effect for the request. *)
Definition suspended_for (h : History) (request : InteractionRequest) : Prop :=
  last h = Some (InVerdict (InteractionRequired request), ActSuspend (SuspendInteraction request)).

(** What stands behind an observation: nothing was dispatched before a rejection;
    a result comes from a started dispatch with a receipt bound to its grant. *)
Definition justified (e0 : GovernedEffect) (earlier : History) (input : EffectInput) (o : GovernedObservation) : Prop :=
  go_invocation_id o = ge_invocation_id e0 /\ go_prepared_digest o = pc_input_digest (ge_prepared e0) /\
  go_model_call_id o = pc_model_call_id (ge_prepared e0) /\ go_tool_name o = pc_tool_name (ge_prepared e0) /\
  match go_outcome o with
  | Rejected _ _ => dispatched earlier = []
  | Succeeded content truncated => exists grant receipt, started_under earlier grant /\
      input = InFact (FactCompleted (Some receipt) content truncated) /\
      receipted e0 receipt grant ClassCompleted /\ within_output grant content
  | OutcomeFailed code details partial => exists grant receipt, started_under earlier grant /\
      input = InFact (FactFailed (Some receipt) code details partial) /\ code <> "" /\
      receipted e0 receipt grant ClassFailed /\
      (forall content, partial = Some content -> within_output grant content)
  end.

(** An effect is suspended for a request about this call; it is resumed, or rejected by a
    cancellation, only by an answer to the request it was just suspended for. *)
Definition interaction_bound (e0 : GovernedEffect) (earlier : History) (input : EffectInput) (a : GovernedAction) : Prop :=
  match input, a with
  | InResolution resolution, (ActAuthorize | ActObservation _) =>
      exists request, suspended_for earlier request /\ asks_about e0 request /\ answers request resolution /\
        (a = ActAuthorize <-> exists i v d response, resolution = Resolved i v d response)
  | _, ActAuthorize => False
  | InVerdict (InteractionRequired request), ActSuspend requirement =>
      requirement = SuspendInteraction request /\ asks_about e0 request
  | _, ActSuspend (SuspendInteraction _) => False
  | InResolution _, (ActDispatch _ | ActSuspend _) => False
  | _, _ => True
  end.

Definition governed (e0 : GovernedEffect) (h : History) : Prop :=
  (forall k input grant, h !! k = Some (input, ActDispatch grant) ->
     input = InVerdict (Approve grant) /\ granted e0 grant) /\
  (forall k input o, h !! k = Some (input, ActObservation o) -> justified e0 (take k h) input o) /\
  (forall k input a, h !! k = Some (input, a) -> interaction_bound e0 (take k h) input a) /\
  (length (dispatched h) <= 1)%nat /\ (length (observed h) <= 1)%nat.

(** How far the effect has come, from its state. *)
Definition phase_ok (e : GovernedEffect) (h : History) : Prop :=
  match ge_state e with
  | Prepared => dispatched h = [] /\ observed h = []
  | AwaitingInteraction request =>
      dispatched h = [] /\ observed h = [] /\ validate_value_definition (ir_response_schema request) = Ok tt /\
      suspended_for h request /\ asks_about e request /\ ge_last_interaction_resolution e = None
  | Authorized grant =>
      observed h = [] /\ dispatched h = [grant] /\ exists i input, h !! i = Some (input, ActDispatch grant)
  | Started grant => observed h = [] /\ dispatched h = [grant] /\ started_under h grant
  | _ => True
  end.

Definition same_call (e0 e : GovernedEffect) : Prop :=
  ge_invocation_id e = ge_invocation_id e0 /\ ge_prepared e = ge_prepared e0.

Definition history_inv (e0 e : GovernedEffect) (h : History) : Prop :=
  same_call e0 e /\ phase_ok e h /\ governed e0 h.

(** ** Extending a history *)

Lemma started_under_app h p grant : started_under h grant -> started_under (h ++ [p]) grant.
Proof.
  intros (i & j & input & attempt & Hij & Hi & Hj). exists i, j, input, attempt.
  split_and!; [done|by apply lookup_app_l_Some..].
Qed.

Lemma dispatched_snoc h input a :
  dispatched (h ++ [(input, a)]) = dispatched h ++ match a with ActDispatch g => [g] | _ => [] end.
Proof. unfold dispatched. rewrite omap_app. by destruct a. Qed.
Lemma observed_snoc h input a :
  observed (h ++ [(input, a)]) = observed h ++ match a with ActObservation o => [o] | _ => [] end.
Proof. unfold observed. rewrite omap_app. by destruct a. Qed.

Lemma governed_snoc e0 h input a : governed e0 h ->
  (forall grant, a = ActDispatch grant ->
     input = InVerdict (Approve grant) /\ granted e0 grant /\ dispatched h = []) ->
  (forall o, a = ActObservation o -> justified e0 h input o /\ observed h = []) ->
  interaction_bound e0 h input a ->
  governed e0 (h ++ [(input, a)]).
Proof.
  intros (Hd & Ho & Hi & Hnd & Hno) Hnewd Hnewo Hnewi. split_and!.
  - intros k i grant [[_ Hk]|[Hk Hx]]%lookup_snoc_Some; [by eapply Hd|]. injection Hx as <- ->.
    by destruct (Hnewd grant eq_refl) as (? & ? & _).
  - intros k i o [[Hlt Hk]|[Hk Hx]]%lookup_snoc_Some.
    + rewrite take_app_le by lia. by apply Ho.
    + injection Hx as <- ->. subst k. rewrite take_app_length. by apply Hnewo.
  - intros k i b [[Hlt Hk]|[Hk Hx]]%lookup_snoc_Some.
    + rewrite take_app_le by lia. by apply Hi.
    + injection Hx as <- ->. subst k. by rewrite take_app_length.
  - rewrite dispatched_snoc, length_app. destruct a; simpl; try lia.
    destruct (Hnewd grant eq_refl) as (_ & _ & ->). simpl. lia.
  - rewrite observed_snoc, length_app. destruct a; simpl; try lia.
    destruct (Hnewo _ eq_refl) as [_ ->]. simpl. lia.
Qed.

Lemma governed_quiet e0 h input a : governed e0 h -> (forall g, a <> ActDispatch g) -> (forall o, a <> ActObservation o) ->
  interaction_bound e0 h input a -> governed e0 (h ++ [(input, a)]).
Proof. intros Hg H1 H2. apply governed_snoc; [done|intros g Hx; by destruct (H1 g)|intros o Hx; by destruct (H2 o)]. Qed.

Lemma grant_binds_granted e0 e grant : same_call e0 e -> grant_binds e grant = true -> granted e0 grant.
Proof.
  intros [H1 H2]. unfold grant_binds, granted. rewrite H1, H2. intros Hb. bool_hyps.
  match goal with H : forallb _ _ = true |- _ => rewrite forallb_forall in H; rename H into Hc end.
  split_and!; try done. intros c Hin%list_elem_of_In. apply Hc in Hin. unfold has in Hin. by bool_hyps.
Qed.

Lemma receipt_binds_receipted e0 e receipt grant t : same_call e0 e -> receipt_binds e receipt grant t = true ->
  receipted e0 receipt grant t.
Proof.
  intros [H1 H2]. unfold receipt_binds, receipted, receipt_validate, required. rewrite H1, H2. intros Hb.
  destruct (str_is_empty (rc_prepared_digest receipt)) eqn:E1; [done|]. destruct (str_is_empty (rc_executor_id receipt)) eqn:E2; [done|].
  destruct (str_is_empty (rc_executor_revision receipt)) eqn:E3; [done|]. destruct (str_is_empty (rc_result_digest receipt)) eqn:E4; [done|].
  bool_hyps. rewrite str_is_empty_false in *. by split_and!.
Qed.

Lemma oversized_within grant content : oversized grant content = false -> within_output grant content.
Proof.
  unfold oversized, within_output. destruct (json_to_vec content) as [bytes|]; [|done]. intros Hb%Z.ltb_ge. eauto.
Qed.

(** Failing closed keeps the history. *)
Lemma fail_inv e0 e h input code e' a : history_inv e0 e h -> fail_effect e code = (e', a) ->
  history_inv e0 e' (h ++ [(input, a)]).
Proof. intros (Hs & Hp & Hg) [= <- <-]. split_and!; [done|done|]. apply governed_quiet; [done..|]. by destruct input as [[]| |]. Qed.

(** An action that changes nothing. *)
Lemma none_inv e0 e h input : history_inv e0 e h -> (forall request, ge_state e <> AwaitingInteraction request) ->
  history_inv e0 e (h ++ [(input, ActNone)]).
Proof.
  intros (Hs & Hp & Hg) Hn. split_and!; [done| |apply governed_quiet; [done..|by destruct input as [[]| |]]].
  unfold phase_ok in *. rewrite dispatched_snoc, observed_snoc, !app_nil_r. destruct (ge_state e) as [|request| | | | | | |]; try done.
  { by destruct (Hn request). }
  - destruct Hp as (? & ? & i & inp & Hi). split_and!; [done..|]. exists i, inp. by apply lookup_app_l_Some.
  - destruct Hp as (? & ? & Hst). split_and!; [done..|]. by apply started_under_app.
Qed.

(** ** The reducers *)

Lemma justified_rejection e0 e h input code details : same_call e0 e -> dispatched h = [] ->
  justified e0 h input (observation e (Rejected code details)).
Proof. intros [H1 H2] Hd. unfold justified. cbn. rewrite H1, H2. done. Qed.

Lemma authorization_inv e0 e h verdict e' a : history_inv e0 e h -> apply_authorization e verdict = (e', a) ->
  history_inv e0 e' (h ++ [(InVerdict verdict, a)]).
Proof.
  intros Hinv Hstep. unfold apply_authorization in Hstep.
  destruct (ge_state e) eqn:Est; try (by eapply fail_inv).
  - destruct Hinv as (Hs & Hp & Hg). assert (Hinv : history_inv e0 e h) by done.
    unfold phase_ok in Hp. rewrite Est in Hp. destruct Hp as [Hd Ho].
    destruct verdict as [grant|code details| |request].
    + destruct (grant_binds e grant) eqn:Eb; simpl in Hstep; [|by eapply fail_inv]. injection Hstep as <- <-.
      split_and!; [done| |].
      * unfold phase_ok. simpl. rewrite dispatched_snoc, observed_snoc, Hd, Ho. split_and!; [done..|].
        exists (length h), (InVerdict (Approve grant)). by apply lookup_snoc_Some; right.
      * apply governed_snoc; [done| |done|done]. intros g [= <-]. split_and!; [done|by eapply grant_binds_granted|done].
    + destruct (str_is_empty code); [by eapply fail_inv|]. injection Hstep as <- <-. split_and!; [done..|].
      apply governed_snoc; [done..| |done]. intros o [= <-]. split; [|done]. by apply justified_rejection.
    + injection Hstep as <- <-. split_and!; [done..|].
      apply governed_snoc; [done..| |done]. intros o [= <-]. split; [|done]. by apply justified_rejection.
    + destruct (_ || _ || _ || _) eqn:Eb; [by eapply fail_inv|]. injection Hstep as <- <-. bool_hyps.
      assert (Hask : asks_about e0 request) by (destruct Hs as [Hinv1 Hprep]; unfold asks_about; by rewrite <-Hinv1, <-Hprep).
      split_and!; [done| |by apply governed_quiet]. unfold phase_ok. simpl.
      rewrite dispatched_snoc, observed_snoc, Hd, Ho. split_and!; [done|done| |by apply last_snoc|done|done].
      by destruct (validate_value_definition (ir_response_schema request)) as [[]|].
  - destruct verdict; try (by eapply fail_inv). case_bool_decide; [|by eapply fail_inv].
    injection Hstep as <- <-. apply none_inv; [done|]. by rewrite Est.
Qed.

Lemma interaction_inv e0 e h resolution : history_inv e0 e h ->
  exists e' a, apply_interaction e resolution = Ok (e', a) /\ history_inv e0 e' (h ++ [(InResolution resolution, a)]).
Proof.
  intros Hinv. unfold apply_interaction.
  destruct (ge_last_interaction_resolution e) as [existing|] eqn:El.
  { destruct (resolution_eqb existing resolution).
    - exists e, ActNone. split; [done|]. apply none_inv; [done|]. intros request Hst.
      destruct Hinv as (_ & Hp & _). unfold phase_ok in Hp. rewrite Hst in Hp. destruct Hp as (_ & _ & _ & _ & _ & Hl). congruence.
    - eexists _, _. split; [done|]. by eapply fail_inv. }
  destruct (ge_state e) eqn:Est; try (eexists _, _; split; [done|by eapply fail_inv]).
  assert (Hinv' := Hinv). destruct Hinv' as (Hs & Hp & Hg). unfold phase_ok in Hp. rewrite Est in Hp.
  destruct Hp as (Hd & Ho & Hschema & Hlast & Hask & _).
  assert (Hask0 : asks_about e0 request) by (destruct Hs as [H1 H2]; unfold asks_about in *; by rewrite <-H1, <-H2).
  destruct resolution as [i v d response|i v d].
  - destruct (negb _) eqn:Eb; [eexists _, _; split; [done|by eapply fail_inv]|]. bool_hyps.
    destruct (validate_arguments_ok (ir_response_schema request) response Hschema) as (fs & -> & Hsat).
    destruct fs; eexists _, _; (split; [done|]); [|by eapply fail_inv].
    split_and!; [done| |apply governed_quiet; [done..|]].
    + unfold phase_ok. simpl. by rewrite dispatched_snoc, observed_snoc, Hd, Ho.
    + exists request. split_and!; [done|done|by split_and!; [..|apply Hsat]|]. split; [|done]. intros _. by eexists _, _, _, _.
  - destruct (negb _) eqn:Eb; eexists _, _; (split; [done|]); [by eapply fail_inv|]. bool_hyps.
    split_and!; [done..|]. apply governed_snoc; [done..| |].
    + intros o [= <-]. split; [|done]. by apply justified_rejection.
    + exists request. split_and!; [done|done|by split_and!|]. split; [done|]. by intros (? & ? & ? & ? & ?).
Qed.

Lemma execution_inv e0 e h fact e' a : history_inv e0 e h -> apply_execution e fact = (e', a) ->
  history_inv e0 e' (h ++ [(InFact fact, a)]).
Proof.
  intros Hinv Hstep. unfold apply_execution in Hstep.
  assert (Hinv' := Hinv). destruct Hinv' as (Hs & Hp & Hg). unfold phase_ok in Hp.
  destruct (ge_state e) eqn:Est; try (by eapply fail_inv).
  - destruct fact; try (by eapply fail_inv).
    + injection Hstep as <- <-. destruct Hp as (Ho & Hd & i & inp & Hi). split_and!; [done| |by apply governed_quiet].
      unfold phase_ok. simpl. rewrite dispatched_snoc, observed_snoc, Hd, Ho. split_and!; [done..|].
      exists i, (length h), inp, attempt. apply lookup_lt_Some in Hi as Hlt.
      split_and!; [done|by apply lookup_app_l_Some|by apply lookup_snoc_Some; right].
    + destruct (str_is_empty requirement); by eapply fail_inv.
  - destruct Hp as (Ho & Hd & Hst). destruct fact as [attempt|receipt content truncated|receipt code details partial|evidence|requirement];
      try (by eapply fail_inv).
    + destruct receipt as [receipt|]; [|by eapply fail_inv].
      destruct (_ || _) eqn:Eb; [by eapply fail_inv|]. injection Hstep as <- <-. bool_hyps.
      split_and!; [done..|]. apply governed_snoc; [done..| |done]. intros o [= <-]. split; [|done].
      destruct (Hs) as [Hcall Hprep]. split_and!; cbn; [congruence..|]. exists grant, receipt.
      split_and!; [done|done|by eapply receipt_binds_receipted|by apply oversized_within].
    + destruct receipt as [receipt|]; [|by eapply fail_inv].
      destruct (_ || _ || _) eqn:Eb; [by eapply fail_inv|]. injection Hstep as <- <-. bool_hyps.
      split_and!; [done..|]. apply governed_snoc; [done..| |done]. intros o [= <-]. split; [|done].
      destruct (Hs) as [Hcall Hprep]. split_and!; cbn; [congruence..|]. exists grant, receipt.
      split_and!; [done|done|by apply str_is_empty_false|by eapply receipt_binds_receipted|].
      intros content ->. by apply oversized_within.
    + destruct (str_is_empty evidence); [by eapply fail_inv|]. injection Hstep as <- <-.
      split_and!; [done..|]. by apply governed_quiet.
Qed.

Lemma effect_step_inv e0 e h input : history_inv e0 e h ->
  exists e' a, effect_step e input = Ok (e', a) /\ history_inv e0 e' (h ++ [(input, a)]).
Proof.
  intros Hinv. destruct input as [verdict|resolution|fact]; simpl.
  - destruct (apply_authorization e verdict) as [e' a] eqn:E. exists e', a. split; [done|]. by eapply authorization_inv.
  - by apply interaction_inv.
  - destruct (apply_execution e fact) as [e' a] eqn:E. exists e', a. split; [done|]. by eapply execution_inv.
Qed.

Lemma effect_run_inv e0 e h inputs : history_inv e0 e h ->
  exists e' actions, effect_run e inputs = Ok (e', actions) /\ length actions = length inputs /\
    history_inv e0 e' (h ++ zip inputs actions).
Proof.
  revert e h. induction inputs as [|input inputs IH]; intros e h Hinv.
  - exists e, []. by rewrite app_nil_r.
  - destruct (effect_step_inv e0 e h input Hinv) as (e1 & a & Hstep & Hinv1).
    destruct (IH e1 _ Hinv1) as (e' & actions & Hrun & Hlen & Hinv').
    exists e', (a :: actions). cbn [effect_run]. rewrite Hstep, Hrun. split_and!; [done|simpl; lia|].
    by rewrite <-app_assoc in Hinv'.
Qed.

(** C7: Along every sequence of authorization, interaction and execution facts, an effect is
    dispatched at most once and only under a grant bound to its invocation, prepared digest and
    requirements. It is suspended only for a request about its own call; a resolution resumes or
    cancels it only when it names the interaction, invocation and digest the effect was just
    suspended for, a response satisfying the schema of that request. A result is observed only
    with a receipt of that grant and within its output bound, a rejection only when nothing was
    dispatched. *)
Theorem governed_effect_authority invocation_id prepared inputs :
  let e0 := (governed_effect_new invocation_id prepared).1 in
  exists final actions, effect_run e0 inputs = Ok (final, actions) /\ length actions = length inputs /\
    governed e0 (zip inputs actions).
Proof.
  intros e0. destruct (effect_run_inv e0 e0 [] inputs) as (final & actions & Hr & Hl & _ & _ & Hg).
  - split_and!; [done..|]. split_and!; [by intros ? ? ? ?..|simpl; lia|simpl; lia].
  - by exists final, actions.
Qed.
End governed.

(** A started effect without a receipt is repeated only with the executor's proof,
    and never when its class forbids it. *)
Lemma recovery_never_repeats position replay_class executor_proves_replay :
  (recover_effect position replay_class executor_proves_replay = RetrySameInvocation <->
   position = PosStartedNoReceipt /\ executor_proves_replay = true /\
   (replay_class = ReadOnly \/ replay_class = Idempotent)) /\
  (position = PosStartedNoReceipt -> replay_class = NeverReplay \/ executor_proves_replay = false ->
   recover_effect position replay_class executor_proves_replay = ReconcileOperator).
Proof. destruct position, replay_class, executor_proves_replay; simpl; naive_solver. Qed.
