(* ===== verification/Checks.v ===== *)
(** * Input checks that the capability crates repeat

    Bounded trimmed texts, lowercase SHA-256 digests and strictly increasing
    lists, bounded prefixes and content bindings, with what an accepted value
    satisfies. *)

From S2P Require Import Prelude Text Order Json ToolSchema ToolPrepared.

Definition valid_text (value : string) (max_bytes : Z) : bool :=
  negb (str_is_empty value) && (str_len value <=? max_bytes) && is_trimmed value.

(** Sixty-four bytes, each a digit or one of [a] to [f]. *)
Definition valid_sha256 (value : string) : bool :=
  (str_len value =? 64)
  && all_bytes (fun byte => is_ascii_digit byte || (97 <=? byte_code byte) && (byte_code byte <=? 102)) value.

(** [windows(2).all(|pair| pair[0] < pair[1])]. *)
Definition ordered_unique `{Ord T} (values : list T) : bool :=
  negb (windows_any (fun a b => match cmp a b with Lt => false | _ => true end) values).

(** [values.iter().all(|value| set.insert(value))] over an empty set. *)
Definition all_distinct `{EqDecision A} (values : list A) : bool := bool_decide (NoDup values).

(** [Vec::is_empty]. *)
Definition vec_is_empty {A} (l : list A) : bool := match l with [] => true | _ => false end.

(** [u64::saturating_add]. *)
Definition saturating_add (a b : Z) : Z := Z.min (a + b) u64_max.

(** ** What the checks decide *)

Lemma ordered_unique_sorted `{Ord T} (values : list T) :
  ordered_unique values = true <-> StronglySorted (fun a b => cmp a b = Lt) values.
Proof.
  unfold ordered_unique. rewrite negb_true_iff. induction values as [|a [|b values] IH]; cbn [windows_any].
  - split; [constructor|done].
  - split; [intros _; repeat constructor|done].
  - rewrite orb_false_iff, IH. split.
    + intros [Hab Hs]. assert (cmp a b = Lt) as Hlt by (by destruct (cmp a b)). constructor; [done|].
      apply StronglySorted_inv in Hs as [_ Hall]. constructor; [done|].
      eapply Forall_impl; [exact Hall|]. intros c Hc. by apply (cmp_trans a b c).
    + intros Hs%StronglySorted_inv. destruct Hs as [Hs Hall]. split; [|done].
      apply Forall_inv in Hall. by rewrite Hall.
Qed.

Lemma ordered_unique_nodup `{Ord T} (values : list T) : ordered_unique values = true -> NoDup values.
Proof.
  rewrite ordered_unique_sorted. induction 1 as [|a values _ IH Hall]; constructor; [|done].
  intros Hin. rewrite Forall_forall in Hall. apply Hall in Hin. by rewrite cmp_refl in Hin.
Qed.

(** A loop that inserts one key per item and returns at the first repeated key or
    failed check ends well exactly when keys are new and distinct and checks hold. *)
Lemma insert_fold_ok {E X} `{Countable K} (key : X -> K) (bad : X -> bool) (refusal : E) (items : list X) :
  forall seen, is_ok (try_fold (fun (seen : gset K) x =>
       if bool_decide (key x ∈ seen) || bad x then Err refusal else Ok ({[key x]} ∪ seen)) seen items) = true <->
    NoDup (key <$> items) /\ forall x, x ∈ items -> key x ∉ seen /\ bad x = false.
Proof.
  induction items as [|x items IH]; intros seen.
  { cbn. split; [|done]. intros _. split; [constructor|]. by intros y Hy%elem_of_nil. }
  cbn [try_fold]. rewrite fmap_cons, list.NoDup_cons.
  destruct (bool_decide (key x ∈ seen)) eqn:Hin; cbn [orb].
  { apply bool_decide_eq_true in Hin. split; [done|]. intros (_ & Hx). by destruct (Hx x); [left|]. }
  apply bool_decide_eq_false in Hin. destruct (bad x) eqn:Hbad.
  { split; [done|]. intros (_ & Hx). destruct (Hx x); [left|congruence]. }
  rewrite IH. setoid_rewrite not_elem_of_union. setoid_rewrite not_elem_of_singleton.
  setoid_rewrite elem_of_cons. setoid_rewrite list_elem_of_fmap. split.
  - intros (Hn & Hx). split; [split; [|done]|].
    + intros (y & Heq & Hy). destruct (Hx y Hy) as [[Hne _] _]. by symmetry in Heq.
    + intros y [->|Hy]; [done|]. by destruct (Hx y Hy) as [[_ ?] ?].
  - intros ((Hn & Hd) & Hx). split; [done|]. intros y Hy. destruct (Hx y (or_intror Hy)). split; [|done].
    split; [|done]. intros Heq. apply Hn. exists y. by split.
Qed.

(** ** Bounded prefixes

    Items are taken in order while a count and a total size allow the next one. *)

Definition bounded_cut {A} (size : A -> Z) (max_count max_size count total : Z) (taken rest : list A) : Prop :=
  count + Z.of_nat (length taken) <= max_count /\ total + zsum_by size taken <= max_size
  /\ match rest with
     | [] => True
     | item :: _ => count + Z.of_nat (length taken) = max_count \/ max_size < total + zsum_by size taken + size item
     end.

Lemma bounded_cut_unique {A} (size : A -> Z) max_count max_size (items : list A) : forall count total t1 r1 t2 r2,
  Forall (fun x => 0 <= size x) items -> items = t1 ++ r1 -> items = t2 ++ r2 ->
  bounded_cut size max_count max_size count total t1 r1 -> bounded_cut size max_count max_size count total t2 r2 ->
  t1 = t2 /\ r1 = r2.
Proof.
  assert (forall l, Forall (fun x => 0 <= size x) l -> 0 <= zsum_by size l) as Hnn.
  { induction 1; cbn; [lia|]. fold (zsum_by size l). lia. }
  induction items as [|x items IH]; intros count total t1 r1 t2 r2 Hpos H1 H2 Hb1 Hb2.
  { destruct t1, t2; try done. by simplify_eq/=. }
  apply Forall_cons in Hpos as [Hx Hpos].
  destruct t1 as [|y t1], t2 as [|z t2]; simplify_eq/=; [done| | |].
  1,2: exfalso; unfold bounded_cut in *; cbn [length zsum_by foldr] in *;
    apply Forall_app in Hpos as [Hpos _]; apply Hnn in Hpos; unfold zsum_by in *; lia.
  destruct (IH (count + 1) (total + size y) t1 r1 t2 r2) as [-> ->]; try done;
    unfold bounded_cut in *; cbn [length zsum_by foldr] in *; unfold zsum_by in *.
  - destruct r1; lia.
  - destruct r2; lia.
Qed.

(** The loop that takes items in order until [max_count] are taken or the next one
    would pass [max_size], and says whether it left any. *)
Fixpoint take_within {A} (size : A -> Z) (max_count max_size count total : Z) (items : list A) : list A * bool :=
  match items with
  | [] => ([], false)
  | item :: rest =>
      let next := saturating_add total (size item) in
      if (count =? max_count) || (max_size <? next) then ([], true)
      else let '(taken, stopped) := take_within size max_count max_size (count + 1) next rest in (item :: taken, stopped)
  end.

Lemma take_within_spec {A} (size : A -> Z) max_count max_size (items : list A) : forall count total,
  max_size < u64_max -> total <= max_size -> count <= max_count ->
  exists rest, items = (take_within size max_count max_size count total items).1 ++ rest
    /\ (take_within size max_count max_size count total items).2 = bool_decide (rest <> [])
    /\ bounded_cut size max_count max_size count total (take_within size max_count max_size count total items).1 rest.
Proof.
  unfold bounded_cut. induction items as [|x items IH]; intros count total Hmax Ht Hc; cbn [take_within].
  { exists []. cbn. split_and!; try done; lia. }
  unfold saturating_add. destruct (_ || _) eqn:Hstop.
  { exists (x :: items). cbn. split_and!; try done; lia. }
  assert (Z.min (total + size x) u64_max = total + size x) as -> by lia.
  destruct (IH (count + 1) (total + size x)) as (rest & Heq & Hflag & H1 & H2 & H3); try done; try lia.
  exists rest. destruct (take_within _ _ _ _ _ items) as [taken stopped]. cbn in *. split_and!; try done.
  - by rewrite <-Heq.
  - lia.
  - unfold zsum_by in *. lia.
  - destruct rest; [done|]. unfold zsum_by in *. destruct H3; [left; lia|right; lia].
Qed.

(** Sorting by a key that tells the elements apart does not depend on their order. *)
Lemma sort_by_key_proper {A} `{Ord K} (key : A -> K) (l l' : list A) :
  l ≡ₚ l' -> (forall x y, x ∈ l -> y ∈ l -> key x = key y -> x = y) -> sort_by_key key l = sort_by_key key l'.
Proof.
  intros Hp Hinj. apply (StronglySorted_unique_strong (key_le_of key)).
  - intros x y Hx Hy H1 H2. rewrite sort_by_key_perm in Hx, Hy. rewrite <-Hp in Hy. apply Hinj; [done..|].
    by apply (anti_symm le_of).
  - apply sort_by_key_sorted.
  - apply sort_by_key_sorted.
  - by rewrite !sort_by_key_perm.
Qed.

(** Within a bound below the limit of [u64] a saturating sum is the sum. *)
Lemma saturating_sum {A} (size : A -> Z) (l : list A) : forall total, Forall (fun x => 0 <= size x) l ->
  total + zsum_by size l < u64_max -> foldl (fun n x => saturating_add n (size x)) total l = total + zsum_by size l.
Proof.
  induction l as [|x l IH]; intros total Hpos Hb; cbn in *; [lia|]. fold (zsum_by size l) in *.
  apply Forall_cons in Hpos as [Hx Hpos]. unfold saturating_add at 2.
  assert (0 <= zsum_by size l) by (clear -Hpos; induction Hpos; cbn; [lia|fold (zsum_by size l); lia]).
  rewrite Z.min_l by lia. rewrite IH; [lia|done|lia].
Qed.

#[export] Instance zsum_by_proper {A} (f : A -> Z) : Proper ((≡ₚ) ==> eq) (zsum_by f).
Proof. induction 1; cbn in *; unfold zsum_by in *; cbn; lia. Qed.

(** ** Content bindings

    The exact content value the delegation, knowledge and memory crates repeat: a
    digest with the text itself or with an opaque reference the runtime resolves. *)

Record ContentBinding := mkContent {
  ct_digest : string;
  ct_inline_utf8 : option string;
  ct_reference : option string;
}.
#[export] Instance ContentBinding_eq_dec : EqDecision ContentBinding.
Proof. solve_decision. Defined.

(** The serialised form; an absent member is left out. *)
Definition content_json (c : ContentBinding) : Value :=
  json_object ([("digest", Str (ct_digest c))] ++ json_field "inline_utf8" Str (ct_inline_utf8 c)
               ++ json_field "reference" Str (ct_reference c)).

Section content.
Context `{Externals}.

Definition content_from_inline (value : string) : ContentBinding := mkContent (sha256_hex value) (Some value) None.

(** The two checked constructors, under the error of the crate. *)
Definition content_inline {E} (refusal : E) (digest value : string) : result E ContentBinding :=
  reject refusal when negb (valid_sha256 digest) || negb (sha256_hex value =? digest)%string;
  Ok (mkContent digest (Some value) None).
Definition content_referenced {E} (refusal : E) (digest reference : string) : result E ContentBinding :=
  reject refusal when negb (valid_sha256 digest) || negb (valid_text reference 512);
  Ok (mkContent digest None (Some reference)).

(** Only [from_inline], [inline] and [referenced] make bindings. *)
Definition content_constructed (c : ContentBinding) : Prop :=
  match ct_inline_utf8 c with
  | Some text => sha256_hex text = ct_digest c /\ ct_reference c = None
  | None => exists r, ct_reference c = Some r /\ valid_text r 512 = true /\ valid_sha256 (ct_digest c) = true
  end.

Lemma content_constructors {E} (refusal : E) digest text c :
  content_inline refusal digest text = Ok c \/ content_referenced refusal digest text = Ok c
  \/ c = content_from_inline text -> content_constructed c.
Proof.
  unfold content_inline, content_referenced, content_constructed. intros [Hc|[Hc| ->]]; [| |done].
  - destruct (_ || _) eqn:E0 in Hc; [done|]. injection Hc as <-. bool_hyps. done.
  - destruct (_ || _) eqn:E0 in Hc; [done|]. injection Hc as <-. bool_hyps. by exists text.
Qed.
End content.
