(* ===== verification/Skill.v ===== *)
(** * Skills ([engine/skill/src/definition.rs], [reducer.rs])

    Definitions of instruction skills and the deterministic selection of the
    skills one iteration activates. *)

From S2P Require Import Prelude Json Text Order ToolSchema ToolPrepared Checks.

(** ** Definitions *)

Inductive SkillErrorCode :=
  | InvalidSkill | SkillNotEnabled | SkillRevisionMismatch | InstructionDigestMismatch
  | ActivationModeUnsupported | RequiredCapabilityUnavailable | InstructionLimitExceeded | ActivationConflict
  | DurabilityFailure | CorruptSkillState.

Definition skill_wire_name (self : SkillErrorCode) : string :=
  match self with
  | InvalidSkill => "invalid_skill"
  | SkillNotEnabled => "skill_not_enabled"
  | SkillRevisionMismatch => "skill_revision_mismatch"
  | InstructionDigestMismatch => "instruction_digest_mismatch"
  | ActivationModeUnsupported => "activation_mode_unsupported"
  | RequiredCapabilityUnavailable => "required_capability_unavailable"
  | InstructionLimitExceeded => "instruction_limit_exceeded"
  | ActivationConflict => "activation_conflict"
  | DurabilityFailure => "durability_failure"
  | CorruptSkillState => "corrupt_skill_state"
  end.

Definition MAX_ID_BYTES : Z := 128.
Definition MAX_NAME_BYTES : Z := 256.
Definition MAX_DESCRIPTION_BYTES : Z := 4096.
Definition MAX_TAG_BYTES : Z := 128.
Definition MAX_REFERENCE_BYTES : Z := 256.

Record ContentBinding := mkContentBinding {
  cb_digest : string;
  cb_inline_utf8 : string;
}.
#[export] Instance ContentBinding_eq_dec : EqDecision ContentBinding.
Proof. solve_decision. Defined.

Definition byte_len (self : ContentBinding) : Z := str_len (cb_inline_utf8 self).

Record CapabilityReference := mkCapabilityReference {
  cr_kind : string;
  cr_name : string;
  cr_exact_revision : string;
  cr_contract_version : string;
}.
#[export] Instance CapabilityReference_eq_dec : EqDecision CapabilityReference.
Proof. solve_decision. Defined.
Definition capability_view (r : CapabilityReference) : string * string * string * string :=
  (cr_kind r, cr_name r, cr_exact_revision r, cr_contract_version r).
Lemma capability_view_inj a b : capability_view a = capability_view b -> a = b.
Proof. destruct a, b. by intros [= -> -> -> ->]. Qed.
#[export] Instance Ord_capability_reference : Ord CapabilityReference := Ord_view capability_view capability_view_inj.

Definition capability_reference_new (kind name exact_revision contract_version : string)
    : result SkillErrorCode CapabilityReference :=
  reject InvalidSkill when
    existsb (fun part => negb (valid_text part MAX_REFERENCE_BYTES)) [kind; name; exact_revision; contract_version];
  Ok (mkCapabilityReference kind name exact_revision contract_version).

Record ExactToolReference := mkToolReference {
  tr_name : string;
  tr_exact_revision : string;
}.
#[export] Instance ExactToolReference_eq_dec : EqDecision ExactToolReference.
Proof. solve_decision. Defined.
Definition reference_view (r : ExactToolReference) : string * string := (tr_name r, tr_exact_revision r).
Lemma reference_view_inj a b : reference_view a = reference_view b -> a = b.
Proof. destruct a, b. by intros [= -> ->]. Qed.
#[export] Instance Ord_tool_reference : Ord ExactToolReference := Ord_view reference_view reference_view_inj.

Definition tool_reference_new (name exact_revision : string) : result SkillErrorCode ExactToolReference :=
  reject InvalidSkill when
    negb (valid_text name MAX_REFERENCE_BYTES) || negb (valid_text exact_revision MAX_REFERENCE_BYTES);
  Ok (mkToolReference name exact_revision).

Inductive ActivationPolicy := ExplicitOnly | TaggedPolicy (tags : list string).
#[export] Instance ActivationPolicy_eq_dec : EqDecision ActivationPolicy.
Proof. solve_decision. Defined.

Definition policy_tagged (tags : list string) : result SkillErrorCode ActivationPolicy :=
  reject InvalidSkill when
    bool_decide (tags = []) || existsb (fun tag => negb (valid_text tag MAX_TAG_BYTES)) tags
    || negb (ordered_unique tags);
  Ok (TaggedPolicy tags).

Definition matched_tag_count (self : ActivationPolicy) (trusted : gset string) : nat :=
  match self with
  | ExplicitOnly => 0%nat
  | TaggedPolicy tags => length (filter (fun tag => tag ∈ trusted) tags)
  end.

Record SkillDefinition := mkSkill {
  sk_skill_id : string;
  sk_skill_revision : string;
  sk_name : string;
  sk_description : string;
  sk_instructions : ContentBinding;
  sk_activation : ActivationPolicy;
  sk_required_capabilities : list CapabilityReference;
  sk_allowed_tool_references : list ExactToolReference;
  sk_max_instruction_bytes : Z;
  sk_contract_version : string;
}.
#[export] Instance SkillDefinition_eq_dec : EqDecision SkillDefinition.
Proof. solve_decision. Defined.

Definition skill_definition_new (skill_id skill_revision name description : string) (instructions : ContentBinding)
    (activation : ActivationPolicy) (required_capabilities : list CapabilityReference)
    (allowed_tool_references : list ExactToolReference) (max_instruction_bytes : Z) (contract_version : string)
    : result SkillErrorCode SkillDefinition :=
  reject InvalidSkill when
    negb (valid_text skill_id MAX_ID_BYTES) || negb (valid_text skill_revision MAX_ID_BYTES)
    || negb (valid_text name MAX_NAME_BYTES) || negb (valid_text description MAX_DESCRIPTION_BYTES)
    || negb (valid_text contract_version MAX_REFERENCE_BYTES)
    || (max_instruction_bytes =? 0) || (max_instruction_bytes <? byte_len instructions)
    || negb (ordered_unique required_capabilities) || negb (ordered_unique allowed_tool_references);
  Ok (mkSkill skill_id skill_revision name description instructions activation required_capabilities
        allowed_tool_references max_instruction_bytes contract_version).

(** ** Requests *)

Inductive ActivationMode := ExplicitMode | TaggedMode.
Inductive ActivationReason := ReasonExplicit | ReasonTagMatch.
#[export] Instance ActivationMode_eq_dec : EqDecision ActivationMode.
Proof. solve_decision. Defined.

Definition mode_from_wire (value : string) : result SkillErrorCode ActivationMode :=
  if (value =? "explicit")%string then Ok ExplicitMode
  else if (value =? "tagged")%string then Ok TaggedMode
  else Err ActivationModeUnsupported.

Record SkillActivationRequest := mkSkillRequest {
  sq_activation_id : string;
  sq_turn_id : string;
  sq_execution_id : string;
  sq_iteration : Z;
  sq_mode : ActivationMode;
  sq_requested_skill_id : option string;
  sq_trusted_tags : list string;
  sq_through_position : Z;
  sq_max_active_skills : Z;
  sq_max_total_instruction_bytes : Z;
}.

Definition skill_valid_id (value : string) : bool :=
  negb (str_is_empty value) && (str_len value <=? MAX_ID_BYTES) && is_trimmed value.
Definition skill_valid_tag (value : string) : bool :=
  negb (str_is_empty value) && (str_len value <=? MAX_TAG_BYTES) && is_trimmed value.

Definition skill_request_new (activation_id turn_id execution_id : string) (iteration : Z) (mode : ActivationMode)
    (requested_skill_id : option string) (trusted_tags : list string)
    (through_position max_active_skills max_total_instruction_bytes : Z)
    : result SkillErrorCode SkillActivationRequest :=
  let explicit_shape := is_some requested_skill_id && bool_decide (trusted_tags = []) in
  let tagged_shape := is_none requested_skill_id in
  reject InvalidSkill when
    negb (skill_valid_id activation_id) || negb (skill_valid_id turn_id) || negb (skill_valid_id execution_id)
    || (iteration =? 0) || (max_active_skills =? 0) || (max_total_instruction_bytes =? 0)
    || is_some_and (fun id => negb (skill_valid_id id)) requested_skill_id
    || existsb (fun tag => negb (skill_valid_tag tag)) trusted_tags
    || negb (ordered_unique trusted_tags)
    || (bool_decide (mode = ExplicitMode) && negb explicit_shape)
    || (bool_decide (mode = TaggedMode) && negb tagged_shape);
  Ok (mkSkillRequest activation_id turn_id execution_id iteration mode requested_skill_id trusted_tags
        through_position max_active_skills max_total_instruction_bytes).

(** ** Digests *)

Definition policy_kind_json (p : ActivationPolicy) : Value :=
  match p with
  | ExplicitOnly => json_object [("kind", Str "explicit_only")]
  | TaggedPolicy tags => json_object [("kind", Str "tagged"); ("tags", json_strings tags)]
  end.
Definition skill_json (d : SkillDefinition) : Value :=
  json_object
    [("skill_id", Str (sk_skill_id d)); ("skill_revision", Str (sk_skill_revision d)); ("name", Str (sk_name d));
     ("description", Str (sk_description d));
     ("instructions", json_object [("digest", Str (cb_digest (sk_instructions d)));
                                   ("inline_utf8", Str (cb_inline_utf8 (sk_instructions d)))]);
     ("activation", policy_kind_json (sk_activation d));
     ("required_capabilities", Arr ((fun r => json_object
        [("kind", Str (cr_kind r)); ("name", Str (cr_name r)); ("exact_revision", Str (cr_exact_revision r));
         ("contract_version", Str (cr_contract_version r))]) <$> sk_required_capabilities d));
     ("allowed_tool_references", Arr ((fun r => json_object
        [("name", Str (tr_name r)); ("exact_revision", Str (tr_exact_revision r))]) <$> sk_allowed_tool_references d));
     ("max_instruction_bytes", json_nat (sk_max_instruction_bytes d));
     ("contract_version", Str (sk_contract_version d))].
Definition skill_request_json (r : SkillActivationRequest) : Value :=
  json_object
    [("turn_id", Str (sq_turn_id r)); ("execution_id", Str (sq_execution_id r)); ("iteration", json_nat (sq_iteration r));
     ("mode", Str (match sq_mode r with ExplicitMode => "explicit" | TaggedMode => "tagged" end));
     ("requested_skill_id", match sq_requested_skill_id r with Some id => Str id | None => Null end);
     ("trusted_tags", json_strings (sq_trusted_tags r)); ("through_position", json_nat (sq_through_position r));
     ("max_active_skills", json_nat (sq_max_active_skills r));
     ("max_total_instruction_bytes", json_nat (sq_max_total_instruction_bytes r))].

Section digests.
Context `{Externals, Jcs}.

Definition content_binding_new (digest inline_utf8 : string) : result SkillErrorCode ContentBinding :=
  reject InstructionDigestMismatch when
    negb (valid_sha256 digest) || negb (sha256_hex inline_utf8 =? digest)%string;
  Ok (mkContentBinding digest inline_utf8).
Definition content_from_inline (inline_utf8 : string) : ContentBinding :=
  mkContentBinding (sha256_hex inline_utf8) inline_utf8.

Definition definition_digest (self : SkillDefinition) : result SkillErrorCode string :=
  let? text := ok_or (jcs (json_object [("contract", Str "garive.skill-definition"); ("version", json_nat 1);
                                        ("definition", skill_json self)])) InvalidSkill in
  Ok (sha256_hex text).
Definition request_digest (self : SkillActivationRequest) : result SkillErrorCode string :=
  let? text := ok_or (jcs (json_object [("contract", Str "garive.skill-activation"); ("version", json_nat 1);
                                        ("request", skill_request_json self)])) InvalidSkill in
  Ok (sha256_hex text).

(** ** Activation *)

Record ActivatedSkill := mkActivated {
  as_skill_id : string;
  as_skill_revision : string;
  as_definition_digest : string;
  as_instructions : string;
  as_instruction_digest : string;
  as_reason : ActivationReason;
  as_allowed_tool_references : list ExactToolReference;
}.

Inductive SkillActivationResult :=
  | Activated (ordered_skills : list ActivatedSkill) (truncated : bool)
  | NoneActivated.

(** The distinct definitions in the order of their identity and revision. *)
Definition skill_key (d : SkillDefinition) : string * string := (sk_skill_id d, sk_skill_revision d).
Definition dedup_insert (m : gmap (string * string) SkillDefinition) (d : SkillDefinition)
    : result SkillErrorCode (gmap (string * string) SkillDefinition) :=
  if is_some_and (fun previous => negb (bool_decide (previous = d))) (m !! skill_key d)
  then Err ActivationConflict
  else Ok (<[skill_key d := d]> m).
Definition deduplicate (enabled : list SkillDefinition) : result SkillErrorCode (list SkillDefinition) :=
  let? m := try_fold dedup_insert ∅ enabled in
  Ok (sort_by_key skill_key (map_to_list m).*2).

Definition validate_snapshot_narrowing (d : SkillDefinition) (capabilities : list CapabilityReference)
    (tools : list ExactToolReference) : result SkillErrorCode unit :=
  reject RequiredCapabilityUnavailable when existsb (fun r => negb (has capabilities r)) (sk_required_capabilities d);
  reject SkillNotEnabled when existsb (fun r => negb (has tools r)) (sk_allowed_tool_references d);
  Ok tt.

Record Candidate := mkSkillCandidate {
  ca_definition : SkillDefinition;
  ca_count : nat;
  ca_reason : ActivationReason;
}.

(** [(Reverse(count), skill_id, skill_revision)]. *)
Definition candidate_key (c : Candidate) : Z * string * string :=
  (- Z.of_nat (ca_count c), sk_skill_id (ca_definition c), sk_skill_revision (ca_definition c)).

(** An explicit request names a skill, which its constructor checked. *)
Definition select_candidates (definitions : list SkillDefinition) (request : SkillActivationRequest)
    : result SkillErrorCode (list Candidate) :=
  match sq_mode request with
  | ExplicitMode =>
      match filter (fun d => Some (sk_skill_id d) = sq_requested_skill_id request) definitions with
      | [] => Err SkillNotEnabled
      | [d] => Ok [mkSkillCandidate d 0 ReasonExplicit]
      | _ => Err SkillRevisionMismatch
      end
  | TaggedMode =>
      let trusted := list_to_set (sq_trusted_tags request) in
      Ok (omap (fun d =>
            let count := matched_tag_count (sk_activation d) trusted in
            if (0 <? count)%nat then Some (mkSkillCandidate d count ReasonTagMatch) else None) definitions)
  end.

Definition activated_skill (c : Candidate) : result SkillErrorCode ActivatedSkill :=
  let d := ca_definition c in
  let? digest := definition_digest d in
  Ok (mkActivated (sk_skill_id d) (sk_skill_revision d) digest (cb_inline_utf8 (sk_instructions d))
        (cb_digest (sk_instructions d)) (ca_reason c) (sk_allowed_tool_references d)).

(** The loop over the ordered candidates: the skills taken and whether a bound
    stopped it. *)
Fixpoint activate_loop (capabilities : list CapabilityReference) (tools : list ExactToolReference)
    (request : SkillActivationRequest) (count total_bytes : Z) (candidates : list Candidate)
    : result SkillErrorCode (list ActivatedSkill * bool) :=
  match candidates with
  | [] => Ok ([], false)
  | c :: candidates =>
      validate_snapshot_narrowing (ca_definition c) capabilities tools ?;
      let next_bytes := saturating_add total_bytes (byte_len (sk_instructions (ca_definition c))) in
      if (count =? sq_max_active_skills request) || (sq_max_total_instruction_bytes request <? next_bytes) then
        if bool_decide (sq_mode request = ExplicitMode) then Err InstructionLimitExceeded else Ok ([], true)
      else
        let? skill := activated_skill c in
        let? (skills, truncated) :=
          activate_loop capabilities tools request (count + 1) next_bytes candidates in
        Ok (skill :: skills, truncated)
  end.

Definition activate_skills (enabled : list SkillDefinition) (capabilities : list CapabilityReference)
    (tools : list ExactToolReference) (request : SkillActivationRequest)
    : result SkillErrorCode SkillActivationResult :=
  let? definitions := deduplicate enabled in
  let? candidates := select_candidates definitions request in
  let? (activated, truncated) :=
    activate_loop capabilities tools request 0 0 (sort_by_key candidate_key candidates) in
  Ok (if bool_decide (length activated = 0%nat) && negb truncated then NoneActivated
      else Activated activated truncated).
End digests.

(** ** Skill activation: what is selected, in which order, within which bounds *)

Section activation.
Context `{Externals, Jcs}.

(** ** The distinct definitions *)

Lemma dedup_fold_ok enabled m0 m : try_fold dedup_insert m0 enabled = Ok m ->
  (forall k d, m0 !! k = Some d -> skill_key d = k) ->
  (forall k d, m !! k = Some d -> skill_key d = k) /\
  (forall k d, m !! k = Some d <-> m0 !! k = Some d \/ d ∈ enabled /\ skill_key d = k).
Proof.
  revert m0. induction enabled as [|e enabled IH]; intros m0; cbn [try_fold].
  - intros [= <-] Hk. split; [done|]. set_solver.
  - unfold dedup_insert at 1. destruct (is_some_and _ _) eqn:E; [done|]. intros Hm Hk.
    assert (Hsame : forall d, m0 !! skill_key e = Some d -> d = e).
    { intros d Hd. rewrite Hd in E. simpl in E. by bool_hyps. }
    apply IH in Hm as [H1 H2].
    + split; [done|]. intros k d. rewrite H2, elem_of_cons. destruct (decide (k = skill_key e)) as [->|Hn].
      * rewrite lookup_insert_eq. split.
        -- intros [[= <-]|[? ?]]; [right; auto|right; auto].
        -- intros [Hd|[[->|Hin] Hkey]]; [left; f_equal; symmetry; by apply Hsame|by left|by right].
      * rewrite lookup_insert_ne by done. split; [intros [?|[? ?]]; auto|]. intros [?|[[->|?] ?]]; auto. done.
    + intros k d. destruct (decide (k = skill_key e)) as [->|Hn];
        [rewrite lookup_insert_eq; by intros [= <-]|rewrite lookup_insert_ne by done; apply Hk].
Qed.

Lemma deduplicate_ok enabled definitions : deduplicate enabled = Ok definitions ->
  NoDup (skill_key <$> definitions) /\ (forall d, d ∈ definitions <-> d ∈ enabled).
Proof.
  unfold deduplicate. destruct (try_fold _ _ _) as [m|] eqn:E; [|done]. intros [= <-].
  apply dedup_fold_ok in E as [Hk Hm]; [|done].
  assert (Hkeys : skill_key <$> (map_to_list m).*2 = (map_to_list m).*1).
  { rewrite <-list_fmap_compose. apply list_fmap_ext. intros i [k d] Hi. simpl.
    apply list_elem_of_lookup_2, elem_of_map_to_list in Hi. by apply Hk. }
  split.
  - rewrite sort_by_key_perm, Hkeys. apply NoDup_fst_map_to_list.
  - intros d. rewrite sort_by_key_perm, list_elem_of_fmap. split.
    + intros ([k d'] & -> & Hin%elem_of_map_to_list). apply Hm in Hin as [Hin|[Hin _]]; [done|]. done.
    + intros Hin. exists (skill_key d, d). split; [done|]. apply elem_of_map_to_list, Hm. by right.
Qed.

(** ** The loop *)

Definition narrowed (capabilities : list CapabilityReference) (tools : list ExactToolReference) (c : Candidate) : Prop :=
  (forall r, r ∈ sk_required_capabilities (ca_definition c) -> r ∈ capabilities) /\
  (forall r, r ∈ sk_allowed_tool_references (ca_definition c) -> r ∈ tools).

Lemma narrowing_ok d capabilities tools : validate_snapshot_narrowing d capabilities tools = Ok tt <->
  (forall r, r ∈ sk_required_capabilities d -> r ∈ capabilities) /\
  (forall r, r ∈ sk_allowed_tool_references d -> r ∈ tools).
Proof.
  unfold validate_snapshot_narrowing, has.
  rewrite <-(existsb_negb_false (fun r => r ∈ capabilities)), <-(existsb_negb_false (fun r => r ∈ tools)).
  destruct (existsb _ (sk_required_capabilities d)); [split; [done|by intros [? _]]|].
  destruct (existsb _ (sk_allowed_tool_references d)); [split; [done|by intros [_ ?]]|done].
Qed.

Definition candidate_bytes (c : Candidate) : Z := byte_len (sk_instructions (ca_definition c)).

(** The candidates are cut at the first that would pass a bound; those before it
    are the skills. *)
Definition cut_at_bounds (request : SkillActivationRequest) (count total : Z) (taken rest : list Candidate) : Prop :=
  count + Z.of_nat (length taken) <= sq_max_active_skills request /\
  total + zsum_by candidate_bytes taken <= sq_max_total_instruction_bytes request /\
  match rest with
  | [] => True
  | c :: _ => count + Z.of_nat (length taken) = sq_max_active_skills request \/
              sq_max_total_instruction_bytes request < total + zsum_by candidate_bytes taken + candidate_bytes c
  end.

Lemma activate_loop_ok capabilities tools request candidates count total skills truncated :
  sq_max_total_instruction_bytes request < u64_max ->
  count <= sq_max_active_skills request -> total <= sq_max_total_instruction_bytes request ->
  activate_loop capabilities tools request count total candidates = Ok (skills, truncated) ->
  exists taken rest, candidates = taken ++ rest /\ Forall2 (fun c s => activated_skill c = Ok s) taken skills /\
    Forall (narrowed capabilities tools) taken /\ truncated = bool_decide (rest <> []) /\
    (truncated = true -> sq_mode request = TaggedMode) /\ cut_at_bounds request count total taken rest.
Proof.
  intros Hmax. revert count total skills. induction candidates as [|c cs IH]; intros count total skills Hc Ht; cbn [activate_loop].
  - intros [= <- <-]. exists [], []. unfold cut_at_bounds. simpl. split_and!; try done; try lia; constructor.
  - destruct (validate_snapshot_narrowing _ _ _) as [[]|] eqn:En; [|done]. apply narrowing_ok in En.
    unfold saturating_add. fold (candidate_bytes c).
    destruct (_ || _) eqn:Eb.
    + destruct (sq_mode request) eqn:Em; simpl; [done|]. intros [= <- <-]. exists [], (c :: cs). unfold cut_at_bounds. simpl.
      split_and!; try done; try lia; constructor.
    + apply orb_false_iff in Eb as [E1 E2]. apply Z.eqb_neq in E1. apply Z.ltb_ge in E2.
      assert (Hn : Z.min (total + candidate_bytes c) u64_max = total + candidate_bytes c) by lia. rewrite Hn in *.
      destruct (activated_skill c) as [s|] eqn:Es; [|done].
      destruct (activate_loop _ _ _ _ _ _) as [[skills' tr]|] eqn:El; [|done]. intros [= <- <-].
      apply IH in El as (taken & rest & -> & Hf & Hnar & Htr & Hmode & Hcut); [|lia..].
      exists (c :: taken), rest. split_and!; try done; [by constructor|by constructor|].
      unfold cut_at_bounds in *. cbn [length zsum_by foldr]. fold (zsum_by candidate_bytes taken).
      destruct Hcut as (? & ? & Hrest). split_and!; [lia|lia|]. destruct rest as [|r rest]; [done|].
      destruct Hrest; [left; lia|right; lia].
Qed.

(** The candidates of a request: the one explicitly named, or those a trusted tag
    matches. *)
Definition candidate_of (enabled : list SkillDefinition) (request : SkillActivationRequest) (c : Candidate) : Prop :=
  ca_definition c ∈ enabled /\
  match sq_mode request with
  | ExplicitMode => Some (sk_skill_id (ca_definition c)) = sq_requested_skill_id request /\ ca_reason c = ReasonExplicit
  | TaggedMode => ca_reason c = ReasonTagMatch /\ (0 < ca_count c)%nat /\
      ca_count c = matched_tag_count (sk_activation (ca_definition c)) (list_to_set (sq_trusted_tags request))
  end.

Lemma select_candidates_ok enabled definitions request candidates :
  (forall d, d ∈ definitions <-> d ∈ enabled) -> select_candidates definitions request = Ok candidates ->
  (forall c, c ∈ candidates -> candidate_of enabled request c) /\
  (sq_mode request = ExplicitMode -> length candidates = 1%nat) /\
  (sq_mode request = TaggedMode -> forall d, d ∈ enabled ->
     (0 < matched_tag_count (sk_activation d) (list_to_set (sq_trusted_tags request)))%nat ->
     exists c, c ∈ candidates /\ ca_definition c = d).
Proof.
  intros Hd. unfold select_candidates, candidate_of. destruct (sq_mode request).
  - destruct (filter _ definitions) as [|d [|]] eqn:E; [done| |done]. intros [= <-]. split_and!; [|done|done].
    intros c ->%list_elem_of_singleton. simpl.
    assert (Hin : d ∈ [d]) by left. rewrite <-E in Hin. apply list_elem_of_filter in Hin as [? ?]. by rewrite <-Hd.
  - intros [= <-]. split_and!; [|done|].
    + intros c Hc. apply list_elem_of_omap in Hc as (d & Hin & Hx). destruct (_ <? _)%nat eqn:El; [|done].
      injection Hx as <-. apply Nat.ltb_lt in El. simpl. by rewrite <-Hd.
    + intros _ d Hin Hpos. eexists. split; [apply list_elem_of_omap; exists d; split; [by apply Hd|]|].
      * by rewrite (proj2 (Nat.ltb_lt _ _) Hpos).
      * done.
Qed.

(** The skills an activation returns are the leading candidates in the order of matched tags,
    id and revision, cut at the first that exceeds the count or byte bound, and each narrows the
    snapshot; an explicit request activates exactly one. *)
Theorem skill_activation_exact enabled capabilities tools request skills truncated :
  sq_max_total_instruction_bytes request < u64_max -> 0 <= sq_max_active_skills request ->
  0 <= sq_max_total_instruction_bytes request ->
  activate_skills enabled capabilities tools request = Ok (Activated skills truncated) ->
  exists taken rest,
    (forall c, c ∈ taken ++ rest -> candidate_of enabled request c) /\
    StronglySorted (key_le_of candidate_key) (taken ++ rest) /\
    Forall2 (fun c s => activated_skill c = Ok s) taken skills /\
    Forall (narrowed capabilities tools) taken /\
    cut_at_bounds request 0 0 taken rest /\
    truncated = bool_decide (rest <> []) /\
    (sq_mode request = ExplicitMode -> length skills = 1%nat /\ truncated = false).
Proof.
  intros Hmax Hn Hb Ha. unfold activate_skills in Ha.
  destruct (deduplicate enabled) as [definitions|] eqn:Ed; [|done]. apply deduplicate_ok in Ed as [_ Hd].
  destruct (select_candidates definitions request) as [candidates|] eqn:Es; [|done].
  apply (select_candidates_ok enabled) in Es as (Hc & Hone & _); [|done].
  destruct (activate_loop _ _ _ _ _ _) as [[activated tr]|] eqn:El; [|done].
  destruct (_ && _) in Ha; [done|]. injection Ha as -> ->.
  apply activate_loop_ok in El as (taken & rest & Hsplit & Hf & Hnar & Htr & Hmode & Hcut); [|lia..].
  exists taken, rest. rewrite <-Hsplit. split_and!; try done.
  - intros c. rewrite sort_by_key_perm. apply Hc.
  - apply sort_by_key_sorted.
  - intros Hex. assert (truncated = false) as Hfalse by (destruct truncated; [by specialize (Hmode eq_refl); rewrite Hex in Hmode|done]).
    split; [|done]. rewrite Hfalse in Htr. symmetry in Htr. apply bool_decide_eq_false in Htr.
    assert (rest = []) as -> by (destruct rest; [done|by destruct Htr]). rewrite app_nil_r in Hsplit.
    rewrite <-(Forall2_length _ _ _ Hf), <-Hsplit. rewrite (Permutation_length (sort_by_key_perm candidate_key candidates)). auto.
Qed.
End activation.

(** ** Samples *)

Module SkillSample.
#[export] Instance externals : Externals :=
  {| sha256_hex := fun s => s; json_from_str := fun _ => None; parse_rfc3339 := fun _ => None; to_rfc3339 := fun _ => "" |}.
#[export] Instance canonical_json : Jcs := fun v => match encode v with Ok s => Some s | Err _ => None end.
Definition tool : ExactToolReference := mkToolReference "garive.workspace.list" "1".
Definition skill (id text : string) (tags : list string) : SkillDefinition :=
  mkSkill id "1" id "d" (content_from_inline text) (TaggedPolicy tags) [] [tool] 100 "1".
Definition enabled : list SkillDefinition := [skill "b" "bb" ["x"]; skill "a" "aaa" ["x"]; skill "c" "cccc" ["x"; "y"]].
Definition request (bytes : Z) : SkillActivationRequest :=
  mkSkillRequest "act" "t" "e" 1 TaggedMode None ["x"; "y"] 1 2 bytes.
Definition run (bytes : Z) : result SkillErrorCode SkillActivationResult :=
  activate_skills enabled [] [tool] (request bytes).
End SkillSample.
#[local] Existing Instances SkillSample.externals SkillSample.canonical_json.

Lemma skill_activation_exact_witness : exists skills,
  SkillSample.run 100 = Ok (Activated skills true) /\ (as_skill_id <$> skills) = ["c"; "a"] /\
  exists taken rest, cut_at_bounds (SkillSample.request 100) 0 0 taken rest /\ length taken = 2%nat.
Proof.
  destruct (SkillSample.run 100) as [[skills truncated|]|] eqn:E; [|by vm_compute in E..].
  destruct (skill_activation_exact SkillSample.enabled [] [SkillSample.tool] (SkillSample.request 100) skills truncated)
    as (taken & rest & _ & _ & Hf & _ & Hcut & _); [done|done|done|exact E|].
  vm_compute in E. injection E as <- <-. eexists. split_and!; [done|done|].
  exists taken, rest. split; [done|]. by rewrite (Forall2_length _ _ _ Hf).
Defined.

(** A first candidate over the byte bound activates no skill, and still the result
    is [Activated]. *)
Theorem skill_activation_may_be_empty :
  skill_request_new "act" "t" "e" 1 TaggedMode None ["x"; "y"] 1 2 3 = Ok (SkillSample.request 3) /\
  SkillSample.run 3 = Ok (Activated [] true).
Proof. by vm_compute. Qed.
