(* ===== verification/Kernel.v ===== *)
(** * The kernel execution loop ([engine/core/src/turn.rs], [model_only_types.rs],
      [model_only_support.rs], [model_only.rs], [governed_execution.rs])

    One execution of an agent turn: context, model request, streamed invocation,
    usage accounting, governed tool intents, recovery and the one terminal
    outcome.  The ports of an execution are effects: a program of the loop is a
    tree whose nodes are port calls and whose branches are their answers.  A model
    invocation is answered by the adapter's whole behaviour, a tree that reports
    stream events and reads the observer's decisions. *)

From S2P Require Import Prelude Json ToolSchema Order ToolPrepared ToolTheorems GovernedEffect Skill.
From S2P Require Import ModelTypes ContextSurface.

(** ** Execution control ([turn.rs]) *)

(** The six identities of a turn are non-empty texts. *)
Definition identity_try_from (label value : string) : result string string :=
  if str_is_empty value then Err label else Ok value.

Record ExecutionLimits := mkLimits { el_max_iterations : Z }.

Inductive ExecutionOutcomeKind := KindCompleted | KindSuspended | KindStopped | KindFailed.
Inductive ExecutionStatus := Active | Closed (kind : ExecutionOutcomeKind).
Inductive BeginIteration := IterationBegun (iteration : Z) | IterationLimitReached.
Inductive ControlError := CursorBeyondLimit (completed maximum : Z) | AlreadyClosed.

Record ExecutionControl := mkControl {
  ec_turn_id : string;
  ec_execution_id : string;
  ec_limits : ExecutionLimits;
  ec_completed_iterations : Z;
  ec_status : ExecutionStatus;
}.
#[export] Instance eta_ExecutionControl : Eta ExecutionControl := fun r =>
  mkControl (ec_turn_id r) (ec_execution_id r) (ec_limits r) (ec_completed_iterations r) (ec_status r).

Definition control_new (turn_id execution_id : string) (completed_iterations : Z) (limits : ExecutionLimits)
    : result ControlError ExecutionControl :=
  reject (CursorBeyondLimit completed_iterations (el_max_iterations limits)) when
    el_max_iterations limits <? completed_iterations;
  Ok (mkControl turn_id execution_id limits completed_iterations Active).

Definition require_active (self : ExecutionControl) : result ControlError unit :=
  match ec_status self with Active => Ok tt | Closed _ => Err AlreadyClosed end.

Definition begin_iteration (self : ExecutionControl) : result ControlError (ExecutionControl * BeginIteration) :=
  require_active self ?;
  if ec_completed_iterations self =? el_max_iterations (ec_limits self) then
    Ok (self <| ec_status := Closed KindStopped |>, IterationLimitReached)
  else
    let completed := ec_completed_iterations self + 1 in
    Ok (self <| ec_completed_iterations := completed |>, IterationBegun completed).

Definition control_close (self : ExecutionControl) (kind : ExecutionOutcomeKind) : result ControlError ExecutionControl :=
  require_active self ?;
  Ok (self <| ec_status := Closed kind |>).

(** ** Requests and outcomes ([model_only_types.rs]) *)

Inductive ResumeInput := ResumeExternalInput (text : string) | Reconciliation (text : string) | ResourceReady.
Inductive AgentEntry := EntryStart (trusted_input : string) | EntryContinue (resume_input : ResumeInput).

Record AgentCursor := mkCursor {
  cu_completed_iterations : Z;
  cu_last_durable_position : Z;
}.

Inductive MissingUsagePolicy := MissingStop | Estimate (input_tokens output_tokens : Z).
Inductive TerminalRecoveryAction := RecoverSuspend | RecoverStop | RecoverFail | AlternateThenSuspend.
Inductive OutputLimitAction := CompletePartial | Retry (max_retries : Z) | LimitSuspend | LimitStop | LimitFail.

Record ModelRecoveryPolicy := mkRecovery {
  rp_max_context_rebuilds : Z;
  rp_output_limit : OutputLimitAction;
  rp_transport : TerminalRecoveryAction;
  rp_unavailable : TerminalRecoveryAction;
  rp_missing_usage : MissingUsagePolicy;
}.

Record ModelOnlyLimits := mkModelLimits {
  ml_execution : ExecutionLimits;
  ml_max_total_tokens : option Z;
  ml_deadline_tick : option Z;
}.

Record AgentTurnRequest := mkTurnRequest {
  at_session_id : string;
  at_turn_id : string;
  at_execution_id : string;
  at_agent_instance_id : string;
  at_definition_id : string;
  at_definition_revision : string;
  at_entry : AgentEntry;
  at_cursor : AgentCursor;
  at_context_request : ContextRequest;
  at_activated_skills : list ActivatedSkill;
  at_capability_context_candidates : list ContextCandidate;
  at_model_targets : list string;
  at_required_capabilities : list ModelCapability;
  at_model_output : ModelOutputSettings;
  at_recovery_policy : ModelRecoveryPolicy;
  at_limits : ModelOnlyLimits;
}.

Inductive AgentRequestError :=
  | EntryCursorMismatch | RequestSessionMismatch | MissingModelTarget | InvalidModelTarget | InvalidTokenLimit.

Definition turn_request_validate (self : AgentTurnRequest) : result AgentRequestError unit :=
  let cursor := at_cursor self in
  reject EntryCursorMismatch when
    match at_entry self with
    | EntryStart _ => negb (cu_completed_iterations cursor =? 0) || negb (cu_last_durable_position cursor =? 0)
    | EntryContinue _ => cu_last_durable_position cursor =? 0
    end;
  reject RequestSessionMismatch when negb (cr_session_id (at_context_request self) =? at_session_id self)%string;
  reject MissingModelTarget when bool_decide (at_model_targets self = []);
  reject InvalidModelTarget when existsb str_is_empty (at_model_targets self);
  reject InvalidTokenLimit when bool_decide (ml_max_total_tokens (at_limits self) = Some 0);
  Ok tt.

Record UsageSummary := mkUsageSummary {
  us_input_tokens : TokenCount;
  us_output_tokens : TokenCount;
  us_estimated : bool;
}.

Inductive SuspensionReason :=
  | ApprovalRequired | ExternalInputRequired | ReasonReconciliation | PartialOutput | ResourceUnavailable
  | DelegationPending.
Inductive StopReason := IterationLimit | TokenLimit | Deadline | StopCancelled | StopResourceUnavailable.
Inductive AgentFailureReason :=
  | InvalidInput | FailInvalidModelOutput | FailCapabilityUnavailable | PortFailure | InvariantViolation.

Inductive GovernedSuspensionBinding :=
  | BindingInteraction (suspension_id interaction_id invocation_id prepared_digest : string)
  | BindingReconciliation (suspension_id invocation_id prepared_digest : string).

Inductive AgentOutcome :=
  | OutcomeCompleted (response_items : list ModelItem) (usage : UsageSummary)
  | OutcomeSuspended (reason : SuspensionReason) (partial_items : list ModelItem) (last_durable_position : Z)
      (governed_binding : option GovernedSuspensionBinding)
  | OutcomeStopped (reason : StopReason)
  | AgentFailed (reason : AgentFailureReason).

Inductive AgentEventKind :=
  | ExecutionStarted
  | IterationStarted (iteration : Z)
  | ContextDerived (item_count utf8_bytes : Z)
  | ModelRequestPrepared (request_id target_id : string)
  | EventModelStream (event : ModelStreamEvent)
  | OutcomeProposed.

Definition event_code (self : AgentEventKind) : string :=
  match self with
  | ExecutionStarted => "execution-started"
  | IterationStarted _ => "iteration-started"
  | ContextDerived _ _ => "context-derived"
  | ModelRequestPrepared _ _ => "model-request-prepared"
  | EventModelStream _ => "model-stream"
  | OutcomeProposed => "outcome-proposed"
  end.

Record AgentEvent := mkAgentEvent {
  ae_session_id : string;
  ae_turn_id : string;
  ae_execution_id : string;
  ae_kind : AgentEventKind;
}.

Record ExecutionReport := mkReport {
  re_outcome : AgentOutcome;
  re_completed_iterations : Z;
  re_usage : UsageSummary;
}.

Record CommittedGovernedResult := mkCommitted {
  co_result : GovernedToolResult;
  co_through_position : Z;
  co_suspension_binding : option GovernedSuspensionBinding;
}.

(** ** Ports as effects *)

Inductive ObserverDecision := ObserverContinue | ObserverCancel.
Inductive ModelPortFailure := PortInvalidRequest | UnsupportedCapability | AdapterInvariant | RequiredPortFailure.

(** What an adapter does with an invocation: report an event and go on after the
    observer's decision, or return. *)
Inductive ModelSession :=
  | SessionReturn (outcome : result ModelPortFailure InvokeOutcome)
  | SessionObserve (event : ModelStreamEvent) (next : ObserverDecision -> ModelSession).

(** A program over the ports.  [None] answers stand for a port's failure;
    [Returned] marks where an invocation came back, with what. *)
Inductive Program (R : Type) : Type :=
  | Done (r : R)
  | IsCancelled (k : bool -> Program R)
  | NowTick (k : option Z -> Program R)
  | EmitEvent (event : AgentEvent) (k : bool -> Program R)
  | ReadCandidates (request : ContextRequest) (rebuild_attempt : Z)
      (k : option (list ContextCandidate) -> Program R)
  | AdvanceAfterModel (consumed_through_position : Z) (k : option (option Z) -> Program R)
  | Preflight (request : ModelRequest) (k : option ModelPortFailure -> Program R)
  | Invoke (request : ModelRequest) (k : ModelSession -> Program R)
  | Returned (outcome : result ModelPortFailure InvokeOutcome) (k : Program R)
  | EffectInvoke (source_model_request_id : string) (intent : ToolIntent) (prepared : PreparedToolCall)
      (k : option CommittedGovernedResult -> Program R)
  | EffectReject (source_model_request_id : string) (intent : ToolIntent) (error : PreparationError)
      (k : option CommittedGovernedResult -> Program R).
Arguments Done {R}. Arguments IsCancelled {R}. Arguments NowTick {R}. Arguments EmitEvent {R}.
Arguments ReadCandidates {R}. Arguments AdvanceAfterModel {R}. Arguments Preflight {R}. Arguments Invoke {R}.
Arguments Returned {R}. Arguments EffectInvoke {R}. Arguments EffectReject {R}.

Fixpoint bind {A B} (p : Program A) (f : A -> Program B) : Program B :=
  match p with
  | Done a => f a
  | IsCancelled k => IsCancelled (fun b => bind (k b) f)
  | NowTick k => NowTick (fun t => bind (k t) f)
  | EmitEvent event k => EmitEvent event (fun ok => bind (k ok) f)
  | ReadCandidates request attempt k => ReadCandidates request attempt (fun c => bind (k c) f)
  | AdvanceAfterModel position k => AdvanceAfterModel position (fun a => bind (k a) f)
  | Preflight request k => Preflight request (fun r => bind (k r) f)
  | Invoke request k => Invoke request (fun s => bind (k s) f)
  | Returned outcome k => Returned outcome (bind k f)
  | EffectInvoke source intent prepared k => EffectInvoke source intent prepared (fun c => bind (k c) f)
  | EffectReject source intent error k => EffectReject source intent error (fun c => bind (k c) f)
  end.
Notation "'do!' x := p 'in' k" := (bind p (fun x => k))
  (at level 200, x pattern, p at level 100, k at level 200, right associativity) : garive_scope.

(** ** Support ([model_only_support.rs]) *)

Record UsageAccumulator := mkAccumulator {
  ua_input : TokenCount;
  ua_output : TokenCount;
  ua_estimated : bool;
}.
Definition usage_default : UsageAccumulator := mkAccumulator (Known 0) (Known 0) false.

Inductive UsageError := UsageMissing | UsageOverflow.

Definition accumulate (current next : TokenCount) (policy : MissingUsagePolicy) (input : bool)
    : result UsageError (TokenCount * bool * bool) :=
  match current, next, policy with
  | Known current, Known value, _ =>
      let? total := ok_or (checked_add current value) UsageOverflow in Ok (Known total, false, false)
  | Unknown, Known _, _ => Ok (Unknown, false, false)
  | _, Unknown, MissingStop => Ok (Unknown, false, true)
  | Known current, Unknown, Estimate input_tokens output_tokens =>
      let? total := ok_or (checked_add current (if input then input_tokens else output_tokens)) UsageOverflow in
      Ok (Known total, true, false)
  | Unknown, Unknown, Estimate _ _ => Ok (Unknown, true, false)
  end.

(** The accumulator keeps what was added when a count is missing. *)
Definition usage_add (self : UsageAccumulator) (model_usage : ModelUsage) (policy : MissingUsagePolicy)
    : UsageAccumulator * result UsageError unit :=
  match accumulate (ua_input self) (mu_input_tokens model_usage) policy true with
  | Err e => (self, Err e)
  | Ok (input, input_estimated, input_missing) =>
      match accumulate (ua_output self) (mu_output_tokens model_usage) policy false with
      | Err e => (self, Err e)
      | Ok (output, output_estimated, output_missing) =>
          (mkAccumulator input output (ua_estimated self || input_estimated || output_estimated),
           if input_missing || output_missing then Err UsageMissing else Ok tt)
      end
  end.

Definition usage_total (self : UsageAccumulator) : option Z :=
  match ua_input self, ua_output self with Known input, Known output => checked_add input output | _, _ => None end.

Definition usage_summary (self : UsageAccumulator) : UsageSummary :=
  mkUsageSummary (ua_input self) (ua_output self) (ua_estimated self).

Definition account_or_limit (usage : UsageAccumulator) (model_usage : ModelUsage) (policy : ModelRecoveryPolicy)
    (maximum : option Z) : UsageAccumulator * option AgentOutcome :=
  let '(usage, added) := usage_add usage model_usage (rp_missing_usage policy) in
  match added with
  | Err _ => (usage, Some (OutcomeStopped TokenLimit))
  | Ok _ =>
      match usage_total usage with
      | None => (usage, Some (AgentFailed InvariantViolation))
      | Some total =>
          (usage, if is_some_and (fun limit => limit <? total) maximum then Some (OutcomeStopped TokenLimit) else None)
      end
  end.

Definition invalid_report (request : AgentTurnRequest) : ExecutionReport :=
  mkReport (AgentFailed InvalidInput) (cu_completed_iterations (at_cursor request)) (usage_summary usage_default).

Definition prepare_control (request : AgentTurnRequest) : result ExecutionReport ExecutionControl :=
  match turn_request_validate request with
  | Err _ => Err (invalid_report request)
  | Ok _ =>
      match control_new (at_turn_id request) (at_execution_id request)
              (cu_completed_iterations (at_cursor request)) (ml_execution (at_limits request)) with
      | Ok control => Ok control
      | Err _ => Err (invalid_report request)
      end
  end.

Definition agent_event (request : AgentTurnRequest) (kind : AgentEventKind) : AgentEvent :=
  mkAgentEvent (at_session_id request) (at_turn_id request) (at_execution_id request) kind.
Definition emit (request : AgentTurnRequest) (kind : AgentEventKind) : Program bool :=
  EmitEvent (agent_event request kind) Done.

Definition outcome_kind (outcome : AgentOutcome) : ExecutionOutcomeKind :=
  match outcome with
  | OutcomeCompleted _ _ => KindCompleted
  | OutcomeSuspended _ _ _ _ => KindSuspended
  | OutcomeStopped _ => KindStopped
  | AgentFailed _ => KindFailed
  end.

Definition finish (request : AgentTurnRequest) (control : ExecutionControl) (usage : UsageAccumulator)
    (outcome : AgentOutcome) : Program ExecutionReport :=
  do! ok := emit request OutcomeProposed in
  let outcome := if ok then outcome else AgentFailed PortFailure in
  let outcome :=
    match ec_status control with
    | Active => match control_close control (outcome_kind outcome) with
                | Ok _ => outcome
                | Err _ => AgentFailed InvariantViolation
                end
    | Closed _ => outcome
    end in
  Done (mkReport outcome (ec_completed_iterations control) (usage_summary usage)).

Definition recovery_outcome (action : TerminalRecoveryAction) (through_position : Z) : AgentOutcome :=
  match action with
  | RecoverSuspend | AlternateThenSuspend => OutcomeSuspended ResourceUnavailable [] through_position None
  | RecoverStop => OutcomeStopped StopResourceUnavailable
  | RecoverFail => AgentFailed PortFailure
  end.

(** [None]: the clock failed. *)
Definition deadline_reached (request : AgentTurnRequest) : Program (option bool) :=
  match ml_deadline_tick (at_limits request) with
  | None => Done (Some false)
  | Some deadline => NowTick (fun tick => Done (match tick with Some now => Some (deadline <=? now) | None => None end))
  end.

(** The forwarding observer over a session: the outcome and whether an event was
    refused. *)
Fixpoint forward_session (request : AgentTurnRequest) (failed : bool) (session : ModelSession)
    : Program (result ModelPortFailure InvokeOutcome * bool) :=
  match session with
  | SessionReturn outcome => Returned outcome (Done (outcome, failed))
  | SessionObserve event next =>
      IsCancelled (fun cancelled =>
        if cancelled then forward_session request failed (next ObserverCancel)
        else EmitEvent (agent_event request (EventModelStream event)) (fun ok =>
          if ok then forward_session request failed (next ObserverContinue)
          else forward_session request true (next ObserverCancel)))
  end.

(** ** One step of the loop ([model_only.rs]) *)

(** The index of a target stays below the number of targets; a request is only
    built with one ([KernelTheorems.sound_locals]). *)
Definition build_model_request (request : AgentTurnRequest) (surface : ContextSurface)
    (iteration request_ordinal : Z) (target_index : nat) (tools : list ModelTypes.ToolDescriptor)
    : option (ModelRequest * string) :=
  let request_id := at_execution_id request +:+ ":" +:+ nat_to_string iteration +:+ ":" +:+ nat_to_string request_ordinal in
  let value := mkModelRequest request_id (default "" (at_model_targets request !! target_index))
    (at_required_capabilities request) (assemble_model_inputs surface) tools (at_model_output request)
    [("turn_id", at_turn_id request); ("execution_id", at_execution_id request)] in
  match model_request_validate value with Ok _ => Some (value, request_id) | Err _ => None end.

Definition model_failure (failure : ModelPortFailure) : AgentFailureReason :=
  match failure with
  | PortInvalidRequest => InvalidInput
  | UnsupportedCapability => FailCapabilityUnavailable
  | AdapterInvariant => FailInvalidModelOutput
  | RequiredPortFailure => PortFailure
  end.

Definition suspension_binds (requirement : SuspensionRequirement) (binding : GovernedSuspensionBinding) : bool :=
  match requirement, binding with
  | SuspendInteraction request, BindingInteraction suspension_id interaction_id invocation_id prepared_digest =>
      negb (str_is_empty suspension_id) && (interaction_id =? ir_interaction_id request)%string
      && (invocation_id =? ir_invocation_id request)%string
      && (prepared_digest =? ir_prepared_digest request)%string
  | OperatorReconciliation _, BindingReconciliation suspension_id invocation_id prepared_digest =>
      negb (str_is_empty suspension_id) && negb (str_is_empty invocation_id) && negb (str_is_empty prepared_digest)
  | _, _ => false
  end.

Definition suspension_reason (requirement : SuspensionRequirement) : SuspensionReason :=
  match requirement with
  | SuspendInteraction request =>
      match ir_kind request with Approval => ApprovalRequired | ExternalInput => ExternalInputRequired end
  | OperatorReconciliation _ => ReasonReconciliation
  end.

Inductive ToolStep := ToolContinue (position : Z) | ToolTerminal (outcome : AgentOutcome).

(** What a committed result does to the loop over the intents: the next position,
    or the end. *)
Definition committed_step (items : list ModelItem) (position : Z) (committed : option CommittedGovernedResult)
    : result AgentOutcome Z :=
  match committed with
  | None => Err (AgentFailed PortFailure)
  | Some committed =>
      if co_through_position committed <? position then Err (AgentFailed InvariantViolation)
      else
        let position := co_through_position committed in
        match co_result committed with
        | ResultObservation _ => Ok position
        | ResultSuspend requirement =>
            match co_suspension_binding committed with
            | None => Err (AgentFailed InvariantViolation)
            | Some binding =>
                if negb (suspension_binds requirement binding) then Err (AgentFailed InvariantViolation)
                else Err (OutcomeSuspended (suspension_reason requirement) items position (Some binding))
            end
        | ResultFail InvalidModelOutput => Err (AgentFailed FailInvalidModelOutput)
        | ResultFail _ => Err (AgentFailed InvariantViolation)
        end
  end.

Section kernel.
Context `{JsonWriter}.
Context (prepare_intent : ToolIntent -> result PreparationError PreparedToolCall).

Fixpoint govern_items (all items : list ModelItem) (source_model_request_id : string) (position : Z)
    : Program ToolStep :=
  match items with
  | [] => Done (ToolContinue position)
  | ItemToolIntent model_call_id tool_name arguments_json :: items =>
      IsCancelled (fun cancelled =>
        if cancelled then Done (ToolTerminal (OutcomeStopped StopCancelled))
        else
          let intent := mkIntent model_call_id tool_name arguments_json in
          let continue committed :=
            match committed_step all position committed with
            | Ok position => govern_items all items source_model_request_id position
            | Err outcome => Done (ToolTerminal outcome)
            end in
          match prepare_intent intent with
          | Ok prepared => EffectInvoke source_model_request_id intent prepared continue
          | Err error => EffectReject source_model_request_id intent error continue
          end)
  | _ :: items => govern_items all items source_model_request_id position
  end.
Definition govern_tool_intents (items : list ModelItem) (source_model_request_id : string) (position : Z)
    : Program ToolStep := govern_items items items source_model_request_id position.

Definition is_tool_intent (item : ModelItem) : bool := match item with ItemToolIntent _ _ _ => true | _ => false end.
Definition is_tool_observation (item : ModelItem) : bool :=
  match item with ItemToolObservation _ _ => true | _ => false end.

Definition tool_descriptor (definition : ToolDefinition) : option ModelTypes.ToolDescriptor :=
  text ← json_to_vec (td_input_schema definition);
  Some (ModelTypes.mkToolDescriptor (ToolPrepared.td_name definition) (ToolPrepared.td_description definition)
          (td_revision definition) text true).

(** The mutable locals of the loop. *)
Record LoopState := mkLoop {
  ls_control : ExecutionControl;
  ls_usage : UsageAccumulator;
  ls_rebuild_attempt : Z;
  ls_output_retries : Z;
  ls_target_index : nat;
  ls_request_ordinal : Z;
  ls_through_position : Z;
}.
#[export] Instance eta_LoopState : Eta LoopState := fun r =>
  mkLoop (ls_control r) (ls_usage r) (ls_rebuild_attempt r) (ls_output_retries r) (ls_target_index r)
    (ls_request_ordinal r) (ls_through_position r).

Inductive LoopStep := LoopContinue (s : LoopState) | LoopReturn (report : ExecutionReport).

Context (request : AgentTurnRequest) (tools_enabled : bool) (tool_descriptors : list ModelTypes.ToolDescriptor).

Definition stop (s : LoopState) (outcome : AgentOutcome) : Program LoopStep :=
  do! report := finish request (ls_control s) (ls_usage s) outcome in Done (LoopReturn report).

Definition account (s : LoopState) (model_usage : ModelUsage) (k : LoopState -> Program LoopStep) : Program LoopStep :=
  let '(usage, terminal) := account_or_limit (ls_usage s) model_usage (at_recovery_policy request)
                              (ml_max_total_tokens (at_limits request)) in
  let s := s <| ls_usage := usage |> in
  match terminal with Some outcome => stop s outcome | None => k s end.

Definition on_completed (s : LoopState) (request_id : string) (items : list ModelItem) (model_usage : ModelUsage)
    : Program LoopStep :=
  account s model_usage (fun s =>
    if existsb is_tool_observation items then stop s (AgentFailed FailInvalidModelOutput)
    else if existsb is_tool_intent items then
      if negb tools_enabled then stop s (AgentFailed FailCapabilityUnavailable)
      else
        do! step := govern_tool_intents items request_id (ls_through_position s) in
        match step with
        | ToolContinue position => Done (LoopContinue (s <| ls_through_position := position |>))
        | ToolTerminal outcome => stop s outcome
        end
    else
      AdvanceAfterModel (ls_through_position s) (fun advance =>
        match advance with
        | Some (Some through_position) =>
            if ls_through_position s <? through_position
            then Done (LoopContinue (s <| ls_through_position := through_position |>))
            else stop s (AgentFailed PortFailure)
        | None => stop s (AgentFailed PortFailure)
        | Some None => stop s (OutcomeCompleted items (usage_summary (ls_usage s)))
        end)).

Definition on_output_limit (s : LoopState) (partial_items : list ModelItem) : Program LoopStep :=
  match rp_output_limit (at_recovery_policy request) with
  | CompletePartial =>
      if existsb is_tool_intent partial_items then stop s (AgentFailed FailCapabilityUnavailable)
      else stop s (OutcomeCompleted partial_items (usage_summary (ls_usage s)))
  | Retry max_retries =>
      if ls_output_retries s <? max_retries then Done (LoopContinue (s <| ls_output_retries ::= Z.add 1 |>))
      else stop s (OutcomeSuspended PartialOutput partial_items (ls_through_position s) None)
  | LimitSuspend => stop s (OutcomeSuspended PartialOutput partial_items (ls_through_position s) None)
  | LimitStop => stop s (OutcomeStopped TokenLimit)
  | LimitFail => stop s (AgentFailed FailInvalidModelOutput)
  end.

Definition on_outcome (s : LoopState) (request_id : string) (outcome : InvokeOutcome) : Program LoopStep :=
  match outcome with
  | ModelTypes.Completed items model_usage _ => on_completed s request_id items model_usage
  | ModelTypes.Rejected kind _ =>
      match kind with
      | ContextOverflow =>
          if ls_rebuild_attempt s <? rp_max_context_rebuilds (at_recovery_policy request)
          then Done (LoopContinue (s <| ls_rebuild_attempt ::= Z.add 1 |>))
          else stop s (AgentFailed FailInvalidModelOutput)
      | _ => stop s (AgentFailed FailInvalidModelOutput)
      end
  | ModelTypes.Interrupted kind partial_items model_usage =>
      account s model_usage (fun s =>
        match kind with
        | InterruptCancelled => stop s (OutcomeStopped StopCancelled)
        | OutputLimit => on_output_limit s partial_items
        | Transport => stop s (recovery_outcome (rp_transport (at_recovery_policy request)) (ls_through_position s))
        end)
  | ModelTypes.Unavailable _ _ =>
      match rp_unavailable (at_recovery_policy request) with
      | AlternateThenSuspend =>
          if (ls_target_index s + 1 <? length (at_model_targets request))%nat
          then Done (LoopContinue (s <| ls_target_index ::= S |>))
          else stop s (recovery_outcome AlternateThenSuspend (ls_through_position s))
      | action => stop s (recovery_outcome action (ls_through_position s))
      end
  end.

(** Everything from the frozen request on. *)
Definition invoke_model (s : LoopState) (model_request : ModelRequest) (request_id : string) : Program LoopStep :=
  Preflight model_request (fun failure =>
    match failure with
    | Some failure => stop s (AgentFailed (model_failure failure))
    | None =>
        do! ok := emit request (ModelRequestPrepared request_id (mr_target_id model_request)) in
        if negb ok then stop s (AgentFailed PortFailure)
        else
          Invoke model_request (fun session =>
            do! (outcome, observer_failed) := forward_session request false session in
            if observer_failed then stop s (AgentFailed PortFailure)
            else match outcome with
                 | Err failure => stop s (AgentFailed (model_failure failure))
                 | Ok outcome => on_outcome s request_id outcome
                 end)
    end).

Definition derive_surface (s : LoopState) (k : ContextSurface -> Program LoopStep) : Program LoopStep :=
  let context_request := mkContextRequest (cr_session_id (at_context_request request))
    (cr_turn_id (at_context_request request)) (cr_purpose (at_context_request request))
    (cr_after_position (at_context_request request)) (ls_through_position s)
    (cr_max_items (at_context_request request)) (cr_max_utf8_bytes (at_context_request request)) in
  ReadCandidates context_request (ls_rebuild_attempt s) (fun candidates =>
    match candidates with
    | None => stop s (AgentFailed PortFailure)
    | Some candidates =>
        match (let? values := merge_context_candidates candidates (at_capability_context_candidates request) in
               derive_context context_request values) with
        | Ok surface => k surface
        | Err (RequiredFactsExceedBudget _ _) => stop s (OutcomeStopped TokenLimit)
        | Err _ => stop s (AgentFailed PortFailure)
        end
    end).

Definition iteration_body (s : LoopState) (iteration : Z) : Program LoopStep :=
  do! ok := emit request (IterationStarted iteration) in
  if negb ok then stop s (AgentFailed PortFailure)
  else derive_surface s (fun surface =>
    do! ok := emit request (ContextDerived (cs_item_count surface) (cs_utf8_bytes surface)) in
    if negb ok then stop s (AgentFailed PortFailure)
    else IsCancelled (fun cancelled =>
      if cancelled then stop s (OutcomeStopped StopCancelled)
      else
        let ordinal := ls_request_ordinal s + 1 in
        if u32_max <? ordinal then stop s (AgentFailed InvariantViolation)
        else
          let s := s <| ls_request_ordinal := ordinal |> in
          match build_model_request request surface iteration ordinal (ls_target_index s) tool_descriptors with
          | None => stop s (AgentFailed InvalidInput)
          | Some (model_request, request_id) => invoke_model s model_request request_id
          end)).

Definition loop_body (s : LoopState) : Program LoopStep :=
  IsCancelled (fun cancelled =>
    if cancelled then stop s (OutcomeStopped StopCancelled)
    else
      do! reached := deadline_reached request in
      match reached with
      | Some true => stop s (OutcomeStopped Deadline)
      | None => stop s (AgentFailed PortFailure)
      | Some false =>
          match begin_iteration (ls_control s) with
          | Err _ => stop s (AgentFailed InvariantViolation)
          | Ok (control, begun) =>
              let s := s <| ls_control := control |> in
              match begun with
              | IterationLimitReached => stop s (OutcomeStopped IterationLimit)
              | IterationBegun iteration => iteration_body s iteration
              end
          end
      end).

(** [None]: the fuel ran out. *)
Fixpoint kernel_loop (fuel : nat) (s : LoopState) : Program (option ExecutionReport) :=
  match fuel with
  | O => Done None
  | S fuel =>
      do! step := loop_body s in
      match step with
      | LoopContinue s => kernel_loop fuel s
      | LoopReturn report => Done (Some report)
      end
  end.

Definition initial_state (control : ExecutionControl) : LoopState :=
  mkLoop control usage_default 0 0 0 0 (cr_through_position (at_context_request request)).

(** One more round than the iterations left: the last one closes at the limit. *)
Definition kernel_fuel (control : ExecutionControl) : nat :=
  S (Z.to_nat (el_max_iterations (ec_limits control) - ec_completed_iterations control)).
End kernel.

(** [catalog.prepare]; a definition whose schema was not admitted cannot enter a
    catalog, so that the validator never stops short ([KernelRuns.catalog_prepare_total]). *)
Definition catalog_prepare `{Externals, ArgumentReader, Jcs} (catalog : ToolCatalog) (intent : ToolIntent)
    : result PreparationError PreparedToolCall :=
  match prepare catalog intent with
  | Ok call => Ok call
  | Err (Refused error) => Err error
  | Err (Stopped _) => Err (preparation_error InvalidToolDefinition)
  end.

Section execute.
Context `{JsonWriter, Externals, ArgumentReader, Jcs}.

Definition invalid_tool_setup (request : AgentTurnRequest) (control : ExecutionControl) : Program (option ExecutionReport) :=
  do! report := finish request control usage_default (AgentFailed InvalidInput) in Done (Some report).

(** [execute_kernel]: with the definitions, the optional preparation port, and
    whether an effect port is present. *)
Definition execute_kernel (request : AgentTurnRequest) (definitions : list ToolDefinition)
    (preparation : option (ToolIntent -> result PreparationError PreparedToolCall)) (effects : bool)
    : Program (option ExecutionReport) :=
  match prepare_control request with
  | Err report => Done (Some report)
  | Ok control =>
      match catalog_new definitions with
      | Err _ => invalid_tool_setup request control
      | Ok catalog =>
          match mapM tool_descriptor definitions with
          | None => invalid_tool_setup request control
          | Some descriptors =>
              do! ok := emit request ExecutionStarted in
              if negb ok then
                do! report := finish request control usage_default (AgentFailed PortFailure) in Done (Some report)
              else
                kernel_loop (default (catalog_prepare catalog) preparation) request effects descriptors
                  (kernel_fuel control) (initial_state request control)
          end
      end
  end.

Definition execute_model_only (request : AgentTurnRequest) : Program (option ExecutionReport) :=
  execute_kernel request [] None false.

(** ** Skill narrowing ([governed_execution.rs]) *)

Definition narrowed_definitions (request : AgentTurnRequest) (definitions : list ToolDefinition) : list ToolDefinition :=
  if bool_decide (length (at_activated_skills request) = 0%nat) then definitions
  else
    let allowed := at_activated_skills request ≫= as_allowed_tool_references in
    filter (fun d => Exists (fun r => tr_name r = ToolPrepared.td_name d /\ tr_exact_revision r = td_revision d) allowed)
      definitions.

Definition execute_agent (request : AgentTurnRequest) (definitions : list ToolDefinition)
    : Program (option ExecutionReport) :=
  execute_kernel request (narrowed_definitions request definitions) None true.
Definition execute_agent_with_preparation (request : AgentTurnRequest) (definitions : list ToolDefinition)
    (preparation : ToolIntent -> result PreparationError PreparedToolCall) : Program (option ExecutionReport) :=
  execute_kernel request (narrowed_definitions request definitions) (Some preparation) true.
End execute.
