(* ===== verification/KernelTheorems.v ===== *)
(** * What the kernel promises its ports ([engine/core/src/model_only.rs])

    A program is run against an environment that answers every port call from the
    calls so far; a run leaves the trace of its calls.  The promise of the loop is
    an abstract protocol: an automaton over port calls that says which call may
    come next.  The file proves that every run follows the protocol to its end,
    whatever the ports answer, and what the reports of a run say. *)

From S2P Require Import Prelude Json JsonDecode ToolSchema Order ToolPrepared ToolTheorems GovernedEffect Skill.
From S2P Require Import ModelTypes ContextSurface Kernel.

(** ** Runs *)

(** One port call with its answer; an invocation is two calls, what was sent and
    what came back. *)
Inductive Call :=
  | CallCancelled (answer : bool)
  | CallTick (answer : option Z)
  | CallEmit (event : AgentEvent) (answer : bool)
  | CallRead (request : ContextRequest) (rebuild_attempt : Z) (answer : option (list ContextCandidate))
  | CallAdvance (position : Z) (answer : option (option Z))
  | CallPreflight (request : ModelRequest) (answer : option ModelPortFailure)
  | CallInvoke (request : ModelRequest)
  | CallReturned (outcome : result ModelPortFailure InvokeOutcome)
  | CallEffect (source : string) (intent : ToolIntent) (prepared : PreparedToolCall)
      (answer : option CommittedGovernedResult)
  | CallReject (source : string) (intent : ToolIntent) (error : PreparationError)
      (answer : option CommittedGovernedResult).
Notation Trace := (list Call).

(** The ports: each answer may depend on every call before it. *)
Record Environment := mkEnvironment {
  env_cancelled : Trace -> bool;
  env_tick : Trace -> option Z;
  env_emit : Trace -> AgentEvent -> bool;
  env_read : Trace -> ContextRequest -> Z -> option (list ContextCandidate);
  env_advance : Trace -> Z -> option (option Z);
  env_preflight : Trace -> ModelRequest -> option ModelPortFailure;
  env_invoke : Trace -> ModelRequest -> ModelSession;
  env_effect : Trace -> string -> PreparedToolCall -> option CommittedGovernedResult;
  env_reject : Trace -> string -> ToolIntent -> PreparationError -> option CommittedGovernedResult;
}.

Fixpoint play {R} (env : Environment) (p : Program R) (tr : Trace) : Trace * R :=
  match p with
  | Done r => (tr, r)
  | IsCancelled k => let a := env_cancelled env tr in play env (k a) (tr ++ [CallCancelled a])
  | NowTick k => let a := env_tick env tr in play env (k a) (tr ++ [CallTick a])
  | EmitEvent event k => let a := env_emit env tr event in play env (k a) (tr ++ [CallEmit event a])
  | ReadCandidates request attempt k =>
      let a := env_read env tr request attempt in play env (k a) (tr ++ [CallRead request attempt a])
  | AdvanceAfterModel position k =>
      let a := env_advance env tr position in play env (k a) (tr ++ [CallAdvance position a])
  | Preflight request k => let a := env_preflight env tr request in play env (k a) (tr ++ [CallPreflight request a])
  | Invoke request k => play env (k (env_invoke env tr request)) (tr ++ [CallInvoke request])
  | Returned outcome k => play env k (tr ++ [CallReturned outcome])
  | EffectInvoke source intent prepared k =>
      let a := env_effect env tr source prepared in play env (k a) (tr ++ [CallEffect source intent prepared a])
  | EffectReject source intent error k =>
      let a := env_reject env tr source intent error in play env (k a) (tr ++ [CallReject source intent error a])
  end.

(** After the calls of [tr], every run of [p] ends in [Q]. *)
Definition ensures {R} (p : Program R) (tr : Trace) (Q : Trace -> R -> Prop) : Prop :=
  forall env, Q (play env p tr).1 (play env p tr).2.

Section rules.
Context {A B : Type}.

Lemma play_bind env (p : Program A) (f : A -> Program B) tr :
  play env (bind p f) tr = play env (f (play env p tr).2) (play env p tr).1.
Proof. revert tr. induction p; intros tr; cbn; auto. Qed.

Lemma ensures_bind (p : Program A) (f : A -> Program B) tr Q :
  ensures p tr (fun tr' a => ensures (f a) tr' Q) -> ensures (bind p f) tr Q.
Proof. intros Hp env. rewrite play_bind. apply Hp. Qed.

Lemma ensures_mono (p : Program A) tr (P Q : Trace -> A -> Prop) :
  ensures p tr P -> (forall tr' a, P tr' a -> Q tr' a) -> ensures p tr Q.
Proof. intros Hp HPQ env. apply HPQ, Hp. Qed.

Lemma ensures_done (a : A) tr (Q : Trace -> A -> Prop) : Q tr a -> ensures (Done a) tr Q.
Proof. intros HQ env. exact HQ. Qed.

Context (tr : Trace) (Q : Trace -> A -> Prop).

Lemma ensures_cancelled k : (forall a, ensures (k a) (tr ++ [CallCancelled a]) Q) -> ensures (IsCancelled k) tr Q.
Proof. intros Hk env. apply Hk. Qed.
Lemma ensures_tick k : (forall a, ensures (k a) (tr ++ [CallTick a]) Q) -> ensures (NowTick k) tr Q.
Proof. intros Hk env. apply Hk. Qed.
Lemma ensures_emit e k : (forall a, ensures (k a) (tr ++ [CallEmit e a]) Q) -> ensures (EmitEvent e k) tr Q.
Proof. intros Hk env. apply Hk. Qed.
Lemma ensures_read r n k :
  (forall a, ensures (k a) (tr ++ [CallRead r n a]) Q) -> ensures (ReadCandidates r n k) tr Q.
Proof. intros Hk env. apply Hk. Qed.
Lemma ensures_advance n k :
  (forall a, ensures (k a) (tr ++ [CallAdvance n a]) Q) -> ensures (AdvanceAfterModel n k) tr Q.
Proof. intros Hk env. apply Hk. Qed.
Lemma ensures_preflight r k :
  (forall a, ensures (k a) (tr ++ [CallPreflight r a]) Q) -> ensures (Preflight r k) tr Q.
Proof. intros Hk env. apply Hk. Qed.
Lemma ensures_invoke r k : (forall a, ensures (k a) (tr ++ [CallInvoke r]) Q) -> ensures (Invoke r k) tr Q.
Proof. intros Hk env. apply Hk. Qed.
Lemma ensures_returned o k : ensures k (tr ++ [CallReturned o]) Q -> ensures (Returned o k) tr Q.
Proof. intros Hk env. apply Hk. Qed.
Lemma ensures_effect s i c k :
  (forall a, ensures (k a) (tr ++ [CallEffect s i c a]) Q) -> ensures (EffectInvoke s i c k) tr Q.
Proof. intros Hk env. apply Hk. Qed.
Lemma ensures_reject s i e k :
  (forall a, ensures (k a) (tr ++ [CallReject s i e a]) Q) -> ensures (EffectReject s i e k) tr Q.
Proof. intros Hk env. apply Hk. Qed.
End rules.


(** One port call of the program. *)
Ltac call := first
  [ apply ensures_bind | apply ensures_cancelled | apply ensures_tick | apply ensures_emit | apply ensures_read
  | apply ensures_advance | apply ensures_preflight | apply ensures_invoke | apply ensures_returned
  | apply ensures_effect | apply ensures_reject ].

(** ** The protocol *)

Definition item_intent (item : ModelItem) : option ToolIntent :=
  match item with ItemToolIntent id name arguments => Some (mkIntent id name arguments) | _ => None end.
Definition intents (items : list ModelItem) : list ToolIntent := omap item_intent items.

(** Where a run stands. *)
Inductive Phase :=
  | Fresh
  | Boundary                                                  (* between two iterations *)
  | Deciding                                                  (* the model did not complete: retry or end *)
  | Checked | Clear                                           (* not cancelled; and before the deadline *)
  | Reading                                                   (* the iteration was announced *)
  | Derived (surface : ContextSurface) | Sealed (surface : ContextSurface) | Sending (surface : ContextSurface)
  | Cleared (request : ModelRequest) | Ready (request : ModelRequest)
  | Streaming (request_id : string) (refused : bool) | Observing (request_id : string) (refused : bool)
  | Answered (request_id : string) (items : list ModelItem)
  | Governing (request_id : string) (rest : list ToolIntent)
  | Acting (request_id : string) (intent : ToolIntent) (rest : list ToolIntent)
  | Ending | Ended.

Record Stand := mkStand {
  st_phase : Phase;
  st_iteration : Z;
  st_ordinal : Z;
  st_position : Z;
}.

Section protocol.
Context (prepare_intent : ToolIntent -> result PreparationError PreparedToolCall).
Context (request : AgentTurnRequest) (tools_enabled : bool) (tool_descriptors : list ModelTypes.ToolDescriptor).

Definition context_at (position : Z) : ContextRequest :=
  mkContextRequest (cr_session_id (at_context_request request)) (cr_turn_id (at_context_request request))
    (cr_purpose (at_context_request request)) (cr_after_position (at_context_request request)) position
    (cr_max_items (at_context_request request)) (cr_max_utf8_bytes (at_context_request request)).

(** The surface of what the context port answered, if there is one. *)
Definition surface_phase (position : Z) (answer : option (list ContextCandidate)) : Phase :=
  match answer with
  | None => Ending
  | Some candidates =>
      match (let? values := merge_context_candidates candidates (at_capability_context_candidates request) in
             derive_context (context_at position) values) with
      | Ok surface => Derived surface
      | Err _ => Ending
      end
  end.

Definition request_for (surface : ContextSurface) (iteration ordinal : Z) (r : ModelRequest) : Prop :=
  mr_request_id r = at_execution_id request +:+ ":" +:+ nat_to_string iteration +:+ ":" +:+ nat_to_string ordinal
  /\ mr_target_id r ∈ at_model_targets request
  /\ mr_input_items r = assemble_model_inputs surface
  /\ mr_tools r = tool_descriptors
  /\ mr_required_capabilities r = at_required_capabilities request
  /\ mr_output r = at_model_output request
  /\ model_request_validate r = Ok tt.

Definition answer_phase (request_id : string) (outcome : result ModelPortFailure InvokeOutcome) : Phase :=
  match outcome with
  | Err _ => Ending
  | Ok (ModelTypes.Completed items _ _) => Answered request_id items
  | Ok _ => Deciding
  end.

(** The position and phase after a committed result: only an observation at or
    after the position goes on. *)
Definition committed_phase (request_id : string) (rest : list ToolIntent) (position : Z)
    (committed : option CommittedGovernedResult) : Phase * Z :=
  match committed with
  | Some (mkCommitted (ResultObservation _) through _) =>
      if through <? position then (Ending, position)
      else (match rest with [] => Boundary | _ => Governing request_id rest end, through)
  | _ => (Ending, position)
  end.

Definition before_deadline (phase : Phase) : Prop :=
  phase = Clear \/ phase = Checked /\ ml_deadline_tick (at_limits request) = None.
(** Where the outcome may be proposed without a failed or refused call. *)
Definition may_propose (phase : Phase) (iteration : Z) : Prop :=
  match phase with
  | Fresh | Deciding | Sending _ | Answered _ _ | Ending => True
  | Checked | Clear =>
      before_deadline phase /\ iteration = el_max_iterations (ml_execution (at_limits request))
  | _ => False
  end.

Inductive permitted : Stand -> Call -> Stand -> Prop :=
  | PermitStart n o p ok :
      permitted (mkStand Fresh n o p) (CallEmit (agent_event request ExecutionStarted) ok)
        (mkStand (if ok then Boundary else Ending) n o p)
  | PermitPoll phase n o p cancelled :
      phase = Boundary \/ phase = Deciding ->
      permitted (mkStand phase n o p) (CallCancelled cancelled)
        (mkStand (if cancelled then Ending else Checked) n o p)
  | PermitClock n o p deadline tick :
      ml_deadline_tick (at_limits request) = Some deadline ->
      permitted (mkStand Checked n o p) (CallTick tick)
        (mkStand (match tick with Some now => if deadline <=? now then Ending else Clear | None => Ending end) n o p)
  | PermitIteration phase n o p ok :
      before_deadline phase ->
      n < el_max_iterations (ml_execution (at_limits request)) ->
      permitted (mkStand phase n o p) (CallEmit (agent_event request (IterationStarted (n + 1))) ok)
        (mkStand (if ok then Reading else Ending) (n + 1) o p)
  | PermitRead n o p attempt answer :
      attempt = 0 \/ attempt <= rp_max_context_rebuilds (at_recovery_policy request) ->
      permitted (mkStand Reading n o p) (CallRead (context_at p) attempt answer)
        (mkStand (surface_phase p answer) n o p)
  | PermitDerived n o p surface ok :
      permitted (mkStand (Derived surface) n o p)
        (CallEmit (agent_event request (ContextDerived (cs_item_count surface) (cs_utf8_bytes surface))) ok)
        (mkStand (if ok then Sealed surface else Ending) n o p)
  | PermitSealed n o p surface cancelled :
      permitted (mkStand (Sealed surface) n o p) (CallCancelled cancelled)
        (mkStand (if cancelled then Ending else Sending surface) n o p)
  | PermitPreflight n o p surface r answer :
      request_for surface n (o + 1) r ->
      permitted (mkStand (Sending surface) n o p) (CallPreflight r answer)
        (mkStand (match answer with None => Cleared r | Some _ => Ending end) n (o + 1) p)
  | PermitPrepared n o p r ok :
      permitted (mkStand (Cleared r) n o p)
        (CallEmit (agent_event request (ModelRequestPrepared (mr_request_id r) (mr_target_id r))) ok)
        (mkStand (if ok then Ready r else Ending) n o p)
  | PermitInvoke n o p r :
      permitted (mkStand (Ready r) n o p) (CallInvoke r) (mkStand (Streaming (mr_request_id r) false) n o p)
  | PermitStreamPoll n o p id refused cancelled :
      permitted (mkStand (Streaming id refused) n o p) (CallCancelled cancelled)
        (mkStand (if cancelled then Streaming id refused else Observing id refused) n o p)
  | PermitStreamEvent n o p id refused event ok :
      permitted (mkStand (Observing id refused) n o p) (CallEmit (agent_event request (EventModelStream event)) ok)
        (mkStand (Streaming id (refused || negb ok)) n o p)
  | PermitReturned n o p id refused outcome :
      permitted (mkStand (Streaming id refused) n o p) (CallReturned outcome)
        (mkStand (if refused then Ending else answer_phase id outcome) n o p)
  | PermitFirstIntent n o p id items intent rest cancelled :
      tools_enabled = true -> existsb is_tool_observation items = false ->
      intents items = intent :: rest ->
      permitted (mkStand (Answered id items) n o p) (CallCancelled cancelled)
        (mkStand (if cancelled then Ending else Acting id intent rest) n o p)
  | PermitNextIntent n o p id intent rest cancelled :
      permitted (mkStand (Governing id (intent :: rest)) n o p) (CallCancelled cancelled)
        (mkStand (if cancelled then Ending else Acting id intent rest) n o p)
  | PermitEffect n o p id intent rest prepared committed :
      prepare_intent intent = Ok prepared ->
      permitted (mkStand (Acting id intent rest) n o p) (CallEffect id intent prepared committed)
        (mkStand (committed_phase id rest p committed).1 n o (committed_phase id rest p committed).2)
  | PermitReject n o p id intent rest error committed :
      prepare_intent intent = Err error ->
      permitted (mkStand (Acting id intent rest) n o p) (CallReject id intent error committed)
        (mkStand (committed_phase id rest p committed).1 n o (committed_phase id rest p committed).2)
  | PermitAdvanced n o p id items through :
      existsb is_tool_observation items = false -> intents items = [] -> p < through ->
      permitted (mkStand (Answered id items) n o p) (CallAdvance p (Some (Some through)))
        (mkStand Boundary n o through)
  | PermitNotAdvanced n o p id items answer :
      existsb is_tool_observation items = false -> intents items = [] ->
      (forall through, answer = Some (Some through) -> through <= p) ->
      permitted (mkStand (Answered id items) n o p) (CallAdvance p answer) (mkStand Ending n o p)
  | PermitOutcome phase n o p ok :
      may_propose phase n ->
      permitted (mkStand phase n o p) (CallEmit (agent_event request OutcomeProposed) ok) (mkStand Ended n o p).

Inductive follows : Stand -> Trace -> Stand -> Prop :=
  | follows_nil a : follows a [] a
  | follows_snoc a b d tr c : follows a tr b -> permitted b c d -> follows a (tr ++ [c]) d.
End protocol.

(** ** What a report accounts for *)

(** What the model answered in a run, and the usage it reported. *)
Definition call_answer (c : Call) : option InvokeOutcome :=
  match c with CallReturned (Ok outcome) => Some outcome | _ => None end.
Definition answers (tr : Trace) : list InvokeOutcome := omap call_answer tr.
Definition answer_usage (outcome : InvokeOutcome) : option ModelUsage :=
  match outcome with
  | ModelTypes.Completed _ usage _ | ModelTypes.Interrupted _ _ usage => Some usage
  | _ => None
  end.
Definition reported (tr : Trace) : list ModelUsage := omap answer_usage (answers tr).

(** Every reported usage, added in order, each without a missing count or an
    overflow. *)
Definition charge (policy : MissingUsagePolicy) (total : option UsageAccumulator) (usage : ModelUsage)
    : option UsageAccumulator :=
  total ← total; match usage_add total usage policy with (total, Ok _) => Some total | _ => None end.
Definition charged (policy : MissingUsagePolicy) (usages : list ModelUsage) : option UsageAccumulator :=
  foldl (charge policy) (Some usage_default) usages.

(** A known count; the estimate that a policy puts in place of a missing one. *)
Definition count_of (count : TokenCount) (estimate : Z) : Z := match count with Known n => n | Unknown => estimate end.
Definition tokens_of (policy : MissingUsagePolicy) (usage : ModelUsage) : Z :=
  match policy with
  | MissingStop => count_of (mu_input_tokens usage) 0 + count_of (mu_output_tokens usage) 0
  | Estimate input output => count_of (mu_input_tokens usage) input + count_of (mu_output_tokens usage) output
  end.

Lemma accumulate_known current next policy input total estimated missing :
  accumulate current next policy input = Ok (Known total, estimated, missing) ->
  missing = false /\ exists n, current = Known n
    /\ total = n + count_of next (match policy with
                                  | MissingStop => 0 | Estimate i o => if input then i else o end).
Proof.
  unfold accumulate, checked_add, checked_u64. destruct current, next, policy; intros Hacc; cbn in *; try done;
    inv_ok Hacc; cbn in *; simplify_eq; eauto.
Qed.

(** The sum of the tokens, reported or estimated. *)
Lemma charged_sum policy usages total : forall input output,
  charged policy usages = Some total -> ua_input total = Known input -> ua_output total = Known output ->
  input + output = zsum_by (tokens_of policy) usages.
Proof.
  revert total. induction usages as [|usage usages IH] using rev_ind; intros total input output Hc Hi Ho.
  { injection Hc as <-. injection Hi as <-. injection Ho as <-. done. }
  unfold charged in Hc. rewrite foldl_app in Hc. cbn in Hc. fold (charged policy usages) in Hc.
  destruct (charged policy usages) as [before|]; [|done]. cbn in Hc. unfold usage_add in Hc.
  destruct (accumulate (ua_input before) _ _ _) as [[[input' ie] im]|] eqn:Hin; [|done].
  destruct (accumulate (ua_output before) _ _ _) as [[[output' oe] om]|] eqn:Hout; [|done].
  destruct (im || om); [done|]. injection Hc as <-. cbn in Hi, Ho. subst input' output'.
  apply accumulate_known in Hin as (_ & i & Hi & ->). apply accumulate_known in Hout as (_ & o & Ho & ->).
  rewrite zsum_by_app. rewrite <- (IH before i o eq_refl Hi Ho). unfold zsum_by, tokens_of. cbn.
  destruct policy; lia.
Qed.

Lemma answers_snoc tr c : answers (tr ++ [c]) = answers tr ++ option_list (call_answer c).
Proof. unfold answers. by rewrite omap_app. Qed.
Lemma reported_snoc tr c : reported (tr ++ [c]) = reported tr ++ option_list (call_answer c ≫= answer_usage).
Proof.
  unfold reported. rewrite answers_snoc, omap_app. f_equal.
  destruct (call_answer c) as [o|]; [|done]. cbn. by destruct (answer_usage o).
Qed.
Lemma reported_quiet tr c : call_answer c = None -> reported (tr ++ [c]) = reported tr.
Proof. intros Hc. by rewrite reported_snoc, Hc, app_nil_r. Qed.

Section loop.
Context `{JsonWriter}.
Context (prepare_intent : ToolIntent -> result PreparationError PreparedToolCall).
Context (request : AgentTurnRequest) (tools_enabled : bool) (tool_descriptors : list ModelTypes.ToolDescriptor).
Context (start : Stand).

Notation F := (follows prepare_intent request tools_enabled tool_descriptors start).
Notation policy := (rp_missing_usage (at_recovery_policy request)).
Notation max_tokens := (ml_max_total_tokens (at_limits request)).
Notation max_iterations := (el_max_iterations (ml_execution (at_limits request))).

(** A completed report: the items of the last answer, none of them an intent; the
    usage is all that was reported, within the limit. *)
Definition completion_accounted (tr : Trace) (report : ExecutionReport) : Prop :=
  forall items usage, re_outcome report = OutcomeCompleted items usage ->
    usage = re_usage report
    /\ (exists total tokens, charged policy (reported tr) = Some total /\ usage = usage_summary total
        /\ usage_total total = Some tokens /\ forall limit, max_tokens = Some limit -> tokens <= limit)
    /\ intents items = []
    /\ exists answer, last (answers tr) = Some answer
       /\ match answer with
          | ModelTypes.Completed answered _ _ => answered = items /\ existsb is_tool_observation items = false
          | ModelTypes.Interrupted OutputLimit partial _ =>
              partial = items /\ rp_output_limit (at_recovery_policy request) = CompletePartial
          | _ => False
          end.

Definition closes (tr : Trace) (report : ExecutionReport) : Prop :=
  exists o p, F tr (mkStand Ended (re_completed_iterations report) o p) /\ completion_accounted tr report.

(** The locals of the loop that the protocol does not see. *)
Record sound_locals (tr : Trace) (s : LoopState) : Prop := {
  sl_status : ec_status (ls_control s) = Active;
  sl_limits : ec_limits (ls_control s) = ml_execution (at_limits request);
  sl_bound : ec_completed_iterations (ls_control s) <= max_iterations;
  sl_usage : charged policy (reported tr) = Some (ls_usage s);
  sl_target : (ls_target_index s < length (at_model_targets request))%nat;
  sl_rebuild : ls_rebuild_attempt s = 0
    \/ ls_rebuild_attempt s <= rp_max_context_rebuilds (at_recovery_policy request);
}.

Definition stands (phase : Phase) (tr : Trace) (s : LoopState) : Prop :=
  F tr (mkStand phase (ec_completed_iterations (ls_control s)) (ls_request_ordinal s) (ls_through_position s)).
Definition loop_invariant (tr : Trace) (s : LoopState) : Prop :=
  sound_locals tr s /\ exists phase, stands phase tr s /\ (phase = Boundary \/ phase = Deciding).

(** One round of the loop ends the run, or goes on one iteration later. *)
Definition round_post (completed : Z) (tr : Trace) (step : LoopStep) : Prop :=
  match step with
  | LoopContinue s => loop_invariant tr s /\ ec_completed_iterations (ls_control s) = completed
  | LoopReturn report => closes tr report
  end.

Lemma sound_locals_quiet tr s c : call_answer c = None -> sound_locals tr s -> sound_locals (tr ++ [c]) s.
Proof. intros Hc []. split; try done. by rewrite reported_quiet. Qed.
Lemma stands_step phase phase' tr s c :
  stands phase tr s ->
  permitted prepare_intent request tools_enabled tool_descriptors
    (mkStand phase (ec_completed_iterations (ls_control s)) (ls_request_ordinal s) (ls_through_position s)) c
    (mkStand phase' (ec_completed_iterations (ls_control s)) (ls_request_ordinal s) (ls_through_position s)) ->
  stands phase' (tr ++ [c]) s.
Proof. apply follows_snoc. Qed.

Lemma finish_report control usage outcome tr :
  ensures (finish request control usage outcome) tr (fun tr' report =>
    exists ok, tr' = tr ++ [CallEmit (agent_event request OutcomeProposed) ok]
      /\ report = mkReport (if ok then outcome else AgentFailed PortFailure) (ec_completed_iterations control)
                    (usage_summary usage)).
Proof.
  unfold finish, emit, control_close, require_active. call. call. intros ok. do 2 apply ensures_done.
  exists ok. split; [done|]. by destruct (ec_status control), ok.
Qed.

Definition completes (outcome : AgentOutcome) : bool :=
  match outcome with OutcomeCompleted _ _ => true | _ => false end.

Lemma stop_closes phase completed tr s o p outcome :
  F tr (mkStand phase (ec_completed_iterations (ls_control s)) o p) ->
  may_propose request phase (ec_completed_iterations (ls_control s)) ->
  (forall ok, completion_accounted (tr ++ [CallEmit (agent_event request OutcomeProposed) ok])
     (mkReport outcome (ec_completed_iterations (ls_control s)) (usage_summary (ls_usage s)))) ->
  ensures (stop request s outcome) tr (round_post completed).
Proof.
  intros HF Hmay Hacc. unfold stop. call. eapply ensures_mono; [apply finish_report|].
  intros tr' report (ok & -> & ->). apply ensures_done. cbn. exists o, p. split.
  - eapply follows_snoc; [exact HF|]. by apply PermitOutcome.
  - destruct ok; [apply Hacc|]. intros items usage. done.
Qed.

Lemma stop_plain phase completed tr s o p outcome :
  completes outcome = false -> F tr (mkStand phase (ec_completed_iterations (ls_control s)) o p) ->
  may_propose request phase (ec_completed_iterations (ls_control s)) ->
  ensures (stop request s outcome) tr (round_post completed).
Proof.
  intros Hout HF Hmay. eapply stop_closes; [done..|]. intros ok items usage Heq. cbn in Heq. by subst outcome.
Qed.
Lemma stop_ending completed tr s o p outcome :
  completes outcome = false -> F tr (mkStand Ending (ec_completed_iterations (ls_control s)) o p) ->
  ensures (stop request s outcome) tr (round_post completed).
Proof. intros. by eapply stop_plain. Qed.

(** *** The stream *)

Lemma forward_session_follows id session : forall failed tr s,
  stands (Streaming id failed) tr s -> sound_locals tr s ->
  ensures (forward_session request failed session) tr (fun tr' '(outcome, refused) =>
    exists tr0, tr' = tr0 ++ [CallReturned outcome] /\ sound_locals tr0 s
      /\ stands (if refused then Ending else answer_phase id outcome) tr' s).
Proof.
  induction session as [outcome|event next IH]; intros failed tr s HF Hs; cbn [forward_session].
  - call. apply ensures_done. exists tr. do 2 (split; [done|]). eapply stands_step; [done|constructor].
  - call. intros [].
    + apply IH; [|by apply sound_locals_quiet]. eapply stands_step; [done|apply (PermitStreamPoll _ _ _ _ _ _ _ _ _ true)].
    + call. intros ok. assert (stands (Streaming id (failed || negb ok))
        ((tr ++ [CallCancelled false]) ++ [CallEmit (agent_event request (EventModelStream event)) ok]) s) as HF'.
      { eapply stands_step; [|constructor]. eapply stands_step; [done|apply (PermitStreamPoll _ _ _ _ _ _ _ _ _ false)]. }
      destruct ok; apply IH; repeat apply sound_locals_quiet; try done.
      * by rewrite orb_false_r in HF'.
      * by rewrite orb_true_r in HF'.
Qed.

(** *** The intents of a response *)

Lemma committed_step_ok all rest id p committed :
  match committed_step all p committed with
  | Ok p' => committed_phase id rest p committed
             = (match rest with [] => Boundary | _ => Governing id rest end, p')
  | Err outcome => completes outcome = false /\ (committed_phase id rest p committed).1 = Ending
  end.
Proof.
  destruct committed as [[[] through binding]|]; cbn; [..|done].
  - by destruct (through <? p).
  - destruct (through <? p); [done|]. destruct binding; [|done]. by destruct (suspension_binds _ _).
  - destruct (through <? p); [done|]. by destruct code.
Qed.

(** A phase in which the next intents of a response are [rest]. *)
Definition next_intents (id : string) (rest : list ToolIntent) (phase : Phase) : Prop :=
  match rest with
  | [] => phase = Boundary
  | _ => phase = Governing id rest
         \/ exists items, phase = Answered id items /\ intents items = rest /\ tools_enabled = true
                        /\ existsb is_tool_observation items = false
  end.

Lemma govern_items_follow all id n o : forall items phase tr p,
  F tr (mkStand phase n o p) -> next_intents id (intents items) phase ->
  ensures (govern_items prepare_intent all items id p) tr (fun tr' step =>
    reported tr' = reported tr
    /\ match step with
       | ToolContinue p' => F tr' (mkStand Boundary n o p')
       | ToolTerminal outcome => completes outcome = false /\ exists p', F tr' (mkStand Ending n o p')
       end).
Proof.
  induction items as [|item items IH]; intros phase tr p HF Hnext.
  { apply ensures_done. split; [done|]. cbn in Hnext. by subst. }
  destruct (item_intent item) as [intent|] eqn:Hitem; cycle 1.
  { replace (intents (item :: items)) with (intents items) in Hnext by (cbn; by rewrite Hitem).
    specialize (IH _ _ _ HF Hnext). by destruct item. }
  replace (intents (item :: items)) with (intent :: intents items) in Hnext by (cbn; by rewrite Hitem).
  assert (forall b, F (tr ++ [CallCancelled b])
    (mkStand (if b then Ending else Acting id intent (intents items)) n o p)) as Hpoll.
  { intros b. eapply follows_snoc; [exact HF|].
    destruct Hnext as [->|(items0 & -> & ? & ? & ?)]; [by apply PermitNextIntent|by eapply PermitFirstIntent]. }
  destruct item; cbn in Hitem; simplify_eq. cbn [govern_items]. call. intros b. specialize (Hpoll b). destruct b.
  { apply ensures_done. split; [by apply reported_quiet|]. split; [done|]. by exists p. }
  assert (forall c committed,
    permitted prepare_intent request tools_enabled tool_descriptors
      (mkStand (Acting id (mkIntent model_call_id tool_name arguments_json) (intents items)) n o p) c
      (mkStand (committed_phase id (intents items) p committed).1 n o (committed_phase id (intents items) p committed).2) ->
    call_answer c = None ->
    ensures match committed_step all p committed with
            | Ok position => govern_items prepare_intent all items id position
            | Err outcome => Done (ToolTerminal outcome)
            end ((tr ++ [CallCancelled false]) ++ [c]) (fun tr' step =>
      reported tr' = reported tr
      /\ match step with
         | ToolContinue p' => F tr' (mkStand Boundary n o p')
         | ToolTerminal outcome => completes outcome = false /\ exists p', F tr' (mkStand Ending n o p')
         end)) as Hgo.
  { intros c committed Hc Hquiet. pose proof (committed_step_ok all (intents items) id p committed) as Hstep.
    assert (reported ((tr ++ [CallCancelled false]) ++ [c]) = reported tr) as Hrep by (by rewrite !reported_quiet).
    pose proof (follows_snoc _ _ _ _ _ _ _ _ _ Hpoll Hc) as HF'.
    destruct (committed_step all p committed) as [p'|outcome].
    - rewrite Hstep in HF'. eapply ensures_mono; [eapply IH; [exact HF'|]|].
      + unfold next_intents. by destruct (intents items); [|left].
      + intros tr' step. by rewrite Hrep.
    - apply ensures_done. split; [done|]. destruct Hstep as [Hout Hph]. rewrite Hph in HF'. by eauto. }
  destruct (prepare_intent _) as [prepared|error] eqn:Hprep; call; intros committed; apply Hgo; try done.
  - by apply PermitEffect.
  - by apply PermitReject.
Qed.

(** *** A response *)

Notation within total := (forall limit, max_tokens = Some limit -> total <= limit).

Lemma account_or_limit_spec usage model_usage :
  let '(usage', terminal) := account_or_limit usage model_usage (at_recovery_policy request) max_tokens in
  match terminal with
  | Some outcome => completes outcome = false
  | None => charge policy (Some usage) model_usage = Some usage'
            /\ exists total, usage_total usage' = Some total /\ within total
  end.
Proof.
  unfold account_or_limit, charge. cbn. destruct (usage_add _ _ _) as [usage' [[]|e]]; [|done].
  destruct (usage_total usage') as [total|] eqn:Htotal; [|done].
  destruct (is_some_and _ _) eqn:Hlimit; [done|]. split; [done|]. exists total. split; [done|].
  intros limit Hmax. rewrite Hmax in Hlimit. cbn in Hlimit. lia.
Qed.

(** The state after a response was accounted. *)
Record accounted (tr : Trace) (s : LoopState) : Prop := {
  ac_locals : sound_locals tr s;
  ac_within : exists total, usage_total (ls_usage s) = Some total /\ within total;
}.

Lemma account_post outcome model_usage phase completed tr0 s k :
  answer_usage outcome = Some model_usage ->
  sound_locals tr0 s -> stands phase (tr0 ++ [CallReturned (Ok outcome)]) s ->
  may_propose request phase (ec_completed_iterations (ls_control s)) ->
  (forall s', accounted (tr0 ++ [CallReturned (Ok outcome)]) s' -> stands phase (tr0 ++ [CallReturned (Ok outcome)]) s' ->
     ls_control s' = ls_control s ->
     ensures (k s') (tr0 ++ [CallReturned (Ok outcome)]) (round_post completed)) ->
  ensures (account request s model_usage k) (tr0 ++ [CallReturned (Ok outcome)]) (round_post completed).
Proof.
  intros Husage Hs HF Hmay Hk. unfold account.
  pose proof (account_or_limit_spec (ls_usage s) model_usage) as Hspec.
  destruct (account_or_limit _ _ _ _) as [usage [out|]].
  - by eapply stop_plain.
  - destruct Hspec as [Hadd Hterm]. apply Hk; [|done..]. split; [|by cbn]. destruct Hs. split; try done.
    rewrite reported_snoc. cbn. rewrite Husage. cbn. unfold charged. rewrite foldl_app. cbn. 
    fold (charged policy (reported tr0)). by rewrite sl_usage0.
Qed.

(** Going on to the next iteration from a response. *)
Lemma continue_post phase tr s s' :
  phase = Boundary \/ phase = Deciding ->
  ls_control s' = ls_control s -> stands phase tr s' -> sound_locals tr s' ->
  ensures (Done (LoopContinue s')) tr (round_post (ec_completed_iterations (ls_control s))).
Proof. intros Hph Hc HF Hs. apply ensures_done. split; [|by rewrite Hc]. split; [done|]. by exists phase. Qed.

Lemma no_intents items : existsb is_tool_intent items = false <-> intents items = [].
Proof.
  induction items as [|item items IH]; [done|]. unfold intents. cbn. by destruct item; cbn.
Qed.

Lemma completed_accounted tr s items answer n :
  accounted tr s -> intents items = [] -> last (answers tr) = Some answer ->
  match answer with
  | ModelTypes.Completed answered _ _ => answered = items /\ existsb is_tool_observation items = false
  | ModelTypes.Interrupted OutputLimit partial _ =>
      partial = items /\ rp_output_limit (at_recovery_policy request) = CompletePartial
  | _ => False
  end ->
  completion_accounted tr
    (mkReport (OutcomeCompleted items (usage_summary (ls_usage s))) n (usage_summary (ls_usage s))).
Proof.
  intros [Hs (total & Htotal & Hin)] Hitems Hlast Hans items' usage Heq. cbn in Heq. simplify_eq.
  split; [done|]. split; [by exists (ls_usage s), total; rewrite (sl_usage _ _ Hs)|]. split; [done|].
  by exists answer.
Qed.

Lemma completion_accounted_quiet tr c report :
  call_answer c = None -> completion_accounted tr report -> completion_accounted (tr ++ [c]) report.
Proof.
  intros Hc Hacc items usage Hrep. unfold completion_accounted in Hacc.
  rewrite reported_quiet, answers_snoc, Hc, app_nil_r by done. by apply Hacc.
Qed.

Lemma last_answers_snoc tr o : last (answers (tr ++ [CallReturned (Ok o)])) = Some o.
Proof. rewrite answers_snoc. apply last_snoc. Qed.

Lemma on_completed_post tr0 s id items usage reason :
  sound_locals tr0 s -> stands (Answered id items) (tr0 ++ [CallReturned (Ok (ModelTypes.Completed items usage reason))]) s ->
  ensures (on_completed prepare_intent request tools_enabled s id items usage)
    (tr0 ++ [CallReturned (Ok (ModelTypes.Completed items usage reason))])
    (round_post (ec_completed_iterations (ls_control s))).
Proof.
  intros Hs HF. unfold on_completed. eapply account_post; [done..|]. clear HF. intros s' Hacc HF Hctl. rewrite <- Hctl.
  destruct (existsb is_tool_observation items) eqn:Hobs; [by eapply stop_plain|].
  destruct (existsb is_tool_intent items) eqn:Hint.
  - destruct (negb tools_enabled) eqn:Htools; [by eapply stop_plain|]. apply negb_false_iff in Htools.
    call. eapply ensures_mono.
    { apply (govern_items_follow items id _ _ items _ _ _ HF). unfold next_intents.
      destruct (intents items) eqn:Hintents; [by rewrite <- no_intents, Hint in Hintents|]. right. by exists items. }
    cbn. intros tr' step [Hrep Hstep]. destruct step as [p'|outcome].
    + eapply continue_post; [by left|done|exact Hstep|]. destruct Hacc as [[] _]. split; try done. by rewrite Hrep.
    + destruct Hstep as (Hout & p' & HF'). by eapply stop_ending.
  - apply no_intents in Hint. call. intros answer. destruct answer as [[through|]|].
    + destruct (ls_through_position s' <? through) eqn:Hp.
      * eapply (continue_post Boundary); [by left|done|..].
        -- eapply follows_snoc; [exact HF|]. apply (PermitAdvanced _ _ _ _ _ _ (ls_through_position s') id items through); [done..|cbn in *; lia].
        -- destruct Hacc as [Hl _]. apply (sound_locals_quiet _ _ (CallAdvance (ls_through_position s') (Some (Some through)))) in Hl; [|done].
           by destruct Hl.
      * eapply stop_ending; [done|]. eapply follows_snoc; [exact HF|]. apply PermitNotAdvanced; [done..|].
        intros ? [= ->]. lia.
    + eapply (stop_closes Ending); [|done|].
      { eapply follows_snoc; [exact HF|]. apply PermitNotAdvanced; [done..|]. done. }
      intros ok. do 2 (apply completion_accounted_quiet; [done|]).
      eapply completed_accounted; [done..|apply last_answers_snoc|]. done.
    + eapply stop_ending; [done|]. eapply follows_snoc; [exact HF|]. by apply PermitNotAdvanced.
Qed.

Lemma on_output_limit_post tr0 s partial usage :
  accounted (tr0 ++ [CallReturned (Ok (ModelTypes.Interrupted OutputLimit partial usage))]) s ->
  stands Deciding (tr0 ++ [CallReturned (Ok (ModelTypes.Interrupted OutputLimit partial usage))]) s ->
  ensures (on_output_limit request s partial)
    (tr0 ++ [CallReturned (Ok (ModelTypes.Interrupted OutputLimit partial usage))])
    (round_post (ec_completed_iterations (ls_control s))).
Proof.
  intros Hacc HF. unfold on_output_limit. destruct (rp_output_limit _) as [|retries| | |] eqn:Hlimit;
    try by (eapply stop_plain; [done|exact HF|done]).
  - destruct (existsb is_tool_intent partial) eqn:Hint; [by (eapply stop_plain; [done|exact HF|done])|].
    apply no_intents in Hint. eapply stop_closes; [exact HF|done|]. intros ok.
    apply completion_accounted_quiet; [done|].
    eapply completed_accounted; [done..|apply last_answers_snoc|]. done.
  - destruct (_ <? _); [|by (eapply stop_plain; [done|exact HF|done])].
    eapply (continue_post Deciding); [by right|done|exact HF|]. by destruct Hacc as [[] _].
Qed.

Lemma on_outcome_post tr0 s id outcome :
  sound_locals tr0 s -> stands (answer_phase id (Ok outcome)) (tr0 ++ [CallReturned (Ok outcome)]) s ->
  ensures (on_outcome prepare_intent request tools_enabled s id outcome) (tr0 ++ [CallReturned (Ok outcome)])
    (round_post (ec_completed_iterations (ls_control s))).
Proof.
  intros Hs HF. destruct outcome as [items usage reason|kind evidence|kind partial usage|kind retry]; cbn in HF; unfold on_outcome.
  - by apply on_completed_post.
  - destruct kind; try by (eapply stop_plain; [done|exact HF|done]).
    destruct (_ <? _) eqn:Hlt; [|by (eapply stop_plain; [done|exact HF|done])].
    eapply (continue_post Deciding); [by right|done|exact HF|]. destruct Hs. split; try done.
    + by rewrite reported_snoc, app_nil_r.
    + right. cbn. lia.
  - eapply account_post; [done..|]. clear HF. intros s' Hacc HF Hctl. rewrite <- Hctl. destruct kind.
    + by (eapply stop_plain; [done|exact HF|done]).
    + by apply on_output_limit_post.
    + eapply stop_plain; [|exact HF|done]. by destruct (rp_transport _).
  - assert (forall action, ensures (stop request s (recovery_outcome action (ls_through_position s)))
      (tr0 ++ [CallReturned (Ok (ModelTypes.Unavailable kind retry))])
      (round_post (ec_completed_iterations (ls_control s)))) as Hstop.
    { intros action. eapply stop_plain; [by destruct action|exact HF|done]. }
    destruct (rp_unavailable _); try apply Hstop.
    destruct (_ <? _)%nat eqn:Hlt; [|apply Hstop].
    eapply (continue_post Deciding); [by right|done|exact HF|]. destruct Hs. split; try done.
    + by rewrite reported_snoc, app_nil_r.
    + cbn. apply Nat.ltb_lt in Hlt. lia.
Qed.

(** *** An iteration *)

Lemma build_model_request_for surface n o index r id :
  build_model_request request surface n o index tool_descriptors = Some (r, id) ->
  (index < length (at_model_targets request))%nat ->
  request_for request tool_descriptors surface n o r /\ id = mr_request_id r.
Proof.
  unfold build_model_request, request_for. intros Hb Hindex.
  destruct (model_request_validate _) as [[]|] eqn:Hv; simplify_eq. repeat split; [|done].
  destruct (lookup_lt_is_Some_2 _ _ Hindex) as [target Ht]. cbn. rewrite Ht. by eapply list_elem_of_lookup_2.
Qed.

Lemma invoke_model_post surface tr s o r :
  request_for request tool_descriptors surface (ec_completed_iterations (ls_control s)) (o + 1) r ->
  ls_request_ordinal s = o + 1 ->
  F tr (mkStand (Sending surface) (ec_completed_iterations (ls_control s)) o (ls_through_position s)) ->
  sound_locals tr s ->
  ensures (invoke_model prepare_intent request tools_enabled s r (mr_request_id r)) tr
    (round_post (ec_completed_iterations (ls_control s))).
Proof.
  intros Hr Ho HF Hs. unfold invoke_model. call. intros answer.
  pose proof (follows_snoc _ _ _ _ _ _ _ _ _ HF (PermitPreflight _ _ _ _ _ _ _ _ _ answer Hr)) as HF1.
  rewrite <- Ho in HF1. destruct answer as [failure|]; [by eapply stop_ending|].
  call. call. intros ok. apply ensures_done.
  pose proof (follows_snoc _ _ _ _ _ _ _ _ _ HF1 (PermitPrepared _ _ _ _ _ _ _ _ ok)) as HF2.
  destruct ok; cbn [negb]; [|by eapply stop_ending].
  call. intros session. call. eapply ensures_mono.
  { apply (forward_session_follows (mr_request_id r)); [|repeat apply sound_locals_quiet; done].
    eapply follows_snoc; [exact HF2|apply PermitInvoke]. }
  intros tr' [outcome refused] (tr0 & -> & Hs0 & HF3). destruct refused; [by eapply stop_ending|].
  destruct outcome as [outcome|failure]; [by apply on_outcome_post|by eapply stop_ending].
Qed.

Lemma derive_surface_post tr s k :
  stands Reading tr s -> sound_locals tr s ->
  (forall tr' surface, stands (Derived surface) tr' s -> sound_locals tr' s ->
     ensures (k surface) tr' (round_post (ec_completed_iterations (ls_control s)))) ->
  ensures (derive_surface request s k) tr (round_post (ec_completed_iterations (ls_control s))).
Proof.
  intros HF Hs Hk. unfold derive_surface. fold (context_at request (ls_through_position s)). call. intros answer.
  pose proof (follows_snoc _ _ _ _ _ _ _ _ _ HF (PermitRead _ _ _ _ _ _ _ _ answer (sl_rebuild _ _ Hs))) as HF1.
  destruct answer as [candidates|]; [|by eapply stop_ending]. cbn [surface_phase] in HF1.
  destruct (let? values := _ in _) as [surface|e].
  - apply Hk; [done|by apply sound_locals_quiet].
  - by destruct e; eapply stop_ending.
Qed.

Lemma iteration_body_post phase tr s :
  before_deadline request phase ->
  F tr (mkStand phase (ec_completed_iterations (ls_control s) - 1) (ls_request_ordinal s) (ls_through_position s)) ->
  sound_locals tr s ->
  ensures (iteration_body prepare_intent request tools_enabled tool_descriptors s
             (ec_completed_iterations (ls_control s))) tr
    (round_post (ec_completed_iterations (ls_control s))).
Proof.
  intros Hph HF Hs. unfold iteration_body. call. call. intros ok. apply ensures_done.
  assert (ec_completed_iterations (ls_control s) - 1 < max_iterations) as Hlt by (pose proof (sl_bound _ _ Hs); lia).
  pose proof (follows_snoc _ _ _ _ _ _ _ _ _ HF (PermitIteration _ _ _ _ _ _ _ _ ok Hph Hlt)) as HF1.
  replace (_ - 1 + 1) with (ec_completed_iterations (ls_control s)) in HF1 by lia.
  destruct ok; cbn [negb]; [|by eapply stop_ending].
  apply derive_surface_post; [done|by apply sound_locals_quiet|]. clear HF HF1 Hs tr. intros tr surface HF Hs.
  call. call. intros ok. apply ensures_done.
  pose proof (follows_snoc _ _ _ _ _ _ _ _ _ HF (PermitDerived _ _ _ _ _ _ _ _ ok)) as HF1.
  destruct ok; cbn [negb]; [|by eapply stop_ending].
  call. intros cancelled. pose proof (follows_snoc _ _ _ _ _ _ _ _ _ HF1 (PermitSealed _ _ _ _ _ _ _ _ cancelled)) as HF2.
  destruct cancelled; [by eapply stop_ending|].
  destruct (u32_max <? _); [by (eapply stop_plain; [done|exact HF2|])|]. cbn zeta.
  destruct (build_model_request _ _ _ _ _ _) as [[r id]|] eqn:Hbuild; [|by (eapply stop_plain; [done|exact HF2|])].
  apply build_model_request_for in Hbuild as [Hr ->]; [|apply (sl_target _ _ Hs)].
  lazymatch goal with |- ensures (invoke_model _ _ _ ?s' _ _) _ _ =>
    refine (invoke_model_post surface _ s' (ls_request_ordinal s) r Hr eq_refl HF2 _) end.
  do 2 (apply sound_locals_quiet; [done|]). by destruct Hs.
Qed.

Lemma stop_returns env s outcome tr : exists report, (play env (stop request s outcome) tr).2 = LoopReturn report.
Proof. unfold stop. rewrite play_bind. by eexists. Qed.

Lemma loop_body_post tr s :
  loop_invariant tr s ->
  ensures (loop_body prepare_intent request tools_enabled tool_descriptors s) tr
    (fun tr' step => round_post (ec_completed_iterations (ls_control s) + 1) tr' step
       /\ (ec_completed_iterations (ls_control s) = max_iterations -> exists report, step = LoopReturn report)).
Proof.
  intros [Hs (phase & HF & Hph)].
  assert (forall tr' s' outcome o p, completes outcome = false ->
    F tr' (mkStand Ending (ec_completed_iterations (ls_control s')) o p) ->
    ensures (stop request s' outcome) tr' (fun tr' step => round_post (ec_completed_iterations (ls_control s) + 1) tr' step
       /\ (ec_completed_iterations (ls_control s) = max_iterations -> exists report, step = LoopReturn report))) as Hstop.
  { intros tr' s' outcome o p Hout HF' env. split; [by eapply stop_ending|]. intros _. apply stop_returns. }
  unfold loop_body. call. intros cancelled.
  pose proof (follows_snoc _ _ _ _ _ _ _ _ _ HF (PermitPoll _ _ _ _ _ _ _ _ cancelled Hph)) as HF1.
  destruct cancelled; [by eapply Hstop|]. call.
  apply (ensures_mono _ _ (fun tr' reached => sound_locals tr' s
    /\ match reached with Some false => exists phase, before_deadline request phase /\ stands phase tr' s
                         | _ => stands Ending tr' s end)).
  { unfold deadline_reached. destruct (ml_deadline_tick _) as [deadline|] eqn:Hd.
    - call. intros tick. apply ensures_done. split; [by do 2 (apply sound_locals_quiet; [done|])|].
      pose proof (follows_snoc _ _ _ _ _ _ _ _ _ HF1 (PermitClock _ _ _ _ _ _ _ _ tick Hd)) as HF2.
      destruct tick as [now|]; [|done]. destruct (deadline <=? now); [done|]. exists Clear. split; [by left|done].
    - apply ensures_done. split; [by apply sound_locals_quiet|]. exists Checked. split; [by right|done]. }
  clear HF HF1 Hph phase Hs. intros tr' reached [Hs HF]. destruct reached as [[]|]; [by eapply Hstop| |by eapply Hstop].
  destruct HF as (phase & Hph & HF). unfold begin_iteration, require_active. rewrite (sl_status _ _ Hs), (sl_limits _ _ Hs).
  cbv beta iota zeta. destruct (_ =? _) eqn:Hmax.
  - apply Z.eqb_eq in Hmax. intros env. split; [|intros _; apply stop_returns].
    eapply stop_plain; [done|exact HF|]. cbn. by destruct Hph as [->|[-> ?]]; cbn; (split; [|done]); [left|right].
  - intros env. split; [|lia]. revert env.
    lazymatch goal with |- forall env, round_post _ (play env (iteration_body _ _ _ _ ?s' _) _).1 _ =>
      refine (iteration_body_post phase _ s' Hph _ _) end.
    + cbn. replace (_ + 1 - 1) with (ec_completed_iterations (ls_control s)) by lia. exact HF.
    + destruct Hs. split; try done. cbn. lia.
Qed.

Lemma kernel_loop_post : forall fuel tr s,
  loop_invariant tr s ->
  max_iterations - ec_completed_iterations (ls_control s) < Z.of_nat fuel ->
  ensures (kernel_loop prepare_intent request tools_enabled tool_descriptors fuel s) tr
    (fun tr' answer => exists report, answer = Some report /\ closes tr' report).
Proof.
  induction fuel as [|fuel IH]; intros tr s Hinv Hfuel.
  { pose proof (sl_bound _ _ (proj1 Hinv)). lia. }
  cbn [kernel_loop]. call. eapply ensures_mono; [by apply loop_body_post|].
  intros tr' step [Hstep Hlast]. destruct step as [s'|report].
  - destruct Hstep as [Hinv' Hc]. apply IH; [done|]. rewrite Hc.
    assert (ec_completed_iterations (ls_control s) <> max_iterations) by (intros Hmax; by destruct (Hlast Hmax)).
    lia.
  - apply ensures_done. by exists report.
Qed.
End loop.

(** ** What the protocol guarantees *)

Definition is_invoke (c : Call) : bool := match c with CallInvoke _ => true | _ => false end.
Definition is_proposal (c : Call) : bool :=
  match c with CallEmit (mkAgentEvent _ _ _ OutcomeProposed) _ => true | _ => false end.
Definition how_many (f : Call -> bool) (tr : Trace) : Z := Z.of_nat (length (List.filter f tr)).
Definition invoked_id (c : Call) : option string :=
  match c with CallInvoke r => Some (mr_request_id r) | _ => None end.

Lemma how_many_snoc f tr c : how_many f (tr ++ [c]) = how_many f tr + (if f c then 1 else 0).
Proof.
  unfold how_many. rewrite List.filter_app, length_app. cbn. destruct (f c); cbn; lia.
Qed.

Section guarantees.
Context (prepare_intent : ToolIntent -> result PreparationError PreparedToolCall).
Context (request : AgentTurnRequest) (tools_enabled : bool) (tool_descriptors : list ModelTypes.ToolDescriptor).
Context (n0 p0 : Z).
Notation max_iterations := (el_max_iterations (ml_execution (at_limits request))).
Notation F := (follows prepare_intent request tools_enabled tool_descriptors (mkStand Fresh n0 0 p0)).

(** Requests not yet counted by the ordinal, and counted ones not yet sent. *)
Definition unsent (phase : Phase) : Z :=
  match phase with Reading | Derived _ | Sealed _ | Sending _ => 1 | _ => 0 end.
Definition unspent (phase : Phase) : Z :=
  match phase with Cleared _ | Ready _ => 1 | _ => 0 end.
Definition settled (phase : Phase) : Z := match phase with Ended => 1 | _ => 0 end.

Record bounded (tr : Trace) (st : Stand) : Prop := {
  bd_iteration : n0 <= st_iteration st;
  bd_limit : st_iteration st <= Z.max n0 max_iterations;
  bd_ordinal : st_ordinal st + unsent (st_phase st) <= st_iteration st - n0;
  bd_position : p0 <= st_position st;
  bd_invoked : how_many is_invoke tr + unspent (st_phase st) <= st_ordinal st;
  bd_proposed : how_many is_proposal tr = settled (st_phase st);
}.

Lemma phase_weights position answer :
  (unsent (surface_phase request position answer) <= 1) /\ unspent (surface_phase request position answer) = 0
  /\ settled (surface_phase request position answer) = 0.
Proof.
  unfold surface_phase. destruct answer; [|done]. by destruct (let? values := _ in _).
Qed.
Lemma answer_weights id outcome :
  unsent (answer_phase id outcome) = 0 /\ unspent (answer_phase id outcome) = 0 /\ settled (answer_phase id outcome) = 0.
Proof. by destruct outcome as [[]|]. Qed.
Lemma committed_weights id rest p committed :
  let '(phase, p') := committed_phase id rest p committed in
  unsent phase = 0 /\ unspent phase = 0 /\ settled phase = 0 /\ p <= p'.
Proof.
  destruct committed as [[[] through binding]|]; cbn; try (repeat split; lia).
  destruct (through <? p) eqn:Hp; [repeat split; lia|]. destruct rest; cbn; repeat split; lia.
Qed.

#[local] Arguments surface_phase : simpl never.
#[local] Arguments answer_phase : simpl never.
#[local] Arguments committed_phase : simpl never.
#[local] Arguments Z.add : simpl never.
#[local] Arguments Z.sub : simpl never.
#[local] Arguments Z.max : simpl never.

Lemma follows_bounded tr st : F tr st -> bounded tr st.
Proof.
  intros HF. remember (mkStand Fresh n0 0 p0) as st0 eqn:Hst0. induction HF as [a|a b d tr c HF IH Hc]; subst.
  { split; unfold how_many; cbn; lia. }
  specialize (IH eq_refl). destruct IH as [H1 H2 H3 H4 H5 H6].
  inversion Hc; subst; cbn in H1, H2, H3, H4, H5, H6;
    repeat match goal with
    | H : _ \/ _ |- _ => destruct H as [?|?]; subst; cbn in *
    | H : before_deadline _ _ |- _ => destruct H as [->|[-> _]]; cbn in *
    | H : may_propose _ ?phase _ |- _ => destruct phase; cbn in H; try done; cbn in *; clear H
    | |- context [answer_phase ?id ?o] => pose proof (answer_weights id o); generalize dependent (answer_phase id o); intros
    | |- context [committed_phase ?id ?rest ?p ?c] =>
        pose proof (committed_weights id rest p c); destruct (committed_phase id rest p c)
    end; split; intros; rewrite ?how_many_snoc; cbn in *;
    repeat match goal with
    | |- context [if ?b then _ else _] => destruct b; cbn in *
    | |- context [match ?x with Some _ => _ | None => _ end] => destruct x; cbn in *
    end; try lia.
  all: destruct (phase_weights p answer) as (? & ? & ?); lia.
Qed.

Lemma request_id_inj execution n o n' o' :
  0 <= n -> 0 <= o -> 0 <= n' -> 0 <= o' ->
  execution +:+ ":" +:+ nat_to_string n +:+ ":" +:+ nat_to_string o
  = execution +:+ ":" +:+ nat_to_string n' +:+ ":" +:+ nat_to_string o' -> n = n' /\ o = o'.
Proof.
  intros Hn Ho Hn' Ho' Heq. apply (inj (String.app execution)), (inj (String.app ":")) in Heq.
  pose proof (decode_nat_to_string n (":" +:+ nat_to_string o) Hn eq_refl) as Hd.
  rewrite Heq, (decode_nat_to_string n') in Hd by done. injection Hd as -> Hd. split; [done|].
  pose proof (decode_nat_to_string o "" Ho eq_refl) as Hd1. pose proof (decode_nat_to_string o' "" Ho' eq_refl) as Hd2.
  change (nat_to_string o' = nat_to_string o) in Hd. rewrite Hd in Hd2. congruence.
Qed.

(** The requests sent so far, and the one about to be, carry ordinals up to the
    current one, each its own. *)
Definition sent_by (tr : Trace) (st : Stand) : Prop :=
  NoDup (omap invoked_id tr)
  /\ (forall id, id ∈ omap invoked_id tr -> exists n o, 0 <= n /\ 0 < o
        /\ o <= st_ordinal st - unspent (st_phase st)
        /\ id = at_execution_id request +:+ ":" +:+ nat_to_string n +:+ ":" +:+ nat_to_string o)
  /\ match st_phase st with
     | Cleared r | Ready r =>
         mr_request_id r = at_execution_id request +:+ ":" +:+ nat_to_string (st_iteration st) +:+ ":"
                           +:+ nat_to_string (st_ordinal st)
     | _ => True
     end.

Lemma omap_invoked_snoc tr c : omap invoked_id (tr ++ [c]) = omap invoked_id tr ++ option_list (invoked_id c).
Proof. by rewrite omap_app. Qed.

Lemma sent_by_quiet tr c st st' :
  invoked_id c = None -> sent_by tr st ->
  st_ordinal st - unspent (st_phase st) <= st_ordinal st' - unspent (st_phase st') ->
  match st_phase st' with
  | Cleared r | Ready r =>
      mr_request_id r = at_execution_id request +:+ ":" +:+ nat_to_string (st_iteration st') +:+ ":"
                        +:+ nat_to_string (st_ordinal st')
  | _ => True
  end -> sent_by (tr ++ [c]) st'.
Proof.
  intros Hc (Hnd & Hids & _) Hle Hphase. unfold sent_by. rewrite omap_invoked_snoc, Hc, app_nil_r.
  split; [done|]. split; [|done]. intros id Hid. destruct (Hids _ Hid) as (n & o & ? & ? & ? & ->). exists n, o.
  do 2 (split; [done|]). split; [lia|done].
Qed.

Lemma sent_by_idle tr c st st' :
  invoked_id c = None -> sent_by tr st -> st_ordinal st <= st_ordinal st' -> unspent (st_phase st') = 0 ->
  sent_by (tr ++ [c]) st'.
Proof.
  intros Hc Hst Ho Hidle. eapply sent_by_quiet; [done|exact Hst| |].
  - destruct (st_phase st); cbn; lia.
  - by destruct (st_phase st').
Qed.

Lemma sent_by_invoke tr n o p r :
  0 <= n -> 0 < o -> sent_by tr (mkStand (Ready r) n o p) ->
  sent_by (tr ++ [CallInvoke r]) (mkStand (Streaming (mr_request_id r) false) n o p).
Proof.
  intros Hn Ho (Hnd & Hids & Hid). cbn in Hids, Hid. unfold sent_by. rewrite omap_invoked_snoc. cbn. split; [|split; [|done]].
  - apply NoDup_app. split; [done|]. split; [|apply NoDup_singleton].
    intros id Hin ->%list_elem_of_singleton. destruct (Hids _ Hin) as (n' & o' & ? & ? & ? & Heq).
    rewrite Hid in Heq. apply request_id_inj in Heq; lia.
  - intros id [Hin| ->%list_elem_of_singleton]%elem_of_app.
    + destruct (Hids _ Hin) as (n' & o' & ? & ? & ? & Heq). exists n', o'. repeat split; try lia. done.
    + exists n, o. repeat split; try lia. done.
Qed.

Lemma follows_sent_by tr st : 0 <= n0 -> F tr st -> sent_by tr st.
Proof.
  intros Hn0 HF. pose proof HF as HF0. remember (mkStand Fresh n0 0 p0) as st0 eqn:Hst0.
  induction HF as [a|a b d tr c HF IH Hc]; subst.
  { split; [constructor|]. split; [|done]. intros id Hid. by apply elem_of_nil in Hid. }
  specialize (IH eq_refl HF). pose proof (follows_bounded _ _ HF) as Hb. destruct Hb as [Hb1 _ Hb3 _ Hb5 _].
  inversion Hc; subst; cbn in Hb1, Hb3, Hb5;
    try (eapply sent_by_idle; [done|exact IH|cbn; lia|cbn;
      repeat (done || match goal with
      | |- context [surface_phase request ?p ?answer] => by destruct (phase_weights p answer) as (? & -> & ?)
      | |- context [answer_phase ?id ?o] => destruct (answer_weights id o) as (? & -> & ?)
      | |- context [committed_phase ?id ?rest ?p ?c] =>
          pose proof (committed_weights id rest p c); by destruct (committed_phase id rest p c) as [? ?]; destruct_and?
      | |- context [if ?b then _ else _] => destruct b
      | |- context [match ?x with Some _ => _ | None => _ end] => destruct x
      end)]; fail).
  - eapply sent_by_quiet; [done|exact IH|..]; cbn; destruct answer; cbn; try lia; try done. by destruct H as [? _].
  - destruct IH as (Hnd & Hids & Hid). eapply sent_by_quiet; [done|by split|..]; cbn; destruct ok; cbn; try lia; try done.
  - apply sent_by_invoke; [lia| |done]. unfold how_many in Hb5. lia.
Qed.

(** A run that ended proposed its outcome once, last. *)
Lemma follows_ended tr n o p :
  F tr (mkStand Ended n o p) ->
  exists tr0 ok, tr = tr0 ++ [CallEmit (agent_event request OutcomeProposed) ok] /\ how_many is_proposal tr0 = 0.
Proof.
  intros HF. pose proof (bd_proposed _ _ (follows_bounded _ _ HF)) as Hone. cbn in Hone.
  remember (mkStand Fresh n0 0 p0) as st0 eqn:Hst0. remember (mkStand Ended n o p) as st eqn:Hst.
  destruct HF as [a|a b d tr c HF Hc]; [by rewrite Hst0 in Hst|]. subst.
  rewrite how_many_snoc in Hone. pose proof (bd_proposed _ _ (follows_bounded _ _ HF)) as Hzero.
  destruct (is_proposal c) eqn:Hp.
  - exists tr. inversion Hc; subst; try done. exists ok. split; [done|lia].
  - exfalso. assert (st_phase b = Ended) as Hb by (destruct (st_phase b); cbn in Hzero; done || lia).
    inversion Hc; subst; cbn in Hb; subst; try done; repeat match goal with H : _ \/ _ |- _ => destruct H | H : before_deadline _ _ |- _ => destruct H as [|[]] end; done.
Qed.

(** Effects are invoked with what was prepared from their intent. *)
Definition prepared_effect (c : Call) : Prop :=
  match c with CallEffect _ intent prepared _ => prepare_intent intent = Ok prepared | _ => True end.
Lemma follows_prepared tr st : F tr st -> Forall prepared_effect tr.
Proof.
  intros HF. induction HF as [a|a b d tr c HF IH Hc]; [constructor|].
  apply Forall_app. split; [done|]. apply Forall_singleton. by destruct Hc.
Qed.
End guarantees.
