(* ===== verification/KernelRuns.v ===== *)
(** * Whole executions of the kernel

    The runs of [execute_kernel] and of its callers: they follow the protocol of
    [KernelTheorems] from the frozen request to the proposed outcome, within the
    limits of the request, and an execution without a preparation port invokes
    only tools that the activated skills allow. *)

From S2P Require Import Prelude Json ToolSchema Order ToolPrepared ToolTheorems GovernedEffect Skill.
From S2P Require Import BuiltinTools ModelTypes ContextSurface Kernel KernelTheorems.

Section execution.
Context `{JsonWriter, Externals, ArgumentReader, Jcs}.
Context (request : AgentTurnRequest) (definitions : list ToolDefinition).
Context (preparation : option (ToolIntent -> result PreparationError PreparedToolCall)) (effects : bool).

(** What the tools of an execution are frozen to: how intents are prepared and
    what the model is told. *)
Definition tool_setup : option ((ToolIntent -> result PreparationError PreparedToolCall) * list ModelTypes.ToolDescriptor) :=
  match catalog_new definitions, mapM tool_descriptor definitions with
  | Ok catalog, Some descriptors => Some (default (catalog_prepare catalog) preparation, descriptors)
  | _, _ => None
  end.

Definition fresh : Stand :=
  mkStand Fresh (cu_completed_iterations (at_cursor request)) 0 (cr_through_position (at_context_request request)).

(** A run of a valid request. *)
Definition run_post (tr : Trace) (report : ExecutionReport) : Prop :=
  match tool_setup with
  | None => exists ok, tr = [CallEmit (agent_event request OutcomeProposed) ok]
      /\ report = mkReport (AgentFailed (if ok then InvalidInput else PortFailure))
                    (cu_completed_iterations (at_cursor request)) (usage_summary usage_default)
  | Some (prepare_intent, descriptors) => closes prepare_intent request effects descriptors fresh tr report
  end.

Lemma prepare_control_ok control :
  prepare_control request = Ok control ->
  control = mkControl (at_turn_id request) (at_execution_id request) (ml_execution (at_limits request))
              (cu_completed_iterations (at_cursor request)) Active
  /\ cu_completed_iterations (at_cursor request) <= el_max_iterations (ml_execution (at_limits request))
  /\ (0 < length (at_model_targets request))%nat.
Proof.
  unfold prepare_control, control_new. destruct (turn_request_validate request) as [[]|] eqn:Hv; [|done].
  destruct (_ <? _) eqn:Hlt; [done|]. intros [= <-]. split; [done|]. split; [lia|].
  unfold turn_request_validate in Hv. destruct (at_model_targets request); [|cbn; lia].
  inv_ok Hv.
Qed.

Lemma execute_kernel_post :
  ensures (execute_kernel request definitions preparation effects) [] (fun tr answer => exists report,
    answer = Some report
    /\ match prepare_control request with
       | Err refused => tr = [] /\ report = refused
       | Ok _ => run_post tr report
       end).
Proof.
  unfold execute_kernel, run_post, tool_setup. destruct (prepare_control request) as [control|refused] eqn:Hc; cycle 1.
  { apply ensures_done. by exists refused. }
  apply prepare_control_ok in Hc as (-> & Hle & Htargets).
  assert (forall P : Trace -> ExecutionReport -> Prop,
    (forall ok, P [CallEmit (agent_event request OutcomeProposed) ok]
       (mkReport (AgentFailed (if ok then InvalidInput else PortFailure))
          (cu_completed_iterations (at_cursor request)) (usage_summary usage_default))) ->
    ensures (invalid_tool_setup request (mkControl (at_turn_id request) (at_execution_id request)
       (ml_execution (at_limits request)) (cu_completed_iterations (at_cursor request)) Active)) []
      (fun tr answer => exists report, answer = Some report /\ P tr report)) as Hinvalid.
  { intros P HP. unfold invalid_tool_setup. call. eapply ensures_mono; [apply finish_report|].
    intros tr report (ok & -> & ->). apply ensures_done. eexists. split; [done|]. specialize (HP ok). by destruct ok. }
  destruct (catalog_new definitions) as [catalog|]; [|apply Hinvalid; by eauto].
  destruct (mapM tool_descriptor definitions) as [descriptors|]; [|apply Hinvalid; by eauto].
  set (prepare_intent := default (catalog_prepare catalog) preparation).
  call. call. intros ok. apply ensures_done. cbn [app].
  pose proof (follows_snoc _ _ effects _ _ _ _ _ _ (follows_nil prepare_intent request effects descriptors fresh)
    (PermitStart _ _ _ _ _ _ _ ok)) as HF. cbn [app] in HF. destruct ok; cbn [negb].
  - apply kernel_loop_post; [|unfold kernel_fuel; cbn; lia]. split.
    + split; try done. by left.
    + exists Boundary. split; [exact HF|by left].
  - call. eapply ensures_mono; [apply finish_report|]. intros tr report (ok & -> & ->). apply ensures_done.
    eexists. split; [done|]. eexists _, _. split.
    + eapply follows_snoc; [exact HF|]. by apply PermitOutcome.
    + intros items usage. by destruct ok.
Qed.

Notation run env := (play env (execute_kernel request definitions preparation effects) []).

(** C3: Whatever the ports answer, an execution of the kernel returns a report, and its port calls
    are a complete run of the kernel protocol: the cancellation poll and the deadline before each
    iteration, the context read at the current position, the preflighted and announced model
    request built from that context, the stream, one governed effect per tool intent in order and
    only with a prepared call, and one proposed outcome as the last call; an invalid request makes
    no call at all. *)
Theorem kernel_follows_protocol env :
  exists report, (run env).2 = Some report
    /\ match prepare_control request with
       | Err refused => (run env).1 = [] /\ report = refused
       | Ok _ =>
           match tool_setup with
           | None => exists ok, (run env).1 = [CallEmit (agent_event request OutcomeProposed) ok]
           | Some (prepare_intent, descriptors) =>
               exists o p, follows prepare_intent request effects descriptors fresh (run env).1
                             (mkStand Ended (re_completed_iterations report) o p)
           end
       end.
Proof.
  destruct (execute_kernel_post env) as (report & -> & Hpost). exists report. split; [done|].
  destruct (prepare_control request); [|done]. unfold run_post in Hpost.
  destruct tool_setup as [[prepare_intent descriptors]|].
  - destruct Hpost as (o & p & HF & _). eauto.
  - destruct Hpost as (ok & -> & _). eauto.
Qed.

(** C4: An execution of a valid request ends with a report after at most as many model invocations
    as iterations the request has left, each under its own request id; the reported iterations lie
    between the cursor and the limit, and the outcome is proposed exactly once, as the last call. *)
Theorem kernel_run_bounded env control :
  prepare_control request = Ok control -> 0 <= cu_completed_iterations (at_cursor request) ->
  exists report, (run env).2 = Some report
    /\ cu_completed_iterations (at_cursor request) <= re_completed_iterations report
    /\ re_completed_iterations report <= el_max_iterations (ml_execution (at_limits request))
    /\ how_many is_invoke (run env).1 <= re_completed_iterations report - cu_completed_iterations (at_cursor request)
    /\ NoDup (omap invoked_id (run env).1)
    /\ exists tr0 ok, (run env).1 = tr0 ++ [CallEmit (agent_event request OutcomeProposed) ok]
         /\ how_many is_proposal tr0 = 0.
Proof.
  intros Hc Hn. destruct (execute_kernel_post env) as (report & -> & Hpost). exists report. split; [done|].
  rewrite Hc in Hpost. apply prepare_control_ok in Hc as (_ & Hle & _). unfold run_post in Hpost.
  destruct tool_setup as [[prepare_intent descriptors]|].
  - destruct Hpost as (o & p & HF & _). pose proof (follows_bounded _ _ _ _ _ _ _ _ HF) as Hb.
    destruct Hb as [H1' H2' H3' _ H5' _]. cbn in *. destruct (follows_sent_by _ _ _ _ _ _ _ _ Hn HF) as [Hnd _].
    repeat (split; [first [done|lia]|]). by eapply follows_ended.
  - destruct Hpost as (ok & -> & ->). unfold how_many. cbn. do 3 (split; [lia|]). split; [constructor|]. by exists [], ok.
Qed.

(** C5: An execution that completes returns the items of the model's last answer, none of them a
    tool intent, and the usage it reports is the sum of everything the model reported, missing
    counts replaced by the policy's estimates, within the token limit of the request. *)
Theorem kernel_completion_accounted env :
  exists report, (run env).2 = Some report
    /\ completion_accounted request (run env).1 report
    /\ forall items usage input output, re_outcome report = OutcomeCompleted items usage ->
         us_input_tokens usage = Known input -> us_output_tokens usage = Known output ->
         input + output = zsum_by (tokens_of (rp_missing_usage (at_recovery_policy request))) (reported (run env).1).
Proof.
  destruct (execute_kernel_post env) as (report & -> & Hpost). exists report. split; [done|].
  assert (completion_accounted request (run env).1 report) as Hacc.
  { destruct (prepare_control request) as [|refused] eqn:Hc.
    - unfold run_post in Hpost. destruct tool_setup as [[prepare_intent descriptors]|].
      + by destruct Hpost as (? & ? & _ & Hacc).
      + destruct Hpost as (ok & _ & ->). by intros items usage.
    - destruct Hpost as [_ ->]. unfold prepare_control in Hc. intros items usage Hout.
      destruct (turn_request_validate _); [destruct (control_new _ _ _ _)|]; by simplify_eq. }
  split; [done|]. intros items usage input output Hout Hi Ho.
  destruct (Hacc _ _ Hout) as (_ & (total & tokens & Hc & -> & _) & _). by eapply charged_sum.
Qed.
End execution.

(** ** Catalogs and skills *)

Section narrowing.
Context `{JsonWriter, Externals, ArgumentReader, Jcs}.

(** Admitted definitions never stop the validator short. *)
Lemma catalog_prepare_total definitions catalog intent halt :
  catalog_new definitions = Ok catalog -> Forall definition_ok definitions ->
  prepare catalog intent <> Err (Stopped halt).
Proof.
  intros Hc Hok. apply catalog_new_lookup in Hc as [_ Hl].
  assert (catalog_ok catalog) as Hcat by (intros n d [Hin _]%Hl; by eapply Forall_forall in Hok).
  destruct (validate_intent_ok catalog intent Hcat) as [_ Hs]. unfold prepare.
  destruct (validate_intent catalog intent) as [[d args]|[e|h]]; cbn; [|done|by intros [= ->]; eapply Hs].
  destruct (is_some _); [done|]. unfold lift. by destruct (from_v1 intent d args).
Qed.

Lemma catalog_prepare_names definitions catalog intent call :
  catalog_new definitions = Ok catalog -> catalog_prepare catalog intent = Ok call ->
  exists d, d ∈ definitions /\ ToolPrepared.td_name d = ti_tool_name intent
    /\ pc_tool_name call = ToolPrepared.td_name d /\ pc_tool_revision call = td_revision d.
Proof.
  intros Hc Hp. apply catalog_new_lookup in Hc as [_ Hl]. unfold catalog_prepare, prepare in Hp.
  destruct (validate_intent catalog intent) as [[d args]|[]] eqn:Hv; cbn in Hp; [|done..].
  assert (tc_definitions catalog !! ti_tool_name intent = Some d) as [Hd Hname]%Hl.
  { unfold validate_intent, refuse in Hv. destruct (str_is_empty _); [done|]. destruct (str_is_empty _); [done|].
    destruct (tc_definitions catalog !! _) as [d'|]; [|done]. destruct (parse_arguments _) as [args'|]; [|done].
    cbn in Hv. destruct (validate_arguments _ _) as [[|]|]; [|done..]. by injection Hv as -> ->. }
  exists d. do 2 (split; [done|]). destruct (is_some _); [done|]. unfold lift in Hp.
  destruct (from_v1 intent d args) as [c|] eqn:Hf; [|done]. cbn in Hp. injection Hp as ->. unfold from_v1 in Hf. inv_ok Hf.
  intros; simplify_eq. done.
Qed.

(** A tool that the definitions have and, when skills are active, one of them
    names by its exact revision. *)
Definition allowed_call (request : AgentTurnRequest) (definitions : list ToolDefinition) (c : Call) : Prop :=
  match c with
  | CallEffect _ intent prepared _ =>
      exists d, d ∈ definitions /\ pc_tool_name prepared = ToolPrepared.td_name d /\ pc_tool_revision prepared = td_revision d
        /\ ti_tool_name intent = pc_tool_name prepared
        /\ (at_activated_skills request <> [] -> exists skill reference,
              skill ∈ at_activated_skills request /\ reference ∈ as_allowed_tool_references skill
              /\ tr_name reference = pc_tool_name prepared /\ tr_exact_revision reference = pc_tool_revision prepared)
  | _ => True
  end.

Lemma narrowed_definitions_allowed request definitions d :
  d ∈ narrowed_definitions request definitions ->
  d ∈ definitions /\ (at_activated_skills request <> [] -> exists skill reference,
    skill ∈ at_activated_skills request /\ reference ∈ as_allowed_tool_references skill
    /\ tr_name reference = ToolPrepared.td_name d /\ tr_exact_revision reference = td_revision d).
Proof.
  unfold narrowed_definitions. case_bool_decide as Hlen.
  - intros Hd. split; [done|]. by destruct (at_activated_skills request).
  - intros [(reference & Href & Hname & Hrev)%Exists_exists Hd]%list_elem_of_filter.
    split; [done|]. intros _. apply list_elem_of_bind in Href as (skill & Href & Hskill). eauto 8.
Qed.

(** C6: Without a preparation port an execution invokes effects only for tools of the agent's
    definitions and, when skills are active, only for tools that one of them allows by name and
    exact revision. *)
Theorem execute_agent_narrowed env request definitions :
  Forall (allowed_call request definitions) (play env (execute_agent request definitions) []).1.
Proof.
  unfold execute_agent. destruct (execute_kernel_post request (narrowed_definitions request definitions) None true env)
    as (report & _ & Hpost). destruct (prepare_control request).
  - unfold run_post, tool_setup in Hpost. destruct (catalog_new _) as [catalog|] eqn:Hcat.
    + destruct (mapM _ _) as [descriptors|].
      * destruct Hpost as (o & p & HF & _). apply follows_prepared in HF. eapply Forall_impl; [exact HF|].
        intros [] Hc; try done. cbn in Hc |- *. eapply catalog_prepare_names in Hc as (d & Hd & Hn & -> & ->); [|done].
        apply narrowed_definitions_allowed in Hd as [Hd Hs]. exists d. repeat (split; [done|]). done.
      * destruct Hpost as (ok & -> & _). by repeat constructor.
    + destruct Hpost as (ok & -> & _). by repeat constructor.
  - destruct Hpost as [-> _]. constructor.
Qed.
End narrowing.

(** ** Samples *)

#[local] Existing Instances ToolSample.externals ToolSample.reader ToolSample.canonical_json.
Module KernelSample.
#[export] Instance writer : JsonWriter := fun v => match encode v with Ok s => Some s | Err _ => None end.

Definition context : ContextRequest := mkContextRequest "s" "t" Inference None 1 10 1000.
Definition question : ContextCandidate :=
  mkCandidate (mkFactRef "s" 1) KindUserInput Required Visible [InputMessage RoleUser [ContentText "hello"]].
Definition request (skills : list ActivatedSkill) : AgentTurnRequest :=
  mkTurnRequest "s" "t" "e" "a" "d" "1" (EntryStart "hello") (mkCursor 0 0) context skills [] ["model"] []
    (mkOutputSettings None Plain false) (mkRecovery 1 CompletePartial RecoverStop RecoverStop MissingStop)
    (mkModelLimits (mkLimits 3) (Some 100) None).
Definition usage : ModelUsage := mkModelUsage (Known 3) (Known 4) None None ProviderReported.

(** The model starts with [first], then answers. *)
Definition observed : CommittedGovernedResult :=
  mkCommitted (ResultObservation (FeedbackGoverned
    (mkObservation "i" "digest" "call-1" T1_PROCESS_RUN (Succeeded Null false)))) 2 None.
Definition answer : InvokeOutcome := ModelTypes.Completed [ItemText "done"] usage EndTurn.
Definition ports (first : InvokeOutcome) : Environment :=
  mkEnvironment (fun _ => false) (fun _ => None) (fun _ _ => true) (fun _ _ _ => Some [question]) (fun _ _ => Some None)
    (fun _ _ => None)
    (fun tr _ => SessionReturn (Ok (if how_many is_invoke tr =? 0 then first else answer)))
    (fun _ _ _ => Some observed) (fun _ _ _ _ => Some observed).

(** A skill that allows only to read files, and the preparation of every tool. *)
Definition reader_skill : ActivatedSkill :=
  mkActivated "reader" "1" "digest" "Read." "digest" ReasonExplicit
    ((fun d => mkToolReference (ToolPrepared.td_name d) (td_revision d)) 
      <$> List.filter (fun d => (ToolPrepared.td_name d =? T1_READ_TEXT)%string) ToolSample.definitions).
Definition prepare_any (intent : ToolIntent) : result PreparationError PreparedToolCall :=
  match ToolSample.catalogue with
  | None => Err invalid_definition
  | Some c => match t1_prepare c intent with
              | Ok call => Ok call | Err (Refused e) => Err e | Err (Stopped _) => Err invalid_definition end
  end.
Definition runs_process : InvokeOutcome := ModelTypes.Completed [ItemToolIntent "call-1" T1_PROCESS_RUN "run"] usage ToolUse.
End KernelSample.
#[local] Existing Instances KernelSample.writer.

Lemma kernel_run_bounded_witness :
  exists report,
    (play (KernelSample.ports KernelSample.runs_process)
       (execute_agent_with_preparation (KernelSample.request []) ToolSample.definitions KernelSample.prepare_any) []).2
    = Some report
    /\ re_completed_iterations report = 2 /\ re_completed_iterations report <= 3
    /\ re_outcome report = OutcomeCompleted [ItemText "done"] (mkUsageSummary (Known 6) (Known 8) false).
Proof.
  destruct (prepare_control (KernelSample.request [])) as [control|] eqn:Hc; [|by vm_compute in Hc].
  destruct (kernel_run_bounded (KernelSample.request []) (narrowed_definitions (KernelSample.request []) ToolSample.definitions)
    (Some KernelSample.prepare_any) true (KernelSample.ports KernelSample.runs_process) control Hc) as (report & Hr & _ & Hmax & _);
    [by vm_compute|].
  exists report. split; [exact Hr|]. vm_compute in Hr. injection Hr as <-. done.
Defined.

Definition invoked_tool (c : Call) : option string :=
  match c with CallEffect _ _ prepared _ => Some (pc_tool_name prepared) | _ => None end.

(** A preparation port of every tool undoes the narrowing: with a skill active that
    allows only one tool, the process tool runs. *)
Theorem preparation_port_escapes_narrowing :
  let request := KernelSample.request [KernelSample.reader_skill] in
  (ToolPrepared.td_name <$> narrowed_definitions request ToolSample.definitions) = [T1_READ_TEXT]
  /\ omap invoked_tool (play (KernelSample.ports KernelSample.runs_process)
       (execute_agent_with_preparation request ToolSample.definitions KernelSample.prepare_any) []).1 = [T1_PROCESS_RUN].
Proof. by vm_compute. Qed.

(** An answer cut off at the output limit may complete with an observation the
    model made up; a whole answer may not. *)
Theorem partial_completion_accepts_observations :
  let items := [ItemToolObservation "call-1" "{}"] in
  let outcome first := re_outcome <$> (play (KernelSample.ports first)
    (execute_agent (KernelSample.request []) ToolSample.definitions) []).2 in
  outcome (ModelTypes.Completed items KernelSample.usage EndTurn) = Some (AgentFailed FailInvalidModelOutput)
  /\ outcome (ModelTypes.Interrupted OutputLimit items KernelSample.usage)
     = Some (OutcomeCompleted items (mkUsageSummary (Known 3) (Known 4) false)).
Proof. by vm_compute. Qed.
