(* ===== verification/Delegation.v ===== *)
(** * Delegation ([engine/multiagent/src/values.rs], [budget.rs], [grant.rs], [intent.rs], [result.rs])

    One agent's bounded request to another: the intent and its digest, the
    authorization that reserves the whole budget from the parent's allowance, the
    settlement of the terminal child, and the release of what it did not use. *)

From S2P Require Import Prelude Json Text Order ToolSchema ToolPrepared Checks SchemaTheorems.

(** ** Values ([values.rs]) *)

Definition DELEGATION_MAX_ID_BYTES : Z := 128.

Inductive DelegationErrorCode :=
  | InvalidDelegation | ChildNotFound | ChildRevisionMismatch | AuthorityDenied | BudgetExhausted | BudgetOverflow
  | DepthExceeded | ConcurrencyExceeded | ResultSchemaMismatch | DelegationConflict | ChildStateCorrupt
  | DelegationDurabilityFailure | CorruptDelegationState.
#[export] Instance DelegationErrorCode_eq_dec : EqDecision DelegationErrorCode.
Proof. solve_decision. Defined.

Definition delegation_wire_name (self : DelegationErrorCode) : string :=
  match self with
  | InvalidDelegation => "invalid_delegation"
  | ChildNotFound => "child_not_found"
  | ChildRevisionMismatch => "child_revision_mismatch"
  | AuthorityDenied => "authority_denied"
  | BudgetExhausted => "budget_exhausted"
  | BudgetOverflow => "budget_overflow"
  | DepthExceeded => "depth_exceeded"
  | ConcurrencyExceeded => "concurrency_exceeded"
  | ResultSchemaMismatch => "result_schema_mismatch"
  | DelegationConflict => "delegation_conflict"
  | ChildStateCorrupt => "child_state_corrupt"
  | DelegationDurabilityFailure => "durability_failure"
  | CorruptDelegationState => "corrupt_delegation_state"
  end.

Definition delegation_valid_id (value : string) : bool := valid_text value DELEGATION_MAX_ID_BYTES.

Record FactReference := mkFactReference {
  ft_session_id : string;
  ft_position : Z;
  ft_fact_id : string;
  ft_payload_digest : string;
}.
#[export] Instance FactReference_eq_dec : EqDecision FactReference.
Proof. solve_decision. Defined.

Definition fact_reference_new (session_id : string) (position : Z) (fact_id payload_digest : string)
    : result DelegationErrorCode FactReference :=
  reject InvalidDelegation when
    negb (delegation_valid_id session_id) || (position =? 0) || negb (delegation_valid_id fact_id)
    || negb (valid_sha256 payload_digest);
  Ok (mkFactReference session_id position fact_id payload_digest).

Record DelegationBudget := mkBudget {
  db_max_child_turns : Z;
  db_max_child_executions : Z;
  db_max_iterations : Z;
  db_max_input_tokens : Z;
  db_max_output_tokens : Z;
  db_deadline_budget_ms : Z;
  db_max_depth : Z;
  db_max_objective_bytes : Z;
  db_max_input_evidence : Z;
  db_max_result_schema_bytes : Z;
  db_max_result_bytes : Z;
  db_max_result_evidence : Z;
}.
#[export] Instance DelegationBudget_eq_dec : EqDecision DelegationBudget.
Proof. solve_decision. Defined.

Definition budget_validate (self : DelegationBudget) : result DelegationErrorCode unit :=
  let values := [db_max_child_executions self; db_max_iterations self; db_max_input_tokens self;
                 db_max_output_tokens self; db_deadline_budget_ms self; db_max_depth self;
                 db_max_objective_bytes self; db_max_input_evidence self; db_max_result_schema_bytes self;
                 db_max_result_bytes self; db_max_result_evidence self] in
  reject InvalidDelegation when negb (db_max_child_turns self =? 1) || existsb (fun value => value =? 0) values;
  Ok tt.

(** ** Settlement ([budget.rs]) *)

Inductive TokenUsageEvidence := KnownUsage (value : Z) | UnknownUsage.
Record DelegationUsage := mkDelegationUsage {
  du_input_tokens : TokenUsageEvidence;
  du_output_tokens : TokenUsageEvidence;
}.
Record DelegationConsumption := mkConsumption {
  dc_child_turns : Z;
  dc_child_executions : Z;
  dc_completed_iterations : Z;
  dc_elapsed_ms : Z;
}.

Definition consumption_validate (self : DelegationConsumption) : result DelegationErrorCode unit :=
  if (dc_child_turns self =? 1) && negb (dc_child_executions self =? 0) then Ok tt else Err InvalidDelegation.

Record BudgetAmounts := mkAmounts {
  ba_child_turns : Z;
  ba_child_executions : Z;
  ba_iterations : Z;
  ba_input_tokens : Z;
  ba_output_tokens : Z;
  ba_elapsed_ms : Z;
}.
Record DelegationBudgetSettlement := mkSettlement {
  se_charged : BudgetAmounts;
  se_released : BudgetAmounts;
}.

Definition charged_tokens (evidence : TokenUsageEvidence) (reservation : Z) : result DelegationErrorCode Z :=
  match evidence with
  | KnownUsage value => if value <=? reservation then Ok value else Err BudgetExhausted
  | UnknownUsage => Ok reservation
  end.

(** The six consumable dimensions of a reservation. *)
Definition reserved_amounts (reservation : DelegationBudget) : BudgetAmounts :=
  mkAmounts (db_max_child_turns reservation) (db_max_child_executions reservation) (db_max_iterations reservation)
    (db_max_input_tokens reservation) (db_max_output_tokens reservation) (db_deadline_budget_ms reservation).

Definition exceeds (charged reserved : BudgetAmounts) : bool :=
  (ba_child_turns reserved <? ba_child_turns charged)
  || (ba_child_executions reserved <? ba_child_executions charged)
  || (ba_iterations reserved <? ba_iterations charged)
  || (ba_input_tokens reserved <? ba_input_tokens charged)
  || (ba_output_tokens reserved <? ba_output_tokens charged)
  || (ba_elapsed_ms reserved <? ba_elapsed_ms charged).

Definition settle_delegation_budget (reservation : DelegationBudget) (consumption : DelegationConsumption)
    (usage : DelegationUsage) : result DelegationErrorCode DelegationBudgetSettlement :=
  budget_validate reservation ?;
  consumption_validate consumption ?;
  let? input_tokens := charged_tokens (du_input_tokens usage) (db_max_input_tokens reservation) in
  let? output_tokens := charged_tokens (du_output_tokens usage) (db_max_output_tokens reservation) in
  let charged := mkAmounts (dc_child_turns consumption) (dc_child_executions consumption)
    (dc_completed_iterations consumption) input_tokens output_tokens (dc_elapsed_ms consumption) in
  let reserved := reserved_amounts reservation in
  reject BudgetExhausted when exceeds charged reserved;
  Ok (mkSettlement charged
        (mkAmounts (ba_child_turns reserved - ba_child_turns charged)
           (ba_child_executions reserved - ba_child_executions charged)
           (ba_iterations reserved - ba_iterations charged)
           (ba_input_tokens reserved - ba_input_tokens charged)
           (ba_output_tokens reserved - ba_output_tokens charged)
           (ba_elapsed_ms reserved - ba_elapsed_ms charged))).

(** ** Intents ([intent.rs]) *)

Inductive ChildRequirement :=
  | ExistingChild (child_agent_instance_id : string)
  | DefinitionChild (definition_id definition_revision : string).

Definition child_existing (child_agent_instance_id : string) : result DelegationErrorCode ChildRequirement :=
  if delegation_valid_id child_agent_instance_id then Ok (ExistingChild child_agent_instance_id)
  else Err InvalidDelegation.
Definition child_definition (definition_id definition_revision : string) : result DelegationErrorCode ChildRequirement :=
  if delegation_valid_id definition_id && delegation_valid_id definition_revision
  then Ok (DefinitionChild definition_id definition_revision) else Err InvalidDelegation.

Inductive CancellationPolicy := Independent | CancelWithParent.

Record DelegationIntentBinding := mkIntentBinding {
  ib_digest : string;
  ib_inline_utf8 : string;
}.

Record DelegationIntent := mkDelegationIntent {
  di_delegation_id : string;
  di_parent_agent_instance_id : string;
  di_parent_turn_id : string;
  di_parent_execution_id : string;
  di_child_requirement : ChildRequirement;
  di_objective : ContentBinding;
  di_input_evidence : list FactReference;
  di_result_schema : ContentBinding;
  di_budget : DelegationBudget;
  di_cancellation_policy : CancellationPolicy;
  di_through_position : Z;
}.

Definition valid_evidence (values : list FactReference) (through_position : Z) : bool :=
  forallb (fun value => ft_position value <=? through_position) values && all_distinct values.

(** The serialised forms. *)
Definition fact_json (f : FactReference) : Value :=
  json_object [("session_id", Str (ft_session_id f)); ("position", json_nat (ft_position f));
               ("fact_id", Str (ft_fact_id f)); ("payload_digest", Str (ft_payload_digest f))].
Definition budget_json (b : DelegationBudget) : Value :=
  json_object
    [("max_child_turns", json_nat (db_max_child_turns b)); ("max_child_executions", json_nat (db_max_child_executions b));
     ("max_iterations", json_nat (db_max_iterations b)); ("max_input_tokens", json_nat (db_max_input_tokens b));
     ("max_output_tokens", json_nat (db_max_output_tokens b)); ("deadline_budget_ms", json_nat (db_deadline_budget_ms b));
     ("max_depth", json_nat (db_max_depth b)); ("max_objective_bytes", json_nat (db_max_objective_bytes b));
     ("max_input_evidence", json_nat (db_max_input_evidence b));
     ("max_result_schema_bytes", json_nat (db_max_result_schema_bytes b));
     ("max_result_bytes", json_nat (db_max_result_bytes b)); ("max_result_evidence", json_nat (db_max_result_evidence b))].
Definition child_requirement_json (c : ChildRequirement) : Value :=
  match c with
  | ExistingChild id => json_object [("kind", Str "existing"); ("child_agent_instance_id", Str id)]
  | DefinitionChild id revision =>
      json_object [("kind", Str "definition"); ("definition_id", Str id); ("definition_revision", Str revision)]
  end.
Definition cancellation_name (c : CancellationPolicy) : string :=
  match c with Independent => "independent" | CancelWithParent => "cancel_with_parent" end.

Definition delegation_intent_value (self : DelegationIntent) : Value :=
  json_object
    [("contract", Str "garive.delegation-intent"); ("version", json_nat 1);
     ("parent_agent_instance_id", Str (di_parent_agent_instance_id self));
     ("parent_turn_id", Str (di_parent_turn_id self)); ("parent_execution_id", Str (di_parent_execution_id self));
     ("child_requirement", child_requirement_json (di_child_requirement self));
     ("objective", content_json (di_objective self)); ("input_evidence", Arr (fact_json <$> di_input_evidence self));
     ("result_schema", content_json (di_result_schema self)); ("budget", budget_json (di_budget self));
     ("cancellation_policy", Str (cancellation_name (di_cancellation_policy self)));
     ("through_position", json_nat (di_through_position self))].

Section delegation.
Context `{Externals, Jcs}.

Definition valid_schema (binding : ContentBinding) (maximum : Z) : bool :=
  match ct_inline_utf8 binding with
  | None => false
  | Some inline =>
      if maximum <? str_len inline then false
      else match json_from_str inline with
           | None => false
           | Some value => is_some_and (fun canonical => (canonical =? inline)%string) (jcs value)
                           && is_ok (validate_value_definition value)
           end
  end.

Definition delegation_intent_new (delegation_id parent_agent_instance_id parent_turn_id parent_execution_id : string)
    (child_requirement : ChildRequirement) (objective : ContentBinding) (input_evidence : list FactReference)
    (result_schema : ContentBinding) (budget : DelegationBudget) (cancellation_policy : CancellationPolicy)
    (through_position : Z) : result DelegationErrorCode DelegationIntent :=
  budget_validate budget ?;
  reject InvalidDelegation when
    negb (delegation_valid_id delegation_id) || negb (delegation_valid_id parent_agent_instance_id)
    || negb (delegation_valid_id parent_turn_id) || negb (delegation_valid_id parent_execution_id)
    || is_some_and (fun text => db_max_objective_bytes budget <? str_len text) (ct_inline_utf8 objective)
    || (db_max_input_evidence budget <? Z.of_nat (length input_evidence))
    || negb (valid_evidence input_evidence through_position)
    || negb (valid_schema result_schema (db_max_result_schema_bytes budget));
  Ok (mkDelegationIntent delegation_id parent_agent_instance_id parent_turn_id parent_execution_id child_requirement
        objective input_evidence result_schema budget cancellation_policy through_position).

Definition delegation_intent_binding (self : DelegationIntent) : result DelegationErrorCode DelegationIntentBinding :=
  let? inline_utf8 := ok_or (jcs (delegation_intent_value self)) InvalidDelegation in
  Ok (mkIntentBinding (sha256_hex inline_utf8) inline_utf8).
Definition delegation_intent_digest (self : DelegationIntent) : result DelegationErrorCode string :=
  let? binding := delegation_intent_binding self in Ok (ib_digest binding).

(** ** Grants ([grant.rs]) *)

Record DelegationAllowance := mkAllowance {
  al_remaining_child_turns : Z;
  al_remaining_child_executions : Z;
  al_remaining_iterations : Z;
  al_remaining_input_tokens : Z;
  al_remaining_output_tokens : Z;
  al_remaining_elapsed_ms : Z;
  al_max_depth : Z;
  al_max_objective_bytes : Z;
  al_max_input_evidence : Z;
  al_max_result_schema_bytes : Z;
  al_max_result_bytes : Z;
  al_max_result_evidence : Z;
}.
Record DelegationGrant := mkDelegationGrant {
  dg_grant_id : string;
  dg_intent_digest : string;
  dg_reserved_budget : DelegationBudget;
  dg_authority_revision : string;
}.
Record DelegationAuthorization := mkAuthorization {
  da_grant : DelegationGrant;
  da_remaining : DelegationAllowance;
}.

Definition budget_subtract (available requested : Z) : result DelegationErrorCode Z :=
  ok_or (checked_sub available requested) BudgetExhausted.
Definition budget_add (a b : Z) : result DelegationErrorCode Z := ok_or (checked_add a b) BudgetOverflow.

Definition authorize_delegation (intent : DelegationIntent) (grant_id authority_revision : string)
    (current_depth active_parent_delegations : Z) (allowance : DelegationAllowance)
    : result DelegationErrorCode DelegationAuthorization :=
  reject InvalidDelegation when negb (delegation_valid_id grant_id) || negb (delegation_valid_id authority_revision);
  let requested := di_budget intent in
  reject DepthExceeded when (db_max_depth requested <=? current_depth) || (al_max_depth allowance <=? current_depth);
  reject ConcurrencyExceeded when negb (active_parent_delegations =? 0);
  reject BudgetExhausted when
    (al_max_objective_bytes allowance <? db_max_objective_bytes requested)
    || (al_max_input_evidence allowance <? db_max_input_evidence requested)
    || (al_max_result_schema_bytes allowance <? db_max_result_schema_bytes requested)
    || (al_max_result_bytes allowance <? db_max_result_bytes requested)
    || (al_max_result_evidence allowance <? db_max_result_evidence requested);
  let? turns := budget_subtract (al_remaining_child_turns allowance) (db_max_child_turns requested) in
  let? executions := budget_subtract (al_remaining_child_executions allowance) (db_max_child_executions requested) in
  let? iterations := budget_subtract (al_remaining_iterations allowance) (db_max_iterations requested) in
  let? input := budget_subtract (al_remaining_input_tokens allowance) (db_max_input_tokens requested) in
  let? output := budget_subtract (al_remaining_output_tokens allowance) (db_max_output_tokens requested) in
  let? elapsed := budget_subtract (al_remaining_elapsed_ms allowance) (db_deadline_budget_ms requested) in
  let remaining := mkAllowance turns executions iterations input output elapsed (al_max_depth allowance)
    (al_max_objective_bytes allowance) (al_max_input_evidence allowance) (al_max_result_schema_bytes allowance)
    (al_max_result_bytes allowance) (al_max_result_evidence allowance) in
  let? digest := delegation_intent_digest intent in
  Ok (mkAuthorization (mkDelegationGrant grant_id digest requested authority_revision) remaining).

Definition release_delegation_budget (remaining : DelegationAllowance) (settlement : DelegationBudgetSettlement)
    (ceiling : DelegationAllowance) : result DelegationErrorCode DelegationAllowance :=
  let released := se_released settlement in
  let? turns := budget_add (al_remaining_child_turns remaining) (ba_child_turns released) in
  let? executions := budget_add (al_remaining_child_executions remaining) (ba_child_executions released) in
  let? iterations := budget_add (al_remaining_iterations remaining) (ba_iterations released) in
  let? input := budget_add (al_remaining_input_tokens remaining) (ba_input_tokens released) in
  let? output := budget_add (al_remaining_output_tokens remaining) (ba_output_tokens released) in
  let? elapsed := budget_add (al_remaining_elapsed_ms remaining) (ba_elapsed_ms released) in
  reject CorruptDelegationState when
    (al_remaining_child_turns ceiling <? turns) || (al_remaining_child_executions ceiling <? executions)
    || (al_remaining_iterations ceiling <? iterations) || (al_remaining_input_tokens ceiling <? input)
    || (al_remaining_output_tokens ceiling <? output) || (al_remaining_elapsed_ms ceiling <? elapsed);
  Ok (mkAllowance turns executions iterations input output elapsed (al_max_depth remaining)
        (al_max_objective_bytes remaining) (al_max_input_evidence remaining) (al_max_result_schema_bytes remaining)
        (al_max_result_bytes remaining) (al_max_result_evidence remaining)).

(** ** Results ([result.rs]) *)

Inductive ChildTerminalReason :=
  | ChildIterationLimit | ChildTokenLimit | ChildDeadline | ChildCancelled | ChildResourceUnavailable
  | ChildInvalidInput | ChildInvalidModelOutput | ChildCapabilityUnavailable | ChildPortFailure
  | ChildInvariantViolation | ChildDurabilityFailure | ChildCorruptRecoveryState.

Definition reason_wire_name (self : ChildTerminalReason) : string :=
  match self with
  | ChildIterationLimit => "iteration_limit"
  | ChildTokenLimit => "token_limit"
  | ChildDeadline => "deadline"
  | ChildCancelled => "cancelled"
  | ChildResourceUnavailable => "resource_unavailable"
  | ChildInvalidInput => "invalid_input"
  | ChildInvalidModelOutput => "invalid_model_output"
  | ChildCapabilityUnavailable => "required_capability_unavailable"
  | ChildPortFailure => "port_failure"
  | ChildInvariantViolation => "invariant_violation"
  | ChildDurabilityFailure => "durability_failure"
  | ChildCorruptRecoveryState => "corrupt_recovery_state"
  end.

Inductive TerminalOutcomeKind := TerminalStopped | TerminalFailed.
Inductive DelegationOutcome :=
  | DelegationCompleted (content : ContentBinding) (evidence : list FactReference)
  | DelegationStopped (reason : ChildTerminalReason)
  | DelegationFailed (reason : ChildTerminalReason).

Record DelegationResultContext := mkResultContext {
  rx_result_id : string;
  rx_delegation_id : string;
  rx_grant_id : string;
  rx_child_agent_instance_id : string;
  rx_child_turn_id : string;
  rx_child_snapshot_digest : string;
  rx_usage : DelegationUsage;
  rx_consumption : DelegationConsumption;
}.
Record DelegationResult := mkDelegationResult {
  dr_context : DelegationResultContext;
  dr_outcome : DelegationOutcome;
  dr_settlement : DelegationBudgetSettlement;
}.

Definition validate_context (intent : DelegationIntent) (context : DelegationResultContext)
    : result DelegationErrorCode DelegationBudgetSettlement :=
  reject InvalidDelegation when
    negb (rx_delegation_id context =? di_delegation_id intent)%string
    || negb (delegation_valid_id (rx_result_id context)) || negb (delegation_valid_id (rx_grant_id context))
    || negb (delegation_valid_id (rx_child_agent_instance_id context))
    || negb (delegation_valid_id (rx_child_turn_id context))
    || negb (valid_sha256 (rx_child_snapshot_digest context));
  settle_delegation_budget (di_budget intent) (rx_consumption context) (rx_usage context).

Inductive DelegationStop := DelegationRefused (code : DelegationErrorCode) | DelegationHalted (halt : Halt).
Definition delegation_lift {A} (r : result DelegationErrorCode A) : result DelegationStop A :=
  match r with Ok a => Ok a | Err e => Err (DelegationRefused e) end.

(** The schema of a constructed intent is admitted, so that the validator never
    halts here ([Delegation.delegation_result_exact]). *)
Definition complete_delegation_result (intent : DelegationIntent) (context : DelegationResultContext)
    (content : ContentBinding) (resolved_content_utf8 : string) (evidence : list FactReference)
    : result DelegationStop DelegationResult :=
  let? settlement := delegation_lift (validate_context intent context) in
  reject (DelegationRefused InvalidDelegation) when
    negb (sha256_hex resolved_content_utf8 =? ct_digest content)%string
    || (db_max_result_bytes (di_budget intent) <? str_len resolved_content_utf8)
    || (db_max_result_evidence (di_budget intent) <? Z.of_nat (length evidence))
    || negb (all_distinct evidence);
  let? text := ok_or (ct_inline_utf8 (di_result_schema intent)) (DelegationRefused InvalidDelegation) in
  let? schema := ok_or (json_from_str text) (DelegationRefused InvalidDelegation) in
  let? value := ok_or (json_from_str resolved_content_utf8) (DelegationRefused ResultSchemaMismatch) in
  match validate_portable_value schema value with
  | Err _ => Err (DelegationRefused ResultSchemaMismatch)
  | Ok (Err halt) => Err (DelegationHalted halt)
  | Ok (Ok []) => Ok (mkDelegationResult context (DelegationCompleted content evidence) settlement)
  | Ok (Ok _) => Err (DelegationRefused ResultSchemaMismatch)
  end.

Definition terminal_delegation_result (intent : DelegationIntent) (context : DelegationResultContext)
    (kind : TerminalOutcomeKind) (reason : ChildTerminalReason) : result DelegationErrorCode DelegationResult :=
  let? settlement := validate_context intent context in
  let outcome := match kind with
                 | TerminalStopped => DelegationStopped reason
                 | TerminalFailed => DelegationFailed reason
                 end in
  Ok (mkDelegationResult context outcome settlement).

Definition evidence_json (e : TokenUsageEvidence) : Value :=
  match e with
  | KnownUsage value => json_object [("kind", Str "known"); ("value", json_nat value)]
  | UnknownUsage => json_object [("kind", Str "unknown")]
  end.
Definition outcome_json (o : DelegationOutcome) : Value :=
  match o with
  | DelegationCompleted content evidence =>
      json_object [("kind", Str "completed"); ("content", content_json content); ("evidence", Arr (fact_json <$> evidence))]
  | DelegationStopped reason => json_object [("kind", Str "stopped"); ("reason", Str (reason_wire_name reason))]
  | DelegationFailed reason => json_object [("kind", Str "failed"); ("reason", Str (reason_wire_name reason))]
  end.
Definition consumption_json (c : DelegationConsumption) : Value :=
  json_object [("child_turns", json_nat (dc_child_turns c)); ("child_executions", json_nat (dc_child_executions c));
               ("completed_iterations", json_nat (dc_completed_iterations c)); ("elapsed_ms", json_nat (dc_elapsed_ms c))].

Definition result_binding (self : DelegationResult) : result DelegationErrorCode ContentBinding :=
  let context := dr_context self in
  let? text := ok_or (jcs (json_object
    [("contract", Str "garive.delegation-result"); ("version", json_nat 1); ("result_id", Str (rx_result_id context));
     ("delegation_id", Str (rx_delegation_id context)); ("grant_id", Str (rx_grant_id context));
     ("child_agent_instance_id", Str (rx_child_agent_instance_id context));
     ("child_turn_id", Str (rx_child_turn_id context));
     ("child_snapshot_digest", Str (rx_child_snapshot_digest context)); ("outcome", outcome_json (dr_outcome self));
     ("usage", json_object [("input_tokens", evidence_json (du_input_tokens (rx_usage context)));
                            ("output_tokens", evidence_json (du_output_tokens (rx_usage context)))]);
     ("consumption", consumption_json (rx_consumption context))])) InvalidDelegation in
  Ok (content_from_inline text).
End delegation.

(** ** Delegation budgets and results

    The escrow of delegation budgets as a machine over the parent's allowance, with
    the conservation of every dimension, and what a completed result guarantees. *)

(** ** Amounts *)

Definition amounts_plus (a b : BudgetAmounts) : BudgetAmounts :=
  mkAmounts (ba_child_turns a + ba_child_turns b) (ba_child_executions a + ba_child_executions b)
    (ba_iterations a + ba_iterations b) (ba_input_tokens a + ba_input_tokens b)
    (ba_output_tokens a + ba_output_tokens b) (ba_elapsed_ms a + ba_elapsed_ms b).
Definition amounts_zero : BudgetAmounts := mkAmounts 0 0 0 0 0 0.

(** Every dimension of the first is at most that of the second. *)
Definition amounts_le (a b : BudgetAmounts) : Prop :=
  ba_child_turns a <= ba_child_turns b /\ ba_child_executions a <= ba_child_executions b
  /\ ba_iterations a <= ba_iterations b /\ ba_input_tokens a <= ba_input_tokens b
  /\ ba_output_tokens a <= ba_output_tokens b /\ ba_elapsed_ms a <= ba_elapsed_ms b.

Definition remaining_of (a : DelegationAllowance) : BudgetAmounts :=
  mkAmounts (al_remaining_child_turns a) (al_remaining_child_executions a) (al_remaining_iterations a)
    (al_remaining_input_tokens a) (al_remaining_output_tokens a) (al_remaining_elapsed_ms a).
(** The caps that no reservation changes. *)
Definition caps_of (a : DelegationAllowance) : list Z :=
  [al_max_depth a; al_max_objective_bytes a; al_max_input_evidence a; al_max_result_schema_bytes a;
   al_max_result_bytes a; al_max_result_evidence a].

Definition amounts_u64 (a : BudgetAmounts) : Prop :=
  amounts_le amounts_zero a
  /\ amounts_le a (mkAmounts u64_max u64_max u64_max u64_max u64_max u64_max).

(** What a child reported, as amounts: unknown tokens cost the reservation. *)
Definition spent (reservation : DelegationBudget) (c : DelegationConsumption) (u : DelegationUsage) : BudgetAmounts :=
  let tokens e reserved := match e with KnownUsage value => value | UnknownUsage => reserved end in
  mkAmounts (dc_child_turns c) (dc_child_executions c) (dc_completed_iterations c)
    (tokens (du_input_tokens u) (db_max_input_tokens reservation))
    (tokens (du_output_tokens u) (db_max_output_tokens reservation)) (dc_elapsed_ms c).

Lemma charged_tokens_ok e reserved n :
  charged_tokens e reserved = Ok n <->
  n = match e with KnownUsage value => value | UnknownUsage => reserved end /\ n <= reserved.
Proof.
  destruct e as [value|]; cbn; [|split; [intros [= ->]; lia|intros [-> _]; done]].
  destruct (value <=? reserved) eqn:Hle; split; [intros [= ->]; lia|by intros [-> _]|done|intros [-> ?]; lia].
Qed.

Lemma exceeds_false a b : exceeds a b = false <-> amounts_le a b.
Proof. unfold exceeds, amounts_le. lia. Qed.

Lemma settle_ok reservation c u s :
  settle_delegation_budget reservation c u = Ok s <->
  budget_validate reservation = Ok tt /\ consumption_validate c = Ok tt
  /\ amounts_le (spent reservation c u) (reserved_amounts reservation)
  /\ se_charged s = spent reservation c u
  /\ amounts_plus (se_released s) (spent reservation c u) = reserved_amounts reservation.
Proof.
  unfold settle_delegation_budget. destruct (budget_validate reservation) as [[]|]; [|naive_solver].
  destruct (consumption_validate c) as [[]|]; [|naive_solver].
  destruct (charged_tokens (du_input_tokens u) _) as [input|e] eqn:Hi; cycle 1.
  { split; [done|]. intros (_ & _ & Hle & _). destruct Hle as (_ & _ & _ & Hle & _). cbn in Hle.
    destruct (du_input_tokens u); cbn in Hi; [|done]. destruct (_ <=? _) eqn:Hle2; [done|lia]. }
  destruct (charged_tokens (du_output_tokens u) _) as [output|e] eqn:Ho; cycle 1.
  { split; [done|]. intros (_ & _ & Hle & _). destruct Hle as (_ & _ & _ & _ & Hle & _). cbn in Hle.
    destruct (du_output_tokens u); cbn in Ho; [|done]. destruct (_ <=? _) eqn:Hle2; [done|lia]. }
  apply charged_tokens_ok in Hi as [-> _], Ho as [-> _]. fold (spent reservation c u).
  destruct (exceeds _ _) eqn:Hex.
  { split; [done|]. intros (_ & _ & Hle%exceeds_false & _). congruence. }
  apply exceeds_false in Hex. split.
  - intros [= <-]. do 2 (split; [done|]). split; [done|]. split; [done|]. unfold amounts_plus, reserved_amounts. cbn. f_equal; lia.
  - intros (_ & _ & _ & Hc & Hr). destruct s as [charged released]. cbn in Hc, Hr. subst charged. do 2 f_equal.
    rewrite <- Hr. destruct released. unfold amounts_plus. cbn. f_equal; lia.
Qed.

Lemma budget_subtract_ok a b n : budget_subtract a b = Ok n <-> n = a - b /\ is_u64 (a - b).
Proof. unfold budget_subtract, checked_sub. rewrite ok_or_ok, checked_u64_some. naive_solver. Qed.
Lemma budget_add_ok a b n : budget_add a b = Ok n <-> n = a + b /\ is_u64 (a + b).
Proof. unfold budget_add, checked_add. rewrite ok_or_ok, checked_u64_some. naive_solver. Qed.

(** ** The escrow *)

(** The parent's allowance, the reservation in force with the allowance it was taken
    from, and what the terminal children cost so far. *)
Record Escrow := mkEscrow {
  es_allowance : DelegationAllowance;
  es_open : option (DelegationGrant * DelegationAllowance);
  es_charged : BudgetAmounts;
}.

Section escrow.
Context `{Externals, Jcs}.

(** One delegation at a time: reserve by authorization, settle and release. *)
Inductive escrow_step : Escrow -> Escrow -> Prop :=
  | EscrowReserve allowance charged intent grant_id revision depth auth :
      amounts_u64 (reserved_amounts (di_budget intent)) ->
      authorize_delegation intent grant_id revision depth 0 allowance = Ok auth ->
      escrow_step (mkEscrow allowance None charged)
        (mkEscrow (da_remaining auth) (Some (da_grant auth, allowance)) charged)
  | EscrowRelease allowance grant ceiling charged consumption usage settlement allowance' :
      amounts_le amounts_zero (spent (dg_reserved_budget grant) consumption usage) ->
      settle_delegation_budget (dg_reserved_budget grant) consumption usage = Ok settlement ->
      release_delegation_budget allowance settlement ceiling = Ok allowance' ->
      escrow_step (mkEscrow allowance (Some (grant, ceiling)) charged)
        (mkEscrow allowance' None (amounts_plus charged (se_charged settlement))).

Definition open_amounts (e : Escrow) : BudgetAmounts :=
  match es_open e with Some (grant, _) => reserved_amounts (dg_reserved_budget grant) | None => amounts_zero end.

Record conserved (initial : DelegationAllowance) (e : Escrow) : Prop := {
  cv_sum : amounts_plus (amounts_plus (remaining_of (es_allowance e)) (open_amounts e)) (es_charged e)
           = remaining_of initial;
  cv_caps : caps_of (es_allowance e) = caps_of initial;
  cv_remaining : amounts_le amounts_zero (remaining_of (es_allowance e));
  cv_reserved : amounts_le amounts_zero (open_amounts e);
  cv_charged : amounts_le amounts_zero (es_charged e);
  cv_ceiling : forall grant ceiling, es_open e = Some (grant, ceiling) ->
    remaining_of ceiling = amounts_plus (remaining_of (es_allowance e)) (open_amounts e);
}.

Lemma authorize_ok intent grant_id revision depth active allowance auth :
  authorize_delegation intent grant_id revision depth active allowance = Ok auth ->
  active = 0 /\ depth < al_max_depth allowance /\ depth < db_max_depth (di_budget intent)
  /\ dg_reserved_budget (da_grant auth) = di_budget intent
  /\ caps_of (da_remaining auth) = caps_of allowance
  /\ amounts_plus (remaining_of (da_remaining auth)) (reserved_amounts (di_budget intent)) = remaining_of allowance
  /\ amounts_le amounts_zero (remaining_of (da_remaining auth)).
Proof.
  unfold authorize_delegation. intros Ha. inv_ok Ha. intros; simplify_eq.
  repeat match goal with H : budget_subtract _ _ = Ok _ |- _ => apply budget_subtract_ok in H as [-> ?] end.
  unfold is_u64 in *. cbn. split; [lia|]. split; [lia|]. split; [lia|]. do 2 (split; [done|]). split.
  - unfold amounts_plus, remaining_of. cbn. f_equal; lia.
  - unfold amounts_le. cbn. lia.
Qed.

(** An allowance can always take back what a settled child did not use. *)
Lemma release_ok remaining settlement ceiling :
  amounts_le amounts_zero (amounts_plus (remaining_of remaining) (se_released settlement)) ->
  amounts_le (amounts_plus (remaining_of remaining) (se_released settlement)) (remaining_of ceiling) ->
  amounts_u64 (remaining_of ceiling) ->
  exists allowance, release_delegation_budget remaining settlement ceiling = Ok allowance.
Proof.
  unfold amounts_u64, amounts_le, release_delegation_budget. cbn. intros Hlo Hhi Hu.
  assert (forall a b c, 0 <= a + b -> a + b <= c -> 0 <= c <= u64_max -> budget_add a b = Ok (a + b)) as Hadd.
  { intros a b c Hl Hh Hc. apply budget_add_ok. split; [done|]. unfold is_u64. lia. }
  destruct settlement as [charged released]. cbn in *. unfold u64_max in *.
  rewrite (Hadd (al_remaining_child_turns remaining) (ba_child_turns released) (al_remaining_child_turns ceiling)),
    (Hadd (al_remaining_child_executions remaining) (ba_child_executions released) (al_remaining_child_executions ceiling)),
    (Hadd (al_remaining_iterations remaining) (ba_iterations released) (al_remaining_iterations ceiling)),
    (Hadd (al_remaining_input_tokens remaining) (ba_input_tokens released) (al_remaining_input_tokens ceiling)),
    (Hadd (al_remaining_output_tokens remaining) (ba_output_tokens released) (al_remaining_output_tokens ceiling)),
    (Hadd (al_remaining_elapsed_ms remaining) (ba_elapsed_ms released) (al_remaining_elapsed_ms ceiling)) by lia.
  destruct (_ || _) eqn:Hbad; [exfalso; lia|by eexists].
Qed.

Lemma release_inv remaining settlement ceiling allowance :
  release_delegation_budget remaining settlement ceiling = Ok allowance ->
  remaining_of allowance = amounts_plus (remaining_of remaining) (se_released settlement)
  /\ caps_of allowance = caps_of remaining /\ amounts_le (remaining_of allowance) (remaining_of ceiling)
  /\ amounts_le amounts_zero (remaining_of allowance).
Proof.
  unfold release_delegation_budget. intros Hr. inv_ok Hr. intros; simplify_eq.
  repeat match goal with H : budget_add _ _ = Ok _ |- _ => apply budget_add_ok in H as [-> ?] end.
  unfold is_u64, amounts_le in *. cbn. repeat split; lia.
Qed.

Lemma escrow_step_conserves initial e e' : conserved initial e -> escrow_step e e' -> conserved initial e'.
Proof.
  intros [Hsum Hcaps Hrem Hres Hch Hceil] Hstep.
  destruct Hstep as [allowance charged intent grant_id revision depth auth Hu Ha
                    |allowance grant ceiling charged consumption usage settlement allowance' Hc Hs Hr]; cbn in *.
  - apply authorize_ok in Ha as (_ & _ & _ & Hg & Hcaps' & Hplus & Hle). destruct Hu as [Hu _].
    unfold open_amounts in *. cbn in *. rewrite <- Hplus in Hsum.
    split; unfold open_amounts; cbn; rewrite ?Hg; try done; try congruence.
    rewrite <- Hsum. unfold amounts_plus, amounts_zero. cbn. f_equal; lia.
  - apply settle_ok in Hs as (_ & _ & Hle & Hcharged & Hplus). apply release_inv in Hr as (Hrem' & Hcaps' & _ & Hnn).
    unfold open_amounts in *. cbn in *.
    split; unfold open_amounts; cbn; try done; try congruence.
    + rewrite <- Hsum, Hrem', <- Hplus, Hcharged. unfold amounts_plus, amounts_zero. cbn. f_equal; lia.
    + rewrite Hcharged. unfold amounts_le, amounts_plus in *. cbn in *. lia.
Qed.

Definition escrow_initial (allowance : DelegationAllowance) : Escrow := mkEscrow allowance None amounts_zero.

(** C12: Over any sequence of authorised and settled delegations what remains of an allowance,
    what is reserved by the open delegation and what has been charged add up to the initial
    allowance, no part is negative, the caps stay as they were, and the settlement of the open
    delegation can always be released. *)
Theorem delegation_budget_conserved initial e :
  amounts_u64 (remaining_of initial) -> rtc escrow_step (escrow_initial initial) e ->
  amounts_plus (amounts_plus (remaining_of (es_allowance e)) (open_amounts e)) (es_charged e) = remaining_of initial
  /\ amounts_le amounts_zero (remaining_of (es_allowance e)) /\ amounts_le (es_charged e) (remaining_of initial)
  /\ caps_of (es_allowance e) = caps_of initial
  /\ (forall grant ceiling consumption usage settlement, es_open e = Some (grant, ceiling) ->
       amounts_le amounts_zero (spent (dg_reserved_budget grant) consumption usage) ->
       settle_delegation_budget (dg_reserved_budget grant) consumption usage = Ok settlement ->
       exists allowance, release_delegation_budget (es_allowance e) settlement ceiling = Ok allowance).
Proof.
  intros Hu Hrtc. assert (conserved initial e) as [Hsum Hcaps Hrem Hres Hch Hceil].
  { refine (rtc_ind_r (conserved initial) _ _ _ e Hrtc).
    - split; unfold open_amounts; cbn; try done; [|by destruct Hu].
      unfold amounts_plus, amounts_zero, remaining_of. cbn. f_equal; lia.
    - intros e1 e2 _ Hstep Hc. by eapply escrow_step_conserves. }
  split; [done|]. split; [done|]. split.
  { rewrite <- Hsum. unfold amounts_le, amounts_plus in *. cbn in *. lia. }
  split; [done|]. intros grant ceiling consumption usage settlement Hopen Hnn Hs.
  apply settle_ok in Hs as (_ & _ & Hle & _ & Hplus). specialize (Hceil _ _ Hopen).
  unfold open_amounts in *. rewrite Hopen in *. apply release_ok.
  - rewrite <- Hplus in Hle. unfold amounts_le, amounts_plus in *. cbn in *. lia.
  - rewrite Hceil, <- Hplus. unfold amounts_le, amounts_plus in *. cbn in *. lia.
  - rewrite Hceil. unfold amounts_u64 in *. rewrite <- Hsum in Hu. unfold amounts_le, amounts_plus in *. cbn in *. lia.
Qed.

(** ** Results *)

(** An intent that its constructor returned. *)
Definition constructed (intent : DelegationIntent) : Prop :=
  delegation_intent_new (di_delegation_id intent) (di_parent_agent_instance_id intent) (di_parent_turn_id intent)
    (di_parent_execution_id intent) (di_child_requirement intent) (di_objective intent) (di_input_evidence intent)
    (di_result_schema intent) (di_budget intent) (di_cancellation_policy intent) (di_through_position intent)
  = Ok intent.

Lemma constructed_schema intent :
  constructed intent -> exists text schema, ct_inline_utf8 (di_result_schema intent) = Some text
    /\ json_from_str text = Some schema /\ validate_value_definition schema = Ok tt.
Proof.
  unfold constructed, delegation_intent_new. intros Hc. inv_ok Hc. clear Hc.
  assert (valid_schema (di_result_schema intent) (db_max_result_schema_bytes (di_budget intent)) = true) as Hs.
  { match goal with E : _ || negb (valid_schema _ _) = false |- _ =>
      apply orb_false_iff in E as [_ E]; by apply negb_false_iff in E end. }
  unfold valid_schema in Hs. destruct (ct_inline_utf8 (di_result_schema intent)) as [text|]; [|done].
  destruct (_ <? str_len text) in Hs; [done|].
  destruct (json_from_str text) as [schema|] eqn:Hread; [|done]. apply andb_true_iff in Hs as [_ Hs].
  exists text, schema. do 2 (split; [done|]). by destruct (validate_value_definition schema) as [[]|].
Qed.

(** For a constructed intent a delegation completes exactly when the context settles, the
    text has the bound digest and size, the evidence is bounded and distinct, and the value
    satisfies the result schema; the validation never stops short. *)
Theorem delegation_result_exact intent context content text evidence :
  constructed intent ->
  (forall r, complete_delegation_result intent context content text evidence = Ok r <->
     exists settlement schema_text schema value,
       validate_context intent context = Ok settlement
       /\ sha256_hex text = ct_digest content /\ str_len text <= db_max_result_bytes (di_budget intent)
       /\ Z.of_nat (length evidence) <= db_max_result_evidence (di_budget intent) /\ NoDup evidence
       /\ ct_inline_utf8 (di_result_schema intent) = Some schema_text /\ json_from_str schema_text = Some schema
       /\ json_from_str text = Some value /\ satisfies schema value
       /\ r = mkDelegationResult context (DelegationCompleted content evidence) settlement)
  /\ (forall halt, complete_delegation_result intent context content text evidence <> Err (DelegationHalted halt)).
Proof.
  intros Hc. apply constructed_schema in Hc as (schema_text & schema & Htext & Hread & Hdef).
  unfold complete_delegation_result, delegation_lift.
  destruct (validate_context intent context) as [settlement|e]; [|split; [naive_solver|done]].
  destruct (_ || _) eqn:Hchecks.
  { split; [|done]. intros r. split; [done|]. intros (? & ? & ? & ? & _ & Hd & Hb & He & Hn & _). exfalso.
    rewrite Hd, String.eqb_refl in Hchecks. unfold all_distinct in Hchecks. rewrite bool_decide_eq_true_2 in Hchecks by done.
    cbn in Hchecks. lia. }
  assert (sha256_hex text = ct_digest content /\ str_len text <= db_max_result_bytes (di_budget intent)
    /\ Z.of_nat (length evidence) <= db_max_result_evidence (di_budget intent) /\ NoDup evidence) as (Hd & Hb & He & Hn).
  { unfold all_distinct in Hchecks. rewrite !orb_false_iff, !negb_false_iff in Hchecks.
    destruct Hchecks as [[[Hd Hb] He] Hn]. apply String.eqb_eq in Hd. apply bool_decide_eq_true in Hn. repeat split; try done; lia. }
  rewrite Htext. cbn [ok_or]. rewrite Hread. cbn [ok_or].
  destruct (json_from_str text) as [value|] eqn:Hvalue; cbn [ok_or]; [|split; [naive_solver|done]].
  unfold validate_portable_value. rewrite Hdef. destruct (validate_arguments_ok schema value Hdef) as (fs & -> & Hfs).
  destruct fs as [|f fs].
  - split; [|done]. intros r. split; [intros [= <-]|naive_solver].
    exists settlement, schema_text, schema, value. repeat split; try done. by apply Hfs.
  - split; [|done]. intros r. split; [done|].
    intros (? & ? & ? & ? & _ & _ & _ & _ & _ & Ht & Hr & Hv & Hsat & _). simplify_eq. apply Hfs in Hsat. done.
Qed.
End escrow.

(** ** Samples *)

Module DelegationSample.
Definition schema_text : string := "S".
Definition digest : string := "e3b0c44298fc1c149afbf4c8996fb92427ae41e4649b934ca495991b7852b855".
#[export] Instance externals : Externals :=
  {| sha256_hex := fun _ => digest;
     json_from_str := fun s => if (s =? schema_text)%string then Some (Obj [("type", Str "string")])
                               else if (s =? "V")%string then Some (Str "done") else None;
     parse_rfc3339 := fun _ => None; to_rfc3339 := fun _ => "" |}.
#[export] Instance canonical_json : Jcs := fun _ => Some schema_text.

Definition budget : DelegationBudget := mkBudget 1 2 10 1000 500 60000 3 100 4 100 100 4.
Definition allowance : DelegationAllowance := mkAllowance 2 4 30 3000 2000 100000 3 1000 8 1000 1000 8.
Definition intent : DelegationIntent :=
  mkDelegationIntent "d1" "a1" "t1" "e1" (ExistingChild "a2") (content_from_inline "do it") []
    (mkContent digest (Some schema_text) None) budget CancelWithParent 7.
Definition consumption : DelegationConsumption := mkConsumption 1 1 4 20000.
Definition usage : DelegationUsage := mkDelegationUsage (KnownUsage 400) UnknownUsage.
Definition context : DelegationResultContext := mkResultContext "r1" "d1" "g1" "a2" "t2" digest usage consumption.
(** After one delegation: two fifths of the input, and all the output it asked for. *)
Definition settled : DelegationAllowance := mkAllowance 1 3 26 2600 1500 80000 3 1000 8 1000 1000 8.
End DelegationSample.
#[local] Existing Instances DelegationSample.externals DelegationSample.canonical_json.

Lemma delegation_budget_conserved_witness :
  exists e, rtc escrow_step (escrow_initial DelegationSample.allowance) e
    /\ es_allowance e = DelegationSample.settled /\ es_charged e = mkAmounts 1 1 4 400 500 20000
    /\ amounts_le (es_charged e) (remaining_of DelegationSample.allowance).
Proof.
  eexists. match goal with |- ?P /\ _ => assert P as Hrtc end.
  { eapply rtc_l; [eapply (EscrowReserve _ _ DelegationSample.intent "g1" "rev" 0)|].
    - unfold amounts_u64, amounts_le. cbn. unfold u64_max. lia.
    - vm_compute. reflexivity.
    - eapply rtc_l; [|apply rtc_refl].
      eapply (EscrowRelease _ _ _ _ DelegationSample.consumption DelegationSample.usage); [|vm_compute; reflexivity..].
      unfold amounts_le. cbn. lia. }
  split; [exact Hrtc|]. do 2 (split; [done|]).
  apply (delegation_budget_conserved DelegationSample.allowance); [|exact Hrtc].
  unfold amounts_u64, amounts_le. cbn. unfold u64_max. lia.
Defined.

Lemma delegation_result_exact_witness : exists r,
  complete_delegation_result DelegationSample.intent DelegationSample.context (content_from_inline "V") "V" [] = Ok r
  /\ ba_output_tokens (se_charged (dr_settlement r)) = 500.
Proof.
  destruct (delegation_result_exact DelegationSample.intent DelegationSample.context (content_from_inline "V") "V" [])
    as [Hexact _]; [by vm_compute|].
  destruct (complete_delegation_result DelegationSample.intent DelegationSample.context (content_from_inline "V") "V" [])
    as [r|] eqn:Hr; [|by vm_compute in Hr].
  destruct (proj1 (Hexact r) eq_refl) as (settlement & _ & _ & _ & Hs & _ & _ & _ & _ & _ & _ & _ & _ & ->).
  eexists. split; [done|]. vm_compute in Hs. by injection Hs as <-.
Defined.
