(* ===== verification/Collaboration.v ===== *)
(** * Session collaboration ([engine/multiagent/src/collaboration.rs], [tools.rs])

    The roster of named peers, the selector of an assignee, and the four
    collaboration tools with their access lanes. *)

From S2P Require Import Prelude Json Text Order ToolSchema ToolAccess ToolPrepared ToolTheorems BuiltinTools.
From S2P Require Import Checks Delegation.

(** ** The roster *)

Definition MAX_NAMED_SESSION_AGENTS : Z := 10.
Definition MAX_DISPLAY_NAME_BYTES : Z := 64.

Record NamedAgent := mkNamedAgent {
  na_agent_instance_id : string;
  na_display_name : string;
}.
Definition named_agent_new (agent_instance_id display_name : string) : result DelegationErrorCode NamedAgent :=
  if valid_text agent_instance_id 128 && valid_text display_name MAX_DISPLAY_NAME_BYTES
  then Ok (mkNamedAgent agent_instance_id display_name) else Err InvalidDelegation.

Record SessionRoster := mkRoster { sr_members : list NamedAgent }.

(** The scan with its two sets: [Err] on the first repeated identity or name. *)
Definition admit_member (seen : gset string * gset string) (member : NamedAgent)
    : result DelegationErrorCode (gset string * gset string) :=
  let '(identities, names) := seen in
  reject InvalidDelegation when bool_decide (na_agent_instance_id member ∈ identities);
  reject InvalidDelegation when bool_decide (na_display_name member ∈ names);
  Ok ({[na_agent_instance_id member]} ∪ identities, {[na_display_name member]} ∪ names).

Definition session_roster_new (members : list NamedAgent) : result DelegationErrorCode SessionRoster :=
  reject InvalidDelegation when MAX_NAMED_SESSION_AGENTS <? Z.of_nat (length members);
  let? _ := try_fold admit_member (∅, ∅) members in
  Ok (mkRoster members).

Definition roster_contains (self : SessionRoster) (agent_instance_id : string) : bool :=
  existsb (fun member => (na_agent_instance_id member =? agent_instance_id)%string) (sr_members self).

Inductive AssigneeSelector :=
  | Anonymous (definition_id definition_revision : string)
  | ForkSelf (source_agent_instance_id : string) (through_position : Z) (branch_name : option string)
  | NamedPeer (agent_instance_id : string).

Definition assignee_anonymous (definition_id definition_revision : string) : result DelegationErrorCode AssigneeSelector :=
  if valid_text definition_id 128 && valid_text definition_revision 128
  then Ok (Anonymous definition_id definition_revision) else Err InvalidDelegation.
Definition assignee_fork_self (source_agent_instance_id : string) (through_position : Z) (branch_name : option string)
    : result DelegationErrorCode AssigneeSelector :=
  reject InvalidDelegation when
    negb (valid_text source_agent_instance_id 128) || (through_position =? 0)
    || is_some_and (fun name => negb (valid_text name MAX_DISPLAY_NAME_BYTES)) branch_name;
  Ok (ForkSelf source_agent_instance_id through_position branch_name).
Definition assignee_named (agent_instance_id : string) (roster : SessionRoster) : result DelegationErrorCode AssigneeSelector :=
  if roster_contains roster agent_instance_id then Ok (NamedPeer agent_instance_id) else Err InvalidDelegation.

Inductive DeliveryPolicy := Notify | AwaitBeforeFinal | SuspendExecution.

(** ** The tools *)

Definition MESSAGE_AGENT_TOOL : string := "garive.collaboration.message_agent".
Definition DELEGATE_TOOL : string := "garive.collaboration.delegate".
Definition FORK_SELF_TOOL : string := "garive.collaboration.fork_self".
Definition COLLECT_DELEGATIONS_TOOL : string := "garive.collaboration.collect_delegations".
Definition COLLABORATION_TOOL_REVISION : string := "1".
Definition COLLABORATION_ACCESS_RESOLVER_REVISION : string := "garive.collaboration.access.v1".
Definition MESSAGE_LANE : string := "session_messages".
Definition DELEGATION_LANE : string := "session_delegations".
Definition MAX_TEXT_BYTES : Z := 65536.
Definition MAX_RESULTS : Z := 64.
Definition COLLABORATION_MAX_RESULT_BYTES : Z := 262144.

Definition message_agent_schema : Value :=
  json_object
    [("type", Str "object");
     ("properties", json_object [("recipient", text_schema 1 64); ("text", text_schema 1 MAX_TEXT_BYTES)]);
     ("required", json_strings ["text"]); ("additionalProperties", Bool false)].

Definition assignee_schema (kind field : string) (max_bytes : Z) : Value :=
  json_object
    [("type", Str "object");
     ("properties", json_object [("kind", json_object [("const", Str kind)]); (field, text_schema 1 max_bytes)]);
     ("required", json_strings ["kind"; field]); ("additionalProperties", Bool false)].
Definition delegate_schema : Value :=
  json_object
    [("type", Str "object");
     ("properties", json_object
      [("assignee", json_object [("oneOf", Arr [assignee_schema "named" "agent_name" 64;
                                                assignee_schema "anonymous" "definition_id" 128])]);
       ("objective", text_schema 1 MAX_TEXT_BYTES)]);
     ("required", json_strings ["assignee"; "objective"]); ("additionalProperties", Bool false)].

Definition fork_self_schema : Value :=
  json_object
    [("type", Str "object"); ("properties", json_object [("objective", text_schema 1 MAX_TEXT_BYTES)]);
     ("required", json_strings ["objective"]); ("additionalProperties", Bool false)].

Definition collect_schema : Value :=
  json_object
    [("type", Str "object"); ("properties", json_object [("max_results", integer_schema 1 MAX_RESULTS)]);
     ("required", json_strings ["max_results"]); ("additionalProperties", Bool false)].

Definition collaboration_definition (name description : string) (schema : Value) (replay : ReplayClass)
    (lane : string) (mode : AccessMode) (policy_revision : string) : result PreparationError ToolDefinition :=
  let? requirements := requirements_new [] 5000 COLLABORATION_MAX_RESULT_BYTES in
  let? entry := access_policy_entry_new lane [mode] in
  let? access := access_policy_new policy_revision [] [] [] [entry] 1 COLLABORATION_MAX_RESULT_BYTES in
  let? sandbox := sandbox_new [] [ResourceLimits] None 1 in
  definition_new_v3 name COLLABORATION_TOOL_REVISION description schema requirements replay access
    COLLABORATION_ACCESS_RESOLVER_REVISION sandbox.

Definition collaboration_catalogue_new (policy_revision : string) : result PreparationError BuiltinCatalogue :=
  let? d1 := collaboration_definition MESSAGE_AGENT_TOOL
    "Send a message to one named Session peer, or omit recipient to broadcast." message_agent_schema Idempotent
    MESSAGE_LANE Write policy_revision in
  let? d2 := collaboration_definition DELEGATE_TOOL
    "Delegate one Notify task to a named peer or an anonymous Agent." delegate_schema Idempotent
    DELEGATION_LANE Write policy_revision in
  let? d3 := collaboration_definition FORK_SELF_TOOL "Fork this Agent for one independent Notify task."
    fork_self_schema Idempotent DELEGATION_LANE Write policy_revision in
  let? d4 := collaboration_definition COLLECT_DELEGATIONS_TOOL
    "Read bounded delegation states and delivered results for this Agent." collect_schema ReadOnly
    DELEGATION_LANE Read policy_revision in
  freeze_catalogue [d1; d2; d3; d4].

Definition collaboration_resolve (tool_name : string) (_ : Value) : result PreparationError InvocationAccessSet :=
  let one lane mode := let? access := resource_access_new Runtime lane mode in access_set_new [access] in
  if (tool_name =? MESSAGE_AGENT_TOOL)%string then one MESSAGE_LANE Write
  else if (tool_name =? DELEGATE_TOOL)%string || (tool_name =? FORK_SELF_TOOL)%string then one DELEGATION_LANE Write
  else if (tool_name =? COLLECT_DELEGATIONS_TOOL)%string then one DELEGATION_LANE Read
  else access_set_new [].
Definition CollaborationAccessResolver (tool_name : string) : ToolAccessResolver :=
  mkResolver COLLABORATION_ACCESS_RESOLVER_REVISION (collaboration_resolve tool_name).

Definition collaboration_prepare `{Externals, ArgumentReader, Jcs} (self : BuiltinCatalogue) (intent : ToolIntent)
    : result PrepareStop PreparedToolCall :=
  prepare_v3 (bc_catalog self) intent (CollaborationAccessResolver (ti_tool_name intent)).

(** ** Theorems *)

Lemma admit_members_ok members : forall identities names,
  is_ok (try_fold admit_member (identities, names) members) = true <->
  NoDup (na_agent_instance_id <$> members) /\ NoDup (na_display_name <$> members)
  /\ (forall m, m ∈ members -> na_agent_instance_id m ∉ identities /\ na_display_name m ∉ names).
Proof.
  induction members as [|m members IH]; intros identities names.
  { cbn. split; [|done]. intros _. do 2 (split; [constructor|]). by intros m Hm%elem_of_nil. }
  cbn [try_fold]. unfold admit_member at 1. rewrite !fmap_cons, !list.NoDup_cons.
  case_bool_decide as Hid; [split; [done|]; intros (_ & _ & Hm); by destruct (Hm m); [left|]|].
  case_bool_decide as Hname; [split; [done|]; intros (_ & _ & Hm); by destruct (Hm m); [left|]|].
  rewrite IH. setoid_rewrite not_elem_of_union. setoid_rewrite not_elem_of_singleton.
  setoid_rewrite elem_of_cons. setoid_rewrite list_elem_of_fmap. split.
  - intros (Hi & Hn & Hm). split_and!; try done.
    + intros (m' & Heq & Hin). destruct (Hm m' Hin) as [[Hne _] _]. by symmetry in Heq.
    + intros (m' & Heq & Hin). destruct (Hm m' Hin) as [_ [Hne _]]. by symmetry in Heq.
    + intros m' [->|Hin]; [done|]. destruct (Hm m' Hin) as [[_ ?] [_ ?]]. done.
  - intros ((Hni & Hi) & (Hnn & Hn) & Hm). split_and!; try done. intros m' Hin.
    destruct (Hm m' (or_intror Hin)) as [? ?]. split; (split; [|done]); intros Heq;
      [apply Hni|apply Hnn]; exists m'; by split.
Qed.

(** A roster is admitted exactly within the capacity, with distinct identities and
    names, and resolves exactly its members. *)
Theorem session_roster_exact members roster :
  (session_roster_new members = Ok roster <->
   Z.of_nat (length members) <= MAX_NAMED_SESSION_AGENTS /\ NoDup (na_agent_instance_id <$> members)
   /\ NoDup (na_display_name <$> members) /\ roster = mkRoster members)
  /\ (forall id, roster_contains roster id = true <-> id ∈ na_agent_instance_id <$> sr_members roster).
Proof.
  split.
  - unfold session_roster_new. destruct (_ <? _) eqn:Hlen; [split; [done|lia]|].
    pose proof (admit_members_ok members ∅ ∅) as Hadmit. destruct (try_fold _ _ _) as [seen|]; cbn in Hadmit.
    + destruct Hadmit as [Hadmit _]. destruct (Hadmit eq_refl) as (Hi & Hn & _).
      split; [intros [= <-]; split_and!; try done; lia|by intros (_ & _ & _ & ->)].
    + split; [done|]. intros (_ & Hi & Hn & _). destruct Hadmit as [_ Hadmit]. exfalso.
      assert (false = true) by (apply Hadmit; split_and!; try done; intros; split; apply not_elem_of_empty). done.
  - intros id. unfold roster_contains. rewrite existsb_exists, list_elem_of_fmap. setoid_rewrite String.eqb_eq.
    setoid_rewrite list_elem_of_In. naive_solver.
Qed.

(** A prepared collaboration call touches one lane of the session, for reading
    only when it collects. *)
Theorem collaboration_prepare_lane `{Externals, ArgumentReader, Jcs} catalogue intent call :
  collaboration_prepare catalogue intent = Ok call ->
  exists lane mode, pc_invocation_accesses call = Some [mkAccess Runtime lane mode]
    /\ (mode = Read <-> ti_tool_name intent = COLLECT_DELEGATIONS_TOOL)
    /\ (lane = MESSAGE_LANE <-> ti_tool_name intent = MESSAGE_AGENT_TOOL).
Proof.
  intros Hp. apply prepare_v3_inv in Hp as (d & args & contract & sandbox & accesses & _ & _ & _ & _ & _ & _ & Hr & _ & Hf).
  apply from_v3_fields in Hf as (_ & _ & Hacc & _). cbn [resolver_resolve CollaborationAccessResolver] in Hr.
  unfold collaboration_resolve in Hr.
  assert (forall lane mode, (let? access := resource_access_new Runtime lane mode in access_set_new [access]) = Ok accesses ->
            accesses = [mkAccess Runtime lane mode]) as Hone.
  { intros lane mode. destruct (resource_access_new Runtime lane mode) as [access|] eqn:Ha; [|done].
    apply access_new_ok in Ha as [_ ->]. apply access_set_single. }
  destruct (ti_tool_name intent =? MESSAGE_AGENT_TOOL)%string eqn:E1; bool_hyps.
  { apply Hone in Hr as ->. exists MESSAGE_LANE, Write. rewrite E1. split_and!; try done. }
  destruct (ti_tool_name intent =? DELEGATE_TOOL)%string eqn:E2; cbn [orb] in Hr; bool_hyps.
  { apply Hone in Hr as ->. exists DELEGATION_LANE, Write. rewrite E2. split_and!; try done. }
  destruct (ti_tool_name intent =? FORK_SELF_TOOL)%string eqn:E3; bool_hyps.
  { apply Hone in Hr as ->. exists DELEGATION_LANE, Write. rewrite E3. split_and!; try done. }
  destruct (ti_tool_name intent =? COLLECT_DELEGATIONS_TOOL)%string eqn:E4; bool_hyps; [|done].
  apply Hone in Hr as ->. exists DELEGATION_LANE, Read. rewrite E4. split_and!; try done.
Qed.

(** The catalogue of a policy is admitted, with the four tools in name order. *)
Example collaboration_catalogue_admitted :
  match collaboration_catalogue_new "p1" with
  | Ok catalogue => td_name <$> bc_definitions catalogue
      = [COLLECT_DELEGATIONS_TOOL; DELEGATE_TOOL; FORK_SELF_TOOL; MESSAGE_AGENT_TOOL]
  | Err _ => False
  end.
Proof. by vm_compute. Qed.
