(* ===== verification/Knowledge.v ===== *)
(** * Knowledge retrieval ([engine/knowledge/src/values.rs], [request.rs], [source.rs], [result.rs])

    Exact sources, requests and evidence, and the reduction of a connector's answer
    to the bounded evidence a request admits. *)

From S2P Require Import Prelude Json Text Order ToolSchema ToolPrepared BuiltinTools Checks.

(** ** Values ([values.rs]) *)

Definition KNOWLEDGE_MAX_TEXT_BYTES : Z := 512.

Inductive KnowledgeErrorCode :=
  | InvalidQuery | SourceNotFound | SourceRevisionMismatch | SourceDenied | FilterUnsupported | FreshnessUnavailable
  | ConnectorUnavailable | ConnectorRejected | RetrievalUncertain | CitationInvalid | ContentDigestMismatch
  | KnowledgeLimitExceeded | KnowledgeDurabilityFailure | CorruptKnowledgeState.
#[export] Instance KnowledgeErrorCode_eq_dec : EqDecision KnowledgeErrorCode.
Proof. solve_decision. Defined.

Definition knowledge_wire_name (self : KnowledgeErrorCode) : string :=
  match self with
  | InvalidQuery => "invalid_query"
  | SourceNotFound => "source_not_found"
  | SourceRevisionMismatch => "source_revision_mismatch"
  | SourceDenied => "source_denied"
  | FilterUnsupported => "filter_unsupported"
  | FreshnessUnavailable => "freshness_unavailable"
  | ConnectorUnavailable => "connector_unavailable"
  | ConnectorRejected => "connector_rejected"
  | RetrievalUncertain => "retrieval_uncertain"
  | CitationInvalid => "citation_invalid"
  | ContentDigestMismatch => "content_digest_mismatch"
  | KnowledgeLimitExceeded => "limit_exceeded"
  | KnowledgeDurabilityFailure => "durability_failure"
  | CorruptKnowledgeState => "corrupt_knowledge_state"
  end.

Inductive KnowledgeSourceKind := Repository | Documentation | Dataset | SearchIndex | ServiceSource.
Inductive KnowledgeQueryMode := Keyword | Semantic | Structured.
Inductive KnowledgeTrustClass := Curated | FirstParty | ThirdParty | Untrusted.
Inductive CitationScheme := UriFragment | DocumentOffset | RecordKey | OpaqueLocator.
#[export] Instance KnowledgeQueryMode_eq_dec : EqDecision KnowledgeQueryMode.
Proof. solve_decision. Defined.
#[export] Instance KnowledgeTrustClass_eq_dec : EqDecision KnowledgeTrustClass.
Proof. solve_decision. Defined.
#[export] Instance CitationScheme_eq_dec : EqDecision CitationScheme.
Proof. solve_decision. Defined.

Definition query_mode_rank (m : KnowledgeQueryMode) : Z :=
  match m with Keyword => 0 | Semantic => 1 | Structured => 2 end.
Definition query_mode_name (m : KnowledgeQueryMode) : string :=
  match m with Keyword => "keyword" | Semantic => "semantic" | Structured => "structured" end.
#[export] Instance Ord_query_mode : Ord KnowledgeQueryMode.
Proof. refine (Ord_view query_mode_rank _). by intros [] []. Defined.

Definition knowledge_valid_id (value : string) : bool := valid_text value 128.

(** ** Requests ([request.rs]) *)

Inductive KnowledgeFilterOperator := FilterEqual | LessThan | LessThanOrEqual | GreaterThan | GreaterThanOrEqual.

Definition filter_operator_name (o : KnowledgeFilterOperator) : string :=
  match o with
  | FilterEqual => "equal"
  | LessThan => "less_than"
  | LessThanOrEqual => "less_than_or_equal"
  | GreaterThan => "greater_than"
  | GreaterThanOrEqual => "greater_than_or_equal"
  end.

Definition from_wire_name (value : string) : result KnowledgeErrorCode KnowledgeFilterOperator :=
  if (value =? "equal")%string then Ok FilterEqual
  else if (value =? "less_than")%string then Ok LessThan
  else if (value =? "less_than_or_equal")%string then Ok LessThanOrEqual
  else if (value =? "greater_than")%string then Ok GreaterThan
  else if (value =? "greater_than_or_equal")%string then Ok GreaterThanOrEqual
  else Err FilterUnsupported.

Inductive KnowledgeFilterValue :=
  | FilterNull
  | FilterBoolean (b : bool)
  | FilterInteger (n : Z)
  | FilterString (text : string).

Record KnowledgeFilter := mkFilter {
  kf_field : string;
  kf_operator : KnowledgeFilterOperator;
  kf_value : KnowledgeFilterValue;
}.

Definition knowledge_filter_new (field : string) (operator : KnowledgeFilterOperator) (value : KnowledgeFilterValue)
    : result KnowledgeErrorCode KnowledgeFilter :=
  reject InvalidQuery when
    negb (valid_text field KNOWLEDGE_MAX_TEXT_BYTES)
    || match value with FilterString text => negb (valid_text text KNOWLEDGE_MAX_TEXT_BYTES) | _ => false end;
  Ok (mkFilter field operator value).

Inductive FreshnessRequirement :=
  | CachedAllowed
  | Revalidate
  | ExactSnapshot (snapshot_digest : string).

Definition freshness_valid (self : FreshnessRequirement) : bool :=
  match self with ExactSnapshot snapshot_digest => valid_sha256 snapshot_digest | CachedAllowed | Revalidate => true end.

Record KnowledgeRequest := mkKnowledgeRequest {
  kr_request_id : string;
  kr_source_id : string;
  kr_source_revision : string;
  kr_mode : KnowledgeQueryMode;
  kr_query : ContentBinding;
  kr_filters : list KnowledgeFilter;
  kr_through_position : Z;
  kr_max_chunks : Z;
  kr_max_total_bytes : Z;
  kr_deadline_budget_ms : Z;
  kr_freshness_requirement : FreshnessRequirement;
}.

Definition knowledge_request_new (request_id source_id source_revision : string) (mode : KnowledgeQueryMode)
    (query : ContentBinding) (filters : list KnowledgeFilter)
    (through_position max_chunks max_total_bytes deadline_budget_ms : Z) (freshness_requirement : FreshnessRequirement)
    : result KnowledgeErrorCode KnowledgeRequest :=
  reject InvalidQuery when
    negb (knowledge_valid_id request_id) || negb (knowledge_valid_id source_id)
    || negb (knowledge_valid_id source_revision) || negb (all_distinct (kf_field <$> filters))
    || (max_chunks =? 0) || (max_total_bytes =? 0) || (deadline_budget_ms =? 0)
    || negb (freshness_valid freshness_requirement);
  Ok (mkKnowledgeRequest request_id source_id source_revision mode query filters through_position max_chunks
        max_total_bytes deadline_budget_ms freshness_requirement).

Definition filter_value_json (v : KnowledgeFilterValue) : Value :=
  match v with
  | FilterNull => Null
  | FilterBoolean b => Bool b
  | FilterInteger n => json_int n
  | FilterString text => Str text
  end.
Definition filter_json (f : KnowledgeFilter) : Value :=
  json_object [("field", Str (kf_field f)); ("operator", Str (filter_operator_name (kf_operator f)));
               ("value", filter_value_json (kf_value f))].
Definition freshness_json (f : FreshnessRequirement) : Value :=
  match f with
  | CachedAllowed => json_object [("kind", Str "cached_allowed")]
  | Revalidate => json_object [("kind", Str "revalidate")]
  | ExactSnapshot digest => json_object [("kind", Str "exact_snapshot"); ("snapshot_digest", Str digest)]
  end.
(** The request identity is not serialised. *)
Definition knowledge_request_json (r : KnowledgeRequest) : Value :=
  json_object
    [("source_id", Str (kr_source_id r)); ("source_revision", Str (kr_source_revision r));
     ("mode", Str (query_mode_name (kr_mode r))); ("query", content_json (kr_query r));
     ("filters", Arr (filter_json <$> kr_filters r)); ("through_position", json_nat (kr_through_position r));
     ("max_chunks", json_nat (kr_max_chunks r)); ("max_total_bytes", json_nat (kr_max_total_bytes r));
     ("deadline_budget_ms", json_nat (kr_deadline_budget_ms r));
     ("freshness_requirement", freshness_json (kr_freshness_requirement r))].

(** ** Sources and evidence ([source.rs]) *)

Record KnowledgeSourceDescriptor := mkSource {
  ks_source_id : string;
  ks_source_revision : string;
  ks_kind : KnowledgeSourceKind;
  ks_content_domain : string;
  ks_trust_class : KnowledgeTrustClass;
  ks_supported_query_modes : list KnowledgeQueryMode;
  ks_freshness_policy_digest : string;
  ks_citation_scheme : CitationScheme;
  ks_capability_metadata_digest : string;
}.

Definition source_new (source_id source_revision : string) (kind : KnowledgeSourceKind) (content_domain : string)
    (trust_class : KnowledgeTrustClass) (supported_query_modes : list KnowledgeQueryMode)
    (freshness_policy_digest : string) (citation_scheme : CitationScheme) (capability_metadata_digest : string)
    : result KnowledgeErrorCode KnowledgeSourceDescriptor :=
  reject InvalidQuery when
    negb (knowledge_valid_id source_id) || negb (knowledge_valid_id source_revision)
    || negb (valid_text content_domain KNOWLEDGE_MAX_TEXT_BYTES) || vec_is_empty supported_query_modes
    || negb (ordered_unique supported_query_modes) || negb (valid_sha256 freshness_policy_digest)
    || negb (valid_sha256 capability_metadata_digest);
  Ok (mkSource source_id source_revision kind content_domain trust_class supported_query_modes freshness_policy_digest
        citation_scheme capability_metadata_digest).

Definition supports (self : KnowledgeSourceDescriptor) (mode : KnowledgeQueryMode) : bool :=
  bool_decide (mode ∈ ks_supported_query_modes self).

Definition validate_source (self : KnowledgeRequest) (source : KnowledgeSourceDescriptor)
    : result KnowledgeErrorCode unit :=
  if negb (kr_source_id self =? ks_source_id source)%string then Err SourceNotFound
  else if negb (kr_source_revision self =? ks_source_revision source)%string then Err SourceRevisionMismatch
  else if negb (supports source (kr_mode self)) then Err InvalidQuery
  else Ok tt.

Record Citation := mkCitation {
  ci_locator_kind : CitationScheme;
  ci_locator : string;
  ci_title : option string;
  ci_canonical_uri : option string;
  ci_content_digest : string;
}.

Definition citation_new (locator_kind : CitationScheme) (locator : string) (title canonical_uri : option string)
    (content_digest : string) : result KnowledgeErrorCode Citation :=
  reject CitationInvalid when
    negb (valid_text locator KNOWLEDGE_MAX_TEXT_BYTES)
    || is_some_and (fun v => negb (valid_text v KNOWLEDGE_MAX_TEXT_BYTES)) title
    || is_some_and (fun v => negb (valid_text v KNOWLEDGE_MAX_TEXT_BYTES)) canonical_uri
    || negb (valid_sha256 content_digest);
  Ok (mkCitation locator_kind locator title canonical_uri content_digest).

Inductive KnowledgeFreshness := Fresh | Cached | Stale.
#[export] Instance KnowledgeFreshness_eq_dec : EqDecision KnowledgeFreshness.
Proof. solve_decision. Defined.

Record KnowledgeEvidence := mkEvidence {
  ke_evidence_id : string;
  ke_source_id : string;
  ke_source_revision : string;
  ke_source_snapshot_digest : option string;
  ke_content : ContentBinding;
  ke_content_byte_length : Z;
  ke_citation : Citation;
  ke_retrieved_at_utc : string;
  ke_freshness : KnowledgeFreshness;
  ke_trust_class : KnowledgeTrustClass;
  ke_rank_basis_points : Z;
}.

Section knowledge.
Context `{Externals, Jcs}.

Definition knowledge_evidence_new (evidence_id source_id source_revision : string)
    (source_snapshot_digest : option string) (content : ContentBinding) (content_byte_length : Z)
    (citation : Citation) (retrieved_at_utc : string) (freshness : KnowledgeFreshness)
    (trust_class : KnowledgeTrustClass) (rank_basis_points : Z) : result KnowledgeErrorCode KnowledgeEvidence :=
  reject ContentDigestMismatch when
    negb (knowledge_valid_id evidence_id) || negb (knowledge_valid_id source_id)
    || negb (knowledge_valid_id source_revision)
    || is_some_and (fun v => negb (valid_sha256 v)) source_snapshot_digest
    || (content_byte_length =? 0)
    || is_some_and (fun v => negb (str_len v =? content_byte_length)) (ct_inline_utf8 content)
    || negb (ci_content_digest citation =? ct_digest content)%string
    || negb (is_some (canonical_utc retrieved_at_utc))
    || (10000 <? rank_basis_points);
  Ok (mkEvidence evidence_id source_id source_revision source_snapshot_digest content content_byte_length citation
        retrieved_at_utc freshness trust_class rank_basis_points).

Definition knowledge_request_digest (self : KnowledgeRequest) : result KnowledgeErrorCode string :=
  let? text := ok_or (jcs (json_object [("contract", Str "garive.knowledge-request"); ("version", json_nat 1);
                                        ("request", knowledge_request_json self)])) InvalidQuery in
  Ok (sha256_hex text).
Definition filters_binding (self : KnowledgeRequest) : result KnowledgeErrorCode ContentBinding :=
  let? text := ok_or (jcs (Arr (filter_json <$> kr_filters self))) InvalidQuery in
  Ok (content_from_inline text).
End knowledge.

(** ** The completed result ([result.rs]) *)

Record KnowledgeCompleted := mkCompleted {
  kc_evidence : list KnowledgeEvidence;
  kc_truncated : bool;
}.

Definition freshness_allowed (requirement : FreshnessRequirement) (value : KnowledgeEvidence) : bool :=
  match requirement with
  | CachedAllowed => true
  | Revalidate => bool_decide (ke_freshness value = Fresh)
  | ExactSnapshot snapshot_digest =>
      bool_decide (ke_freshness value <> Stale) && bool_decide (ke_source_snapshot_digest value = Some snapshot_digest)
  end.

(** The bindings of one item, beside the uniqueness of its identity. *)
Definition evidence_bound (request : KnowledgeRequest) (source : KnowledgeSourceDescriptor) (item : KnowledgeEvidence)
    : bool :=
  (ke_source_id item =? kr_source_id request)%string
  && (ke_source_revision item =? kr_source_revision request)%string
  && bool_decide (ke_trust_class item = ks_trust_class source)
  && bool_decide (ci_locator_kind (ke_citation item) = ks_citation_scheme source)
  && freshness_allowed (kr_freshness_requirement request) item.

Definition admit_evidence (request : KnowledgeRequest) (source : KnowledgeSourceDescriptor) (identities : gset string)
    (item : KnowledgeEvidence) : result KnowledgeErrorCode (gset string) :=
  reject InvalidQuery when
    bool_decide (ke_evidence_id item ∈ identities) || negb (evidence_bound request source item);
  Ok ({[ke_evidence_id item]} ∪ identities).

(** Descending rank, then locator, then identity. *)
Definition evidence_key (e : KnowledgeEvidence) : Z * (string * string) :=
  (- ke_rank_basis_points e, (ci_locator (ke_citation e), ke_evidence_id e)).

(** The prefix loop; [count] items and [bytes] bytes are already admitted. *)
Fixpoint admit_prefix (request : KnowledgeRequest) (count bytes : Z) (evidence : list KnowledgeEvidence)
    : list KnowledgeEvidence * bool :=
  match evidence with
  | [] => ([], false)
  | item :: rest =>
      match checked_add bytes (ke_content_byte_length item) with
      | None => ([], true)
      | Some next =>
          if (count =? kr_max_chunks request) || (kr_max_total_bytes request <? next) then ([], true)
          else let '(admitted, truncated) := admit_prefix request (count + 1) next rest in (item :: admitted, truncated)
      end
  end.

Definition complete_knowledge (request : KnowledgeRequest) (source : KnowledgeSourceDescriptor)
    (evidence : list KnowledgeEvidence) (connector_order_stable : bool) : result KnowledgeErrorCode KnowledgeCompleted :=
  validate_source request source ?;
  try_fold (admit_evidence request source) ∅ evidence ?;
  let evidence := if connector_order_stable then evidence else sort_by_key evidence_key evidence in
  let '(admitted, truncated) := admit_prefix request 0 0 evidence in
  Ok (mkCompleted admitted truncated).

(** ** Theorems *)

(** Admission without the loop: the source is the requested one in a supported
    mode, identities are distinct and every item has the requested bindings. *)
Definition evidence_admissible (request : KnowledgeRequest) (source : KnowledgeSourceDescriptor)
    (evidence : list KnowledgeEvidence) : Prop :=
  validate_source request source = Ok tt /\ NoDup (ke_evidence_id <$> evidence)
  /\ Forall (fun item => evidence_bound request source item = true) evidence.

Lemma admission_ok request source evidence :
  is_ok (try_fold (admit_evidence request source) ∅ evidence) = true <->
  NoDup (ke_evidence_id <$> evidence) /\ Forall (fun item => evidence_bound request source item = true) evidence.
Proof.
  pose proof (insert_fold_ok ke_evidence_id (fun item => negb (evidence_bound request source item)) InvalidQuery evidence ∅)
    as Hf. unfold admit_evidence. rewrite Hf, Forall_forall. setoid_rewrite negb_false_iff. set_solver.
Qed.

Lemma admission_error request source evidence e :
  try_fold (admit_evidence request source) ∅ evidence = Err e -> e = InvalidQuery.
Proof.
  generalize (∅ : gset string). induction evidence as [|x evidence IH]; intros seen; cbn [try_fold]; [done|].
  unfold admit_evidence at 1. destruct (_ || _); [by intros [= <-]|]. apply IH.
Qed.

(** A prefix within both bounds that no further item fits. *)
Definition bounded_prefix (request : KnowledgeRequest) : Z -> Z -> list KnowledgeEvidence -> list KnowledgeEvidence -> Prop :=
  bounded_cut ke_content_byte_length (kr_max_chunks request) (kr_max_total_bytes request).

Lemma admit_prefix_spec request evidence : forall count bytes,
  kr_max_total_bytes request <= u64_max -> 0 <= bytes -> bytes <= kr_max_total_bytes request ->
  count <= kr_max_chunks request -> Forall (fun e => 0 <= ke_content_byte_length e) evidence ->
  exists rest, evidence = (admit_prefix request count bytes evidence).1 ++ rest
    /\ (admit_prefix request count bytes evidence).2 = bool_decide (rest <> [])
    /\ bounded_prefix request count bytes (admit_prefix request count bytes evidence).1 rest.
Proof.
  unfold bounded_prefix, bounded_cut. induction evidence as [|x evidence IH]; intros count bytes Hmax H0 Hb Hc Hpos; cbn [admit_prefix].
  { exists []. cbn. split_and!; try done; lia. }
  apply Forall_cons in Hpos as [Hx Hpos].
  destruct (checked_add bytes (ke_content_byte_length x)) as [next|] eqn:Hn.
  - apply checked_u64_some in Hn as [<- Hn].
    destruct (_ || _) eqn:Hstop.
    + exists (x :: evidence). cbn. split_and!; try done; try lia.
    + destruct (IH (count + 1) (bytes + ke_content_byte_length x)) as (rest & Heq & Ht & H1 & H2 & H3); try done; try lia.
      exists rest. destruct (admit_prefix _ _ _ evidence) as [admitted truncated]. cbn in *. split_and!; try done.
      * by rewrite <-Heq.
      * lia.
      * unfold zsum_by in *. lia.
      * destruct rest; [done|]. unfold zsum_by in *. destruct H3; [left; lia|right; lia].
  - assert (u64_max < bytes + ke_content_byte_length x) by (unfold checked_add, checked_u64 in Hn; case_match; bool_hyps; [done|lia]). exists (x :: evidence). cbn. split_and!; try done; try lia. 
Qed.

(** The order an answer is given in: the connector's when it is stable, else by
    descending rank, locator and identity. *)
Definition ordered_evidence (stable : bool) (evidence ordered : list KnowledgeEvidence) : Prop :=
  if stable then ordered = evidence else ordered ≡ₚ evidence /\ StronglySorted (key_le_of evidence_key) ordered.

Lemma ordered_evidence_unique stable evidence o1 o2 : NoDup (ke_evidence_id <$> evidence) ->
  ordered_evidence stable evidence o1 -> ordered_evidence stable evidence o2 -> o1 = o2.
Proof.
  intros Hnd. destruct stable; cbn; [by intros -> ->|]. intros [Hp1 Hs1] [Hp2 Hs2].
  apply (StronglySorted_unique_strong (key_le_of evidence_key)); [|done|done|by rewrite Hp1, Hp2].
  intros x1 x2 Hx1 Hx2 H1 H2. unfold key_le_of in *. pose proof (anti_symm le_of _ _ H1 H2) as Heq.
  unfold evidence_key in Heq. injection Heq as _ _ Hid. rewrite Hp1 in Hx1. rewrite Hp2 in Hx2.
  by apply (nodup_key_inj ke_evidence_id evidence).
Qed.

(** A completed retrieval holds the longest prefix of the evidence, in the order of the
    connector or of rank, locator and identity, within the chunk and byte bounds; it is refused
    exactly when the source, an identity, a binding or the freshness is wrong; and without a
    stable order the answer does not depend on the order of the evidence. *)
Theorem knowledge_completion_exact request source evidence stable :
  0 <= kr_max_chunks request -> 0 <= kr_max_total_bytes request <= u64_max ->
  Forall (fun e => 0 <= ke_content_byte_length e) evidence ->
  (forall r, complete_knowledge request source evidence stable = Ok r <->
     evidence_admissible request source evidence
     /\ exists ordered rest, ordered_evidence stable evidence ordered /\ ordered = kc_evidence r ++ rest
        /\ bounded_prefix request 0 0 (kc_evidence r) rest /\ kc_truncated r = bool_decide (rest <> []))
  /\ (forall evidence', evidence' ≡ₚ evidence ->
       complete_knowledge request source evidence' false = complete_knowledge request source evidence false).
Proof.
  intros Hc Hm Hpos.
  assert (forall evidence stable r, Forall (fun e => 0 <= ke_content_byte_length e) evidence ->
    (complete_knowledge request source evidence stable = Ok r <->
     evidence_admissible request source evidence
     /\ exists ordered rest, ordered_evidence stable evidence ordered /\ ordered = kc_evidence r ++ rest
        /\ bounded_prefix request 0 0 (kc_evidence r) rest /\ kc_truncated r = bool_decide (rest <> []))) as Hexact.
  { clear evidence stable Hpos. intros evidence stable r Hpos. unfold complete_knowledge, evidence_admissible.
    destruct (validate_source request source) as [[]|] eqn:Hs; [|split; [done|]; by intros ((Hx & _) & _)].
    pose proof (admission_ok request source evidence) as Hadm.
    destruct (try_fold _ _ _) as [seen|e]; cbn in Hadm; [|split; [done|]; intros ((_ & Hb) & _); by apply Hadm in Hb].
    destruct Hadm as [Hadm _]. specialize (Hadm eq_refl).
    set (ordered := if stable then evidence else sort_by_key evidence_key evidence).
    assert (ordered_evidence stable evidence ordered) as Hord.
    { unfold ordered_evidence, ordered. destruct stable; [done|]. split; [apply sort_by_key_perm|apply sort_by_key_sorted]. }
    assert (Forall (fun e => 0 <= ke_content_byte_length e) ordered) as Hpos'.
    { unfold ordered. destruct stable; [done|]. by rewrite sort_by_key_perm. }
    destruct (admit_prefix_spec request ordered 0 0) as (rest & Hsplit & Ht & Hb); try done; try lia.
    destruct (admit_prefix request 0 0 ordered) as [admitted truncated]. cbn in Hsplit, Ht, Hb. split.
    - intros [= <-]. split; [done|]. exists ordered, rest. done.
    - intros (_ & ordered' & rest' & Hord' & Hsplit' & Hb' & Ht').
      assert (ordered' = ordered) as -> by (apply (ordered_evidence_unique stable evidence); [apply Hadm|done|done]).
      destruct (bounded_cut_unique ke_content_byte_length (kr_max_chunks request) (kr_max_total_bytes request) ordered 0 0 admitted rest (kc_evidence r) rest') as [Ha Hr]; try done. subst admitted rest.
      destruct r as [ev tr]. cbn in *. by subst. }
  split; [intros r; by apply Hexact|]. intros evidence' Hp.
  assert (Forall (fun e => 0 <= ke_content_byte_length e) evidence') as Hpos' by (by rewrite Hp).
  assert (forall r, complete_knowledge request source evidence' false = Ok r <->
                    complete_knowledge request source evidence false = Ok r) as Hiff.
  { intros r. rewrite !Hexact by done. unfold evidence_admissible, ordered_evidence.
    rewrite Hp. setoid_rewrite Hp. done. }
  assert (forall evidence e, complete_knowledge request source evidence false = Err e ->
            validate_source request source = Err e \/ validate_source request source = Ok tt /\ e = InvalidQuery) as Herr.
  { clear. intros evidence e. unfold complete_knowledge. destruct (validate_source _ _) as [[]|]; [|intros [= ->]; by left].
    destruct (try_fold _ _ _) as [seen|e'] eqn:Ha; [by destruct (admit_prefix _ _ _ _)|].
    intros [= <-]. right. split; [done|]. by eapply admission_error. }
  destruct (complete_knowledge request source evidence' false) as [r'|e'] eqn:H1; [symmetry; by apply Hiff|].
  destruct (complete_knowledge request source evidence false) as [r|e] eqn:H2; [by apply Hiff|].
  apply Herr in H1 as [H1|[H1 ->]]; apply Herr in H2 as [H2|[H2 ->]]; congruence.
Qed.

Module KnowledgeSample.
Definition request : KnowledgeRequest :=
  mkKnowledgeRequest "r" "docs" "1" Keyword (mkContent "d" (Some "q") None) [] 1 2 10 1000 Revalidate.
Definition source : KnowledgeSourceDescriptor :=
  mkSource "docs" "1" Documentation "rust" Curated [Keyword] "d" RecordKey "d".
Definition item (id : string) (bytes rank : Z) : KnowledgeEvidence :=
  mkEvidence id "docs" "1" None (mkContent "d" None (Some id)) bytes (mkCitation RecordKey "k" None None "d")
    "2024-01-01T00:00:00Z" Fresh Curated rank.
Definition answer : list KnowledgeEvidence := [item "b" 4 50; item "a" 4 50; item "c" 8 90].
End KnowledgeSample.

Lemma knowledge_completion_exact_witness :
  exists r, complete_knowledge KnowledgeSample.request KnowledgeSample.source KnowledgeSample.answer false = Ok r
    /\ ke_evidence_id <$> kc_evidence r = ["c"] /\ kc_truncated r = true
    /\ evidence_admissible KnowledgeSample.request KnowledgeSample.source KnowledgeSample.answer.
Proof.
  destruct (complete_knowledge KnowledgeSample.request KnowledgeSample.source KnowledgeSample.answer false) as [r|e] eqn:Hr;
    [|by vm_compute in Hr].
  pose proof (knowledge_completion_exact KnowledgeSample.request KnowledgeSample.source KnowledgeSample.answer false) as Hx.
  destruct Hx as [Hx _]; [done|done|by repeat constructor|]. apply Hx in Hr as Hok. destruct Hok as [Hok _].
  exists r. vm_compute in Hr. injection Hr as <-. done.
Defined.

(** The operator names and their reader are inverse. *)
Lemma filter_operator_roundtrip name o : from_wire_name name = Ok o <-> name = filter_operator_name o.
Proof.
  split; [|intros ->; by destruct o]. unfold from_wire_name. intros Hn.
  repeat match type of Hn with (if (name =? ?s)%string then _ else _) = _ =>
    destruct (name =? s)%string eqn:Heq; [apply String.eqb_eq in Heq; injection Hn as <-; done|clear Heq] end. done.
Qed.
