(* ===== verification/MemoryTypes.v ===== *)
(** * Memory values and the hypothesis lifecycle
    ([engine/memory/src/values.rs], [hypothesis.rs], [lifecycle.rs])

    Scopes, evidence references, the registry of admitted memory types, and the
    lifecycle of one remembered hypothesis under observations. *)

From S2P Require Import Prelude Json Text Order ToolSchema ToolPrepared Checks.

(** ** Values ([values.rs]) *)

Definition MEMORY_MAX_ID_BYTES : Z := 128.
Definition MEMORY_MAX_REFERENCE_BYTES : Z := 512.

Inductive MemoryErrorCode :=
  | InvalidMemory | NamespaceDenied | EvidenceNotFound | EvidenceMismatch | RevisionConflict | RetentionRejected
  | SensitivityDenied | LimitExceeded | MemoryUnsupported | MemoryDurabilityFailure | CorruptMemoryState
  | UnknownMemoryType | AuthorityReceiptRequired | ScopePolicyDenied | InvalidTransition | DuplicateObservation
  | PromotionReceiptRequired | PromotionNotEligible | SelectionUnreplayable | AttributionUnsupported | ProjectionStale.
#[export] Instance MemoryErrorCode_eq_dec : EqDecision MemoryErrorCode.
Proof. solve_decision. Defined.

Definition memory_wire_name (self : MemoryErrorCode) : string :=
  match self with
  | InvalidMemory => "invalid_memory"
  | NamespaceDenied => "namespace_denied"
  | EvidenceNotFound => "evidence_not_found"
  | EvidenceMismatch => "evidence_mismatch"
  | RevisionConflict => "revision_conflict"
  | RetentionRejected => "retention_rejected"
  | SensitivityDenied => "sensitivity_denied"
  | LimitExceeded => "limit_exceeded"
  | MemoryUnsupported => "unsupported"
  | MemoryDurabilityFailure => "durability_failure"
  | CorruptMemoryState => "corrupt_memory_state"
  | UnknownMemoryType => "unknown_memory_type"
  | AuthorityReceiptRequired => "authority_receipt_required"
  | ScopePolicyDenied => "scope_policy_denied"
  | InvalidTransition => "invalid_transition"
  | DuplicateObservation => "duplicate_observation"
  | PromotionReceiptRequired => "promotion_receipt_required"
  | PromotionNotEligible => "promotion_not_eligible"
  | SelectionUnreplayable => "selection_unreplayable"
  | AttributionUnsupported => "attribution_unsupported"
  | ProjectionStale => "projection_stale"
  end.

Definition memory_valid_id (value : string) : bool := valid_text value MEMORY_MAX_ID_BYTES.

Inductive MemoryScope :=
  | SessionScope (owner_id : string)
  | AgentInstanceScope (owner_id : string)
  | NamespaceScope.
#[export] Instance MemoryScope_eq_dec : EqDecision MemoryScope.
Proof. solve_decision. Defined.

Definition owned_scope (owner_id : string) (constructor : string -> MemoryScope) : result MemoryErrorCode MemoryScope :=
  if negb (memory_valid_id owner_id) then Err InvalidMemory else Ok (constructor owner_id).
Definition session_scope (owner_id : string) : result MemoryErrorCode MemoryScope := owned_scope owner_id SessionScope.
Definition agent_instance_scope (owner_id : string) : result MemoryErrorCode MemoryScope :=
  owned_scope owner_id AgentInstanceScope.

(** The derived order: the variant first, then its owner. *)
Definition scope_view (s : MemoryScope) : Z * string :=
  match s with SessionScope o => (0, o) | AgentInstanceScope o => (1, o) | NamespaceScope => (2, "") end.
#[export] Instance Ord_scope : Ord MemoryScope.
Proof. refine (Ord_view scope_view _). intros [] [] [=]; by subst. Defined.

Record DurableFactReference := mkDurableFact {
  df_session_id : string;
  df_position : Z;
  df_fact_id : string;
  df_payload_digest : string;
}.
#[export] Instance DurableFactReference_eq_dec : EqDecision DurableFactReference.
Proof. solve_decision. Defined.

Definition durable_fact_new (session_id : string) (position : Z) (fact_id payload_digest : string)
    : result MemoryErrorCode DurableFactReference :=
  reject InvalidMemory when
    negb (memory_valid_id session_id) || (position =? 0) || negb (memory_valid_id fact_id)
    || negb (valid_sha256 payload_digest);
  Ok (mkDurableFact session_id position fact_id payload_digest).

Definition durable_fact_view (f : DurableFactReference) : string * (Z * (string * string)) :=
  (df_session_id f, (df_position f, (df_fact_id f, df_payload_digest f))).
#[export] Instance Ord_durable_fact : Ord DurableFactReference.
Proof. refine (Ord_view durable_fact_view _). intros [] [] [=]; by subst. Defined.

Inductive MemoryKind := PreferenceKind | ConstraintKind | DecisionKind | LearnedFactKind | SummaryKind.
#[export] Instance MemoryKind_eq_dec : EqDecision MemoryKind.
Proof. solve_decision. Defined.
Definition kind_rank (k : MemoryKind) : Z :=
  match k with PreferenceKind => 0 | ConstraintKind => 1 | DecisionKind => 2 | LearnedFactKind => 3 | SummaryKind => 4 end.
#[export] Instance Ord_kind : Ord MemoryKind.
Proof. refine (Ord_view kind_rank _). by intros [] []. Defined.

Inductive MemoryStatus := StatusActive | StatusSuperseded | StatusTombstoned.
#[export] Instance MemoryStatus_eq_dec : EqDecision MemoryStatus.
Proof. solve_decision. Defined.

Inductive MemorySensitivity := Ordinary | Restricted.
#[export] Instance MemorySensitivity_eq_dec : EqDecision MemorySensitivity.
Proof. solve_decision. Defined.

(** ** Hypotheses ([hypothesis.rs]) *)

Inductive MemoryType := SemanticMemory | EpisodicMemory | LessonMemory | ProceduralMemory.
#[export] Instance MemoryType_eq_dec : EqDecision MemoryType.
Proof. solve_decision. Defined.
Definition type_rank (t : MemoryType) : Z :=
  match t with SemanticMemory => 0 | EpisodicMemory => 1 | LessonMemory => 2 | ProceduralMemory => 3 end.
#[export] Instance Ord_type : Ord MemoryType.
Proof. refine (Ord_view type_rank _). by intros [] []. Defined.

Definition MemoryRole : Type := MemoryKind.

Inductive MemoryAuthority := UserDeclared | AgentLearned | OrganisationPublished.
#[export] Instance MemoryAuthority_eq_dec : EqDecision MemoryAuthority.
Proof. solve_decision. Defined.
Definition authority_rank (a : MemoryAuthority) : Z :=
  match a with UserDeclared => 0 | AgentLearned => 1 | OrganisationPublished => 2 end.
#[export] Instance Ord_authority : Ord MemoryAuthority.
Proof. refine (Ord_view authority_rank _). by intros [] []. Defined.

Record MemoryAuthorityBinding := mkAuthority {
  ab_authority : MemoryAuthority;
  ab_receipt_digest : option string;
}.
#[export] Instance MemoryAuthorityBinding_eq_dec : EqDecision MemoryAuthorityBinding.
Proof. solve_decision. Defined.

Definition authority_binding_new (authority : MemoryAuthority) (receipt_digest : option string)
    : result MemoryErrorCode MemoryAuthorityBinding :=
  let requires := bool_decide (authority <> AgentLearned) in
  if negb (Bool.eqb requires (is_some receipt_digest)) || is_some_and (fun v => negb (valid_sha256 v)) receipt_digest
  then Err (if requires && negb (is_some receipt_digest) then AuthorityReceiptRequired else InvalidMemory)
  else Ok (mkAuthority authority receipt_digest).

Inductive MemoryScopeClass := SessionClass | AgentInstanceClass | UserClass | ProjectClass | PlatformClass.
#[export] Instance MemoryScopeClass_eq_dec : EqDecision MemoryScopeClass.
Proof. solve_decision. Defined.

Record MemoryScopeBinding := mkScopeBinding {
  sb_scope : MemoryScopeClass;
  sb_aggregation_policy_digest : option string;
}.

Definition scope_binding_new (scope : MemoryScopeClass) (aggregation_policy_digest : option string)
    : result MemoryErrorCode MemoryScopeBinding :=
  let platform := bool_decide (scope = PlatformClass) in
  if negb (Bool.eqb platform (is_some aggregation_policy_digest))
     || is_some_and (fun v => negb (valid_sha256 v)) aggregation_policy_digest
  then Err (if platform && negb (is_some aggregation_policy_digest) then ScopePolicyDenied else InvalidMemory)
  else Ok (mkScopeBinding scope aggregation_policy_digest).

Record MemoryTypeDescriptor := mkDescriptor {
  md_memory_type : MemoryType;
  md_roles : list MemoryRole;
  md_authorities : list MemoryAuthority;
  md_lifecycle : string;
  md_recall : string;
  md_retention : string;
  md_surface_kind : string;
}.

Definition descriptor_new (memory_type : MemoryType) (roles : list MemoryRole) (authorities : list MemoryAuthority)
    (lifecycle recall retention surface_kind : string) : result MemoryErrorCode MemoryTypeDescriptor :=
  reject InvalidMemory when
    vec_is_empty roles || negb (ordered_unique (T := MemoryKind) roles) || vec_is_empty authorities
    || negb (ordered_unique authorities)
    || existsb (fun v => negb (valid_text v MEMORY_MAX_REFERENCE_BYTES)) [lifecycle; recall; retention; surface_kind];
  Ok (mkDescriptor memory_type roles authorities lifecycle recall retention surface_kind).

Definition descriptor_admits (self : MemoryTypeDescriptor) (role : MemoryRole) (authority : MemoryAuthority) : bool :=
  bool_decide (role ∈ (md_roles self : list MemoryKind)) && bool_decide (authority ∈ md_authorities self).

Record MemoryTypeRegistry := mkRegistry {
  mr_revision : string;
  mr_descriptors : list MemoryTypeDescriptor;
}.

Definition registry_new (revision : string) (descriptors : list MemoryTypeDescriptor)
    : result MemoryErrorCode MemoryTypeRegistry :=
  reject UnknownMemoryType when
    negb (valid_text revision MEMORY_MAX_REFERENCE_BYTES)
    || bool_decide (md_memory_type <$> descriptors <> [SemanticMemory; EpisodicMemory; LessonMemory; ProceduralMemory]);
  Ok (mkRegistry revision descriptors).

Definition registry_admits (self : MemoryTypeRegistry) (memory_type : MemoryType) (role : MemoryRole)
    (authority : MemoryAuthority) : bool :=
  is_some_and (fun v => descriptor_admits v role authority)
    (find (fun v => bool_decide (md_memory_type v = memory_type)) (mr_descriptors self)).

Record ImportedMemoryClassification := mkImported {
  im_memory_type : MemoryType;
  im_role : MemoryRole;
  im_authority : MemoryAuthorityBinding;
}.

Definition import_m0_classification (kind : MemoryKind) (authority : MemoryAuthorityBinding)
    : ImportedMemoryClassification :=
  mkImported (if bool_decide (kind = SummaryKind) then EpisodicMemory else SemanticMemory) kind authority.

Record MemoryRevisionScope := mkRevisionScope {
  rs_scope : MemoryScopeBinding;
  rs_owner_id : string;
}.

Definition revision_scope_new (scope : MemoryScopeClass) (owner_id : string) (aggregation_policy_digest : option string)
    : result MemoryErrorCode MemoryRevisionScope :=
  let? binding := scope_binding_new scope aggregation_policy_digest in
  reject InvalidMemory when negb (valid_text owner_id MEMORY_MAX_REFERENCE_BYTES);
  Ok (mkRevisionScope binding owner_id).

(** ** The lifecycle ([lifecycle.rs]) *)

Inductive HypothesisState := HypCandidate | HypActive | HypCold | HypArchived | HypPromoted.
#[export] Instance HypothesisState_eq_dec : EqDecision HypothesisState.
Proof. solve_decision. Defined.
Definition state_rank (s : HypothesisState) : Z :=
  match s with HypCandidate => 0 | HypActive => 1 | HypCold => 2 | HypArchived => 3 | HypPromoted => 4 end.
#[export] Instance Ord_state : Ord HypothesisState.
Proof. refine (Ord_view state_rank _). by intros [] []. Defined.

Record MemoryRevisionClassification := mkClassification {
  rc_classification : ImportedMemoryClassification;
  rc_scope : MemoryRevisionScope;
  rc_lifecycle : HypothesisState;
  rc_policy_revision : string;
}.

Definition classification_new (role : MemoryKind) (authority : MemoryAuthorityBinding) (scope : MemoryRevisionScope)
    (lifecycle : HypothesisState) (policy_revision : string) (registry : MemoryTypeRegistry)
    : result MemoryErrorCode MemoryRevisionClassification :=
  let classification := import_m0_classification role authority in
  reject InvalidMemory when
    negb (match lifecycle with HypCandidate | HypActive => true | _ => false end)
    || negb (valid_text policy_revision MEMORY_MAX_REFERENCE_BYTES)
    || negb (registry_admits registry (im_memory_type classification) (im_role classification)
               (ab_authority (im_authority classification)));
  Ok (mkClassification classification scope lifecycle policy_revision).

Record EvidenceTally := mkTally {
  ta_verified : Z;
  ta_falsified : Z;
  ta_neutral : Z;
}.
#[export] Instance EvidenceTally_eq_dec : EqDecision EvidenceTally.
Proof. solve_decision. Defined.

Inductive LifecycleEvent :=
  | EventVerified (position : Z)
  | EventFalsified (position : Z) (in_scope : bool)
  | EventNeutral (position : Z)
  | EventCool (position : Z)
  | EventArchive (position : Z)
  | EventPromote (position : Z) (receipt_digest : option string).

Definition event_position (self : LifecycleEvent) : Z :=
  match self with
  | EventVerified position | EventFalsified position _ | EventNeutral position
  | EventCool position | EventArchive position | EventPromote position _ => position
  end.

Record MemoryLifecycle := mkLifecycle {
  ml_state : HypothesisState;
  ml_tally : EvidenceTally;
  ml_last_observed_position : Z;
  ml_promoted_knowledge_receipt_digest : option string;
}.
#[export] Instance MemoryLifecycle_eq_dec : EqDecision MemoryLifecycle.
Proof. solve_decision. Defined.

Definition lifecycle_new (state : HypothesisState) (tally : EvidenceTally) (last_observed_position : Z)
    (promoted_knowledge_receipt_digest : option string) : result MemoryErrorCode MemoryLifecycle :=
  reject InvalidTransition when
    (last_observed_position =? 0)
    || negb (Bool.eqb (bool_decide (state = HypPromoted)) (is_some promoted_knowledge_receipt_digest))
    || is_some_and (fun value => negb (valid_sha256 value)) promoted_knowledge_receipt_digest;
  Ok (mkLifecycle state tally last_observed_position promoted_knowledge_receipt_digest).

Definition increment (value : Z) : result MemoryErrorCode Z := ok_or (checked_add value 1) InvalidTransition.

(** [MemoryLifecycle::apply]. *)
Definition lifecycle_apply (self : MemoryLifecycle) (event : LifecycleEvent) : result MemoryErrorCode MemoryLifecycle :=
  reject DuplicateObservation when event_position event <=? ml_last_observed_position self;
  reject InvalidTransition when bool_decide (ml_state self = HypPromoted);
  let tally := ml_tally self in
  let with_tally t := mkLifecycle (ml_state self) t (event_position event) (ml_promoted_knowledge_receipt_digest self) in
  let with_state s := mkLifecycle s tally (event_position event) (ml_promoted_knowledge_receipt_digest self) in
  match event with
  | EventVerified _ =>
      let? verified := increment (ta_verified tally) in
      let? state := match ml_state self with
                    | HypCandidate | HypCold => Ok HypActive
                    | HypActive => Ok HypActive
                    | HypArchived | HypPromoted => Err InvalidTransition
                    end in
      Ok (mkLifecycle state (mkTally verified (ta_falsified tally) (ta_neutral tally)) (event_position event)
            (ml_promoted_knowledge_receipt_digest self))
  | EventFalsified _ true =>
      let? falsified := increment (ta_falsified tally) in
      Ok (with_tally (mkTally (ta_verified tally) falsified (ta_neutral tally)))
  | EventFalsified _ false | EventNeutral _ =>
      let? neutral := increment (ta_neutral tally) in
      Ok (with_tally (mkTally (ta_verified tally) (ta_falsified tally) neutral))
  | EventCool _ => if bool_decide (ml_state self = HypActive) then Ok (with_state HypCold) else Err InvalidTransition
  | EventArchive _ => if bool_decide (ml_state self = HypCold) then Ok (with_state HypArchived) else Err InvalidTransition
  | EventPromote _ receipt_digest =>
      let? receipt := ok_or receipt_digest PromotionReceiptRequired in
      reject InvalidTransition when negb (valid_sha256 receipt);
      Ok (mkLifecycle HypPromoted tally (event_position event) (Some receipt))
  end.
