(* ===== verification/MemoryStore.v ===== *)
(** * Memory records, their state and bounded retrieval
    ([engine/memory/src/write.rs], [query.rs]) *)

From S2P Require Import Prelude Json Text Order ToolSchema ToolPrepared Checks MemoryTypes.

(** ** Records ([write.rs]) *)

Definition MAX_CONFIDENCE_BASIS_POINTS : Z := 10000.

Record MemoryProposal := mkProposal {
  mp_proposal_id : string;
  mp_namespace_id : string;
  mp_scope : MemoryScope;
  mp_kind : MemoryKind;
  mp_content : ContentBinding;
  mp_evidence : list DurableFactReference;
  mp_sensitivity : MemorySensitivity;
  mp_confidence_basis_points : Z;
  mp_expected_active_revision_id : option string;
}.

Definition memory_proposal_new (proposal_id namespace_id : string) (scope : MemoryScope) (kind : MemoryKind)
    (content : ContentBinding) (evidence : list DurableFactReference) (sensitivity : MemorySensitivity)
    (confidence_basis_points : Z) (expected_active_revision_id : option string) : result MemoryErrorCode MemoryProposal :=
  reject InvalidMemory when
    negb (memory_valid_id proposal_id) || negb (memory_valid_id namespace_id) || vec_is_empty evidence
    || negb (ordered_unique evidence) || (MAX_CONFIDENCE_BASIS_POINTS <? confidence_basis_points)
    || is_some_and (fun revision => negb (memory_valid_id revision)) expected_active_revision_id;
  Ok (mkProposal proposal_id namespace_id scope kind content evidence sensitivity confidence_basis_points
        expected_active_revision_id).

Record MemoryCommit := mkMemoryCommit {
  mc_record_id : string;
  mc_revision_id : string;
  mc_retention_policy_digest : string;
  mc_valid_from_position : Z;
  mc_expires_at_utc : option string;
  mc_supersedes_revision_id : option string;
}.

Record MemoryRecord := mkRecord {
  me_record_id : string;
  me_revision_id : string;
  me_namespace_id : string;
  me_scope : MemoryScope;
  me_kind : MemoryKind;
  me_content : ContentBinding;
  me_evidence : list DurableFactReference;
  me_status : MemoryStatus;
  me_sensitivity : MemorySensitivity;
  me_confidence_basis_points : Z;
  me_valid_from_position : Z;
  me_supersedes_revision_id : option string;
  me_expires_at_utc : option string;
}.
#[export] Instance MemoryRecord_eq_dec : EqDecision MemoryRecord.
Proof. solve_decision. Defined.

Section records.
Context `{Externals}.

Definition memory_commit_new (record_id revision_id retention_policy_digest : string) (valid_from_position : Z)
    (expires_at_utc supersedes_revision_id : option string) : result MemoryErrorCode MemoryCommit :=
  reject InvalidMemory when
    negb (memory_valid_id record_id) || negb (memory_valid_id revision_id)
    || negb (valid_sha256 retention_policy_digest) || (valid_from_position =? 0)
    || is_some_and (fun time => negb (is_some (canonical_utc time))) expires_at_utc
    || is_some_and (fun revision => negb (memory_valid_id revision) || (revision =? revision_id)%string)
         supersedes_revision_id;
  Ok (mkMemoryCommit record_id revision_id retention_policy_digest valid_from_position expires_at_utc
        supersedes_revision_id).

Definition memory_record_new (record_id revision_id namespace_id : string) (scope : MemoryScope) (kind : MemoryKind)
    (content : ContentBinding) (evidence : list DurableFactReference) (status : MemoryStatus)
    (sensitivity : MemorySensitivity) (confidence_basis_points valid_from_position : Z)
    (supersedes_revision_id expires_at_utc : option string) : result MemoryErrorCode MemoryRecord :=
  reject InvalidMemory when
    negb (memory_valid_id record_id) || negb (memory_valid_id revision_id) || negb (memory_valid_id namespace_id)
    || vec_is_empty evidence || negb (ordered_unique evidence)
    || (MAX_CONFIDENCE_BASIS_POINTS <? confidence_basis_points) || (valid_from_position =? 0)
    || is_some_and (fun revision => negb (memory_valid_id revision)) supersedes_revision_id
    || is_some_and (fun time => negb (is_some (canonical_utc time))) expires_at_utc;
  Ok (mkRecord record_id revision_id namespace_id scope kind content evidence status sensitivity
        confidence_basis_points valid_from_position supersedes_revision_id expires_at_utc).
End records.

Record MemorySupersession := mkSupersession {
  su_record_id : string;
  su_old_revision_id : string;
  su_new_revision_id : string;
  su_proposal_id : string;
}.

Record MemoryWriteOutcome := mkOutcome {
  wo_record : MemoryRecord;
  wo_supersession : option MemorySupersession;
}.

Record MemoryTombstone := mkTombstone {
  tb_record_id : string;
  tb_revision_id : string;
}.

(** ** The append-only state *)

Record MemoryState := mkMemoryState { ms_revisions : list MemoryRecord }.

Definition memory_state_default : MemoryState := mkMemoryState [].

Definition record_identity (r : MemoryRecord) : string * string := (me_record_id r, me_revision_id r).
Definition record_active (r : MemoryRecord) : bool := bool_decide (me_status r = StatusActive).

Definition admit_revision (seen : gset (string * string) * gset string) (record : MemoryRecord)
    : result MemoryErrorCode (gset (string * string) * gset string) :=
  let '(identities, active) := seen in
  reject CorruptMemoryState when bool_decide (record_identity record ∈ identities);
  reject CorruptMemoryState when record_active record && bool_decide (me_record_id record ∈ active);
  Ok ({[record_identity record]} ∪ identities, if record_active record then {[me_record_id record]} ∪ active else active).

Definition memory_state_new (revisions : list MemoryRecord) : result MemoryErrorCode MemoryState :=
  try_fold admit_revision (∅, ∅) revisions ?;
  Ok (mkMemoryState revisions).

Definition set_status (status : MemoryStatus) (r : MemoryRecord) : MemoryRecord :=
  mkRecord (me_record_id r) (me_revision_id r) (me_namespace_id r) (me_scope r) (me_kind r) (me_content r)
    (me_evidence r) status (me_sensitivity r) (me_confidence_basis_points r) (me_valid_from_position r)
    (me_supersedes_revision_id r) (me_expires_at_utc r).

(** Assignment to the first element a search finds. *)
Fixpoint update_first {A} (p : A -> bool) (f : A -> A) (l : list A) : list A :=
  match l with
  | [] => []
  | x :: l => if p x then f x :: l else x :: update_first p f l
  end.

Definition active_revision_of (record_id : string) (r : MemoryRecord) : bool :=
  (me_record_id r =? record_id)%string && record_active r.
Definition revision_named (record_id revision_id : string) (r : MemoryRecord) : bool :=
  (me_record_id r =? record_id)%string && (me_revision_id r =? revision_id)%string.

(** [MemoryState::commit]: the outcome with the next state. *)
Definition memory_commit `{Externals} (self : MemoryState) (proposal : MemoryProposal) (commit : MemoryCommit)
    : result MemoryErrorCode (MemoryWriteOutcome * MemoryState) :=
  let active := find (active_revision_of (mc_record_id commit)) (ms_revisions self) in
  let active_revision := me_revision_id <$> active in
  reject RevisionConflict when
    bool_decide (active_revision <> mp_expected_active_revision_id proposal)
    || bool_decide (active_revision <> mc_supersedes_revision_id commit)
    || existsb (revision_named (mc_record_id commit) (mc_revision_id commit)) (ms_revisions self);
  let? record := memory_record_new (mc_record_id commit) (mc_revision_id commit) (mp_namespace_id proposal)
      (mp_scope proposal) (mp_kind proposal) (mp_content proposal) (mp_evidence proposal) StatusActive
      (mp_sensitivity proposal) (mp_confidence_basis_points proposal) (mc_valid_from_position commit)
      (mc_supersedes_revision_id commit) (mc_expires_at_utc commit) in
  let supersession := (fun old => mkSupersession (mc_record_id commit) (me_revision_id old) (mc_revision_id commit)
                                    (mp_proposal_id proposal)) <$> active in
  let revisions := update_first (active_revision_of (mc_record_id commit)) (set_status StatusSuperseded)
                     (ms_revisions self) in
  Ok (mkOutcome record supersession, mkMemoryState (revisions ++ [record])).

(** [MemoryState::tombstone]. *)
Definition tombstone (self : MemoryState) (target : MemoryTombstone) : result MemoryErrorCode MemoryState :=
  let named := revision_named (tb_record_id target) (tb_revision_id target) in
  match find named (ms_revisions self) with
  | None => Err RevisionConflict
  | Some record =>
      if negb (record_active record) then Err RevisionConflict
      else Ok (mkMemoryState (update_first named (set_status StatusTombstoned) (ms_revisions self)))
  end.

(** ** Retrieval ([query.rs]) *)

Definition MAX_RELEVANCE_BASIS_POINTS : Z := 10000.

Inductive MemoryPurpose := ContextPurpose | PlanningPurpose | ConflictCheckPurpose.

Record MemoryQuery := mkQuery {
  mq_query_id : string;
  mq_namespace_id : string;
  mq_allowed_scopes : list MemoryScope;
  mq_purpose : MemoryPurpose;
  mq_retriever_revision : string;
  mq_query : ContentBinding;
  mq_through_position : Z;
  mq_as_of_utc : string;
  mq_max_results : Z;
  mq_max_total_bytes : Z;
  mq_include_restricted : bool;
  mq_restricted_grant_digest : option string;
}.

Definition memory_query_new `{Externals} (query_id namespace_id : string) (allowed_scopes : list MemoryScope)
    (purpose : MemoryPurpose) (retriever_revision : string) (query : ContentBinding) (through_position : Z)
    (as_of_utc : string) (max_results max_total_bytes : Z) (include_restricted : bool)
    (restricted_grant_digest : option string) : result MemoryErrorCode MemoryQuery :=
  reject InvalidMemory when
    negb (memory_valid_id query_id) || negb (memory_valid_id namespace_id) || vec_is_empty allowed_scopes
    || negb (ordered_unique allowed_scopes) || negb (valid_text retriever_revision MEMORY_MAX_REFERENCE_BYTES)
    || negb (is_some (canonical_utc as_of_utc)) || (max_results =? 0) || (max_total_bytes =? 0)
    || negb (Bool.eqb include_restricted (is_some restricted_grant_digest))
    || is_some_and (fun digest => negb (valid_sha256 digest)) restricted_grant_digest;
  Ok (mkQuery query_id namespace_id allowed_scopes purpose retriever_revision query through_position as_of_utc
        max_results max_total_bytes include_restricted restricted_grant_digest).

Definition scope_json (s : MemoryScope) : Value :=
  match s with
  | SessionScope owner => json_object [("kind", Str "session"); ("owner_id", Str owner)]
  | AgentInstanceScope owner => json_object [("kind", Str "agent_instance"); ("owner_id", Str owner)]
  | NamespaceScope => json_object [("kind", Str "namespace")]
  end.
Definition purpose_name (p : MemoryPurpose) : string :=
  match p with ContextPurpose => "context" | PlanningPurpose => "planning" | ConflictCheckPurpose => "conflict_check" end.
(** The query identity is not serialised, and an absent grant is left out. *)
Definition query_json (q : MemoryQuery) : Value :=
  json_object
    ([("namespace_id", Str (mq_namespace_id q)); ("allowed_scopes", Arr (scope_json <$> mq_allowed_scopes q));
      ("purpose", Str (purpose_name (mq_purpose q))); ("retriever_revision", Str (mq_retriever_revision q));
      ("query", content_json (mq_query q)); ("through_position", json_nat (mq_through_position q));
      ("as_of_utc", Str (mq_as_of_utc q)); ("max_results", json_nat (mq_max_results q));
      ("max_total_bytes", json_nat (mq_max_total_bytes q)); ("include_restricted", Bool (mq_include_restricted q))]
     ++ json_field "restricted_grant_digest" Str (mq_restricted_grant_digest q)).
Definition query_digest `{Externals, Jcs} (self : MemoryQuery) : result MemoryErrorCode string :=
  let? text := ok_or (jcs (json_object [("contract", Str "garive.memory-query"); ("version", json_nat 1);
                                        ("query", query_json self)])) InvalidMemory in
  Ok (sha256_hex text).

Record MemoryScore := mkScore {
  sc_record_id : string;
  sc_revision_id : string;
  sc_relevance_basis_points : Z;
  sc_content_byte_length : Z;
}.

Definition memory_score_new (record_id revision_id : string) (relevance_basis_points content_byte_length : Z)
    : result MemoryErrorCode MemoryScore :=
  reject InvalidMemory when
    negb (memory_valid_id record_id) || negb (memory_valid_id revision_id)
    || (MAX_RELEVANCE_BASIS_POINTS <? relevance_basis_points) || (content_byte_length =? 0);
  Ok (mkScore record_id revision_id relevance_basis_points content_byte_length).

Record MemoryMatch := mkMatch {
  mm_record_id : string;
  mm_revision_id : string;
  mm_kind : MemoryKind;
  mm_content : ContentBinding;
  mm_content_byte_length : Z;
  mm_evidence : list DurableFactReference;
  mm_relevance_basis_points : Z;
  mm_sensitivity : MemorySensitivity;
}.

Record MemoryRetrieval := mkRetrieval {
  re_matches : list MemoryMatch;
  re_truncated : bool;
}.

(** A failed [expect] is a panic. *)
Inductive MemoryStop := MemoryRefused (code : MemoryErrorCode) | MemoryPanic.

Definition score_identity (s : MemoryScore) : string * string := (sc_record_id s, sc_revision_id s).

Section retrieval.
Context `{Externals}.

Definition expired (expires_at as_of : string) : result MemoryStop bool :=
  let? expiry := ok_or (parse_rfc3339 expires_at) MemoryPanic in
  let? now := ok_or (parse_rfc3339 as_of) MemoryPanic in
  Ok (expiry <=? now).

(** The last record of an identity, as the map is built from the records in order. *)
Definition record_by_identity (records : list MemoryRecord) (key : string * string) : option MemoryRecord :=
  find (fun r => bool_decide (record_identity r = key)) (rev records).

(** The conditions in order; the expiry is read only when the first three pass. *)
Definition ineligible (query : MemoryQuery) (record : MemoryRecord) : result MemoryStop bool :=
  if negb (me_namespace_id record =? mq_namespace_id query)%string
     || negb (bool_decide (me_scope record ∈ mq_allowed_scopes query)) || negb (record_active record) then Ok true
  else
    let? past := match me_expires_at_utc record with
                 | Some expiry => expired expiry (mq_as_of_utc query)
                 | None => Ok false
                 end in
    Ok (past || bool_decide (me_sensitivity record = Restricted) && negb (mq_include_restricted query)).

Definition RetrievalState : Type := gset (string * string) * list (MemoryRecord * MemoryScore).

Definition score_step (records : list MemoryRecord) (query : MemoryQuery) (state : RetrievalState) (score : MemoryScore)
    : result MemoryStop RetrievalState :=
  let '(seen, eligible) := state in
  let key := score_identity score in
  reject MemoryRefused InvalidMemory when bool_decide (key ∈ seen);
  let? record := ok_or (record_by_identity records key) (MemoryRefused CorruptMemoryState) in
  let? skip := ineligible query record in
  if skip : bool then Ok ({[key]} ∪ seen, eligible)
  else
    reject MemoryRefused InvalidMemory when
      is_some_and (fun text => negb (str_len text =? sc_content_byte_length score)) (ct_inline_utf8 (me_content record));
    Ok ({[key]} ∪ seen, eligible ++ [(record, score)]).

(** Descending relevance, then the identities. *)
Definition match_key (p : MemoryRecord * MemoryScore) : Z * (string * string) :=
  (- sc_relevance_basis_points p.2, record_identity p.1).

Definition match_of (p : MemoryRecord * MemoryScore) : MemoryMatch :=
  mkMatch (me_record_id p.1) (me_revision_id p.1) (me_kind p.1) (me_content p.1) (sc_content_byte_length p.2)
    (me_evidence p.1) (sc_relevance_basis_points p.2) (me_sensitivity p.1).

Definition retrieve_memory (records : list MemoryRecord) (scores : list MemoryScore) (query : MemoryQuery)
    : result MemoryStop MemoryRetrieval :=
  let? state := try_fold (score_step records query) (∅, []) scores in
  let '(taken, truncated) := take_within (fun p => sc_content_byte_length p.2) (mq_max_results query)
      (mq_max_total_bytes query) 0 0 (sort_by_key match_key state.2) in
  Ok (mkRetrieval (match_of <$> taken) truncated).
End retrieval.
