(* ===== verification/MemoryTheorems.v ===== *)
(** * Memory: the history of records, the lifecycle and retrieval *)

From S2P Require Import Prelude Json Text Order ToolSchema ToolPrepared Checks MemoryTypes MemoryStore.

(** ** The first element a search finds *)

Section update_first.
Context {A : Type} (p : A -> bool) (f : A -> A).

Lemma update_first_none l : find p l = None -> update_first p f l = l.
Proof. induction l as [|x l IH]; cbn [update_first find]; [done|]. destruct (p x); [done|]. intros Hn. by rewrite IH. Qed.

Lemma update_first_filter (P : A -> Prop) `{!forall x, Decision (P x)} l :
  (forall x, P (f x) <-> P x) -> (forall x, p x = true -> P x) ->
  filter P (update_first p f l) = update_first p f (filter P l).
Proof.
  intros Hf Hp. induction l as [|x l IH]; cbn [update_first find]; [done|]. destruct (p x) eqn:Hx.
  - assert (P x) by auto. rewrite !filter_cons_True by (try done; by apply Hf). cbn [update_first]. by rewrite Hx.
  - destruct (decide (P x)).
    + rewrite !filter_cons_True by done. cbn [update_first find]. by rewrite Hx, IH.
    + by rewrite !filter_cons_False by done.
Qed.

Lemma update_first_filter_other (P : A -> Prop) `{!forall x, Decision (P x)} l :
  (forall x, P (f x) <-> P x) -> (forall x, p x = true -> ~ P x) -> filter P (update_first p f l) = filter P l.
Proof.
  intros Hf Hp. induction l as [|x l IH]; cbn [update_first find]; [done|]. destruct (p x) eqn:Hx.
  - by rewrite !filter_cons_False by (rewrite ?Hf; auto).
  - destruct (decide (P x)); [rewrite !filter_cons_True by done|rewrite !filter_cons_False by done]; by rewrite IH.
Qed.

Lemma find_filter (P : A -> Prop) `{!forall x, Decision (P x)} l :
  (forall x, p x = true -> P x) -> find p (filter P l) = find p l.
Proof.
  intros Hp. induction l as [|x l IH]; cbn [update_first find]; [done|]. destruct (decide (P x)).
  - rewrite filter_cons_True by done. cbn [update_first find]. by rewrite IH.
  - rewrite filter_cons_False by done. destruct (p x) eqn:Hx; [by apply Hp in Hx|done].
Qed.

Lemma update_first_fmap {B} (g : A -> B) l : (forall x, g (f x) = g x) -> g <$> update_first p f l = g <$> l.
Proof.
  intros Hg. induction l as [|x l IH]; cbn [update_first find]; [done|]. destruct (p x); cbn [fmap list_fmap]; rewrite ?fmap_cons; [by rewrite Hg|].
  f_equal. exact IH.
Qed.

Lemma update_first_forall2 (R : A -> A -> Prop) l : (forall x, R x x) -> (forall x, find p l = Some x -> R x (f x)) ->
  Forall2 R l (update_first p f l).
Proof.
  intros Hr. induction l as [|x l IH]; cbn; [constructor|]. destruct (p x); intros Hf.
  - constructor; [by apply Hf|]. clear -Hr. induction l; constructor; auto.
  - constructor; auto.
Qed.
End update_first.

(** ** The history of a record *)

(** The revisions of one record, oldest first: each names the one it superseded,
    only the last may be active, and the last is never superseded. *)
Definition supersedes_of (previous : option MemoryRecord) : option string :=
  match previous with
  | Some p => if bool_decide (me_status p = StatusSuperseded) then Some (me_revision_id p) else None
  | None => None
  end.
Fixpoint chain (previous : option MemoryRecord) (revisions : list MemoryRecord) : Prop :=
  match revisions with
  | [] => True
  | r :: later =>
      me_supersedes_revision_id r = supersedes_of previous
      /\ match later with [] => me_status r <> StatusSuperseded | _ => me_status r <> StatusActive end
      /\ chain (Some r) later
  end.

Definition revisions_of (s : MemoryState) (record_id : string) : list MemoryRecord :=
  filter (fun r => me_record_id r = record_id) (ms_revisions s).

Lemma chain_commit l : forall previous new, l <> [] -> chain previous l -> me_status new = StatusActive ->
  me_supersedes_revision_id new = me_revision_id <$> find record_active l ->
  chain previous (update_first record_active (set_status StatusSuperseded) l ++ [new]).
Proof.
  induction l as [|r later IH]; intros previous new Hne Hc Hs Hnew; [done|].
  destruct Hc as (Hsup & Hlast & Hc). cbn [find update_first] in *. unfold record_active in *.
  destruct later as [|r' later].
  - case_bool_decide as Ha; cbn in *; rewrite Hnew, Hs; [by rewrite bool_decide_true|].
    by rewrite bool_decide_false.
  - rewrite bool_decide_false in * by done. cbn [app]. split_and!; [done| |by apply IH].
    destruct (update_first _ _ (r' :: later) ++ [new]) eqn:Heq; [by apply app_nil in Heq as [_ ?]|done].
Qed.

Lemma chain_tombstone (p : MemoryRecord -> bool) l : forall previous r, chain previous l -> find p l = Some r ->
  record_active r = true -> chain previous (update_first p (set_status StatusTombstoned) l).
Proof.
  unfold record_active.
  induction l as [|x later IH]; intros previous r Hc Hf Ha; [done|]. destruct Hc as (Hsup & Hlast & Hc).
  cbn [find update_first] in *. destruct (p x) eqn:Hp.
  - injection Hf as ->. apply bool_decide_eq_true in Ha. destruct later; [|done]. done.
  - split_and!; [done| |by eapply IH]. destruct later as [|x' later]; [done|]. cbn. by destruct (p x').
Qed.

(** ** Steps of the state *)

(** A revision as a later state keeps it: only its status may change, and only
    from active. *)
Definition kept (r r' : MemoryRecord) : Prop :=
  r' = set_status (me_status r') r /\ (me_status r <> StatusActive -> r' = r).

Section state.
Context `{Externals}.

Definition memory_step (s s' : MemoryState) : Prop :=
  (exists proposal commit outcome, memory_commit s proposal commit = Ok (outcome, s'))
  \/ (exists target, tombstone s target = Ok s').

Record memory_wf (s : MemoryState) : Prop := {
  wf_identities : NoDup (record_identity <$> ms_revisions s);
  wf_chains : forall record_id, chain None (revisions_of s record_id);
}.

Lemma set_status_same r : set_status (me_status r) r = r.
Proof. by destruct r. Qed.
Lemma kept_refl r : kept r r.
Proof. split; [by rewrite set_status_same|done]. Qed.
Lemma kept_set status r : record_active r = true -> kept r (set_status status r).
Proof. unfold record_active. intros Ha%bool_decide_eq_true. split; [done|]. intros Hn. by destruct Hn. Qed.
Lemma kept_trans r1 r2 r3 : kept r1 r2 -> kept r2 r3 -> kept r1 r3.
Proof.
  intros [H1 H2] [H3 H4]. split; [rewrite H3; by rewrite H1|]. intros Hn. specialize (H2 Hn) as ->. by apply H4.
Qed.

(** The fields of an accepted commit. *)
Lemma memory_commit_inv s proposal commit outcome s' : memory_commit s proposal commit = Ok (outcome, s') ->
  exists record, wo_record outcome = record /\ me_status record = StatusActive
    /\ record_identity record = (mc_record_id commit, mc_revision_id commit)
    /\ me_supersedes_revision_id record = (me_revision_id <$> find (active_revision_of (mc_record_id commit)) (ms_revisions s))
    /\ record_identity record ∉ (record_identity <$> ms_revisions s)
    /\ ms_revisions s' = update_first (active_revision_of (mc_record_id commit)) (set_status StatusSuperseded)
                           (ms_revisions s) ++ [record].
Proof.
  unfold memory_commit. destruct (_ || _) eqn:Hg; [done|]. destruct (memory_record_new _ _ _ _ _ _ _ _ _ _ _ _ _) as [record|] eqn:Hr; [|done].
  intros [= <- <-]. exists record. unfold memory_record_new in Hr. destruct (_ || _) in Hr; [done|]. injection Hr as <-.
  apply orb_false_iff in Hg as [Hg Hfresh]. apply orb_false_iff in Hg as [He Hsup].
  apply bool_decide_eq_false, dec_stable in Hsup. cbn. split_and!; try done.
  intros (r & Heq & Hin)%list_elem_of_fmap. apply not_true_iff_false in Hfresh. apply Hfresh.
  apply existsb_exists. exists r. split; [by apply list_elem_of_In|]. unfold revision_named.
  injection Heq as -> ->. by rewrite !String.eqb_refl.
Qed.

Lemma active_of_filter s record_id :
  find (active_revision_of record_id) (ms_revisions s) = find record_active (revisions_of s record_id).
Proof.
  unfold revisions_of. induction (ms_revisions s) as [|r l IH]; [done|]. cbn [find]. unfold active_revision_of at 1.
  destruct (decide (me_record_id r = record_id)) as [Heq|Hne].
  - rewrite filter_cons_True by done. cbn [find]. rewrite (proj2 (String.eqb_eq _ _) Heq). cbn [andb]. by rewrite IH.
  - rewrite filter_cons_False by done. rewrite (proj2 (String.eqb_neq _ _) Hne). by rewrite IH.
Qed.

#[local] Instance kept_preorder : PreOrder kept.
Proof. split; [intros r; apply kept_refl|intros r1 r2 r3; apply kept_trans]. Qed.

Lemma memory_step_wf s s' : memory_wf s -> memory_step s s' ->
  memory_wf s' /\ exists old new, Forall2 kept (ms_revisions s) old /\ ms_revisions s' = old ++ new.
Proof.
  intros [Hid Hch] [(proposal & commit & outcome & Hc)|(target & Ht)].
  - apply memory_commit_inv in Hc as (record & _ & Hst & Hident & Hsup & Hfresh & Hrev). rewrite active_of_filter in Hsup.
    assert (Hrid : me_record_id record = mc_record_id commit) by (by injection Hident).
    split; [split|].
    + rewrite Hrev, fmap_app, update_first_fmap by done. apply NoDup_app. split; [done|]. split; [intros x Hx ->%list_elem_of_singleton; done|].
      apply NoDup_singleton.
    + intros rid. unfold revisions_of. rewrite Hrev, filter_app.
      destruct (decide (me_record_id record = rid)) as [<-|Hne].
      * rewrite (filter_cons_True _ record) by done. rewrite filter_nil, Hrid, update_first_filter; [|done|].
        2: { intros x. unfold active_revision_of. intros [Hx _]%andb_true_iff. by apply String.eqb_eq in Hx. }
        fold (revisions_of s (mc_record_id commit)). specialize (Hch (mc_record_id commit)).
        assert (forall l, (forall x, x ∈ l -> me_record_id x = mc_record_id commit) ->
          update_first (active_revision_of (mc_record_id commit)) (set_status StatusSuperseded) l
          = update_first record_active (set_status StatusSuperseded) l) as Hsame.
        { clear. induction l as [|x l IH]; intros Hl; [done|]. cbn. unfold active_revision_of at 1.
          rewrite (proj2 (String.eqb_eq _ _) (Hl x ltac:(left))). cbn [andb]. rewrite IH; [done|]. intros y Hy. apply Hl. by right. }
        rewrite Hsame by (intros x Hx; by apply list_elem_of_filter in Hx as [? _]).
        destruct (revisions_of s (mc_record_id commit)) as [|r0 l] eqn:Hl.
        -- cbn in *. rewrite Hsup, Hst. done.
        -- apply chain_commit; [done|done|done|done].
      * rewrite (filter_cons_False _ record) by done. rewrite filter_nil, app_nil_r, update_first_filter_other; [apply Hch|done|].
        intros x. unfold active_revision_of. intros [Hx _]%andb_true_iff. apply String.eqb_eq in Hx. congruence.
    + eexists _, [record]. split; [|exact Hrev]. apply update_first_forall2; [apply kept_refl|].
      intros x Hx%find_some. apply kept_set. destruct Hx as [_ Hx]. unfold active_revision_of in Hx.
      by apply andb_true_iff in Hx as [_ ?].
  - unfold tombstone in Ht. destruct (find _ _) as [r|] eqn:Hf; [|done]. destruct (negb _) eqn:Ha; [done|].
    apply negb_false_iff in Ha. injection Ht as <-. split; [split|]; cbn [ms_revisions].
    + by rewrite update_first_fmap.
    + intros rid. unfold revisions_of. cbn [ms_revisions]. destruct (decide (tb_record_id target = rid)) as [<-|Hne].
      * rewrite update_first_filter; [|done|].
        2: { intros x. unfold revision_named. intros [Hx _]%andb_true_iff. by apply String.eqb_eq in Hx. }
        eapply chain_tombstone; [apply Hch| |exact Ha]. unfold revisions_of. rewrite find_filter; [exact Hf|].
        intros x. unfold revision_named. intros [Hx _]%andb_true_iff. by apply String.eqb_eq in Hx.
      * rewrite update_first_filter_other; [apply Hch|done|].
        intros x. unfold revision_named. intros [Hx _]%andb_true_iff. apply String.eqb_eq in Hx. congruence.
    + eexists _, []. rewrite app_nil_r. split; [|done]. apply update_first_forall2; [apply kept_refl|].
      intros x Hx. rewrite Hx in Hf. injection Hf as ->. by apply kept_set.
Qed.

Lemma chain_one_active l : forall previous, chain previous l -> (length (filter (fun r => record_active r = true) l) <= 1)%nat.
Proof.
  induction l as [|r later IH]; intros previous Hc; [by rewrite filter_nil; cbn; lia|]. destruct Hc as (_ & Hlast & Hc).
  rewrite filter_cons. destruct later as [|r' later]; [rewrite filter_nil; by case_decide; cbn; lia|].
  rewrite decide_False; [by eapply IH|]. unfold record_active. by rewrite bool_decide_eq_true.
Qed.

Lemma one_active_nodup l :
  (forall rid, (length (filter (fun r => record_active r = true) (filter (fun r => me_record_id r = rid) l)) <= 1)%nat) ->
  NoDup (me_record_id <$> filter (fun r => record_active r = true) l).
Proof.
  induction l as [|x l IH]; intros Hone; [constructor|].
  assert (NoDup (me_record_id <$> filter (fun r => record_active r = true) l)) as Hnd.
  { apply IH. intros rid. specialize (Hone rid). rewrite filter_cons in Hone. case_decide; [|done].
    rewrite filter_cons in Hone. case_decide; cbn in Hone; lia. }
  rewrite filter_cons. case_decide as Ha; [|done]. rewrite fmap_cons. constructor; [|done].
  intros (y & Heq & [Hya Hy]%list_elem_of_filter)%list_elem_of_fmap. specialize (Hone (me_record_id x)).
  rewrite filter_cons_True in Hone by done. rewrite filter_cons_True in Hone by done. cbn in Hone.
  assert (y ∈ filter (fun r => record_active r = true) (filter (fun r => me_record_id r = me_record_id x) l)) as Hin.
  { apply list_elem_of_filter. split; [done|]. by apply list_elem_of_filter. }
  destruct (filter _ (filter _ l)); [by apply elem_of_nil in Hin|]. cbn in Hone. lia.
Qed.

Lemma admit_revisions_ok l : forall identities active,
  is_ok (try_fold admit_revision (identities, active) l) = true <->
  NoDup (record_identity <$> l) /\ (forall r, r ∈ l -> record_identity r ∉ identities)
  /\ NoDup (me_record_id <$> filter (fun r => record_active r = true) l)
  /\ (forall r, r ∈ l -> record_active r = true -> me_record_id r ∉ active).
Proof.
  induction l as [|x l IH]; intros identities active.
  { cbn. split; [|done]. intros _. split_and!; try constructor; intros r Hr; by apply elem_of_nil in Hr. }
  cbn [try_fold]. unfold admit_revision at 1. rewrite fmap_cons, list.NoDup_cons, list_elem_of_fmap, filter_cons.
  case_bool_decide as Hx; [split; [done|]; intros (_ & Hn & _); by destruct (Hn x); [left|]|].
  destruct (record_active x) eqn:Ha; cbn [andb].
  - rewrite decide_True by done. rewrite fmap_cons, list.NoDup_cons, list_elem_of_fmap.
    case_bool_decide as Hxa; [split; [done|]; intros (_ & _ & _ & Hn); by destruct (Hn x); [left|done|]|].
    rewrite IH. setoid_rewrite not_elem_of_union. setoid_rewrite not_elem_of_singleton.
    setoid_rewrite elem_of_cons. setoid_rewrite list_elem_of_filter. split.
    + intros (Hid & Hni & Hac & Hna). split_and!; try done.
      * intros (y & Heq & Hy). by destruct (Hni y Hy) as [[] _].
      * intros r [->|Hr]; [done|]. by destruct (Hni r Hr).
      * intros (y & Heq & Hya & Hy). by destruct (Hna y Hy Hya) as [[] _].
      * intros r [->|Hr] Hra; [done|]. by destruct (Hna r Hr Hra).
    + intros ((Hx1 & Hid) & Hni & (Hx2 & Hac) & Hna). split_and!; try done.
      * intros r Hr. split; [|by apply Hni; right]. intros Heq. apply Hx1. by exists r.
      * intros r Hr Hra. split; [|by apply Hna; [right|]]. intros Heq. apply Hx2. by exists r.
  - rewrite decide_False by done. rewrite IH. setoid_rewrite not_elem_of_union. setoid_rewrite not_elem_of_singleton.
    setoid_rewrite elem_of_cons. split.
    + intros (Hid & Hni & Hac & Hna). split_and!; try done.
      * intros (y & Heq & Hy). by destruct (Hni y Hy) as [[] _].
      * intros r [->|Hr]; [done|]. by destruct (Hni r Hr).
      * intros r [->|Hr] Hra; [congruence|]. by apply Hna.
    + intros ((Hx1 & Hid) & Hni & Hac & Hna). split_and!; try done.
      * intros r Hr. split; [|by apply Hni; right]. intros Heq. apply Hx1. by exists r.
      * intros r Hr. apply Hna. by right.
Qed.

Lemma memory_state_new_ok l s : memory_state_new l = Ok s <->
  s = mkMemoryState l /\ NoDup (record_identity <$> l) /\ NoDup (me_record_id <$> filter (fun r => record_active r = true) l).
Proof.
  pose proof (admit_revisions_ok l ∅ ∅) as Hok. unfold memory_state_new. destruct (try_fold _ _ _) as [seen|]; cbn in Hok.
  - destruct Hok as [(H1 & _ & H2 & _) _]; [done|]. naive_solver.
  - split; [done|]. intros (_ & H1 & H2). exfalso. assert (false = true) as Hf; [|done]. apply Hok. set_solver.
Qed.

Lemma memory_wf_accepted s : memory_wf s -> memory_state_new (ms_revisions s) = Ok s.
Proof.
  intros [Hid Hch]. apply memory_state_new_ok. split_and!; [by destruct s|done|].
  apply one_active_nodup. intros rid. apply (chain_one_active _ None). apply Hch.
Qed.

(** C13: In every state reached from the empty one the revisions of each record form a chain: each
    names the one it superseded, only the last may be active, and the constructor accepts the
    state; later states keep every revision and change only the status of an active one. *)
Theorem memory_store_history s s' :
  rtc memory_step memory_state_default s -> rtc memory_step s s' ->
  memory_state_new (ms_revisions s') = Ok s'
  /\ (forall record_id, chain None (revisions_of s' record_id))
  /\ exists old new, Forall2 kept (ms_revisions s) old /\ ms_revisions s' = old ++ new.
Proof.
  intros Hs. assert (memory_wf s) as Hwf.
  { refine (rtc_ind_r memory_wf _ _ _ s Hs); [by split; [constructor|intros rid; exact I]|].
    intros x y _ Hxy Hx. by apply (memory_step_wf x y). }
  intros Hss. assert (memory_wf s' /\ exists old new, Forall2 kept (ms_revisions s) old /\ ms_revisions s' = old ++ new)
    as [Hwf' Hkept].
  { refine (rtc_ind_r (fun x => memory_wf x /\ exists old new, Forall2 kept (ms_revisions s) old /\ ms_revisions x = old ++ new) _ _ _ s' Hss).
    - split; [done|]. exists (ms_revisions s), []. rewrite app_nil_r. split; [|done].
      reflexivity.
    - intros x y _ Hxy [Hx (old & new & Hold & Hrev)].
      destruct (memory_step_wf x y Hx Hxy) as [Hy (old' & new' & Hold' & Hrev')]. split; [done|].
      rewrite Hrev in Hold'. apply Forall2_app_inv_l in Hold' as (o1 & o2 & H1 & H2 & ->).
      exists o1, (o2 ++ new'). rewrite Hrev', <-app_assoc. split; [|done].
      by transitivity old. }
  split_and!; [by apply memory_wf_accepted|by destruct Hwf'|done].
Qed.

(** A proposal and a commit as their constructors make them. *)
Definition proposal_constructed (p : MemoryProposal) : Prop :=
  memory_proposal_new (mp_proposal_id p) (mp_namespace_id p) (mp_scope p) (mp_kind p) (mp_content p) (mp_evidence p)
    (mp_sensitivity p) (mp_confidence_basis_points p) (mp_expected_active_revision_id p) = Ok p.
Definition commit_constructed (c : MemoryCommit) : Prop :=
  memory_commit_new (mc_record_id c) (mc_revision_id c) (mc_retention_policy_digest c) (mc_valid_from_position c)
    (mc_expires_at_utc c) (mc_supersedes_revision_id c) = Ok c.

Lemma memory_record_admitted p c : proposal_constructed p -> commit_constructed c ->
  is_ok (memory_record_new (mc_record_id c) (mc_revision_id c) (mp_namespace_id p) (mp_scope p) (mp_kind p) (mp_content p)
    (mp_evidence p) StatusActive (mp_sensitivity p) (mp_confidence_basis_points p) (mc_valid_from_position c)
    (mc_supersedes_revision_id c) (mc_expires_at_utc c)) = true.
Proof.
  unfold proposal_constructed, commit_constructed, memory_proposal_new, memory_commit_new, memory_record_new.
  intros Hp Hc. match type of Hp with (if ?g then _ else _) = _ => destruct g eqn:Gp; [done|] end.
  match type of Hc with (if ?g then _ else _) = _ => destruct g eqn:Gc; [done|] end.
  match goal with |- is_ok (if ?g then _ else _) = _ => destruct g eqn:Gr; [|done] end. exfalso. revert Gp Gc Gr. rewrite !orb_false_iff.
  intros (((((_ & Hn) & He) & Ho) & Hcf) & _) (((((Hr & Hv) & _) & Hz) & Ht) & Hs).
  rewrite Hn, He, Ho, Hcf, Hr, Hv, Hz, Ht. cbn. rewrite orb_false_r.
  destruct (mc_supersedes_revision_id c) as [rev|]; [|done]. cbn in *. by apply orb_false_iff in Hs as [-> _].
Qed.

Lemma superseded_inactive record_id l :
  NoDup (me_record_id <$> filter (fun r => record_active r = true) l) ->
  find (active_revision_of record_id) (update_first (active_revision_of record_id) (set_status StatusSuperseded) l) = None.
Proof.
  induction l as [|x l IH]; intros Hnd; [done|]. cbn [update_first].
  destruct (active_revision_of record_id x) eqn:Hx; cbn [find].
  - assert (active_revision_of record_id (set_status StatusSuperseded x) = false) as ->.
    { unfold active_revision_of, record_active. cbn. by rewrite andb_false_r. }
    unfold active_revision_of in Hx. apply andb_true_iff in Hx as [Hid%String.eqb_eq Ha].
    rewrite filter_cons_True, fmap_cons, list.NoDup_cons in Hnd by done. destruct Hnd as [Hnot _].
    destruct (find _ l) as [y|] eqn:Hf; [|done]. exfalso. apply find_some in Hf as [Hin Hy]. apply Hnot.
    unfold active_revision_of in Hy. apply andb_true_iff in Hy as [Hy%String.eqb_eq Hya].
    rewrite Hid, <-Hy. apply list_elem_of_fmap_2, list_elem_of_filter. split; [done|by apply list_elem_of_In].
  - rewrite Hx. apply IH. rewrite filter_cons in Hnd. case_decide; [|done].
    rewrite fmap_cons in Hnd. by apply list.NoDup_cons in Hnd as [_ ?].
Qed.

(** What a commit needs of the state: the active revision of the record is the one
    the proposal expects and the commit supersedes, and the revision is new. *)
Definition commit_admitted (s : MemoryState) (proposal : MemoryProposal) (commit : MemoryCommit) : Prop :=
  let active := find (active_revision_of (mc_record_id commit)) (ms_revisions s) in
  me_revision_id <$> active = mp_expected_active_revision_id proposal
  /\ me_revision_id <$> active = mc_supersedes_revision_id commit
  /\ (mc_record_id commit, mc_revision_id commit) ∉ record_identity <$> ms_revisions s.

Lemma commit_admitted_guard s proposal commit : commit_admitted s proposal commit <->
  bool_decide (me_revision_id <$> find (active_revision_of (mc_record_id commit)) (ms_revisions s) <> mp_expected_active_revision_id proposal)
    || bool_decide (me_revision_id <$> find (active_revision_of (mc_record_id commit)) (ms_revisions s) <> mc_supersedes_revision_id commit)
    || existsb (revision_named (mc_record_id commit) (mc_revision_id commit)) (ms_revisions s) = false.
Proof.
  unfold commit_admitted. rewrite !orb_false_iff, !bool_decide_eq_false.
  assert (existsb (revision_named (mc_record_id commit) (mc_revision_id commit)) (ms_revisions s) = false <->
          (mc_record_id commit, mc_revision_id commit) ∉ record_identity <$> ms_revisions s) as ->.
  { rewrite <-not_true_iff_false, existsb_exists, list_elem_of_fmap. apply not_iff_compat.
    unfold revision_named, record_identity. setoid_rewrite andb_true_iff. setoid_rewrite String.eqb_eq.
    setoid_rewrite list_elem_of_In. split; intros (x & Hx & Hy); exists x; naive_solver congruence. }
  destruct (decide (me_revision_id <$> find (active_revision_of (mc_record_id commit)) (ms_revisions s) = mp_expected_active_revision_id proposal)),
    (decide (me_revision_id <$> find (active_revision_of (mc_record_id commit)) (ms_revisions s) = mc_supersedes_revision_id commit));
    naive_solver.
Qed.

(** A constructed commit succeeds exactly when the active revision of its record is the one
    the proposal expects and the commit supersedes and its revision is new; it then becomes the
    active one, and in every other case the error is a revision conflict. *)
Theorem memory_commit_exact s proposal commit :
  memory_state_new (ms_revisions s) = Ok s -> proposal_constructed proposal -> commit_constructed commit ->
  (commit_admitted s proposal commit -> exists outcome s', memory_commit s proposal commit = Ok (outcome, s')
     /\ find (active_revision_of (mc_record_id commit)) (ms_revisions s') = Some (wo_record outcome)
     /\ record_identity (wo_record outcome) = (mc_record_id commit, mc_revision_id commit)
     /\ me_content (wo_record outcome) = mp_content proposal /\ me_evidence (wo_record outcome) = mp_evidence proposal
     /\ su_old_revision_id <$> wo_supersession outcome = mp_expected_active_revision_id proposal)
  /\ (~ commit_admitted s proposal commit -> memory_commit s proposal commit = Err RevisionConflict).
Proof.
  intros Hs Hp Hc. rewrite commit_admitted_guard. unfold memory_commit. split; intros Hg.
  - rewrite Hg. pose proof (memory_record_admitted _ _ Hp Hc) as Hr.
    destruct (memory_record_new _ _ _ _ _ _ _ _ _ _ _ _ _) as [record|] eqn:Hrec; [|done].
    unfold memory_record_new in Hrec. destruct (_ || _) in Hrec; [done|]. injection Hrec as <-.
    apply commit_admitted_guard in Hg as (He & Hsup & Hfresh). eexists _, _. split; [done|]. cbn.
    apply memory_state_new_ok in Hs as (_ & Hid & Hact).
    pose proof (superseded_inactive (mc_record_id commit) _ Hact) as Hnone.
    assert (forall l r, find (active_revision_of (mc_record_id commit)) l = None -> active_revision_of (mc_record_id commit) r = true ->
       find (active_revision_of (mc_record_id commit)) (l ++ [r]) = Some r) as Hlast.
    { clear. induction l as [|x l IH]; intros r; cbn; [by intros _ ->|]. destruct (active_revision_of _ x); [done|]. apply IH. }
    split_and!; try done.
    + apply Hlast; [done|]. unfold active_revision_of. cbn. by rewrite String.eqb_refl.
    + rewrite <-He. by destruct (find _ _).
  - apply not_false_iff_true in Hg. by rewrite Hg.
Qed.
End state.

(** ** Retrieval *)

Section retrieval.
Context `{Externals} (records : list MemoryRecord) (query : MemoryQuery).

(** What a query may see of a record. *)
Definition visible (r : MemoryRecord) : Prop :=
  me_namespace_id r = mq_namespace_id query /\ me_scope r ∈ mq_allowed_scopes query /\ me_status r = StatusActive
  /\ (forall expiry, me_expires_at_utc r = Some expiry ->
        exists t now, parse_rfc3339 expiry = Some t /\ parse_rfc3339 (mq_as_of_utc query) = Some now /\ now < t)
  /\ (me_sensitivity r = Restricted -> mq_include_restricted query = true).

(** The times that the constructors of records and queries check. *)
Definition times_checked : Prop :=
  is_some (canonical_utc (mq_as_of_utc query)) = true
  /\ forall r expiry, r ∈ records -> me_expires_at_utc r = Some expiry -> is_some (canonical_utc expiry) = true.

Definition score_admitted (s : MemoryScore) : Prop :=
  exists r, record_by_identity records (score_identity s) = Some r
    /\ (visible r -> forall text, ct_inline_utf8 (me_content r) = Some text -> str_len text = sc_content_byte_length s).

Definition scored_pair (s : MemoryScore) : option (MemoryRecord * MemoryScore) :=
  match record_by_identity records (score_identity s) with
  | Some r => match ineligible query r with Ok false => Some (r, s) | _ => None end
  | None => None
  end.

Lemma canonical_parses text : is_some (canonical_utc text) = true -> exists t, parse_rfc3339 text = Some t.
Proof. unfold canonical_utc. destruct (parse_rfc3339 text); [eauto|done]. Qed.

Lemma record_by_identity_elem key r : record_by_identity records key = Some r -> r ∈ records /\ record_identity r = key.
Proof.
  unfold record_by_identity. intros [Hin Hid]%find_some. apply bool_decide_eq_true in Hid.
  split; [|done]. by apply list_elem_of_In, in_rev.
Qed.

Lemma ineligible_spec r : times_checked -> r ∈ records ->
  exists b, ineligible query r = Ok b /\ (b = false <-> visible r).
Proof.
  intros [Hnow Hexp] Hr. apply canonical_parses in Hnow as [now Hnow].
  assert (exists past, match me_expires_at_utc r with Some expiry => expired expiry (mq_as_of_utc query) | None => Ok false end = Ok past
    /\ (past = false <-> forall expiry, me_expires_at_utc r = Some expiry ->
        exists t now, parse_rfc3339 expiry = Some t /\ parse_rfc3339 (mq_as_of_utc query) = Some now /\ now < t)) as (past & Hpast & Hp).
  { destruct (me_expires_at_utc r) as [expiry|] eqn:He; [|by exists false].
    destruct (canonical_parses expiry) as [t Ht]; [by apply (Hexp r)|]. unfold expired. rewrite Ht, Hnow. cbn.
    eexists. split; [done|]. rewrite Z.leb_gt. split; [naive_solver|].
    intros Hall. destruct (Hall expiry eq_refl) as (t' & now' & ? & ? & ?). by simplify_eq. }
  unfold ineligible, visible, record_active. rewrite Hpast. cbn.
  destruct (me_namespace_id r =? mq_namespace_id query)%string eqn:Hns; cbn.
  2: { eexists. split; [done|]. apply String.eqb_neq in Hns. naive_solver. }
  apply String.eqb_eq in Hns. case_bool_decide as Hscope; cbn; [|eexists; split; [done|]; naive_solver].
  case_bool_decide as Hst; cbn; [|eexists; split; [done|]; naive_solver].
  eexists. split; [done|]. rewrite orb_false_iff, andb_false_iff, bool_decide_eq_false, negb_false_iff, Hp.
  destruct (me_sensitivity r); naive_solver.
Qed.

Definition scores_admitted (seen : gset (string * string)) (scores : list MemoryScore) : Prop :=
  NoDup (score_identity <$> scores) /\ forall s, s ∈ scores -> (score_identity s ∉ seen) /\ score_admitted s.

Lemma scores_admitted_cons seen s scores : scores_admitted seen (s :: scores) <->
  (score_identity s ∉ seen) /\ score_admitted s /\ scores_admitted ({[score_identity s]} ∪ seen) scores.
Proof.
  unfold scores_admitted. rewrite fmap_cons, list.NoDup_cons, list_elem_of_fmap. setoid_rewrite elem_of_cons.
  setoid_rewrite not_elem_of_union. setoid_rewrite not_elem_of_singleton. split.
  - intros ((Hn & Hnd) & Hall). destruct (Hall s (or_introl eq_refl)). split_and!; try done.
    intros s' Hs'. destruct (Hall s' (or_intror Hs')). split_and!; try done. intros Heq. apply Hn. by exists s'.
  - intros (Hs & Ha & Hnd & Hall). split_and!; try done.
    + intros (s' & Heq & Hs'). by destruct (Hall s' Hs') as [[[] _] _].
    + intros s' [->|Hs']; [done|]. by destruct (Hall s' Hs') as [[_ ?] ?].
Qed.

Lemma score_fold_spec scores : times_checked -> forall seen el,
  match try_fold (score_step records query) (seen, el) scores with
  | Ok state => scores_admitted seen scores /\ state.2 = el ++ omap scored_pair scores
  | Err MemoryPanic => False
  | Err (MemoryRefused _) => ~ scores_admitted seen scores
  end.
Proof.
  intros Htimes. induction scores as [|s scores IH]; intros seen el; cbn [try_fold].
  { cbn. split; [split; [constructor|by intros s Hs%elem_of_nil]|by rewrite app_nil_r]. }
  pose proof (scores_admitted_cons seen s scores) as HA. set (A := scores_admitted seen (s :: scores)) in *. clearbody A.
  unfold score_step at 1. case_bool_decide as Hseen; [naive_solver|].
  destruct (record_by_identity records (score_identity s)) as [r|] eqn:Hrec; cbn [ok_or].
  2: { intros (_ & (r & Hr & _) & _)%HA. congruence. }
  destruct (ineligible_spec r Htimes) as (b & Hb & Hvis); [by eapply record_by_identity_elem|]. rewrite Hb.
  destruct b.
  - assert (score_admitted s) as Hsa by (exists r; split; [done|]; intros Hv%Hvis; done).
    assert (scored_pair s = None) as Hp by (unfold scored_pair; by rewrite Hrec, Hb).
    specialize (IH ({[score_identity s]} ∪ seen) el). cbn [omap list_omap]. rewrite Hp.
    destruct (try_fold _ _ _) as [state|[code|]];
        [destruct IH as [IH Hst]; split; [by apply HA|exact Hst]|intros Ha%HA; apply IH, Ha|done].
  - destruct (is_some_and _ _) eqn:Hlen.
    + intros (_ & (r' & Hr' & Hv) & _)%HA. rewrite Hrec in Hr'. injection Hr' as <-.
      destruct (ct_inline_utf8 (me_content r)) as [text|]; [|done]. cbn in Hlen.
      apply negb_true_iff, Z.eqb_neq in Hlen. apply Hlen, Hv; [by apply Hvis|done].
    + assert (score_admitted s) as Hsa.
      { exists r. split; [done|]. intros _ text Htext. rewrite Htext in Hlen. by apply negb_false_iff, Z.eqb_eq in Hlen. }
      assert (scored_pair s = Some (r, s)) as Hp by (unfold scored_pair; by rewrite Hrec, Hb).
      specialize (IH ({[score_identity s]} ∪ seen) (el ++ [(r, s)])). cbn [omap list_omap]. rewrite Hp.
      rewrite <-app_assoc in IH. destruct (try_fold _ _ _) as [state|[code|]];
        [destruct IH as [IH Hst]; split; [by apply HA|exact Hst]|intros Ha%HA; apply IH, Ha|done].
Qed.

(** C14: A retrieval never panics and returns, in the order of relevance and identity and within
    both bounds, only records of the namespace and allowed scopes that are active, not expired,
    and restricted only under a grant; it fails exactly when a score is repeated, unknown or has
    the wrong length, the byte bound of the query being below the largest 64-bit count. *)
Theorem memory_retrieval_exact scores :
  times_checked -> 0 <= mq_max_results query -> 0 <= mq_max_total_bytes query < u64_max ->
  retrieve_memory records scores query <> Err MemoryPanic
  /\ (is_ok (retrieve_memory records scores query) = true <->
      NoDup (score_identity <$> scores) /\ forall s, s ∈ scores -> score_admitted s)
  /\ (forall result, retrieve_memory records scores query = Ok result -> exists taken rest,
       NoDup (taken ++ rest) /\ StronglySorted (key_le_of match_key) (taken ++ rest)
       /\ (forall r s, (r, s) ∈ taken ++ rest <->
             s ∈ scores /\ record_by_identity records (score_identity s) = Some r /\ visible r)
       /\ bounded_cut (fun p => sc_content_byte_length p.2) (mq_max_results query) (mq_max_total_bytes query) 0 0 taken rest
       /\ re_matches result = match_of <$> taken /\ re_truncated result = bool_decide (rest <> [])).
Proof.
  intros Ht Hn Hb. pose proof (score_fold_spec scores Ht ∅ []) as Hf. unfold retrieve_memory.
  destruct (try_fold _ _ _) as [state|[code|]]; [|split_and!; [done|split; [done|]|done]|done].
  2: { intros [Hnd Hall]. exfalso. apply Hf. split; set_solver. }
  destruct Hf as ((Hnd & Hall) & Hst). cbn [app] in Hst.
  destruct (take_within_spec (fun p : MemoryRecord * MemoryScore => sc_content_byte_length p.2) (mq_max_results query)
    (mq_max_total_bytes query) (sort_by_key match_key state.2) 0 0) as (rest & Hsplit & Hflag & Hcut); try lia.
  destruct (take_within _ _ _ _ _ _) as [taken truncated]. cbn in Hsplit, Hflag, Hcut.
  split_and!; [done|split; [set_solver|done]|]. intros result [= <-]. exists taken, rest. cbn. rewrite <-Hsplit.
  split_and!; try done.
  - rewrite sort_by_key_perm, Hst. apply (NoDup_fmap_1 snd).
    assert (snd <$> omap scored_pair scores = filter (fun s => is_some (scored_pair s) = true) scores) as ->.
    { clear. induction scores as [|s scores IH]; [done|]. cbn [omap list_omap]. rewrite filter_cons.
      destruct (scored_pair s) as [p|] eqn:Hp; cbn [is_some]; [rewrite decide_True by done|by rewrite decide_False].
      rewrite fmap_cons, IH. f_equal. unfold scored_pair in Hp. repeat case_match; by simplify_eq. }
    by apply NoDup_filter, (NoDup_fmap_1 score_identity).
  - apply sort_by_key_sorted.
  - intros r s. rewrite sort_by_key_perm, Hst, list_elem_of_omap. unfold scored_pair. split.
    + intros (s' & Hs' & Hp). destruct (record_by_identity records (score_identity s')) as [r'|] eqn:Hrec; [|done].
      destruct (ineligible_spec r' Ht) as (b & Hb' & Hvis); [by eapply record_by_identity_elem|].
      rewrite Hb' in Hp. destruct b; [done|]. injection Hp as -> ->. split_and!; [done|done|by apply Hvis].
    + intros (Hs & Hrec & Hv). exists s. split; [done|]. rewrite Hrec.
      destruct (ineligible_spec r Ht) as (b & Hb' & Hvis); [by eapply record_by_identity_elem|].
      rewrite Hb'. apply Hvis in Hv as ->. done.
Qed.
End retrieval.

(** ** The lifecycle of a hypothesis *)

(** The abstract machine: which event moves which state where. *)
Inductive hypothesis_step : HypothesisState -> LifecycleEvent -> HypothesisState -> Prop :=
  | step_verified s p : s = HypCandidate \/ s = HypActive \/ s = HypCold -> hypothesis_step s (EventVerified p) HypActive
  | step_falsified s p in_scope : s <> HypPromoted -> hypothesis_step s (EventFalsified p in_scope) s
  | step_neutral s p : s <> HypPromoted -> hypothesis_step s (EventNeutral p) s
  | step_cool p : hypothesis_step HypActive (EventCool p) HypCold
  | step_archive p : hypothesis_step HypCold (EventArchive p) HypArchived
  | step_promote s p receipt : s <> HypPromoted -> valid_sha256 receipt = true ->
      hypothesis_step s (EventPromote p (Some receipt)) HypPromoted.

Definition counts (class : LifecycleEvent -> bool) (events : list LifecycleEvent) : Z :=
  zsum_by (fun e => if class e then 1 else 0) events.
Definition is_verified (e : LifecycleEvent) : bool := match e with EventVerified _ => true | _ => false end.
Definition is_falsified (e : LifecycleEvent) : bool := match e with EventFalsified _ true => true | _ => false end.
Definition is_neutral (e : LifecycleEvent) : bool :=
  match e with EventFalsified _ false | EventNeutral _ => true | _ => false end.
Definition tally_after (t : EvidenceTally) (events : list LifecycleEvent) : EvidenceTally :=
  mkTally (ta_verified t + counts is_verified events) (ta_falsified t + counts is_falsified events)
    (ta_neutral t + counts is_neutral events).
Definition tally_u64 (t : EvidenceTally) : Prop :=
  is_u64 (ta_verified t) /\ is_u64 (ta_falsified t) /\ is_u64 (ta_neutral t).
Definition receipt_after (l : MemoryLifecycle) (e : LifecycleEvent) : option string :=
  match e with EventPromote _ receipt => receipt | _ => ml_promoted_knowledge_receipt_digest l end.

Lemma increment_ok v v' : 0 <= v -> increment v = Ok v' <-> v' = v + 1 /\ is_u64 (v + 1).
Proof.
  intros Hv. unfold increment, checked_add. destruct (checked_u64 (v + 1)) as [n|] eqn:Hn; cbn.
  - apply checked_u64_some in Hn as [<- Hn]. naive_solver.
  - split; [done|]. intros [-> Hu]. assert (checked_u64 (v + 1) = Some (v + 1)) by (by apply checked_u64_some). congruence.
Qed.

(** Both directions of an accepted event, of a refused one, and of a counter. *)
Ltac accepted_event :=
  split; [intros [= <- <- <- <- <- <-]; split_and!; try done; try lia; constructor; auto
         |intros (_ & Hs & [= -> -> ->] & _ & -> & ->); by inversion Hs].
Ltac refused_event := split; [done|]; intros (_ & Hs & _); inversion Hs; congruence.
Ltac tallied Hinc counter Hcounter :=
  destruct (Hinc counter) as [[-> Hu]|[-> Hu]];
    [by destruct Hcounter| |split; [done|]; intros (_ & _ & [= -> -> ->] & Hu' & _); tauto].

(** One accepted event, exactly. *)
Lemma lifecycle_apply_exact l e l' : tally_u64 (ml_tally l) ->
  lifecycle_apply l e = Ok l' <->
  ml_last_observed_position l < event_position e /\ hypothesis_step (ml_state l) e (ml_state l')
  /\ ml_tally l' = tally_after (ml_tally l) [e] /\ tally_u64 (ml_tally l')
  /\ ml_last_observed_position l' = event_position e /\ ml_promoted_knowledge_receipt_digest l' = receipt_after l e.
Proof.
  destruct l as [state [v f n] last digest], l' as [state' [v' f' n'] last' digest'].
  unfold tally_u64, tally_after, counts, zsum_by, receipt_after, lifecycle_apply. cbn. intros (Hv & Hf & Hn).
  assert (forall a, 0 <= a -> increment a = Ok (a + 1) /\ is_u64 (a + 1) \/ increment a = Err InvalidTransition /\ ~ is_u64 (a + 1)) as Hinc.
  { intros a Ha. pose proof (increment_ok a (a + 1) Ha) as Hi. unfold increment in *.
    destruct (checked_add a 1) eqn:Hc; cbn in *; [|right; naive_solver]. left. apply checked_u64_some in Hc as [<- Hu]. done. }
  destruct (event_position e <=? last) eqn:Hpos; [split; [done|]; intros (? & _); lia|].
  case_bool_decide as Hprom.
  { split; [done|]. subst. intros (_ & Hs & _). inversion Hs; naive_solver. }
  destruct e as [p|p [|]|p|p|p|p [receipt|]]; cbn in *; rewrite ?Z.add_0_r.
  - tallied Hinc v Hv. destruct state; cbn; try done; try accepted_event.
    split; [done|]. intros (_ & Hs & _). inversion Hs; naive_solver.
  - tallied Hinc f Hf. accepted_event.
  - tallied Hinc n Hn. accepted_event.
  - tallied Hinc n Hn. accepted_event.
  - case_bool_decide as Hst; subst; [accepted_event|refused_event].
  - case_bool_decide as Hst; subst; [accepted_event|refused_event].
  - destruct (valid_sha256 receipt) eqn:Hd; cbn; [accepted_event|refused_event].
  - refused_event.
Qed.

Inductive hypothesis_run : HypothesisState -> list LifecycleEvent -> HypothesisState -> Prop :=
  | run_nil s : hypothesis_run s [] s
  | run_cons s e s' events s'' : hypothesis_step s e s' -> hypothesis_run s' events s'' -> hypothesis_run s (e :: events) s''.

Lemma counts_nonneg class events : 0 <= counts class events.
Proof. apply zsum_by_nonneg. intros e. by destruct (class e). Qed.

Lemma tally_after_cons t e events : tally_after t (e :: events) = tally_after (tally_after t [e]) events.
Proof. unfold tally_after, counts, zsum_by. cbn. f_equal; lia. Qed.

Lemma tally_after_u64 t events : tally_u64 t -> tally_u64 (tally_after t events) ->
  forall before after, events = before ++ after -> tally_u64 (tally_after t before).
Proof.
  unfold tally_u64, tally_after, is_u64. cbn. intros Ht Ha before after ->. unfold counts in *. rewrite !zsum_by_app in Ha.
  pose proof (counts_nonneg is_verified before). pose proof (counts_nonneg is_falsified before).
  pose proof (counts_nonneg is_neutral before). pose proof (counts_nonneg is_verified after).
  pose proof (counts_nonneg is_falsified after). pose proof (counts_nonneg is_neutral after). unfold counts in *. lia.
Qed.

Lemma promoted_run_last s events : hypothesis_run s events HypPromoted -> s <> HypPromoted ->
  exists before p receipt, events = before ++ [EventPromote p (Some receipt)].
Proof.
  remember HypPromoted as final eqn:Hfinal. induction 1 as [s|s e s' events s'' Hs Hr IH]; intros Hn; [done|].
  destruct (decide (s' = HypPromoted)) as [->|Hne].
  - assert (events = []) as -> by (inversion Hr as [|? ? ? ? ? Hstep]; [done|]; subst; inversion Hstep; naive_solver).
    inversion Hs; subst; try done. by exists [], p, receipt.
  - subst. destruct IH as (before & p & receipt & ->); [done|done|]. by exists (e :: before), p, receipt.
Qed.

Lemma lifecycle_run_exact events : forall l l', tally_u64 (ml_tally l) -> try_fold lifecycle_apply l events = Ok l' ->
  hypothesis_run (ml_state l) events (ml_state l') /\ ml_tally l' = tally_after (ml_tally l) events
  /\ StronglySorted Z.lt (ml_last_observed_position l :: (event_position <$> events)) /\ tally_u64 (ml_tally l').
Proof.
  induction events as [|e events IH]; intros l l' Hu; cbn [try_fold].
  { intros [= <-]. split_and!; [constructor| |repeat constructor|done]. destruct l as [? [] ? ?].
    unfold tally_after, counts, zsum_by. cbn. f_equal; lia. }
  destruct (lifecycle_apply l e) as [l1|] eqn:Ha; [|done]. intros Hr.
  apply (lifecycle_apply_exact l e l1 Hu) in Ha as (Hpos & Hs & Ht & Hu1 & Hlast & _).
  apply IH in Hr as (Hrun & Ht' & Hsorted & Hu'); [|done]. rewrite Hlast in Hsorted. split_and!; [by econstructor| |..|done].
  - by rewrite Ht', Ht, <-tally_after_cons.
  - rewrite fmap_cons. constructor; [done|]. constructor; [done|]. apply StronglySorted_inv in Hsorted as [_ Hall].
    eapply Forall_impl; [exact Hall|]. cbn. lia.
Qed.

Lemma lifecycle_run_ok events : forall l, tally_u64 (ml_tally l) ->
  is_ok (try_fold lifecycle_apply l events) = true <->
  StronglySorted Z.lt (ml_last_observed_position l :: (event_position <$> events))
  /\ (exists s, hypothesis_run (ml_state l) events s) /\ tally_u64 (tally_after (ml_tally l) events).
Proof.
  intros l Hu. split.
  { intros Hok. destruct (try_fold lifecycle_apply l events) as [l'|] eqn:Hr; [|done].
    apply lifecycle_run_exact in Hr as (Hrun & Ht & Hs & Hu'); [|done]. split_and!; [done|by eexists|by rewrite <-Ht]. }
  revert l Hu. induction events as [|e events IH]; intros l Hu (Hsorted & [s Hrun] & Hua); [done|].
  inversion Hrun as [|? ? s1 ? ? Hs Hr]; subst. rewrite fmap_cons in Hsorted.
  apply StronglySorted_inv in Hsorted as [Hsorted Hall]. apply Forall_inv in Hall.
  set (l1 := mkLifecycle s1 (tally_after (ml_tally l) [e]) (event_position e) (receipt_after l e)).
  assert (tally_u64 (ml_tally l1)) as Hu1 by (by apply (tally_after_u64 _ (e :: events) Hu Hua [e] events)).
  cbn [try_fold]. assert (lifecycle_apply l e = Ok l1) as -> by (by apply lifecycle_apply_exact).
  apply IH; [done|]. split_and!; [done|by exists s|]. unfold l1. cbn [ml_tally]. by rewrite <-tally_after_cons.
Qed.

(** C15: A sequence of lifecycle events is accepted exactly when positions increase, the
    hypothesis machine has that run and no counter overflows; the tallies then count the events by
    class, and a promotion can only be the last event. *)
Theorem memory_lifecycle_refines l events :
  tally_u64 (ml_tally l) ->
  (is_ok (try_fold lifecycle_apply l events) = true <->
   StronglySorted Z.lt (ml_last_observed_position l :: (event_position <$> events))
   /\ (exists s, hypothesis_run (ml_state l) events s) /\ tally_u64 (tally_after (ml_tally l) events))
  /\ (forall l', try_fold lifecycle_apply l events = Ok l' ->
       hypothesis_run (ml_state l) events (ml_state l') /\ ml_tally l' = tally_after (ml_tally l) events
       /\ (ml_state l <> HypPromoted -> ml_state l' = HypPromoted ->
           exists before p receipt, events = before ++ [EventPromote p (Some receipt)])).
Proof.
  intros Hu. split; [by apply lifecycle_run_ok|]. intros l' Hl'.
  pose proof (lifecycle_run_exact events l l' Hu Hl') as (Hr & Ht & _). split_and!; try done.
  intros Hn Hp. rewrite Hp in Hr. by eapply promoted_run_last.
Qed.

(** ** Samples *)

Module MemorySample.
#[export] Instance externals : Externals :=
  {| sha256_hex := fun s => s; json_from_str := fun _ => None;
     parse_rfc3339 := fun s => Some (str_len s); to_rfc3339 := fun _ => "now" |}.
Definition digest : string := "0123456789abcdef0123456789abcdef0123456789abcdef0123456789abcdef".
Definition fact : DurableFactReference := mkDurableFact "s" 1 "f" digest.
Definition proposal (expected : option string) : MemoryProposal :=
  mkProposal "p" "n" NamespaceScope PreferenceKind (mkContent digest (Some "tabs") None) [fact] Ordinary 100 expected.
Definition commit_to (revision : string) (supersedes : option string) : MemoryCommit :=
  mkMemoryCommit "r" revision digest 1 None supersedes.
Definition run (s : MemoryState) (revision : string) (previous : option string) : MemoryState :=
  match memory_commit s (proposal previous) (commit_to revision previous) with Ok (_, s') => s' | Err _ => s end.
Definition first : MemoryState := run memory_state_default "1" None.
Definition second : MemoryState := run first "2" (Some "1").
End MemorySample.
#[local] Existing Instance MemorySample.externals.

Lemma memory_store_history_witness :
  (me_status <$> ms_revisions MemorySample.second) = [StatusSuperseded; StatusActive]
  /\ chain None (revisions_of MemorySample.second "r").
Proof.
  split; [done|]. destruct (memory_store_history MemorySample.first MemorySample.second) as (_ & Hchain & _).
  - apply rtc_once. left. by eexists (MemorySample.proposal None), (MemorySample.commit_to "1" None), _.
  - apply rtc_once. left. by eexists (MemorySample.proposal (Some "1")), (MemorySample.commit_to "2" (Some "1")), _.
  - apply Hchain.
Defined.

Lemma memory_commit_exact_witness :
  memory_commit MemorySample.first (MemorySample.proposal None) (MemorySample.commit_to "2" None) = Err RevisionConflict
  /\ exists outcome s', memory_commit MemorySample.first (MemorySample.proposal (Some "1")) (MemorySample.commit_to "2" (Some "1"))
       = Ok (outcome, s').
Proof.
  split.
  - apply (memory_commit_exact MemorySample.first (MemorySample.proposal None) (MemorySample.commit_to "2" None));
      [by vm_compute|by vm_compute|by vm_compute|]. intros (Hactive & _). by vm_compute in Hactive.
  - destruct (memory_commit_exact MemorySample.first (MemorySample.proposal (Some "1")) (MemorySample.commit_to "2" (Some "1")))
      as [Hok _]; [by vm_compute|by vm_compute|by vm_compute|].
    destruct Hok as (outcome & s' & Hok & _); [|by exists outcome, s'].
    split_and!; [done|done|]. change (record_identity <$> ms_revisions MemorySample.first) with [("r", "1")].
    by intros Hin%list_elem_of_singleton.
Defined.

Lemma memory_retrieval_exact_witness :
  let query := mkQuery "q" "n" [NamespaceScope] ContextPurpose "v1" (mkContent "d" None None) 1 "now" 5 100 false None in
  exists matches, retrieve_memory (ms_revisions MemorySample.second) [mkScore "r" "1" 10 4; mkScore "r" "2" 20 4] query
       = Ok (mkRetrieval matches false) /\ mm_revision_id <$> matches = ["2"] /\
  exists taken rest : list (MemoryRecord * MemoryScore), matches = match_of <$> taken /\ rest = [].
Proof.
  intros query.
  destruct (retrieve_memory (ms_revisions MemorySample.second) [mkScore "r" "1" 10 4; mkScore "r" "2" 20 4] query)
    as [result|e] eqn:Hr; [|by vm_compute in Hr].
  destruct (memory_retrieval_exact (ms_revisions MemorySample.second) query [mkScore "r" "1" 10 4; mkScore "r" "2" 20 4])
    as (_ & _ & Hx); [|done|done|].
  - split; [done|]. intros r expiry Hin Hexp. assert (Forall (fun r => me_expires_at_utc r = None) (ms_revisions MemorySample.second)) as Hnone
      by (vm_compute; repeat constructor). rewrite Forall_forall in Hnone. by rewrite (Hnone r Hin) in Hexp.
  - destruct (Hx result Hr) as (taken & rest & _ & _ & _ & _ & Hm & Hrest). vm_compute in Hr. injection Hr as <-.
    eexists. split_and!; [done|done|]. exists taken, rest. split; [done|].
    symmetry in Hrest. apply bool_decide_eq_false in Hrest. destruct rest; [done|by destruct Hrest].
Defined.

Lemma memory_lifecycle_refines_witness :
  let l := mkLifecycle HypCandidate (mkTally 0 0 0) 1 None in
  let events := [EventVerified 2; EventCool 3; EventPromote 5 (Some MemorySample.digest)] in
  exists l', try_fold lifecycle_apply l events = Ok l' /\ hypothesis_run HypCandidate events HypPromoted
    /\ ml_tally l' = mkTally 1 0 0.
Proof.
  intros l events. destruct (try_fold lifecycle_apply l events) as [l'|] eqn:Hr; [|by vm_compute in Hr].
  destruct (memory_lifecycle_refines l events) as [_ Hx]; [by unfold tally_u64, is_u64, u64_max; cbn|].
  destruct (Hx l' Hr) as (Hrun & Ht & _). exists l'. split; [done|]. split; [|done].
  vm_compute in Hr. injection Hr as <-. exact Hrun.
Defined.
