(* ===== verification/MemoryRecall.v ===== *)
(** * Recall selection and its evaluation
    ([engine/memory/src/recall.rs], [recall_quality.rs], [feedback_quality.rs]) *)

From S2P Require Import Prelude Json Text Order ToolSchema ToolPrepared Checks MemoryTypes MemoryStore.

(** ** Selection ([recall.rs]) *)

Definition MAX_MENU_LABEL_BYTES : Z := 256.
Definition MAX_RECALL_ITEMS : Z := 256.
Definition MAX_RECALL_BYTES : Z := 1048576.
Definition MAX_SCORE : Z := 10000.
Definition EXPLORATION_ALGORITHM : string := "hash-explore-v1".
Definition EXPLORATION_DOMAIN : string := "garive.memory-explore.v1".

Inductive RecallProduct := Menu | Detail.
#[export] Instance RecallProduct_eq_dec : EqDecision RecallProduct.
Proof. solve_decision. Defined.

Record RecallScore := mkRecallScore {
  rs_relevance : Z;
  rs_recency : Z;
  rs_importance : Z;
}.
#[export] Instance RecallScore_eq_dec : EqDecision RecallScore.
Proof. solve_decision. Defined.
Definition recall_score_valid (self : RecallScore) : bool :=
  (rs_relevance self <=? MAX_SCORE) && (rs_recency self <=? MAX_SCORE) && (rs_importance self <=? MAX_SCORE).
Definition recall_score_total (self : RecallScore) : Z := rs_relevance self + rs_recency self + rs_importance self.

Record MemoryRecallCandidate := mkRecallCandidate {
  ra_record_id : string;
  ra_revision_id : string;
  ra_memory_type : MemoryType;
  ra_role : MemoryKind;
  ra_authority : MemoryAuthority;
  ra_state : HypothesisState;
  ra_safe_label : string;
  ra_content_digest : string;
  ra_content_bytes : Z;
  ra_evidence_count : Z;
  ra_score : RecallScore;
}.
#[export] Instance MemoryRecallCandidate_eq_dec : EqDecision MemoryRecallCandidate.
Proof. solve_decision. Defined.

Definition recall_candidate_new (record_id revision_id : string) (memory_type : MemoryType) (role : MemoryKind)
    (authority : MemoryAuthority) (state : HypothesisState) (safe_label content_digest : string)
    (content_bytes evidence_count : Z) (score : RecallScore) : result MemoryErrorCode MemoryRecallCandidate :=
  reject InvalidMemory when
    negb (memory_valid_id record_id) || negb (memory_valid_id revision_id)
    || negb (valid_text safe_label MAX_MENU_LABEL_BYTES) || negb (valid_sha256 content_digest)
    || (content_bytes =? 0) || (evidence_count =? 0) || negb (recall_score_valid score);
  Ok (mkRecallCandidate record_id revision_id memory_type role authority state safe_label content_digest content_bytes
        evidence_count score).

Record RecallExploration := mkExploration {
  rx_algorithm_revision : string;
  rx_seed : Z;
  rx_slots : Z;
}.

Definition recall_exploration_new (algorithm_revision : string) (seed slots : Z)
    : result MemoryErrorCode RecallExploration :=
  reject SelectionUnreplayable when negb (algorithm_revision =? EXPLORATION_ALGORITHM)%string || (slots =? 0);
  Ok (mkExploration algorithm_revision seed slots).

Record RecallSelectionRequest := mkSelectionRequest {
  rq_product : RecallProduct;
  rq_allowed_types : list MemoryType;
  rq_allowed_roles : list MemoryKind;
  rq_allowed_states : list HypothesisState;
  rq_selection_policy_revision : string;
  rq_max_items : Z;
  rq_max_total_bytes : Z;
  rq_exploration : option RecallExploration;
}.

Definition selection_request_new (product : RecallProduct) (allowed_types : list MemoryType)
    (allowed_roles : list MemoryKind) (allowed_states : list HypothesisState) (selection_policy_revision : string)
    (max_items max_total_bytes : Z) (exploration : option RecallExploration)
    : result MemoryErrorCode RecallSelectionRequest :=
  reject InvalidMemory when
    vec_is_empty allowed_types || negb (ordered_unique allowed_types)
    || vec_is_empty allowed_roles || negb (ordered_unique allowed_roles)
    || vec_is_empty allowed_states || negb (ordered_unique allowed_states)
    || negb (valid_text selection_policy_revision MEMORY_MAX_REFERENCE_BYTES)
    || negb ((1 <=? max_items) && (max_items <=? MAX_RECALL_ITEMS))
    || negb ((1 <=? max_total_bytes) && (max_total_bytes <=? MAX_RECALL_BYTES));
  reject SelectionUnreplayable when
    bool_decide (HypPromoted ∈ allowed_states)
    || bool_decide (product = Menu) && bool_decide (HypArchived ∈ allowed_states)
    || bool_decide (HypCandidate ∈ allowed_states) && negb (is_some exploration)
    || is_some_and (fun item => max_items <? rx_slots item) exploration;
  Ok (mkSelectionRequest product allowed_types allowed_roles allowed_states selection_policy_revision max_items
        max_total_bytes exploration).

Inductive RecallSelectionKind := Ranked | Explored.

Record RecallSelectionItem := mkSelectionItem {
  si_candidate : MemoryRecallCandidate;
  si_kind : RecallSelectionKind;
  si_draw_hex : option string;
}.

Record RecallSelection := mkSelection {
  sl_items : list RecallSelectionItem;
  sl_truncated : bool;
}.

Definition candidate_identity (c : MemoryRecallCandidate) : string * string := (ra_record_id c, ra_revision_id c).

Definition recall_eligible (request : RecallSelectionRequest) (value : MemoryRecallCandidate) : bool :=
  bool_decide (ra_memory_type value ∈ rq_allowed_types request) && bool_decide (ra_role value ∈ rq_allowed_roles request)
  && bool_decide (ra_state value ∈ rq_allowed_states request).

Definition draw_key (p : MemoryRecallCandidate * string) : string * (string * string) := (p.2, candidate_identity p.1).
Definition rank_key (c : MemoryRecallCandidate) : Z * (Z * (Z * (Z * (string * string)))) :=
  (- recall_score_total (ra_score c), (- rs_relevance (ra_score c), (- rs_recency (ra_score c),
   (- rs_importance (ra_score c), candidate_identity c)))).

Section selection.
Context `{Externals}.

(** Sixteen hex digits of the digest of the parts, separated by zero bytes. *)
Definition exploration_draw (config : RecallExploration) (candidate : MemoryRecallCandidate) : string :=
  let zero := String Ascii.zero "" in
  substring 0 16 (sha256_hex (String.concat zero
    [EXPLORATION_DOMAIN; rx_algorithm_revision config; nat_to_string (rx_seed config);
     ra_record_id candidate; ra_revision_id candidate])).

(** [take(slots)] with the break at the first draw that would pass the bytes. *)
Definition explore (request : RecallSelectionRequest) (eligible : list MemoryRecallCandidate)
    : list (MemoryRecallCandidate * string) :=
  match rq_exploration request with
  | None => []
  | Some config =>
      let draws := (fun value => (value, exploration_draw config value))
                     <$> filter (fun value => ra_state value = HypCandidate) eligible in
      (take_within (fun p => ra_content_bytes p.1) (rx_slots config) (rq_max_total_bytes request) 0 0
         (sort_by_key draw_key draws)).1
  end.

Definition select_recall (candidates : list MemoryRecallCandidate) (request : RecallSelectionRequest)
    : result MemoryStop RecallSelection :=
  reject MemoryRefused InvalidMemory when negb (all_distinct (candidate_identity <$> candidates));
  let eligible := filter (fun value => recall_eligible request value = true) candidates in
  let explored := explore request eligible in
  let explored_ids := candidate_identity <$> explored.*1 in
  let ranked := sort_by_key rank_key
    (filter (fun value => ra_state value <> HypCandidate /\ candidate_identity value ∉ explored_ids) eligible) in
  let? ranked_capacity := ok_or (checked_sub (rq_max_items request) (Z.of_nat (length explored))) MemoryPanic in
  let explored_bytes := foldl (fun n p => saturating_add n (ra_content_bytes p.1)) 0 explored in
  let chosen := (take_within ra_content_bytes ranked_capacity (rq_max_total_bytes request) 0 explored_bytes ranked).1 in
  let items := ((fun c => mkSelectionItem c Ranked None) <$> chosen)
    ++ ((fun p => mkSelectionItem p.1 Explored (Some p.2)) <$> explored) in
  Ok (mkSelection items (bool_decide (length items < length eligible)%nat)).
End selection.

(** ** Pinned evaluation ([recall_quality.rs]) *)

Record RecallQualityIdentity := mkQualityIdentity {
  qi_record_id : string;
  qi_revision_id : string;
}.
#[export] Instance RecallQualityIdentity_eq_dec : EqDecision RecallQualityIdentity.
Proof. solve_decision. Defined.

Record RecallQualityCase := mkQualityCase {
  qc_case_id : string;
  qc_expected : list RecallQualityIdentity;
  qc_forbidden : list RecallQualityIdentity;
  qc_selected : list RecallQualityIdentity;
  qc_replay : list RecallQualityIdentity;
}.

Record RecallQualityRatio := mkRatio {
  ro_numerator : Z;
  ro_denominator : Z;
}.

Record RecallQualitySummary := mkQualitySummary {
  qs_cases : Z;
  qs_recall : option RecallQualityRatio;
  qs_precision : option RecallQualityRatio;
  qs_forbidden_admissions : Z;
  qs_replay_mismatches : Z;
}.

Definition valid_identity (value : RecallQualityIdentity) : bool :=
  negb (str_is_empty (qi_record_id value)) && negb (str_is_empty (qi_revision_id value)).
Definition quality_add (value : Z) (amount : nat) : result MemoryErrorCode Z :=
  ok_or (checked_add value (Z.of_nat amount)) InvalidMemory.
Definition quality_ratio (numerator denominator : Z) : option RecallQualityRatio :=
  if denominator =? 0 then None else Some (mkRatio numerator denominator).

Record QualityState := mkQualityState {
  qt_case_ids : gset string;
  qt_relevant : Z;
  qt_expected : Z;
  qt_selected : Z;
  qt_forbidden : Z;
  qt_replay_mismatches : Z;
}.

Definition quality_case_invalid (case : RecallQualityCase) : bool :=
  negb (all_distinct (qc_expected case)) || negb (all_distinct (qc_forbidden case))
  || negb (all_distinct (qc_selected case)) || negb (all_distinct (qc_replay case))
  || existsb (fun value => bool_decide (value ∈ qc_forbidden case)) (qc_expected case)
  || negb (forallb valid_identity (qc_expected case)) || negb (forallb valid_identity (qc_forbidden case))
  || negb (forallb valid_identity (qc_selected case)) || negb (forallb valid_identity (qc_replay case)).

Definition quality_step (s : QualityState) (case : RecallQualityCase) : result MemoryErrorCode QualityState :=
  reject InvalidMemory when
    str_is_empty (qc_case_id case) || bool_decide (qc_case_id case ∈ qt_case_ids s) || quality_case_invalid case;
  let? expected := quality_add (qt_expected s) (length (qc_expected case)) in
  let? selected := quality_add (qt_selected s) (length (qc_selected case)) in
  let? relevant := quality_add (qt_relevant s) (length (filter (fun v => v ∈ qc_expected case) (qc_selected case))) in
  let? forbidden := quality_add (qt_forbidden s) (length (filter (fun v => v ∈ qc_forbidden case) (qc_selected case))) in
  let? mismatches := if bool_decide (qc_selected case <> qc_replay case) then quality_add (qt_replay_mismatches s) 1
                     else Ok (qt_replay_mismatches s) in
  Ok (mkQualityState ({[qc_case_id case]} ∪ qt_case_ids s) relevant expected selected forbidden mismatches).

Definition evaluate_recall_quality (cases : list RecallQualityCase) : result MemoryErrorCode RecallQualitySummary :=
  let? s := try_fold quality_step (mkQualityState ∅ 0 0 0 0 0) cases in
  Ok (mkQualitySummary (Z.of_nat (length cases)) (quality_ratio (qt_relevant s) (qt_expected s))
        (quality_ratio (qt_relevant s) (qt_selected s)) (qt_forbidden s) (qt_replay_mismatches s)).

(** ** Feedback from applied recalls ([feedback_quality.rs]) *)

Definition MAX_FEEDBACK_ROWS : Z := 4096.

Inductive RecallFeedbackOutcome := OutcomeVerified | OutcomeFalsified | OutcomeNeutral.
#[export] Instance RecallFeedbackOutcome_eq_dec : EqDecision RecallFeedbackOutcome.
Proof. solve_decision. Defined.

Record RecallFeedbackRow := mkFeedbackRow {
  fr_exposure_id : string;
  fr_selection_id : string;
  fr_record_id : string;
  fr_revision_id : string;
  fr_applied : bool;
  fr_outcome : option RecallFeedbackOutcome;
}.

Record RecallFeedbackQualityRequest := mkFeedbackRequest {
  fq_policy_revision : string;
  fq_candidate_port_revision : string;
  fq_attribution_policy_revision : string;
  fq_verifier_revision : string;
  fq_corpus_digest : string;
  fq_rows : list RecallFeedbackRow;
}.

Record RecallFeedbackQualitySummary := mkFeedbackSummary {
  fs_exposures : Z;
  fs_applications : Z;
  fs_censored : Z;
  fs_pending : Z;
  fs_verified : Z;
  fs_falsified : Z;
  fs_neutral : Z;
  fs_application_ratio : option RecallQualityRatio;
  fs_verified_outcome_ratio : option RecallQualityRatio;
}.

Definition count_rows (p : RecallFeedbackRow -> bool) (rows : list RecallFeedbackRow) : Z :=
  Z.of_nat (length (filter (fun row => p row = true) rows)).
Definition outcomes (request : RecallFeedbackQualityRequest) (expected : RecallFeedbackOutcome) : Z :=
  count_rows (fun row => bool_decide (fr_outcome row = Some expected)) (fq_rows request).

Definition untrimmed (value : string) : bool := str_is_empty value || negb (is_trimmed value).

Definition evaluate_recall_feedback_quality (request : RecallFeedbackQualityRequest)
    : result MemoryErrorCode RecallFeedbackQualitySummary :=
  reject InvalidMemory when
    (MAX_FEEDBACK_ROWS <? Z.of_nat (length (fq_rows request))) || negb (valid_sha256 (fq_corpus_digest request))
    || existsb untrimmed [fq_policy_revision request; fq_candidate_port_revision request;
                          fq_attribution_policy_revision request; fq_verifier_revision request]
    || negb (ordered_unique (fr_exposure_id <$> fq_rows request))
    || existsb (fun row => existsb untrimmed [fr_exposure_id row; fr_selection_id row; fr_record_id row; fr_revision_id row]
                           || negb (fr_applied row) && is_some (fr_outcome row)) (fq_rows request);
  let applications := count_rows fr_applied (fq_rows request) in
  let verified := outcomes request OutcomeVerified in
  let falsified := outcomes request OutcomeFalsified in
  let neutral := outcomes request OutcomeNeutral in
  let exposures := Z.of_nat (length (fq_rows request)) in
  Ok (mkFeedbackSummary exposures applications (exposures - applications)
        (count_rows (fun row => fr_applied row && negb (is_some (fr_outcome row))) (fq_rows request))
        verified falsified neutral (quality_ratio applications exposures)
        (quality_ratio verified (verified + falsified))).

(** ** Recall selection: what is chosen, within which bounds *)

(** A request as its constructors make it, on machine-width numbers. *)
Definition selection_constructed (r : RecallSelectionRequest) : Prop :=
  selection_request_new (rq_product r) (rq_allowed_types r) (rq_allowed_roles r) (rq_allowed_states r)
    (rq_selection_policy_revision r) (rq_max_items r) (rq_max_total_bytes r) (rq_exploration r) = Ok r
  /\ (forall config, rq_exploration r = Some config -> 0 <= rx_slots config).

Lemma selection_bounds r : selection_constructed r ->
  1 <= rq_max_items r <= MAX_RECALL_ITEMS /\ 1 <= rq_max_total_bytes r <= MAX_RECALL_BYTES
  /\ (HypPromoted ∉ rq_allowed_states r)
  /\ (rq_product r = Menu -> HypArchived ∉ rq_allowed_states r)
  /\ (forall config, rq_exploration r = Some config -> 0 <= rx_slots config <= rq_max_items r)
  /\ (rq_exploration r = None -> HypCandidate ∉ rq_allowed_states r).
Proof.
  intros [Hc Hslots]. unfold selection_request_new in Hc.
  destruct (_ || _) eqn:H1 in Hc; [done|]. destruct (_ || _) eqn:H2 in Hc; [done|]. clear Hc.
  rewrite !orb_false_iff in H1, H2. destruct H1 as (((_ & _) & Hi) & Hb). destruct H2 as (((Hp & Hm) & Hcand) & Hs).
  apply negb_false_iff, andb_true_iff in Hi as [? ?], Hb as [? ?]. apply bool_decide_eq_false in Hp.
  split_and!; try lia; try done.
  - intros Hprod. rewrite bool_decide_true in Hm by done. by apply bool_decide_eq_false in Hm.
  - intros config He. pose proof (Hslots config He). rewrite He in Hs. cbn in Hs. lia.
  - intros He. rewrite He, andb_true_r in Hcand. by apply bool_decide_eq_false in Hcand.
Qed.

Section recall.
Context `{Externals}.
Implicit Types (candidates : list MemoryRecallCandidate) (request : RecallSelectionRequest).

Definition eligible_of request candidates : list MemoryRecallCandidate :=
  filter (fun value => recall_eligible request value = true) candidates.
Definition drawn request candidates : list (MemoryRecallCandidate * string) :=
  match rq_exploration request with
  | None => []
  | Some config => (fun value => (value, exploration_draw config value))
                     <$> filter (fun value => ra_state value = HypCandidate) (eligible_of request candidates)
  end.
Definition slots_of request : Z := match rq_exploration request with Some config => rx_slots config | None => 0 end.

(** The selection of a request, without the loops: of the candidates with a draw
    the leading ones within the slots, and of the others the leading ones by score
    within what is left of the bounds. *)
Record selected request candidates (selection : RecallSelection) : Prop := {
  sel_parts : exists chosen passed explored undrawn,
    sl_items selection = ((fun c => mkSelectionItem c Ranked None) <$> chosen)
      ++ ((fun p => mkSelectionItem p.1 Explored (Some p.2)) <$> explored)
    /\ explored ++ undrawn ≡ₚ drawn request candidates /\ StronglySorted (key_le_of draw_key) (explored ++ undrawn)
    /\ bounded_cut (fun p => ra_content_bytes p.1) (slots_of request) (rq_max_total_bytes request) 0 0 explored undrawn
    /\ chosen ++ passed ≡ₚ filter (fun value => ra_state value <> HypCandidate) (eligible_of request candidates)
    /\ StronglySorted (key_le_of rank_key) (chosen ++ passed)
    /\ bounded_cut ra_content_bytes (rq_max_items request - Z.of_nat (length explored)) (rq_max_total_bytes request) 0
         (zsum_by (fun p => ra_content_bytes p.1) explored) chosen passed;
  sel_truncated : sl_truncated selection
    = bool_decide (length (sl_items selection) < length (eligible_of request candidates))%nat;
}.

Lemma explore_spec request candidates : selection_constructed request ->
  Forall (fun c => 0 <= ra_content_bytes c) candidates ->
  exists undrawn, explore request (eligible_of request candidates) ++ undrawn ≡ₚ drawn request candidates
    /\ StronglySorted (key_le_of draw_key) (explore request (eligible_of request candidates) ++ undrawn)
    /\ bounded_cut (fun p => ra_content_bytes p.1) (slots_of request) (rq_max_total_bytes request) 0 0
         (explore request (eligible_of request candidates)) undrawn.
Proof.
  intros Hc Hpos. apply selection_bounds in Hc as (Hi & Hb & _ & _ & Hslots & _). unfold MAX_RECALL_BYTES in Hb.
  unfold explore, drawn, slots_of. destruct (rq_exploration request) as [config|].
  - specialize (Hslots config eq_refl). set (draws := _ <$> _).
    destruct (take_within_spec (fun p : MemoryRecallCandidate * string => ra_content_bytes p.1) (rx_slots config)
      (rq_max_total_bytes request) (sort_by_key draw_key draws) 0 0) as (undrawn & Hsplit & _ & Hcut); [unfold u64_max; lia|lia|lia|].
    exists undrawn. rewrite <-Hsplit. split_and!; [apply sort_by_key_perm|apply sort_by_key_sorted|done].
  - exists []. split_and!; [done|constructor|]. unfold bounded_cut. cbn. lia.
Qed.

Lemma drawn_candidate request candidates p : p ∈ drawn request candidates -> ra_state p.1 = HypCandidate.
Proof.
  unfold drawn. destruct (rq_exploration request); [|by intros Hp%elem_of_nil].
  intros (c & -> & Hc)%list_elem_of_fmap. by apply list_elem_of_filter in Hc as [? _].
Qed.

Lemma all_distinct_true {A} `{EqDecision A} (l : list A) : all_distinct l = true <-> NoDup l.
Proof. apply bool_decide_eq_true. Qed.

Lemma filter_ext_in {A} (P Q : A -> Prop) `{!forall x, Decision (P x), !forall x, Decision (Q x)} (l : list A) :
  (forall x, x ∈ l -> P x <-> Q x) -> filter P l = filter Q l.
Proof.
  induction l as [|x l IH]; intros Hpq; [done|]. rewrite !filter_cons, IH by (intros y Hy; apply Hpq; by right).
  destruct (decide (P x)) as [Hp|Hp], (decide (Q x)) as [Hq|Hq]; try done; exfalso;
    [apply Hq|apply Hp]; by apply (Hpq x); [left|].
Qed.

(** Explored candidates are no competitors of the ranked ones. *)
Lemma ranked_pool request candidates explored undrawn : NoDup (candidate_identity <$> candidates) ->
  explored ++ undrawn ≡ₚ drawn request candidates ->
  filter (fun value => ra_state value <> HypCandidate /\ candidate_identity value ∉ candidate_identity <$> explored.*1)
    (eligible_of request candidates)
  = filter (fun value => ra_state value <> HypCandidate) (eligible_of request candidates).
Proof.
  intros Hnd Hperm. apply filter_ext_in. intros c [_ Hc]%list_elem_of_filter. split; [by intros [? _]|].
  intros Hs. split; [done|]. intros (c' & Heq & (p & -> & Hp)%list_elem_of_fmap)%list_elem_of_fmap.
  assert (p ∈ drawn request candidates) as Hd by (rewrite <-Hperm; apply elem_of_app; by left).
  pose proof (drawn_candidate _ _ _ Hd) as Hst. unfold drawn in Hd.
  destruct (rq_exploration request); [|by apply elem_of_nil in Hd].
  apply list_elem_of_fmap in Hd as (c'' & -> & [_ [_ Hin]%list_elem_of_filter]%list_elem_of_filter). cbn in *.
  by rewrite (nodup_key_inj candidate_identity candidates c c'') in Hs.
Qed.

(** What the parts of a selection have in common with the request. *)
Lemma selected_bounded request candidates selection : selection_constructed request -> selected request candidates selection ->
  Z.of_nat (length (sl_items selection)) <= rq_max_items request
  /\ zsum_by (fun item => ra_content_bytes (si_candidate item)) (sl_items selection) <= rq_max_total_bytes request
  /\ forall item, item ∈ sl_items selection -> si_candidate item ∈ eligible_of request candidates.
Proof.
  intros Hc [(chosen & passed & explored & undrawn & -> & Hpe & _ & _ & Hpc & _ & Hcut) _].
  destruct Hcut as (Hcount & Hbytes & _). rewrite length_app, !length_fmap, zsum_by_app.
  assert (forall {A} (f : A -> RecallSelectionItem) l, zsum_by (fun item => ra_content_bytes (si_candidate item)) (f <$> l)
    = zsum_by (fun x => ra_content_bytes (si_candidate (f x))) l) as Hmap.
  { intros A f l. induction l as [|x l IH]; [done|]. rewrite fmap_cons. cbn. unfold zsum_by in IH. by rewrite IH. }
  rewrite !Hmap. cbn [si_candidate]. split_and!; [lia|unfold zsum_by in *; lia|].
  intros item [(c & -> & Hin)%list_elem_of_fmap|(p & -> & Hin)%list_elem_of_fmap]%elem_of_app; cbn.
  - assert (c ∈ chosen ++ passed) as Hc' by (apply elem_of_app; by left). rewrite Hpc in Hc'.
    by apply list_elem_of_filter in Hc' as [_ ?].
  - assert (p ∈ explored ++ undrawn) as Hp' by (apply elem_of_app; by left). rewrite Hpe in Hp'. unfold drawn in Hp'.
    destruct (rq_exploration request); [|by apply elem_of_nil in Hp'].
    apply list_elem_of_fmap in Hp' as (c & -> & Hc'). by apply list_elem_of_filter in Hc' as [_ ?].
Qed.

Lemma select_recall_spec request candidates : selection_constructed request ->
  Forall (fun c => 0 <= ra_content_bytes c) candidates -> NoDup (candidate_identity <$> candidates) ->
  exists selection, select_recall candidates request = Ok selection /\ selected request candidates selection.
Proof.
  intros Hc Hpos Hnd. destruct (explore_spec request candidates Hc Hpos) as (undrawn & Hperm & Hsorted & Hcut).
  pose proof (selection_bounds request Hc) as (Hi & Hb & _ & _ & Hslots & _). unfold MAX_RECALL_BYTES, MAX_RECALL_ITEMS in *.
  unfold select_recall. rewrite (proj2 (all_distinct_true _) Hnd). cbn [negb].
  fold (eligible_of request candidates). set (explored := explore request (eligible_of request candidates)) in *.
  pose proof Hcut as (Hcount & Hbytes & _). cbn in Hcount.
  assert (Z.of_nat (length explored) <= rq_max_items request) as Hlen.
  { unfold slots_of in Hcount. destruct (rq_exploration request) as [config|]; [|lia]. specialize (Hslots config eq_refl). lia. }
  assert (checked_sub (rq_max_items request) (Z.of_nat (length explored))
          = Some (rq_max_items request - Z.of_nat (length explored))) as ->.
  { apply checked_u64_some. split; [done|]. unfold is_u64, u64_max. lia. }
  cbn [ok_or]. rewrite (ranked_pool request candidates explored undrawn) by done.
  rewrite (saturating_sum (fun p : MemoryRecallCandidate * string => ra_content_bytes p.1)); [| |unfold u64_max; lia].
  2: { assert (Forall (fun p : MemoryRecallCandidate * string => 0 <= ra_content_bytes p.1) (explored ++ undrawn)) as Hall; [|by apply Forall_app in Hall as [? _]].
       rewrite Hperm. unfold drawn. destruct (rq_exploration request); [|constructor]. rewrite Forall_fmap, Forall_forall.
       intros c [_ [_ Hin]%list_elem_of_filter]%list_elem_of_filter. rewrite Forall_forall in Hpos. by apply Hpos. }
  set (pool := sort_by_key rank_key _).
  destruct (take_within_spec ra_content_bytes (rq_max_items request - Z.of_nat (length explored)) (rq_max_total_bytes request)
    pool 0 (0 + zsum_by (fun p : MemoryRecallCandidate * string => ra_content_bytes p.1) explored)) as (passed & Hsplit & _ & Hcut'); [unfold u64_max; lia|lia|lia|].
  eexists. split; [done|]. split; [|done]. eexists _, passed, explored, undrawn. cbn [sl_items]. split_and!; try done.
  - rewrite <-Hsplit. apply sort_by_key_perm.
  - rewrite <-Hsplit. apply sort_by_key_sorted.
Qed.

(** A recall selection holds the leading drawn candidates within the exploration slots and
    the leading ranked ones within what is left of the item and byte bounds, never a promoted one
    and, in a menu, never an archived one; it fails exactly when an identity is repeated. *)
Theorem recall_selection_exact request candidates :
  selection_constructed request -> Forall (fun c => 0 <= ra_content_bytes c) candidates ->
  (is_ok (select_recall candidates request) = true <-> NoDup (candidate_identity <$> candidates))
  /\ (forall e, select_recall candidates request = Err e -> e = MemoryRefused InvalidMemory)
  /\ (forall selection, select_recall candidates request = Ok selection ->
       selected request candidates selection
       /\ Z.of_nat (length (sl_items selection)) <= rq_max_items request
       /\ zsum_by (fun item => ra_content_bytes (si_candidate item)) (sl_items selection) <= rq_max_total_bytes request
       /\ forall item, item ∈ sl_items selection -> si_candidate item ∈ candidates
            /\ ra_state (si_candidate item) <> HypPromoted
            /\ (rq_product request = Menu -> ra_state (si_candidate item) <> HypArchived)).
Proof.
  intros Hc Hpos. pose proof (selection_bounds request Hc) as (_ & _ & Hprom & Harch & _).
  destruct (all_distinct (candidate_identity <$> candidates)) eqn:Hd.
  - apply all_distinct_true in Hd. destruct (select_recall_spec request candidates Hc Hpos Hd) as (selection & -> & Hsel).
    split_and!; [done|done|]. intros selection' [= <-].
    destruct (selected_bounded request candidates selection Hc Hsel) as (Hn & Hb & Hin). split_and!; try done.
    intros item [He Hitem]%Hin%list_elem_of_filter. unfold recall_eligible in He. bool_hyps. split_and!; try done.
    + intros Hst. by rewrite Hst in *.
    + intros Hm%Harch Hst. by rewrite Hst in *.
  - unfold select_recall. rewrite Hd. cbn. rewrite <-all_distinct_true, Hd. split_and!; [done|by intros e [= <-]|done].
Qed.
End recall.

(** The selection does not depend on the order the candidates come in. *)
Theorem recall_selection_order_free `{Externals} request candidates candidates' :
  selection_constructed request -> Forall (fun c => 0 <= ra_content_bytes c) candidates -> candidates' ≡ₚ candidates ->
  select_recall candidates' request = select_recall candidates request.
Proof.
  intros Hc Hpos Hp. destruct (all_distinct (candidate_identity <$> candidates)) eqn:Hd.
  2: { unfold select_recall. assert (all_distinct (candidate_identity <$> candidates') = false) as Hd'.
       { unfold all_distinct in *. rewrite bool_decide_eq_false in *. by rewrite Hp. }
       by rewrite Hd, Hd'. }
  apply all_distinct_true in Hd. assert (NoDup (candidate_identity <$> candidates')) as Hd' by (by rewrite Hp).
  assert (filter (fun value => recall_eligible request value = true) candidates'
          ≡ₚ filter (fun value => recall_eligible request value = true) candidates) as He by (by rewrite Hp).
  assert (forall c1 c2, c1 ∈ candidates' -> c2 ∈ candidates' -> candidate_identity c1 = candidate_identity c2 -> c1 = c2) as Hinj.
  { intros c1 c2 H1 H2. by apply (nodup_key_inj candidate_identity candidates'). }
  assert (explore request (filter (fun value => recall_eligible request value = true) candidates')
          = explore request (filter (fun value => recall_eligible request value = true) candidates)) as Hx.
  { unfold explore. destruct (rq_exploration request); [|done]. do 2 f_equal. apply sort_by_key_proper; [by rewrite He|].
    intros p1 p2 (c1 & -> & [_ [_ H1]%list_elem_of_filter]%list_elem_of_filter)%list_elem_of_fmap
      (c2 & -> & [_ [_ H2]%list_elem_of_filter]%list_elem_of_filter)%list_elem_of_fmap.
    unfold draw_key. cbn. intros [= _ Hid Hrev]. rewrite (Hinj c1 c2); [done|done|done|]. unfold candidate_identity. by f_equal. }
  unfold select_recall. rewrite (proj2 (all_distinct_true _) Hd), (proj2 (all_distinct_true _) Hd'), Hx. cbn [negb].
  destruct (ok_or _ _) as [capacity|]; [|done].
  rewrite (sort_by_key_proper rank_key _ (filter (fun value => ra_state value <> HypCandidate /\ candidate_identity value ∉
     candidate_identity <$> (explore request (filter (fun value => recall_eligible request value = true) candidates)).*1)
     (filter (fun value => recall_eligible request value = true) candidates))); [|by rewrite He|].
  - by rewrite (Permutation_length He).
  - intros c1 c2 [_ [_ H1]%list_elem_of_filter]%list_elem_of_filter [_ [_ H2]%list_elem_of_filter]%list_elem_of_filter.
    unfold rank_key. intros Heq. apply Hinj; [done|done|]. congruence.
Qed.

(** ** Evaluation *)

(** Every exposure is censored, pending or has one outcome. *)
Theorem feedback_quality_accounts request summary :
  evaluate_recall_feedback_quality request = Ok summary ->
  fs_exposures summary = fs_applications summary + fs_censored summary
  /\ fs_applications summary = fs_pending summary + fs_verified summary + fs_falsified summary + fs_neutral summary.
Proof.
  unfold evaluate_recall_feedback_quality. destruct (_ || _) eqn:Hg; [done|]. intros [= <-]. cbn. split; [lia|].
  rewrite !orb_false_iff in Hg. destruct Hg as (_ & Hrows). unfold outcomes, count_rows.
  induction (fq_rows request) as [|row rows IH]; [done|]. cbn [existsb] in Hrows. apply orb_false_iff in Hrows as [Hrow Hrows].
  apply orb_false_iff in Hrow as [_ Hrow]. specialize (IH Hrows). rewrite !filter_cons. cbv beta.
  destruct (fr_applied row), (fr_outcome row) as [[]|]; cbn [negb andb is_some] in Hrow; try done;
    repeat first [rewrite decide_True by done|rewrite decide_False by done]; cbn [length]; lia.
Qed.

Lemma filter_elem_le {A} `{EqDecision A} (l k : list A) : NoDup l ->
  (length (filter (fun v => v ∈ k) l) <= length l)%nat /\ (length (filter (fun v => v ∈ k) l) <= length k)%nat.
Proof.
  intros Hnd. split; [apply length_filter|]. apply submseteq_length, NoDup_submseteq; [by apply NoDup_filter|].
  intros v [? _]%list_elem_of_filter. done.
Qed.

Lemma quality_fold_bounded cases : forall s s', try_fold quality_step s cases = Ok s' ->
  0 <= qt_relevant s <= qt_expected s -> qt_relevant s <= qt_selected s -> 
  0 <= qt_relevant s' <= qt_expected s' /\ qt_relevant s' <= qt_selected s'.
Proof.
  induction cases as [|case cases IH]; intros s s'; cbn [try_fold]; [by intros [= <-]|].
  destruct (quality_step s case) as [s1|] eqn:Hs; [|done]. intros Hr H1 H2. apply (IH s1 s' Hr); unfold quality_step in Hs;
    (destruct (_ || _) eqn:Hg in Hs; [done|]); apply orb_false_iff in Hg as [_ Hg]; unfold quality_case_invalid in Hg;
    rewrite !orb_false_iff in Hg; destruct Hg as ((((((((_ & _) & Hsel) & _) & _) & _) & _) & _) & _);
    apply negb_false_iff, all_distinct_true in Hsel; destruct (filter_elem_le (qc_selected case) (qc_expected case) Hsel);
    unfold quality_add in Hs; repeat (destruct (checked_add _ _) eqn:? in Hs; [|done]; cbn [ok_or] in Hs);
    repeat match goal with Hc : checked_add _ _ = Some _ |- _ => apply checked_u64_some in Hc as [<- _] end;
    case_bool_decide; cbn in Hs; repeat (destruct (checked_add _ _) eqn:? in Hs; [|done]; cbn [ok_or] in Hs);
    injection Hs as <-; cbn; lia.
Qed.

(** Recall and precision are at most one. *)
Theorem recall_quality_ratios cases summary : evaluate_recall_quality cases = Ok summary ->
  forall ratio, qs_recall summary = Some ratio \/ qs_precision summary = Some ratio ->
  0 <= ro_numerator ratio <= ro_denominator ratio /\ ro_denominator ratio <> 0.
Proof.
  unfold evaluate_recall_quality. destruct (try_fold _ _ _) as [s|] eqn:Hf; [|done]. intros [= <-] ratio. cbn.
  apply quality_fold_bounded in Hf as [H1 H2]; [|cbn; lia|cbn; lia]. unfold quality_ratio.
  intros [Hr|Hr]; destruct (_ =? 0) eqn:Hz in Hr; try done; injection Hr as <-; cbn; lia.
Qed.

Module RecallSample.
#[export] Instance externals : Externals :=
  {| sha256_hex := fun s => s; json_from_str := fun _ => None; parse_rfc3339 := fun _ => None; to_rfc3339 := fun _ => "" |}.
Definition candidate (id : string) (state : HypothesisState) (bytes relevance : Z) : MemoryRecallCandidate :=
  mkRecallCandidate id "1" SemanticMemory PreferenceKind AgentLearned state id "d" bytes 1 (mkRecallScore relevance 0 0).
Definition candidates : list MemoryRecallCandidate :=
  [candidate "a" HypActive 10 5; candidate "b" HypActive 10 9; candidate "c" HypCandidate 10 0; candidate "d" HypActive 90 1].
Definition request : RecallSelectionRequest :=
  mkSelectionRequest Menu [SemanticMemory] [PreferenceKind] [HypCandidate; HypActive] "p" 3 100
    (Some (mkExploration EXPLORATION_ALGORITHM 7 1)).
End RecallSample.
#[local] Existing Instance RecallSample.externals.

Lemma recall_selection_exact_witness : exists selection,
  select_recall RecallSample.candidates RecallSample.request = Ok selection
  /\ (fun item => ra_record_id (si_candidate item)) <$> sl_items selection = ["b"; "a"; "c"]
  /\ sl_truncated selection = true /\ selected RecallSample.request RecallSample.candidates selection.
Proof.
  destruct (select_recall RecallSample.candidates RecallSample.request) as [selection|] eqn:Hs; [|by vm_compute in Hs].
  destruct (recall_selection_exact RecallSample.request RecallSample.candidates) as (_ & _ & Hx).
  - split; [by vm_compute|]. intros config [= <-]. done.
  - by repeat constructor.
  - destruct (Hx selection Hs) as (Hsel & _). exists selection. split; [done|].
    vm_compute in Hs. injection Hs as Hs. rewrite <-Hs in Hsel |- *. done.
Defined.
