(* ===== verification/MemoryReview.v ===== *)
(** * Review of memories: observations, candidates, promotion, audit and erasure
    ([engine/memory/src/observation.rs], [maintenance.rs], [promotion.rs], [audit.rs], [erasure.rs]) *)

From S2P Require Import Prelude Json Text Order ToolSchema ToolPrepared Checks MemoryTypes.

(** ** Observations ([observation.rs]) *)

Definition MAX_OBSERVATION_EVIDENCE : Z := 64.
Definition MAX_REASON_BYTES : Z := 256.

Inductive ObservationEvidenceKind := ToolResult | TestResult | EffectReceipt | UserCorrection | DeterministicVerifier.
#[export] Instance ObservationEvidenceKind_eq_dec : EqDecision ObservationEvidenceKind.
Proof. solve_decision. Defined.
Definition evidence_kind_rank (k : ObservationEvidenceKind) : Z :=
  match k with ToolResult => 0 | TestResult => 1 | EffectReceipt => 2 | UserCorrection => 3 | DeterministicVerifier => 4 end.
#[export] Instance Ord_evidence_kind : Ord ObservationEvidenceKind.
Proof. refine (Ord_view evidence_kind_rank _). by intros [] []. Defined.

Record ObservationEvidence := mkObservationEvidence {
  oe_kind : ObservationEvidenceKind;
  oe_fact : DurableFactReference;
}.
#[export] Instance Ord_observation_evidence : Ord ObservationEvidence.
Proof. refine (Ord_view (fun e => (oe_kind e, oe_fact e)) _). intros [] [] [=]; by subst. Defined.

Record MemoryObligation := mkObligation {
  ob_obligation_id : string;
  ob_record_id : string;
  ob_revision_id : string;
  ob_recall_fact : DurableFactReference;
  ob_selection_id : string;
  ob_application_fact : DurableFactReference;
  ob_expected_outcome_digest : string;
  ob_application_scope_digest : string;
  ob_attribution_policy_revision : string;
  ob_expires_at_position : Z;
}.

Definition obligation_new (obligation_id record_id revision_id : string) (recall_fact : DurableFactReference)
    (selection_id : string) (application_fact : DurableFactReference)
    (expected_outcome_digest application_scope_digest attribution_policy_revision : string) (expires_at_position : Z)
    : result MemoryErrorCode MemoryObligation :=
  reject InvalidMemory when
    negb (memory_valid_id obligation_id) || negb (memory_valid_id record_id) || negb (memory_valid_id revision_id)
    || negb (memory_valid_id selection_id) || negb (valid_sha256 expected_outcome_digest)
    || negb (valid_sha256 application_scope_digest) || negb (valid_text attribution_policy_revision 512)
    || (df_position application_fact <=? df_position recall_fact)
    || (expires_at_position <=? df_position application_fact);
  Ok (mkObligation obligation_id record_id revision_id recall_fact selection_id application_fact
        expected_outcome_digest application_scope_digest attribution_policy_revision expires_at_position).

Inductive ObservationVerdict :=
  | VerdictVerified
  | VerdictFalsified (in_scope : bool) (observed_scope_digest : option string)
  | VerdictNeutral (safe_reason : string).

Record MemoryObservation := mkObservation {
  ov_observation_id : string;
  ov_obligation_id : string;
  ov_position : Z;
  ov_verifier_revision : string;
  ov_evidence : list ObservationEvidence;
  ov_verdict : ObservationVerdict;
}.

Definition observation_new (observation_id obligation_id : string) (position : Z) (verifier_revision : string)
    (evidence : list ObservationEvidence) (verdict : ObservationVerdict) : result MemoryErrorCode MemoryObservation :=
  reject InvalidMemory when
    negb (memory_valid_id observation_id) || negb (memory_valid_id obligation_id) || (position =? 0)
    || negb (valid_text verifier_revision 512) || vec_is_empty evidence
    || (MAX_OBSERVATION_EVIDENCE <? Z.of_nat (length evidence)) || negb (ordered_unique evidence);
  match verdict with
  | VerdictFalsified in_scope observed_scope_digest =>
      reject AttributionUnsupported when
        Bool.eqb in_scope (is_some observed_scope_digest)
        || is_some_and (fun digest => negb (valid_sha256 digest)) observed_scope_digest;
      Ok tt
  | VerdictNeutral safe_reason => if negb (valid_text safe_reason MAX_REASON_BYTES) then Err InvalidMemory else Ok tt
  | VerdictVerified => Ok tt
  end ?;
  Ok (mkObservation observation_id obligation_id position verifier_revision evidence verdict).

Record ScopeNarrowingCandidate := mkNarrowing {
  sn_record_id : string;
  sn_revision_id : string;
  sn_application_scope_digest : string;
  sn_observed_scope_digest : string;
  sn_evidence : list ObservationEvidence;
}.

Record ObservationReduction := mkReduction {
  or_lifecycle : MemoryLifecycle;
  or_narrowing : option ScopeNarrowingCandidate;
}.

Definition reduce_observation (obligation : MemoryObligation) (observation : MemoryObservation)
    (lifecycle : MemoryLifecycle) : result MemoryErrorCode ObservationReduction :=
  reject AttributionUnsupported when negb (ov_obligation_id observation =? ob_obligation_id obligation)%string;
  reject InvalidTransition when ob_expires_at_position obligation <? ov_position observation;
  let? (event, narrowing) :=
    match ov_verdict observation with
    | VerdictVerified => Ok (EventVerified (ov_position observation), None)
    | VerdictFalsified true _ => Ok (EventFalsified (ov_position observation) true, None)
    | VerdictFalsified false (Some observed) =>
        Ok (EventFalsified (ov_position observation) false,
            Some (mkNarrowing (ob_record_id obligation) (ob_revision_id obligation)
                    (ob_application_scope_digest obligation) observed (ov_evidence observation)))
    | VerdictNeutral _ => Ok (EventNeutral (ov_position observation), None)
    | VerdictFalsified false None => Err AttributionUnsupported
    end in
  let? lifecycle := lifecycle_apply lifecycle event in
  Ok (mkReduction lifecycle narrowing).

(** ** Candidates ([maintenance.rs]) *)

Definition MAX_CANDIDATE_EVIDENCE : Z := 64.

Inductive MemoryCandidateSource := ExplicitUserCommand | SessionEnd | ExitSummary | ScheduledDistillation.
#[export] Instance MemoryCandidateSource_eq_dec : EqDecision MemoryCandidateSource.
Proof. solve_decision. Defined.

Inductive MemoryCandidateIntent :=
  | Learn (memory_type : MemoryType) (role : MemoryKind) (authority : MemoryAuthorityBinding) (scope : MemoryScopeBinding)
      (content : ContentBinding) (content_bytes : Z) (evidence : list DurableFactReference)
  | Forget (record_id revision_id : string) (authority : MemoryAuthorityBinding).

Record MemoryCandidate := mkMemoryCandidate {
  ca_candidate_id : string;
  ca_namespace_id : string;
  ca_extractor_revision : string;
  ca_source : MemoryCandidateSource;
  ca_intent : MemoryCandidateIntent;
}.

Definition memory_candidate_new (candidate_id namespace_id extractor_revision : string) (source : MemoryCandidateSource)
    (intent : MemoryCandidateIntent) : result MemoryErrorCode MemoryCandidate :=
  reject InvalidMemory when
    negb (memory_valid_id candidate_id) || negb (memory_valid_id namespace_id)
    || negb (valid_text extractor_revision MEMORY_MAX_REFERENCE_BYTES);
  match intent with
  | Learn _ _ authority _ content content_bytes evidence =>
      let expected := if bool_decide (source = ExplicitUserCommand) then UserDeclared else AgentLearned in
      reject InvalidMemory when
        bool_decide (ab_authority authority <> expected) || (content_bytes =? 0) || vec_is_empty evidence
        || (MAX_CANDIDATE_EVIDENCE <? Z.of_nat (length evidence)) || negb (ordered_unique evidence)
        || is_some_and (fun text => negb (str_len text =? content_bytes)) (ct_inline_utf8 content);
      Ok tt
  | Forget record_id revision_id authority =>
      reject InvalidMemory when
        bool_decide (source <> ExplicitUserCommand) || bool_decide (ab_authority authority <> UserDeclared)
        || negb (memory_valid_id record_id) || negb (memory_valid_id revision_id);
      Ok tt
  end ?;
  Ok (mkMemoryCandidate candidate_id namespace_id extractor_revision source intent).

Inductive CandidateStability := Confirmed | Uncertain.
#[export] Instance CandidateStability_eq_dec : EqDecision CandidateStability.
Proof. solve_decision. Defined.

Record AdmissionAssessment := mkAssessment {
  as_generalizable : bool;
  as_stability : CandidateStability;
  as_exact_duplicate_revision_id : option string;
  as_conflicting_active_revision_id : option string;
}.

Definition assessment_new (generalizable : bool) (stability : CandidateStability)
    (exact_duplicate_revision_id conflicting_active_revision_id : option string)
    : result MemoryErrorCode AdmissionAssessment :=
  reject InvalidMemory when
    is_some exact_duplicate_revision_id && is_some conflicting_active_revision_id
    || is_some_and (fun value => negb (memory_valid_id value)) exact_duplicate_revision_id
    || is_some_and (fun value => negb (memory_valid_id value)) conflicting_active_revision_id;
  Ok (mkAssessment generalizable stability exact_duplicate_revision_id conflicting_active_revision_id).

Inductive MaintenanceNoopCode := NotGeneralizable | UnstableDeferred | Duplicate.

Inductive MemoryMaintenanceDecision :=
  | Add (proposal_id : string)
  | Update (proposal_id expected_active_revision_id : string)
  | Delete (command_id record_id revision_id : string)
  | Noop (code : MaintenanceNoopCode).

Definition decide_candidate (candidate : MemoryCandidate) (assessment : option AdmissionAssessment) (decision_id : string)
    : result MemoryErrorCode MemoryMaintenanceDecision :=
  reject InvalidMemory when negb (memory_valid_id decision_id);
  match ca_intent candidate with
  | Forget record_id revision_id _ =>
      reject InvalidMemory when is_some assessment;
      Ok (Delete decision_id record_id revision_id)
  | Learn _ _ _ _ _ _ _ =>
      let? assessment := ok_or assessment InvalidMemory in
      if negb (as_generalizable assessment) then Ok (Noop NotGeneralizable)
      else if bool_decide (as_stability assessment = Uncertain) then Ok (Noop UnstableDeferred)
      else if is_some (as_exact_duplicate_revision_id assessment) then Ok (Noop Duplicate)
      else match as_conflicting_active_revision_id assessment with
           | Some revision => Ok (Update decision_id revision)
           | None => Ok (Add decision_id)
           end
  end.

Record DistillationWatermark := mkWatermark {
  dw_extractor_revision : string;
  dw_session_id : string;
  dw_through_position : Z;
  dw_batch_digest : string;
}.
#[export] Instance DistillationWatermark_eq_dec : EqDecision DistillationWatermark.
Proof. solve_decision. Defined.

Definition watermark_new (extractor_revision session_id : string) (through_position : Z) (batch_digest : string)
    : result MemoryErrorCode DistillationWatermark :=
  reject InvalidMemory when
    negb (valid_text extractor_revision MEMORY_MAX_REFERENCE_BYTES) || negb (memory_valid_id session_id)
    || (through_position =? 0) || negb (valid_sha256 batch_digest);
  Ok (mkWatermark extractor_revision session_id through_position batch_digest).

Inductive WatermarkDisposition := Advanced | Replayed.
#[export] Instance WatermarkDisposition_eq_dec : EqDecision WatermarkDisposition.
Proof. solve_decision. Defined.

Definition advance_distillation (prior : option DistillationWatermark) (next : DistillationWatermark)
    : result MemoryErrorCode WatermarkDisposition :=
  match prior with
  | None => Ok Advanced
  | Some prior =>
      reject InvalidTransition when
        negb (dw_extractor_revision prior =? dw_extractor_revision next)%string
        || negb (dw_session_id prior =? dw_session_id next)%string
        || (dw_through_position next <? dw_through_position prior)
        || (dw_through_position next =? dw_through_position prior)
           && negb (dw_batch_digest next =? dw_batch_digest prior)%string;
      Ok (if dw_through_position next =? dw_through_position prior then Replayed else Advanced)
  end.

(** ** Promotion ([promotion.rs]) *)

Record MemoryPromotionPolicy := mkPromotionPolicy {
  py_revision : string;
  py_allowed_types : list MemoryType;
  py_min_verified : Z;
  py_max_falsified : Z;
  py_min_helpful_uses : Z;
}.

Definition promotion_policy_new (revision : string) (allowed_types : list MemoryType)
    (min_verified max_falsified min_helpful_uses : Z) : result MemoryErrorCode MemoryPromotionPolicy :=
  reject InvalidMemory when
    negb (valid_text revision MEMORY_MAX_REFERENCE_BYTES) || vec_is_empty allowed_types
    || negb (ordered_unique allowed_types);
  Ok (mkPromotionPolicy revision allowed_types min_verified max_falsified min_helpful_uses).

Record MemoryPromotionRequest := mkPromotionRequest {
  pr_request_id : string;
  pr_namespace_id : string;
  pr_record_id : string;
  pr_revision_id : string;
  pr_memory_type : MemoryType;
  pr_policy_revision : string;
  pr_knowledge_proposal_id : string;
  pr_evidence_digest : string;
}.

Definition request_memory_promotion (request_id namespace_id record_id revision_id : string) (memory_type : MemoryType)
    (lifecycle : MemoryLifecycle) (helpful_uses : Z) (policy : MemoryPromotionPolicy)
    (knowledge_proposal_id evidence_digest : string) : result MemoryErrorCode MemoryPromotionRequest :=
  reject InvalidMemory when
    existsb (fun value => negb (memory_valid_id value))
      [request_id; namespace_id; record_id; revision_id; knowledge_proposal_id]
    || negb (valid_sha256 evidence_digest);
  let tally := ml_tally lifecycle in
  reject PromotionNotEligible when
    negb (match ml_state lifecycle with HypActive | HypCold => true | _ => false end)
    || negb (bool_decide (memory_type ∈ py_allowed_types policy))
    || (ta_verified tally <? py_min_verified policy) || (py_max_falsified policy <? ta_falsified tally)
    || (helpful_uses <? py_min_helpful_uses policy);
  Ok (mkPromotionRequest request_id namespace_id record_id revision_id memory_type (py_revision policy)
        knowledge_proposal_id evidence_digest).

Record MemoryPromotionReceipt := mkPromotionReceipt {
  pt_request_id : string;
  pt_knowledge_proposal_id : string;
  pt_knowledge_record_id : string;
  pt_knowledge_revision_id : string;
  pt_receipt_digest : string;
}.

Definition promotion_receipt_new (request_id knowledge_proposal_id knowledge_record_id knowledge_revision_id
    receipt_digest : string) : result MemoryErrorCode MemoryPromotionReceipt :=
  reject InvalidMemory when
    existsb (fun item => negb (memory_valid_id item))
      [request_id; knowledge_proposal_id; knowledge_record_id; knowledge_revision_id]
    || negb (valid_sha256 receipt_digest);
  Ok (mkPromotionReceipt request_id knowledge_proposal_id knowledge_record_id knowledge_revision_id receipt_digest).

Definition complete_memory_promotion (request : MemoryPromotionRequest) (receipt : MemoryPromotionReceipt)
    (lifecycle : MemoryLifecycle) (position : Z) : result MemoryErrorCode MemoryLifecycle :=
  reject InvalidMemory when
    negb (pt_request_id receipt =? pr_request_id request)%string
    || negb (pt_knowledge_proposal_id receipt =? pr_knowledge_proposal_id request)%string;
  reject InvalidTransition when position <=? ml_last_observed_position lifecycle;
  lifecycle_apply lifecycle (EventPromote position (Some (pt_receipt_digest receipt))).

(** ** Theorems *)

(** An observation counts once in the tally it belongs to, never promotes, cools or
    archives, and an out-of-scope failure is no evidence against the hypothesis: it
    is neutral and proposes a narrower scope. *)
Theorem observation_reduction_exact obligation observation lifecycle reduction :
  reduce_observation obligation observation lifecycle = Ok reduction ->
  ov_obligation_id observation = ob_obligation_id obligation
  /\ ml_last_observed_position lifecycle < ov_position observation <= ob_expires_at_position obligation
  /\ ml_last_observed_position (or_lifecycle reduction) = ov_position observation
  /\ (ml_state (or_lifecycle reduction) = ml_state lifecycle \/ ml_state (or_lifecycle reduction) = HypActive)
  /\ match ov_verdict observation with
     | VerdictVerified => ta_verified (ml_tally (or_lifecycle reduction)) = ta_verified (ml_tally lifecycle) + 1
         /\ ml_state (or_lifecycle reduction) = HypActive /\ or_narrowing reduction = None
     | VerdictFalsified true _ =>
         ta_falsified (ml_tally (or_lifecycle reduction)) = ta_falsified (ml_tally lifecycle) + 1
         /\ or_narrowing reduction = None
     | VerdictFalsified false observed =>
         ta_falsified (ml_tally (or_lifecycle reduction)) = ta_falsified (ml_tally lifecycle)
         /\ ta_neutral (ml_tally (or_lifecycle reduction)) = ta_neutral (ml_tally lifecycle) + 1
         /\ (sn_observed_scope_digest <$> or_narrowing reduction) = observed /\ is_some observed = true
     | VerdictNeutral _ => ta_neutral (ml_tally (or_lifecycle reduction)) = ta_neutral (ml_tally lifecycle) + 1
         /\ or_narrowing reduction = None
     end.
Proof.
  unfold reduce_observation. destruct (negb _) eqn:Hid; [done|]. apply negb_false_iff, String.eqb_eq in Hid.
  destruct (_ <? _) eqn:Hexp; [done|]. unfold lifecycle_apply, increment.
  destruct (ov_verdict observation) as [|[|] [observed|]|reason]; cbn; try done;
    (destruct (_ <=? _) eqn:Hpos; [done|]); (case_bool_decide; [done|]);
    destruct (checked_add _ 1) as [n|] eqn:Hc; try done; cbn; apply checked_u64_some in Hc as [<- _].
  - destruct (ml_state lifecycle); try done; intros [= <-]; cbn; split_and!; auto; lia.
  - intros [= <-]; cbn; split_and!; auto; lia.
  - intros [= <-]; cbn; split_and!; auto; lia.
  - intros [= <-]; cbn; split_and!; auto; lia.
  - intros [= <-]; cbn; split_and!; auto; lia.
Qed.

(** Only an explicit user command under the user's authority deletes. *)
Theorem memory_deletion_is_user_commanded candidate assessment decision_id command_id record_id revision_id :
  memory_candidate_new (ca_candidate_id candidate) (ca_namespace_id candidate) (ca_extractor_revision candidate)
    (ca_source candidate) (ca_intent candidate) = Ok candidate ->
  decide_candidate candidate assessment decision_id = Ok (Delete command_id record_id revision_id) ->
  ca_source candidate = ExplicitUserCommand
  /\ exists authority, ca_intent candidate = Forget record_id revision_id authority /\ ab_authority authority = UserDeclared.
Proof.
  unfold memory_candidate_new, decide_candidate. destruct (_ || _) in |- *; [done|].
  destruct (ca_intent candidate) as [|rid rev authority]; [|].
  - intros _. destruct (negb (memory_valid_id decision_id)); [done|]. destruct assessment as [a|]; [|done]. cbn. repeat case_match; done.
  - destruct (_ || _) eqn:Hg; [done|]. intros _. destruct (negb (memory_valid_id decision_id)); [done|].
    destruct (is_some assessment); [done|].
    intros [= _ <- <-]. rewrite !orb_false_iff, !bool_decide_eq_false in Hg. destruct Hg as (((Hs & Ha) & _) & _).
    split; [by apply dec_stable|]. exists authority. split; [done|by apply dec_stable].
Qed.

(** A checkpoint is a replay exactly when it is the prior one, and otherwise it is
    accepted exactly when it moves the same extractor and session forward. *)
Theorem distillation_advances_exact prior next :
  (advance_distillation (Some prior) next = Ok Replayed <-> next = prior)
  /\ (advance_distillation (Some prior) next = Ok Advanced <->
      dw_extractor_revision next = dw_extractor_revision prior /\ dw_session_id next = dw_session_id prior
      /\ dw_through_position prior < dw_through_position next).
Proof.
  unfold advance_distillation. destruct prior as [e s p d], next as [e' s' p' d']. cbn.
  destruct (e =? e')%string eqn:He; [apply String.eqb_eq in He as <-|apply String.eqb_neq in He; cbn; naive_solver].
  destruct (s =? s')%string eqn:Hs; [apply String.eqb_eq in Hs as <-|apply String.eqb_neq in Hs; cbn; naive_solver].
  cbn. destruct (p' <? p) eqn:Hlt; cbn; [split; (split; [done|]); [intros [=]; lia|intros (_ & _ & ?); lia]|].
  destruct (p' =? p) eqn:Heq; cbn.
  - apply Z.eqb_eq in Heq as ->. destruct (d' =? d)%string eqn:Hd.
    + apply String.eqb_eq in Hd as ->. split; [done|]. split; [done|]. intros (_ & _ & ?). lia.
    + apply String.eqb_neq in Hd. cbn. split; (split; [done|]); [naive_solver|intros (_ & _ & ?); lia].
  - apply Z.eqb_neq in Heq. split; (split; try done); [intros [=]; lia|intros _; split_and!; try done; lia].
Qed.

(** A completed promotion was requested for an active or cold hypothesis with the
    evidence the policy asks for, and carries the receipt of exactly that request. *)
Theorem promotion_completed_exact id namespace record revision type lifecycle uses policy proposal digest request receipt
    lifecycle' position promoted :
  request_memory_promotion id namespace record revision type lifecycle uses policy proposal digest = Ok request ->
  complete_memory_promotion request receipt lifecycle' position = Ok promoted ->
  (ml_state lifecycle = HypActive \/ ml_state lifecycle = HypCold) /\ type ∈ py_allowed_types policy
  /\ py_min_verified policy <= ta_verified (ml_tally lifecycle) /\ ta_falsified (ml_tally lifecycle) <= py_max_falsified policy
  /\ py_min_helpful_uses policy <= uses
  /\ pt_request_id receipt = id /\ pt_knowledge_proposal_id receipt = proposal
  /\ ml_last_observed_position lifecycle' < position /\ ml_state lifecycle' <> HypPromoted
  /\ promoted = mkLifecycle HypPromoted (ml_tally lifecycle') position (Some (pt_receipt_digest receipt)).
Proof.
  unfold request_memory_promotion, complete_memory_promotion, lifecycle_apply.
  intros Hreq Hdone. destruct (_ || _) in Hreq; [done|]. destruct (_ || _) eqn:Hp in Hreq; [done|]. injection Hreq as <-.
  cbn in Hdone. destruct (_ || _) eqn:Hb in Hdone; [done|]. destruct (position <=? _) eqn:Hpos; [done|].
  case_bool_decide as Hst; [done|]. destruct (negb (valid_sha256 _)) in Hdone; [done|]. injection Hdone as <-.
  rewrite !orb_false_iff in Hp. rewrite !orb_false_iff in Hb. destruct Hp as ((((Hs & Ht) & Hv) & Hf) & Hu), Hb as (Hr & Hk).
  apply negb_false_iff in Hs, Ht, Hr, Hk. apply String.eqb_eq in Hr, Hk. apply bool_decide_eq_true in Ht.
  split_and!; try done; try lia. destruct (ml_state lifecycle); auto; done.
Qed.

(** ** Memory audit and physical erasure ([engine/memory/src/audit.rs], [erasure.rs]) *)

(** ** The audit ([audit.rs]) *)

Definition MAX_AUDIT_ENTRIES : Z := 4096.
Definition MAX_AUDIT_CONTRADICTIONS : Z := 4096.
Definition MAX_RETENTION_SCORE : Z := 10000.

Record MemoryAuditPolicy := mkAuditPolicy {
  ap_max_active_records : Z;
  ap_max_active_bytes : Z;
  ap_stale_after_positions : Z;
  ap_low_use_threshold : Z;
  ap_max_report_items : Z;
}.

Definition audit_policy_validate (self : MemoryAuditPolicy) : result MemoryErrorCode MemoryAuditPolicy :=
  if (ap_max_active_records self =? 0) || (ap_max_active_bytes self =? 0) || (ap_stale_after_positions self =? 0)
     || (ap_max_report_items self =? 0)
  then Err InvalidMemory else Ok self.

Record MemoryAuditEntry := mkAuditEntry {
  ae_record_id : string;
  ae_revision_id : string;
  ae_memory_type : MemoryType;
  ae_state : HypothesisState;
  ae_content_digest : string;
  ae_content_bytes : Z;
  ae_use_count : Z;
  ae_last_verified_position : Z;
  ae_retention_score_basis_points : Z;
}.

Definition audit_entry_validate (self : MemoryAuditEntry) : result MemoryErrorCode MemoryAuditEntry :=
  if negb (memory_valid_id (ae_record_id self)) || negb (memory_valid_id (ae_revision_id self))
     || negb (valid_sha256 (ae_content_digest self)) || (ae_content_bytes self =? 0)
     || (ae_last_verified_position self =? 0) || (MAX_RETENTION_SCORE <? ae_retention_score_basis_points self)
  then Err InvalidMemory else Ok self.

Definition audit_identity (self : MemoryAuditEntry) : string * string := (ae_record_id self, ae_revision_id self).

Record MemoryContradiction := mkContradiction {
  cn_left : string * string;
  cn_right : string * string;
}.

Inductive MemoryAuditAction := Cool (identity : string * string) | Archive (identity : string * string).
#[export] Instance MemoryAuditAction_eq_dec : EqDecision MemoryAuditAction.
Proof. solve_decision. Defined.

Record MemoryAuditReport := mkAuditReport {
  rp_duplicate_groups : list (list (string * string));
  rp_contradictions : list MemoryContradiction;
  rp_stale : list (string * string);
  rp_low_use : list (string * string);
  rp_actions : list MemoryAuditAction;
  rp_truncated : bool;
}.

(** The groups of the map from digests to identities, in the order of the digests. *)
Definition digest_groups (entries : list MemoryAuditEntry) : list (list (string * string)) :=
  (fun digest => audit_identity <$> filter (fun entry => ae_content_digest entry = digest) entries)
    <$> btree_set (ae_content_digest <$> entries).

Definition is_stale (current_position : Z) (policy : MemoryAuditPolicy) (entry : MemoryAuditEntry) : bool :=
  ap_stale_after_positions policy <=? current_position - ae_last_verified_position entry.

Definition retention_key (entry : MemoryAuditEntry) : Z * (Z * (Z * (string * string))) :=
  (ae_retention_score_basis_points entry, (ae_use_count entry, (ae_last_verified_position entry, audit_identity entry))).

(** The quota loop over the active entries, least retained first. *)
Fixpoint cool_over_quota (policy : MemoryAuditPolicy) (active_count active_bytes : Z) (active : list MemoryAuditEntry)
    : list MemoryAuditAction :=
  match active with
  | [] => []
  | entry :: active =>
      if (active_count <=? ap_max_active_records policy) && (active_bytes <=? ap_max_active_bytes policy) then []
      else Cool (audit_identity entry)
             :: cool_over_quota policy (active_count - 1) (active_bytes - ae_content_bytes entry) active
  end.

(** The kept values, what remains of the report, and whether any was dropped. *)
Definition take_bounded {T} (values : list T) (remaining : nat) (truncated : bool) : list T * nat * bool :=
  if (remaining <? length values)%nat then (take remaining values, 0%nat, true)
  else (values, (remaining - length values)%nat, truncated).

Definition contradiction_lt (a b : MemoryContradiction) : bool :=
  match cmp (cn_left a) (cn_left b) with
  | Lt => true
  | Eq => match cmp (cn_right a) (cn_right b) with Lt => true | _ => false end
  | Gt => false
  end.

Definition audit_memory (entries : list MemoryAuditEntry) (contradictions : list MemoryContradiction)
    (current_position : Z) (policy : MemoryAuditPolicy) : result MemoryErrorCode MemoryAuditReport :=
  let? policy := audit_policy_validate policy in
  reject InvalidMemory when
    (current_position =? 0) || (MAX_AUDIT_ENTRIES <? Z.of_nat (length entries))
    || (MAX_AUDIT_CONTRADICTIONS <? Z.of_nat (length contradictions))
    || negb (ordered_unique (audit_identity <$> entries))
    || existsb (fun entry => negb (is_ok (audit_entry_validate entry))
                             || (current_position <? ae_last_verified_position entry)) entries;
  let identities : list (string * string) := audit_identity <$> entries in
  reject InvalidMemory when
    windows_any (fun a b => negb (contradiction_lt a b)) contradictions
    || existsb (fun pair => match cmp (cn_left pair) (cn_right pair) with Lt => false | _ => true end
                            || negb (bool_decide (cn_left pair ∈ identities))
                            || negb (bool_decide (cn_right pair ∈ identities))) contradictions;
  let duplicate_groups := filter (fun group : list (string * string) => (1 < length group)%nat) (digest_groups entries) in
  let stale := audit_identity <$> filter (fun entry => ae_state entry <> HypPromoted
                                            /\ is_stale current_position policy entry = true) entries in
  let low_use := audit_identity <$> filter (fun entry => ae_state entry <> HypPromoted
                                            /\ ae_use_count entry < ap_low_use_threshold policy) entries in
  let active := filter (fun entry => ae_state entry = HypActive) entries in
  let active_count := Z.of_nat (length active) in
  let? active_bytes := try_fold (fun sum entry => ok_or (checked_add sum (ae_content_bytes entry)) InvalidMemory) 0 active in
  let actions := cool_over_quota policy active_count active_bytes (sort_by_key retention_key active)
    ++ ((fun entry => Archive (audit_identity entry))
          <$> filter (fun entry => ae_state entry = HypCold /\ is_stale current_position policy entry = true) entries) in
  reject LimitExceeded when ap_max_report_items policy <? Z.of_nat (length actions);
  let remaining := Z.to_nat (ap_max_report_items policy - Z.of_nat (length actions)) in
  let '(duplicate_groups, remaining, truncated) := take_bounded duplicate_groups remaining false in
  let '(contradictions, remaining, truncated) := take_bounded contradictions remaining truncated in
  let '(stale, remaining, truncated) := take_bounded stale remaining truncated in
  let '(low_use, remaining, truncated) := take_bounded low_use remaining truncated in
  Ok (mkAuditReport duplicate_groups contradictions stale low_use actions truncated).

(** ** Erasure ([erasure.rs]) *)

Definition MAX_ERASURE_TARGETS : Z := 64.

Inductive ErasureTargetKind := PrimaryStore | ProjectionTarget | CacheTarget | BackupTarget.
#[export] Instance ErasureTargetKind_eq_dec : EqDecision ErasureTargetKind.
Proof. solve_decision. Defined.
Definition target_kind_rank (k : ErasureTargetKind) : Z :=
  match k with PrimaryStore => 0 | ProjectionTarget => 1 | CacheTarget => 2 | BackupTarget => 3 end.
#[export] Instance Ord_target_kind : Ord ErasureTargetKind.
Proof. refine (Ord_view target_kind_rank _). by intros [] []. Defined.

Record MemoryErasureTarget := mkErasureTarget {
  et_target_id : string;
  et_kind : ErasureTargetKind;
}.

Definition erasure_target_new (target_id : string) (kind : ErasureTargetKind) : result MemoryErrorCode MemoryErasureTarget :=
  reject InvalidMemory when negb (memory_valid_id target_id);
  Ok (mkErasureTarget target_id kind).

Record MemoryErasureRequest := mkErasureRequest {
  er_request_id : string;
  er_namespace_id : string;
  er_record_id : string;
  er_revision_id : string;
  er_tombstone_fact : DurableFactReference;
  er_policy_revision : string;
  er_targets : list MemoryErasureTarget;
}.

Definition erasure_request_new (request_id namespace_id record_id revision_id : string)
    (tombstone_fact : DurableFactReference) (policy_revision : string) (targets : list MemoryErasureTarget)
    : result MemoryErrorCode MemoryErasureRequest :=
  reject InvalidMemory when
    existsb (fun item => negb (memory_valid_id item)) [request_id; namespace_id; record_id; revision_id]
    || negb (valid_text policy_revision MEMORY_MAX_REFERENCE_BYTES) || vec_is_empty targets
    || (MAX_ERASURE_TARGETS <? Z.of_nat (length targets))
    || negb (ordered_unique ((fun target => (et_kind target, et_target_id target)) <$> targets));
  Ok (mkErasureRequest request_id namespace_id record_id revision_id tombstone_fact policy_revision targets).

Inductive ErasureTargetStatus := Erased | NotPresent | PendingBackupRetention | PendingRetry.
#[export] Instance ErasureTargetStatus_eq_dec : EqDecision ErasureTargetStatus.
Proof. solve_decision. Defined.

Record MemoryErasureTargetResult := mkTargetResult {
  ts_target_id : string;
  ts_status : ErasureTargetStatus;
  ts_receipt_digest : string;
  ts_not_before_position : option Z;
}.

Definition erasure_result_new (target_id : string) (status : ErasureTargetStatus) (receipt_digest : string)
    (not_before_position : option Z) : result MemoryErrorCode MemoryErasureTargetResult :=
  reject InvalidMemory when
    negb (memory_valid_id target_id) || negb (valid_sha256 receipt_digest)
    || negb (Bool.eqb (bool_decide (status = PendingBackupRetention)) (is_some not_before_position));
  Ok (mkTargetResult target_id status receipt_digest not_before_position).

Inductive ErasureDisposition := ErasureComplete | ErasurePartial.
#[export] Instance ErasureDisposition_eq_dec : EqDecision ErasureDisposition.
Proof. solve_decision. Defined.

Record MemoryErasureReceipt := mkErasureReceipt {
  ec_request_id : string;
  ec_attempt_id : string;
  ec_attempted_at_position : Z;
  ec_results : list MemoryErasureTargetResult;
  ec_disposition : ErasureDisposition;
}.

Definition target_mismatch (attempted_at_position : Z) (pair : MemoryErasureTarget * MemoryErasureTargetResult) : bool :=
  let '(target, result) := pair in
  negb (et_target_id target =? ts_target_id result)%string
  || bool_decide (ts_status result = PendingBackupRetention)
     && (bool_decide (et_kind target <> BackupTarget)
         || match ts_not_before_position result with Some position => position <=? attempted_at_position | None => true end).

Definition record_memory_erasure (request : MemoryErasureRequest) (attempt_id : string) (attempted_at_position : Z)
    (results : list MemoryErasureTargetResult) : result MemoryErrorCode MemoryErasureReceipt :=
  reject InvalidMemory when
    negb (memory_valid_id attempt_id) || (attempted_at_position <=? df_position (er_tombstone_fact request))
    || negb (Nat.eqb (length results) (length (er_targets request)));
  reject InvalidMemory when existsb (target_mismatch attempted_at_position) (zip (er_targets request) results);
  let disposition :=
    if forallb (fun result => match ts_status result with Erased | NotPresent => true | _ => false end) results
    then ErasureComplete else ErasurePartial in
  Ok (mkErasureReceipt (er_request_id request) attempt_id attempted_at_position results disposition).

(** ** Theorems *)

Definition active_entries (entries : list MemoryAuditEntry) : list MemoryAuditEntry :=
  filter (fun entry => ae_state entry = HypActive) entries.
Definition within_quota (policy : MemoryAuditPolicy) (entries : list MemoryAuditEntry) : Prop :=
  Z.of_nat (length entries) <= ap_max_active_records policy /\ zsum_by ae_content_bytes entries <= ap_max_active_bytes policy.

(** The cooled entries are a prefix of the active ones; what is left is within the
    quota, and no shorter prefix would do. *)
Lemma cool_over_quota_spec policy active : 0 <= ap_max_active_records policy -> 0 <= ap_max_active_bytes policy ->
  exists cooled hot, active = cooled ++ hot
    /\ cool_over_quota policy (Z.of_nat (length active)) (zsum_by ae_content_bytes active) active
       = (fun entry => Cool (audit_identity entry)) <$> cooled
    /\ within_quota policy hot
    /\ (forall before after, cooled = before ++ after -> after <> [] -> ~ within_quota policy (after ++ hot)).
Proof.
  intros Hn Hb. induction active as [|x active IH].
  { exists [], []. unfold within_quota. cbn. split_and!; try done; try lia. by intros [] []. }
  cbn [cool_over_quota]. destruct (_ && _) eqn:Hq.
  - exists [], (x :: active). apply andb_true_iff in Hq as [? ?]. split_and!; try done; [unfold within_quota; lia|].
    by intros [] [].
  - destruct IH as (cooled & hot & -> & Hcool & Hhot & Hmin). exists (x :: cooled), hot. split_and!; try done.
    + rewrite fmap_cons, <-Hcool. f_equal. f_equal; cbn; [lia|]. unfold zsum_by. cbn. lia.
    + intros [|y before] after Heq Hne.
      * cbn in Heq. subst after. unfold within_quota. cbn [app]. intros [? ?]. apply andb_false_iff in Hq. lia.
      * injection Heq as <- Heq. by apply (Hmin before).
Qed.

Lemma active_bytes_sum entries : forall total bytes,
  try_fold (fun sum entry => ok_or (checked_add sum (ae_content_bytes entry)) InvalidMemory) total entries = Ok bytes ->
  bytes = total + zsum_by ae_content_bytes entries.
Proof.
  induction entries as [|e entries IH]; intros total bytes; cbn [try_fold]; [intros [= <-]; cbn; lia|].
  destruct (checked_add total (ae_content_bytes e)) as [n|] eqn:Hc; [|done]. cbn [ok_or].
  apply checked_u64_some in Hc as [<- _]. intros Hr. apply IH in Hr as ->. unfold zsum_by. cbn. lia.
Qed.

Lemma take_bounded_length {T} (values : list T) remaining truncated kept left_over flag :
  take_bounded values remaining truncated = (kept, left_over, flag) -> (length kept + left_over <= remaining)%nat.
Proof.
  unfold take_bounded. destruct (_ <? _)%nat eqn:Hl; intros [= <- <- <-].
  - rewrite length_take. lia.
  - apply Nat.ltb_ge in Hl. lia.
Qed.

Lemma audit_actions_spec entries contradictions position policy report :
  0 <= ap_max_active_records policy -> 0 <= ap_max_active_bytes policy ->
  audit_memory entries contradictions position policy = Ok report ->
  exists cooled hot,
    cooled ++ hot ≡ₚ active_entries entries /\ StronglySorted (key_le_of retention_key) (cooled ++ hot)
    /\ rp_actions report = ((fun entry => Cool (audit_identity entry)) <$> cooled)
         ++ ((fun entry => Archive (audit_identity entry))
               <$> filter (fun entry => ae_state entry = HypCold /\ is_stale position policy entry = true) entries)
    /\ within_quota policy hot
    /\ (forall before after, cooled = before ++ after -> after <> [] -> ~ within_quota policy (after ++ hot))
    /\ (length (rp_duplicate_groups report) + length (rp_contradictions report) + length (rp_stale report)
        + length (rp_low_use report) + length (rp_actions report) <= Z.to_nat (ap_max_report_items policy))%nat.
Proof.
  intros Hn Hb. unfold audit_memory. destruct (audit_policy_validate policy) as [policy'|] eqn:Hp; [|done].
  assert (policy' = policy) as -> by (unfold audit_policy_validate in Hp; destruct (_ || _) in Hp; [done|by injection Hp]).
  destruct (_ || _) in |- *; [done|]. destruct (_ || _) in |- *; [done|].
  destruct (try_fold _ _ _) as [bytes|] eqn:Hf; [|done]. apply active_bytes_sum in Hf. fold (active_entries entries) in *.
  destruct (cool_over_quota_spec policy (sort_by_key retention_key (active_entries entries)) Hn Hb)
    as (cooled & hot & Hsplit & Hcool & Hhot & Hmin).
  rewrite (Permutation_length (sort_by_key_perm retention_key (active_entries entries))) in Hcool.
  assert (zsum_by ae_content_bytes (sort_by_key retention_key (active_entries entries))
          = zsum_by ae_content_bytes (active_entries entries)) as Hsum by (by rewrite sort_by_key_perm).
  rewrite Hsum in Hcool.
  rewrite Hf, Z.add_0_l, Hcool. set (archived := _ <$> filter _ entries). set (actions := _ ++ archived).
  destruct (_ <? _) eqn:Hlimit; [done|].
  destruct (take_bounded _ (Z.to_nat _) false) as [[groups rem1] t1] eqn:H1.
  destruct (take_bounded contradictions rem1 t1) as [[pairs rem2] t2] eqn:H2.
  destruct (take_bounded _ rem2 t2) as [[stale rem3] t3] eqn:H3. destruct (take_bounded _ rem3 t3) as [[low rem4] t4] eqn:H4.
  apply take_bounded_length in H1, H2, H3, H4. intros [= <-]. exists cooled, hot. rewrite <-Hsplit. cbn.
  split_and!; try done; [apply sort_by_key_perm|apply sort_by_key_sorted|lia].
Qed.


(** Each proposed action is a transition that the lifecycle of its entry accepts at
    any later position. *)
Theorem memory_audit_actions_apply entries contradictions position policy report action :
  0 <= ap_max_active_records policy -> 0 <= ap_max_active_bytes policy ->
  audit_memory entries contradictions position policy = Ok report -> action ∈ rp_actions report ->
  exists entry event next, entry ∈ entries
    /\ action = (if bool_decide (next = HypCold) then Cool else Archive) (audit_identity entry)
    /\ forall lifecycle, ml_state lifecycle = ae_state entry -> forall later, ml_last_observed_position lifecycle < later ->
         exists lifecycle', lifecycle_apply lifecycle (event later) = Ok lifecycle' /\ ml_state lifecycle' = next.
Proof.
  intros Hn Hb Ha Hin.
  destruct (audit_actions_spec entries contradictions position policy report Hn Hb Ha)
    as (cooled & hot & Hperm & _ & Hact & _). rewrite Hact in Hin.
  apply elem_of_app in Hin as [(entry & -> & Hin)%list_elem_of_fmap|(entry & -> & Hin)%list_elem_of_fmap].
  - assert (entry ∈ cooled ++ hot) as He by (apply elem_of_app; by left). rewrite Hperm in He.
    apply list_elem_of_filter in He as [Hst He].
    exists entry, (fun later => EventCool later), HypCold. rewrite bool_decide_true by done. split_and!; try done.
    intros lifecycle Hl later Hlater. unfold lifecycle_apply. cbn. rewrite Hl, Hst, !bool_decide_false, bool_decide_true by done.
    rewrite (proj2 (Z.leb_gt _ _) Hlater). by eexists.
  - apply list_elem_of_filter in Hin as [[Hst _] He].
    exists entry, (fun later => EventArchive later), HypArchived. rewrite bool_decide_false by done. split_and!; try done.
    intros lifecycle Hl later Hlater. unfold lifecycle_apply. cbn. rewrite Hl, Hst, bool_decide_false, bool_decide_true by done.
    rewrite (proj2 (Z.leb_gt _ _) Hlater). by eexists.
Qed.

Lemma targets_covered position targets : forall results, length results = length targets ->
  existsb (target_mismatch position) (zip targets results) = false <->
  Forall2 (fun target result => et_target_id target = ts_target_id result
    /\ (ts_status result = PendingBackupRetention -> et_kind target = BackupTarget
        /\ exists later, ts_not_before_position result = Some later /\ position < later)) targets results.
Proof.
  induction targets as [|t targets IH]; intros [|r results] Hl; try done; try (by split; [constructor|]; done).
  cbn [zip zip_with existsb]. rewrite orb_false_iff, Forall2_cons, (IH results) by (cbn in Hl; lia). f_equiv.
  unfold target_mismatch. rewrite orb_false_iff, negb_false_iff, String.eqb_eq. f_equiv.
  case_bool_decide as Hs; cbn [andb]; [|naive_solver]. rewrite orb_false_iff, bool_decide_eq_false.
  destruct (ts_not_before_position r) as [later|]; [rewrite Z.leb_gt|]; destruct (decide (et_kind t = BackupTarget)); naive_solver.
Qed.

Lemma all_erased results :
  forallb (fun result => match ts_status result with Erased | NotPresent => true | _ => false end) results = true <->
  Forall (fun result => ts_status result = Erased \/ ts_status result = NotPresent) results.
Proof.
  induction results as [|r results IH]; [done|]. cbn [forallb]. rewrite andb_true_iff, Forall_cons, IH.
  destruct (ts_status r); naive_solver.
Qed.

(** An erasure attempt is recorded exactly when it comes after the tombstone and has
    one result per target in order, with retention only on backups until a later
    position; it is complete exactly when every target is erased or absent. *)
Theorem memory_erasure_exact request attempt position results :
  (forall receipt, record_memory_erasure request attempt position results = Ok receipt <->
     memory_valid_id attempt = true /\ df_position (er_tombstone_fact request) < position
     /\ Forall2 (fun target result => et_target_id target = ts_target_id result
          /\ (ts_status result = PendingBackupRetention -> et_kind target = BackupTarget
               /\ exists later, ts_not_before_position result = Some later /\ position < later)) (er_targets request) results
     /\ receipt = mkErasureReceipt (er_request_id request) attempt position results (ec_disposition receipt)
     /\ (ec_disposition receipt = ErasureComplete <->
         Forall (fun result => ts_status result = Erased \/ ts_status result = NotPresent) results))
  /\ (forall e, record_memory_erasure request attempt position results = Err e -> e = InvalidMemory).
Proof.
  unfold record_memory_erasure. destruct (_ || _) eqn:Hg.
  { split; [|by intros e [= <-]]. intros receipt. split; [done|]. intros (Ha & Hp & Hf & _). exfalso.
    rewrite !orb_true_iff, !negb_true_iff in Hg. apply Forall2_length in Hf. rewrite Hf, Nat.eqb_refl in Hg.
    rewrite Ha in Hg. destruct Hg as [[?|?]|?]; [done|lia|done]. }
  rewrite !orb_false_iff, !negb_false_iff in Hg. destruct Hg as ((Ha & Hp) & Hlen). apply Nat.eqb_eq in Hlen.
  apply Z.leb_gt in Hp. destruct (existsb _ _) eqn:He.
  - split; [|by intros e [= <-]]. intros receipt. split; [done|]. intros (_ & _ & Hf & _). exfalso.
    apply targets_covered in Hf; [|done]. congruence.
  - apply (targets_covered position) in He; [|done]. split; [|done]. intros receipt. split.
    + intros [= <-]. cbn. split_and!; try done. rewrite <-all_erased. by destruct (forallb _ results).
    + intros (_ & _ & _ & -> & Hd). cbn. do 2 f_equal. cbn in Hd. rewrite <-all_erased in Hd.
      destruct (forallb _ results); [symmetry; by apply Hd|].
      destruct (ec_disposition receipt); [|done]. by destruct Hd as [Hd _]; specialize (Hd eq_refl).
Qed.

Module AuditSample.
Definition digest : string := "0123456789abcdef0123456789abcdef0123456789abcdef0123456789abcdef".
Definition entry (id : string) (state : HypothesisState) (bytes score : Z) : MemoryAuditEntry :=
  mkAuditEntry id "1" SemanticMemory state digest bytes 1 1 score.
Definition entries : list MemoryAuditEntry :=
  [entry "a" HypActive 60 10; entry "b" HypActive 30 5; entry "c" HypActive 20 7; entry "d" HypCold 5 1].
Definition policy : MemoryAuditPolicy := mkAuditPolicy 2 80 100 0 10.
End AuditSample.

