(* ===== verification/MemoryDocument.v ===== *)
(** * Memory control documents ([engine/memory/src/control_plane.rs])

    The document a user reads and edits for one memory record: its limits, the
    reference to a record or to a draft, the canonical Markdown form and the
    strict reader, with the round trip between the two. *)

From S2P Require Import Prelude Json Text Order Checks MemoryTypes.

Record MemoryDocumentLimits := mkDocumentLimits {
  dl_max_document_bytes : Z;
  dl_max_content_bytes : Z;
  dl_max_id_bytes : Z;
}.

Inductive MemoryControlError := InvalidLimits | BoundExceeded | InvalidSnapshot | ForbiddenChange | StaleSnapshot.
#[export] Instance MemoryControlError_eq_dec : EqDecision MemoryControlError.
Proof. solve_decision. Defined.

Definition document_limits_new (max_document_bytes max_content_bytes max_id_bytes : Z)
    : result MemoryControlError MemoryDocumentLimits :=
  if (max_document_bytes =? 0) || (max_content_bytes =? 0) || (max_id_bytes =? 0) then Err InvalidLimits
  else Ok (mkDocumentLimits max_document_bytes max_content_bytes max_id_bytes).

Definition control_wire_name (self : MemoryControlError) : string :=
  match self with
  | InvalidLimits | InvalidSnapshot => "memory_snapshot_invalid"
  | BoundExceeded => "memory_control_bound_exceeded"
  | ForbiddenChange => "memory_import_forbidden_change"
  | StaleSnapshot => "stale_memory_snapshot"
  end.

Inductive MemoryRecordRef :=
  | ExistingRef (record_id revision_id : string)
  | NewRef (draft_token : string).
#[export] Instance MemoryRecordRef_eq_dec : EqDecision MemoryRecordRef.
Proof. solve_decision. Defined.

Definition ref_record_id (self : MemoryRecordRef) : option string :=
  match self with ExistingRef record_id _ => Some record_id | NewRef _ => None end.
Definition ref_revision_id (self : MemoryRecordRef) : option string :=
  match self with ExistingRef _ revision_id => Some revision_id | NewRef _ => None end.
Definition ref_draft_token (self : MemoryRecordRef) : option string :=
  match self with NewRef draft_token => Some draft_token | ExistingRef _ _ => None end.

Record MemoryControlDocument := mkDocument {
  cd_record_ref : MemoryRecordRef;
  cd_authority : MemoryAuthority;
  cd_memory_type : MemoryType;
  cd_memory_role : MemoryKind;
  cd_scope : MemoryScopeClass;
  cd_scope_owner_id : string;
  cd_lifecycle : HypothesisState;
  cd_sensitivity : MemorySensitivity;
  cd_erase : bool;
  cd_content : string;
}.
#[export] Instance MemoryControlDocument_eq_dec : EqDecision MemoryControlDocument.
Proof. solve_decision. Defined.

(** ** Names *)

Definition authority_name (value : MemoryAuthority) : string :=
  match value with
  | UserDeclared => "user_declared" | AgentLearned => "agent_learned" | OrganisationPublished => "organisation_published"
  end.
Definition type_name (value : MemoryType) : string :=
  match value with
  | SemanticMemory => "semantic" | EpisodicMemory => "episodic" | LessonMemory => "lesson" | ProceduralMemory => "procedural"
  end.
Definition role_name (value : MemoryKind) : string :=
  match value with
  | PreferenceKind => "preference" | ConstraintKind => "constraint" | DecisionKind => "decision"
  | LearnedFactKind => "learned_fact" | SummaryKind => "summary"
  end.
Definition scope_name (value : MemoryScopeClass) : string :=
  match value with
  | SessionClass => "session" | AgentInstanceClass => "agent_instance" | UserClass => "user"
  | ProjectClass => "project" | PlatformClass => "platform"
  end.
Definition lifecycle_name (value : HypothesisState) : string :=
  match value with
  | HypCandidate => "candidate" | HypActive => "active" | HypCold => "cold" | HypArchived => "archived"
  | HypPromoted => "promoted"
  end.
Definition sensitivity_name (value : MemorySensitivity) : string :=
  match value with Ordinary => "ordinary" | Restricted => "restricted" end.

Definition parse_authority (value : string) : result MemoryControlError MemoryAuthority :=
  ok_or (assoc value [("user_declared", UserDeclared); ("agent_learned", AgentLearned);
    ("organisation_published", OrganisationPublished)]) InvalidSnapshot.
Definition parse_type (value : string) : result MemoryControlError MemoryType :=
  ok_or (assoc value [("semantic", SemanticMemory); ("episodic", EpisodicMemory); ("lesson", LessonMemory);
    ("procedural", ProceduralMemory)]) InvalidSnapshot.
Definition parse_role (value : string) : result MemoryControlError MemoryKind :=
  ok_or (assoc value [("preference", PreferenceKind); ("constraint", ConstraintKind); ("decision", DecisionKind);
    ("learned_fact", LearnedFactKind); ("summary", SummaryKind)]) InvalidSnapshot.
Definition parse_scope (value : string) : result MemoryControlError MemoryScopeClass :=
  ok_or (assoc value [("session", SessionClass); ("agent_instance", AgentInstanceClass); ("user", UserClass);
    ("project", ProjectClass); ("platform", PlatformClass)]) InvalidSnapshot.
Definition parse_lifecycle (value : string) : result MemoryControlError HypothesisState :=
  ok_or (assoc value [("candidate", HypCandidate); ("active", HypActive); ("cold", HypCold); ("archived", HypArchived);
    ("promoted", HypPromoted)]) InvalidSnapshot.
Definition parse_sensitivity (value : string) : result MemoryControlError MemorySensitivity :=
  ok_or (assoc value [("ordinary", Ordinary); ("restricted", Restricted)]) InvalidSnapshot.

(** ** Checks *)

Definition valid_decoded_identity (value : string) (max_bytes : Z) : bool :=
  (0 <? max_bytes) && negb (str_is_empty value) && (str_len value <=? max_bytes) && is_trimmed value.

Definition token_byte (byte : ascii) : bool :=
  between 65 90 byte || between 97 122 byte || between 48 57 byte
  || (byte_code byte =? 95) || (byte_code byte =? 45) || (byte_code byte =? 46).
Definition valid_token (value : string) (max : Z) : bool :=
  negb (str_is_empty value) && (str_len value <=? max) && all_bytes token_byte value.

(** The two line-end checks: a carriage return only before a line feed, and the
    content closed by exactly one line feed. *)
Definition bare_return (raw : string) : bool :=
  contains_byte return_ raw && contains_byte return_ (crlf_to_lf raw).
Definition one_final_newline (content : string) : string := trim_end_byte newline content +:+ String newline "".

(** ** Rendering and reading *)

Definition HEADER : string := "---" +:+ String newline "".
Definition TERMINATOR : string := String newline "---" +:+ String newline "".
Definition BASE_KEYS : list string :=
  ["schema_version"; "record_ref"; "authority"; "memory_type"; "memory_role"; "scope"; "scope_owner_b64"; "lifecycle";
   "sensitivity"].

Section document.
Context `{Base64}.

Definition record_ref_render (self : MemoryRecordRef) : string :=
  match self with
  | ExistingRef record_id revision_id => "existing." +:+ b64_encode record_id +:+ "." +:+ b64_encode revision_id
  | NewRef draft_token => "new." +:+ draft_token
  end.

(** One line of the front matter. *)
Definition front_line (key value : string) : string := key +:+ ": " +:+ value +:+ String newline "".

Definition document_render (self : MemoryControlDocument) : string :=
  HEADER
  +:+ front_line "schema_version" "1"
  +:+ front_line "record_ref" (record_ref_render (cd_record_ref self))
  +:+ front_line "authority" (authority_name (cd_authority self))
  +:+ front_line "memory_type" (type_name (cd_memory_type self))
  +:+ front_line "memory_role" (role_name (cd_memory_role self))
  +:+ front_line "scope" (scope_name (cd_scope self))
  +:+ front_line "scope_owner_b64" (b64_encode (cd_scope_owner_id self))
  +:+ front_line "lifecycle" (lifecycle_name (cd_lifecycle self))
  +:+ front_line "sensitivity" (sensitivity_name (cd_sensitivity self))
  +:+ (if cd_erase self then front_line "erase" "true" else "")
  +:+ HEADER
  +:+ cd_content self.

(** [MemoryControlDocument::from_repository_record]. *)
Definition from_repository_record (record_id revision_id : string) (authority : MemoryAuthority)
    (memory_type : MemoryType) (memory_role : MemoryKind) (scope : MemoryScopeClass) (scope_owner_id : string)
    (lifecycle : HypothesisState) (sensitivity : MemorySensitivity) (raw_content : string)
    (limits : MemoryDocumentLimits) : result MemoryControlError MemoryControlDocument :=
  reject InvalidSnapshot when
    negb (valid_decoded_identity record_id (dl_max_id_bytes limits))
    || negb (valid_decoded_identity revision_id (dl_max_id_bytes limits))
    || negb (valid_decoded_identity scope_owner_id (dl_max_id_bytes limits))
    || bare_return raw_content;
  let content := one_final_newline (crlf_to_lf raw_content) in
  reject InvalidSnapshot when (content =? String newline "")%string;
  reject BoundExceeded when dl_max_content_bytes limits <? str_len content;
  let document := mkDocument (ExistingRef record_id revision_id) authority memory_type memory_role scope scope_owner_id
                    lifecycle sensitivity false content in
  if dl_max_document_bytes limits <? str_len (document_render document) then Err BoundExceeded else Ok document.

Definition decode_identity (value : string) (max_bytes : Z) : result MemoryControlError string :=
  let? bytes := ok_or (b64_decode value) InvalidSnapshot in
  let? decoded := ok_or (from_utf8 bytes) InvalidSnapshot in
  reject InvalidSnapshot when
    negb (valid_decoded_identity decoded max_bytes) || negb (b64_encode decoded =? value)%string;
  Ok decoded.

Definition parse_record_ref (value : string) (max_id_bytes : Z) : result MemoryControlError MemoryRecordRef :=
  match strip_prefix "existing." value with
  | Some value =>
      let? (record, revision) := ok_or (split_once dot value) InvalidSnapshot in
      reject InvalidSnapshot when contains_byte dot revision;
      let? record_id := decode_identity record max_id_bytes in
      let? revision_id := decode_identity revision max_id_bytes in
      Ok (ExistingRef record_id revision_id)
  | None =>
      match strip_prefix "new." value with
      | Some draft_token =>
          reject InvalidSnapshot when negb (valid_token draft_token 64);
          Ok (NewRef draft_token)
      | None => Err InvalidSnapshot
      end
  end.

(** The key and value of one line, the key the one its position asks for. *)
Definition parse_front_line (index : nat) (line : string) : result MemoryControlError string :=
  let? (key, value) := ok_or (split_once_text ": " line) InvalidSnapshot in
  reject InvalidSnapshot when
    negb (key =? default "erase" (BASE_KEYS !! index))%string || negb (valid_token value 512);
  Ok value.

Fixpoint parse_front (index : nat) (lines : list string) : result MemoryControlError (list string) :=
  match lines with
  | [] => Ok []
  | line :: lines =>
      let? value := parse_front_line index line in
      let? values := parse_front (S index) lines in
      Ok (value :: values)
  end.

(** [parse_memory_document]. *)
Definition parse_memory_document (bytes : string) (limits : MemoryDocumentLimits)
    : result MemoryControlError MemoryControlDocument :=
  reject BoundExceeded when dl_max_document_bytes limits <? str_len bytes;
  let? raw := ok_or (from_utf8 bytes) InvalidSnapshot in
  reject InvalidSnapshot when bare_return raw;
  let normalized := crlf_to_lf raw in
  let? rest := ok_or (strip_prefix HEADER normalized) InvalidSnapshot in
  let? (front, raw_content) := ok_or (split_once_text TERMINATOR rest) InvalidSnapshot in
  reject InvalidSnapshot when contains_text (String newline "---") raw_content;
  let lines := Text.lines front in
  reject InvalidSnapshot when negb (length lines =? 9)%nat && negb (length lines =? 10)%nat;
  let? values := parse_front 0 lines in
  let value index := default "" (values !! index) in
  reject InvalidSnapshot when negb (value 0%nat =? "1")%string;
  let? record_ref := parse_record_ref (value 1%nat) (dl_max_id_bytes limits) in
  let? authority := parse_authority (value 2%nat) in
  let? memory_type := parse_type (value 3%nat) in
  let? memory_role := parse_role (value 4%nat) in
  let? scope := parse_scope (value 5%nat) in
  let? scope_owner_id := decode_identity (value 6%nat) (dl_max_id_bytes limits) in
  let? lifecycle := parse_lifecycle (value 7%nat) in
  let? sensitivity := parse_sensitivity (value 8%nat) in
  let erase := is_some_and (fun value => value =? "true")%string (values !! 9%nat) in
  reject InvalidSnapshot when is_some (values !! 9%nat) && negb erase;
  let content := one_final_newline raw_content in
  if (content =? String newline "")%string || (dl_max_content_bytes limits <? str_len content)
  then Err (if dl_max_content_bytes limits <? str_len content then BoundExceeded else InvalidSnapshot)
  else
    let document := mkDocument record_ref authority memory_type memory_role scope scope_owner_id lifecycle sensitivity
                      erase content in
    if dl_max_document_bytes limits <? str_len (document_render document) then Err BoundExceeded else Ok document.

Definition bind_existing_identity (self : MemoryControlDocument) (record_id revision_id : string) (max_id_bytes : Z)
    : result MemoryControlError MemoryControlDocument :=
  reject InvalidSnapshot when
    negb (valid_decoded_identity record_id max_id_bytes) || negb (valid_decoded_identity revision_id max_id_bytes);
  Ok (mkDocument (ExistingRef record_id revision_id) (cd_authority self) (cd_memory_type self) (cd_memory_role self)
        (cd_scope self) (cd_scope_owner_id self) (cd_lifecycle self) (cd_sensitivity self) false (cd_content self)).

Definition with_lifecycle (self : MemoryControlDocument) (lifecycle : HypothesisState) : MemoryControlDocument :=
  mkDocument (cd_record_ref self) (cd_authority self) (cd_memory_type self) (cd_memory_role self) (cd_scope self)
    (cd_scope_owner_id self) lifecycle (cd_sensitivity self) false (cd_content self).
End document.

Section digests.
Context `{Externals, Base64}.
Definition document_content_digest (self : MemoryControlDocument) : string := sha256_hex (cd_content self).
Definition document_digest (self : MemoryControlDocument) : string := sha256_hex (document_render self).
End digests.
