(* ===== verification/DocumentTheorems.v ===== *)
(** * Memory control documents: the canonical form and its reader *)

From S2P Require Import Prelude Json Text Order Checks MemoryTypes MemoryDocument.

(** ** Documents the constructors and the reader make *)

Definition ref_ok `{Base64} (max_id_bytes : Z) (r : MemoryRecordRef) : Prop :=
  match r with
  | ExistingRef record_id revision_id =>
      (valid_decoded_identity record_id max_id_bytes = true /\ utf8_valid record_id = true)
      /\ valid_decoded_identity revision_id max_id_bytes = true /\ utf8_valid revision_id = true
  | NewRef draft_token => valid_token draft_token 64 = true
  end.

(** Content that is not empty, closed by exactly one line feed, without a carriage
    return. *)
Definition content_ok (content : string) : Prop :=
  one_final_newline content = content /\ content <> String newline "" /\ contains_byte return_ content = false
  /\ utf8_valid content = true.

Record document_ok `{Base64} (limits : MemoryDocumentLimits) (d : MemoryControlDocument) : Prop := {
  ok_ref : ref_ok (dl_max_id_bytes limits) (cd_record_ref d);
  ok_owner : valid_decoded_identity (cd_scope_owner_id d) (dl_max_id_bytes limits) = true;
  ok_owner_utf8 : utf8_valid (cd_scope_owner_id d) = true;
  ok_content : content_ok (cd_content d);
  ok_content_bytes : str_len (cd_content d) <= dl_max_content_bytes limits;
  ok_document_bytes : str_len (document_render d) <= dl_max_document_bytes limits;
}.

(** What the reader asks for besides: no line of the content after the first that
    starts with three dashes, and the two encoded values within their bound. *)
Definition readable_content (content : string) : bool := negb (contains_text (String newline "---") content).
Definition tokens_fit `{Base64} (d : MemoryControlDocument) : bool :=
  (str_len (record_ref_render (cd_record_ref d)) <=? 512) && (str_len (b64_encode (cd_scope_owner_id d)) <=? 512).

(** ** Content *)

Lemma one_final_newline_idem s : one_final_newline (one_final_newline s) = one_final_newline s.
Proof.
  unfold one_final_newline. rewrite trim_end_byte_app; [by rewrite trim_end_byte_idem|]. done.
Qed.

Lemma contains_text_app_l needle s t : contains_text needle s = true -> contains_text needle (s +:+ t) = true.
Proof.
  induction s as [|c s IH]; cbn [contains_text].
  - rewrite orb_false_r. intros Hp. apply starts_with_app in Hp as [u Hu].
    destruct needle; [|discriminate Hu]. destruct ("" +:+ t); done.
  - rewrite orb_true_iff, str_app_cons. intros [Hp|Hs]; cbn [contains_text]; apply orb_true_iff; [left|right; auto].
    apply starts_with_app in Hp as [u Hu]. apply starts_with_app. exists (u +:+ t).
    by rewrite <-str_app_cons, Hu, str_app_assoc.
Qed.

Lemma dashes_not_across s : contains_text (String newline "---") (s +:+ String newline "") = contains_text (String newline "---") s.
Proof.
  induction s as [|a s IH]; [done|]. rewrite str_app_cons. cbn [contains_text]. rewrite IH. f_equal.
  destruct s as [|b [|c [|d s]]]; cbn [starts_with append]; try done; by rewrite ?andb_false_r.
Qed.

Lemma readable_one_final_newline s : contains_text (String newline "---") s = false ->
  readable_content (one_final_newline s) = true.
Proof.
  intros Hs. unfold readable_content, one_final_newline. rewrite dashes_not_across. apply negb_true_iff.
  destruct (trim_end_byte_split newline s) as (tail & Heq & _ & _).
  destruct (contains_text _ (trim_end_byte newline s)) eqn:Ec; [|done].
  apply (contains_text_app_l _ _ tail) in Ec. rewrite <-Heq in Ec. congruence.
Qed.

(** ** Bytes of the front matter *)

Definition plain (c : ascii) : bool := between 32 126 c.

Lemma token_plain c : token_byte c = true -> plain c = true.
Proof. unfold token_byte, plain, between. rewrite !orb_true_iff, !andb_true_iff, !Z.leb_le, !Z.eqb_eq. lia. Qed.
Lemma b64_token c : b64_byte c = true -> token_byte c = true.
Proof. unfold token_byte, b64_byte. rewrite !orb_true_iff. tauto. Qed.
Lemma plain_ascii c : plain c = true -> between 0 127 c = true.
Proof. unfold plain, between. rewrite !andb_true_iff, !Z.leb_le. lia. Qed.

Lemma plain_line s : all_bytes plain s = true -> one_line s /\ contains_byte return_ s = false.
Proof.
  intros Hs. assert (Hr : contains_byte return_ s = false) by (by eapply all_bytes_excludes; [|exact Hs]).
  split; [split; [by eapply all_bytes_excludes; [|exact Hs]|]|done].
  unfold ends_with_byte. destruct (strip_suffix (String return_ "") s) as [u|] eqn:E; [|done].
  apply strip_suffix_some in E. subst s. rewrite contains_byte_app in Hr. cbn in Hr. by rewrite orb_true_r in Hr.
Qed.

(** The first terminator follows the lines of the front matter. *)
Definition opens_plainly (s : string) : Prop := exists c t, s = String c t /\ Ascii.eqb "-" c = false.

Lemma terminator_skip line rest : contains_byte newline line = false ->
  split_once_text TERMINATOR (line +:+ rest)
  = match split_once_text TERMINATOR rest with Some (a, b) => Some (line +:+ a, b) | None => None end.
Proof. apply (split_once_text_skip newline ("---" +:+ String newline "")). Qed.

Lemma split_terminator lines content : lines <> [] -> Forall (fun s => contains_byte newline s = false) lines ->
  Forall opens_plainly lines ->
  split_once_text TERMINATOR (join_byte newline lines +:+ TERMINATOR +:+ content) = Some (join_byte newline lines, content).
Proof.
  intros Hne Hl Ho. induction Hl as [|p lines Hp Hl IH]; [done|]. apply Forall_cons_1 in Ho as [_ Ho].
  destruct lines as [|q lines].
  - cbn [join_byte]. rewrite terminator_skip by done.
    rewrite split_once_text_here. by rewrite str_app_nil.
  - rewrite join_byte_cons, str_app_assoc, terminator_skip by done.
    rewrite str_app_cons. pose proof (Forall_inv Ho) as (c & t & Hq & Hc).
    assert (Hstep : forall rest, strip_prefix TERMINATOR (String newline (join_byte newline (q :: lines) +:+ rest)) = None).
    { intros rest. rewrite Hq, join_byte_head, str_app_cons.
      change TERMINATOR with (String newline (String "-" ("--" +:+ String newline ""))). cbn [strip_prefix].
      by rewrite Ascii.eqb_refl, Hc. }
    cbn [split_once_text]. rewrite Hstep, IH by done. done.
Qed.

(** ** Printing and reading back *)

Section roundtrip.
Context `{Base64} {laws : Base64Laws}.

(** The front matter line by line. *)
Definition front_lines (d : MemoryControlDocument) : list string :=
  ["schema_version: 1"; "record_ref: " +:+ record_ref_render (cd_record_ref d);
   "authority: " +:+ authority_name (cd_authority d); "memory_type: " +:+ type_name (cd_memory_type d);
   "memory_role: " +:+ role_name (cd_memory_role d); "scope: " +:+ scope_name (cd_scope d);
   "scope_owner_b64: " +:+ b64_encode (cd_scope_owner_id d); "lifecycle: " +:+ lifecycle_name (cd_lifecycle d);
   "sensitivity: " +:+ sensitivity_name (cd_sensitivity d)]
  ++ (if cd_erase d then ["erase: true"] else []).

Lemma render_lines d :
  document_render d = HEADER +:+ join_byte newline (front_lines d) +:+ TERMINATOR +:+ cd_content d.
Proof.
  unfold document_render, front_lines, front_line. destruct (cd_erase d); cbn [app join_byte];
    repeat (rewrite str_app_assoc || rewrite (str_app_cons newline)); reflexivity.
Qed.

Lemma ref_token d limits : ref_ok (dl_max_id_bytes limits) (cd_record_ref d) ->
  all_bytes token_byte (record_ref_render (cd_record_ref d)) = true.
Proof.
  destruct (cd_record_ref d) as [r v|t]; cbn [ref_ok record_ref_render]; intros Hr; rewrite !all_bytes_app, ?andb_true_iff.
  - split_and!; try done; (eapply all_bytes_impl; [apply b64_token|apply b64_alphabet]).
  - unfold valid_token in Hr. bool_hyps. done.
Qed.

Lemma owner_token d : all_bytes token_byte (b64_encode (cd_scope_owner_id d)) = true.
Proof. eapply all_bytes_impl; [apply b64_token|apply b64_alphabet]. Qed.

Lemma front_lines_plain d limits : ref_ok (dl_max_id_bytes limits) (cd_record_ref d) ->
  Forall (fun s => all_bytes plain s = true) (front_lines d) /\ Forall opens_plainly (front_lines d).
Proof.
  intros Hr. pose proof (all_bytes_impl _ _ _ token_plain (ref_token d limits Hr)) as Href.
  pose proof (all_bytes_impl _ _ _ token_plain (owner_token d)) as Howner.
  unfold front_lines. split; apply Forall_app; split; try (destruct (cd_erase d); repeat constructor; by eexists _, _).
  repeat constructor; rewrite ?all_bytes_app, ?Href, ?Howner; [done..| | | | | | |];
    [destruct (cd_authority d)|destruct (cd_memory_type d)|destruct (cd_memory_role d)|destruct (cd_scope d)| |
     destruct (cd_lifecycle d)|destruct (cd_sensitivity d)]; reflexivity.
Qed.

Lemma decode_encoded_identity x max_bytes : valid_decoded_identity x max_bytes = true -> utf8_valid x = true ->
  decode_identity (b64_encode x) max_bytes = Ok x.
Proof.
  intros Hv Hu. unfold decode_identity, from_utf8. rewrite b64_decode_encode. cbn [ok_or].
  rewrite Hu. cbn [ok_or]. by rewrite Hv, String.eqb_refl.
Qed.

Lemma encoded_no_dot x : contains_byte dot (b64_encode x) = false.
Proof. by eapply all_bytes_excludes; [|apply b64_alphabet]. Qed.

Lemma parse_rendered_ref r max_id_bytes : ref_ok max_id_bytes r -> parse_record_ref (record_ref_render r) max_id_bytes = Ok r.
Proof.
  destruct r as [record_id revision_id|token]; cbn [ref_ok record_ref_render]; intros Hr; unfold parse_record_ref.
  - destruct Hr as ((Hr1 & Hr2) & Hv1 & Hv2). rewrite (proj2 (strip_prefix_some "existing." _ _) eq_refl).
    change ("." +:+ b64_encode revision_id) with (String dot (b64_encode revision_id)).
    rewrite split_once_skip by apply encoded_no_dot. cbn [ok_or]. rewrite encoded_no_dot.
    by rewrite !decode_encoded_identity.
  - assert (strip_prefix "existing." ("new." +:+ token) = None) as -> by done.
    rewrite (proj2 (strip_prefix_some "new." _ _) eq_refl). by rewrite Hr.
Qed.

Lemma valid_token_of s max : s <> "" -> str_len s <= max -> all_bytes token_byte s = true -> valid_token s max = true.
Proof.
  intros Hs Hl Ht. unfold valid_token. rewrite Ht, (proj2 (Z.leb_le _ _) Hl), andb_true_r, andb_true_r.
  unfold str_is_empty. apply negb_true_iff, String.eqb_neq. done.
Qed.

Lemma encoded_nonempty x max_bytes : valid_decoded_identity x max_bytes = true -> b64_encode x <> "".
Proof.
  unfold valid_decoded_identity, str_is_empty. intros Hv Hx. bool_hyps. pose proof (b64_length x) as Hl. rewrite Hx in Hl.
  destruct x as [|c x]; [done|]. unfold str_len in Hl. cbn [String.length] in Hl. Z.div_mod_to_equations. lia.
Qed.

Lemma parse_front_line_ok index key label value : label = key +:+ ": " -> default "erase" (BASE_KEYS !! index) = key -> contains_byte colon key = false ->
  valid_token value 512 = true -> parse_front_line index (label +:+ value) = Ok value.
Proof.
  intros -> Hkey Hc Hv. unfold parse_front_line. rewrite str_app_assoc.
  rewrite (split_once_text_skip colon " "), (split_once_text_here ": ") by done. cbn [ok_or].
  by rewrite str_app_nil, Hkey, String.eqb_refl, Hv.
Qed.

Definition front_values (d : MemoryControlDocument) : list string :=
  ["1"; record_ref_render (cd_record_ref d); authority_name (cd_authority d); type_name (cd_memory_type d);
   role_name (cd_memory_role d); scope_name (cd_scope d); b64_encode (cd_scope_owner_id d);
   lifecycle_name (cd_lifecycle d); sensitivity_name (cd_sensitivity d)]
  ++ (if cd_erase d then ["true"] else []).

Lemma parse_front_lines d limits : document_ok limits d -> tokens_fit d = true ->
  parse_front 0 (front_lines d) = Ok (front_values d).
Proof.
  intros [Hr Ho _ _ _ _] Hfit. unfold tokens_fit in Hfit. apply andb_true_iff in Hfit as [H1 H2].
  assert (Href : valid_token (record_ref_render (cd_record_ref d)) 512 = true).
  { apply valid_token_of; [by destruct (cd_record_ref d)|by apply Z.leb_le|by eapply ref_token]. }
  assert (Howner : valid_token (b64_encode (cd_scope_owner_id d)) 512 = true).
  { apply valid_token_of; [by eapply encoded_nonempty|by apply Z.leb_le|apply owner_token]. }
  unfold front_lines, front_values. cbn [app parse_front].
  rewrite (parse_front_line_ok 0 "schema_version" "schema_version: " "1" eq_refl eq_refl eq_refl eq_refl : parse_front_line 0 "schema_version: 1" = _).
  rewrite (parse_front_line_ok 1 "record_ref" "record_ref: ") by done.
  rewrite (parse_front_line_ok 2 "authority" "authority: ") by (by destruct (cd_authority d)).
  rewrite (parse_front_line_ok 3 "memory_type" "memory_type: ") by (by destruct (cd_memory_type d)).
  rewrite (parse_front_line_ok 4 "memory_role" "memory_role: ") by (by destruct (cd_memory_role d)).
  rewrite (parse_front_line_ok 5 "scope" "scope: ") by (by destruct (cd_scope d)).
  rewrite (parse_front_line_ok 6 "scope_owner_b64" "scope_owner_b64: ") by done.
  rewrite (parse_front_line_ok 7 "lifecycle" "lifecycle: ") by (by destruct (cd_lifecycle d)).
  rewrite (parse_front_line_ok 8 "sensitivity" "sensitivity: ") by (by destruct (cd_sensitivity d)).
  by destruct (cd_erase d).
Qed.

(** The printed bytes: UTF-8, no carriage return, cut at the first terminator. *)
Lemma rendered_bytes d limits : document_ok limits d ->
  from_utf8 (document_render d) = Some (document_render d) /\ contains_byte return_ (document_render d) = false
  /\ split_once_text TERMINATOR (join_byte newline (front_lines d) +:+ TERMINATOR +:+ cd_content d)
     = Some (join_byte newline (front_lines d), cd_content d)
  /\ lines (join_byte newline (front_lines d)) = front_lines d.
Proof.
  intros [Hr _ _ (_ & _ & Hcr & Hutf) _ _]. destruct (front_lines_plain d limits Hr) as [Hplain Hopen].
  assert (Hjoin : forall c, Ascii.eqb c newline = false -> plain c = false -> contains_byte c (join_byte newline (front_lines d)) = false).
  { intros c Hc Hp. clear Hopen. induction Hplain as [|s [|t l] Hs Hl IH]; [done| |].
    - by eapply all_bytes_excludes.
    - rewrite join_byte_cons, contains_byte_app, (all_bytes_excludes _ _ _ Hp Hs). cbn [contains_byte]. by rewrite Hc. }
  assert (Hjutf : utf8_valid (join_byte newline (front_lines d)) = true).
  { apply ascii_utf8. clear Hopen Hjoin. induction Hplain as [|s [|t l] Hs Hl IH]; [done| |].
    - by apply (all_bytes_impl _ _ _ plain_ascii).
    - rewrite join_byte_cons, all_bytes_app, (all_bytes_impl _ _ _ plain_ascii Hs). cbn [all_bytes]. by rewrite IH. }
  rewrite render_lines. split_and!.
  - unfold from_utf8. rewrite utf8_valid_app; [done|done|]. repeat (apply utf8_valid_app; [done|]). done.
  - rewrite !contains_byte_app, Hjoin, Hcr by done. done.
  - apply split_terminator; [done| |done]. eapply Forall_impl; [exact Hplain|]. intros s Hs. by apply plain_line in Hs as [[? _] _].
  - apply lines_join; [done| |].
    + eapply Forall_impl; [exact Hplain|]. intros s Hs. by apply plain_line in Hs as [? _].
    + unfold front_lines. by destruct (cd_erase d).
Qed.

(** Every document the constructors make prints to bytes that read back as that
    document when its content and its tokens allow it. *)
Lemma parse_rendered d limits : document_ok limits d -> tokens_fit d = true -> readable_content (cd_content d) = true ->
  parse_memory_document (document_render d) limits = Ok d.
Proof.
  intros Hok Hfit Hread. destruct (rendered_bytes d limits Hok) as (Hutf & Hcr & Hsplit & Hlines).
  pose proof (parse_front_lines d limits Hok Hfit) as Hfront.
  destruct Hok as [Hr Ho Hou (Hone & Hne & _ & _) Hcb Hdb]. unfold parse_memory_document.
  rewrite (proj2 (Z.ltb_ge _ _) Hdb), Hutf. cbn [ok_or]. unfold bare_return. rewrite Hcr, (crlf_to_lf_id _ Hcr). cbn [andb].
  rewrite (proj2 (strip_prefix_some _ _ _) (render_lines d)). cbn [ok_or]. rewrite Hsplit. cbn [ok_or].
  unfold readable_content in Hread. apply negb_true_iff in Hread. rewrite Hread, Hlines.
  assert (negb (length (front_lines d) =? 9)%nat && negb (length (front_lines d) =? 10)%nat = false) as ->.
  { unfold front_lines. by destruct (cd_erase d). }
  rewrite Hfront. cbv zeta.
  change (default "" (front_values d !! 0%nat) =? "1")%string with true.
  change (default "" (front_values d !! 1%nat)) with (record_ref_render (cd_record_ref d)).
  change (default "" (front_values d !! 2%nat)) with (authority_name (cd_authority d)).
  change (default "" (front_values d !! 3%nat)) with (type_name (cd_memory_type d)).
  change (default "" (front_values d !! 4%nat)) with (role_name (cd_memory_role d)).
  change (default "" (front_values d !! 5%nat)) with (scope_name (cd_scope d)).
  change (default "" (front_values d !! 6%nat)) with (b64_encode (cd_scope_owner_id d)).
  change (default "" (front_values d !! 7%nat)) with (lifecycle_name (cd_lifecycle d)).
  change (default "" (front_values d !! 8%nat)) with (sensitivity_name (cd_sensitivity d)).
  rewrite (parse_rendered_ref _ _ Hr). cbn [negb].
  assert (parse_authority (authority_name (cd_authority d)) = Ok (cd_authority d)) as -> by (by destruct (cd_authority d)).
  assert (parse_type (type_name (cd_memory_type d)) = Ok (cd_memory_type d)) as -> by (by destruct (cd_memory_type d)).
  assert (parse_role (role_name (cd_memory_role d)) = Ok (cd_memory_role d)) as -> by (by destruct (cd_memory_role d)).
  assert (parse_scope (scope_name (cd_scope d)) = Ok (cd_scope d)) as -> by (by destruct (cd_scope d)).
  rewrite decode_encoded_identity by done.
  assert (parse_lifecycle (lifecycle_name (cd_lifecycle d)) = Ok (cd_lifecycle d)) as -> by (by destruct (cd_lifecycle d)).
  assert (parse_sensitivity (sensitivity_name (cd_sensitivity d)) = Ok (cd_sensitivity d)) as -> by (by destruct (cd_sensitivity d)).
  rewrite Hone, (proj2 (String.eqb_neq _ _) Hne), (proj2 (Z.ltb_ge _ _) Hcb).
  destruct d as [rr au mt mr sc so li se er co]. cbn in *. by destruct er; cbn; rewrite (proj2 (Z.ltb_ge _ _) Hdb).
Qed.

(** ** What the reader and the constructors accept *)

Lemma decode_identity_ok value max_bytes x : decode_identity value max_bytes = Ok x ->
  valid_decoded_identity x max_bytes = true /\ utf8_valid x = true /\ b64_encode x = value.
Proof.
  unfold decode_identity, from_utf8. intros Hd. destruct (b64_decode value) as [bytes|]; [|done]. cbn [ok_or] in Hd.
  destruct (utf8_valid bytes) eqn:Hu; [|done]. cbn [ok_or] in Hd. destruct (_ || _) eqn:E in Hd; [done|].
  injection Hd as <-. bool_hyps. done.
Qed.

Lemma parse_record_ref_ok value max_id_bytes r : parse_record_ref value max_id_bytes = Ok r ->
  ref_ok max_id_bytes r /\ record_ref_render r = value.
Proof.
  unfold parse_record_ref. destruct (strip_prefix "existing." value) as [rest|] eqn:E1.
  - intros Hp. destruct (split_once dot rest) as [[record revision]|] eqn:E; [|done]. cbn [ok_or] in Hp.
    destruct (contains_byte dot revision); [done|]. destruct (decode_identity record _) as [x|] eqn:Ex; [|done].
    destruct (decode_identity revision _) as [y|] eqn:Ey; [|done]. injection Hp as <-.
    apply decode_identity_ok in Ex as (? & ? & <-). apply decode_identity_ok in Ey as (? & ? & <-). apply strip_prefix_some in E1. split; [cbn; tauto|].
    rewrite E1. cbn [record_ref_render]. by rewrite (split_once_some _ _ _ _ E).
  - destruct (strip_prefix "new." value) as [token|] eqn:E2; [|done]. intros Hp.
    destruct (valid_token token 64) eqn:Et; [|done]. injection Hp as <-. apply strip_prefix_some in E2. by subst.
Qed.

Lemma parse_front_tokens index lines values : parse_front index lines = Ok values ->
  Forall (fun v => str_len v <= 512) values.
Proof.
  revert index values. induction lines as [|line lines IH]; intros index values; cbn [parse_front]; [by intros [= <-]|].
  destruct (parse_front_line index line) as [v|] eqn:E; [|done].
  destruct (parse_front (S index) lines) as [vs|] eqn:E'; [|done]. intros [= <-]. constructor; [|by eapply IH].
  unfold parse_front_line in E. destruct (split_once_text ": " line) as [[key value]|]; [|done]. cbn [ok_or] in E.
  destruct (_ || _) eqn:Ev in E; [done|]. injection E as <-. unfold valid_token in *. bool_hyps. done.
Qed.

Lemma front_value_fits values index : Forall (fun v => str_len v <= 512) values ->
  str_len (default "" (values !! index)) <= 512.
Proof.
  intros Hv. destruct (values !! index) as [v|] eqn:E; [|done]. cbn. by eapply Forall_lookup_1 in E; [|exact Hv].
Qed.

Lemma normalized_no_return raw : bare_return raw = false -> contains_byte return_ (crlf_to_lf raw) = false.
Proof.
  unfold bare_return. rewrite andb_false_iff. intros [Hr|Hr]; [|done]. by rewrite crlf_to_lf_id.
Qed.

Lemma content_ok_of raw : contains_byte return_ raw = false -> utf8_valid raw = true ->
  one_final_newline raw <> String newline "" -> content_ok (one_final_newline raw).
Proof.
  intros Hr Hu Hne. split_and!; [apply one_final_newline_idem|done| |].
  - unfold one_final_newline. rewrite contains_byte_app. destruct (trim_end_byte_split newline raw) as (tail & Heq & _).
    rewrite Heq, contains_byte_app in Hr. apply orb_false_iff in Hr as [-> _]. done.
  - unfold one_final_newline. apply utf8_valid_app; [|done].
    destruct (trim_end_byte_split newline raw) as (tail & Heq & Ht & _). destruct tail as [|c tail].
    + rewrite str_app_nil in Heq. congruence.
    + cbn [all_bytes] in Ht. apply andb_true_iff in Ht as [Hc _]. apply Ascii.eqb_eq in Hc as <-.
      rewrite Heq in Hu. by apply utf8_valid_cut in Hu as [? _].
Qed.

Lemma parse_document_ok bytes limits d : parse_memory_document bytes limits = Ok d ->
  document_ok limits d /\ tokens_fit d = true /\ readable_content (cd_content d) = true.
Proof.
  unfold parse_memory_document, from_utf8. intros Hp. destruct (_ <? str_len bytes) eqn:Eb in Hp; [done|].
  destruct (utf8_valid bytes) eqn:Hutf; [|done]. cbn [ok_or] in Hp.
  destruct (bare_return bytes) eqn:Ebare; [done|]. apply normalized_no_return in Ebare. apply utf8_valid_crlf in Hutf.
  destruct (strip_prefix HEADER (crlf_to_lf bytes)) as [rest|] eqn:Eh; [|done]. cbn [ok_or] in Hp.
  destruct (split_once_text TERMINATOR rest) as [[front raw_content]|] eqn:Es; [|done]. cbn [ok_or] in Hp.
  destruct (contains_text (String newline "---") raw_content) eqn:Ed; [done|].
  destruct (_ && _) eqn:El in Hp; [done|]. destruct (parse_front 0 (lines front)) as [values|] eqn:Ef; [|done].
  apply parse_front_tokens in Ef. pose proof (front_value_fits values 1 Ef). pose proof (front_value_fits values 6 Ef).
  cbv zeta in Hp. destruct (negb (default "" (values !! 0%nat) =? "1")%string); [done|].
  destruct (parse_record_ref _ _) as [rr|] eqn:E1; [|done]. apply parse_record_ref_ok in E1 as [Hr Hrr].
  destruct (parse_authority _) as [au|]; [|done]. destruct (parse_type _) as [mt|]; [|done].
  destruct (parse_role _) as [mr|]; [|done]. destruct (parse_scope _) as [sc|]; [|done].
  destruct (decode_identity _ _) as [so|] eqn:E2; [|done]. apply decode_identity_ok in E2 as (Ho & Hou & Hoe).
  destruct (parse_lifecycle _) as [li|]; [|done]. destruct (parse_sensitivity _) as [se|]; [|done].
  destruct (is_some _ && _); [done|]. destruct (_ || _) eqn:E3 in Hp; [done|].
  apply orb_false_iff in E3 as [Hne Hcb]. apply String.eqb_neq in Hne. apply Z.ltb_ge in Hcb.
  destruct (_ <? _) eqn:E4 in Hp; [done|]. apply Z.ltb_ge in E4. injection Hp as <-.
  apply strip_prefix_some in Eh. apply split_once_text_some in Es. subst rest. rewrite Eh in Ebare, Hutf.
  rewrite !contains_byte_app in Ebare. apply orb_false_iff in Ebare as [_ Ebare].
  apply orb_false_iff in Ebare as [_ Ebare]. apply orb_false_iff in Ebare as [_ Ebare].
  assert (Hu : utf8_valid raw_content = true).
  { change (HEADER +:+ ?x) with ("---" +:+ String newline x) in Hutf. apply utf8_valid_cut in Hutf as [_ Hutf]; [|done].
    change (TERMINATOR +:+ raw_content) with (String newline ("---" +:+ String newline raw_content)) in Hutf.
    apply utf8_valid_cut in Hutf as [_ Hutf]; [|done]. by apply utf8_valid_cut in Hutf as [_ ?]. }
  split_and!.
  - constructor; cbn; try done. by apply content_ok_of.
  - unfold tokens_fit. cbn. apply andb_true_iff. rewrite Hrr, Hoe. split; by apply Z.leb_le.
  - cbn. by apply readable_one_final_newline.
Qed.

(** ** Round trips *)

Lemma parse_unreadable d limits : document_ok limits d -> readable_content (cd_content d) = false ->
  parse_memory_document (document_render d) limits = Err InvalidSnapshot.
Proof.
  intros Hok Hread. destruct (rendered_bytes d limits Hok) as (Hutf & Hcr & Hsplit & _).
  destruct Hok as [_ _ _ _ _ Hdb]. unfold parse_memory_document.
  rewrite (proj2 (Z.ltb_ge _ _) Hdb), Hutf. cbn [ok_or]. unfold bare_return. rewrite Hcr, (crlf_to_lf_id _ Hcr). cbn [andb].
  rewrite (proj2 (strip_prefix_some _ _ _) (render_lines d)). cbn [ok_or]. rewrite Hsplit. cbn [ok_or].
  unfold readable_content in Hread. apply negb_false_iff in Hread. by rewrite Hread.
Qed.

(** Identities of at most 188 bytes encode to values the reader admits. *)
Lemma short_ids_fit d limits : dl_max_id_bytes limits <= 188 -> document_ok limits d -> tokens_fit d = true.
Proof.
  intros Hmax [Hr Ho _ _ _ _]. unfold tokens_fit, valid_decoded_identity in *.
  assert (Henc : forall x, str_len x <= 188 -> str_len (b64_encode x) <= 251).
  { intros x Hx. rewrite b64_length. Z.div_mod_to_equations. lia. }
  apply andb_true_iff. rewrite !Z.leb_le. bool_hyps. pose proof (Henc (cd_scope_owner_id d)). split; [|lia].
  destruct (cd_record_ref d) as [r v|t]; cbn [ref_ok record_ref_render] in *; rewrite !str_len_app.
  - destruct Hr as ((Hr & _) & Hv & _). unfold valid_decoded_identity in *. bool_hyps.
    pose proof (Henc r). pose proof (Henc v). change (str_len "existing.") with 9. change (str_len ".") with 1. lia.
  - unfold valid_token in Hr. bool_hyps. change (str_len "new.") with 4. lia.
Qed.

Lemma repository_document_ok record_id revision_id authority memory_type memory_role scope owner lifecycle sensitivity
    raw limits d :
  from_repository_record record_id revision_id authority memory_type memory_role scope owner lifecycle sensitivity raw limits = Ok d ->
  Forall (fun s => utf8_valid s = true) [record_id; revision_id; owner; raw] -> document_ok limits d.
Proof.
  unfold from_repository_record. intros Hd Hutf. rewrite !Forall_cons in Hutf. destruct Hutf as (H1 & H2 & H3 & H4 & _).
  destruct (_ || _) eqn:E1 in Hd; [done|]. cbv zeta in Hd. destruct (_ =? _)%string eqn:E2 in Hd; [done|].
  destruct (_ <? _) eqn:E3 in Hd; [done|]. destruct (_ <? _) eqn:E4 in Hd; [done|]. injection Hd as <-. bool_hyps.
  constructor; cbn; try done. apply content_ok_of; [by apply normalized_no_return|by apply utf8_valid_crlf|done].
Qed.

(** C17: A memory document the reader accepts prints to canonical bytes that read back as the same
    document; the document of a repository record with identities of at most 188 bytes does so
    exactly when no line of its content after the first starts with three dashes, and its printed
    form is refused as an invalid snapshot otherwise. *)
Theorem memory_document_roundtrip limits (Hids : dl_max_id_bytes limits <= 188) :
  (forall bytes d, parse_memory_document bytes limits = Ok d -> parse_memory_document (document_render d) limits = Ok d)
  /\ forall record_id revision_id authority memory_type memory_role scope owner lifecycle sensitivity raw d,
       Forall (fun s => utf8_valid s = true) [record_id; revision_id; owner; raw] ->
       from_repository_record record_id revision_id authority memory_type memory_role scope owner lifecycle sensitivity
         raw limits = Ok d ->
       parse_memory_document (document_render d) limits
       = if contains_text (String newline "---") (cd_content d) then Err InvalidSnapshot else Ok d.
Proof.
  split.
  - intros bytes d Hd. apply parse_document_ok in Hd as (Hok & Hfit & Hread). by apply parse_rendered.
  - intros * Hutf Hd. pose proof (repository_document_ok _ _ _ _ _ _ _ _ _ _ _ _ Hd Hutf) as Hok.
    destruct (contains_text _ _) eqn:E.
    + apply parse_unreadable; [done|]. unfold readable_content. by rewrite E.
    + apply parse_rendered; [done|by eapply short_ids_fit|]. unfold readable_content. by rewrite E.
Qed.
End roundtrip.

(** A draft token may hold dots. *)
Theorem draft_token_admits_dots `{Base64} (max_id_bytes : Z) :
  parse_record_ref "new.a.b" max_id_bytes = Ok (NewRef "a.b").
Proof. reflexivity. Qed.

Section sample.
Definition sample_limits : MemoryDocumentLimits := mkDocumentLimits 4096 2048 128.
Definition dashed_content : string := "first" +:+ String newline "--- second".

Import UrlSafe.
(** An edited document with Windows line ends and a record whose text holds a
    rule: the first reads back, the second is refused. *)
Lemma memory_document_roundtrip_witness :
  dl_max_id_bytes sample_limits <= 188
  /\ (exists bytes d, parse_memory_document bytes sample_limits = Ok d /\ document_render d <> bytes
        /\ parse_memory_document (document_render d) sample_limits = Ok d)
  /\ exists d, from_repository_record "record" "revision" UserDeclared SemanticMemory PreferenceKind UserClass "owner"
                 HypActive Ordinary dashed_content sample_limits = Ok d
        /\ parse_memory_document (document_render d) sample_limits = Err InvalidSnapshot.
Proof.
  split; [done|].
  destruct (memory_document_roundtrip sample_limits ltac:(done)) as [Hread Hwrite]. split.
  - set (d := mkDocument (NewRef "draft-1") UserDeclared SemanticMemory PreferenceKind UserClass "owner" HypActive Ordinary
                false ("text" +:+ String newline "")).
    exists (document_render d +:+ String return_ (String newline "")), d.
    assert (Hd : parse_memory_document (document_render d +:+ String return_ (String newline "")) sample_limits = Ok d)
      by (vm_compute; reflexivity).
    split; [exact Hd|]. split; [by vm_compute|exact (Hread _ _ Hd)].
  - eexists. assert (Hd : from_repository_record "record" "revision" UserDeclared SemanticMemory PreferenceKind UserClass
      "owner" HypActive Ordinary dashed_content sample_limits = Ok (mkDocument (ExistingRef "record" "revision") UserDeclared
        SemanticMemory PreferenceKind UserClass "owner" HypActive Ordinary false (dashed_content +:+ String newline "")))
      by (vm_compute; reflexivity).
    assert (Hu : Forall (fun s => utf8_valid s = true) ["record"; "revision"; "owner"; dashed_content])
      by (rewrite !Forall_cons; split_and!; [done..|constructor]).
    split; [exact Hd|]. rewrite (Hwrite _ _ _ _ _ _ _ _ _ _ _ Hu Hd). vm_compute. reflexivity.
Defined.
End sample.
