(* ===== verification/MemoryImport.v ===== *)
(** * Memory import plans ([engine/memory/src/control_plan.rs], [control_plan_values.rs])

    Planning the changes that edited memory documents ask of the repository, and
    the plan value with its own verification. *)

From S2P Require Import Prelude Json Text Order ToolSchema ToolPrepared Checks MemoryTypes MemoryDocument.

(** ** Values ([control_plan_values.rs]) *)

Record MemoryCurrentEntry := mkCurrent {
  ce_record_id : string;
  ce_revision_id : string;
  ce_authority : MemoryAuthority;
  ce_memory_type : MemoryType;
  ce_memory_role : MemoryKind;
  ce_scope : MemoryScopeClass;
  ce_scope_owner_id : string;
  ce_lifecycle : HypothesisState;
  ce_sensitivity : MemorySensitivity;
  ce_content_digest : string;
}.
#[export] Instance MemoryCurrentEntry_eq_dec : EqDecision MemoryCurrentEntry.
Proof. solve_decision. Defined.

Record MemoryAuthorizedScope := mkAuthorizedScope {
  as_scope : MemoryScopeClass;
  as_owner_id : string;
}.
#[export] Instance MemoryAuthorizedScope_eq_dec : EqDecision MemoryAuthorizedScope.
Proof. solve_decision. Defined.

(** The derived order: the class first, then the owner. *)
Definition scope_class_rank (s : MemoryScopeClass) : Z :=
  match s with SessionClass => 0 | AgentInstanceClass => 1 | UserClass => 2 | ProjectClass => 3 | PlatformClass => 4 end.
Definition authorized_scope_view (s : MemoryAuthorizedScope) : Z * string := (scope_class_rank (as_scope s), as_owner_id s).
#[export] Instance Ord_authorized_scope : Ord MemoryAuthorizedScope.
Proof. refine (Ord_view authorized_scope_view _). intros [[] o] [[] o'] [=]; by subst. Defined.

Inductive MemoryIdentityAllocation :=
  | AllocateAdd (draft_token record_id revision_id : string)
  | AllocateSupersede (record_id revision_id : string).

Inductive MemoryImportOperation :=
  | ImportAdd (source_draft_token record_id revision_id : string) (expected_absent : bool) (document_digest : string)
  | ImportSupersede (record_id expected_active_revision_id new_revision_id : string) (authority : MemoryAuthority)
      (document_digest : string) (supersedes_learned_revision_id : option string)
  | ImportArchive (record_id expected_active_revision_id document_digest : string)
  | ImportErase (record_id expected_active_revision_id document_digest : string).
#[export] Instance MemoryImportOperation_eq_dec : EqDecision MemoryImportOperation.
Proof. solve_decision. Defined.

Definition op_record_id (self : MemoryImportOperation) : string :=
  match self with
  | ImportAdd _ record_id _ _ _ | ImportSupersede record_id _ _ _ _ _
  | ImportArchive record_id _ _ | ImportErase record_id _ _ => record_id
  end.
Definition op_rank (self : MemoryImportOperation) : Z :=
  match self with ImportAdd _ _ _ _ _ => 0 | ImportSupersede _ _ _ _ _ _ => 1 | ImportArchive _ _ _ => 2 | ImportErase _ _ _ => 3 end.

Definition import_operation_json (self : MemoryImportOperation) : Value :=
  match self with
  | ImportAdd token record_id revision_id absent digest =>
      json_object [("operation", Str "add"); ("source_draft_token", Str token); ("record_id", Str record_id);
        ("revision_id", Str revision_id); ("expected_absent", Json.Bool absent); ("document_digest", Str digest)]
  | ImportSupersede record_id expected new_revision authority digest learned =>
      json_object ([("operation", Str "supersede"); ("record_id", Str record_id);
        ("expected_active_revision_id", Str expected); ("new_revision_id", Str new_revision);
        ("authority", Str (authority_name authority)); ("document_digest", Str digest)]
        ++ json_field "supersedes_learned_revision_id" Str learned)
  | ImportArchive record_id expected digest =>
      json_object [("operation", Str "archive"); ("record_id", Str record_id);
        ("expected_active_revision_id", Str expected); ("document_digest", Str digest)]
  | ImportErase record_id expected digest =>
      json_object [("operation", Str "erase"); ("record_id", Str record_id);
        ("expected_active_revision_id", Str expected); ("document_digest", Str digest)]
  end.

Definition plan_valid_identity (value : string) : bool := valid_text value 128.

(** [MemoryImportOperation::valid]. *)
Definition op_valid (self : MemoryImportOperation) : bool :=
  match self with
  | ImportAdd token record_id revision_id absent digest =>
      plan_valid_identity token && plan_valid_identity record_id && plan_valid_identity revision_id && absent
      && valid_sha256 digest
  | ImportSupersede record_id expected new_revision _ digest learned =>
      plan_valid_identity record_id && plan_valid_identity expected && plan_valid_identity new_revision
      && valid_sha256 digest && match learned with None => true | Some revision => plan_valid_identity revision end
  | ImportArchive record_id expected digest | ImportErase record_id expected digest =>
      plan_valid_identity record_id && plan_valid_identity expected && valid_sha256 digest
  end.

Record MemoryImportPlan := mkImportPlan {
  ip_export_id : string;
  ip_namespace_id : string;
  ip_through_revision : Z;
  ip_input_manifest_digest : string;
  ip_expected_repository_revision : Z;
  ip_operations : list MemoryImportOperation;
  ip_add_count : Z;
  ip_supersede_count : Z;
  ip_archive_count : Z;
  ip_erase_count : Z;
  ip_plan_digest : string;
}.

Definition is_add (op : MemoryImportOperation) : bool := match op with ImportAdd _ _ _ _ _ => true | _ => false end.
Definition is_supersede (op : MemoryImportOperation) : bool := match op with ImportSupersede _ _ _ _ _ _ => true | _ => false end.
Definition is_archive (op : MemoryImportOperation) : bool := match op with ImportArchive _ _ _ => true | _ => false end.
Definition is_erase (op : MemoryImportOperation) : bool := match op with ImportErase _ _ _ => true | _ => false end.
Definition op_count (operations : list MemoryImportOperation) (predicate : MemoryImportOperation -> bool) : Z :=
  Z.of_nat (length (filter (fun op => predicate op = true) operations)).

(** [PlanPreimage]: the plan without its digest. *)
Definition plan_preimage_json (export_id namespace_id : string) (through_revision : Z) (input_manifest_digest : string)
    (expected_repository_revision : Z) (operations : list MemoryImportOperation)
    (add_count supersede_count archive_count erase_count : Z) : Value :=
  json_object [("schema_version", json_nat 1); ("export_id", Str export_id); ("namespace_id", Str namespace_id);
    ("through_revision", json_nat through_revision); ("input_manifest_digest", Str input_manifest_digest);
    ("expected_repository_revision", json_nat expected_repository_revision);
    ("operations", Arr (import_operation_json <$> operations)); ("add_count", json_nat add_count);
    ("supersede_count", json_nat supersede_count); ("archive_count", json_nat archive_count);
    ("erase_count", json_nat erase_count)].

Definition plan_preimage (self : MemoryImportPlan) : Value :=
  plan_preimage_json (ip_export_id self) (ip_namespace_id self) (ip_through_revision self) (ip_input_manifest_digest self)
    (ip_expected_repository_revision self) (ip_operations self) (ip_add_count self) (ip_supersede_count self)
    (ip_archive_count self) (ip_erase_count self).

Section plan.
Context `{Externals, Jcs, Base64}.

(** [MemoryImportPlan::verify]. *)
Definition plan_verify (self : MemoryImportPlan) : result MemoryControlError unit :=
  let counts := (op_count (ip_operations self) is_add, op_count (ip_operations self) is_supersede,
                 op_count (ip_operations self) is_archive, op_count (ip_operations self) is_erase) in
  let ordered := ordered_unique (op_record_id <$> ip_operations self) in
  reject InvalidSnapshot when
    negb (plan_valid_identity (ip_export_id self)) || negb (plan_valid_identity (ip_namespace_id self))
    || (ip_through_revision self =? 0) || (ip_expected_repository_revision self =? 0)
    || negb (valid_sha256 (ip_input_manifest_digest self)) || negb (valid_sha256 (ip_plan_digest self))
    || existsb (fun op => negb (op_valid op)) (ip_operations self)
    || negb ordered
    || negb (bool_decide (counts = (ip_add_count self, ip_supersede_count self, ip_archive_count self, ip_erase_count self)));
  let? canonical := ok_or (jcs (plan_preimage self)) InvalidSnapshot in
  reject InvalidSnapshot when negb (sha256_hex canonical =? ip_plan_digest self)%string;
  Ok tt.

Definition canonical_operations_json (self : MemoryImportPlan) : result MemoryControlError string :=
  plan_verify self ?;
  ok_or (jcs (Arr (import_operation_json <$> ip_operations self))) InvalidSnapshot.

(** ** Planning ([control_plan.rs]) *)

(** The allocations that match a draft token, and those that match a record. *)
Definition add_allocations (draft_token : string) (allocations : list MemoryIdentityAllocation) : list (string * string) :=
  omap (fun value => match value with
                     | AllocateAdd source record_id revision_id =>
                         if (source =? draft_token)%string then Some (record_id, revision_id) else None
                     | AllocateSupersede _ _ => None
                     end) allocations.
Definition supersede_allocations (id : string) (allocations : list MemoryIdentityAllocation) : list string :=
  omap (fun value => match value with
                     | AllocateSupersede record_id revision_id => if (record_id =? id)%string then Some revision_id else None
                     | AllocateAdd _ _ _ => None
                     end) allocations.

(** [plan_add]: the operations with the pushed one. *)
Definition plan_add (document : MemoryControlDocument) (draft_token : string)
    (authorized_scopes : list MemoryAuthorizedScope) (allocations : list MemoryIdentityAllocation)
    (operations : list MemoryImportOperation) : result MemoryControlError (list MemoryImportOperation) :=
  reject ForbiddenChange when
    bool_decide (cd_authority document <> UserDeclared) || bool_decide (cd_lifecycle document <> HypActive)
    || cd_erase document
    || negb (existsb (fun value => bool_decide (as_scope value = cd_scope document)
                                   && (as_owner_id value =? cd_scope_owner_id document)%string) authorized_scopes);
  match add_allocations draft_token allocations with
  | [(record_id, revision_id)] =>
      Ok (operations ++ [ImportAdd draft_token record_id revision_id true (document_digest document)])
  | _ => Err InvalidSnapshot
  end.

(** [plan_existing]. *)
Definition plan_existing (document : MemoryControlDocument) (entry : MemoryCurrentEntry)
    (allocations : list MemoryIdentityAllocation) (operations : list MemoryImportOperation)
    : result MemoryControlError (list MemoryImportOperation) :=
  let published := bool_decide (ce_authority entry = OrganisationPublished) in
  let other_content := negb (document_content_digest document =? ce_content_digest entry)%string in
  let other_authority := bool_decide (cd_authority document <> ce_authority entry) in
  reject ForbiddenChange when
    bool_decide (cd_memory_type document <> ce_memory_type entry)
    || bool_decide (cd_memory_role document <> ce_memory_role entry)
    || bool_decide (cd_scope document <> ce_scope entry)
    || negb (cd_scope_owner_id document =? ce_scope_owner_id entry)%string
    || bool_decide (cd_sensitivity document <> ce_sensitivity entry);
  if cd_erase document then
    reject ForbiddenChange when
      other_content || bool_decide (cd_lifecycle document <> ce_lifecycle entry) || other_authority || published;
    Ok (operations ++ [ImportErase (ce_record_id entry) (ce_revision_id entry) (document_digest document)])
  else if other_content then
    reject ForbiddenChange when
      published || bool_decide (cd_authority document <> UserDeclared) || bool_decide (cd_lifecycle document <> HypActive);
    match supersede_allocations (ce_record_id entry) allocations with
    | [new_revision_id] =>
        Ok (operations ++ [ImportSupersede (ce_record_id entry) (ce_revision_id entry) new_revision_id UserDeclared
              (document_digest document)
              (if bool_decide (ce_authority entry = AgentLearned) then Some (ce_revision_id entry) else None)])
    | _ => Err InvalidSnapshot
    end
  else if bool_decide (cd_lifecycle document <> ce_lifecycle entry) then
    reject ForbiddenChange when
      bool_decide (cd_lifecycle document <> HypArchived) || bool_decide (ce_lifecycle entry <> HypCold) || other_content
      || other_authority || published;
    Ok (operations ++ [ImportArchive (ce_record_id entry) (ce_revision_id entry) (document_digest document)])
  else if other_authority then Err ForbiddenChange
  else Ok operations.

(** The key that makes two documents for one record or one draft collide. *)
Definition reference_key (r : MemoryRecordRef) : string :=
  match r with
  | ExistingRef record_id _ => "existing:" +:+ record_id
  | NewRef draft_token => "new:" +:+ draft_token
  end.

(** One document of the planning loop. *)
Definition plan_document (current : list MemoryCurrentEntry) (authorized_scopes : list MemoryAuthorizedScope)
    (allocations : list MemoryIdentityAllocation) (operations : list MemoryImportOperation)
    (document : MemoryControlDocument) : result MemoryControlError (list MemoryImportOperation) :=
  match cd_record_ref document with
  | NewRef draft_token => plan_add document draft_token authorized_scopes allocations operations
  | ExistingRef record_id revision_id =>
      let? entry := ok_or (find (fun value => (ce_record_id value =? record_id)%string) current) StaleSnapshot in
      reject StaleSnapshot when negb (ce_revision_id entry =? revision_id)%string;
      plan_existing document entry allocations operations
  end.

(** [prepare_memory_import]. *)
Definition prepare_memory_import (export_id namespace_id : string) (through_revision : Z) (input_manifest_digest : string)
    (current_repository_revision : Z) (documents : list MemoryControlDocument) (current : list MemoryCurrentEntry)
    (authorized_scopes : list MemoryAuthorizedScope) (allocations : list MemoryIdentityAllocation)
    : result MemoryControlError MemoryImportPlan :=
  reject InvalidSnapshot when
    str_is_empty export_id || str_is_empty namespace_id || (through_revision =? 0) || negb (valid_digest input_manifest_digest);
  reject StaleSnapshot when negb (through_revision =? current_repository_revision);
  reject InvalidSnapshot when negb (ordered_unique (ce_record_id <$> current)) || negb (ordered_unique authorized_scopes);
  reject InvalidSnapshot when negb (all_distinct ((fun d => reference_key (cd_record_ref d)) <$> documents));
  let? operations := try_fold (plan_document current authorized_scopes allocations) [] documents in
  let operations := sort_by_key (fun op => (op_record_id op, op_rank op)) operations in
  reject InvalidSnapshot when windows_any (fun a b => (op_record_id a =? op_record_id b)%string) operations;
  let add_count := op_count operations is_add in
  let supersede_count := op_count operations is_supersede in
  let archive_count := op_count operations is_archive in
  let erase_count := op_count operations is_erase in
  let? canonical := ok_or (jcs (plan_preimage_json export_id namespace_id through_revision input_manifest_digest
                                  current_repository_revision operations add_count supersede_count archive_count
                                  erase_count)) InvalidSnapshot in
  Ok (mkImportPlan export_id namespace_id through_revision input_manifest_digest current_repository_revision operations
        add_count supersede_count archive_count erase_count (sha256_hex canonical)).
End plan.

(** ** Memory imports: what a plan may change *)

Lemma bool_decide_same `{EqDecision A} (x : A) : bool_decide (x <> x) = false.
Proof. apply bool_decide_eq_false_2. intros Hx. by apply Hx. Qed.

(** ** What a document asks for *)

Section intents.
Context `{Externals, Base64}.
Context (current : list MemoryCurrentEntry) (authorized_scopes : list MemoryAuthorizedScope)
  (allocations : list MemoryIdentityAllocation).

(** The document names the current revision of a repository record and keeps what
    the record's identity fixes. *)
Definition addresses (d : MemoryControlDocument) (e : MemoryCurrentEntry) : Prop :=
  e ∈ current /\ cd_record_ref d = ExistingRef (ce_record_id e) (ce_revision_id e)
  /\ cd_memory_type d = ce_memory_type e /\ cd_memory_role d = ce_memory_role e /\ cd_scope d = ce_scope e
  /\ cd_scope_owner_id d = ce_scope_owner_id e /\ cd_sensitivity d = ce_sensitivity e.

(** The document repeats the record. *)
Definition repeats (d : MemoryControlDocument) (e : MemoryCurrentEntry) : Prop :=
  document_content_digest d = ce_content_digest e /\ cd_lifecycle d = ce_lifecycle e /\ cd_authority d = ce_authority e.

(** The one operation a document may ask for. *)
Inductive asks (d : MemoryControlDocument) : MemoryImportOperation -> Prop :=
  | asks_add token record_id revision_id :
      cd_record_ref d = NewRef token -> cd_authority d = UserDeclared -> cd_lifecycle d = HypActive -> cd_erase d = false ->
      mkAuthorizedScope (cd_scope d) (cd_scope_owner_id d) ∈ authorized_scopes ->
      add_allocations token allocations = [(record_id, revision_id)] ->
      asks d (ImportAdd token record_id revision_id true (document_digest d))
  | asks_supersede e revision_id :
      addresses d e -> ce_authority e <> OrganisationPublished -> cd_erase d = false ->
      document_content_digest d <> ce_content_digest e -> cd_authority d = UserDeclared -> cd_lifecycle d = HypActive ->
      supersede_allocations (ce_record_id e) allocations = [revision_id] ->
      asks d (ImportSupersede (ce_record_id e) (ce_revision_id e) revision_id UserDeclared (document_digest d)
                (if bool_decide (ce_authority e = AgentLearned) then Some (ce_revision_id e) else None))
  | asks_archive e :
      addresses d e -> ce_authority e <> OrganisationPublished -> cd_erase d = false ->
      document_content_digest d = ce_content_digest e -> cd_authority d = ce_authority e ->
      ce_lifecycle e = HypCold -> cd_lifecycle d = HypArchived ->
      asks d (ImportArchive (ce_record_id e) (ce_revision_id e) (document_digest d))
  | asks_erase e :
      addresses d e -> ce_authority e <> OrganisationPublished -> cd_erase d = true -> repeats d e ->
      asks d (ImportErase (ce_record_id e) (ce_revision_id e) (document_digest d)).

(** A document without a change. *)
Definition unchanged (d : MemoryControlDocument) : Prop :=
  exists e, addresses d e /\ cd_erase d = false /\ repeats d e.

Definition chooses (d : MemoryControlDocument) (choice : option MemoryImportOperation) : Prop :=
  match choice with Some op => asks d op | None => unchanged d end.

Lemma entry_found id e : NoDup (ce_record_id <$> current) ->
  find (fun value => (ce_record_id value =? id)%string) current = Some e <-> e ∈ current /\ ce_record_id e = id.
Proof.
  intros Hnd. split.
  - intros Hf. apply find_some in Hf as [Hin Heq]. apply String.eqb_eq in Heq. split; [by apply list_elem_of_In|done].
  - intros [Hin <-]. destruct (find _ current) as [e'|] eqn:Hf.
    + apply find_some in Hf as [Hin' Heq]. apply String.eqb_eq in Heq. f_equal.
      apply (nodup_key_inj ce_record_id current); [done|by apply list_elem_of_In|done|done].
    + apply find_none with (x := e) in Hf; [by rewrite String.eqb_refl in Hf|by apply list_elem_of_In].
Qed.

Lemma plan_add_spec d token operations operations' : cd_record_ref d = NewRef token ->
  plan_add d token authorized_scopes allocations operations = Ok operations' <->
  exists op, asks d op /\ operations' = operations ++ [op].
Proof.
  intros Href. unfold plan_add. split.
  - destruct (_ || _) eqn:E; [done|]. rewrite !orb_false_iff in E. destruct E as [[[Ha Hl] He] Hs].
    apply negb_false_iff, existsb_exists in Hs as (s & Hs & Hm). bool_hyps.
    destruct (add_allocations token allocations) as [|[r v] [|]] eqn:Ea; [done| |done]. intros [= <-].
    eexists. split; [|done]. apply dec_stable in Ha, Hl. eapply asks_add; try done. apply list_elem_of_In.
    destruct s; cbn in *. by subst.
  - intros (op & Hop & ->). destruct Hop as [t r v Ht Ha Hl He Hs Hal|e v Hadd| e Hadd|e Hadd];
      [|destruct Hadd as (_ & Hr & _); congruence..].
    assert (t = token) as -> by congruence. rewrite Ha, Hl, He, Hal.
    assert (existsb (fun value => bool_decide (as_scope value = cd_scope d) && (as_owner_id value =? cd_scope_owner_id d)%string)
      authorized_scopes = true) as ->; [|done].
    apply existsb_exists. exists (mkAuthorizedScope (cd_scope d) (cd_scope_owner_id d)). split; [by apply list_elem_of_In|].
    cbn. by rewrite bool_decide_eq_true_2, String.eqb_refl.
Qed.

Lemma plan_existing_spec d e operations operations' : e ∈ current ->
  cd_record_ref d = ExistingRef (ce_record_id e) (ce_revision_id e) -> NoDup (ce_record_id <$> current) ->
  plan_existing d e allocations operations = Ok operations' <->
  (unchanged d /\ operations' = operations) \/ exists op, asks d op /\ operations' = operations ++ [op].
Proof.
  intros Hin Href Hnd.
  assert (Hsame : forall e', addresses d e' -> e' = e).
  { intros e' (Hin' & Href' & _). rewrite Href in Href'. injection Href' as Heq _.
    by apply (nodup_key_inj ce_record_id current). }
  split.
  - unfold plan_existing. destruct (_ || _) eqn:E; [done|]. rewrite !orb_false_iff in E.
    destruct E as [[[[Ht Hr] Hs] Ho] Hse]. bool_hyps. apply dec_stable in Ht, Hr, Hs, Hse.
    assert (Hadd : addresses d e) by done.
    destruct (cd_erase d) eqn:He.
    + destruct (_ || _) eqn:E; [done|]. rewrite !orb_false_iff in E. destruct E as [[[Hc Hl] Ha] Hp]. bool_hyps.
      apply dec_stable in Hl, Ha. intros [= <-]. right. eexists. split; [|done]. by apply asks_erase.
    + destruct (document_content_digest d =? ce_content_digest e)%string eqn:Hc; cbn [negb].
      * apply String.eqb_eq in Hc. destruct (bool_decide (cd_lifecycle d <> ce_lifecycle e)) eqn:Hl.
        -- destruct (_ || _) eqn:E; [done|]. rewrite !orb_false_iff in E. destruct E as [[[[H1 H2] _] H3] H4]. bool_hyps.
           apply dec_stable in H1, H2, H3. intros [= <-]. right. eexists. split; [|done]. by apply asks_archive.
        -- destruct (bool_decide (cd_authority d <> ce_authority e)) eqn:Ha; [done|]. intros [= <-]. left. bool_hyps.
           apply dec_stable in Hl, Ha. split; [|done]. by exists e.
      * destruct (_ || _) eqn:E; [done|]. rewrite !orb_false_iff in E. destruct E as [[H1 H2] H3]. bool_hyps.
        apply dec_stable in H2, H3. destruct (supersede_allocations _ _) as [|v [|]] eqn:Hal; [done| |done].
        intros [= <-]. right. eexists. split; [|done]. by apply asks_supersede.
  - assert (Hfixed : addresses d e -> forall k : result MemoryControlError (list MemoryImportOperation),
      (if bool_decide (cd_memory_type d <> ce_memory_type e) || bool_decide (cd_memory_role d <> ce_memory_role e)
        || bool_decide (cd_scope d <> ce_scope e) || negb (cd_scope_owner_id d =? ce_scope_owner_id e)%string
        || bool_decide (cd_sensitivity d <> ce_sensitivity e) then Err ForbiddenChange else k) = k).
    { intros (_ & _ & -> & -> & -> & -> & ->) k. by rewrite !bool_decide_same, String.eqb_refl. }
    unfold plan_existing. intros [[(e' & Hadd & He & (Hc & Hl & Ha)) ->]|(op & Hop & ->)].
    + assert (e' = e) as -> by auto. rewrite Hfixed by done.
      by rewrite He, Hc, String.eqb_refl, Hl, Ha, ?bool_decide_same.
    + destruct Hop as [t r v Ht|e' v Hadd Hp He Hc Ha Hl Hal|e' Hadd Hp He Hc Ha Hl Hl'|e' Hadd Hp He (Hc & Hl & Ha)];
        [congruence|..]; assert (e' = e) as -> by auto; rewrite Hfixed by done; rewrite He.
      * rewrite (proj2 (String.eqb_neq _ _) Hc). cbn [negb]. rewrite Ha, Hl, Hal, (bool_decide_eq_false_2 _ Hp). done.
      * rewrite Hc, String.eqb_refl, Hl, Hl', Ha, (bool_decide_eq_false_2 _ Hp). cbn.
        by rewrite ?bool_decide_same.
      * rewrite Hc, String.eqb_refl, Hl, Ha, (bool_decide_eq_false_2 _ Hp).
        by rewrite ?bool_decide_same.
Qed.

(** One document: nothing, or the operation it asks for. *)
Lemma plan_document_spec d operations operations' : NoDup (ce_record_id <$> current) ->
  plan_document current authorized_scopes allocations operations d = Ok operations' <->
  exists choice, chooses d choice /\ operations' = operations ++ option_list choice.
Proof.
  intros Hnd. unfold plan_document.
  assert (Hform : (exists choice, chooses d choice /\ operations' = operations ++ option_list choice) <->
    (unchanged d /\ operations' = operations) \/ exists op, asks d op /\ operations' = operations ++ [op]).
  { split.
    - intros ([op|] & Hc & ->); [right; by exists op|left; cbn; by rewrite app_nil_r].
    - intros [[Hu ->]|(op & Hop & ->)]; [exists None; cbn; by rewrite app_nil_r|by exists (Some op)]. }
  rewrite Hform. destruct (cd_record_ref d) as [id rev|token] eqn:Href.
  - destruct (find _ current) as [e|] eqn:Hf; cbn [ok_or].
    + apply entry_found in Hf as [Hin <-]; [|done]. destruct (ce_revision_id e =? rev)%string eqn:Er; cbn [negb].
      * apply String.eqb_eq in Er as <-. by apply plan_existing_spec.
      * split; [done|]. apply String.eqb_neq in Er. intros Hcase. exfalso.
        assert (Hex : exists e', addresses d e').
        { destruct Hcase as [[(e' & Ha & _) _]|(op & Hop & _)]; [by exists e'|]. destruct Hop; [congruence|eauto..]. }
        destruct Hex as (e' & Hin' & Href' & _). rewrite Href in Href'. injection Href' as Heq ->.
        rewrite (nodup_key_inj ce_record_id current e e') in Er; done.
    + split; [done|]. intros Hcase. exfalso.
      assert (Hex : exists e', addresses d e').
      { destruct Hcase as [[(e' & Ha & _) _]|(op & Hop & _)]; [by exists e'|]. destruct Hop; [congruence|eauto..]. }
      destruct Hex as (e' & Hin' & Href' & _). rewrite Href in Href'. injection Href' as Heq _.
      assert (find (fun value => (ce_record_id value =? id)%string) current = Some e') by (by apply entry_found). congruence.
  - rewrite (plan_add_spec d token) by done. split; [by right|]. intros [[(e & (_ & Hr & _) & _) _]|?]; [congruence|done].
Qed.

Lemma plan_fold_spec documents : NoDup (ce_record_id <$> current) -> forall operations operations',
  try_fold (plan_document current authorized_scopes allocations) operations documents = Ok operations' <->
  exists choices, Forall2 chooses documents choices /\ operations' = operations ++ (choices ≫= option_list).
Proof.
  intros Hnd. induction documents as [|d documents IH]; intros operations operations'; cbn [try_fold].
  - split.
    + intros [= <-]. exists []. cbn. by rewrite app_nil_r.
    + intros (choices & Hc & ->). inversion Hc. cbn. by rewrite app_nil_r.
  - split.
    + destruct (plan_document _ _ _ operations d) as [ops|] eqn:Ed; [|done]. apply plan_document_spec in Ed as (c & Hc & ->); [|done].
      rewrite IH. intros (choices & Hcs & ->). exists (c :: choices). split; [by constructor|]. cbn. by rewrite app_assoc.
    + intros (choices & Hcs & ->). inversion Hcs as [|? c ? cs Hc Hrest]; subst.
      assert (plan_document current authorized_scopes allocations operations d = Ok (operations ++ option_list c)) as ->
        by (apply plan_document_spec; eauto).
      apply IH. exists cs. split; [done|]. cbn. by rewrite app_assoc.
Qed.
End intents.

(** ** Plans *)

(** Operations in strictly increasing order of the record they change. *)
Definition by_record (a b : MemoryImportOperation) : Prop := cmp (op_record_id a) (op_record_id b) = Lt.
Definition op_key (op : MemoryImportOperation) : string * Z := (op_record_id op, op_rank op).

Lemma op_key_le a b : key_le_of op_key a b -> key_le_of op_record_id a b.
Proof.
  unfold key_le_of, op_key, le_of. cbn. by destruct (op_record_id a ?= op_record_id b)%string.
Qed.

Lemma op_key_sorted operations :
  StronglySorted (key_le_of op_key) operations -> StronglySorted (key_le_of op_record_id) operations.
Proof. induction 1 as [|a l Hs IH Ha]; constructor; [done|]. eapply Forall_impl; [exact Ha|apply op_key_le]. Qed.

Lemma by_record_key operations : StronglySorted by_record operations -> StronglySorted (key_le_of op_key) operations.
Proof.
  induction 1 as [|a l Hs IH Ha]; constructor; [done|]. eapply Forall_impl; [exact Ha|]. intros b Hb.
  unfold by_record, key_le_of, le_of, op_key in *. cbn in *. by rewrite Hb.
Qed.

Lemma by_record_nodup operations : StronglySorted by_record operations -> NoDup (op_record_id <$> operations).
Proof.
  induction 1 as [|a l Hb IH Ha]; [constructor|]. rewrite fmap_cons, list.NoDup_cons. split; [|done].
  intros (b & Heq & Hin)%list_elem_of_fmap. rewrite Forall_forall in Ha. apply Ha in Hin. unfold by_record in Hin.
  rewrite Heq, cmp_refl in Hin. done.
Qed.

Lemma by_record_strict operations : StronglySorted (key_le_of op_key) operations ->
  windows_any (fun a b => (op_record_id a =? op_record_id b)%string) operations = false <-> StronglySorted by_record operations.
Proof.
  intros Hs. rewrite (windows_any_nodup op_record_id); [|intros a b; apply String.eqb_eq|by apply op_key_sorted].
  split; [|apply by_record_nodup].
  intros Hnd. induction Hs as [|a l Hs IH Ha]; [constructor|]. rewrite fmap_cons, list.NoDup_cons in Hnd.
  destruct Hnd as [Hn Hnd]. constructor; [by apply IH|]. rewrite Forall_forall in Ha |- *. intros b Hb.
  pose proof (op_key_le _ _ (Ha b Hb)) as Hle. unfold key_le_of in Hle. apply le_of_cases in Hle as [|Heq]; [done|].
  exfalso. apply Hn. rewrite Heq. by apply list_elem_of_fmap_2.
Qed.

Lemma by_record_sorts operations planned : StronglySorted by_record operations -> operations ≡ₚ planned ->
  sort_by_key op_key planned = operations.
Proof.
  intros Hs Hp. apply (StronglySorted_unique_strong (key_le_of op_key)).
  - intros x y Hx Hy H1 H2. rewrite sort_by_key_perm, <-Hp in Hx. apply op_key_le in H1, H2.
    apply (nodup_key_inj op_record_id operations); [by apply by_record_nodup|done|done|]. by apply (anti_symm le_of).
  - apply sort_by_key_sorted.
  - by apply by_record_key.
  - by rewrite sort_by_key_perm.
Qed.

Lemma by_record_ids operations : StronglySorted by_record operations ->
  StronglySorted (fun a b => cmp a b = Lt) (op_record_id <$> operations).
Proof. induction 1 as [|a l Hs IH Ha]; cbn; constructor; [done|]. apply Forall_fmap. exact Ha. Qed.

Lemma valid_digest_sha256 s : valid_digest s = true -> valid_sha256 s = true.
Proof.
  unfold valid_digest, valid_sha256. rewrite !andb_true_iff. intros [Hl Hb]. split; [done|].
  eapply all_bytes_impl; [|exact Hb]. intros c. unfold is_ascii_hexdigit, is_ascii_uppercase.
  rewrite !andb_true_iff, !orb_true_iff, !andb_true_iff, negb_true_iff, andb_false_iff, !Z.leb_le, !Z.leb_gt.
  intros [[[?|?]|?] ?]; [by left|by right|lia].
Qed.

Section plans.
Context `{Externals, Jcs, Base64}.

(** A plan exists exactly for a fresh, well-formed package whose documents each
    either repeat the record they name or ask for one admitted change, and it holds
    exactly those changes, one per record, in the order of the records. *)
Lemma import_plans (Hjcs : forall v, jcs v <> None) export_id namespace_id through_revision manifest_digest
    repository_revision documents current authorized_scopes allocations operations :
  (exists plan, prepare_memory_import export_id namespace_id through_revision manifest_digest repository_revision documents
                  current authorized_scopes allocations = Ok plan /\ ip_operations plan = operations) <->
  (export_id <> "" /\ namespace_id <> "" /\ through_revision <> 0 /\ valid_digest manifest_digest = true)
  /\ through_revision = repository_revision
  /\ ordered_unique (ce_record_id <$> current) = true /\ ordered_unique authorized_scopes = true
  /\ NoDup ((fun d => reference_key (cd_record_ref d)) <$> documents)
  /\ StronglySorted by_record operations
  /\ exists choices, Forall2 (chooses current authorized_scopes allocations) documents choices
       /\ operations ≡ₚ choices ≫= option_list.
Proof.
  unfold prepare_memory_import. fold op_key. split.
  - intros (plan & Hp & <-). destruct (_ || _) eqn:E1 in Hp; [done|]. unfold str_is_empty in E1.
    destruct (negb _) eqn:E2 in Hp; [done|].
    destruct (_ || _) eqn:E3 in Hp; [done|]. destruct (negb _) eqn:E4 in Hp; [done|].
    destruct (try_fold _ [] documents) as [ops|] eqn:E5; [|done]. cbv zeta in Hp.
    destruct (windows_any _ _) eqn:E6 in Hp; [done|]. destruct (jcs _) as [text|]; [|done]. injection Hp as <-. cbn [ip_operations].
    unfold all_distinct in E4. bool_hyps.
    apply plan_fold_spec in E5 as (choices & Hc & ->); [|by apply ordered_unique_nodup].
    split_and!; try done.
    + apply by_record_strict; [|exact E6]. apply sort_by_key_sorted.
    + exists choices. split; [done|]. by rewrite sort_by_key_perm.
  - intros ((Hx & Hn & Ht & Hm) & <- & Hcur & Hsc & Hnd & Hs & choices & Hc & Hp).
    rewrite Hm, Hcur, Hsc. unfold str_is_empty, all_distinct. rewrite (proj2 (String.eqb_neq _ _) Hx), (proj2 (String.eqb_neq _ _) Hn).
    rewrite (proj2 (Z.eqb_neq _ _) Ht), Z.eqb_refl, (bool_decide_eq_true_2 _ Hnd). cbn [orb negb].
    assert (try_fold (plan_document current authorized_scopes allocations) [] documents = Ok (choices ≫= option_list)) as ->.
    { apply plan_fold_spec; [by apply ordered_unique_nodup|]. by exists choices. }
    cbv zeta. rewrite (by_record_sorts _ _ Hs Hp).
    rewrite (proj2 (by_record_strict _ (by_record_key _ Hs)) Hs).
    destruct (jcs _) as [text|] eqn:Ej; [|by destruct (Hjcs _ Ej)]. eexists. split; [reflexivity|done].
Qed.

(** The plan is fixed by its arguments and its operations, and keeps its own digest. *)
Lemma prepared_plan export_id namespace_id through_revision manifest_digest repository_revision documents current
    authorized_scopes allocations plan :
  prepare_memory_import export_id namespace_id through_revision manifest_digest repository_revision documents
    current authorized_scopes allocations = Ok plan ->
  exists text, plan = mkImportPlan export_id namespace_id through_revision manifest_digest repository_revision
      (ip_operations plan) (op_count (ip_operations plan) is_add) (op_count (ip_operations plan) is_supersede)
      (op_count (ip_operations plan) is_archive) (op_count (ip_operations plan) is_erase) (sha256_hex text)
    /\ jcs (plan_preimage plan) = Some text.
Proof.
  unfold prepare_memory_import. intros Hp. destruct (_ || _) eqn:E1 in Hp; [done|]. destruct (negb _) eqn:E2 in Hp; [done|].
  destruct (_ || _) eqn:E3 in Hp; [done|]. destruct (negb _) eqn:E4 in Hp; [done|].
  destruct (try_fold _ [] documents) as [ops|] eqn:E5; [|done]. cbv zeta in Hp.
  destruct (windows_any _ _) eqn:E6 in Hp; [done|]. destruct (jcs _) as [text|] eqn:Ej in Hp; [|done]. injection Hp as <-.
  exists text. by split.
Qed.

(** ** Order and verification *)

(** The plan does not depend on the order in which the documents are read. *)
Theorem memory_import_order_free (Hjcs : forall v, jcs v <> None) export_id namespace_id through_revision manifest_digest
    repository_revision documents documents' current authorized_scopes allocations plan :
  documents ≡ₚ documents' ->
  prepare_memory_import export_id namespace_id through_revision manifest_digest repository_revision documents
    current authorized_scopes allocations = Ok plan ->
  prepare_memory_import export_id namespace_id through_revision manifest_digest repository_revision documents'
    current authorized_scopes allocations = Ok plan.
Proof.
  intros Hperm Hp. destruct (import_plans Hjcs export_id namespace_id through_revision manifest_digest repository_revision
    documents current authorized_scopes allocations (ip_operations plan)) as [Hto _].
  destruct Hto as (Hh & Hr & Hc & Hs & Hnd & Hsort & choices & Hcs & Hops); [by exists plan|].
  destruct (Permutation_Forall2 Hperm Hcs) as (choices' & Hpc & Hcs').
  destruct (import_plans Hjcs export_id namespace_id through_revision manifest_digest repository_revision
    documents' current authorized_scopes allocations (ip_operations plan)) as [_ Hfrom].
  destruct Hfrom as (plan' & Hp' & Heq).
  { split; [done|]. split_and!; try done; [by rewrite <-Hperm|]. exists choices'. split; [done|]. by rewrite Hops, Hpc. }
  rewrite Hp'. f_equal. destruct (prepared_plan _ _ _ _ _ _ _ _ _ _ Hp) as (t & Ht & Hjt).
  destruct (prepared_plan _ _ _ _ _ _ _ _ _ _ Hp') as (t' & Ht' & Hjt').
  assert (Hpre : plan_preimage plan' = plan_preimage plan) by (rewrite Ht, Ht'; cbn [plan_preimage ip_operations]; by rewrite Heq).
  rewrite Hpre, Hjt in Hjt'. injection Hjt' as ->. by rewrite Ht', Heq.
Qed.

(** A draft token is a well-formed identity: white space starts with no token byte. *)
Lemma token_identity token max : valid_token token max = true -> max <= 128 -> plan_valid_identity token = true.
Proof.
  unfold valid_token, plan_valid_identity, valid_text. rewrite !andb_true_iff. intros [[He Hl] Hb] Hmax. apply Z.leb_le in Hl.
  rewrite (proj2 (Z.leb_le (str_len token) 128)) by lia. rewrite He.
  split; [done|]. unfold is_trimmed. apply forallb_forall. intros space Hspace.
  assert (Hhead : exists c rest, space = String c rest /\ token_byte c = false).
  { rewrite <-list_elem_of_In in Hspace. unfold white_space, utf8 in Hspace.
    repeat (apply elem_of_cons in Hspace as [->|Hspace]; [by eexists _, _|]). by apply elem_of_nil in Hspace. }
  destruct Hhead as (c & rest & -> & Hc). pose proof (all_bytes_excludes _ _ _ Hc Hb) as Hno.
  assert (Happ : forall u v, token = u +:+ String c v -> False).
  { intros u v ->. rewrite contains_byte_app in Hno. cbn [contains_byte] in Hno. by rewrite Ascii.eqb_refl, orb_true_r in Hno. }
  apply andb_true_iff. split; apply negb_true_iff, not_true_iff_false; intros Hs.
  - apply starts_with_app in Hs as [t Ht]. by apply (Happ "" (rest +:+ t)).
  - assert (exists u, token = u +:+ String c rest) as [u Hu]; [|by apply (Happ u rest)].
    clear -Hs. induction token as [|d token IH]; cbn [ends_with] in Hs; apply orb_true_iff in Hs as [Hs|Hs]; try done.
    + exists "". by apply String.eqb_eq in Hs.
    + destruct (IH Hs) as [u ->]. by exists (String d u).
Qed.

(** A prepared plan over well-formed identities passes its own verification and has
    a canonical journal form. *)
Theorem memory_import_verifies (Hjcs : forall v, jcs v <> None) (Hsha : forall s, valid_sha256 (sha256_hex s) = true)
    export_id namespace_id through_revision manifest_digest repository_revision documents current authorized_scopes
    allocations plan :
  prepare_memory_import export_id namespace_id through_revision manifest_digest repository_revision documents
    current authorized_scopes allocations = Ok plan ->
  plan_valid_identity export_id = true -> plan_valid_identity namespace_id = true ->
  Forall (fun e => plan_valid_identity (ce_record_id e) = true /\ plan_valid_identity (ce_revision_id e) = true) current ->
  Forall (fun a => match a with
                   | AllocateAdd token record_id revision_id =>
                       valid_token token 64 = true /\ plan_valid_identity record_id = true /\ plan_valid_identity revision_id = true
                   | AllocateSupersede record_id revision_id => plan_valid_identity revision_id = true
                   end) allocations ->
  plan_verify plan = Ok tt /\ exists text, canonical_operations_json plan = Ok text.
Proof.
  intros Hp Hx Hn Hcur Hal. assert (Hv : plan_verify plan = Ok tt).
  2:{ split; [done|]. unfold canonical_operations_json. rewrite Hv. destruct (jcs _) as [t|] eqn:Ej; [by exists t|by destruct (Hjcs _ Ej)]. }
  destruct (import_plans Hjcs export_id namespace_id through_revision manifest_digest repository_revision
    documents current authorized_scopes allocations (ip_operations plan)) as [Hto _].
  destruct Hto as ((_ & _ & Ht & Hm) & Hr & _ & _ & _ & Hsort & choices & Hcs & Hops); [by exists plan|].
  assert (Hvalid : Forall (fun op => op_valid op = true) (ip_operations plan)).
  { assert (Hdig : forall d, valid_sha256 (document_digest d) = true) by (intros d; apply Hsha).
    rewrite Hops. clear -Hcs Hcur Hal Hdig. rewrite Forall_forall in Hcur. rewrite Forall_forall in Hal. induction Hcs as [|d [op|] ds cs Hc Hcs IH]; cbn; [constructor| |done].
    constructor; [|done]. destruct Hc as [t r v _ _ _ _ _ Halloc|e v (Hin & _) _ _ _ _ _ Halloc|e (Hin & _)|e (Hin & _)].
    - assert (Hin : AllocateAdd t r v ∈ allocations).
      { assert (Hrv : (r, v) ∈ add_allocations t allocations) by (rewrite Halloc; left).
        apply list_elem_of_omap in Hrv as ([t' r' v'|] & Hin & Heq); [|done].
        destruct (t' =? t)%string eqn:Et; [|done]. apply String.eqb_eq in Et. by simplify_eq. }
      destruct (Hal _ Hin) as (Htok & Hrid & Hvid). cbn [op_valid]. rewrite (token_identity t 64) by done. by rewrite Hrid, Hvid, Hdig.
    - assert (Hin' : exists r, AllocateSupersede r v ∈ allocations).
      { assert (Hv : v ∈ supersede_allocations (ce_record_id e) allocations) by (rewrite Halloc; left).
        apply list_elem_of_omap in Hv as ([|r' v'] & Hin' & Heq); [done|].
        destruct (r' =? _)%string; [|done]. simplify_eq. by exists r'. }
      destruct Hin' as [r Hin']. destruct (Hcur _ Hin) as [Hrid Hvid]. cbn [op_valid]. rewrite Hrid, Hvid, (Hal _ Hin'), Hdig.
      by destruct (bool_decide _).
    - destruct (Hcur _ Hin) as [Hrid Hvid]. cbn [op_valid]. by rewrite Hrid, Hvid, Hdig.
    - destruct (Hcur _ Hin) as [Hrid Hvid]. cbn [op_valid]. by rewrite Hrid, Hvid, Hdig. }
  destruct (prepared_plan _ _ _ _ _ _ _ _ _ _ Hp) as (t & Heq & Hj). unfold plan_verify. rewrite Hj, Heq. cbn -[valid_sha256 sha256_hex].
  assert (existsb (fun op => negb (op_valid op)) (ip_operations plan) = false) as ->.
  { apply not_true_iff_false. intros (op & Hin & Hbad)%existsb_exists. rewrite Forall_forall in Hvalid.
    rewrite Hvalid in Hbad by (by apply list_elem_of_In). done. }
  rewrite (proj2 (ordered_unique_sorted _) (by_record_ids _ Hsort)), Hx, Hn, Hsha, (valid_digest_sha256 _ Hm), String.eqb_refl.
  rewrite bool_decide_eq_true_2 by done. rewrite <-Hr, (proj2 (Z.eqb_neq _ _) Ht). done.
Qed.
End plans.

Section claim.
Context `{Externals, Jcs, Base64}.
(** C18: An import plan exists exactly for a fresh, well-formed package whose documents each
    repeat the record they name or ask for one admitted change: a user-declared active addition in
    an authorised scope, an edit, archival of a cold record or erasure, never of an organisation
    record; the plan holds exactly those changes, one per record, in the order of the records. *)
Theorem memory_import_exact (Hjcs : forall v, jcs v <> None) export_id namespace_id through_revision manifest_digest
    repository_revision documents current authorized_scopes allocations operations :
  (exists plan, prepare_memory_import export_id namespace_id through_revision manifest_digest repository_revision documents
                  current authorized_scopes allocations = Ok plan /\ ip_operations plan = operations) <->
  (export_id <> "" /\ namespace_id <> "" /\ through_revision <> 0 /\ valid_digest manifest_digest = true)
  /\ through_revision = repository_revision
  /\ ordered_unique (ce_record_id <$> current) = true /\ ordered_unique authorized_scopes = true
  /\ NoDup ((fun d => reference_key (cd_record_ref d)) <$> documents)
  /\ StronglySorted by_record operations
  /\ exists choices, Forall2 (chooses current authorized_scopes allocations) documents choices
       /\ operations ≡ₚ choices ≫= option_list.
Proof. by apply import_plans. Qed.
End claim.

Module ImportSample.
(** Digests kept apart by the text they are taken of. *)
#[export] Instance externals : Externals :=
  {| sha256_hex s := s; json_from_str _ := None; parse_rfc3339 _ := None; to_rfc3339 _ := "" |}.
#[export] Instance canonical_json : Jcs := fun v => match encode v with Ok s => Some s | Err _ => Some "" end.
Import UrlSafe.

Definition entry (id : string) (authority : MemoryAuthority) (lifecycle : HypothesisState) : MemoryCurrentEntry :=
  mkCurrent id "r1" authority SemanticMemory PreferenceKind UserClass "owner" lifecycle Ordinary "text".
Definition document (r : MemoryRecordRef) (authority : MemoryAuthority) (lifecycle : HypothesisState) (content : string) :=
  mkDocument r authority SemanticMemory PreferenceKind UserClass "owner" lifecycle Ordinary false content.
Definition current : list MemoryCurrentEntry :=
  [entry "a" AgentLearned HypActive; entry "b" UserDeclared HypCold; entry "c" OrganisationPublished HypActive].
Definition documents : list MemoryControlDocument :=
  [document (NewRef "draft") UserDeclared HypActive "new"; document (ExistingRef "c" "r1") OrganisationPublished HypActive "text";
   document (ExistingRef "b" "r1") UserDeclared HypArchived "text"; document (ExistingRef "a" "r1") UserDeclared HypActive "edited"].
Definition scopes : list MemoryAuthorizedScope := [mkAuthorizedScope UserClass "owner"].
Definition allocations : list MemoryIdentityAllocation := [AllocateAdd "draft" "d" "r1"; AllocateSupersede "a" "r2"].
Definition digest : string := "0000000000000000000000000000000000000000000000000000000000000000".

(** Three admitted changes next to an organisation's record that stays: the plan
    lists them by record. *)
Lemma memory_import_exact_witness :
  (forall v, jcs v <> None)
  /\ exists plan, prepare_memory_import "export" "namespace" 4 digest 4 documents current scopes allocations = Ok plan
       /\ op_record_id <$> ip_operations plan = ["a"; "b"; "d"]
       /\ exists choices, Forall2 (chooses current scopes allocations) documents choices
            /\ ip_operations plan ≡ₚ choices ≫= option_list.
Proof.
  assert (Hjcs : forall v, jcs v <> None) by (intros v; unfold jcs, canonical_json; by destruct (Json.encode v)).
  split; [exact Hjcs|].
  destruct (prepare_memory_import "export" "namespace" 4 digest 4 documents current scopes allocations) as [plan|e] eqn:Hp;
    [|vm_compute in Hp; discriminate Hp].
  exists plan. split; [reflexivity|]. split.
  - vm_compute in Hp. injection Hp as <-. reflexivity.
  - exact (proj2 (proj2 (proj2 (proj2 (proj2 (proj2 (proj1 (memory_import_exact Hjcs "export" "namespace" 4 digest 4 documents current
      scopes allocations (ip_operations plan)) (ex_intro _ plan (conj Hp eq_refl))))))))).
Defined.
End ImportSample.
