(* ===== verification/MemorySnapshot.v ===== *)
(** * Memory snapshot packages ([engine/memory/src/control_snapshot.rs],
    [control_snapshot_values.rs])

    The exported manifest with one document per current record, and the validation
    of a package read back from a file system. *)

From S2P Require Import Prelude Json Text Order ToolSchema ToolPrepared Checks MemoryTypes MemoryDocument DocumentTheorems JsonDecode.

(** ** Values *)

Record MemorySnapshotLimits := mkSnapshotLimits {
  sl_max_entries : Z;
  sl_max_total_bytes : Z;
  sl_document : MemoryDocumentLimits;
}.
Definition snapshot_limits_new (max_entries max_total_bytes : Z) (document : MemoryDocumentLimits)
    : result MemoryControlError MemorySnapshotLimits :=
  if (max_entries =? 0) || (max_total_bytes =? 0) then Err InvalidLimits
  else Ok (mkSnapshotLimits max_entries max_total_bytes document).

Record MemorySnapshotFile := mkSnapshotFile {
  sf_file_name : string;
  sf_bytes : string;
  sf_storage_identity : string;
  sf_regular : bool;
}.

Record MemorySnapshotEntry := mkSnapshotEntry {
  se_record_id : string;
  se_revision_id : string;
  se_file_name : string;
  se_authority : string;
  se_memory_type : string;
  se_memory_role : string;
  se_scope : string;
  se_scope_owner_id : string;
  se_lifecycle : string;
  se_sensitivity : string;
  se_content_digest : string;
  se_document_digest : string;
}.
#[export] Instance MemorySnapshotEntry_eq_dec : EqDecision MemorySnapshotEntry.
Proof. solve_decision. Defined.

Record MemorySnapshotManifest := mkManifest {
  sm_schema_version : Z;
  sm_export_id : string;
  sm_namespace_id : string;
  sm_through_revision : Z;
  sm_exported_at : string;
  sm_entries : list MemorySnapshotEntry;
  sm_manifest_digest : string;
}.

Record MemorySnapshot := mkSnapshot {
  sn_manifest : MemorySnapshotManifest;
  sn_manifest_json : string;
  sn_documents : list (string * MemoryControlDocument);
}.

Definition snapshot_entry_json (e : MemorySnapshotEntry) : Value :=
  json_object [("record_id", Str (se_record_id e)); ("revision_id", Str (se_revision_id e));
    ("file_name", Str (se_file_name e)); ("authority", Str (se_authority e)); ("memory_type", Str (se_memory_type e));
    ("memory_role", Str (se_memory_role e)); ("scope", Str (se_scope e)); ("scope_owner_id", Str (se_scope_owner_id e));
    ("lifecycle", Str (se_lifecycle e)); ("sensitivity", Str (se_sensitivity e));
    ("content_digest", Str (se_content_digest e)); ("document_digest", Str (se_document_digest e))].

(** [ManifestPreimage]: the manifest without its digest. *)
Definition manifest_preimage (m : MemorySnapshotManifest) : Value :=
  json_object [("schema_version", json_nat (sm_schema_version m)); ("export_id", Str (sm_export_id m));
    ("namespace_id", Str (sm_namespace_id m)); ("through_revision", json_nat (sm_through_revision m));
    ("exported_at", Str (sm_exported_at m)); ("entries", Arr (snapshot_entry_json <$> sm_entries m))].
Definition manifest_value (m : MemorySnapshotManifest) : Value :=
  json_object [("schema_version", json_nat (sm_schema_version m)); ("export_id", Str (sm_export_id m));
    ("namespace_id", Str (sm_namespace_id m)); ("through_revision", json_nat (sm_through_revision m));
    ("exported_at", Str (sm_exported_at m)); ("entries", Arr (snapshot_entry_json <$> sm_entries m));
    ("manifest_digest", Str (sm_manifest_digest m))].

(** The derived reader of a manifest ([serde_json::from_slice]). *)
Class ManifestReader := read_manifest : string -> option MemorySnapshotManifest.

(** ** Projection and validation ([control_snapshot.rs]) *)

Section snapshot.
Context `{Externals, Jcs, Base64}.

Definition validate_header (export_id namespace_id : string) (through_revision : Z) (exported_at : string)
    : result MemoryControlError unit :=
  if str_is_empty export_id || str_is_empty namespace_id || (through_revision =? 0) || negb (is_rfc3339 exported_at)
  then Err InvalidSnapshot else Ok tt.

Definition validate_unique_entries (entries : list MemorySnapshotEntry) : result MemoryControlError unit :=
  let ordered := ordered_unique ((fun v => (se_record_id v, se_revision_id v)) <$> entries) in
  if negb ordered || negb (all_distinct (se_file_name <$> entries)) || negb (all_distinct (se_content_digest <$> entries))
     || negb (all_distinct (se_document_digest <$> entries))
  then Err InvalidSnapshot else Ok tt.

Definition entry_matches (entry : MemorySnapshotEntry) (document : MemoryControlDocument) : bool :=
  (se_authority entry =? authority_name (cd_authority document))%string
  && (se_memory_type entry =? type_name (cd_memory_type document))%string
  && (se_memory_role entry =? role_name (cd_memory_role document))%string
  && (se_scope entry =? scope_name (cd_scope document))%string
  && (se_scope_owner_id entry =? cd_scope_owner_id document)%string
  && (se_lifecycle entry =? lifecycle_name (cd_lifecycle document))%string
  && (se_sensitivity entry =? sensitivity_name (cd_sensitivity document))%string
  && (se_content_digest entry =? document_content_digest document)%string
  && (se_document_digest entry =? document_digest document)%string.

Definition expected_file_name (record_id : string) : string := "entries/" +:+ sha256_hex record_id +:+ ".md".

Definition valid_file_name (value : string) : bool :=
  starts_with "entries/" value && ends_with ".md" value && negb (contains_text ".." value)
  && negb (contains_byte "\" value) && (count_byte slash value =? 1).

(** The manifest entry of one exported document. *)
Definition snapshot_entry (document : MemoryControlDocument)
    : result MemoryControlError (MemorySnapshotEntry * MemoryControlDocument) :=
  match cd_record_ref document with
  | NewRef _ => Err InvalidSnapshot
  | ExistingRef record_id revision_id =>
      reject InvalidSnapshot when cd_erase document;
      Ok (mkSnapshotEntry record_id revision_id (expected_file_name record_id) (authority_name (cd_authority document))
            (type_name (cd_memory_type document)) (role_name (cd_memory_role document)) (scope_name (cd_scope document))
            (cd_scope_owner_id document) (lifecycle_name (cd_lifecycle document))
            (sensitivity_name (cd_sensitivity document)) (document_content_digest document) (document_digest document),
          document)
  end.

(** [project_memory_snapshot]. *)
Definition project_memory_snapshot (export_id namespace_id : string) (through_revision : Z) (exported_at : string)
    (documents : list MemoryControlDocument) : result MemoryControlError MemorySnapshot :=
  validate_header export_id namespace_id through_revision exported_at ?;
  let? pairs := try_map snapshot_entry documents in
  let pairs := sort_by_key (fun pair => (se_record_id pair.1, se_revision_id pair.1)) pairs in
  reject InvalidSnapshot when windows_any (fun a b => (se_record_id a.1 =? se_record_id b.1)%string) pairs;
  let entries := pairs.*1 in
  validate_unique_entries entries ?;
  let unsigned := mkManifest 1 export_id namespace_id through_revision exported_at entries "" in
  let? bytes := ok_or (jcs (manifest_preimage unsigned)) InvalidSnapshot in
  let manifest := mkManifest 1 export_id namespace_id through_revision exported_at entries (sha256_hex bytes) in
  let? manifest_json := ok_or (jcs (manifest_value manifest)) InvalidSnapshot in
  Ok (mkSnapshot manifest manifest_json ((fun pair => (se_file_name pair.1, pair.2)) <$> pairs)).

Context `{ManifestReader, Lowercase}.

(** The names, folded names and storage identities seen so far, with the documents. *)
Record PackageScan := mkScan {
  ps_names : gset string;
  ps_folded : gset string;
  ps_storage : gset string;
  ps_documents : list (string * MemoryControlDocument);
}.

(** One file of the validation loop. *)
Definition check_file (manifest : MemorySnapshotManifest) (limits : MemorySnapshotLimits) (scan : PackageScan)
    (file : MemorySnapshotFile) : result MemoryControlError PackageScan :=
  reject InvalidSnapshot when
    negb (sf_regular file) || str_is_empty (sf_storage_identity file)
    || bool_decide (sf_storage_identity file ∈ ps_storage scan) || bool_decide (sf_file_name file ∈ ps_names scan)
    || bool_decide (to_lowercase (sf_file_name file) ∈ ps_folded scan) || negb (valid_file_name (sf_file_name file));
  let? document := parse_memory_document (sf_bytes file) (sl_document limits) in
  reject InvalidSnapshot when negb (document_render document =? sf_bytes file)%string;
  (match cd_record_ref document with
   | ExistingRef record_id revision_id =>
       let? entry := ok_or (find (fun value => (se_record_id value =? record_id)%string) (sm_entries manifest)) InvalidSnapshot in
       if negb (se_revision_id entry =? revision_id)%string || negb (se_file_name entry =? sf_file_name file)%string
          || negb (se_file_name entry =? expected_file_name record_id)%string || negb (entry_matches entry document)
       then Err InvalidSnapshot else Ok tt
   | NewRef draft_token =>
       if negb (sf_file_name file =? "entries/new-" +:+ draft_token +:+ ".md")%string then Err InvalidSnapshot else Ok tt
   end) ?;
  Ok (mkScan ({[sf_file_name file]} ∪ ps_names scan) ({[to_lowercase (sf_file_name file)]} ∪ ps_folded scan)
        ({[sf_storage_identity file]} ∪ ps_storage scan) (ps_documents scan ++ [(sf_file_name file, document)])).

(** [parse_memory_snapshot]. *)
Definition parse_memory_snapshot (manifest_json : string) (files : list MemorySnapshotFile) (limits : MemorySnapshotLimits)
    : result MemoryControlError MemorySnapshot :=
  reject BoundExceeded when
    (sl_max_entries limits <? Z.of_nat (length files)) || (sl_max_total_bytes limits <? str_len manifest_json);
  let? total := try_fold (fun total file => ok_or (checked_add total (str_len (sf_bytes file))) BoundExceeded)
                  (str_len manifest_json) files in
  reject BoundExceeded when sl_max_total_bytes limits <? total;
  let? manifest := ok_or (read_manifest manifest_json) InvalidSnapshot in
  let? canonical := ok_or (jcs (manifest_value manifest)) InvalidSnapshot in
  reject InvalidSnapshot when negb (canonical =? manifest_json)%string;
  validate_header (sm_export_id manifest) (sm_namespace_id manifest) (sm_through_revision manifest) (sm_exported_at manifest) ?;
  validate_unique_entries (sm_entries manifest) ?;
  let? digest := ok_or (jcs (manifest_preimage manifest)) InvalidSnapshot in
  reject InvalidSnapshot when
    negb (sm_schema_version manifest =? 1) || negb (sm_manifest_digest manifest =? sha256_hex digest)%string;
  let? scan := try_fold (check_file manifest limits) (mkScan ∅ ∅ ∅ []) files in
  reject InvalidSnapshot when
    existsb (fun entry => negb (bool_decide (se_file_name entry ∈ ps_names scan))) (sm_entries manifest);
  Ok (mkSnapshot manifest manifest_json (sort_by_key fst (ps_documents scan))).
End snapshot.

(** ** Memory packages: what validation admits, and that an export is admitted *)

Section packages.
Context `{Externals, Jcs, Base64, ManifestReader, Lowercase}.

(** ** The files of a package *)

(** A file that stands for its document: canonical bytes, and either the entry of
    the manifest it names or a draft under the name of its token. *)
Definition file_admitted (manifest : MemorySnapshotManifest) (limits : MemorySnapshotLimits) (file : MemorySnapshotFile)
    (document : MemoryControlDocument) : Prop :=
  sf_regular file = true /\ sf_storage_identity file <> "" /\ valid_file_name (sf_file_name file) = true
  /\ parse_memory_document (sf_bytes file) (sl_document limits) = Ok document /\ document_render document = sf_bytes file
  /\ match cd_record_ref document with
     | ExistingRef record_id revision_id =>
         exists entry, find (fun value => (se_record_id value =? record_id)%string) (sm_entries manifest) = Some entry
           /\ se_revision_id entry = revision_id /\ se_file_name entry = sf_file_name file
           /\ se_file_name entry = expected_file_name record_id /\ entry_matches entry document = true
     | NewRef draft_token => sf_file_name file = "entries/new-" +:+ draft_token +:+ ".md"
     end.

Definition folded (file : MemorySnapshotFile) : string := to_lowercase (sf_file_name file).

Lemma check_file_spec manifest limits scan file scan' :
  check_file manifest limits scan file = Ok scan' <->
  ((sf_storage_identity file ∉ ps_storage scan) /\ (sf_file_name file ∉ ps_names scan) /\ (folded file ∉ ps_folded scan))
  /\ exists document, file_admitted manifest limits file document
       /\ scan' = mkScan ({[sf_file_name file]} ∪ ps_names scan) ({[folded file]} ∪ ps_folded scan)
                    ({[sf_storage_identity file]} ∪ ps_storage scan) (ps_documents scan ++ [(sf_file_name file, document)]).
Proof.
  unfold check_file, file_admitted, folded, str_is_empty. split.
  - intros Hc. destruct (_ || _) eqn:E1 in Hc; [done|].
    destruct (parse_memory_document _ _) as [document|] eqn:Hp; [|done]. destruct (negb _) eqn:E2 in Hc; [done|].
    destruct (cd_record_ref document) as [record_id revision_id|token] eqn:Hr.
    + destruct (find _ (sm_entries manifest)) as [entry|] eqn:Hf; [|done]. cbn [ok_or] in Hc.
      destruct (_ || _) eqn:E3 in Hc; [done|]. injection Hc as <-. bool_hyps. split; [done|].
      exists document. split; [|done]. split_and!; try done. rewrite Hr. by exists entry.
    + destruct (negb _) eqn:E3 in Hc; [done|]. injection Hc as <-. bool_hyps. split; [done|].
      exists document. split; [|done]. split_and!; try done. by rewrite Hr.
  - intros ((Hs & Hn & Hf) & document & (Hreg & Hsi & Hname & Hp & Hren & Href) & ->).
    rewrite Hreg, (proj2 (String.eqb_neq _ _) Hsi), !bool_decide_eq_false_2, Hname, Hp, Hren, String.eqb_refl by done. cbn [orb negb].
    destruct (cd_record_ref document) as [record_id revision_id|token].
    + destruct Href as (entry & -> & <- & Hfile & Hexp & Hm). cbn [ok_or].
      rewrite <-Hexp, Hfile, !String.eqb_refl, Hm. done.
    + by rewrite Href, String.eqb_refl.
Qed.

(** The loop over the files: every file admitted, no name, folded name or storage
    identity twice. *)
Lemma check_files_spec manifest limits files : forall scan scan',
  try_fold (check_file manifest limits) scan files = Ok scan' <->
  (NoDup (sf_storage_identity <$> files) /\ NoDup (sf_file_name <$> files) /\ NoDup (folded <$> files))
  /\ (forall file, file ∈ files -> (sf_storage_identity file ∉ ps_storage scan)
                                  /\ (sf_file_name file ∉ ps_names scan) /\ (folded file ∉ ps_folded scan))
  /\ exists documents, Forall2 (file_admitted manifest limits) files documents
       /\ scan' = mkScan (list_to_set (sf_file_name <$> files) ∪ ps_names scan) (list_to_set (folded <$> files) ∪ ps_folded scan)
                    (list_to_set (sf_storage_identity <$> files) ∪ ps_storage scan)
                    (ps_documents scan ++ zip (sf_file_name <$> files) documents).
Proof.
  induction files as [|file files IH]; intros scan scan'; cbn [try_fold].
  - split.
    + intros [= <-]. split; [split_and!; constructor|]. split; [by intros file Hf%elem_of_nil|]. exists [].
      split; [constructor|]. destruct scan. cbn. rewrite app_nil_r. f_equal; set_solver.
    + intros (_ & _ & documents & Hd & ->). destruct scan. cbn. inversion Hd. cbn. rewrite app_nil_r. do 2 f_equal; set_solver.
  - rewrite !fmap_cons, !list.NoDup_cons. split.
    + destruct (check_file manifest limits scan file) as [scan1|] eqn:Hc; [|done].
      apply check_file_spec in Hc as ((Hs & Hn & Hf) & d & Hd & ->). rewrite IH. cbn [ps_storage ps_names ps_folded ps_documents].
      intros ((N1 & N2 & N3) & Hfresh & documents & Hds & ->). setoid_rewrite not_elem_of_union in Hfresh.
      setoid_rewrite not_elem_of_singleton in Hfresh. split_and!; try done.
      * intros (f & Heq & Hin)%list_elem_of_fmap. destruct (Hfresh f Hin) as ((? & _) & _). by symmetry in Heq.
      * intros (f & Heq & Hin)%list_elem_of_fmap. destruct (Hfresh f Hin) as (_ & (? & _) & _). by symmetry in Heq.
      * intros (f & Heq & Hin)%list_elem_of_fmap. destruct (Hfresh f Hin) as (_ & _ & (? & _)). by symmetry in Heq.
      * intros f [->|Hin]%elem_of_cons; [done|]. destruct (Hfresh f Hin) as ((_ & ?) & (_ & ?) & (_ & ?)). done.
      * exists (d :: documents). split; [by constructor|]. cbn. rewrite <-app_assoc. cbn. f_equal; set_solver.
    + intros (((S1 & N1) & (S2 & N2) & (S3 & N3)) & Hfresh & documents & Hds & ->). inversion Hds as [|? d ? ds Hd Hrest]; subst.
      assert (check_file manifest limits scan file = Ok (mkScan ({[sf_file_name file]} ∪ ps_names scan) ({[folded file]} ∪ ps_folded scan)
                    ({[sf_storage_identity file]} ∪ ps_storage scan) (ps_documents scan ++ [(sf_file_name file, d)]))) as ->.
      { apply check_file_spec. split; [apply Hfresh; left|by exists d]. }
      apply IH. split; [done|]. split.
      * intros f Hin. cbn [ps_storage ps_names ps_folded]. rewrite !not_elem_of_union, !not_elem_of_singleton.
        destruct (Hfresh f) as (? & ? & ?); [by right|].
        split_and!; try done; intros Heq; [apply S1|apply S2|apply S3]; rewrite <-Heq; by apply list_elem_of_fmap_2.
      * exists ds. split; [done|]. cbn. rewrite <-app_assoc. cbn. f_equal; set_solver.
Qed.

(** ** An export is admitted *)

(** The name of an exported file: ASCII, lowercase, one slash, one dot. *)
Lemma count_byte_app c s t : count_byte c (s +:+ t) = count_byte c s + count_byte c t.
Proof. induction s as [|d s IH]; [done|]. rewrite str_app_cons. cbn [count_byte]. rewrite IH. lia. Qed.
Lemma count_byte_none c s : contains_byte c s = false -> count_byte c s = 0.
Proof.
  induction s as [|d s IH]; [done|]. cbn [contains_byte count_byte]. rewrite orb_false_iff. intros [-> Hs]. by rewrite IH.
Qed.
Lemma count_byte_nonneg c s : 0 <= count_byte c s.
Proof. induction s as [|d s IH]; cbn [count_byte]; [done|]. destruct (Ascii.eqb c d); lia. Qed.
Lemma two_dots s : contains_text ".." s = true -> 2 <= count_byte dot s.
Proof.
  induction s as [|c s IH]; [done|]. cbn [contains_text count_byte]. rewrite orb_true_iff. intros [Hp|Hs].
  - apply starts_with_app in Hp as [t Ht]. injection Ht as -> ->. rewrite str_app_cons, str_app_empty. cbn [count_byte].
    change (Ascii.eqb dot ".") with true. pose proof (count_byte_nonneg dot t). lia.
  - specialize (IH Hs). destruct (Ascii.eqb dot c); lia.
Qed.
Lemma ends_with_app s t : ends_with t (s +:+ t) = true.
Proof.
  induction s as [|c s IH]; [rewrite str_app_empty; destruct t; cbn [ends_with]; by rewrite String.eqb_refl|].
  rewrite str_app_cons. cbn [ends_with]. by rewrite IH, orb_true_r.
Qed.

Definition lower_ascii (c : ascii) : bool := between 0 127 c && negb (is_ascii_uppercase c).

Lemma expected_name_ok record_id : valid_sha256 (sha256_hex record_id) = true ->
  valid_file_name (expected_file_name record_id) = true /\ all_bytes lower_ascii (expected_file_name record_id) = true.
Proof.
  unfold valid_sha256. intros [_ Hd]%andb_true_iff. unfold expected_file_name.
  assert (Hno : forall c, (is_ascii_digit c || (97 <=? byte_code c) && (byte_code c <=? 102)) = false ->
    contains_byte c (sha256_hex record_id) = false) by (intros c Hc; eapply all_bytes_excludes; [|exact Hd]; exact Hc).
  split.
  - unfold valid_file_name. rewrite !andb_true_iff. split_and!.
    + apply starts_with_app. by eexists.
    + rewrite <-str_app_assoc. apply ends_with_app.
    + apply negb_true_iff, not_true_iff_false. intros Hc%two_dots.
      rewrite !count_byte_app, (count_byte_none dot (sha256_hex _)) in Hc by (by apply Hno). by vm_compute in Hc.
    + rewrite !contains_byte_app, Hno by done. done.
    + rewrite !count_byte_app, (count_byte_none slash (sha256_hex _)) by (by apply Hno). done.
  - rewrite !all_bytes_app, !andb_true_iff. split_and!; [done| |done]. eapply all_bytes_impl; [|exact Hd].
    intros c. unfold lower_ascii, between, is_ascii_digit, is_ascii_uppercase.
    rewrite !orb_true_iff, !andb_true_iff, negb_true_iff, andb_false_iff, !Z.leb_le, !Z.leb_gt. lia.
Qed.

(** What a projection holds. *)
Lemma projected_ok export_id namespace_id through_revision exported_at documents snapshot :
  project_memory_snapshot export_id namespace_id through_revision exported_at documents = Ok snapshot ->
  exists pairs bytes,
    let manifest := mkManifest 1 export_id namespace_id through_revision exported_at pairs.*1 (sha256_hex bytes) in
    validate_header export_id namespace_id through_revision exported_at = Ok tt
    /\ validate_unique_entries pairs.*1 = Ok tt
    /\ NoDup ((fun p => se_record_id p.1) <$> pairs)
    /\ (forall e d, (e, d) ∈ pairs -> d ∈ documents /\ snapshot_entry d = Ok (e, d))
    /\ jcs (manifest_preimage manifest) = Some bytes /\ jcs (manifest_value manifest) = Some (sn_manifest_json snapshot)
    /\ sn_manifest snapshot = manifest /\ sn_documents snapshot = (fun p => (se_file_name p.1, p.2)) <$> pairs.
Proof.
  unfold project_memory_snapshot. destruct (validate_header _ _ _ _) as [[]|] eqn:Eh; [|done].
  destruct (try_map snapshot_entry documents) as [mapped|] eqn:Em; [|done]. cbv zeta.
  set (pairs := sort_by_key _ mapped). destruct (windows_any _ pairs) eqn:Ew; [done|].
  destruct (validate_unique_entries pairs.*1) as [[]|] eqn:Ev; [|done].
  destruct (jcs (manifest_preimage _)) as [bytes|] eqn:Eb; [|done]. cbn [ok_or].
  destruct (jcs (manifest_value _)) as [json|] eqn:Ej; [|done]. cbn [ok_or]. intros [= <-].
  exists pairs, bytes. cbn [sn_manifest sn_manifest_json sn_documents]. split_and!; try done.
  - apply (windows_any_nodup (fun p : MemorySnapshotEntry * MemoryControlDocument => se_record_id p.1)
      (fun a b => (se_record_id a.1 =? se_record_id b.1)%string)); [intros a b; apply String.eqb_eq| |done].
    pose proof (sort_by_key_sorted (fun pair : MemorySnapshotEntry * MemoryControlDocument => (se_record_id pair.1, se_revision_id pair.1)) mapped) as Hs.
    fold pairs in Hs. clear -Hs. induction Hs as [|a l Hs IH Ha]; constructor; [done|]. eapply Forall_impl; [exact Ha|].
    intros b. unfold key_le_of, le_of. cbn. by destruct (se_record_id a.1 ?= se_record_id b.1)%string.
  - intros e d Hin. unfold pairs in Hin. rewrite sort_by_key_perm in Hin. apply try_map_ok in Em.
    apply list_elem_of_lookup in Hin as [i Hi]. destruct (Forall2_lookup_r _ _ _ _ _ Em Hi) as (d' & Hd' & Hs).
    assert (d' = d) as ->; [|split; [by eapply list_elem_of_lookup_2|done]].
    unfold snapshot_entry in Hs. destruct (cd_record_ref d'); [|done]. destruct (cd_erase d'); [done|]. by injection Hs.
Qed.

Lemma total_bytes files : forall total, 0 <= total -> total + zsum_by (fun f => str_len (sf_bytes f)) files <= u64_max ->
  try_fold (fun total file => ok_or (checked_add total (str_len (sf_bytes file))) BoundExceeded) total files
  = Ok (total + zsum_by (fun f => str_len (sf_bytes f)) files).
Proof.
  induction files as [|f files IH]; intros total Ht Hb; cbn in *; [by rewrite Z.add_0_r|].
  fold (zsum_by (fun f => str_len (sf_bytes f)) files) in *. pose proof (str_len_nonneg (sf_bytes f)).
  assert (0 <= zsum_by (fun f => str_len (sf_bytes f)) files).
  { clear. induction files as [|g l IH]; cbn; [lia|]. fold (zsum_by (fun f => str_len (sf_bytes f)) l).
    pose proof (str_len_nonneg (sf_bytes g)). lia. }
  unfold checked_add, checked_u64. rewrite (proj2 (Z.leb_le 0 _)), (proj2 (Z.leb_le _ u64_max)) by lia. cbn [andb ok_or].
  rewrite IH by lia. f_equal. lia.
Qed.

(** A document as the exporter writes it to a regular file of its own. *)
Definition written (document : string * MemoryControlDocument) (identity : string) : MemorySnapshotFile :=
  mkSnapshotFile document.1 (document_render document.2) identity true.
Definition package (snapshot : MemorySnapshot) (identities : list string) : list MemorySnapshotFile :=
  zip_with written (sn_documents snapshot) identities.

Context {laws : Base64Laws}.
(** Documented behaviour of the derived reader, of SHA-256 in hexadecimal and of the
    lowercase mapping. *)
Context (Hread : forall m text, 0 <= sm_schema_version m <= 255 -> is_u64 (sm_through_revision m) ->
  jcs (manifest_value m) = Some text -> read_manifest text = Some m).
Context (Hsha : forall s, valid_sha256 (sha256_hex s) = true).
Context (Hlower : forall s, all_bytes lower_ascii s = true -> to_lowercase s = s).

Lemma entry_admitted limits pairs entry document identity manifest : (entry, document) ∈ pairs ->
  NoDup ((fun p => se_record_id p.1) <$> pairs) -> sm_entries manifest = pairs.*1 ->
  snapshot_entry document = Ok (entry, document) ->
  document_ok (sl_document limits) document -> tokens_fit document = true -> readable_content (cd_content document) = true ->
  identity <> "" ->
  file_admitted manifest limits (written (se_file_name entry, document) identity) document.
Proof.
  intros Hin Hnd Hent Hs Hok Hfit Hreadable Hid. unfold snapshot_entry in Hs.
  destruct (cd_record_ref document) as [record_id revision_id|] eqn:Href; [|done].
  destruct (cd_erase document); [done|]. injection Hs as Hentry.
  assert (se_file_name entry = expected_file_name record_id) as Hname by (by rewrite <-Hentry).
  split_and!; cbn; [done|done| |by apply parse_rendered|done|].
  - rewrite Hname. by apply expected_name_ok.
  - rewrite Href. exists entry. rewrite Hent. split_and!; try done; [|by rewrite <-Hentry|].
    + assert (Hid' : se_record_id entry = record_id) by (by rewrite <-Hentry).
      destruct (find _ pairs.*1) as [e'|] eqn:Hf.
      * apply find_some in Hf as [Hin' Heq]. apply String.eqb_eq in Heq. apply list_elem_of_In in Hin'.
        apply list_elem_of_fmap in Hin' as ([e'' d'] & -> & Hin'). cbn in Heq |- *.
        assert ((e'', d') = (entry, document)) as [= -> ->]; [|done].
        apply (nodup_key_inj (fun p : MemorySnapshotEntry * MemoryControlDocument => se_record_id p.1) pairs); [done..|].
        cbn. congruence.
      * apply find_none with (x := entry) in Hf; [by rewrite Hid', String.eqb_refl in Hf|].
        apply list_elem_of_In, list_elem_of_fmap. by exists (entry, document).
    + rewrite <-Hentry. unfold entry_matches. cbn. by rewrite !String.eqb_refl.
Qed.

Lemma package_fields documents identities : length identities = length documents ->
  sf_file_name <$> zip_with written documents identities = documents.*1
  /\ sf_storage_identity <$> zip_with written documents identities = identities
  /\ zsum_by (fun f => str_len (sf_bytes f)) (zip_with written documents identities)
     = zsum_by (fun d => str_len (document_render d.2)) documents
  /\ zip documents.*1 documents.*2 = documents /\ length (zip_with written documents identities) = length documents.
Proof.
  revert identities. induction documents as [|[n d] documents IH]; intros [|id ids] Hl; [done..|].
  injection Hl as Hl. destruct (IH ids Hl) as (H1' & H2' & H3' & H4' & H5'). cbn. unfold zsum_by in *.
  rewrite H1', H2', H4', H3', H5'. done.
Qed.

Lemma unique_entries_ok entries : validate_unique_entries entries = Ok tt -> NoDup (se_file_name <$> entries).
Proof.
  unfold validate_unique_entries, all_distinct. destruct (_ || _) eqn:E; [done|]. intros _. bool_hyps. done.
Qed.

Lemma package_admitted manifest limits (pairs : list (MemorySnapshotEntry * MemoryControlDocument)) : forall identities,
  length identities = length pairs ->
  (forall p id, p ∈ pairs -> id ∈ identities -> file_admitted manifest limits (written (se_file_name p.1, p.2) id) p.2) ->
  Forall2 (file_admitted manifest limits) (zip_with written ((fun p => (se_file_name p.1, p.2)) <$> pairs) identities)
    ((fun p => (se_file_name p.1, p.2)) <$> pairs).*2.
Proof.
  induction pairs as [|p pairs IH]; intros [|id ids] Hl Hall; [constructor|done..|]. cbn. constructor.
  - apply Hall; left.
  - apply IH; [by injection Hl|]. intros q i Hq Hi. apply Hall; by right.
Qed.

(** What the exporter writes, validation reads back. *)
Lemma package_reads_back export_id namespace_id through_revision exported_at documents snapshot limits identities :
  project_memory_snapshot export_id namespace_id through_revision exported_at documents = Ok snapshot ->
  is_u64 through_revision ->
  Forall (fun d => document_ok (sl_document limits) d /\ tokens_fit d = true /\ readable_content (cd_content d) = true) documents ->
  length identities = length (sn_documents snapshot) -> NoDup identities -> ("" ∉ identities) ->
  Z.of_nat (length (sn_documents snapshot)) <= sl_max_entries limits ->
  str_len (sn_manifest_json snapshot) + zsum_by (fun d => str_len (document_render d.2)) (sn_documents snapshot)
    <= sl_max_total_bytes limits <= u64_max ->
  parse_memory_snapshot (sn_manifest_json snapshot) (package snapshot identities) limits
  = Ok (mkSnapshot (sn_manifest snapshot) (sn_manifest_json snapshot) (sort_by_key fst (sn_documents snapshot))).
Proof.
  intros Hp Hu Hdocs Hlen Hids Hempty Hn Hb.
  destruct (projected_ok _ _ _ _ _ _ Hp) as (pairs & bytes & Hh & Hv & Hnd & Hin & Hpre & Hval & Hman & Hsd).
  unfold package in *. destruct (package_fields (sn_documents snapshot) identities Hlen) as (F1 & F2 & F3 & F4 & F5).
  assert (Hnames : (sn_documents snapshot).*1 = se_file_name <$> pairs.*1) by (rewrite Hsd, <-!list_fmap_compose; done).
  pose proof (unique_entries_ok _ Hv) as Hnd2.
  assert (Hfold : folded <$> zip_with written (sn_documents snapshot) identities = (sn_documents snapshot).*1).
  { rewrite <-F1. unfold folded. apply list_fmap_ext. intros i f Hf. apply Hlower.
    assert (Hm : sf_file_name f ∈ (sn_documents snapshot).*1).
    { rewrite <-F1. apply list_elem_of_fmap_2. by eapply list_elem_of_lookup_2. }
    rewrite Hnames, <-list_fmap_compose in Hm. apply list_elem_of_fmap in Hm as ([e d] & -> & Hm). cbn.
    destruct (Hin e d Hm) as [_ He]. unfold snapshot_entry in He. destruct (cd_record_ref d); [|done].
    destruct (cd_erase d); [done|]. injection He as <-. by apply expected_name_ok. }
  unfold parse_memory_snapshot. rewrite F5, (proj2 (Z.ltb_ge _ _) Hn).
  assert (Hnn : 0 <= zsum_by (fun d => str_len (document_render d.2)) (sn_documents snapshot)).
  { clear. induction (sn_documents snapshot) as [|d l IH]; cbn; [done|]. pose proof (str_len_nonneg (document_render d.2)).
    unfold zsum_by in IH. lia. }
  rewrite (proj2 (Z.ltb_ge _ (str_len _))) by lia. cbn [orb].
  rewrite total_bytes, F3 by (rewrite ?F3; try apply str_len_nonneg; lia). rewrite (proj2 (Z.ltb_ge _ _) (proj1 Hb)).
  pose proof (fun Hs Hu => Hread _ _ Hs Hu Hval) as Hr. rewrite Hr by (cbn; lia || exact Hu). cbn [ok_or]. rewrite Hval. cbn [ok_or]. rewrite String.eqb_refl. cbn [negb].
  cbn [sm_export_id sm_namespace_id sm_through_revision sm_exported_at sm_entries]. rewrite Hh, Hv, Hpre. cbn [ok_or].
  cbn [sm_schema_version sm_manifest_digest]. rewrite String.eqb_refl. cbn [negb orb Z.eqb Pos.eqb].
  match goal with |- context [try_fold (check_file ?m limits) ?s0 ?fs] => pose proof (check_files_spec m limits fs s0) as Hspec end.
  erewrite (proj2 (Hspec _)).
  2:{ split_and!; [by rewrite F2|by rewrite F1, Hnames|by rewrite Hfold, Hnames|intros f _; cbn; split_and!; set_solver|].
      exists (sn_documents snapshot).*2. split; [|reflexivity]. rewrite Hsd in Hlen |- *. apply package_admitted.
      - by rewrite length_fmap in Hlen.
      - intros [e d] id Hpair Hid. destruct (Hin e d Hpair) as [Hd He]. rewrite Forall_forall in Hdocs.
        destruct (Hdocs d Hd) as (? & ? & ?). eapply entry_admitted; try done. by intros ->. }
  cbn [ps_names ps_documents app]. rewrite F1, F4, Hnames, union_empty_r_L.
  assert (existsb (fun entry => negb (bool_decide (se_file_name entry ∈ (list_to_set (se_file_name <$> pairs.*1) : gset string)))) pairs.*1
    = false) as ->.
  { apply not_true_iff_false. intros (e & He & Hbad)%existsb_exists. bool_hyps. apply Hbad, elem_of_list_to_set.
    apply list_elem_of_fmap_2. by apply list_elem_of_In. }
  by rewrite Hman.
Qed.

(** A projected memory package whose documents can be read, written to regular files of their
    own within the limits, is admitted by the validation and reads back as the same manifest with
    the same documents. *)
Theorem memory_package_roundtrip export_id namespace_id through_revision exported_at documents snapshot limits identities :
  project_memory_snapshot export_id namespace_id through_revision exported_at documents = Ok snapshot ->
  is_u64 through_revision ->
  Forall (fun d => document_ok (sl_document limits) d /\ tokens_fit d = true /\ readable_content (cd_content d) = true) documents ->
  length identities = length (sn_documents snapshot) -> NoDup identities -> ("" ∉ identities) ->
  Z.of_nat (length (sn_documents snapshot)) <= sl_max_entries limits ->
  str_len (sn_manifest_json snapshot) + zsum_by (fun d => str_len (document_render d.2)) (sn_documents snapshot)
    <= sl_max_total_bytes limits <= u64_max ->
  parse_memory_snapshot (sn_manifest_json snapshot) (package snapshot identities) limits
  = Ok (mkSnapshot (sn_manifest snapshot) (sn_manifest_json snapshot) (sort_by_key fst (sn_documents snapshot))).
Proof. apply package_reads_back. Qed.
End packages.

(** ** A sample package *)

Module PackageSample.
(** A polynomial digest of 64 hexadecimal digits. *)
Fixpoint hex_digits (n : nat) (z : Z) : string :=
  match n with O => "" | S n => String (ascii_of_N (Z.to_N (if z mod 16 <? 10 then 48 + z mod 16 else 87 + z mod 16))) (hex_digits n (z / 16)) end.
Fixpoint poly (z : Z) (s : string) : Z := match s with EmptyString => z | String c s => poly ((z * 257 + byte_code c + 1) mod 2 ^ 256) s end.
#[export] Instance externals : Externals :=
  {| sha256_hex s := hex_digits 64 (poly 0 s); json_from_str _ := None; parse_rfc3339 s := Some (str_len s); to_rfc3339 _ := "" |}.
#[export] Instance canonical_json : Jcs := fun v => match encode v with Ok s => Some s | Err _ => None end.
#[export] Instance lowercase : Lowercase := fun s => s.

(** The reader of a manifest from its members. *)
Definition text (key : string) (v : Value) : option string := value_get key v ≫= as_str.
Definition entry_of (v : Value) : option MemorySnapshotEntry :=
  a ← text "record_id" v; b ← text "revision_id" v; c ← text "file_name" v; d ← text "authority" v; e ← text "memory_type" v;
  f ← text "memory_role" v; g ← text "scope" v; h ← text "scope_owner_id" v; i ← text "lifecycle" v; j ← text "sensitivity" v;
  k ← text "content_digest" v; l ← text "document_digest" v; Some (mkSnapshotEntry a b c d e f g h i j k l).
Definition number (key : string) (v : Value) : option Z := value_get key v ≫= as_u64.
Definition array (key : string) (v : Value) : option (list Value) := value_get key v ≫= as_array.
Definition manifest_of (v : Value) : option MemorySnapshotManifest :=
  a ← number "schema_version" v; b ← text "export_id" v; c ← text "namespace_id" v;
  d ← number "through_revision" v; e ← text "exported_at" v;
  l ← array "entries" v; f ← mapM entry_of l; g ← text "manifest_digest" v; Some (mkManifest a b c d e f g).
#[export] Instance reader : ManifestReader := fun s => decode s ≫= manifest_of.

Lemma manifest_of_value m : manifest_of (manifest_value m) = Some m.
Proof.
  assert (mapM entry_of (snapshot_entry_json <$> sm_entries m) = Some (sm_entries m)) as Hm.
  { apply mapM_fmap_Some. by intros []. }
  destruct m as [a b c d e f g]. cbn [sm_entries] in Hm.
  assert (array "entries" (manifest_value (mkManifest a b c d e f g)) = Some (snapshot_entry_json <$> f)) as Ha by reflexivity.
  unfold manifest_of. rewrite Ha. cbn [mbind option_bind]. rewrite Hm. reflexivity.
Qed.

Lemma reads_manifest m text : 0 <= sm_schema_version m <= 255 -> is_u64 (sm_through_revision m) ->
  jcs (manifest_value m) = Some text -> read_manifest text = Some m.
Proof.
  intros Hs Ht Hj. unfold jcs, canonical_json in Hj. destruct (encode (manifest_value m)) as [s|] eqn:He; [|done].
  injection Hj as ->. unfold read_manifest, reader. rewrite (decode_encode (manifest_value m)); [apply manifest_of_value| |done].
  destruct m as [a b c d e f g]. cbn [sm_schema_version sm_through_revision] in Hs, Ht. unfold is_u64 in Ht.
  change (value_wf (Arr (snapshot_entry_json <$> f)) && (number_wf (PosInt a) && (number_wf (PosInt d) && true)) = true).
  rewrite !andb_true_iff. split_and!; [|apply andb_true_iff; rewrite !Z.leb_le; unfold u64_max in *; lia..|done].
  clear. induction f as [|x f IH]; [done|]. exact IH.
Qed.

Lemma digest_valid s : valid_sha256 (sha256_hex s) = true.
Proof.
  change (sha256_hex s) with (hex_digits 64 (poly 0 s)). generalize (poly 0 s) as z. intros z. unfold valid_sha256, str_len.
  assert (Hlen : forall n z, String.length (hex_digits n z) = n) by (induction n; intros; cbn; [done|by rewrite IHn]).
  rewrite Hlen. apply andb_true_iff. split; [done|]. generalize 64%nat as n. intros n. revert z.
  induction n as [|n IH]; intros z; [done|]. cbn [hex_digits all_bytes]. rewrite IH, andb_true_r.
  pose proof (Z.mod_pos_bound z 16 ltac:(lia)) as Hz. remember (z mod 16) as k eqn:Hk. clear -Hz.
  assert (Hall : forallb (fun n => let k := Z.of_nat n in let byte := ascii_of_N (Z.to_N (if k <? 10 then 48 + k else 87 + k)) in
    is_ascii_digit byte || (97 <=? byte_code byte) && (byte_code byte <=? 102)) (seq 0 16) = true) by (vm_compute; reflexivity).
  rewrite forallb_forall in Hall. specialize (Hall (Z.to_nat k)). rewrite Z2Nat.id in Hall by lia. apply Hall, in_seq. lia.
Qed.

Import UrlSafe.
Definition limits : MemorySnapshotLimits := mkSnapshotLimits 4 8192 sample_limits.
Definition stored (id content : string) : result MemoryControlError MemoryControlDocument :=
  from_repository_record id "revision" UserDeclared SemanticMemory PreferenceKind UserClass "owner" HypActive Ordinary content
    sample_limits.

Lemma stored_ok id content d : stored id content = Ok d -> utf8_valid id = true -> utf8_valid content = true ->
  contains_text (String newline "---") (cd_content d) = false ->
  document_ok (sl_document limits) d /\ tokens_fit d = true /\ readable_content (cd_content d) = true.
Proof.
  intros Hd Hi Hc Hn. assert (Hok : document_ok sample_limits d).
  { eapply repository_document_ok; [exact Hd|]. rewrite !Forall_cons. split_and!; [done..|constructor]. }
  split; [exact Hok|]. split; [by apply (short_ids_fit d sample_limits)|]. unfold readable_content. by rewrite Hn.
Qed.

(** Two records exported and read back. *)
Definition sample_document (id content : string) : MemoryControlDocument :=
  mkDocument (ExistingRef id "revision") UserDeclared SemanticMemory PreferenceKind UserClass "owner" HypActive Ordinary false
    (content +:+ String newline "").
Definition sample_documents : list MemoryControlDocument := [sample_document "b" "second"; sample_document "a" "first"].
Definition sample_snapshot : MemorySnapshot := Eval vm_compute in
  match project_memory_snapshot "export" "namespace" 7 "now" sample_documents with
  | Ok snapshot => snapshot
  | Err _ => mkSnapshot (mkManifest 0 "" "" 0 "" [] "") "" []
  end.

Lemma memory_package_roundtrip_witness :
  project_memory_snapshot "export" "namespace" 7 "now" sample_documents = Ok sample_snapshot
  /\ exists read, parse_memory_snapshot (sn_manifest_json sample_snapshot) (package sample_snapshot ["1:1"; "1:2"]) limits = Ok read
       /\ sn_manifest read = sn_manifest sample_snapshot.
Proof.
  assert (Hp : project_memory_snapshot "export" "namespace" 7 "now" sample_documents = Ok sample_snapshot) by (vm_compute; reflexivity).
  split; [exact Hp|]. eexists. split; [|reflexivity].
  apply (memory_package_roundtrip reads_manifest digest_valid (fun s _ => eq_refl) "export" "namespace" 7 "now" sample_documents
    sample_snapshot limits ["1:1"; "1:2"] Hp).
  - split; vm_compute; discriminate.
  - apply Forall_cons; split; [by apply (stored_ok "b" "second")|].
    apply Forall_cons; split; [by apply (stored_ok "a" "first")|apply Forall_nil_2].
  - reflexivity.
  - apply (bool_decide_unpack _). vm_compute. exact I.
  - apply (bool_decide_unpack _). vm_compute. exact I.
  - vm_compute. discriminate.
  - split; vm_compute; discriminate.
Defined.
End PackageSample.
