(* ===== verification/Config.v ===== *)
(** * Agent definitions and their resolution ([engine/config/src])

    The portable definition of an agent with its local checks ([definition.rs],
    [intent.rs]), the candidates the runtime supplies and the effective snapshot
    ([snapshot.rs]), and the resolution of one into the other ([resolve.rs]).  A
    [BTreeSet] is the sorted list of its elements, a [BTreeMap] a [gmap] read in the
    order of its keys. *)

From S2P Require Import Prelude Json Text Order ToolSchema ToolAccess ToolPrepared Checks.

(** ** Definitions ([definition.rs]) *)

Inductive ResolutionErrorCode :=
  | DefinitionNotFound | ReferenceNotFound | ReferenceAmbiguous | ReferenceCycle | UnsupportedContractVersion
  | PolicyIncompatible | InvalidDefinition | NonCanonicalDefinition.
#[export] Instance ResolutionErrorCode_eq_dec : EqDecision ResolutionErrorCode.
Proof. solve_decision. Defined.

Record ResolutionError := mkResolutionError { re_code : ResolutionErrorCode; re_path : string }.
#[export] Instance ResolutionError_eq_dec : EqDecision ResolutionError.
Proof. solve_decision. Defined.

Definition require_text (value path : string) : result ResolutionError unit :=
  if str_is_empty value then Err (mkResolutionError InvalidDefinition path) else Ok tt.

Record InstructionReference := mkInstructionReference {
  ir_source_id : string;
  ir_exact_revision : string;
  ir_required : bool;
}.
Definition instruction_reference_new (source_id exact_revision : string) (required : bool)
    : result ResolutionError InstructionReference :=
  require_text source_id "/instruction_sources/source_id" ?;
  require_text exact_revision "/instruction_sources/exact_revision" ?;
  Ok (mkInstructionReference source_id exact_revision required).

Record ModelRoleRequirement := mkRoleRequirement {
  rr_role_id : string;
  rr_required_capabilities : list string;
  rr_required : bool;
}.
Definition model_role_requirement_new (role_id : string) (values : list string) (required : bool)
    : result ResolutionError ModelRoleRequirement :=
  require_text role_id "/model_roles/role_id" ?;
  let required_capabilities := btree_set values in
  reject (mkResolutionError InvalidDefinition "/model_roles/required_capabilities") when
    existsb str_is_empty values || negb (length required_capabilities =? length values)%nat;
  Ok (mkRoleRequirement role_id required_capabilities required).

Inductive CapabilityKind := ToolCapability | SkillCapability | MemoryCapability | KnowledgeCapability | DelegationCapability.
#[export] Instance CapabilityKind_eq_dec : EqDecision CapabilityKind.
Proof. solve_decision. Defined.
Definition capability_kind_rank (k : CapabilityKind) : Z :=
  match k with
  | ToolCapability => 0 | SkillCapability => 1 | MemoryCapability => 2 | KnowledgeCapability => 3 | DelegationCapability => 4
  end.
#[export] Instance Ord_capability_kind : Ord CapabilityKind.
Proof. refine (Ord_view capability_kind_rank _). by intros [] []. Defined.
Definition capability_kind_name (k : CapabilityKind) : string :=
  match k with
  | ToolCapability => "tool" | SkillCapability => "skill" | MemoryCapability => "memory"
  | KnowledgeCapability => "knowledge" | DelegationCapability => "delegation"
  end.
(** The derived [Debug] form, which a path shows. *)
Definition capability_kind_debug (k : CapabilityKind) : string :=
  match k with
  | ToolCapability => "Tool" | SkillCapability => "Skill" | MemoryCapability => "Memory"
  | KnowledgeCapability => "Knowledge" | DelegationCapability => "Delegation"
  end.

Record CapabilityReference := mkCapabilityReference {
  cr_kind : CapabilityKind;
  cr_name : string;
  cr_exact_revision : string;
  cr_contract_version : Z;
  cr_required : bool;
}.
Definition capability_reference_new (kind : CapabilityKind) (name exact_revision : string) (contract_version : Z)
    (required : bool) : result ResolutionError CapabilityReference :=
  require_text name "/capabilities/name" ?;
  require_text exact_revision "/capabilities/exact_revision" ?;
  reject (mkResolutionError InvalidDefinition "/capabilities/contract_version") when contract_version =? 0;
  Ok (mkCapabilityReference kind name exact_revision contract_version required).

Inductive InteractionMode := ApprovalMode | ExternalInputMode.
#[export] Instance InteractionMode_eq_dec : EqDecision InteractionMode.
Proof. solve_decision. Defined.
Definition interaction_mode_rank (m : InteractionMode) : Z := match m with ApprovalMode => 0 | ExternalInputMode => 1 end.
#[export] Instance Ord_interaction_mode : Ord InteractionMode.
Proof. refine (Ord_view interaction_mode_rank _). by intros [] []. Defined.
Definition interaction_mode_name (m : InteractionMode) : string :=
  match m with ApprovalMode => "approval" | ExternalInputMode => "external_input" end.

Inductive DefaultUnmatched := DenyUnmatched.
Definition default_unmatched_name (d : DefaultUnmatched) : string := match d with DenyUnmatched => "deny" end.

Record GovernancePolicy := mkGovernance {
  gp_policy_id : string;
  gp_exact_revision : string;
  gp_allowed_requirement_capabilities : list string;
  gp_interaction_modes : list InteractionMode;
  gp_default_unmatched : DefaultUnmatched;
}.
Definition governance_policy_new (policy_id exact_revision : string) (capability_values : list string)
    (mode_values : list InteractionMode) : result ResolutionError GovernancePolicy :=
  require_text policy_id "/governance/policy_id" ?;
  require_text exact_revision "/governance/exact_revision" ?;
  let capabilities := btree_set capability_values in
  let modes := btree_set mode_values in
  reject (mkResolutionError InvalidDefinition "/governance") when
    existsb str_is_empty capability_values || negb (length capabilities =? length capability_values)%nat
    || negb (length modes =? length mode_values)%nat;
  Ok (mkGovernance policy_id exact_revision capabilities modes DenyUnmatched).

Record ContextPolicyReference := mkContextReference {
  cp_policy_id : string;
  cp_exact_revision : string;
}.
Definition context_policy_reference_new (policy_id exact_revision : string) : result ResolutionError ContextPolicyReference :=
  require_text policy_id "/context_policy/policy_id" ?;
  require_text exact_revision "/context_policy/exact_revision" ?;
  Ok (mkContextReference policy_id exact_revision).

Record DefaultLimits := mkDefaultLimits {
  dlm_max_iterations : Z;
  dlm_max_input_tokens : option Z;
  dlm_max_output_tokens : option Z;
  dlm_deadline_budget_ms : option Z;
}.
Definition default_limits_new (max_iterations : Z) (max_input_tokens max_output_tokens deadline_budget_ms : option Z)
    : result ResolutionError DefaultLimits :=
  reject (mkResolutionError InvalidDefinition "/limits") when
    (max_iterations =? 0)
    || existsb (fun value => value =? 0) (omap id [max_input_tokens; max_output_tokens; deadline_budget_ms]);
  Ok (mkDefaultLimits max_iterations max_input_tokens max_output_tokens deadline_budget_ms).

(** ** The definition of an agent ([intent.rs]) *)

Record AgentDefinition := mkAgentDefinition {
  ad_definition_id : string;
  ad_revision : string;
  ad_instruction_sources : list InstructionReference;
  ad_model_roles : list ModelRoleRequirement;
  ad_capabilities : list CapabilityReference;
  ad_governance : GovernancePolicy;
  ad_context_policy : ContextPolicyReference;
  ad_limits : DefaultLimits;
  ad_contract_versions : gmap string Z;
}.

Definition agent_definition_new (definition_id revision : string) (instruction_sources : list InstructionReference)
    (model_roles : list ModelRoleRequirement) (capabilities : list CapabilityReference) (governance : GovernancePolicy)
    (context_policy : ContextPolicyReference) (limits : DefaultLimits) (contract_versions : gmap string Z)
    : result ResolutionError AgentDefinition :=
  require_text definition_id "/definition_id" ?;
  require_text revision "/revision" ?;
  reject (mkResolutionError InvalidDefinition "/instruction_sources") when
    negb (length (btree_set (ir_source_id <$> instruction_sources)) =? length instruction_sources)%nat;
  reject (mkResolutionError InvalidDefinition "/model_roles") when
    negb (length (btree_set (rr_role_id <$> model_roles)) =? length model_roles)%nat;
  reject (mkResolutionError InvalidDefinition "/capabilities") when
    negb (length (btree_set ((fun c => (cr_kind c, cr_name c)) <$> capabilities)) =? length capabilities)%nat;
  reject (mkResolutionError InvalidDefinition "/contract_versions") when
    existsb (fun entry => str_is_empty entry.1 || (entry.2 =? 0)) (entries contract_versions);
  Ok (mkAgentDefinition definition_id revision instruction_sources model_roles capabilities governance context_policy limits
        contract_versions).

(** ** Candidates and snapshots ([snapshot.rs]) *)

Record InstructionResource := mkInstructionResource {
  ins_source_id : string;
  ins_exact_revision : string;
  ins_content_utf8 : string;
  ins_dependencies : list InstructionReference;
}.
Record ModelRoleCandidate := mkRoleCandidate {
  rca_role_id : string;
  rca_capability_target_id : string;
  rca_admitted_capabilities : list string;
}.
Record CapabilityDescriptor := mkCapabilityDescriptor {
  cdx_kind : CapabilityKind;
  cdx_name : string;
  cdx_exact_revision : string;
  cdx_contract_version : Z;
  cdx_descriptor_digest : string;
}.
Record GovernancePolicyCandidate := mkGovernanceCandidate {
  gc_policy_id : string;
  gc_exact_revision : string;
  gc_allowed_requirement_capabilities : list string;
  gc_interaction_modes : list InteractionMode;
}.
Record ContextPolicyCandidate := mkContextCandidate {
  cc_policy_id : string;
  cc_exact_revision : string;
  cc_descriptor_digest : string;
}.
Record PublicToolActivityDescriptor := mkActivity {
  pa_tool_name : string;
  pa_tool_revision : string;
  pa_label_key : string;
}.
Record PublicToolActivityCatalogue := mkActivityCatalogue {
  pac_schema_version : Z;
  pac_catalogue_revision : string;
  pac_descriptors : list PublicToolActivityDescriptor;
}.
Record ResolutionRegistry := mkResolutionRegistry {
  reg_instructions : list InstructionResource;
  reg_model_roles : list ModelRoleCandidate;
  reg_tools : list ToolDefinition;
  reg_capability_descriptors : list CapabilityDescriptor;
  reg_governance_policies : list GovernancePolicyCandidate;
  reg_context_policies : list ContextPolicyCandidate;
  reg_public_tool_activity_catalogue : option PublicToolActivityCatalogue;
}.
Record ProductPolicy := mkProductPolicy {
  pp_allowed_requirement_capabilities : list string;
  pp_interaction_modes : list InteractionMode;
  pp_limit_caps : DefaultLimits;
  pp_admitted_contract_versions : gmap string (list Z);
}.

Record ResolvedInstruction := mkResolvedInstruction {
  ri_source_id : string;
  ri_exact_revision : string;
  ri_content_utf8 : string;
  ri_content_digest : string;
}.
Record ResolvedModelRole := mkResolvedRole {
  rm_role_id : string;
  rm_capability_target_id : string;
  rm_admitted_capabilities : list string;
}.
Record EffectiveCapabilitySnapshot := mkEffectiveCapabilities {
  ec_tools : list ToolDefinition;
  ec_descriptors : list CapabilityDescriptor;
}.
Record EffectiveGovernancePolicy := mkEffectiveGovernance {
  eg_policy_id : string;
  eg_exact_revision : string;
  eg_allowed_requirement_capabilities : list string;
  eg_interaction_modes : list InteractionMode;
  eg_default_unmatched : DefaultUnmatched;
}.
Record ResolvedContextPolicy := mkResolvedContext {
  rcp_policy_id : string;
  rcp_exact_revision : string;
  rcp_descriptor_digest : string;
}.
Record EffectiveLimits := mkEffectiveLimits {
  elm_max_iterations : Z;
  elm_max_input_tokens : option Z;
  elm_max_output_tokens : option Z;
  elm_deadline_budget_ms : option Z;
}.
Record EffectiveAgentSnapshot := mkEffectiveSnapshot {
  es_definition_id : string;
  es_definition_revision : string;
  es_definition_digest : string;
  es_instructions : list ResolvedInstruction;
  es_model_roles : list ResolvedModelRole;
  es_capabilities : EffectiveCapabilitySnapshot;
  es_governance : EffectiveGovernancePolicy;
  es_context_policy : ResolvedContextPolicy;
  es_limits : EffectiveLimits;
  es_contract_versions : gmap string Z;
  es_public_tool_activity_catalogue : option PublicToolActivityCatalogue;
  es_snapshot_digest : string;
}.

Definition validate_continuation (self : EffectiveAgentSnapshot) (definition_revision snapshot_digest : string)
    : result ResolutionError unit :=
  if negb (es_definition_revision self =? definition_revision)%string || negb (es_snapshot_digest self =? snapshot_digest)%string
  then Err (mkResolutionError InvalidDefinition "/continuation_binding") else Ok tt.

(** ** Resolution of an agent definition ([engine/config/src/resolve.rs])

    Exact references become the candidates of the registry, instruction
    dependencies are expanded before what needs them, and the authority of the
    definition is intersected with that of the runtime and of the product. *)

(** ** JSON forms *)

Definition json_optional {A} (f : A -> Value) (o : option A) : Value := match o with Some a => f a | None => Null end.
Definition json_versions (m : gmap string Z) : Value := json_object ((fun p => (p.1, json_nat p.2)) <$> entries m).

Definition instruction_reference_json (r : InstructionReference) : Value :=
  json_object [("source_id", Str (ir_source_id r)); ("exact_revision", Str (ir_exact_revision r));
    ("required", Json.Bool (ir_required r))].
Definition role_requirement_json (r : ModelRoleRequirement) : Value :=
  json_object [("role_id", Str (rr_role_id r)); ("required_capabilities", json_strings (rr_required_capabilities r));
    ("required", Json.Bool (rr_required r))].
Definition capability_reference_json (r : CapabilityReference) : Value :=
  json_object [("kind", Str (capability_kind_name (cr_kind r))); ("name", Str (cr_name r));
    ("exact_revision", Str (cr_exact_revision r)); ("contract_version", json_nat (cr_contract_version r));
    ("required", Json.Bool (cr_required r))].
Definition governance_json (g : GovernancePolicy) : Value :=
  json_object [("policy_id", Str (gp_policy_id g)); ("exact_revision", Str (gp_exact_revision g));
    ("allowed_requirement_capabilities", json_strings (gp_allowed_requirement_capabilities g));
    ("interaction_modes", json_strings (interaction_mode_name <$> gp_interaction_modes g));
    ("default_unmatched", Str (default_unmatched_name (gp_default_unmatched g)))].
Definition default_limits_json (l : DefaultLimits) : Value :=
  json_object [("max_iterations", json_nat (dlm_max_iterations l));
    ("max_input_tokens", json_optional json_nat (dlm_max_input_tokens l));
    ("max_output_tokens", json_optional json_nat (dlm_max_output_tokens l));
    ("deadline_budget_ms", json_optional json_nat (dlm_deadline_budget_ms l))].
Definition agent_definition_json (d : AgentDefinition) : Value :=
  json_object [("definition_id", Str (ad_definition_id d)); ("revision", Str (ad_revision d));
    ("instruction_sources", Arr (instruction_reference_json <$> ad_instruction_sources d));
    ("model_roles", Arr (role_requirement_json <$> ad_model_roles d));
    ("capabilities", Arr (capability_reference_json <$> ad_capabilities d));
    ("governance", governance_json (ad_governance d));
    ("context_policy", json_object [("policy_id", Str (cp_policy_id (ad_context_policy d)));
                                    ("exact_revision", Str (cp_exact_revision (ad_context_policy d)))]);
    ("limits", default_limits_json (ad_limits d)); ("contract_versions", json_versions (ad_contract_versions d))].

Definition resolved_instruction_json (i : ResolvedInstruction) : Value :=
  json_object [("source_id", Str (ri_source_id i)); ("exact_revision", Str (ri_exact_revision i));
    ("content_utf8", Str (ri_content_utf8 i)); ("content_digest", Str (ri_content_digest i))].
Definition resolved_role_json (r : ResolvedModelRole) : Value :=
  json_object [("role_id", Str (rm_role_id r)); ("capability_target_id", Str (rm_capability_target_id r));
    ("admitted_capabilities", json_strings (rm_admitted_capabilities r))].
Definition descriptor_json (d : CapabilityDescriptor) : Value :=
  json_object [("kind", Str (capability_kind_name (cdx_kind d))); ("name", Str (cdx_name d));
    ("exact_revision", Str (cdx_exact_revision d)); ("contract_version", json_nat (cdx_contract_version d));
    ("descriptor_digest", Str (cdx_descriptor_digest d))].
Definition effective_governance_json (g : EffectiveGovernancePolicy) : Value :=
  json_object [("policy_id", Str (eg_policy_id g)); ("exact_revision", Str (eg_exact_revision g));
    ("allowed_requirement_capabilities", json_strings (eg_allowed_requirement_capabilities g));
    ("interaction_modes", json_strings (interaction_mode_name <$> eg_interaction_modes g));
    ("default_unmatched", Str (default_unmatched_name (eg_default_unmatched g)))].
Definition effective_limits_json (l : EffectiveLimits) : Value :=
  json_object ([("max_iterations", json_nat (elm_max_iterations l))]
    ++ json_field "max_input_tokens" json_nat (elm_max_input_tokens l)
    ++ json_field "max_output_tokens" json_nat (elm_max_output_tokens l)
    ++ json_field "deadline_budget_ms" json_nat (elm_deadline_budget_ms l)).
Definition activity_catalogue_json (c : PublicToolActivityCatalogue) : Value :=
  json_object [("schema_version", json_nat (pac_schema_version c)); ("catalogue_revision", Str (pac_catalogue_revision c));
    ("descriptors", Arr ((fun d => json_object [("tool_name", Str (pa_tool_name d)); ("tool_revision", Str (pa_tool_revision d));
                                                ("label_key", Str (pa_label_key d))]) <$> pac_descriptors c))].

(** The members of a snapshot without its digest, with the contract and version that
    the digest covers. *)
Definition snapshot_preimage (s : EffectiveAgentSnapshot) (version : Z) : Value :=
  json_object ([("definition_id", Str (es_definition_id s)); ("definition_revision", Str (es_definition_revision s));
    ("definition_digest", Str (es_definition_digest s));
    ("instructions", Arr (resolved_instruction_json <$> es_instructions s));
    ("model_roles", Arr (resolved_role_json <$> es_model_roles s));
    ("capabilities", json_object [("tools", Arr (definition_json <$> ec_tools (es_capabilities s)));
                                  ("descriptors", Arr (descriptor_json <$> ec_descriptors (es_capabilities s)))]);
    ("governance", effective_governance_json (es_governance s));
    ("context_policy", json_object [("policy_id", Str (rcp_policy_id (es_context_policy s)));
                                    ("exact_revision", Str (rcp_exact_revision (es_context_policy s)));
                                    ("descriptor_digest", Str (rcp_descriptor_digest (es_context_policy s)))]);
    ("limits", effective_limits_json (es_limits s)); ("contract_versions", json_versions (es_contract_versions s))]
    ++ json_field "public_tool_activity_catalogue" activity_catalogue_json (es_public_tool_activity_catalogue s)
    ++ [("contract", Str "garive.effective-agent-snapshot"); ("version", json_nat version)]).

(** ** Exact references *)

(** [Vec::iter().filter(..).collect()] and its only element. *)
Definition exact_one {T} (candidates : list T) (required : bool) (path : string) : result ResolutionError (option T) :=
  match candidates with
  | [] => if required then Err (mkResolutionError ReferenceNotFound path) else Ok None
  | [candidate] => Ok (Some candidate)
  | _ => Err (mkResolutionError ReferenceAmbiguous path)
  end.

(** Resolution may stop with an error, or with a failed [expect]. *)
Inductive ResolveStop := ResolutionRefused (error : ResolutionError) | ResolutionHalted (halt : Halt).
Definition resolving {A} (r : result ResolutionError A) : result ResolveStop A :=
  match r with Ok a => Ok a | Err e => Err (ResolutionRefused e) end.
Definition expect {A} (o : option A) : result ResolveStop A :=
  match o with Some a => Ok a | None => Err (ResolutionHalted Panicked) end.

Section resolve.
Context `{Externals, Jcs, Lowercase}.

Definition canonical_digest (value : Value) (path : string) : result ResolutionError string :=
  let? bytes := ok_or (jcs value) (mkResolutionError NonCanonicalDefinition path) in
  Ok (sha256_hex bytes).
Definition digest_canonical_value (value : Value) : result ResolutionError string := canonical_digest value "/canonical_value".

(** ** Instructions *)

Record InstructionExpansion := mkExpansion {
  ie_active : gset (string * string);
  ie_emitted : gset (string * string);
  ie_output : list ResolvedInstruction;
}.

Definition reference_id (r : InstructionReference) : string * string := (ir_source_id r, ir_exact_revision r).
Definition resource_id (r : InstructionResource) : string * string := (ins_source_id r, ins_exact_revision r).
Definition resolved_instruction (resource : InstructionResource) : ResolvedInstruction :=
  mkResolvedInstruction (ins_source_id resource) (ins_exact_revision resource) (ins_content_utf8 resource)
    (sha256_hex (ins_content_utf8 resource)).

(** The loop of [expand_dependencies] over what expands one reference. *)
Fixpoint expand_all (expand : InstructionExpansion -> InstructionReference -> string -> result ResolveStop InstructionExpansion)
    (path : string) (index : Z) (dependencies : list InstructionReference) (self : InstructionExpansion)
    : result ResolveStop InstructionExpansion :=
  match dependencies with
  | [] => Ok self
  | dependency :: rest =>
      let? self := expand self dependency (path +:+ "/dependencies/" +:+ nat_to_string index) in
      expand_all expand path (index + 1) rest self
  end.

(** [InstructionExpansion::expand]. *)
Fixpoint expand (fuel : nat) (registry : ResolutionRegistry) (cycle_path : string) (self : InstructionExpansion)
    (reference : InstructionReference) (path : string) : result ResolveStop InstructionExpansion :=
  match fuel with
  | O => Err (ResolutionHalted OutOfFuel)
  | S fuel =>
      let key := reference_id reference in
      if bool_decide (key ∈ ie_emitted self) then Ok self
      else if bool_decide (key ∈ ie_active self) then Err (ResolutionRefused (mkResolutionError ReferenceCycle cycle_path))
      else
        let active := {[key]} ∪ ie_active self in
        let candidates := filter (fun item => resource_id item = key) (reg_instructions registry) in
        let? found := resolving (exact_one candidates (ir_required reference) path) in
        match found with
        | None => Ok (mkExpansion (active ∖ {[key]}) (ie_emitted self) (ie_output self))
        | Some resource =>
            let? self := expand_all (expand fuel registry cycle_path) path 0 (ins_dependencies resource)
                           (mkExpansion active (ie_emitted self) (ie_output self)) in
            Ok (mkExpansion (ie_active self ∖ {[key]}) ({[key]} ∪ ie_emitted self)
                  (ie_output self ++ [resolved_instruction resource]))
        end
  end.

Definition expansion_fuel (registry : ResolutionRegistry) : nat := S (S (length (reg_instructions registry))).

Fixpoint resolve_sources (registry : ResolutionRegistry) (index : Z) (sources : list InstructionReference)
    (self : InstructionExpansion) : result ResolveStop InstructionExpansion :=
  match sources with
  | [] => Ok self
  | reference :: rest =>
      let path := "/instruction_sources/" +:+ nat_to_string index in
      let? self := expand (expansion_fuel registry) registry path self reference path in
      resolve_sources registry (index + 1) rest self
  end.

Definition resolve_instructions (definition : AgentDefinition) (registry : ResolutionRegistry)
    : result ResolveStop (list ResolvedInstruction) :=
  let? expansion := resolve_sources registry 0 (ad_instruction_sources definition) (mkExpansion ∅ ∅ []) in
  Ok (ie_output expansion).

(** ** Model roles *)

Definition resolve_role (registry : ResolutionRegistry) (state : Z * list ResolvedModelRole) (requirement : ModelRoleRequirement)
    : result ResolutionError (Z * list ResolvedModelRole) :=
  let '(index, output) := state in
  let path := "/model_roles/" +:+ nat_to_string index in
  let candidates := filter (fun candidate => rca_role_id candidate = rr_role_id requirement) (reg_model_roles registry) in
  let? found := exact_one candidates (rr_required requirement) path in
  match found with
  | None => Ok (index + 1, output)
  | Some candidate =>
      if negb (forallb (has (rca_admitted_capabilities candidate)) (rr_required_capabilities requirement)) then
        if rr_required requirement then Err (mkResolutionError PolicyIncompatible path) else Ok (index + 1, output)
      else Ok (index + 1, output ++ [mkResolvedRole (rr_role_id requirement) (rca_capability_target_id candidate)
                                      (rr_required_capabilities requirement)])
  end.
Definition resolve_roles (definition : AgentDefinition) (registry : ResolutionRegistry)
    : result ResolutionError (list ResolvedModelRole) :=
  let? state := try_fold (resolve_role registry) (0, []) (ad_model_roles definition) in
  Ok state.2.

(** ** Limits and contracts *)

Definition tighten_limit (requested cap : option Z) (path : string) : result ResolutionError (option Z) :=
  match requested, cap with
  | Some requested, Some cap =>
      if requested <? cap then Err (mkResolutionError PolicyIncompatible path) else Ok (Some cap)
  | None, Some cap => Ok (Some cap)
  | Some requested, None => Ok (Some requested)
  | None, None => Ok None
  end.

Definition effective_limits (definition : AgentDefinition) (policy : ProductPolicy) : result ResolutionError EffectiveLimits :=
  let requested := ad_limits definition in
  let caps := pp_limit_caps policy in
  reject (mkResolutionError PolicyIncompatible "/limits/max_iterations") when
    dlm_max_iterations requested <? dlm_max_iterations caps;
  let? input := tighten_limit (dlm_max_input_tokens requested) (dlm_max_input_tokens caps) "/limits/max_input_tokens" in
  let? output := tighten_limit (dlm_max_output_tokens requested) (dlm_max_output_tokens caps) "/limits/max_output_tokens" in
  let? deadline := tighten_limit (dlm_deadline_budget_ms requested) (dlm_deadline_budget_ms caps) "/limits/deadline_budget_ms" in
  Ok (mkEffectiveLimits (dlm_max_iterations caps) input output deadline).

Definition validate_contracts (definition : AgentDefinition) (policy : ProductPolicy) : result ResolutionError unit :=
  try_for_each (fun entry : string * Z =>
      if negb (is_some_and (fun versions => has versions entry.2) (pp_admitted_contract_versions policy !! entry.1))
      then Err (mkResolutionError UnsupportedContractVersion ("/contract_versions/" +:+ entry.1)) else Ok tt)
    (entries (ad_contract_versions definition)).

(** ** The public activity catalogue *)

Definition valid_label (value : string) : bool :=
  negb (str_is_empty value) && (str_len value <=? 128) && negb (starts_with "." value) && negb (ends_with "." value)
  && negb (contains_text ".." value)
  && all_bytes (fun byte => is_ascii_lowercase byte || is_ascii_digit byte || (byte_code byte =? 46) || (byte_code byte =? 95)) value.

Definition activity_key (d : PublicToolActivityDescriptor) : string * string := (pa_tool_name d, pa_tool_revision d).

Definition public_activity_catalogue (definition : AgentDefinition) (registry : ResolutionRegistry) (tools : list ToolDefinition)
    : result ResolutionError (Z * option PublicToolActivityCatalogue) :=
  let version := default 1 (ad_contract_versions definition !! "effective_snapshot") in
  let here code := mkResolutionError code "/public_tool_activity_catalogue" in
  if version =? 1 then
    if is_some (reg_public_tool_activity_catalogue registry) then Err (here InvalidDefinition) else Ok (1, None)
  else if version =? 2 then
    let? catalogue := ok_or (reg_public_tool_activity_catalogue registry) (here ReferenceNotFound) in
    let descriptors := pac_descriptors catalogue in
    let ordered := ordered_unique (activity_key <$> descriptors) in
    let complete := (length descriptors =? length tools)%nat
                    && forallb (fun tool => existsb (fun item => (pa_tool_name item =? ToolPrepared.td_name tool)%string
                                                              && (pa_tool_revision item =? td_revision tool)%string) descriptors) tools in
    reject (here InvalidDefinition) when
      negb (pac_schema_version catalogue =? 1) || str_is_empty (pac_catalogue_revision catalogue)
      || (128 <? str_len (pac_catalogue_revision catalogue)) || negb ordered || negb complete
      || existsb (fun item => negb (valid_label (pa_label_key item))) descriptors;
    Ok (2, Some catalogue)
  else Err (mkResolutionError UnsupportedContractVersion "/contract_versions/effective_snapshot").

(** ** Resolution *)

(** The authority left after the definition, the policy candidate and the product. *)
Definition effective_governance (definition : AgentDefinition) (candidate : GovernancePolicyCandidate) (policy : ProductPolicy)
    : EffectiveGovernancePolicy :=
  let governance := ad_governance definition in
  mkEffectiveGovernance (gc_policy_id candidate) (gc_exact_revision candidate)
    (filter (fun value => value ∈ pp_allowed_requirement_capabilities policy)
       (filter (fun value => value ∈ gc_allowed_requirement_capabilities candidate)
          (gp_allowed_requirement_capabilities governance)))
    (filter (fun value => value ∈ pp_interaction_modes policy)
       (filter (fun value => value ∈ gc_interaction_modes candidate) (gp_interaction_modes governance)))
    (gp_default_unmatched governance).

Definition requirements_admitted (governance : EffectiveGovernancePolicy) (tool : ToolDefinition) : bool :=
  forallb (fun capability => has (eg_allowed_requirement_capabilities governance) (capability_wire_name capability))
    (er_capabilities (td_requirements tool)).

(** One reference of the capability loop. *)
Definition resolve_capability (registry : ResolutionRegistry) (governance : EffectiveGovernancePolicy)
    (state : EffectiveCapabilitySnapshot) (reference : CapabilityReference)
    : result ResolutionError EffectiveCapabilitySnapshot :=
  let path := to_lowercase ("/capabilities/" +:+ capability_kind_debug (cr_kind reference) +:+ "/" +:+ cr_name reference) in
  if bool_decide (cr_kind reference = ToolCapability) then
    let candidates := filter (fun tool => ToolPrepared.td_name tool = cr_name reference
                                          /\ td_revision tool = cr_exact_revision reference) (reg_tools registry) in
    let? found := exact_one candidates (cr_required reference) path in
    match found with
    | None => Ok state
    | Some tool =>
        if negb (requirements_admitted governance tool) then
          if cr_required reference then Err (mkResolutionError PolicyIncompatible path) else Ok state
        else Ok (mkEffectiveCapabilities (ec_tools state ++ [tool]) (ec_descriptors state))
    end
  else
    let candidates := filter (fun candidate => cdx_kind candidate = cr_kind reference /\ cdx_name candidate = cr_name reference
                                /\ cdx_exact_revision candidate = cr_exact_revision reference
                                /\ cdx_contract_version candidate = cr_contract_version reference)
                        (reg_capability_descriptors registry) in
    let? found := exact_one candidates (cr_required reference) path in
    Ok (match found with
        | None => state
        | Some candidate => mkEffectiveCapabilities (ec_tools state) (ec_descriptors state ++ [candidate])
        end).

Definition definition_preimage (definition : AgentDefinition) : Value :=
  json_object [("contract", Str "garive.agent-definition"); ("version", json_nat 1);
    ("definition", agent_definition_json definition)].

(** [resolve_definition]. *)
Definition resolve_definition (definition : AgentDefinition) (registry : ResolutionRegistry) (policy : ProductPolicy)
    : result ResolveStop EffectiveAgentSnapshot :=
  resolving (validate_contracts definition policy) ?;
  let governance_candidates :=
    filter (fun candidate => gc_policy_id candidate = gp_policy_id (ad_governance definition)
                             /\ gc_exact_revision candidate = gp_exact_revision (ad_governance definition))
      (reg_governance_policies registry) in
  let? found := resolving (exact_one governance_candidates true "/governance") in
  let? candidate := expect found in
  let governance := effective_governance definition candidate policy in
  let? capabilities := resolving (try_fold (resolve_capability registry governance) (mkEffectiveCapabilities [] [])
                                    (ad_capabilities definition)) in
  let context_candidates :=
    filter (fun candidate => cc_policy_id candidate = cp_policy_id (ad_context_policy definition)
                             /\ cc_exact_revision candidate = cp_exact_revision (ad_context_policy definition))
      (reg_context_policies registry) in
  let? found := resolving (exact_one context_candidates true "/context_policy") in
  let? context := expect found in
  let? (version, catalogue) := resolving (public_activity_catalogue definition registry (ec_tools capabilities)) in
  let? definition_digest := resolving (digest_canonical_value (definition_preimage definition)) in
  let? instructions := resolve_instructions definition registry in
  let? model_roles := resolving (resolve_roles definition registry) in
  let? limits := resolving (effective_limits definition policy) in
  let snapshot :=
    mkEffectiveSnapshot (ad_definition_id definition) (ad_revision definition) definition_digest instructions model_roles
      capabilities governance
      (mkResolvedContext (cc_policy_id context) (cc_exact_revision context) (cc_descriptor_digest context)) limits
      (ad_contract_versions definition) catalogue "" in
  let? digest := resolving (digest_canonical_value (snapshot_preimage snapshot version)) in
  Ok (mkEffectiveSnapshot (ad_definition_id definition) (ad_revision definition) definition_digest instructions model_roles
        capabilities governance
        (mkResolvedContext (cc_policy_id context) (cc_exact_revision context) (cc_descriptor_digest context)) limits
        (ad_contract_versions definition) catalogue digest).
End resolve.
