(* ===== verification/ConfigTheorems.v ===== *)
(** * Resolution: instruction order, authority and limits *)

From S2P Require Import Prelude Json Text Order ToolSchema ToolAccess ToolPrepared Checks Config.

(** ** The graph of instructions *)

Section instructions.
Context `{Externals}.
Context (registry : ResolutionRegistry).

Definition resources (key : string * string) : list InstructionResource :=
  filter (fun item => resource_id item = key) (reg_instructions registry).

(** One instruction asks for another. *)
Definition needs (k k' : string * string) : Prop :=
  exists r d, r ∈ resources k /\ d ∈ ins_dependencies r /\ reference_id d = k'.

(** The references that the roots lead to. *)
Inductive mentioned (roots : list InstructionReference) : InstructionReference -> Prop :=
  | mentioned_root ref : ref ∈ roots -> mentioned roots ref
  | mentioned_dependency ref r d :
      mentioned roots ref -> r ∈ resources (reference_id ref) -> d ∈ ins_dependencies r -> mentioned roots d.

(** A reference the resolution may leave out. *)
Definition absent (ref : InstructionReference) : Prop := ir_required ref = false /\ resources (reference_id ref) = [].

Definition output_ids (output : list ResolvedInstruction) : list (string * string) :=
  (fun i => (ri_source_id i, ri_exact_revision i)) <$> output.

(** Every instruction is the only candidate of its identity and follows what it asks for. *)
Definition dependencies_first (output : list ResolvedInstruction) : Prop :=
  forall before i after, output = before ++ i :: after ->
  exists r, resources (ri_source_id i, ri_exact_revision i) = [r] /\ i = resolved_instruction r
    /\ forall d, d ∈ ins_dependencies r -> reference_id d ∈ output_ids before \/ absent d.

(** What an error reports. *)
Definition justified (roots : list InstructionReference) (e : ResolutionError) : Prop :=
  match re_code e with
  | ReferenceCycle => exists ref, mentioned roots ref /\ tc needs (reference_id ref) (reference_id ref)
  | ReferenceNotFound => exists ref, mentioned roots ref /\ ir_required ref = true /\ resources (reference_id ref) = []
  | ReferenceAmbiguous => exists ref, mentioned roots ref /\ (2 <= length (resources (reference_id ref)))%nat
  | _ => False
  end.

Record expansion_ok (roots : list InstructionReference) (self : InstructionExpansion) : Prop := {
  exp_emitted : forall k, k ∈ ie_emitted self <-> k ∈ output_ids (ie_output self);
  exp_nodup : NoDup (output_ids (ie_output self));
  exp_order : dependencies_first (ie_output self);
  exp_mentioned : forall k, k ∈ output_ids (ie_output self) -> exists ref, mentioned roots ref /\ reference_id ref = k;
  exp_apart : ie_active self ## ie_emitted self;
}.

(** Identities that may still be opened. *)
Definition room (active : gset (string * string)) : nat :=
  size (list_to_set (resource_id <$> reg_instructions registry) ∖ active).

(** What the expansion of a reference gives. *)
Definition expands (roots : list InstructionReference) (fuel : nat) (self : InstructionExpansion) (refs : list InstructionReference)
    (r : result ResolveStop InstructionExpansion) : Prop :=
  match r with
  | Ok self' =>
      expansion_ok roots self' /\ ie_active self' = ie_active self
      /\ (exists new, ie_output self' = ie_output self ++ new)
      /\ forall ref, ref ∈ refs -> reference_id ref ∈ output_ids (ie_output self') \/ absent ref
  | Err (ResolutionRefused e) => justified roots e
  | Err (ResolutionHalted h) => h = OutOfFuel /\ (fuel <= room (ie_active self))%nat
  end.

Lemma output_ids_app a b : output_ids (a ++ b) = output_ids a ++ output_ids b.
Proof. apply fmap_app. Qed.

Lemma room_open key active : key ∉ active -> (exists r, r ∈ resources key) -> (room ({[key]} ∪ active) < room active)%nat.
Proof.
  intros Hk (r & Hr). unfold room. apply subset_size. unfold resources in Hr. apply list_elem_of_filter in Hr as [Hid Hr].
  assert (key ∈ (list_to_set (resource_id <$> reg_instructions registry) : gset (string * string))).
  { apply elem_of_list_to_set. rewrite <-Hid. by apply list_elem_of_fmap_2. }
  generalize dependent (list_to_set (resource_id <$> reg_instructions registry) : gset (string * string)). intros ids Hin.
  split; [set_solver|]. intros Hsub. specialize (Hsub key). set_solver.
Qed.

Lemma expand_all_spec roots fuel path (step : InstructionExpansion -> InstructionReference -> string -> result ResolveStop InstructionExpansion) refs :
  forall index self,
  (forall self ref path, expansion_ok roots self -> ref ∈ refs -> (forall k, k ∈ ie_active self -> tc needs k (reference_id ref)) ->
     expands roots fuel self [ref] (step self ref path)) ->
  expansion_ok roots self -> (forall k ref, k ∈ ie_active self -> ref ∈ refs -> tc needs k (reference_id ref)) ->
  expands roots fuel self refs (expand_all step path index refs self).
Proof.
  induction refs as [|ref refs IH]; intros index self Hstep Hok Hact; cbn [expand_all].
  { split; [done|]. split; [done|]. split; [exists []; by rewrite app_nil_r|]. by intros ref Hr%elem_of_nil. }
  pose proof (Hstep self ref (path +:+ "/dependencies/" +:+ nat_to_string index) Hok ltac:(left)) as H1.
  destruct (step self ref _) as [self1|[e|h]]; cbn [expands] in H1 |- *;
    [|apply H1; intros k Hk; apply Hact; [done|left]..].
  destruct H1 as (Hok1 & Ha1 & (new1 & Ho1) & Hr1); [intros k Hk; apply Hact; [done|left]|].
  assert (H2 : expands roots fuel self1 refs (expand_all step path (index + 1) refs self1)).
  { apply IH; [|done|].
    - intros s r p Hs Hr. apply Hstep; [done|by right].
    - intros k r Hk Hr. rewrite Ha1 in Hk. apply Hact; [done|by right]. }
  destruct (expand_all step path (index + 1) refs self1) as [self2|[e|h]]; cbn [expands] in H2 |- *; [|done|by rewrite <-Ha1].
  destruct H2 as (Hok2 & Ha2 & (new2 & Ho2) & Hr2). split_and!; [done|congruence| |].
  - exists (new1 ++ new2). by rewrite Ho2, Ho1, app_assoc.
  - intros r [->|Hr]%elem_of_cons; [|by apply Hr2]. destruct (Hr1 ref) as [Hin|Habs]; [left|left|by right].
    rewrite Ho2, output_ids_app. apply elem_of_app. by left.
Qed.

Lemma dependencies_first_snoc output r :
  dependencies_first output -> resources (resource_id r) = [r] ->
  (forall d, d ∈ ins_dependencies r -> reference_id d ∈ output_ids output \/ absent d) ->
  dependencies_first (output ++ [resolved_instruction r]).
Proof.
  intros Ho Hr Hd before i after Heq. destruct after as [|a after _] using rev_ind.
  - apply app_inj_tail in Heq as [-> <-]. by exists r.
  - change (i :: after ++ [a]) with ((i :: after) ++ [a]) in Heq. rewrite app_assoc in Heq. apply app_inj_tail in Heq as [-> _].
    by apply (Ho before i after).
Qed.

Lemma expand_spec roots cycle_path : forall fuel self ref path, expansion_ok roots self -> mentioned roots ref ->
  (forall k, k ∈ ie_active self -> tc needs k (reference_id ref)) ->
  expands roots fuel self [ref] (expand fuel registry cycle_path self ref path).
Proof.
  induction fuel as [|fuel IH]; intros self ref path Hok Hm Hact; cbn [expand]; [split; [done|lia]|].
  set (key := reference_id ref). destruct (bool_decide (key ∈ ie_emitted self)) eqn:Eem.
  { apply bool_decide_eq_true in Eem. split_and!; [done|done|exists []; by rewrite app_nil_r|].
    intros r Hr%list_elem_of_singleton. subst r. left. by apply (exp_emitted _ _ Hok). }
  apply bool_decide_eq_false in Eem. destruct (bool_decide (key ∈ ie_active self)) eqn:Eact.
  { apply bool_decide_eq_true in Eact. exists ref. split; [done|by apply Hact]. }
  apply bool_decide_eq_false in Eact. fold (resources key). destruct (resources key) as [|r [|r' rs]] eqn:Eres; cbn [exact_one].
  - destruct (ir_required ref) eqn:Ereq; cbn [resolving expands].
    + by exists ref.
    + destruct Hok as [O1 O2 O3 O4 O5]. split_and!; [constructor; cbn; try done; set_solver|cbn; set_solver|exists []; by rewrite app_nil_r|].
      intros x Hx%list_elem_of_singleton. subst x. by right.
  - cbn [resolving]. assert (Hrin : r ∈ resources key) by (rewrite Eres; left).
    assert (Hid : resource_id r = key) by (unfold resources in Hrin; by apply list_elem_of_filter in Hrin as [? _]).
    assert (Hneed : forall d, d ∈ ins_dependencies r -> needs key (reference_id d)) by (intros d Hd; by exists r, d).
    set (self1 := mkExpansion ({[key]} ∪ ie_active self) (ie_emitted self) (ie_output self)).
    assert (Hall : expands roots fuel self1 (ins_dependencies r)
      (expand_all (expand fuel registry cycle_path) path 0 (ins_dependencies r) self1)).
    { apply expand_all_spec.
      - intros s x p Hs Hx Ha. apply IH; [done| |done]. by apply (mentioned_dependency _ ref r).
      - destruct Hok as [O1 O2 O3 O4 O5]. constructor; cbn; try done. set_solver.
      - intros k x Hk Hx. cbn in Hk. apply elem_of_union in Hk as [Hk%elem_of_singleton|Hk].
        + subst k. by apply tc_once, Hneed.
        + eapply tc_r; [by apply Hact|by apply Hneed]. }
    destruct (expand_all _ path 0 _ _) as [self2|[e|h]]; cbn [expands] in Hall |- *; [|done|].
    + destruct Hall as ([O1 O2 O3 O4 O5] & Ha & (new & Hnew) & Hdeps). cbn in Ha, Hnew.
      assert (Hfresh : key ∉ output_ids (ie_output self2)) by (rewrite <-O1; set_solver).
      assert (Hids : output_ids (ie_output self2 ++ [resolved_instruction r]) = output_ids (ie_output self2) ++ [key])
        by (rewrite output_ids_app; by rewrite <-Hid).
      split_and!.
      * constructor; cbn [ie_emitted ie_output ie_active]; rewrite ?Hids.
        -- intros k. rewrite elem_of_union, elem_of_singleton, elem_of_app, list_elem_of_singleton, O1. tauto.
        -- apply NoDup_app. split_and!; [done| |apply NoDup_singleton]. intros k Hk ->%list_elem_of_singleton. done.
        -- apply dependencies_first_snoc; [done|by rewrite Hid|done].
        -- intros k [Hk|Hk%list_elem_of_singleton]%elem_of_app; [by apply O4|]. by exists ref.
        -- rewrite Ha. set_solver.
      * cbn. rewrite Ha. set_solver.
      * exists (new ++ [resolved_instruction r]). cbn. by rewrite Hnew, app_assoc.
      * intros x Hx%list_elem_of_singleton. subst x. left. cbn [ie_output]. rewrite Hids. apply elem_of_app. right. by apply list_elem_of_singleton.
    + destruct Hall as [-> Hf]. split; [done|]. cbn in Hf.
      pose proof (room_open key (ie_active self) Eact (ex_intro _ r Hrin)). lia.
  - cbn [resolving expands]. exists ref. split; [done|]. fold key. rewrite Eres. cbn. lia.
Qed.

Lemma resolve_sources_spec roots refs : forall index self, expansion_ok roots self -> ie_active self = ∅ ->
  (forall ref, ref ∈ refs -> ref ∈ roots) ->
  match resolve_sources registry index refs self with
  | Ok self' => expansion_ok roots self' /\ (exists new, ie_output self' = ie_output self ++ new)
                /\ forall ref, ref ∈ refs -> reference_id ref ∈ output_ids (ie_output self') \/ absent ref
  | Err (ResolutionRefused e) => justified roots e
  | Err (ResolutionHalted _) => False
  end.
Proof.
  induction refs as [|ref refs IH]; intros index self Hok Ha Hin; cbn [resolve_sources].
  { split_and!; [done|exists []; by rewrite app_nil_r|]. by intros ref Hr%elem_of_nil. }
  set (path := "/instruction_sources/" +:+ nat_to_string index).
  pose proof (expand_spec roots path (expansion_fuel registry) self ref path Hok) as Hx.
  destruct (expand _ registry path self ref path) as [self1|[e|h]]; cbn [expands] in Hx.
  - destruct Hx as (Hok1 & Ha1 & (new & Hn) & Hr); [apply mentioned_root, Hin; left|rewrite Ha; set_solver|].
    specialize (IH (index + 1) self1 Hok1). rewrite Ha1, Ha in IH. specialize (IH eq_refl (fun r Hr => Hin r (list_elem_of_further _ _ _ Hr))).
    destruct (resolve_sources registry (index + 1) refs self1) as [self2|[e|h]]; [|done|done].
    destruct IH as (Hok2 & (new2 & Hn2) & Hr2). split_and!; [done|exists (new ++ new2); by rewrite Hn2, Hn, app_assoc|].
    intros r [->|Hr']%elem_of_cons; [|by apply Hr2]. destruct (Hr ref) as [Hi|]; [left|left|by right].
    rewrite Hn2, output_ids_app. apply elem_of_app. by left.
  - apply Hx; [apply mentioned_root, Hin; left|rewrite Ha; set_solver].
  - destruct Hx as [_ Hf]; [apply mentioned_root, Hin; left|rewrite Ha; set_solver|].
    unfold room, expansion_fuel in Hf. rewrite Ha, difference_empty_L in Hf.
    pose proof (size_list_to_set_le (resource_id <$> reg_instructions registry)) as Hle. rewrite length_fmap in Hle. lia.
Qed.

(** On an order with dependencies first the graph below the roots is acyclic and
    every reference is resolved or left out. *)
Lemma mentioned_resolved roots output : dependencies_first output ->
  (forall ref, ref ∈ roots -> reference_id ref ∈ output_ids output \/ absent ref) ->
  forall ref, mentioned roots ref -> reference_id ref ∈ output_ids output \/ absent ref.
Proof.
  intros Hd Hroots ref Hm. induction Hm as [ref Hin|ref r d Hm IH Hr Hdep]; [by apply Hroots|].
  destruct IH as [Hin|[_ Habs]]; [|rewrite Habs in Hr; by apply elem_of_nil in Hr].
  apply list_elem_of_fmap in Hin as (i & Hi & Hin). apply list_elem_of_split in Hin as (before & after & Heq).
  destruct (Hd before i after Heq) as (r' & Hres & -> & Hdeps). rewrite <-Hi in Hres. rewrite Hres in Hr.
  apply list_elem_of_singleton in Hr as ->. destruct (Hdeps d Hdep) as [Hb|]; [left|by right].
  rewrite Heq, output_ids_app. apply elem_of_app. by left.
Qed.

Lemma needs_resource k k' : tc needs k k' -> exists r, r ∈ resources k.
Proof. intros [? ? (r & ? & Hr & _)|? ? ? (r & ? & Hr & _) _]; by exists r. Qed.

Lemma needs_earlier output : dependencies_first output ->
  forall n before i after, (length before <= n)%nat -> output = before ++ i :: after ->
  forall k', tc needs (ri_source_id i, ri_exact_revision i) k' -> k' ∈ output_ids before \/ resources k' = [].
Proof.
  intros Hd n. induction n as [n IH] using lt_wf_ind. intros before i after Hlen Heq k' Htc.
  destruct (Hd before i after Heq) as (r & Hres & Hi & Hdeps).
  assert (Hone : forall k1, needs (ri_source_id i, ri_exact_revision i) k1 -> k1 ∈ output_ids before \/ resources k1 = []).
  { intros k1 (r' & d & Hr & Hdep & <-). rewrite Hres in Hr. apply list_elem_of_singleton in Hr as ->.
    destruct (Hdeps d Hdep) as [Hb|[_ Ha]]; [by left|by right]. }
  remember (ri_source_id i, ri_exact_revision i) as k eqn:Hk. destruct Htc as [k k' Hn|k k1 k' Hn Htc]; [by apply Hone|].
  destruct (Hone k1 Hn) as [Hb|Hnone].
  2:{ exfalso. destruct (needs_resource _ _ Htc) as [r' Hr]. rewrite Hnone in Hr. by apply elem_of_nil in Hr. }
  apply list_elem_of_fmap in Hb as (i1 & Hi1 & Hb). apply list_elem_of_split in Hb as (b1 & b2 & Hb). subst before.
  rewrite Hi1 in Htc. assert (Hlt : (length b1 < n)%nat) by (rewrite length_app in Hlen; cbn in Hlen; lia).
  assert (Heq1 : output = b1 ++ i1 :: b2 ++ i :: after) by (by rewrite Heq, <-app_assoc).
  destruct (IH (length b1) Hlt b1 i1 (b2 ++ i :: after) (le_n _) Heq1 k' Htc) as [Hin|]; [|by right].
  left. rewrite output_ids_app. apply elem_of_app. by left.
Qed.

(** The graph below the roots can be resolved. *)
Definition resolvable (roots : list InstructionReference) : Prop :=
  forall ref, mentioned roots ref ->
    (length (resources (reference_id ref)) <= 1)%nat
    /\ (ir_required ref = true -> resources (reference_id ref) <> []) /\ ~ tc needs (reference_id ref) (reference_id ref).

Lemma ordered_resolvable roots output : dependencies_first output -> NoDup (output_ids output) ->
  (forall ref, ref ∈ roots -> reference_id ref ∈ output_ids output \/ absent ref) -> resolvable roots.
Proof.
  intros Hd Hnd Hroots ref Hm. destruct (mentioned_resolved roots output Hd Hroots ref Hm) as [Hin|[Hopt Hnone]].
  - apply list_elem_of_fmap in Hin as (i & Hi & Hin). apply list_elem_of_split in Hin as (before & after & Heq).
    destruct (Hd before i after Heq) as (r & Hres & Hir & _). rewrite <-Hi in Hres. rewrite Hres. split_and!; [done|done|].
    intros Htc. rewrite Hi in Htc at 1. destruct (needs_earlier output Hd (length before) before i after (le_n _) Heq _ Htc) as [Hb|Hb];
      [|by rewrite Hres in Hb].
    rewrite Heq, output_ids_app in Hnd. apply NoDup_app in Hnd as (_ & Hdis & _). apply (Hdis _ Hb). rewrite Hi. left.
  - rewrite Hnone. split_and!; [cbn; lia|by rewrite Hopt|].
    intros Htc. destruct (needs_resource _ _ Htc) as [r' Hr].
    rewrite Hnone in Hr. by apply elem_of_nil in Hr.
Qed.

Lemma justified_unresolvable roots e : justified roots e -> ~ resolvable roots.
Proof.
  unfold justified. intros Hj Hr. destruct (re_code e); try done.
  - destruct Hj as (ref & Hm & Hq & Hn). destruct (Hr ref Hm) as (_ & Hsome & _). by apply Hsome.
  - destruct Hj as (ref & Hm & Hl). destruct (Hr ref Hm) as [? _]. lia.
  - destruct Hj as (ref & Hm & Hc). destruct (Hr ref Hm) as (_ & _ & Hac). by apply Hac.
Qed.

Lemma instructions_exact definition :
  match resolve_instructions definition registry with
  | Ok output =>
      resolvable (ad_instruction_sources definition) /\ NoDup (output_ids output) /\ dependencies_first output
      /\ (forall ref, mentioned (ad_instruction_sources definition) ref -> reference_id ref ∈ output_ids output \/ absent ref)
      /\ (forall k, k ∈ output_ids output -> exists ref, mentioned (ad_instruction_sources definition) ref /\ reference_id ref = k)
  | Err (ResolutionRefused e) =>
      justified (ad_instruction_sources definition) e /\ ~ resolvable (ad_instruction_sources definition)
  | Err (ResolutionHalted _) => False
  end.
Proof.
  unfold resolve_instructions. set (roots := ad_instruction_sources definition).
  pose proof (resolve_sources_spec roots roots 0 (mkExpansion ∅ ∅ [])) as Hs.
  assert (Hok : expansion_ok roots (mkExpansion ∅ ∅ [])).
  { constructor; cbn; [set_solver|constructor|by intros [] ? ?|set_solver|set_solver]. }
  specialize (Hs Hok eq_refl (fun _ Hr => Hr)). destruct (resolve_sources registry 0 roots _) as [self|[e|h]]; [|split; [done|]|done].
  - destruct Hs as ([O1 O2 O3 O4 O5] & _ & Hr). split_and!; try done; [by eapply ordered_resolvable|by apply mentioned_resolved].
  - by eapply justified_unresolvable.
Qed.
End instructions.

Section claim_instructions.
Context `{Externals}.
(** C22: The resolution of the instructions of a definition succeeds exactly when every reference
    it mentions is answered once or is optional and absent and there is no cycle among the
    answered ones; the output then holds each of them once, after everything it depends on. A
    refusal names a reference that is missing, ambiguous or part of a cycle. *)
Theorem config_instructions_exact registry definition :
  match resolve_instructions definition registry with
  | Ok output =>
      resolvable registry (ad_instruction_sources definition) /\ NoDup (output_ids output) /\ dependencies_first registry output
      /\ (forall ref, mentioned registry (ad_instruction_sources definition) ref ->
            reference_id ref ∈ output_ids output \/ absent registry ref)
      /\ (forall k, k ∈ output_ids output ->
            exists ref, mentioned registry (ad_instruction_sources definition) ref /\ reference_id ref = k)
  | Err (ResolutionRefused e) =>
      justified registry (ad_instruction_sources definition) e /\ ~ resolvable registry (ad_instruction_sources definition)
  | Err (ResolutionHalted _) => False
  end.
Proof. apply instructions_exact. Qed.
End claim_instructions.

(** ** Authority *)

Section authority.
Context `{Externals, Jcs, Lowercase}.

Lemma exact_one_ok {T} (candidates : list T) required path found : exact_one candidates required path = Ok found ->
  match found with Some t => candidates = [t] | None => candidates = [] /\ required = false end.
Proof. unfold exact_one. destruct candidates as [|t [|]]; [destruct required| |]; by intros [= <-]. Qed.

(** A reference to a tool that the definition makes and the registry answers once. *)
Definition names_tool (registry : ResolutionRegistry) (reference : CapabilityReference) (tool : ToolDefinition) : Prop :=
  cr_kind reference = ToolCapability
  /\ filter (fun t => ToolPrepared.td_name t = cr_name reference /\ td_revision t = cr_exact_revision reference)
       (reg_tools registry) = [tool].

Lemma capabilities_ok registry governance references : forall state state',
  try_fold (resolve_capability registry governance) state references = Ok state' ->
  exists tools, ec_tools state' = ec_tools state ++ tools
    /\ (forall tool, tool ∈ tools <-> requirements_admitted governance tool = true
                                     /\ exists reference, reference ∈ references /\ names_tool registry reference tool)
    /\ (forall reference, reference ∈ references -> cr_required reference = true -> cr_kind reference = ToolCapability ->
         exists tool, tool ∈ tools /\ names_tool registry reference tool).
Proof.
  induction references as [|reference references IH]; intros state state'; cbn [try_fold].
  { intros [= <-]. exists []. rewrite app_nil_r. split_and!; [done| |by intros r Hr%elem_of_nil].
    intros tool. split; [by intros Ht%elem_of_nil|]. by intros (_ & r & Hr%elem_of_nil & _). }
  destruct (resolve_capability registry governance state reference) as [state1|] eqn:E; [|done]. intros Hf.
  destruct (IH _ _ Hf) as (tools & Htools & Hiff & Hreq). unfold resolve_capability in E.
  destruct (bool_decide (cr_kind reference = ToolCapability)) eqn:Ek.
  - apply bool_decide_eq_true in Ek. destruct (exact_one _ _ _) as [[tool|]|] eqn:Ex in E; [|injection E as <-|done].
    + apply exact_one_ok in Ex. assert (Hn : names_tool registry reference tool) by done.
      assert (Hone : forall t, names_tool registry reference t -> t = tool) by (intros t [_ Ht]; rewrite Ex in Ht; by injection Ht).
      destruct (requirements_admitted governance tool) eqn:Ea; cbn [negb] in E.
      * injection E as <-. cbn in Htools. exists (tool :: tools). rewrite Htools, <-app_assoc. split_and!; [done| |].
        -- intros t. rewrite elem_of_cons, Hiff. split.
           ++ intros [->|(Hr & r & Hin & Hrt)]; [split; [done|]; exists reference; split; [left|done]|].
              split; [done|]. exists r. split; [by right|done].
           ++ intros (Hr & r & [->|Hin]%elem_of_cons & Hrt); [left; by apply Hone|right]. eauto.
        -- intros r [->|Hin]%elem_of_cons Hrr Hk; [exists tool; split; [left|done]|].
           destruct (Hreq r Hin Hrr Hk) as (t & Ht & Hrt). exists t. split; [by right|done].
      * destruct (cr_required reference) eqn:Er; [done|]. injection E as <-. exists tools. split_and!; [done| |].
        -- intros t. rewrite Hiff. split.
           ++ intros (Hr & r & Hin & Hrt). split; [done|]. exists r. split; [by right|done].
           ++ intros (Hr & r & [->|Hin]%elem_of_cons & Hrt); [rewrite (Hone t Hrt) in Hr; congruence|]. eauto.
        -- intros r [->|Hin]%elem_of_cons Hrr Hk; [congruence|by apply Hreq].
    + apply exact_one_ok in Ex as [Ex Er]. exists tools. split_and!; [done| |].
      * intros t. rewrite Hiff. split.
        -- intros (Hr & r & Hin & Hrt). split; [done|]. exists r. split; [by right|done].
        -- intros (Hr & r & [->|Hin]%elem_of_cons & Hrt); [destruct Hrt as [_ Hrt]; by rewrite Ex in Hrt|]. eauto.
      * intros r [->|Hin]%elem_of_cons Hrr Hk; [congruence|by apply Hreq].
  - apply bool_decide_eq_false in Ek. destruct (exact_one _ _ _) as [found|] eqn:Ex in E; [|done].
    assert (Hsame : ec_tools state1 = ec_tools state) by (injection E as <-; by destruct found). rewrite Hsame in Htools.
    exists tools. split_and!; [done| |].
    + intros t. rewrite Hiff. split.
      * intros (Hr & r & Hin & Hrt). split; [done|]. exists r. split; [by right|done].
      * intros (Hr & r & [->|Hin]%elem_of_cons & Hrt); [by destruct Hrt|]. eauto.
    + intros r [->|Hin]%elem_of_cons Hrr Hk; [done|by apply Hreq].
Qed.

(** A limit within both the requested and the product's bound. *)
Definition limit_within (bound value : option Z) : Prop :=
  match bound with Some b => exists v, value = Some v /\ v <= b | None => True end.

Lemma tighten_limit_ok requested cap path limit : tighten_limit requested cap path = Ok limit ->
  limit_within requested limit /\ limit_within cap limit.
Proof.
  unfold tighten_limit, limit_within. destruct requested as [r|], cap as [c|].
  - destruct (r <? c) eqn:E; [done|]. intros [= <-]. apply Z.ltb_ge in E. split; eexists; (split; [done|lia]).
  - intros [= <-]. split; [|done]. eexists; (split; [done|lia]).
  - intros [= <-]. split; [done|]. eexists; (split; [done|lia]).
  - done.
Qed.

Definition limits_within (l : EffectiveLimits) (d : DefaultLimits) : Prop :=
  elm_max_iterations l <= dlm_max_iterations d /\ limit_within (dlm_max_input_tokens d) (elm_max_input_tokens l)
  /\ limit_within (dlm_max_output_tokens d) (elm_max_output_tokens l) /\ limit_within (dlm_deadline_budget_ms d) (elm_deadline_budget_ms l).

Lemma effective_limits_ok definition policy l : effective_limits definition policy = Ok l ->
  limits_within l (ad_limits definition) /\ limits_within l (pp_limit_caps policy).
Proof.
  unfold effective_limits, limits_within. destruct (_ <? _) eqn:E; [done|]. apply Z.ltb_ge in E.
  destruct (tighten_limit _ _ "/limits/max_input_tokens") as [a|] eqn:Ea; [|done]. apply tighten_limit_ok in Ea as [? ?].
  destruct (tighten_limit _ _ "/limits/max_output_tokens") as [b|] eqn:Eb; [|done]. apply tighten_limit_ok in Eb as [? ?].
  destruct (tighten_limit _ _ "/limits/deadline_budget_ms") as [c|] eqn:Ec; [|done]. apply tighten_limit_ok in Ec as [? ?].
  intros [= <-]. cbn. split_and!; try done; lia.
Qed.

Lemma roles_ok registry requirements : forall state state',
  try_fold (resolve_role registry) state requirements = Ok state' ->
  forall role, role ∈ state'.2 -> role ∈ state.2 \/ exists requirement candidate,
    requirement ∈ requirements /\ candidate ∈ reg_model_roles registry /\ rca_role_id candidate = rr_role_id requirement
    /\ role = mkResolvedRole (rr_role_id requirement) (rca_capability_target_id candidate) (rr_required_capabilities requirement)
    /\ forall c, c ∈ rm_admitted_capabilities role -> c ∈ rca_admitted_capabilities candidate.
Proof.
  induction requirements as [|q qs IH]; intros state state'; cbn [try_fold]; [intros [= <-]; by left|].
  destruct (resolve_role registry state q) as [state1|] eqn:E; [|done]. intros Hf role Hr.
  destruct (IH _ _ Hf role Hr) as [Hin|(r & c & Hin & Hrest)]; [|right; exists r, c; split; [by right|done]].
  destruct state as [index output]. unfold resolve_role in E.
  destruct (exact_one _ _ _) as [[candidate|]|] eqn:Ex in E; [|injection E as <-; by left|done]. apply exact_one_ok in Ex.
  assert (Hc : candidate ∈ filter (fun c => rca_role_id c = rr_role_id q) (reg_model_roles registry)) by (rewrite Ex; left).
  apply list_elem_of_filter in Hc as [Hid Hc].
  destruct (forallb _ _) eqn:Ea in E; cbn [negb] in E; [|destruct (rr_required q); [done|injection E as <-; by left]].
  injection E as <-. cbn in Hin. apply elem_of_app in Hin as [Hin|Hin%list_elem_of_singleton]; [by left|right].
  exists q, candidate. subst role. split_and!; [left|done|done|done|]. cbn. intros c Hin. rewrite forallb_forall in Ea.
  apply list_elem_of_In, Ea in Hin. by apply bool_decide_eq_true in Hin.
Qed.

Lemma contracts_ok definition policy : validate_contracts definition policy = Ok tt ->
  forall name version, ad_contract_versions definition !! name = Some version ->
  exists versions, pp_admitted_contract_versions policy !! name = Some versions /\ version ∈ versions.
Proof.
  unfold validate_contracts. intros Hv name version Hn.
  assert (Hin : (name, version) ∈ entries (ad_contract_versions definition)) by (by apply elem_of_entries).
  revert Hv Hin. generalize (entries (ad_contract_versions definition)) as l.
  induction l as [|e l IH]; intros Hv Hin; [by apply elem_of_nil in Hin|]. cbn [try_for_each] in Hv.
  destruct (negb _) eqn:E in Hv; [done|]. apply elem_of_cons in Hin as [<-|Hin]; [|by apply IH].
  apply negb_false_iff in E. cbn in E. destruct (pp_admitted_contract_versions policy !! name) as [versions|]; [|done].
  exists versions. split; [done|]. cbn in E. by apply bool_decide_eq_true in E.
Qed.

(** C21: A resolution never panics, and a resolved snapshot grants exactly the capabilities and
    modes that the definition, its governance candidate and the product all grant, holds exactly
    the referenced tools whose requirements are granted, every required tool among them, limits
    within both the definition and the product, and only admitted contract versions. *)
Theorem config_authority_narrows definition registry policy :
  (forall halt, resolve_definition definition registry policy <> Err (ResolutionHalted halt))
  /\ forall snapshot, resolve_definition definition registry policy = Ok snapshot ->
     exists candidate, candidate ∈ reg_governance_policies registry
       /\ gc_policy_id candidate = gp_policy_id (ad_governance definition)
       /\ gc_exact_revision candidate = gp_exact_revision (ad_governance definition)
       /\ (forall capability, capability ∈ eg_allowed_requirement_capabilities (es_governance snapshot) <->
             capability ∈ gp_allowed_requirement_capabilities (ad_governance definition)
             /\ capability ∈ gc_allowed_requirement_capabilities candidate
             /\ capability ∈ pp_allowed_requirement_capabilities policy)
       /\ (forall mode, mode ∈ eg_interaction_modes (es_governance snapshot) <->
             mode ∈ gp_interaction_modes (ad_governance definition) /\ mode ∈ gc_interaction_modes candidate
             /\ mode ∈ pp_interaction_modes policy)
       /\ (forall tool, tool ∈ ec_tools (es_capabilities snapshot) <->
             (forall capability, capability ∈ er_capabilities (td_requirements tool) ->
                capability_wire_name capability ∈ eg_allowed_requirement_capabilities (es_governance snapshot))
             /\ exists reference, reference ∈ ad_capabilities definition /\ names_tool registry reference tool)
       /\ (forall reference, reference ∈ ad_capabilities definition -> cr_required reference = true ->
             cr_kind reference = ToolCapability ->
             exists tool, tool ∈ ec_tools (es_capabilities snapshot) /\ names_tool registry reference tool)
       /\ limits_within (es_limits snapshot) (ad_limits definition)
       /\ limits_within (es_limits snapshot) (pp_limit_caps policy)
       /\ (forall name version, es_contract_versions snapshot !! name = Some version ->
             exists versions, pp_admitted_contract_versions policy !! name = Some versions /\ version ∈ versions).
Proof.
  unfold resolve_definition. destruct (validate_contracts definition policy) as [[]|] eqn:Ev; cbn [resolving]; [|by split].
  destruct (exact_one _ true "/governance") as [found|] eqn:Eg; cbn [resolving]; [|by split]. apply exact_one_ok in Eg.
  destruct found as [candidate|]; [|by destruct Eg]. cbn [expect].
  destruct (try_fold _ _ (ad_capabilities definition)) as [capabilities|] eqn:Ec; cbn [resolving]; [|by split].
  destruct (exact_one _ true "/context_policy") as [found|] eqn:Ex; cbn [resolving]; [|by split]. apply exact_one_ok in Ex.
  destruct found as [context|]; [|by destruct Ex]. cbn [expect].
  destruct (public_activity_catalogue _ _ _) as [[version catalogue]|]; cbn [resolving]; [|by split].
  destruct (digest_canonical_value (definition_preimage definition)) as [digest|]; cbn [resolving]; [|by split].
  pose proof (instructions_exact registry definition) as Hi.
  destruct (resolve_instructions definition registry) as [instructions|[e|h]]; [|by split|done].
  destruct (resolve_roles definition registry) as [roles|]; cbn [resolving]; [|by split].
  destruct (effective_limits definition policy) as [l|] eqn:El; cbn [resolving]; [|by split].
  destruct (digest_canonical_value (snapshot_preimage _ _)) as [sd|]; cbn [resolving]; [|by split].
  split; [done|]. intros snapshot [= <-]. cbn [es_governance es_capabilities es_limits es_contract_versions].
  assert (Hc : candidate ∈ filter (fun c => gc_policy_id c = gp_policy_id (ad_governance definition)
     /\ gc_exact_revision c = gp_exact_revision (ad_governance definition)) (reg_governance_policies registry)) by (rewrite Eg; left).
  apply list_elem_of_filter in Hc as [[Hid Hrev] Hc]. exists candidate.
  destruct (capabilities_ok _ _ _ _ _ Ec) as (tools & Htools & Hiff & Hreq). cbn in Htools. rewrite Htools.
  split_and!; try done; try (by apply effective_limits_ok in El as [? ?]); [..|by apply contracts_ok].
  - intros capability. unfold effective_governance. cbn. rewrite !list_elem_of_filter. tauto.
  - intros mode. unfold effective_governance. cbn. rewrite !list_elem_of_filter. tauto.
  - intros tool. rewrite Hiff. unfold requirements_admitted. rewrite forallb_forall.
    split; intros [Hall Href]; (split; [|done]); intros c Hin; [apply list_elem_of_In in Hin|apply list_elem_of_In in Hin];
      specialize (Hall c Hin); unfold has in *; [by apply bool_decide_eq_true in Hall|by apply bool_decide_eq_true].
Qed.
End authority.

(** ** A sample resolution *)

Module ConfigSample.
#[export] Instance externals : Externals :=
  {| sha256_hex s := s; json_from_str _ := None; parse_rfc3339 _ := None; to_rfc3339 _ := "" |}.
#[export] Instance canonical_json : Jcs := fun v => match encode v with Ok s => Some s | Err _ => None end.
#[export] Instance lowercase : Lowercase := fun s => s.

Definition tool (name : string) (capability : ExecutionCapability) : ToolDefinition :=
  mkDefinition name "1" "" Null (mkRequirements [capability] 1 1) ReadOnly None None.
Definition wanted (name : string) (required : bool) : CapabilityReference :=
  mkCapabilityReference ToolCapability name "1" 1 required.
Definition source (id : string) : InstructionReference := mkInstructionReference id "1" true.
Definition agent : AgentDefinition :=
  mkAgentDefinition "agent" "1" [source "top"] [] [wanted "read" true; wanted "write" false]
    (mkGovernance "policy" "1" ["filesystem_read"; "filesystem_write"] [ApprovalMode] DenyUnmatched)
    (mkContextReference "context" "1") (mkDefaultLimits 8 (Some 100) None None) ∅.
Definition registry : ResolutionRegistry :=
  mkResolutionRegistry [mkInstructionResource "top" "1" "then" [source "base"]; mkInstructionResource "base" "1" "first" []] []
    [tool "read" FilesystemRead; tool "write" FilesystemWrite] [] [mkGovernanceCandidate "policy" "1" ["filesystem_read"] [ApprovalMode]]
    [mkContextCandidate "context" "1" "digest"] None.
Definition product : ProductPolicy :=
  mkProductPolicy ["filesystem_read"; "filesystem_write"] [] (mkDefaultLimits 4 None (Some 50) None) ∅.

(** The writing tool, which no policy grants, is left out; the dependency comes first. *)
Lemma config_authority_narrows_witness :
  exists snapshot, resolve_definition agent registry product = Ok snapshot
    /\ ToolPrepared.td_name <$> ec_tools (es_capabilities snapshot) = ["read"]
    /\ ri_source_id <$> es_instructions snapshot = ["base"; "top"]
    /\ limits_within (es_limits snapshot) (pp_limit_caps product).
Proof.
  destruct (resolve_definition agent registry product) as [snapshot|e] eqn:E; [|vm_compute in E; discriminate E].
  exists snapshot. split; [reflexivity|]. split; [vm_compute in E; injection E as <-; reflexivity|].
  split; [vm_compute in E; injection E as <-; reflexivity|].
  destruct (config_authority_narrows agent registry product) as [_ Hn].
  destruct (Hn snapshot E) as (candidate & _ & _ & _ & _ & _ & _ & _ & _ & Hl & _). exact Hl.
Defined.
End ConfigSample.
