(* ===== verification/MemoryContext.v ===== *)
(** * Recalled memory in the context ([engine/core/src/memory_context.rs])

    Committed recall batches become optional candidates of the ordinary context
    derivation, visible to inference only. *)

From S2P Require Import Prelude Json Text Order ToolSchema ToolPrepared Checks ModelTypes ContextSurface ContextTheorems GovernedEffect.

Inductive MemoryRecallProduct := MenuProduct | DetailProduct.
#[export] Instance MemoryRecallProduct_eq_dec : EqDecision MemoryRecallProduct.
Proof. solve_decision. Defined.
#[export] Instance MemoryRecallProduct_countable : Countable MemoryRecallProduct.
Proof.
  refine (inj_countable' (fun p => match p with MenuProduct => true | DetailProduct => false end)
            (fun b : bool => if b then MenuProduct else DetailProduct) _). by intros [].
Defined.

Inductive MemoryContextState := ContextCandidateState | ContextActive | ContextCold | ContextArchived.
#[export] Instance MemoryContextState_eq_dec : EqDecision MemoryContextState.
Proof. solve_decision. Defined.

Record MemoryContextItem := mkContextMemory {
  mci_record_id : string;
  mci_revision_id : string;
  mci_memory_type : string;
  mci_role : string;
  mci_authority : string;
  mci_state : MemoryContextState;
  mci_safe_label : string;
  mci_content_digest : string;
  mci_content_byte_length : Z;
  mci_content_utf8 : option string;
}.

Record MemoryRecallContextBatch := mkRecallBatch {
  mrb_fact_ref : FactRef;
  mrb_fact_id : string;
  mrb_payload_digest : string;
  mrb_selection_id : string;
  mrb_request_digest : string;
  mrb_namespace_id : string;
  mrb_product : MemoryRecallProduct;
  mrb_selection_policy_revision : string;
  mrb_through_position : Z;
  mrb_truncated : bool;
  mrb_items : list MemoryContextItem;
}.

Inductive MemoryContextError := InvalidBinding | DuplicateRecall | ContextRefused (code : string).
#[export] Instance MemoryContextError_eq_dec : EqDecision MemoryContextError.
Proof. solve_decision. Defined.

Definition context_state_name (value : MemoryContextState) : string :=
  match value with
  | ContextCandidateState => "candidate" | ContextActive => "active" | ContextCold => "cold" | ContextArchived => "archived"
  end.
Definition product_name (value : MemoryRecallProduct) : string :=
  match value with MenuProduct => "menu" | DetailProduct => "detail" end.

Definition memory_identity (item : MemoryContextItem) : string * string := (mci_record_id item, mci_revision_id item).

Section context.
Context `{Externals, JsonWriter}.

(** [serde_json::Value::to_string]; a value never fails to print. *)
Definition value_to_string (v : Value) : string := default "" (json_to_vec v).

Definition recall_json (recall : MemoryRecallContextBatch) (item : MemoryContextItem) : Value :=
  json_object [("type", Str "garive.memory.recall"); ("selection_id", Str (mrb_selection_id recall));
    ("request_digest", Str (mrb_request_digest recall)); ("namespace_id", Str (mrb_namespace_id recall));
    ("product", Str (product_name (mrb_product recall)));
    ("selection_policy_revision", Str (mrb_selection_policy_revision recall));
    ("recall_fact", json_object [("session_id", Str (fr_session_id (mrb_fact_ref recall)));
                                 ("position", json_nat (fr_position (mrb_fact_ref recall)));
                                 ("fact_id", Str (mrb_fact_id recall)); ("payload_digest", Str (mrb_payload_digest recall))]);
    ("record_id", Str (mci_record_id item)); ("revision_id", Str (mci_revision_id item));
    ("memory_type", Str (mci_memory_type item)); ("role", Str (mci_role item)); ("authority", Str (mci_authority item));
    ("state", Str (context_state_name (mci_state item))); ("safe_label", Str (mci_safe_label item));
    ("content_digest", Str (mci_content_digest item)); ("content_byte_length", json_nat (mci_content_byte_length item));
    ("content", match mci_content_utf8 item with Some text => Str text | None => Null end)].

Definition render_recall (recall : MemoryRecallContextBatch) (item : MemoryContextItem) : ModelInputItem :=
  InputMessage RoleUser [ContentText (value_to_string (recall_json recall item))].

Definition recall_candidate (recall : MemoryRecallContextBatch) : ContextCandidate :=
  mkCandidate (mrb_fact_ref recall) KindMemory Optional (Purposes {[Inference]}) (render_recall recall <$> mrb_items recall).

(** The checks on one item besides its fresh identity, and on its content. *)
Definition item_malformed (item : MemoryContextItem) : bool :=
  str_is_empty (mci_record_id item) || str_is_empty (mci_revision_id item)
  || negb (contains ["semantic"; "episodic"; "lesson"; "procedural"] (mci_memory_type item))
  || negb (contains ["preference"; "constraint"; "decision"; "learned_fact"; "summary"] (mci_role item))
  || negb (contains ["user_declared"; "agent_learned"; "organisation_published"] (mci_authority item))
  || str_is_empty (mci_safe_label item) || negb (valid_sha256 (mci_content_digest item))
  || (mci_content_byte_length item =? 0).
Definition content_bound (product : MemoryRecallProduct) (item : MemoryContextItem) : bool :=
  match product, mci_content_utf8 item with
  | MenuProduct, None => true
  | DetailProduct, Some content =>
      negb (str_is_empty content) && (str_len content =? mci_content_byte_length item)
      && (sha256_hex content =? mci_content_digest item)%string
  | _, _ => false
  end.

Definition check_item (product : MemoryRecallProduct) (identities : gset (string * string)) (item : MemoryContextItem)
    : result MemoryContextError (gset (string * string)) :=
  reject InvalidBinding when
    item_malformed item || bool_decide (memory_identity item ∈ identities)
    || bool_decide (mci_state item = ContextArchived) && bool_decide (product = MenuProduct);
  if content_bound product item then Ok ({[memory_identity item]} ∪ identities) else Err InvalidBinding.

(** [validate_batch]: the identities with those of the batch. *)
Definition validate_batch (request : ContextRequest) (recall : MemoryRecallContextBatch) (identities : gset (string * string))
    : result MemoryContextError (gset (string * string)) :=
  reject InvalidBinding when
    negb (fr_session_id (mrb_fact_ref recall) =? cr_session_id request)%string
    || (fr_position (mrb_fact_ref recall) <=? mrb_through_position recall)
    || (cr_through_position request <? fr_position (mrb_fact_ref recall))
    || str_is_empty (mrb_fact_id recall) || negb (valid_sha256 (mrb_payload_digest recall))
    || str_is_empty (mrb_selection_id recall) || negb (valid_sha256 (mrb_request_digest recall))
    || str_is_empty (mrb_namespace_id recall) || str_is_empty (mrb_selection_policy_revision recall);
  try_fold (check_item (mrb_product recall)) identities (mrb_items recall).

(** One batch of the loop. *)
Definition admit_recall (request : ContextRequest)
    (state : gset MemoryRecallProduct * gset (string * string) * list ContextCandidate) (recall : MemoryRecallContextBatch)
    : result MemoryContextError (gset MemoryRecallProduct * gset (string * string) * list ContextCandidate) :=
  let '(products, identities, combined) := state in
  reject DuplicateRecall when bool_decide (mrb_product recall ∈ products);
  let? identities := validate_batch request recall identities in
  Ok ({[mrb_product recall]} ∪ products, identities,
      if vec_is_empty (mrb_items recall) then combined else combined ++ [recall_candidate recall]).

(** [derive_context_with_memory]. *)
Definition derive_context_with_memory (request : ContextRequest) (candidates : list ContextCandidate)
    (recalls : list MemoryRecallContextBatch) : result MemoryContextError ContextSurface :=
  reject (ContextRefused (if windows_any (fun a b => cc_position a =? cc_position b) candidates
                          then "duplicate-reference" else "non-increasing-position")) when
    windows_any (fun a b => cc_position b <=? cc_position a) candidates;
  reject DuplicateRecall when (2 <? length recalls)%nat;
  let? (_, combined) := try_fold (admit_recall request) (∅, ∅, candidates) recalls in
  match derive_context request (sort_by_key cc_position combined) with
  | Ok surface => Ok surface
  | Err error => Err (ContextRefused (context_error_code error))
  end.
End context.

(** ** What enters the context *)

Section theorems.
Context `{Externals, JsonWriter}.

Definition item_admitted (product : MemoryRecallProduct) (item : MemoryContextItem) : Prop :=
  item_malformed item = false /\ content_bound product item = true
  /\ ~ (mci_state item = ContextArchived /\ product = MenuProduct).

Definition batch_admitted (request : ContextRequest) (recall : MemoryRecallContextBatch) : Prop :=
  fr_session_id (mrb_fact_ref recall) = cr_session_id request
  /\ mrb_through_position recall < fr_position (mrb_fact_ref recall) <= cr_through_position request
  /\ mrb_fact_id recall <> "" /\ valid_sha256 (mrb_payload_digest recall) = true /\ mrb_selection_id recall <> ""
  /\ valid_sha256 (mrb_request_digest recall) = true /\ mrb_namespace_id recall <> "" /\ mrb_selection_policy_revision recall <> ""
  /\ Forall (item_admitted (mrb_product recall)) (mrb_items recall).

Definition recalled (recalls : list MemoryRecallContextBatch) : list (string * string) :=
  recalls ≫= fun recall => memory_identity <$> mrb_items recall.
Definition recall_candidates (recalls : list MemoryRecallContextBatch) : list ContextCandidate :=
  recall_candidate <$> filter (fun recall => mrb_items recall <> []) recalls.

Lemma check_items_spec product items : forall identities identities',
  try_fold (check_item product) identities items = Ok identities' <->
  Forall (item_admitted product) items /\ NoDup (memory_identity <$> items)
  /\ (forall item, item ∈ items -> memory_identity item ∉ identities)
  /\ identities' = list_to_set (memory_identity <$> items) ∪ identities.
Proof.
  induction items as [|item items IH]; intros identities identities'; cbn [try_fold].
  { split; [intros [= <-]|intros (_ & _ & _ & ->)]; [split_and!; [constructor|constructor|by intros x Hx%elem_of_nil|set_solver]|].
    f_equal. cbn. set_solver. }
  unfold check_item at 1. rewrite Forall_cons, fmap_cons, list.NoDup_cons.
  destruct (item_malformed item) eqn:E1; cbn [orb]; [split; [done|]; intros (((Hm & _) & _) & _); congruence|].
  destruct (bool_decide (memory_identity item ∈ identities)) eqn:E2; cbn [orb].
  { apply bool_decide_eq_true in E2. split; [done|]. intros (_ & _ & Hf & _). by destruct (Hf item); [left|]. }
  apply bool_decide_eq_false in E2. destruct (bool_decide (mci_state item = ContextArchived) && bool_decide (product = MenuProduct)) eqn:E3.
  { apply andb_true_iff in E3 as [E3 E4]. apply bool_decide_eq_true in E3, E4. split; [done|]. intros (((_ & _ & Hn) & _) & _). by destruct Hn. }
  destruct (content_bound product item) eqn:E5; [|split; [done|]; intros (((_ & Hb & _) & _) & _); congruence].
  assert (Hn : ~ (mci_state item = ContextArchived /\ product = MenuProduct)).
  { intros [Ha Hb]. by rewrite !bool_decide_eq_true_2 in E3. }
  rewrite IH. setoid_rewrite not_elem_of_union. setoid_rewrite not_elem_of_singleton. setoid_rewrite elem_of_cons.
  setoid_rewrite list_elem_of_fmap. split.
  - intros (Hall & Hnd & Hf & ->). split_and!; try done.
    + intros (x & Heq & Hx). destruct (Hf x Hx) as [Hne _]. by symmetry in Heq.
    + intros x [->|Hx]; [done|]. by destruct (Hf x Hx).
    + cbn. set_solver.
  - intros ((_ & Hall) & (Hni & Hnd) & Hf & ->). split_and!; try done.
    + intros x Hx. split; [|by apply Hf; right]. intros Heq. apply Hni. by exists x.
    + cbn. set_solver.
Qed.

Lemma validate_batch_spec request recall identities identities' :
  validate_batch request recall identities = Ok identities' <->
  batch_admitted request recall /\ NoDup (memory_identity <$> mrb_items recall)
  /\ (forall item, item ∈ mrb_items recall -> memory_identity item ∉ identities)
  /\ identities' = list_to_set (memory_identity <$> mrb_items recall) ∪ identities.
Proof.
  unfold validate_batch, batch_admitted, str_is_empty. split.
  - destruct (_ || _) eqn:E; [done|]. rewrite check_items_spec. bool_hyps. intros (Hall & Hrest). split_and!; try done; try lia; apply Hrest.
  - intros ((-> & [Hp1 Hp2] & H1 & H2 & H3 & H4 & H5 & H6 & Hall) & Hrest).
    rewrite String.eqb_refl, H2, H4, !(proj2 (String.eqb_neq _ _)) by done.
    rewrite (proj2 (Z.leb_gt _ _)), (proj2 (Z.ltb_ge _ _)) by lia. cbn [negb orb]. by apply check_items_spec.
Qed.

Lemma union_shuffle `{Countable A} (X Y Z : gset A) : X ∪ (Y ∪ Z) = Y ∪ X ∪ Z.
Proof. set_solver. Qed.

Lemma admit_recalls_spec request recalls : forall products identities combined state',
  try_fold (admit_recall request) (products, identities, combined) recalls = Ok state' <->
  Forall (batch_admitted request) recalls /\ NoDup (mrb_product <$> recalls) /\ NoDup (recalled recalls)
  /\ (forall recall, recall ∈ recalls -> mrb_product recall ∉ products)
  /\ (forall k, k ∈ recalled recalls -> k ∉ identities)
  /\ state' = (list_to_set (mrb_product <$> recalls) ∪ products, list_to_set (recalled recalls) ∪ identities,
               combined ++ recall_candidates recalls).
Proof.
  induction recalls as [|recall recalls IH]; intros products identities combined state'; cbn [try_fold].
  { split; [intros [= <-]|intros (_ & _ & _ & _ & _ & ->)].
    - split_and!; [constructor|constructor|constructor|by intros x Hx%elem_of_nil|by intros x Hx%elem_of_nil|].
      cbn. rewrite app_nil_r, !union_empty_l_L. done.
    - cbn. rewrite app_nil_r, !union_empty_l_L. done. }
  unfold admit_recall at 1. rewrite Forall_cons, fmap_cons, list.NoDup_cons.
  destruct (bool_decide (mrb_product recall ∈ products)) eqn:E1.
  { apply bool_decide_eq_true in E1. split; [done|]. intros (_ & _ & _ & Hf & _). by destruct (Hf recall); [left|]. }
  apply bool_decide_eq_false in E1. change (recalled (recall :: recalls)) with ((memory_identity <$> mrb_items recall) ++ recalled recalls).
  assert (Hcand : recall_candidates (recall :: recalls)
    = (if vec_is_empty (mrb_items recall) then [] else [recall_candidate recall]) ++ recall_candidates recalls).
  { unfold recall_candidates. rewrite filter_cons. by destruct (mrb_items recall). }
  rewrite Hcand, NoDup_app. setoid_rewrite elem_of_app. split.
  - destruct (validate_batch request recall identities) as [identities1|] eqn:Ev; [|done].
    apply validate_batch_spec in Ev as (Hb & Hnd & Hf & ->). rewrite IH. setoid_rewrite not_elem_of_union.
    intros (Hall & Hp & Hr & Hfp & Hfi & ->). split_and!; try done.
    + intros (x & Heq & Hx)%list_elem_of_fmap. destruct (Hfp x Hx) as [Hne _]. by apply Hne, elem_of_singleton.
    + intros k Hk Hk2. destruct (Hfi k Hk2) as [Hne _]. by apply Hne, elem_of_list_to_set.
    + intros x [->|Hx]%elem_of_cons; [done|]. by destruct (Hfp x Hx).
    + intros k [Hk|Hk]; [|by destruct (Hfi k Hk)]. apply list_elem_of_fmap in Hk as (x & -> & Hx). by apply Hf.
    + rewrite list_to_set_cons, list_to_set_app_L, union_shuffle, (union_shuffle (list_to_set (recalled recalls))).
      by destruct (vec_is_empty (mrb_items recall)); [|rewrite <-app_assoc].
  - intros ((Hb & Hall) & (Hnp & Hp) & (Hnd & Hdis & Hr) & Hfp & Hfi & ->).
    assert (validate_batch request recall identities = Ok (list_to_set (memory_identity <$> mrb_items recall) ∪ identities)) as ->.
    { apply validate_batch_spec. split_and!; try done. intros item Hi. apply Hfi. left. by apply list_elem_of_fmap_2. }
    apply IH. setoid_rewrite not_elem_of_union. split_and!; try done.
    + intros x Hx. split; [|by apply Hfp; right]. rewrite not_elem_of_singleton. intros Heq. apply Hnp. rewrite <-Heq.
      by apply list_elem_of_fmap_2.
    + intros k Hk. split; [|by apply Hfi; right]. rewrite elem_of_list_to_set. intros Hk2. by apply (Hdis k).
    + rewrite list_to_set_cons, list_to_set_app_L, union_shuffle, (union_shuffle (list_to_set (recalled recalls))).
      by destruct (vec_is_empty (mrb_items recall)); [|rewrite <-app_assoc].
Qed.

Lemma candidates_increasing cs : windows_any (fun a b => cc_position b <=? cc_position a) cs = false <-> increasing None cs.
Proof.
  unfold increasing. cbn [option_list app]. induction cs as [|a [|b cs] IH]; cbn [windows_any].
  - split; [constructor|done].
  - split; [intros _; repeat constructor|done].
  - rewrite orb_false_iff, IH, Z.leb_gt. split.
    + intros [Hab Hs]. cbn in Hs |- *. constructor; [done|].
      constructor; [done|]. inversion Hs as [|x l _ Hf]; subst. eapply Forall_impl; [exact Hf|]. cbn. lia.
    + intros Hs. cbn in Hs. inversion Hs as [|x l Hs' Hf]; subst. inversion Hf; subst. done.
Qed.

(** What the model sees of a memory: the content only of a detail, bound to its digest. *)
Definition rendered_content (recall : MemoryRecallContextBatch) (item : MemoryContextItem) : option Value :=
  value_get "content" (recall_json recall item).

(** A context with recalled memory is derived exactly when the facts are in order, the batches are
    well bound, at most one per product and without a repeated memory, and the ordinary derivation
    accepts the facts with one optional inference-only candidate per batch; a menu shows no content
    and a detail exactly the content its digest binds. *)
Theorem memory_context_exact request candidates recalls surface :
  (derive_context_with_memory request candidates recalls = Ok surface <->
   increasing None candidates /\ (length recalls <= 2)%nat /\ Forall (batch_admitted request) recalls
   /\ NoDup (mrb_product <$> recalls) /\ NoDup (recalled recalls)
   /\ derive_context request (sort_by_key cc_position (candidates ++ recall_candidates recalls)) = Ok surface)
  /\ forall recall item, batch_admitted request recall -> item ∈ mrb_items recall ->
       match mrb_product recall with
       | MenuProduct => rendered_content recall item = Some Null
       | DetailProduct => exists content, rendered_content recall item = Some (Str content)
                            /\ sha256_hex content = mci_content_digest item
       end.
Proof.
  split.
  - unfold derive_context_with_memory. split.
    + destruct (windows_any _ candidates) eqn:Ew; [by destruct (windows_any _ candidates)|]. apply candidates_increasing in Ew.
      destruct (2 <? length recalls)%nat eqn:El; [done|]. apply Nat.ltb_ge in El.
      destruct (try_fold _ _ recalls) as [state|] eqn:Ef; [|done]. apply admit_recalls_spec in Ef as (Hb & Hp & Hr & _ & _ & ->).
      destruct (derive_context _ _) eqn:Ed; [|done]. by intros [= <-].
    + intros (Hi & Hl & Hb & Hp & Hr & Hd). apply candidates_increasing in Hi. rewrite Hi, (proj2 (Nat.ltb_ge _ _) Hl).
      assert (try_fold (admit_recall request) (∅, ∅, candidates) recalls
        = Ok (list_to_set (mrb_product <$> recalls) ∪ ∅, list_to_set (recalled recalls) ∪ ∅, candidates ++ recall_candidates recalls)) as ->.
      { apply admit_recalls_spec. split_and!; try done; intros; apply not_elem_of_empty. }
      by rewrite Hd.
  - intros recall item (_ & _ & _ & _ & _ & _ & _ & _ & Hall) Hin. rewrite Forall_forall in Hall.
    destruct (Hall item Hin) as (_ & Hc & _). unfold content_bound in Hc.
    assert (rendered_content recall item = Some (match mci_content_utf8 item with Some text => Str text | None => Null end)) as -> by reflexivity.
    destruct (mrb_product recall), (mci_content_utf8 item) as [content|]; try done. bool_hyps. by exists content.
Qed.

(** A memory that appears twice is an invalid binding, not a duplicate recall. *)
Theorem repeated_memory_is_invalid_binding product identities item :
  memory_identity item ∈ identities -> check_item product identities item = Err InvalidBinding.
Proof. intros Hin. unfold check_item. rewrite (bool_decide_eq_true_2 _ Hin), orb_true_r. done. Qed.
End theorems.
