(* ===== verification/ProcessProtocol.v ===== *)
(** * The process protocol ([engine/proto/src/process_digest.rs], [process_state.rs], [process_frame.rs])

    The messages between the runtime, the service that owns a virtual machine and the
    guest agent in it ([spec/proto/garive/process/v1/process.proto]): the digests that
    bind a workload and its terminal receipt, the state of one dispatch attempt, and
    the frames the messages travel in.  A [Vec<u8>] is the string of its bytes.
    SHA-256 and the codec that prost generates are parameters. *)

From S2P Require Import Prelude Text.

(** ** Messages *)

Record ProcessIdentityV1 := mkProcessIdentity {
  pi_protocol_revision : string;
  pi_invocation_id : string;
  pi_dispatch_attempt_id : string;
  pi_executor_revision : string;
  pi_prepared_digest : string;
  pi_vm_configuration_digest : string;
  pi_workload_digest : string;
}.
Record MacOSProcessVMPlanV1 := mkVMPlan {
  vp_kernel_url : string;
  vp_kernel_digest : string;
  vp_initial_ramdisk_url : string;
  vp_initial_ramdisk_digest : string;
  vp_root_disk_url : string;
  vp_root_disk_digest : string;
  vp_workspace_url : string;
  vp_workspace_mode : Z;
  vp_cpu_count : Z;
  vp_memory_size_bytes : Z;
  vp_control_timeout_milliseconds : Z;
}.
Record ProcessEnvironmentEntryV1 := mkEnvironmentEntry { pe_key : string; pe_value : string }.
Record ProcessWorkloadV1 := mkWorkload {
  pw_lane : string;
  pw_executable : string;
  pw_argv : list string;
  pw_working_directory : string;
  pw_environment : list ProcessEnvironmentEntryV1;
  pw_max_output_bytes : Z;
  pw_timeout_milliseconds : Z;
  pw_max_processes : Z;
  pw_max_open_files : Z;
  pw_workspace_mode : Z;
}.
Record ProcessDispatchV1 := mkDispatch {
  pd_identity : option ProcessIdentityV1;
  pd_vm_plan : option MacOSProcessVMPlanV1;
  pd_workload : option ProcessWorkloadV1;
}.
Record ProcessIdentityRequestV1 := mkIdentityRequest { pq_identity : option ProcessIdentityV1 }.
Record ProcessAcknowledgeRequestV1 := mkAcknowledge {
  pk_identity : option ProcessIdentityV1;
  pk_receipt_digest : string;
}.
Inductive HostCommand :=
  | HostPreflight (dispatch : ProcessDispatchV1)
  | HostStart (dispatch : ProcessDispatchV1)
  | HostQuery (request : ProcessIdentityRequestV1)
  | HostTerminate (request : ProcessIdentityRequestV1)
  | HostAcknowledge (request : ProcessAcknowledgeRequestV1).
Record ProcessPreflightedV1 := mkPreflighted { pp_identity : option ProcessIdentityV1 }.
Record ProcessHostRequestV1 := mkHostRequest { hq_command : option HostCommand }.

Inductive ExitClassification := ExitCode (value : Z) | ExitSignal (value : Z) | ExitTimedOut (value : bool).
Record ProcessExitV1 := mkExit { px_classification : option ExitClassification }.
Record ProcessTerminalReceiptV1 := mkReceipt {
  pr_identity : option ProcessIdentityV1;
  pr_exit : option ProcessExitV1;
  pr_stdout : string;
  pr_stderr : string;
  pr_truncated : bool;
  pr_process_tree_terminated : bool;
  pr_receipt_digest : string;
}.
Record ProcessStatusV1 := mkStatus {
  ps_identity : option ProcessIdentityV1;
  ps_state : Z;
  ps_terminal : option ProcessTerminalReceiptV1;
}.
Record ProcessProtocolErrorV1 := mkProtocolError { pf_failure : Z }.
Inductive HostResult :=
  | HostPreflighted (preflighted : ProcessPreflightedV1)
  | HostStatus (status : ProcessStatusV1)
  | HostTerminal (receipt : ProcessTerminalReceiptV1)
  | HostError (error : ProcessProtocolErrorV1).
Record ProcessHostResponseV1 := mkHostResponse { hr_result : option HostResult }.

Record ProcessGuestHelloV1 := mkHello { gh_identity : option ProcessIdentityV1; gh_challenge : string }.
Record ProcessGuestReadyV1 := mkReady {
  gr_identity : option ProcessIdentityV1;
  gr_challenge : string;
  gr_guest_agent_revision : string;
}.
Record ProcessGuestExecuteV1 := mkExecute {
  ge_identity : option ProcessIdentityV1;
  ge_workload : option ProcessWorkloadV1;
}.
Inductive GuestCommand :=
  | GuestHello (hello : ProcessGuestHelloV1)
  | GuestExecute (execute : ProcessGuestExecuteV1)
  | GuestTerminate (request : ProcessIdentityRequestV1).
Record ProcessGuestRequestV1 := mkGuestRequest { gq_command : option GuestCommand }.
Inductive GuestResult :=
  | GuestReady (ready : ProcessGuestReadyV1)
  | GuestTerminal (receipt : ProcessTerminalReceiptV1)
  | GuestError (error : ProcessProtocolErrorV1).
Record ProcessGuestResponseV1 := mkGuestResponse { gs_result : option GuestResult }.

Inductive ProcessWorkspaceModeV1 := WorkspaceModeUnspecified | WorkspaceReadOnly | WorkspaceReadWrite.
Inductive ProcessServiceStateV1 :=
  | ServiceUnspecified | ServiceAbsent | ServiceStarting | ServiceRunning | ServiceTerminalRetained.
Inductive ProcessProtocolFailureV1 :=
  | FailureUnspecified | FailureMalformed | FailureVersionMismatch | FailureBoundsExceeded | FailureIdentityMismatch
  | FailureStateConflict | FailureResourceUnavailable | FailureServiceUnavailable | FailureStateUnknown.

#[export] Instance ProcessIdentityV1_eq_dec : EqDecision ProcessIdentityV1.
Proof. solve_decision. Defined.
#[export] Instance ProcessEnvironmentEntryV1_eq_dec : EqDecision ProcessEnvironmentEntryV1.
Proof. solve_decision. Defined.
#[export] Instance ProcessWorkloadV1_eq_dec : EqDecision ProcessWorkloadV1.
Proof. solve_decision. Defined.
#[export] Instance ExitClassification_eq_dec : EqDecision ExitClassification.
Proof. solve_decision. Defined.
#[export] Instance ProcessExitV1_eq_dec : EqDecision ProcessExitV1.
Proof. solve_decision. Defined.
#[export] Instance ProcessTerminalReceiptV1_eq_dec : EqDecision ProcessTerminalReceiptV1.
Proof. solve_decision. Defined.
#[export] Instance ProcessWorkspaceModeV1_eq_dec : EqDecision ProcessWorkspaceModeV1.
Proof. solve_decision. Defined.
#[export] Instance ProcessServiceStateV1_eq_dec : EqDecision ProcessServiceStateV1.
Proof. solve_decision. Defined.
#[export] Instance ProcessProtocolFailureV1_eq_dec : EqDecision ProcessProtocolFailureV1.
Proof. solve_decision. Defined.

(** The generated [TryFrom<i32>] of the enumerations, and the numbers of a state. *)
Definition workspace_mode_try_from (value : Z) : option ProcessWorkspaceModeV1 :=
  [WorkspaceModeUnspecified; WorkspaceReadOnly; WorkspaceReadWrite] !! Z.to_nat value ≫= fun mode =>
  if value <? 0 then None else Some mode.
Definition service_state_try_from (value : Z) : option ProcessServiceStateV1 :=
  [ServiceUnspecified; ServiceAbsent; ServiceStarting; ServiceRunning; ServiceTerminalRetained] !! Z.to_nat value
  ≫= fun state => if value <? 0 then None else Some state.
Definition failure_try_from (value : Z) : option ProcessProtocolFailureV1 :=
  [FailureUnspecified; FailureMalformed; FailureVersionMismatch; FailureBoundsExceeded; FailureIdentityMismatch;
   FailureStateConflict; FailureResourceUnavailable; FailureServiceUnavailable; FailureStateUnknown] !! Z.to_nat value
  ≫= fun failure => if value <? 0 then None else Some failure.
Definition service_state_number (state : ProcessServiceStateV1) : Z :=
  match state with
  | ServiceUnspecified => 0 | ServiceAbsent => 1 | ServiceStarting => 2 | ServiceRunning => 3
  | ServiceTerminalRetained => 4
  end.

(** ** Bytes *)

Definition nul : ascii := ascii_of_N 0.
Definition byte_of (value : Z) : ascii := ascii_of_N (Z.to_N value).

(** [to_be_bytes] of an integer of [n] bytes, and [u32::from_be_bytes]. *)
Fixpoint to_be_bytes (n : nat) (value : Z) : string :=
  match n with
  | O => ""
  | S n => to_be_bytes n (value / 256) +:+ String (byte_of (value mod 256)) ""
  end.
Fixpoint from_be_bytes (value : Z) (bytes : string) : Z :=
  match bytes with
  | "" => value
  | String c bytes => from_be_bytes (value * 256 + byte_code c) bytes
  end.

(** [frame.get(..n)] with [frame.get(n..)]. *)
Fixpoint split_at (n : nat) (s : string) : option (string * string) :=
  match n, s with
  | O, s => Some ("", s)
  | S n, String c s => '(head, tail) ← split_at n s; Some (String c head, tail)
  | S _, "" => None
  end.

(** ** Digests ([process_digest.rs]) *)

Definition MAX_ARGUMENTS : Z := 256.
Definition MAX_ARGUMENT_BYTES : Z := 16384.
Definition MAX_ARGUMENTS_TOTAL_BYTES : Z := 262144.
Definition MAX_ENVIRONMENT_ENTRIES : Z := 128.
Definition MAX_ENVIRONMENT_VALUE_BYTES : Z := 16384.
Definition MAX_ENVIRONMENT_TOTAL_BYTES : Z := 262144.
Definition MAX_OUTPUT_BYTES : Z := 1048576.
Definition PROCESS_PROTOCOL_REVISION_V1 : string := "guest-v1.0".

Inductive ProcessDigestError := InvalidIdentity | InvalidWorkload | InvalidReceipt.

(** [Sha256::digest] into 32 bytes. *)
Class Sha256 := {
  sha256 : string -> string;
  sha256_length : forall bytes, str_len (sha256 bytes) = 32;
}.

Definition valid_protocol_revision (value : string) : bool := (value =? PROCESS_PROTOCOL_REVISION_V1)%string.
Definition valid_identity_text_with_bound (value : string) (maximum : Z) : bool :=
  (1 <=? str_len value) && (str_len value <=? maximum)
  && all_bytes (fun byte => (32 <=? byte_code byte) && (byte_code byte <=? 126)) value
  && negb (starts_with " " value) && negb (ends_with " " value).
Definition valid_identity_text (value : string) : bool := valid_identity_text_with_bound value 256.
Definition valid_identity (value : ProcessIdentityV1) : bool :=
  valid_protocol_revision (pi_protocol_revision value)
  && forallb valid_identity_text [pi_invocation_id value; pi_dispatch_attempt_id value; pi_executor_revision value]
  && (str_len (pi_prepared_digest value) =? 32) && (str_len (pi_vm_configuration_digest value) =? 32)
  && ((str_len (pi_workload_digest value) =? 0) || (str_len (pi_workload_digest value) =? 32)).

Definition dotted (part : string) : bool := (part =? ".")%string || (part =? "..")%string.
Definition valid_absolute_guest_path (value : string) : bool :=
  match value with
  | "" => false
  | String first rest =>
      (first =? slash)%char && (str_len value <=? 4096) && (1 <? str_len value)
      && forallb (fun part => negb (str_is_empty part) && negb (dotted part) && negb (contains_byte nul part))
           (split_byte slash rest)
  end.
Definition valid_relative_workspace_path (value : string) : bool :=
  ((value =? ".")%string
   || negb (starts_with "/" value) && forallb (fun part => negb (str_is_empty part) && negb (dotted part)) (split_byte slash value))
  && (1 <=? str_len value) && (str_len value <=? 4096) && negb (contains_byte nul value).

Definition ascii_alphabetic (byte : ascii) : bool :=
  is_ascii_uppercase byte || ((97 <=? byte_code byte) && (byte_code byte <=? 122)).
Definition valid_environment_key (value : string) : bool :=
  match value with
  | "" => false
  | String first rest =>
      ((byte_code first =? 95) || ascii_alphabetic first) && (str_len value <=? 128)
      && all_bytes (fun byte => (byte_code byte =? 95) || ascii_alphabetic byte || is_ascii_digit byte) rest
  end.

(** One argument and one environment entry of the folds of [validate_workload]. *)
Definition argument_step (total : Z) (argument : string) : result unit Z :=
  let length := str_len argument in
  if (0 <? length) && (length <=? MAX_ARGUMENT_BYTES) && negb (contains_byte nul argument)
  then ok_or (checked_add total length) tt else Err tt.
Definition environment_step (state : option string * Z) (entry : ProcessEnvironmentEntryV1)
    : result unit (option string * Z) :=
  let '(prior_key, total) := state in
  let ordered := is_none_or (fun prior => (prior <? pe_key entry)%string) prior_key in
  if ordered && valid_environment_key (pe_key entry) && (str_len (pe_value entry) <=? MAX_ENVIRONMENT_VALUE_BYTES)
     && negb (contains_byte nul (pe_value entry) || contains_byte return_ (pe_value entry)
              || contains_byte newline (pe_value entry))
  then let? total := ok_or (checked_add total (str_len (pe_key entry) + str_len (pe_value entry))) tt in
       Ok (Some (pe_key entry), total)
  else Err tt.

(** [validate_workload]: the byte of the workspace mode. *)
Definition validate_workload (value : ProcessWorkloadV1) : result ProcessDigestError Z :=
  let? mode := match workspace_mode_try_from (pw_workspace_mode value) with
               | Some WorkspaceReadOnly => Ok 1
               | Some WorkspaceReadWrite => Ok 2
               | _ => Err InvalidWorkload
               end in
  let arguments_bytes := try_fold argument_step 0 (pw_argv value) in
  let environment_bytes := try_fold environment_step (None, 0) (pw_environment value) in
  reject InvalidWorkload when
    negb (valid_identity_text_with_bound (pw_lane value) 128)
    || negb (valid_absolute_guest_path (pw_executable value))
    || negb (valid_relative_workspace_path (pw_working_directory value))
    || (Z.of_nat (length (pw_argv value)) =? 0)
    || (MAX_ARGUMENTS <? Z.of_nat (length (pw_argv value)))
    || match arguments_bytes with Ok total => MAX_ARGUMENTS_TOTAL_BYTES <? total | Err _ => true end
    || (MAX_ENVIRONMENT_ENTRIES <? Z.of_nat (length (pw_environment value)))
    || match environment_bytes with Ok (_, total) => MAX_ENVIRONMENT_TOTAL_BYTES <? total | Err _ => true end
    || (pw_max_output_bytes value =? 0) || (MAX_OUTPUT_BYTES <? pw_max_output_bytes value)
    || negb ((1 <=? pw_timeout_milliseconds value) && (pw_timeout_milliseconds value <=? 300000))
    || (pw_max_processes value =? 0) || (pw_max_open_files value =? 0);
  Ok mode.

(** [DigestInput]: the bytes so far. *)
Definition input_number (value : Z) (input : string) : string := input +:+ to_be_bytes 8 value.
Definition input_field (value input : string) : string := input_number (str_len value) input +:+ value.
Definition input_signed (value : Z) (input : string) : string := input +:+ to_be_bytes 4 value.
Definition input_byte (value : Z) (input : string) : string := input +:+ String (byte_of value) "".
Definition input_fields (values : list string) (input : string) : string :=
  fold_left (fun input value => input_field value input) values input.

(** The bytes that [process_workload_digest] hashes. *)
Definition workload_input (identity : ProcessIdentityV1) (workload : ProcessWorkloadV1) (mode : Z) : string :=
  let input := "garive.macos-process-workload.v1" in
  let input := input_fields
    [pi_protocol_revision identity; pi_invocation_id identity; pi_dispatch_attempt_id identity;
     pi_executor_revision identity; pi_prepared_digest identity; pi_vm_configuration_digest identity;
     pw_lane workload; pw_executable workload] input in
  let input := input_number (Z.of_nat (length (pw_argv workload))) input in
  let input := input_fields (pw_argv workload) input in
  let input := input_field (pw_working_directory workload) input in
  let input := input_byte mode input in
  let input := input_number (Z.of_nat (length (pw_environment workload))) input in
  let input := fold_left (fun input entry => input_field (pe_value entry) (input_field (pe_key entry) input))
                 (pw_environment workload) input in
  fold_left (fun input value => input_number value input)
    [pw_max_output_bytes workload; pw_timeout_milliseconds workload; pw_max_processes workload; pw_max_open_files workload]
    input.

(** The bytes that [process_receipt_digest] hashes. *)
Definition classification_input (classification : ExitClassification) (input : string) : result ProcessDigestError string :=
  match classification with
  | ExitCode value => Ok (input_signed value (input_byte 0 input))
  | ExitSignal value => if 0 <? value then Ok (input_signed value (input_byte 1 input)) else Err InvalidReceipt
  | ExitTimedOut true => Ok (input_byte 2 input)
  | ExitTimedOut false => Err InvalidReceipt
  end.
Definition receipt_input (identity : ProcessIdentityV1) (classification : ExitClassification) (receipt : ProcessTerminalReceiptV1)
    : result ProcessDigestError string :=
  let input := input_field (pi_workload_digest identity) "garive.macos-process-receipt.v1" in
  let? input := classification_input classification input in
  let input := input_field (pr_stdout receipt) input in
  let input := input_field (pr_stderr receipt) input in
  let input := input_byte (if pr_truncated receipt then 1 else 0) input in
  Ok (input_byte 1 input).

Section digests.
Context `{Sha256}.

Definition process_workload_digest (identity : ProcessIdentityV1) (workload : ProcessWorkloadV1)
    : result ProcessDigestError string :=
  reject InvalidIdentity when negb (valid_identity identity);
  let? mode := validate_workload workload in
  let digest := sha256 (workload_input identity workload mode) in
  reject InvalidIdentity when
    negb (str_is_empty (pi_workload_digest identity)) && negb (pi_workload_digest identity =? digest)%string;
  Ok digest.

Definition process_receipt_digest (receipt : ProcessTerminalReceiptV1) : result ProcessDigestError string :=
  let? identity :=
    match pr_identity receipt with
    | Some value => if valid_identity value && (str_len (pi_workload_digest value) =? 32) then Ok value else Err InvalidReceipt
    | None => Err InvalidReceipt
    end in
  reject InvalidReceipt when
    negb (pr_process_tree_terminated receipt)
    || is_none_or (fun total => MAX_OUTPUT_BYTES <? total) (checked_add (str_len (pr_stdout receipt)) (str_len (pr_stderr receipt)));
  let? classification := ok_or (pr_exit receipt ≫= px_classification) InvalidReceipt in
  let? input := receipt_input identity classification receipt in
  let digest := sha256 input in
  reject InvalidReceipt when
    negb (str_is_empty (pr_receipt_digest receipt)) && negb (pr_receipt_digest receipt =? digest)%string;
  Ok digest.
End digests.

(** ** The state of a dispatch attempt ([process_state.rs]) *)

Inductive ProcessStateError := IdentityMismatch | StateConflict | InvalidTerminal.
Definition protocol_failure (self : ProcessStateError) : ProcessProtocolFailureV1 :=
  match self with
  | IdentityMismatch => FailureIdentityMismatch
  | StateConflict => FailureStateConflict
  | InvalidTerminal => FailureMalformed
  end.

Inductive OwnedState := OwnedAbsent | OwnedStarting | OwnedRunning | OwnedTerminalRetained (receipt : ProcessTerminalReceiptV1).
#[export] Instance OwnedState_eq_dec : EqDecision OwnedState.
Proof. solve_decision. Defined.

Record ProcessStateReducer := mkReducer {
  sr_identity : ProcessIdentityV1;
  sr_state : OwnedState;
  sr_start_consumed : bool;
}.

Definition reducer_new (identity : ProcessIdentityV1) : result ProcessStateError ProcessStateReducer :=
  reject IdentityMismatch when
    negb (str_len (pi_workload_digest identity) =? 32) || negb (str_len (pi_prepared_digest identity) =? 32)
    || negb (str_len (pi_vm_configuration_digest identity) =? 32);
  Ok (mkReducer identity OwnedAbsent false).

Definition require_identity (self : ProcessStateReducer) (identity : ProcessIdentityV1) : result ProcessStateError unit :=
  if bool_decide (identity = sr_identity self) then Ok tt else Err IdentityMismatch.

Definition reducer_start (self : ProcessStateReducer) (identity : ProcessIdentityV1)
    : result ProcessStateError ProcessStateReducer :=
  require_identity self identity ?;
  reject StateConflict when sr_start_consumed self || bool_decide (sr_state self <> OwnedAbsent);
  Ok (mkReducer (sr_identity self) OwnedStarting true).

Definition mark_running (self : ProcessStateReducer) (identity : ProcessIdentityV1)
    : result ProcessStateError ProcessStateReducer :=
  require_identity self identity ?;
  reject StateConflict when bool_decide (sr_state self <> OwnedStarting);
  Ok (mkReducer (sr_identity self) OwnedRunning (sr_start_consumed self)).

Definition retain_terminal `{Sha256} (self : ProcessStateReducer) (receipt : ProcessTerminalReceiptV1)
    : result ProcessStateError ProcessStateReducer :=
  let? receipt_identity := ok_or (pr_identity receipt) InvalidTerminal in
  require_identity self receipt_identity ?;
  reject StateConflict when bool_decide (sr_state self <> OwnedRunning);
  match process_receipt_digest receipt with
  | Err _ => Err InvalidTerminal
  | Ok digest =>
      let receipt := mkReceipt (pr_identity receipt) (pr_exit receipt) (pr_stdout receipt) (pr_stderr receipt)
                       (pr_truncated receipt) (pr_process_tree_terminated receipt) digest in
      Ok (mkReducer (sr_identity self) (OwnedTerminalRetained receipt) (sr_start_consumed self))
  end.

Definition reducer_query (self : ProcessStateReducer) (identity : ProcessIdentityV1)
    : result ProcessStateError ProcessStatusV1 :=
  require_identity self identity ?;
  let (state, terminal) :=
    match sr_state self with
    | OwnedAbsent => (ServiceAbsent, None)
    | OwnedStarting => (ServiceStarting, None)
    | OwnedRunning => (ServiceRunning, None)
    | OwnedTerminalRetained receipt => (ServiceTerminalRetained, Some receipt)
    end in
  Ok (mkStatus (Some (sr_identity self)) (service_state_number state) terminal).

Definition reducer_terminate (self : ProcessStateReducer) (identity : ProcessIdentityV1)
    : result ProcessStateError ProcessStateReducer :=
  require_identity self identity ?;
  match sr_state self with
  | OwnedAbsent | OwnedStarting | OwnedRunning => Ok (mkReducer (sr_identity self) OwnedAbsent (sr_start_consumed self))
  | OwnedTerminalRetained _ => Err StateConflict
  end.

Definition reducer_acknowledge (self : ProcessStateReducer) (identity : ProcessIdentityV1) (receipt_digest : string)
    : result ProcessStateError ProcessStateReducer :=
  require_identity self identity ?;
  match sr_state self with
  | OwnedTerminalRetained receipt =>
      if (str_len receipt_digest =? 32) && (pr_receipt_digest receipt =? receipt_digest)%string
      then Ok (mkReducer (sr_identity self) OwnedAbsent (sr_start_consumed self))
      else Err IdentityMismatch
  | _ => Err StateConflict
  end.

(** ** Frames ([process_frame.rs]) *)

Definition PROCESS_FRAME_MAX_PAYLOAD_BYTES : Z := 1114112.
Inductive ProcessFrameError := FrameMalformed | FrameBoundsExceeded.

(** What prost generates for a message: [encode_to_vec] and [decode].  [encoded_len] is the length of
    the encoding, and [encode] into a [Vec] does not fail. *)
Class ProstMessage (M : Type) := {
  encode_to_vec : M -> string;
  prost_decode : string -> option M;
}.
Class ProstLaws (M : Type) `{ProstMessage M} : Prop :=
  prost_decode_encode : forall message : M, prost_decode (encode_to_vec message) = Some message.

Definition encode_process_frame `{ProstMessage M} (message : M) : result ProcessFrameError string :=
  let payload := encode_to_vec message in
  let payload_length := str_len payload in
  reject FrameBoundsExceeded when PROCESS_FRAME_MAX_PAYLOAD_BYTES <? payload_length;
  reject FrameBoundsExceeded when u32_max <? payload_length;
  Ok (to_be_bytes 4 payload_length +:+ payload).

Definition decode_frame `{ProstMessage M} (frame : string) : result ProcessFrameError M :=
  let? (prefix, payload) := ok_or (split_at 4 frame) FrameMalformed in
  let declared := from_be_bytes 0 prefix in
  reject FrameBoundsExceeded when PROCESS_FRAME_MAX_PAYLOAD_BYTES <? declared;
  reject FrameMalformed when negb (str_len payload =? declared);
  let? message := ok_or (prost_decode payload) FrameMalformed in
  reject FrameMalformed when negb (encode_to_vec message =? payload)%string;
  Ok message.

Definition valid_workspace_mode (value : Z) : bool :=
  match workspace_mode_try_from value with Some WorkspaceReadOnly | Some WorkspaceReadWrite => true | _ => false end.
Definition valid_terminal_shape (value : ProcessTerminalReceiptV1) : bool :=
  is_some (pr_identity value) && is_some_and (fun exit => is_some (px_classification exit)) (pr_exit value).
Definition valid_protocol_error (value : ProcessProtocolErrorV1) : bool :=
  is_some_and (fun failure => bool_decide (failure <> FailureUnspecified)) (failure_try_from (pf_failure value)).
Definition valid_status (value : ProcessStatusV1) : bool :=
  match service_state_try_from (ps_state value) with
  | None => false
  | Some state =>
      is_some (ps_identity value)
      && match state with
         | ServiceTerminalRetained => is_some_and valid_terminal_shape (ps_terminal value)
         | ServiceAbsent | ServiceStarting | ServiceRunning => is_none (ps_terminal value)
         | ServiceUnspecified => false
         end
  end.
Definition valid_dispatch (value : ProcessDispatchV1) : bool :=
  is_some (pd_identity value)
  && is_some_and (fun plan => valid_workspace_mode (vp_workspace_mode plan)) (pd_vm_plan value)
  && is_some_and (fun workload => valid_workspace_mode (pw_workspace_mode workload)) (pd_workload value).

Definition valid_host_request (value : ProcessHostRequestV1) : bool :=
  match hq_command value with
  | Some (HostPreflight value) | Some (HostStart value) => valid_dispatch value
  | Some (HostQuery value) | Some (HostTerminate value) => is_some (pq_identity value)
  | Some (HostAcknowledge value) => is_some (pk_identity value) && (str_len (pk_receipt_digest value) =? 32)
  | None => false
  end.
Definition valid_host_response (value : ProcessHostResponseV1) : bool :=
  match hr_result value with
  | Some (HostPreflighted value) => is_some (pp_identity value)
  | Some (HostStatus value) => valid_status value
  | Some (HostTerminal value) => valid_terminal_shape value
  | Some (HostError value) => valid_protocol_error value
  | None => false
  end.
Definition valid_guest_request (value : ProcessGuestRequestV1) : bool :=
  match gq_command value with
  | Some (GuestHello value) => is_some (gh_identity value) && (str_len (gh_challenge value) =? 32)
  | Some (GuestExecute value) =>
      is_some_and (fun workload => is_some (ge_identity value) && valid_workspace_mode (pw_workspace_mode workload))
        (ge_workload value)
  | Some (GuestTerminate value) => is_some (pq_identity value)
  | None => false
  end.
Definition valid_guest_response (value : ProcessGuestResponseV1) : bool :=
  match gs_result value with
  | Some (GuestReady value) =>
      is_some (gr_identity value) && (str_len (gr_challenge value) =? 32) && negb (str_is_empty (gr_guest_agent_revision value))
  | Some (GuestTerminal value) => valid_terminal_shape value
  | Some (GuestError value) => valid_protocol_error value
  | None => false
  end.

(** The four strict decoders differ in what they admit. *)
Definition decode_valid_frame `{ProstMessage M} (valid : M -> bool) (frame : string) : result ProcessFrameError M :=
  let? message := decode_frame frame in
  reject FrameMalformed when negb (valid message);
  Ok message.
Definition decode_host_request_frame `{ProstMessage ProcessHostRequestV1} := decode_valid_frame valid_host_request.
Definition decode_host_response_frame `{ProstMessage ProcessHostResponseV1} := decode_valid_frame valid_host_response.
Definition decode_guest_request_frame `{ProstMessage ProcessGuestRequestV1} := decode_valid_frame valid_guest_request.
Definition decode_guest_response_frame `{ProstMessage ProcessGuestResponseV1} := decode_valid_frame valid_guest_response.
