(* ===== verification/ProcessTheorems.v ===== *)
(** * The process protocol: evidence, single dispatch, exact frames *)

From S2P Require Import Prelude Text ProcessProtocol.

(** ** Bytes of integers *)

Lemma byte_code_range c : 0 <= byte_code c < 256.
Proof. unfold byte_code. pose proof (N_ascii_bounded c). lia. Qed.
Lemma byte_code_of value : 0 <= value < 256 -> byte_code (byte_of value) = value.
Proof. intros Hv. unfold byte_code, byte_of. rewrite N_ascii_embedding by lia. lia. Qed.
Lemma byte_of_code c : byte_of (byte_code c) = c.
Proof. unfold byte_code, byte_of. rewrite N2Z.id. apply ascii_N_embedding. Qed.

Lemma to_be_bytes_length n : forall value, String.length (to_be_bytes n value) = n.
Proof. induction n as [|n IH]; intros value; cbn [to_be_bytes]; [done|]. rewrite str_length_app, IH. cbn. lia. Qed.

Lemma from_be_bytes_app a : forall value b, from_be_bytes value (a +:+ b) = from_be_bytes (from_be_bytes value a) b.
Proof. induction a as [|c a IH]; intros value b; cbn; [done|apply IH]. Qed.

Lemma from_to_be_bytes n : forall value, from_be_bytes 0 (to_be_bytes n value) = value mod 256 ^ Z.of_nat n.
Proof.
  induction n as [|n IH]; intros value; cbn [to_be_bytes]; [cbn; by rewrite Z.mod_1_r|].
  rewrite from_be_bytes_app, IH. cbn [from_be_bytes].
  rewrite byte_code_of by (apply Z.mod_pos_bound; lia).
  replace (256 ^ Z.of_nat (S n)) with (256 * 256 ^ Z.of_nat n) by (rewrite Nat2Z.inj_succ, Z.pow_succ_r; lia).
  rewrite Z.rem_mul_r by (try apply Z.pow_pos_nonneg; lia). lia.
Qed.

Lemma from_be_bytes_bound s : forall value, 0 <= value ->
  value * 256 ^ str_len s <= from_be_bytes value s < (value + 1) * 256 ^ str_len s.
Proof.
  induction s as [|c s IH]; intros value Hv; cbn [from_be_bytes]; [change (str_len "") with 0; lia|].
  pose proof (byte_code_range c). specialize (IH (value * 256 + byte_code c) ltac:(lia)).
  unfold str_len in *. cbn [String.length]. rewrite Nat2Z.inj_succ, Z.pow_succ_r by lia.
  assert (0 < 256 ^ Z.of_nat (String.length s)) by (apply Z.pow_pos_nonneg; lia). nia.
Qed.

Lemma string_snoc s : s <> "" -> exists a c, s = a +:+ String c "".
Proof.
  induction s as [|c s IH]; [done|]. intros _. destruct s as [|d s]; [by exists "", c|].
  destruct IH as (a & e & ->); [done|]. by exists (String c a), e.
Qed.

Lemma to_from_be_bytes n : forall s, String.length s = n -> to_be_bytes n (from_be_bytes 0 s) = s.
Proof.
  induction n as [|n IH]; intros s Hs; [by destruct s|].
  destruct (string_snoc s) as (a & c & ->); [by destruct s|]. rewrite str_length_app in Hs. cbn in Hs.
  rewrite from_be_bytes_app. cbn [from_be_bytes to_be_bytes]. pose proof (byte_code_range c).
  rewrite Z.div_add_l, Z.div_small, Z.add_0_r, IH by lia. f_equal. f_equal.
  rewrite Z.add_comm, Z.mod_add, Z.mod_small by lia. apply byte_of_code.
Qed.

(** ** Prefix codes *)

Lemma append_inj a : forall b x y, String.length a = String.length b -> a +:+ x = b +:+ y -> a = b /\ x = y.
Proof.
  induction a as [|c a IH]; intros [|d b] x y Hl He; try done.
  cbn in Hl, He. injection He as -> He. destruct (IH b x y) as [-> ->]; [lia|done|done].
Qed.

Lemma cons_inj a b x y : String a x = String b y -> a = b /\ x = y.
Proof. by intros [= -> ->]. Qed.

Definition is_word (n : nat) (value : Z) : Prop := 0 <= value < 256 ^ Z.of_nat n.

Lemma word_inj n a b x y : is_word n a -> is_word n b -> to_be_bytes n a +:+ x = to_be_bytes n b +:+ y -> a = b /\ x = y.
Proof.
  intros Ha Hb He. apply append_inj in He as [He ->]; [|by rewrite !to_be_bytes_length].
  split; [|done]. apply (f_equal (from_be_bytes 0)) in He. rewrite !from_to_be_bytes, !Z.mod_small in He by done. done.
Qed.

(** [DigestInput::field] as what it appends. *)
Definition framed (value : string) : string := to_be_bytes 8 (str_len value) +:+ value.
Definition bounded (value : string) : Prop := str_len value <= MAX_OUTPUT_BYTES.

Lemma bounded_word value : bounded value -> is_word 8 (str_len value).
Proof. unfold bounded, is_word, MAX_OUTPUT_BYTES. pose proof (str_len_nonneg value). intros Hb. cbn. lia. Qed.

Lemma framed_inj a b x y : bounded a -> bounded b -> framed a +:+ x = framed b +:+ y -> a = b /\ x = y.
Proof.
  intros Ha Hb He. unfold framed in He. rewrite !str_app_assoc in He.
  apply word_inj in He as [Hl He]; [|by apply bounded_word..].
  apply append_inj in He; [done|]. unfold str_len in Hl. lia.
Qed.

Lemma input_field_app value input : input_field value input = input +:+ framed value.
Proof. unfold input_field, input_number, framed. by rewrite str_app_assoc. Qed.

Definition framed_all (values : list string) : string := foldr (fun value rest => framed value +:+ rest) "" values.
Lemma input_fields_app values : forall input, input_fields values input = input +:+ framed_all values.
Proof.
  unfold input_fields. induction values as [|value values IH]; intros input; cbn; [by rewrite str_app_nil|].
  by rewrite IH, input_field_app, str_app_assoc.
Qed.
Lemma framed_all_inj a : forall b x y, length a = length b -> Forall bounded a -> Forall bounded b ->
  framed_all a +:+ x = framed_all b +:+ y -> a = b /\ x = y.
Proof.
  induction a as [|v a IH]; intros [|w b] x y Hl Ha Hb He; try done.
  inversion Ha; inversion Hb; subst. cbn in He. rewrite !str_app_assoc in He.
  apply framed_inj in He as [-> He]; [|done..]. destruct (IH b x y) as [-> ->]; [by cbn in Hl; lia|done..].
Qed.

(** ** What validation bounds *)

Definition environment_fields (environment : list ProcessEnvironmentEntryV1) : list string :=
  environment ≫= fun entry => [pe_key entry; pe_value entry].

Lemma environment_fields_length environment : length (environment_fields environment) = (2 * length environment)%nat.
Proof. induction environment as [|e l IH]; [done|]. unfold environment_fields in *. cbn. rewrite IH. lia. Qed.

Lemma environment_fields_inj a : forall b, environment_fields a = environment_fields b -> a = b.
Proof.
  induction a as [|[k v] a IH]; intros [|[l w] b] He; try done. unfold environment_fields in He. cbn in He.
  injection He as -> -> He. f_equal. by apply IH.
Qed.

Lemma identity_text_bounded value maximum : maximum <= MAX_OUTPUT_BYTES ->
  valid_identity_text_with_bound value maximum = true -> bounded value.
Proof. unfold valid_identity_text_with_bound, bounded. intros Hm Hv. bool_hyps. lia. Qed.

Lemma digest_bounded value : str_len value = 32 -> bounded value.
Proof. unfold bounded, MAX_OUTPUT_BYTES. lia. Qed.

Lemma absolute_path_bounded value : valid_absolute_guest_path value = true -> bounded value.
Proof.
  unfold valid_absolute_guest_path, bounded. destruct value as [|first rest]; [done|]. intros Hv. bool_hyps.
  unfold MAX_OUTPUT_BYTES. lia.
Qed.

Lemma relative_path_bounded value : valid_relative_workspace_path value = true -> bounded value.
Proof. unfold valid_relative_workspace_path, bounded. intros Hv. bool_hyps. unfold MAX_OUTPUT_BYTES. lia. Qed.

Lemma environment_key_bounded value : valid_environment_key value = true -> bounded value.
Proof.
  unfold valid_environment_key, bounded. destruct value as [|first rest]; [done|]. intros Hv. bool_hyps.
  unfold MAX_OUTPUT_BYTES. lia.
Qed.

Lemma arguments_bounded argv : forall total total', try_fold argument_step total argv = Ok total' -> Forall bounded argv.
Proof.
  induction argv as [|a argv IH]; intros total total' Hf; [constructor|]. cbn [try_fold] in Hf. unfold argument_step at 1 in Hf.
  destruct (_ && _) eqn:Ev in Hf; [|done]. bool_hyps. destruct (checked_add _ _) as [n|]; [|done]. cbn [ok_or] in Hf.
  constructor; [unfold bounded, MAX_ARGUMENT_BYTES, MAX_OUTPUT_BYTES in *; lia|by eapply IH].
Qed.

Lemma environment_bounded environment : forall state state', try_fold environment_step state environment = Ok state' ->
  Forall bounded (environment_fields environment).
Proof.
  induction environment as [|e l IH]; intros [prior total] state' Hf; [constructor|]. cbn [try_fold] in Hf.
  unfold environment_step at 1 in Hf. destruct (_ && _) eqn:Ev in Hf; [|done].
  destruct (checked_add _ _) as [n|]; [|done]. cbn [ok_or] in Hf. apply IH in Hf.
  apply andb_true_iff in Ev as [Ev _]. apply andb_true_iff in Ev as [Ev Hlen]. apply andb_true_iff in Ev as [_ Hkey].
  unfold environment_fields. cbn. constructor; [by apply environment_key_bounded|]. constructor; [|done].
  unfold bounded, MAX_ENVIRONMENT_VALUE_BYTES, MAX_OUTPUT_BYTES in *. lia.
Qed.

Lemma mode_exact value : match workspace_mode_try_from value with
  | Some WorkspaceReadOnly => value = 1 | Some WorkspaceReadWrite => value = 2 | _ => True end.
Proof.
  unfold workspace_mode_try_from. destruct (value <? 0) eqn:E; [by destruct (_ !! _)|].
  destruct (Z.to_nat value) as [|[|[|n]]] eqn:En; cbn; try done; lia.
Qed.

(** The lengths and ranges a valid workload has. *)
Definition workload_bounded (w : ProcessWorkloadV1) : Prop :=
  bounded (pw_lane w) /\ bounded (pw_executable w) /\ bounded (pw_working_directory w) /\ Forall bounded (pw_argv w)
  /\ Forall bounded (environment_fields (pw_environment w)) /\ (length (pw_argv w) <= 256)%nat
  /\ (length (pw_environment w) <= 128)%nat /\ pw_max_output_bytes w <= MAX_OUTPUT_BYTES
  /\ 1 <= pw_timeout_milliseconds w <= 300000.

Lemma validate_workload_bounds w mode : validate_workload w = Ok mode ->
  workload_bounded w /\ pw_workspace_mode w = mode /\ (mode = 1 \/ mode = 2).
Proof.
  unfold validate_workload. pose proof (mode_exact (pw_workspace_mode w)) as Hm.
  destruct (try_fold argument_step 0 (pw_argv w)) as [arguments|] eqn:Ea;
    [|by intros Hv; destruct (workspace_mode_try_from _) as [[]|]; try done; rewrite ?orb_true_r in Hv].
  destruct (try_fold environment_step (None, 0) (pw_environment w)) as [[key entries]|] eqn:Ee;
    [|by intros Hv; destruct (workspace_mode_try_from _) as [[]|]; try done; rewrite ?orb_true_r in Hv].
  destruct (match workspace_mode_try_from (pw_workspace_mode w) with
            | Some WorkspaceReadOnly => Ok 1 | Some WorkspaceReadWrite => Ok 2 | _ => Err InvalidWorkload end) as [m|] eqn:Em; [|done].
  assert (pw_workspace_mode w = m /\ (m = 1 \/ m = 2)) as Hmode.
  { destruct (workspace_mode_try_from _) as [[]|]; try done; injection Em as <-; auto. }
  destruct (_ || _) eqn:Er; [done|]. intros [= <-]. split; [|done]. clear Em Hm Hmode.
  unfold workload_bounded, MAX_ARGUMENTS, MAX_ENVIRONMENT_ENTRIES in *. bool_hyps.
  split_and!; try lia; [by eapply identity_text_bounded; [|eassumption]|by apply absolute_path_bounded|
    by apply relative_path_bounded|by eapply arguments_bounded|by eapply environment_bounded].
Qed.

Lemma valid_identity_bounded id : valid_identity id = true ->
  Forall bounded [pi_protocol_revision id; pi_invocation_id id; pi_dispatch_attempt_id id; pi_executor_revision id;
                  pi_prepared_digest id; pi_vm_configuration_digest id].
Proof.
  unfold valid_identity. cbn [forallb]. intros Hv. rewrite !andb_true_iff in Hv.
  destruct Hv as ((((Hr & Ha & Hb & Hc & _) & Hp) & Hm) & _).
  assert (forall v, valid_identity_text v = true -> bounded v) as Ht.
  { intros v. by apply identity_text_bounded. }
  apply String.eqb_eq in Hr. repeat constructor; try by apply Ht.
  - rewrite Hr. by unfold bounded, MAX_OUTPUT_BYTES.
  - apply digest_bounded. lia.
  - apply digest_bounded. lia.
Qed.

(** ** Digest inputs determine what they were computed from *)

(** The ranges that the integer types of a message give. *)
Definition workload_typed (w : ProcessWorkloadV1) : Prop :=
  is_u64 (pw_max_output_bytes w) /\ is_u32 (pw_max_processes w) /\ is_u32 (pw_max_open_files w).
Definition is_i32 (value : Z) : Prop := -2147483648 <= value < 2147483648.
Definition classification_typed (c : ExitClassification) : Prop :=
  match c with ExitCode value | ExitSignal value => is_i32 value | ExitTimedOut _ => True end.

(** The identity without the digest that is being computed. *)
Definition attempt_of (id : ProcessIdentityV1) : list string :=
  [pi_protocol_revision id; pi_invocation_id id; pi_dispatch_attempt_id id; pi_executor_revision id;
   pi_prepared_digest id; pi_vm_configuration_digest id].

Lemma input_environment_app environment : forall input,
  fold_left (fun input entry => input_field (pe_value entry) (input_field (pe_key entry) input)) environment input
  = input +:+ framed_all (environment_fields environment).
Proof.
  induction environment as [|e l IH]; intros input; cbn [fold_left]; [cbn; by rewrite str_app_nil|].
  rewrite IH, !input_field_app. unfold environment_fields. cbn. by rewrite !str_app_assoc.
Qed.

Lemma workload_input_app id w mode : workload_input id w mode =
  "garive.macos-process-workload.v1" +:+ framed_all (attempt_of id ++ [pw_lane w; pw_executable w])
  +:+ to_be_bytes 8 (Z.of_nat (length (pw_argv w))) +:+ framed_all (pw_argv w) +:+ framed (pw_working_directory w)
  +:+ String (byte_of mode) (to_be_bytes 8 (Z.of_nat (length (pw_environment w)))
  +:+ framed_all (environment_fields (pw_environment w)) +:+ to_be_bytes 8 (pw_max_output_bytes w)
  +:+ to_be_bytes 8 (pw_timeout_milliseconds w) +:+ to_be_bytes 8 (pw_max_processes w)
  +:+ to_be_bytes 8 (pw_max_open_files w)).
Proof.
  unfold workload_input. rewrite !input_environment_app, !input_field_app, !input_fields_app. cbn [fold_left].
  unfold input_number, input_byte. by rewrite !str_app_assoc.
Qed.

Lemma workload_input_inj id w id' w' mode mode' :
  valid_identity id = true -> valid_identity id' = true -> validate_workload w = Ok mode -> validate_workload w' = Ok mode' ->
  workload_typed w -> workload_typed w' -> workload_input id w mode = workload_input id' w' mode' ->
  attempt_of id = attempt_of id' /\ w = w'.
Proof.
  intros Hi Hi' Hv Hv' (T1 & T2 & T3) (T1' & T2' & T3') He. rewrite !workload_input_app in He.
  apply valid_identity_bounded in Hi, Hi'.
  apply validate_workload_bounds in Hv as ((B1 & B2 & B3 & B4 & B5 & B6 & B7 & B8 & B9) & M & Hm).
  apply validate_workload_bounds in Hv' as ((B1' & B2' & B3' & B4' & B5' & B6' & B7' & B8' & B9') & M' & Hm').
  unfold is_u64, is_u32, u64_max, u32_max in *.
  assert (forall z, 0 <= z <= 18446744073709551615 -> is_word 8 z) as W by (intros z Hz; unfold is_word; cbn; lia).
  apply append_inj in He as [_ He]; [|done].
  apply framed_all_inj in He as [Hid He]; [|done|apply Forall_app; split; [done|by repeat constructor]..].
  apply word_inj in He as [Hargc He]; [|apply W; lia..].
  apply framed_all_inj in He as [Hargv He]; [|lia|done..].
  apply framed_inj in He as [Hdir He]; [|done..].
  apply cons_inj in He as [Hmode He]. apply (f_equal byte_code) in Hmode. rewrite !byte_code_of in Hmode by lia.
  apply word_inj in He as [Henvc He]; [|apply W; lia..].
  apply framed_all_inj in He as [Henv He]; [|rewrite !environment_fields_length; lia|done..].
  apply word_inj in He as [H1 He]; [|apply W; lia..].
  apply word_inj in He as [H2 He]; [|apply W; lia..].
  apply word_inj in He as [H3 He]; [|apply W; lia..].
  rewrite <-(str_app_nil (to_be_bytes 8 (pw_max_open_files w))), <-(str_app_nil (to_be_bytes 8 (pw_max_open_files w'))) in He.
  apply word_inj in He as [H4 _]; [|apply W; lia..].
  apply environment_fields_inj in Henv. apply app_inj_2 in Hid as [Hid Hrest]; [|done]. injection Hrest as Hl Hx.
  split; [done|]. destruct w, w'; cbn in *. congruence.
Qed.

(** Two's complement in four bytes. *)
Lemma signed_inj a b x y : is_i32 a -> is_i32 b -> to_be_bytes 4 a +:+ x = to_be_bytes 4 b +:+ y -> a = b /\ x = y.
Proof.
  intros Ha Hb He. apply append_inj in He as [He ->]; [|by rewrite !to_be_bytes_length]. split; [|done].
  apply (f_equal (from_be_bytes 0)) in He. rewrite !from_to_be_bytes in He. change (256 ^ Z.of_nat 4) with 4294967296 in He.
  unfold is_i32 in *. assert (forall z, -2147483648 <= z < 2147483648 -> z mod 4294967296 = if z <? 0 then z + 4294967296 else z) as Hmod.
  { intros z Hz. destruct (z <? 0) eqn:E; [|apply Z.mod_small; lia].
    symmetry. apply (Z.mod_unique_pos _ _ (-1)); lia. }
  rewrite !Hmod in He by lia. destruct (a <? 0) eqn:E1, (b <? 0) eqn:E2; lia.
Qed.

(** What the classification appends. *)
Definition classified (c : ExitClassification) : string :=
  match c with
  | ExitCode value => String (byte_of 0) (to_be_bytes 4 value)
  | ExitSignal value => String (byte_of 1) (to_be_bytes 4 value)
  | ExitTimedOut _ => String (byte_of 2) ""
  end.
Definition classification_valid (c : ExitClassification) : bool :=
  match c with ExitCode _ => true | ExitSignal value => 0 <? value | ExitTimedOut value => value end.

Lemma classification_input_app c input :
  classification_input c input = if classification_valid c then Ok (input +:+ classified c) else Err InvalidReceipt.
Proof.
  unfold input_signed, input_byte. destruct c as [value|value|[]]; cbn; unfold input_signed, input_byte; try done.
  - by rewrite str_app_assoc.
  - destruct (0 <? value); [|done]. by rewrite str_app_assoc.
Qed.

Lemma classified_inj c d x y : classification_valid c = true -> classification_valid d = true ->
  classification_typed c -> classification_typed d -> classified c +:+ x = classified d +:+ y -> c = d /\ x = y.
Proof.
  intros Hc Hd Tc Td He.
  destruct c as [a|a|a], d as [b|b|b]; cbn in Hc, Hd, Tc, Td;
    apply cons_inj in He as [Hb He]; try (by apply (f_equal byte_code) in Hb).
  - by apply signed_inj in He as [-> ->].
  - by apply signed_inj in He as [-> ->].
  - by subst.
Qed.

Definition receipt_bytes (id : ProcessIdentityV1) (c : ExitClassification) (r : ProcessTerminalReceiptV1) : string :=
  "garive.macos-process-receipt.v1" +:+ framed (pi_workload_digest id) +:+ classified c +:+ framed (pr_stdout r)
  +:+ framed (pr_stderr r) +:+ String (byte_of (if pr_truncated r then 1 else 0)) (String (byte_of 1) "").

Lemma receipt_input_app id c r :
  receipt_input id c r = if classification_valid c then Ok (receipt_bytes id c r) else Err InvalidReceipt.
Proof.
  unfold receipt_input. rewrite classification_input_app. destruct (classification_valid c); [|done].
  rewrite !input_field_app. unfold input_byte, receipt_bytes. by rewrite !str_app_assoc.
Qed.

Lemma receipt_bytes_inj id id' c c' r r' :
  bounded (pi_workload_digest id) -> bounded (pi_workload_digest id') -> bounded (pr_stdout r) -> bounded (pr_stdout r') ->
  bounded (pr_stderr r) -> bounded (pr_stderr r') -> classification_valid c = true -> classification_valid c' = true ->
  classification_typed c -> classification_typed c' -> receipt_bytes id c r = receipt_bytes id' c' r' ->
  pi_workload_digest id = pi_workload_digest id' /\ c = c' /\ pr_stdout r = pr_stdout r' /\ pr_stderr r = pr_stderr r'
  /\ pr_truncated r = pr_truncated r'.
Proof.
  unfold receipt_bytes. intros B1 B1' B2 B2' B3 B3' V V' T T' He.
  apply append_inj in He as [_ He]; [|done]. apply framed_inj in He as [Hd He]; [|done..].
  apply classified_inj in He as [Hc He]; [|done..]. apply framed_inj in He as [Ho He]; [|done..].
  apply framed_inj in He as [Herr He]; [|done..]. apply cons_inj in He as [Ht _]. apply (f_equal byte_code) in Ht.
  split_and!; try done. by destruct (pr_truncated r), (pr_truncated r').
Qed.

(** ** Evidence *)

Section evidence.
Context `{Sha256}.

Definition sha256_collision : Prop := exists x y, x <> y /\ sha256 x = sha256 y.

Lemma sha256_same x y : sha256 x = sha256 y -> x = y \/ sha256_collision.
Proof. intros He. destruct (decide (x = y)) as [->|Hn]; [by left|right; by exists x, y]. Qed.

Lemma workload_digest_ok id w d : process_workload_digest id w = Ok d ->
  exists mode, valid_identity id = true /\ validate_workload w = Ok mode /\ d = sha256 (workload_input id w mode)
    /\ (pi_workload_digest id <> "" -> pi_workload_digest id = d).
Proof.
  unfold process_workload_digest. destruct (valid_identity id); [|done]. cbn [negb].
  destruct (validate_workload w) as [mode|]; [|done]. destruct (_ && _) eqn:Ed; [done|]. intros [= <-].
  exists mode. split_and!; try done. intros Hne. unfold str_is_empty in Ed.
  destruct (String.eqb_spec (pi_workload_digest id) "") as [|_]; [done|]. cbn [negb andb] in Ed.
  by destruct (String.eqb_spec (pi_workload_digest id) (sha256 (workload_input id w mode))).
Qed.

(** A receipt with its digest, as it is retained. *)
Definition sealed (r : ProcessTerminalReceiptV1) (digest : string) : ProcessTerminalReceiptV1 :=
  mkReceipt (pr_identity r) (pr_exit r) (pr_stdout r) (pr_stderr r) (pr_truncated r) (pr_process_tree_terminated r) digest.
Definition receipt_typed (r : ProcessTerminalReceiptV1) : Prop :=
  forall c, pr_exit r ≫= px_classification = Some c -> classification_typed c.

Lemma receipt_digest_ok r d : process_receipt_digest r = Ok d ->
  exists id c, pr_identity r = Some id /\ valid_identity id = true /\ str_len (pi_workload_digest id) = 32
    /\ pr_process_tree_terminated r = true /\ str_len (pr_stdout r) + str_len (pr_stderr r) <= MAX_OUTPUT_BYTES
    /\ pr_exit r = Some (mkExit (Some c)) /\ classification_valid c = true /\ d = sha256 (receipt_bytes id c r)
    /\ (pr_receipt_digest r = "" \/ pr_receipt_digest r = d).
Proof.
  unfold process_receipt_digest. destruct (pr_identity r) as [id|]; [|done].
  destruct (valid_identity id && _) eqn:Ei; [|done]. apply andb_true_iff in Ei as [Hi Hd].
  destruct (pr_process_tree_terminated r); [|done]. cbn [negb orb].
  destruct (checked_add _ _) as [total|] eqn:Et; [|done]. cbn [is_none_or].
  destruct (MAX_OUTPUT_BYTES <? total) eqn:Em; [done|].
  destruct (pr_exit r) as [[[c|]]|]; [|done|done]. cbn. rewrite receipt_input_app.
  destruct (classification_valid c) eqn:Ec; [|done]. destruct (_ && _) eqn:Ed; [done|]. intros [= <-].
  exists id, c. unfold checked_add, checked_u64 in Et. destruct (_ && _) in Et; [|done]. injection Et as <-.
  split_and!; try done; try lia. unfold str_is_empty in Ed.
  destruct (String.eqb_spec (pr_receipt_digest r) ""); [by left|]. right. cbn [negb andb] in Ed.
  by destruct (String.eqb_spec (pr_receipt_digest r) (sha256 (receipt_bytes id c r))).
Qed.

Lemma receipts_bind r r' d : process_receipt_digest r = Ok d -> process_receipt_digest r' = Ok d ->
  receipt_typed r -> receipt_typed r' -> option_map pi_workload_digest (pr_identity r) = option_map pi_workload_digest (pr_identity r')
  /\ pr_exit r = pr_exit r' /\ pr_stdout r = pr_stdout r' /\ pr_stderr r = pr_stderr r' /\ pr_truncated r = pr_truncated r'
  \/ sha256_collision.
Proof.
  intros (id & c & Hid & _ & Hw & _ & Hlen & Hx & Hc & Hd & _)%receipt_digest_ok.
  intros (id' & c' & Hid' & _ & Hw' & _ & Hlen' & Hx' & Hc' & Hd' & _)%receipt_digest_ok Ht Ht'. rewrite Hd in Hd'.
  apply sha256_same in Hd' as [Hb|]; [left|by right].
  pose proof (str_len_nonneg (pr_stdout r)). pose proof (str_len_nonneg (pr_stderr r)).
  pose proof (str_len_nonneg (pr_stdout r')). pose proof (str_len_nonneg (pr_stderr r')).
  apply receipt_bytes_inj in Hb as (E1 & E2 & E3 & E4 & E5); unfold bounded; try lia; try done;
    [|unfold MAX_OUTPUT_BYTES in *; lia..|by apply Ht; rewrite Hx|by apply Ht'; rewrite Hx'].
  rewrite Hid, Hid', Hx, Hx', E2. cbn. by rewrite E1.
Qed.

(** Two terminal receipts with the same digest whose identities carry the digests of their
    workloads are evidence of the same run: same identity, same workload, same exit, output and
    truncation, unless SHA-256 collides. *)
Theorem process_receipt_binds_run r r' id id' w w' e e' d :
  pr_identity r = Some id -> pr_identity r' = Some id' ->
  process_workload_digest id w = Ok e -> process_workload_digest id' w' = Ok e' ->
  process_receipt_digest r = Ok d -> process_receipt_digest r' = Ok d ->
  workload_typed w -> workload_typed w' -> receipt_typed r -> receipt_typed r' ->
  id = id' /\ w = w' /\ sealed r d = sealed r' d \/ sha256_collision.
Proof.
  intros Hid Hid' Hw Hw' Hr Hr' Tw Tw' Tr Tr'.
  destruct (receipts_bind r r' d) as [(E1 & E2 & E3 & E4 & E5)|]; [done..| |by right].
  rewrite Hid, Hid' in E1. injection E1 as E1.
  apply receipt_digest_ok in Hr as (i & c & Hi & _ & Hl & Ht & _). apply receipt_digest_ok in Hr' as (i' & c' & Hi' & _ & Hl' & Ht' & _).
  assert (i = id) as -> by congruence. assert (i' = id') as -> by congruence.
  apply workload_digest_ok in Hw as (mode & Vi & Vw & -> & Hb). apply workload_digest_ok in Hw' as (mode' & Vi' & Vw' & -> & Hb').
  assert (pi_workload_digest id <> "" /\ pi_workload_digest id' <> "") as [Hn Hn'] by (split; intros Heq; by rewrite Heq in *).
  pose proof E1 as E0. rewrite (Hb Hn), (Hb' Hn') in E0.
  apply sha256_same in E0 as [E0|]; [left|by right].
  apply workload_input_inj in E0 as [Ha ->]; [|done..]. injection Ha as A1 A2 A3 A4 A5 A6.
  assert (id = id') as -> by (destruct id, id'; cbn in *; congruence).
  split_and!; [done..|]. unfold sealed. rewrite Hid, Hid', E2, E3, E4, E5, Ht, Ht'. done.
Qed.
End evidence.

(** ** One dispatch attempt *)

Inductive ProcessCommand :=
  | CommandStart (identity : ProcessIdentityV1)
  | CommandRunning (identity : ProcessIdentityV1)
  | CommandRetain (receipt : ProcessTerminalReceiptV1)
  | CommandTerminate (identity : ProcessIdentityV1)
  | CommandAcknowledge (identity : ProcessIdentityV1) (receipt_digest : string).

Definition command_identity (command : ProcessCommand) : option ProcessIdentityV1 :=
  match command with
  | CommandStart id | CommandRunning id | CommandTerminate id | CommandAcknowledge id _ => Some id
  | CommandRetain receipt => pr_identity receipt
  end.
Definition is_start (command : ProcessCommand) : bool := match command with CommandStart _ => true | _ => false end.

Section attempts.
Context `{Sha256}.

Definition process_step (self : ProcessStateReducer) (command : ProcessCommand) : result ProcessStateError ProcessStateReducer :=
  match command with
  | CommandStart id => reducer_start self id
  | CommandRunning id => mark_running self id
  | CommandRetain receipt => retain_terminal self receipt
  | CommandTerminate id => reducer_terminate self id
  | CommandAcknowledge id digest => reducer_acknowledge self id digest
  end.

(** The commands accepted along a sequence; a refused one leaves the state as it is. *)
Fixpoint process_run (self : ProcessStateReducer) (commands : list ProcessCommand) : list ProcessCommand * ProcessStateReducer :=
  match commands with
  | [] => ([], self)
  | command :: rest =>
      match process_step self command with
      | Ok next => let (accepted, final) := process_run next rest in (command :: accepted, final)
      | Err _ => process_run self rest
      end
  end.

(** The life of an attempt: it is started once, its receipt is retained once, and once spent it can
    only be found absent. *)
Inductive Attempt := AttemptFresh | AttemptStarting | AttemptRunning | AttemptRetained (receipt : ProcessTerminalReceiptV1) | AttemptSpent.

Inductive attempt_step : Attempt -> ProcessCommand -> Attempt -> Prop :=
  | attempt_starts id : attempt_step AttemptFresh (CommandStart id) AttemptStarting
  | attempt_never_started id : attempt_step AttemptFresh (CommandTerminate id) AttemptFresh
  | attempt_runs id : attempt_step AttemptStarting (CommandRunning id) AttemptRunning
  | attempt_start_stopped id : attempt_step AttemptStarting (CommandTerminate id) AttemptSpent
  | attempt_stopped id : attempt_step AttemptRunning (CommandTerminate id) AttemptSpent
  | attempt_ends receipt digest : process_receipt_digest receipt = Ok digest ->
      attempt_step AttemptRunning (CommandRetain receipt) (AttemptRetained (sealed receipt digest))
  | attempt_acknowledged id receipt :
      attempt_step (AttemptRetained receipt) (CommandAcknowledge id (pr_receipt_digest receipt)) AttemptSpent
  | attempt_absent id : attempt_step AttemptSpent (CommandTerminate id) AttemptSpent.

Inductive attempt_run : Attempt -> list ProcessCommand -> Attempt -> Prop :=
  | attempt_done a : attempt_run a [] a
  | attempt_then a command b commands c : attempt_step a command b -> attempt_run b commands c -> attempt_run a (command :: commands) c.

Definition attempt_view (self : ProcessStateReducer) : Attempt :=
  match sr_state self with
  | OwnedAbsent => if sr_start_consumed self then AttemptSpent else AttemptFresh
  | OwnedStarting => AttemptStarting
  | OwnedRunning => AttemptRunning
  | OwnedTerminalRetained receipt => AttemptRetained receipt
  end.

(** A retained receipt belongs to the attempt and carries its digest. *)
Definition reducer_ok (self : ProcessStateReducer) : Prop :=
  (sr_state self <> OwnedAbsent -> sr_start_consumed self = true)
  /\ forall receipt, sr_state self = OwnedTerminalRetained receipt ->
       pr_identity receipt = Some (sr_identity self) /\ process_receipt_digest receipt = Ok (pr_receipt_digest receipt).

Lemma sealed_digest r d : process_receipt_digest r = Ok d -> process_receipt_digest (sealed r d) = Ok d.
Proof.
  intros (id & c & Hid & Hv & Hl & Ht & Hlen & Hx & Hc & -> & _)%receipt_digest_ok.
  unfold process_receipt_digest, sealed. cbn [pr_identity pr_exit pr_stdout pr_stderr pr_process_tree_terminated pr_receipt_digest].
  rewrite Hid, Hv, Hl, Ht, Hx. cbn [andb negb orb]. change (32 =? 32) with true. cbn [mbind option_bind px_classification ok_or].
  pose proof (str_len_nonneg (pr_stdout r)). pose proof (str_len_nonneg (pr_stderr r)). unfold MAX_OUTPUT_BYTES in *.
  unfold checked_add, checked_u64. rewrite (proj2 (Z.leb_le 0 _)), (proj2 (Z.leb_le _ u64_max)) by (unfold u64_max; lia).
  cbn [andb is_none_or]. rewrite (proj2 (Z.ltb_ge _ _)) by lia. rewrite receipt_input_app, Hc.
  change (receipt_bytes id c _) with (receipt_bytes id c r). by rewrite String.eqb_refl, andb_false_r.
Qed.

Lemma require_identity_ok self id : require_identity self id = Ok tt <-> id = sr_identity self.
Proof. unfold require_identity. by case_bool_decide. Qed.

Ltac with_identity := unfold require_identity; case_bool_decide as Hi; [|done].

Lemma process_step_ok self command next : reducer_ok self -> process_step self command = Ok next ->
  command_identity command = Some (sr_identity self) /\ attempt_step (attempt_view self) command (attempt_view next)
  /\ sr_identity next = sr_identity self /\ reducer_ok next.
Proof.
  destruct self as [identity state consumed]. intros [Hcons Hret] Hs. cbn in Hcons, Hret.
  destruct command as [id|id|receipt|id|id digest]; cbn in Hs; cbn [command_identity sr_identity].
  - revert Hs. unfold reducer_start. with_identity. cbn in Hi. subst id. destruct consumed; [done|]. cbn [orb].
    case_bool_decide as Hst; [done|]. cbn in Hst. subst state. intros [= <-].
    split_and!; [done|constructor|done|]. split; [done|]. by intros receipt [=].
  - revert Hs. unfold mark_running. with_identity. cbn in Hi. subst id. case_bool_decide as Hst; [done|].
 cbn in Hst. subst state. intros [= <-].
    split_and!; [done|constructor|done|]. split; [intros _; by apply Hcons|]. by intros receipt [=].
  - revert Hs. unfold retain_terminal. destruct (pr_identity receipt) as [id|] eqn:Er; [|done]. cbn [ok_or].
    with_identity. cbn in Hi. subst id. case_bool_decide as Hst; [done|]. cbn in Hst. subst state.
    destruct (process_receipt_digest receipt) as [digest|] eqn:Ed; [|done]. rewrite <-Er. intros [= <-].
    split_and!; [done|by apply (attempt_ends receipt digest)|done|]. split; [intros _; by apply Hcons|].
    intros r [= <-]. split; [done|]. by apply (sealed_digest receipt).
  - revert Hs. unfold reducer_terminate. with_identity. cbn in Hi. subst id.
    destruct state; cbn; intros [= <-]; unfold attempt_view; cbn.
    + split_and!; [done|destruct consumed; constructor|done|]. by split.
    + rewrite Hcons by done. split_and!; [done|constructor|done|]. by split.
    + rewrite Hcons by done. split_and!; [done|constructor|done|]. by split.
  - revert Hs. unfold reducer_acknowledge. with_identity. cbn in Hi. subst id. destruct state as [| | |receipt]; cbn; try done.
    destruct (_ && _) eqn:Ed; [|done]. apply andb_true_iff in Ed as [_ Ed]. apply String.eqb_eq in Ed. subst digest.
    intros [= <-]. unfold attempt_view. cbn. rewrite Hcons by done. split_and!; [done|constructor|done|]. by split.
Qed.

(** Every command of the attempt that the machine allows is accepted. *)
Lemma process_step_complete self command next : reducer_ok self -> command_identity command = Some (sr_identity self) ->
  attempt_step (attempt_view self) command next -> is_ok (process_step self command) = true.
Proof.
  destruct self as [identity state consumed]. intros [Hcons Hret] Hid Hs. cbn in Hcons, Hret, Hid.
  unfold attempt_view in Hs. cbn in Hs.
  destruct state as [| | |r]; [destruct consumed|..]; inversion Hs; subst; cbn in Hid; injection Hid as Hid || idtac;
    cbn; unfold reducer_start, mark_running, retain_terminal, reducer_terminate, reducer_acknowledge, require_identity;
    cbn; try (subst; repeat case_bool_decide; done).
  - rewrite Hid. cbn. repeat case_bool_decide; try done.
    match goal with Hd : process_receipt_digest _ = Ok _ |- _ => by rewrite Hd end.
  - subst. rewrite bool_decide_true by done. destruct (Hret r eq_refl) as [_ Hd].
    apply receipt_digest_ok in Hd as (i & c & _ & _ & _ & _ & _ & _ & _ & -> & _).
    by rewrite sha256_length, String.eqb_refl.
Qed.

Definition starts (commands : list ProcessCommand) : nat := length (List.filter is_start commands).

Lemma attempt_run_starts a commands b : attempt_run a commands b ->
  (starts commands <= match a with AttemptFresh => 1 | _ => 0 end)%nat.
Proof.
  induction 1 as [a|a command b commands c Hs Hr IH]; [cbn; lia|].
  unfold starts in *. inversion Hs; subst; cbn in *; lia.
Qed.

Lemma process_run_ok commands : forall self accepted final, reducer_ok self -> process_run self commands = (accepted, final) ->
  attempt_run (attempt_view self) accepted (attempt_view final)
  /\ Forall (fun command => command_identity command = Some (sr_identity self)) accepted
  /\ sr_identity final = sr_identity self /\ reducer_ok final.
Proof.
  induction commands as [|command rest IH]; intros self accepted final Hok Hr; cbn in Hr.
  { injection Hr as <- <-. split_and!; [constructor|constructor|done|done]. }
  destruct (process_step self command) as [next|] eqn:Es; [|by apply IH].
  destruct (process_run next rest) as [acc fin] eqn:Er. injection Hr as <- <-.
  apply process_step_ok in Es as (Hid & Hs & Hsame & Hnext); [|done].
  destruct (IH next acc fin Hnext Er) as (Hrun & Hall & Hi & Hfin). rewrite Hsame in *.
  split_and!; [by econstructor|by constructor|done|done].
Qed.

Lemma reducer_new_ok id self : reducer_new id = Ok self -> self = mkReducer id OwnedAbsent false.
Proof. unfold reducer_new. destruct (_ || _); [done|]. by intros [= <-]. Qed.

Lemma query_ok self : reducer_ok self ->
  exists status, reducer_query self (sr_identity self) = Ok status
    /\ valid_host_response (mkHostResponse (Some (HostStatus status))) = true.
Proof.
  destruct self as [id state consumed]. intros [_ Hret]. unfold reducer_query, require_identity. cbn in *.
  rewrite bool_decide_true by done. destruct state as [| | |receipt]; [by eexists..|].
  destruct (Hret receipt eq_refl) as [Hid Hd]. apply receipt_digest_ok in Hd as (i & c & _ & _ & _ & _ & _ & Hx & _).
  eexists. split; [done|]. cbn. unfold valid_status, valid_terminal_shape. cbn. by rewrite Hid, Hx.
Qed.

(** C19: Along every sequence of commands the reducer of a dispatch attempt accepts exactly what
    the attempt machine allows for its identity: one start at most, a receipt only while running,
    its acknowledgement only by its digest, and nothing but termination once spent; a retained
    receipt carries the digest of its evidence, and the queried status is one the frame decoder
    admits. *)
Theorem process_dispatched_once id self commands : reducer_new id = Ok self ->
  let (accepted, final) := process_run self commands in
  attempt_run AttemptFresh accepted (attempt_view final)
  /\ (starts accepted <= 1)%nat
  /\ Forall (fun command => command_identity command = Some id) accepted
  /\ (forall command, is_ok (process_step final command) = true <->
        command_identity command = Some id /\ exists next, attempt_step (attempt_view final) command next)
  /\ (forall receipt, sr_state final = OwnedTerminalRetained receipt ->
        pr_identity receipt = Some id /\ process_receipt_digest receipt = Ok (pr_receipt_digest receipt))
  /\ exists status, reducer_query final id = Ok status
       /\ valid_host_response (mkHostResponse (Some (HostStatus status))) = true.
Proof.
  intros ->%reducer_new_ok. destruct (process_run _ commands) as [accepted final] eqn:Er.
  apply process_run_ok in Er as (Hrun & Hall & Hid & Hok); [|split; [done|by intros r [=]]]. cbn in Hid, Hrun, Hall.
  split_and!; [done|by apply attempt_run_starts in Hrun|done| | |].
  - intros command. split.
    + destruct (process_step final command) as [next|] eqn:Es; [|done]. intros _.
      apply process_step_ok in Es as (Hc & Hs & _); [|done]. rewrite Hid in Hc. eauto.
    + intros (Hc & next & Hs). rewrite <-Hid in Hc. by eapply process_step_complete.
  - rewrite <-Hid. apply Hok.
  - rewrite <-Hid. by apply query_ok.
Qed.
End attempts.

(** ** Frames *)

Section frames.
Context `{ProstMessage M}.

Lemma split_at_app n : forall s a b, split_at n s = Some (a, b) <-> s = a +:+ b /\ String.length a = n.
Proof.
  induction n as [|n IH]; intros s a b.
  - cbn. split; [by intros [= <- <-]|]. intros [-> Hl]. by destruct a.
  - destruct s as [|c s]; cbn.
    + split; [done|]. intros [Hs Hl]. by destruct a.
    + split.
      * destruct (split_at n s) as [[h t]|] eqn:E; [|done]. cbn. intros [= <- <-].
        apply IH in E as [-> Hl]. cbn. split; [done|lia].
      * intros [Hs Hl]. destruct a as [|d a]; [done|]. cbn in Hs, Hl. injection Hs as -> Hs.
        rewrite (proj2 (IH s a b)); [done|]. split; [done|lia].
Qed.

Lemma decode_frame_ok frame (message : M) : decode_frame frame = Ok message -> encode_process_frame message = Ok frame.
Proof.
  unfold decode_frame, encode_process_frame. destruct (split_at 4 frame) as [[prefix payload]|] eqn:Es; [|done]. cbn [ok_or].
  apply split_at_app in Es as [-> Hl]. destruct (_ <? from_be_bytes 0 prefix) eqn:Eb; [done|].
  destruct (str_len payload =? _) eqn:El; [|done]. cbn [negb]. apply Z.eqb_eq in El.
  destruct (prost_decode payload) as [m|]; [|done]. cbn [ok_or].
  destruct (String.eqb_spec (encode_to_vec m) payload) as [Hp|]; [|done]. cbn [negb]. intros [= <-]. rewrite Hp, El, Eb.
  unfold PROCESS_FRAME_MAX_PAYLOAD_BYTES, u32_max in *. rewrite (proj2 (Z.ltb_ge _ _)) by lia.
  rewrite to_from_be_bytes by done. done.
Qed.

Lemma encode_frame_ok `{!ProstLaws M} frame (message : M) :
  encode_process_frame message = Ok frame -> decode_frame frame = Ok message.
Proof.
  unfold encode_process_frame, decode_frame. destruct (_ <? _) eqn:Eb; [done|]. destruct (_ <? _) eqn:E32 in |- *; [done|].
  intros [= <-]. rewrite (proj2 (split_at_app 4 _ (to_be_bytes 4 (str_len (encode_to_vec message))) (encode_to_vec message)))
    by (by rewrite to_be_bytes_length).
  cbn [ok_or]. rewrite from_to_be_bytes, Z.mod_small.
  2:{ pose proof (str_len_nonneg (encode_to_vec message)). unfold PROCESS_FRAME_MAX_PAYLOAD_BYTES in Eb. cbn. lia. }
  rewrite Eb, Z.eqb_refl, prost_decode_encode. cbn. by rewrite String.eqb_refl.
Qed.

Lemma decode_valid_frame_exact `{!ProstLaws M} valid frame (message : M) :
  decode_valid_frame valid frame = Ok message <-> encode_process_frame message = Ok frame /\ valid message = true.
Proof.
  unfold decode_valid_frame. split.
  - destruct (decode_frame frame) as [m|] eqn:Ed; [|done]. destruct (valid m) eqn:Ev; [|done]. intros [= <-].
    split; [by apply decode_frame_ok|done].
  - intros [He Hv]. rewrite (encode_frame_ok _ _ He), Hv. done.
Qed.
End frames.

Section claim_frames.
Context `{ProstLaws ProcessHostRequestV1, ProstLaws ProcessHostResponseV1, ProstLaws ProcessGuestRequestV1,
          ProstLaws ProcessGuestResponseV1}.

(** C20: Each of the four strict decoders accepts a frame exactly when it is the frame the encoder
    writes for a message that the direction admits. *)
Theorem process_frames_exact frame :
  (forall message, decode_host_request_frame frame = Ok message <->
     encode_process_frame message = Ok frame /\ valid_host_request message = true)
  /\ (forall message, decode_host_response_frame frame = Ok message <->
     encode_process_frame message = Ok frame /\ valid_host_response message = true)
  /\ (forall message, decode_guest_request_frame frame = Ok message <->
     encode_process_frame message = Ok frame /\ valid_guest_request message = true)
  /\ (forall message, decode_guest_response_frame frame = Ok message <->
     encode_process_frame message = Ok frame /\ valid_guest_response message = true).
Proof. split_and!; intros message; apply decode_valid_frame_exact. Qed.
End claim_frames.

(** ** Samples *)

Module ProcessSample.
(** A hash into 32 bytes, and a codec that numbers the messages. *)
#[export] Program Instance sample_sha256 : Sha256 := {
  sha256 bytes := to_be_bytes 32 (from_be_bytes 1 bytes * 31 + from_be_bytes 1 bytes / 2 ^ 200);
}.
Next Obligation. intros bytes. unfold str_len. by rewrite to_be_bytes_length. Qed.

Fixpoint bits (p : positive) : string :=
  match p with xH => "" | xO p => String (byte_of 48) (bits p) | xI p => String (byte_of 49) (bits p) end.
Fixpoint unbits (s : string) : positive :=
  match s with "" => xH | String c s => if byte_code c =? 48 then xO (unbits s) else xI (unbits s) end.
Lemma unbits_bits p : unbits (bits p) = p.
Proof. induction p as [p IH|p IH|]; cbn; by rewrite ?IH. Qed.

#[export] Instance numbered `{Countable M} : ProstMessage M :=
  {| encode_to_vec message := bits (countable.encode message); prost_decode bytes := countable.decode (unbits bytes) |}.
#[export] Instance numbered_laws `{Countable M} : ProstLaws M.
Proof. intros message. cbn. rewrite unbits_bits. apply decode_encode. Qed.

#[export] Instance ProcessIdentityV1_countable : Countable ProcessIdentityV1.
Proof.
  refine (inj_countable' (fun r => (pi_protocol_revision r, (pi_invocation_id r, (pi_dispatch_attempt_id r, (pi_executor_revision r, (pi_prepared_digest r, (pi_vm_configuration_digest r, (pi_workload_digest r))))))))
    (fun '(x0, (x1, (x2, (x3, (x4, (x5, (x6))))))) => mkProcessIdentity x0 x1 x2 x3 x4 x5 x6) _). by intros [].
Defined.
#[export] Instance MacOSProcessVMPlanV1_eq_dec : EqDecision MacOSProcessVMPlanV1.
Proof. solve_decision. Defined.
#[export] Instance MacOSProcessVMPlanV1_countable : Countable MacOSProcessVMPlanV1.
Proof.
  refine (inj_countable' (fun r => (vp_kernel_url r, (vp_kernel_digest r, (vp_initial_ramdisk_url r, (vp_initial_ramdisk_digest r, (vp_root_disk_url r, (vp_root_disk_digest r, (vp_workspace_url r, (vp_workspace_mode r, (vp_cpu_count r, (vp_memory_size_bytes r, (vp_control_timeout_milliseconds r))))))))))))
    (fun '(x0, (x1, (x2, (x3, (x4, (x5, (x6, (x7, (x8, (x9, (x10))))))))))) => mkVMPlan x0 x1 x2 x3 x4 x5 x6 x7 x8 x9 x10) _). by intros [].
Defined.
#[export] Instance ProcessEnvironmentEntryV1_countable : Countable ProcessEnvironmentEntryV1.
Proof.
  refine (inj_countable' (fun r => (pe_key r, (pe_value r)))
    (fun '(x0, (x1)) => mkEnvironmentEntry x0 x1) _). by intros [].
Defined.
#[export] Instance ProcessWorkloadV1_countable : Countable ProcessWorkloadV1.
Proof.
  refine (inj_countable' (fun r => (pw_lane r, (pw_executable r, (pw_argv r, (pw_working_directory r, (pw_environment r, (pw_max_output_bytes r, (pw_timeout_milliseconds r, (pw_max_processes r, (pw_max_open_files r, (pw_workspace_mode r)))))))))))
    (fun '(x0, (x1, (x2, (x3, (x4, (x5, (x6, (x7, (x8, (x9)))))))))) => mkWorkload x0 x1 x2 x3 x4 x5 x6 x7 x8 x9) _). by intros [].
Defined.
#[export] Instance ProcessDispatchV1_eq_dec : EqDecision ProcessDispatchV1.
Proof. solve_decision. Defined.
#[export] Instance ProcessDispatchV1_countable : Countable ProcessDispatchV1.
Proof.
  refine (inj_countable' (fun r => (pd_identity r, (pd_vm_plan r, (pd_workload r))))
    (fun '(x0, (x1, (x2))) => mkDispatch x0 x1 x2) _). by intros [].
Defined.
#[export] Instance ProcessIdentityRequestV1_eq_dec : EqDecision ProcessIdentityRequestV1.
Proof. solve_decision. Defined.
#[export] Instance ProcessIdentityRequestV1_countable : Countable ProcessIdentityRequestV1.
Proof.
  refine (inj_countable' (fun r => pq_identity r)
    (fun x0 => mkIdentityRequest x0) _). by intros [].
Defined.
#[export] Instance ProcessAcknowledgeRequestV1_eq_dec : EqDecision ProcessAcknowledgeRequestV1.
Proof. solve_decision. Defined.
#[export] Instance ProcessAcknowledgeRequestV1_countable : Countable ProcessAcknowledgeRequestV1.
Proof.
  refine (inj_countable' (fun r => (pk_identity r, (pk_receipt_digest r)))
    (fun '(x0, (x1)) => mkAcknowledge x0 x1) _). by intros [].
Defined.
#[export] Instance HostCommand_eq_dec : EqDecision HostCommand.
Proof. solve_decision. Defined.
#[export] Instance HostCommand_countable : Countable HostCommand.
Proof.
  refine (inj_countable' (fun c => match c with HostPreflight x => inl x | HostStart x => inr (inl x) | HostQuery x => inr (inr (inl x)) | HostTerminate x => inr (inr (inr (inl x))) | HostAcknowledge x => inr (inr (inr (inr x))) end)
    (fun c => match c with inl x => HostPreflight x | inr (inl x) => HostStart x | inr (inr (inl x)) => HostQuery x | inr (inr (inr (inl x))) => HostTerminate x | inr (inr (inr (inr x))) => HostAcknowledge x end) _). by intros [].
Defined.
#[export] Instance ProcessHostRequestV1_eq_dec : EqDecision ProcessHostRequestV1.
Proof. solve_decision. Defined.
#[export] Instance ProcessHostRequestV1_countable : Countable ProcessHostRequestV1.
Proof.
  refine (inj_countable' (fun r => hq_command r)
    (fun x0 => mkHostRequest x0) _). by intros [].
Defined.
#[export] Instance ProcessPreflightedV1_eq_dec : EqDecision ProcessPreflightedV1.
Proof. solve_decision. Defined.
#[export] Instance ProcessPreflightedV1_countable : Countable ProcessPreflightedV1.
Proof.
  refine (inj_countable' (fun r => pp_identity r)
    (fun x0 => mkPreflighted x0) _). by intros [].
Defined.
#[export] Instance ExitClassification_countable : Countable ExitClassification.
Proof.
  refine (inj_countable' (fun c => match c with ExitCode x => inl x | ExitSignal x => inr (inl x) | ExitTimedOut x => inr (inr x) end)
    (fun c => match c with inl x => ExitCode x | inr (inl x) => ExitSignal x | inr (inr x) => ExitTimedOut x end) _). by intros [].
Defined.
#[export] Instance ProcessExitV1_countable : Countable ProcessExitV1.
Proof.
  refine (inj_countable' (fun r => px_classification r)
    (fun x0 => mkExit x0) _). by intros [].
Defined.
#[export] Instance ProcessTerminalReceiptV1_countable : Countable ProcessTerminalReceiptV1.
Proof.
  refine (inj_countable' (fun r => (pr_identity r, (pr_exit r, (pr_stdout r, (pr_stderr r, (pr_truncated r, (pr_process_tree_terminated r, (pr_receipt_digest r))))))))
    (fun '(x0, (x1, (x2, (x3, (x4, (x5, (x6))))))) => mkReceipt x0 x1 x2 x3 x4 x5 x6) _). by intros [].
Defined.
#[export] Instance ProcessStatusV1_eq_dec : EqDecision ProcessStatusV1.
Proof. solve_decision. Defined.
#[export] Instance ProcessStatusV1_countable : Countable ProcessStatusV1.
Proof.
  refine (inj_countable' (fun r => (ps_identity r, (ps_state r, (ps_terminal r))))
    (fun '(x0, (x1, (x2))) => mkStatus x0 x1 x2) _). by intros [].
Defined.
#[export] Instance ProcessProtocolErrorV1_eq_dec : EqDecision ProcessProtocolErrorV1.
Proof. solve_decision. Defined.
#[export] Instance ProcessProtocolErrorV1_countable : Countable ProcessProtocolErrorV1.
Proof.
  refine (inj_countable' (fun r => pf_failure r)
    (fun x0 => mkProtocolError x0) _). by intros [].
Defined.
#[export] Instance HostResult_eq_dec : EqDecision HostResult.
Proof. solve_decision. Defined.
#[export] Instance HostResult_countable : Countable HostResult.
Proof.
  refine (inj_countable' (fun c => match c with HostPreflighted x => inl x | HostStatus x => inr (inl x) | HostTerminal x => inr (inr (inl x)) | HostError x => inr (inr (inr x)) end)
    (fun c => match c with inl x => HostPreflighted x | inr (inl x) => HostStatus x | inr (inr (inl x)) => HostTerminal x | inr (inr (inr x)) => HostError x end) _). by intros [].
Defined.
#[export] Instance ProcessHostResponseV1_eq_dec : EqDecision ProcessHostResponseV1.
Proof. solve_decision. Defined.
#[export] Instance ProcessHostResponseV1_countable : Countable ProcessHostResponseV1.
Proof.
  refine (inj_countable' (fun r => hr_result r)
    (fun x0 => mkHostResponse x0) _). by intros [].
Defined.
#[export] Instance ProcessGuestHelloV1_eq_dec : EqDecision ProcessGuestHelloV1.
Proof. solve_decision. Defined.
#[export] Instance ProcessGuestHelloV1_countable : Countable ProcessGuestHelloV1.
Proof.
  refine (inj_countable' (fun r => (gh_identity r, (gh_challenge r)))
    (fun '(x0, (x1)) => mkHello x0 x1) _). by intros [].
Defined.
#[export] Instance ProcessGuestReadyV1_eq_dec : EqDecision ProcessGuestReadyV1.
Proof. solve_decision. Defined.
#[export] Instance ProcessGuestReadyV1_countable : Countable ProcessGuestReadyV1.
Proof.
  refine (inj_countable' (fun r => (gr_identity r, (gr_challenge r, (gr_guest_agent_revision r))))
    (fun '(x0, (x1, (x2))) => mkReady x0 x1 x2) _). by intros [].
Defined.
#[export] Instance ProcessGuestExecuteV1_eq_dec : EqDecision ProcessGuestExecuteV1.
Proof. solve_decision. Defined.
#[export] Instance ProcessGuestExecuteV1_countable : Countable ProcessGuestExecuteV1.
Proof.
  refine (inj_countable' (fun r => (ge_identity r, (ge_workload r)))
    (fun '(x0, (x1)) => mkExecute x0 x1) _). by intros [].
Defined.
#[export] Instance GuestCommand_eq_dec : EqDecision GuestCommand.
Proof. solve_decision. Defined.
#[export] Instance GuestCommand_countable : Countable GuestCommand.
Proof.
  refine (inj_countable' (fun c => match c with GuestHello x => inl x | GuestExecute x => inr (inl x) | GuestTerminate x => inr (inr x) end)
    (fun c => match c with inl x => GuestHello x | inr (inl x) => GuestExecute x | inr (inr x) => GuestTerminate x end) _). by intros [].
Defined.
#[export] Instance ProcessGuestRequestV1_eq_dec : EqDecision ProcessGuestRequestV1.
Proof. solve_decision. Defined.
#[export] Instance ProcessGuestRequestV1_countable : Countable ProcessGuestRequestV1.
Proof.
  refine (inj_countable' (fun r => gq_command r)
    (fun x0 => mkGuestRequest x0) _). by intros [].
Defined.
#[export] Instance GuestResult_eq_dec : EqDecision GuestResult.
Proof. solve_decision. Defined.
#[export] Instance GuestResult_countable : Countable GuestResult.
Proof.
  refine (inj_countable' (fun c => match c with GuestReady x => inl x | GuestTerminal x => inr (inl x) | GuestError x => inr (inr x) end)
    (fun c => match c with inl x => GuestReady x | inr (inl x) => GuestTerminal x | inr (inr x) => GuestError x end) _). by intros [].
Defined.
#[export] Instance ProcessGuestResponseV1_eq_dec : EqDecision ProcessGuestResponseV1.
Proof. solve_decision. Defined.
#[export] Instance ProcessGuestResponseV1_countable : Countable ProcessGuestResponseV1.
Proof.
  refine (inj_countable' (fun r => gs_result r)
    (fun x0 => mkGuestResponse x0) _). by intros [].
Defined.

Definition zeros : string := to_be_bytes 32 0.
Definition sample_workload : ProcessWorkloadV1 :=
  mkWorkload "shell" "/bin/sh" ["sh"; "-c"; "true"] "." [mkEnvironmentEntry "LANG" "C"; mkEnvironmentEntry "PATH" "/bin"]
    4096 1000 16 64 2.
Definition unbound_identity : ProcessIdentityV1 :=
  mkProcessIdentity "guest-v1.0" "invocation-1" "attempt-1" "executor-1" zeros zeros "".
Definition sample_digest : string :=
  match process_workload_digest unbound_identity sample_workload with Ok digest => digest | Err _ => "" end.
Definition sample_identity : ProcessIdentityV1 :=
  mkProcessIdentity "guest-v1.0" "invocation-1" "attempt-1" "executor-1" zeros zeros sample_digest.
Definition sample_receipt : ProcessTerminalReceiptV1 :=
  mkReceipt (Some sample_identity) (Some (mkExit (Some (ExitCode (-1))))) "out" "err" false true "".
Definition receipt_digest : string :=
  match process_receipt_digest sample_receipt with Ok digest => digest | Err _ => "" end.

(** A receipt with and one without its digest are the evidence of the same run. *)
Lemma process_receipt_binds_run_witness :
  str_len receipt_digest = 32
  /\ (sample_identity = sample_identity /\ sample_workload = sample_workload
      /\ sealed sample_receipt receipt_digest = sealed (sealed sample_receipt receipt_digest) receipt_digest \/ sha256_collision).
Proof.
  split; [vm_compute; reflexivity|].
  apply (process_receipt_binds_run sample_receipt (sealed sample_receipt receipt_digest) sample_identity sample_identity
           sample_workload sample_workload sample_digest sample_digest receipt_digest).
  - reflexivity.
  - reflexivity.
  - vm_compute. reflexivity.
  - vm_compute. reflexivity.
  - vm_compute. reflexivity.
  - vm_compute. reflexivity.
  - split_and!; by vm_compute.
  - split_and!; by vm_compute.
  - intros c [= <-]. by vm_compute.
  - intros c [= <-]. by vm_compute.
Defined.

(** Started, running, ended, acknowledged, and never started again. *)
Lemma process_dispatched_once_witness :
  exists self, reducer_new sample_identity = Ok self
    /\ (process_run self [CommandStart sample_identity; CommandRunning sample_identity; CommandStart sample_identity;
           CommandRetain sample_receipt; CommandTerminate sample_identity; CommandAcknowledge sample_identity receipt_digest;
           CommandStart sample_identity; CommandTerminate sample_identity]).1
       = [CommandStart sample_identity; CommandRunning sample_identity; CommandRetain sample_receipt;
          CommandAcknowledge sample_identity receipt_digest; CommandTerminate sample_identity]
    /\ let (accepted, final) := process_run self [CommandStart sample_identity; CommandStart sample_identity] in
       (starts accepted <= 1)%nat.
Proof.
  eexists. split_and!; [by vm_compute|by vm_compute|].
  pose proof (process_dispatched_once sample_identity (mkReducer sample_identity OwnedAbsent false)
    [CommandStart sample_identity; CommandStart sample_identity] ltac:(by vm_compute)) as Hc.
  destruct (process_run _ _) as [accepted final]. apply Hc.
Defined.

Definition sample_query : ProcessHostRequestV1 :=
  mkHostRequest (Some (HostQuery (mkIdentityRequest (Some (mkProcessIdentity "" "" "" "" "" "" ""))))).
Definition sample_frame : string := match encode_process_frame sample_query with Ok frame => frame | Err _ => "" end.

Lemma process_frames_exact_witness :
  encode_process_frame sample_query = Ok sample_frame /\ decode_host_request_frame sample_frame = Ok sample_query.
Proof.
  assert (encode_process_frame sample_query = Ok sample_frame) as He by (by vm_compute).
  split; [exact He|]. apply (process_frames_exact sample_frame). split; [exact He|by vm_compute].
Defined.
End ProcessSample.
