(* ===== verification/Evaluation.v ===== *)
(** * Evaluation evidence ([engine/eval/src])

    Terminal results of evaluation cases and their summary ([values.rs],
    [result.rs], [baseline.rs]), the pressure of reference contexts
    ([context_pressure.rs]) and the paired creativity experiment
    ([creativity.rs]).  Every count is a [u64] with checked arithmetic. *)

From S2P Require Import Prelude Text Order Checks.

(** ** Values ([values.rs]) *)

Definition MAX_EVALUATION_ID_BYTES : Z := 256.
Inductive EvaluationErrorCode :=
  | EmptyIdentity | IdentityTooLong | InvalidLimits | TooManyCases | DuplicateCase | DurationExceeded | InvalidNotAttempted
  | CountOverflow | InvalidScore | InvalidBaseline | InvalidPressureEvidence | MissingWorkloadClass | PressureArithmeticOverflow
  | InvalidCreativityEvidence | MissingCreativityEvidence | CreativityArithmeticOverflow.
Definition evaluation_wire_name (self : EvaluationErrorCode) : string :=
  match self with
  | EmptyIdentity => "empty_identity" | IdentityTooLong => "identity_too_long" | InvalidLimits => "invalid_limits"
  | TooManyCases => "too_many_cases" | DuplicateCase => "duplicate_case" | DurationExceeded => "duration_exceeded"
  | InvalidNotAttempted => "invalid_not_attempted" | CountOverflow => "count_overflow" | InvalidScore => "invalid_score"
  | InvalidBaseline => "invalid_baseline" | InvalidPressureEvidence => "invalid_pressure_evidence"
  | MissingWorkloadClass => "missing_workload_class" | PressureArithmeticOverflow => "pressure_arithmetic_overflow"
  | InvalidCreativityEvidence => "invalid_creativity_evidence" | MissingCreativityEvidence => "missing_creativity_evidence"
  | CreativityArithmeticOverflow => "creativity_arithmetic_overflow"
  end.

(** The constructor that the three identities share. *)
Definition evaluation_id_new (value : string) : result EvaluationErrorCode string :=
  reject EmptyIdentity when str_is_empty value;
  reject IdentityTooLong when MAX_EVALUATION_ID_BYTES <? str_len value;
  Ok value.

Record EvaluationLimits := mkEvaluationLimits { vl_max_cases : Z; vl_max_case_duration_ms : Z }.
Definition limits_validate (self : EvaluationLimits) : result EvaluationErrorCode EvaluationLimits :=
  if (vl_max_cases self =? 0) || (vl_max_case_duration_ms self =? 0) then Err InvalidLimits else Ok self.

Record EvaluationScore := mkScore { sc_numerator : Z; sc_denominator : Z }.
Definition score_new (numerator denominator : Z) : result EvaluationErrorCode EvaluationScore :=
  reject InvalidScore when (denominator =? 0) || (denominator <? numerator);
  Ok (mkScore numerator denominator).

(** ** Results ([result.rs]) *)

Inductive EvaluationCaseOutcome := CasePassed | CaseFailed | CaseInfrastructureFailure | CaseNotAttempted.
#[export] Instance EvaluationCaseOutcome_eq_dec : EqDecision EvaluationCaseOutcome.
Proof. solve_decision. Defined.
Record EvaluationCaseResult := mkCaseResult {
  er_case_id : string;
  er_outcome : EvaluationCaseOutcome;
  er_duration_ms : Z;
  er_input_tokens : option Z;
  er_output_tokens : option Z;
}.
Record EvaluationSummary := mkSummary {
  es_attempted : Z;
  es_passed : Z;
  es_failed : Z;
  es_infrastructure_failed : Z;
  es_not_attempted : Z;
  es_score : option EvaluationScore;
}.

Definition eval_increment (value : Z) : result EvaluationErrorCode Z := ok_or (checked_add value 1) CountOverflow.

(** One result of the loop of [summarize]. *)
Definition summarize_case (limits : EvaluationLimits) (state : gset string * EvaluationSummary) (result : EvaluationCaseResult)
    : Prelude.result EvaluationErrorCode (gset string * EvaluationSummary) :=
  let '(ids, summary) := state in
  reject DuplicateCase when bool_decide (er_case_id result ∈ ids);
  let ids := {[er_case_id result]} ∪ ids in
  reject DurationExceeded when vl_max_case_duration_ms limits <? er_duration_ms result;
  let '(mkSummary attempted passed failed infrastructure not_attempted score) := summary in
  match er_outcome result with
  | CasePassed =>
      let? passed := eval_increment passed in Ok (ids, mkSummary attempted passed failed infrastructure not_attempted score)
  | CaseFailed =>
      let? failed := eval_increment failed in Ok (ids, mkSummary attempted passed failed infrastructure not_attempted score)
  | CaseInfrastructureFailure =>
      let? infrastructure := eval_increment infrastructure in
      Ok (ids, mkSummary attempted passed failed infrastructure not_attempted score)
  | CaseNotAttempted =>
      reject InvalidNotAttempted when
        negb (er_duration_ms result =? 0) || is_some (er_input_tokens result) || is_some (er_output_tokens result);
      let? not_attempted := eval_increment not_attempted in
      Ok (ids, mkSummary attempted passed failed infrastructure not_attempted score)
  end.

Definition summarize (results : list EvaluationCaseResult) (limits : EvaluationLimits)
    : result EvaluationErrorCode EvaluationSummary :=
  let? limits := limits_validate limits in
  reject TooManyCases when vl_max_cases limits <? Z.of_nat (length results);
  let? state := try_fold (summarize_case limits) (∅, mkSummary 0 0 0 0 0 None) results in
  let '(_, summary) := state in
  let? attempted := ok_or (checked_add (es_passed summary) (es_failed summary)) CountOverflow in
  let? score := if attempted =? 0 then Ok None
                else let? score := score_new (es_passed summary) attempted in Ok (Some score) in
  Ok (mkSummary attempted (es_passed summary) (es_failed summary) (es_infrastructure_failed summary)
        (es_not_attempted summary) score).

(** ** Baselines ([baseline.rs]) *)

Record EvaluationBaselineProvenance := mkProvenance {
  bp_run_id : string;
  bp_suite_id : string;
  bp_dataset_revision : string;
  bp_harness_revision : string;
  bp_agent_revision : string;
  bp_dirty : bool;
  bp_config_digest : string;
}.
Record EvaluationBaseline := mkBaseline {
  eb_run_id : string;
  eb_suite_id : string;
  eb_dataset_revision : string;
  eb_harness_revision : string;
  eb_agent_revision : string;
  eb_config_digest : string;
  eb_summary : EvaluationSummary;
}.

Definition baseline_new (provenance : EvaluationBaselineProvenance) (summary : EvaluationSummary)
    : result EvaluationErrorCode EvaluationBaseline :=
  reject InvalidBaseline when
    bp_dirty provenance
    || existsb (fun value => str_is_empty value || (256 <? str_len value))
         [bp_dataset_revision provenance; bp_harness_revision provenance; bp_agent_revision provenance]
    || negb (str_len (bp_config_digest provenance) =? 64) || negb (all_bytes is_ascii_hexdigit (bp_config_digest provenance));
  Ok (mkBaseline (bp_run_id provenance) (bp_suite_id provenance) (bp_dataset_revision provenance)
        (bp_harness_revision provenance) (bp_agent_revision provenance) (to_ascii_lowercase (bp_config_digest provenance)) summary).

(** ** Context pressure ([context_pressure.rs]) *)

Inductive ContextWorkloadClass := WorkConversation | WorkToolHeavy | WorkCapabilityHeavy | WorkLongRunning.
#[export] Instance ContextWorkloadClass_eq_dec : EqDecision ContextWorkloadClass.
Proof. solve_decision. Defined.
Definition WORKLOAD_CLASSES : list ContextWorkloadClass := [WorkConversation; WorkToolHeavy; WorkCapabilityHeavy; WorkLongRunning].
Definition workload_wire_name (self : ContextWorkloadClass) : string :=
  match self with
  | WorkConversation => "conversation" | WorkToolHeavy => "tool_heavy" | WorkCapabilityHeavy => "capability_heavy"
  | WorkLongRunning => "long_running"
  end.

Record ContextPressureCaseEvidence := mkPressureCase {
  pc_case_id : string;
  pc_workload_class : ContextWorkloadClass;
  pc_item_count : Z;
  pc_utf8_bytes : Z;
  pc_input_tokens : Z;
  pc_model_input_limit_tokens : Z;
  pc_pressure_basis_points : Z;
}.
Definition pressure_case_new (case_id : string) (workload_class : ContextWorkloadClass)
    (item_count utf8_bytes input_tokens model_input_limit_tokens : Z) : result EvaluationErrorCode ContextPressureCaseEvidence :=
  reject InvalidPressureEvidence when
    (item_count =? 0) || (utf8_bytes =? 0) || (input_tokens =? 0) || (model_input_limit_tokens =? 0);
  let? scaled := ok_or (checked_mul input_tokens 10000) PressureArithmeticOverflow in
  let? rounded := ok_or (checked_add scaled (model_input_limit_tokens - 1)) PressureArithmeticOverflow in
  Ok (mkPressureCase case_id workload_class item_count utf8_bytes input_tokens model_input_limit_tokens
        (rounded / model_input_limit_tokens)).

Record ContextPressureClassSummary := mkPressureClass {
  ps_workload_class : ContextWorkloadClass;
  ps_case_count : Z;
  ps_max_pressure_basis_points : Z;
  ps_mean_pressure_numerator : Z;
  ps_mean_pressure_denominator : Z;
}.
Record ContextPressureSummary := mkPressureSummary {
  pu_ordered_cases : list ContextPressureCaseEvidence;
  pu_classes : list ContextPressureClassSummary;
}.

Definition pressure_step (state : Z * Z * Z) (value : ContextPressureCaseEvidence) : result EvaluationErrorCode (Z * Z * Z) :=
  let '(count, total, maximum) := state in
  let? count := ok_or (checked_add count 1) PressureArithmeticOverflow in
  let? total := ok_or (checked_add total (pc_pressure_basis_points value)) PressureArithmeticOverflow in
  Ok (count, total, Z.max maximum (pc_pressure_basis_points value)).
Definition pressure_class (cases : list ContextPressureCaseEvidence) (workload_class : ContextWorkloadClass)
    : result EvaluationErrorCode ContextPressureClassSummary :=
  let selected := filter (fun value => pc_workload_class value = workload_class) cases in
  let? (count, total, maximum) := try_fold pressure_step (0, 0, 0) selected in
  reject MissingWorkloadClass when count =? 0;
  Ok (mkPressureClass workload_class count maximum total count).

Definition summarize_context_pressure (cases : list ContextPressureCaseEvidence) (max_cases : Z)
    : result EvaluationErrorCode ContextPressureSummary :=
  reject InvalidPressureEvidence when
    (max_cases =? 0) || vec_is_empty cases || (max_cases <? Z.of_nat (length cases));
  reject DuplicateCase when negb (all_distinct (pc_case_id <$> cases));
  let? classes := try_map (pressure_class cases) WORKLOAD_CLASSES in
  Ok (mkPressureSummary cases classes).

(** ** Creativity ([creativity.rs]) *)

Inductive CreativityArm := ArmControl | ArmBoundedAlternatives.
#[export] Instance CreativityArm_eq_dec : EqDecision CreativityArm.
Proof. solve_decision. Defined.
Definition arm_wire_name (self : CreativityArm) : string :=
  match self with ArmControl => "control" | ArmBoundedAlternatives => "bounded_alternatives" end.
Inductive CreativityTaskClass := DesignAlternatives | DiagnosticHypotheses | ConstraintReconciliation | TransformationReframing.
#[export] Instance CreativityTaskClass_eq_dec : EqDecision CreativityTaskClass.
Proof. solve_decision. Defined.
Definition TASK_CLASSES : list CreativityTaskClass :=
  [DesignAlternatives; DiagnosticHypotheses; ConstraintReconciliation; TransformationReframing].
Definition task_class_wire_name (self : CreativityTaskClass) : string :=
  match self with
  | DesignAlternatives => "design_alternatives" | DiagnosticHypotheses => "diagnostic_hypotheses"
  | ConstraintReconciliation => "constraint_reconciliation" | TransformationReframing => "transformation_reframing"
  end.

Record CreativityArmEvidence := mkArmEvidence {
  ca_task_id : string;
  ca_task_class : CreativityTaskClass;
  ca_arm : CreativityArm;
  ca_candidate_count : Z;
  ca_correct_candidate_count : Z;
  ca_distinct_correct_cluster_count : Z;
  ca_selected_correct : bool;
}.
Definition arm_evidence_new (task_id : string) (task_class : CreativityTaskClass) (arm : CreativityArm)
    (candidate_count correct_candidate_count distinct_correct_cluster_count : Z) (selected_correct : bool)
    : result EvaluationErrorCode CreativityArmEvidence :=
  let arm_shape := match arm with ArmControl => candidate_count =? 1 | ArmBoundedAlternatives => 2 <=? candidate_count end in
  reject InvalidCreativityEvidence when
    negb arm_shape || (candidate_count <? correct_candidate_count)
    || (correct_candidate_count <? distinct_correct_cluster_count) || (selected_correct && (correct_candidate_count =? 0));
  Ok (mkArmEvidence task_id task_class arm candidate_count correct_candidate_count distinct_correct_cluster_count selected_correct).

Record CreativityTaskPair := mkTaskPair {
  tp_task_id : string;
  tp_task_class : CreativityTaskClass;
  tp_control : CreativityArmEvidence;
  tp_bounded_alternatives : CreativityArmEvidence;
}.
Record CreativityAggregate := mkAggregate {
  ag_arm : CreativityArm;
  ag_task_count : Z;
  ag_candidate_count : Z;
  ag_correct_candidate_count : Z;
  ag_correct_cluster_mean_numerator : Z;
  ag_correct_cluster_mean_denominator : Z;
  ag_selected_correct_numerator : Z;
  ag_selected_correct_denominator : Z;
}.
Record CreativityClassSummary := mkCreativityClass {
  cs_task_class : CreativityTaskClass;
  cs_control : CreativityAggregate;
  cs_bounded_alternatives : CreativityAggregate;
}.
Record CreativitySummary := mkCreativitySummary {
  cu_ordered_pairs : list CreativityTaskPair;
  cu_control : CreativityAggregate;
  cu_bounded_alternatives : CreativityAggregate;
  cu_classes : list CreativityClassSummary;
}.

Definition creativity_add (left right : Z) : result EvaluationErrorCode Z :=
  ok_or (checked_add left right) CreativityArithmeticOverflow.

Definition aggregate_step (arm : CreativityArm) (self : CreativityAggregate) (value : CreativityArmEvidence)
    : result EvaluationErrorCode CreativityAggregate :=
  reject InvalidCreativityEvidence when bool_decide (ca_arm value <> arm);
  let? task_count := creativity_add (ag_task_count self) 1 in
  let? candidate_count := creativity_add (ag_candidate_count self) (ca_candidate_count value) in
  let? correct := creativity_add (ag_correct_candidate_count self) (ca_correct_candidate_count value) in
  let? clusters := creativity_add (ag_correct_cluster_mean_numerator self) (ca_distinct_correct_cluster_count value) in
  let? selected := creativity_add (ag_selected_correct_numerator self) (if ca_selected_correct value then 1 else 0) in
  Ok (mkAggregate (ag_arm self) task_count candidate_count correct clusters (ag_correct_cluster_mean_denominator self)
        selected (ag_selected_correct_denominator self)).
Definition aggregate (arm : CreativityArm) (values : list CreativityArmEvidence) : result EvaluationErrorCode CreativityAggregate :=
  let? self := try_fold (aggregate_step arm) (mkAggregate arm 0 0 0 0 0 0 0) values in
  Ok (mkAggregate (ag_arm self) (ag_task_count self) (ag_candidate_count self) (ag_correct_candidate_count self)
        (ag_correct_cluster_mean_numerator self) (ag_task_count self) (ag_selected_correct_numerator self) (ag_task_count self)).

(** [as_chunks::<2>().0] *)
Fixpoint chunks2 {A} (l : list A) : list (A * A) :=
  match l with a :: b :: l => (a, b) :: chunks2 l | _ => [] end.

Definition pair_step (state : gset string * list CreativityTaskPair) (chunk : CreativityArmEvidence * CreativityArmEvidence)
    : result EvaluationErrorCode (gset string * list CreativityTaskPair) :=
  let '(identities, pairs) := state in
  let '(control, alternatives) := chunk in
  reject InvalidCreativityEvidence when
    bool_decide (ca_arm control <> ArmControl) || bool_decide (ca_arm alternatives <> ArmBoundedAlternatives)
    || negb (ca_task_id control =? ca_task_id alternatives)%string
    || bool_decide (ca_task_class control <> ca_task_class alternatives) || bool_decide (ca_task_id control ∈ identities);
  Ok ({[ca_task_id control]} ∪ identities, pairs ++ [mkTaskPair (ca_task_id control) (ca_task_class control) control alternatives]).

Definition creativity_class (pairs : list CreativityTaskPair) (task_class : CreativityTaskClass)
    : result EvaluationErrorCode CreativityClassSummary :=
  let selected := filter (fun pair => tp_task_class pair = task_class) pairs in
  let? control := aggregate ArmControl (tp_control <$> selected) in
  reject MissingCreativityEvidence when ag_task_count control =? 0;
  let? bounded_alternatives := aggregate ArmBoundedAlternatives (tp_bounded_alternatives <$> selected) in
  Ok (mkCreativityClass task_class control bounded_alternatives).

Definition summarize_creativity (evidence : list CreativityArmEvidence) (expected_tasks : Z)
    : result EvaluationErrorCode CreativitySummary :=
  reject MissingCreativityEvidence when expected_tasks =? 0;
  let? expected := ok_or (checked_mul expected_tasks 2) CreativityArithmeticOverflow in
  reject MissingCreativityEvidence when negb (Z.of_nat (length evidence) =? expected);
  let? (_, pairs) := try_fold pair_step (∅, []) (chunks2 evidence) in
  let? control := aggregate ArmControl (tp_control <$> pairs) in
  let? bounded_alternatives := aggregate ArmBoundedAlternatives (tp_bounded_alternatives <$> pairs) in
  let? classes := try_map (creativity_class pairs) TASK_CLASSES in
  Ok (mkCreativitySummary pairs control bounded_alternatives classes).

(** ** Summaries are exact *)

Definition outcomes (outcome : EvaluationCaseOutcome) (results : list EvaluationCaseResult) : Z :=
  Z.of_nat (length (filter (fun r => er_outcome r = outcome) results)).
Definition case_admitted (limits : EvaluationLimits) (r : EvaluationCaseResult) : Prop :=
  er_duration_ms r <= vl_max_case_duration_ms limits
  /\ (er_outcome r = CaseNotAttempted -> er_duration_ms r = 0 /\ er_input_tokens r = None /\ er_output_tokens r = None).

Lemma outcomes_cons outcome r results :
  outcomes outcome (r :: results) = (if decide (er_outcome r = outcome) then 1 else 0) + outcomes outcome results.
Proof. unfold outcomes. rewrite filter_cons. destruct (decide _); cbn [length]; lia. Qed.

Lemma outcomes_one r :
  outcomes CasePassed [r] + outcomes CaseFailed [r] + outcomes CaseInfrastructureFailure [r] + outcomes CaseNotAttempted [r] = 1
  /\ 0 <= outcomes CasePassed [r] /\ 0 <= outcomes CaseFailed [r] /\ 0 <= outcomes CaseInfrastructureFailure [r]
  /\ 0 <= outcomes CaseNotAttempted [r].
Proof. unfold outcomes. rewrite !filter_cons. by destruct (er_outcome r). Qed.

Lemma eval_increment_ok value : 0 <= value < u64_max -> eval_increment value = Ok (value + 1).
Proof.
  intros Hv. unfold eval_increment, checked_add. by rewrite (proj2 (checked_u64_some (value + 1) (value + 1)));
    [|unfold is_u64; lia].
Qed.

Lemma summarize_case_ok limits ids p f i n r state :
  0 <= p < u64_max -> 0 <= f < u64_max -> 0 <= i < u64_max -> 0 <= n < u64_max ->
  summarize_case limits (ids, mkSummary 0 p f i n None) r = Ok state <->
  (er_case_id r ∉ ids) /\ case_admitted limits r
  /\ state = ({[er_case_id r]} ∪ ids, mkSummary 0 (p + outcomes CasePassed [r]) (f + outcomes CaseFailed [r])
                (i + outcomes CaseInfrastructureFailure [r]) (n + outcomes CaseNotAttempted [r]) None).
Proof.
  intros Hp Hf Hi Hn. unfold summarize_case, case_admitted. rewrite !outcomes_cons. change (outcomes _ []) with 0.
  destruct (bool_decide (er_case_id r ∈ ids)) eqn:Ein.
  { apply bool_decide_eq_true in Ein. split; [done|]. by intros [Hx _]. }
  apply bool_decide_eq_false in Ein. destruct (vl_max_case_duration_ms limits <? er_duration_ms r) eqn:Ed.
  { split; [done|]. intros (_ & [Hx _] & _). lia. }
  destruct (er_outcome r) eqn:Eo; rewrite ?eval_increment_ok by done;
    repeat (rewrite decide_True by done || rewrite decide_False by done); rewrite ?Z.add_0_r.
  1-3: split; [by intros [= <-]; split_and!; [done|lia|..]|by intros (_ & _ & ->)].
  destruct (_ || _) eqn:Er.
  - split; [done|]. intros (_ & [_ Hx] & _). destruct (Hx eq_refl) as (H1 & H2 & H3). by rewrite H1, H2, H3 in Er.
  - bool_hyps. split; [|by intros (_ & _ & ->)]. intros [= <-].
    by destruct (er_input_tokens r), (er_output_tokens r).
Qed.

Lemma summarize_cases_ok limits results : forall ids p f i n state,
  0 <= p -> 0 <= f -> 0 <= i -> 0 <= n -> p + f + i + n + Z.of_nat (length results) <= u64_max ->
  try_fold (summarize_case limits) (ids, mkSummary 0 p f i n None) results = Ok state <->
  NoDup (er_case_id <$> results) /\ (forall id, id ∈ er_case_id <$> results -> id ∉ ids) /\ Forall (case_admitted limits) results
  /\ state = (list_to_set (er_case_id <$> results) ∪ ids,
              mkSummary 0 (p + outcomes CasePassed results) (f + outcomes CaseFailed results)
                (i + outcomes CaseInfrastructureFailure results) (n + outcomes CaseNotAttempted results) None).
Proof.
  induction results as [|r results IH]; intros ids p f i n state Hp Hf Hi Hn Hlen; cbn [try_fold].
  { change (outcomes _ []) with 0. rewrite !Z.add_0_r. cbn. rewrite union_empty_l_L. split.
    - intros [= <-]. split_and!; [constructor|by intros id Hid%elem_of_nil|constructor|done].
    - by intros (_ & _ & _ & ->). }
  cbn [length] in Hlen. rewrite fmap_cons, list.NoDup_cons, Forall_cons. setoid_rewrite elem_of_cons.
  destruct (summarize_case limits (ids, mkSummary 0 p f i n None) r) as [next|e] eqn:Es.
  - apply summarize_case_ok in Es as (Hni & Had & ->); [|lia..].
    pose proof (outcomes_one r) as (Hone & H1 & H2 & H3 & H4). rewrite IH by lia.
    rewrite !(outcomes_cons _ r []). change (outcomes _ []) with 0. rewrite !(outcomes_cons _ r results), !Z.add_0_r, !Z.add_assoc.
    setoid_rewrite not_elem_of_union. setoid_rewrite not_elem_of_singleton. split.
    + intros (Hnd & Hdis & Hall & ->). split_and!; try done.
      * intros Hin. by destruct (Hdis _ Hin).
      * intros id [->|Hin]; [done|]. by destruct (Hdis _ Hin).
      * f_equal. cbn. set_solver.
    + intros ((Hn2 & Hnd) & Hdis & (_ & Hall) & ->). split_and!; try done.
      * intros id Hin. split; [by intros ->|]. apply Hdis. by right.
      * f_equal. cbn. set_solver.
  - split; [done|]. intros (_ & Hdis & (Had & _) & _). exfalso.
    assert (summarize_case limits (ids, mkSummary 0 p f i n None) r = Ok ({[er_case_id r]} ∪ ids,
      mkSummary 0 (p + outcomes CasePassed [r]) (f + outcomes CaseFailed [r])
                (i + outcomes CaseInfrastructureFailure [r]) (n + outcomes CaseNotAttempted [r]) None)) as Hok.
    { apply summarize_case_ok; [lia..|]. split_and!; [apply Hdis; by left|done|done]. }
    congruence.
Qed.

(** A summary exists exactly for distinct admitted results within the limits, and counts them: its score is the share of
    passed cases among those with a verdict, and it has none when there is no verdict. *)
Theorem evaluation_summary_exact results limits summary : is_u64 (vl_max_cases limits) ->
  summarize results limits = Ok summary <->
  vl_max_cases limits <> 0 /\ vl_max_case_duration_ms limits <> 0 /\ Z.of_nat (length results) <= vl_max_cases limits
  /\ NoDup (er_case_id <$> results) /\ Forall (case_admitted limits) results
  /\ let passed := outcomes CasePassed results in
     let attempted := passed + outcomes CaseFailed results in
     summary = mkSummary attempted passed (outcomes CaseFailed results) (outcomes CaseInfrastructureFailure results)
                 (outcomes CaseNotAttempted results) (if attempted =? 0 then None else Some (mkScore passed attempted)).
Proof.
  intros Hu. unfold is_u64 in Hu. unfold summarize, limits_validate.
  destruct (Z.eqb_spec (vl_max_cases limits) 0) as [->|H0]; [by split; [|intros (H0 & _)]|]. cbn [orb].
  destruct (Z.eqb_spec (vl_max_case_duration_ms limits) 0) as [->|H1]; [by split; [|intros (_ & H1 & _)]|].
  destruct (vl_max_cases limits <? Z.of_nat (length results)) eqn:El; [by split; [|intros (_ & _ & H2 & _); lia]|].
  assert (0 <= outcomes CasePassed results /\ 0 <= outcomes CaseFailed results
          /\ outcomes CasePassed results + outcomes CaseFailed results <= Z.of_nat (length results)) as (Hp & Hf & Hs).
  { clear. induction results as [|r results IH]; [done|]. rewrite !outcomes_cons. cbn [length]. destruct (er_outcome r);
      repeat case_decide; try done; lia. }
  pose proof (fun state => summarize_cases_ok limits results ∅ 0 0 0 0 state ltac:(lia) ltac:(lia) ltac:(lia) ltac:(lia) ltac:(lia)) as Hfold.
  assert (forall id, id ∈ er_case_id <$> results -> id ∉ (∅ : gset string)) as He by (intros; apply not_elem_of_empty).
  set (final := mkSummary 0 _ _ _ _ _) in Hfold. destruct (try_fold _ _ results) as [[ids s]|e].
  - destruct (proj1 (Hfold _) eq_refl) as (Hnd & _ & Hall & [= _ ->]). unfold final. cbn.
    unfold checked_add. rewrite (proj2 (checked_u64_some _ _)) by (split; [done|unfold is_u64; lia]). cbn.
    rewrite !Z.add_0_l. unfold score_new.
    destruct (Z.eqb_spec (outcomes CasePassed results + outcomes CaseFailed results) 0) as [Hz|Hz].
    + split; [intros [= <-]; by split_and!; try lia|by intros (_ & _ & _ & _ & _ & ->)].
    + rewrite (proj2 (Z.ltb_ge _ _)) by lia. cbn.
      split; [intros [= <-]; by split_and!; try lia|by intros (_ & _ & _ & _ & _ & ->)].
  - split; [done|]. intros (_ & _ & _ & Hnd & Hall & _).
    discriminate (proj2 (Hfold _) (conj Hnd (conj He (conj Hall eq_refl)))).
Qed.

(** ** Pressure is rounded up *)

Theorem context_pressure_ceiling case_id class items bytes tokens limit evidence :
  0 <= tokens -> 0 <= limit -> pressure_case_new case_id class items bytes tokens limit = Ok evidence ->
  (pc_pressure_basis_points evidence - 1) * limit < tokens * 10000 <= pc_pressure_basis_points evidence * limit.
Proof.
  intros Ht Hl. unfold pressure_case_new. destruct (_ || _) eqn:Ez; [done|]. bool_hyps.
  destruct (checked_mul tokens 10000) as [scaled|] eqn:Em; [|done]. apply checked_u64_some in Em as [<- _]. cbn [ok_or].
  destruct (checked_add _ _) as [rounded|] eqn:Ea; [|done]. apply checked_u64_some in Ea as [<- _]. cbn [ok_or].
  intros [= <-]. cbn [pc_pressure_basis_points].
  pose proof (Z.div_mod (tokens * 10000 + (limit - 1)) limit ltac:(lia)) as Hd.
  pose proof (Z.mod_pos_bound (tokens * 10000 + (limit - 1)) limit ltac:(lia)). nia.
Qed.

(** ** The classes of an experiment add up *)

Lemma creativity_add_ok a b c : creativity_add a b = Ok c -> c = a + b.
Proof. unfold creativity_add, ok_or, checked_add. destruct (checked_u64 (a + b)) eqn:E; [|done]. apply checked_u64_some in E as [<- _]. by intros [= <-]. Qed.

Definition selected_points (e : CreativityArmEvidence) : Z := if ca_selected_correct e then 1 else 0.

Lemma aggregate_fold_ok arm values : forall start self, try_fold (aggregate_step arm) start values = Ok self ->
  Forall (fun e => ca_arm e = arm) values /\ ag_arm self = ag_arm start
  /\ ag_task_count self = ag_task_count start + Z.of_nat (length values)
  /\ ag_candidate_count self = ag_candidate_count start + zsum_by ca_candidate_count values
  /\ ag_correct_candidate_count self = ag_correct_candidate_count start + zsum_by ca_correct_candidate_count values
  /\ ag_correct_cluster_mean_numerator self = ag_correct_cluster_mean_numerator start + zsum_by ca_distinct_correct_cluster_count values
  /\ ag_selected_correct_numerator self = ag_selected_correct_numerator start + zsum_by selected_points values.
Proof.
  induction values as [|value values IH]; intros start self Hf; cbn [try_fold] in Hf.
  { injection Hf as <-. cbn. split_and!; [constructor|done|lia..]. }
  unfold aggregate_step at 1 in Hf. case_bool_decide as Ha; [done|].
  destruct (creativity_add (ag_task_count start) 1) as [a|] eqn:E1; [|done].
  destruct (creativity_add (ag_candidate_count start) _) as [b|] eqn:E2; [|done].
  destruct (creativity_add (ag_correct_candidate_count start) _) as [c|] eqn:E3; [|done].
  destruct (creativity_add (ag_correct_cluster_mean_numerator start) _) as [d|] eqn:E4; [|done].
  destruct (creativity_add (ag_selected_correct_numerator start) _) as [e|] eqn:E5; [|done].
  apply creativity_add_ok in E1 as ->, E2 as ->, E3 as ->, E4 as ->, E5 as ->.
  destruct (IH _ _ Hf) as (Hall & H1 & H2 & H3 & H4 & H5 & H6). cbn in H1, H2, H3, H4, H5, H6. cbn [length zsum_by foldr].
  unfold selected_points at 1. unfold zsum_by in *. split_and!; [by constructor|done|lia..].
Qed.

Definition aggregate_of (arm : CreativityArm) (values : list CreativityArmEvidence) : CreativityAggregate :=
  let tasks := Z.of_nat (length values) in
  mkAggregate arm tasks (zsum_by ca_candidate_count values) (zsum_by ca_correct_candidate_count values)
    (zsum_by ca_distinct_correct_cluster_count values) tasks (zsum_by selected_points values) tasks.

Lemma aggregate_ok arm values self : aggregate arm values = Ok self -> self = aggregate_of arm values.
Proof.
  unfold aggregate. destruct (try_fold _ _ _) as [s|] eqn:E; [|done]. intros [= <-].
  apply aggregate_fold_ok in E as (_ & -> & -> & -> & -> & -> & ->). done.
Qed.

(** The totals of two disjoint groups of tasks. *)
Definition aggregate_plus (a b : CreativityAggregate) : CreativityAggregate :=
  mkAggregate (ag_arm a) (ag_task_count a + ag_task_count b) (ag_candidate_count a + ag_candidate_count b)
    (ag_correct_candidate_count a + ag_correct_candidate_count b)
    (ag_correct_cluster_mean_numerator a + ag_correct_cluster_mean_numerator b)
    (ag_correct_cluster_mean_denominator a + ag_correct_cluster_mean_denominator b)
    (ag_selected_correct_numerator a + ag_selected_correct_numerator b)
    (ag_selected_correct_denominator a + ag_selected_correct_denominator b).
Definition aggregate_sum (arm : CreativityArm) (parts : list CreativityAggregate) : CreativityAggregate :=
  foldr (fun part total => aggregate_plus (mkAggregate arm 0 0 0 0 0 0 0) (aggregate_plus part total)) (mkAggregate arm 0 0 0 0 0 0 0) parts.

Lemma filter_class_length (pairs : list CreativityTaskPair) :
  Z.of_nat (length pairs) = zsum_by (fun class => Z.of_nat (length (filter (fun p => tp_task_class p = class) pairs))) TASK_CLASSES.
Proof.
  induction pairs as [|p pairs IH]; [done|]. unfold TASK_CLASSES in *. cbn [zsum_by foldr] in *. rewrite !filter_cons. cbn [length].
  destruct (tp_task_class p); repeat case_decide; try done; cbn [length]; lia.
Qed.
Lemma filter_class_sum (f : CreativityTaskPair -> Z) pairs :
  zsum_by f pairs = zsum_by (fun class => zsum_by f (filter (fun p => tp_task_class p = class) pairs)) TASK_CLASSES.
Proof.
  induction pairs as [|p pairs IH]; [done|]. unfold TASK_CLASSES in *. cbn [zsum_by foldr] in *. rewrite !filter_cons.
  destruct (tp_task_class p); repeat case_decide; try done; unfold zsum_by in *; cbn [foldr]; lia.
Qed.
Lemma zsum_by_fmap {A B} (g : A -> B) (f : B -> Z) l : zsum_by f (g <$> l) = zsum_by (fun a => f (g a)) l.
Proof. induction l as [|a l IH]; cbn; [done|]. unfold zsum_by in IH. by rewrite IH. Qed.

Lemma aggregate_classes arm (side : CreativityTaskPair -> CreativityArmEvidence) pairs :
  aggregate_of arm (side <$> pairs)
  = aggregate_sum arm ((fun class => aggregate_of arm (side <$> filter (fun p => tp_task_class p = class) pairs)) <$> TASK_CLASSES).
Proof.
  unfold aggregate_of. rewrite length_fmap, filter_class_length, !zsum_by_fmap.
  rewrite (filter_class_sum (fun p => ca_candidate_count (side p))), (filter_class_sum (fun p => ca_correct_candidate_count (side p))),
    (filter_class_sum (fun p => ca_distinct_correct_cluster_count (side p))), (filter_class_sum (fun p => selected_points (side p))).
  unfold TASK_CLASSES, aggregate_sum, aggregate_plus. cbn [zsum_by foldr fmap list_fmap ag_arm ag_task_count ag_candidate_count
    ag_correct_candidate_count ag_correct_cluster_mean_numerator ag_correct_cluster_mean_denominator
    ag_selected_correct_numerator ag_selected_correct_denominator]. rewrite !length_fmap, !zsum_by_fmap. unfold zsum_by. f_equal; lia.
Qed.

(** The totals of a summary are the sums of its four classes, for both arms, and no class is empty. *)
Theorem creativity_classes_add_up evidence expected summary : summarize_creativity evidence expected = Ok summary ->
  cu_control summary = aggregate_sum ArmControl (cs_control <$> cu_classes summary)
  /\ cu_bounded_alternatives summary = aggregate_sum ArmBoundedAlternatives (cs_bounded_alternatives <$> cu_classes summary)
  /\ cs_task_class <$> cu_classes summary = TASK_CLASSES
  /\ Forall (fun c => ag_task_count (cs_control c) <> 0) (cu_classes summary).
Proof.
  unfold summarize_creativity. destruct (_ =? 0); [done|]. destruct (ok_or _ _); [|done]. destruct (negb _); [done|].
  destruct (try_fold _ _ _) as [[ids pairs]|]; [|done].
  destruct (aggregate ArmControl _) as [control|] eqn:Ec; [|done]. apply aggregate_ok in Ec.
  destruct (aggregate ArmBoundedAlternatives _) as [alternatives|] eqn:Ea; [|done]. apply aggregate_ok in Ea.
  destruct (try_map _ _) as [classes|] eqn:Em; [|done]. intros [= <-]. cbn [cu_control cu_bounded_alternatives cu_classes].
  assert (forall class c, creativity_class pairs class = Ok c ->
    c = mkCreativityClass class (aggregate_of ArmControl (tp_control <$> filter (fun p => tp_task_class p = class) pairs))
          (aggregate_of ArmBoundedAlternatives (tp_bounded_alternatives <$> filter (fun p => tp_task_class p = class) pairs))
    /\ ag_task_count (cs_control c) <> 0) as Hclass.
  { intros class c. unfold creativity_class. destruct (aggregate ArmControl _) as [x|] eqn:E1; [|done]. apply aggregate_ok in E1 as ->.
    destruct (_ =? 0) eqn:E0; [done|]. destruct (aggregate ArmBoundedAlternatives _) as [y|] eqn:E2; [|done]. apply aggregate_ok in E2 as ->.
    intros [= <-]. split; [done|]. cbn [cs_control]. lia. }
  rewrite Ec, Ea, (aggregate_classes ArmControl tp_control), (aggregate_classes ArmBoundedAlternatives tp_bounded_alternatives).
  unfold TASK_CLASSES in Em |- *. cbn [try_map] in Em.
  destruct (creativity_class pairs DesignAlternatives) as [c1|] eqn:H1; [|done]. apply Hclass in H1 as [E1 N1].
  destruct (creativity_class pairs DiagnosticHypotheses) as [c2|] eqn:H2; [|done]. apply Hclass in H2 as [E2 N2].
  destruct (creativity_class pairs ConstraintReconciliation) as [c3|] eqn:H3; [|done]. apply Hclass in H3 as [E3 N3].
  destruct (creativity_class pairs TransformationReframing) as [c4|] eqn:H4; [|done]. apply Hclass in H4 as [E4 N4].
  injection Em as <-. split_and!; [by rewrite E1, E2, E3, E4..|repeat constructor; done].
Qed.
