(* ===== verification/Observability.v ===== *)
(** * Agent signals ([engine/observability/src/values.rs], [catalogue.rs], [signal.rs])

    The catalogue of telemetry signals and the validation every signal passes: what
    a signal carries is fixed by the catalogue. *)

From S2P Require Import Prelude Json Text Order ToolSchema ToolPrepared Checks.

(** ** Values ([values.rs]) *)

Inductive AgentSignalErrorCode :=
  | InvalidSignal | UnknownSignal | AttributeNotAllowed | AttributeLimitExceeded | MeasurementInvalid | RedactionViolation.
Definition signal_error_wire_name (self : AgentSignalErrorCode) : string :=
  match self with
  | InvalidSignal => "invalid_signal" | UnknownSignal => "unknown_signal" | AttributeNotAllowed => "attribute_not_allowed"
  | AttributeLimitExceeded => "attribute_limit_exceeded" | MeasurementInvalid => "measurement_invalid"
  | RedactionViolation => "redaction_violation"
  end.

Inductive Severity := SeverityTrace | SeverityDebug | SeverityInfo | SeverityWarn | SeverityError.
Definition severity_name (self : Severity) : string :=
  match self with
  | SeverityTrace => "trace" | SeverityDebug => "debug" | SeverityInfo => "info" | SeverityWarn => "warn" | SeverityError => "error"
  end.
Inductive RedactionClass := RedactionPublic | RedactionOperational | RedactionRestricted.
Definition redaction_rank (self : RedactionClass) : Z :=
  match self with RedactionPublic => 0 | RedactionOperational => 1 | RedactionRestricted => 2 end.
Definition redaction_name (self : RedactionClass) : string :=
  match self with RedactionPublic => "public" | RedactionOperational => "operational" | RedactionRestricted => "restricted" end.

Record Correlation := mkCorrelation {
  co_trace_id : option string;
  co_span_id : option string;
  co_parent_span_id : option string;
  co_session_id : option string;
  co_turn_id : option string;
  co_execution_id : option string;
  co_model_request_id : option string;
  co_tool_invocation_id : option string;
  co_durable_position : option Z;
}.
Inductive AttributeValue := AttributeString (value : string) | AttributeBool (value : bool) | AttributeInteger (value : Z).
Record SignalAttribute := mkAttribute { at_name : string; at_value : AttributeValue }.
Inductive MeasurementUnit := Count | Bytes | Milliseconds | Tokens | BasisPoints.
#[export] Instance MeasurementUnit_eq_dec : EqDecision MeasurementUnit.
Proof. solve_decision. Defined.
Definition unit_name (self : MeasurementUnit) : string :=
  match self with
  | Count => "count" | Bytes => "bytes" | Milliseconds => "milliseconds" | Tokens => "tokens" | BasisPoints => "basis_points"
  end.
Inductive MeasurementValue := Known (value : Z) | Unknown.
Record Measurement := mkMeasurement { mm_name : string; mm_value : MeasurementValue; mm_unit : MeasurementUnit }.

(** ** The catalogue ([catalogue.rs]) *)

Definition SIGNAL_NAMES : list string :=
  ["agent.context.derived"; "agent.delegation.requested"; "agent.delegation.terminal"; "agent.effect.prepared";
   "agent.effect.terminal"; "agent.execution.started"; "agent.execution.terminal"; "agent.host.command";
   "agent.host.event_page"; "agent.interaction.required"; "agent.iteration.started"; "agent.model.attempt";
   "agent.model.terminal"; "agent.recovery.classified"; "agent.scheduler.claim"; "agent.scheduler.dispatch";
   "agent.telemetry.dropped"].

Record SignalSchema := mkSignalSchema {
  ss_name : string;
  ss_attributes : list (string * string);
  ss_measurements : list (string * MeasurementUnit);
  ss_minimum_redaction : RedactionClass;
}.

Definition START_A : list (string * string) :=
  [("recovery_action", "recovery_action"); ("replayed", "bool")].
Definition TERMINAL_A : list (string * string) :=
  [("outcome", "outcome"); ("reason", "reason"); ("replayed", "bool"); ("success", "bool")].
Definition REPLAY_A : list (string * string) :=
  [("replayed", "bool")].
Definition CONTEXT_A : list (string * string) :=
  [("digest_present", "bool"); ("replayed", "bool")].
Definition MODEL_A : list (string * string) :=
  [("phase", "phase"); ("protocol_family", "protocol_family"); ("replayed", "bool")].
Definition MODEL_T_A : list (string * string) :=
  [("outcome", "outcome"); ("protocol_family", "protocol_family"); ("reason", "reason"); ("replayed", "bool");
   ("success", "bool")].
Definition EFFECT_A : list (string * string) :=
  [("capability_class", "capability_class"); ("classification", "classification"); ("replayed", "bool")].
Definition EFFECT_T_A : list (string * string) :=
  [("classification", "classification"); ("outcome", "outcome"); ("reason", "reason"); ("replayed", "bool");
   ("success", "bool")].
Definition CLASS_A : list (string * string) :=
  [("classification", "classification"); ("replayed", "bool")].
Definition RECOVERY_A : list (string * string) :=
  [("recovery_action", "recovery_action"); ("replayed", "bool")].
Definition COMMAND_A : list (string * string) :=
  [("disposition", "disposition"); ("replayed", "bool"); ("success", "bool")].
Definition PAGE_A : list (string * string) :=
  [("replayed", "bool"); ("success", "bool")].
Definition CLAIM_A : list (string * string) :=
  [("disposition", "disposition"); ("replayed", "bool")].
Definition DROP_A : list (string * string) :=
  [("classification", "classification")].
Definition ITER_M : list (string * MeasurementUnit) :=
  [("iteration_count", Count)].
Definition START_M : list (string * MeasurementUnit) :=
  [("completed_iterations", Count)].
Definition TERM_M : list (string * MeasurementUnit) :=
  [("completed_iterations", Count); ("elapsed_ms", Milliseconds); ("input_tokens", Tokens);
   ("output_tokens", Tokens)].
Definition CONTEXT_M : list (string * MeasurementUnit) :=
  [("input_tokens", Tokens); ("item_count", Count); ("total_bytes", Bytes)].
Definition ATTEMPT_M : list (string * MeasurementUnit) :=
  [("attempt_count", Count); ("elapsed_ms", Milliseconds)].
Definition MODEL_T_M : list (string * MeasurementUnit) :=
  [("elapsed_ms", Milliseconds); ("input_tokens", Tokens); ("output_tokens", Tokens)].
Definition ONE_ATTEMPT : list (string * MeasurementUnit) :=
  [("attempt_count", Count)].
Definition ELAPSED : list (string * MeasurementUnit) :=
  [("elapsed_ms", Milliseconds)].
Definition ITEMS : list (string * MeasurementUnit) :=
  [("item_count", Count)].
Definition PAGE_M : list (string * MeasurementUnit) :=
  [("item_count", Count); ("total_bytes", Bytes)].
Definition CLAIM_M : list (string * MeasurementUnit) :=
  [("elapsed_ms", Milliseconds); ("occurrence_count", Count)].
Definition TOKENS : list (string * MeasurementUnit) :=
  [("input_tokens", Tokens); ("output_tokens", Tokens)].
Definition DELEG_T : list (string * MeasurementUnit) :=
  [("elapsed_ms", Milliseconds); ("input_tokens", Tokens); ("output_tokens", Tokens)].
Definition DROP_M : list (string * MeasurementUnit) :=
  [("dropped_bytes", Bytes); ("dropped_count", Count)].

Definition schema_parts (name : string) : option (list (string * string) * list (string * MeasurementUnit) * RedactionClass) :=
  assoc name
    [("agent.execution.started", (START_A, START_M, RedactionOperational));
     ("agent.execution.terminal", (TERMINAL_A, TERM_M, RedactionOperational));
     ("agent.iteration.started", (REPLAY_A, ITER_M, RedactionOperational));
     ("agent.context.derived", (CONTEXT_A, CONTEXT_M, RedactionOperational));
     ("agent.model.attempt", (MODEL_A, ATTEMPT_M, RedactionOperational));
     ("agent.model.terminal", (MODEL_T_A, MODEL_T_M, RedactionOperational));
     ("agent.effect.prepared", (EFFECT_A, ONE_ATTEMPT, RedactionOperational));
     ("agent.effect.terminal", (EFFECT_T_A, ELAPSED, RedactionOperational));
     ("agent.interaction.required", (CLASS_A, ITEMS, RedactionRestricted));
     ("agent.recovery.classified", (RECOVERY_A, ONE_ATTEMPT, RedactionOperational));
     ("agent.host.command", (COMMAND_A, ELAPSED, RedactionOperational));
     ("agent.host.event_page", (PAGE_A, PAGE_M, RedactionOperational));
     ("agent.scheduler.claim", (CLAIM_A, CLAIM_M, RedactionOperational));
     ("agent.scheduler.dispatch", (COMMAND_A, ELAPSED, RedactionOperational));
     ("agent.delegation.requested", (CLAIM_A, TOKENS, RedactionOperational));
     ("agent.delegation.terminal", (TERMINAL_A, DELEG_T, RedactionOperational));
     ("agent.telemetry.dropped", (DROP_A, DROP_M, RedactionOperational))].
Definition signal_schema (name : string) : option SignalSchema :=
  '(attributes, measurements, minimum_redaction) ← schema_parts name;
  found ← List.find (fun item => (item =? name)%string) SIGNAL_NAMES;
  Some (mkSignalSchema found attributes measurements minimum_redaction).

Definition ENUM_VALUES : list (string * list string) :=
  [("outcome",
     ["completed"; "denied"; "failed"; "interrupted"; "rejected"; "started"; "stopped"; "unavailable"; "uncertain"]);
   ("reason",
     ["authority_denied"; "budget_exhausted"; "cancelled"; "corrupt_recovery_state"; "deadline";
      "durability_failure"; "invalid_input"; "invalid_model_output"; "invariant_violation"; "iteration_limit";
      "port_failure"; "required_capability_unavailable"; "resource_unavailable"; "sink_backpressured";
      "sink_unavailable"; "token_limit"]);
   ("phase",
     ["authorized"; "completed"; "dispatched"; "prepared"; "requested"; "started"; "terminal"]);
   ("classification",
     ["approval"; "external_input"; "idempotent"; "never_replay"; "operator_reconciliation"; "policy"; "pressure";
      "sampling"; "serialization"; "shutdown"; "sink"]);
   ("recovery_action",
     ["abandon_and_restart"; "classify_effect_uncertain"; "classify_model_uncertain"; "fail_recovery_bound";
      "recover_receipt_terminal"]);
   ("capability_class",
     ["idempotent"; "read_only"; "side_effecting"]);
   ("protocol_family",
     ["compatible"; "messages"; "responses"]);
   ("disposition",
     ["accepted"; "authorized"; "committed"; "conflict"; "denied"; "failed"; "reclaimed"; "rejected"; "replayed"])].
Definition attribute_enum_values (category : string) : list string := default [] (assoc category ENUM_VALUES).
Definition attribute_valid (category : string) (value : AttributeValue) : bool :=
  match value with
  | AttributeBool _ => (category =? "bool")%string
  | AttributeString value => contains (attribute_enum_values category) value
  | AttributeInteger _ => false
  end.

(** ** Signals ([signal.rs]) *)

Definition MAX_ATTRIBUTES : Z := 8.
Definition MAX_MEASUREMENTS : Z := 8.
Definition MAX_STRING_BYTES : Z := 64.
Definition SIGNAL_MAX_ID_BYTES : Z := 128.

Record SignalBinding := mkSignalBinding { sb_digest : string; sb_inline_utf8 : string }.
Record AgentSignal := mkAgentSignal {
  sg_signal_name : string;
  sg_schema_version : Z;
  sg_observed_at_utc : string;
  sg_severity : Severity;
  sg_correlation : Correlation;
  sg_attributes : list SignalAttribute;
  sg_measurements : list Measurement;
  sg_redaction_class : RedactionClass;
}.

Fixpoint strict_names (prior : option string) (values : list string) : bool :=
  match values with
  | [] => true
  | value :: rest =>
      if negb (valid_text value MAX_STRING_BYTES) || is_some_and (fun item => (value <=? item)%string) prior then false
      else strict_names (Some value) rest
  end.
Definition hex_id (value : string) (length : Z) : bool :=
  (str_len value =? length) && all_bytes (fun b => is_ascii_hexdigit b && negb (is_ascii_uppercase b)) value
  && negb (all_bytes (fun b => byte_code b =? 48) value).
Definition valid_correlation (value : Correlation) : bool :=
  if bool_decide (co_durable_position value = Some 0) then false
  else if is_some_and (fun v => negb (hex_id v 32)) (co_trace_id value) || is_some_and (fun v => negb (hex_id v 16)) (co_span_id value)
          || is_some_and (fun v => negb (hex_id v 16)) (co_parent_span_id value) then false
  else forallb (fun v => valid_text v SIGNAL_MAX_ID_BYTES)
         (omap id [co_session_id value; co_turn_id value; co_execution_id value; co_model_request_id value; co_tool_invocation_id value]).

Definition check_attribute (schema : SignalSchema) (attribute : SignalAttribute) : result AgentSignalErrorCode unit :=
  match assoc (at_name attribute) (ss_attributes schema) with
  | None => Err AttributeNotAllowed
  | Some category =>
      reject AttributeNotAllowed when
        negb (attribute_valid category (at_value attribute))
        || match at_value attribute with AttributeString value => negb (valid_text value MAX_STRING_BYTES) | _ => false end;
      Ok tt
  end.
Definition check_measurement (schema : SignalSchema) (measurement : Measurement) : result AgentSignalErrorCode unit :=
  match assoc (mm_name measurement) (ss_measurements schema) with
  | None => Err MeasurementInvalid
  | Some unit =>
      reject MeasurementInvalid when
        bool_decide (unit <> mm_unit measurement)
        || match mm_value measurement with
           | Unknown => negb (bool_decide (mm_unit measurement = Tokens)
                              && contains ["input_tokens"; "output_tokens"] (mm_name measurement))
           | Known _ => false
           end;
      Ok tt
  end.

Section signals.
Context `{Externals}.

Definition canonical_time (value : string) : bool := is_some (canonical_utc value).

Definition signal_validate (self : AgentSignal) : result AgentSignalErrorCode unit :=
  reject InvalidSignal when
    negb (sg_schema_version self =? 1) || negb (canonical_time (sg_observed_at_utc self))
    || negb (valid_correlation (sg_correlation self)) || negb (strict_names None (at_name <$> sg_attributes self))
    || negb (strict_names None (mm_name <$> sg_measurements self));
  reject AttributeLimitExceeded when
    (MAX_ATTRIBUTES <? Z.of_nat (length (sg_attributes self))) || (MAX_MEASUREMENTS <? Z.of_nat (length (sg_measurements self)));
  let? schema := ok_or (signal_schema (sg_signal_name self)) UnknownSignal in
  reject RedactionViolation when redaction_rank (sg_redaction_class self) <? redaction_rank (ss_minimum_redaction schema);
  try_for_each (check_attribute schema) (sg_attributes self) ?;
  try_for_each (check_measurement schema) (sg_measurements self).

Definition agent_signal_new (signal_name : string) (schema_version : Z) (observed_at_utc : string) (severity : Severity)
    (correlation : Correlation) (attributes : list SignalAttribute) (measurements : list Measurement) (redaction_class : RedactionClass)
    : result AgentSignalErrorCode AgentSignal :=
  let value := mkAgentSignal signal_name schema_version observed_at_utc severity correlation attributes measurements redaction_class in
  signal_validate value ?;
  Ok value.

(** The serialised signal. *)
Definition json_int (value : Z) : Value := Num (if value <? 0 then NegInt value else PosInt value).
Definition correlation_json (c : Correlation) : Value :=
  json_object (json_field "trace_id" Str (co_trace_id c) ++ json_field "span_id" Str (co_span_id c)
    ++ json_field "parent_span_id" Str (co_parent_span_id c) ++ json_field "session_id" Str (co_session_id c)
    ++ json_field "turn_id" Str (co_turn_id c) ++ json_field "execution_id" Str (co_execution_id c)
    ++ json_field "model_request_id" Str (co_model_request_id c) ++ json_field "tool_invocation_id" Str (co_tool_invocation_id c)
    ++ json_field "durable_position" json_nat (co_durable_position c)).
Definition attribute_json (a : SignalAttribute) : Value :=
  json_object [("name", Str (at_name a));
    ("value", match at_value a with
              | AttributeString value => json_object [("kind", Str "string"); ("value", Str value)]
              | AttributeBool value => json_object [("kind", Str "bool"); ("value", Json.Bool value)]
              | AttributeInteger value => json_object [("kind", Str "integer"); ("value", json_int value)]
              end)].
Definition measurement_json (v : Measurement) : Value :=
  json_object [("name", Str (mm_name v));
    ("value", match mm_value v with
              | Known value => json_object [("kind", Str "known"); ("value", json_nat value)]
              | Unknown => json_object [("kind", Str "unknown")]
              end);
    ("unit", Str (unit_name (mm_unit v)))].
Definition signal_json (s : AgentSignal) : Value :=
  json_object [("signal_name", Str (sg_signal_name s)); ("schema_version", json_nat (sg_schema_version s));
    ("observed_at_utc", Str (sg_observed_at_utc s)); ("severity", Str (severity_name (sg_severity s)));
    ("correlation", correlation_json (sg_correlation s)); ("attributes", Arr (attribute_json <$> sg_attributes s));
    ("measurements", Arr (measurement_json <$> sg_measurements s));
    ("redaction_class", Str (redaction_name (sg_redaction_class s)))].

Definition signal_binding `{Jcs} (self : AgentSignal) : result AgentSignalErrorCode SignalBinding :=
  let? bytes := ok_or (jcs (signal_json self)) InvalidSignal in
  let? inline_utf8 := ok_or (from_utf8 bytes) InvalidSignal in
  Ok (mkSignalBinding (sha256_hex inline_utf8) inline_utf8).
End signals.

(** ** What a signal can carry *)

Lemma strict_names_some values : forall prior,
  strict_names (Some prior) values = forallb (fun v => valid_text v MAX_STRING_BYTES) values && ordered_unique (prior :: values).
Proof.
  induction values as [|value rest IH]; intros prior; [done|]. cbn [strict_names forallb is_some_and].
  destruct (valid_text value MAX_STRING_BYTES); [|done]. cbn [negb orb andb]. rewrite IH.
  unfold ordered_unique. cbn [windows_any]. rewrite negb_orb.
  assert (negb (value <=? prior)%string = negb (match cmp prior value with Lt => false | _ => true end)) as Hc.
  { unfold String.leb. change (String.compare value prior) with (cmp value prior). rewrite (cmp_opp prior value).
    by destruct (cmp prior value). }
  destruct (value <=? prior)%string; rewrite <-Hc; cbn [negb]; [by rewrite andb_false_r|done].
Qed.
Lemma strict_names_ordered values :
  strict_names None values = forallb (fun v => valid_text v MAX_STRING_BYTES) values && ordered_unique values.
Proof.
  destruct values as [|value rest]; [done|]. cbn [strict_names forallb is_some_and].
  destruct (valid_text value MAX_STRING_BYTES); [|done]. cbn [negb orb andb]. by rewrite strict_names_some.
Qed.

Lemma assoc_of_elem {A} (l : list (string * A)) k a : NoDup l.*1 -> (k, a) ∈ l -> assoc k l = Some a.
Proof.
  induction l as [|[k' a'] l IH]; intros Hn Hin; [by apply elem_of_nil in Hin|]. cbn in Hn. apply list.NoDup_cons in Hn as [Hk Hn].
  cbn. apply elem_of_cons in Hin as [[= -> ->]|Hin]; [by rewrite String.eqb_refl|].
  destruct (String.eqb_spec k k') as [->|]; [|by apply IH]. destruct Hk. apply list_elem_of_fmap. by exists (k', a).
Qed.

(** The catalogue is closed: its names are the signal names in order, the fields of every schema are
    distinct, at most five and valid texts, and so are the values of every category. *)
Definition schemas : list SignalSchema := omap signal_schema SIGNAL_NAMES.
Definition schema_closed (s : SignalSchema) : bool :=
  all_distinct (ss_attributes s).*1 && all_distinct (ss_measurements s).*1
  && (length (ss_attributes s) <=? 5)%nat && (length (ss_measurements s) <=? 5)%nat
  && forallb (fun v => valid_text v MAX_STRING_BYTES) ((ss_attributes s).*1 ++ (ss_measurements s).*1)
  && forallb (fun category => forallb (fun v => valid_text v MAX_STRING_BYTES) (attribute_enum_values category)) (ss_attributes s).*2.

Lemma catalogue_closed : ss_name <$> schemas = SIGNAL_NAMES /\ forallb schema_closed schemas = true.
Proof. split; vm_compute; reflexivity. Qed.

Lemma signal_schema_closed name schema : signal_schema name = Some schema -> schema_closed schema = true /\ ss_name schema = name.
Proof.
  intros Hs. assert (name ∈ SIGNAL_NAMES) as Hin.
  { revert Hs. unfold signal_schema. destruct (schema_parts name) as [[[a m] r]|]; [|done]. cbn [mbind option_bind].
    destruct (List.find _ SIGNAL_NAMES) as [found|] eqn:Ef; [|done]. intros _.
    apply List.find_some in Ef as [Hf He]. apply String.eqb_eq in He as ->. by apply list_elem_of_In. }
  split.
  - destruct catalogue_closed as [_ Hc]. rewrite forallb_forall in Hc. apply Hc, list_elem_of_In.
    unfold schemas. apply list_elem_of_omap. by exists name.
  - revert Hs. unfold signal_schema. destruct (schema_parts name) as [[[a m] r]|]; [|done]. cbn [mbind option_bind].
    destruct (List.find _ SIGNAL_NAMES) as [found|] eqn:Ef; [|done]. intros [= <-].
    apply List.find_some in Ef as [_ He]. by apply String.eqb_eq in He.
Qed.

Definition attribute_admitted (schema : SignalSchema) (a : SignalAttribute) : Prop :=
  exists category, (at_name a, category) ∈ ss_attributes schema /\
    match at_value a with
    | AttributeBool _ => category = "bool"
    | AttributeString value => value ∈ attribute_enum_values category
    | AttributeInteger _ => False
    end.
Definition measurement_admitted (schema : SignalSchema) (v : Measurement) : Prop :=
  (mm_name v, mm_unit v) ∈ ss_measurements schema
  /\ (mm_value v = Unknown -> mm_unit v = Tokens /\ mm_name v ∈ ["input_tokens"; "output_tokens"]).

Lemma contains_elem l s : contains l s = true <-> s ∈ l.
Proof.
  unfold contains. rewrite existsb_exists, list_elem_of_In. split; [|by intros Hin; exists s; rewrite String.eqb_refl].
  intros (x & Hin & He). by apply String.eqb_eq in He as ->.
Qed.

Lemma check_attribute_ok schema a : schema_closed schema = true ->
  check_attribute schema a = Ok tt <-> attribute_admitted schema a.
Proof.
  intros Hc. unfold schema_closed in Hc. rewrite !andb_true_iff in Hc. destruct Hc as (((((Hd & _) & _) & _) & _) & Hv).
  apply bool_decide_eq_true in Hd. unfold check_attribute, attribute_admitted. split.
  - destruct (assoc _ _) as [category|] eqn:Ea; [|done]. apply assoc_elem in Ea. destruct (_ || _) eqn:Er; [done|]. intros _.
    exists category. split; [done|]. apply orb_false_iff in Er as [Er _]. apply negb_false_iff in Er.
    destruct (at_value a) as [value|value|value]; cbn in Er; [by apply contains_elem|by apply String.eqb_eq|done].
  - intros (category & Hin & Hval). rewrite (assoc_of_elem _ _ _ Hd Hin).
    assert (attribute_valid category (at_value a) = true) as ->.
    { destruct (at_value a); cbn; [by apply contains_elem|by subst|done]. }
    destruct (at_value a) as [value| |]; [|done..]. cbn.
    rewrite forallb_forall in Hv. specialize (Hv category). rewrite forallb_forall in Hv.
    rewrite Hv; [done|apply list_elem_of_In, list_elem_of_fmap; by exists (at_name a, category)|by apply list_elem_of_In].
Qed.

Lemma check_measurement_ok schema v : schema_closed schema = true ->
  check_measurement schema v = Ok tt <-> measurement_admitted schema v.
Proof.
  intros Hc. unfold schema_closed in Hc. rewrite !andb_true_iff in Hc. destruct Hc as (((((_ & Hd) & _) & _) & _) & _).
  apply bool_decide_eq_true in Hd. unfold check_measurement, measurement_admitted. split.
  - destruct (assoc _ _) as [unit|] eqn:Ea; [|done]. apply assoc_elem in Ea. destruct (_ || _) eqn:Er; [done|]. intros _.
    apply orb_false_iff in Er as [Eu Er]. apply bool_decide_eq_false, dec_stable in Eu. subst unit. split; [done|].
    intros Hu. rewrite Hu in Er. apply negb_false_iff, andb_true_iff in Er as [E1 E2]. apply bool_decide_eq_true in E1.
    by apply contains_elem in E2.
  - intros [Hin Hu]. rewrite (assoc_of_elem _ _ _ Hd Hin), bool_decide_false by (by intros []). cbn [orb].
    destruct (mm_value v) as [value|]; [done|]. destruct (Hu eq_refl) as [-> Hn]. by rewrite (proj2 (contains_elem _ _) Hn).
Qed.

Lemma names_within {A} (names : list string) (allowed : list (string * A)) : NoDup names ->
  (forall n, n ∈ names -> n ∈ allowed.*1) -> (length allowed <= 5)%nat -> (length names <= 5)%nat.
Proof.
  intros Hn Hin Hl. rewrite <-(length_fmap fst) in Hl. etransitivity; [|exact Hl].
  by apply submseteq_length, NoDup_submseteq.
Qed.

(** What the constructor admits. *)
Definition signal_conforms `{Externals} (self : AgentSignal) : Prop :=
  sg_schema_version self = 1 /\ canonical_time (sg_observed_at_utc self) = true /\ valid_correlation (sg_correlation self) = true
  /\ StronglySorted (fun a b => cmp a b = Lt) (at_name <$> sg_attributes self)
  /\ StronglySorted (fun a b => cmp a b = Lt) (mm_name <$> sg_measurements self)
  /\ exists schema, signal_schema (sg_signal_name self) = Some schema
       /\ redaction_rank (ss_minimum_redaction schema) <= redaction_rank (sg_redaction_class self)
       /\ Forall (attribute_admitted schema) (sg_attributes self)
       /\ Forall (measurement_admitted schema) (sg_measurements self).

Section conformance.
Context `{Externals}.

Lemma admitted_names schema attributes measurements :
  Forall (attribute_admitted schema) attributes -> Forall (measurement_admitted schema) measurements ->
  (forall n, n ∈ at_name <$> attributes -> n ∈ (ss_attributes schema).*1)
  /\ (forall n, n ∈ mm_name <$> measurements -> n ∈ (ss_measurements schema).*1).
Proof.
  rewrite !Forall_forall. intros Ha Hm. split; intros n (x & -> & Hx)%list_elem_of_fmap; apply list_elem_of_fmap.
  - destruct (Ha x Hx) as (category & Hin & _). by exists (at_name x, category).
  - destruct (Hm x Hx) as [Hin _]. by exists (mm_name x, mm_unit x).
Qed.

Lemma valid_names names (allowed : list string) : forallb (fun v => valid_text v MAX_STRING_BYTES) allowed = true ->
  (forall n, n ∈ names -> n ∈ allowed) -> forallb (fun v => valid_text v MAX_STRING_BYTES) names = true.
Proof.
  rewrite !forallb_forall. intros Ha Hin n Hn. by apply Ha, list_elem_of_In, Hin, list_elem_of_In.
Qed.

(** The schema decides: within it the bounds on texts and counts hold of themselves. *)
Lemma schema_suffices schema attributes measurements : schema_closed schema = true ->
  ordered_unique (at_name <$> attributes) = true -> ordered_unique (mm_name <$> measurements) = true ->
  Forall (attribute_admitted schema) attributes -> Forall (measurement_admitted schema) measurements ->
  forallb (fun v => valid_text v MAX_STRING_BYTES) (at_name <$> attributes) = true
  /\ forallb (fun v => valid_text v MAX_STRING_BYTES) (mm_name <$> measurements) = true
  /\ (length attributes <= 5)%nat /\ (length measurements <= 5)%nat.
Proof.
  intros Hc Oa Om Ha Hm. destruct (admitted_names schema attributes measurements Ha Hm) as [Na Nm].
  unfold schema_closed in Hc. rewrite !andb_true_iff, forallb_app, andb_true_iff, !Nat.leb_le in Hc.
  destruct Hc as (((((_ & _) & La) & Lm) & Va & Vm) & _). split_and!.
  - exact (valid_names _ _ Va Na).
  - exact (valid_names _ _ Vm Nm).
  - rewrite <-(length_fmap at_name). eapply names_within; [by apply ordered_unique_nodup|exact Na|exact La].
  - rewrite <-(length_fmap mm_name). eapply names_within; [by apply ordered_unique_nodup|exact Nm|exact Lm].
Qed.

Lemma signal_validate_exact self : signal_validate self = Ok tt <-> signal_conforms self.
Proof.
  unfold signal_validate, signal_conforms. rewrite !strict_names_ordered, <-!ordered_unique_sorted. split.
  - destruct (_ || _) eqn:E1; [done|]. destruct (_ || _) eqn:E2 in |- *; [done|].
    destruct (signal_schema _) as [schema|] eqn:Es; [|done]. cbn [ok_or]. destruct (redaction_rank _ <? _) eqn:E3; [done|].
    destruct (signal_schema_closed _ _ Es) as [Hc _].
    destruct (try_for_each (check_attribute schema) _) as [[]|] eqn:Ea; [|done]. intros Em.
    rewrite !orb_false_iff, !negb_false_iff, !andb_true_iff in E1. destruct E1 as ((((Hv & Ht) & Hco) & _ & Oa) & _ & Om).
    apply try_for_each_forall in Ea, Em. split_and!; try done; [lia|]. exists schema. split_and!; [done|lia| |].
    + eapply Forall_impl; [exact Ea|]. intros a. by apply check_attribute_ok.
    + eapply Forall_impl; [exact Em|]. intros v. by apply check_measurement_ok.
  - intros (Hv & Ht & Hco & Oa & Om & schema & Es & Hr & Ha & Hm). destruct (signal_schema_closed _ _ Es) as [Hc _].
    destruct (schema_suffices schema _ _ Hc Oa Om Ha Hm) as (V1 & V2 & L1 & L2).
    rewrite Hv, Ht, Hco, Oa, Om, V1, V2, Es. cbn [negb andb orb ok_or Z.eqb Pos.eqb].
    rewrite !(proj2 (Z.ltb_ge _ _)) by (unfold MAX_ATTRIBUTES, MAX_MEASUREMENTS; lia). cbn [orb].
    assert (try_for_each (check_attribute schema) (sg_attributes self) = Ok tt) as ->.
    { apply try_for_each_forall. eapply Forall_impl; [exact Ha|]. intros a. by apply check_attribute_ok. }
    apply try_for_each_forall. eapply Forall_impl; [exact Hm|]. intros v. by apply check_measurement_ok.
Qed.

(** A signal exists exactly when its version is one, its time canonical, its correlation valid, its names
    strictly increasing, and its schema admits its redaction class, every attribute and every
    measurement: a text it carries is one of the values of the catalogue. *)
Theorem signal_carries_only_catalogue name version time severity correlation attributes measurements redaction signal :
  let candidate := mkAgentSignal name version time severity correlation attributes measurements redaction in
  agent_signal_new name version time severity correlation attributes measurements redaction = Ok signal <->
  signal = candidate /\ signal_conforms candidate.
Proof.
  cbn zeta. unfold agent_signal_new. rewrite <-signal_validate_exact.
  destruct (signal_validate _) as [[]|] eqn:Ev; split; [by intros [= <-]|by intros [-> _]|done|by intros [_ ?]].
Qed.
End conformance.
