(* ===== verification/Sse.v ===== *)
(** * Server-sent events ([adapters/openai-responses/src/sse.rs], [adapters/anthropic-messages/src/sse.rs])

    The framer both model adapters carry, which differ in the error type alone: the
    decoder buffers bytes, cuts them at blank lines and reads each cut as a frame.
    The theorems relate it to a printer of frames, however the printed bytes arrive. *)

From Stdlib Require Import DecimalString DecimalN DecimalFacts.
From S2P Require Import Prelude Text Json JsonDecode.

Record SseFrame := mkSseFrame {
  sf_event : option string;
  sf_data : string;
  sf_id : option string;
  sf_retry : option Z;
}.
Record SseDecoder := mkSseDecoder { sd_buffer : string }.
Definition sse_new : SseDecoder := mkSseDecoder "".

(** ** Bytes *)

Definition nul : ascii := ascii_of_N 0.
Definition lf_lf : string := utf8 [10; 10].
Definition crlf_crlf : string := utf8 [13; 10; 13; 10].

(** [windows(n).position(..)] for the [n] bytes of the needle. *)
Fixpoint find_bytes (needle s : string) : option nat :=
  if starts_with needle s then Some O
  else match s with EmptyString => None | String _ s => S <$> find_bytes needle s end.

Fixpoint str_take (n : nat) (s : string) : string :=
  match n, s with S n, String c s => String c (str_take n s) | _, _ => "" end.
Fixpoint str_drop (n : nat) (s : string) : string :=
  match n, s with S n, String _ s => str_drop n s | _, _ => s end.

Definition frame_boundary (bytes : string) : option (nat * nat) :=
  match find_bytes lf_lf bytes, find_bytes crlf_crlf bytes with
  | Some lf, Some crlf => if (lf <=? crlf)%nat then Some (lf, 2%nat) else Some (crlf, 4%nat)
  | Some lf, None => Some (lf, 2%nat)
  | None, Some crlf => Some (crlf, 4%nat)
  | None, None => None
  end.

(** [str::parse::<u64>]: an optional plus sign and decimal digits that fit. *)
Fixpoint digits_value (acc : Z) (s : string) : Z :=
  match s with EmptyString => acc | String c s => digits_value (acc * 10 + (byte_code c - 48)) s end.
Definition parse_u64 (s : string) : option Z :=
  let digits := default s (strip_prefix "+" s) in
  if str_is_empty digits || negb (all_bytes is_ascii_digit digits) then None
  else u64_try_from (digits_value 0 digits).

(** [trim().is_empty()]: only white space; [skip] counts the bytes left of the
    character being passed. *)
Fixpoint blank_from (skip : nat) (s : string) : bool :=
  match s with
  | EmptyString => true
  | String _ rest =>
      match skip with
      | S skip => blank_from skip rest
      | O => match List.find (fun space => starts_with space s) white_space with
             | Some space => blank_from (pred (String.length space)) rest
             | None => false
             end
      end
  end.

(** ** Frames *)

Section framer.
Context {E : Type} (InvalidSse TruncatedStream : E).

(** The four locals of [parse_frame], with [data] as the vector of its lines. *)
Record FrameFields := mkFields {
  ff_event : option string;
  ff_data : list string;
  ff_id : option string;
  ff_retry : option Z;
}.
Definition no_fields : FrameFields := mkFields None [] None None.

Definition field_of (line : string) : string * string :=
  match split_once colon line with
  | Some (field, value) => (field, default value (strip_prefix " " value))
  | None => (line, "")
  end.

(** The body of the loop over the lines. *)
Definition parse_line (self : FrameFields) (raw_line : string) : result E FrameFields :=
  let line := default raw_line (strip_suffix (String return_ "") raw_line) in
  if str_is_empty line || starts_with (String colon "") line then Ok self
  else
    let '(field, value) := field_of line in
    if (field =? "event")%string then
      Ok (mkFields (Some value) (ff_data self) (ff_id self) (ff_retry self))
    else if (field =? "data")%string then
      Ok (mkFields (ff_event self) (ff_data self ++ [value]) (ff_id self) (ff_retry self))
    else if (field =? "id")%string && negb (contains_byte nul value) then
      Ok (mkFields (ff_event self) (ff_data self) (Some value) (ff_retry self))
    else if (field =? "retry")%string then
      let? retry := ok_or (parse_u64 value) InvalidSse in
      Ok (mkFields (ff_event self) (ff_data self) (ff_id self) (Some retry))
    else Ok self.

Definition parse_frame (bytes : string) : result E (option SseFrame) :=
  let? text := ok_or (from_utf8 bytes) InvalidSse in
  let? fields := try_fold parse_line no_fields (split_byte newline text) in
  match ff_data fields with
  | [] => Ok None
  | data => Ok (Some (mkSseFrame (ff_event fields) (join_byte newline data) (ff_id fields) (ff_retry fields)))
  end.

(** The loop of [push]: the frames it collects, and the buffer it leaves behind on
    every exit.  Each turn drops at least the delimiter, so the length of the buffer
    is enough fuel. *)
Fixpoint drain (fuel : nat) (buffer : string) (frames : list SseFrame)
    : result E (list SseFrame) * string :=
  match fuel with
  | O => (Ok frames, buffer)
  | S fuel =>
      match frame_boundary buffer with
      | None => (Ok frames, buffer)
      | Some (stop, delimiter_length) =>
          let frame_bytes := str_take stop buffer in
          let buffer := str_drop (stop + delimiter_length) buffer in
          match parse_frame frame_bytes with
          | Err e => (Err e, buffer)
          | Ok (Some frame) => drain fuel buffer (frames ++ [frame])
          | Ok None => drain fuel buffer frames
          end
      end
  end.

Definition push (self : SseDecoder) (bytes : string) : result E (list SseFrame) * SseDecoder :=
  let buffer := sd_buffer self +:+ bytes in
  let '(frames, buffer) := drain (String.length buffer) buffer [] in
  (frames, mkSseDecoder buffer).

Definition finish (self : SseDecoder) : result E unit * SseDecoder :=
  let trailing_comments :=
    match from_utf8 (sd_buffer self) with
    | Some text => forallb (fun line => blank_from 0 line || starts_with (String colon "") line) (lines text)
    | None => false
    end in
  if trailing_comments then (Ok tt, mkSseDecoder "") else (Err TruncatedStream, self).

(** A whole exchange: the chunks in order, up to the first failure, and the end. *)
Fixpoint feed (self : SseDecoder) (chunks : list string) : result E (list SseFrame * SseDecoder) :=
  match chunks with
  | [] => Ok ([], self)
  | chunk :: chunks =>
      match push self chunk with
      | (Ok frames, self) => let? (more, self) := feed self chunks in Ok (frames ++ more, self)
      | (Err e, _) => Err e
      end
  end.
End framer.

(** ** Boundaries *)

Definition bump (b : option (nat * nat)) : option (nat * nat) :=
  (fun p => (S p.1, p.2)) <$> b.

Lemma find_bytes_eq needle s : find_bytes needle s =
  if starts_with needle s then Some O
  else match s with EmptyString => None | String _ s => S <$> find_bytes needle s end.
Proof. by destruct s. Qed.

Lemma starts_crlf_lf s : starts_with crlf_crlf s = true -> starts_with lf_lf s = false.
Proof. by intros [t ->]%starts_with_app. Qed.

Lemma frame_boundary_eq s : frame_boundary s =
  if starts_with lf_lf s then Some (0, 2)%nat
  else if starts_with crlf_crlf s then Some (0, 4)%nat
  else match s with EmptyString => None | String _ s => bump (frame_boundary s) end.
Proof.
  unfold frame_boundary at 1. rewrite (find_bytes_eq lf_lf), (find_bytes_eq crlf_crlf).
  destruct (starts_with lf_lf s) eqn:El.
  { destruct (starts_with crlf_crlf s); [done|]. destruct s as [|c s]; [done|]. by destruct (find_bytes crlf_crlf s). }
  destruct (starts_with crlf_crlf s) eqn:Ec.
  { destruct s as [|c s]; [done|]. by destruct (find_bytes lf_lf s). }
  destruct s as [|c s]; [done|]. unfold frame_boundary.
  destruct (find_bytes lf_lf s) as [l|], (find_bytes crlf_crlf s) as [r|]; simpl; try done.
  by destruct (l <=? r)%nat.
Qed.

Lemma starts_with_app_false p s t : (String.length p <= String.length s)%nat ->
  starts_with p (s +:+ t) = starts_with p s.
Proof.
  revert s. induction p as [|c p IH]; intros [|d s] Hl; simpl in *; try done; try lia.
  rewrite IH by lia. done.
Qed.

Lemma frame_boundary_long s b : frame_boundary s = Some b ->
  (b.2 = 2 /\ b.1 + 2 <= String.length s \/ b.2 = 4 /\ b.1 + 4 <= String.length s)%nat.
Proof.
  revert b. induction s as [|c s IH]; intros b; rewrite frame_boundary_eq.
  { done. }
  destruct (starts_with lf_lf _) eqn:El.
  { intros [= <-]. left. apply starts_with_app in El as [t ->]. simpl. lia. }
  destruct (starts_with crlf_crlf _) eqn:Ec.
  { intros [= <-]. right. apply starts_with_app in Ec as [t ->]. simpl. lia. }
  destruct (frame_boundary s) as [b'|]; [|done]. simpl. intros [= <-]. specialize (IH _ eq_refl). simpl. lia.
Qed.

Lemma frame_boundary_app s t b : frame_boundary s = Some b -> frame_boundary (s +:+ t) = Some b.
Proof.
  revert b. induction s as [|c s IH]; intros b; rewrite frame_boundary_eq; [done|].
  destruct (starts_with lf_lf (String c s)) eqn:El.
  { intros [= <-]. rewrite frame_boundary_eq, starts_with_app_false, El; [done|].
    apply starts_with_app in El as [u ->]. simpl. lia. }
  destruct (starts_with crlf_crlf (String c s)) eqn:Ec.
  { intros [= <-]. rewrite frame_boundary_eq.
    assert (Hc : starts_with crlf_crlf (String c s +:+ t) = true).
    { apply starts_with_app in Ec as [u ->]. done. }
    by rewrite (starts_crlf_lf _ Hc), Hc. }
  destruct (frame_boundary s) as [b'|] eqn:Eb; [|done]. simpl. intros [= <-].
  pose proof (frame_boundary_long _ _ Eb) as Hlen. rewrite frame_boundary_eq.
  rewrite starts_with_app_false, El by (simpl; lia).
  assert (Hc : starts_with crlf_crlf (String c s +:+ t) = false).
  { destruct (decide (4 <= S (String.length s))%nat) as [Hl|Hl].
    - rewrite starts_with_app_false, Ec; [done|]. simpl; lia.
    - assert (Hs : starts_with lf_lf s = true).
      { rewrite frame_boundary_eq in Eb. destruct (starts_with lf_lf s) eqn:E; [done|]. exfalso.
        destruct (starts_with crlf_crlf s) eqn:E'; [apply starts_with_app in E' as [u ->]; simpl in Hl; lia|].
        destruct s as [|x s]; [done|]. destruct (frame_boundary s) as [b''|] eqn:Es; [|done].
        apply frame_boundary_long in Es. simpl in Hl. lia. }
      apply starts_with_app in Hs as [u ->]. apply not_true_iff_false. intros [v Hv]%starts_with_app. done. }
  rewrite Hc. simpl. by rewrite (IH _ eq_refl).
Qed.

Lemma str_take_drop n s : str_take n s +:+ str_drop n s = s.
Proof. revert s. induction n as [|n IH]; intros [|c s]; cbn [str_take str_drop]; [done..|]. by rewrite str_app_cons, IH. Qed.
Lemma str_drop_length n s : String.length (str_drop n s) = (String.length s - n)%nat.
Proof. revert s. induction n as [|n IH]; intros [|c s]; simpl; try done. Qed.
Lemma str_take_app n s t : (n <= String.length s)%nat -> str_take n (s +:+ t) = str_take n s.
Proof. revert s. induction n as [|n IH]; intros [|c s] H; simpl in H; [done..|lia|]. rewrite str_app_cons. cbn [str_take str_drop]. by rewrite IH by lia. Qed.
Lemma str_drop_app n s t : (n <= String.length s)%nat -> str_drop n (s +:+ t) = str_drop n s +:+ t.
Proof. revert s. induction n as [|n IH]; intros [|c s] H; simpl in H; [done..|lia|]. rewrite str_app_cons. cbn [str_take str_drop]. by rewrite IH by lia. Qed.

Lemma str_take_exact s t : str_take (String.length s) (s +:+ t) = s.
Proof. induction s as [|c s IH]; [by destruct t|]. rewrite str_app_cons. cbn [String.length str_take]. by rewrite IH. Qed.
Lemma str_drop_exact s t : str_drop (String.length s + 2) (s +:+ lf_lf +:+ t) = t.
Proof. induction s as [|c s IH]; [by rewrite str_app_empty; destruct t|]. rewrite str_app_cons. exact IH. Qed.

Section chunks.
Context {E : Type} (InvalidSse : E).

(** The frames are only prepended; more fuel than bytes changes nothing. *)
Lemma drain_frames fuel buffer frames :
  drain InvalidSse fuel buffer frames =
  let '(more, rest) := drain InvalidSse fuel buffer [] in
  (let? more := more in Ok (frames ++ more), rest).
Proof.
  revert buffer frames. induction fuel as [|fuel IH]; intros buffer frames; simpl.
  { by rewrite app_nil_r. }
  destruct (frame_boundary buffer) as [[e d]|]; [|by rewrite app_nil_r].
  destruct (parse_frame _ _) as [[f|]|]; [| |done].
  - rewrite IH, (IH _ [f]). destruct (drain _ _ _ _) as [[more|] rest]; [|done]. by rewrite <-app_assoc.
  - apply IH.
Qed.

(** One turn of the loop, for any amount of fuel that covers the buffer. *)
Lemma drain_fuel fuel buffer frames : (String.length buffer <= fuel)%nat ->
  drain InvalidSse fuel buffer frames = drain InvalidSse (String.length buffer) buffer frames.
Proof.
  remember (String.length buffer) as n eqn:En. revert fuel buffer frames En.
  induction (lt_wf n) as [n _ IH]. intros fuel buffer frames -> Hle.
  destruct fuel as [|fuel]; [by replace (String.length buffer) with O by lia|].
  destruct (String.length buffer) as [|len] eqn:El; simpl.
  { destruct buffer; done. }
  destruct (frame_boundary buffer) as [[e d]|] eqn:Eb; [|done].
  apply frame_boundary_long in Eb as Hlong; simpl in Hlong.
  assert (Hd : (String.length (str_drop (e + d) buffer) <= len)%nat) by (rewrite str_drop_length; lia).
  destruct (parse_frame _ _) as [[f|]|]; [..|done].
  all: rewrite (IH (String.length (str_drop (e + d) buffer)) ltac:(lia) fuel), (IH (String.length (str_drop (e + d) buffer)) ltac:(lia) len) by (done || lia); done.
Qed.

Definition run (buffer : string) : result E (list SseFrame) * string :=
  drain InvalidSse (String.length buffer) buffer [].

Lemma run_eq buffer : run buffer =
  match frame_boundary buffer with
  | None => (Ok [], buffer)
  | Some (stop, delimiter_length) =>
      let rest := str_drop (stop + delimiter_length) buffer in
      match parse_frame InvalidSse (str_take stop buffer) with
      | Err e => (Err e, rest)
      | Ok frame => let '(more, kept) := run rest in
          (let? more := more in Ok (option_list frame ++ more), kept)
      end
  end.
Proof.
  unfold run. destruct (String.length buffer) as [|n] eqn:En.
  { by destruct buffer. }
  simpl. destruct (frame_boundary buffer) as [[e d]|] eqn:Eb; [|done].
  apply frame_boundary_long in Eb; simpl in Eb.
  destruct (parse_frame _ _) as [[f|]|]; [..|done];
    rewrite drain_fuel by (rewrite str_drop_length; lia); [by rewrite drain_frames|].
  by destruct (drain _ _ _ _) as [[]].
Qed.

(** Bytes that arrive later only extend what the loop leaves behind. *)
Lemma run_app s t : run (s +:+ t) =
  match run s with
  | (Ok frames, rest) => let '(more, kept) := run (rest +:+ t) in (let? more := more in Ok (frames ++ more), kept)
  | (Err e, rest) => (Err e, rest +:+ t)
  end.
Proof.
  remember (String.length s) as n eqn:En. revert s En. induction (lt_wf n) as [n _ IH]. intros s ->.
  rewrite (run_eq s). destruct (frame_boundary s) as [[e d]|] eqn:Eb.
  - rewrite (run_eq (s +:+ t)), (frame_boundary_app _ _ _ Eb).
    apply frame_boundary_long in Eb; simpl in Eb. simpl.
    rewrite str_take_app, str_drop_app by lia.
    destruct (parse_frame _ _) as [f|err]; [|done].
    rewrite (IH (String.length (str_drop (e + d) s))) by (done || rewrite str_drop_length; lia).
    destruct (run (str_drop (e + d) s)) as [[more|err] rest]; [|done].
    destruct (run (rest +:+ t)) as [[more'|] kept]; [|done]. by rewrite app_assoc.
  - by destruct (run (s +:+ t)) as [[more|] kept].
Qed.

Lemma push_run self bytes :
  push InvalidSse self bytes = let '(frames, rest) := run (sd_buffer self +:+ bytes) in (frames, mkSseDecoder rest).
Proof. done. Qed.

Lemma run_idle s frames rest : run s = (Ok frames, rest) -> frame_boundary rest = None.
Proof.
  remember (String.length s) as n eqn:En. revert s frames En. induction (lt_wf n) as [n _ IH]. intros s frames ->.
  rewrite run_eq. destruct (frame_boundary s) as [[e d]|] eqn:Eb; [|by intros [= _ <-]].
  apply frame_boundary_long in Eb; simpl in Eb.
  destruct (parse_frame _ _) as [f|err]; [|done].
  simpl. destruct (run (str_drop (e + d) s)) as [[more|] kept] eqn:Er; [|done]. simpl. intros [= _ <-].
  eapply (IH (String.length (str_drop (e + d) s))); [rewrite str_drop_length; lia|done|done].
Qed.

(** Feeding chunks is running the loop once on their concatenation. *)
Lemma feed_concat self chunks : frame_boundary (sd_buffer self) = None ->
  feed InvalidSse self chunks =
  match run (sd_buffer self +:+ String.concat "" chunks) with
  | (Ok frames, rest) => Ok (frames, mkSseDecoder rest)
  | (Err e, _) => Err e
  end.
Proof.
  revert self. induction chunks as [|chunk chunks IH]; intros [buffer] Hidle; simpl in *.
  { by rewrite str_app_nil, run_eq, Hidle. }
  assert (Hc : String.concat "" (chunk :: chunks) = chunk +:+ String.concat "" chunks).
  { destruct chunks; simpl; [by rewrite str_app_nil|done]. }
  simpl in Hc. rewrite Hc. rewrite push_run, <-str_app_assoc, (run_app (buffer +:+ chunk)).
  simpl. destruct (run (buffer +:+ chunk)) as [[frames|err] rest] eqn:Er; [|done].
  rewrite IH by (simpl; by eapply run_idle). simpl.
  destruct (run (rest +:+ _)) as [[more|] kept]; done.
Qed.
End chunks.

(** ** Printed frames *)

Lemma digits_value_acc d acc : digits_value (Zpos acc) (NilEmpty.string_of_uint d) = Zpos (Pos.of_uint_acc d acc).
Proof.
  revert acc. induction d as [|d IH|d IH|d IH|d IH|d IH|d IH|d IH|d IH|d IH|d IH]; intros acc; [done|..];
    cbn [NilEmpty.string_of_uint digits_value Pos.of_uint_acc]; rewrite <-IH; f_equal; vm_compute byte_code; lia.
Qed.
Lemma digits_value_uint d : digits_value 0 (NilEmpty.string_of_uint d) = Z.of_N (Pos.of_uint d).
Proof.
  induction d as [|d IH|d IH|d IH|d IH|d IH|d IH|d IH|d IH|d IH|d IH]; [done|exact IH|..];
    cbn [NilEmpty.string_of_uint digits_value Pos.of_uint]; apply (digits_value_acc d).
Qed.
Lemma digits_uint d : all_bytes is_ascii_digit (NilEmpty.string_of_uint d) = true.
Proof. by induction d. Qed.

Lemma parse_u64_to_string n : is_u64 n -> parse_u64 (nat_to_string n) = Some n.
Proof.
  intros Hn. unfold parse_u64, nat_to_string.
  pose proof (to_uint_nonnil (Z.to_N n)) as Hd. rewrite string_of_uint_nonnil by done.
  set (d := N.to_uint (Z.to_N n)) in *.
  assert (Hp : strip_prefix "+" (NilEmpty.string_of_uint d) = None) by (by destruct d).
  rewrite Hp. cbn [default from_option]. rewrite digits_uint, digits_value_uint.
  assert (Hz : Z.of_N (Pos.of_uint d) = n).
  { change (Pos.of_uint d) with (N.of_uint d). unfold d. rewrite DecimalN.Unsigned.of_to. unfold is_u64 in Hn. lia. }
  rewrite Hz. unfold u64_try_from. rewrite orb_false_r.
  assert (str_is_empty (NilEmpty.string_of_uint d) = false) as -> by (by destruct d).
  by apply checked_u64_some.
Qed.

Definition shift (n : nat) (b : option (nat * nat)) : option (nat * nat) := (fun p => (n + p.1, p.2)%nat) <$> b.

(** No boundary lies inside a line, nor at its end unless an empty line follows. *)
Lemma frame_boundary_line line t : one_line line ->
  frame_boundary (line +:+ String newline t) = shift (String.length line) (frame_boundary (String newline t)).
Proof.
  induction line as [|c line IH]; intros [Hn Hr].
  { rewrite str_app_empty. by destruct (frame_boundary _) as [[]|]. }
  change (Ascii.eqb newline c || contains_byte newline line = false) in Hn. apply orb_false_iff in Hn as [Hc Hn].
  rewrite ends_with_byte_cons in Hr.
  assert (Hr' : ends_with_byte return_ line = false) by (destruct line; [done|exact Hr]).
  rewrite str_app_cons, frame_boundary_eq, IH by done.
  assert (starts_with lf_lf (String c (line +:+ String newline t)) = false) as ->.
  { change (Ascii.eqb newline c && starts_with (String newline "") (line +:+ String newline t) = false). by rewrite Hc. }
  assert (starts_with crlf_crlf (String c (line +:+ String newline t)) = false) as ->.
  { change (Ascii.eqb return_ c && starts_with (utf8 [10; 13; 10]) (line +:+ String newline t) = false).
    destruct line as [|e line]; [change (Ascii.eqb c return_ = false) in Hr; by rewrite Ascii.eqb_sym, Hr|].
    rewrite str_app_cons. change (contains_byte newline (String e line)) with (Ascii.eqb newline e || contains_byte newline line) in Hn.
    apply orb_false_iff in Hn as [He _].
    change (Ascii.eqb return_ c && (Ascii.eqb newline e && starts_with (utf8 [13; 10]) (line +:+ String newline t)) = false).
    rewrite He. apply andb_false_r. }
  by destruct (frame_boundary (String newline t)) as [[]|].
Qed.

Lemma frame_boundary_lines ls rest : ls <> [] -> Forall (fun l => one_line l /\ l <> "") ls ->
  frame_boundary (join_byte newline ls +:+ lf_lf +:+ rest) = Some (String.length (join_byte newline ls), 2%nat).
Proof.
  intros Hne H. induction H as [|line ls [Hl _] H IH]; [done|]. destruct ls as [|next ls].
  { simpl join_byte. change (lf_lf +:+ rest) with (String newline (String newline rest)).
    rewrite frame_boundary_line by done. rewrite frame_boundary_eq. simpl. do 2 f_equal. lia. }
  rewrite join_byte_cons. rewrite str_app_assoc, str_app_cons. rewrite frame_boundary_line by done.
  rewrite frame_boundary_eq. specialize (IH ltac:(done)).
  assert (Hnext : exists e s, join_byte newline (next :: ls) +:+ lf_lf +:+ rest = String e s /\ Ascii.eqb newline e = false).
  { apply Forall_cons in H as [[[Hn _] Hne'] _]. destruct next as [|e next]; [done|].
    change (Ascii.eqb newline e || contains_byte newline next = false) in Hn. apply orb_false_iff in Hn as [He _].
    exists e. rewrite join_byte_head, str_app_cons. eauto. }
  destruct Hnext as (e & s & Heq & He). rewrite Heq in *.
  assert (starts_with lf_lf (String newline (String e s)) = false) as ->.
  { change (Ascii.eqb newline newline && (Ascii.eqb newline e && true) = false). by rewrite He. }
  assert (starts_with crlf_crlf (String newline (String e s)) = false) as -> by done.
  rewrite IH. simpl. do 2 f_equal. rewrite str_length_app. simpl. lia.
Qed.

(** The lines a frame is printed as, each field in the form "name: value". *)
Definition frame_lines (f : SseFrame) : list string :=
  option_list (String.append "event: " <$> sf_event f)
  ++ (String.append "data: " <$> split_byte newline (sf_data f))
  ++ option_list (String.append "id: " <$> sf_id f)
  ++ option_list ((fun n => "retry: " +:+ nat_to_string n) <$> sf_retry f).

Definition print_frame (f : SseFrame) : string := join_byte newline (frame_lines f) +:+ lf_lf.
Definition print_frames (frames : list SseFrame) : string := String.concat "" (print_frame <$> frames).

Lemma one_lines_check ls :
  forallb (fun l => negb (contains_byte newline l) && negb (ends_with_byte return_ l)) ls = true -> Forall one_line ls.
Proof.
  induction ls as [|l ls IH]; intros H; [by apply List.Forall_nil|]. apply andb_true_iff in H as [H1 H2]. bool_hyps.
  apply Forall_cons. split; [by split|by apply IH].
Qed.

(** A frame that has a printed form: texts of one line, an identifier without the
    null character, a retry time of 64 bits. *)
Record printable (f : SseFrame) : Prop := {
  pr_utf8 : utf8_valid (join_byte newline (frame_lines f)) = true;
  pr_lines : Forall one_line (frame_lines f);
  pr_id id : sf_id f = Some id -> contains_byte nul id = false;
  pr_retry n : sf_retry f = Some n -> is_u64 n;
}.

Lemma frame_lines_nonempty f : Forall (fun l => l <> "") (frame_lines f).
Proof.
  assert (Ho : forall p (o : option string), p <> "" -> Forall (fun l => l <> "") (option_list (String.append p <$> o))).
  { intros p [v|] Hp; simpl; [|by apply List.Forall_nil]. apply Forall_singleton. by destruct p. }
  unfold frame_lines. rewrite !Forall_app. split; [by apply Ho|]. split; [|split; [by apply Ho|]].
  - apply Forall_fmap, Forall_true. done.
  - destruct (sf_retry f); simpl; [by apply Forall_singleton|by apply List.Forall_nil].
Qed.

Lemma concat_cons x l : String.concat "" (x :: l) = x +:+ String.concat "" l.
Proof. destruct l; simpl; [by rewrite str_app_nil|done]. Qed.

Section printed.
Context {E : Type} (InvalidSse : E).

Lemma parse_line_field name value self : name <> "" -> contains_byte colon name = false ->
  one_line (name +:+ ": " +:+ value) ->
  parse_line InvalidSse self (name +:+ ": " +:+ value) =
    if (name =? "event")%string then
      Ok (mkFields (Some value) (ff_data self) (ff_id self) (ff_retry self))
    else if (name =? "data")%string then
      Ok (mkFields (ff_event self) (ff_data self ++ [value]) (ff_id self) (ff_retry self))
    else if (name =? "id")%string && negb (contains_byte nul value) then
      Ok (mkFields (ff_event self) (ff_data self) (Some value) (ff_retry self))
    else if (name =? "retry")%string then
      let? retry := ok_or (parse_u64 value) InvalidSse in
      Ok (mkFields (ff_event self) (ff_data self) (ff_id self) (Some retry))
    else Ok self.
Proof.
  intros Hne Hc [_ Hr]. unfold parse_line, ends_with_byte in *.
  destruct (strip_suffix _ _); [done|]. cbn [default from_option].
  assert (str_is_empty (name +:+ ": " +:+ value) = false) as -> by (by destruct name).
  assert (starts_with (String colon "") (name +:+ ": " +:+ value) = false) as ->.
  { destruct name as [|c name]; [done|]. change (Ascii.eqb colon c || contains_byte colon name = false) in Hc.
    apply orb_false_iff in Hc as [Hc _]. change (Ascii.eqb colon c && true = false). by rewrite Hc. }
  unfold field_of. change (": " +:+ value) with (String colon (" " +:+ value)).
  by rewrite split_once_skip.
Qed.

Lemma parse_data parts self : Forall one_line (String.append "data: " <$> parts) ->
  try_fold (parse_line InvalidSse) self (String.append "data: " <$> parts) =
  Ok (mkFields (ff_event self) (ff_data self ++ parts) (ff_id self) (ff_retry self)).
Proof.
  revert self. induction parts as [|part parts IH]; intros self H; cbn [fmap list_fmap try_fold] in *.
  { rewrite app_nil_r. by destruct self. }
  apply Forall_cons in H as [H1 H]. rewrite (parse_line_field "data" part) by done. simpl.
  rewrite IH by done. simpl. by rewrite <-app_assoc.
Qed.

Lemma parse_printed f : printable f ->
  parse_frame InvalidSse (join_byte newline (frame_lines f)) = Ok (Some f).
Proof.
  intros [Hu Hl Hid Hre]. unfold parse_frame, from_utf8. rewrite Hu. cbn [ok_or].
  destruct (split_byte_cons newline (sf_data f)) as (part & parts & Hs).
  rewrite split_join.
  2: { unfold frame_lines. rewrite Hs. by destruct (sf_event f). }
  2: { eapply Forall_impl; [exact Hl|]. by intros x []. }
  unfold frame_lines in *. rewrite !Forall_app in Hl. destruct Hl as (H1 & H2 & H3 & H4). rewrite try_fold_app.
  assert (try_fold (parse_line InvalidSse) no_fields (option_list (String.append "event: " <$> sf_event f))
    = Ok (mkFields (sf_event f) [] None None)) as ->.
  { destruct (sf_event f) as [e|]; [|done]. simpl in *. apply Forall_cons in H1 as [H1 _].
    by rewrite (parse_line_field "event" e). }
  cbv beta iota. rewrite try_fold_app, parse_data by done. cbn [ff_data ff_event ff_id ff_retry app]. rewrite try_fold_app.
  assert (try_fold (parse_line InvalidSse) (mkFields (sf_event f) (split_byte newline (sf_data f)) None None)
      (option_list (String.append "id: " <$> sf_id f))
    = Ok (mkFields (sf_event f) (split_byte newline (sf_data f)) (sf_id f) None)) as ->.
  { destruct (sf_id f) as [e|]; [|done]. simpl in *. apply Forall_cons in H3 as [H3 _].
    rewrite (parse_line_field "id" e) by done. by rewrite (Hid e). }
  assert (try_fold (parse_line InvalidSse) (mkFields (sf_event f) (split_byte newline (sf_data f)) (sf_id f) None)
      (option_list ((fun n => "retry: " +:+ nat_to_string n) <$> sf_retry f))
    = Ok (mkFields (sf_event f) (split_byte newline (sf_data f)) (sf_id f) (sf_retry f))) as ->.
  { destruct (sf_retry f) as [n|]; [|done]. apply Forall_cons in H4 as [H4 _].
    match goal with |- try_fold _ ?s _ = _ =>
      change (match parse_line InvalidSse s ("retry" +:+ ": " +:+ nat_to_string n) with Ok s' => Ok s' | Err e => Err e end
        = Ok (mkFields (sf_event f) (split_byte newline (sf_data f)) (sf_id f) (Some n)))
    end.
    rewrite (parse_line_field "retry") by done. change ("retry" =? "retry")%string with true. cbn [String.eqb Ascii.eqb Bool.eqb andb].
    by rewrite parse_u64_to_string by auto. }
  cbn [ff_data ff_event ff_id ff_retry]. rewrite Hs, <-Hs, join_split. by destruct f.
Qed.

Lemma run_printed frames tail : Forall printable frames -> frame_boundary tail = None ->
  run InvalidSse (print_frames frames +:+ tail) = (Ok frames, tail).
Proof.
  intros H Ht. induction H as [|f frames Hf H IH].
  { change (print_frames [] +:+ tail) with tail. by rewrite run_eq, Ht. }
  unfold print_frames. rewrite fmap_cons, concat_cons. unfold print_frame at 1.
  rewrite !str_app_assoc, run_eq. rewrite frame_boundary_lines.
  2: { unfold frame_lines. destruct (split_byte_cons newline (sf_data f)) as (p & ps & ->). by destruct (sf_event f). }
  2: { apply Forall_and. split; [apply Hf|apply frame_lines_nonempty]. }
  cbv zeta. rewrite str_take_exact, parse_printed by done.
  rewrite str_drop_exact. fold (print_frames frames). rewrite IH. done.
Qed.
End printed.

(** C27: However the bytes of printed frames are divided into chunks, the decoder of both adapters
    returns exactly these frames in order and keeps the bytes after the last boundary. *)
Theorem sse_frames_exact {E} (InvalidSse : E) frames tail chunks :
  Forall printable frames -> frame_boundary tail = None ->
  String.concat "" chunks = print_frames frames +:+ tail ->
  feed InvalidSse sse_new chunks = Ok (frames, mkSseDecoder tail).
Proof.
  intros Hf Ht Hc. rewrite feed_concat by done. change (sd_buffer sse_new) with "".
  by rewrite str_app_empty, Hc, run_printed.
Qed.

Module SseSample.
Definition first : SseFrame := mkSseFrame (Some "ping") ("a" +:+ String newline "b") None (Some 250).
Definition second : SseFrame := mkSseFrame None "[DONE]" (Some "7") None.
Definition bytes : string := print_frames [first; second] +:+ ": keep-alive".
Definition chunks : list string := [str_take 9 bytes; ""; str_take 21 (str_drop 9 bytes); str_drop 30 bytes].

Lemma printable_frames : Forall printable [first; second].
Proof.
  apply Forall_cons. split; [|apply Forall_singleton].
  all: split; [by vm_compute|by apply one_lines_check; vm_compute|intros ? [=]|intros ? [=]].
  all: subst; by vm_compute.
Qed.
End SseSample.

Lemma sse_frames_exact_witness :
  feed 0 sse_new SseSample.chunks = Ok ([SseSample.first; SseSample.second], mkSseDecoder ": keep-alive").
Proof.
  apply (sse_frames_exact 0 [SseSample.first; SseSample.second] ": keep-alive" SseSample.chunks);
    [apply SseSample.printable_frames|by vm_compute|by vm_compute].
Defined.
