(* ===== verification/Responses.v ===== *)
(** * The Responses adapter ([adapters/openai-responses/src])

    The configuration of one deployment, the create request and its validation, the
    typed output items, envelopes and stream events with their derived decoders, and
    the decoder of a stream.  The theorems characterise the sequences of events it
    accepts and the exchanges it reads to their end.  The [http] crate's
    parsers and the byte codecs that [serde_json] derives are parameters; reading a
    typed value from a JSON value is written out. *)

From S2P Require Import Prelude Text Json Float64 Sse.

(** ** Reading derived types

    What [#[derive(Deserialize)]] reads from a [serde_json::Value]. *)

Definition Decoder (A : Type) : Type := Value -> option A.
Definition de_value : Decoder Value := Some.
Definition de_vec {A} (element : Decoder A) : Decoder (list A) :=
  fun v => match v with Arr l => mapM element l | _ => None end.
Definition de_option {A} (inner : Decoder A) : Decoder (option A) :=
  fun v => if is_null v then Some None else Some <$> inner v.
(** A [BTreeMap<String, String>]. *)
Definition de_strings : Decoder (gmap string string) :=
  fun v => m ← as_object v; list_to_map <$> mapM (fun p => (fun s => (p.1, s)) <$> as_str p.2) m.
(** A unit variant: its name, or the object with that single key and a null. *)
Definition de_variant {A} (variants : list (string * A)) : Decoder A :=
  fun v => match v with
           | Str name => assoc name variants
           | Obj [(name, Null)] => assoc name variants
           | _ => None
           end.

(** A required field, an [Option] field, and a [#[serde(default)]] field. *)
Definition field {A} (inner : Decoder A) (key : string) (m : Map) : option A := map_get key m ≫= inner.
Definition option_field {A} (inner : Decoder A) (key : string) (m : Map) : option (option A) :=
  match map_get key m with Some v => de_option inner v | None => Some None end.
Definition default_field {A} (inner : Decoder A) (fallback : A) (key : string) (m : Map) : option A :=
  match map_get key m with Some v => inner v | None => Some fallback end.
(** [#[serde(flatten)]]: the entries no named field takes. *)
Definition flatten_rest (known : list string) (m : Map) : Map :=
  List.filter (fun p => negb (bool_decide (p.1 ∈ known))) m.

(** ** Errors ([error.rs]) *)

Inductive ResponsesAdapterError :=
  | InvalidEndpoint
  | InvalidHeader
  | InvalidRequest (reason : string)
  | InvalidJson
  | InvalidMediaType
  | InvalidSse
  | InvalidLifecycle (reason : string)
  | TruncatedStream.

#[export] Instance ResponsesAdapterError_eq_dec : EqDecision ResponsesAdapterError.
Proof. solve_decision. Defined.

Definition adapter_error_text (self : ResponsesAdapterError) : string :=
  match self with
  | InvalidEndpoint => "Responses endpoint must be an absolute HTTP(S) URI"
  | InvalidHeader => "Responses adapter header is invalid or reserved"
  | InvalidRequest reason => reason
  | InvalidJson => "Responses payload is not valid protocol JSON"
  | InvalidMediaType => "Responses payload has an incompatible media type"
  | InvalidSse => "Responses stream contains an invalid SSE frame"
  | InvalidLifecycle reason => reason
  | TruncatedStream => "Responses stream ended before its protocol terminal"
  end.

(** ** Configuration ([config.rs]) *)

(** A parsed [http::Uri]: its scheme, whether it has an authority, its path. *)
Record Uri := mkUri { uri_scheme : option string; uri_authority : option string; uri_path : string }.
Class HttpCrate := {
  header_name_parses : string -> bool;
  header_value_parses : string -> bool;
  uri_parse : string -> option Uri;
}.

Record Header := mkHeader { hd_name : string; hd_value : string; hd_sensitive : bool }.

Definition HEADER_CONTENT_TYPE : string := "content-type".
Definition HEADER_ACCEPT : string := "accept".
Definition MEDIA_JSON : string := "application/json".
Definition MEDIA_SSE : string := "text/event-stream".

Section config.
Context `{HttpCrate}.

Definition header_new (name value : string) (sensitive : bool) : result ResponsesAdapterError Header :=
  reject InvalidHeader when negb (header_name_parses name);
  reject InvalidHeader when negb (header_value_parses value);
  Ok (mkHeader (to_ascii_lowercase name) value sensitive).

(** The [Debug] text never shows a sensitive value. *)
Definition header_debug_value (self : Header) : string :=
  if hd_sensitive self then "<redacted>" else hd_value self.

Record ResponsesAdapterConfig := mkAdapterConfig { rc_endpoint : string; rc_headers : list Header }.

Definition reserved_header (name : string) : bool :=
  (name =? HEADER_CONTENT_TYPE)%string || (name =? HEADER_ACCEPT)%string.

(** The loop of [any] with the set of names seen so far. *)
Fixpoint header_conflict (names : gset string) (headers : list Header) : bool :=
  match headers with
  | [] => false
  | header :: headers =>
      reserved_header (hd_name header) || bool_decide (hd_name header ∈ names)
      || header_conflict ({[hd_name header]} ∪ names) headers
  end.

Definition supported_endpoint (uri : Uri) : bool :=
  is_some_and (fun scheme => (scheme =? "http")%string || (scheme =? "https")%string) (uri_scheme uri)
  && is_some (uri_authority uri) && negb (str_is_empty (uri_path uri)).

Definition config_new (endpoint : string) (headers : list Header)
    : result ResponsesAdapterError ResponsesAdapterConfig :=
  let? uri := ok_or (uri_parse endpoint) InvalidEndpoint in
  reject InvalidEndpoint when negb (supported_endpoint uri);
  reject InvalidHeader when header_conflict ∅ headers;
  Ok (mkAdapterConfig endpoint headers).

Record HttpRequest := mkHttpRequest { hr_uri : string; hr_headers : list Header; hr_body : string }.
Definition http_method : string := "POST".

Definition build_request (config : ResponsesAdapterConfig) (body : string) (stream : bool) : HttpRequest :=
  mkHttpRequest (rc_endpoint config)
    (rc_headers config
     ++ [mkHeader HEADER_CONTENT_TYPE MEDIA_JSON false;
         mkHeader HEADER_ACCEPT (if stream then MEDIA_SSE else MEDIA_JSON) false])
    body.
End config.

(** ** Create requests ([request.rs]) *)

Inductive MessageRole := System | Developer | User | Assistant.
Inductive ImageDetail := DetailAuto | DetailLow | DetailHigh.
Inductive ItemStatus := ItemInProgress | ItemCompleted | ItemIncomplete.
Inductive InputContent :=
  | InputText (text : string)
  | InputImage (image_url file_id : option string) (detail : option ImageDetail).
Record FunctionCall := mkFunctionCall { fc_call_id : string; fc_name : string; fc_arguments : string }.
Inductive FunctionOutput := OutputString (text : string) | OutputContents (content : list InputContent).
Record FunctionCallOutput := mkCallOutput {
  co_call_id : string;
  co_output : FunctionOutput;
  co_status : option ItemStatus;
}.
Inductive InputItem :=
  | ItemMessage (role : MessageRole) (content : list InputContent)
  | ItemFunctionCall (call : FunctionCall)
  | ItemFunctionCallOutput (output : FunctionCallOutput).
Inductive ResponseInput := InputString (text : string) | InputItems (items : list InputItem).

Record FunctionTool := mkFunctionTool {
  ft_name : string;
  ft_description : option string;
  ft_parameters : Map;
  ft_strict : bool;
}.
Inductive ResponseTool := FunctionTool_ (tool : FunctionTool).
Inductive ToolChoiceMode := ChoiceNone | ChoiceAuto | ChoiceRequired.
Inductive ToolChoice := ChoiceMode (mode : ToolChoiceMode) | ChoiceFunction (name : string).
Inductive TextFormat :=
  | FormatText
  | FormatJsonObject
  | FormatJsonSchema (name : string) (description : option string) (schema : Map) (strict : bool).
Record ResponseTextConfig := mkTextConfig { tc_format : TextFormat }.
Inductive ReasoningEffort :=
  | EffortNone | EffortMinimal | EffortLow | EffortMedium | EffortHigh | EffortXhigh | EffortMax.
Inductive ReasoningSummary := SummaryAuto | SummaryConcise | SummaryDetailed.
Record ReasoningConfig := mkReasoningConfig {
  rg_effort : option ReasoningEffort;
  rg_summary : option ReasoningSummary;
}.
Inductive Truncation := TruncationDisabled | TruncationAuto.
Record StreamOptions := mkStreamOptions { so_include_obfuscation : option bool }.

Record CreateResponseRequest := mkCreateRequest {
  cr_model : string;
  cr_input : ResponseInput;
  cr_max_output_tokens : option Z;
  cr_temperature : option f64;
  cr_top_p : option f64;
  cr_truncation : option Truncation;
  cr_tools : list ResponseTool;
  cr_tool_choice : option ToolChoice;
  cr_parallel_tool_calls : option bool;
  cr_text : option ResponseTextConfig;
  cr_reasoning : option ReasoningConfig;
  cr_metadata : gmap string string;
  cr_stream : bool;
  cr_stream_options : option StreamOptions;
  cr_extensions : Map;
}.
Definition create_request_new (model : string) (input : ResponseInput) (stream : bool) : CreateResponseRequest :=
  mkCreateRequest model input None None None None [] None None None None ∅ stream None [].

Definition CREATE_FIELDS : list string :=
  ["model"; "input"; "max_output_tokens"; "temperature"; "top_p"; "truncation"; "tools"; "tool_choice";
   "parallel_tool_calls"; "text"; "reasoning"; "metadata"; "stream"; "stream_options"].

Definition require_text (value reason : string) : result ResponsesAdapterError unit :=
  if str_is_empty value then Err (InvalidRequest reason) else Ok tt.

Definition finite_range (value : option f64) (minimum maximum : f64) (reason : string)
    : result ResponsesAdapterError unit :=
  match value with
  | Some value =>
      reject (InvalidRequest reason) when
        negb (f64_is_finite value) || f64_ltb value minimum || f64_ltb maximum value;
      Ok tt
  | None => Ok tt
  end.

Definition reject_collisions (extensions : Map) : result ResponsesAdapterError unit :=
  if existsb (fun p => bool_decide (p.1 ∈ CREATE_FIELDS)) extensions
  then Err (InvalidRequest "Responses extension collides with a typed field") else Ok tt.

Definition content_validate (self : InputContent) : result ResponsesAdapterError unit :=
  match self with
  | InputText text => require_text text "Responses input text must not be empty"
  | InputImage image_url file_id _ =>
      if Bool.eqb (is_some image_url) (is_some file_id)
      then Err (InvalidRequest "Responses image requires exactly one reference")
      else require_text (default (default "" file_id) image_url) "Responses image reference must not be empty"
  end.

Definition output_validate (self : FunctionOutput) : result ResponsesAdapterError unit :=
  match self with
  | OutputString _ => Ok tt
  | OutputContents [] => Err (InvalidRequest "Responses function content must not be empty")
  | OutputContents content => try_for_each content_validate content
  end.
Definition call_output_validate (self : FunctionCallOutput) : result ResponsesAdapterError unit :=
  require_text (co_call_id self) "Responses call_id must not be empty" ?;
  output_validate (co_output self).

Definition function_validate (self : FunctionTool) : result ResponsesAdapterError unit :=
  require_text (ft_name self) "Responses function name must not be empty" ?; Ok tt.

Definition text_validate (self : ResponseTextConfig) : result ResponsesAdapterError unit :=
  match tc_format self with
  | FormatJsonSchema name _ _ _ => require_text name "Responses JSON Schema name must not be empty" ?; Ok tt
  | _ => Ok tt
  end.

(** The bytes [serde_json] writes for a request and reads for an envelope. *)
Section requests.
Context `{Externals}.

Definition call_validate (self : FunctionCall) : result ResponsesAdapterError unit :=
  require_text (fc_call_id self) "Responses call_id must not be empty" ?;
  require_text (fc_name self) "Responses function name must not be empty" ?;
  let? value := ok_or (json_from_str (fc_arguments self)) InvalidJson in
  if is_some (as_object value) then Ok tt
  else Err (InvalidRequest "Responses function arguments must be an object").

Definition item_validate (self : InputItem) : result ResponsesAdapterError unit :=
  match self with
  | ItemMessage _ [] => Err (InvalidRequest "Responses message content must not be empty")
  | ItemMessage _ content => try_for_each content_validate content
  | ItemFunctionCall call => call_validate call
  | ItemFunctionCallOutput output => call_output_validate output
  end.

Definition input_validate (self : ResponseInput) : result ResponsesAdapterError unit :=
  match self with
  | InputString text => require_text text "Responses input text must not be empty"
  | InputItems [] => Err (InvalidRequest "Responses input items must not be empty")
  | InputItems items => try_for_each item_validate items
  end.

(** The body of the loop over the tools. *)
Definition check_tool (names : gset string) (tool : ResponseTool) : result ResponsesAdapterError (gset string) :=
  let '(FunctionTool_ function) := tool in
  function_validate function ?;
  reject (InvalidRequest "Responses function tool names must be unique") when
    bool_decide (ft_name function ∈ names);
  Ok ({[ft_name function]} ∪ names).

Definition metadata_excess (metadata : gmap string string) : bool :=
  (16 <? Z.of_nat (size metadata))
  || existsb (fun p => str_is_empty p.1 || (64 <? str_len p.1) || (512 <? str_len p.2)) (entries metadata).

Definition create_validate (self : CreateResponseRequest) : result ResponsesAdapterError unit :=
  require_text (cr_model self) "Responses model must not be empty" ?;
  input_validate (cr_input self) ?;
  finite_range (cr_temperature self) f64_zero (f64_of_int 2) "invalid Responses temperature" ?;
  finite_range (cr_top_p self) f64_zero f64_one "invalid Responses top_p" ?;
  reject (InvalidRequest "Responses metadata exceeds the portable bounds") when metadata_excess (cr_metadata self);
  let? _ := try_fold check_tool ∅ (cr_tools self) in
  match cr_tool_choice self with
  | Some (ChoiceFunction name) => require_text name "Responses selected function must not be empty"
  | _ => Ok tt
  end ?;
  match cr_text self with Some text => text_validate text | None => Ok tt end ?;
  reject_collisions (cr_extensions self) ?;
  Ok tt.

Definition prepare (to_vec : CreateResponseRequest -> option string)
    (config : ResponsesAdapterConfig) (request : CreateResponseRequest)
    : result ResponsesAdapterError HttpRequest :=
  create_validate request ?;
  let? body := ok_or (to_vec request) InvalidJson in
  Ok (build_request config body (cr_stream request)).
End requests.

(** ** Output items ([items.rs]) *)

Definition FIELD_TYPE : string := "type".
Definition FIELD_RESPONSE : string := "response".
Definition FIELD_SEQUENCE_NUMBER : string := "sequence_number".
Definition KIND_MESSAGE : string := "message".
Definition KIND_FUNCTION_CALL : string := "function_call".
Definition KIND_REASONING : string := "reasoning".
Definition KIND_OUTPUT_TEXT : string := "output_text".
Definition KIND_REFUSAL : string := "refusal".

(** [Map::insert] on the entries of a [BTreeMap]: in place of the key's entry, or
    before the first larger key. *)
Fixpoint map_insert (key : string) (value : Value) (m : Map) : Map :=
  match m with
  | [] => [(key, value)]
  | (k, v) :: rest =>
      if (k =? key)%string then (key, value) :: rest
      else if (key <? k)%string then (key, value) :: m
      else (k, v) :: map_insert key value rest
  end.

Record ProtocolExtension := mkExtension { pe_discriminator : string; pe_object : Map }.
Definition extension_new (discriminator : string) (object : Map) : option ProtocolExtension :=
  if str_is_empty discriminator then None
  else Some (mkExtension discriminator (map_insert FIELD_TYPE (Str discriminator) object)).

Record OutputText := mkOutputText {
  ot_text : string;
  ot_annotations : list Value;
  ot_logprobs : list Value;
  ot_extensions : Map;
}.
Record OutputRefusal := mkOutputRefusal { or_refusal : string; or_extensions : Map }.
Inductive OutputContent :=
  | ContentText (text : OutputText)
  | ContentRefusal (refusal : OutputRefusal)
  | ContentExtension (extension : ProtocolExtension).

Record ReasoningPart := mkReasoningPart { rp_kind : string; rp_text : string; rp_extensions : Map }.
Record ResponseMessage := mkMessage {
  rm_id : string;
  rm_content : list OutputContent;
  rm_status : ItemStatus;
  rm_phase : option string;
  rm_extensions : Map;
}.
Record ResponseFunctionCall := mkResponseCall {
  rf_id : option string;
  rf_call_id : string;
  rf_name : string;
  rf_arguments : string;
  rf_status : option ItemStatus;
  rf_namespace : option string;
  rf_caller : option Value;
  rf_extensions : Map;
}.
Record ResponseReasoning := mkReasoning {
  rr_id : string;
  rr_summary : list ReasoningPart;
  rr_content : option (list ReasoningPart);
  rr_encrypted_content : option string;
  rr_status : option ItemStatus;
  rr_extensions : Map;
}.
Inductive ResponseOutputItem :=
  | OutMessage (message : ResponseMessage)
  | OutFunctionCall (call : ResponseFunctionCall)
  | OutReasoning (reasoning : ResponseReasoning)
  | OutExtension (extension : ProtocolExtension).

(** The fixed discriminators ([kind], [role]) are read and carry no information. *)
Definition de_item_status : Decoder ItemStatus :=
  de_variant [("in_progress", ItemInProgress); ("completed", ItemCompleted); ("incomplete", ItemIncomplete)].
Definition de_fixed (name : string) : Decoder unit := de_variant [(name, tt)].

Definition de_output_text : Decoder OutputText := fun v =>
  m ← as_object v;
  text ← field as_str "text" m;
  annotations ← default_field (de_vec de_value) [] "annotations" m;
  logprobs ← default_field (de_vec de_value) [] "logprobs" m;
  _ ← field (de_fixed KIND_OUTPUT_TEXT) FIELD_TYPE m;
  Some (mkOutputText text annotations logprobs (flatten_rest ["text"; "annotations"; "logprobs"; FIELD_TYPE] m)).
Definition de_output_refusal : Decoder OutputRefusal := fun v =>
  m ← as_object v;
  refusal ← field as_str "refusal" m;
  _ ← field (de_fixed KIND_REFUSAL) FIELD_TYPE m;
  Some (mkOutputRefusal refusal (flatten_rest ["refusal"; FIELD_TYPE] m)).

Definition de_output_content : Decoder OutputContent := fun v =>
  object ← as_object v;
  kind ← map_get FIELD_TYPE object ≫= as_str;
  if (kind =? KIND_OUTPUT_TEXT)%string then ContentText <$> de_output_text v
  else if (kind =? KIND_REFUSAL)%string then ContentRefusal <$> de_output_refusal v
  else ContentExtension <$> extension_new kind object.

Definition de_reasoning_part : Decoder ReasoningPart := fun v =>
  m ← as_object v;
  kind ← field as_str FIELD_TYPE m;
  text ← field as_str "text" m;
  Some (mkReasoningPart kind text (flatten_rest [FIELD_TYPE; "text"] m)).

Definition de_message : Decoder ResponseMessage := fun v =>
  m ← as_object v;
  id ← field as_str "id" m;
  content ← field (de_vec de_output_content) "content" m;
  _ ← field (de_fixed "assistant") "role" m;
  status ← field de_item_status "status" m;
  phase ← option_field as_str "phase" m;
  _ ← field (de_fixed KIND_MESSAGE) FIELD_TYPE m;
  Some (mkMessage id content status phase (flatten_rest ["id"; "content"; "role"; "status"; "phase"; FIELD_TYPE] m)).
Definition de_function_call : Decoder ResponseFunctionCall := fun v =>
  m ← as_object v;
  id ← option_field as_str "id" m;
  call_id ← field as_str "call_id" m;
  name ← field as_str "name" m;
  arguments ← field as_str "arguments" m;
  status ← option_field de_item_status "status" m;
  namespace ← option_field as_str "namespace" m;
  caller ← option_field de_value "caller" m;
  _ ← field (de_fixed KIND_FUNCTION_CALL) FIELD_TYPE m;
  Some (mkResponseCall id call_id name arguments status namespace caller
    (flatten_rest ["id"; "call_id"; "name"; "arguments"; "status"; "namespace"; "caller"; FIELD_TYPE] m)).
Definition de_reasoning : Decoder ResponseReasoning := fun v =>
  m ← as_object v;
  id ← field as_str "id" m;
  summary ← field (de_vec de_reasoning_part) "summary" m;
  content ← option_field (de_vec de_reasoning_part) "content" m;
  encrypted_content ← option_field as_str "encrypted_content" m;
  status ← option_field de_item_status "status" m;
  _ ← field (de_fixed KIND_REASONING) FIELD_TYPE m;
  Some (mkReasoning id summary content encrypted_content status
    (flatten_rest ["id"; "summary"; "content"; "encrypted_content"; "status"; FIELD_TYPE] m)).

Definition de_output_item : Decoder ResponseOutputItem := fun v =>
  object ← as_object v;
  kind ← map_get FIELD_TYPE object ≫= as_str;
  if (kind =? KIND_MESSAGE)%string then OutMessage <$> de_message v
  else if (kind =? KIND_FUNCTION_CALL)%string then OutFunctionCall <$> de_function_call v
  else if (kind =? KIND_REASONING)%string then OutReasoning <$> de_reasoning v
  else OutExtension <$> extension_new kind object.

(** ** Envelopes ([response.rs]) *)

Inductive ResponseStatus :=
  | StatusQueued | StatusInProgress | StatusCompleted | StatusFailed | StatusCancelled | StatusIncomplete.
#[export] Instance ResponseStatus_eq_dec : EqDecision ResponseStatus.
Proof. solve_decision. Defined.

Record ResponseError := mkResponseError { re_code : string; re_message : string; re_extensions : Map }.
Record IncompleteDetails := mkIncompleteDetails { ic_reason : string; ic_extensions : Map }.
Record InputTokenDetails := mkInputDetails {
  id_cached_tokens : Z;
  id_cache_write_tokens : Z;
  id_extensions : Map;
}.
Record OutputTokenDetails := mkOutputDetails { od_reasoning_tokens : Z; od_extensions : Map }.
Record ResponseUsage := mkUsage {
  us_input_tokens : Z;
  us_input_tokens_details : InputTokenDetails;
  us_output_tokens : Z;
  us_output_tokens_details : OutputTokenDetails;
  us_total_tokens : Z;
  us_extensions : Map;
}.
Record Response := mkResponse {
  rs_id : string;
  rs_created_at : f64;
  rs_error : option ResponseError;
  rs_incomplete_details : option IncompleteDetails;
  rs_instructions : option Value;
  rs_metadata : option (gmap string string);
  rs_model : string;
  rs_output : list ResponseOutputItem;
  rs_parallel_tool_calls : bool;
  rs_temperature : option f64;
  rs_text : option Value;
  rs_tool_choice : Value;
  rs_tools : list Value;
  rs_top_p : option f64;
  rs_status : option ResponseStatus;
  rs_usage : option ResponseUsage;
  rs_extensions : Map;
}.

Definition usage_validate (self : ResponseUsage) : result ResponsesAdapterError unit :=
  if bool_decide (checked_add (us_input_tokens self) (us_output_tokens self) = Some (us_total_tokens self))
  then Ok tt else Err InvalidJson.

Definition response_validate (self : Response) : result ResponsesAdapterError unit :=
  reject InvalidJson when
    str_is_empty (rs_id self) || str_is_empty (rs_model self)
    || negb (f64_is_finite (rs_created_at self)) || f64_ltb (rs_created_at self) f64_zero;
  match rs_usage self with Some usage => usage_validate usage | None => Ok tt end ?;
  reject InvalidJson when
    is_some_and (fun value => negb (f64_is_finite value)) (rs_temperature self)
    || is_some_and (fun value => negb (f64_is_finite value)) (rs_top_p self);
  reject InvalidJson when bool_decide (rs_status self = Some StatusCompleted) && is_some (rs_error self);
  Ok tt.

Definition de_status : Decoder ResponseStatus :=
  de_variant [("queued", StatusQueued); ("in_progress", StatusInProgress); ("completed", StatusCompleted);
    ("failed", StatusFailed); ("cancelled", StatusCancelled); ("incomplete", StatusIncomplete)].
Definition de_response_error : Decoder ResponseError := fun v =>
  m ← as_object v;
  code ← field as_str "code" m;
  message ← field as_str "message" m;
  Some (mkResponseError code message (flatten_rest ["code"; "message"] m)).
Definition de_incomplete_details : Decoder IncompleteDetails := fun v =>
  m ← as_object v;
  reason ← field as_str "reason" m;
  Some (mkIncompleteDetails reason (flatten_rest ["reason"] m)).
Definition de_input_details : Decoder InputTokenDetails := fun v =>
  m ← as_object v;
  cached ← field as_u64 "cached_tokens" m;
  written ← field as_u64 "cache_write_tokens" m;
  Some (mkInputDetails cached written (flatten_rest ["cached_tokens"; "cache_write_tokens"] m)).
Definition de_output_details : Decoder OutputTokenDetails := fun v =>
  m ← as_object v;
  reasoning ← field as_u64 "reasoning_tokens" m;
  Some (mkOutputDetails reasoning (flatten_rest ["reasoning_tokens"] m)).
Definition de_usage : Decoder ResponseUsage := fun v =>
  m ← as_object v;
  input ← field as_u64 "input_tokens" m;
  input_details ← field de_input_details "input_tokens_details" m;
  output ← field as_u64 "output_tokens" m;
  output_details ← field de_output_details "output_tokens_details" m;
  total ← field as_u64 "total_tokens" m;
  Some (mkUsage input input_details output output_details total
    (flatten_rest ["input_tokens"; "input_tokens_details"; "output_tokens"; "output_tokens_details"; "total_tokens"] m)).

Definition RESPONSE_FIELDS : list string :=
  ["id"; "created_at"; "error"; "incomplete_details"; "instructions"; "metadata"; "model"; "object"; "output";
   "parallel_tool_calls"; "temperature"; "text"; "tool_choice"; "tools"; "top_p"; "status"; "usage"].
Definition de_response : Decoder Response := fun v =>
  m ← as_object v;
  id ← field as_str "id" m;
  created_at ← field as_f64 "created_at" m;
  error ← option_field de_response_error "error" m;
  incomplete_details ← option_field de_incomplete_details "incomplete_details" m;
  instructions ← option_field de_value "instructions" m;
  metadata ← option_field de_strings "metadata" m;
  model ← field as_str "model" m;
  _ ← field (de_fixed "response") "object" m;
  output ← field (de_vec de_output_item) "output" m;
  parallel_tool_calls ← field as_bool "parallel_tool_calls" m;
  temperature ← option_field as_f64 "temperature" m;
  text ← option_field de_value "text" m;
  tool_choice ← field de_value "tool_choice" m;
  tools ← field (de_vec de_value) "tools" m;
  top_p ← option_field as_f64 "top_p" m;
  status ← option_field de_status "status" m;
  usage ← option_field de_usage "usage" m;
  Some (mkResponse id created_at error incomplete_details instructions metadata model output parallel_tool_calls
    temperature text tool_choice tools top_p status usage (flatten_rest RESPONSE_FIELDS m)).

Record ApiError := mkApiError {
  ae_code : option string;
  ae_message : string;
  ae_param : option string;
  ae_type : string;
  ae_extensions : Map;
}.
Record ErrorEnvelope := mkErrorEnvelope { ee_error : ApiError; ee_extensions : Map }.
Inductive DecodedResponse :=
  | DecodedOk (status : Z) (headers : list Header) (response : Response)
  | DecodedError (status : Z) (headers : list Header) (error : ErrorEnvelope).

Definition require_json_media (headers : list Header) : result ResponsesAdapterError unit :=
  let media := match List.find (fun header => hd_name header =? HEADER_CONTENT_TYPE)%string headers with
               | Some header => hd_value header
               | None => MEDIA_JSON
               end in
  if bool_decide (head (split_byte ";" media) = Some MEDIA_JSON) then Ok tt else Err InvalidMediaType.

(** [serde_json::from_slice] at the two envelope types. *)
Class ResponsesSlices := {
  response_from_slice : string -> option Response;
  error_from_slice : string -> option ErrorEnvelope;
}.
Definition decode_response `{ResponsesSlices} (status : Z) (headers : list Header) (body : string)
    : result ResponsesAdapterError DecodedResponse :=
  require_json_media headers ?;
  if (200 <=? status) && (status <? 300) then
    let? response := ok_or (response_from_slice body) InvalidJson in
    response_validate response ?;
    Ok (DecodedOk status headers response)
  else
    let? error := ok_or (error_from_slice body) InvalidJson in
    Ok (DecodedError status headers error).

(** ** Stream events ([events.rs]) *)

Inductive PortableEventKind :=
  | Created | Queued | InProgress | Completed | Failed | Incomplete | Error
  | OutputItemAdded | OutputItemDone | ContentPartAdded | ContentPartDone
  | OutputTextDelta | OutputTextDone | RefusalDelta | RefusalDone
  | FunctionArgumentsDelta | FunctionArgumentsDone
  | ReasoningSummaryPartAdded | ReasoningSummaryPartDone
  | ReasoningSummaryTextDelta | ReasoningSummaryTextDone
  | ReasoningTextDelta | ReasoningTextDone | OutputTextAnnotationAdded.
#[export] Instance PortableEventKind_eq_dec : EqDecision PortableEventKind.
Proof. solve_decision. Defined.

Definition event_kind_as_str (self : PortableEventKind) : string :=
  match self with
  | Created => "response.created"
  | Queued => "response.queued"
  | InProgress => "response.in_progress"
  | Completed => "response.completed"
  | Failed => "response.failed"
  | Incomplete => "response.incomplete"
  | Error => "error"
  | OutputItemAdded => "response.output_item.added"
  | OutputItemDone => "response.output_item.done"
  | ContentPartAdded => "response.content_part.added"
  | ContentPartDone => "response.content_part.done"
  | OutputTextDelta => "response.output_text.delta"
  | OutputTextDone => "response.output_text.done"
  | RefusalDelta => "response.refusal.delta"
  | RefusalDone => "response.refusal.done"
  | FunctionArgumentsDelta => "response.function_call_arguments.delta"
  | FunctionArgumentsDone => "response.function_call_arguments.done"
  | ReasoningSummaryPartAdded => "response.reasoning_summary_part.added"
  | ReasoningSummaryPartDone => "response.reasoning_summary_part.done"
  | ReasoningSummaryTextDelta => "response.reasoning_summary_text.delta"
  | ReasoningSummaryTextDone => "response.reasoning_summary_text.done"
  | ReasoningTextDelta => "response.reasoning_text.delta"
  | ReasoningTextDone => "response.reasoning_text.done"
  | OutputTextAnnotationAdded => "response.output_text.annotation.added"
  end.

Definition ALL_KINDS : list PortableEventKind :=
  [Created; Queued; InProgress; Completed; Failed; Incomplete; Error; OutputItemAdded; OutputItemDone;
   ContentPartAdded; ContentPartDone; OutputTextDelta; OutputTextDone; RefusalDelta; RefusalDone;
   FunctionArgumentsDelta; FunctionArgumentsDone; ReasoningSummaryPartAdded; ReasoningSummaryPartDone;
   ReasoningSummaryTextDelta; ReasoningSummaryTextDone; ReasoningTextDelta; ReasoningTextDone;
   OutputTextAnnotationAdded].
Definition event_kind_parse (value : string) : option PortableEventKind :=
  List.find (fun kind => event_kind_as_str kind =? value)%string ALL_KINDS.

Inductive ResponseStreamEvent :=
  | Portable (kind : PortableEventKind) (sequence_number : Z) (object : Map)
  | Extension (extension : ProtocolExtension).

Definition discriminator (self : ResponseStreamEvent) : string :=
  match self with Portable kind _ _ => event_kind_as_str kind | Extension e => pe_discriminator e end.
Definition sequence_number (self : ResponseStreamEvent) : option Z :=
  match self with
  | Portable _ sequence_number _ => Some sequence_number
  | Extension e => map_get FIELD_SEQUENCE_NUMBER (pe_object e) ≫= as_u64
  end.
Definition event_object (self : ResponseStreamEvent) : Map :=
  match self with Portable _ _ object => object | Extension e => pe_object e end.

Definition required (object : Map) (key : string) : result ResponsesAdapterError Value :=
  ok_or (map_get key object) InvalidJson.
Definition required_text (object : Map) (key : string) : result ResponsesAdapterError unit :=
  let? value := required object key in
  match as_str value with
  | Some text => if str_is_empty text then Err InvalidJson else Ok tt
  | None => Err InvalidJson
  end.
Definition required_u64 (object : Map) (key : string) : result ResponsesAdapterError Z :=
  let? value := required object key in ok_or (as_u64 value) InvalidJson.
Definition required_indexes (object : Map) (keys : list string) : result ResponsesAdapterError unit :=
  try_for_each (fun key => required_u64 object key ?; Ok tt) keys.
(** [serde_json::from_value(required(object, key)?.clone())] *)
Definition required_as {A} (read : Decoder A) (object : Map) (key : string) : result ResponsesAdapterError A :=
  let? value := required object key in ok_or (read value) InvalidJson.

Definition validate_payload (kind : PortableEventKind) (object : Map) : result ResponsesAdapterError unit :=
  match kind with
  | Created | Queued | InProgress | Completed | Failed | Incomplete =>
      let? response := required_as de_response object FIELD_RESPONSE in
      response_validate response
  | OutputItemAdded | OutputItemDone =>
      required_u64 object "output_index" ?;
      required_as de_output_item object "item" ?; Ok tt
  | ContentPartAdded | ContentPartDone =>
      required_indexes object ["output_index"; "content_index"] ?;
      required_text object "item_id" ?;
      required_as de_output_content object "part" ?; Ok tt
  | OutputTextDelta | OutputTextDone | RefusalDelta | RefusalDone =>
      required_indexes object ["output_index"; "content_index"] ?;
      required_text object "item_id" ?;
      required_text object
        (match kind with OutputTextDelta | RefusalDelta => "delta" | RefusalDone => "refusal" | _ => "text" end)
  | FunctionArgumentsDelta | FunctionArgumentsDone =>
      required_u64 object "output_index" ?;
      required_text object "item_id" ?;
      required_text object (match kind with FunctionArgumentsDelta => "delta" | _ => "arguments" end)
  | ReasoningSummaryPartAdded | ReasoningSummaryPartDone =>
      required_indexes object ["output_index"; "summary_index"] ?;
      required_text object "item_id" ?;
      required_as de_reasoning_part object "part" ?; Ok tt
  | ReasoningSummaryTextDelta | ReasoningSummaryTextDone =>
      required_indexes object ["output_index"; "summary_index"] ?;
      required_text object "item_id" ?;
      required_text object (match kind with ReasoningSummaryTextDelta => "delta" | _ => "text" end)
  | ReasoningTextDelta | ReasoningTextDone =>
      required_indexes object ["output_index"; "content_index"] ?;
      required_text object "item_id" ?;
      required_text object (match kind with ReasoningTextDelta => "delta" | _ => "text" end)
  | OutputTextAnnotationAdded =>
      required_indexes object ["output_index"; "content_index"; "annotation_index"] ?;
      required_text object "item_id" ?;
      required object "annotation" ?; Ok tt
  | Error => required_text object "message"
  end.

Definition result_ok {E A} (r : result E A) : option A := match r with Ok a => Some a | Err _ => None end.

Definition de_event : Decoder ResponseStreamEvent := fun v =>
  object ← as_object v;
  name ← map_get FIELD_TYPE object ≫= as_str;
  match event_kind_parse name with
  | None => Extension <$> extension_new name object
  | Some kind =>
      number ← result_ok (required_u64 object FIELD_SEQUENCE_NUMBER);
      _ ← result_ok (validate_payload kind object);
      Some (Portable kind number object)
  end.

(** ** The stream decoder ([stream.rs]) *)

Record ItemState := mkItemState {
  it_id : string;
  it_kind : string;
  it_done : bool;
  it_content : gset Z;
  it_content_done : gset Z;
}.
#[export] Instance ItemState_eta : Eta ItemState := fun r =>
  mkItemState (it_id r) (it_kind r) (it_done r) (it_content r) (it_content_done r).

Record ResponsesStreamDecoder := mkStreamDecoder {
  dc_sse : SseDecoder;
  dc_last_sequence : option Z;
  dc_created : bool;
  dc_terminal : bool;
  dc_sentinel : bool;
  dc_items : gmap Z ItemState;
}.
#[export] Instance ResponsesStreamDecoder_eta : Eta ResponsesStreamDecoder := fun r =>
  mkStreamDecoder (dc_sse r) (dc_last_sequence r) (dc_created r) (dc_terminal r) (dc_sentinel r) (dc_items r).
Definition stream_decoder_new : ResponsesStreamDecoder := mkStreamDecoder sse_new None false false false ∅.

Definition lifecycle (reason : string) : ResponsesAdapterError := InvalidLifecycle reason.
Definition object_field (object : Map) (key : string) : result ResponsesAdapterError Map :=
  ok_or (map_get key object ≫= as_object) InvalidJson.
Definition text_field (object : Map) (key : string) : result ResponsesAdapterError string :=
  let? text := ok_or (map_get key object ≫= as_str) InvalidJson in
  if str_is_empty text then Err InvalidJson else Ok text.
Definition u64_field (object : Map) (key : string) : result ResponsesAdapterError Z :=
  ok_or (map_get key object ≫= as_u64) InvalidJson.

Definition any_item (f : ItemState -> bool) (items : gmap Z ItemState) : bool :=
  existsb (fun p => f p.2) (map_to_list items).

(** The operations on the items return the items they leave; none changes them on
    failure. *)
Abbreviation Items := (gmap Z ItemState) (only parsing).

Definition add_item (items : Items) (object : Map) : result ResponsesAdapterError Items :=
  let? index := u64_field object "output_index" in
  let? item := object_field object "item" in
  let? id := text_field item "id" in
  let? kind := text_field item FIELD_TYPE in
  reject (lifecycle "Responses output item identity was reused") when
    is_some (items !! index) || any_item (fun state => it_id state =? id)%string items;
  Ok (<[index := mkItemState id kind false ∅ ∅]> items).

Definition finish_item (items : Items) (object : Map) : result ResponsesAdapterError Items :=
  let? index := u64_field object "output_index" in
  let? item := object_field object "item" in
  let? id := text_field item "id" in
  let? kind := text_field item FIELD_TYPE in
  let? state := ok_or (items !! index) (lifecycle "Responses output item done preceded added") in
  reject (lifecycle "Responses output item done mismatched its open item") when
    it_done state || negb (it_id state =? id)%string || negb (it_kind state =? kind)%string
    || negb (bool_decide (it_content state = it_content_done state));
  Ok (<[index := state <| it_done := true |>]> items).

(** [item_for] and [item_for_read]: the item with its index. *)
Definition item_for (items : Items) (object : Map) : result ResponsesAdapterError (Z * ItemState) :=
  let? index := u64_field object "output_index" in
  let? id := text_field object "item_id" in
  let? state := ok_or (items !! index) (lifecycle "Responses event targeted a missing output item") in
  reject (lifecycle "Responses event item_id mismatched output_index") when negb (it_id state =? id)%string;
  Ok (index, state).

Definition add_content (items : Items) (object : Map) : result ResponsesAdapterError Items :=
  let? (index, state) := item_for items object in
  let? content_index := u64_field object "content_index" in
  reject (lifecycle "Responses content part identity was reused") when
    negb (it_kind state =? KIND_MESSAGE)%string || it_done state
    || bool_decide (content_index ∈ it_content state);
  Ok (<[index := state <| it_content ::= union {[content_index]} |>]> items).

Definition finish_content (items : Items) (object : Map) : result ResponsesAdapterError Items :=
  let? content_index := u64_field object "content_index" in
  let? (index, state) := item_for items object in
  reject (lifecycle "Responses content part done preceded added") when
    negb (bool_decide (content_index ∈ it_content state)) || bool_decide (content_index ∈ it_content_done state);
  Ok (<[index := state <| it_content_done ::= union {[content_index]} |>]> items).

Definition require_content (items : Items) (object : Map) : result ResponsesAdapterError unit :=
  let? (_, state) := item_for items object in
  let? content_index := u64_field object "content_index" in
  reject (lifecycle "Responses content event targeted a closed or missing part") when
    it_done state || negb (bool_decide (content_index ∈ it_content state))
    || bool_decide (content_index ∈ it_content_done state);
  Ok tt.

Definition require_item_kind (items : Items) (object : Map) (kind : string) : result ResponsesAdapterError unit :=
  let? (_, state) := item_for items object in
  reject (lifecycle "Responses event targeted an incompatible output item") when
    it_done state || negb (it_kind state =? kind)%string;
  Ok tt.

(** [self.items] replaced by the outcome of an operation, or its failure with the
    decoder as it was. *)
Definition on_items (self : ResponsesStreamDecoder) (items : result ResponsesAdapterError Items)
    : result ResponsesAdapterError unit * ResponsesStreamDecoder :=
  match items with Ok items => (Ok tt, self <| dc_items := items |>) | Err e => (Err e, self) end.

Definition accept (self : ResponsesStreamDecoder) (event : ResponseStreamEvent)
    : result ResponsesAdapterError unit * ResponsesStreamDecoder :=
  if dc_terminal self then (Err (InvalidLifecycle "Responses event followed its protocol terminal"), self)
  else if is_some_and (fun number => is_some_and (fun previous => number <=? previous) (dc_last_sequence self))
            (sequence_number event)
  then (Err (InvalidLifecycle "Responses sequence_number must increase"), self)
  else
    let self := match sequence_number event with
                | Some number => self <| dc_last_sequence := Some number |>
                | None => self
                end in
    match event with
    | Extension _ =>
        if dc_created self then (Ok tt, self)
        else (Err (InvalidLifecycle "Responses extension event preceded response.created"), self)
    | Portable kind _ object =>
        match kind with
        | Created =>
            if dc_created self || negb (bool_decide (dc_last_sequence self = sequence_number event))
            then (Err (InvalidLifecycle "Responses stream requires one initial response.created"), self)
            else (Ok tt, self <| dc_created := true |>)
        | _ =>
            if negb (dc_created self)
            then (Err (InvalidLifecycle "Responses event preceded response.created"), self)
            else
              match kind with
              | Created => (Ok tt, self)
              | Completed =>
                  if any_item (fun item => negb (it_done item)) (dc_items self)
                  then (Err (InvalidLifecycle "Responses terminal has an open output item"), self)
                  else (Ok tt, self <| dc_terminal := true |>)
              | Failed | Incomplete | Error => (Ok tt, self <| dc_terminal := true |>)
              | OutputItemAdded => on_items self (add_item (dc_items self) object)
              | OutputItemDone => on_items self (finish_item (dc_items self) object)
              | ContentPartAdded => on_items self (add_content (dc_items self) object)
              | ContentPartDone => on_items self (finish_content (dc_items self) object)
              | OutputTextDelta | RefusalDelta | OutputTextAnnotationAdded | OutputTextDone | RefusalDone =>
                  (require_content (dc_items self) object, self)
              | FunctionArgumentsDelta | FunctionArgumentsDone =>
                  (require_item_kind (dc_items self) object KIND_FUNCTION_CALL, self)
              | ReasoningSummaryPartAdded | ReasoningSummaryPartDone | ReasoningSummaryTextDelta
              | ReasoningSummaryTextDone | ReasoningTextDelta | ReasoningTextDone =>
                  (require_item_kind (dc_items self) object KIND_REASONING, self)
              | Queued | InProgress => (Ok tt, self)
              end
        end
    end.

Section stream.
Context `{Externals}.

(** The body of the loop of [push] over one frame: the event it emits, if any. *)
Definition push_frame (self : ResponsesStreamDecoder) (frame : SseFrame)
    : result ResponsesAdapterError (option ResponseStreamEvent) * ResponsesStreamDecoder :=
  if (sf_data frame =? "[DONE]")%string then
    if negb (dc_terminal self) || dc_sentinel self || is_some (sf_event frame)
    then (Err (InvalidLifecycle "Responses DONE sentinel requires one preceding terminal"), self)
    else (Ok None, self <| dc_sentinel := true |>)
  else if dc_sentinel self then (Err (InvalidLifecycle "Responses event followed the DONE sentinel"), self)
  else
    match json_from_str (sf_data frame) ≫= de_event with
    | None => (Err InvalidJson, self)
    | Some event =>
        if is_some_and (fun name => negb (name =? discriminator event)%string) (sf_event frame)
        then (Err InvalidSse, self)
        else match accept self event with
             | (Ok _, self) => (Ok (Some event), self)
             | (Err e, self) => (Err e, self)
             end
    end.

Fixpoint push_frames (self : ResponsesStreamDecoder) (events : list ResponseStreamEvent) (frames : list SseFrame)
    : result ResponsesAdapterError (list ResponseStreamEvent) * ResponsesStreamDecoder :=
  match frames with
  | [] => (Ok events, self)
  | frame :: frames =>
      match push_frame self frame with
      | (Ok event, self) => push_frames self (events ++ option_list event) frames
      | (Err e, self) => (Err e, self)
      end
  end.

Definition decoder_push (self : ResponsesStreamDecoder) (bytes : string)
    : result ResponsesAdapterError (list ResponseStreamEvent) * ResponsesStreamDecoder :=
  match push InvalidSse (dc_sse self) bytes with
  | (Ok frames, sse) => push_frames (self <| dc_sse := sse |>) [] frames
  | (Err e, sse) => (Err e, self <| dc_sse := sse |>)
  end.

Definition decoder_finish (self : ResponsesStreamDecoder)
    : result ResponsesAdapterError unit * ResponsesStreamDecoder :=
  match finish TruncatedStream (dc_sse self) with
  | (Ok _, sse) =>
      let self := self <| dc_sse := sse |> in
      if negb (dc_terminal self) then (Err TruncatedStream, self) else (Ok tt, self)
  | (Err e, sse) => (Err e, self <| dc_sse := sse |>)
  end.
End stream.

(** ** What an accepted stream means *)

(** The item, its identifier and its kind an item event names; the item an event
    writes to; the content part. *)
Definition names (object : Map) : option (Z * string * string) :=
  result_ok (let? index := u64_field object "output_index" in
             let? item := object_field object "item" in
             let? id := text_field item "id" in
             let? kind := text_field item FIELD_TYPE in
             Ok (index, id, kind)).
Definition targets (object : Map) : option (Z * string) :=
  result_ok (let? index := u64_field object "output_index" in
             let? id := text_field object "item_id" in Ok (index, id)).
Definition part (object : Map) : option Z := result_ok (u64_field object "content_index").

(** What an event establishes about an item. *)
Inductive ItemFact :=
  | Added (index : Z) (id kind : string)
  | Done (index : Z)
  | PartAdded (index content_index : Z)
  | PartDone (index content_index : Z).
Definition fact_index (f : ItemFact) : Z :=
  match f with Added i _ _ | Done i | PartAdded i _ | PartDone i _ => i end.

Definition fact_of (event : ResponseStreamEvent) : option ItemFact :=
  match event with
  | Portable OutputItemAdded _ object => '(i, id, kind) ← names object; Some (Added i id kind)
  | Portable OutputItemDone _ object => '(i, _, _) ← names object; Some (Done i)
  | Portable ContentPartAdded _ object => '(i, _) ← targets object; c ← part object; Some (PartAdded i c)
  | Portable ContentPartDone _ object => '(i, _) ← targets object; c ← part object; Some (PartDone i c)
  | _ => None
  end.
Definition facts (events : list ResponseStreamEvent) : list ItemFact := omap fact_of events.

(** When an item event is in place after the facts of the events before it. *)
Definition open_item (before : list ItemFact) (index : Z) (id kind : string) : Prop :=
  Added index id kind ∈ before /\ Done index ∉ before.
Definition item_in_place (before : list ItemFact) (kind : PortableEventKind) (object : Map) : Prop :=
  match kind with
  | Completed => forall i id k, Added i id k ∈ before -> Done i ∈ before
  | OutputItemAdded => exists i id k, names object = Some (i, id, k) /\
      (forall id' k', Added i id' k' ∉ before) /\ (forall i' k', Added i' id k' ∉ before)
  | OutputItemDone => exists i id k, names object = Some (i, id, k) /\ open_item before i id k /\
      forall c, PartAdded i c ∈ before -> PartDone i c ∈ before
  | ContentPartAdded => exists i id c, targets object = Some (i, id) /\ part object = Some c /\
      open_item before i id KIND_MESSAGE /\ PartAdded i c ∉ before
  | ContentPartDone => exists i id c k, targets object = Some (i, id) /\ part object = Some c /\
      Added i id k ∈ before /\ PartAdded i c ∈ before /\ PartDone i c ∉ before
  | OutputTextDelta | RefusalDelta | OutputTextAnnotationAdded | OutputTextDone | RefusalDone =>
      exists i id c k, targets object = Some (i, id) /\ part object = Some c /\
      open_item before i id k /\ PartAdded i c ∈ before /\ PartDone i c ∉ before
  | FunctionArgumentsDelta | FunctionArgumentsDone =>
      exists i id, targets object = Some (i, id) /\ open_item before i id KIND_FUNCTION_CALL
  | ReasoningSummaryPartAdded | ReasoningSummaryPartDone | ReasoningSummaryTextDelta
  | ReasoningSummaryTextDone | ReasoningTextDelta | ReasoningTextDone =>
      exists i id, targets object = Some (i, id) /\ open_item before i id KIND_REASONING
  | _ => True
  end.

Definition is_created (event : ResponseStreamEvent) : bool :=
  match event with Portable Created _ _ => true | _ => false end.
Definition is_terminal (event : ResponseStreamEvent) : bool :=
  match event with Portable (Completed | Failed | Incomplete | Error) _ _ => true | _ => false end.

(** An event is in place after a prefix: nothing terminal came before, its number is
    larger than every earlier one, it is the first creation or follows it, and its
    item allows it. *)
Record event_in_place (before : list ResponseStreamEvent) (event : ResponseStreamEvent) : Prop := {
  ip_terminal : forall e, e ∈ before -> is_terminal e = false;
  ip_sequence : forall n e m, sequence_number event = Some n -> e ∈ before -> sequence_number e = Some m -> m < n;
  ip_created : is_created event = negb (existsb is_created before);
  ip_item : match event with Portable kind _ object => item_in_place (facts before) kind object | _ => True end;
}.
Definition lifecycle_well_formed (events : list ResponseStreamEvent) : Prop :=
  forall before event after, events = before ++ event :: after -> event_in_place before event.

(** All events, up to the first refusal. *)
Fixpoint accept_all (self : ResponsesStreamDecoder) (events : list ResponseStreamEvent)
    : result ResponsesAdapterError ResponsesStreamDecoder :=
  match events with
  | [] => Ok self
  | event :: events => match accept self event with (Ok _, self) => accept_all self events | (Err e, _) => Err e end
  end.

Record items_state (before : list ItemFact) (items : Items) : Prop := {
  is_known i st : items !! i = Some st ->
    Added i (it_id st) (it_kind st) ∈ before /\ (it_done st = true <-> Done i ∈ before) /\
    (forall c, c ∈ it_content st <-> PartAdded i c ∈ before) /\
    (forall c, c ∈ it_content_done st <-> PartDone i c ∈ before) /\
    it_content_done st ⊆ it_content st;
  is_fresh i : items !! i = None -> forall f, f ∈ before -> fact_index f <> i;
  is_added i id k : Added i id k ∈ before ->
    exists st, items !! i = Some st /\ it_id st = id /\ it_kind st = k;
}.
Lemma items_state_nil : items_state [] ∅.
Proof. split; intros; set_solver. Qed.

(** A new item. *)
Lemma items_add before items i id k : items_state before items -> items !! i = None ->
  items_state (before ++ [Added i id k]) (<[i := mkItemState id k false ∅ ∅]> items).
Proof.
  intros [Hk Hf Ha] Hi. pose proof (Hf i Hi) as Hno. split.
  - intros j st. destruct (decide (i = j)) as [<-|Hne].
    + rewrite lookup_insert_eq. intros [= <-]. simpl.
      assert (forall f, f ∈ before ++ [Added i id k] -> fact_index f = i -> f = Added i id k) as Honly.
      { intros f [Hin|Hin%list_elem_of_singleton]%elem_of_app Hx; [by apply Hno in Hin|done]. }
      split; [set_solver|]. split; [split; [done|]; intros Hin; by apply Honly in Hin|].
      split; [|split]; [..|done]; intros c; (split; [set_solver|]); intros Hin; by apply Honly in Hin.
    + rewrite lookup_insert_ne by done. intros Hj. destruct (Hk j st Hj) as (? & Hd & Hc & Hp & ?).
      setoid_rewrite elem_of_app. setoid_rewrite list_elem_of_singleton. naive_solver.
  - intros j. destruct (decide (i = j)) as [<-|Hne]; [by rewrite lookup_insert_eq|].
    rewrite lookup_insert_ne by done. intros Hj f [Hin|Hin%list_elem_of_singleton]%elem_of_app; [by eapply Hf|].
    by subst.
  - intros j id' k' [Hin|Hin%list_elem_of_singleton]%elem_of_app.
    + destruct (Ha j id' k' Hin) as (st & Hj & ?). exists st. rewrite lookup_insert_ne; [done|]. by intros <-; rewrite Hi in Hj.
    + simplify_eq. eexists. by rewrite lookup_insert_eq.
Qed.

(** A changed item, whose new state reads the extended facts. *)
Lemma items_change before items i st st' f : items_state before items -> items !! i = Some st ->
  fact_index f = i -> (forall j id k, f <> Added j id k) ->
  it_id st' = it_id st -> it_kind st' = it_kind st ->
  (it_done st' = true <-> it_done st = true \/ f = Done i) ->
  (forall c, c ∈ it_content st' <-> c ∈ it_content st \/ f = PartAdded i c) ->
  (forall c, c ∈ it_content_done st' <-> c ∈ it_content_done st \/ f = PartDone i c) ->
  it_content_done st' ⊆ it_content st' ->
  items_state (before ++ [f]) (<[i := st']> items).
Proof.
  intros [Hk Hf Ha] Hi Hfi Hna Hid Hki Hd Hc Hp Hsub. split.
  - intros j st0. destruct (decide (i = j)) as [<-|Hne].
    + rewrite lookup_insert_eq. intros [= <-]. rewrite Hid, Hki. destruct (Hk i st Hi) as (? & Hd0 & Hc0 & Hp0 & ?).
      setoid_rewrite elem_of_app. setoid_rewrite list_elem_of_singleton.
      split; [naive_solver|]. split; [rewrite Hd, Hd0; naive_solver|].
      split; [intros c; rewrite Hc, Hc0; naive_solver|]. split; [intros c; rewrite Hp, Hp0; naive_solver|done].
    + rewrite lookup_insert_ne by done. intros Hj. destruct (Hk j st0 Hj) as (? & Hd0 & Hc0 & Hp0 & ?).
      setoid_rewrite elem_of_app. setoid_rewrite list_elem_of_singleton.
      split; [naive_solver|]. split; [rewrite Hd0; naive_solver|].
      split; [intros c; rewrite Hc0; naive_solver|]. split; [intros c; rewrite Hp0; naive_solver|done].
  - intros j. destruct (decide (i = j)) as [<-|Hne]; [by rewrite lookup_insert_eq|].
    rewrite lookup_insert_ne by done. intros Hj g [Hin|Hin%list_elem_of_singleton]%elem_of_app; [by eapply Hf|].
    congruence.
  - intros j id k [Hin|Hin%list_elem_of_singleton]%elem_of_app; [|by destruct (Hna j id k)].
    destruct (Ha j id k Hin) as (st0 & Hj & <- & <-). destruct (decide (i = j)) as [<-|Hne].
    + exists st'. rewrite lookup_insert_eq. simplify_eq. naive_solver.
    + exists st0. by rewrite lookup_insert_ne.
Qed.

(** An operation on the items succeeds exactly when its event is in place, and then
    keeps the items in step with the facts. *)
Definition decides (before : list ItemFact) (kind : PortableEventKind) (object : Map)
    (r : result ResponsesAdapterError Items) : Prop :=
  (exists items, r = Ok items /\ item_in_place before kind object /\
     items_state (before ++ option_list (fact_of (Portable kind 0 object))) items) \/
  ((exists e, r = Err e) /\ ~ item_in_place before kind object).

Lemma item_for_eq items object : item_for items object =
  match targets object with
  | None => Err InvalidJson
  | Some (i, id) =>
      let? state := ok_or (items !! i) (lifecycle "Responses event targeted a missing output item") in
      reject (lifecycle "Responses event item_id mismatched output_index") when negb (it_id state =? id)%string;
      Ok (i, state)
  end.
Proof.
  unfold item_for, targets, u64_field, text_field.
  destruct (map_get "output_index" object ≫= as_u64); [|done]. simpl.
  destruct (map_get "item_id" object ≫= as_str) as [id|]; [|done]. simpl. by destruct (str_is_empty id).
Qed.

Lemma u64_field_part object : u64_field object "content_index" = ok_or (part object) InvalidJson.
Proof. unfold part, u64_field. by destruct (map_get "content_index" object ≫= as_u64). Qed.

Lemma names_eq {A} object (k : Z -> string -> string -> result ResponsesAdapterError A) :
  (let? index := u64_field object "output_index" in
   let? item := object_field object "item" in
   let? id := text_field item "id" in
   let? kind := text_field item FIELD_TYPE in k index id kind) =
  match names object with Some (i, id, kind) => k i id kind | None => Err InvalidJson end.
Proof.
  unfold names, u64_field, object_field, text_field.
  destruct (map_get "output_index" object ≫= as_u64); [|done]. simpl.
  destruct (map_get "item" object ≫= as_object) as [m|]; [|done]. simpl.
  destruct (map_get "id" m ≫= as_str) as [id|]; [|done]. simpl. destruct (str_is_empty id); [done|].
  destruct (map_get FIELD_TYPE m ≫= as_str) as [kind|]; [|done]. simpl. by destruct (str_is_empty kind).
Qed.

(** The item an event targets: absent, under another identifier, or known by its facts. *)
Lemma item_for_cases before items object : items_state before items ->
  (exists i id st, targets object = Some (i, id) /\ items !! i = Some st /\ it_id st = id /\
     item_for items object = Ok (i, st)) \/
  ((exists e, item_for items object = Err e) /\
   forall i id k, targets object = Some (i, id) -> Added i id k ∉ before).
Proof.
  intros Hs. rewrite item_for_eq. destruct (targets object) as [[i id]|]; [|right; split; [eauto|done]].
  destruct (items !! i) as [st|] eqn:Ei; simpl.
  - destruct (String.eqb_spec (it_id st) id) as [<-|Hne]; simpl; [left; eauto 10|].
    right. split; [eauto|]. intros ? ? k [= <- <-] Hin. destruct (is_added _ _ Hs _ _ _ Hin) as (st' & Hi & ? & _).
    by simplify_eq.
  - right. split; [eauto|]. intros ? ? k [= <- <-] Hin. destruct (is_added _ _ Hs _ _ _ Hin) as (st' & Hi & _).
    by rewrite Ei in Hi.
Qed.

Lemma any_item_true f items : any_item f items = true <-> exists i st, items !! i = Some st /\ f st = true.
Proof.
  unfold any_item. rewrite existsb_exists. split.
  - intros ([i st] & Hin & Hf). apply list_elem_of_In, elem_of_map_to_list in Hin. eauto.
  - intros (i & st & Hi & Hf). exists (i, st). by rewrite <-list_elem_of_In, elem_of_map_to_list.
Qed.

Lemma add_item_exact before items object : items_state before items ->
  decides before OutputItemAdded object (add_item items object).
Proof.
  intros Hs. unfold decides, add_item. rewrite names_eq. simpl. destruct (names object) as [[[i id] k]|] eqn:En; simpl.
  2: { right. split; [eauto|]. by intros (? & ? & ? & ? & _). }
  destruct (items !! i) as [st|] eqn:Ei; simpl.
  { right. split; [eauto|]. intros (i' & id' & k' & [= <- <- <-] & Hno & _). apply (Hno (it_id st) (it_kind st)).
    by apply (is_known _ _ Hs). }
  destruct (any_item _ items) eqn:Ea; simpl.
  - right. split; [eauto|]. intros (i' & id' & k' & [= <- <- <-] & _ & Hno).
    apply any_item_true in Ea as (j & st & Hj & Hid). bool_hyps. subst. apply (Hno j (it_kind st)).
    by apply (is_known _ _ Hs).
  - left. eexists. split; [done|]. split; [|by apply items_add]. exists i, id, k. split; [done|]. split.
    + intros id' k' Hin. by apply (is_fresh _ _ Hs i Ei) in Hin.
    + intros i' k' Hin. destruct (is_added _ _ Hs _ _ _ Hin) as (st & Hi & Hid & _).
      apply not_true_iff_false in Ea. apply Ea, any_item_true. exists i', st. by rewrite Hid, String.eqb_refl.
Qed.

Lemma finish_item_exact before items object : items_state before items ->
  decides before OutputItemDone object (finish_item items object).
Proof.
  intros Hs. unfold decides, finish_item. rewrite names_eq. simpl. destruct (names object) as [[[i id] k]|] eqn:En; simpl.
  2: { right. split; [eauto|]. by intros (? & ? & ? & ? & _). }
  destruct (items !! i) as [st|] eqn:Ei; simpl.
  2: { right. split; [eauto|]. intros (? & ? & ? & [= <- <- <-] & [Hin _] & _). by apply (is_fresh _ _ Hs i Ei) in Hin. }
  destruct (is_known _ _ Hs i st Ei) as (Ha & Hd & Hc & Hp & Hsub).
  destruct (it_done st || _ || _ || _) eqn:Eg.
  - right. split; [eauto|]. intros (? & ? & ? & [= <- <- <-] & [Hin Hnd] & Hparts).
    destruct (is_added _ _ Hs _ _ _ Hin) as (st' & Hi & Hid & Hk). simplify_eq. rewrite !String.eqb_refl in Eg. simpl in Eg.
    destruct (it_done st); [by apply Hnd, Hd|]. simpl in Eg. bool_hyps. apply Eg.
    apply set_eq. intros c. split; [|set_solver]. rewrite Hc, Hp. auto.
  - bool_hyps. subst. left. eexists. split; [done|]. split.
    + exists i, (it_id st), (it_kind st). split; [done|]. split; [split; [done|]|].
      * rewrite <-Hd. congruence.
      * intros c. rewrite <-Hc, <-Hp. congruence.
    + apply (items_change before items i st); simpl; try done; try set_solver; naive_solver.
Qed.

Lemma add_content_exact before items object : items_state before items ->
  decides before ContentPartAdded object (add_content items object).
Proof.
  intros Hs. unfold decides, add_content. rewrite u64_field_part. simpl.
  destruct (item_for_cases before items object Hs) as [(i & id & st & Ht & Ei & Hid & ->)|[[e ->] Hno]].
  2: { right. split; [eauto|]. intros (i & id & c & Ht & _ & [Hin _] & _). by eapply Hno. }
  destruct (is_known _ _ Hs i st Ei) as (Ha & Hd & Hc & Hp & Hsub). rewrite Ht. simpl.
  destruct (part object) as [c|] eqn:Ep; simpl.
  2: { right. split; [eauto|]. by intros (? & ? & ? & ? & ? & _). }
  destruct (negb _ || _ || _) eqn:Eg.
  - right. split; [eauto|]. intros (? & ? & ? & [= <- <-] & [= <-] & [Hin Hnd] & Hnp).
    destruct (is_added _ _ Hs _ _ _ Hin) as (st' & Hi & _ & Hk). simplify_eq. rewrite Hk in Eg. simpl in Eg.
    destruct (it_done st); [by apply Hnd, Hd|]. simpl in Eg. bool_hyps. by apply Hnp, Hc.
  - bool_hyps. left. eexists. split; [done|]. split.
    + exists i, id, c. split; [done|]. split; [done|]. split; [split|].
      * congruence.
      * rewrite <-Hd. congruence.
      * by rewrite <-Hc.
    + apply (items_change before items i st); simpl; try done; try set_solver; naive_solver.
Qed.

Lemma finish_content_exact before items object : items_state before items ->
  decides before ContentPartDone object (finish_content items object).
Proof.
  intros Hs. unfold decides, finish_content. rewrite u64_field_part. simpl.
  destruct (part object) as [c|] eqn:Ep; simpl.
  2: { right. split; [eauto|]. by intros (? & ? & ? & ? & ? & ? & _). }
  destruct (item_for_cases before items object Hs) as [(i & id & st & Ht & Ei & Hid & ->)|[[e ->] Hno]].
  2: { right. split; [eauto|]. intros (i & id & c' & k & Ht & _ & Hin & _). by eapply Hno. }
  destruct (is_known _ _ Hs i st Ei) as (Ha & Hd & Hc & Hp & Hsub). rewrite Ht. simpl.
  destruct (negb _ || _) eqn:Eg.
  - right. split; [eauto|]. intros (? & ? & ? & k & [= <- <-] & [= <-] & _ & Hin & Hnp).
    apply Hc in Hin. rewrite <-Hp in Hnp. rewrite bool_decide_eq_true_2, bool_decide_eq_false_2 in Eg by done. done.
  - apply orb_false_iff in Eg as [Eg1 Eg2]. bool_hyps. left. eexists. split; [done|]. split.
    + exists i, id, c, (it_kind st). split; [done|]. split; [done|]. split; [congruence|]. by rewrite <-Hc, <-Hp.
    + apply (items_change before items i st); simpl; try done; try set_solver; naive_solver.
Qed.

Lemma require_content_exact before items object : items_state before items ->
  require_content items object = Ok tt <->
  exists i id c k, targets object = Some (i, id) /\ part object = Some c /\
    open_item before i id k /\ PartAdded i c ∈ before /\ PartDone i c ∉ before.
Proof.
  intros Hs. unfold require_content. rewrite u64_field_part.
  destruct (item_for_cases before items object Hs) as [(i & id & st & Ht & Ei & Hid & ->)|[[e ->] Hno]].
  2: { split; [done|]. intros (i & id & c & k & Ht & _ & [Hin _] & _). by eapply Hno in Hin. }
  destruct (is_known _ _ Hs i st Ei) as (Ha & Hd & Hc & Hp & Hsub). rewrite Ht.
  destruct (part object) as [c|]; simpl; [|split; [done|]; by intros (? & ? & ? & ? & ? & ? & _)].
  unfold open_item. split.
  - destruct (_ || _ || _) eqn:Eg; [done|]. intros _. apply orb_false_iff in Eg as [Eg Ep]. apply orb_false_iff in Eg as [Ed Ec].
    bool_hyps. exists i, id, c, (it_kind st). rewrite <-Hd, <-Hp, <-Hc. naive_solver congruence.
  - intros (i' & id' & c' & k & [= <- <-] & [= <-] & [_ Hnd] & Hin & Hnp). rewrite <-Hd in Hnd. rewrite <-Hp in Hnp. apply Hc in Hin.
    rewrite (bool_decide_eq_true_2 _ Hin), (bool_decide_eq_false_2 _ Hnp). by destruct (it_done st).
Qed.

Lemma require_item_kind_exact before items object kind : items_state before items ->
  require_item_kind items object kind = Ok tt <->
  exists i id, targets object = Some (i, id) /\ open_item before i id kind.
Proof.
  intros Hs. unfold require_item_kind.
  destruct (item_for_cases before items object Hs) as [(i & id & st & Ht & Ei & Hid & ->)|[[e ->] Hno]].
  2: { split; [done|]. intros (i & id & Ht & [Hin _]). by eapply Hno in Hin. }
  destruct (is_known _ _ Hs i st Ei) as (Ha & Hd & Hc & Hp & Hsub). rewrite Ht. unfold open_item. split.
  - destruct (_ || _) eqn:Eg; [done|]. intros _. apply orb_false_iff in Eg as [Ed Ek]. bool_hyps. subst.
    exists i, (it_id st). rewrite <-Hd. naive_solver congruence.
  - intros (i' & id' & [= <- <-] & Hin & Hnd). destruct (is_added _ _ Hs _ _ _ Hin) as (st' & Hi & _ & Hk). simplify_eq.
    rewrite String.eqb_refl. rewrite <-Hd in Hnd. by destruct (it_done st).
Qed.

Lemma completed_exact before items : items_state before items ->
  any_item (fun item => negb (it_done item)) items = false <-> forall i id k, Added i id k ∈ before -> Done i ∈ before.
Proof.
  intros Hs. rewrite <-not_true_iff_false, any_item_true. split.
  - intros Hn i id k Hin. destruct (is_added _ _ Hs _ _ _ Hin) as (st & Hi & _).
    destruct (is_known _ _ Hs i st Hi) as (_ & Hd & _). apply Hd. apply not_false_iff_true. intros Hf.
    apply Hn. exists i, st. by rewrite Hf.
  - intros Hall (i & st & Hi & Hf). destruct (is_known _ _ Hs i st Hi) as (Ha & Hd & _). apply Hall, Hd in Ha.
    by rewrite Ha in Hf.
Qed.

(** The decoder after a prefix. *)
Record decoder_state (before : list ResponseStreamEvent) (d : ResponsesStreamDecoder) : Prop := {
  ds_terminal : dc_terminal d = existsb is_terminal before;
  ds_created : dc_created d = existsb is_created before;
  ds_last : forall e n, e ∈ before -> sequence_number e = Some n -> exists m, dc_last_sequence d = Some m /\ n <= m;
  ds_last_in : forall m, dc_last_sequence d = Some m -> exists e, e ∈ before /\ sequence_number e = Some m;
  ds_items : items_state (facts before) (dc_items d);
}.

Lemma facts_snoc before event : facts (before ++ [event]) = facts before ++ option_list (fact_of event).
Proof. unfold facts. rewrite omap_app. simpl. by destruct (fact_of event). Qed.

Lemma decoder_step before d event d' : decoder_state before d ->
  (forall n e m, sequence_number event = Some n -> e ∈ before -> sequence_number e = Some m -> m < n) ->
  dc_terminal d' = existsb is_terminal before || is_terminal event ->
  dc_created d' = existsb is_created before || is_created event ->
  dc_last_sequence d' = match sequence_number event with Some n => Some n | None => dc_last_sequence d end ->
  items_state (facts before ++ option_list (fact_of event)) (dc_items d') ->
  decoder_state (before ++ [event]) d'.
Proof.
  intros [_ _ Hl Hi _] Hseq Ht Hc Hlast Hit. split.
  - rewrite Ht, existsb_app. simpl. by rewrite orb_false_r.
  - rewrite Hc, existsb_app. simpl. by rewrite orb_false_r.
  - intros e n [Hin|Hin%list_elem_of_singleton]%elem_of_app He; rewrite Hlast.
    + destruct (sequence_number event) as [m|] eqn:Em; [|by eapply Hl]. exists m. split; [done|].
      specialize (Hseq m e n eq_refl Hin He). lia.
    + subst. rewrite He. exists n. split; [done|lia].
  - intros m. rewrite Hlast. destruct (sequence_number event) as [n|] eqn:En.
    + intros [= <-]. exists event. rewrite elem_of_app, list_elem_of_singleton. auto.
    + intros (e & He & Hn)%Hi. exists e. rewrite elem_of_app. auto.
  - by rewrite facts_snoc.
Qed.

Lemma sequence_exact before d event : decoder_state before d ->
  is_some_and (fun number => is_some_and (fun previous => number <=? previous) (dc_last_sequence d))
    (sequence_number event) = false <->
  (forall n e m, sequence_number event = Some n -> e ∈ before -> sequence_number e = Some m -> m < n).
Proof.
  intros [_ _ Hl Hi _]. destruct (sequence_number event) as [n|]; simpl; [|naive_solver]. split.
  - intros Hb n' e m [= <-] Hin He. destruct (Hl e m Hin He) as (l & El & Hle). rewrite El in Hb. simpl in Hb. bool_hyps. lia.
  - intros Hall. destruct (dc_last_sequence d) as [l|]; [|done]. simpl. destruct (Hi l eq_refl) as (e & He & Hn).
    specialize (Hall n e l eq_refl He Hn). apply Z.leb_gt. lia.
Qed.

(** The decoder after the number of an event is recorded. *)
Definition numbered (d : ResponsesStreamDecoder) (event : ResponseStreamEvent) : ResponsesStreamDecoder :=
  match sequence_number event with Some number => d <| dc_last_sequence := Some number |> | None => d end.
Lemma numbered_fields d event :
  dc_terminal (numbered d event) = dc_terminal d /\ dc_created (numbered d event) = dc_created d /\
  dc_items (numbered d event) = dc_items d /\
  dc_last_sequence (numbered d event) = match sequence_number event with Some n => Some n | None => dc_last_sequence d end.
Proof. unfold numbered. by destruct (sequence_number event). Qed.

Definition accepts (before : list ResponseStreamEvent) (event : ResponseStreamEvent)
    (r : result ResponsesAdapterError unit * ResponsesStreamDecoder) : Prop :=
  (exists d, r = (Ok tt, d) /\ event_in_place before event /\ decoder_state (before ++ [event]) d) \/
  ((exists e d, r = (Err e, d)) /\ ~ event_in_place before event).

Section step.
Context (before : list ResponseStreamEvent) (d : ResponsesStreamDecoder).
Hypothesis Hd : decoder_state before d.
Context (event : ResponseStreamEvent).
Hypothesis Hopen : existsb is_terminal before = false.
Hypothesis Hseq : forall n e m, sequence_number event = Some n -> e ∈ before -> sequence_number e = Some m -> m < n.

Lemma open_before e : e ∈ before -> is_terminal e = false.
Proof. intros Hin. by eapply existsb_false in Hopen. Qed.

Lemma step_ok d' : is_created event = negb (existsb is_created before) ->
  (match event with Portable kind _ object => item_in_place (facts before) kind object | _ => True end) ->
  dc_terminal d' = is_terminal event -> dc_created d' = existsb is_created before || is_created event ->
  dc_last_sequence d' = dc_last_sequence (numbered d event) ->
  items_state (facts before ++ option_list (fact_of event)) (dc_items d') ->
  accepts before event (Ok tt, d').
Proof.
  intros Hc Hi Ht Hc' Hl Hit. left. exists d'. split; [done|]. split.
  - split; [apply open_before|done..].
  - eapply decoder_step; [done|done|by rewrite Hopen|done| |done]. rewrite Hl. apply numbered_fields.
Qed.

Lemma step_err e d' : (is_created event <> negb (existsb is_created before) \/
   ~ match event with Portable kind _ object => item_in_place (facts before) kind object | _ => True end) ->
  accepts before event (Err e, d').
Proof. intros Hno. right. split; [eauto|]. intros [_ _ ? ?]. naive_solver. Qed.
End step.

Section kinds.
Context (before : list ResponseStreamEvent) (d : ResponsesStreamDecoder) (kind : PortableEventKind) (n : Z) (object : Map).
Hypothesis Hd : decoder_state before d.
Let event := Portable kind n object.
Hypothesis Hopen : existsb is_terminal before = false.
Hypothesis Hseq : forall n e m, sequence_number event = Some n -> e ∈ before -> sequence_number e = Some m -> m < n.
Hypothesis Hcreated : existsb is_created before = true.
Hypothesis Hkind : kind <> Created.

Lemma not_created : is_created event = false.
Proof. by destruct kind. Qed.

(** An event that only reads the items. *)
Lemma step_read r : (r = Ok tt <-> item_in_place (facts before) kind object) ->
  is_terminal event = false -> fact_of event = None -> accepts before event (r, numbered d event).
Proof.
  intros Hr Ht Hf. destruct (numbered_fields d event) as (Nt & Nc & Ni & Nl). pose proof not_created as Hc. destruct r as [[]|e].
  - eapply step_ok; try done.
    + by rewrite Hcreated.
    + by apply Hr.
    + by rewrite Nt, (ds_terminal _ _ Hd), Hopen.
    + by rewrite Nc, (ds_created _ _ Hd), Hcreated.
    + rewrite Hf, app_nil_r, Ni. apply Hd.
  - apply step_err. right. intros Hi. by apply Hr in Hi.
Qed.

(** An event that changes them. *)
Lemma step_items r : decides (facts before) kind object r -> is_terminal event = false ->
  accepts before event (on_items (numbered d event) r).
Proof.
  intros Hr Ht. destruct (numbered_fields d event) as (Nt & Nc & Ni & Nl). pose proof not_created as Hc.
  destruct Hr as [(items & -> & Hi & Hs)|[[e ->] Hno]]; simpl.
  - apply (step_ok before d Hd event Hopen Hseq).
    + by rewrite Hcreated, Hc.
    + exact Hi.
    + etrans; [exact Nt|]. rewrite (ds_terminal _ _ Hd), Hopen. by symmetry.
    + etrans; [exact Nc|]. by rewrite (ds_created _ _ Hd), Hcreated.
    + done.
    + replace (fact_of event) with (fact_of (Portable kind 0 object)); [exact Hs|by destruct kind].
  - apply step_err. by right.
Qed.

(** A terminal. *)
Lemma step_terminal : item_in_place (facts before) kind object -> is_terminal event = true ->
  accepts before event (Ok tt, numbered d event <| dc_terminal := true |>).
Proof.
  intros Hi Ht. destruct (numbered_fields d event) as (Nt & Nc & Ni & Nl). pose proof not_created as Hc.
  eapply step_ok; try done.
  - by rewrite Hcreated.
  - etrans; [exact Nc|]. by rewrite (ds_created _ _ Hd), Hcreated.
  - assert (fact_of event = None) as -> by (by destruct kind). rewrite app_nil_r.
    change (items_state (facts before) (dc_items (numbered d event))). rewrite Ni. apply Hd.
Qed.
End kinds.

Lemma accept_step before d event : decoder_state before d -> accepts before event (accept d event).
Proof.
  intros Hd. unfold accept. rewrite (ds_terminal _ _ Hd). destruct (existsb is_terminal before) eqn:Ht.
  { right. split; [eauto|]. intros [Hall _ _ _]. apply existsb_exists in Ht as (e & He & Hte).
    apply list_elem_of_In, Hall in He. congruence. }
  pose proof (sequence_exact before d event Hd) as Hs. destruct (is_some_and _ (sequence_number event)) eqn:Es.
  { right. split; [eauto|]. intros [_ Hseq _ _]. by apply Hs in Hseq. }
  destruct Hs as [Hs _]. specialize (Hs eq_refl). fold (numbered d event).
  destruct (numbered_fields d event) as (Nt & Nc & Ni & Nl).
  destruct event as [kind n object|extension].
  2: { cbv zeta. rewrite Nc, (ds_created _ _ Hd). destruct (existsb is_created before) eqn:Ec.
       - eapply step_ok; try done; simpl.
         + by rewrite Ec.
         + by rewrite Nt, (ds_terminal _ _ Hd).
         + by rewrite Nc, (ds_created _ _ Hd), orb_false_r.
         + rewrite app_nil_r, Ni. apply Hd.
       - apply step_err. left. by rewrite Ec. }
  cbv zeta. rewrite Nc, Nl, (ds_created _ _ Hd), Ni. pose proof (ds_items _ _ Hd) as Hi.
  destruct (existsb is_created before) eqn:Ec.
  - destruct kind; cbn [negb orb]; try (by apply step_err; left; rewrite Ec);
      try (apply step_items; try done; eauto using add_item_exact, finish_item_exact, add_content_exact, finish_content_exact);
      try (apply step_read; try done; by first [apply require_content_exact | apply require_item_kind_exact]);
      try (by apply step_terminal).
    destruct (any_item _ _) eqn:Ea.
    + apply step_err. right. intros Hall. apply (completed_exact _ _ Hi) in Hall. by rewrite Ea in Hall.
    + apply step_terminal; try done. exact (proj1 (completed_exact _ _ Hi) Ea).
  - destruct kind; cbn [negb orb]; try (by apply step_err; left; rewrite Ec).
    rewrite bool_decide_eq_true_2 by done. cbn [negb]. eapply step_ok; try done; simpl.
    + by rewrite Ec.
    + by rewrite (ds_terminal _ _ Hd).
    + by rewrite orb_true_r.
    + rewrite app_nil_r. apply Hd.
Qed.

Lemma decoder_state_new : decoder_state [] stream_decoder_new.
Proof. split; try done; try set_solver. apply items_state_nil. Qed.

Lemma accept_all_exact before d events : decoder_state before d ->
  (forall pre event post, before ++ events = pre ++ event :: post -> (length pre < length before)%nat ->
     event_in_place pre event) ->
  is_ok (accept_all d events) = true <-> lifecycle_well_formed (before ++ events).
Proof.
  revert before d. induction events as [|event events IH]; intros before d Hd Hpre; simpl.
  - split; [|done]. intros _ pre e post Heq. eapply Hpre; [done|].
    rewrite app_nil_r in Heq. rewrite Heq, length_app. simpl. lia.
  - destruct (accept_step before d event Hd) as [(d' & -> & Hin & Hd')|[(e & d' & ->) Hnot]].
    + replace (before ++ event :: events) with ((before ++ [event]) ++ events) by by rewrite <-app_assoc.
      apply IH; [done|]. intros pre e post Heq Hlen. rewrite <-app_assoc in Heq. simpl in Heq.
      rewrite length_app in Hlen. simpl in Hlen. destruct (decide (length pre < length before)%nat) as [Hlt|Hge].
      { by eapply Hpre. }
      apply app_inj_1 in Heq as [<- [= <- _]]; [done|lia].
    + simpl. split; [done|]. intros Hwf. exfalso. apply Hnot. by eapply Hwf.
Qed.


(** ** Whole exchanges *)

Section exchange.
Context `{Externals}.

Fixpoint decode_chunks (self : ResponsesStreamDecoder) (chunks : list string)
    : result ResponsesAdapterError (list ResponseStreamEvent * ResponsesStreamDecoder) :=
  match chunks with
  | [] => Ok ([], self)
  | chunk :: chunks =>
      match decoder_push self chunk with
      | (Ok events, self) => let? (more, self) := decode_chunks self chunks in Ok (events ++ more, self)
      | (Err e, _) => Err e
      end
  end.
(** The events of the chunks of one exchange that ends after the last. *)
Definition decode_exchange (chunks : list string) : result ResponsesAdapterError (list ResponseStreamEvent) :=
  let? (events, self) := decode_chunks stream_decoder_new chunks in
  (decoder_finish self).1 ?; Ok events.

(** The prefix read so far is in place, and the decoder stands after it. *)
Definition stands (before : list ResponseStreamEvent) (d : ResponsesStreamDecoder) : Prop :=
  lifecycle_well_formed before /\ decoder_state before d.

Lemma well_formed_snoc before event : lifecycle_well_formed before -> event_in_place before event ->
  lifecycle_well_formed (before ++ [event]).
Proof.
  intros Hwf Hin pre e post Heq. destruct post as [|x post _] using rev_ind.
  - by apply app_inj_tail in Heq as [-> ->].
  - rewrite app_comm_cons, app_assoc in Heq. apply app_inj_tail in Heq as [-> _]. by eapply Hwf.
Qed.

Lemma stands_ext before d d' : stands before d -> dc_terminal d' = dc_terminal d -> dc_created d' = dc_created d ->
  dc_last_sequence d' = dc_last_sequence d -> dc_items d' = dc_items d -> stands before d'.
Proof. intros [Hwf [Ht Hc Hl Hi Hs]] E1 E2 E3 E4. split; [done|]. split; by rewrite ?E1, ?E2, ?E3, ?E4. Qed.

Lemma push_frame_stands before d frame event d' : stands before d ->
  push_frame d frame = (Ok event, d') -> stands (before ++ option_list event) d'.
Proof.
  intros Hd. unfold push_frame. destruct (_ =? _)%string.
  { destruct (negb _ || _ || _); [done|]. intros [= <- <-]. rewrite app_nil_r. by eapply stands_ext. }
  destruct (dc_sentinel d); [done|]. destruct (json_from_str _ ≫= _) as [e|]; [|done].
  destruct (is_some_and _ _); [done|]. destruct Hd as [Hwf Hd].
  destruct (accept_step before d e Hd) as [(d1 & -> & Hin & Hd')|[(x & d1 & ->) _]]; [|done].
  intros [= <- <-]. split; [|done]. by apply well_formed_snoc.
Qed.

Lemma push_frames_stands frames before events d out d' : stands (before ++ events) d ->
  push_frames d events frames = (Ok out, d') -> stands (before ++ out) d'.
Proof.
  revert events d. induction frames as [|frame frames IH]; intros events d Hd; simpl; [by intros [= <- <-]|].
  destruct (push_frame d frame) as [[event|] d1] eqn:E; [|done]. apply IH. rewrite app_assoc.
  by eapply push_frame_stands.
Qed.

Lemma decode_chunks_stands chunks before d events d' : stands before d ->
  decode_chunks d chunks = Ok (events, d') -> stands (before ++ events) d'.
Proof.
  revert before d events. induction chunks as [|chunk chunks IH]; intros before d events Hd; simpl.
  { intros [= <- <-]. by rewrite app_nil_r. }
  unfold decoder_push. destruct (push InvalidSse (dc_sse d) chunk) as [[frames|e] sse]; [|done].
  destruct (push_frames _ [] frames) as [[out|] d1] eqn:E; [|done].
  destruct (decode_chunks d1 chunks) as [[more d2]|] eqn:E2; [|done]. intros [= <- <-]. rewrite app_assoc.
  eapply IH; [|done]. eapply push_frames_stands; [|done]. rewrite app_nil_r. by eapply stands_ext.
Qed.

(** The events decoded from an exchange that was read to its end follow the
    lifecycle, and the last of them is a terminal. *)
Theorem responses_exchange_complete chunks events : decode_exchange chunks = Ok events ->
  lifecycle_well_formed events /\ exists before event, events = before ++ [event] /\ is_terminal event = true.
Proof.
  unfold decode_exchange. destruct (decode_chunks _ chunks) as [[out d]|] eqn:E; [|done].
  apply (decode_chunks_stands chunks [] stream_decoder_new) in E as [Hwf Hd]; [|split; [by intros [] ? ? [=]|apply decoder_state_new]].
  unfold decoder_finish. destruct (finish _ _) as [[[]|] sse]; [|done]. simpl.
  destruct (dc_terminal d) eqn:Et; simpl; [|done]. intros [= <-]. split; [done|].
  rewrite (ds_terminal _ _ Hd) in Et. apply existsb_exists in Et as (e & Hin & Hte). apply list_elem_of_In in Hin.
  apply list_elem_of_split in Hin as (pre & post & Heq). simpl in Heq, Hwf. destruct post as [|x post]; [by exists pre, e|].
  exfalso. assert (Hip : event_in_place (pre ++ [e]) x). { eapply (Hwf _ _ post). by rewrite Heq, <-app_assoc. }
  rewrite (ip_terminal _ _ Hip e) in Hte; [done|]. set_solver.
Qed.
End exchange.
