(* ===== verification/Messages.v ===== *)
(** * The Messages adapter ([adapters/anthropic-messages/src])

    The configuration of one deployment, the create request and its validation, the
    message envelope with its derived decoders, and the decoder of a stream.  The
    theorems characterise the sequences of events the decoder accepts.  The decoders
    of derived types and the [http] crate's parsers are those of [Responses]. *)

From S2P Require Import Prelude Text Json JsonDecode Float64 Sse Responses.

(** ** Errors ([error.rs]) *)

Inductive MessagesAdapterError :=
  | InvalidEndpoint
  | InvalidHeader
  | InvalidProtocolVersion
  | InvalidRequest (reason : string)
  | InvalidJson
  | InvalidMediaType
  | InvalidSse
  | InvalidLifecycle (reason : string)
  | TruncatedStream.

#[export] Instance MessagesAdapterError_eq_dec : EqDecision MessagesAdapterError.
Proof. solve_decision. Defined.

Definition adapter_error_text (self : MessagesAdapterError) : string :=
  match self with
  | InvalidEndpoint => "Messages endpoint must be an absolute HTTP(S) URI"
  | InvalidHeader => "Messages adapter header is invalid or reserved"
  | InvalidProtocolVersion => "Messages protocol version must not be empty"
  | InvalidRequest reason => reason
  | InvalidJson => "Messages payload is not valid protocol JSON"
  | InvalidMediaType => "Messages payload has an incompatible media type"
  | InvalidSse => "Messages stream contains an invalid SSE frame"
  | InvalidLifecycle reason => reason
  | TruncatedStream => "Messages stream ended before its protocol terminal"
  end.

(** ** Framing ([sse.rs]) *)

Definition sse_push (self : SseDecoder) (bytes : string)
    : result MessagesAdapterError (list SseFrame) * SseDecoder := push InvalidSse self bytes.
Definition sse_finish (self : SseDecoder) : result MessagesAdapterError unit * SseDecoder :=
  finish TruncatedStream self.

(** ** Configuration ([config.rs]) *)

Record Header := mkHeader { hd_name : string; hd_value : string; hd_sensitive : bool }.
Record MessagesAdapterConfig := mkAdapterConfig {
  mc_endpoint : string;
  mc_headers : list Header;
  mc_version_header_name : string;
  mc_protocol_version : string;
}.

Section config.
Context `{HttpCrate}.

Definition header_new (name value : string) (sensitive : bool) : result MessagesAdapterError Header :=
  reject InvalidHeader when negb (header_name_parses name);
  reject InvalidHeader when negb (header_value_parses value);
  Ok (mkHeader (to_ascii_lowercase name) value sensitive).
Definition header_debug_value (self : Header) : string :=
  if hd_sensitive self then "<redacted>" else hd_value self.

(** The loop of [any] with the set of names seen so far. *)
Fixpoint header_conflict (version_header_name : string) (names : gset string) (headers : list Header) : bool :=
  match headers with
  | [] => false
  | header :: headers =>
      reserved_header (hd_name header) || (hd_name header =? version_header_name)%string
      || bool_decide (hd_name header ∈ names)
      || header_conflict version_header_name ({[hd_name header]} ∪ names) headers
  end.

Definition config_new (endpoint : string) (headers : list Header) (version_header_name protocol_version : string)
    : result MessagesAdapterError MessagesAdapterConfig :=
  let? uri := ok_or (uri_parse endpoint) InvalidEndpoint in
  reject InvalidEndpoint when negb (supported_endpoint uri);
  let version_header_name := to_ascii_lowercase version_header_name in
  reject InvalidHeader when negb (header_name_parses version_header_name);
  reject InvalidProtocolVersion when str_is_empty protocol_version;
  reject InvalidHeader when negb (header_value_parses protocol_version);
  reject InvalidHeader when
    reserved_header version_header_name || header_conflict version_header_name ∅ headers;
  Ok (mkAdapterConfig endpoint headers version_header_name protocol_version).

Record HttpRequest := mkHttpRequest { hr_uri : string; hr_headers : list Header; hr_body : string }.

Definition build_request (config : MessagesAdapterConfig) (body : string) (stream : bool) : HttpRequest :=
  mkHttpRequest (mc_endpoint config)
    (mc_headers config
     ++ [mkHeader (mc_version_header_name config) (mc_protocol_version config) false;
         mkHeader HEADER_CONTENT_TYPE MEDIA_JSON false;
         mkHeader HEADER_ACCEPT (if stream then MEDIA_SSE else MEDIA_JSON) false])
    body.
End config.

(** ** Create requests ([request.rs]) *)

Inductive MessageRole := User | Assistant.
#[export] Instance MessageRole_eq_dec : EqDecision MessageRole.
Proof. solve_decision. Defined.
Inductive CacheTtl := FiveMinutes | OneHour.
Record CacheControl := mkCacheControl { cc_ttl : option CacheTtl }.
Inductive ImageMediaType := Jpeg | Png | Gif | Webp.
Inductive ImageSource := ImageBase64 (media_type : ImageMediaType) (data : string) | ImageUrl (url : string).
Inductive DocumentContentBlock :=
  | NestedText (text : string) (cache_control : option CacheControl)
  | NestedImage (source : ImageSource) (cache_control : option CacheControl).
Inductive DocumentContent := DocumentString (text : string) | DocumentBlocks (blocks : list DocumentContentBlock).
Inductive DocumentSource :=
  | DocumentBase64 (data : string)
  | DocumentUrl (url : string)
  | DocumentText (data : string)
  | DocumentNested (content : DocumentContent).
Record CitationsConfig := mkCitations { ct_enabled : option bool }.
Inductive ToolResultBlock :=
  | ResultText (text : string) (cache_control : option CacheControl) (citations : option (list Value))
  | ResultImage (source : ImageSource) (cache_control : option CacheControl)
  | ResultDocument (source : DocumentSource) (cache_control : option CacheControl)
      (citations : option CitationsConfig) (title context : option string).
Inductive ToolResultContent := ResultString (text : string) | ResultBlocks (blocks : list ToolResultBlock).
Inductive ContentBlock :=
  | BlockText (text : string) (cache_control : option CacheControl)
  | BlockImage (source : ImageSource) (cache_control : option CacheControl)
  | BlockDocument (source : DocumentSource) (cache_control : option CacheControl)
      (citations : option CitationsConfig) (title context : option string)
  | BlockToolUse (id name : string) (input : Map) (cache_control : option CacheControl)
  | BlockToolResult (tool_use_id : string) (content : option ToolResultContent) (is_error : option bool)
      (cache_control : option CacheControl)
  | BlockThinking (thinking signature : string)
  | BlockRedactedThinking (data : string).
Inductive MessageContent := ContentString (text : string) | ContentBlocks (blocks : list ContentBlock).
Record Message := mkTurn { mg_role : MessageRole; mg_content : MessageContent }.
Record TextBlock := mkTextBlock {
  tb_text : string;
  tb_cache_control : option CacheControl;
  tb_citations : option (list Value);
}.
Inductive SystemPrompt := SystemString (text : string) | SystemBlocks (blocks : list TextBlock).
Record Tool := mkTool {
  tl_name : string;
  tl_input_schema : Map;
  tl_description : option string;
  tl_strict : option bool;
  tl_cache_control : option CacheControl;
}.
Inductive ToolChoice :=
  | ChoiceAuto (disable_parallel_tool_use : option bool)
  | ChoiceAny (disable_parallel_tool_use : option bool)
  | ChoiceTool (name : string) (disable_parallel_tool_use : option bool)
  | ChoiceNone.
Inductive Effort := EffortLow | EffortMedium | EffortHigh | EffortXhigh | EffortMax.
Record JsonOutputFormat := mkJsonFormat { jf_schema : Map }.
Record OutputConfig := mkOutputConfig { oc_effort : option Effort; oc_format : option JsonOutputFormat }.
Inductive ThinkingDisplay := Summarized | Omitted.
Inductive ThinkingConfig :=
  | ThinkingDisabled
  | ThinkingEnabled (budget_tokens : Z) (display : option ThinkingDisplay)
  | ThinkingAdaptive (display : option ThinkingDisplay).
Record Metadata := mkMetadata { md_user_id : option string }.

Record CreateMessageRequest := mkCreateRequest {
  cm_model : string;
  cm_max_tokens : Z;
  cm_messages : list Message;
  cm_stream : bool;
  cm_system : option SystemPrompt;
  cm_stop_sequences : list string;
  cm_temperature : option f64;
  cm_top_p : option f64;
  cm_top_k : option Z;
  cm_tools : list Tool;
  cm_tool_choice : option ToolChoice;
  cm_output_config : option OutputConfig;
  cm_thinking : option ThinkingConfig;
  cm_metadata : option Metadata;
  cm_extensions : Map;
}.
Definition create_request_new (model : string) (max_tokens : Z) (messages : list Message) (stream : bool)
    : CreateMessageRequest :=
  mkCreateRequest model max_tokens messages stream None [] None None None [] None None None None [].

Definition CREATE_FIELDS : list string :=
  ["model"; "max_tokens"; "messages"; "stream"; "system"; "stop_sequences"; "temperature"; "top_p"; "top_k";
   "tools"; "tool_choice"; "output_config"; "thinking"; "metadata"].

Definition require_text (value reason : string) : result MessagesAdapterError unit :=
  if str_is_empty value then Err (InvalidRequest reason) else Ok tt.
Definition finite_range (value : option f64) (min max : f64) (reason : string) : result MessagesAdapterError unit :=
  if is_some_and (fun value => negb (f64_is_finite value) || f64_ltb value min || f64_ltb max value) value
  then Err (InvalidRequest reason) else Ok tt.
Definition reject_collisions (extensions : Map) : result MessagesAdapterError unit :=
  if existsb (fun p => bool_decide (p.1 ∈ CREATE_FIELDS)) extensions
  then Err (InvalidRequest "Messages extension collides with a typed field") else Ok tt.

Definition image_source_validate (self : ImageSource) : result MessagesAdapterError unit :=
  match self with
  | ImageBase64 _ data => require_text data "Messages base64 image data must not be empty"
  | ImageUrl url => require_text url "Messages image URL must not be empty"
  end.
Definition nested_block_validate (self : DocumentContentBlock) : result MessagesAdapterError unit :=
  match self with
  | NestedText text _ => require_text text "Messages nested document text must not be empty"
  | NestedImage source _ => image_source_validate source
  end.
Definition document_content_validate (self : DocumentContent) : result MessagesAdapterError unit :=
  match self with
  | DocumentString text => require_text text "Messages document content must not be empty"
  | DocumentBlocks [] => Err (InvalidRequest "Messages document content blocks must not be empty")
  | DocumentBlocks blocks => try_for_each nested_block_validate blocks
  end.
Definition document_source_validate (self : DocumentSource) : result MessagesAdapterError unit :=
  match self with
  | DocumentBase64 data => require_text data "Messages base64 PDF data must not be empty"
  | DocumentUrl url => require_text url "Messages document URL must not be empty"
  | DocumentText data => require_text data "Messages document text must not be empty"
  | DocumentNested content => document_content_validate content
  end.
Definition result_block_validate (self : ToolResultBlock) : result MessagesAdapterError unit :=
  match self with
  | ResultText text _ _ => require_text text "Messages tool-result text must not be empty"
  | ResultImage source _ => image_source_validate source
  | ResultDocument source _ _ _ _ => document_source_validate source
  end.
Definition result_content_validate (self : ToolResultContent) : result MessagesAdapterError unit :=
  match self with
  | ResultString _ => Ok tt
  | ResultBlocks [] => Err (InvalidRequest "Messages tool-result blocks must not be empty")
  | ResultBlocks blocks => try_for_each result_block_validate blocks
  end.
Definition block_validate (self : ContentBlock) : result MessagesAdapterError unit :=
  match self with
  | BlockText text _ => require_text text "Messages text block must not be empty"
  | BlockImage source _ => image_source_validate source
  | BlockDocument source _ _ _ _ => document_source_validate source
  | BlockToolUse id name _ _ =>
      require_text id "Messages tool-use id must not be empty" ?;
      require_text name "Messages tool-use name must not be empty"
  | BlockToolResult tool_use_id content _ _ =>
      require_text tool_use_id "Messages tool-result id must not be empty" ?;
      match content with Some content => result_content_validate content | None => Ok tt end ?;
      Ok tt
  | BlockThinking thinking signature =>
      require_text thinking "Messages thinking must not be empty" ?;
      require_text signature "Messages thinking signature must not be empty"
  | BlockRedactedThinking data => require_text data "Messages redacted thinking data must not be empty"
  end.
Definition turn_validate (self : Message) : result MessagesAdapterError unit :=
  match mg_content self with
  | ContentString text => require_text text "Messages content text must not be empty"
  | ContentBlocks [] => Err (InvalidRequest "Messages content blocks must not be empty")
  | ContentBlocks blocks => try_for_each block_validate blocks
  end.
Definition text_block_validate (self : TextBlock) : result MessagesAdapterError unit :=
  require_text (tb_text self) "Messages text block must not be empty".
Definition system_validate (self : SystemPrompt) : result MessagesAdapterError unit :=
  match self with
  | SystemString text => require_text text "Messages system text must not be empty"
  | SystemBlocks [] => Err (InvalidRequest "Messages system blocks must not be empty")
  | SystemBlocks blocks => try_for_each text_block_validate blocks
  end.
Definition tool_validate (self : Tool) : result MessagesAdapterError unit :=
  require_text (tl_name self) "Messages tool name must not be empty".
Definition check_tool (names : gset string) (tool : Tool) : result MessagesAdapterError (gset string) :=
  tool_validate tool ?;
  reject (InvalidRequest "Messages tool names must be unique") when bool_decide (tl_name tool ∈ names);
  Ok ({[tl_name tool]} ∪ names).

Definition create_validate (self : CreateMessageRequest) : result MessagesAdapterError unit :=
  require_text (cm_model self) "Messages model must not be empty" ?;
  reject (InvalidRequest "Messages turns must not be empty") when bool_decide (cm_messages self = []);
  try_for_each turn_validate (cm_messages self) ?;
  match cm_system self with Some system => system_validate system | None => Ok tt end ?;
  finite_range (cm_temperature self) f64_zero f64_one "invalid Messages temperature" ?;
  finite_range (cm_top_p self) f64_zero f64_one "invalid Messages top_p" ?;
  reject (InvalidRequest "Messages stop sequence must not be empty") when
    existsb str_is_empty (cm_stop_sequences self);
  let? _ := try_fold check_tool ∅ (cm_tools self) in
  match cm_tool_choice self with
  | Some (ChoiceTool name _) => require_text name "Messages selected tool must not be empty"
  | _ => Ok tt
  end ?;
  match cm_thinking self with
  | Some (ThinkingEnabled budget_tokens _) =>
      reject (InvalidRequest "Messages thinking budget must be at least 1024 and below max_tokens") when
        (budget_tokens <? 1024) || (cm_max_tokens self <=? budget_tokens);
      Ok tt
  | _ => Ok tt
  end ?;
  reject_collisions (cm_extensions self).

Definition prepare (to_vec : CreateMessageRequest -> option string)
    (config : MessagesAdapterConfig) (request : CreateMessageRequest)
    : result MessagesAdapterError HttpRequest :=
  create_validate request ?;
  let? body := ok_or (to_vec request) InvalidJson in
  Ok (build_request config body (cm_stream request)).

(** ** Envelopes ([response.rs]) *)

Definition KIND_ERROR : string := "error".
Definition KIND_TEXT : string := "text".
Definition KIND_THINKING : string := "thinking".
Definition KIND_REDACTED_THINKING : string := "redacted_thinking".
Definition KIND_TOOL_USE : string := "tool_use".

Inductive StopReason :=
  | StopEndTurn | StopMaxTokens | StopStopSequence | StopToolUse | StopPauseTurn | StopRefusal
  | StopModelContextWindowExceeded.
#[export] Instance StopReason_eq_dec : EqDecision StopReason.
Proof. solve_decision. Defined.

Record OutputText := mkOutputText { ot_text : string; ot_citations : option (list Value) }.
Record OutputThinking := mkOutputThinking { oh_thinking : string; oh_signature : string }.
Record OutputRedactedThinking := mkOutputRedacted { ox_data : string }.
Record OutputToolUse := mkOutputToolUse {
  ou_id : string;
  ou_name : string;
  ou_input : Map;
  ou_caller : option Value;
}.
Inductive OutputBlock :=
  | OutText (text : OutputText)
  | OutThinking (thinking : OutputThinking)
  | OutRedactedThinking (redacted : OutputRedactedThinking)
  | OutToolUse (tool_use : OutputToolUse)
  | OutExtension (object : Map).

Record CacheCreation := mkCacheCreation { ch_ephemeral_1h_input_tokens : Z; ch_ephemeral_5m_input_tokens : Z }.
Record OutputTokensDetails := mkTokensDetails { otd_thinking_tokens : Z }.
Record ServerToolUsage := mkServerToolUsage { su_web_fetch_requests : Z; su_web_search_requests : Z }.
Inductive ServiceTier := TierStandard | TierPriority | TierBatch.
Record Usage := mkUsage {
  us_input_tokens : Z;
  us_output_tokens : Z;
  us_cache_creation_input_tokens : option Z;
  us_cache_read_input_tokens : option Z;
  us_cache_creation : option CacheCreation;
  us_inference_geo : option string;
  us_output_tokens_details : option OutputTokensDetails;
  us_server_tool_use : option ServerToolUsage;
  us_service_tier : option ServiceTier;
  us_extensions : Map;
}.
Record MessageResponse := mkMessageResponse {
  ms_id : string;
  ms_model : string;
  ms_content : list OutputBlock;
  ms_stop_reason : option StopReason;
  ms_stop_sequence : option string;
  ms_stop_details : option Value;
  ms_usage : Usage;
  ms_extensions : Map;
}.

Definition output_block_validate (self : OutputBlock) : result MessagesAdapterError unit :=
  let invalid :=
    match self with
    | OutText value => str_is_empty (ot_text value)
    | OutThinking value => str_is_empty (oh_thinking value) || str_is_empty (oh_signature value)
    | OutRedactedThinking value => str_is_empty (ox_data value)
    | OutToolUse value => str_is_empty (ou_id value) || str_is_empty (ou_name value)
    | OutExtension value =>
        match map_get FIELD_TYPE value with Some (Str kind) => str_is_empty kind | _ => true end
    end in
  if invalid then Err InvalidJson else Ok tt.

Definition message_validate (self : MessageResponse) : result MessagesAdapterError unit :=
  reject InvalidJson when str_is_empty (ms_id self) || str_is_empty (ms_model self);
  try_for_each output_block_validate (ms_content self).

(** A derived structure without [flatten] is also read from the array of its
    fields. *)
Definition de_pair (first second : string) : Decoder (Z * Z) := fun v =>
  match v with
  | Arr [a; b] => x ← as_u64 a; y ← as_u64 b; Some (x, y)
  | Obj m => x ← field as_u64 first m; y ← field as_u64 second m; Some (x, y)
  | _ => None
  end.
Definition de_single (name : string) : Decoder Z := fun v =>
  match v with Arr [a] => as_u64 a | Obj m => field as_u64 name m | _ => None end.

Definition de_stop_reason : Decoder StopReason :=
  de_variant [("end_turn", StopEndTurn); ("max_tokens", StopMaxTokens); ("stop_sequence", StopStopSequence);
    ("tool_use", StopToolUse); ("pause_turn", StopPauseTurn); ("refusal", StopRefusal);
    ("model_context_window_exceeded", StopModelContextWindowExceeded)].
Definition de_service_tier : Decoder ServiceTier :=
  de_variant [("standard", TierStandard); ("priority", TierPriority); ("batch", TierBatch)].

Definition de_output_block : Decoder OutputBlock := fun v =>
  m ← as_object v;
  kind ← map_get FIELD_TYPE m ≫= as_str;
  if (kind =? KIND_TEXT)%string then
    text ← field as_str "text" m;
    citations ← option_field (de_vec de_value) "citations" m;
    Some (OutText (mkOutputText text citations))
  else if (kind =? KIND_THINKING)%string then
    thinking ← field as_str "thinking" m;
    signature ← field as_str "signature" m;
    Some (OutThinking (mkOutputThinking thinking signature))
  else if (kind =? KIND_REDACTED_THINKING)%string then
    data ← field as_str "data" m;
    Some (OutRedactedThinking (mkOutputRedacted data))
  else if (kind =? KIND_TOOL_USE)%string then
    id ← field as_str "id" m;
    name ← field as_str "name" m;
    input ← field as_object "input" m;
    caller ← option_field de_value "caller" m;
    Some (OutToolUse (mkOutputToolUse id name input caller))
  else Some (OutExtension m).

Definition USAGE_FIELDS : list string :=
  ["input_tokens"; "output_tokens"; "cache_creation_input_tokens"; "cache_read_input_tokens"; "cache_creation";
   "inference_geo"; "output_tokens_details"; "server_tool_use"; "service_tier"].
Definition de_usage : Decoder Usage := fun v =>
  m ← as_object v;
  input ← field as_u64 "input_tokens" m;
  output ← field as_u64 "output_tokens" m;
  cache_write ← option_field as_u64 "cache_creation_input_tokens" m;
  cache_read ← option_field as_u64 "cache_read_input_tokens" m;
  creation ← option_field (de_pair "ephemeral_1h_input_tokens" "ephemeral_5m_input_tokens") "cache_creation" m;
  geo ← option_field as_str "inference_geo" m;
  details ← option_field (de_single "thinking_tokens") "output_tokens_details" m;
  server ← option_field (de_pair "web_fetch_requests" "web_search_requests") "server_tool_use" m;
  tier ← option_field de_service_tier "service_tier" m;
  Some (mkUsage input output cache_write cache_read ((fun p => mkCacheCreation p.1 p.2) <$> creation) geo
    (mkTokensDetails <$> details) ((fun p => mkServerToolUsage p.1 p.2) <$> server) tier
    (flatten_rest USAGE_FIELDS m)).

Definition de_message_response : Decoder MessageResponse := fun v =>
  m ← as_object v;
  id ← field as_str "id" m;
  _ ← field (de_fixed "message") FIELD_TYPE m;
  _ ← field (de_fixed "assistant") "role" m;
  model ← field as_str "model" m;
  content ← field (de_vec de_output_block) "content" m;
  stop_reason ← option_field de_stop_reason "stop_reason" m;
  stop_sequence ← option_field as_str "stop_sequence" m;
  stop_details ← option_field de_value "stop_details" m;
  usage ← field de_usage "usage" m;
  Some (mkMessageResponse id model content stop_reason stop_sequence stop_details usage
    (flatten_rest ["id"; FIELD_TYPE; "role"; "model"; "content"; "stop_reason"; "stop_sequence"; "stop_details";
       "usage"] m)).

Record ApiError := mkApiError { ae_type : string; ae_message : string; ae_extensions : Map }.
Record ErrorEnvelope := mkErrorEnvelope {
  ee_type : string;
  ee_error : ApiError;
  ee_request_id : option string;
  ee_extensions : Map;
}.
Definition de_api_error : Decoder ApiError := fun v =>
  m ← as_object v;
  kind ← field as_str FIELD_TYPE m;
  message ← field as_str "message" m;
  Some (mkApiError kind message (flatten_rest [FIELD_TYPE; "message"] m)).
Definition de_error_envelope : Decoder ErrorEnvelope := fun v =>
  m ← as_object v;
  kind ← field as_str FIELD_TYPE m;
  error ← field de_api_error "error" m;
  request_id ← option_field as_str "request_id" m;
  Some (mkErrorEnvelope kind error request_id (flatten_rest [FIELD_TYPE; "error"; "request_id"] m)).

Inductive DecodedResponse :=
  | DecodedMessage (status : Z) (headers : list Header) (message : MessageResponse)
  | DecodedError (status : Z) (headers : list Header) (error : ErrorEnvelope).

Definition require_json_media (headers : list Header) : result MessagesAdapterError unit :=
  let media := match List.find (fun header => hd_name header =? HEADER_CONTENT_TYPE)%string headers with
               | Some header => hd_value header
               | None => MEDIA_JSON
               end in
  if bool_decide (head (split_byte ";" media) = Some MEDIA_JSON) then Ok tt else Err InvalidMediaType.

(** The check of an error envelope, in both [decode_response] and the stream. *)
Definition error_envelope_check (error : ErrorEnvelope) : result MessagesAdapterError unit :=
  if negb (ee_type error =? KIND_ERROR)%string || str_is_empty (ae_type (ee_error error))
     || str_is_empty (ae_message (ee_error error))
  then Err InvalidJson else Ok tt.

(** [serde_json::from_slice] at the two envelope types. *)
Class MessagesSlices := {
  message_from_slice : string -> option MessageResponse;
  error_from_slice : string -> option ErrorEnvelope;
}.
Definition decode_response `{MessagesSlices} (status : Z) (headers : list Header) (body : string)
    : result MessagesAdapterError DecodedResponse :=
  require_json_media headers ?;
  if (200 <=? status) && (status <? 300) then
    let? message := ok_or (message_from_slice body) InvalidJson in
    message_validate message ?;
    Ok (DecodedMessage status headers message)
  else
    let? error := ok_or (error_from_slice body) InvalidJson in
    error_envelope_check error ?;
    Ok (DecodedError status headers error).

(** ** Stream events ([stream.rs]) *)

Inductive DeltaKind :=
  | DeltaText | DeltaInputJson | DeltaThinking | DeltaSignature | DeltaCitation
  | DeltaExtension (name : string).
Inductive StreamEventKind :=
  | MessageStart
  | ContentBlockStart
  | ContentBlockDelta (delta : DeltaKind)
  | ContentBlockStop
  | MessageDelta
  | MessageStop
  | Ping
  | EventError
  | EventExtension (name : string).
Record StreamEvent := mkStreamEvent { ev_kind : StreamEventKind; ev_value : Map }.
Definition event_index (self : StreamEvent) : option Z := map_get "index" (ev_value self) ≫= as_u64.

(** The text member of a JSON object. *)
Definition text_of (key : string) (m : Map) : option string := map_get key m ≫= as_str.
Definition object_of (key : string) (m : Map) : option Map := map_get key m ≫= as_object.

Definition delta_kind (value : Map) : result MessagesAdapterError DeltaKind :=
  let? delta := ok_or (object_of "delta" value) InvalidJson in
  let? kind := ok_or (text_of FIELD_TYPE delta) InvalidJson in
  if (kind =? "text_delta")%string then
    if is_some (text_of "text" delta) then Ok DeltaText else Err InvalidJson
  else if (kind =? "input_json_delta")%string then
    if is_some (text_of "partial_json" delta) then Ok DeltaInputJson else Err InvalidJson
  else if (kind =? "thinking_delta")%string then
    if is_some (text_of "thinking" delta) then Ok DeltaThinking else Err InvalidJson
  else if (kind =? "signature_delta")%string then
    if is_some (text_of "signature" delta) then Ok DeltaSignature else Err InvalidJson
  else if (kind =? "citations_delta")%string then
    if contains_key delta "citation" then Ok DeltaCitation else Err InvalidJson
  else Ok (DeltaExtension kind).

Definition event_kind (discriminator : string) (value : Map) : result MessagesAdapterError StreamEventKind :=
  if (discriminator =? "message_start")%string then Ok MessageStart
  else if (discriminator =? "content_block_start")%string then Ok ContentBlockStart
  else if (discriminator =? "content_block_delta")%string then
    let? delta := delta_kind value in Ok (ContentBlockDelta delta)
  else if (discriminator =? "content_block_stop")%string then Ok ContentBlockStop
  else if (discriminator =? "message_delta")%string then Ok MessageDelta
  else if (discriminator =? "message_stop")%string then Ok MessageStop
  else if (discriminator =? "ping")%string then Ok Ping
  else if (discriminator =? KIND_ERROR)%string then Ok EventError
  else Ok (EventExtension discriminator).

Definition validate_start_block (kind : string) (block : Map) : result MessagesAdapterError unit :=
  let nonempty := is_some_and (fun text => negb (str_is_empty text)) in
  let valid :=
    if (kind =? KIND_TEXT)%string then is_some (text_of "text" block)
    else if (kind =? KIND_THINKING)%string then is_some (text_of "thinking" block) && is_some (text_of "signature" block)
    else if (kind =? KIND_REDACTED_THINKING)%string then nonempty (text_of "data" block)
    else if (kind =? KIND_TOOL_USE)%string then
      nonempty (text_of "id" block) && nonempty (text_of "name" block) && is_some (object_of "input" block)
    else true in
  if valid then Ok tt else Err InvalidJson.

Definition required_index (value : Map) : result MessagesAdapterError Z :=
  ok_or (map_get "index" value ≫= as_u64) InvalidJson.

(** ** The stream decoder *)

Record OpenBlock := mkOpenBlock { ob_kind : string; ob_partial_json : string }.
Record MessagesStreamDecoder := mkStreamDecoder {
  md_sse : SseDecoder;
  md_started : bool;
  md_terminal : bool;
  md_message_delta : bool;
  md_blocks : gmap Z OpenBlock;
}.
#[export] Instance MessagesStreamDecoder_eta : Eta MessagesStreamDecoder := fun r =>
  mkStreamDecoder (md_sse r) (md_started r) (md_terminal r) (md_message_delta r) (md_blocks r).
Definition stream_decoder_new : MessagesStreamDecoder := mkStreamDecoder sse_new false false false ∅.

(** The outcome of an operation with the decoder it leaves, on failure too. *)
Abbreviation Outcome A := (result MessagesAdapterError A * MessagesStreamDecoder)%type (only parsing).

Definition start_block (self : MessagesStreamDecoder) (value : Map) : Outcome unit :=
  match (let? index := required_index value in
         let? kind := ok_or (object_of "content_block" value ≫= text_of FIELD_TYPE) InvalidJson in
         let? block := ok_or (object_of "content_block" value) InvalidJson in
         validate_start_block kind block ?; Ok (index, kind)) with
  | Err e => (Err e, self)
  | Ok (index, kind) =>
      let previous := md_blocks self !! index in
      let self := self <| md_blocks ::= <[index := mkOpenBlock kind ""]> |> in
      if is_some previous then (Err (InvalidLifecycle "Messages content block index is already open"), self)
      else (Ok tt, self)
  end.

Definition delta_compatible (kind : string) (delta : DeltaKind) : bool :=
  match delta with
  | DeltaText | DeltaCitation => (kind =? KIND_TEXT)%string
  | DeltaInputJson => (kind =? KIND_TOOL_USE)%string
  | DeltaThinking | DeltaSignature => (kind =? KIND_THINKING)%string
  | DeltaExtension _ => false
  end.
Definition is_delta_extension (delta : DeltaKind) : bool :=
  match delta with DeltaExtension _ => true | _ => false end.

Definition delta_block (self : MessagesStreamDecoder) (value : Map) (delta : DeltaKind) : Outcome unit :=
  match required_index value with
  | Err e => (Err e, self)
  | Ok index =>
      match md_blocks self !! index with
      | None => (Err (InvalidLifecycle "Messages delta targets no open block"), self)
      | Some block =>
          if negb (delta_compatible (ob_kind block) delta) && negb (is_delta_extension delta)
          then (Err (InvalidLifecycle "Messages delta kind does not match its block"), self)
          else match delta with
               | DeltaInputJson =>
                   match object_of "delta" value ≫= text_of "partial_json" with
                   | Some fragment =>
                       (Ok tt, self <| md_blocks ::=
                          <[index := mkOpenBlock (ob_kind block) (ob_partial_json block +:+ fragment)]> |>)
                   | None => (Err InvalidJson, self)
                   end
               | _ => (Ok tt, self)
               end
      end
  end.

Section stream.
Context `{Externals}.

Definition stop_block (self : MessagesStreamDecoder) (value : Map) : Outcome unit :=
  match required_index value with
  | Err e => (Err e, self)
  | Ok index =>
      match md_blocks self !! index with
      | None => (Err (InvalidLifecycle "Messages stop targets no open block"), self)
      | Some block =>
          let self := self <| md_blocks ::= delete index |> in
          if (ob_kind block =? KIND_TOOL_USE)%string && is_none (json_from_str (ob_partial_json block))
          then (Err InvalidJson, self)
          else (Ok tt, self)
      end
  end.

Definition no_open_block (self : MessagesStreamDecoder) : bool := bool_decide (md_blocks self = ∅).

Definition validate_lifecycle (self : MessagesStreamDecoder) (kind : StreamEventKind) (value : Map) : Outcome unit :=
  if md_terminal self then (Err (InvalidLifecycle "Messages event arrived after terminal"), self)
  else
    match kind with
    | Ping => (Ok tt, self)
    | MessageStart =>
        if negb (md_started self) then
          match (let? message := ok_or (map_get "message" value ≫= de_message_response) InvalidJson in
                 message_validate message) with
          | Err e => (Err e, self)
          | Ok _ => (Ok tt, self <| md_started := true |>)
          end
        else (Err (InvalidLifecycle "Messages stream has duplicate message_start"), self)
    | EventError =>
        match (let? error := ok_or (de_error_envelope (Obj value)) InvalidJson in error_envelope_check error) with
        | Err e => (Err e, self)
        | Ok _ => (Ok tt, self <| md_terminal := true |>)
        end
    | _ =>
        if negb (md_started self) then (Err (InvalidLifecycle "Messages event precedes message_start"), self)
        else
          match kind with
          | ContentBlockStart => start_block self value
          | ContentBlockDelta delta => delta_block self value delta
          | ContentBlockStop => stop_block self value
          | MessageDelta =>
              if negb (md_message_delta self) && no_open_block self then
                if is_none (object_of "delta" value)
                   || is_none ((object_of "usage" value ≫= map_get "output_tokens") ≫= as_u64)
                then (Err InvalidJson, self)
                else (Ok tt, self <| md_message_delta := true |>)
              else (Err (InvalidLifecycle "Messages message_delta is duplicate or precedes block stop"), self)
          | MessageStop =>
              if md_message_delta self && no_open_block self then (Ok tt, self <| md_terminal := true |>)
              else (Err (InvalidLifecycle "Messages message_stop precedes terminal delta or block stop"), self)
          | _ => (Ok tt, self)
          end
    end.

Definition accept_frame (self : MessagesStreamDecoder) (frame : SseFrame) : Outcome StreamEvent :=
  match (let? value := ok_or (json_from_str (sf_data frame)) InvalidJson in
         let? object := ok_or (as_object value) InvalidJson in
         let? discriminator := ok_or (text_of FIELD_TYPE object) InvalidJson in
         reject InvalidSse when is_some_and (fun event => negb (event =? discriminator)%string) (sf_event frame);
         let? kind := event_kind discriminator object in
         Ok (mkStreamEvent kind object)) with
  | Err e => (Err e, self)
  | Ok event =>
      match validate_lifecycle self (ev_kind event) (ev_value event) with
      | (Ok _, self) => (Ok event, self)
      | (Err e, self) => (Err e, self)
      end
  end.

Fixpoint accept_frames (self : MessagesStreamDecoder) (frames : list SseFrame) : Outcome (list StreamEvent) :=
  match frames with
  | [] => (Ok [], self)
  | frame :: frames =>
      match accept_frame self frame with
      | (Ok event, self) =>
          match accept_frames self frames with
          | (Ok events, self) => (Ok (event :: events), self)
          | (Err e, self) => (Err e, self)
          end
      | (Err e, self) => (Err e, self)
      end
  end.

Definition decoder_push (self : MessagesStreamDecoder) (bytes : string) : Outcome (list StreamEvent) :=
  match sse_push (md_sse self) bytes with
  | (Ok frames, sse) => accept_frames (self <| md_sse := sse |>) frames
  | (Err e, sse) => (Err e, self <| md_sse := sse |>)
  end.

Definition decoder_finish (self : MessagesStreamDecoder) : Outcome unit :=
  match sse_finish (md_sse self) with
  | (Ok _, sse) =>
      let self := self <| md_sse := sse |> in
      if md_terminal self && no_open_block self then (Ok tt, self) else (Err TruncatedStream, self)
  | (Err e, sse) => (Err e, self <| md_sse := sse |>)
  end.
End stream.

(** ** What a complete exchange means *)

Definition is_message_start (event : StreamEvent) : bool :=
  match ev_kind event with MessageStart => true | _ => false end.
Definition is_message_delta (event : StreamEvent) : bool :=
  match ev_kind event with MessageDelta => true | _ => false end.
Definition is_terminal_event (event : StreamEvent) : bool :=
  match ev_kind event with MessageStop | EventError => true | _ => false end.
(** Events that need the message to have started. *)
Definition needs_start (event : StreamEvent) : bool :=
  match ev_kind event with Ping | EventError | MessageStart => false | _ => true end.
Definition starts_block (i : Z) (event : StreamEvent) : bool :=
  match ev_kind event with ContentBlockStart => bool_decide (event_index event = Some i) | _ => false end.
Definition stops_block (i : Z) (event : StreamEvent) : bool :=
  match ev_kind event with ContentBlockStop => bool_decide (event_index event = Some i) | _ => false end.
Definition count (f : StreamEvent -> bool) (events : list StreamEvent) : nat := length (List.filter f events).

Lemma count_snoc f events event : count f (events ++ [event]) = (count f events + if f event then 1 else 0)%nat.
Proof. unfold count. rewrite List.filter_app, length_app. simpl. by destruct (f event). Qed.

Record messages_state (before : list StreamEvent) (d : MessagesStreamDecoder) : Prop := {
  mt_terminal : md_terminal d = existsb is_terminal_event before;
  mt_started : count is_message_start before = (if md_started d then 1 else 0)%nat;
  mt_delta : count is_message_delta before = (if md_message_delta d then 1 else 0)%nat;
  mt_blocks i : count (starts_block i) before =
    (count (stops_block i) before + if is_some (md_blocks d !! i) then 1 else 0)%nat;
}.

(** An event in place after a prefix, as far as the counts tell. *)
Record counts_in_place (before : list StreamEvent) (event : StreamEvent) : Prop := {
  cp_terminal e : e ∈ before -> is_terminal_event e = false;
  cp_started : needs_start event = true -> count is_message_start before = 1%nat;
  cp_once : is_message_start event = true -> count is_message_start before = 0%nat;
  cp_delta : is_message_delta event = true -> count is_message_delta before = 0%nat;
  cp_start i : starts_block i event = true -> count (starts_block i) before = count (stops_block i) before;
  cp_stop i : stops_block i event = true -> count (starts_block i) before = S (count (stops_block i) before);
  cp_closed : ev_kind event = MessageStop \/ ev_kind event = MessageDelta ->
    forall i, count (starts_block i) before = count (stops_block i) before;
  cp_after_delta : ev_kind event = MessageStop -> count is_message_delta before = 1%nat;
  cp_touch delta : ev_kind event = ContentBlockDelta delta -> exists i, event_index event = Some i /\
    count (starts_block i) before = S (count (stops_block i) before);
  cp_indexed : ev_kind event = ContentBlockStart \/ ev_kind event = ContentBlockStop -> is_Some (event_index event);
}.

(** The start that opened the block of an index, with the events after it, and the fragments of
    tool input those events add to the block. *)
Definition open_since (i : Z) (before : list StreamEvent) (start : StreamEvent) (later : list StreamEvent) : Prop :=
  (exists earlier, before = earlier ++ start :: later) /\ starts_block i start = true /\
  forall e, e ∈ later -> starts_block i e = false.
Definition block_type (start : StreamEvent) : option string :=
  object_of "content_block" (ev_value start) ≫= text_of "type".
Definition fragment (i : Z) (event : StreamEvent) : string :=
  match ev_kind event with
  | ContentBlockDelta DeltaInputJson =>
      if bool_decide (event_index event = Some i)
      then default "" (object_of "delta" (ev_value event) ≫= text_of "partial_json") else ""
  | _ => ""
  end.
Definition suits (kind : string) (delta : DeltaKind) : Prop :=
  match delta with
  | DeltaText | DeltaCitation => kind = "text"
  | DeltaInputJson => kind = "tool_use"
  | DeltaThinking | DeltaSignature => kind = "thinking"
  | DeltaExtension _ => True
  end.

(** A delta suits the kind of the block it touches, and the input of a stopped tool call parses. *)
Definition block_in_place `{Externals} (before : list StreamEvent) (event : StreamEvent) : Prop :=
  forall i, event_index event = Some i ->
  match ev_kind event with
  | ContentBlockDelta delta => exists start later kind,
      open_since i before start later /\ block_type start = Some kind /\ suits kind delta
  | ContentBlockStop => exists start later kind,
      open_since i before start later /\ block_type start = Some kind /\
      (kind = "tool_use" -> is_Some (json_from_str (String.concat "" (fragment i <$> later))))
  | _ => True
  end.

Section lifecycle.
Context `{Externals}.

Lemma existsb_snoc {A} (f : A -> bool) l x : existsb f (l ++ [x]) = existsb f l || f x.
Proof. rewrite existsb_app. simpl. by rewrite orb_false_r. Qed.

Lemma required_index_ok value i : required_index value = Ok i <-> map_get "index" value ≫= as_u64 = Some i.
Proof. apply ok_or_ok. Qed.

Lemma is_some_insert {A} (m : gmap Z A) i j x : is_some (<[i := x]> m !! j) = bool_decide (i = j) || is_some (m !! j).
Proof. case_bool_decide as E; [subst; by rewrite lookup_insert_eq|by rewrite lookup_insert_ne]. Qed.
Lemma is_some_delete {A} (m : gmap Z A) i j : is_some (delete i m !! j) = negb (bool_decide (i = j)) && is_some (m !! j).
Proof. case_bool_decide as E; [subst; by rewrite lookup_delete_eq|by rewrite lookup_delete_ne]. Qed.

(** An event that opens and closes no block. *)
Lemma plain_step before d event d' : messages_state before d ->
  (forall i, starts_block i event = false /\ stops_block i event = false) ->
  md_terminal d' = md_terminal d || is_terminal_event event ->
  (if md_started d' then 1 else 0)%nat = ((if md_started d then 1 else 0) + if is_message_start event then 1 else 0)%nat ->
  (if md_message_delta d' then 1 else 0)%nat = ((if md_message_delta d then 1 else 0) + if is_message_delta event then 1 else 0)%nat ->
  (forall i, is_some (md_blocks d' !! i) = is_some (md_blocks d !! i)) ->
  messages_state (before ++ [event]) d'.
Proof.
  intros [Ht Hs Hm Hb] He Et Es Em Eb. split.
  - by rewrite existsb_snoc, Et, Ht.
  - by rewrite count_snoc, Hs, Es.
  - by rewrite count_snoc, Hm, Em.
  - intros i. destruct (He i) as [E1 E2]. by rewrite !count_snoc, E1, E2, Eb, !Nat.add_0_r.
Qed.

(** An event that opens or closes the block at its index. *)
Lemma block_step before d event d' index : messages_state before d -> event_index event = Some index ->
  (ev_kind event = ContentBlockStart /\ md_blocks d !! index = None /\
     forall i, is_some (md_blocks d' !! i) = bool_decide (index = i) || is_some (md_blocks d !! i)) \/
  (ev_kind event = ContentBlockStop /\ is_some (md_blocks d !! index) = true /\
     forall i, is_some (md_blocks d' !! i) = negb (bool_decide (index = i)) && is_some (md_blocks d !! i)) ->
  md_terminal d' = md_terminal d -> md_started d' = md_started d -> md_message_delta d' = md_message_delta d ->
  messages_state (before ++ [event]) d'.
Proof.
  intros [Ht Hs Hm Hb] Hi Hcase Et Es Em. destruct event as [kind value]. cbn [ev_kind] in Hcase. split.
  - rewrite existsb_snoc, Et, Ht. destruct Hcase as [[-> _]|[-> _]]; by rewrite orb_false_r.
  - rewrite count_snoc, Hs, Es. destruct Hcase as [[-> _]|[-> _]]; simpl; lia.
  - rewrite count_snoc, Hm, Em. destruct Hcase as [[-> _]|[-> _]]; simpl; lia.
  - intros i. rewrite !count_snoc, Hb.
    destruct Hcase as [(-> & Hn & ->)|(-> & Hn & ->)]; simpl;
      unfold starts_block, stops_block; cbn [ev_kind]; rewrite Hi;
      repeat case_bool_decide; simplify_eq; rewrite ?Hn; simpl; try lia; try done.
Qed.

Definition in_step (before : list StreamEvent) (event : StreamEvent) (d : MessagesStreamDecoder) : Prop :=
  counts_in_place before event /\ messages_state (before ++ [event]) d.

Lemma start_block_step before d value d' : messages_state before d -> existsb is_terminal_event before = false ->
  md_started d = true -> start_block d value = (Ok tt, d') -> in_step before (mkStreamEvent ContentBlockStart value) d'.
Proof.
  intros Hd Ho Hst Hv. unfold start_block in Hv.
  destruct (required_index value) as [index|] eqn:Ei; [|done].
  destruct (ok_or (object_of _ _ ≫= _) _) as [kind|]; [|done]. destruct (ok_or (object_of _ _) _) as [block|]; [|done].
  destruct (validate_start_block kind block); [|done]. destruct (md_blocks d !! index) as [old|] eqn:Eo; [done|].
  injection Hv as <-. apply required_index_ok in Ei. pose proof (mt_blocks _ _ Hd) as Hb. pose proof (mt_started _ _ Hd) as Hs.
  rewrite Hst in Hs. split.
  - split; try done; try naive_solver.
    + intros e He. by eapply existsb_false in He.
    + intros i Hx. unfold starts_block, event_index in Hx. cbn [ev_kind ev_value] in Hx. rewrite Ei in Hx. bool_hyps. simplify_eq.
      rewrite Hb, Eo. simpl. lia.
  - eapply block_step; try done. left. split; [done|]. split; [done|]. intros i. apply is_some_insert.
Qed.

Lemma stop_block_step before d value d' : messages_state before d -> existsb is_terminal_event before = false ->
  md_started d = true -> stop_block d value = (Ok tt, d') -> in_step before (mkStreamEvent ContentBlockStop value) d'.
Proof.
  intros Hd Ho Hst Hv. unfold stop_block in Hv.
  destruct (required_index value) as [index|] eqn:Ei; [|done]. destruct (md_blocks d !! index) as [old|] eqn:Eo; [|done].
  destruct (_ && _); [done|]. injection Hv as <-. apply required_index_ok in Ei. pose proof (mt_blocks _ _ Hd) as Hb.
  pose proof (mt_started _ _ Hd) as Hs. rewrite Hst in Hs. split.
  - split; try done; try naive_solver.
    + intros e He. by eapply existsb_false in He.
    + intros i Hx. unfold stops_block, event_index in Hx. cbn [ev_kind ev_value] in Hx. rewrite Ei in Hx. bool_hyps. simplify_eq.
      rewrite Hb, Eo. simpl. lia.
  - eapply block_step; try done. right. split; [done|]. split; [by rewrite Eo|]. intros i. apply is_some_delete.
Qed.

Lemma delta_block_step before d value delta d' : messages_state before d -> existsb is_terminal_event before = false ->
  md_started d = true -> delta_block d value delta = (Ok tt, d') ->
  in_step before (mkStreamEvent (ContentBlockDelta delta) value) d'.
Proof.
  intros Hd Ho Hst Hv. pose proof (mt_started _ _ Hd) as Hs. rewrite Hst in Hs.
  unfold delta_block in Hv. destruct (required_index value) as [index|] eqn:Ei; [|done].
  destruct (md_blocks d !! index) as [old|] eqn:Eo; [|done]. destruct (_ && _); [done|].
  apply required_index_ok in Ei. split.
  - split; try done; try naive_solver.
    + intros e He. by eapply existsb_false in He.
    + intros _ _. exists index. split; [done|]. rewrite (mt_blocks _ _ Hd index), Eo. simpl. lia.
  - assert (Hd' : md_terminal d' = md_terminal d /\ md_started d' = md_started d /\ md_message_delta d' = md_message_delta d
      /\ forall i, is_some (md_blocks d' !! i) = is_some (md_blocks d !! i)).
    { destruct delta; simplify_eq; try done. destruct (object_of _ _ ≫= _); simplify_eq. split; [done|]. split; [done|]. split; [done|].
      intros i. simpl. rewrite is_some_insert. case_bool_decide; simplify_eq; [by rewrite Eo|done]. }
    destruct Hd' as (E1 & E2 & E3 & E4). eapply plain_step; try done; simpl; rewrite ?E1, ?E2, ?E3; try lia. by rewrite orb_false_r.
Qed.

Lemma validate_step before d event d' : messages_state before d ->
  validate_lifecycle d (ev_kind event) (ev_value event) = (Ok tt, d') -> in_step before event d'.
Proof.
  intros Hd Hv. unfold validate_lifecycle in Hv. pose proof Hd as [Ht Hs Hm Hb].
  destruct (md_terminal d) eqn:Et; [done|]. symmetry in Ht.
  assert (Hopen : forall e, e ∈ before -> is_terminal_event e = false).
  { intros e He. by eapply existsb_false in He. }
  assert (Hclosed : no_open_block d = true -> forall i, count (starts_block i) before = count (stops_block i) before).
  { unfold no_open_block. intros Hn i. bool_hyps. by rewrite Hb, Hn, lookup_empty, Nat.add_0_r. }
  destruct event as [kind value]. simpl in Hv.
  destruct kind as [| |delta| | | | | |name]; try (destruct (md_started d) eqn:Est; [|done]; cbn [negb] in Hv).
  - destruct (md_started d) eqn:Est; [done|]. cbn [negb] in Hv. destruct (let? message := _ in _); simplify_eq.
    split; [split; try done; try naive_solver|]. eapply plain_step; try done; simpl; rewrite ?Est, ?Nat.add_0_r, ?orb_false_r; try done; lia.
  - by apply start_block_step with d.
  - by apply delta_block_step with d.
  - by apply stop_block_step with d.
  - destruct (md_message_delta d) eqn:Emd; [done|]. cbn [negb andb] in Hv. destruct (no_open_block d) eqn:En; [|done].
    destruct (_ || _); simplify_eq. split; [split; try done; try naive_solver|].
    eapply plain_step; try done; simpl; rewrite ?Est, ?Emd, ?Nat.add_0_r, ?orb_false_r; try done; lia.
  - destruct (md_message_delta d) eqn:Emd; [|done]. cbn [negb andb] in Hv. destruct (no_open_block d) eqn:En; [|done].
    simplify_eq. split; [split; try done; try naive_solver|].
    eapply plain_step; try done; simpl; rewrite ?Est, ?Emd, ?Et, ?Nat.add_0_r; try done; lia.
  - simplify_eq. split; [split; try done; try naive_solver|].
    eapply plain_step; try done; simpl; rewrite ?orb_false_r, ?Nat.add_0_r; try done; lia.
  - destruct (let? error := _ in _); simplify_eq. split; [split; try done; try naive_solver|].
    eapply plain_step; try done; simpl; rewrite ?Et, ?Nat.add_0_r; try done; lia.
  - simplify_eq. split; [split; try done; try naive_solver|].
    eapply plain_step; try done; simpl; rewrite ?orb_false_r, ?Est, ?Nat.add_0_r; try done; lia.
Qed.

(** *** The blocks that are open *)

Definition opened (before : list StreamEvent) (i : Z) (block : OpenBlock) : Prop :=
  exists start later, open_since i before start later /\ block_type start = Some (ob_kind block) /\
    ob_partial_json block = String.concat "" (fragment i <$> later).
Definition blocks_opened (before : list StreamEvent) (d : MessagesStreamDecoder) : Prop :=
  forall i block, md_blocks d !! i = Some block -> opened before i block.

Lemma text_concat_snoc l x : String.concat "" (l ++ [x]) = String.concat "" l +:+ x.
Proof. induction l as [|y l IH]; [done|]. simpl ((y :: l) ++ [x]). by rewrite !concat_cons, IH, str_app_assoc. Qed.

Lemma opened_later before i block event : opened before i block -> starts_block i event = false ->
  opened (before ++ [event]) i (mkOpenBlock (ob_kind block) (ob_partial_json block +:+ fragment i event)).
Proof.
  intros (start & later & ([earlier ->] & Hs & Hl) & Hk & Hp) He. exists start, (later ++ [event]). split; [split; [|split; [done|]]|split; [done|]].
  - exists earlier. by rewrite <-app_assoc.
  - intros e [Hin|Hin%list_elem_of_singleton]%elem_of_app; [by apply Hl|by subst].
  - cbn [ob_partial_json]. by rewrite fmap_app, list_fmap_singleton, text_concat_snoc, Hp.
Qed.

Lemma opened_keep before i block event : opened before i block -> starts_block i event = false ->
  fragment i event = "" -> opened (before ++ [event]) i block.
Proof. intros Ho He Hf. pose proof (opened_later _ _ _ _ Ho He) as H1. rewrite Hf, str_app_nil in H1. by destruct block. Qed.

Lemma start_block_opened before d value d' : blocks_opened before d -> start_block d value = (Ok tt, d') ->
  blocks_opened (before ++ [mkStreamEvent ContentBlockStart value]) d'.
Proof.
  intros Hb Hv. unfold start_block in Hv.
  destruct (required_index value) as [index|] eqn:Ei; [|done]. apply required_index_ok in Ei.
  destruct (ok_or (object_of _ _ ≫= _) _) as [kind|] eqn:Ek; [|done]. apply ok_or_ok in Ek.
  destruct (ok_or (object_of _ _) _) as [block|]; [|done].
  destruct (validate_start_block kind block); [|done]. destruct (md_blocks d !! index) as [old|] eqn:Eo; [done|].
  injection Hv as <-. intros i b. simpl. destruct (decide (i = index)) as [->|Hi].
  - rewrite lookup_insert_eq. intros [= <-]. exists (mkStreamEvent ContentBlockStart value), [].
    split; [split; [|split]|done].
    + by exists before.
    + unfold starts_block, event_index. simpl. rewrite Ei. by apply bool_decide_eq_true.
    + intros e Hin. by apply elem_of_nil in Hin.
  - rewrite lookup_insert_ne by done. intros Hl. apply opened_keep; [by apply Hb| |done].
    unfold starts_block, event_index. simpl. rewrite Ei. apply bool_decide_eq_false. congruence.
Qed.

Lemma delta_compatible_suits kind delta : delta_compatible kind delta = true \/ is_delta_extension delta = true ->
  suits kind delta.
Proof. destruct delta; simpl; intros [H1|H1]; try done; by apply String.eqb_eq in H1. Qed.

Lemma delta_block_opened before d value delta d' : blocks_opened before d -> delta_block d value delta = (Ok tt, d') ->
  let event := mkStreamEvent (ContentBlockDelta delta) value in
  block_in_place before event /\ blocks_opened (before ++ [event]) d'.
Proof.
  intros Hb Hv event. unfold delta_block in Hv.
  destruct (required_index value) as [index|] eqn:Ei; [|done]. apply required_index_ok in Ei.
  destruct (md_blocks d !! index) as [block|] eqn:Eo; [|done]. destruct (_ && _) eqn:Ec; [done|].
  assert (Hi : event_index event = Some index) by done. split.
  { intros i Hx. rewrite Hi in Hx. injection Hx as <-. destruct (Hb _ _ Eo) as (start & later & Hs & Hk & _).
    exists start, later, (ob_kind block). split_and!; try done. apply delta_compatible_suits.
    apply andb_false_iff in Ec as [Ec|Ec]; apply negb_false_iff in Ec; auto. }
  intros i b Hl. assert (delta = DeltaInputJson \/ delta <> DeltaInputJson) as [->|Hd] by (destruct delta; naive_solver).
  - destruct (object_of "delta" value ≫= _) as [text|] eqn:Et; [|done]. injection Hv as <-. simpl in Hl.
    assert (Hf : fragment i event = if bool_decide (index = i) then text else "").
    { unfold fragment, event. cbn [ev_kind ev_value]. fold event. rewrite Hi, Et. repeat case_bool_decide; naive_solver. }
    destruct (decide (i = index)) as [->|Hne].
    + rewrite lookup_insert_eq in Hl. injection Hl as <-. rewrite bool_decide_eq_true_2 in Hf by done.
      rewrite <-Hf. apply opened_later; [by apply Hb|done].
    + rewrite lookup_insert_ne in Hl by done. rewrite bool_decide_eq_false_2 in Hf by done.
      apply opened_keep; [by apply Hb|done|done].
  - assert (d' = d) as -> by (by destruct delta; simplify_eq). apply opened_keep; [by apply Hb|done|by destruct delta].
Qed.

Lemma stop_block_opened before d value d' : blocks_opened before d -> stop_block d value = (Ok tt, d') ->
  let event := mkStreamEvent ContentBlockStop value in
  block_in_place before event /\ blocks_opened (before ++ [event]) d'.
Proof.
  intros Hb Hv event. unfold stop_block in Hv.
  destruct (required_index value) as [index|] eqn:Ei; [|done]. apply required_index_ok in Ei.
  destruct (md_blocks d !! index) as [block|] eqn:Eo; [|done]. destruct (_ && _) eqn:Ec; [done|]. injection Hv as <-. split.
  - intros i Hx. unfold event, event_index in Hx. cbn [ev_value] in Hx. rewrite Ei in Hx. injection Hx as <-.
    destruct (Hb _ _ Eo) as (start & later & Hs & Hk & Hp). exists start, later, (ob_kind block). split_and!; try done.
    intros Hkind. rewrite <-Hp. unfold KIND_TOOL_USE in Ec. rewrite Hkind in Ec. simpl in Ec.
    destruct (json_from_str _); [by eexists|done].
  - intros i b. simpl. intros [_ Hl]%lookup_delete_Some. apply opened_keep; [by apply Hb|done|done].
Qed.

Lemma validate_opened before d event d' : blocks_opened before d ->
  validate_lifecycle d (ev_kind event) (ev_value event) = (Ok tt, d') ->
  block_in_place before event /\ blocks_opened (before ++ [event]) d'.
Proof.
  intros Hb Hv. destruct event as [kind value]. simpl in Hv.
  assert (Hplain : match kind with ContentBlockStart | ContentBlockDelta _ | ContentBlockStop => False | _ => True end ->
    md_blocks d' = md_blocks d ->
    block_in_place before (mkStreamEvent kind value) /\ blocks_opened (before ++ [mkStreamEvent kind value]) d').
  { intros Hk Hd. split; [intros i _; by destruct kind|]. intros i b Hl. rewrite Hd in Hl.
    apply opened_keep; [by apply Hb|by destruct kind..]. }
  unfold validate_lifecycle in Hv. destruct (md_terminal d); [done|].
  destruct kind as [| |delta| | | | | |name]; try (destruct (md_started d); [|done]; cbn [negb] in Hv).
  - destruct (md_started d); [done|]. cbn [negb] in Hv. destruct (let? message := _ in _); simplify_eq. by apply Hplain.
  - split; [by intros i _|by eapply start_block_opened].
  - by eapply delta_block_opened.
  - by eapply stop_block_opened.
  - destruct (_ && _); [|done]. destruct (_ || _); simplify_eq. by apply Hplain.
  - destruct (_ && _); simplify_eq. by apply Hplain.
  - simplify_eq. by apply Hplain.
  - destruct (let? error := _ in _); simplify_eq. by apply Hplain.
  - simplify_eq. by apply Hplain.
Qed.


(** All frames of the chunks of one exchange that ends after the last. *)
Fixpoint decode_chunks (self : MessagesStreamDecoder) (chunks : list string)
    : result MessagesAdapterError (list StreamEvent * MessagesStreamDecoder) :=
  match chunks with
  | [] => Ok ([], self)
  | chunk :: chunks =>
      match decoder_push self chunk with
      | (Ok events, self) => let? (more, self) := decode_chunks self chunks in Ok (events ++ more, self)
      | (Err e, _) => Err e
      end
  end.
Definition decode_exchange (chunks : list string) : result MessagesAdapterError (list StreamEvent) :=
  let? (events, self) := decode_chunks stream_decoder_new chunks in
  (decoder_finish self).1 ?; Ok events.

Definition messages_lifecycle (events : list StreamEvent) : Prop :=
  forall before event after, events = before ++ event :: after ->
    counts_in_place before event /\ block_in_place before event.
Definition follows (before : list StreamEvent) (d : MessagesStreamDecoder) : Prop :=
  messages_lifecycle before /\ messages_state before d /\ blocks_opened before d.

Lemma lifecycle_snoc before event : messages_lifecycle before ->
  counts_in_place before event /\ block_in_place before event -> messages_lifecycle (before ++ [event]).
Proof.
  intros Hwf Hin pre e post Heq. destruct post as [|x post _] using rev_ind.
  - by apply app_inj_tail in Heq as [-> ->].
  - rewrite app_comm_cons, app_assoc in Heq. apply app_inj_tail in Heq as [-> _]. by eapply Hwf.
Qed.

Lemma follows_sse before d sse : follows before d -> follows before (d <| md_sse := sse |>).
Proof. intros [Hl [[? ? ? ?] Hb]]. split; [done|]. split; [by split|exact Hb]. Qed.

Lemma accept_frames_follow frames before d events d' : follows before d ->
  accept_frames d frames = (Ok events, d') -> follows (before ++ events) d'.
Proof.
  revert before d events. induction frames as [|frame frames IH]; intros before d events Hd; simpl.
  { intros [= <- <-]. by rewrite app_nil_r. }
  unfold accept_frame. destruct (let? value := _ in _) as [event|]; [|done].
  destruct (validate_lifecycle d (ev_kind event) (ev_value event)) as [[[]|] d1] eqn:Ev; [|done].
  destruct (accept_frames d1 frames) as [[more|] d2] eqn:E2; [|done]. intros [= <- <-].
  rewrite (app_assoc before [event] more : before ++ event :: more = _). eapply IH; [|done].
  destruct Hd as (Hl & Hd & Hb). destruct (validate_step before d event d1 Hd Ev), (validate_opened before d event d1 Hb Ev).
  split; [by apply lifecycle_snoc|done].
Qed.

Lemma decode_chunks_follow chunks before d events d' : follows before d ->
  decode_chunks d chunks = Ok (events, d') -> follows (before ++ events) d'.
Proof.
  revert before d events. induction chunks as [|chunk chunks IH]; intros before d events Hd; simpl.
  { intros [= <- <-]. by rewrite app_nil_r. }
  unfold decoder_push. destruct (sse_push (md_sse d) chunk) as [[frames|] sse]; [|done].
  destruct (accept_frames _ frames) as [[out|] d1] eqn:E; [|done].
  destruct (decode_chunks d1 chunks) as [[more d2]|] eqn:E2; [|done]. intros [= <- <-]. rewrite app_assoc.
  eapply IH; [|done]. eapply accept_frames_follow; [|done]. by apply follows_sse.
Qed.

(** C24: Whatever the division of the bytes into chunks, the events of an exchange the Messages
    adapter reads to its end are a lifecycle: the start first and once, a content block opened
    only while no block of its index is open, touched and stopped only while it is, by deltas that
    suit its kind, and stopped as a tool call only when the fragments of its input parse together;
    nothing follows the terminal event, every block started was stopped, and the last event is
    terminal. *)
Theorem messages_exchange_complete chunks events : decode_exchange chunks = Ok events ->
  messages_lifecycle events /\
  (forall i, count (starts_block i) events = count (stops_block i) events) /\
  exists before event, events = before ++ [event] /\ is_terminal_event event = true.
Proof.
  unfold decode_exchange. destruct (decode_chunks _ chunks) as [[out d]|] eqn:E; [|done].
  apply (decode_chunks_follow chunks []) in E as (Hl & Hd & _); [|split; [by intros [] ? ? [=]|by split]]. simpl in Hl, Hd.
  unfold decoder_finish. destruct (sse_finish _) as [[[]|] sse]; [|done]. simpl.
  destruct (md_terminal d && no_open_block _) eqn:Et; simpl; [|done]. intros [= <-]. bool_hyps. split; [done|]. split.
  { intros i. unfold no_open_block in *. bool_hyps. simpl in *. rewrite (mt_blocks _ _ Hd), H1, lookup_empty. simpl. lia. }
  rewrite (mt_terminal _ _ Hd) in H0. apply existsb_exists in H0 as (e & Hin & Hte). apply list_elem_of_In in Hin.
  apply list_elem_of_split in Hin as (pre & post & Heq). destruct post as [|x post]; [by exists pre, e|].
  exfalso. assert (Hip : counts_in_place (pre ++ [e]) x). { apply (Hl _ _ post). by rewrite Heq, <-app_assoc. }
  rewrite (cp_terminal _ _ Hip e) in Hte; [done|]. set_solver.
Qed.
End lifecycle.

Module MessagesSample.
#[local] Existing Instance model_externals.
Definition text_of_value (v : Value) : string := match encode v with Ok text => text | Err _ => "" end.
Definition values : list Value :=
  [Obj [("message", Obj [("content", Arr []); ("id", Str "m1"); ("model", Str "model-1"); ("role", Str "assistant");
      ("type", Str "message"); ("usage", Obj [("input_tokens", Num (PosInt 12)); ("output_tokens", Num (PosInt 0))])]);
    ("type", Str "message_start")];
   Obj [("type", Str "ping")];
   Obj [("content_block", Obj [("text", Str ""); ("type", Str "text")]); ("index", Num (PosInt 0)); ("type", Str "content_block_start")];
   Obj [("delta", Obj [("text", Str "hello"); ("type", Str "text_delta")]); ("index", Num (PosInt 0)); ("type", Str "content_block_delta")];
   Obj [("index", Num (PosInt 0)); ("type", Str "content_block_stop")];
   Obj [("delta", Obj [("stop_reason", Str "end_turn")]); ("type", Str "message_delta"); ("usage", Obj [("output_tokens", Num (PosInt 3))])];
   Obj [("type", Str "message_stop")]].
Definition bytes : string := print_frames ((fun v => mkSseFrame None (text_of_value v) None None) <$> values).
Definition chunks : list string := [str_take 40 bytes; str_take 300 (str_drop 40 bytes); str_drop 340 bytes].
Definition events : list StreamEvent := match decode_exchange chunks with Ok events => events | Err _ => [] end.
End MessagesSample.

Lemma messages_exchange_complete_witness :
  length MessagesSample.events = 7%nat /\ @messages_lifecycle model_externals MessagesSample.events.
Proof.
  split; [vm_compute; reflexivity|].
  apply (@messages_exchange_complete model_externals MessagesSample.chunks MessagesSample.events).
  vm_compute. reflexivity.
Defined.
