(* ===== verification/Compatible.v ===== *)
(** * The compatible providers ([providers/compatible/src])

    The mapping of a neutral request into the Responses and Messages protocols, the
    normalisation of their terminals, the names of tools on the wire, the references
    that carry reasoning, and the two mappers of stream events.  [json_to_string] is
    [serde_json::to_string] of a value. *)

From S2P Require Import Prelude Text Json Sse Responses Messages ModelTypes.

Class JsonWriter := json_to_string : Value -> string.

(** ** Errors ([error.rs]) *)

Inductive CompatibleProviderError :=
  | ProviderInvalidRequest (error : RequestValidationError)
  | TargetMismatch
  | UnsupportedCapability (capability : ModelCapability)
  | InvalidJsonObject
  | UnsupportedInput
  | UnsupportedMetadata
  | MissingMediaBinding
  | MissingOutputLimit
  | InvalidProtocolRequest
  | UnsupportedExtension
  | UnclassifiedProtocolError
  | ProtocolInvariant.

Definition provider_error_code (self : CompatibleProviderError) : string :=
  match self with
  | ProviderInvalidRequest _ => "invalid_request"
  | TargetMismatch => "target_mismatch"
  | UnsupportedCapability _ => "unsupported_capability"
  | InvalidJsonObject => "invalid_json_object"
  | UnsupportedInput => "unsupported_input"
  | UnsupportedMetadata => "unsupported_metadata"
  | MissingMediaBinding => "missing_media_binding"
  | MissingOutputLimit => "missing_output_limit"
  | InvalidProtocolRequest => "invalid_protocol_request"
  | UnsupportedExtension => "unsupported_extension"
  | UnclassifiedProtocolError => "unclassified_protocol_error"
  | ProtocolInvariant => "protocol_invariant"
  end.

(** ** Deployments ([deployment.rs]) *)

Record ErrorSignature := mkErrorSignature {
  es_status : Z;
  es_protocol_type : string;
  es_code : option string;
}.
(** The fields an [ErrorSignature] is ordered by. *)
Definition signature_key (self : ErrorSignature) : Z * string * option string :=
  (es_status self, es_protocol_type self, es_code self).
Inductive ErrorDisposition :=
  | DispositionRejected (kind : RejectionKind)
  | DispositionUnavailable (kind : UnavailableKind)
  | DispositionInterrupted (kind : InterruptionKind).
Inductive PolicyBuildError := DuplicateSignature.
Definition ProtocolErrorPolicy : Type := gmap (Z * string * option string) ErrorDisposition.

Definition policy_new (mappings : list (ErrorSignature * ErrorDisposition))
    : result PolicyBuildError ProtocolErrorPolicy :=
  try_fold (fun policy mapping =>
      reject DuplicateSignature when is_some ((policy : ProtocolErrorPolicy) !! signature_key mapping.1);
      Ok (<[signature_key mapping.1 := mapping.2]> policy))
    (∅ : ProtocolErrorPolicy) mappings.
Definition policy_classify (self : ProtocolErrorPolicy) (signature : ErrorSignature) : option ErrorDisposition :=
  (self : gmap _ _) !! signature_key signature.

Inductive ResponsesMediaBinding :=
  | BindingUrl (value : string) (detail : option ImageDetail)
  | BindingFileId (value : string) (detail : option ImageDetail).
Inductive MessagesMediaBinding :=
  | BindingImage (source : ImageSource)
  | BindingDocument (source : DocumentSource).

(** The [BTreeSet] of capabilities by its elements. *)
Record ResponsesDeployment := mkResponsesDeployment {
  rd_target_id : string;
  rd_model_id : string;
  rd_capabilities : list ModelCapability;
  rd_default_max_output_tokens : option Z;
  rd_media_bindings : gmap string ResponsesMediaBinding;
  rd_reasoning : option ReasoningConfig;
  rd_error_policy : ProtocolErrorPolicy;
}.
Record MessagesDeployment := mkMessagesDeployment {
  md_target_id : string;
  md_model_id : string;
  md_capabilities : list ModelCapability;
  md_default_max_output_tokens : option Z;
  md_media_bindings : gmap string MessagesMediaBinding;
  md_thinking : option ThinkingConfig;
  md_error_policy : ProtocolErrorPolicy;
}.

(** ** Tool names ([tool_name.rs]) *)

Definition MAX_PORTABLE_WIRE_NAME_BYTES : Z := 64.
Definition portable_name_byte (c : ascii) : bool :=
  is_ascii_digit c || is_ascii_uppercase c || ((97 <=? byte_code c) && (byte_code c <=? 122))
  || (byte_code c =? 95) || (byte_code c =? 45).

Section names.
Context `{Externals}.

Definition wire_tool_name (name : string) : string :=
  if negb (str_is_empty name) && (str_len name <=? MAX_PORTABLE_WIRE_NAME_BYTES) && all_bytes portable_name_byte name
  then name
  else "garive_" +:+ str_take 57 (sha256_hex name).

(** The loop that builds the request-local map. *)
Definition wire_names (tools : list ToolDescriptor) : result CompatibleProviderError (gmap string string) :=
  try_fold (fun names tool =>
      reject ProtocolInvariant when is_some ((names : gmap string string) !! wire_tool_name (td_name tool));
      Ok (<[wire_tool_name (td_name tool) := td_name tool]> names))
    ∅ tools.

Definition restore_item (names : gmap string string) (item : ModelItem) : result CompatibleProviderError ModelItem :=
  match item with
  | ItemToolIntent model_call_id tool_name arguments_json =>
      let? neutral := ok_or (names !! tool_name) ProtocolInvariant in
      Ok (ItemToolIntent model_call_id neutral arguments_json)
  | _ => Ok item
  end.

(** The outcome after the names are restored in place; a failed call leaves nothing
    a caller reads. *)
Definition restore_neutral_tool_names (outcome : InvokeOutcome) (tools : list ToolDescriptor)
    : result CompatibleProviderError InvokeOutcome :=
  let? names := wire_names tools in
  match outcome with
  | Completed items usage stop_reason =>
      let? items := try_map (restore_item names) items in Ok (Completed items usage stop_reason)
  | Interrupted kind partial_items usage =>
      let? items := try_map (restore_item names) partial_items in Ok (Interrupted kind items usage)
  | _ => Ok outcome
  end.
End names.

(** ** Reasoning references ([reasoning_reference.rs]) *)

Definition THINKING_KIND : string := "anthropic.messages.thinking.v1".
Definition REDACTED_KIND : string := "anthropic.messages.redacted-thinking.v1".

Definition thinking_value (thinking signature : string) : Value :=
  Obj [("kind", Str THINKING_KIND); ("signature", Str signature); ("thinking", Str thinking)].
Definition redacted_value (data : string) : Value := Obj [("data", Str data); ("kind", Str REDACTED_KIND)].

Definition nonempty_member (reference : Map) (key : string) : result CompatibleProviderError string :=
  let? text := ok_or (map_get key reference ≫= as_str) UnsupportedInput in
  reject UnsupportedInput when str_is_empty text;
  Ok text.

Section references.
Context `{Externals, JsonWriter}.

Definition encode_thinking (thinking signature : string) : result CompatibleProviderError string :=
  reject ProtocolInvariant when str_is_empty thinking || str_is_empty signature;
  Ok (json_to_string (thinking_value thinking signature)).
Definition encode_redacted (data : string) : result CompatibleProviderError string :=
  reject ProtocolInvariant when str_is_empty data;
  Ok (json_to_string (redacted_value data)).

Definition decode_reference (reference : string) : result CompatibleProviderError ContentBlock :=
  match json_from_str reference with
  | Some (Obj reference) =>
      match map_get "kind" reference ≫= as_str with
      | Some kind =>
          if (kind =? THINKING_KIND)%string && (length reference =? 3)%nat then
            let? thinking := nonempty_member reference "thinking" in
            let? signature := nonempty_member reference "signature" in
            Ok (BlockThinking thinking signature)
          else if (kind =? REDACTED_KIND)%string && (length reference =? 2)%nat then
            let? data := nonempty_member reference "data" in
            Ok (BlockRedactedThinking data)
          else Err UnsupportedInput
      | None => Err UnsupportedInput
      end
  | _ => Err UnsupportedInput
  end.
End references.

(** ** Requests ([request.rs]) *)

Section requests.
Context `{Externals, JsonWriter}.

Definition admit_request (target_id : string) (capabilities : list ModelCapability) (request : ModelRequest)
    : result CompatibleProviderError unit :=
  match model_request_validate request with
  | Err e => Err (ProviderInvalidRequest e)
  | Ok _ =>
      reject TargetMismatch when negb (mr_target_id request =? target_id)%string;
      match List.find (fun c => negb (bool_decide (c ∈ capabilities))) (mr_required_capabilities request) with
      | Some capability => Err (UnsupportedCapability capability)
      | None => Ok tt
      end
  end.

Definition requires (request : ModelRequest) (capability : ModelCapability) : bool :=
  bool_decide (capability ∈ mr_required_capabilities request).

Definition json_object (encoded : string) : result CompatibleProviderError Map :=
  match json_from_str encoded with Some (Obj object) => Ok object | _ => Err InvalidJsonObject end.

Definition responses_role (role : ModelRole) : Responses.MessageRole :=
  match role with
  | RoleSystem => Responses.System
  | RoleDeveloper => Responses.Developer
  | RoleUser => Responses.User
  | RoleAssistant => Responses.Assistant
  end.

Definition responses_content (deployment : ResponsesDeployment) (content : ModelInputContent)
    : result CompatibleProviderError InputContent :=
  match content with
  | ContentText text => Ok (InputText text)
  | ContentMediaReference Image reference _ =>
      match rd_media_bindings deployment !! reference with
      | Some (BindingUrl value detail) => Ok (InputImage (Some value) None detail)
      | Some (BindingFileId value detail) => Ok (InputImage None (Some value) detail)
      | None => Err MissingMediaBinding
      end
  | ContentMediaReference _ _ _ => Err UnsupportedInput
  end.

Definition responses_tool (tool : ToolDescriptor) : result CompatibleProviderError ResponseTool :=
  let? parameters := json_object (td_input_schema_json tool) in
  Ok (FunctionTool_ (mkFunctionTool (wire_tool_name (td_name tool)) (Some (td_description tool)) parameters
    (td_strict tool))).

Definition responses_text_mode (mode : TextMode) : result CompatibleProviderError TextFormat :=
  match mode with
  | Plain => Ok FormatText
  | JsonObject => Ok FormatJsonObject
  | JsonSchema schema_json =>
      let? schema := json_object schema_json in
      Ok (FormatJsonSchema "garive_output" None schema true)
  end.

Definition responses_item (deployment : ResponsesDeployment) (item : ModelInputItem)
    : result CompatibleProviderError InputItem :=
  match item with
  | InputMessage role content =>
      let? content := try_map (responses_content deployment) content in
      Ok (ItemMessage (responses_role role) content)
  | InputToolIntent model_call_id tool_name arguments_json =>
      Ok (ItemFunctionCall (mkFunctionCall model_call_id (wire_tool_name tool_name) arguments_json))
  | InputToolObservation model_call_id result_json =>
      Ok (ItemFunctionCallOutput (mkCallOutput model_call_id (OutputString result_json) (Some ItemCompleted)))
  | InputReasoningReference _ => Err UnsupportedInput
  end.

(** [Option::or] *)
Definition option_or {A} (a b : option A) : option A := match a with Some _ => a | None => b end.

Definition map_responses_request (deployment : ResponsesDeployment) (request : ModelRequest)
    : result CompatibleProviderError CreateResponseRequest :=
  admit_request (rd_target_id deployment) (rd_capabilities deployment) request ?;
  reject (UnsupportedCapability CapReasoning) when
    mo_reasoning_visibility (mr_output request) && is_none (rd_reasoning deployment);
  let? items := try_map (responses_item deployment) (mr_input_items request) in
  let? tools := try_map responses_tool (mr_tools request) in
  let? format := responses_text_mode (mo_text_mode (mr_output request)) in
  let mapped := Responses.mkCreateRequest (rd_model_id deployment) (InputItems items)
    (option_or (mo_max_output_tokens (mr_output request)) (rd_default_max_output_tokens deployment))
    None None None tools (match tools with [] => None | _ => Some (ChoiceMode Responses.ChoiceAuto) end) None
    (Some (mkTextConfig format)) (rd_reasoning deployment) (list_to_map (reverse (mr_trace_metadata request)))
    (requires request CapStreaming) None [] in
  match Responses.create_validate mapped with
  | Ok _ => Ok mapped
  | Err _ => Err InvalidProtocolRequest
  end.

Definition messages_role (role : ModelRole) : result CompatibleProviderError MessageRole :=
  match role with
  | RoleUser => Ok User
  | RoleAssistant => Ok Assistant
  | RoleSystem | RoleDeveloper => Err UnsupportedInput
  end.

Definition messages_content (deployment : MessagesDeployment) (content : ModelInputContent)
    : result CompatibleProviderError ContentBlock :=
  match content with
  | ContentText text => Ok (BlockText text None)
  | ContentMediaReference _ reference _ =>
      match md_media_bindings deployment !! reference with
      | Some (BindingImage source) => Ok (BlockImage source None)
      | Some (BindingDocument source) => Ok (BlockDocument source None None None None)
      | None => Err MissingMediaBinding
      end
  end.

Definition messages_tool (tool : ToolDescriptor) : result CompatibleProviderError Tool :=
  let? input_schema := json_object (td_input_schema_json tool) in
  Ok (mkTool (wire_tool_name (td_name tool)) input_schema (Some (td_description tool)) (Some (td_strict tool)) None).

Definition messages_output (mode : TextMode) : result CompatibleProviderError (option OutputConfig) :=
  match mode with
  | Plain => Ok None
  | JsonObject => Ok (Some (mkOutputConfig None (Some (mkJsonFormat [("type", Str "object")]))))
  | JsonSchema schema_json =>
      let? schema := json_object schema_json in
      Ok (Some (mkOutputConfig None (Some (mkJsonFormat schema))))
  end.

Definition is_tool_result (block : ContentBlock) : bool :=
  match block with BlockToolResult _ _ _ _ => true | _ => false end.

(** The turns are pushed at the end of the vector. *)
Definition push_message_block (turns : list Message) (role : MessageRole) (block : ContentBlock) : list Message :=
  let fresh := turns ++ [mkTurn role (ContentBlocks [block])] in
  match last turns with
  | Some (mkTurn previous_role (ContentBlocks blocks)) =>
      let may_join := if is_tool_result block then forallb is_tool_result blocks else true in
      if bool_decide (previous_role = role) && may_join
      then removelast turns ++ [mkTurn previous_role (ContentBlocks (blocks ++ [block]))]
      else fresh
  | _ => fresh
  end.

(** The locals of the loop over the input items. *)
Record Conversation := mkConversation {
  cv_system : list TextBlock;
  cv_turns : list Message;
  cv_started : bool;
}.
Definition say (role : MessageRole) (block : ContentBlock) (self : Conversation) : Conversation :=
  mkConversation (cv_system self) (push_message_block (cv_turns self) role block) true.

Definition system_part (system : list TextBlock) (part : ModelInputContent)
    : result CompatibleProviderError (list TextBlock) :=
  match part with ContentText text => Ok (system ++ [mkTextBlock text None None]) | _ => Err UnsupportedInput end.
Definition message_part (deployment : MessagesDeployment) (role : MessageRole) (self : Conversation)
    (part : ModelInputContent) : result CompatibleProviderError Conversation :=
  let? block := messages_content deployment part in Ok (say role block self).

Definition messages_item (deployment : MessagesDeployment) (self : Conversation) (item : ModelInputItem)
    : result CompatibleProviderError Conversation :=
  match item with
  | InputMessage (RoleSystem | RoleDeveloper) content =>
      reject UnsupportedInput when cv_started self;
      let? system := try_fold system_part (cv_system self) content in
      Ok (mkConversation system (cv_turns self) (cv_started self))
  | InputMessage role content =>
      let? role := messages_role role in
      try_fold (message_part deployment role) (mkConversation (cv_system self) (cv_turns self) true) content
  | InputToolIntent model_call_id tool_name arguments_json =>
      let? input := json_object arguments_json in
      Ok (say Assistant (BlockToolUse model_call_id (wire_tool_name tool_name) input None) self)
  | InputToolObservation model_call_id result_json =>
      Ok (say User (BlockToolResult model_call_id (Some (ResultString result_json)) None None) self)
  | InputReasoningReference reference =>
      let? block := decode_reference reference in
      Ok (say Assistant block self)
  end.

Definition map_messages_request (deployment : MessagesDeployment) (request : ModelRequest)
    : result CompatibleProviderError CreateMessageRequest :=
  admit_request (md_target_id deployment) (md_capabilities deployment) request ?;
  reject UnsupportedMetadata when
    existsb (fun p => negb ((p.1 =? "turn_id")%string || (p.1 =? "execution_id")%string)) (mr_trace_metadata request);
  reject (UnsupportedCapability CapReasoning) when
    mo_reasoning_visibility (mr_output request) && is_none (md_thinking deployment);
  let? max_tokens := ok_or (option_or (mo_max_output_tokens (mr_output request))
    (md_default_max_output_tokens deployment)) MissingOutputLimit in
  let? conversation := try_fold (messages_item deployment) (mkConversation [] [] false) (mr_input_items request) in
  let? tools := try_map messages_tool (mr_tools request) in
  let? output_config := messages_output (mo_text_mode (mr_output request)) in
  let mapped := Messages.mkCreateRequest (md_model_id deployment) max_tokens (cv_turns conversation)
    (requires request CapStreaming)
    (match cv_system conversation with [] => None | system => Some (SystemBlocks system) end)
    [] None None None tools (match tools with [] => None | _ => Some (ChoiceAuto None) end)
    output_config (md_thinking deployment) None [] in
  match Messages.create_validate mapped with
  | Ok _ => Ok mapped
  | Err _ => Err InvalidProtocolRequest
  end.
End requests.

(** ** Terminals ([outcome.rs]) *)

Definition unknown_usage : ModelUsage := mkModelUsage Unknown Unknown None None ProviderReported.

(** The decimal text of a status. *)
Definition classify_protocol_error (policy : ProtocolErrorPolicy) (signature : ErrorSignature)
    (retry_after : option Z) : result CompatibleProviderError InvokeOutcome :=
  match policy_classify policy signature with
  | Some (DispositionRejected kind) =>
      Ok (Rejected kind ("status=" +:+ nat_to_string (es_status signature) +:+ ";type=" +:+ es_protocol_type signature
        +:+ ";code=" +:+ default "" (es_code signature)))
  | Some (DispositionUnavailable kind) => Ok (Unavailable kind retry_after)
  | Some (DispositionInterrupted kind) => Ok (Interrupted kind [] unknown_usage)
  | None => Err UnclassifiedProtocolError
  end.

Definition is_tool_intent (item : ModelItem) : bool := match item with ItemToolIntent _ _ _ => true | _ => false end.
Definition is_refusal (item : ModelItem) : bool := match item with ItemRefusal _ => true | _ => false end.
Definition inferred_stop (items : list ModelItem) : ModelStopReason :=
  if existsb is_tool_intent items then ToolUse
  else if existsb is_refusal items then StopRefusal
  else EndTurn.

Definition responses_usage (value : ResponseUsage) : ModelUsage :=
  mkModelUsage (Known (Responses.us_input_tokens value)) (Known (Responses.us_output_tokens value))
    (Some (Known (id_cached_tokens (us_input_tokens_details value))))
    (Some (Known (id_cache_write_tokens (us_input_tokens_details value)))) ProviderReported.
Definition messages_usage (value : Usage) : ModelUsage :=
  mkModelUsage (Known (us_input_tokens value)) (Known (us_output_tokens value))
    (Known <$> us_cache_read_input_tokens value) (Known <$> us_cache_creation_input_tokens value) ProviderReported.

(** The last two reasons are handled before a completed terminal; the source panics
    on them. *)
Definition messages_stop (reason : StopReason) : ModelStopReason :=
  match reason with
  | StopEndTurn => EndTurn
  | StopStopSequence => StopSequence
  | StopToolUse => ToolUse
  | StopPauseTurn => PauseTurn
  | Messages.StopRefusal => StopRefusal
  | StopMaxTokens | StopModelContextWindowExceeded => OtherStop "unreachable"
  end.

Definition responses_part (content : OutputContent) : result CompatibleProviderError ModelItem :=
  match content with
  | Responses.ContentText value => Ok (ItemText (Responses.ot_text value))
  | ContentRefusal value => Ok (ItemRefusal (or_refusal value))
  | ContentExtension _ => Err UnsupportedExtension
  end.

Section outcomes.
Context `{Externals, JsonWriter}.

Definition canonical_object (encoded : string) : result CompatibleProviderError string :=
  match json_from_str encoded with
  | Some (Obj object) => Ok (json_to_string (Obj object))
  | _ => Err ProtocolInvariant
  end.

(** The items one output item gives. *)
Definition responses_output (reasoning_visibility : bool) (item : ResponseOutputItem)
    : result CompatibleProviderError (list ModelItem) :=
  match item with
  | OutMessage message => try_map responses_part (rm_content message)
  | OutFunctionCall call =>
      let? arguments := canonical_object (rf_arguments call) in
      Ok [ItemToolIntent (rf_call_id call) (rf_name call) arguments]
  | Responses.OutReasoning reasoning =>
      if reasoning_visibility then
        let parts := default (rr_summary reasoning) (rr_content reasoning) in
        match parts with
        | [] => Ok []
        | _ => Ok [ItemReasoning (ModelVisible (String.concat "" (rp_text <$> parts)))]
        end
      else match rr_encrypted_content reasoning with
           | Some reference => Ok [ItemReasoning (OpaqueReference reference)]
           | None => Ok []
           end
  | Responses.OutExtension _ => Err UnsupportedExtension
  end.
Definition responses_items (output : list ResponseOutputItem) (reasoning_visibility : bool)
    : result CompatibleProviderError (list ModelItem) :=
  try_fold (fun items item => let? more := responses_output reasoning_visibility item in Ok (items ++ more)) [] output.

Definition normalize_responses (response : Response) (reasoning_visibility : bool)
    : result CompatibleProviderError InvokeOutcome :=
  let? items := responses_items (rs_output response) reasoning_visibility in
  let usage := match rs_usage response with Some usage => responses_usage usage | None => unknown_usage end in
  match rs_status response, rs_error response with
  | Some StatusCompleted, None => Ok (Completed items usage (inferred_stop items))
  | Some StatusIncomplete, None =>
      if bool_decide ((ic_reason <$> rs_incomplete_details response) = Some "max_output_tokens")
      then Ok (Interrupted OutputLimit items usage) else Err ProtocolInvariant
  | Some StatusCancelled, None => Ok (Interrupted InterruptCancelled items usage)
  | _, _ => Err ProtocolInvariant
  end.

Definition messages_block (reasoning_visibility refusal : bool) (block : OutputBlock)
    : result CompatibleProviderError ModelItem :=
  match block with
  | Messages.OutText value => Ok (if refusal then ItemRefusal (ot_text value) else ItemText (ot_text value))
  | OutThinking value =>
      if reasoning_visibility then Ok (ItemReasoning (ModelVisible (oh_thinking value)))
      else let? reference := encode_thinking (oh_thinking value) (oh_signature value) in
           Ok (ItemReasoning (OpaqueReference reference))
  | OutRedactedThinking value =>
      let? reference := encode_redacted (ox_data value) in Ok (ItemReasoning (OpaqueReference reference))
  | OutToolUse value => Ok (ItemToolIntent (ou_id value) (ou_name value) (json_to_string (Obj (ou_input value))))
  | Messages.OutExtension _ => Err UnsupportedExtension
  end.
Definition messages_items (content : list OutputBlock) (reasoning_visibility refusal : bool)
    : result CompatibleProviderError (list ModelItem) := try_map (messages_block reasoning_visibility refusal) content.

Definition normalize_messages (response : MessageResponse) (reasoning_visibility : bool)
    : result CompatibleProviderError InvokeOutcome :=
  let? items := messages_items (ms_content response) reasoning_visibility
    (bool_decide (ms_stop_reason response = Some Messages.StopRefusal)) in
  let usage := messages_usage (ms_usage response) in
  match ms_stop_reason response with
  | Some StopMaxTokens => Ok (Interrupted OutputLimit items usage)
  | Some StopModelContextWindowExceeded => Ok (Rejected ContextOverflow "model_context_window_exceeded")
  | Some reason => Ok (Completed items usage (messages_stop reason))
  | None => Err ProtocolInvariant
  end.
End outcomes.

(** ** Stream mapping ([stream.rs]) *)

Record StreamMapping := mkStreamMapping { sm_events : list ModelStreamEvent; sm_terminal : option InvokeOutcome }.
Definition mapping_events (events : list ModelStreamEvent) : StreamMapping := mkStreamMapping events None.
Definition mapping_terminal (terminal : InvokeOutcome) : StreamMapping := mkStreamMapping [] (Some terminal).
Definition mapping_empty : StreamMapping := mapping_events [].
Definition completed (output_index : Z) (item : ModelItem) : StreamMapping :=
  mapping_events [OutputItemCompleted output_index item].

Inductive StreamMappingError := StreamProvider (error : CompatibleProviderError) | StreamInvariant.
(** [?] on a provider error. *)
Definition provider {A} (r : result CompatibleProviderError A) : result StreamMappingError A :=
  match r with Ok a => Ok a | Err e => Err (StreamProvider e) end.

Definition stream_required (object : Map) (key : string) : result StreamMappingError Value :=
  ok_or (map_get key object) StreamInvariant.
Definition stream_u64 (object : Map) (key : string) : result StreamMappingError Z :=
  ok_or (map_get key object ≫= as_u64) StreamInvariant.
Definition stream_str (object : Map) (key : string) : result StreamMappingError string :=
  ok_or (map_get key object ≫= as_str) StreamInvariant.
Definition stream_as {A} (read : Decoder A) (object : Map) (key : string) : result StreamMappingError A :=
  let? value := stream_required object key in ok_or (read value) StreamInvariant.

(** *** Responses *)

Inductive ResponsesKey := KeyItem (output_index : Z) | KeyContent (output_index content_index : Z).
#[export] Instance ResponsesKey_eq_dec : EqDecision ResponsesKey.
Proof. solve_decision. Defined.
#[export] Instance ResponsesKey_countable : Countable ResponsesKey.
Proof.
  refine (inj_countable'
    (fun k => match k with KeyItem i => (i, None) | KeyContent i c => (i, Some c) end)
    (fun p => match p with (i, None) => KeyItem i | (i, Some c) => KeyContent i c end) _).
  by intros [].
Defined.

Record ResponsesOpen := mkResponsesOpen { op_neutral_index : Z; op_kind : ModelOutputKind }.
Record ResponsesStreamMapper := mkResponsesMapper {
  rx_reasoning_visibility : bool;
  rx_next_index : Z;
  rx_open : gmap ResponsesKey ResponsesOpen;
}.
#[export] Instance ResponsesStreamMapper_eta : Eta ResponsesStreamMapper := fun r =>
  mkResponsesMapper (rx_reasoning_visibility r) (rx_next_index r) (rx_open r).
Definition responses_mapper_new (reasoning_visibility : bool) : ResponsesStreamMapper :=
  mkResponsesMapper reasoning_visibility 0 ∅.

Inductive Delta := TextD | RefusalD | ReasoningD | ToolArgumentsD.

(** The result of an operation with the mapper it leaves, on failure too. *)
Abbreviation Mapped := (result StreamMappingError StreamMapping * ResponsesStreamMapper)%type (only parsing).

Definition responses_start (self : ResponsesStreamMapper) (key : ResponsesKey) (kind : ModelOutputKind) : Mapped :=
  let neutral_index := rx_next_index self in
  if u32_max <=? neutral_index then (Err StreamInvariant, self)
  else
    let previous := rx_open self !! key in
    let self := self <| rx_next_index := neutral_index + 1 |>
                     <| rx_open ::= <[key := mkResponsesOpen neutral_index kind]> |> in
    if is_some previous then (Err StreamInvariant, self)
    else (Ok (mapping_events [OutputItemStarted neutral_index kind]), self).

Definition responses_item_start (self : ResponsesStreamMapper) (object : Map) : Mapped :=
  match (let? output_index := stream_u64 object "output_index" in
         let? item := stream_as de_output_item object "item" in
         Ok (output_index, item)) with
  | Err e => (Err e, self)
  | Ok (output_index, OutFunctionCall call) =>
      responses_start self (KeyItem output_index) (OutToolIntent (rf_call_id call))
  | Ok (output_index, Responses.OutReasoning _) => responses_start self (KeyItem output_index) OutReasoning
  | Ok (_, OutMessage _) => (Ok mapping_empty, self)
  | Ok (_, Responses.OutExtension _) => (Err (StreamProvider UnsupportedExtension), self)
  end.

Definition content_key (object : Map) : result StreamMappingError ResponsesKey :=
  let? output_index := stream_u64 object "output_index" in
  let? content_index := stream_u64 object "content_index" in
  Ok (KeyContent output_index content_index).

Definition responses_content_start (self : ResponsesStreamMapper) (object : Map) : Mapped :=
  match (let? key := content_key object in
         let? part := stream_as de_output_content object "part" in
         Ok (key, part)) with
  | Err e => (Err e, self)
  | Ok (key, Responses.ContentText _) => responses_start self key OutText
  | Ok (key, ContentRefusal _) => responses_start self key OutRefusal
  | Ok (_, ContentExtension _) => (Err (StreamProvider UnsupportedExtension), self)
  end.

Definition responses_delta (self : ResponsesStreamMapper) (object : Map) (key_name : string) (delta_kind : Delta)
    : result StreamMappingError StreamMapping :=
  let? output := stream_u64 object "output_index" in
  let? key := match delta_kind with
              | TextD | RefusalD =>
                  let? content_index := stream_u64 object "content_index" in Ok (KeyContent output content_index)
              | _ => Ok (KeyItem output)
              end in
  let? opened := ok_or (rx_open self !! key) StreamInvariant in
  let? delta := stream_str object key_name in
  let index := op_neutral_index opened in
  match delta_kind with
  | TextD => Ok (mapping_events [TextDelta index delta])
  | RefusalD => Ok (mapping_events [ModelTypes.RefusalDelta index delta])
  | ReasoningD => Ok (mapping_events [ReasoningDelta index delta])
  | ToolArgumentsD =>
      match op_kind opened with
      | OutToolIntent model_call_id => Ok (mapping_events [ToolArgumentsDelta index model_call_id delta])
      | _ => Err StreamInvariant
      end
  end.

Definition responses_content_done (self : ResponsesStreamMapper) (object : Map) : Mapped :=
  match content_key object with
  | Err e => (Err e, self)
  | Ok key =>
      match rx_open self !! key with
      | None => (Err StreamInvariant, self)
      | Some opened =>
          let self := self <| rx_open ::= delete key |> in
          match stream_as de_output_content object "part" with
          | Err e => (Err e, self)
          | Ok part =>
              (let? item := provider (responses_part part) in Ok (completed (op_neutral_index opened) item), self)
          end
      end
  end.

Section responses_mapper.
Context `{Externals, JsonWriter}.

Definition responses_item_done (self : ResponsesStreamMapper) (object : Map) : Mapped :=
  match stream_u64 object "output_index" with
  | Err e => (Err e, self)
  | Ok output_index =>
      let key := KeyItem output_index in
      match rx_open self !! key with
      | None => (Ok mapping_empty, self)
      | Some opened =>
          let self := self <| rx_open ::= delete key |> in
          (let? item := stream_as de_output_item object "item" in
           let? normalized := provider (responses_items [item] (rx_reasoning_visibility self)) in
           match normalized with
           | [] => Err StreamInvariant
           | item :: _ => Ok (completed (op_neutral_index opened) item)
           end, self)
      end
  end.

Definition responses_map (self : ResponsesStreamMapper) (event : ResponseStreamEvent) : Mapped :=
  match event with
  | Extension _ => (Err (StreamProvider UnsupportedExtension), self)
  | Portable kind _ object =>
      match kind with
      | Created | Queued | InProgress | OutputTextAnnotationAdded => (Ok mapping_empty, self)
      | OutputItemAdded => responses_item_start self object
      | ContentPartAdded => responses_content_start self object
      | OutputTextDelta => (responses_delta self object "delta" TextD, self)
      | Responses.RefusalDelta => (responses_delta self object "delta" RefusalD, self)
      | FunctionArgumentsDelta => (responses_delta self object "delta" ToolArgumentsD, self)
      | ReasoningSummaryTextDelta | ReasoningTextDelta =>
          if rx_reasoning_visibility self then (responses_delta self object "delta" ReasoningD, self)
          else (Ok mapping_empty, self)
      | ContentPartDone => responses_content_done self object
      | OutputItemDone => responses_item_done self object
      | Responses.Completed | Incomplete =>
          (let? response := stream_as de_response object "response" in
           let? outcome := provider (normalize_responses response (rx_reasoning_visibility self)) in
           Ok (mapping_terminal outcome), self)
      | Failed | Error => (Err (StreamProvider UnclassifiedProtocolError), self)
      | OutputTextDone | RefusalDone | FunctionArgumentsDone | ReasoningSummaryPartAdded
      | ReasoningSummaryPartDone | ReasoningSummaryTextDone | ReasoningTextDone => (Ok mapping_empty, self)
      end
  end.
End responses_mapper.

(** *** Messages *)

Inductive MessagesBlock :=
  | MbText (text : string)
  | MbTool (id name arguments : string)
  | MbThinking (text signature : string)
  | MbRedacted (data : string).
Record MessagesStreamMapper := mkMessagesMapper {
  mx_reasoning_visibility : bool;
  mx_open : gmap Z MessagesBlock;
  mx_items : list ModelItem;
  mx_input_tokens : option Z;
  mx_cache_read_tokens : option Z;
  mx_cache_write_tokens : option Z;
  mx_output_tokens : option Z;
  mx_stop_reason : option StopReason;
}.
#[export] Instance MessagesStreamMapper_eta : Eta MessagesStreamMapper := fun r =>
  mkMessagesMapper (mx_reasoning_visibility r) (mx_open r) (mx_items r) (mx_input_tokens r) (mx_cache_read_tokens r)
    (mx_cache_write_tokens r) (mx_output_tokens r) (mx_stop_reason r).
Definition messages_mapper_new (reasoning_visibility : bool) : MessagesStreamMapper :=
  mkMessagesMapper reasoning_visibility ∅ [] None None None None None.

Abbreviation MMapped := (result StreamMappingError StreamMapping * MessagesStreamMapper)%type (only parsing).

Definition token_count (tokens : option Z) : TokenCount := match tokens with Some n => Known n | None => Unknown end.
Definition mapper_usage (self : MessagesStreamMapper) : ModelUsage :=
  mkModelUsage (token_count (mx_input_tokens self)) (token_count (mx_output_tokens self))
    (Known <$> mx_cache_read_tokens self) (Known <$> mx_cache_write_tokens self) ProviderReported.

Definition mapper_event_index (event : StreamEvent) : result StreamMappingError Z :=
  ok_or (event_index event ≫= u32_try_from) StreamInvariant.

(** The state and the kind a block starts with. *)
Definition started_block (block : Map) : result StreamMappingError (MessagesBlock * ModelOutputKind) :=
  let? kind := stream_str block "type" in
  if (kind =? "text")%string then Ok (MbText (default "" (text_of "text" block)), OutText)
  else if (kind =? "tool_use")%string then
    let? id := stream_str block "id" in
    let? name := stream_str block "name" in
    Ok (MbTool id name "", OutToolIntent id)
  else if (kind =? "thinking")%string then
    Ok (MbThinking (default "" (text_of "thinking" block)) (default "" (text_of "signature" block)), OutReasoning)
  else if (kind =? "redacted_thinking")%string then
    let? data := stream_str block "data" in
    Ok (MbRedacted data, OutReasoning)
  else Err (StreamProvider UnsupportedExtension).

Definition messages_start (self : MessagesStreamMapper) (event : StreamEvent) : MMapped :=
  match (let? index := mapper_event_index event in
         let? block := ok_or (object_of "content_block" (ev_value event)) StreamInvariant in
         let? started := started_block block in
         Ok (index, started)) with
  | Err e => (Err e, self)
  | Ok (index, (state, output_kind)) =>
      let previous := mx_open self !! index in
      let self := self <| mx_open ::= <[index := state]> |> in
      if is_some previous then (Err StreamInvariant, self)
      else (Ok (mapping_events [OutputItemStarted index output_kind]), self)
  end.

(** The block after a delta, with the event it gives. *)
Definition delta_of (reasoning_visibility : bool) (index : Z) (block : MessagesBlock) (kind : DeltaKind) (delta : Map)
    : result StreamMappingError (MessagesBlock * option ModelStreamEvent) :=
  match block, kind with
  | MbText text, DeltaText =>
      let? value := stream_str delta "text" in
      Ok (MbText (text +:+ value), Some (TextDelta index value))
  | MbTool id name arguments, DeltaInputJson =>
      let? value := stream_str delta "partial_json" in
      Ok (MbTool id name (arguments +:+ value), Some (ToolArgumentsDelta index id value))
  | MbThinking text signature, DeltaThinking =>
      let? value := stream_str delta "thinking" in
      Ok (MbThinking (text +:+ value) signature,
          if reasoning_visibility then Some (ReasoningDelta index value) else None)
  | MbThinking text signature, DeltaSignature =>
      let? value := stream_str delta "signature" in
      Ok (MbThinking text (signature +:+ value), None)
  | _, DeltaCitation => Ok (block, None)
  | _, DeltaExtension _ => Err (StreamProvider UnsupportedExtension)
  | _, _ => Err StreamInvariant
  end.

Definition messages_delta (self : MessagesStreamMapper) (event : StreamEvent) (kind : DeltaKind) : MMapped :=
  match (let? index := mapper_event_index event in
         let? delta := ok_or (object_of "delta" (ev_value event)) StreamInvariant in
         let? block := ok_or (mx_open self !! index) StreamInvariant in
         let? next := delta_of (mx_reasoning_visibility self) index block kind delta in
         Ok (index, next)) with
  | Err e => (Err e, self)
  | Ok (index, (block, mapped)) =>
      (Ok (mapping_events (option_list mapped)), self <| mx_open ::= <[index := block]> |>)
  end.

Definition messages_stop_reason (reason : StopReason) : ModelStopReason :=
  match reason with
  | StopEndTurn => EndTurn
  | StopStopSequence => StopSequence
  | StopToolUse => ToolUse
  | StopPauseTurn => PauseTurn
  | Messages.StopRefusal => StopRefusal
  | StopMaxTokens | StopModelContextWindowExceeded => OtherStop "unreachable"
  end.

(** A text of a refused message. *)
Definition refuse (item : ModelItem) : ModelItem :=
  match item with ItemText text => ItemRefusal text | _ => item end.

Definition messages_terminal (self : MessagesStreamMapper) : result StreamMappingError StreamMapping :=
  let? reason := ok_or (mx_stop_reason self) StreamInvariant in
  let items := if bool_decide (reason = Messages.StopRefusal) then refuse <$> mx_items self else mx_items self in
  Ok (mapping_terminal
    match reason with
    | StopMaxTokens => Interrupted OutputLimit items (mapper_usage self)
    | StopModelContextWindowExceeded => Rejected ContextOverflow "model_context_window_exceeded"
    | other => Completed items (mapper_usage self) (messages_stop_reason other)
    end).

Section messages_mapper.
Context `{Externals, JsonWriter}.

Definition canonical_arguments (encoded : string) : result StreamMappingError string :=
  match json_from_str encoded with
  | Some (Obj object) => Ok (json_to_string (Obj object))
  | _ => Err StreamInvariant
  end.

Definition block_item (reasoning_visibility : bool) (block : MessagesBlock) : result StreamMappingError ModelItem :=
  match block with
  | MbText text => Ok (ItemText text)
  | MbTool id name arguments =>
      let? arguments_json := canonical_arguments arguments in Ok (ItemToolIntent id name arguments_json)
  | MbThinking text signature =>
      if reasoning_visibility then Ok (ItemReasoning (ModelVisible text))
      else let? reference := provider (encode_thinking text signature) in Ok (ItemReasoning (OpaqueReference reference))
  | MbRedacted data =>
      let? reference := provider (encode_redacted data) in Ok (ItemReasoning (OpaqueReference reference))
  end.

Definition messages_block_stop (self : MessagesStreamMapper) (event : StreamEvent) : MMapped :=
  match mapper_event_index event with
  | Err e => (Err e, self)
  | Ok index =>
      match mx_open self !! index with
      | None => (Err StreamInvariant, self)
      | Some block =>
          let self := self <| mx_open ::= delete index |> in
          match block_item (mx_reasoning_visibility self) block with
          | Err e => (Err e, self)
          | Ok item => (Ok (completed index item), self <| mx_items ::= fun items => items ++ [item] |>)
          end
      end
  end.

Definition messages_map (self : MessagesStreamMapper) (event : StreamEvent) : MMapped :=
  let value := ev_value event in
  match ev_kind event with
  | MessageStart =>
      match (let? message := ok_or (object_of "message" value) StreamInvariant in
             ok_or (object_of "usage" message) StreamInvariant) with
      | Err e => (Err e, self)
      | Ok usage =>
          (Ok mapping_empty,
           self <| mx_input_tokens := map_get "input_tokens" usage ≫= as_u64 |>
                <| mx_cache_read_tokens := map_get "cache_read_input_tokens" usage ≫= as_u64 |>
                <| mx_cache_write_tokens := map_get "cache_creation_input_tokens" usage ≫= as_u64 |>)
      end
  | ContentBlockStart => messages_start self event
  | ContentBlockDelta kind => messages_delta self event kind
  | ContentBlockStop => messages_block_stop self event
  | MessageDelta =>
      let self := self <| mx_output_tokens := (object_of "usage" value ≫= map_get "output_tokens") ≫= as_u64 |> in
      match object_of "delta" value ≫= map_get "stop_reason" with
      | Some reason =>
          match de_stop_reason reason with
          | Some reason =>
              let self := self <| mx_stop_reason := Some reason |> in
              (Ok (mapping_events [UsageUpdated (mapper_usage self)]), self)
          | None => (Err StreamInvariant, self)
          end
      | None =>
          let self := self <| mx_stop_reason := None |> in
          (Ok (mapping_events [UsageUpdated (mapper_usage self)]), self)
      end
  | MessageStop => (messages_terminal self, self)
  | Ping => (Ok mapping_empty, self)
  | EventError => (Err (StreamProvider UnclassifiedProtocolError), self)
  | EventExtension _ => (Err (StreamProvider UnsupportedExtension), self)
  end.
End messages_mapper.
