(* ===== verification/CompatibleTheorems.v ===== *)
(** * The compatible providers: theorems

    The streams of neutral events the mappers emit against the stream validator of the
    model contract, the agreement of a streamed message with the buffered one, the
    names of tools and the references of hidden reasoning across an exchange, and the
    conversation a mapped request carries. *)

From S2P Require Import Prelude Text Json JsonDecode Float64 Sse Responses Messages ModelTypes Compatible.

(** ** Streams of neutral events

    The events a mapper emits for a list of protocol events, up to its first failure. *)

Section emit.
Context {M P : Type} (step : M -> P -> result StreamMappingError StreamMapping * M).

Fixpoint emitted (self : M) (protocol : list P) : list ModelStreamEvent :=
  match protocol with
  | [] => []
  | event :: protocol =>
      match step self event with
      | (Ok mapping, self) => sm_events mapping ++ emitted self protocol
      | (Err _, _) => []
      end
  end.

(** What the validator says of a stream, when one step keeps it in step with the
    mapper or makes it refuse for an admitted reason. *)
Context (agree : M -> StreamValidator -> Prop) (admitted : StreamInvariantError -> Prop).
Hypothesis step_agrees : forall self v event mapping self', agree self v -> step self event = (Ok mapping, self') ->
  match try_fold stream_accept v (sm_events mapping) with Ok v' => agree self' v' | Err e => admitted e end.

Lemma emitted_agree self v protocol : agree self v ->
  match try_fold stream_accept v (emitted self protocol) with Ok _ => True | Err e => admitted e end.
Proof.
  revert self v. induction protocol as [|event protocol IH]; intros self v Ha; simpl; [done|].
  destruct (step self event) as [[mapping|e] self'] eqn:Es; [|done]. rewrite try_fold_app.
  pose proof (step_agrees self v event mapping self' Ha Es) as Hs.
  destruct (try_fold stream_accept v (sm_events mapping)) as [v'|e]; [|done]. by apply IH.
Qed.
End emit.

(** *** Responses *)

Record responses_agree (self : ResponsesStreamMapper) (v : StreamValidator) : Prop := {
  ra_last l : sv_last_started v = Some l -> l < rx_next_index self;
  ra_done i : i ∈ sv_completed v -> i < rx_next_index self;
  ra_open k o : rx_open self !! k = Some o ->
    sv_started v !! op_neutral_index o = Some (op_kind o) /\ (op_neutral_index o ∉ sv_completed v) /\
    op_neutral_index o < rx_next_index self;
  ra_distinct k k' o o' : rx_open self !! k = Some o -> rx_open self !! k' = Some o' ->
    op_neutral_index o = op_neutral_index o' -> k = k';
}.
Definition kind_mismatch (e : StreamInvariantError) : Prop := e = ItemKindMismatch.

Definition kept (self' : ResponsesStreamMapper) (v : StreamValidator) (mapping : StreamMapping) : Prop :=
  match try_fold stream_accept v (sm_events mapping) with Ok v' => responses_agree self' v' | Err e => kind_mismatch e end.

Lemma start_kept self v key kind mapping self' : responses_agree self v ->
  responses_start self key kind = (Ok mapping, self') -> kept self' v mapping.
Proof.
  intros [Hl Hd Ho Hn] H. unfold responses_start in H. destruct (u32_max <=? _); [done|].
  destruct (rx_open self !! key) as [old|] eqn:Ek; [done|]. simpl in H. injection H as <- <-. unfold kept. simpl.
  assert (is_some_and (fun last => rx_next_index self <=? last) (sv_last_started v) = false) as ->.
  { destruct (sv_last_started v) as [l|]; [|done]. specialize (Hl l eq_refl). apply Z.leb_gt. lia. }
  split; simpl.
  - intros l [= <-]. lia.
  - intros i Hi. specialize (Hd i Hi). lia.
  - intros k o. destruct (decide (key = k)) as [<-|Hne].
    + rewrite lookup_insert_eq. intros [= <-]. simpl. rewrite lookup_insert_eq. split; [done|]. split; [|lia].
      intros Hi%Hd. lia.
    + rewrite lookup_insert_ne by done. intros Hk. destruct (Ho k o Hk) as (H1 & H2 & H3).
      rewrite lookup_insert_ne by lia. split; [done|]. split; [done|lia].
  - intros k k' o o'. destruct (decide (key = k)) as [<-|H1], (decide (key = k')) as [<-|H2];
      rewrite ?lookup_insert_eq, ?lookup_insert_ne by done.
    + done.
    + intros [= <-] Hk'. simpl. intros E. destruct (Ho k' o' Hk') as (_ & _ & ?). lia.
    + intros Hk [= <-]. simpl. intros E. destruct (Ho k o Hk) as (_ & _ & ?). lia.
    + apply Hn.
Qed.

(** An event that writes to an open item is accepted or mismatches its kind. *)
Lemma write_kept self v k o event mapping : responses_agree self v -> rx_open self !! k = Some o ->
  event_target event = Some (op_neutral_index o, mapping) -> (forall n item, event <> OutputItemCompleted n item) ->
  kept self v (mapping_events [event]).
Proof.
  intros Ha Hk Ht Hn. destruct (ra_open _ _ Ha k o Hk) as (Hs & Hc & _). unfold kept. simpl.
  assert (Hr : forall kind, require_kind v (op_neutral_index o) kind = Ok tt \/
    require_kind v (op_neutral_index o) kind = Err ItemKindMismatch).
  { intros kind. unfold require_kind. rewrite Hs. simpl. rewrite bool_decide_eq_false_2 by done.
    case_bool_decide; auto. }
  destruct event as [| | | | |n item|]; try done; simpl in Ht; simplify_eq; simpl;
    try (by destruct (Hr mapping) as [->| ->]); try (by destruct (Hr (OutToolIntent model_call_id)) as [->| ->]);
    try (by destruct (Hr OutText) as [->| ->]); try (by destruct (Hr OutRefusal) as [->| ->]);
    try (by destruct (Hr OutReasoning) as [->| ->]). by destruct (Hn (op_neutral_index o) item).
Qed.

Lemma done_kept self v k o item : responses_agree self v -> rx_open self !! k = Some o ->
  kept (self <| rx_open ::= delete k |>) v (completed (op_neutral_index o) item).
Proof.
  intros [Hl Hd Ho Hn] Hk. destruct (Ho k o Hk) as (Hs & Hc & Hlt). unfold kept. simpl.
  rewrite bool_decide_eq_false_2 by done. unfold require_kind. rewrite Hs. simpl. rewrite bool_decide_eq_false_2 by done.
  case_bool_decide as Ek; simpl; [|done]. split; simpl.
  - done.
  - intros i. rewrite elem_of_union, elem_of_singleton. intros [->|Hi]; [done|by apply Hd].
  - intros k' o' [Hne Hk']%lookup_delete_Some. destruct (Ho k' o' Hk') as (H1 & H2 & H3). split; [done|]. split; [|done].
    rewrite elem_of_union, elem_of_singleton. intros [E|?]; [|done]. by apply Hne, (Hn k k' o o').
  - intros k1 k2 o1 o2 [_ H1]%lookup_delete_Some [_ H2]%lookup_delete_Some. by apply Hn.
Qed.

Lemma silent_kept self v mapping : responses_agree self v -> sm_events mapping = [] -> kept self v mapping.
Proof. intros Ha He. unfold kept. by rewrite He. Qed.

Lemma delta_kept self v object key_name delta mapping : responses_agree self v ->
  responses_delta self object key_name delta = Ok mapping -> kept self v mapping.
Proof.
  intros Ha H. unfold responses_delta in H. destruct (stream_u64 object "output_index") as [output|]; [|done].
  destruct (match delta with TextD | RefusalD => _ | _ => _ end) as [key|]; [|done].
  destruct (rx_open self !! key) as [o|] eqn:Ek; [|done]. simpl in H. destruct (stream_str object key_name) as [d|]; [|done].
  destruct delta; simplify_eq; try (by eapply write_kept).
  destruct (op_kind o); simplify_eq. by eapply write_kept.
Qed.

Section responses.
Context `{Externals, JsonWriter}.

Lemma responses_map_kept self v event mapping self' : responses_agree self v ->
  responses_map self event = (Ok mapping, self') -> kept self' v mapping.
Proof.
  intros Ha H1. destruct event as [kind n object|]; [|done].
  assert (Hstart : forall key k, responses_start self key k = (Ok mapping, self') -> kept self' v mapping)
    by (intros; by eapply start_kept).
  assert (Hdelta : forall name d, (responses_delta self object name d, self) = (Ok mapping, self') -> kept self' v mapping).
  { intros name d [= Hd <-]. by eapply delta_kept. }
  assert (Hempty : (Ok mapping_empty : result StreamMappingError _, self) = (Ok mapping, self') -> kept self' v mapping).
  { intros [= <- <-]. by apply silent_kept. }
  destruct kind; simpl in H1; eauto; try done.
  - unfold stream_as in H1. destruct (stream_required object "response"); [|done]. destruct (ok_or _ _) as [r|]; [|done].
    destruct (provider _); simplify_eq. by apply silent_kept.
  - unfold stream_as in H1. destruct (stream_required object "response"); [|done]. destruct (ok_or _ _) as [r|]; [|done].
    destruct (provider _); simplify_eq. by apply silent_kept.
  - unfold responses_item_start in H1. destruct (let? output_index := _ in _) as [[i []]|]; eauto; done.
  - unfold responses_item_done in H1. destruct (stream_u64 _ _) as [i|]; [|done].
    destruct (rx_open self !! KeyItem i) as [o|] eqn:Ek; [|eauto]. injection H1 as H1 <-.
    destruct (stream_as _ _ _) as [it|]; [|done]. destruct (provider _) as [[|x l]|]; simplify_eq. by apply done_kept.
  - unfold responses_content_start in H1. destruct (let? key := _ in _) as [[i []]|]; eauto; done.
  - unfold responses_content_done in H1. destruct (content_key object) as [k|]; [|done].
    destruct (rx_open self !! k) as [o|] eqn:Ek; [|done]. destruct (stream_as _ _ _) as [p|]; [|done].
    injection H1 as H1 <-. destruct (provider _) as [x|]; simplify_eq. by apply done_kept.
  - destruct (rx_reasoning_visibility self); eauto.
  - destruct (rx_reasoning_visibility self); eauto.
Qed.

(** Of the events that the Responses mapper emits for any protocol events the stream
    validator refuses none but a change of kind within an item. *)
Theorem responses_mapper_valid visibility protocol :
  match try_fold stream_accept stream_validator_default (emitted responses_map (responses_mapper_new visibility) protocol) with
  | Ok _ => True
  | Err e => e = ItemKindMismatch
  end.
Proof.
  apply (emitted_agree responses_map responses_agree kind_mismatch).
  - intros self v event mapping self'. apply responses_map_kept.
  - split; simpl; try done; try set_solver.
Qed.
End responses.

(** *** Messages *)

Definition block_kind (block : MessagesBlock) : ModelOutputKind :=
  match block with
  | MbText _ => OutText
  | MbTool id _ _ => OutToolIntent id
  | MbThinking _ _ | MbRedacted _ => OutReasoning
  end.

Record messages_agree (self : MessagesStreamMapper) (v : StreamValidator) : Prop := {
  ma_done i : i ∈ sv_completed v -> exists l, sv_last_started v = Some l /\ i <= l;
  ma_started i : is_Some (sv_started v !! i) -> exists l, sv_last_started v = Some l /\ i <= l;
  ma_open i b : mx_open self !! i = Some b -> sv_started v !! i = Some (block_kind b) /\ (i ∉ sv_completed v);
}.
Definition non_monotonic (e : StreamInvariantError) : Prop := e = NonMonotonicStart.
Definition mkept (self' : MessagesStreamMapper) (v : StreamValidator) (mapping : StreamMapping) : Prop :=
  match try_fold stream_accept v (sm_events mapping) with Ok v' => messages_agree self' v' | Err e => non_monotonic e end.

Lemma messages_agree_open self self' v : messages_agree self v -> mx_open self' = mx_open self -> messages_agree self' v.
Proof. intros [? ? Ho] E. split; [done|done|]. intros i b. rewrite E. apply Ho. Qed.

Lemma started_block_kind block state kind : started_block block = Ok (state, kind) -> kind = block_kind state.
Proof.
  unfold started_block. intros H. destruct (stream_str block "type") as [name|]; [|done].
  repeat (destruct (name =? _)%string; [|]); simplify_eq; try done.
  - destruct (stream_str block "id"); [|done]. destruct (stream_str block "name"); by simplify_eq.
  - destruct (stream_str block "data"); by simplify_eq.
Qed.

Lemma messages_start_kept self v event mapping self' : messages_agree self v ->
  messages_start self event = (Ok mapping, self') -> mkept self' v mapping.
Proof.
  intros [Hd Hs Ho] H. unfold messages_start in H. destruct (mapper_event_index event) as [index|]; [|done].
  destruct (ok_or _ _) as [block|]; [|done]. destruct (started_block block) as [[state kind]|] eqn:Eb; [|done].
  apply started_block_kind in Eb as ->. destruct (mx_open self !! index) as [old|] eqn:Ek; [done|].
  simpl in H. injection H as <- <-. unfold mkept. simpl.
  destruct (is_some_and _ _) eqn:El; [done|].
  assert (Hlt : forall l, sv_last_started v = Some l -> l < index).
  { intros l E. rewrite E in El. simpl in El. bool_hyps. lia. }
  split; simpl.
  - intros i (l & E & Hle)%Hd. exists index. specialize (Hlt l E). split; [done|lia].
  - intros i. destruct (decide (index = i)) as [<-|Hne]; [exists index; split; [done|lia]|].
    rewrite lookup_insert_ne by done. intros (l & E & Hle)%Hs. exists index. specialize (Hlt l E). split; [done|lia].
  - intros i b. destruct (decide (index = i)) as [<-|Hne].
    + rewrite !lookup_insert_eq. intros [= <-]. split; [done|]. intros (l & E & Hle)%Hd. specialize (Hlt l E). lia.
    + rewrite !lookup_insert_ne by done. apply Ho.
Qed.

Lemma require_open v i kind : sv_started v !! i = Some kind -> i ∉ sv_completed v -> require_kind v i kind = Ok tt.
Proof.
  intros Hs Hc. unfold require_kind. rewrite Hs. simpl. rewrite bool_decide_eq_false_2 by done. by rewrite bool_decide_eq_true_2.
Qed.

(** A delta keeps the kind of its block and goes to an item of that kind. *)
Lemma delta_of_kind visibility index block kind delta block' mapped :
  delta_of visibility index block kind delta = Ok (block', mapped) ->
  block_kind block' = block_kind block /\
  forall event, mapped = Some event -> event_target event = Some (index, block_kind block) /\
    forall n item, event <> OutputItemCompleted n item.
Proof.
  intros H. destruct block, kind; simpl in H; try done; try (by simplify_eq);
    destruct (stream_str delta _) as [value|]; simplify_eq; try naive_solver.
  split; [done|]. intros event. destruct visibility; naive_solver.
Qed.

Lemma messages_delta_kept self v event kind mapping self' : messages_agree self v ->
  messages_delta self event kind = (Ok mapping, self') -> mkept self' v mapping.
Proof.
  intros Ha H. unfold messages_delta in H. destruct (mapper_event_index event) as [index|]; [|done].
  destruct (ok_or (object_of _ _) _) as [delta|]; [|done]. destruct (mx_open self !! index) as [block|] eqn:Ek; [|done].
  simpl in H. destruct (delta_of _ _ _ _ _) as [[block' mapped]|] eqn:Ed; [|done]. injection H as <- <-.
  apply delta_of_kind in Ed as [Hk Hm]. destruct (ma_open _ _ Ha index block Ek) as [Hs Hc].
  assert (Ha' : messages_agree (self <| mx_open ::= <[index := block']> |>) v).
  { destruct Ha as [? ? Ho]. split; [done|done|]. simpl. intros i b. destruct (decide (index = i)) as [<-|Hne].
    - rewrite lookup_insert_eq. intros [= <-]. by rewrite Hk.
    - rewrite lookup_insert_ne by done. apply Ho. }
  unfold mkept. destruct mapped as [e|]; simpl; [|done]. destruct (Hm e eq_refl) as [Ht Hn].
  pose proof (require_open v index (block_kind block) Hs Hc) as Hr.
  destruct e; simpl in Ht; try done; injection Ht as -> Hkd; simpl; first [by rewrite Hkd, Hr|by edestruct Hn].
Qed.

Lemma messages_silent_kept self self' v mapping : messages_agree self v -> mx_open self' = mx_open self ->
  sm_events mapping = [] \/ (exists usage, sm_events mapping = [UsageUpdated usage]) -> mkept self' v mapping.
Proof.
  intros Ha Ho [E|[u E]]; unfold mkept; rewrite E; simpl; by eapply messages_agree_open.
Qed.

Section messages.
Context `{Externals, JsonWriter}.

Lemma block_item_kind visibility block item : block_item visibility block = Ok item -> kind_of item = block_kind block.
Proof.
  intros H1. destruct block; simpl in H1; simplify_eq; try done.
  - destruct (canonical_arguments _); by simplify_eq.
  - destruct visibility; simplify_eq; [done|]. destruct (provider _); by simplify_eq.
  - destruct (provider _); by simplify_eq.
Qed.

Lemma messages_stop_kept self v event mapping self' : messages_agree self v ->
  messages_block_stop self event = (Ok mapping, self') -> mkept self' v mapping.
Proof.
  intros [Hd Hs Ho] H1. unfold messages_block_stop in H1. destruct (mapper_event_index event) as [index|]; [|done].
  destruct (mx_open self !! index) as [block|] eqn:Ek; [|done]. simpl in H1.
  destruct (block_item _ block) as [item|] eqn:Ei; [|done]. injection H1 as <- <-.
  destruct (Ho index block Ek) as [Hst Hc]. apply block_item_kind in Ei.
  unfold mkept. simpl. rewrite bool_decide_eq_false_2 by done. rewrite Ei, require_open by done. split; simpl.
  - intros i. rewrite elem_of_union, elem_of_singleton. intros [->|Hi]; [|by apply Hd]. apply Hs. by rewrite Hst.
  - done.
  - intros i b [Hne Hb]%lookup_delete_Some. destruct (Ho i b Hb). split; [done|]. set_solver.
Qed.

Lemma messages_map_kept self v event mapping self' : messages_agree self v ->
  messages_map self event = (Ok mapping, self') -> mkept self' v mapping.
Proof.
  intros Ha H1. unfold messages_map in H1. destruct (ev_kind event).
  - destruct (let? message := _ in _); simplify_eq. eapply messages_silent_kept; [done|done|by left].
  - by eapply messages_start_kept.
  - by eapply messages_delta_kept.
  - by eapply messages_stop_kept.
  - destruct (object_of "delta" (ev_value event) ≫= _) as [r|]; [destruct (de_stop_reason r); [|done]|]; simplify_eq;
      (eapply messages_silent_kept; [done|done|right; eauto]).
  - unfold messages_terminal in H1. destruct (ok_or _ _); simplify_eq. eapply messages_silent_kept; [done|done|by left].
  - simplify_eq. eapply messages_silent_kept; [done|done|by left].
  - done.
  - done.
Qed.

(** Of the events that the Messages mapper emits for any protocol events the stream
    validator refuses none but a block index that does not grow. *)
Theorem messages_mapper_valid visibility protocol :
  match try_fold stream_accept stream_validator_default (emitted messages_map (messages_mapper_new visibility) protocol) with
  | Ok _ => True
  | Err e => e = NonMonotonicStart
  end.
Proof.
  apply (emitted_agree messages_map messages_agree non_monotonic).
  - intros self v event mapping self'. apply messages_map_kept.
  - split; simpl; [set_solver|intros i [k Hk]; by rewrite lookup_empty in Hk|done].
Qed.
End messages.

(** ** Streamed and buffered messages

    The message a stream spells out, read off the history of its events: a stop closes the
    block that the last start of its index opened, and the text of a block is what its start
    says followed by what the deltas of that index say after it. *)

#[local] Instance DeltaKind_eq_dec : EqDecision DeltaKind.
Proof. solve_decision. Defined.
#[local] Instance StreamEventKind_eq_dec : EqDecision StreamEventKind.
Proof. solve_decision. Defined.

(** The last start of an index, with the events after it. *)
Fixpoint last_start (i : Z) (events : list StreamEvent) : option (StreamEvent * list StreamEvent) :=
  match events with
  | [] => None
  | event :: events =>
      match last_start i events with
      | Some found => Some found
      | None => if starts_block i event then Some (event, events) else None
      end
  end.

(** What the deltas of one kind say, in order. *)
Definition delta_piece (i : Z) (kind : DeltaKind) (member : string) (event : StreamEvent) : string :=
  if bool_decide (ev_kind event = ContentBlockDelta kind /\ event_index event = Some i)
  then default "" (object_of "delta" (ev_value event) ≫= text_of member) else "".
Definition delta_text (i : Z) (kind : DeltaKind) (member : string) (later : list StreamEvent) : string :=
  String.concat "" (delta_piece i kind member <$> later).

Definition start_member (start : StreamEvent) (member : string) : option string :=
  object_of "content_block" (ev_value start) ≫= text_of member.
Definition start_text (start : StreamEvent) (member : string) : string := default "" (start_member start member).

Definition spelled_block `{Externals} (i : Z) (start : StreamEvent) (later : list StreamEvent) : option OutputBlock :=
  let named name := bool_decide (start_member start "type" = Some name) in
  if named "text" then
    Some (Messages.OutText (mkOutputText (start_text start "text" +:+ delta_text i DeltaText "text" later) None))
  else if named "tool_use" then
    match json_from_str (delta_text i DeltaInputJson "partial_json" later) with
    | Some (Obj input) => Some (OutToolUse (mkOutputToolUse (start_text start "id") (start_text start "name") input None))
    | _ => None
    end
  else if named "thinking" then
    Some (OutThinking (mkOutputThinking
      (start_text start "thinking" +:+ delta_text i DeltaThinking "thinking" later)
      (start_text start "signature" +:+ delta_text i DeltaSignature "signature" later)))
  else if named "redacted_thinking" then Some (OutRedactedThinking (mkOutputRedacted (start_text start "data")))
  else None.

(** The blocks in the order they are stopped. *)
Fixpoint spelled_after `{Externals} (before events : list StreamEvent) : option (list OutputBlock) :=
  match events with
  | [] => Some []
  | event :: events =>
      match ev_kind event with
      | ContentBlockStop =>
          i ← event_index event;
          '(start, later) ← last_start i before;
          block ← spelled_block i start later;
          (block ::.) <$> spelled_after (before ++ [event]) events
      | _ => spelled_after (before ++ [event]) events
      end
  end.

(** The usage and the stop reason, of the last event that reports them. *)
Definition start_usage (events : list StreamEvent) (member : string) : option Z :=
  event ← last (List.filter is_message_start events);
  message ← object_of "message" (ev_value event);
  usage ← object_of "usage" message;
  map_get member usage ≫= as_u64.
Definition final_output (events : list StreamEvent) : option Z :=
  event ← last (List.filter is_message_delta events);
  usage ← object_of "usage" (ev_value event);
  map_get "output_tokens" usage ≫= as_u64.
Definition final_reason (events : list StreamEvent) : option StopReason :=
  event ← last (List.filter is_message_delta events);
  delta ← object_of "delta" (ev_value event);
  map_get "stop_reason" delta ≫= de_stop_reason.

(** The buffered response with that content; [input] and [output] are the counts a
    buffered usage must carry. *)
Definition spelled_message (events : list StreamEvent) (content : list OutputBlock) (input output : Z) : MessageResponse :=
  mkMessageResponse "msg" "model" content (final_reason events) None None
    (mkUsage input output (start_usage events "cache_creation_input_tokens") (start_usage events "cache_read_input_tokens")
       None None None None None []) [].

Section assembly.
Context `{Externals, JsonWriter}.

Fixpoint messages_run (self : MessagesStreamMapper) (protocol : list StreamEvent)
    : result StreamMappingError MessagesStreamMapper :=
  match protocol with
  | [] => Ok self
  | event :: protocol =>
      match messages_map self event with (Ok _, self) => messages_run self protocol | (Err e, _) => Err e end
  end.

Lemma last_start_snoc i before event : last_start i (before ++ [event]) =
  if starts_block i event then Some (event, []) else
  match last_start i before with Some (start, later) => Some (start, later ++ [event]) | None => None end.
Proof.
  induction before as [|e before IH]; simpl; [by destruct (starts_block i event)|]. rewrite IH.
  destruct (starts_block i event); [done|]. destruct (last_start i before) as [[]|]; [done|]. by destruct (starts_block i e).
Qed.

Lemma delta_text_snoc i kind member later event :
  delta_text i kind member (later ++ [event]) = delta_text i kind member later +:+ delta_piece i kind member event.
Proof. unfold delta_text. by rewrite fmap_app, list_fmap_singleton, text_concat_snoc. Qed.

(** The block a mapper keeps open holds what the history says of it. *)
Definition block_holds (i : Z) (start : StreamEvent) (later : list StreamEvent) (block : MessagesBlock) : Prop :=
  match block with
  | MbText text => start_member start "type" = Some "text" /\
      text = start_text start "text" +:+ delta_text i DeltaText "text" later
  | MbTool id name arguments => start_member start "type" = Some "tool_use" /\
      id = start_text start "id" /\ name = start_text start "name" /\
      arguments = delta_text i DeltaInputJson "partial_json" later
  | MbThinking text signature => start_member start "type" = Some "thinking" /\
      text = start_text start "thinking" +:+ delta_text i DeltaThinking "thinking" later /\
      signature = start_text start "signature" +:+ delta_text i DeltaSignature "signature" later
  | MbRedacted data => start_member start "type" = Some "redacted_thinking" /\ data = start_text start "data"
  end.

(** The mapper and the history hold the same message. *)
Record same_message (self : MessagesStreamMapper) (before : list StreamEvent) (content : list OutputBlock) : Prop := {
  sa_open i block : mx_open self !! i = Some block ->
    exists start later, last_start i before = Some (start, later) /\ block_holds i start later block;
  sa_items : Forall2 (fun item block => messages_block (mx_reasoning_visibility self) false block = Ok item)
    (mx_items self) content;
  sa_input : mx_input_tokens self = start_usage before "input_tokens";
  sa_cache_read : mx_cache_read_tokens self = start_usage before "cache_read_input_tokens";
  sa_cache_write : mx_cache_write_tokens self = start_usage before "cache_creation_input_tokens";
  sa_output : mx_output_tokens self = final_output before;
  sa_stop : mx_stop_reason self = final_reason before;
}.

Lemma mapper_index_ok event index : mapper_event_index event = Ok index -> event_index event = Some index.
Proof.
  unfold mapper_event_index, u32_try_from. destruct (event_index event) as [i|]; [|done]. simpl.
  destruct (_ && _); [|done]. simpl. congruence.
Qed.

Lemma started_block_holds i event block state kind : object_of "content_block" (ev_value event) = Some block ->
  started_block block = Ok (state, kind) -> block_holds i event [] state.
Proof.
  intros Eb. unfold started_block, stream_str.
  assert (Hm : forall member, start_member event member = text_of member block) by (intros; unfold start_member; by rewrite Eb).
  assert (Hx : forall member, map_get member block ≫= as_str = start_member event member) by (intros; by rewrite Hm).
  rewrite Hx. destruct (start_member event "type") as [name|] eqn:En; [|done]. simpl.
  destruct (String.eqb_spec name "text") as [->|_].
  { intros [= <- _]. simpl. split; [done|]. unfold start_text. rewrite Hm. unfold delta_text. simpl. by rewrite str_app_nil. }
  destruct (String.eqb_spec name "tool_use") as [->|_].
  { rewrite !Hx. unfold start_text. destruct (start_member event "id") as [id|] eqn:E1; [|done].
    destruct (start_member event "name") as [nm|] eqn:E2; [|done]. intros [= <- _]. simpl. unfold start_text. by rewrite E1, E2. }
  destruct (String.eqb_spec name "thinking") as [->|_].
  { intros [= <- _]. simpl. split; [done|]. unfold start_text. rewrite !Hm. unfold delta_text. simpl. by rewrite !str_app_nil. }
  destruct (String.eqb_spec name "redacted_thinking") as [->|_]; [|done].
  rewrite Hx. destruct (start_member event "data") as [data|] eqn:E1; [|done]. intros [= <- _]. simpl. unfold start_text. by rewrite E1.
Qed.

(** An event that says nothing to the block keeps it, a delta adds its text. *)
Lemma block_holds_later i start later block event :
  block_holds i start later block -> (forall kind, ev_kind event = ContentBlockDelta kind -> event_index event = Some i -> False) ->
  block_holds i start (later ++ [event]) block.
Proof.
  intros Hb Hn. assert (Hp : forall kind member, delta_piece i kind member event = "").
  { intros kind member. unfold delta_piece. rewrite bool_decide_eq_false_2; [done|]. intros [Hk Hi]. by eapply Hn. }
  destruct block; simpl in *; by rewrite ?delta_text_snoc, ?Hp, ?str_app_nil.
Qed.

Lemma block_holds_delta visibility i start later block kind event delta block' e :
  block_holds i start later block -> ev_kind event = ContentBlockDelta kind -> event_index event = Some i ->
  object_of "delta" (ev_value event) = Some delta -> delta_of visibility i block kind delta = Ok (block', e) ->
  block_holds i start (later ++ [event]) block'.
Proof.
  intros Hb Hk Hi Hd Ho.
  assert (Hp : forall k member, delta_piece i k member event = if bool_decide (kind = k) then default "" (text_of member delta) else "").
  { intros k member. unfold delta_piece. rewrite Hk, Hi, Hd. repeat case_bool_decide; naive_solver. }
  assert (Hs : forall member, stream_str delta member = ok_or (text_of member delta) StreamInvariant) by done.
  destruct block, kind; simpl in Ho; try done; rewrite ?Hs in Ho;
    try (destruct (text_of _ delta) as [value|] eqn:Et; simpl in Ho; [|done]);
    injection Ho as <- _; simpl in Hb |- *; rewrite ?delta_text_snoc, ?Hp; simpl;
    rewrite ?Et; simpl; rewrite ?str_app_nil; try done; destruct_and? Hb; subst; by rewrite ?str_app_assoc.
Qed.

Lemma block_item_spelled visibility i start later block item :
  block_holds i start later block -> block_item visibility block = Ok item ->
  exists out, spelled_block i start later = Some out /\ messages_block visibility false out = Ok item.
Proof.
  intros Hb H1. unfold spelled_block. destruct block; simpl in Hb, H1; destruct Hb as [-> Hb]; simpl.
  - simplify_eq. by eexists.
  - destruct Hb as (-> & -> & ->). unfold canonical_arguments in H1.
    destruct (json_from_str _) as [[]|]; try done. simplify_eq. by eexists.
  - destruct Hb as [-> ->]. eexists. split; [done|]. simpl. destruct visibility; [by simplify_eq|].
    destruct (encode_thinking _ _); by simplify_eq/=.
  - subst data. eexists. split; [done|]. simpl. destruct (encode_redacted _); by simplify_eq/=.
Qed.

Lemma messages_block_refuse visibility block item : messages_block visibility false block = Ok item ->
  messages_block visibility true block = Ok (refuse item).
Proof.
  destruct block as [t|t|r|u|]; simpl; intros; simplify_eq; try done.
  - destruct visibility; simplify_eq; [done|]. by destruct (encode_thinking _ _); simplify_eq.
  - by destruct (encode_redacted _); simplify_eq.
Qed.

Lemma messages_items_same self before content refusal : same_message self before content ->
  messages_items content (mx_reasoning_visibility self) refusal =
  Ok (if refusal then refuse <$> mx_items self else mx_items self).
Proof.
  intros [_ Hi _ _ _ _ _]. unfold messages_items. apply try_map_ok.
  induction Hi as [|item block items blocks Hb H2 IH]; [by destruct refusal; constructor|].
  destruct refusal; simpl; constructor; try done. by apply messages_block_refuse.
Qed.

Lemma start_usage_snoc before event member : start_usage (before ++ [event]) member =
  if is_message_start event
  then (object_of "message" (ev_value event) ≫= object_of "usage") ≫= (fun usage => map_get member usage ≫= as_u64)
  else start_usage before member.
Proof.
  unfold start_usage. rewrite List.filter_app. simpl. destruct (is_message_start event).
  - rewrite last_snoc. simpl. by destruct (object_of "message" _).
  - by rewrite app_nil_r.
Qed.
Lemma final_output_snoc before event : final_output (before ++ [event]) =
  if is_message_delta event then (object_of "usage" (ev_value event) ≫= map_get "output_tokens") ≫= as_u64
  else final_output before.
Proof.
  unfold final_output. rewrite List.filter_app. simpl. destruct (is_message_delta event).
  - rewrite last_snoc. simpl. by destruct (object_of "usage" _).
  - by rewrite app_nil_r.
Qed.
Lemma final_reason_snoc before event : final_reason (before ++ [event]) =
  if is_message_delta event then (object_of "delta" (ev_value event) ≫= map_get "stop_reason") ≫= de_stop_reason
  else final_reason before.
Proof.
  unfold final_reason. rewrite List.filter_app. simpl. destruct (is_message_delta event).
  - rewrite last_snoc. simpl. by destruct (object_of "delta" _).
  - by rewrite app_nil_r.
Qed.

(** The blocks that stay open over an event of another index or of no block. *)
Lemma open_later self before content event i block : same_message self before content ->
  mx_open self !! i = Some block -> starts_block i event = false ->
  (forall kind, ev_kind event = ContentBlockDelta kind -> event_index event = Some i -> False) ->
  exists start later, last_start i (before ++ [event]) = Some (start, later) /\ block_holds i start later block.
Proof.
  intros Hs Ho Hst Hn. destruct (sa_open _ _ _ Hs i block Ho) as (start & later & Hl & Hb).
  exists start, (later ++ [event]). rewrite last_start_snoc, Hst, Hl. split; [done|]. by apply block_holds_later.
Qed.

(** An event that neither opens, touches nor closes a block. *)
Lemma plain_message_step self before content event self' : same_message self before content ->
  match ev_kind event with ContentBlockStart | ContentBlockDelta _ | ContentBlockStop => False | _ => True end ->
  mx_open self' = mx_open self -> mx_items self' = mx_items self ->
  mx_reasoning_visibility self' = mx_reasoning_visibility self ->
  mx_input_tokens self' = start_usage (before ++ [event]) "input_tokens" ->
  mx_cache_read_tokens self' = start_usage (before ++ [event]) "cache_read_input_tokens" ->
  mx_cache_write_tokens self' = start_usage (before ++ [event]) "cache_creation_input_tokens" ->
  mx_output_tokens self' = final_output (before ++ [event]) -> mx_stop_reason self' = final_reason (before ++ [event]) ->
  same_message self' (before ++ [event]) content.
Proof.
  intros Hs Hk Eo Ei Ev E1 E2 E3 E4 E5. split; try done.
  - intros i block. rewrite Eo. intros Ho. eapply open_later; [done|done|unfold starts_block; by destruct (ev_kind event)|].
    intros kind Hd. by rewrite Hd in Hk.
  - rewrite Ei, Ev. apply Hs.
Qed.

(** An event of a block leaves the counters as they are. *)
Lemma block_message_step self before content event self' content' : same_message self before content ->
  is_message_start event = false -> is_message_delta event = false ->
  mx_input_tokens self' = mx_input_tokens self -> mx_cache_read_tokens self' = mx_cache_read_tokens self ->
  mx_cache_write_tokens self' = mx_cache_write_tokens self -> mx_output_tokens self' = mx_output_tokens self ->
  mx_stop_reason self' = mx_stop_reason self ->
  (forall i block, mx_open self' !! i = Some block ->
     exists start later, last_start i (before ++ [event]) = Some (start, later) /\ block_holds i start later block) ->
  Forall2 (fun item block => messages_block (mx_reasoning_visibility self') false block = Ok item) (mx_items self') content' ->
  same_message self' (before ++ [event]) content'.
Proof.
  intros [_ _ F1 F2 F3 F4 F5] Es Ed E1 E2 E3 E4 E5 Ho Hi.
  split; rewrite ?start_usage_snoc, ?final_output_snoc, ?final_reason_snoc, ?Es, ?Ed; congruence || done.
Qed.

(** The blocks an event closes. *)
Definition closes (before : list StreamEvent) (event : StreamEvent) (blocks : list OutputBlock) : Prop :=
  match ev_kind event with
  | ContentBlockStop => exists i start later block, event_index event = Some i /\
      last_start i before = Some (start, later) /\ spelled_block i start later = Some block /\ blocks = [block]
  | _ => blocks = []
  end.

Lemma message_block_step self before content event mapping self' : same_message self before content ->
  match ev_kind event with ContentBlockStart | ContentBlockDelta _ | ContentBlockStop => True | _ => False end ->
  messages_map self event = (Ok mapping, self') ->
  mx_reasoning_visibility self' = mx_reasoning_visibility self /\
  exists blocks, closes before event blocks /\ same_message self' (before ++ [event]) (content ++ blocks).
Proof.
  intros Hs Hb H1. unfold messages_map in H1. unfold closes.
  destruct event as [kind value]. cbn [ev_kind ev_value] in *. destruct kind as [| |kind| | | | | |]; try done.
  - unfold messages_start in H1. destruct (mapper_event_index _) as [index|] eqn:Ex; [|done]. apply mapper_index_ok in Ex.
    cbn [ev_value] in H1. destruct (object_of "content_block" value) as [b|] eqn:Eb; [|done]. simpl in H1.
    destruct (started_block b) as [[state k]|] eqn:Est; [|done]. destruct (mx_open self !! index) eqn:Eo; [done|]. simpl in H1.
    injection H1 as _ <-. split; [done|]. exists []. split; [done|]. rewrite app_nil_r.
    eapply block_message_step; try done; [|apply Hs]. simpl. intros i block.
    assert (Hst : starts_block i (mkStreamEvent ContentBlockStart value) = bool_decide (index = i)).
    { unfold starts_block. simpl. rewrite Ex. repeat case_bool_decide; naive_solver. }
    destruct (decide (index = i)) as [<-|Hne].
    + rewrite lookup_insert_eq. intros [= <-]. rewrite last_start_snoc, Hst, bool_decide_eq_true_2 by done.
      do 2 eexists. split; [done|]. by eapply started_block_holds.
    + rewrite lookup_insert_ne by done. intros Ho. eapply open_later; try done. by rewrite Hst, bool_decide_eq_false_2.
  - unfold messages_delta in H1. destruct (mapper_event_index _) as [index|] eqn:Ex; [|done]. apply mapper_index_ok in Ex.
    cbn [ev_value] in H1. destruct (object_of "delta" value) as [d|] eqn:Ed; [|done]. simpl in H1.
    destruct (mx_open self !! index) as [old|] eqn:Eo; [|done]. simpl in H1.
    destruct (delta_of _ _ _ _ _) as [[block' e]|] eqn:Edo; [|done]. injection H1 as _ <-. split; [done|].
    exists []. split; [done|]. rewrite app_nil_r. eapply block_message_step; try done; [|apply Hs]. simpl. intros i block.
    destruct (decide (index = i)) as [<-|Hne].
    + rewrite lookup_insert_eq. intros [= <-]. destruct (sa_open _ _ _ Hs index old Eo) as (start & later & Hl & Hh).
      rewrite last_start_snoc, Hl. cbn. do 2 eexists. split; [done|]. by eapply block_holds_delta.
    + rewrite lookup_insert_ne by done. intros Ho. eapply open_later; try done. intros k _. rewrite Ex. congruence.
  - unfold messages_block_stop in H1. destruct (mapper_event_index _) as [index|] eqn:Ex; [|done]. apply mapper_index_ok in Ex.
    destruct (mx_open self !! index) as [block|] eqn:Eo; [|done]. simpl in H1.
    destruct (block_item _ block) as [item|] eqn:Ib; [|done]. injection H1 as _ <-. split; [done|].
    destruct (sa_open _ _ _ Hs index block Eo) as (start & later & Hl & Hh).
    destruct (block_item_spelled _ _ _ _ _ _ Hh Ib) as (out & Hsp & Hm).
    exists [out]. split; [by exists index, start, later, out|]. eapply block_message_step; try done; simpl.
    + intros i b [Hne Ho]%lookup_delete_Some. by eapply open_later.
    + apply Forall2_app; [apply Hs|]. by apply Forall2_cons.
Qed.

Lemma message_step self before content event mapping self' : same_message self before content ->
  messages_map self event = (Ok mapping, self') ->
  mx_reasoning_visibility self' = mx_reasoning_visibility self /\
  exists blocks, closes before event blocks /\ same_message self' (before ++ [event]) (content ++ blocks).
Proof.
  intros Hs H1. destruct (decide (match ev_kind event with ContentBlockStart | ContentBlockDelta _ | ContentBlockStop => true | _ => false end = true)) as [Hb|Hb].
  { eapply message_block_step; [done| |done]. by destruct (ev_kind event). }
  assert (Hp : match ev_kind event with ContentBlockStart | ContentBlockDelta _ | ContentBlockStop => False | _ => True end)
    by by destruct (ev_kind event).
  assert (Hc : closes before event []) by (unfold closes; by destruct (ev_kind event)).
  pose proof Hs as [_ _ F1 F2 F3 F4 F5]. pose proof (plain_message_step self before content event self' Hs Hp) as Hplain.
  rewrite !start_usage_snoc, final_output_snoc, final_reason_snoc in Hplain.
  unfold is_message_start, is_message_delta in Hplain. unfold messages_map in H1.
  destruct (ev_kind event) as [| |kind| | | | | |]; try done.
  - destruct (object_of "message" (ev_value event)) as [m|]; [|done]. simpl in *.
    destruct (object_of "usage" m) as [u|]; [|done]. simpl in *. simplify_eq. split; [done|]. exists []. rewrite app_nil_r. split; [done|].
    by apply Hplain.
  - destruct (object_of "delta" (ev_value event) ≫= map_get "stop_reason") as [r|]; simpl in *.
    + destruct (de_stop_reason r) as [reason|]; [|done]. simplify_eq. split; [done|]. exists []. rewrite app_nil_r. split; [done|].
      by apply Hplain.
    + simplify_eq. split; [done|]. exists []. rewrite app_nil_r. split; [done|]. by apply Hplain.
  - destruct (messages_terminal self); simplify_eq. split; [done|]. exists []. rewrite app_nil_r. split; [done|]. by apply Hplain.
  - simplify_eq. split; [done|]. exists []. rewrite app_nil_r. split; [done|]. by apply Hplain.
Qed.

Lemma spelled_after_step before event events blocks more : closes before event blocks ->
  spelled_after (before ++ [event]) events = Some more -> spelled_after before (event :: events) = Some (blocks ++ more).
Proof.
  unfold closes. intros Hc Hm. simpl. rewrite Hm. destruct (ev_kind event); try by subst.
  destruct Hc as (i & start & later & block & -> & Hl & Hs & ->). simpl. rewrite Hl. simpl. by rewrite Hs.
Qed.

Lemma messages_run_same self before content protocol self' : same_message self before content ->
  messages_run self protocol = Ok self' -> mx_reasoning_visibility self' = mx_reasoning_visibility self /\
  exists more, spelled_after before protocol = Some more /\ same_message self' (before ++ protocol) (content ++ more).
Proof.
  revert self before content. induction protocol as [|event protocol IH]; intros self before content Hs; simpl.
  { intros [= <-]. split; [done|]. exists []. by rewrite !app_nil_r. }
  destruct (messages_map self event) as [[mapping|] self1] eqn:E; [|done]. intros Hr.
  destruct (message_step self before content event mapping self1 Hs E) as [Hv (blocks & Hc & Hs1)].
  destruct (IH _ _ _ Hs1 Hr) as [Hv' (more & Hm & Hs')]. split; [congruence|].
  exists (blocks ++ more). split; [by apply spelled_after_step|]. by rewrite <-!app_assoc in Hs'.
Qed.

Lemma terminal_agrees self before content input output : same_message self before content ->
  start_usage before "input_tokens" = Some input -> final_output before = Some output ->
  match normalize_messages (spelled_message before content input output) (mx_reasoning_visibility self) with
  | Ok outcome => messages_terminal self = Ok (mapping_terminal outcome)
  | Err _ => messages_terminal self = Err StreamInvariant
  end.
Proof.
  intros Hs Hin Hout. unfold normalize_messages, messages_terminal. simpl ms_content.
  rewrite (messages_items_same self before) by done. pose proof Hs as [_ _ E1 E2 E3 E4 E5].
  assert (Hu : mapper_usage self = messages_usage (ms_usage (spelled_message before content input output))).
  { unfold mapper_usage, messages_usage. simpl. by rewrite E1, E2, E3, E4, Hin, Hout. }
  simpl ms_stop_reason. rewrite E5, Hu. destruct (final_reason before) as [[]|]; done.
Qed.
End assembly.

(** C25: When the stream mapper of a Messages-compatible provider has mapped the events of a
    message, its terminal outcome is exactly the outcome that the buffered normalisation gives for
    the message the events spell out: every stopped block in order, with the text, tool input,
    thinking or signature that its start and the deltas of its index say one after the other, the
    usage and the stop reason of the last events that report them; where the buffered message is
    refused, the stream ends in an invariant failure. *)
Theorem messages_stream_agrees `{Externals, JsonWriter} visibility protocol self input output :
  messages_run (messages_mapper_new visibility) protocol = Ok self ->
  start_usage protocol "input_tokens" = Some input -> final_output protocol = Some output ->
  exists content, spelled_after [] protocol = Some content /\
    messages_map self (mkStreamEvent MessageStop []) =
      (match normalize_messages (spelled_message protocol content input output) visibility with
       | Ok outcome => Ok (mapping_terminal outcome)
       | Err _ => Err StreamInvariant
       end, self).
Proof.
  intros Hr Hin Hout.
  destruct (messages_run_same (messages_mapper_new visibility) [] [] protocol self) as [Hv (content & Hc & Hs)]; [by split|done|].
  exists content. split; [done|]. simpl in Hs, Hv.
  pose proof (terminal_agrees self _ content input output Hs Hin Hout) as Ht. rewrite Hv in Ht. simpl in Ht.
  unfold messages_map. simpl. by destruct (normalize_messages _ visibility); rewrite Ht.
Qed.

(** ** Tool names *)

Section names.
Context `{Externals}.

(** The name a model sees in place of a neutral one. *)
Definition wire_item (item : ModelItem) : ModelItem :=
  match item with ItemToolIntent id name arguments => ItemToolIntent id (wire_tool_name name) arguments | _ => item end.
(** An item whose tool, if it names one, is among the tools of the request. *)
Definition offered (tools : list ToolDescriptor) (item : ModelItem) : Prop :=
  match item with ItemToolIntent _ name _ => name ∈ (td_name <$> tools) | _ => True end.

Lemma wire_names_fold tools (names names' : gmap string string) :
  try_fold (fun names tool =>
      reject ProtocolInvariant when is_some ((names : gmap string string) !! wire_tool_name (td_name tool));
      Ok (<[wire_tool_name (td_name tool) := td_name tool]> names)) names tools = Ok names' ->
  (forall w n, names !! w = Some n -> names' !! w = Some n) /\
  (forall n, n ∈ (td_name <$> tools) -> names' !! wire_tool_name n = Some n) /\
  (forall w n, names' !! w = Some n -> names !! w = Some n \/ n ∈ (td_name <$> tools) /\ w = wire_tool_name n).
Proof.
  revert names. induction tools as [|tool tools IH]; intros names; cbn [try_fold].
  { intros [= <-]. set_solver. }
  destruct (names !! wire_tool_name (td_name tool)) as [x|] eqn:Ew; simpl; [done|].
  intros (Hk & Hin & Hout)%IH. split; [|split].
  - intros w n Hw. apply Hk. rewrite lookup_insert_ne; [done|]. intros <-. by rewrite Ew in Hw.
  - intros n [->|Hn]%elem_of_cons; [|by apply Hin]. apply Hk. by rewrite lookup_insert_eq.
  - intros w n [Hw|[Hn ->]]%Hout; [|right; set_solver].
    destruct (decide (wire_tool_name (td_name tool) = w)) as [<-|Hne].
    + rewrite lookup_insert_eq in Hw. simplify_eq. right. set_solver.
    + rewrite lookup_insert_ne in Hw by done. by left.
Qed.

Lemma restore_wire names items tools : wire_names tools = Ok names -> Forall (offered tools) items ->
  try_map (restore_item names) (wire_item <$> items) = Ok items.
Proof.
  intros (_ & Hin & _)%wire_names_fold H1. apply try_map_ok.
  induction H1 as [|item items Ho _ IH]; [constructor|]. constructor; [|done].
  destruct item; try done. simpl in *. by rewrite (Hin _ Ho).
Qed.

(** A restored name is the neutral name of a tool of the request, and the model used
    that tool's name on the wire. *)
Lemma restored_offered names tools item item' : wire_names tools = Ok names -> restore_item names item = Ok item' ->
  offered tools item' /\ item = wire_item item'.
Proof.
  intros (_ & _ & Hout)%wire_names_fold H1. destruct item as [| | |id name arguments| |]; simpl in H1; simplify_eq; try done.
  destruct (names !! name) as [n|] eqn:En; simpl in H1; [|done]. simplify_eq. simpl.
  apply Hout in En as [En|[Hn ->]]; [by rewrite lookup_empty in En|done].
Qed.

Lemma restored_all names tools items items' : wire_names tools = Ok names ->
  try_map (restore_item names) items = Ok items' -> Forall (offered tools) items' /\ items = wire_item <$> items'.
Proof.
  intros Hn H1. apply try_map_ok in H1. induction H1 as [|item item' items items' Hi _ [IH1 IH2]]; [by split|].
  destruct (restored_offered _ _ _ _ Hn Hi) as [Ho ->]. split; [by constructor|]. by rewrite fmap_cons, IH2 at 1.
Qed.
End names.

Definition outcome_items (outcome : InvokeOutcome) : list ModelItem :=
  match outcome with Completed items _ _ => items | Interrupted _ items _ => items | _ => [] end.
Definition with_items (outcome : InvokeOutcome) (items : list ModelItem) : InvokeOutcome :=
  match outcome with
  | Completed _ usage stop => Completed items usage stop
  | Interrupted kind _ usage => Interrupted kind items usage
  | _ => outcome
  end.

(** When the tools of a request have distinct wire names, the restoration of an answer
    succeeds with an outcome exactly when every tool intent of that outcome names an offered tool
    and the answer is that outcome with its tool names in wire form: wire names are neither
    confused nor lost. *)
Theorem tool_names_restored `{Externals} tools names outcome outcome' : wire_names tools = Ok names ->
  restore_neutral_tool_names outcome tools = Ok outcome' <->
  Forall (offered tools) (outcome_items outcome') /\
  outcome = with_items outcome' (wire_item <$> outcome_items outcome').
Proof.
  intros Hn. unfold restore_neutral_tool_names. rewrite Hn. split.
  - destruct outcome as [items usage stop|k e|k items usage|k r].
    + destruct (try_map _ items) as [items'|] eqn:Em; [|done]. intros [= <-].
      destruct (restored_all _ _ _ _ Hn Em) as [Ho ->]. done.
    + intros [= <-]. by split.
    + destruct (try_map _ items) as [items'|] eqn:Em; [|done]. intros [= <-].
      destruct (restored_all _ _ _ _ Hn Em) as [Ho ->]. done.
    + intros [= <-]. by split.
  - intros [Ho ->]. destruct outcome' as [items usage stop|k e|k items usage|k r]; simpl in *; try done;
      by rewrite (restore_wire names items tools).
Qed.

(** ** Reasoning references *)

(** Documented behaviour of [serde_json]: reading what it wrote gives the value back,
    for the values without floats. *)
Class JsonWriterLaws `{Externals, JsonWriter} : Prop :=
  json_reads_written : forall v text, value_wf v = true -> (value_depth v < 128)%nat -> encode v = Ok text ->
    json_from_str (json_to_string v) = Some v.

Section references.
Context `{JsonWriterLaws}.

(** A reference given to the kernel for a hidden block becomes that block in the next
    request. *)
Theorem reasoning_reference_round_trip :
  (forall thinking signature reference, encode_thinking thinking signature = Ok reference ->
     decode_reference reference = Ok (BlockThinking thinking signature)) /\
  (forall data reference, encode_redacted data = Ok reference ->
     decode_reference reference = Ok (BlockRedactedThinking data)).
Proof.
  split.
  - intros thinking signature reference He. unfold encode_thinking in He.
    destruct (str_is_empty thinking) eqn:E1, (str_is_empty signature) eqn:E2; try done. injection He as <-.
    unfold decode_reference. erewrite json_reads_written; [|done|simpl; lia|done]. simpl. unfold nonempty_member. simpl. by rewrite E1, E2.
  - intros data reference He. unfold encode_redacted in He. destruct (str_is_empty data) eqn:E1; [done|]. injection He as <-.
    unfold decode_reference. erewrite json_reads_written; [|done|simpl; lia|done]. simpl. unfold nonempty_member. simpl. by rewrite E1.
Qed.
End references.

(** ** Conversations

    What the items of a neutral request say, and what the turns of a mapped request say. *)

Definition is_system (item : ModelInputItem) : bool :=
  match item with InputMessage (RoleSystem | RoleDeveloper) _ => true | _ => false end.
(** The texts of a system item. *)
Definition system_texts (item : ModelInputItem) : list string :=
  match item with
  | InputMessage _ content => omap (fun part => match part with ContentText text => Some text | _ => None end) content
  | _ => []
  end.
Definition all_text (item : ModelInputItem) : Prop :=
  match item with InputMessage _ content => Forall (fun part => exists text, part = ContentText text) content | _ => True end.

(** The blocks of the turns, each with its role. *)
Definition turn_blocks (turn : Message) : list (MessageRole * ContentBlock) :=
  match mg_content turn with ContentBlocks blocks => (fun block => (mg_role turn, block)) <$> blocks | _ => [] end.
Definition spoken (turns : list Message) : list (MessageRole * ContentBlock) := turns ≫= turn_blocks.
Definition is_blocks (turn : Message) : Prop := exists blocks, mg_content turn = ContentBlocks blocks.

Definition tool_result (block : ContentBlock) : Prop := exists id content e c, block = BlockToolResult id content e c.
Lemma is_tool_result_iff block : is_tool_result block = true <-> tool_result block.
Proof. unfold tool_result. destruct block; naive_solver. Qed.
Lemma not_tool_result block : is_tool_result block = false <-> ~ tool_result block.
Proof. by rewrite <-is_tool_result_iff, not_true_iff_false. Qed.

(** Within a turn a tool result follows only tool results. *)
Definition results_first (turn : Message) : Prop :=
  forall before role block after, turn_blocks turn = before ++ (role, block) :: after -> tool_result block ->
    Forall (fun said => tool_result said.2) before.

Lemma push_results_first turns role block : Forall results_first turns ->
  Forall results_first (push_message_block turns role block).
Proof.
  intros Hf. assert (Hfresh : Forall results_first (turns ++ [mkTurn role (ContentBlocks [block])])).
  { apply Forall_app. split; [done|]. apply Forall_singleton. intros [|? []] ? ? ? [=] _; constructor. }
  unfold push_message_block. destruct turns as [|[r content] turns _] using rev_ind; [done|].
  rewrite last_snoc. destruct content as [|blocks]; [done|]. destruct (bool_decide (r = role) && _) eqn:Ej; [|done].
  apply andb_true_iff in Ej as [_ Ej]. rewrite removelast_last. apply Forall_app in Hf as [Hf Hl]. rewrite Forall_singleton in Hl.
  apply Forall_app. split; [done|]. apply Forall_singleton. intros before role' b after Heq Ht.
  unfold turn_blocks in Heq. cbn [mg_content mg_role] in Heq. rewrite fmap_app in Heq.
  destruct after as [|x after _] using rev_ind.
  - apply app_inj_tail in Heq as [<- [= <- <-]]. rewrite (proj2 (is_tool_result_iff block) Ht) in Ej.
    rewrite forallb_forall in Ej. apply Forall_fmap, Forall_forall. intros b Hb%list_elem_of_In. simpl.
    by apply is_tool_result_iff, Ej.
  - rewrite app_comm_cons, app_assoc in Heq. apply app_inj_tail in Heq as [Heq _]. by apply (Hl _ _ _ _ Heq).
Qed.

(** Consecutive turns change the role, unless a tool result must not join a message. *)
Definition grouped (turns : list Message) : Prop :=
  forall before first second after, turns = before ++ first :: second :: after ->
    mg_role first <> mg_role second \/
    (exists block, (mg_role first, block) ∈ turn_blocks first /\ ~ tool_result block) /\
    (exists block blocks, turn_blocks second = (mg_role second, block) :: blocks /\ tool_result block).

Lemma push_spoken turns role block : Forall is_blocks turns -> grouped turns ->
  spoken (push_message_block turns role block) = spoken turns ++ [(role, block)] /\
  Forall is_blocks (push_message_block turns role block) /\ grouped (push_message_block turns role block).
Proof.
  intros Hb Hg. unfold push_message_block. destruct turns as [|[r content] turns _] using rev_ind; simpl.
  { split; [done|]. split; [apply Forall_singleton; by eexists|]. intros [|? []] ? ? ? [=]. }
  rewrite last_snoc. apply Forall_app in Hb as [Hb Hl]. apply Forall_singleton in Hl as [blocks Hc]. simpl in Hc. subst content.
  assert (Hfresh : (r = role -> is_tool_result block = true /\ forallb is_tool_result blocks = false) ->
    spoken ((turns ++ [mkTurn r (ContentBlocks blocks)]) ++ [mkTurn role (ContentBlocks [block])])
      = spoken (turns ++ [mkTurn r (ContentBlocks blocks)]) ++ [(role, block)] /\
    Forall is_blocks ((turns ++ [mkTurn r (ContentBlocks blocks)]) ++ [mkTurn role (ContentBlocks [block])]) /\
    grouped ((turns ++ [mkTurn r (ContentBlocks blocks)]) ++ [mkTurn role (ContentBlocks [block])])).
  { intros Hsame. unfold spoken. rewrite !bind_app. split; [done|]. split.
    { rewrite !Forall_app, !Forall_singleton. repeat split; [done|by eexists|by eexists]. }
    intros before first second after Heq. destruct after as [|x after _] using rev_ind.
    - change [first; second] with ([first] ++ [second]) in Heq. rewrite (app_assoc before) in Heq.
      apply app_inj_tail in Heq as [Heq <-]. apply app_inj_tail in Heq as [-> <-]. simpl.
      destruct (decide (r = role)) as [->|Hne]; [right|by left]. destruct (Hsame eq_refl) as [Ht%is_tool_result_iff Hf]. split; [|eauto].
      apply not_true_iff_false in Hf. destruct (existsb (fun b => negb (is_tool_result b)) blocks) eqn:Ee.
      + apply existsb_exists in Ee as (b & Hin & Hnb). bool_hyps. exists b. split; [|by apply not_tool_result]. unfold turn_blocks. simpl.
        apply list_elem_of_fmap. exists b. split; [done|]. by apply list_elem_of_In.
      + exfalso. apply Hf. apply forallb_forall. intros b Hin%list_elem_of_In. eapply existsb_false in Ee; [|done].
        by apply negb_false_iff in Ee.
    - change (first :: second :: after ++ [x]) with ((first :: second :: after) ++ [x]) in Heq. rewrite app_assoc in Heq.
      apply app_inj_tail in Heq as [Heq _]. by eapply Hg. }
  destruct (bool_decide (r = role) && _) eqn:Ej.
  - apply andb_true_iff in Ej as [Er Ej]. bool_hyps. subst role. rewrite removelast_last. unfold spoken. rewrite !bind_app. simpl.
    split; [|split].
    + unfold turn_blocks. simpl. rewrite !app_nil_r, fmap_app, <-app_assoc. done.
    + rewrite Forall_app, Forall_singleton. split; [done|by eexists].
    + intros before first second after Heq. destruct after as [|x after _] using rev_ind.
      * change [first; second] with ([first] ++ [second]) in Heq. rewrite (app_assoc before) in Heq.
        apply app_inj_tail in Heq as [-> <-].
        destruct (Hg before first (mkTurn r (ContentBlocks blocks)) []) as [Hd|[H1 (b & bs & E & Ht)]]; [by rewrite <-app_assoc|by left|].
        right. split; [done|]. unfold turn_blocks in *. simpl in *. destruct blocks as [|b' blocks]; [done|]. simpl in E. simplify_eq. eauto.
      * change (first :: second :: after ++ [x]) with ((first :: second :: after) ++ [x]) in Heq. rewrite app_assoc in Heq.
        apply app_inj_tail in Heq as [-> _]. eapply (Hg before first second (after ++ [_])). by rewrite <-app_assoc.
  - apply Hfresh. intros ->. rewrite bool_decide_eq_true_2 in Ej by done. simpl in Ej. by destruct (is_tool_result block).
Qed.

(** The name of a tool on the wire: its own where it is portable, a digest of it otherwise. *)
Definition portable_name (name : string) : Prop :=
  name <> "" /\ str_len name <= 64 /\
  Forall (fun c => c ∈ list_ascii_of_string "ABCDEFGHIJKLMNOPQRSTUVWXYZabcdefghijklmnopqrstuvwxyz0123456789_-")
    (list_ascii_of_string name).
Definition wire_name `{Externals} (name wire : string) : Prop :=
  portable_name name /\ wire = name \/ ~ portable_name name /\ wire = "garive_" +:+ str_take 57 (sha256_hex name).

Lemma portable_name_byte_in c : portable_name_byte c = true <->
  c ∈ list_ascii_of_string "ABCDEFGHIJKLMNOPQRSTUVWXYZabcdefghijklmnopqrstuvwxyz0123456789_-".
Proof.
  rewrite <-(bool_decide_eq_true (c ∈ _)). apply eq_iff_eq_true.
  destruct c as [[] [] [] [] [] [] [] []]; vm_compute; reflexivity.
Qed.

Lemma all_bytes_Forall f s : all_bytes f s = true <-> Forall (fun c => f c = true) (list_ascii_of_string s).
Proof. induction s as [|c s IH]; simpl; [done|]. by rewrite Forall_cons, andb_true_iff, IH. Qed.

Lemma wire_tool_name_ok `{Externals} name : wire_name name (wire_tool_name name).
Proof.
  unfold wire_name, wire_tool_name.
  assert (Hp : negb (str_is_empty name) && (str_len name <=? MAX_PORTABLE_WIRE_NAME_BYTES) && all_bytes portable_name_byte name = true
    <-> portable_name name).
  { unfold portable_name. rewrite !andb_true_iff, negb_true_iff, str_is_empty_false, Z.leb_le, all_bytes_Forall, Logic.and_assoc.
    rewrite !Forall_forall. by setoid_rewrite portable_name_byte_in. }
  destruct (negb _ && _ && _); [left; split; [by apply Hp|done]|right]. split; [|done]. intros Hn. by apply Hp in Hn.
Qed.

Section conversations.
Context `{Externals, JsonWriter} (deployment : MessagesDeployment).

(** The blocks that parts of a message are shown as. *)
Inductive shown : ModelInputContent -> ContentBlock -> Prop :=
  | shown_text text : shown (ContentText text) (BlockText text None)
  | shown_image kind reference size source : md_media_bindings deployment !! reference = Some (BindingImage source) ->
      shown (ContentMediaReference kind reference size) (BlockImage source None)
  | shown_document kind reference size source : md_media_bindings deployment !! reference = Some (BindingDocument source) ->
      shown (ContentMediaReference kind reference size) (BlockDocument source None None None None).

(** What an item of the conversation says: which role says which blocks. *)
Inductive item_says : ModelInputItem -> list (MessageRole * ContentBlock) -> Prop :=
  | says_user content blocks : Forall2 shown content blocks ->
      item_says (InputMessage RoleUser content) (pair User <$> blocks)
  | says_assistant content blocks : Forall2 shown content blocks ->
      item_says (InputMessage RoleAssistant content) (pair Assistant <$> blocks)
  | says_intent id name wire arguments input : wire_name name wire -> json_from_str arguments = Some (Obj input) ->
      item_says (InputToolIntent id name arguments) [(Assistant, BlockToolUse id wire input None)]
  | says_observation id observation :
      item_says (InputToolObservation id observation) [(User, BlockToolResult id (Some (ResultString observation)) None None)]
  | says_thinking reference members thinking signature : json_from_str reference = Some (Obj members) ->
      length members = 3%nat -> map_get "kind" members = Some (Str "anthropic.messages.thinking.v1") ->
      map_get "thinking" members = Some (Str thinking) -> thinking <> "" ->
      map_get "signature" members = Some (Str signature) -> signature <> "" ->
      item_says (InputReasoningReference reference) [(Assistant, BlockThinking thinking signature)]
  | says_redacted reference members data : json_from_str reference = Some (Obj members) ->
      length members = 2%nat -> map_get "kind" members = Some (Str "anthropic.messages.redacted-thinking.v1") ->
      map_get "data" members = Some (Str data) -> data <> "" ->
      item_says (InputReasoningReference reference) [(Assistant, BlockRedactedThinking data)].

(** A tool as it is offered to the model, and the form its answer must have. *)
Definition offered_tool (tool : ToolDescriptor) (wire : Tool) : Prop :=
  wire_name (td_name tool) (tl_name wire) /\ json_from_str (td_input_schema_json tool) = Some (Obj (tl_input_schema wire)) /\
  tl_description wire = Some (td_description tool) /\ tl_strict wire = Some (td_strict tool) /\ tl_cache_control wire = None.
Inductive answer_form : TextMode -> option OutputConfig -> Prop :=
  | answer_plain : answer_form Plain None
  | answer_object : answer_form JsonObject (Some (mkOutputConfig None (Some (mkJsonFormat [("type", Str "object")]))))
  | answer_schema text schema : json_from_str text = Some (Obj schema) ->
      answer_form (JsonSchema text) (Some (mkOutputConfig None (Some (mkJsonFormat schema)))).

Lemma messages_content_shown part block : messages_content deployment part = Ok block -> shown part block.
Proof.
  destruct part as [text|kind reference size]; simpl; [intros [= <-]; constructor|].
  destruct (md_media_bindings deployment !! reference) as [[]|] eqn:E; intros [= <-]; by constructor.
Qed.

Lemma json_object_ok text object : json_object text = Ok object -> json_from_str text = Some (Obj object).
Proof. unfold json_object. destruct (json_from_str text) as [[]|]; naive_solver. Qed.

Lemma messages_tools_ok tools wires : try_map messages_tool tools = Ok wires -> Forall2 offered_tool tools wires.
Proof.
  intros Ht%try_map_ok. eapply Forall2_impl; [exact Ht|]. intros tool wire. unfold messages_tool, offered_tool.
  destruct (json_object _) as [schema|] eqn:Ej; [|done]. apply json_object_ok in Ej. intros [= <-]. simpl.
  split_and!; [apply wire_tool_name_ok|done..].
Qed.

Lemma messages_output_ok mode out : messages_output mode = Ok out -> answer_form mode out.
Proof.
  destruct mode as [| |text]; simpl; [intros [= <-]; constructor..|].
  destruct (json_object text) as [schema|] eqn:Ej; [|done]. apply json_object_ok in Ej. intros [= <-]. by constructor.
Qed.

Lemma output_limit_ok (asked default : option Z) max : ok_or (option_or asked default) MissingOutputLimit = Ok max ->
  asked = Some max \/ asked = None /\ default = Some max.
Proof. destruct asked as [n|]; simpl; [intros [= ->]; by left|]. destruct default; intros [= ->]; by right. Qed.

Lemma nonempty_member_ok members key text : nonempty_member members key = Ok text ->
  map_get key members = Some (Str text) /\ text <> "".
Proof.
  unfold nonempty_member. destruct (map_get key members) as [[| | |found| |]|]; simpl; try done.
  destruct (str_is_empty found) eqn:E; [done|]. intros [= <-]. split; [done|]. by apply str_is_empty_false.
Qed.

Lemma decode_reference_says reference block : decode_reference reference = Ok block ->
  item_says (InputReasoningReference reference) [(Assistant, block)].
Proof.
  unfold decode_reference. destruct (json_from_str reference) as [[| | | | |members]|] eqn:E; try done.
  destruct (map_get "kind" members) as [[| | |kind| |]|] eqn:Ek; cbn [mbind option_bind as_str]; try done.
  destruct ((kind =? THINKING_KIND)%string && _) eqn:E1; [|destruct ((kind =? REDACTED_KIND)%string && _) eqn:E2; [|done]].
  - apply andb_true_iff in E1 as [->%String.eqb_eq ?%Nat.eqb_eq]. destruct (nonempty_member members "thinking") as [t|] eqn:Et; [|done].
    destruct (nonempty_member members "signature") as [sg|] eqn:Es; [|done]. intros [= <-].
    apply nonempty_member_ok in Et as [? ?], Es as [? ?]. by eapply says_thinking.
  - apply andb_true_iff in E2 as [->%String.eqb_eq ?%Nat.eqb_eq]. destruct (nonempty_member members "data") as [t|] eqn:Et; [|done].
    intros [= <-]. apply nonempty_member_ok in Et as [? ?]. by eapply says_redacted.
Qed.

Record conversation_ok (c : Conversation) : Prop := {
  co_blocks : Forall is_blocks (cv_turns c);
  co_grouped : grouped (cv_turns c);
  co_results : Forall results_first (cv_turns c);
}.

Lemma say_ok role block c : conversation_ok c -> conversation_ok (say role block c) /\
  spoken (cv_turns (say role block c)) = spoken (cv_turns c) ++ [(role, block)].
Proof.
  intros [Hb Hg Hr]. destruct (push_spoken (cv_turns c) role block Hb Hg) as (? & ? & ?).
  split; [split; try done|done]. by apply push_results_first.
Qed.

Lemma message_parts_ok role content c c' : conversation_ok c -> cv_started c = true ->
  try_fold (message_part deployment role) c content = Ok c' ->
  conversation_ok c' /\ cv_system c' = cv_system c /\ cv_started c' = true /\
  exists blocks, Forall2 shown content blocks /\
    spoken (cv_turns c') = spoken (cv_turns c) ++ (pair role <$> blocks).
Proof.
  revert c. induction content as [|part content IH]; intros c Hc Hst; simpl.
  { intros [= <-]. split; [done|]. split; [done|]. split; [done|]. exists []. by rewrite app_nil_r. }
  unfold message_part at 1. destruct (messages_content deployment part) as [block|] eqn:Ep; [|done].
  destruct (say_ok role block c Hc) as [Hc1 Hs1]. intros Hf. apply IH in Hf as (Hc' & Hsys & Hst' & blocks & Hm & Hs); [|done|done].
  split; [done|]. split; [done|]. split; [done|]. exists (block :: blocks). split; [constructor; [by apply messages_content_shown|done]|].
  rewrite Hs, Hs1, <-app_assoc. done.
Qed.

Lemma conversation_item_ok item c c' : conversation_ok c -> is_system item = false ->
  messages_item deployment c item = Ok c' ->
  conversation_ok c' /\ cv_system c' = cv_system c /\ cv_started c' = true /\
  exists blocks, item_says item blocks /\ spoken (cv_turns c') = spoken (cv_turns c) ++ blocks.
Proof.
  intros Hc Hns Hi.
  assert (Hsay : forall role block, c' = say role block c -> conversation_ok c' /\ cv_system c' = cv_system c /\ cv_started c' = true /\
    spoken (cv_turns c') = spoken (cv_turns c) ++ [(role, block)]).
  { intros role block ->. by destruct (say_ok role block c Hc). }
  destruct item as [role content|id name args|id res|reference]; simpl in Hi |- *.
  - assert (exists r, (forall blocks, Forall2 shown content blocks -> item_says (InputMessage role content) (pair r <$> blocks)) /\
      try_fold (message_part deployment r) (mkConversation (cv_system c) (cv_turns c) true) content = Ok c') as (r & Hr & Hf).
    { destruct role; simpl in Hns, Hi; try done; eauto using says_user, says_assistant. }
    destruct Hc as [Hb Hg Hrf]. destruct (message_parts_ok r content (mkConversation (cv_system c) (cv_turns c) true) c') as (H1 & H2 & H3 & blocks & Hm & Hs);
      [by split|done|done|].
    split; [done|]. split; [done|]. split; [done|]. eauto.
  - destruct (json_object args) as [input|] eqn:Ej; [|done]. injection Hi as <-. edestruct Hsay as (? & ? & ? & ?); [done|].
    apply json_object_ok in Ej. eauto 10 using says_intent, wire_tool_name_ok.
  - injection Hi as <-. edestruct Hsay as (? & ? & ? & ?); [done|]. eauto 10 using says_observation.
  - destruct (decode_reference reference) as [block|] eqn:Ed; [|done]. injection Hi as <-. edestruct Hsay as (? & ? & ? & ?); [done|].
    eauto 10 using decode_reference_says.
Qed.

Lemma conversation_started items c c' : conversation_ok c -> cv_started c = true ->
  try_fold (messages_item deployment) c items = Ok c' ->
  conversation_ok c' /\ cv_system c' = cv_system c /\ Forall (fun item => is_system item = false) items /\
  exists says, Forall2 item_says items says /\ spoken (cv_turns c') = spoken (cv_turns c) ++ concat says.
Proof.
  revert c. induction items as [|item items IH]; intros c Hc Hst; simpl.
  { intros [= <-]. split; [done|]. split; [done|]. split; [constructor|]. exists []. by rewrite app_nil_r. }
  destruct (is_system item) eqn:Esys.
  { destruct item as [[] content| | |]; simpl in *; rewrite ?Hst; done. }
  destruct (messages_item deployment c item) as [c1|] eqn:Ei; [|done]. intros Hf.
  destruct (conversation_item_ok item c c1 Hc Esys Ei) as (Hc1 & Hs1 & Hst1 & blocks & Hsay & Hsp).
  apply IH in Hf as (Hc' & Hs' & Hall & says & Hm & Hsp'); [|done|done].
  split; [done|]. split; [congruence|]. split; [by constructor|]. exists (blocks :: says). split; [by constructor|].
  rewrite Hsp', Hsp, <-app_assoc. done.
Qed.

Lemma system_parts_ok content system system' : try_fold system_part system content = Ok system' ->
  Forall (fun part => exists text, part = ContentText text) content /\
  tb_text <$> system' = (tb_text <$> system) ++
    omap (fun part => match part with ContentText text => Some text | _ => None end) content.
Proof.
  revert system. induction content as [|part content IH]; intros system; simpl.
  { intros [= <-]. by rewrite app_nil_r. }
  destruct part as [text|]; simpl; [|done]. intros [Hall Ht]%IH. split; [constructor; eauto|].
  rewrite Ht, fmap_app, <-app_assoc. done.
Qed.

Lemma conversation_ok_fold items c c' : conversation_ok c -> cv_started c = false ->
  try_fold (messages_item deployment) c items = Ok c' ->
  conversation_ok c' /\ exists leading rest says, items = leading ++ rest /\
    Forall (fun item => is_system item = true /\ all_text item) leading /\
    Forall (fun item => is_system item = false) rest /\
    tb_text <$> cv_system c' = (tb_text <$> cv_system c) ++ (leading ≫= system_texts) /\
    Forall2 item_says rest says /\ spoken (cv_turns c') = spoken (cv_turns c) ++ concat says.
Proof.
  revert c. induction items as [|item items IH]; intros c Hc Hst; cbn [try_fold].
  { intros [= <-]. split; [done|]. exists [], [], []. rewrite !app_nil_r. naive_solver constructor. }
  destruct (is_system item) eqn:Esys.
  - assert (exists role content, item = InputMessage role content) as (role & content & ->) by (destruct item; try done; eauto).
    assert (messages_item deployment c (InputMessage role content) =
      (let? system := try_fold system_part (cv_system c) content in Ok (mkConversation system (cv_turns c) (cv_started c)))) as ->.
    { destruct role; try done; simpl; by rewrite Hst. }
    destruct (try_fold system_part (cv_system c) content) as [system|] eqn:Es; [|done].
    apply system_parts_ok in Es as [Hall Ht]. intros Hf. destruct Hc as [Hb Hg Hrf].
    apply IH in Hf as (Hc' & leading & rest & says & -> & Hl & Hr & Hsys & Hm & Hsp); [|by split|done].
    split; [done|]. exists (InputMessage role content :: leading), rest, says. split; [done|]. split; [by constructor|].
    split; [done|]. split; [|done]. rewrite Hsys. simpl. rewrite Ht, <-app_assoc. done.
  - destruct (messages_item deployment c item) as [c1|] eqn:Ei; [|done]. intros Hf.
    destruct (conversation_item_ok item c c1 Hc Esys Ei) as (Hc1 & Hs1 & Hst1 & blocks & Hsay & Hsp).
    destruct (conversation_started items c1 c' Hc1 Hst1 Hf) as (Hc' & Hs' & Hall & says & Hm & Hsp').
    split; [done|]. exists [], (item :: items), (blocks :: says). split; [done|]. split; [constructor|]. split; [by constructor|].
    split; [rewrite Hs', Hs1; by rewrite app_nil_r|]. split; [by constructor|]. rewrite Hsp', Hsp. simpl. rewrite <-app_assoc. done.
Qed.
End conversations.

Definition system_prompt_texts (system : option SystemPrompt) : list string :=
  match system with Some (SystemBlocks blocks) => tb_text <$> blocks | Some (SystemString text) => [text] | None => [] end.

(** C26: A request mapped for a Messages deployment is sent to the target of the deployment under
    its model, passes the validation of the adapter, and says what the neutral request says: the
    leading system items become the system prompt, every other item is said once and in order
    (user messages and tool results by the user, assistant messages, tool calls and reasoning by
    the assistant, texts as they are, media by their bindings, tools under their portable names),
    neighbouring turns of one role are joined unless the second opens with a tool result, which
    follows only tool results in a turn; output limit, streaming, thinking, tools and answer form
    are those asked for. *)
Theorem messages_request_exact `{Externals, JsonWriter} deployment request mapped :
  map_messages_request deployment request = Ok mapped ->
  mr_target_id request = md_target_id deployment /\ cm_model mapped = md_model_id deployment /\
  Messages.create_validate mapped = Ok tt /\
  (mo_max_output_tokens (mr_output request) = Some (cm_max_tokens mapped) \/
   mo_max_output_tokens (mr_output request) = None /\ md_default_max_output_tokens deployment = Some (cm_max_tokens mapped)) /\
  cm_stream mapped = bool_decide (CapStreaming ∈ mr_required_capabilities request) /\
  cm_thinking mapped = md_thinking deployment /\
  Forall2 offered_tool (mr_tools request) (cm_tools mapped) /\
  answer_form (mo_text_mode (mr_output request)) (cm_output_config mapped) /\
  grouped (cm_messages mapped) /\ Forall results_first (cm_messages mapped) /\
  exists leading rest says, mr_input_items request = leading ++ rest /\
    Forall (fun item => is_system item = true /\ all_text item) leading /\
    Forall (fun item => is_system item = false) rest /\
    system_prompt_texts (cm_system mapped) = leading ≫= system_texts /\
    Forall2 (item_says deployment) rest says /\ spoken (cm_messages mapped) = concat says.
Proof.
  unfold map_messages_request, admit_request. intros Hm.
  destruct (model_request_validate request); [|done]. destruct (String.eqb_spec (mr_target_id request) (md_target_id deployment)) as [Et|]; [|done].
  simpl in Hm. destruct (List.find _ _); [done|]. destruct (existsb _ _); [done|]. destruct (_ && _); [done|].
  destruct (ok_or _ _) as [max|] eqn:Emax; [|done]. destruct (try_fold _ _ _) as [c|] eqn:Ef; [|done].
  destruct (try_map _ _) as [tools|] eqn:Etools; [|done]. destruct (messages_output _) as [out|] eqn:Eout; [|done].
  match type of Hm with match Messages.create_validate ?m with _ => _ end = _ => destruct (Messages.create_validate m) as [[]|] eqn:Ev; [|done] end.
  injection Hm as <-. split; [done|]. split; [done|]. split; [done|]. cbn [cm_max_tokens cm_stream cm_thinking cm_tools cm_output_config].
  split; [by apply output_limit_ok|]. split; [done|]. split; [done|]. split; [by apply messages_tools_ok|].
  split; [by apply messages_output_ok|]. apply (conversation_ok_fold deployment) in Ef as ([Hb Hg Hrf] & leading & rest & says & Hi & Hl & Hr & Hs & Hsay & Hsp);
    [|split; [constructor|by intros [] ? ? ? [=]|constructor]|done].
  split; [done|]. split; [done|]. exists leading, rest, says. split; [done|]. split; [done|]. split; [done|]. split; [|by split].
  cbn [cm_system]. simpl in Hs. rewrite <-Hs. by destruct (cv_system c).
Qed.

(** ** Samples *)

Module CompatibleSample.
#[local] Existing Instance model_externals.
#[export] Instance writer : JsonWriter := fun v => match encode v with Ok text => text | Err _ => "" end.

Lemma writer_laws : @JsonWriterLaws model_externals writer.
Proof.
  intros v text Hwf Hd He. unfold json_to_string, writer. rewrite He.
  by apply (@json_reads_canonical model_externals model_externals_laws).
Qed.

Definition tool (name : string) : ToolDescriptor := mkToolDescriptor name "description" "1" "{}" true.
Definition tools : list ToolDescriptor := [tool "garive.workspace.read_text"; tool "list_files"].
Definition names : gmap string string := match wire_names tools with Ok names => names | Err _ => ∅ end.
Lemma names_ok : wire_names tools = Ok names.
Proof.
  assert (Hok : is_ok (wire_names tools) = true) by (vm_compute; reflexivity).
  unfold names. by destruct (wire_names tools).
Qed.
Definition usage : ModelUsage := unknown_usage.
Definition neutral : InvokeOutcome :=
  Completed [ItemText "reading"; ItemToolIntent "call-1" "garive.workspace.read_text" "{}"] usage ToolUse.
Definition received : InvokeOutcome :=
  Completed [ItemText "reading"; ItemToolIntent "call-1" (wire_tool_name "garive.workspace.read_text") "{}"] usage ToolUse.

Definition event (kind : StreamEventKind) (value : Map) : StreamEvent := mkStreamEvent kind value.
Definition protocol : list StreamEvent :=
  [event MessageStart [("message", Obj [("usage", Obj [("input_tokens", Num (PosInt 12))])])];
   event ContentBlockStart [("content_block", Obj [("text", Str ""); ("type", Str "text")]); ("index", Num (PosInt 0))];
   event (ContentBlockDelta DeltaText) [("delta", Obj [("text", Str "no")]); ("index", Num (PosInt 0))];
   event ContentBlockStop [("index", Num (PosInt 0))];
   event ContentBlockStart [("content_block", Obj [("id", Str "c1"); ("name", Str "list_files"); ("type", Str "tool_use")]);
     ("index", Num (PosInt 1))];
   event (ContentBlockDelta DeltaInputJson) [("delta", Obj [("partial_json", Str "{}")]); ("index", Num (PosInt 1))];
   event ContentBlockStop [("index", Num (PosInt 1))];
   event MessageDelta [("delta", Obj [("stop_reason", Str "refusal")]); ("usage", Obj [("output_tokens", Num (PosInt 3))])]].
Definition mapped : MessagesStreamMapper :=
  match messages_run (messages_mapper_new false) protocol with Ok self => self | Err _ => messages_mapper_new false end.

Definition deployment : MessagesDeployment :=
  mkMessagesDeployment "target" "model-1" [CapText; CapTools] (Some 1000) ∅ None ∅.
Definition request : ModelRequest :=
  mkModelRequest "request" "target" [CapText]
    [InputMessage RoleSystem [ContentText "be brief"]; InputMessage RoleUser [ContentText "list the files"];
     InputToolIntent "c1" "list_files" "{}"; InputToolObservation "c1" "[]"; InputMessage RoleUser [ContentText "thanks"]]
    tools (mkOutputSettings None Plain false) [].
Definition create : CreateMessageRequest :=
  match map_messages_request deployment request with Ok mapped => mapped | Err _ => Messages.create_request_new "" 0 [] false end.
End CompatibleSample.

Lemma tool_names_restored_witness :
  @restore_neutral_tool_names model_externals CompatibleSample.received CompatibleSample.tools = Ok CompatibleSample.neutral.
Proof.
  refine (proj2 (@tool_names_restored model_externals CompatibleSample.tools CompatibleSample.names
    CompatibleSample.received CompatibleSample.neutral CompatibleSample.names_ok) _).
  split; [|reflexivity]. apply Forall_cons. split; [done|]. apply Forall_singleton. left.
Defined.

Lemma messages_stream_agrees_witness :
  @messages_map model_externals CompatibleSample.writer CompatibleSample.mapped (mkStreamEvent MessageStop []) =
    (Ok (mapping_terminal (Completed [ItemRefusal "no"; ItemToolIntent "c1" "list_files" "{}"]
       (mkModelUsage (Known 12) (Known 3) None None ProviderReported) StopRefusal)), CompatibleSample.mapped).
Proof.
  destruct (@messages_stream_agrees model_externals CompatibleSample.writer false CompatibleSample.protocol
    CompatibleSample.mapped 12 3 ltac:(by vm_compute) ltac:(by vm_compute) ltac:(by vm_compute)) as (content & Hc & Ht).
  vm_compute in Hc. injection Hc as <-. vm_compute in Ht |- *. exact Ht.
Defined.

Lemma messages_request_exact_witness :
  grouped (cm_messages CompatibleSample.create) /\ length (cm_messages CompatibleSample.create) = 3%nat.
Proof.
  split; [|by vm_compute].
  apply (@messages_request_exact model_externals CompatibleSample.writer CompatibleSample.deployment CompatibleSample.request).
  by vm_compute.
Defined.

(** ** Divergences *)

Section divergences.
Context `{Externals, JsonWriter}.

Definition hidden_reasoning : Value :=
  Obj [("id", Str "rs_1"); ("summary", Arr []); ("type", Str "reasoning")].
Definition reasoning_event (kind : PortableEventKind) (number : Z) : ResponseStreamEvent :=
  Portable kind number [("item", hidden_reasoning); ("output_index", Num (PosInt 0))].
Definition reasoning_response : Response :=
  mkResponse "resp" f64_zero None None None None "model" [Responses.OutReasoning (mkReasoning "rs_1" [] None None None [])]
    true None None Null [] None (Some StatusCompleted) None [].

(** A reasoning item without visible or encrypted content is skipped in a buffered
    response, and fails the stream that carries the same item. *)
Theorem hidden_reasoning_fails_stream visibility :
  normalize_responses reasoning_response visibility = Ok (Completed [] unknown_usage EndTurn) /\
  exists started, responses_map (responses_mapper_new visibility) (reasoning_event OutputItemAdded 1) =
      (Ok (mapping_events [OutputItemStarted 0 OutReasoning]), started) /\
    (responses_map started (reasoning_event OutputItemDone 2)).1 = Err StreamInvariant.
Proof. by destruct visibility; (split; [reflexivity|]); eexists. Qed.

(** The two trace keys a Messages request admits are dropped, although the design has
    metadata fail rather than disappear. *)
Theorem trace_metadata_disappears deployment request mapped :
  map_messages_request deployment request = Ok mapped -> cm_metadata mapped = None /\ cm_extensions mapped = [].
Proof.
  unfold map_messages_request. intros Hm. destruct (admit_request _ _ _); [|done]. destruct (existsb _ _); [done|].
  destruct (_ && _); [done|]. destruct (ok_or _ _); [|done]. destruct (try_fold _ _ _); [|done]. destruct (try_map _ _); [|done].
  destruct (messages_output _); [|done].
  match type of Hm with match Messages.create_validate ?m with _ => _ end = _ => destruct (Messages.create_validate m); [|done] end.
  by injection Hm as <-.
Qed.

Definition block_start (index : Z) : Map :=
  [("content_block", Obj [("text", Str ""); ("type", Str "text")]); ("index", Num (PosInt index))].
Definition block_stop (index : Z) : Map := [("index", Num (PosInt index))].
Definition after_start : MessagesStreamDecoder := mkStreamDecoder sse_new true false false ∅.

(** The Messages decoder takes the index of a closed block for a new one, which the
    stream validator then refuses. *)
Theorem block_index_reused :
  exists d1 d2 d3,
    validate_lifecycle after_start ContentBlockStart (block_start 0) = (Ok tt, d1) /\
    validate_lifecycle d1 ContentBlockStop (block_stop 0) = (Ok tt, d2) /\
    validate_lifecycle d2 ContentBlockStart (block_start 0) = (Ok tt, d3) /\
    try_fold stream_accept stream_validator_default
      (emitted messages_map (messages_mapper_new false)
         [mkStreamEvent ContentBlockStart (block_start 0); mkStreamEvent ContentBlockStop (block_stop 0);
          mkStreamEvent ContentBlockStart (block_start 0)]) = Err NonMonotonicStart.
Proof. do 3 eexists. split; [reflexivity|]. split; [reflexivity|]. split; [reflexivity|]. vm_compute. reflexivity. Qed.
End divergences.
