(* ===== verification/SqliteLedger.v ===== *)
(** * The durable ledger ([runtime/replica/src/sqlite_ledger])

    The tables of the database, the loader that rebuilds the portable ledger
    state from them ([storage.rs]), the commit transaction and the reads
    ([mod.rs]), the two kinds of operational leases ([lease.rs],
    [schedule_lease.rs]) and the persistent clock ([monotonic_clock.rs]).

    A table is a finite map from its primary key to its row; the constraints that
    [migrations.rs] declares are checked by the inserts.  A transaction that
    returns an error is rolled back, so an operation gives either an error or the
    next database.  Integers are stored as eight big-endian bytes, which SQLite
    compares bytewise. *)

From S2P Require Import Prelude Text Json LedgerTypes ProjectionTypes Projection LedgerState Order ProcessProtocol.

(** ** Errors

    Each enumeration has one constructor more than the source, for a panic of the
    portable ledger below the call. *)

Inductive ExecutionLeaseError :=
  | LeaseInvalidRequest
  | LeaseAlreadyHeld
  | LeaseRecoveryRequired
  | LeaseExecutionNotActive
  | LeaseLost
  | LeaseStorage
  | LeasePanicked.

Inductive ScheduleLeaseError :=
  | SchedInvalidRequest
  | SchedAlreadyHeld
  | SchedRevisionNotActive
  | SchedLeaseLost
  | SchedFactBindingMismatch
  | SchedStorage.

Inductive SqliteLedgerError :=
  | Domain (e : LedgerError)
  | CorruptLedger (e : LedgerError)
  | Storage
  | UnsupportedSchema (version : Z)
  | InvalidStoredValue (field : string)
  | Lease (e : ExecutionLeaseError)
  | ScheduleLeaseE (e : ScheduleLeaseError)
  | SqlitePanicked.

Definition domain_error (a : Abort) : SqliteLedgerError :=
  match a with Returned e => Domain e | Panicked => SqlitePanicked end.
Definition corrupt_error (a : Abort) : SqliteLedgerError :=
  match a with Returned e => CorruptLedger e | Panicked => SqlitePanicked end.

Definition map_err {E F A} (f : E -> F) (r : result E A) : result F A :=
  match r with Ok a => Ok a | Err e => Err (f e) end.

(** ** Tables *)

(** A row of [ledger_facts], in the column order of the loader. *)
Record StoredFact := mkStoredFact {
  st_session_id : string;
  st_position : string;
  st_commit_version : string;
  st_fact_id : string;
  st_turn_id : option string;
  st_execution_id : option string;
  st_model_request_id : option string;
  st_tool_invocation_id : option string;
  st_kind : string;
  st_schema_version : Z;
  st_payload_json : string;
  st_payload_sha256 : string;
  st_recorded_at : string;
}.

Record SessionRow := mkSessionRow {
  se_version : string;
  se_max_position : string;
}.

Record ExecutionLeaseRow := mkExecutionLeaseRow {
  xl_execution_id : string;
  xl_owner_id : string;
  xl_lease_token : string;
  xl_generation : string;
  xl_expires_at_ms : string;
}.

Record ScheduleLeaseRow := mkScheduleLeaseRow {
  sl_revision_id : string;
  sl_occurrence_id : string;
  sl_ordinal : string;
  sl_owner_id : string;
  sl_lease_id : string;
  sl_epoch : string;
  sl_expires_at_ms : string;
}.

Record ClockRow := mkClockRow {
  ck_boot_revision : string;
  ck_boot_origin_tick : string;
  ck_logical_origin_tick : string;
  ck_last_tick : string;
  ck_reserved_until_tick : string;
}.

Record Database := mkDatabase {
  ledger_sessions : gmap string SessionRow;
  ledger_facts : gmap string StoredFact;
  execution_leases : gmap string ExecutionLeaseRow;
  schedule_leases : gmap (string * string) ScheduleLeaseRow;
  runtime_monotonic_clock : option ClockRow;
}.
#[export] Instance eta_Database : Eta Database := fun r =>
  mkDatabase (ledger_sessions r) (ledger_facts r) (execution_leases r) (schedule_leases r) (runtime_monotonic_clock r).

Definition database_empty : Database := mkDatabase ∅ ∅ ∅ ∅ None.

Definition encode_u64 (value : Z) : string := to_be_bytes 8 value.
Definition decode_u64 (value field : string) : result SqliteLedgerError Z :=
  if (String.length value =? 8)%nat then Ok (from_be_bytes 0 value) else Err (InvalidStoredValue field).

(** ** Loading *)

Definition stored_identity (value field : string) : result SqliteLedgerError string :=
  ok_or (ledger_identity_try_from value) (InvalidStoredValue field).
Definition optional_identity (value : option string) (field : string)
    : result SqliteLedgerError (option string) :=
  match value with
  | None => Ok None
  | Some value => let? value := stored_identity value field in Ok (Some value)
  end.

Section load.
Context `{Externals}.

Definition decode_draft (value : StoredFact) : result SqliteLedgerError FactDraft :=
  let? schema_version := ok_or (u32_try_from (st_schema_version value)) (InvalidStoredValue "schema_version") in
  let? payload := map_err (fun e => CorruptLedger (Corruption e))
    (from_canonical_parts (st_payload_json value) (st_payload_sha256 value)) in
  let? fact_id := stored_identity (st_fact_id value) "fact_id" in
  let? turn_id := optional_identity (st_turn_id value) "turn_id" in
  let? execution_id := optional_identity (st_execution_id value) "execution_id" in
  let? model_request_id := optional_identity (st_model_request_id value) "model_request_id" in
  let? tool_invocation_id := optional_identity (st_tool_invocation_id value) "tool_invocation_id" in
  let? kind := map_err CorruptLedger (FactKind_new (st_kind value)) in
  Ok (mkFactDraft fact_id turn_id execution_id model_request_id tool_invocation_id kind schema_version payload
        (st_recorded_at value)).

Definition apply_group (state : LedgerState) (session : string) (version : Z) (drafts : list FactDraft)
    : result SqliteLedgerError LedgerState :=
  let? expected := ok_or (checked_sub version 1) (InvalidStoredValue "commit_version") in
  let? (state, result) := map_err corrupt_error (commit state session expected drafts) in
  reject (InvalidStoredValue "commit_version") when
    bool_decide (disposition result <> Committed) || negb (result_session_version result =? version);
  Ok state.

(** The locals of the loop over the rows. *)
Record Loading := mkLoading {
  lo_state : LedgerState;
  lo_session : option string;
  lo_version : Z;
  lo_group : list FactDraft;
  lo_expected : Z;
}.
Definition loading_new : Loading := mkLoading ledger_default None 0 [] 1.

Definition load_row (self : Loading) (row : StoredFact) : result SqliteLedgerError Loading :=
  let? session := stored_identity (st_session_id row) "session_id" in
  let? version := decode_u64 (st_commit_version row) "commit_version" in
  let? position := decode_u64 (st_position row) "position" in
  let session_changed := is_some_and (fun current => negb (current =? session)%string) (lo_session self) in
  let boundary := is_some_and (fun _ => session_changed || negb (lo_version self =? version)) (lo_session self) in
  let? self :=
    match lo_session self with
    | Some current =>
        if boundary then
          let? state := apply_group (lo_state self) current (lo_version self) (lo_group self) in
          Ok (mkLoading state None (lo_version self) [] (if session_changed then 1 else lo_expected self))
        else Ok self
    | None => Ok self
    end in
  let self :=
    match lo_session self with
    | None => mkLoading (lo_state self) (Some session) version (lo_group self) (lo_expected self)
    | Some _ => self
    end in
  reject (InvalidStoredValue "position") when negb (position =? lo_expected self);
  let? expected := ok_or (checked_add position 1) (InvalidStoredValue "position") in
  let? draft := decode_draft row in
  Ok (mkLoading (lo_state self) (lo_session self) (lo_version self) (lo_group self ++ [draft]) expected).

Definition verify_session_row (state : LedgerState) (row : string * SessionRow) : result SqliteLedgerError unit :=
  let? session := stored_identity row.1 "session_id" in
  let? version := decode_u64 (se_version row.2) "version" in
  let? max_position := decode_u64 (se_max_position row.2) "max_position" in
  reject (InvalidStoredValue "session projection") when
    bool_decide (session_version state session <> Some version)
    || negb (Z.of_nat (fact_count state session) =? max_position);
  Ok tt.
Definition verify_session_rows (db : Database) (state : LedgerState) : result SqliteLedgerError unit :=
  try_fold (fun _ row => verify_session_row state row) tt (entries (ledger_sessions db)).

(** [ORDER BY session_id, commit_version, position]. *)
Definition row_key (row : StoredFact) : string * (string * string) :=
  (st_session_id row, (st_commit_version row, st_position row)).
Definition ordered_rows (db : Database) : list StoredFact :=
  sort_by_key row_key (map_to_list (ledger_facts db)).*2.

(** [load_state_snapshot]; the loads outside and inside a transaction are the same. *)
Definition load_state (db : Database) : result SqliteLedgerError LedgerState :=
  let? loaded := try_fold load_row loading_new (ordered_rows db) in
  let? state :=
    match lo_session loaded with
    | Some session => apply_group (lo_state loaded) session (lo_version loaded) (lo_group loaded)
    | None => Ok (lo_state loaded)
    end in
  verify_session_rows db state ?;
  Ok state.
End load.

(** ** The commit transaction *)

Definition stored_row (session_id : string) (version : Z) (draft : FactDraft) (position : Z) : StoredFact :=
  mkStoredFact session_id (encode_u64 position) (encode_u64 version) (fact_id draft) (turn_id draft)
    (execution_id draft) (model_request_id draft) (tool_invocation_id draft) (kind draft) (schema_version draft)
    (payload_json (payload draft)) (payload_sha256 (payload draft)) (recorded_at draft).

(** A unique index over the rows of one kind: null identities are never equal. *)
Definition kind_conflict (kind : string) (identity : StoredFact -> option string) (row other : StoredFact) : bool :=
  (st_kind row =? kind)%string && (st_kind other =? kind)%string && same_present (identity row) (identity other).

Definition row_conflict (row other : StoredFact) : bool :=
  (st_session_id row =? st_session_id other)%string && (st_position row =? st_position other)%string
  || kind_conflict "model.prepared" st_model_request_id row other
  || kind_conflict "effect.prepared" st_tool_invocation_id row other.

(** [INSERT INTO ledger_facts], with the constraints of the table. *)
Definition insert_fact (db : Database) (row : StoredFact) : result SqliteLedgerError Database :=
  reject Storage when
    is_some (ledger_facts db !! st_fact_id row)
    || is_none (ledger_sessions db !! st_session_id row)
    || negb (String.length (st_position row) =? 8)%nat
    || negb (String.length (st_commit_version row) =? 8)%nat
    || negb (0 <? st_schema_version row)
    || negb (str_len (st_payload_sha256 row) =? 64)
    || any_value (row_conflict row) (ledger_facts db);
  Ok (db <| ledger_facts ::= <[st_fact_id row := row]> |>).

Definition insert_session (db : Database) (session_id : string) : Database :=
  match ledger_sessions db !! session_id with
  | Some _ => db
  | None => db <| ledger_sessions ::= <[session_id := mkSessionRow (encode_u64 0) (encode_u64 0)]> |>
  end.

(** [UPDATE ledger_sessions ... WHERE session_id = ? AND version = ?]: the database
    when one row was updated. *)
Definition update_session (db : Database) (session_id : string) (version max_position expected : Z)
    : option Database :=
  match ledger_sessions db !! session_id with
  | Some row =>
      if (se_version row =? encode_u64 expected)%string
      then Some (db <| ledger_sessions ::= <[session_id := mkSessionRow (encode_u64 version) (encode_u64 max_position)]> |>)
      else None
  | None => None
  end.

Section operations.
Context `{Externals}.

Definition commit_transaction (db : Database) (session_id : string) (expected_session_version : Z)
    (drafts : list FactDraft) : result SqliteLedgerError (Database * CommitResult) :=
  let? state := load_state db in
  let? (_, result) := map_err domain_error (commit state session_id expected_session_version drafts) in
  if bool_decide (disposition result = Replayed) then Ok (db, result)
  else
    let db := insert_session db session_id in
    let? max_position := ok_or (last (result_positions result)) (InvalidStoredValue "commit positions") in
    let? db := ok_or (update_session db session_id (result_session_version result) max_position
      expected_session_version) (Domain ConcurrentModification) in
    let? db := try_fold (fun db (entry : FactDraft * Z) =>
        insert_fact db (stored_row session_id (result_session_version result) entry.1 entry.2))
      db (zip drafts (result_positions result)) in
    Ok (db, result).

Definition sqlite_commit := commit_transaction.

(** ** Reads *)

Record SessionWatermark := mkWatermark {
  wm_session_version : Z;
  wm_max_position : Z;
}.

Definition session_watermark (db : Database) (session_id : string)
    : result SqliteLedgerError (option SessionWatermark) :=
  let? state := load_state db in
  match LedgerState.session_version state session_id with
  | None => Ok None
  | Some version => Ok (Some (mkWatermark version (Z.of_nat (fact_count state session_id))))
  end.

Definition sqlite_read_facts (db : Database) (session_id : string) (after_position through_position : Z)
    (kinds : option (gset string)) : result SqliteLedgerError (list DurableFact) :=
  let? state := load_state db in
  map_err domain_error (read_facts state session_id after_position through_position kinds).

Definition sqlite_load_turn (db : Database) (turn : string) : result SqliteLedgerError TurnSnapshot :=
  let? state := load_state db in map_err domain_error (load_turn state turn).
Definition sqlite_list_recoverable_turns (db : Database) (session_id : string)
    : result SqliteLedgerError (list string) :=
  let? state := load_state db in map_err domain_error (list_recoverable_turns state session_id).
Definition sqlite_list_uncertain_model_requests (db : Database) (session_id : string)
    : result SqliteLedgerError (list string) :=
  let? state := load_state db in map_err domain_error (list_uncertain_model_requests state session_id).
Definition sqlite_list_uncertain_tool_invocations (db : Database) (session_id : string)
    : result SqliteLedgerError (list string) :=
  let? state := load_state db in map_err domain_error (list_uncertain_tool_invocations state session_id).
Definition sqlite_find_tool_invocation (db : Database) (invocation : string)
    : result SqliteLedgerError (list DurableFact) :=
  let? state := load_state db in Ok (find_tool_invocation state invocation).
Definition sqlite_session_version (db : Database) (session_id : string) : result SqliteLedgerError (option Z) :=
  let? state := load_state db in Ok (LedgerState.session_version state session_id).

Definition list_sessions (db : Database) : result SqliteLedgerError (list string) :=
  try_map (fun value => stored_identity value "session_id") (entries (ledger_sessions db)).*1.

Definition fact_commit_version (db : Database) (fact_id : string) : result SqliteLedgerError (option Z) :=
  match ledger_facts db !! fact_id with
  | None => Ok None
  | Some row => let? version := decode_u64 (st_commit_version row) "commit_version" in Ok (Some version)
  end.
End operations.

(** ** Execution leases *)

Record ExecutionLeaseRequest := mkLeaseRequest {
  lr_turn_id : string;
  lr_execution_id : string;
  lr_owner_id : string;
  lr_lease_token : string;
  lr_now_ms : Z;
  lr_duration_ms : Z;
}.

Record ExecutionLease := mkExecutionLease {
  le_turn_id : string;
  le_execution_id : string;
  le_owner_id : string;
  le_lease_token : string;
  le_generation : Z;
  le_expires_at_ms : Z;
}.

(** [map_err(|_| error)]: a panic is not an error the caller maps. *)
Definition lease_error (error : ExecutionLeaseError) (e : SqliteLedgerError) : ExecutionLeaseError :=
  match e with SqlitePanicked => LeasePanicked | _ => error end.

Definition lease_decode (value : string) : result ExecutionLeaseError Z :=
  map_err (fun _ => LeaseStorage) (decode_u64 value "").

Definition execution_terminal (execution : string) (fact : DurableFact) : bool :=
  bool_decide (df_execution_id fact = Some execution)
  && existsb (String.eqb (df_kind fact))
       ["execution.completed"; "execution.suspended"; "execution.stopped"; "execution.failed"; "execution.abandoned"].

Definition lease_owned_by (lease : ExecutionLease) (row : ExecutionLeaseRow) : bool :=
  (xl_execution_id row =? le_execution_id lease)%string && (xl_owner_id row =? le_owner_id lease)%string
  && (xl_lease_token row =? le_lease_token lease)%string.

Definition require_owned (db : Database) (lease : ExecutionLease) : result ExecutionLeaseError unit :=
  if is_some_and (lease_owned_by lease) (execution_leases db !! le_turn_id lease) then Ok tt else Err LeaseLost.

Section leases.
Context `{Externals}.

Definition require_latest_active (db : Database) (turn_id execution_id : string)
    : result ExecutionLeaseError unit :=
  let? state := map_err (lease_error LeaseStorage) (load_state db) in
  let? snapshot := map_err (fun a => lease_error LeaseExecutionNotActive (domain_error a)) (load_turn state turn_id) in
  let latest := last (List.filter (fun fact => (df_kind fact =? "execution.started")%string) (snapshot_facts snapshot))
    ≫= df_execution_id in
  if bool_decide (latest = Some execution_id)
     && negb (existsb (execution_terminal execution_id) (snapshot_facts snapshot))
  then Ok tt else Err LeaseExecutionNotActive.

Definition require_terminal (db : Database) (turn_id execution : string) : result ExecutionLeaseError unit :=
  let? execution := ok_or (ledger_identity_try_from execution) LeaseStorage in
  let? state := map_err (lease_error LeaseStorage) (load_state db) in
  let? snapshot := map_err (fun a => lease_error LeaseStorage (domain_error a)) (load_turn state turn_id) in
  if existsb (execution_terminal execution) (snapshot_facts snapshot) then Ok tt else Err LeaseRecoveryRequired.

(** The generation a request gets beside the row that is there. *)
Definition lease_generation (db : Database) (request : ExecutionLeaseRequest) : result ExecutionLeaseError Z :=
  match execution_leases db !! lr_turn_id request with
  | None => Ok 1
  | Some row =>
      let? generation := lease_decode (xl_generation row) in
      let? expires := lease_decode (xl_expires_at_ms row) in
      if (xl_execution_id row =? lr_execution_id request)%string && (xl_owner_id row =? lr_owner_id request)%string
         && (xl_lease_token row =? lr_lease_token request)%string then
        reject LeaseRecoveryRequired when expires <=? lr_now_ms request;
        Ok generation
      else if negb (xl_execution_id row =? lr_execution_id request)%string then
        require_terminal db (lr_turn_id request) (xl_execution_id row) ?;
        ok_or (checked_add generation 1) LeaseStorage
      else
        reject LeaseAlreadyHeld when lr_now_ms request <? expires;
        Err LeaseRecoveryRequired
  end.

(** The token is unique over the table. *)
Definition token_taken (db : Database) (turn_id token : string) : bool :=
  existsb (fun entry : string * ExecutionLeaseRow =>
    negb (entry.1 =? turn_id)%string && (xl_lease_token entry.2 =? token)%string) (entries (execution_leases db)).

Definition acquire_execution_lease (db : Database) (request : ExecutionLeaseRequest)
    : result ExecutionLeaseError (Database * ExecutionLease) :=
  reject LeaseInvalidRequest when
    str_is_empty (lr_owner_id request) || str_is_empty (lr_lease_token request) || (lr_duration_ms request =? 0);
  let? expires_at_ms := ok_or (checked_add (lr_now_ms request) (lr_duration_ms request)) LeaseInvalidRequest in
  require_latest_active db (lr_turn_id request) (lr_execution_id request) ?;
  let? generation := lease_generation db request in
  reject LeaseStorage when token_taken db (lr_turn_id request) (lr_lease_token request);
  Ok (db <| execution_leases ::= <[lr_turn_id request :=
            mkExecutionLeaseRow (lr_execution_id request) (lr_owner_id request) (lr_lease_token request)
              (encode_u64 generation) (encode_u64 expires_at_ms)]> |>,
      mkExecutionLease (lr_turn_id request) (lr_execution_id request) (lr_owner_id request) (lr_lease_token request)
        generation expires_at_ms).

Definition commit_leased (db : Database) (lease : ExecutionLease) (session_id : string)
    (expected_session_version : Z) (drafts : list FactDraft) : result SqliteLedgerError (Database * CommitResult) :=
  map_err Lease (require_owned db lease) ?;
  commit_transaction db session_id expected_session_version drafts.

Definition release_execution_lease (db : Database) (lease : ExecutionLease) : result ExecutionLeaseError Database :=
  require_owned db lease ?;
  require_terminal db (le_turn_id lease) (le_execution_id lease) ?;
  Ok (db <| execution_leases ::= delete (le_turn_id lease) |>).
End leases.

(** ** Schedule leases *)

Record ScheduleLeaseRequest := mkScheduleLeaseRequest {
  sq_session_id : string;
  sq_schedule_id : string;
  sq_revision_id : string;
  sq_occurrence_id : string;
  sq_ordinal : Z;
  sq_owner_id : string;
  sq_lease_id : string;
  sq_now_ms : Z;
  sq_duration_ms : Z;
}.

Record ScheduleLease := mkScheduleLease {
  sc_session_id : string;
  sc_schedule_id : string;
  sc_revision_id : string;
  sc_occurrence_id : string;
  sc_ordinal : Z;
  sc_owner_id : string;
  sc_lease_id : string;
  sc_epoch : Z;
  sc_expires_at_ms : Z;
}.

Definition sched_decode (value : string) : result ScheduleLeaseError Z :=
  map_err (fun _ => SchedStorage) (decode_u64 value "").

Definition schedule_validate_request (request : ScheduleLeaseRequest) : result ScheduleLeaseError unit :=
  reject SchedInvalidRequest when
    str_is_empty (sq_schedule_id request) || str_is_empty (sq_revision_id request)
    || str_is_empty (sq_occurrence_id request) || (sq_ordinal request =? 0) || str_is_empty (sq_owner_id request)
    || str_is_empty (sq_lease_id request) || (sq_duration_ms request =? 0);
  Ok tt.

Section schedule_leases.
Context `{Externals}.

(** [WHERE session_id=? AND kind LIKE 'schedule.%' ORDER BY position]; [LIKE] does not
    distinguish the case of ASCII letters. *)
Definition schedule_rows (db : Database) (session_id : string) : list StoredFact :=
  sort_by_key st_position (List.filter (fun row => (st_session_id row =? session_id)%string
      && starts_with "schedule." (to_ascii_lowercase (st_kind row))) (map_to_list (ledger_facts db)).*2).

Definition schedule_events (db : Database) (session_id schedule_id : string)
    : result ScheduleLeaseError (list (string * Value)) :=
  let? events := try_map (fun row =>
      let? value := ok_or (json_from_str (st_payload_json row)) SchedStorage in Ok (st_kind row, value))
    (schedule_rows db session_id) in
  Ok (List.filter (fun event => bool_decide ((value_get "schedule_id" event.2 ≫= as_str) = Some schedule_id)) events).

Definition active_revision (active : option string) (event : string * Value) : option string :=
  let revision key := value_get key event.2 ≫= as_str in
  if (event.1 =? "schedule.created")%string then revision "revision_id"
  else if (event.1 =? "schedule.cancelled")%string && bool_decide (active = revision "expected_revision_id") then None
  else if (event.1 =? "schedule.failed")%string && bool_decide (active = revision "revision_id") then None
  else active.

Definition require_active_revision (db : Database) (request : ScheduleLeaseRequest) : result ScheduleLeaseError unit :=
  let? events := schedule_events db (sq_session_id request) (sq_schedule_id request) in
  if bool_decide (foldl active_revision None events = Some (sq_revision_id request)) then Ok tt
  else Err SchedRevisionNotActive.

Definition occurrence_handled (db : Database) (session_id schedule_id revision_id occurrence_id : string) (ordinal : Z)
    : result ScheduleLeaseError bool :=
  let? events := schedule_events db session_id schedule_id in
  Ok (existsb (fun event : string * Value =>
    ((event.1 =? "schedule.fired")%string || (event.1 =? "schedule.failed")%string)
    && bool_decide ((value_get "revision_id" event.2 ≫= as_str) = Some revision_id)
    && bool_decide ((value_get "occurrence_id" event.2 ≫= as_str) = Some occurrence_id)
    && bool_decide ((value_get "ordinal" event.2 ≫= as_u64) = Some ordinal)) events).

Definition lease_epoch_of (db : Database) (request : ScheduleLeaseRequest) : result ScheduleLeaseError Z :=
  match schedule_leases db !! (sq_session_id request, sq_schedule_id request) with
  | None => Ok 1
  | Some row =>
      let? ordinal := sched_decode (sl_ordinal row) in
      let? epoch := sched_decode (sl_epoch row) in
      let? expires := sched_decode (sl_expires_at_ms row) in
      let exact := (sl_revision_id row =? sq_revision_id request)%string
        && (sl_occurrence_id row =? sq_occurrence_id request)%string && (ordinal =? sq_ordinal request)
        && (sl_owner_id row =? sq_owner_id request)%string && (sl_lease_id row =? sq_lease_id request)%string in
      if exact && (sq_now_ms request <? expires) then Ok epoch
      else
        let? held :=
          if (sq_now_ms request <? expires) && (sl_revision_id row =? sq_revision_id request)%string then
            let? handled := occurrence_handled db (sq_session_id request) (sq_schedule_id request) (sl_revision_id row)
              (sl_occurrence_id row) ordinal in
            Ok (negb handled)
          else Ok false in
        reject SchedAlreadyHeld when held;
        ok_or (checked_add epoch 1) SchedStorage
  end.

(** [UNIQUE(session_id, lease_id)]. *)
Definition lease_id_taken (db : Database) (session_id schedule_id lease_id : string) : bool :=
  existsb (fun entry : (string * string) * ScheduleLeaseRow =>
    (entry.1.1 =? session_id)%string && negb (entry.1.2 =? schedule_id)%string
    && (sl_lease_id entry.2 =? lease_id)%string) (map_to_list (schedule_leases db)).

Definition acquire_schedule_lease (db : Database) (request : ScheduleLeaseRequest)
    : result ScheduleLeaseError (Database * ScheduleLease) :=
  schedule_validate_request request ?;
  require_active_revision db request ?;
  let? expires_at_ms := ok_or (checked_add (sq_now_ms request) (sq_duration_ms request)) SchedInvalidRequest in
  let? epoch := lease_epoch_of db request in
  reject SchedStorage when
    is_none (ledger_sessions db !! sq_session_id request)
    || lease_id_taken db (sq_session_id request) (sq_schedule_id request) (sq_lease_id request);
  Ok (db <| schedule_leases ::= <[(sq_session_id request, sq_schedule_id request) :=
            mkScheduleLeaseRow (sq_revision_id request) (sq_occurrence_id request) (encode_u64 (sq_ordinal request))
              (sq_owner_id request) (sq_lease_id request) (encode_u64 epoch) (encode_u64 expires_at_ms)]> |>,
      mkScheduleLease (sq_session_id request) (sq_schedule_id request) (sq_revision_id request)
        (sq_occurrence_id request) (sq_ordinal request) (sq_owner_id request) (sq_lease_id request) epoch expires_at_ms).

Definition schedule_owned_by (lease : ScheduleLease) (row : ScheduleLeaseRow) : bool :=
  (sl_revision_id row =? sc_revision_id lease)%string && (sl_occurrence_id row =? sc_occurrence_id lease)%string
  && (sl_ordinal row =? encode_u64 (sc_ordinal lease))%string && (sl_owner_id row =? sc_owner_id lease)%string
  && (sl_lease_id row =? sc_lease_id lease)%string && (sl_epoch row =? encode_u64 (sc_epoch lease))%string
  && (sl_expires_at_ms row =? encode_u64 (sc_expires_at_ms lease))%string.

Definition schedule_require_owned (db : Database) (lease : ScheduleLease) (now_ms : Z) : result ScheduleLeaseError unit :=
  reject SchedLeaseLost when sc_expires_at_ms lease <=? now_ms;
  if is_some_and (schedule_owned_by lease) (schedule_leases db !! (sc_session_id lease, sc_schedule_id lease))
  then Ok tt else Err SchedLeaseLost.

Definition bound_fact (lease : ScheduleLease) (draft : FactDraft) : result ScheduleLeaseError unit :=
  let? value := ok_or (json_from_str (payload_json (payload draft))) SchedFactBindingMismatch in
  reject SchedFactBindingMismatch when
    negb (existsb (String.eqb (kind draft)) ["schedule.claimed"; "schedule.fired"; "schedule.failed"])
    || bool_decide ((value_get "schedule_id" value ≫= as_str) <> Some (sc_schedule_id lease))
    || bool_decide ((value_get "revision_id" value ≫= as_str) <> Some (sc_revision_id lease))
    || bool_decide ((value_get "occurrence_id" value ≫= as_str) <> Some (sc_occurrence_id lease))
    || bool_decide ((value_get "ordinal" value ≫= as_u64) <> Some (sc_ordinal lease));
  Ok tt.
Definition require_bound_facts (lease : ScheduleLease) (drafts : list FactDraft) : result ScheduleLeaseError unit :=
  reject SchedFactBindingMismatch when (length drafts =? 0)%nat;
  try_fold (fun _ draft => bound_fact lease draft) tt drafts.

Definition commit_schedule_leased (db : Database) (lease : ScheduleLease) (now_ms expected_session_version : Z)
    (drafts : list FactDraft) : result SqliteLedgerError (Database * CommitResult) :=
  map_err ScheduleLeaseE (schedule_require_owned db lease now_ms) ?;
  map_err ScheduleLeaseE (require_bound_facts lease drafts) ?;
  commit_transaction db (sc_session_id lease) expected_session_version drafts.

(** The row is deleted by its token and epoch, whatever its other columns hold. *)
Definition release_schedule_lease (db : Database) (lease : ScheduleLease) : result ScheduleLeaseError Database :=
  let? handled := occurrence_handled db (sc_session_id lease) (sc_schedule_id lease) (sc_revision_id lease)
    (sc_occurrence_id lease) (sc_ordinal lease) in
  reject SchedFactBindingMismatch when negb handled;
  if is_some_and (fun row => (sl_lease_id row =? sc_lease_id lease)%string
       && (sl_epoch row =? encode_u64 (sc_epoch lease))%string)
       (schedule_leases db !! (sc_session_id lease, sc_schedule_id lease))
  then Ok (db <| schedule_leases ::= delete (sc_session_id lease, sc_schedule_id lease) |>)
  else Err SchedLeaseLost.
End schedule_leases.

(** ** The persistent clock *)

Definition PERSISTENT_MONOTONIC_CLOCK_REVISION : string := "garive-persistent-monotonic-v1".

Record PersistentMonotonicReading := mkReading {
  pm_clock_revision : string;
  pm_now_ms : Z;
}.

(** The origins, the present tick and the end of the earlier reservations. *)
Definition clock_origin (existing : option ClockRow) (boot_revision : string) (boot_tick_ms : Z)
    : result SqliteLedgerError (Z * Z * Z * Z) :=
  match existing with
  | None => Ok (boot_tick_ms, 1, 1, 0)
  | Some row =>
      let? boot_origin := decode_u64 (ck_boot_origin_tick row) "monotonic_boot_origin" in
      let? logical_origin := decode_u64 (ck_logical_origin_tick row) "monotonic_logical_origin" in
      let? last := decode_u64 (ck_last_tick row) "monotonic_last_tick" in
      let? reserved := decode_u64 (ck_reserved_until_tick row) "monotonic_reserved_until" in
      if (ck_boot_revision row =? boot_revision)%string then
        let? elapsed := ok_or (checked_sub boot_tick_ms boot_origin) (InvalidStoredValue "monotonic_boot_tick") in
        let? candidate := ok_or (checked_add logical_origin elapsed) (InvalidStoredValue "monotonic_logical_tick") in
        Ok (boot_origin, logical_origin, Z.max candidate last, reserved)
      else
        let? successor := ok_or (checked_add reserved 1) (InvalidStoredValue "monotonic_boot_fence") in
        Ok (boot_tick_ms, successor, successor, reserved)
  end.

Definition reserve_monotonic_lease (db : Database) (boot_revision : string) (boot_tick_ms lease_duration_ms : Z)
    : result SqliteLedgerError (Database * PersistentMonotonicReading) :=
  reject (InvalidStoredValue "monotonic_clock_input") when str_is_empty boot_revision || (lease_duration_ms =? 0);
  match clock_origin (runtime_monotonic_clock db) boot_revision boot_tick_ms with
  | Err e => Err e
  | Ok (boot_origin, logical_origin, now_ms, prior_reserved) =>
      let? reserved := ok_or (checked_add now_ms lease_duration_ms) (InvalidStoredValue "monotonic_reservation") in
      let reserved_until := Z.max reserved prior_reserved in
      Ok (db <| runtime_monotonic_clock := Some (mkClockRow boot_revision (encode_u64 boot_origin)
                  (encode_u64 logical_origin) (encode_u64 now_ms) (encode_u64 reserved_until)) |>,
          mkReading PERSISTENT_MONOTONIC_CLOCK_REVISION now_ms)
  end.
