(* ===== verification/SqliteTheorems.v ===== *)
(** * Theorems about the durable ledger

    The database refines the in-memory ledger: after any commands it loads to the
    state the same commands reach in memory, although it is rebuilt session by
    session, and it answers every commit as that state does.  A lease that was
    lost stays lost, and the persistent clock never goes back. *)

From S2P Require Import Prelude Text Json LedgerTypes RuntimeFacts ProjectionTypes Projection LedgerState.
From S2P Require Import LedgerTheorems ProjectionInvariant ProjectionSteps JsonDecode Order ProcessProtocol ProcessTheorems SqliteLedger LedgerSamples.

(** ** Stored integers *)

Lemma compare_cons c d a b :
  String.compare (String c a) (String d b) = match Ascii.compare c d with Eq => String.compare a b | o => o end.
Proof. done. Qed.

Lemma compare_app a : forall b x y, String.length a = String.length b ->
  String.compare (a +:+ x) (b +:+ y) = match String.compare a b with Eq => String.compare x y | o => o end.
Proof.
  induction a as [|c a IH]; intros [|d b] x y Hl; try done. rewrite !str_app_cons, !compare_cons.
  destruct (Ascii.compare c d); [|done..]. apply IH. simpl in Hl. lia.
Qed.

Lemma byte_compare m n : 0 <= m < 256 -> 0 <= n < 256 -> Ascii.compare (byte_of m) (byte_of n) = (m ?= n).
Proof.
  intros Hm Hn. unfold Ascii.compare, byte_of. rewrite !N_ascii_embedding by lia.
  rewrite <-N2Z.inj_compare, !Z2N.id by lia. done.
Qed.

Lemma be_bytes_compare n : forall a b, 0 <= a < 256 ^ Z.of_nat n -> 0 <= b < 256 ^ Z.of_nat n ->
  String.compare (to_be_bytes n a) (to_be_bytes n b) = (a ?= b).
Proof.
  induction n as [|n IH]; intros a b Ha Hb; cbn [to_be_bytes].
  { change (256 ^ Z.of_nat 0) with 1 in *. assert (a = b) as -> by lia. by rewrite Z.compare_refl. }
  rewrite Nat2Z.inj_succ, Z.pow_succ_r in * by lia.
  rewrite compare_app by by rewrite !to_be_bytes_length.
  assert (Hd : forall x, 0 <= x < 256 * 256 ^ Z.of_nat n -> 0 <= x / 256 < 256 ^ Z.of_nat n).
  { intros x Hx. split; [apply Z.div_pos; lia|]. apply Z.div_lt_upper_bound; lia. }
  rewrite IH by auto. rewrite compare_cons.
  rewrite byte_compare by (apply Z.mod_pos_bound; lia).
  pose proof (Z.div_mod a 256). pose proof (Z.div_mod b 256).
  pose proof (Z.mod_pos_bound a 256). pose proof (Z.mod_pos_bound b 256).
  destruct (Z.compare_spec (a / 256) (b / 256)), (Z.compare_spec (a mod 256) (b mod 256)), (Z.compare_spec a b);
    try done; lia.
Qed.

Lemma u64_bytes v : is_u64 v -> 0 <= v < 256 ^ Z.of_nat 8.
Proof. unfold is_u64, u64_max. change (256 ^ Z.of_nat 8) with 18446744073709551616. lia. Qed.

Lemma encode_u64_compare a b : is_u64 a -> is_u64 b -> String.compare (encode_u64 a) (encode_u64 b) = (a ?= b).
Proof. intros Ha%u64_bytes Hb%u64_bytes. by apply be_bytes_compare. Qed.

Lemma encode_u64_length v : String.length (encode_u64 v) = 8%nat.
Proof. apply to_be_bytes_length. Qed.

Lemma decode_encode_u64 v field : is_u64 v -> decode_u64 (encode_u64 v) field = Ok v.
Proof.
  intros Hv. unfold decode_u64. rewrite encode_u64_length. cbn [Nat.eqb]. unfold encode_u64.
  rewrite from_to_be_bytes, Z.mod_small by by apply u64_bytes. done.
Qed.

Lemma encode_u64_inj a b : is_u64 a -> is_u64 b -> encode_u64 a = encode_u64 b -> a = b.
Proof.
  intros Ha Hb He. pose proof (decode_encode_u64 a "" Ha) as H1. rewrite He, decode_encode_u64 in H1 by done.
  congruence.
Qed.

Section ledger.
Context `{Externals}.

(** ** Commits of different sessions commute *)

(** What a commit of fresh drafts does to its session. *)
Definition session_commit (sid : string) (S : SessionLedger) (v : Z) (ds : list FactDraft)
    : result Abort (SessionLedger * list Z) :=
  reject (Returned ConcurrentModification) when negb (session_version_of S =? v);
  let? position := next_position (S <| projection ::= begin_commit |>) in
  let? (next, positions) := commit_append sid (S <| projection ::= begin_commit |>) position ds in
  validate_commit_boundary (projection next) ?;
  let? version := ok_or (checked_add (session_version_of next) 1) (Returned PositionOverflow) in
  Ok (next <| session_version_of := version |>, positions).

Record admissible (L : LedgerState) (sid : string) (ds : list FactDraft) : Prop := {
  ad_nonempty : ds <> [];
  ad_acceptable : Forall (acceptable L sid) ds;
  ad_nodup : NoDup (fact_id <$> ds);
  ad_fresh : Forall (fun d => fact_index L !! fact_id d = None) ds;
}.

Definition after_commit (L : LedgerState) (sid : string) (ds : list FactDraft) (next : SessionLedger * list Z)
    : LedgerState * CommitResult :=
  (mkLedgerState (<[sid := next.1]> (sessions L)) (foldl (index_insert sid) (fact_index L) (zip ds next.2)),
   mkCommitResult Committed (session_version_of next.1) next.2).

Lemma scan_fresh L sid ds acc : Forall (acceptable L sid) ds -> NoDup (fact_id <$> ds) ->
  (forall d, d ∈ ds -> fact_id d ∉ scan_identities acc) -> Forall (fun d => fact_index L !! fact_id d = None) ds ->
  exists sc, try_fold (commit_scan L sid) acc ds = Ok sc /\ replayed sc = replayed acc.
Proof.
  revert acc. induction ds as [|d ds IH]; intros acc Ha Hnd Hfr Hf; [by exists acc|].
  apply Forall_cons in Ha as [Ha1 Ha], Hf as [Hf1 Hf]. apply list.NoDup_cons in Hnd as [Hn Hnd].
  set (acc1 := mkScan ({[fact_id d]} ∪ scan_identities acc) (replay_positions acc) (replayed acc)).
  assert (Hs : commit_scan L sid acc d = Ok acc1).
  { apply commit_scan_ok. rewrite Hf1. split_and!; [done|apply Hfr; set_solver|done..]. }
  simpl. rewrite Hs. apply (IH acc1); [done|done| |done]. simpl. intros d' Hd'.
  specialize (Hfr d' ltac:(set_solver)). assert (fact_id d' <> fact_id d); [|set_solver].
  intros E. apply Hn. rewrite <-E. apply list_elem_of_fmap. eauto.
Qed.

Lemma commit_admissible L sid v ds : admissible L sid ds ->
  commit L sid v ds =
  match session_commit sid (session_of L sid) v ds with
  | Ok next => Ok (after_commit L sid ds next)
  | Err e => Err e
  end.
Proof.
  intros [Hne Ha Hnd Hf]. unfold commit, session_commit.
  destruct (length ds =? 0)%nat eqn:E0; [by destruct ds|].
  destruct (scan_fresh L sid ds (mkScan ∅ [] 0) Ha Hnd) as (sc & -> & Hr); [set_solver|done|]. simpl in Hr.
  rewrite Hr. rewrite (Nat.eqb_sym 0), E0. cbn [Nat.eqb negb]. fold (session_of L sid).
  destruct (negb (session_version_of (session_of L sid) =? v)); [done|].
  destruct (next_position _) as [p|]; [|done]. destruct (commit_append _ _ _ _) as [[next ps]|]; [|done].
  destruct (validate_commit_boundary _); [|done]. by destruct (ok_or _ _).
Qed.

Lemma commit_committed L sid v ds L' r : commit L sid v ds = Ok (L', r) -> disposition r = Committed ->
  admissible L sid ds /\ exists next, session_commit sid (session_of L sid) v ds = Ok next /\ after_commit L sid ds next = (L', r).
Proof.
  intros Hc Hd. pose proof Hc as (Hne & Ha & Hnd & Hcom)%commit_inv.
  assert (Had : admissible L sid ds). { destruct Hcom; [done|]. by split. }
  split; [done|]. rewrite commit_admissible in Hc by done.
  destruct (session_commit _ _ _ _) as [next|]; [|done]. assert (after_commit L sid ds next = (L', r)) by congruence. by exists next.
Qed.

(** One appended batch: its session, the version it was made at, its first position. *)
Record Entry := mkEntry {
  en_session : string;
  en_version : Z;
  en_first : Z;
  en_drafts : list FactDraft;
}.
Definition entry_positions (e : Entry) : list Z := positions_from (en_first e) (length (en_drafts e)).

Definition enters (L : LedgerState) (e : Entry) (L' : LedgerState) : Prop :=
  commit L (en_session e) (en_version e) (en_drafts e) = Ok (L', mkCommitResult Committed (en_version e + 1) (entry_positions e)).

Definition entered (L : LedgerState) (e : Entry) (N : SessionLedger) : LedgerState :=
  mkLedgerState (<[en_session e := N]> (sessions L))
    (foldl (index_insert (en_session e)) (fact_index L) (zip (en_drafts e) (entry_positions e))).

Lemma enters_iff L e L' : enters L e L' <->
  admissible L (en_session e) (en_drafts e) /\
  exists N, session_commit (en_session e) (session_of L (en_session e)) (en_version e) (en_drafts e) = Ok (N, entry_positions e) /\
    session_version_of N = en_version e + 1 /\ L' = entered L e N.
Proof.
  unfold enters. split.
  - intros Hc. destruct (commit_committed _ _ _ _ _ _ Hc eq_refl) as (Had & [N ps] & Hs & Ha). split; [done|].
    unfold after_commit in Ha. simpl in Ha. injection Ha as <- Hv ->. eauto.
  - intros (Had & N & Hs & Hv & ->). rewrite commit_admissible, Hs by done. unfold after_commit, entered. simpl. by rewrite Hv.
Qed.

Lemma entered_index L e N id x : NoDup (fact_id <$> en_drafts e) ->
  fact_index (entered L e N) !! id = Some x <->
  (exists d q, (d, q) ∈ zip (en_drafts e) (entry_positions e) /\ fact_id d = id /\ x = mkIndexEntry (en_session e) q d) \/
  (id ∉ fact_id <$> en_drafts e /\ fact_index L !! id = Some x).
Proof. intros Hnd. apply index_foldl; [|done]. unfold entry_positions. by rewrite length_positions_from. Qed.

Lemma entry_zip e d : d ∈ en_drafts e -> exists q, (d, q) ∈ zip (en_drafts e) (entry_positions e).
Proof.
  intros [i Hi]%list_elem_of_lookup. destruct (lookup_lt_is_Some_2 (entry_positions e) i) as [q Hq].
  { unfold entry_positions. rewrite length_positions_from. by eapply lookup_lt_Some. }
  exists q. apply list_elem_of_lookup. exists i. rewrite lookup_zip_with, Hi. simpl. by rewrite Hq.
Qed.

Lemma entered_kept L e N id x : admissible L (en_session e) (en_drafts e) ->
  fact_index L !! id = Some x -> fact_index (entered L e N) !! id = Some x.
Proof.
  intros [_ _ Hnd Hf] Hx. apply entered_index; [done|]. right. split; [|done].
  intros (d & -> & Hd)%list_elem_of_fmap. rewrite Forall_forall in Hf. by rewrite Hf in Hx.
Qed.

Lemma entered_new L e N d : admissible L (en_session e) (en_drafts e) -> d ∈ en_drafts e ->
  exists q, fact_index (entered L e N) !! fact_id d = Some (mkIndexEntry (en_session e) q d).
Proof.
  intros [_ _ Hnd _] Hd. destruct (entry_zip e d Hd) as [q Hq]. exists q. apply entered_index; [done|]. left. eauto.
Qed.

Lemma acceptable_mono L L' sid d :
  (forall id x, fact_index L !! id = Some x -> fi_session_id x <> sid -> exists id', fact_index L' !! id' = Some x) ->
  acceptable L' sid d -> acceptable L sid d.
Proof.
  intros Hm (Hv & Hr & Ho). split_and!; [done..|]. unfold identity_owned_by_other_session in *.
  rewrite any_value_false in *. intros id x Hx. destruct (String.eqb_spec (fi_session_id x) sid) as [E|Hn]; [done|].
  destruct (Hm id x Hx Hn) as [id' Hx']. specialize (Ho _ _ Hx'). apply String.eqb_neq in Hn. by rewrite Hn in Ho.
Qed.

Lemma session_of_entered L e N sid : sid <> en_session e -> session_of (entered L e N) sid = session_of L sid.
Proof. intros Hn. unfold session_of, entered. simpl. by rewrite lookup_insert_ne. Qed.

Lemma entered_admissible L a N b : en_session a <> en_session b ->
  admissible L (en_session a) (en_drafts a) -> admissible (entered L a N) (en_session b) (en_drafts b) ->
  admissible L (en_session b) (en_drafts b).
Proof.
  intros Hn Ha [Hne Hb Hnd Hf]. split; [done| |done|].
  - eapply Forall_impl; [exact Hb|]. intros d. apply acceptable_mono. intros id x Hx _. exists id. by apply entered_kept.
  - eapply Forall_impl; [exact Hf|]. cbv beta. intros d Hd. destruct (fact_index L !! fact_id d) as [x|] eqn:E; [|done].
    by rewrite (entered_kept _ _ _ _ _ Ha E) in Hd.
Qed.

Lemma admissible_entered L a N b N' : en_session a <> en_session b ->
  admissible L (en_session a) (en_drafts a) -> admissible (entered L a N) (en_session b) (en_drafts b) ->
  admissible (entered L b N') (en_session a) (en_drafts a).
Proof.
  intros Hn Ha Hb. destruct Ha as [Hne Hacc Hnd Hf]. pose proof (Build_admissible L _ _ Hne Hacc Hnd Hf) as Ha.
  pose proof (ad_nodup _ _ _ Hb) as Hndb. split; [done| |done|].
  - rewrite Forall_forall in *. intros d Hd. destruct (Hacc d Hd) as (Hv & Hr & Ho). split_and!; [done..|].
    unfold identity_owned_by_other_session in *. rewrite any_value_false in *. intros id x Hx.
    apply entered_index in Hx as [(d' & q & Hin & _ & ->)|[_ Hx]]; [|by eapply Ho|done]. simpl.
    destruct (shares_identity d' d) eqn:Hsh; [|by rewrite andb_false_r]. exfalso. apply Hn.
    apply elem_of_zip_l in Hin. destruct (entered_new L a N d Ha Hd) as [q' Hq].
    pose proof (ad_acceptable _ _ _ Hb) as Hab. rewrite Forall_forall in Hab.
    rewrite shares_identity_sym in Hsh. by apply (acceptable_isolated _ _ _ _ _ (Hab d' Hin) Hq).
  - rewrite Forall_forall in *. intros d Hd. destruct (fact_index (entered L b N') !! fact_id d) as [x|] eqn:E; [|done].
    apply entered_index in E as [(d' & q & Hin & Hid & _)|[_ E]]; [|by rewrite Hf in E|done].
    apply elem_of_zip_l in Hin. pose proof (ad_fresh _ _ _ Hb) as Hfb. rewrite Forall_forall in Hfb.
    specialize (Hfb d' Hin). rewrite Hid in Hfb. destruct (entered_new L a N d Ha Hd) as [q' Hq]. congruence.
Qed.

Lemma ledger_eq L L' : sessions L = sessions L' -> fact_index L = fact_index L' -> L = L'.
Proof. destruct L, L'. simpl. by intros -> ->. Qed.

Lemma enters_swap L a L1 b L2 : en_session a <> en_session b -> enters L a L1 -> enters L1 b L2 ->
  exists L1', enters L b L1' /\ enters L1' a L2.
Proof.
  intros Hn (Ha & N & Hs & Hv & ->)%enters_iff (Hb & N' & Hs' & Hv' & ->)%enters_iff.
  rewrite session_of_entered in Hs' by done. exists (entered L b N'). rewrite !enters_iff. split.
  - split; [by eapply entered_admissible|]. by exists N'.
  - split; [by eapply admissible_entered|]. exists N. rewrite session_of_entered by done. split_and!; [done..|].
    apply ledger_eq; [by apply insert_insert_ne|]. apply map_eq. intros id. apply option_eq. intros x.
    pose proof (ad_nodup _ _ _ Ha) as Hna. pose proof (ad_nodup _ _ _ Hb) as Hnb.
    rewrite !entered_index by done.
    assert (Hdis : forall d d', d ∈ en_drafts a -> d' ∈ en_drafts b -> fact_id d <> fact_id d').
    { intros d d' Hd Hd' E. destruct (entered_new L a N d Ha Hd) as [q Hq].
      pose proof (ad_fresh _ _ _ Hb) as Hf. rewrite Forall_forall in Hf. rewrite E, Hf in Hq; done. }
    split.
    + intros [(d & q & Hin & Hid & ->)|[Hnid [Hr|[Hnid' Hx]]]].
      * right. split; [|left; eauto]. apply elem_of_zip_l in Hin. intros (d' & E & Hd')%list_elem_of_fmap.
        apply (Hdis d' d); [done|done|congruence].
      * by left.
      * right. split; [done|]. by right.
    + intros [(d & q & Hin & Hid & ->)|[Hnid [Hr|[Hnid' Hx]]]].
      * right. split; [|left; eauto]. apply elem_of_zip_l in Hin. intros (d' & E & Hd')%list_elem_of_fmap.
        apply (Hdis d d'); [done|done|congruence].
      * by left.
      * right. split; [done|]. by right.
Qed.

(** ** Histories *)

Inductive log_run : LedgerState -> list Entry -> LedgerState -> Prop :=
  | log_nil L : log_run L [] L
  | log_cons L e L1 es L2 : enters L e L1 -> log_run L1 es L2 -> log_run L (e :: es) L2.

Lemma log_run_app L es1 es2 L2 : log_run L (es1 ++ es2) L2 <-> exists L1, log_run L es1 L1 /\ log_run L1 es2 L2.
Proof.
  revert L. induction es1 as [|e es1 IH]; intros L; simpl; split.
  - intros Hr. exists L. split; [constructor|done].
  - intros (L1 & H1 & H2). by inversion H1; subst.
  - intros Hr. inversion Hr as [|? ? L1 ? ? He Hr']; subst. apply IH in Hr' as (L3 & H1 & H2). exists L3. split; [|done].
    by econstructor.
  - intros (L1 & H1 & H2). inversion H1 as [|? ? L3 ? ? He Hr']; subst. econstructor; [done|]. apply IH. eauto.
Qed.

Definition of_session (s : string) (e : Entry) : bool := (en_session e =? s)%string.

(** An entry can be moved behind entries of other sessions. *)
Lemma log_push L e es1 es2 L' : Forall (fun x => en_session x <> en_session e) es1 ->
  log_run L (e :: es1 ++ es2) L' -> log_run L (es1 ++ e :: es2) L'.
Proof.
  intros Hn. revert L. induction Hn as [|x es1 Hx Hn IH]; intros L Hr; simpl in *; [done|].
  inversion Hr as [|? ? L1 ? ? He Hr1]; subst. inversion Hr1 as [|? ? L2 ? ? Hx1 Hr2]; subst.
  destruct (enters_swap L e L1 x L2) as (L1' & H1 & H2); [by apply not_eq_sym|done..|].
  econstructor; [done|]. apply IH. by econstructor.
Qed.

Lemma log_bring s L es L' : log_run L es L' ->
  log_run L (List.filter (of_session s) es ++ List.filter (fun e => negb (of_session s e)) es) L'.
Proof.
  induction 1 as [|L e L1 es L2 He Hr IH]; [constructor|]. simpl. destruct (of_session s e) eqn:Es; simpl; [by econstructor|].
  apply log_push; [|by econstructor]. apply Forall_forall. intros x [_ Hx]%list_elem_of_In%filter_In.
  unfold of_session in *. apply String.eqb_eq in Hx. apply String.eqb_neq in Es. congruence.
Qed.

Lemma filter_of_other k s es : s <> k ->
  List.filter (of_session s) (List.filter (fun e => negb (of_session k e)) es) = List.filter (of_session s) es.
Proof.
  intros Hn. induction es as [|e es IH]; [done|]. simpl. unfold of_session in *.
  destruct (String.eqb_spec (en_session e) k) as [->|Hk]; simpl.
  - rewrite IH. destruct (String.eqb_spec k s); [by subst|done].
  - by rewrite IH.
Qed.

(** The commits can be replayed session by session. *)
Lemma log_gather ks L es L' : NoDup ks -> (forall e, e ∈ es -> en_session e ∈ ks) -> log_run L es L' ->
  log_run L (ks ≫= fun s => List.filter (of_session s) es) L'.
Proof.
  intros Hnd. revert L es. induction Hnd as [|k ks Hk Hnd IH]; intros L es Hin Hr.
  { destruct es as [|e es]; [done|]. specialize (Hin e ltac:(set_solver)). set_solver. }
  rewrite bind_cons. pose proof (log_bring k L es L' Hr) as Hb. apply log_run_app in Hb as (L1 & H1 & H2).
  apply log_run_app. exists L1. split; [done|].
  replace (ks ≫= fun s => List.filter (of_session s) es)
    with (ks ≫= fun s => List.filter (of_session s) (List.filter (fun e => negb (of_session k e)) es)).
  - apply IH; [|done]. intros e [He Hn]%list_elem_of_In%filter_In. apply list_elem_of_In in He.
    specialize (Hin e He). unfold of_session in Hn. apply negb_true_iff, String.eqb_neq in Hn. set_solver.
  - clear -Hk. induction ks as [|s ks IH]; [done|]. rewrite !bind_cons. rewrite filter_of_other by set_solver.
    f_equal. apply IH. set_solver.
Qed.

Record entry_facts (L : LedgerState) (e : Entry) (L' : LedgerState) : Prop := {
  ef_version : session_version_of (session_of L (en_session e)) = en_version e;
  ef_first : en_first e = Z.of_nat (length (facts (session_of L (en_session e)))) + 1;
  ef_facts : facts (session_of L' (en_session e)) = facts (session_of L (en_session e)) ++ durable (en_session e) (en_first e) (en_drafts e);
  ef_version' : session_version_of (session_of L' (en_session e)) = en_version e + 1;
  ef_bound : is_u64 (en_version e + 1) /\ en_first e + Z.of_nat (length (en_drafts e)) - 1 <= u64_max;
  ef_others : forall s, s <> en_session e -> session_of L' s = session_of L s;
  ef_projection : exists P, try_fold projection_apply (begin_commit (projection (session_of L (en_session e)))) (en_drafts e) = Ok P /\
    projection (session_of L' (en_session e)) = P;
}.

Lemma enters_facts L e L' : ledger_wf L -> enters L e L' -> entry_facts L e L'.
Proof.
  intros Hw He. pose proof He as (Had & N & Hs & Hv & HL)%enters_iff. unfold enters in He.
  apply commit_inv in He as (Hne & _ & Hnd & Hc). inversion Hc as [|p next' Hfr Hver Hp Happ Hb Hu HL' Hps]; subst.
  assert (Hpe : p = en_first e).
  { unfold entry_positions in Hps. destruct (en_drafts e) as [|d ds]; [done|]. simpl length in Hps. rewrite !positions_from_S in Hps. congruence. }
  destruct (last_position _ _ _ (session_of_wf L (en_session e) Hw) Hp) as [Hp1 Hp2].
  assert (HN : N = next' <| session_version_of := en_version e + 1 |>).
  { apply (f_equal (fun L => sessions L !! en_session e)) in HL'. simpl in HL'. rewrite !lookup_insert_eq in HL'. by injection HL' as <-. }
  assert (HS : session_of (entered L e N) (en_session e) = N). { unfold session_of. simpl. by rewrite lookup_insert_eq. }
  destruct Happ as [_ Hf _ _ Hpr Hbo]. simpl in Hf, Hpr. rewrite HL'. split.
  - done.
  - by rewrite <-Hpe.
  - by rewrite HS, HN, <-Hpe.
  - by rewrite HS.
  - split; [done|]. rewrite <-Hpe. by apply Hbo.
  - intros s Hn. by apply session_of_entered.
  - rewrite HS, HN. eauto.
Qed.

(** The entries of one session follow each other. *)
Fixpoint chain (v p : Z) (es : list Entry) : Prop :=
  match es with
  | [] => True
  | e :: es => en_version e = v /\ en_first e = p /\ en_drafts e <> [] /\ is_u64 (v + 1) /\
      p + Z.of_nat (length (en_drafts e)) - 1 <= u64_max /\ chain (v + 1) (p + Z.of_nat (length (en_drafts e))) es
  end.

Lemma enters_wf L e L' : ledger_wf L -> enters L e L' -> ledger_wf L'.
Proof. intros Hw He. by eapply commit_wf. Qed.

Lemma log_run_wf L es L' : ledger_wf L -> log_run L es L' -> ledger_wf L'.
Proof. intros Hw Hr. induction Hr; eauto using enters_wf. Qed.

Lemma log_chain s L es L' : ledger_wf L -> log_run L es L' ->
  chain (session_version_of (session_of L s)) (Z.of_nat (length (facts (session_of L s))) + 1) (List.filter (of_session s) es).
Proof.
  intros Hw Hr. induction Hr as [|L e L1 es L2 He Hr IH]; [done|]. specialize (IH (enters_wf _ _ _ Hw He)).
  destruct (enters_facts _ _ _ Hw He) as [Hv Hf Hfs Hv' [Hu Hb] Ho _]. simpl.
  unfold of_session at 1. destruct (String.eqb_spec (en_session e) s) as [E|Hn]; [subst s|by rewrite <-Ho by done].
  assert (en_drafts e <> []). { apply enters_iff in He as [Had _]. apply Had. }
  simpl. split_and!; [done|done|done|by rewrite Hv|lia|]. rewrite Hv', Hfs, length_app, length_durable in IH.
  rewrite Hv. replace (Z.of_nat (length (facts (session_of L (en_session e)))) + 1 + Z.of_nat (length (en_drafts e)))
    with (Z.of_nat (length (facts (session_of L (en_session e))) + length (en_drafts e)) + 1) by lia. done.
Qed.

(** ** Loading a history *)

(** What the types of the source guarantee of a draft: non-empty identities and kind, a
    32-bit schema version, a payload in canonical form with its digest. *)
Record draft_typed (d : FactDraft) : Prop := {
  dt_fact_id : fact_id d <> "";
  dt_turn_id : turn_id d <> Some "";
  dt_execution_id : execution_id d <> Some "";
  dt_model_request_id : model_request_id d <> Some "";
  dt_tool_invocation_id : tool_invocation_id d <> Some "";
  dt_kind : kind d <> "";
  dt_schema_version : is_u32 (schema_version d);
  dt_payload : from_canonical_parts (payload_json (payload d)) (payload_sha256 (payload d)) = Ok (payload d);
}.

Record entry_typed (e : Entry) : Prop := {
  et_session : en_session e <> "";
  et_drafts : Forall draft_typed (en_drafts e);
  et_nonempty : en_drafts e <> [];
  et_version : 0 <= en_version e /\ is_u64 (en_version e + 1);
  et_positions : 1 <= en_first e /\ en_first e + Z.of_nat (length (en_drafts e)) <= u64_max;
}.

Fixpoint fact_rows (sid : string) (v p : Z) (ds : list FactDraft) : list StoredFact :=
  match ds with [] => [] | d :: ds => stored_row sid v d p :: fact_rows sid v (p + 1) ds end.
Definition entry_rows (e : Entry) : list StoredFact :=
  fact_rows (en_session e) (en_version e + 1) (en_first e) (en_drafts e).

Lemma stored_identity_ok value field : value <> "" -> stored_identity value field = Ok value.
Proof. unfold stored_identity, ledger_identity_try_from. by destruct value. Qed.
Lemma optional_identity_ok value field : value <> Some "" -> optional_identity value field = Ok value.
Proof. destruct value as [v|]; [|done]. intros Hv. simpl. rewrite stored_identity_ok by congruence. done. Qed.

Lemma decode_stored sid v d p : draft_typed d -> decode_draft (stored_row sid v d p) = Ok d.
Proof.
  intros [H1 H2 H3 H4 H5 H6 H7 H8]. unfold decode_draft, stored_row. cbn.
  assert (u32_try_from (schema_version d) = Some (schema_version d)) as ->.
  { unfold u32_try_from, is_u32 in *. rewrite (proj2 (Z.leb_le _ _)), (proj2 (Z.leb_le _ _)) by lia. done. }
  cbn. rewrite H8. cbn. rewrite stored_identity_ok, !optional_identity_ok by done.
  unfold FactKind_new. destruct (str_is_empty (kind d)) eqn:E; [by destruct (kind d)|]. by destruct d.
Qed.

Lemma load_same_batch st sid v g p ds : sid <> "" -> is_u64 v -> Forall draft_typed ds -> 0 <= p ->
  p + Z.of_nat (length ds) <= u64_max ->
  try_fold load_row (mkLoading st (Some sid) v g p) (fact_rows sid v p ds) =
  Ok (mkLoading st (Some sid) v (g ++ ds) (p + Z.of_nat (length ds))).
Proof.
  intros Hs Hv Ht. revert g p. induction Ht as [|d ds Hd Ht IH]; intros g p Hp Hb; simpl.
  { by rewrite app_nil_r, Z.add_0_r. }
  simpl length in Hb. assert (Hpu : is_u64 p) by (unfold is_u64; lia). unfold load_row at 1.
  cbn [stored_row st_session_id st_commit_version st_position].
  rewrite stored_identity_ok, !decode_encode_u64 by done. cbn [lo_session is_some_and lo_version].
  rewrite String.eqb_refl, Z.eqb_refl. cbn [negb orb]. cbn [lo_expected]. rewrite Z.eqb_refl. cbn [negb].
  assert (checked_add p 1 = Some (p + 1)) as ->. { apply checked_u64_some. unfold is_u64. lia. }
  cbn [ok_or]. rewrite decode_stored by done. cbn [lo_state lo_session lo_version lo_group].
  rewrite IH by lia. rewrite <-app_assoc. simpl. do 2 f_equal. lia.
Qed.

Definition pending (st : LedgerState) (prev : option Entry) : Loading :=
  match prev with
  | None => mkLoading st None 0 [] 1
  | Some e => mkLoading st (Some (en_session e)) (en_version e + 1) (en_drafts e) (en_first e + Z.of_nat (length (en_drafts e)))
  end.
(** The state after the entry that waits for the next row. *)
Definition flushed (st : LedgerState) (prev : option Entry) (L : LedgerState) : Prop :=
  match prev with None => L = st | Some e => enters st e L end.

Definition follows_entry (prev : option Entry) (e : Entry) : Prop :=
  match prev with
  | None => en_first e = 1
  | Some e0 =>
      if (en_session e0 =? en_session e)%string
      then en_version e = en_version e0 + 1 /\ en_first e = en_first e0 + Z.of_nat (length (en_drafts e0))
      else en_first e = 1
  end.
Fixpoint sequenced (prev : option Entry) (es : list Entry) : Prop :=
  match es with [] => True | e :: es => follows_entry prev e /\ sequenced (Some e) es end.

Lemma apply_group_enters st e L : entry_typed e -> enters st e L ->
  apply_group st (en_session e) (en_version e + 1) (en_drafts e) = Ok L.
Proof.
  intros He Hc. destruct (et_version e He) as [Hv1 Hv2]. unfold apply_group.
  assert (checked_sub (en_version e + 1) 1 = Some (en_version e)) as ->.
  { replace (en_version e) with (en_version e + 1 - 1) at 2 by lia. apply checked_u64_some. unfold is_u64 in *. lia. }
  cbn [ok_or]. rewrite Hc. cbn [map_err disposition result_session_version]. by rewrite Z.eqb_refl.
Qed.

Lemma load_first_row st prev st1 e d ds : entry_typed e ->
  en_drafts e = d :: ds -> (forall e0, prev = Some e0 -> entry_typed e0) -> follows_entry prev e -> flushed st prev st1 ->
  load_row (pending st prev) (stored_row (en_session e) (en_version e + 1) d (en_first e)) =
  Ok (mkLoading st1 (Some (en_session e)) (en_version e + 1) [d] (en_first e + 1)).
Proof.
  intros He Hds Hp Hfo Hfl. destruct (et_positions e He) as [Hp1 Hp2], (et_version e He) as [Hv1 Hv2].
  pose proof (et_drafts e He) as Ht. rewrite Hds in Ht. apply Forall_cons in Ht as [Ht _].
  assert (Hpu : is_u64 (en_first e)) by (unfold is_u64; lia).
  unfold load_row. cbn [stored_row st_session_id st_commit_version st_position].
  rewrite stored_identity_ok, !decode_encode_u64 by (done || apply He).
  assert (Hadd : checked_add (en_first e) 1 = Some (en_first e + 1)).
  { apply checked_u64_some. unfold is_u64. rewrite Hds in Hp2. simpl length in Hp2. lia. }
  destruct prev as [e0|]; cbn [pending lo_session is_some_and lo_version flushed follows_entry] in *.
  - assert (negb (en_session e0 =? en_session e)%string || negb (en_version e0 + 1 =? en_version e + 1) = true) as ->.
    { destruct (en_session e0 =? en_session e)%string; [|done]. destruct Hfo as [Hv _]. simpl. apply negb_true_iff, Z.eqb_neq. lia. }
    cbn [lo_state lo_group]. rewrite (apply_group_enters _ _ _ (Hp e0 eq_refl) Hfl).
    cbn [lo_session lo_expected lo_state lo_version lo_group].
    assert ((if negb (en_session e0 =? en_session e)%string then 1 else en_first e0 + Z.of_nat (length (en_drafts e0))) = en_first e) as ->.
    { destruct (en_session e0 =? en_session e)%string; simpl; [by destruct Hfo as [_ ->]|done]. }
    rewrite Z.eqb_refl, Hadd. cbn [negb ok_or]. by rewrite decode_stored.
  - subst st1. cbn [lo_session lo_expected lo_state lo_version lo_group]. rewrite (proj2 (Z.eqb_eq _ _) Hfo), Hadd.
    cbn [negb ok_or]. rewrite decode_stored by done. done.
Qed.

Lemma load_run es : forall prev st st1 L', Forall entry_typed es -> (forall e0, prev = Some e0 -> entry_typed e0) ->
  sequenced prev es -> flushed st prev st1 -> log_run st1 es L' ->
  exists st' prev', try_fold load_row (pending st prev) (es ≫= entry_rows) = Ok (pending st' prev') /\ flushed st' prev' L' /\
    (forall e0, prev' = Some e0 -> entry_typed e0).
Proof.
  induction es as [|e es IH]; intros prev st st1 L' Ht Hp Hs Hfl Hr.
  { inversion Hr; subst. exists st, prev. done. }
  apply Forall_cons in Ht as [He Ht]. destruct Hs as [Hfo Hs]. inversion Hr as [|? ? L1 ? ? Hent Hr1]; subst.
  rewrite bind_cons, try_fold_app.
  assert (Hrows : try_fold load_row (pending st prev) (entry_rows e) = Ok (pending st1 (Some e))).
  { destruct (en_drafts e) as [|d ds] eqn:Eds; [by destruct (et_nonempty e He)|].
    unfold entry_rows. rewrite Eds. cbn [fact_rows try_fold]. rewrite (load_first_row st prev st1 e d ds) by done.
    pose proof (et_drafts e He) as Htd. rewrite Eds in Htd. apply Forall_cons in Htd as [_ Htd].
    pose proof (et_positions e He) as [Hp1 Hp2]. rewrite Eds in Hp2. simpl length in Hp2.
    rewrite load_same_batch; [|apply He|apply He|done|lia|lia]. unfold pending. rewrite Eds. simpl length. do 2 f_equal. lia. }
  rewrite Hrows. apply (IH (Some e) st1 L1 L'); [done| |done|done|done]. by intros e0 [= <-].
Qed.

(** ** The order the rows are read in *)

Definition by_session (ks : list string) (es : list Entry) : list Entry :=
  ks ≫= fun s => List.filter (of_session s) es.

Lemma split_perm k es :
  List.filter (of_session k) es ++ List.filter (fun e => negb (of_session k e)) es ≡ₚ es.
Proof.
  induction es as [|e es IH]; [done|]. simpl. destruct (of_session k e); simpl; [by rewrite IH|].
  by rewrite <-Permutation_middle, IH.
Qed.

Lemma by_session_perm ks es : NoDup ks -> (forall e, e ∈ es -> en_session e ∈ ks) -> by_session ks es ≡ₚ es.
Proof.
  intros Hnd. revert es. induction Hnd as [|k ks Hk Hnd IH]; intros es Hin.
  { destruct es as [|e es]; [done|]. specialize (Hin e ltac:(set_solver)). set_solver. }
  rewrite <-(split_perm k es) at 2. unfold by_session. rewrite bind_cons. f_equiv.
  rewrite <-(IH (List.filter (fun e => negb (of_session k e)) es)).
  - unfold by_session. clear -Hk. induction ks as [|s ks IH]; [done|]. rewrite !bind_cons, filter_of_other by set_solver.
    f_equiv. apply IH. set_solver.
  - intros e [He Hn]%list_elem_of_In%filter_In. apply list_elem_of_In in He.
    specialize (Hin e He). unfold of_session in Hn. apply negb_true_iff, String.eqb_neq in Hn. set_solver.
Qed.

Lemma sequenced_app prev es1 es2 : sequenced prev (es1 ++ es2) <->
  sequenced prev es1 /\ sequenced (match last es1 with Some e => Some e | None => prev end) es2.
Proof.
  revert prev. induction es1 as [|e es1 IH]; intros prev; [simpl; tauto|]. simpl sequenced. rewrite IH.
  change (last (e :: es1)) with (match es1 with [] => Some e | _ :: _ => last es1 end).
  destruct es1 as [|e1 es1]; [simpl; tauto|]. destruct (last (e1 :: es1)) eqn:El; [tauto|].
  by apply last_None in El.
Qed.

Lemma chain_sequenced s v p es prev : chain v p es -> Forall (fun e => en_session e = s) es ->
  (forall e, head es = Some e -> follows_entry prev e) -> sequenced prev es.
Proof.
  intros Hc Hs. revert v p prev Hc. induction Hs as [|e es Hse Hs IH]; intros v p prev Hc Hh; [done|].
  destruct Hc as (Hv & Hp & _ & _ & _ & Hc). split; [by apply Hh|]. eapply IH; [done|].
  intros e' He'. destruct es as [|e1 es]; [done|]. injection He' as <-. destruct Hc as (Hv' & Hp' & _).
  apply Forall_cons in Hs as [Hs1 _]. simpl. rewrite Hse, Hs1, String.eqb_refl. lia.
Qed.

Lemma filter_session s es : Forall (fun e => en_session e = s) (List.filter (of_session s) es).
Proof.
  apply Forall_forall. intros e [_ He]%list_elem_of_In%filter_In. by apply String.eqb_eq.
Qed.

Lemma by_session_sequenced es ks prev : NoDup ks -> (forall e0, prev = Some e0 -> en_session e0 ∉ ks) ->
  (forall s, chain 0 1 (List.filter (of_session s) es)) -> sequenced prev (by_session ks es).
Proof.
  intros Hnd Hp Hc. revert prev Hp. induction Hnd as [|k ks Hk Hnd IH]; intros prev Hp; [done|].
  unfold by_session. rewrite bind_cons. apply sequenced_app. split.
  - eapply chain_sequenced; [apply Hc|apply filter_session|]. intros e He.
    assert (Hek : en_session e = k).
    { pose proof (filter_session k es) as Hf. rewrite Forall_forall in Hf. apply Hf, head_Some_elem_of, He. }
    specialize (Hc k). destruct (List.filter _ es) as [|e' es']; [done|]. injection He as ->.
    destruct Hc as (_ & Hp1 & _). destruct prev as [e0|]; simpl; [|done].
    destruct (String.eqb_spec (en_session e0) (en_session e)) as [E|]; [|done].
    specialize (Hp e0 eq_refl). set_solver.
  - apply IH. intros e0 He0. destruct (last (List.filter (of_session k) es)) as [e1|] eqn:El.
    + injection He0 as <-. apply last_Some_elem_of in El. pose proof (filter_session k es) as Hf.
      rewrite Forall_forall in Hf. rewrite (Hf e1 El). done.
    + specialize (Hp e0 He0). set_solver.
Qed.

Lemma sorted_bind {A B} (R : relation B) (f : A -> list B) l :
  StronglySorted (fun x y => forall a b, a ∈ f x -> b ∈ f y -> R a b) l -> Forall (fun x => StronglySorted R (f x)) l ->
  StronglySorted R (l ≫= f).
Proof.
  intros Hs. induction Hs as [|x l Hs IH Hx]; intros Hf; [constructor|]. apply Forall_cons in Hf as [H1 H2].
  rewrite bind_cons. apply StronglySorted_app. split_and!; [|done|by apply IH].
  intros a b Ha (y & Hb & Hy)%list_elem_of_bind. rewrite Forall_forall in Hx. by apply (Hx y).
Qed.

Definition entry_before (e e' : Entry) : Prop :=
  cmp (en_session e) (en_session e') = Lt \/ (en_session e = en_session e' /\ en_version e < en_version e').

Lemma chain_before s v p es : chain v p es -> Forall (fun e => en_session e = s) es ->
  StronglySorted entry_before es /\ Forall (fun e => v <= en_version e) es.
Proof.
  intros Hc Hs. revert v p Hc. induction Hs as [|e es Hse Hs IH]; intros v p Hc; [split; constructor|].
  destruct Hc as (Hv & Hp & _ & _ & _ & Hc). destruct (IH _ _ Hc) as [H1 H2]. split.
  - constructor; [done|]. apply Forall_forall. intros e' He'. right. rewrite Forall_forall in H2, Hs.
    split; [rewrite Hse; by rewrite Hs|]. specialize (H2 e' He'). lia.
  - constructor; [lia|]. eapply Forall_impl; [exact H2|]. cbv beta. intros x. lia.
Qed.

Lemma by_session_before ks es : StronglySorted (fun a b => cmp a b = Lt) ks ->
  (forall s, chain 0 1 (List.filter (of_session s) es)) -> StronglySorted entry_before (by_session ks es).
Proof.
  intros Hs Hc. apply sorted_bind.
  - induction Hs as [|k ks Hs IH Hk]; constructor; [done|]. eapply Forall_impl; [exact Hk|]. cbv beta. intros k' Hlt a b Ha Hb.
    pose proof (filter_session k es) as Hf. pose proof (filter_session k' es) as Hf'. rewrite Forall_forall in Hf, Hf'.
    left. by rewrite (Hf a Ha), (Hf' b Hb).
  - apply Forall_forall. intros k _. eapply chain_before; [apply Hc|apply filter_session].
Qed.

Definition row_before (a b : StoredFact) : Prop := cmp (row_key a) (row_key b) = Lt.

Lemma row_key_cmp sid v d q sid' v' d' q' : is_u64 v -> is_u64 v' -> is_u64 q -> is_u64 q' ->
  cmp sid sid' = Lt \/ sid = sid' /\ (v < v' \/ v = v' /\ q < q') ->
  row_before (stored_row sid v d q) (stored_row sid' v' d' q').
Proof.
  intros Hv Hv' Hq Hq' Hc. unfold row_before, row_key. cbn [st_session_id st_commit_version st_position stored_row cmp Ord_prod fst snd].
  destruct Hc as [Hl|[-> Hc]]; [by rewrite Hl|]. rewrite cmp_refl. cbn [cmp Ord_string]. rewrite !encode_u64_compare by done.
  destruct Hc as [Hl|[-> Hl]]; [by rewrite (proj2 (Z.compare_lt_iff _ _) Hl)|].
  rewrite Z.compare_refl. by apply Z.compare_lt_iff.
Qed.

Lemma elem_of_fact_rows sid v p ds row : row ∈ fact_rows sid v p ds ->
  exists d q, d ∈ ds /\ row = stored_row sid v d q /\ p <= q < p + Z.of_nat (length ds).
Proof.
  revert p. induction ds as [|d ds IH]; intros p; simpl; [set_solver|].
  intros [->|Hr]%elem_of_cons; [exists d, p; split_and!; [set_solver|done|lia|lia]|].
  apply IH in Hr as (d' & q & Hd & -> & Hq). exists d', q. split_and!; [set_solver|done|lia|lia].
Qed.

Lemma fact_rows_before sid v p ds : is_u64 v -> 0 <= p -> p + Z.of_nat (length ds) <= u64_max + 1 ->
  StronglySorted row_before (fact_rows sid v p ds).
Proof.
  intros Hv. revert p. induction ds as [|d ds IH]; intros p Hp Hb; simpl; [constructor|]. simpl length in Hb.
  constructor; [apply IH; lia|]. apply Forall_forall. intros row (d' & q & _ & -> & Hq)%elem_of_fact_rows.
  apply row_key_cmp; [done|done|unfold is_u64; lia|unfold is_u64; lia|]. right. split; [done|]. right. lia.
Qed.

Lemma entry_rows_before es : Forall entry_typed es -> StronglySorted entry_before es ->
  StronglySorted row_before (es ≫= entry_rows).
Proof.
  intros Ht Hs. apply sorted_bind.
  - induction Hs as [|e es Hs IH He]; constructor.
    + apply IH. by apply Forall_cons in Ht as [_ ?].
    + apply Forall_forall. intros e' He' a b Ha Hb. rewrite Forall_forall in He. specialize (He e' He').
      apply Forall_cons in Ht as [Ht1 Ht]. rewrite Forall_forall in Ht. specialize (Ht e' He').
      apply elem_of_fact_rows in Ha as (d & q & _ & -> & Hq), Hb as (d' & q' & _ & -> & Hq').
      destruct Ht1 as [_ _ _ [? ?] [? ?]], Ht as [_ _ _ [? ?] [? ?]].
      apply row_key_cmp; try done; try (unfold is_u64; lia). destruct He as [?|[? ?]]; [by left|]. right. split; [done|]. left. lia.
  - eapply Forall_impl; [exact Ht|]. intros e He. destruct He as [_ _ _ [? ?] [? ?]]. apply fact_rows_before; [done|lia|lia].
Qed.

Lemma strict_keys l a b : StronglySorted row_before l -> a ∈ l -> b ∈ l -> row_key a = row_key b -> a = b.
Proof.
  intros Hs. induction Hs as [|x l Hs IH Hx]; [set_solver|]. rewrite Forall_forall in Hx. unfold row_before in Hx.
  intros [->|Ha]%elem_of_cons [->|Hb]%elem_of_cons Hk; [done| | |by apply IH].
  - specialize (Hx b Hb). rewrite Hk, cmp_refl in Hx. done.
  - specialize (Hx a Ha). rewrite Hk, cmp_refl in Hx. done.
Qed.

Lemma sort_rows l l' : StronglySorted row_before l' -> l' ≡ₚ l -> sort_by_key row_key l = l'.
Proof.
  intros Hs Hp. apply (StronglySorted_unique_strong (key_le_of row_key)).
  - intros a b Ha Hb H1 H2. rewrite sort_by_key_perm, <-Hp in Ha. apply (strict_keys l'); [done..|].
    by apply (anti_symm le_of).
  - apply sort_by_key_sorted.
  - clear Hp. induction Hs as [|x l0 Hs IH Hx]; constructor; [done|]. eapply Forall_impl; [exact Hx|]. intros y Hy.
    unfold key_le_of. apply le_of_cases. by left.
  - by rewrite sort_by_key_perm.
Qed.

(** ** Prepared identities are used once *)

Section prepared.
Context (k : string) (idof : FactDraft -> option string) (known : SessionProjection -> string -> Prop).
Hypothesis (Hmono : forall s d s' m, projection_apply s d = Ok s' -> known s m -> known s' m).
Hypothesis (Hnew : forall s d s' m, projection_apply s d = Ok s' -> kind d = k -> idof d = Some m -> ~ known s m /\ known s' m).
Hypothesis (Hbegin : forall s m, known (begin_commit s) m <-> known s m).

Definition prepared_id (d : FactDraft) : option string := if (kind d =? k)%string then idof d else None.

Lemma prepared_batch s ds s' : try_fold projection_apply s ds = Ok s' ->
  NoDup (omap prepared_id ds) /\ (forall m, m ∈ omap prepared_id ds -> ~ known s m /\ known s' m) /\
  (forall m, known s m -> known s' m).
Proof.
  revert s. induction ds as [|d ds IH]; intros s Hf; simpl in Hf.
  { injection Hf as <-. simpl. split_and!; [constructor|set_solver|done]. }
  destruct (projection_apply s d) as [s1|] eqn:Ea; [|done]. destruct (IH s1 Hf) as (Hn & Hk & Hm).
  assert (Hm' : forall m, known s m -> known s' m) by eauto.
  change (omap prepared_id (d :: ds)) with (match prepared_id d with Some m => m :: omap prepared_id ds | None => omap prepared_id ds end).
  assert (Hk' : forall m, m ∈ omap prepared_id ds -> ~ known s m /\ known s' m).
  { intros m Hin. destruct (Hk m Hin) as [H1 H2]. split; [|done]. intros Hs. apply H1. by eapply Hmono. }
  destruct (prepared_id d) as [m|] eqn:Ep; [|done]. unfold prepared_id in Ep.
  destruct (String.eqb_spec (kind d) k) as [Ek|]; [|done]. rename Ep into Eid. destruct (Hnew _ _ _ _ Ea Ek Eid) as [H1 H2]. split_and!; [|..|done].
  - constructor; [|done]. intros Hin. by destruct (Hk m Hin).
  - intros m' [->|Hin]%elem_of_cons; [|by apply Hk']. split; [done|]. by apply Hm.
Qed.

Lemma prepared_batches s bs s' : try_fold replay_batch s bs = Ok s' ->
  (forall m, m ∈ omap prepared_id (concat bs) -> known s' m) /\ (forall m, known s m -> known s' m).
Proof.
  revert s. induction bs as [|b bs IH]; intros s Hf; simpl in Hf; [injection Hf as <-; simpl; split; [set_solver|done]|].
  unfold replay_batch at 1 in Hf. destruct (try_fold projection_apply _ b) as [s1|] eqn:Eb; [|done].
  destruct (validate_commit_boundary s1); [|done]. destruct (IH s1 Hf) as [Hk Hm].
  destruct (prepared_batch _ _ _ Eb) as (_ & Hb & Hmb). simpl. rewrite omap_app. split.
  - intros m [Hin|Hin]%elem_of_app; [|by apply Hk]. apply Hm. by apply Hb.
  - intros m Hs. apply Hm, Hmb. by apply Hbegin.
Qed.
End prepared.

Lemma moves_known {A} (edge : option A -> option A -> bool) m m' k :
  moves edge m m' -> is_Some (m !! k) -> is_Some (m' !! k).
Proof.
  intros [->|(k' & a & -> & _)] Hk; [done|]. destruct (decide (k' = k)) as [->|Hn]; [by rewrite lookup_insert_eq|by rewrite lookup_insert_ne].
Qed.

Definition knows_model (s : SessionProjection) (m : string) : Prop := is_Some (models s !! m).
Definition knows_tool (s : SessionProjection) (m : string) : Prop := is_Some (tools s !! m).

Lemma knows_model_mono s d s' m : projection_apply s d = Ok s' -> knows_model s m -> knows_model s' m.
Proof. intros Ha%apply_steps. eapply moves_known, Ha. Qed.
Lemma knows_tool_mono s d s' m : projection_apply s d = Ok s' -> knows_tool s m -> knows_tool s' m.
Proof. intros Ha%apply_steps. eapply moves_known, Ha. Qed.

Lemma apply_handler s d s' h : projection_apply s d = Ok s' -> kind d <> "session.opened" ->
  assoc (kind d) handlers = Some h -> h s d = Ok s'.
Proof.
  unfold projection_apply. intros Ha Hk Hh. destruct (lift _); [|done]. apply String.eqb_neq in Hk. rewrite Hk in Ha.
  destruct (_ || _); [done|]. by rewrite Hh in Ha.
Qed.

Lemma knows_model_new s d s' m : projection_apply s d = Ok s' -> kind d = "model.prepared" -> model_request_id d = Some m ->
  ~ knows_model s m /\ knows_model s' m.
Proof.
  intros Ha Hk Hid. apply (apply_handler s d s' prepare_model) in Ha; [|by rewrite Hk|by rewrite Hk].
  unfold prepare_model in Ha. destruct (require_active_execution s d); [|done]. rewrite Hid in Ha. simpl in Ha.
  destruct (required (execution_id d)) as [e|]; [|done]. destruct (is_some (models s !! m)) eqn:E; [done|].
  apply is_some_false in E. unfold knows_model. rewrite E. split; [by intros []|].
  destruct (fact_payload d); [|done]. destruct (Projection.text _ _); [|done]. injection Ha as <-. simpl. by rewrite lookup_insert_eq.
Qed.

Lemma knows_tool_new s d s' m : projection_apply s d = Ok s' -> kind d = "effect.prepared" -> tool_invocation_id d = Some m ->
  ~ knows_tool s m /\ knows_tool s' m.
Proof.
  intros Ha Hk Hid. apply (apply_handler s d s' prepare_tool) in Ha; [|by rewrite Hk|by rewrite Hk].
  unfold prepare_tool in Ha. cbv zeta in Ha. destruct (require_active_execution s d); [|done]. rewrite Hid in Ha. simpl in Ha.
  destruct (required (execution_id d)) as [e|]; [|done]. destruct (is_some (tools s !! m)) eqn:E; [done|].
  apply is_some_false in E. unfold knows_tool. rewrite E. split; [by intros []|].
  assert (Hl : life_view s' = life_view (s <| tools ::= <[m := (e, InvPrepared)]> |>)) by (open_res Ha; by subst s').
  injection Hl as _ _ _ ->. simpl. by rewrite lookup_insert_eq.
Qed.

Lemma knows_begin s m : (knows_model (begin_commit s) m <-> knows_model s m) /\ (knows_tool (begin_commit s) m <-> knows_tool s m).
Proof. by destruct s. Qed.

(** ** The database of a history *)

Definition session_row (S : SessionLedger) : SessionRow :=
  mkSessionRow (encode_u64 (session_version_of S)) (encode_u64 (Z.of_nat (length (facts S)))).

Record stores (db : Database) (es : list Entry) (L : LedgerState) : Prop := {
  so_run : log_run ledger_default es L;
  so_typed : Forall entry_typed es;
  so_rows : (map_to_list (ledger_facts db)).*2 ≡ₚ es ≫= entry_rows;
  so_keys : forall id row, ledger_facts db !! id = Some row -> st_fact_id row = id;
  so_sessions : forall sid, ledger_sessions db !! sid = session_row <$> sessions L !! sid;
}.

Lemma ledger_default_wf : ledger_wf ledger_default.
Proof. by constructor. Qed.

Lemma log_default_chain s es L : log_run ledger_default es L -> chain 0 1 (List.filter (of_session s) es).
Proof. intros Hr. exact (log_chain s _ _ _ ledger_default_wf Hr). Qed.

Lemma log_session es L0 L sid S : log_run L0 es L -> sessions L !! sid = Some S ->
  is_Some (sessions L0 !! sid) \/ exists e, e ∈ es /\ en_session e = sid.
Proof.
  intros Hr. induction Hr as [|L0 e L1 es L He Hr IH]; intros HS; [left; eauto|].
  destruct (IH HS) as [Hs|(e' & He' & Heq)]; [|right; exists e'; split; [set_solver|done]].
  apply enters_iff in He as (_ & N & _ & _ & ->). simpl in Hs. destruct (decide (en_session e = sid)) as [E|Hn].
  - right. exists e. split; [set_solver|done].
  - left. by rewrite lookup_insert_ne in Hs.
Qed.

Lemma batches_length (bs : list (list FactDraft)) : Forall (fun b => b <> []) bs -> (length bs <= length (concat bs))%nat.
Proof. induction 1 as [|b bs Hb _ IH]; simpl; [lia|]. rewrite length_app. destruct b; [done|]. simpl. lia. Qed.

Lemma session_u64 sid S : session_wf sid S -> is_u64 (session_version_of S) /\ is_u64 (Z.of_nat (length (facts S))).
Proof.
  intros [_ Hb _ (bs & Hne & Hv & Hf & _)]. unfold is_u64. rewrite Hv. pose proof (batches_length bs Hne).
  assert (length (facts S) = length (concat bs)) by (rewrite Hf; apply length_durable). lia.
Qed.

Lemma try_fold_unit {E A} (f : A -> result E unit) l : (forall a, a ∈ l -> f a = Ok tt) -> try_fold (fun _ a => f a) tt l = Ok tt.
Proof. induction l as [|a l IH]; intros Ha; [done|]. simpl. rewrite Ha by set_solver. apply IH. set_solver. Qed.

Lemma stores_load db es L : stores db es L -> load_state db = Ok L.
Proof.
  intros [Hr Ht Hrows _ Hse]. unfold load_state. set (ks := btree_set (en_session <$> es)).
  assert (Hin : forall e, e ∈ es -> en_session e ∈ ks). { intros e He. apply btree_set_elem, list_elem_of_fmap. eauto. }
  assert (Hnd : NoDup ks) by apply btree_set_nodup.
  assert (Hperm : by_session ks es ≡ₚ es) by by apply by_session_perm.
  assert (Htk : Forall entry_typed (by_session ks es)) by by rewrite Hperm.
  assert (Hord : ordered_rows db = by_session ks es ≫= entry_rows).
  { apply sort_rows.
    - apply entry_rows_before; [done|]. apply by_session_before; [apply btree_set_strict|]. intros s. by eapply log_default_chain.
    - rewrite Hrows. by apply bind_Permutation. }
  destruct (load_run (by_session ks es) None ledger_default ledger_default L) as (st & prev & Hl & Hfl & Hp);
    [done|done| |done|by apply log_gather|].
  { apply by_session_sequenced; [done|done|]. intros s. by eapply log_default_chain. }
  rewrite Hord. change loading_new with (pending ledger_default None). rewrite Hl.
  assert (Hend : match lo_session (pending st prev) with
    | Some session => apply_group (lo_state (pending st prev)) session (lo_version (pending st prev)) (lo_group (pending st prev))
    | None => Ok (lo_state (pending st prev)) end = Ok L).
  { destruct prev as [e|]; simpl in *; [|by subst]. apply apply_group_enters; [by apply Hp|done]. }
  rewrite Hend. unfold verify_session_rows. rewrite try_fold_unit; [done|]. intros [sid row] Hrow%elem_of_entries.
  rewrite Hse in Hrow. destruct (sessions L !! sid) as [S|] eqn:ES; [|done]. injection Hrow as <-.
  pose proof (log_run_wf _ _ _ ledger_default_wf Hr) as Hw. destruct (lw_sessions L Hw _ _ ES) as [HwS _].
  destruct (session_u64 _ _ HwS) as [Hv Hf]. unfold verify_session_row. cbn [fst snd session_row se_version se_max_position].
  assert (Hsid : sid <> "").
  { destruct (log_session _ _ _ _ _ Hr ES) as [[? Hs]|(e & He & <-)]; [done|]. rewrite Forall_forall in Ht. by apply Ht. }
  rewrite stored_identity_ok, !decode_encode_u64 by done. cbn [map_err].
  unfold LedgerState.session_version, fact_count. rewrite ES. simpl.
  rewrite bool_decide_eq_false_2, Z.eqb_refl by (intros Hc; by apply Hc). done.
Qed.

Lemma fact_rows_zip sid v p ds :
  fact_rows sid v p ds = (fun entry : FactDraft * Z => stored_row sid v entry.1 entry.2) <$> zip ds (positions_from p (length ds)).
Proof. revert p. induction ds as [|d ds IH]; intros p; [done|]. cbn [length fact_rows]. rewrite positions_from_S. cbn [zip_with fmap list_fmap fst snd]. by rewrite IH. Qed.

Lemma entry_rows_zip e row : row ∈ entry_rows e -> exists d q, (d, q) ∈ zip (en_drafts e) (entry_positions e) /\
  row = stored_row (en_session e) (en_version e + 1) d q.
Proof.
  unfold entry_rows. rewrite fact_rows_zip. intros ([d q] & -> & Hin)%list_elem_of_fmap. by exists d, q.
Qed.

Lemma log_index_kept L es L' id x : log_run L es L' -> fact_index L !! id = Some x -> fact_index L' !! id = Some x.
Proof.
  induction 1 as [|L e L1 es L2 He Hr IH]; [done|]. intros Hx. apply IH. apply enters_iff in He as (Had & N & _ & _ & ->).
  by apply entered_kept.
Qed.

Lemma row_indexed L es L' row : log_run L es L' -> row ∈ es ≫= entry_rows ->
  exists e d q, e ∈ es /\ row = stored_row (en_session e) (en_version e + 1) d q /\
    fact_index L' !! fact_id d = Some (mkIndexEntry (en_session e) q d).
Proof.
  induction 1 as [|L e L1 es L2 He Hr IH]; [set_solver|]. rewrite bind_cons. intros [Hrow|Hrow]%elem_of_app.
  - apply entry_rows_zip in Hrow as (d & q & Hin & ->). exists e, d, q. split_and!; [set_solver|done|].
    eapply log_index_kept; [done|]. apply enters_iff in He as (Had & N & _ & _ & ->). apply entered_index; [apply Had|]. left. eauto.
  - destruct (IH Hrow) as (e' & d & q & He' & -> & Hx). exists e', d, q. split_and!; [set_solver|done..].
Qed.

Lemma stores_row db es L id row : stores db es L -> ledger_facts db !! id = Some row ->
  exists e d q, e ∈ es /\ fact_id d = id /\ row = stored_row (en_session e) (en_version e + 1) d q /\
    fact_index L !! id = Some (mkIndexEntry (en_session e) q d).
Proof.
  intros Hst Hrow. pose proof (so_keys _ _ _ Hst _ _ Hrow) as Hid.
  assert (Hin : row ∈ es ≫= entry_rows).
  { rewrite <-(so_rows _ _ _ Hst). apply list_elem_of_fmap. exists (id, row). split; [done|]. by apply elem_of_map_to_list. }
  destruct (row_indexed _ _ _ _ (so_run _ _ _ Hst) Hin) as (e & d & q & He & -> & Hx). simpl in Hid.
  exists e, d, q. split_and!; [done|done|done|congruence].
Qed.

(** ** Inserting a batch *)

Definition row_static (db : Database) (row : StoredFact) : Prop :=
  is_Some (ledger_sessions db !! st_session_id row) /\ String.length (st_position row) = 8%nat /\
  String.length (st_commit_version row) = 8%nat /\ 0 < st_schema_version row /\ str_len (st_payload_sha256 row) = 64.

Lemma insert_fact_ok db row : row_static db row -> ledger_facts db !! st_fact_id row = None ->
  (forall id o, ledger_facts db !! id = Some o -> row_conflict row o = false) ->
  insert_fact db row = Ok (db <| ledger_facts ::= <[st_fact_id row := row]> |>).
Proof.
  intros ([S HS] & Hp & Hv & Hs & Hd) Hn Hc. unfold insert_fact. rewrite Hn, HS, Hp, Hv, Hd. cbn [is_some is_none Nat.eqb negb orb].
  rewrite (proj2 (Z.ltb_lt _ _) Hs), Z.eqb_refl. cbn [negb orb]. by rewrite (proj2 (any_value_false _ _) Hc).
Qed.

Lemma insert_rows rows : forall db, Forall (row_static db) rows -> NoDup (st_fact_id <$> rows) ->
  (forall r, r ∈ rows -> ledger_facts db !! st_fact_id r = None) ->
  (forall r id o, r ∈ rows -> ledger_facts db !! id = Some o -> row_conflict r o = false) ->
  StronglySorted (fun a b => row_conflict b a = false) rows ->
  exists table, try_fold insert_fact db rows = Ok (db <| ledger_facts := table |>) /\
    (map_to_list table).*2 ≡ₚ (map_to_list (ledger_facts db)).*2 ++ rows /\
    (forall id row, table !! id = Some row -> ledger_facts db !! id = Some row \/ st_fact_id row = id).
Proof.
  induction rows as [|row rows IH]; intros db Hst Hnd Hn Hc Hs.
  { exists (ledger_facts db). simpl. rewrite app_nil_r. split_and!; [by destruct db|done|by left]. }
  apply Forall_cons in Hst as [Hst1 Hst]. apply list.NoDup_cons in Hnd as [Hd Hnd]. apply StronglySorted_inv in Hs as [Hs Hs1].
  simpl. rewrite insert_fact_ok; [|done|apply Hn; set_solver|intros; eapply Hc; [set_solver|done]].
  set (db1 := db <| ledger_facts ::= <[st_fact_id row := row]> |>).
  destruct (IH db1) as (table & Hf & Hp & Hk).
  - done.
  - done.
  - intros r Hr. simpl. rewrite lookup_insert_ne; [apply Hn; set_solver|]. intros E. apply Hd. rewrite E. apply list_elem_of_fmap. eauto.
  - simpl. intros r id o Hr [[_ <-]|[_ Ho]]%lookup_insert_Some; [|eapply Hc; [set_solver|done]].
    rewrite Forall_forall in Hs1. by apply Hs1.
  - done.
  - exists table. split_and!; [done| |].
    + rewrite Hp. simpl. rewrite map_to_list_insert by (apply Hn; set_solver). simpl. by rewrite Permutation_middle.
    + intros id r Hr. destruct (Hk id r Hr) as [Ho|Ho]; [|by right]. simpl in Ho.
      apply lookup_insert_Some in Ho as [[<- <-]|[_ Ho]]; [by right|by left].
Qed.

Lemma kind_conflict_false k (idof : FactDraft -> option string) stored sid v d q o :
  (forall sid v d q, stored (stored_row sid v d q) = idof d) ->
  (forall m, prepared_id k idof d = Some m -> st_kind o = k -> stored o <> Some m) ->
  kind_conflict k stored (stored_row sid v d q) o = false.
Proof.
  intros Hst Hm. unfold kind_conflict, prepared_id in *. rewrite Hst. cbn [stored_row st_kind].
  destruct (kind d =? k)%string; [|done]. destruct (String.eqb_spec (st_kind o) k) as [E|]; [|done]. cbn [andb].
  destruct (idof d) as [m|]; [|done]. specialize (Hm m eq_refl E). destruct (stored o) as [m'|]; [|done].
  simpl. apply String.eqb_neq. congruence.
Qed.

Lemma omap_elem k idof d (ds : list FactDraft) m : d ∈ ds -> prepared_id k idof d = Some m -> m ∈ omap (prepared_id k idof) ds.
Proof. intros Hd Hm. apply list_elem_of_omap. eauto. Qed.

(** The rows of one batch do not conflict with each other. *)
Lemma batch_rows_apart sid v p ds : 0 <= p -> p + Z.of_nat (length ds) <= u64_max ->
  NoDup (omap (prepared_id "model.prepared" model_request_id) ds) ->
  NoDup (omap (prepared_id "effect.prepared" tool_invocation_id) ds) ->
  StronglySorted (fun a b => row_conflict b a = false) (fact_rows sid v p ds).
Proof.
  assert (Hcons : forall k idof d ds, NoDup (omap (prepared_id k idof) (d :: ds)) ->
    NoDup (omap (prepared_id k idof) ds) /\ forall d' m, d' ∈ ds -> prepared_id k idof d' = Some m -> prepared_id k idof d <> Some m).
  { intros k idof d ds' Hn. change (omap (prepared_id k idof) (d :: ds')) with (match prepared_id k idof d with
      Some m => m :: omap (prepared_id k idof) ds' | None => omap (prepared_id k idof) ds' end) in Hn.
    destruct (prepared_id k idof d) as [m|] eqn:E; [|split; [done|]; by intros].
    apply list.NoDup_cons in Hn as [Hn1 Hn]. split; [done|]. intros d' m' Hd' Hm' [= ->]. apply Hn1. by eapply omap_elem. }
  revert p. induction ds as [|d ds IH]; intros p Hp Hb Hm Ht; simpl; [constructor|].
  destruct (Hcons _ _ _ _ Hm) as [Hm1 Hm2], (Hcons _ _ _ _ Ht) as [Ht1 Ht2]. simpl length in Hb.
  constructor; [apply IH; [lia|lia|done|done]|]. apply Forall_forall. intros row (d' & q & Hd' & -> & Hq)%elem_of_fact_rows.
  unfold row_conflict. rewrite !orb_false_iff. split_and!.
  - cbn [stored_row st_session_id st_position]. apply andb_false_iff. right. apply String.eqb_neq. intros E.
    apply encode_u64_inj in E; unfold is_u64; lia.
  - apply (kind_conflict_false "model.prepared" model_request_id); [done|]. cbn [stored_row st_kind st_model_request_id].
    intros m Hpm Hk Hid. apply (Hm2 d' m Hd' Hpm). unfold prepared_id. by rewrite Hk.
  - apply (kind_conflict_false "effect.prepared" tool_invocation_id); [done|]. cbn [stored_row st_kind st_tool_invocation_id].
    intros m Hpm Hk Hid. apply (Ht2 d' m Hd' Hpm). unfold prepared_id. by rewrite Hk.
Qed.

(** A new draft does not conflict with a row that is there. *)
Lemma shares_model d d' m : model_request_id d = Some m -> model_request_id d' = Some m -> shares_identity d d' = true.
Proof. intros H1 H2. unfold shares_identity. rewrite H1, H2. simpl. rewrite String.eqb_refl, !orb_true_r. done. Qed.
Lemma shares_tool d d' m : tool_invocation_id d = Some m -> tool_invocation_id d' = Some m -> shares_identity d d' = true.
Proof. intros H1 H2. unfold shares_identity. rewrite H1, H2. simpl. by rewrite String.eqb_refl, !orb_true_r. Qed.

Lemma indexed_position L sid id q d : ledger_wf L -> fact_index L !! id = Some (mkIndexEntry sid q d) ->
  1 <= q <= Z.of_nat (length (facts (session_of L sid))).
Proof.
  intros Hw Hx. destruct (lw_stored L Hw _ _ Hx) as (_ & _ & _ & S & HS & Hin). simpl in *.
  destruct (lw_sessions L Hw _ _ HS) as [[Hpos _ _ _] _]. unfold session_of. rewrite HS. simpl.
  assert (Hq : q ∈ position <$> facts S) by (apply list_elem_of_fmap; eexists; split; [|done]; done).
  rewrite Hpos, elem_of_positions_from in Hq. lia.
Qed.

Lemma indexed_drafts (L : LedgerState) (sid id : string) (q : Z) (d : FactDraft) : ledger_wf L -> fact_index L !! id = Some (mkIndexEntry sid q d) ->
  exists bs (d' : FactDraft), try_fold replay_batch projection_default bs = Ok (projection (session_of L sid)) /\ d' ∈ concat bs /\
    kind d' = kind d /\ model_request_id d' = model_request_id d /\ tool_invocation_id d' = tool_invocation_id d.
Proof.
  intros Hw Hx. destruct (lw_stored L Hw _ _ Hx) as (_ & _ & _ & S & HS & Hin). simpl in *.
  destruct (lw_sessions L Hw _ _ HS) as [[_ _ _ (bs & _ & _ & Hf & Hr)] _]. unfold session_of. rewrite HS. simpl.
  rewrite Hf in Hin. apply elem_of_durable in Hin as (q' & d' & Hz & Heq). exists bs, d'. apply elem_of_zip_l in Hz.
  unfold DurableFact_from in Heq. split_and!; [done|done|congruence..].
Qed.

Lemma indexed_knows L sid id q d m : ledger_wf L -> fact_index L !! id = Some (mkIndexEntry sid q d) ->
  (kind d = "model.prepared" -> model_request_id d = Some m -> knows_model (projection (session_of L sid)) m) /\
  (kind d = "effect.prepared" -> tool_invocation_id d = Some m -> knows_tool (projection (session_of L sid)) m).
Proof.
  intros Hw Hx. destruct (indexed_drafts L sid id q d Hw Hx) as (bs & d' & Hr & Hd & Hk & Hm & Ht). split; intros Ek Ei.
  - destruct (prepared_batches "model.prepared" model_request_id knows_model knows_model_mono knows_model_new (fun s m => proj1 (knows_begin s m)) _ _ _ Hr) as [Hkn _].
    apply Hkn. eapply omap_elem; [done|]. unfold prepared_id. rewrite Hk, Ek, Hm. done.
  - destruct (prepared_batches "effect.prepared" tool_invocation_id knows_tool knows_tool_mono knows_tool_new (fun s m => proj2 (knows_begin s m)) _ _ _ Hr) as [Hkn _].
    apply Hkn. eapply omap_elem; [done|]. unfold prepared_id. rewrite Hk, Ek, Ht. done.
Qed.

(** The new rows of an entry, beside the rows of the history. *)
Lemma new_rows_apart db es L e L' d q id o : stores db es L -> entry_typed e -> enters L e L' ->
  (d, q) ∈ zip (en_drafts e) (entry_positions e) -> ledger_facts db !! id = Some o ->
  row_conflict (stored_row (en_session e) (en_version e + 1) d q) o = false.
Proof.
  intros Hst He Hen Hin Ho. destruct (stores_row _ _ _ _ _ Hst Ho) as (e0 & d0 & q0 & _ & Hid & -> & Hx).
  pose proof (log_run_wf _ _ _ ledger_default_wf (so_run _ _ _ Hst)) as Hw.
  pose proof (enters_facts _ _ _ Hw Hen) as [_ Hfirst _ _ _ _ (P & Hpr & _)].
  pose proof Hen as (Had & _)%enters_iff. pose proof (elem_of_zip_l _ _ _ _ Hin) as Hd.
  pose proof (ad_acceptable _ _ _ Had) as Hacc. rewrite Forall_forall in Hacc. specialize (Hacc d Hd).
  destruct (et_positions e He) as [_ Hb].
  assert (Hq : q ∈ entry_positions e) by by eapply elem_of_zip_r.
  unfold entry_positions in Hq. rewrite elem_of_positions_from in Hq.
  assert (Hiso : shares_identity d0 d = true -> en_session e0 = en_session e).
  { intros Hsh. by apply (acceptable_isolated _ _ _ _ _ Hacc Hx). }
  unfold row_conflict. rewrite !orb_false_iff. split_and!.
  - cbn [stored_row st_session_id st_position]. apply andb_false_iff.
    destruct (String.eqb_spec (en_session e) (en_session e0)) as [E|]; [|by left]. right. apply String.eqb_neq. intros Eq.
    pose proof (indexed_position _ _ _ _ _ Hw Hx) as Hpos. rewrite <-E in Hpos. apply encode_u64_inj in Eq; unfold is_u64; lia.
  - apply (kind_conflict_false "model.prepared" model_request_id); [done|]. cbn [stored_row st_kind st_model_request_id].
    intros m Hpm Hk Hm. pose proof Hpm as Hpm'. unfold prepared_id in Hpm'. destruct (kind d =? _)%string; [|done].
    rewrite (Hiso (shares_model _ _ _ Hm Hpm')) in Hx.
    destruct (prepared_batch "model.prepared" model_request_id knows_model knows_model_mono knows_model_new (fun s m => proj1 (knows_begin s m)) _ _ _ Hpr) as (_ & Hn & _).
    destruct (Hn m (omap_elem _ _ _ _ _ Hd Hpm)) as [Hnk _]. apply Hnk, knows_begin. by apply (indexed_knows _ _ _ _ _ m Hw Hx).
  - apply (kind_conflict_false "effect.prepared" tool_invocation_id); [done|]. cbn [stored_row st_kind st_tool_invocation_id].
    intros m Hpm Hk Hm. pose proof Hpm as Hpm'. unfold prepared_id in Hpm'. destruct (kind d =? _)%string; [|done].
    rewrite (Hiso (shares_tool _ _ _ Hm Hpm')) in Hx.
    destruct (prepared_batch "effect.prepared" tool_invocation_id knows_tool knows_tool_mono knows_tool_new (fun s m => proj2 (knows_begin s m)) _ _ _ Hpr) as (_ & Hn & _).
    destruct (Hn m (omap_elem _ _ _ _ _ Hd Hpm)) as [Hnk _]. apply Hnk, knows_begin. by apply (indexed_knows _ _ _ _ _ m Hw Hx).
Qed.

(** ** The commit transaction *)

(** A SHA-256 digest in hexadecimal has 64 characters. *)
Class DigestLength : Prop := digest_length : forall s, str_len (sha256_hex s) = 64.
Context `{!DigestLength}.

Definition same_operational (db db' : Database) : Prop :=
  execution_leases db' = execution_leases db /\ schedule_leases db' = schedule_leases db /\
  runtime_monotonic_clock db' = runtime_monotonic_clock db.

Lemma entry_static db e : Forall draft_typed (en_drafts e) -> (exists L, admissible L (en_session e) (en_drafts e)) ->
  is_Some (ledger_sessions db !! en_session e) -> Forall (row_static db) (entry_rows e).
Proof.
  intros Ht [L Had] Hs. apply Forall_forall. intros row (d & q & Hd & -> & _)%elem_of_fact_rows.
  pose proof (ad_acceptable _ _ _ Had) as Hacc. rewrite Forall_forall in Hacc, Ht. destruct (Hacc d Hd) as (Hv & _ & _).
  destruct (Ht d Hd) as [_ _ _ _ _ _ Hu _]. unfold draft_validate in Hv.
  destruct (_ || _) eqn:E; [done|]. bool_hyps. unfold is_u32 in Hu.
  assert (Hsha : payload_sha256 (payload d) = sha256_hex (payload_json (payload d))).
  { unfold payload_verify in Hv. destruct (String.eqb_spec (sha256_hex (payload_json (payload d))) (payload_sha256 (payload d))); [done|].
    by simpl in Hv. }
  unfold row_static, stored_row.
  cbn [st_session_id st_position st_commit_version st_schema_version st_payload_sha256]. rewrite !encode_u64_length, Hsha.
  split_and!; [done|done|done|lia|apply digest_length].
Qed.

Lemma last_positions p n : n <> 0%nat -> last (positions_from p n) = Some (p + Z.of_nat n - 1).
Proof.
  destruct n as [|n]; [done|]. intros _. replace (S n) with (n + 1)%nat by lia. rewrite positions_from_app.
  rewrite last_app. unfold positions_from at 1. simpl. f_equal. lia.
Qed.

Lemma rows_ids sid v p ds : st_fact_id <$> fact_rows sid v p ds = fact_id <$> ds.
Proof. revert p. induction ds as [|d ds IH]; intros p; [done|]. cbn [fact_rows]. by rewrite !fmap_cons, IH. Qed.

Lemma stored_entry db es L e L' : stores db es L -> entry_typed e -> enters L e L' ->
  exists db', commit_transaction db (en_session e) (en_version e) (en_drafts e)
      = Ok (db', mkCommitResult Committed (en_version e + 1) (entry_positions e)) /\
    stores db' (es ++ [e]) L' /\ same_operational db db'.
Proof.
  intros Hst He Hen. pose proof (log_run_wf _ _ _ ledger_default_wf (so_run _ _ _ Hst)) as Hw.
  destruct (enters_facts _ _ _ Hw Hen) as [Hv Hfirst Hfs Hv' [Hu Hb] Ho (P & Hpr & _)].
  pose proof Hen as (Had & N & Hsc & HvN & HL)%enters_iff.
  unfold commit_transaction. rewrite (stores_load _ _ _ Hst), Hen. cbn [map_err disposition result_positions result_session_version].
  rewrite bool_decide_eq_false_2 by done.
  assert (Hlast : last (entry_positions e) = Some (en_first e + Z.of_nat (length (en_drafts e)) - 1)).
  { apply last_positions. pose proof (et_nonempty e He). by destruct (en_drafts e). }
  rewrite Hlast. cbn [ok_or].
  set (row' := mkSessionRow (encode_u64 (en_version e + 1)) (encode_u64 (en_first e + Z.of_nat (length (en_drafts e)) - 1))).
  set (db1 := db <| ledger_sessions ::= <[en_session e := row']> |>).
  assert (Hup : update_session (insert_session db (en_session e)) (en_session e) (en_version e + 1)
    (en_first e + Z.of_nat (length (en_drafts e)) - 1) (en_version e) = Some db1).
  { unfold update_session, insert_session. rewrite (so_sessions _ _ _ Hst). unfold session_of in Hv.
    destruct (sessions L !! en_session e) as [S|] eqn:ES; simpl in Hv |- *.
    - rewrite (so_sessions _ _ _ Hst), ES. cbn [fmap option_fmap option_map session_row se_version]. rewrite Hv, String.eqb_refl. done.
    - rewrite lookup_insert_eq. cbn [se_version]. rewrite <-Hv, String.eqb_refl. f_equal. unfold db1. simpl. rewrite insert_insert_eq. unfold row'. by rewrite <-Hv. }
  rewrite Hup. cbn [ok_or].
  assert (Hfold : forall db0, try_fold (fun db (entry : FactDraft * Z) =>
      insert_fact db (stored_row (en_session e) (en_version e + 1) entry.1 entry.2)) db0 (zip (en_drafts e) (entry_positions e))
    = try_fold insert_fact db0 (entry_rows e)).
  { unfold entry_rows. rewrite fact_rows_zip. fold (entry_positions e). generalize (zip (en_drafts e) (entry_positions e)) as l.
    induction l as [|x l IH]; intros db0; [done|]. simpl. by destruct (insert_fact db0 _). }
  rewrite Hfold. destruct (et_positions e He) as [Hp1 Hp2].
  destruct (prepared_batch "model.prepared" model_request_id knows_model knows_model_mono knows_model_new
    (fun s m => proj1 (knows_begin s m)) _ _ _ Hpr) as (Hnm & _).
  destruct (prepared_batch "effect.prepared" tool_invocation_id knows_tool knows_tool_mono knows_tool_new
    (fun s m => proj2 (knows_begin s m)) _ _ _ Hpr) as (Hnt & _).
  assert (Hids : st_fact_id <$> entry_rows e = fact_id <$> en_drafts e).
  { apply rows_ids. }
  destruct (insert_rows (entry_rows e) db1) as (table & Hins & Hperm & Hkeys).
  - apply entry_static; [apply He|by eexists|]. unfold db1. simpl. rewrite lookup_insert_eq. eauto.
  - rewrite Hids. apply Had.
  - intros r (d & q & Hd & -> & _)%elem_of_fact_rows. simpl. destruct (ledger_facts db !! fact_id d) as [o|] eqn:Eo; [|done].
    destruct (stores_row _ _ _ _ _ Hst Eo) as (e0 & d0 & q0 & _ & _ & _ & Hx).
    pose proof (ad_fresh _ _ _ Had) as Hf. rewrite Forall_forall in Hf. by rewrite Hf in Hx.
  - simpl. intros r id o (d & q & Hin & ->)%entry_rows_zip Ho'. by eapply new_rows_apart.
  - apply batch_rows_apart; [lia|lia|done..].
  - rewrite Hins. eexists. split; [done|]. split; [|done]. split; simpl.
    + apply log_run_app. exists L. split; [apply Hst|]. econstructor; [done|constructor].
    + apply Forall_app. split; [apply Hst|by constructor].
    + rewrite Hperm. unfold db1. simpl. rewrite (so_rows _ _ _ Hst), bind_app. simpl. by rewrite app_nil_r.
    + intros id row Hrow. destruct (Hkeys _ _ Hrow) as [Ho'|]; [|done]. by apply (so_keys _ _ _ Hst).
    + intros sid. subst L'. simpl. destruct (decide (en_session e = sid)) as [<-|Hn].
      * rewrite !lookup_insert_eq. simpl. f_equal. unfold row', session_row. rewrite HvN. f_equal.
        unfold session_of in Hfs at 1. simpl in Hfs. rewrite lookup_insert_eq in Hfs. simpl in Hfs.
        rewrite Hfs, length_app, length_durable. f_equal. lia.
      * rewrite !lookup_insert_ne by done. apply Hst.
Qed.

(** ** Refinement *)

Lemma commit_stored db es L sid v ds : stores db es L -> sid <> "" -> Forall draft_typed ds ->
  Z.of_nat (length (facts (session_of L sid)) + length ds) < u64_max ->
  match commit L sid v ds with
  | Ok (L', r) => exists db' es', commit_transaction db sid v ds = Ok (db', r) /\ stores db' es' L' /\ same_operational db db' /\
      forall s, (length (facts (session_of L' s)) <= length (facts (session_of L s)) + length ds)%nat
  | Err a => commit_transaction db sid v ds = Err (domain_error a)
  end.
Proof.
  intros Hst Hsid Ht Hb. destruct (commit L sid v ds) as [[L' r]|a] eqn:Ec.
  2: { unfold commit_transaction. by rewrite (stores_load _ _ _ Hst), Ec. }
  pose proof Ec as (Hne & _ & _ & Hc)%commit_inv. pose proof (log_run_wf _ _ _ ledger_default_wf (so_run _ _ _ Hst)) as Hw.
  destruct Hc as [S HS _|p next' Hfr Hv Hp Happ Hbo Hu].
  { exists db, es. split_and!; [|done|done|intros; lia]. unfold commit_transaction.
    rewrite (stores_load _ _ _ Hst), Ec. simpl. done. }
  set (e := mkEntry sid v p ds). assert (Hen : enters L e _) by exact Ec.
  destruct (enters_facts _ _ _ Hw Hen) as [_ Hfirst Hfs _ _ Ho _].
  change (en_session e) with sid in *. change (en_first e) with p in *. change (en_drafts e) with ds in *.
  destruct (session_u64 _ _ (session_of_wf L sid Hw)) as [[Hv0 _] _].
  assert (He : entry_typed e). { split; simpl; [done|done|done|rewrite Hv in Hv0; by split|lia]. }
  destruct (stored_entry db es L e _ Hst He Hen) as (db' & Hct & Hst' & Hop). exists db', (es ++ [e]). split_and!; [done..|].
  intros s. destruct (decide (s = sid)) as [->|Hn]; [rewrite Hfs, length_app, length_durable; lia|rewrite Ho by done; lia].
Qed.

Record Command := mkCommand {
  wr_session : string;
  wr_version : Z;
  wr_drafts : list FactDraft;
}.
Definition command_typed (c : Command) : Prop := wr_session c <> "" /\ Forall draft_typed (wr_drafts c).

(** A process that keeps the database, and one that keeps the state in memory. *)
Definition sqlite_step (acc : Database * list (result SqliteLedgerError CommitResult)) (c : Command) :=
  match sqlite_commit acc.1 (wr_session c) (wr_version c) (wr_drafts c) with
  | Ok (db, r) => (db, acc.2 ++ [Ok r])
  | Err e => (acc.1, acc.2 ++ [Err e])
  end.
Definition memory_step (acc : LedgerState * list (result SqliteLedgerError CommitResult)) (c : Command) :=
  match commit acc.1 (wr_session c) (wr_version c) (wr_drafts c) with
  | Ok (L, r) => (L, acc.2 ++ [Ok r])
  | Err a => (acc.1, acc.2 ++ [Err (domain_error a)])
  end.
Definition sqlite_run (commands : list Command) := foldl sqlite_step (database_empty, []) commands.
Definition memory_run (commands : list Command) := foldl memory_step (ledger_default, []) commands.

Lemma stores_empty : stores database_empty [] ledger_default.
Proof. split; try done. constructor. Qed.

Lemma run_stored commands db es L outs n : stores db es L -> (forall s, length (facts (session_of L s)) <= n)%nat ->
  Forall command_typed commands -> Z.of_nat (n + length (commands ≫= wr_drafts)) < u64_max ->
  exists es', (foldl sqlite_step (db, outs) commands).2 = (foldl memory_step (L, outs) commands).2 /\
    stores (foldl sqlite_step (db, outs) commands).1 es' (foldl memory_step (L, outs) commands).1.
Proof.
  revert db es L outs n. induction commands as [|c commands IH]; intros db es L outs n Hst Hn Ht Hb; [by exists es|].
  apply Forall_cons in Ht as [[Hs Hd] Ht]. rewrite bind_cons, length_app in Hb.
  pose proof (commit_stored db es L (wr_session c) (wr_version c) (wr_drafts c) Hst Hs Hd) as Hc.
  specialize (Hn (wr_session c)) as Hn1. specialize (Hc ltac:(lia)). cbn [foldl]. unfold sqlite_step at 2 4, memory_step at 2 4, sqlite_commit.
  cbn [fst snd]. destruct (commit L _ _ _) as [[L' r]|a].
  - destruct Hc as (db' & es' & -> & Hst' & _ & Hlen). apply (IH db' es' L' _ (n + length (wr_drafts c))%nat); [done| |done|lia].
    intros s. specialize (Hlen s). specialize (Hn s). lia.
  - rewrite Hc. apply (IH db es L _ n); [done..|lia].
Qed.

(** C28: Over any sequence of commands for any sessions, a process that keeps only the database
    answers each commit, errors and replays included, as a process that keeps the ledger state in
    memory, and what the loader rebuilds from the rows, session by session, is the very state of
    the other: no row of a batch is refused by a constraint of the tables. *)
Theorem sqlite_refines_ledger commands : Forall command_typed commands ->
  Z.of_nat (length (commands ≫= wr_drafts)) < u64_max ->
  (sqlite_run commands).2 = (memory_run commands).2 /\ load_state (sqlite_run commands).1 = Ok (memory_run commands).1.
Proof.
  intros Ht Hb. destruct (run_stored commands database_empty [] ledger_default [] 0 stores_empty) as (es & Hout & Hst);
    [done|done|done|]. split; [done|]. by eapply stores_load.
Qed.

(** ** Execution leases *)

(** The ledger holds a terminal fact of the execution of the turn. *)
Definition ended_in (L : LedgerState) (turn execution : string) : Prop :=
  exists sid S f, sessions L !! sid = Some S /\ f ∈ facts S /\ df_turn_id f = Some turn /\ execution_terminal execution f = true.

Lemma turn_session L t sid S f : ledger_wf L -> sessions L !! sid = Some S -> f ∈ facts S -> df_turn_id f = Some t ->
  exists snapshot, load_turn L t = Ok snapshot /\ snapshot_facts snapshot = turn_facts t S.
Proof.
  intros Hw HS Hf Ht. assert (Hne : forall S' g, g ∈ turn_facts t S' <-> g ∈ facts S' /\ df_turn_id g = Some t).
  { intros S' g. unfold turn_facts. rewrite list_elem_of_In, filter_In, <-list_elem_of_In, bool_decide_eq_true. done. }
  unfold load_turn. destruct (List.find _ _) as [S'|] eqn:Ef.
  - apply find_some in Ef as [Hin Hn]. apply list_elem_of_In in Hin. unfold values in Hin.
    apply list_elem_of_fmap in Hin as ([sid' S''] & -> & Hin). apply elem_of_entries in Hin. simpl in *.
    apply negb_true_iff, Nat.eqb_neq in Hn. destruct (turn_facts t S'') as [|g l] eqn:Eg; [done|].
    assert (Hg : g ∈ turn_facts t S'') by (rewrite Eg; set_solver). apply Hne in Hg as [Hg Hgt].
    destruct (lw_indexed L Hw _ _ _ HS Hf) as (d & Hd & Hfd), (lw_indexed L Hw _ _ _ Hin Hg) as (d' & Hd' & Hgd).
    assert (E : sid = sid').
    { apply (lw_isolated L Hw _ _ _ _ Hd Hd'). simpl. unfold shares_identity.
      assert (turn_id d = Some t) as -> by (rewrite Hfd in Ht; done). assert (turn_id d' = Some t) as -> by (rewrite Hgd in Hgt; done).
      simpl. by rewrite String.eqb_refl. }
    subst sid'. rewrite HS in Hin. injection Hin as ->. eexists. split; [done|]. simpl. done.
  - exfalso. assert (Hn : negb (length (turn_facts t S) =? 0)%nat = false).
    { apply (find_none _ _ Ef S). apply list_elem_of_In. unfold values. apply list_elem_of_fmap. exists (sid, S).
      split; [done|]. by apply elem_of_entries. }
    apply negb_false_iff, Nat.eqb_eq, nil_length_inv in Hn.
    assert (Hg : f ∈ turn_facts t S) by by apply Hne. rewrite Hn in Hg. set_solver.
Qed.

Lemma ended_refuses L db t x : ledger_wf L -> load_state db = Ok L -> ended_in L t x -> require_latest_active db t x <> Ok tt.
Proof.
  intros Hw Hl (sid & S & f & HS & Hf & Ht & Hx). unfold require_latest_active. rewrite Hl. simpl.
  destruct (turn_session L t sid S f Hw HS Hf Ht) as (sn & -> & Hsn). simpl. rewrite Hsn.
  assert (existsb (execution_terminal x) (turn_facts t S) = true) as ->.
  { apply existsb_exists. exists f. split; [|done]. apply filter_In. split; [by apply list_elem_of_In|by apply bool_decide_eq_true]. }
  by rewrite andb_false_r.
Qed.

Lemma require_terminal_ended L db t x : load_state db = Ok L -> require_terminal db t x = Ok tt -> ended_in L t x.
Proof.
  intros Hl. unfold require_terminal, ledger_identity_try_from. destruct (str_is_empty x); [done|]. simpl. rewrite Hl. simpl.
  unfold load_turn. destruct (List.find _ _) as [S|] eqn:Ef; [|done]. simpl.
  destruct (existsb _ _) eqn:Ee; [|done]. intros _. apply existsb_exists in Ee as (f & Hf & Hx).
  apply filter_In in Hf as [Hf Ht]. apply find_some in Ef as [Hin _]. apply list_elem_of_In in Hin, Hf.
  unfold values in Hin. apply list_elem_of_fmap in Hin as ([sid S'] & -> & Hin). apply elem_of_entries in Hin.
  exists sid, S', f. split_and!; [done..|by bool_hyps|done].
Qed.

Lemma ended_commit L sid v ds L' r t x : ledger_wf L -> commit L sid v ds = Ok (L', r) -> ended_in L t x -> ended_in L' t x.
Proof.
  intros Hw Hc (sid0 & S & f & HS & Hf & Ht & Hx). destruct (commit_inv _ _ _ _ _ _ Hc) as (Hne & _ & _ & Hcom).
  destruct Hcom as [S0 HS0 _|p next' Hfr Hv Hp Happ Hbo Hu]; [by exists sid0, S, f|].
  destruct (decide (sid = sid0)) as [<-|Hn].
  - exists sid. eexists _, f. simpl. rewrite lookup_insert_eq. split_and!; [done| |done|done]. simpl.
    rewrite (app_facts _ _ _ _ _ _ Happ). unfold session_of. rewrite HS. simpl. apply elem_of_app. by left.
  - exists sid0, S, f. simpl. rewrite lookup_insert_ne by done. done.
Qed.

(** Room for a batch below the last position. *)
Definition fits (db : Database) (sid : string) (ds : list FactDraft) : Prop :=
  forall L, load_state db = Ok L -> Z.of_nat (length (facts (session_of L sid)) + length ds) < u64_max.

(** One operation of a worker on the database, with the leases granted so far. *)
Inductive served : Database -> list ExecutionLease -> Database -> list ExecutionLease -> Prop :=
  | served_commit db granted sid v ds db' r : sid <> "" -> Forall draft_typed ds -> fits db sid ds ->
      sqlite_commit db sid v ds = Ok (db', r) -> served db granted db' granted
  | served_leased db granted lease sid v ds db' r : sid <> "" -> Forall draft_typed ds -> fits db sid ds ->
      commit_leased db lease sid v ds = Ok (db', r) -> served db granted db' granted
  | served_acquire db granted request db' lease :
      acquire_execution_lease db request = Ok (db', lease) -> served db granted db' (lease :: granted)
  | served_release db granted lease db' : release_execution_lease db lease = Ok db' -> served db granted db' granted
  | served_schedule_acquire db granted request db' lease :
      acquire_schedule_lease db request = Ok (db', lease) -> served db granted db' granted
  | served_schedule_commit db granted lease now v ds db' r : sc_session_id lease <> "" -> Forall draft_typed ds ->
      fits db (sc_session_id lease) ds -> commit_schedule_leased db lease now v ds = Ok (db', r) -> served db granted db' granted
  | served_schedule_release db granted lease db' : release_schedule_lease db lease = Ok db' -> served db granted db' granted
  | served_clock db granted boot tick duration db' reading :
      reserve_monotonic_lease db boot tick duration = Ok (db', reading) -> served db granted db' granted.

Inductive worked : Database -> list ExecutionLease -> Database -> list ExecutionLease -> Prop :=
  | worked_refl db granted : worked db granted db granted
  | worked_step db granted db1 granted1 db2 granted2 :
      served db granted db1 granted1 -> worked db1 granted1 db2 granted2 -> worked db granted db2 granted2.

Definition owns (db : Database) (lease : ExecutionLease) : Prop := require_owned db lease = Ok tt.

Record lease_state (db : Database) (granted : list ExecutionLease) (L : LedgerState) : Prop := {
  ls_stores : exists es, stores db es L;
  ls_leases : forall lease, lease ∈ granted -> owns db lease \/ ended_in L (le_turn_id lease) (le_execution_id lease);
}.

Lemma owns_iff db lease : owns db lease <-> exists row, execution_leases db !! le_turn_id lease = Some row /\
  xl_execution_id row = le_execution_id lease /\ xl_owner_id row = le_owner_id lease /\ xl_lease_token row = le_lease_token lease.
Proof.
  unfold owns, require_owned. destruct (execution_leases db !! le_turn_id lease) as [row|]; simpl.
  - unfold lease_owned_by. destruct (_ && _) eqn:E.
    + bool_hyps. split; [|done]. intros _. eauto.
    + split; [done|]. intros (row' & [= <-] & H1 & H2 & H3). by rewrite H1, H2, H3, !String.eqb_refl in E.
  - split; [done|]. by intros (row & ? & _).
Qed.

Lemma owns_same db db' lease : execution_leases db' = execution_leases db -> owns db' lease <-> owns db lease.
Proof. intros E. unfold owns, require_owned. by rewrite E. Qed.

Lemma stores_same db db' es L : ledger_facts db' = ledger_facts db -> ledger_sessions db' = ledger_sessions db ->
  stores db es L -> stores db' es L.
Proof. intros E1 E2 [? ? ? ? ?]. split; rewrite ?E1, ?E2; done. Qed.

Lemma commit_served db es L sid v ds db' r : stores db es L -> sid <> "" -> Forall draft_typed ds -> fits db sid ds ->
  commit_transaction db sid v ds = Ok (db', r) ->
  exists L' es', commit L sid v ds = Ok (L', r) /\ stores db' es' L' /\ same_operational db db'.
Proof.
  intros Hst Hs Ht Hf Hc. pose proof (commit_stored db es L sid v ds Hst Hs Ht (Hf L (stores_load _ _ _ Hst))) as Hm.
  destruct (commit L sid v ds) as [[L' r']|a]; [|congruence]. destruct Hm as (db2 & es' & Hc' & Hst' & Hop & _).
  rewrite Hc in Hc'. injection Hc' as <- <-. eauto.
Qed.

(** What one operation keeps: ended executions stay ended, and the lease of an ended
    execution that is not owned stays so. *)
Record lease_step (db : Database) (L : LedgerState) (db' : Database) (granted' : list ExecutionLease) (L' : LedgerState) : Prop := {
  lp_state : lease_state db' granted' L';
  lp_ended : forall t x, ended_in L t x -> ended_in L' t x;
  lp_lost : forall lease, ended_in L (le_turn_id lease) (le_execution_id lease) -> ~ owns db lease -> ~ owns db' lease;
}.

Lemma step_of_commit db granted L sid v ds db' r : lease_state db granted L -> sid <> "" -> Forall draft_typed ds ->
  fits db sid ds -> commit_transaction db sid v ds = Ok (db', r) -> exists L', lease_step db L db' granted L'.
Proof.
  intros [[es Hst] Hl] Hs Ht Hf Hc. pose proof (log_run_wf _ _ _ ledger_default_wf (so_run _ _ _ Hst)) as Hw.
  destruct (commit_served _ _ _ _ _ _ _ _ Hst Hs Ht Hf Hc) as (L' & es' & Hcm & Hst' & Hop & _).
  assert (Hend : forall t x, ended_in L t x -> ended_in L' t x) by (intros; by eapply ended_commit).
  exists L'. split; [split; [by exists es'|]|done|].
  - intros lease Hin. rewrite (owns_same db db') by done. destruct (Hl lease Hin) as [?|?]; [by left|right; by apply Hend].
  - intros lease _. by rewrite (owns_same db db').
Qed.

Lemma step_operational db granted L db' : lease_state db granted L -> ledger_facts db' = ledger_facts db ->
  ledger_sessions db' = ledger_sessions db -> execution_leases db' = execution_leases db -> lease_step db L db' granted L.
Proof.
  intros [[es Hst] Hl] E1 E2 E3. split; [split|done|].
  - exists es. by apply (stores_same db).
  - intros lease Hin. rewrite (owns_same db db') by done. by apply Hl.
  - intros lease _. by rewrite (owns_same db db').
Qed.

Lemma step_of_release db granted L lease db' : lease_state db granted L -> release_execution_lease db lease = Ok db' ->
  lease_step db L db' granted L.
Proof.
  intros [[es Hst] Hl] Hr. unfold release_execution_lease in Hr. destruct (require_owned db lease) as [[]|] eqn:Eo; [|done].
  destruct (require_terminal _ _ _) as [[]|] eqn:Et; [|done]. injection Hr as <-.
  pose proof (require_terminal_ended _ _ _ _ (stores_load _ _ _ Hst) Et) as Hend.
  assert (Hdel : forall other, owns (db <| execution_leases ::= delete (le_turn_id lease) |>) other -> owns db other).
  { intros other (row & Hrow & Hx)%owns_iff. simpl in Hrow. apply lookup_delete_Some in Hrow as [_ Hrow]. apply owns_iff. eauto. }
  split; [split|done|].
  - exists es. by apply (stores_same db).
  - intros other Hin. destruct (Hl other Hin) as [Ho|He]; [|by right].
    destruct (decide (le_turn_id other = le_turn_id lease)) as [E|Hn].
    + right. apply owns_iff in Ho as (row & Hrow & Hx & _). apply owns_iff in Eo as (row' & Hrow' & Hx' & _).
      rewrite E, Hrow' in Hrow. injection Hrow as <-. rewrite E, <-Hx, Hx'. done.
    + left. apply owns_iff in Ho as (row & Hrow & Hx). apply owns_iff. exists row. simpl. by rewrite lookup_delete_ne.
  - intros other _ Hn Ho. by apply Hn, Hdel.
Qed.

Lemma step_of_acquire db granted L request db' lease : lease_state db granted L ->
  acquire_execution_lease db request = Ok (db', lease) -> lease_step db L db' (lease :: granted) L.
Proof.
  intros [[es Hst] Hl] Ha. pose proof (stores_load _ _ _ Hst) as Hload.
  pose proof (log_run_wf _ _ _ ledger_default_wf (so_run _ _ _ Hst)) as Hw.
  unfold acquire_execution_lease in Ha. destruct (_ || _); [done|]. destruct (ok_or _ _) as [expires|]; [|done].
  destruct (require_latest_active _ _ _) as [[]|] eqn:Eact; [|done]. destruct (lease_generation db request) as [gen|] eqn:Eg; [|done].
  destruct (token_taken _ _ _); [done|]. injection Ha as <- <-.
  set (row := mkExecutionLeaseRow _ _ _ _ _).
  assert (Hnew : forall other, owns (db <| execution_leases ::= <[lr_turn_id request := row]> |>) other ->
    owns db other \/ le_turn_id other = lr_turn_id request /\ le_execution_id other = lr_execution_id request).
  { intros other (r & Hr & Hx & Ho & Htok)%owns_iff. simpl in Hr. apply lookup_insert_Some in Hr as [[E <-]|[_ Hr]].
    - right. split; [done|]. by rewrite <-Hx.
    - left. apply owns_iff. eauto. }
  split; [split|done|].
  - exists es. by apply (stores_same db).
  - intros other [->|Hin]%elem_of_cons.
    { left. apply owns_iff. exists row. simpl. rewrite lookup_insert_eq. done. }
    destruct (Hl other Hin) as [Ho|He]; [|by right]. pose proof Ho as (r & Hr & Hx & Hown & Htok)%owns_iff.
    destruct (decide (le_turn_id other = lr_turn_id request)) as [E|Hn].
    2: { left. apply owns_iff. exists r. simpl. rewrite lookup_insert_ne by done. done. }
    unfold lease_generation in Eg. rewrite <-E, Hr in Eg. destruct (lease_decode (xl_generation r)) as [g|]; [|done].
    destruct (lease_decode (xl_expires_at_ms r)) as [x|]; [|done].
    destruct (_ && _ && _) eqn:Esame.
    + bool_hyps. left. apply owns_iff. exists row. simpl. rewrite E, lookup_insert_eq. simpl. split_and!; [done|congruence..].
    + destruct (negb (xl_execution_id r =? lr_execution_id request)%string); [|by destruct (_ <? _)].
      destruct (require_terminal _ _ _) as [[]|] eqn:Et; [|done]. right. rewrite <-Hx, E.
      rewrite E in Et. by eapply require_terminal_ended.
  - intros other Hend Hn Ho. apply Hnew in Ho as [Ho|[E1 E2]]; [done|]. rewrite E1, E2 in Hend.
    by apply (ended_refuses _ _ _ _ Hw Hload Hend).
Qed.

Lemma served_step db granted db' granted' L : served db granted db' granted' -> lease_state db granted L ->
  exists L', lease_step db L db' granted' L'.
Proof.
  intros Hs Hl. destruct Hs as [? ? ? ? ? ? ? ? ? ? Hc|? ? ? ? ? ? ? ? ? ? ? Hc|? ? ? ? ? Hc|? ? ? ? Hc|? ? ? ? ? Hc
    |? ? ? ? ? ? ? ? ? ? ? Hc|? ? ? ? Hc|? ? ? ? ? ? ? Hc].
  - by eapply step_of_commit.
  - unfold commit_leased in Hc. destruct (map_err _ _); [|done]. by eapply step_of_commit.
  - exists L. by eapply step_of_acquire.
  - exists L. by eapply step_of_release.
  - exists L. unfold acquire_schedule_lease in Hc. destruct (schedule_validate_request _); [|done].
    destruct (require_active_revision _ _); [|done]. destruct (ok_or _ _); [|done]. destruct (lease_epoch_of _ _); [|done].
    destruct (_ || _); [done|]. injection Hc as <- _. by apply step_operational.
  - unfold commit_schedule_leased in Hc. destruct (map_err _ _); [|done]. destruct (map_err _ _); [|done]. by eapply step_of_commit.
  - exists L. unfold release_schedule_lease in Hc. destruct (occurrence_handled _ _ _ _ _ _) as [b|]; [|done].
    destruct (negb b); [done|]. destruct (is_some_and _ _); [|done]. injection Hc as <-. by apply step_operational.
  - exists L. unfold reserve_monotonic_lease in Hc. destruct (_ || _); [done|]. destruct (clock_origin _ _ _) as [[[[a b] c] d]|]; [|done].
    destruct (ok_or _ _); [|done]. injection Hc as <- _. by apply step_operational.
Qed.

Lemma worked_state db granted db' granted' L : worked db granted db' granted' -> lease_state db granted L ->
  exists L', lease_state db' granted' L' /\
    forall lease, ended_in L (le_turn_id lease) (le_execution_id lease) -> ~ owns db lease -> ~ owns db' lease.
Proof.
  intros Hw. revert L. induction Hw as [|db granted db1 granted1 db2 granted2 Hs Hw IH]; intros L Hl; [by exists L|].
  destruct (served_step _ _ _ _ _ Hs Hl) as (L1 & [Hl1 Hend Hlost]). destruct (IH L1 Hl1) as (L2 & Hl2 & Hlost2).
  exists L2. split; [done|]. intros lease He Hn. apply Hlost2; [by apply Hend|by apply Hlost].
Qed.

Lemma lease_state_empty : lease_state database_empty [] ledger_default.
Proof. split; [exists []; apply stores_empty|]. set_solver. Qed.

(** C29: Once the database refuses a lease it granted for an execution, no later commits,
    acquisitions, releases, schedule leases or clock readings of any worker give it back: every
    leased commit under it fails as lost. *)
Theorem lost_lease_stays_lost db granted lease db' granted' sid v ds :
  worked database_empty [] db granted -> lease ∈ granted -> require_owned db lease = Err LeaseLost ->
  worked db granted db' granted' -> commit_leased db' lease sid v ds = Err (Lease LeaseLost).
Proof.
  intros Hw Hin Hlost Hw'. destruct (worked_state _ _ _ _ _ Hw lease_state_empty) as (L & Hl & _).
  assert (Hno : ~ owns db lease) by (unfold owns; by rewrite Hlost).
  destruct (ls_leases _ _ _ Hl lease Hin) as [Ho|He]; [done|].
  destruct (worked_state _ _ _ _ _ Hw' Hl) as (L' & _ & Hstay). specialize (Hstay lease He Hno).
  unfold commit_leased. unfold owns in Hstay. unfold require_owned in Hstay |- *.
  destruct (is_some_and _ _); [by destruct Hstay|reflexivity].
Qed.
End ledger.

(** ** The persistent clock *)

(** A reading the runtime asks for: its boot, the tick of that boot, the time it reserves. *)
Record Tick := mkTick {
  tk_boot : string;
  tk_tick : Z;
  tk_duration : Z;
}.

Definition clock_step (self : Database * list (Tick * Z)) (t : Tick)
    : result SqliteLedgerError (Database * list (Tick * Z)) :=
  let? (db, reading) := reserve_monotonic_lease self.1 (tk_boot t) (tk_tick t) (tk_duration t) in
  Ok (db, self.2 ++ [(t, pm_now_ms reading)]).

(** The readings one database gives over its life, in order. *)
Definition clock_run (ticks : list Tick) : result SqliteLedgerError (Database * list (Tick * Z)) :=
  try_fold clock_step (database_empty, []) ticks.

Definition tick_typed (t : Tick) : Prop := is_u64 (tk_tick t) /\ is_u64 (tk_duration t).

(** A later reading [n] of [b] against an earlier reading [m] of [a]. *)
Definition follows (a : Tick) (m : Z) (b : string) (n : Z) : Prop := m <= n /\ (tk_boot a <> b -> m + tk_duration a < n).

(** The stored row covers the readings given. *)
Record clock_covers (row : ClockRow) (log : list (Tick * Z)) (o lo n r : Z) : Prop := {
  cv_origin : ck_boot_origin_tick row = encode_u64 o /\ is_u64 o;
  cv_logical : ck_logical_origin_tick row = encode_u64 lo /\ is_u64 lo;
  cv_last : ck_last_tick row = encode_u64 n /\ is_u64 n;
  cv_reserved : ck_reserved_until_tick row = encode_u64 r /\ is_u64 r;
  cv_bounds : lo <= n <= r;
  cv_log : forall a m, (a, m) ∈ log -> follows a m (ck_boot_revision row) n /\ m + tk_duration a <= r;
}.

Definition log_ordered (log : list (Tick * Z)) : Prop :=
  forall i j a m b n, (i < j)%nat -> log !! i = Some (a, m) -> log !! j = Some (b, n) -> follows a m (tk_boot b) n.

Definition clock_inv (self : Database * list (Tick * Z)) : Prop :=
  log_ordered self.2 /\
  match runtime_monotonic_clock self.1 with
  | None => self.2 = []
  | Some row => exists o lo n r, clock_covers row self.2 o lo n r
  end.

Lemma log_ordered_snoc log b n : log_ordered log -> (forall a m, (a, m) ∈ log -> follows a m (tk_boot b) n) ->
  log_ordered (log ++ [(b, n)]).
Proof.
  intros Ho Hn i j a m b' n' Hij Hi Hj. apply lookup_lt_Some in Hj as Hlt. rewrite length_app in Hlt. simpl in Hlt.
  rewrite lookup_app_l in Hi by lia. destruct (decide (j < length log)%nat).
  - rewrite lookup_app_l in Hj by done. exact (Ho i j a m b' n' Hij Hi Hj).
  - replace j with (length log + 0)%nat in Hj by lia. rewrite lookup_app_r in Hj by lia.
    replace (length log + 0 - length log)%nat with 0%nat in Hj by lia. injection Hj as <- <-.
    apply Hn. by eapply list_elem_of_lookup_2.
Qed.

(** What the origin of a reading guarantees about the earlier ones. *)
Lemma clock_origin_follows self boot tick o lo n r : clock_inv self -> is_u64 tick ->
  clock_origin (runtime_monotonic_clock self.1) boot tick = Ok (o, lo, n, r) ->
  is_u64 o /\ is_u64 lo /\ is_u64 n /\ is_u64 r /\ lo <= n /\
  forall a m, (a, m) ∈ self.2 -> follows a m boot n /\ m + tk_duration a <= r.
Proof.
  intros [_ Hrow] Ht. unfold clock_origin. destruct (runtime_monotonic_clock self.1) as [row|].
  2: { intros [= <- <- <- <-]. rewrite Hrow. unfold is_u64, u64_max in *. split_and!; [lia..|]. set_solver. }
  destruct Hrow as (o' & lo' & n' & r' & [[-> Ho] [-> Hlo] [-> Hn] [-> Hr] Hb Hlog]).
  rewrite !decode_encode_u64 by done. simpl. destruct (String.eqb_spec (ck_boot_revision row) boot) as [<-|Hne].
  - destruct (checked_sub tick o') as [e|] eqn:Ee; [|done]. simpl. destruct (checked_add lo' e) as [c|] eqn:Ec; [|done].
    simpl. intros [= <- <- <- <-]. apply checked_u64_some in Ee as [He _], Ec as [Hc Hcu].
    unfold is_u64 in *. split_and!; [lia..|]. intros a m [[Hm Hf] Hres]%Hlog. split; [|done]. split; [lia|].
    intros Hbt. specialize (Hf Hbt). lia.
  - destruct (checked_add r' 1) as [s|] eqn:Es; [|done]. simpl. intros [= <- <- <- <-].
    apply checked_u64_some in Es as [Hs Hsu]. unfold is_u64 in *. split_and!; [lia..|].
    intros a m [[Hm Hf] Hres]%Hlog. split; [|done]. split; [lia|]. intros _. lia.
Qed.

Lemma clock_step_inv self t self' : clock_inv self -> tick_typed t -> clock_step self t = Ok self' -> clock_inv self'.
Proof.
  intros Hinv [Ht Hd]. unfold clock_step, reserve_monotonic_lease. destruct (_ || _); [done|].
  destruct (clock_origin _ _ _) as [[[[o lo] n] r]|] eqn:Eo; [|done].
  destruct (clock_origin_follows _ _ _ _ _ _ _ Hinv Ht Eo) as (Ho & Hlo & Hn & Hr & Hle & Hlog).
  destruct (checked_add n (tk_duration t)) as [e|] eqn:Ee; [|done]. simpl. intros [= <-].
  apply checked_u64_some in Ee as [He Heu]. split; simpl.
  - apply log_ordered_snoc; [apply Hinv|]. intros a m Ha. by apply Hlog.
  - exists o, lo, n, (Z.max e r). split; simpl; try (split; [done|unfold is_u64 in *; lia]).
    intros a m [Ha|[= -> ->]%list_elem_of_singleton]%elem_of_app.
    + destruct (Hlog a m Ha) as [Hf Hres]. split; [done|lia].
    + split; [split; [lia|done]|lia].
Qed.

Lemma clock_run_inv ticks : forall self self', Forall tick_typed ticks -> clock_inv self ->
  try_fold clock_step self ticks = Ok self' -> clock_inv self'.
Proof.
  induction ticks as [|t ticks IH]; intros self self' Ht Hinv; simpl; [by intros [= <-]|].
  apply Forall_cons in Ht as [Htt Ht]. destruct (clock_step self t) as [s1|] eqn:E; [|done].
  apply IH; [done|]. by eapply clock_step_inv.
Qed.

(** C30: The readings one database gives over its life never decrease, whatever ticks the boots
    report, and a reading after a reboot lies beyond every interval reserved before it. *)
Theorem clock_never_goes_back ticks db log i j a m b n : Forall tick_typed ticks -> clock_run ticks = Ok (db, log) ->
  (i < j)%nat -> log !! i = Some (a, m) -> log !! j = Some (b, n) ->
  m <= n /\ (tk_boot a <> tk_boot b -> m + tk_duration a < n).
Proof.
  intros Ht Hrun. assert (Hinv : clock_inv (database_empty, [])) by (split; [by intros i' j' a' m' b' n' ?|done]).
  destruct (clock_run_inv _ _ _ Ht Hinv Hrun) as [Ho _]. intros Hij Hi Hj. exact (Ho i j a m b n Hij Hi Hj).
Qed.

(** ** Witnesses *)

Module SqliteSample.
#[local] Existing Instance model_externals.
Import LedgerSample.

Lemma prefix_length n : forall s, (n <= String.length s)%nat -> String.length (String.substring 0 n s) = n.
Proof. induction n as [|n IH]; intros [|c s] Hn; simpl in *; [done..|lia|]. rewrite IH; lia. Qed.

#[export] Instance model_digest_length : DigestLength.
Proof.
  intros s. unfold str_len. cbn [sha256_hex model_externals]. unfold model_digest. rewrite prefix_length; [done|].
  rewrite str_length_app. simpl. lia.
Qed.

Lemma fits_by (db : Database) sid ds :
  match load_state db with
  | Ok L => Z.of_nat (length (facts (session_of L sid)) + length ds) <? u64_max
  | Err _ => true
  end = true -> fits db sid ds.
Proof. intros Hb L HL. rewrite HL in Hb. by apply Z.ltb_lt. Qed.

Ltac prove_typed :=
  repeat apply Forall_cons_2; [split; (vm_compute; (reflexivity || discriminate || (split; discriminate))) ..|apply Forall_nil_2].

(** Two sessions, a retry, a stale writer and a batch with an unknown execution. *)
Definition commands : list Command :=
  [mkCommand "s" 0 [opened_fact "1"]; mkCommand "r" 0 [opened_fact "2"];
   mkCommand "s" 1 [turn_started_fact; execution_started_fact]; mkCommand "r" 0 [opened_fact "2"];
   mkCommand "r" 0 [closed_fact "2"]; mkCommand "r" 1 [execution_stopped_fact]; mkCommand "r" 1 [closed_fact "2"]].

Definition committed (db : Database) (version : Z) (ds : list FactDraft) : Database :=
  match sqlite_commit db "s" version ds with Ok (db, _) => db | Err _ => db end.
Definition started_db : Database :=
  committed (committed database_empty 0 [opened_fact "1"]) 1 [turn_started_fact; execution_started_fact].
Definition request : ExecutionLeaseRequest := mkLeaseRequest "t" "e" "worker" "token" 10 100.
Definition lease : ExecutionLease := mkExecutionLease "t" "e" "worker" "token" 1 110.
Definition leased_db : Database :=
  match acquire_execution_lease started_db request with Ok (db, _) => db | Err _ => started_db end.
Definition stopped_db : Database := committed leased_db 2 [execution_stopped_fact; turn_stopped_fact].
Definition released_db : Database := match release_execution_lease stopped_db lease with Ok db => db | Err _ => stopped_db end.
Definition closed_db : Database := committed released_db 3 [closed_fact "1"].

Lemma served_committed (db : Database) granted v ds : Forall draft_typed ds ->
  match load_state db with
  | Ok L => Z.of_nat (length (facts (session_of L "s")) + length ds) <? u64_max
  | Err _ => true
  end = true -> (if sqlite_commit db "s" v ds then true else false) = true -> served db granted (committed db v ds) granted.
Proof.
  intros Ht Hb Hc. unfold committed. destruct (sqlite_commit db "s" v ds) as [[db' r]|] eqn:E; [|done].
  by eapply served_commit; [..|exact E]; [|done|apply fits_by].
Qed.

Lemma released_worked : worked database_empty [] released_db [lease].
Proof.
  apply (worked_step _ _ (committed database_empty 0 [opened_fact "1"]) []).
  { apply served_committed; [prove_typed|vm_compute; reflexivity..]. }
  apply (worked_step _ _ started_db []).
  { apply served_committed; [prove_typed|vm_compute; reflexivity..]. }
  apply (worked_step _ _ leased_db [lease]).
  { apply (served_acquire _ _ request). vm_compute. reflexivity. }
  apply (worked_step _ _ stopped_db [lease]).
  { apply served_committed; [prove_typed|vm_compute; reflexivity..]. }
  apply (worked_step _ _ released_db [lease]); [|constructor].
  apply (served_release _ _ lease). vm_compute. reflexivity.
Qed.

Lemma closed_worked : worked released_db [lease] closed_db [lease].
Proof.
  apply (worked_step _ _ closed_db [lease]); [|constructor].
  apply served_committed; [prove_typed|vm_compute; reflexivity..].
Qed.

(** Three readings, the last after a reboot. *)
Definition ticks : list Tick := [mkTick "b1" 500 50; mkTick "b1" 520 10; mkTick "b2" 3 20].
End SqliteSample.

Lemma sqlite_refines_ledger_witness :
  (@sqlite_run model_externals SqliteSample.commands).2 = (@memory_run model_externals SqliteSample.commands).2.
Proof.
  apply (@sqlite_refines_ledger model_externals SqliteSample.model_digest_length SqliteSample.commands).
  - repeat apply Forall_cons_2; [split; [discriminate|SqliteSample.prove_typed] ..|apply Forall_nil_2].
  - vm_compute. reflexivity.
Defined.

Lemma lost_lease_stays_lost_witness :
  @commit_leased model_externals SqliteSample.closed_db SqliteSample.lease "s" 4 [] = Err (Lease LeaseLost).
Proof.
  apply (@lost_lease_stays_lost model_externals SqliteSample.model_digest_length SqliteSample.released_db
    [SqliteSample.lease] SqliteSample.lease SqliteSample.closed_db [SqliteSample.lease]).
  - exact SqliteSample.released_worked.
  - by apply list_elem_of_singleton.
  - vm_compute. reflexivity.
  - exact SqliteSample.closed_worked.
Defined.

Lemma clock_never_goes_back_witness : 1 + 50 < 52.
Proof.
  refine (proj2 (clock_never_goes_back SqliteSample.ticks _ _ 0 2 (mkTick "b1" 500 50) 1 (mkTick "b2" 3 20) 52
    _ eq_refl _ eq_refl eq_refl) _).
  - repeat apply Forall_cons_2; [split; vm_compute; split; discriminate ..|apply Forall_nil_2].
  - lia.
  - discriminate.
Defined.
